(* ===== verification/_CoqProject ===== *)
-Q . S2P
Prelude.v
Float64.v
MemCensus.v
MemGov.v
Bytes.v
Sha1.v
KvFile.v
KvPolicy.v
KvFs.v
KvEvict.v
KvLookup.v
KvStore.v
KvRestore.v
KvRoundtrip.v
Json.v
JsonText.v
Route.v
JobQueue.v
QueueLive.v
Text.v
Stream.v
ToolText.v
ToolParse.v
ToolHermes.v
ToolTotal.v
ToolEscape.v
ToolRoundtrip.v
ToolGate.v
DList.v
ToolMem.v
ContRegistry.v
ContInv.v
ContOps.v
ContPublish.v
ToolReplay.v
ContReplay.v
ContPolicy.v
ContSafety.v
ContTheorems.v
ToolMap.v
ToolMapSpec.v
ToolMapTheorems.v
StrTable.v
Bpe.v
BpeSpec.v
PreTok.v
PreTokSpec.v
ChatTok.v
ChatMsg.v
TokSpec.v
TokTheorems.v
Images.v
ImageUse.v
ImageKey.v
Http.v
HttpSpec.v
HttpTheorems.v
DistWire.v
DistFloat.v
DistWireSpec.v
DistRoute.v
DistRouteSpec.v
DistWork.v
DistEval.v
DistEvalSpec.v
DistTheorems.v
Gguf.v
GgufSpec.v
GgufModel.v
GgufText.v
GgufTheorems.v
Vocab.v
VocabTheorems.v
MsgJson.v
MsgRef.v
MsgTheorems.v
Ple.v
PleSpec.v
PleCache.v
PleTheorems.v
