(* ===== verification/Prelude.v ===== *)
(** * ds4 host core: a verification development

    ds4 (DwarfStar) is a local inference server.  The C engine loads a model and
    runs it, and the server in [ds4_server.c] speaks three HTTP dialects (OpenAI,
    Anthropic, Responses) on top of it.  This development covers the host-side
    logic that decides what the server remembers, admits, writes to disk and
    says; the tensor kernels are outside it.

    ** The program and this library

    A request is parsed from JSON ([json_*] in [ds4_server.c]), classified onto a
    lane ([route_*]), queued ([job_queue_*]) and taken by a worker, which looks up
    a reusable prefix (the KV store, [ds4_kvstore.c]), asks for memory (the
    governor and the census, [ds4_mem_gov.h] and [ds4_mem_census.h]), generates,
    and streams the text back while watching for stop strings, reasoning tags and
    tool-call markers.  A finished message is split into reasoning, content and
    tool calls by the parser of its model family; the exact sampled text of the
    calls is remembered under their ids, and a continuation record remembers
    which session or batch bank can resume from there.

    - Prelude: fixed-width integers, byte strings as lists of Z in 0..255, spans,
      the hint and rewrite databases, the tactics [flia] and [cases].
    - Float64: the C double and float as the Standard Library's executable IEEE model.
    - MemCensus ([ds4_mem_census.h]): Modules Cell (charge and discharge of one
      ledger cell), Source (the model source table), Reconcile and TrimInject.
    - MemGov ([ds4_mem_gov.h]): the lease ledger, verdicts, mode and the seqlock
      (Module Epoch) that publishes the observations.
    - Bytes, Sha1, KvFile, KvPolicy, KvFs, KvEvict, KvLookup, KvStore, KvRestore,
      KvRoundtrip ([ds4_kvstore.c]): little-endian buffers and digests; the file
      header and trailer; when to store; the directory as a finite map from names
      to contents; eviction, lookup, the temporary-file commit, and loading.
    - Json, JsonText: the reader, the writer and the grammar they agree on.
    - Http, HttpSpec, HttpTheorems: [read_http_request] over a socket that
      delivers its bytes in pieces of any size; the grammar of a request, and what
      is accepted and refused.
    - Route, JobQueue, QueueLive: lane choice, the linked job queue with its take-out
      operations, the bounded output sink, and the progress of every queued job.
    - Text, Stream: substring search; stop lists, marker hold-back, the thinking
      tail, UTF-8 cutting.
    - ToolText (writers), ToolParse (DSML, Solar, Qwen), ToolHermes (Hermes, dots3,
      K2 and the dispatcher), ToolTotal, ToolEscape, ToolGate, ToolRoundtrip:
      tool calls as text.
    - DList, ToolMem, ContRegistry, ToolReplay, ContPolicy: the remembered tool text
      (an LRU of entries sharing text blocks) and the continuation records that pin
      it, over an explicit store of allocated objects; ContInv, ContOps, ContPublish,
      ContReplay, ContSafety, ContTheorems hold their invariant and its proofs.
      ToolMap, ToolMapSpec, ToolMapTheorems: the map of remembered calls that a
      checkpoint file carries.
    - MsgJson, MsgRef, MsgTheorems: the messages of a request in the
      OpenAI and Anthropic dialects with the strings their parsers own, what the
      parsers make of JSON values, and what they free.
    - Images, ImageUse, ImageKey: base64 pictures of a request, their references in
      the messages, the cache text with its markers and the expanded tokens.
    - Gguf, GgufSpec, GgufModel, GgufText, GgufTheorems ([ds4.c]): the tables of a
      model file, the typed reads of its metadata, split files; Vocab and VocabTheorems:
      the vocabulary that is loaded from it ([vocab_load]).
    - StrTable, Bpe, BpeSpec, PreTok, PreTokSpec, ChatTok, ChatMsg, TokSpec,
      TokTheorems ([ds4.c]): the hash table of strings, byte-level BPE, the
      pre-tokenizers of the model families, chat prompts and messages.
    - DistWire, DistFloat, DistRoute, DistWork, DistEval ([ds4_distributed.c]): the
      wire records, the activation formats, the registry of workers and the search
      for a route, the work of a worker, the relay of results and the coordinator's
      evaluation of a span; DistWireSpec, DistRouteSpec, DistEvalSpec and DistTheorems
      hold the proofs.
    - Ple, PleSpec ([ds4_ple.c]): the rows that n-grams select, the layout of the
      embedding sidecar with its validations, the search for a row; PleCache,
      PleTheorems: its page cache with readers and I/O workers as threads whose steps
      are the critical sections of [cache_request_page], [cache_wait_ready],
      [cache_worker] and the functions around them.

    A C struct is a Record, an enum or tagged union an Inductive type, an
    operation a Definition or Fixpoint that takes the state and returns it.  A
    function that can fail returns an option or a sum; a loop whose recursion is
    not structural takes fuel.  Pointers that matter are keys of a finite map of
    the objects allocated at the moment, and a dereference of an absent key is
    [None], so a theorem that an operation returns [Some] also says that it
    touches no freed object; reads of the mapped model file have an outcome of
    their own for a place outside the mapping, with the same effect.

    ** What the theorems show

    - Refinement: the census cell and the governor's verdict implement an abstract
      ledger; the job queue implements a list; the hash table answers like a finite
      map; streaming SHA-1 is the digest of the whole input.
    - Round trips: the cache file header, digests as names, a stored checkpoint
      that is found again, tool calls written and read back (DSML, Hermes), the tool
      map, the cache text of pictures, wire records, activations, the metadata and
      tensors of a model file, and text through the tokenizer and back.
    - Equivalence: the vocabulary loaded from a model file tokenizes as the one a host
      installs; the lane decision is its table; the semantic accumulator stops where a
      search of the whole text would; the n-gram rows of a text, however it is cut into
      batches, are those of their definition.
    - Safety: a commit is atomic; a restore accepts only bytes whose digest and
      length agree; eviction spares what it must; a marker inside the reasoning is
      never taken for a call; arguments cannot close their element; tool output
      cannot leave its frame; a live frontier's remembered text survives; no freed
      record is reached; no read of a model file leaves its mapping;
      the messages of a request free no string twice unless a member is repeated; a
      view of embedding rows shows the bytes of the file, whatever other threads do.
    - Invariant: the page cache stays coherent in every reachable configuration.
    - Functional behaviour: messages are read by the names of their members, in any
      order; a request is read whole however the socket cuts it, and
      a short one is refused; a route is found exactly when there is one, and every
      worker accepts it; a span sent along a route gives the logits of the composed
      slices, and at 32 bits those of one machine.
    - Bounds: the sink stays within its limit, a stop string is found at the first
      place it occurs and nothing after it is emitted, UTF-8 is never cut inside a
      character, the nesting of JSON is bounded.
    - Termination and progress: every parser returns with the fuel stated, the
      pruning walk with its restarts ends, every queued job is served, every page that
      loads is settled and wakes who waits for it.

    ** Bounds and fuel

    JSON nesting uses MAX_NESTING (256), the program's own constant.  The
    scanning loops take the length of the remaining text plus one: each iteration
    consumes at least one byte, and the termination theorems show the fuel is
    never exhausted.  The walks over linked lists take the number of linked
    objects; the pruning walk, which restarts, takes the square of it.  Reading
    from a socket takes the number of bytes still to come; the search for a route
    takes one more than the number of layers, because every worker of a path starts
    at a later layer than the one before.  The loops over a model file take its length
    plus one: every entry takes bytes, however many the header promises.

    ** Assumed

    The file system, the clock, the engine and malloc are parameters or explicit
    inputs.  The file operations are those of one process, a rename is atomic and
    a failed operation leaves the directory as it was.  malloc returns an address
    not in use and does not fail (the program exits otherwise); the two tables of a
    model file, whose sizes the file promises, may fail.  The vendored
    radix tree ([rax.c]) is a finite map from byte strings to pointers, its
    documented behaviour; qsort sorts; the picture decoder is a function of the
    bytes.  What the distributed theorems need of the engine is the record [layered]
    of DistEvalSpec: a slice that the engine takes ([slice_valid]: layers inside the
    model, a hidden state for later layers, logits only from the last one, tokens that
    fit its caps) does not fail in a session that holds a prefix, and is a function of
    the prefix, the tokens and the hidden state.  The sidecar files do
    not change; a read returns a whole page of them or fails; a thread on a condition
    variable may wake for no reason; fewer than 2^64 pages are requested, so that the
    access clock does not wrap.  Integer fields that
    count objects in memory are not wrapped; sizes, stamps and lengths that come
    from input are.

    ** Not modelled

    The model executor (most of [ds4.c], the CUDA, Metal and ROCm sources) is
    numerical code over device memory and is outside a kernel-checked host model.
    Around the messages, the bodies of requests (tool schemas, the Responses input,
    the defaults that ask the engine) and the SSE writers are left out: they are long
    and mostly say which field goes where.  So are the snapshots and the pipelined
    prefill of the distributed workers, which are threads over sockets, the tensor
    directory that a host hands over instead of a model file, and the command line
    tools.  Vendored libraries and the quantisation tools are left out, and the Rust
    host calls into this code.  Of the embedding sidecar the JSON of the manifest,
    the opening of files, the start and end of threads and the time measurements are
    left out. *)

From Stdlib Require Export ZArith Lia.
From Stdlib Require Export Ascii.
From Stdlib Require Import String.
From stdpp Require Export base tactics numbers option list fin_maps gmap.
From stdpp Require Export strings.

#[global] Open Scope Z_scope.
#[export] Set Default Goal Selector "!".

Declare Scope ds4_scope.
Delimit Scope ds4_scope with ds4.
#[global] Open Scope ds4_scope.

Create HintDb ds4 discriminated.
Create Rewrite HintDb ds4.

(** ** Fixed-width C integers *)

(** [wrap w z] is the value an unsigned [w]-bit C object holds after it is
    assigned the mathematical integer [z]. *)
Definition wrap (w z : Z) : Z := z mod 2 ^ w.

Arguments wrap : simpl never.

Abbreviation u8 := (wrap 8).
Abbreviation u16 := (wrap 16).
Abbreviation u32 := (wrap 32).
Abbreviation u64 := (wrap 64).

Abbreviation UINT32_MAX := 4294967295 (only parsing).
Abbreviation UINT64_MAX := 18446744073709551615 (only parsing).
Abbreviation SIZE_MAX := 18446744073709551615 (only parsing).
Abbreviation INT_MAX := 2147483647 (only parsing).
Abbreviation INT64_MAX := 9223372036854775807 (only parsing).

(** [fits w z]: [z] is representable in an unsigned [w]-bit object. *)
Definition fits (w z : Z) : Prop := 0 <= z < 2 ^ w.

(** Conversion to a signed 32-bit [int], as gcc and clang implement it for an
    out-of-range value. *)
Definition i32 (z : Z) : Z := (z + 2 ^ 31) mod 2 ^ 32 - 2 ^ 31.

Lemma wrap_fits w z : 0 <= w -> fits w (wrap w z).
Proof. intros Hw. apply Z.mod_pos_bound. by apply Z.pow_pos_nonneg. Qed.

Lemma wrap_id w z : fits w z -> wrap w z = z.
Proof. intros H. by apply Z.mod_small. Qed.

Lemma wrap_wrap w z : 0 <= w -> wrap w (wrap w z) = wrap w z.
Proof. intros Hw. by apply wrap_id, wrap_fits. Qed.

Lemma i32_id z : - 2 ^ 31 <= z < 2 ^ 31 -> i32 z = z.
Proof. intros H. unfold i32. rewrite Z.mod_small; lia. Qed.

#[export] Hint Resolve wrap_fits : ds4.

(** [flia] is [lia] with the widths of [fits] and [wrap] spelled out. *)
Ltac unfold_widths :=
  repeat match goal with
  | H : fits ?w ?z |- _ =>
      let w' := eval vm_compute in (2 ^ w) in change (0 <= z < w') in H
  | |- context [fits ?w ?z] =>
      let w' := eval vm_compute in (2 ^ w) in change (fits w z) with (0 <= z < w')
  end.
Ltac flia := unfold_widths; lia.

(** Case analysis on every boolean test and match of the goal. *)
Ltac cases := repeat (case_match; simplify_eq/=); try done.

(** ** Bytes and C strings *)

(** A byte is a [Z] in [0, 256); a buffer is the list of its bytes; a C string
    is the list of the bytes before its terminating NUL. *)
Abbreviation bytes := (list Z) (only parsing).
Abbreviation byte_ok := (fits 8) (only parsing).
Abbreviation bytes_ok := (Forall (fits 8)) (only parsing).

(** The bytes of a string literal. *)
Definition bs (s : string) : list Z :=
  map (fun c => Z.of_N (N_of_ascii c)) (list_ascii_of_string s).

(** One character constant. *)
Definition ch (c : ascii) : Z := Z.of_N (N_of_ascii c).

Arguments ch c%_char_scope.
Arguments bs s%_string_scope : simpl never.

(** Length of a buffer as a C size. *)
Definition blen {A} (l : list A) : Z := Z.of_nat (length l).

Lemma blen_nonneg {A} (l : list A) : 0 <= blen l.
Proof. unfold blen. lia. Qed.
Lemma blen_nil {A} : blen (@nil A) = 0.
Proof. done. Qed.
Lemma blen_cons {A} (x : A) l : blen (x :: l) = 1 + blen l.
Proof. unfold blen. simpl. lia. Qed.
Lemma blen_app {A} (l k : list A) : blen (l ++ k) = blen l + blen k.
Proof. unfold blen. rewrite length_app. lia. Qed.
Lemma blen_snoc {A} (l : list A) x : blen (l ++ [x]) = blen l + 1.
Proof. by rewrite blen_app. Qed.
#[export] Hint Rewrite @blen_nil @blen_cons @blen_app : ds4.

(** The bytes of a C string: none of them is the terminating NUL. *)
Definition cstring (s : list Z) : Prop := Forall (fun c => 0 < c < 256) s.
Definition cstringb (s : list Z) : bool := forallb (fun c => (0 <? c) && (c <? 256)) s.

Lemma cstringb_ok s : cstringb s = true -> cstring s.
Proof.
  unfold cstringb, cstring. rewrite forallb_forall, List.Forall_forall.
  intros H c Hc. specialize (H c Hc). lia.
Qed.

(** A decision procedure for byte lists. *)
Definition bytes_okb (l : list Z) : bool := forallb (fun c => (0 <=? c) && (c <? 256)) l.

Lemma bytes_okb_ok l : bytes_okb l = true -> bytes_ok l.
Proof.
  unfold bytes_okb. rewrite forallb_forall, List.Forall_forall.
  intros H c Hc. specialize (H c Hc). flia.
Qed.

(** [strcmp(a, b) == 0]. *)
Definition streq (a b : list Z) : bool := bool_decide (a = b).

(** The first [n] elements, [n] a C size. *)
Definition ztake {A} (n : Z) (l : list A) : list A := take (Z.to_nat n) l.
Definition zdrop {A} (n : Z) (l : list A) : list A := drop (Z.to_nat n) l.

Lemma blen_ztake {A} n (l : list A) : 0 <= n <= blen l -> blen (ztake n l) = n.
Proof. unfold blen, ztake. intros. rewrite length_take. lia. Qed.
Lemma blen_zdrop {A} n (l : list A) : 0 <= n <= blen l -> blen (zdrop n l) = blen l - n.
Proof. unfold blen, zdrop. intros. rewrite length_drop. lia. Qed.

Lemma ztake_zdrop {A} n (l : list A) : ztake n l ++ zdrop n l = l.
Proof. apply take_drop. Qed.
Lemma ztake_ztake {A} n (l : list A) : ztake n (ztake n l) = ztake n l.
Proof. unfold ztake. by rewrite take_take, Nat.min_id. Qed.
Lemma zdrop_0 {A} (l : list A) : zdrop 0 l = l.
Proof. done. Qed.
Lemma ztake_ge {A} n (l : list A) : blen l <= n -> ztake n l = l.
Proof. intros H. unfold ztake, blen in *. apply take_ge. lia. Qed.
Lemma zdrop_ge {A} n (l : list A) : blen l <= n -> zdrop n l = [].
Proof. intros H. unfold zdrop, blen in *. apply drop_ge. lia. Qed.
Lemma ztake_app {A} (l k : list A) : ztake (blen l) (l ++ k) = l.
Proof. unfold ztake, blen. rewrite Nat2Z.id. apply take_app_length. Qed.
Lemma zdrop_app {A} (l k : list A) : zdrop (blen l) (l ++ k) = k.
Proof. unfold zdrop, blen. rewrite Nat2Z.id. apply drop_app_length. Qed.

(** Reading an array cell; out of range reads give [d]. *)
Definition znth {A} (d : A) (l : list A) (i : Z) : A := nth (Z.to_nat i) l d.

Lemma znth_Forall {A} (P : A -> Prop) d (l : list A) i : Forall P l -> P d -> P (znth d l i).
Proof.
  intros Hl Hd. unfold znth. destruct (nth_in_or_default (Z.to_nat i) l d) as [Hin| ->]; [|done].
  rewrite List.Forall_forall in Hl. by apply Hl.
Qed.
Lemma znth_lookup {A} d (l : list A) i x : l !! Z.to_nat i = Some x -> znth d l i = x.
Proof. intros H. unfold znth. rewrite nth_lookup, H. done. Qed.

Lemma forallb_Forall {A} (f : A -> bool) (l : list A) :
  forallb f l = true <-> Forall (fun x => f x = true) l.
Proof. rewrite forallb_forall, List.Forall_forall. done. Qed.

(** A decidable property checked at every integer of a range. *)
Lemma forallb_range (f : Z -> bool) N n :
  forallb f (seqZ 0 N) = true -> 0 <= n < N -> f n = true.
Proof.
  rewrite forallb_forall. intros H Hn. apply H, list_elem_of_In, elem_of_seqZ. lia.
Qed.

(** A buffer handed out as a C string ends at its first NUL. *)
Fixpoint c_str (l : list Z) : list Z :=
  match l with
  | [] => []
  | c :: l => if c =? 0 then [] else c :: c_str l
  end.

Lemma c_str_id l : cstring l -> c_str l = l.
Proof.
  induction 1 as [|c l Hc _ IH]; simpl; [done|]. destruct (Z.eqb_spec c 0); [lia|]. by rewrite IH.
Qed.

(** The longest prefix of bytes that satisfy a test, and the rest. *)
Fixpoint span (f : Z -> bool) (l : list Z) : list Z * list Z :=
  match l with
  | [] => ([], [])
  | c :: r => if f c then let '(a, b) := span f r in (c :: a, b) else ([], l)
  end.

Lemma span_app f a b : forallb f a = true -> (forall c r, b = c :: r -> f c = false) ->
  span f (a ++ b) = (a, b).
Proof.
  induction a as [|c a IH]; simpl.
  - intros _ Hb. destruct b as [|c r]; [done|]. simpl. by rewrite (Hb c r).
  - rewrite andb_true_iff. intros [-> Ha] Hb. by rewrite IH.
Qed.

Lemma span_split f l a b : span f l = (a, b) -> l = a ++ b.
Proof.
  revert a b. induction l as [|c l IH]; intros a b; simpl; [by intros [= <- <-]|].
  destruct (f c); [|by intros [= <- <-]]. destruct (span f l) as [a' b'].
  intros [= <- <-]. simpl. f_equal. by apply IH.
Qed.
