(* ===== verification/Float64.v ===== *)
(** * binary64 arithmetic

    The C [double] as the Standard Library's executable IEEE 754 model: 53 bits
    of precision, exponents below 1024, rounding to nearest even. *)

From Stdlib Require Export SpecFloat.
From S2P Require Import Prelude.

Module F64.
Definition of_Z (n : Z) : spec_float := binary_normalize 53 1024 n 0 false.
Definition mul := SFmul 53 1024.
Definition div := SFdiv 53 1024.
Definition add := SFadd 53 1024.
Definition sub := SFsub 53 1024.
Definition neg := SFopp.
Definition lt := SFltb.
Definition le := SFleb.
Definition eq := SFeqb.
(** The nearest double of a decimal literal [n / d]. *)
Definition lit (n d : Z) : spec_float := div (of_Z n) (of_Z d).
Definition zero : spec_float := S754_zero false.
(** The conversion to an integer type truncates towards zero; the values the program
    converts are finite and in range. *)
Definition trunc (f : spec_float) : Z :=
  match f with
  | S754_finite sg m e =>
      let n := if 0 <=? e then Zpos m * 2 ^ e else Zpos m / 2 ^ (- e) in
      if sg then - n else n
  | _ => 0
  end.

Definition is_nan (f : spec_float) : bool := match f with S754_nan => true | _ => false end.

(** Only a NaN is incomparable with zero. *)
Lemma lt_zero_le f : is_nan f = false -> lt zero f = negb (le f zero).
Proof. destruct f as [s|s| |s m e]; try done; by destruct s. Qed.
End F64.

(** ** The C float: binary32 and its bit patterns *)
Module F32.
Definition mul := SFmul 24 128.
Definition div := SFdiv 24 128.
Definition add := SFadd 24 128.
Definition sub := SFsub 24 128.
Definition of_Z (n : Z) : spec_float := binary_normalize 24 128 n 0 false.
Definition ldexp (f : spec_float) (e : Z) : spec_float := SFldexp 24 128 f e.
Definition lit (n d : Z) : spec_float := div (of_Z n) (of_Z d).

(** The float of a bit pattern and back. *)
Definition of_bits (b : Z) : spec_float :=
  let s := Z.testbit b 31 in
  let e := Z.land (Z.shiftr b 23) 255 in
  let m := Z.land b (2 ^ 23 - 1) in
  if e =? 255 then (if m =? 0 then S754_infinity s else S754_nan)
  else if e =? 0 then (match m with Zpos p => S754_finite s p (-149) | _ => S754_zero s end)
  else (match m + 2 ^ 23 with Zpos p => S754_finite s p (e - 150) | _ => S754_zero s end).

Definition to_bits (f : spec_float) : Z :=
  let sign (s : bool) := if s then 2 ^ 31 else 0 in
  match f with
  | S754_zero s => sign s
  | S754_infinity s => sign s + Z.shiftl 255 23
  | S754_nan => Z.shiftl 255 23 + 2 ^ 22
  | S754_finite s m e =>
      if Zpos m <? 2 ^ 23 then sign s + Zpos m else sign s + Z.shiftl (e + 150) 23 + (Zpos m - 2 ^ 23)
  end.

(** (int)floorf(f) of a float that is not negative *)
Definition floor_int (f : spec_float) : Z := F64.trunc f.
End F32.
