(* ===== verification/MemCensus.v ===== *)
(** * Allocation census (ds4_mem_census.h)

    The census cell (checked saturating counters), the model source table, the
    residency resolver, the typed memory observation, the reconciliation
    arithmetic and the trim-injection grammar. *)

From S2P Require Import Prelude.

(** A [uint64_t *faults] argument; [None] is NULL.  [bump] is
    [if (faults) ( *faults)++]. *)
Definition bump (f : option Z) : option Z := (fun n => u64 (n + 1)) <$> f.
Arguments bump : simpl never.

(** ds4_mem_consumer_class and ds4_mem_domain: the values the evaluator
    range-checks. *)
Definition DS4_MEMC_ENGINE_OTHER : Z := 0.
Definition DS4_MEMC_BATCH_BANK : Z := 12.
Definition DS4_MEMC__COUNT : Z := 17.
Definition DS4_MEMD_UNIFIED_DEVICE : Z := 0.
Definition DS4_MEMD__COUNT : Z := 2.

Module Cell.

(** ds4_mem_cell *)
Record t := mk {
  requested : Z;
  committed : Z;
  freed_requested : Z;
  freed_committed : Z;
  alloc_calls : Z;
  free_calls : Z }.

Definition zero : t := mk 0 0 0 0 0 0.

(** ds4_mem_sat_add *)
Definition sat_add (a b : Z) (f : option Z) : Z * option Z :=
  if UINT64_MAX - a <? b then (UINT64_MAX, bump f) else (a + b, f).

(** ds4_mem_cell_note_alloc; a NULL cell is [None]. *)
Definition note_alloc (c : option t) (req com : Z) (f : option Z)
    : option t * option Z :=
  match c with
  | None => (None, f)
  | Some c =>
      let '(r, f) := sat_add c.(requested) req f in
      let '(k, f) := sat_add c.(committed) com f in
      (Some (mk r k c.(freed_requested) c.(freed_committed)
                (u64 (c.(alloc_calls) + 1)) c.(free_calls)), f)
  end.

(** ds4_mem_cell_note_free *)
Definition note_free (c : option t) (req com : Z) (f : option Z)
    : option t * option Z :=
  match c with
  | None => (None, f)
  | Some c =>
      let live_req := u64 (c.(requested) - c.(freed_requested)) in
      let live_com := u64 (c.(committed) - c.(freed_committed)) in
      let '(req, f) := if live_req <? req then (live_req, bump f) else (req, f) in
      let '(com, f) := if live_com <? com then (live_com, bump f) else (com, f) in
      let '(fr, f) := sat_add c.(freed_requested) req f in
      let '(fc, f) := sat_add c.(freed_committed) com f in
      (Some (mk c.(requested) c.(committed) fr fc
                c.(alloc_calls) (u64 (c.(free_calls) + 1))), f)
  end.

(** ds4_mem_cell_live *)
Definition live (c : option t) : Z :=
  match c with
  | Some c => u64 (c.(committed) - c.(freed_committed))
  | None => 0
  end.

(** ds4_mem_cell_slack *)
Definition slack (c : option t) : Z :=
  match c with
  | None => 0
  | Some c =>
      let live_com := u64 (c.(committed) - c.(freed_committed)) in
      let live_req := u64 (c.(requested) - c.(freed_requested)) in
      if live_req <? live_com then u64 (live_com - live_req) else 0
  end.

(** ** The ledger a cell implements

    A trace of allocations and releases; the specification keeps exact,
    unbounded totals and refuses an event the counters cannot represent. *)
Inductive event := Alloc (req com : Z) | Free (req com : Z).

Definition event_ok (e : event) : Prop :=
  match e with Alloc r c | Free r c => fits 64 r /\ fits 64 c end.

Definition step (s : option t * option Z) (e : event) : option t * option Z :=
  match e with
  | Alloc r c => note_alloc s.1 r c s.2
  | Free r c => note_free s.1 r c s.2
  end.

Definition run (evs : list event) : option t * option Z :=
  foldl step (Some zero, Some 0) evs.

Record ledger := Ledger {
  tot_req : Z; tot_com : Z; rel_req : Z; rel_com : Z; n_alloc : Z; n_free : Z }.

Definition ledger_step (l : ledger) (e : event) : option ledger :=
  match e with
  | Alloc r c =>
      if (l.(tot_req) + r <=? UINT64_MAX) && (l.(tot_com) + c <=? UINT64_MAX)
      then Some (Ledger (l.(tot_req) + r) (l.(tot_com) + c)
                        l.(rel_req) l.(rel_com) (l.(n_alloc) + 1) l.(n_free))
      else None
  | Free r c =>
      if (l.(rel_req) + r <=? l.(tot_req)) && (l.(rel_com) + c <=? l.(tot_com))
      then Some (Ledger l.(tot_req) l.(tot_com) (l.(rel_req) + r)
                        (l.(rel_com) + c) l.(n_alloc) (l.(n_free) + 1))
      else None
  end.

Definition ledger_run (evs : list event) : option ledger :=
  foldl (fun l e => l ≫= fun l => ledger_step l e) (Some (Ledger 0 0 0 0 0 0)) evs.

Definition cell_of (l : ledger) : t :=
  mk l.(tot_req) l.(tot_com) l.(rel_req) l.(rel_com) l.(n_alloc) l.(n_free).

(** The state invariant of a cell. *)
Definition ok (c : t) : Prop :=
  0 <= c.(freed_requested) <= c.(requested) /\ c.(requested) <= UINT64_MAX /\
  0 <= c.(freed_committed) <= c.(committed) /\ c.(committed) <= UINT64_MAX /\
  fits 64 c.(alloc_calls) /\ fits 64 c.(free_calls).

Lemma bump_Some n : 0 <= n < UINT64_MAX -> bump (Some n) = Some (n + 1).
Proof. intros H. unfold bump. simpl. f_equal. apply wrap_id. flia. Qed.

Lemma sat_add_spec a b n :
  fits 64 a -> fits 64 b -> 0 <= n < UINT64_MAX ->
  sat_add a b (Some n) =
    if a + b <=? UINT64_MAX then (a + b, Some n) else (UINT64_MAX, Some (n + 1)).
Proof.
  intros Ha Hb Hn. unfold sat_add. rewrite bump_Some by done.
  destruct (Z.ltb_spec (UINT64_MAX - a) b), (Z.leb_spec (a + b) UINT64_MAX);
    done || lia.
Qed.

Lemma live_exact c :
  ok c ->
  u64 (c.(requested) - c.(freed_requested)) = c.(requested) - c.(freed_requested) /\
  u64 (c.(committed) - c.(freed_committed)) = c.(committed) - c.(freed_committed).
Proof. intros (? & ? & ? & ? & ? & ?). split; apply wrap_id; flia. Qed.

(** One event against the ledger: the cell follows it exactly when the ledger
    accepts the event, and counts at least one fault when it does not. *)
Definition simulates (c : t) (n : Z) (e : event) : Prop :=
  exists c' k, step (Some c, Some n) e = (Some c', Some (n + k)) /\
    0 <= k <= 4 /\ ok c' /\
    c'.(alloc_calls) <= c.(alloc_calls) + 1 /\ c'.(free_calls) <= c.(free_calls) + 1 /\
    match ledger_step (Ledger c.(requested) c.(committed) c.(freed_requested)
                         c.(freed_committed) c.(alloc_calls) c.(free_calls)) e with
    | Some l => k = 0 /\ c' = cell_of l
    | None => 0 < k
    end.

(** Closes the conjuncts of [simulates] once the witnesses are given. *)
Ltac close_simulates :=
  split; [apply f_equal2; [reflexivity | f_equal; lia] |];
  unfold ok; simpl; unfold_widths; repeat split; try done; lia.

Lemma alloc_simulates c n r k :
  ok c -> c.(alloc_calls) < UINT64_MAX -> fits 64 r -> fits 64 k ->
  0 <= n < UINT64_MAX - 4 -> simulates c n (Alloc r k).
Proof.
  intros Hok Ha Hr Hk Hn. pose proof Hok as (? & ? & ? & ? & ? & ?).
  unfold simulates, step, note_alloc; simpl.
  rewrite (wrap_id 64 (_ + 1)) by flia.
  rewrite sat_add_spec by flia.
  destruct (Z.leb_spec (c.(requested) + r) UINT64_MAX); rewrite sat_add_spec by flia;
    destruct (Z.leb_spec (c.(committed) + k) UINT64_MAX); simpl.
  - eexists _, 0. unfold_widths. close_simulates.
  - eexists _, 1. unfold_widths. close_simulates.
  - eexists _, 1. unfold_widths. close_simulates.
  - eexists _, 2. unfold_widths. close_simulates.
Qed.

Lemma free_simulates c n r k :
  ok c -> c.(free_calls) < UINT64_MAX -> fits 64 r -> fits 64 k ->
  0 <= n < UINT64_MAX - 4 -> simulates c n (Free r k).
Proof.
  intros Hok Ha Hr Hk Hn. pose proof Hok as (? & ? & ? & ? & ? & ?).
  unfold simulates, step, note_free; simpl. destruct (live_exact c Hok) as [-> ->].
  destruct (Z.ltb_spec (c.(requested) - c.(freed_requested)) r);
  rewrite ?bump_Some by lia;
  (destruct (Z.ltb_spec (c.(committed) - c.(freed_committed)) k); simpl;
  rewrite ?bump_Some by lia;
  do 2 (rewrite sat_add_spec by flia; rewrite (proj2 (Z.leb_le _ _)) by flia; simpl);
  rewrite (wrap_id 64 (_ + 1)) by flia; simpl).
  all: destruct (Z.leb_spec (c.(freed_requested) + r) c.(requested)),
         (Z.leb_spec (c.(freed_committed) + k) c.(committed)); try lia; simpl.
  - eexists _, 2. unfold_widths. close_simulates.
  - eexists _, 1. unfold_widths. close_simulates.
  - eexists _, 1. unfold_widths. close_simulates.
  - eexists _, 0. unfold_widths. close_simulates.
Qed.
Lemma step_simulates c n e :
  ok c -> c.(alloc_calls) < UINT64_MAX -> c.(free_calls) < UINT64_MAX ->
  event_ok e -> 0 <= n < UINT64_MAX - 4 -> simulates c n e.
Proof.
  intros ? ? ? He ?. destruct e; destruct He; [by apply alloc_simulates | by apply free_simulates].
Qed.

Lemma run_invariant evs :
  Forall event_ok evs -> 8 * blen evs < UINT64_MAX ->
  exists c n, run evs = (Some c, Some n) /\ ok c /\ 0 <= n <= 4 * blen evs /\
    c.(alloc_calls) <= blen evs /\ c.(free_calls) <= blen evs /\
    match ledger_run evs with
    | Some l => n = 0 /\ c = cell_of l
    | None => 0 < n
    end.
Proof.
  induction evs as [|e evs IH] using rev_ind; intros Hok Hlen.
  { exists zero, 0. unfold ok; simpl; unfold_widths. repeat split; done || lia. }
  apply Forall_app in Hok as [Hok [He _]%Forall_cons_1].
  rewrite blen_snoc in *. pose proof (blen_nonneg evs).
  destruct IH as (c & n & Hrun & Hc & Hn & Ha & Hf & Hl); [done | lia |].
  destruct (step_simulates c n e) as (c' & k & Hs & Hk & Hc' & Ha' & Hf' & Hl');
    [done | lia.. | done | lia |].
  exists c', (n + k). unfold run, ledger_run in *. rewrite !foldl_snoc, Hrun, Hs.
  do 5 (split; [done || lia |]).
  destruct (foldl _ (Some _) evs) as [l|]; simpl; [|lia].
  destruct Hl as [-> ->], l as [a b d f g h]; simpl in *.
  destruct (ledger_step _ e); [|lia]. destruct Hl' as [-> ->]. split; [lia | done].
Qed.

(** over any trace of allocation and release notes on a fresh census cell,
    the cell never leaves its state invariant (released totals within
    requested totals, all within 64 bits), and the fault counter is zero if
    and only if the trace is one the exact ledger accepts: no total overflows
    and nothing is released that is not outstanding.  In that case every
    counter of the cell is the exact ledger total and [live] is exactly
    committed minus released. *)
Theorem cell_refines_ledger evs :
  Forall event_ok evs -> 8 * blen evs < UINT64_MAX ->
  exists c n, run evs = (Some c, Some n) /\ ok c /\
    (n = 0 <-> exists l, ledger_run evs = Some l) /\
    (forall l, ledger_run evs = Some l ->
       c = cell_of l /\ live (Some c) = l.(tot_com) - l.(rel_com)).
Proof.
  intros Hok Hlen. destruct (run_invariant evs Hok Hlen)
    as (c & n & Hrun & Hc & Hn & _ & _ & Hl).
  exists c, n. split; [done|]. split; [done|].
  destruct (live_exact c Hc) as [_ Hlive].
  destruct (ledger_run evs) as [l|].
  - destruct Hl as [-> ->]. split; [split; by eauto|]. intros ? [= <-]. split; [done|]. exact Hlive.
  - split; [|done]. split; [lia | by intros [? [=]]].
Qed.

Example cell_refines_ledger_witness :
  exists c n, run [Alloc 100 128; Free 40 64; Free 60 64] = (Some c, Some n) /\ ok c /\
    (n = 0 <-> exists l, ledger_run [Alloc 100 128; Free 40 64; Free 60 64] = Some l) /\
    (forall l, ledger_run [Alloc 100 128; Free 40 64; Free 60 64] = Some l ->
       c = cell_of l /\ live (Some c) = l.(tot_com) - l.(rel_com)).
Proof.
  apply cell_refines_ledger.
  - repeat constructor; flia.
  - reflexivity.
Defined.

End Cell.

(** ** Model source table *)
Module Source.

Definition DS4_MSRC_MAX : Z := 8.

(** ds4_model_source; [map_base] is the pointer value (0 is NULL), [name] and
    [path] the C strings held by the two arrays. *)
Record t := mk {
  map_base : Z;
  map_len : Z;
  role : Z;
  fd : Z;
  residency : Z;
  name : list Z;
  path : list Z }.

(** ds4_model_source_table: the rows below [count]. *)
Abbreviation table := (list t) (only parsing).

(** ds4_msrc_copy_str with a non-zero capacity. *)
Definition copy_str (cap : Z) (src : option (list Z)) : list Z :=
  match src with
  | Some s => ztake (cap - 1) s
  | None => []
  end.

(** ds4_model_source_bind: the returned handle (-1 on refusal), the table and
    the fault counter.  A NULL table is [None]. *)
Definition bind (tb : option table) (base len role fd residency : Z)
    (name path : option (list Z)) (f : option Z) : Z * option table * option Z :=
  match tb with
  | None => (-1, None, bump f)
  | Some rows =>
      if (base =? 0) || (len =? 0) then (-1, Some rows, bump f) else
      let row := mk base len role fd (u8 residency)
                    (copy_str 24 name) (copy_str 192 path) in
      match list_find (fun r => r.(map_base) = base) rows with
      | Some (i, _) => (Z.of_nat i, Some (<[i := row]> rows), f)
      | None =>
          if DS4_MSRC_MAX <=? blen rows then (-1, Some rows, bump f)
          else (blen rows, Some (rows ++ [row]), f)
      end
  end.

(** Containment test of ds4_model_source_find. *)
Definition contains (q : Z) (r : t) : bool :=
  (r.(map_base) <=? q) && (q - r.(map_base) <? r.(map_len)).

(** ds4_model_source_find *)
Definition find (tb : option table) (p : Z) : Z :=
  match tb with
  | None => -1
  | Some rows =>
      if p =? 0 then -1 else
      match list_find (fun r => r.(map_base) = p) rows with
      | Some (i, _) => Z.of_nat i
      | None =>
          match list_find (fun r => contains p r = true) rows with
          | Some (i, _) => Z.of_nat i
          | None => -1
          end
      end
  end.

(** ds4_model_source_role_name *)
Definition role_name (r : Z) : list Z :=
  if r =? 0 then bs "primary" else if r =? 1 then bs "auxiliary"
  else if r =? 2 then bs "drafter" else bs "unknown".

(** Table invariant: at most [DS4_MSRC_MAX] rows, each a non-empty mapping at a
    non-NULL base, with distinct bases. *)
Definition ok (rows : table) : Prop :=
  blen rows <= DS4_MSRC_MAX /\
  Forall (fun r => r.(map_base) <> 0 /\ 0 < r.(map_len)) rows /\
  NoDup (map map_base rows).

(** Distinct mmaps do not overlap. *)
Definition disjoint (rows : table) : Prop :=
  forall i j ri rj q, rows !! i = Some ri -> rows !! j = Some rj ->
    contains q ri = true -> contains q rj = true -> i = j.

Lemma find_base rows i r :
  ok rows -> rows !! i = Some r -> find (Some rows) r.(map_base) = Z.of_nat i.
Proof.
  intros (_ & Hall & Hnd) Hi. unfold find.
  destruct (Z.eqb_spec r.(map_base) 0) as [H0|_].
  { by apply Forall_lookup_1 with (2 := Hi) in Hall as [? _]. }
  destruct (list_find _ rows) as [[j r']|] eqn:Hf.
  - apply list_find_Some in Hf as (Hj & Hb & _). f_equal.
    eapply NoDup_lookup; [done | |]; rewrite list_lookup_fmap; [by rewrite Hj|].
    rewrite Hi. simpl. by rewrite Hb.
  - apply list_find_None in Hf. by apply Forall_lookup_1 with (2 := Hi) in Hf.
Qed.

Lemma bind_rows rows base len ro fd re name path f h rows' f' :
  ok rows -> fits 64 base -> fits 64 len ->
  bind (Some rows) base len ro fd re name path f = (h, Some rows', f') -> h <> -1 ->
  exists i row, h = Z.of_nat i /\ row.(map_base) = base /\ row.(map_len) = len /\ f' = f /\
    base <> 0 /\ 0 < len /\
    ((exists old, rows !! i = Some old /\ old.(map_base) = base /\ rows' = <[i := row]> rows) \/
     (Forall (fun r => r.(map_base) <> base) rows /\ blen rows < DS4_MSRC_MAX /\
      i = length rows /\ rows' = rows ++ [row])).
Proof.
  intros Hok Hb Hl. unfold bind. destruct (Z.eqb_spec base 0); [by intros [= <- _ _]|].
  destruct (Z.eqb_spec len 0); simpl; [by intros [= <- _ _]|].
  destruct (list_find _ rows) as [[j r']|] eqn:Hf.
  - apply list_find_Some in Hf as (Hj & Hbj & _). intros [= <- <- <-] _.
    exists j, (mk base len ro fd (u8 re) (copy_str 24 name) (copy_str 192 path)).
    do 4 (split; [reflexivity|]). split; [done|]. split; [flia|]. left. eauto.
  - apply list_find_None in Hf. destruct (Z.leb_spec DS4_MSRC_MAX (blen rows));
      intros [= <- <- <-] Hh; [done|].
    exists (length rows), (mk base len ro fd (u8 re) (copy_str 24 name) (copy_str 192 path)).
    do 4 (split; [reflexivity|]). split; [done|].
    split; [flia|]. by right.
Qed.
Lemma bind_ok rows base len ro fd re name path f h rows' f' :
  ok rows -> fits 64 base -> fits 64 len ->
  bind (Some rows) base len ro fd re name path f = (h, Some rows', f') -> ok rows'.
Proof.
  intros Hok Hb Hl H. destruct (decide (h = -1)) as [->|Hh].
  { unfold bind in H. repeat case_match; simplify_eq; unfold blen in *; done || lia. }
  destruct (bind_rows _ _ _ _ _ _ _ _ _ _ _ _ Hok Hb Hl H Hh)
    as (i & row & -> & Hrb & Hrl & -> & Hb0 & Hl0 & Hcase).
  destruct Hok as (Hlen & Hall & Hnd).
  destruct Hcase as [(old & Hi & Ho & ->) | (Hne & Hlt & -> & ->)]; unfold ok.
  - split; [unfold blen in *; by rewrite length_insert|]. split.
    + apply Forall_insert; [done|]. by rewrite Hrb, Hrl.
    + replace (map map_base (<[i:=row]> rows)) with (map map_base rows); [done|].
      rewrite <-(list_insert_id (map map_base rows) i base) at 1.
      * rewrite <-Hrb. by rewrite (list_fmap_insert map_base).
      * rewrite list_lookup_fmap, Hi. simpl. by rewrite Ho.
  - split; [rewrite blen_snoc; lia|]. split.
    + apply Forall_app. split; [done|]. constructor; [by rewrite Hrb, Hrl | done].
    + rewrite map_app. apply NoDup_app. split; [done|]. split.
      * intros x [r [-> Hin]]%list_elem_of_fmap Hx. simpl in Hx.
        apply list_elem_of_singleton in Hx. rewrite Hrb in Hx.
        rewrite Forall_forall in Hne. by apply (Hne r).
      * simpl. apply NoDup_singleton.
Qed.

(** binding a model source keeps the table well formed; a granted handle
    resolves the bound base; rebinding an already bound base keeps its handle
    and every other row; a refused bind changes no row and counts exactly one
    fault, and it happens only for a NULL or empty mapping or when a new base
    meets a table that already holds DS4_MSRC_MAX rows. *)
Theorem bind_stable rows base len ro fd re name path f h rows' f' :
  ok rows -> fits 64 base -> fits 64 len ->
  bind (Some rows) base len ro fd re name path f = (h, Some rows', f') ->
  ok rows' /\
  (h = -1 -> rows' = rows /\ f' = bump f /\
     (base = 0 \/ len = 0 \/
      (blen rows = DS4_MSRC_MAX /\ Forall (fun r => r.(map_base) <> base) rows))) /\
  (h <> -1 -> f' = f /\ find (Some rows') base = h /\
     (forall i r, rows !! i = Some r -> r.(map_base) = base -> h = Z.of_nat i) /\
     (forall i r, rows !! i = Some r -> Z.of_nat i <> h -> rows' !! i = Some r)).
Proof.
  intros Hok Hb Hl H. pose proof (bind_ok _ _ _ _ _ _ _ _ _ _ _ _ Hok Hb Hl H) as Hok'.
  split; [done|]. split.
  - intros ->. unfold bind in H. destruct Hok as [Hlen _]. clear Hok'.
    destruct (Z.eqb_spec base 0); simpl in H; [simplify_eq; auto|].
    destruct (Z.eqb_spec len 0); simpl in H; [simplify_eq; auto|].
    destruct (list_find _ rows) as [[j r']|] eqn:Hf; [simplify_eq; lia|].
    apply list_find_None in Hf.
    destruct (Z.leb_spec DS4_MSRC_MAX (blen rows)); simplify_eq.
    + do 2 (split; [done|]). do 2 right. split; [lia|done].
    + pose proof (blen_nonneg rows). lia.
  - intros Hh. destruct (bind_rows _ _ _ _ _ _ _ _ _ _ _ _ Hok Hb Hl H Hh)
      as (i & row & -> & Hrb & Hrl & -> & Hb0 & Hl0 & Hcase).
    split; [done|].
    destruct Hcase as [(old & Hi & Ho & ->) | (Hne & Hlt & -> & ->)].
    + assert (find (Some (<[i:=row]> rows)) base = Z.of_nat i) as Hfind.
      { rewrite <-Hrb. apply find_base; [done|]. apply list_lookup_insert_eq.
        by eapply lookup_lt_Some. }
      split; [done|]. split.
      * intros k r Hk Hr. f_equal. destruct Hok as (_ & _ & Hnd).
        eapply (NoDup_lookup _ _ _ base Hnd); rewrite list_lookup_fmap.
        { rewrite Hi. simpl. by rewrite Ho. } { rewrite Hk. simpl. by rewrite Hr. }
      * intros k r Hk Hki. rewrite list_lookup_insert_ne; [done|]. intros ->. lia.
    + split; [|split].
      * rewrite <-Hrb. apply find_base; [done|]. by apply list_lookup_middle.
      * intros k r Hk Hr. by apply Forall_lookup_1 with (2 := Hk) in Hne.
      * intros k r Hk _. apply lookup_app_l_Some, Hk.
Qed.

(** in a well-formed table of non-overlapping mappings, [find] returns the
    handle of the one source whose range contains the pointer, and -1 exactly
    when no source contains it. *)
Theorem find_exact rows p :
  ok rows -> disjoint rows -> p <> 0 ->
  (forall i r, rows !! i = Some r -> contains p r = true -> find (Some rows) p = Z.of_nat i) /\
  (find (Some rows) p = -1 <-> Forall (fun r => contains p r = false) rows).
Proof.
  intros Hok Hdis Hp. pose proof Hok as (_ & Hall & _).
  assert (forall i r, rows !! i = Some r -> r.(map_base) = p -> contains p r = true) as Hself.
  { intros i r Hi <-. apply Forall_lookup_1 with (2 := Hi) in Hall as [_ ?].
    unfold contains. lia. }
  assert (forall i r, rows !! i = Some r -> contains p r = true ->
            find (Some rows) p = Z.of_nat i) as Hfind.
  { intros i r Hi Hc. unfold find. destruct (Z.eqb_spec p 0); [done|].
    destruct (list_find _ rows) as [[j r']|] eqn:Hf.
    { apply list_find_Some in Hf as (Hj & Hb & _). f_equal.
      eapply (Hdis j i r' r p); eauto. }
    destruct (list_find (fun r => contains p r = true) rows) as [[j r']|] eqn:Hg.
    - apply list_find_Some in Hg as (Hj & Hb & _). f_equal. by eapply (Hdis j i r' r p).
    - apply list_find_None in Hg. by apply Forall_lookup_1 with (2 := Hi) in Hg. }
  split; [done|]. split.
  - intros Hn. apply Forall_lookup. intros i r Hi.
    destruct (contains p r) eqn:Hc; [|done]. rewrite (Hfind i r Hi Hc) in Hn. lia.
  - intros Hno. unfold find. destruct (p =? 0); [done|].
    destruct (list_find _ rows) as [[j r']|] eqn:Hf.
    { apply list_find_Some in Hf as (Hj & Hb & _). pose proof (Hself j r' Hj Hb).
      apply Forall_lookup_1 with (2 := Hj) in Hno. congruence. }
    destruct (list_find (fun r => contains p r = true) rows) as [[j r']|] eqn:Hg; [|done].
    apply list_find_Some in Hg as (Hj & Hb & _).
    apply Forall_lookup_1 with (2 := Hj) in Hno. congruence.
Qed.
Definition sample : list t :=
  [mk 4096 1000 0 3 0 (bs "base") (bs "/m.gguf"); mk 8192 500 2 4 1 (bs "drafter") []].

Lemma sample_ok : ok sample.
Proof.
  unfold ok, sample. split; [done|]. split; [repeat constructor; simpl; lia|].
  simpl. by apply (bool_decide_unpack (NoDup [4096; 8192])).
Qed.

Lemma sample_disjoint : disjoint sample.
Proof.
  intros i j ri rj q Hi Hj. unfold sample in *.
  destruct i as [|[|[]]], j as [|[|[]]]; simplify_eq/=; unfold contains; simpl; lia.
Qed.

Example bind_stable_witness :
  find (Some (<[0%nat := mk 4096 2000 0 3 0 (bs "base") (bs "/n.gguf")]> sample)) 4096 = 0.
Proof.
  edestruct (bind_stable sample 4096 2000 0 3 0 (Some (bs "base")) (Some (bs "/n.gguf"))
               (Some 0)) as (_ & _ & H).
  - exact sample_ok.
  - flia.
  - flia.
  - reflexivity.
  - apply H. done.
Defined.

Example find_exact_witness : find (Some sample) 8200 = 1.
Proof.
  refine (proj1 (find_exact sample 8200 sample_ok sample_disjoint _) 1%nat _ _ _).
  - done.
  - reflexivity.
  - reflexivity.
Defined.
End Source.

(** ** Weight residency *)
Module Residency.

(** DS4_RESIDENCY_* *)
Inductive t := EAGER_DEVICE | LAZY_COPY_DEVICE | HOST_MAPPED.

(** The messages [*why] can point to. *)
Inductive why := UNKNOWN | LEVER.

(** ds4_residency_inputs; [explicit_val = None] is the NULL pointer. *)
Record inputs := mk {
  explicit_val : option (list Z);
  legacy_no_hbm : bool;
  legacy_no_fd : bool;
  legacy_direct : bool }.

(** ds4_msrc_str_eq *)
Fixpoint str_eq_from (a b : list Z) : bool :=
  match a, b with
  | [], [] => true
  | x :: a, y :: b => if x =? y then str_eq_from a b else false
  | _, _ => false
  end.
Definition str_eq (a b : option (list Z)) : bool :=
  match a, b with
  | Some a, Some b => str_eq_from a b
  | _, _ => false
  end.

(** ds4_residency_resolve: a policy, or -1 with [*why]. *)
Definition resolve (i : option inputs) : t + why :=
  match i with
  | None => inr UNKNOWN
  | Some i =>
      match i.(explicit_val) with
      | Some (_ :: _) =>
          if i.(legacy_no_hbm) || i.(legacy_no_fd) || i.(legacy_direct) then inr LEVER
          else if str_eq i.(explicit_val) (Some (bs "eager")) then inl EAGER_DEVICE
          else if str_eq i.(explicit_val) (Some (bs "lazy")) then inl LAZY_COPY_DEVICE
          else if str_eq i.(explicit_val) (Some (bs "mapped")) then inl HOST_MAPPED
          else inr UNKNOWN
      | _ =>
          if i.(legacy_direct) then inl HOST_MAPPED
          else if i.(legacy_no_hbm) then
            inl (if i.(legacy_no_fd) then HOST_MAPPED else LAZY_COPY_DEVICE)
          else inl EAGER_DEVICE
      end
  end.

(** ds4_residency_name *)
Definition name_of (r : t) : list Z :=
  match r with
  | EAGER_DEVICE => bs "eager"
  | LAZY_COPY_DEVICE => bs "lazy"
  | HOST_MAPPED => bs "mapped"
  end.

Lemma str_eq_from_spec a b : reflect (a = b) (str_eq_from a b).
Proof.
  revert b. induction a as [|x a IH]; intros [|y b]; simpl; try by constructor.
  destruct (Z.eqb_spec x y) as [->|]; [|constructor; congruence].
  destruct (IH b); constructor; congruence.
Qed.

(** An explicit value is honoured exactly when it is the name of a policy and
    no legacy lever stands beside it. *)
Lemma resolve_explicit v h f d :
  v <> [] ->
  forall r, resolve (Some (mk (Some v) h f d)) = inl r <->
            v = name_of r /\ h = false /\ f = false /\ d = false.
Proof.
  intros Hv r. destruct v as [|x v]; [done|]. unfold resolve, str_eq; simpl explicit_val.
  cbn [legacy_no_hbm legacy_no_fd legacy_direct].
  destruct h, f, d; cbn [orb]; try (split; [done | by intros (_ & ? & ? & ?)]).
  repeat match goal with
  | |- context [str_eq_from ?a ?b] => destruct (str_eq_from_spec a b) as [->|]
  end; destruct r; split; try done; try by intros (? & _).
Qed.

(** Without an explicit value the legacy levers decide, and never conflict. *)
Lemma resolve_legacy v h f d :
  v = None \/ v = Some [] ->
  resolve (Some (mk v h f d)) =
    inl (if d || (h && f) then HOST_MAPPED else if h then LAZY_COPY_DEVICE
         else EAGER_DEVICE).
Proof. by intros [-> | ->]; destruct h, f, d. Qed.
End Residency.

(** ** Typed memory observation *)
Module Obs.

(** ds4_mem_obs_status *)
Definition OK : Z := 0.
Definition UNSUPPORTED : Z := 1.
Definition QUERY_ERROR : Z := 2.

(** ds4_mem_observation *)
Record t := mk {
  status : Z;
  source : Z;
  free_bytes : Z;
  total_bytes : Z;
  cuda_free_bytes : Z;
  meminfo_avail_bytes : Z }.

(** ds4_mem_obs_to_legacy: return code and the two out parameters, [None] for a
    NULL pointer. *)
Definition to_legacy (o : option t) (free total : option Z)
    : Z * option Z * option Z :=
  match o with
  | Some o =>
      if negb (o.(status) =? OK) then (1, free, total)
      else (0, (fun _ => o.(free_bytes)) <$> free, (fun _ => o.(total_bytes)) <$> total)
  | None => (1, free, total)
  end.

Lemma to_legacy_untouched o free total :
  let '(rc, free', total') := to_legacy o free total in
  (rc = 0 /\ exists o', o = Some o' /\ o'.(status) = OK) \/
  (rc = 1 /\ free' = free /\ total' = total).
Proof.
  destruct o as [o|]; simpl; [|by right].
  destruct (Z.eqb_spec o.(status) OK); simpl; [left | right]; by eauto.
Qed.
End Obs.

(** ** Reconciliation arithmetic *)
Module Reconcile.

(** ds4_mem_reconcile *)
Record t := mk {
  observed_delta : Z;
  census_growth : Z;
  explained : Z;
  residual : Z;
  flagged : bool }.

(** ds4_mem_i64_clamp *)
Definition clamp (v : Z) : Z := if INT64_MAX <? v then INT64_MAX else v.

(** ds4_mem_i64_sat_add *)
Definition sat_add (a b : Z) : Z :=
  if (0 <? b) && (INT64_MAX - b <? a) then INT64_MAX
  else if (b <? 0) && (a <? - INT64_MAX - b) then - INT64_MAX
  else a + b.

(** ds4_mem_reconcile_compute *)
Definition compute (boot_raw now_raw boot_census_live now_census_live
                    onetime_bytes tol_bytes : Z) : t :=
  let observed_delta := clamp boot_raw - clamp now_raw in
  let census_growth := clamp now_census_live - clamp boot_census_live in
  let explained := sat_add census_growth (clamp onetime_bytes) in
  let residual := sat_add observed_delta (- explained) in
  let mag := if residual <? 0 then - residual else residual in
  mk observed_delta census_growth explained residual (clamp tol_bytes <? mag).

(** The values a signed 64-bit object can be negated from. *)
Definition sym (z : Z) : Prop := - INT64_MAX <= z <= INT64_MAX.

(** The exact value, limited to the symmetric 64-bit range. *)
Definition limit (z : Z) : Z := Z.max (- INT64_MAX) (Z.min INT64_MAX z).

Lemma sat_add_limit a b : sym a -> sym b -> sat_add a b = limit (a + b).
Proof. unfold sym, sat_add, limit. intros. cases; lia. Qed.

Lemma clamp_min v : clamp v = Z.min INT64_MAX v.
Proof. unfold clamp. cases; lia. Qed.

(** for any six 64-bit inputs every signed intermediate of the
    reconciliation stays in [-INT64_MAX, INT64_MAX] (no signed overflow, no
    value whose negation overflows), each is the exact integer expression
    limited to that range, and the flag is raised exactly when the residual
    exceeds the clamped tolerance in absolute value. *)
Theorem compute_exact boot now bl nl one tol :
  fits 64 boot -> fits 64 now -> fits 64 bl -> fits 64 nl -> fits 64 one -> fits 64 tol ->
  let r := compute boot now bl nl one tol in
  let k := Z.min INT64_MAX in
  sym r.(observed_delta) /\ sym r.(census_growth) /\ sym r.(explained) /\
  sym r.(residual) /\
  r.(observed_delta) = k boot - k now /\
  r.(explained) = limit (k nl - k bl + k one) /\
  r.(residual) = limit (k boot - k now - limit (k nl - k bl + k one)) /\
  (r.(flagged) = true <-> k tol < Z.abs r.(residual)).
Proof.
  intros. unfold compute, r, k. simpl. rewrite !clamp_min.
  rewrite !sat_add_limit by (unfold sym, limit in *; flia).
  unfold sym, limit in *; unfold_widths.
  do 7 (split; [lia|]). case_match; lia.
Qed.

Example compute_exact_witness :
  (compute 1000 400 50 250 100 200).(flagged) = true.
Proof.
  refine (proj2 (proj2 (proj2 (proj2 (proj2 (proj2 (proj2 (proj2
    (compute_exact 1000 400 50 250 100 200 _ _ _ _ _ _)))))))) _); try flia.
  vm_compute. reflexivity.
Defined.
End Reconcile.

(** ** Trim failure-injection grammar *)
Module TrimInject.

(** ds4_trim_inject_site *)
Inductive site := UNMAP | RELEASE.

(** ds4_mem_prefix_match: the rest of [s] after [pre], or NULL. *)
Fixpoint prefix_match (s pre : list Z) {struct pre} : option (list Z) :=
  match pre with
  | [] => Some s
  | c :: pre =>
      match s with
      | x :: s => if negb (x =? c) then None else prefix_match s pre
      | [] => None
      end
  end.

Definition is_digit (d : Z) : bool := negb ((d <? 48) || (57 <? d)).

(** The digit loop of ds4_trim_inject_parse. *)
Fixpoint digits_loop (ds : list Z) (n : Z) : option Z :=
  match ds with
  | [] => Some n
  | d :: ds =>
      if (d <? 48) || (57 <? d) then None else
      let n := u64 (n * 10 + (d - 48)) in
      if UINT32_MAX <? n then None else digits_loop ds n
  end.

(** ds4_trim_inject_parse; [None] leaves both outputs untouched. *)
Definition parse (spec : option (list Z)) : option (site * Z) :=
  match spec with
  | None => None
  | Some spec =>
      let pick :=
        match prefix_match spec (bs "unmap:") with
        | Some digits => Some (UNMAP, digits)
        | None =>
            match prefix_match spec (bs "release:") with
            | Some digits => Some (RELEASE, digits)
            | None => None
            end
        end in
      match pick with
      | None => None
      | Some (st, digits) =>
          match digits with
          | [] => None
          | d :: _ =>
              if (d <? 48) || (57 <? d) then None else
              match digits_loop digits 0 with
              | None => None
              | Some n => if n =? 0 then None else Some (st, u32 n)
              end
          end
      end
  end.

(** The grammar: a site name, a colon and a decimal count. *)
Definition site_name (st : site) : list Z :=
  match st with UNMAP => bs "unmap:" | RELEASE => bs "release:" end.

Definition dec_value (ds : list Z) : Z := foldl (fun n d => n * 10 + (d - 48)) 0 ds.

Lemma prefix_match_spec s pre r : prefix_match s pre = Some r <-> s = pre ++ r.
Proof.
  revert s. induction pre as [|c pre IH]; intros s; simpl; [split; congruence|].
  destruct s as [|x s]; simpl; [done|].
  destruct (Z.eqb_spec x c) as [->|]; simpl; [rewrite IH|]; split; congruence.
Qed.

Lemma foldl_dec_mono ds n : Forall (fun d => is_digit d = true) ds -> 0 <= n ->
  n <= foldl (fun n d => n * 10 + (d - 48)) n ds.
Proof.
  revert n. induction ds as [|d ds IH]; intros n Hd Hn; simpl; [lia|].
  apply Forall_cons in Hd as [Hd1 Hd]. unfold is_digit in Hd1.
  etransitivity; [|apply IH]; [lia|done|lia].
Qed.

Lemma not_digit d : (d <? 48) || (57 <? d) = negb (is_digit d).
Proof. unfold is_digit. by rewrite negb_involutive. Qed.

Lemma digits_loop_spec ds n m : 0 <= n <= UINT32_MAX ->
  digits_loop ds n = Some m <->
  Forall (fun d => is_digit d = true) ds /\
  foldl (fun n d => n * 10 + (d - 48)) n ds = m /\ m <= UINT32_MAX.
Proof.
  revert n. induction ds as [|d ds IH]; intros n Hn; simpl.
  { split; [intros [= <-]; split; [done | lia] | by intros (_ & -> & _)]. }
  rewrite Forall_cons, not_digit.
  destruct (is_digit d) eqn:Hd; simpl; [|split; [done | by intros ((? & _) & _)]].
  unfold is_digit in Hd.
  rewrite wrap_id by flia. destruct (Z.ltb_spec UINT32_MAX (n * 10 + (d - 48))).
  - split; [done|]. intros ((_ & Hds) & Hf & Hm).
    pose proof (foldl_dec_mono ds (n * 10 + (d - 48)) Hds). lia.
  - rewrite IH by lia. tauto.
Qed.

Lemma site_names_differ r st st' ds :
  site_name st' ++ ds = site_name st ++ r -> st' = st /\ ds = r.
Proof. destruct st, st'; by intros [= <-]. Qed.

(** the trim-injection spec is accepted exactly when it is a site name
    followed by a non-empty all-digit count whose value is in
    [1, UINT32_MAX], and the parsed pair is that site and that value: the
    overflow guard inside the loop rejects nothing else. *)
Theorem parse_grammar s st n :
  parse (Some s) = Some (st, n) <->
  exists ds, s = site_name st ++ ds /\ ds <> [] /\
    Forall (fun d => is_digit d = true) ds /\ dec_value ds = n /\ 1 <= n <= UINT32_MAX.
Proof.
  assert (forall ds, parse (Some (site_name st ++ ds)) =
    match ds with
    | [] => None
    | d :: _ => if (d <? 48) || (57 <? d) then None else
        match digits_loop ds 0 with
        | None => None
        | Some n => if n =? 0 then None else Some (st, u32 n)
        end
    end) as Hp.
  { intros ds. by destruct st. }
  assert (parse (Some s) = Some (st, n) -> exists ds, s = site_name st ++ ds) as Hs.
  { unfold parse. destruct (prefix_match s (bs "unmap:")) as [r|] eqn:E1.
    { apply prefix_match_spec in E1. intros ?. cases; eauto. }
    destruct (prefix_match s (bs "release:")) as [r|] eqn:E2; [|done].
    apply prefix_match_spec in E2. intros ?. cases; eauto. }
  split.
  - intros H. destruct (Hs H) as [ds ->]. exists ds. rewrite Hp in H.
    destruct ds as [|d ds]; [done|].
    destruct ((d <? 48) || (57 <? d)); [done|].
    destruct (digits_loop _ _) as [m|] eqn:E; [|done].
    apply digits_loop_spec in E as (Hd & Hv & Hm); [|lia].
    pose proof (foldl_dec_mono (d :: ds) 0 Hd).
    destruct (Z.eqb_spec m 0); [done|]. injection H as <-. rewrite wrap_id by flia.
    split_and!; try done; lia.
  - intros (ds & -> & Hne & Hd & Hv & Hn). rewrite Hp.
    destruct ds as [|d ds]; [done|]. pose proof (Forall_inv Hd) as Hd1.
    rewrite not_digit, Hd1. simpl negb. cbv iota.
    rewrite (proj2 (digits_loop_spec (d :: ds) 0 n ltac:(lia))) by (split_and!; [done..|lia]).
    destruct (Z.eqb_spec n 0); [lia|]. by rewrite wrap_id by flia.
Qed.

Example parse_grammar_example : parse (Some (bs "release:4294967295")) = Some (RELEASE, UINT32_MAX).
Proof. reflexivity. Qed.
End TrimInject.
