(* ===== verification/MemGov.v ===== *)
(** * Memory governor (ds4_mem_gov.h)

    The lease ledger, the requester-aware admission evaluator and its exact
    arithmetic specification, the mode and comparison vocabularies, and the
    epoch protocol that publishes the ledger to concurrent readers. *)

From S2P Require Import Prelude MemCensus.

(** ds4_gov_consumer: the array index of a lease. *)
Definition DS4_GOVC__COUNT : Z := 5.

(** ds4_gov_status *)
Inductive gov_status :=
  ADMIT | REFUSE_CLASS | REFUSE_LIVE | RETRY_OBS | UNSUPPORTED | FAULT.
#[export] Instance gov_status_eq_dec : EqDecision gov_status.
Proof. solve_decision. Defined.

(** ds4_gov_lease *)
Record lease := Lease { intent : Z; resident : Z; reservation : Z }.

(** ds4_gov_ledger; [leases] is the array indexed by consumer. *)
Record ledger := Ledger {
  leases : list lease;
  floor_bytes : Z;
  substrate_outstanding : Z;
  epoch : Z }.

(** ds4_gov_claim *)
Record claim := Claim {
  requester : Z;
  memc : Z;
  domain : Z;
  proposed_outstanding : Z;
  operation_transient : Z;
  class_limit : Z }.

(** ds4_gov_quote *)
Record quote := Quote {
  q_status : gov_status;
  q_retryable : bool;
  q_requester : Z;
  q_memc : Z;
  q_domain : Z;
  q_obs_status : Z;
  q_obs_source : Z;
  q_obs_free : Z;
  q_obs_total : Z;
  q_class_limit : Z;
  q_proposed_class_bytes : Z;
  q_floor_bytes : Z;
  q_other_reservations : Z;
  q_substrate_outstanding : Z;
  q_old_intent : Z;
  q_proposed_intent : Z;
  q_total_prospective_intent : Z;
  q_operation_transient : Z;
  q_available : Z;
  q_required : Z;
  q_deficit : Z;
  q_epoch : Z }.

Definition lease0 : lease := Lease 0 0 0.
Definition lease_at (lg : ledger) (c : Z) : lease := znth lease0 lg.(leases) c.

(** [quote q = {0}]; the zero status is ADMIT. *)
Definition quote0 : quote :=
  Quote ADMIT false 0 0 0 0 0 0 0 0 0 0 0 0 0 0 0 0 0 0 0 0.

Definition fault_quote : quote :=
  Quote FAULT false 0 0 0 0 0 0 0 0 0 0 0 0 0 0 0 0 0 0 0 0.

(** What the summing loop of the evaluator carries. *)
Record sums := Sums {
  s_other : Z;        (* q.other_reservations *)
  s_unfunded : Z;     (* prospective_unfunded *)
  s_total : Z;        (* q.total_prospective_intent *)
  s_ovf : option Z;   (* the local fault counter *)
  s_bad : bool }.     (* returned early: a lease with resident > intent *)

(** The [for (c = 0; c < DS4_GOVC__COUNT; c++)] loop of ds4_gov_evaluate. *)
Fixpoint gather (req proposed : Z) (ls : list lease) (c : Z) (s : sums) : sums :=
  match ls with
  | [] => s
  | l :: ls =>
      if l.(intent) <? l.(resident) then
        Sums s.(s_other) s.(s_unfunded) s.(s_total) s.(s_ovf) true
      else
        let '(other, unfunded, ovf) :=
          if negb (c =? req) then
            let '(o, f) := Cell.sat_add s.(s_other) l.(reservation) s.(s_ovf) in
            let '(u, f) := Cell.sat_add s.(s_unfunded) (u64 (l.(intent) - l.(resident))) f in
            (o, u, f)
          else (s.(s_other), s.(s_unfunded), s.(s_ovf)) in
        let '(tot, ovf) :=
          Cell.sat_add s.(s_total) (if c =? req then proposed else l.(intent)) ovf in
        gather req proposed ls (c + 1) (Sums other unfunded tot ovf false)
  end.

Definition ovf_set (f : option Z) : bool :=
  match f with Some n => negb (n =? 0) | None => false end.

(** The quote with every input field copied and the sums of the loop. *)
Definition quote_of (lg : ledger) (obs : Obs.t) (cl : claim) (s : sums)
    (st : gov_status) (retry : bool) (free total available required deficit : Z) : quote :=
  Quote st retry cl.(requester) cl.(memc) cl.(domain)
    obs.(Obs.status) obs.(Obs.source) free total
    cl.(class_limit) cl.(proposed_outstanding) lg.(floor_bytes) s.(s_other)
    lg.(substrate_outstanding) (lease_at lg cl.(requester)).(intent)
    cl.(proposed_outstanding) s.(s_total) cl.(operation_transient)
    available required deficit lg.(epoch).

(** The five checked additions behind [q.required]. *)
Definition sum_required (floor substrate other prospective unfunded transient : Z)
    (f : option Z) : Z * option Z :=
  let '(r, f) := Cell.sat_add floor substrate f in
  let '(r, f) := Cell.sat_add r other f in
  let '(r, f) := Cell.sat_add r prospective f in
  let '(r, f) := Cell.sat_add r unfunded f in
  Cell.sat_add r transient f.

(** The live verdict of ds4_gov_evaluate, from [const uint64_t resident] on. *)
Definition live_verdict (lg : ledger) (obs : Obs.t) (cl : claim) (s : sums) : quote :=
  let q := quote_of lg obs cl s in
  let free := obs.(Obs.free_bytes) in
  let total := obs.(Obs.total_bytes) in
  let resident := (lease_at lg cl.(requester)).(resident) in
  let unfunded := if resident <? cl.(proposed_outstanding)
                  then u64 (cl.(proposed_outstanding) - resident) else 0 in
  let '(r, f) := sum_required lg.(floor_bytes) lg.(substrate_outstanding) s.(s_other)
                   s.(s_unfunded) unfunded cl.(operation_transient) s.(s_ovf) in
  if ovf_set f then q FAULT false free total free r 0
  else if r <=? free then q ADMIT false free total free r 0
  else q REFUSE_LIVE true free total free r (u64 (r - free)).

(** ds4_gov_evaluate *)
Definition evaluate (lg : option ledger) (obs : option Obs.t) (cl : option claim) : quote :=
  match lg, obs, cl with
  | Some lg, Some obs, Some cl =>
      if (cl.(requester) <? 0) || (DS4_GOVC__COUNT <=? cl.(requester)) ||
         (cl.(memc) <? 0) || (DS4_MEMC__COUNT <=? cl.(memc)) ||
         (cl.(domain) <? 0) || (DS4_MEMD__COUNT <=? cl.(domain))
      then fault_quote else
      let s := gather cl.(requester) cl.(proposed_outstanding) lg.(leases) 0
                 (Sums 0 0 0 (Some 0) false) in
      let q := quote_of lg obs cl s in
      if s.(s_bad) then q FAULT false 0 0 0 0 0
      else if ovf_set s.(s_ovf) then q FAULT false 0 0 0 0 0
      else if obs.(Obs.status) =? Obs.UNSUPPORTED then q UNSUPPORTED false 0 0 0 0 0
      else if negb (obs.(Obs.status) =? Obs.OK) then q RETRY_OBS true 0 0 0 0 0
      else if negb (cl.(class_limit) =? 0) && (cl.(class_limit) <? cl.(proposed_outstanding))
      then q REFUSE_CLASS false obs.(Obs.free_bytes) obs.(Obs.total_bytes)
             obs.(Obs.free_bytes) 0 0
      else live_verdict lg obs cl s
  | _, _, _ => fault_quote
  end.

(** ds4_gov_lease_publish: acceptance, ledger and fault counter. *)
Definition lease_publish (lg : option ledger) (consumer intent resident reservation : Z)
    (f : option Z) : bool * option ledger * option Z :=
  match lg with
  | None => (false, None, bump f)
  | Some lg =>
      if (consumer <? 0) || (DS4_GOVC__COUNT <=? consumer) || (intent <? resident)
      then (false, Some lg, bump f)
      else (true,
            Some (Ledger (<[Z.to_nat consumer := Lease intent resident reservation]> lg.(leases))
                         lg.(floor_bytes) lg.(substrate_outstanding) lg.(epoch)), f)
  end.

(** ** Exact specification of the verdict *)

(** Sum of [f] over a list. *)
Definition zsum {A} (f : A -> Z) (l : list A) : Z := foldr (fun x a => f x + a) 0 l.

(** The leases of every consumer but the requester. *)
Fixpoint others (req c : Z) (ls : list lease) : list lease :=
  match ls with
  | [] => []
  | l :: ls => if c =? req then others req (c + 1) ls else l :: others req (c + 1) ls
  end.

Definition other_leases (lg : ledger) (cl : claim) : list lease :=
  others cl.(requester) 0 lg.(leases).

(** Promised but not yet backed bytes of a lease. *)
Definition debt (l : lease) : Z := l.(intent) - l.(resident).

(** Everything the requester may not spend, plus what it asks for, in
    unbounded arithmetic. *)
Definition required_exact (lg : ledger) (cl : claim) : Z :=
  lg.(floor_bytes) + lg.(substrate_outstanding) +
  zsum reservation (other_leases lg cl) + zsum debt (other_leases lg cl) +
  Z.max 0 (cl.(proposed_outstanding) - (lease_at lg cl.(requester)).(resident)) +
  cl.(operation_transient).

(** All intents after the claim replaced the requester's own. *)
Definition prospective_exact (lg : ledger) (cl : claim) : Z :=
  zsum intent (other_leases lg cl) + cl.(proposed_outstanding).

Definition backed (l : lease) : bool := l.(resident) <=? l.(intent).

(** The verdict as a decision table over exact quantities. *)
Definition verdict (lg : ledger) (obs : Obs.t) (cl : claim) : gov_status :=
  if negb (forallb backed lg.(leases)) then FAULT
  else if UINT64_MAX <? zsum reservation (other_leases lg cl) then FAULT
  else if UINT64_MAX <? prospective_exact lg cl then FAULT
  else if obs.(Obs.status) =? Obs.UNSUPPORTED then UNSUPPORTED
  else if negb (obs.(Obs.status) =? Obs.OK) then RETRY_OBS
  else if negb (cl.(class_limit) =? 0) && (cl.(class_limit) <? cl.(proposed_outstanding))
  then REFUSE_CLASS
  else if UINT64_MAX <? required_exact lg cl then FAULT
  else if required_exact lg cl <=? obs.(Obs.free_bytes) then ADMIT
  else REFUSE_LIVE.

(** ** Well-formed arguments *)
Definition lease_u64 (l : lease) : Prop :=
  fits 64 l.(intent) /\ fits 64 l.(resident) /\ fits 64 l.(reservation).

Definition ledger_ok (lg : ledger) : Prop :=
  blen lg.(leases) = DS4_GOVC__COUNT /\ Forall lease_u64 lg.(leases) /\
  fits 64 lg.(floor_bytes) /\ fits 64 lg.(substrate_outstanding).

Definition claim_ok (cl : claim) : Prop :=
  0 <= cl.(requester) < DS4_GOVC__COUNT /\ 0 <= cl.(memc) < DS4_MEMC__COUNT /\
  0 <= cl.(domain) < DS4_MEMD__COUNT /\ fits 64 cl.(proposed_outstanding) /\
  fits 64 cl.(operation_transient) /\ fits 64 cl.(class_limit).

(** ** Saturating sums *)
Definition sat (z : Z) : Z := Z.min UINT64_MAX z.

Lemma sat_add_sat a b n :
  0 <= a -> fits 64 b -> 0 <= n < UINT64_MAX ->
  exists k, Cell.sat_add (sat a) b (Some n) = (sat (a + b), Some (n + k)) /\
    0 <= k <= 1 /\ (k = 0 <-> sat a + b <= UINT64_MAX).
Proof.
  intros Ha Hb Hn. rewrite Cell.sat_add_spec by (unfold sat; flia).
  unfold sat in *. unfold_widths. destruct (Z.leb_spec (Z.min UINT64_MAX a + b) UINT64_MAX).
  - exists 0. split; [do 2 f_equal; lia | lia].
  - exists 1. split; [do 2 f_equal; lia | lia].
Qed.

(** One step of the running fault count: [n] is zero as long as no exact sum
    left 64 bits. *)
Definition tracks (n : Z) (ok : Prop) : Prop := n = 0 <-> ok.

Lemma zsum_nonneg {A} (f : A -> Z) (l : list A) :
  Forall (fun x => 0 <= f x) l -> 0 <= zsum f l.
Proof. induction 1; simpl; lia. Qed.

Lemma others_Forall (P : lease -> Prop) req c ls : Forall P ls -> Forall P (others req c ls).
Proof.
  intros H. revert c. induction H; intros c; simpl; [done|].
  destruct (c =? req); [done | by constructor].
Qed.

Lemma others_past req c ls : req < c -> others req c ls = ls.
Proof.
  revert c. induction ls as [|l ls IH]; intros c Hc; simpl; [done|].
  destruct (Z.eqb_spec c req); [lia|]. by rewrite IH by lia.
Qed.

(** The claimant's own term of the prospective total, once its index is passed. *)
Definition own_term (req proposed c : Z) (ls : list lease) : Z :=
  if (c <=? req) && (req <? c + blen ls) then proposed else 0.

Lemma own_term_cons req p c l ls :
  own_term req p c (l :: ls) = (if c =? req then p else 0) + own_term req p (c + 1) ls.
Proof.
  unfold own_term. rewrite blen_cons. pose proof (blen_nonneg ls). cases; lia.
Qed.

Lemma gather_bad req p ls c s :
  s.(s_bad) = false ->
  (gather req p ls c s).(s_bad) = negb (forallb backed ls).
Proof.
  revert c s. induction ls as [|l ls IH]; intros c s Hs; simpl; [done|].
  unfold backed at 1. destruct (Z.ltb_spec l.(intent) l.(resident)),
    (Z.leb_spec l.(resident) l.(intent)); try lia; [done|]. simpl.
  destruct (c =? req); simpl;
    repeat match goal with |- context [Cell.sat_add ?a ?b ?f] =>
      destruct (Cell.sat_add a b f) end; by apply IH.
Qed.

Lemma gather_sums req p ls c a u t n :
  Forall lease_u64 ls -> forallb backed ls = true -> fits 64 p ->
  0 <= a -> 0 <= u -> 0 <= t -> 0 <= n -> n + 3 * blen ls < UINT64_MAX ->
  tracks n (a <= UINT64_MAX /\ u <= UINT64_MAX /\ t <= UINT64_MAX) ->
  let os := others req c ls in
  let a' := a + zsum reservation os in
  let u' := u + zsum debt os in
  let t' := t + zsum intent os + own_term req p c ls in
  exists n', gather req p ls c (Sums (sat a) (sat u) (sat t) (Some n) false) =
      Sums (sat a') (sat u') (sat t') (Some n') false /\
    0 <= n' <= n + 3 * blen ls /\
    tracks n' (a' <= UINT64_MAX /\ u' <= UINT64_MAX /\ t' <= UINT64_MAX).
Proof.
  revert c a u t n. induction ls as [|l ls IH]; intros c a u t n Hls Hb Hp Ha Hu Ht Hn Hnl Htr;
    simpl.
  { exists n. rewrite !Z.add_0_r. unfold own_term. rewrite blen_nil in *.
    replace ((c <=? req) && (req <? c + 0)) with false by lia.
    rewrite Z.add_0_r. auto with lia. }
  rewrite own_term_cons. rewrite blen_cons in *. pose proof (blen_nonneg ls).
  apply Forall_cons in Hls as [(Hi & Hr & Hv) Hls].
  simpl in Hb. apply andb_true_iff in Hb as [Hbl Hb]. unfold backed in Hbl.
  destruct (Z.ltb_spec l.(intent) l.(resident)); [lia|].
  rewrite (wrap_id 64 (_ - _)) by flia.
  destruct (Z.eqb_spec c req) as [->|Hne]; simpl.
  - destruct (sat_add_sat t p n) as (k & -> & Hk & Hk0); [lia|done|lia|].
    rewrite others_past in * by lia.
    destruct (IH (req + 1) a u (t + p) (n + k)) as (n' & -> & Hn' & Htr');
      [done..|flia|lia|lia| |].
    { unfold tracks, sat in *. flia. }
    rewrite others_past in * by lia.
    exists n'. split; [f_equal; f_equal; lia|]. unfold tracks in *. lia.
  - destruct (sat_add_sat a l.(reservation) n) as (k & -> & Hk & Hk0); [lia|done|lia|].
    destruct (sat_add_sat u (l.(intent) - l.(resident)) (n + k)) as (k' & -> & Hk' & Hk0');
      [lia|flia|lia|].
    destruct (sat_add_sat t l.(intent) (n + k + k')) as (k'' & -> & Hk'' & Hk0''); [lia|done|lia|].
    destruct (IH (c + 1) (a + l.(reservation)) (u + (l.(intent) - l.(resident)))
      (t + l.(intent)) (n + k + k' + k'')) as (n' & -> & Hn' & Htr');
      [done..|flia|lia|flia|lia|lia| |].
    { unfold tracks, sat in *. flia. }
    exists n'. change (debt l) with (l.(intent) - l.(resident)).
    split; [f_equal; f_equal; lia|]. unfold tracks in *. lia.
Qed.

Lemma debts_bounded ls : Forall lease_u64 ls -> zsum debt ls <= zsum intent ls.
Proof.
  induction 1 as [|l ls (Hi & Hr & Hv) _ IH]; simpl; [lia|]. unfold debt at 1. flia.
Qed.

Lemma lease_sums_nonneg ls : Forall lease_u64 ls -> forallb backed ls = true ->
  0 <= zsum reservation ls /\ 0 <= zsum debt ls /\ 0 <= zsum intent ls.
Proof.
  induction 1 as [|l ls (Hi & Hr & Hv) _ IH]; simpl; [lia|].
  rewrite andb_true_iff. unfold backed at 1, debt at 1. intros [Hb Hbs].
  specialize (IH Hbs). flia.
Qed.

Lemma backed_others req c ls :
  forallb backed ls = true -> forallb backed (others req c ls) = true.
Proof.
  rewrite !forallb_Forall. apply others_Forall.
Qed.

(** The final sum of the evaluator. *)
Lemma required_sum a b c d e f :
  fits 64 a -> fits 64 b -> fits 64 c -> fits 64 d -> fits 64 e -> fits 64 f ->
  exists n,
    sum_required a b c d e f (Some 0) = (sat (a + b + c + d + e + f), Some n) /\
    tracks n (a + b + c + d + e + f <= UINT64_MAX).
Proof.
  intros Ha Hb Hc Hd He Hf. unfold sum_required.
  replace (Cell.sat_add a b (Some 0)) with (Cell.sat_add (sat a) b (Some 0))
    by (do 2 f_equal; unfold sat; flia).
  unfold_widths.
  destruct (sat_add_sat a b 0) as (k1 & -> & H1 & H1'); [flia..|].
  destruct (sat_add_sat (a + b) c (0 + k1)) as (k2 & -> & H2 & H2'); [flia..|].
  destruct (sat_add_sat (a + b + c) d (0 + k1 + k2)) as (k3 & -> & H3 & H3'); [flia..|].
  destruct (sat_add_sat (a + b + c + d) e (0 + k1 + k2 + k3)) as (k4 & -> & H4 & H4');
    [flia..|].
  destruct (sat_add_sat (a + b + c + d + e) f (0 + k1 + k2 + k3 + k4))
    as (k5 & -> & H5 & H5'); [flia..|].
  eexists. split; [done|]. unfold tracks, sat in *. lia.
Qed.

Lemma live_verdict_spec lg obs cl :
  ledger_ok lg -> claim_ok cl -> fits 64 obs.(Obs.free_bytes) ->
  let o := zsum reservation (other_leases lg cl) in
  let u := zsum debt (other_leases lg cl) in
  fits 64 o -> fits 64 u -> forall t,
  let q := live_verdict lg obs cl (Sums o u t (Some 0) false) in
  let r := required_exact lg cl in
  q.(q_status) = (if UINT64_MAX <? r then FAULT
                  else if r <=? obs.(Obs.free_bytes) then ADMIT else REFUSE_LIVE) /\
  (r <= UINT64_MAX -> q.(q_required) = r /\ q.(q_available) = obs.(Obs.free_bytes)) /\
  q.(q_other_reservations) = o /\ q.(q_total_prospective_intent) = t /\
  (q.(q_status) = REFUSE_LIVE -> q.(q_retryable) = true /\ 0 < q.(q_deficit) /\
     q.(q_deficit) = r - obs.(Obs.free_bytes)).
Proof.
  intros (Hlen & Hls & Hfl & Hsub) (Hreq & _ & _ & Hp & Htr & _) Hfree o u Ho Hu t q r.
  assert (fits 64 (lease_at lg cl.(requester)).(resident)) as Hres.
  { unfold lease_at, znth. apply (Forall_nth lease_u64); [done|].
    unfold blen in Hlen. lia. }
  set (own := Z.max 0 (cl.(proposed_outstanding) - (lease_at lg cl.(requester)).(resident))).
  assert ((if (lease_at lg cl.(requester)).(resident) <? cl.(proposed_outstanding)
           then u64 (cl.(proposed_outstanding) - (lease_at lg cl.(requester)).(resident))
           else 0) = own) as Hown.
  { unfold own. destruct (Z.ltb_spec (lease_at lg cl.(requester)).(resident)
      cl.(proposed_outstanding)); rewrite ?wrap_id by flia; lia. }
  destruct (required_sum lg.(floor_bytes) lg.(substrate_outstanding) o u own
    cl.(operation_transient)) as (n & Hsum & Hn); [try done..|unfold own; flia|done|].
  subst q. unfold live_verdict. cbn [s_other s_unfunded s_ovf]. rewrite Hown, Hsum.
  change (lg.(floor_bytes) + lg.(substrate_outstanding) + o + u + own +
    cl.(operation_transient)) with r in *.
  assert (0 <= own) as Hown0 by lia.
  assert (0 <= r) as Hr0 by (change r with (lg.(floor_bytes) + lg.(substrate_outstanding) +
    o + u + own + cl.(operation_transient)); flia).
  clear Hown Hsum. clearbody r o u own. unfold tracks in Hn. unfold sat.
  destruct (Z.ltb_spec UINT64_MAX r); simpl ovf_set.
  - destruct (Z.eqb_spec n 0); [lia|]. simpl. split_and!; done || lia.
  - destruct (Z.eqb_spec n 0); [|lia]. rewrite (Z.min_r _ r) by lia.
    destruct (Z.leb_spec r obs.(Obs.free_bytes)); simpl; [split_and!; done|].
    rewrite wrap_id by flia. split_and!; done || lia.
Qed.

(** Closes the goal for a quote whose status reports no figures. *)
Ltac no_figures := simpl; split; [done | split; [by intros [|] | done]].

Lemma evaluate_refines_verdict_holds lg obs cl :
  ledger_ok lg -> claim_ok cl -> fits 64 obs.(Obs.free_bytes) ->
  let q := evaluate (Some lg) (Some obs) (Some cl) in
  q.(q_status) = verdict lg obs cl /\
  (q.(q_status) = ADMIT \/ q.(q_status) = REFUSE_LIVE ->
     q.(q_required) = required_exact lg cl /\
     q.(q_available) = obs.(Obs.free_bytes) /\
     q.(q_other_reservations) = zsum reservation (other_leases lg cl) /\
     q.(q_total_prospective_intent) = prospective_exact lg cl) /\
  (q.(q_status) = REFUSE_LIVE ->
     q.(q_retryable) = true /\ 0 < q.(q_deficit) /\
     q.(q_deficit) = required_exact lg cl - obs.(Obs.free_bytes)).
Proof.
  intros Hlok Hcok Hfree.
  pose proof Hlok as (Hlen & Hls & Hfl & Hsub).
  pose proof Hcok as (Hreq & Hmem & Hdom & Hp & Htr & Hcl).
  unfold evaluate, verdict. replace (_ || _) with false by lia.
  destruct (forallb backed lg.(leases)) eqn:Hb; cycle 1.
  { rewrite gather_bad, Hb by done. no_figures. }
  pose proof (lease_sums_nonneg _ (others_Forall _ cl.(requester) 0 _ Hls)
                (backed_others _ _ _ Hb)) as Hnn.
  pose proof (debts_bounded _ (others_Forall _ cl.(requester) 0 _ Hls)) as Hdb.
  destruct (gather_sums cl.(requester) cl.(proposed_outstanding) lg.(leases) 0 0 0 0 0)
    as (n & Hg & Hn & Htrk); [done..|lia|lia|lia|lia|rewrite Hlen; done|unfold tracks; lia|].
  change (sat 0) with 0 in Hg. rewrite Hg. fold (other_leases lg cl) in *.
  unfold own_term in *. rewrite Hlen in *.
  replace ((0 <=? _) && _) with true in * by lia. rewrite !Z.add_0_l in *.
  fold (prospective_exact lg cl) in *. unfold tracks in Htrk.
  cbn [s_bad s_ovf ovf_set negb]. clear Hg.
  assert (zsum debt (other_leases lg cl) <= prospective_exact lg cl)
    by (unfold prospective_exact; flia).
  destruct (Z.ltb_spec UINT64_MAX (zsum reservation (other_leases lg cl)));
    [|destruct (Z.ltb_spec UINT64_MAX (prospective_exact lg cl))];
    destruct (Z.eqb_spec n 0); try lia; [no_figures..|].
  cbn [negb]. subst n.
  destruct (obs.(Obs.status) =? Obs.UNSUPPORTED); [no_figures|].
  destruct (obs.(Obs.status) =? Obs.OK); cbn [negb]; [|no_figures].
  destruct (negb _ && _); [no_figures|].
  unfold sat. rewrite !Z.min_r by lia.
  destruct (live_verdict_spec lg obs cl Hlok Hcok Hfree ltac:(flia) ltac:(flia)
    (prospective_exact lg cl)) as (-> & Hr & Ho & Ht & Hd).
  split; [done|]. split; [|done]. intros Hst. split_and!; try done; apply Hr;
    destruct (Z.ltb_spec UINT64_MAX (required_exact lg cl)); try done; lia || by destruct Hst.
Qed.

(** C40: on well-formed arguments the evaluator decides exactly what the
    decision table over unbounded integers decides, so the saturating 64-bit
    arithmetic never turns a wrapped number into an admission; the figures an
    ADMIT or REFUSE_LIVE quote reports are the exact ones, and a live refusal
    is retryable with a positive deficit of exactly what is missing. *)
Theorem evaluate_refines_verdict lg obs cl :
  ledger_ok lg -> claim_ok cl -> fits 64 obs.(Obs.free_bytes) ->
  let q := evaluate (Some lg) (Some obs) (Some cl) in
  q.(q_status) = verdict lg obs cl /\
  (q.(q_status) = ADMIT \/ q.(q_status) = REFUSE_LIVE ->
     q.(q_required) = required_exact lg cl /\
     q.(q_available) = obs.(Obs.free_bytes) /\
     q.(q_other_reservations) = zsum reservation (other_leases lg cl) /\
     q.(q_total_prospective_intent) = prospective_exact lg cl) /\
  (q.(q_status) = REFUSE_LIVE ->
     q.(q_retryable) = true /\ 0 < q.(q_deficit) /\
     q.(q_deficit) = required_exact lg cl - obs.(Obs.free_bytes)).
Proof. apply evaluate_refines_verdict_holds. Qed.

Definition sample_ledger : ledger :=
  Ledger [Lease 100 80 0; Lease 0 0 0; Lease 500 200 0; Lease 50 50 40; Lease 0 0 0] 64 16 8.
Definition sample_claim : claim := Claim 2 DS4_MEMC_BATCH_BANK 0 700 10 0.
Definition sample_obs (free : Z) : Obs.t := Obs.mk Obs.OK 1 free 100000 free 0.

Lemma sample_ledger_ok : ledger_ok sample_ledger.
Proof. unfold ledger_ok, sample_ledger, lease_u64. repeat constructor; simpl; flia. Qed.
Lemma sample_claim_ok : claim_ok sample_claim.
Proof. unfold claim_ok, sample_claim. simpl. unfold_widths. repeat split; done. Qed.

Example evaluate_refines_verdict_witness :
  (evaluate (Some sample_ledger) (Some (sample_obs 649)) (Some sample_claim)).(q_status) = REFUSE_LIVE /\
  (evaluate (Some sample_ledger) (Some (sample_obs 649)) (Some sample_claim)).(q_deficit) = 1.
Proof.
  destruct (evaluate_refines_verdict sample_ledger (sample_obs 649) sample_claim
    sample_ledger_ok sample_claim_ok) as (Hs & _ & Hd).
  - simpl. flia.
  - split; [rewrite Hs; reflexivity|]. apply Hd. rewrite Hs. reflexivity.
Defined.

(** The observation with [d] more free bytes. *)
Definition freed (obs : Obs.t) (d : Z) : Obs.t :=
  Obs.mk obs.(Obs.status) obs.(Obs.source) (obs.(Obs.free_bytes) + d) obs.(Obs.total_bytes)
         obs.(Obs.cuda_free_bytes) obs.(Obs.meminfo_avail_bytes).

(** the deficit of a live refusal is exactly what has to be reclaimed: once
    that many bytes are free the same claim on the same ledger is admitted,
    and with any fewer it is refused again. *)
Theorem deficit_is_exact lg obs cl d :
  ledger_ok lg -> claim_ok cl -> fits 64 obs.(Obs.free_bytes) ->
  fits 64 (obs.(Obs.free_bytes) + d) -> 0 <= d ->
  let q := evaluate (Some lg) (Some obs) (Some cl) in
  let q' := evaluate (Some lg) (Some (freed obs d)) (Some cl) in
  q.(q_status) = REFUSE_LIVE ->
  q'.(q_status) = if q.(q_deficit) <=? d then ADMIT else REFUSE_LIVE.
Proof.
  intros Hl Hc Hf Hf' Hd q q' Hq.
  destruct (evaluate_refines_verdict_holds lg obs cl Hl Hc Hf) as (Hs & _ & Hdef).
  destruct (evaluate_refines_verdict_holds lg (freed obs d) cl Hl Hc Hf') as (Hs' & _).
  fold q in Hs, Hdef. fold q' in Hs'. destruct (Hdef Hq) as (_ & _ & ->).
  rewrite Hs'. rewrite Hq in Hs. clear Hs' Hdef Hq. unfold verdict in *. simpl in *.
  repeat match type of Hs with context [if ?b then _ else _] => destruct b eqn:?; try done end.
  destruct (Z.leb_spec (required_exact lg cl) (obs.(Obs.free_bytes) + d)),
    (Z.leb_spec (required_exact lg cl - obs.(Obs.free_bytes)) d); done || lia.
Qed.

Example deficit_is_exact_witness :
  (evaluate (Some sample_ledger) (Some (freed (sample_obs 600) 50)) (Some sample_claim)).(q_status)
  = ADMIT.
Proof.
  rewrite (deficit_is_exact sample_ledger (sample_obs 600) sample_claim 50
             sample_ledger_ok sample_claim_ok).
  - reflexivity.
  - simpl. flia.
  - simpl. flia.
  - lia.
  - reflexivity.
Defined.

(** ** Leases *)

(** A ledger no lease of which claims more backing than intent. *)
Definition ledger_backed (lg : ledger) : Prop :=
  ledger_ok lg /\ forallb backed lg.(leases) = true.

Lemma lease_at_insert lg c l :
  blen lg.(leases) = DS4_GOVC__COUNT -> 0 <= c < DS4_GOVC__COUNT -> forall c', 0 <= c' ->
  znth lease0 (<[Z.to_nat c := l]> lg.(leases)) c' =
    if c' =? c then l else lease_at lg c'.
Proof.
  intros Hlen Hc c' Hc'. unfold lease_at, znth, blen, DS4_GOVC__COUNT in *.
  rewrite !nth_lookup. destruct (Z.eqb_spec c' c) as [->|Hne].
  - rewrite list_lookup_insert_eq by lia. done.
  - rewrite list_lookup_insert_ne by lia. done.
Qed.

Lemma publish_backed lg c i r v f :
  ledger_backed lg -> fits 64 i -> fits 64 r -> fits 64 v ->
  forall b lg' f', lease_publish (Some lg) c i r v f = (b, Some lg', f') -> ledger_backed lg'.
Proof.
  intros Hlg Hi Hr Hv b lg' f'. pose proof Hlg as [(Hlen & Hls & Hfl & Hsub) Hb].
  unfold lease_publish.
  destruct ((c <? 0) || (DS4_GOVC__COUNT <=? c) || (i <? r)) eqn:Hc; intros [= <- <- <-];
    [done|].
  split; [split; [|split; [|done]]|]; simpl.
  - unfold blen in *. by rewrite length_insert.
  - apply Forall_insert; [done|]. by split; [|split].
  - apply forallb_Forall, Forall_insert; [by apply forallb_Forall|]. unfold backed. simpl. lia.
Qed.

(** publishing a lease is an absolute replacement.  It preserves ledger
    well-formedness and backing; it is refused, with the ledger untouched and
    one fault counted, exactly for an unknown consumer or a resident figure
    above the intent; an accepted publish changes the named consumer's lease
    alone; publishing the same lease again changes nothing. *)
Theorem publish_replaces lg c i r v f :
  ledger_backed lg -> fits 64 i -> fits 64 r -> fits 64 v ->
  exists b lg' f', lease_publish (Some lg) c i r v f = (b, Some lg', f') /\
    ledger_backed lg' /\
    (b = false <-> c < 0 \/ DS4_GOVC__COUNT <= c \/ i < r) /\
    (b = false -> lg' = lg /\ f' = bump f) /\
    (b = true -> f' = f /\ lease_at lg' c = Lease i r v /\
       (forall c', 0 <= c' -> c' <> c -> lease_at lg' c' = lease_at lg c') /\
       lease_publish (Some lg') c i r v f = (true, Some lg', f)).
Proof.
  intros Hlg Hi Hr Hv.
  destruct (lease_publish (Some lg) c i r v f) as [[b [lg'|]] f'] eqn:Hp; cycle 1.
  { unfold lease_publish in Hp. by destruct (_ || _). }
  pose proof (publish_backed lg c i r v f Hlg Hi Hr Hv b lg' f' Hp) as Hlg'.
  exists b, lg', f'. split; [done|]. split; [done|].
  destruct Hlg as [(Hlen & _) _]. unfold lease_publish in Hp |- *.
  destruct ((c <? 0) || (DS4_GOVC__COUNT <=? c) || (i <? r)) eqn:Hc; simplify_eq.
  - split; [lia|]. split; [done | lia].
  - split; [lia|]. split; [done|]. intros _. split; [done|].
    assert (0 <= c < DS4_GOVC__COUNT) by lia.
    split; [|split].
    + unfold lease_at. simpl. rewrite (lease_at_insert lg) by (done || lia).
      by rewrite Z.eqb_refl.
    + intros c' Hc' Hne. unfold lease_at at 1. simpl. rewrite (lease_at_insert lg) by done.
      by destruct (Z.eqb_spec c' c).
    + simpl. by rewrite list_insert_insert_eq.
Qed.

Example publish_replaces_witness :
  exists lg', lease_publish (Some sample_ledger) 2 700 200 0 (Some 0) = (true, Some lg', Some 0) /\
    lease_at lg' 2 = Lease 700 200 0 /\ lease_at lg' 3 = lease_at sample_ledger 3.
Proof.
  destruct (publish_replaces sample_ledger 2 700 200 0 (Some 0))
    as (b & lg' & f' & Hp & _ & _ & _ & Ht); [|flia|flia|flia|].
  { split; [exact sample_ledger_ok | reflexivity]. }
  simpl in Hp. injection Hp as <- <- <-.
  destruct (Ht eq_refl) as (_ & H2 & Hother & _).
  eexists. split; [reflexivity|]. split; [exact H2|]. apply Hother; lia.
Defined.

(** the serial reserve is spendable by its owner only.  Whatever a consumer
    carves as its own reservation, the evaluator returns the identical quote
    for that consumer's claims. *)
Theorem own_reservation_spendable lg obs cl v :
  blen lg.(leases) = DS4_GOVC__COUNT -> 0 <= cl.(requester) < DS4_GOVC__COUNT ->
  let own := lease_at lg cl.(requester) in
  let lg' := Ledger (<[Z.to_nat cl.(requester) := Lease own.(intent) own.(resident) v]> lg.(leases))
               lg.(floor_bytes) lg.(substrate_outstanding) lg.(epoch) in
  evaluate (Some lg') obs (Some cl) = evaluate (Some lg) obs (Some cl).
Proof.
  intros Hlen Hreq own lg'. destruct obs as [obs|]; [|done].
  assert (forall ls c s, 0 <= c <= cl.(requester) ->
    nth (Z.to_nat (cl.(requester) - c)) ls lease0 = own ->
    gather cl.(requester) cl.(proposed_outstanding)
      (<[Z.to_nat (cl.(requester) - c) := Lease own.(intent) own.(resident) v]> ls) c s =
    gather cl.(requester) cl.(proposed_outstanding) ls c s) as Hg.
  { induction ls as [|l ls IH]; intros c s Hc Hnth; [done|].
    destruct (Z.eq_dec c cl.(requester)) as [->|Hne].
    - rewrite Z.sub_diag in *. simpl in *. subst l. rewrite Z.eqb_refl. done.
    - replace (Z.to_nat (cl.(requester) - c)) with (S (Z.to_nat (cl.(requester) - (c + 1))))
        in * by lia. simpl in *. destruct (Z.eqb_spec c cl.(requester)); [done|]. simpl.
      destruct (_ <? _); [done|].
      repeat match goal with |- context [Cell.sat_add ?a ?b ?f] =>
        destruct (Cell.sat_add a b f) end. apply IH; [lia|done]. }
  specialize (Hg lg.(leases) 0 (Sums 0 0 0 (Some 0) false) ltac:(lia)).
  rewrite Z.sub_0_r in Hg.
  assert (lease_at lg' cl.(requester) = Lease own.(intent) own.(resident) v) as Hown.
  { unfold lease_at. simpl. rewrite (lease_at_insert lg) by (done || lia).
    by rewrite Z.eqb_refl. }
  unfold evaluate, live_verdict, quote_of. rewrite !Hown. simpl leases. rewrite Hg by done.
  reflexivity.
Qed.

Example own_reservation_spendable_witness :
  evaluate (Some (Ledger (<[2%nat := Lease 500 200 9999]> sample_ledger.(leases)) 64 16 8))
    (Some (sample_obs 1000)) (Some sample_claim) =
  evaluate (Some sample_ledger) (Some (sample_obs 1000)) (Some sample_claim).
Proof.
  apply (own_reservation_spendable sample_ledger (Some (sample_obs 1000)) sample_claim 9999).
  - reflexivity.
  - simpl. unfold DS4_GOVC__COUNT. lia.
Defined.

(** ** Verdict comparison *)

(** ds4_gov_cmp *)
Inductive gov_cmp :=
  CMP_AGREE | CMP_LIVE_STRICTER | CMP_SHADOW_STRICTER | CMP_VERDICT_CLASS |
  CMP_OBS_POLICY | CMP_FAULT.

(** ds4_gov_compare *)
Definition compare (live_status shadow_status : gov_status) : gov_cmp :=
  if decide (shadow_status = FAULT) then CMP_FAULT
  else if bool_decide (shadow_status = RETRY_OBS) || bool_decide (shadow_status = UNSUPPORTED)
  then CMP_OBS_POLICY
  else if decide (live_status = shadow_status) then CMP_AGREE
  else if decide (live_status = ADMIT) then CMP_SHADOW_STRICTER
  else if decide (shadow_status = ADMIT) then CMP_LIVE_STRICTER
  else CMP_VERDICT_CLASS.

(** The verdicts a live formula can express. *)
Definition live_expressible (st : gov_status) : Prop :=
  st = ADMIT \/ st = REFUSE_CLASS \/ st = REFUSE_LIVE.

(** the comparison is a closed classification.  AGREE means the very same
    verdict; for two expressible verdicts the two one-sided outcomes are
    mirror images of each other and mean that exactly one side admits, and a
    class mismatch means both refuse differently; a shadow without an
    observation is never counted as agreement. *)
Theorem compare_classifies live shadow :
  live_expressible live ->
  (compare live shadow = CMP_AGREE <-> live = shadow) /\
  (compare live shadow = CMP_SHADOW_STRICTER <->
     live = ADMIT /\ (shadow = REFUSE_CLASS \/ shadow = REFUSE_LIVE)) /\
  (compare live shadow = CMP_LIVE_STRICTER <-> live <> ADMIT /\ shadow = ADMIT) /\
  (compare live shadow = CMP_VERDICT_CLASS <->
     live <> shadow /\ live <> ADMIT /\ (shadow = REFUSE_CLASS \/ shadow = REFUSE_LIVE)) /\
  (compare live shadow = CMP_OBS_POLICY <-> shadow = RETRY_OBS \/ shadow = UNSUPPORTED) /\
  (live_expressible shadow ->
     (compare live shadow = CMP_SHADOW_STRICTER <-> compare shadow live = CMP_LIVE_STRICTER)).
Proof.
  intros [-> | [-> | ->]]; destruct shadow; vm_compute compare;
    unfold live_expressible; intuition congruence.
Qed.

Example compare_classifies_witness :
  compare REFUSE_LIVE ADMIT = CMP_LIVE_STRICTER.
Proof.
  apply (compare_classifies REFUSE_LIVE ADMIT); [by right; right | by split].
Defined.

(** ** Governance mode *)

(** ds4_gov_mode_t *)
Inductive gov_mode := MODE_OFF | MODE_OBSERVE | MODE_ENFORCE.

(** The scan [for (i = 0; ; i++) { if (t[i] != s[i]) return -1; if (!t[i]) return m; }];
    past its last byte a C string reads as NUL. *)
Fixpoint scan_word (t s : list Z) : bool :=
  match t, s with
  | [], [] => true
  | c :: t, d :: s => if negb (c =? d) then false else scan_word t s
  | _, _ => false
  end.

(** ds4_gov_mode_parse; [None] is -1. *)
Definition mode_parse (s : option (list Z)) : option gov_mode :=
  match s with
  | None => None
  | Some s =>
      let c i := znth 0 s i in
      if (c 0 =? ch "o") && (c 1 =? ch "f") && (c 2 =? ch "f") && (c 3 =? 0) then Some MODE_OFF
      else if (c 0 =? ch "o") && (c 1 =? ch "b") then
        if scan_word (bs "observe") s then Some MODE_OBSERVE else None
      else if (c 0 =? ch "e") && (c 1 =? ch "n") then
        if scan_word (bs "enforce") s then Some MODE_ENFORCE else None
      else None
  end.

(** ds4_gov_mode_name; [None] is any other integer. *)
Definition mode_name (m : option gov_mode) : list Z :=
  match m with
  | Some MODE_OFF => bs "off"
  | Some MODE_OBSERVE => bs "observe"
  | Some MODE_ENFORCE => bs "enforce"
  | None => bs "?"
  end.

Lemma scan_word_eq t s : scan_word t s = true <-> s = t.
Proof.
  revert s. induction t as [|c t IH]; intros [|d s]; simpl; try done.
  destruct (Z.eqb_spec c d) as [->|]; simpl.
  - rewrite IH. split; [by intros -> | by intros [= ->]].
  - split; [done | by intros [= ->]].
Qed.

(** the mode vocabulary round-trips: parsing accepts exactly the three names
    that [mode_name] prints, each for its own mode, and nothing else. *)
Theorem mode_roundtrip s m :
  cstring s -> (mode_parse (Some s) = Some m <-> s = mode_name (Some m)).
Proof.
  intros Hs. split; cycle 1.
  { intros ->. destruct m; reflexivity. }
  unfold mode_parse.
  destruct ((_ =? _) && _ && _ && _) eqn:Hoff.
  { intros [= <-]. destruct s as [|a [|b [|c [|d s]]]]; simpl in Hoff;
      repeat (apply andb_true_iff in Hoff as [Hoff ?]);
      rewrite ?Z.eqb_eq in *; unfold znth in *; simpl in *; subst; try done.
    inversion_clear Hs as [|? ? _ Hs1]. inversion_clear Hs1 as [|? ? _ Hs2].
    inversion_clear Hs2 as [|? ? _ Hs3]. inversion_clear Hs3; lia. }
  clear Hoff.
  destruct (_ && _).
  { destruct (scan_word (bs "observe") s) eqn:Hw; [|done].
    intros [= <-]. by apply scan_word_eq. }
  destruct (_ && _); [|done].
  destruct (scan_word (bs "enforce") s) eqn:Hw; [|done].
    intros [= <-]. by apply scan_word_eq.
Qed.

Example mode_roundtrip_witness : mode_parse (Some (bs "enforce")) = Some MODE_ENFORCE.
Proof.
  apply (mode_roundtrip (bs "enforce") MODE_ENFORCE); [by apply cstringb_ok | reflexivity].
Defined.

(** ** Versioned snapshots *)
Module Epoch.

(** ds4_gov_epoch_write_begin: new epoch and fault counter. *)
Definition write_begin (epoch : Z) (faults : option Z) : Z * option Z :=
  let faults := if Z.land epoch 1 =? 1 then bump faults else faults in
  (u64 (epoch + 1), faults).

(** ds4_gov_epoch_write_end *)
Definition write_end (epoch : Z) (faults : option Z) : Z * option Z :=
  let faults := if negb (Z.land epoch 1 =? 1) then bump faults else faults in
  (u64 (epoch + 1), faults).

(** ds4_gov_epoch_read_begin *)
Definition read_begin (epoch : Z) : Z := epoch.

(** ds4_gov_epoch_read_verify *)
Definition read_verify (epoch began : Z) : bool :=
  (epoch =? began) && negb (Z.land began 1 =? 1).

(** One writer and one reader around a ledger image of 64-bit words, run as
    an interleaving of the accesses the protocol orders with fences. *)
Inductive reader :=
| RIdle
| RCopy (began : Z) (copy : list Z)
| RDone (ok : bool) (copy : list Z) (committed : list Z).

Record sys := Sys {
  epoch : Z;
  faults : option Z;
  data : list Z;
  writing : bool;
  brackets : Z;        (* balanced writer brackets so far *)
  committed : list Z;  (* the image the last bracket published *)
  rd : reader }.

Definition init (image : list Z) : sys := Sys 0 (Some 0) image false 0 image RIdle.

Inductive step : sys -> sys -> Prop :=
| WBegin s e f :
    s.(writing) = false -> write_begin s.(epoch) s.(faults) = (e, f) ->
    step s (Sys e f s.(data) true s.(brackets) s.(committed) s.(rd))
| WStore s i v :
    s.(writing) = true ->
    step s (Sys s.(epoch) s.(faults) (<[i := v]> s.(data)) true s.(brackets)
              s.(committed) s.(rd))
| WEnd s e f :
    s.(writing) = true -> write_end s.(epoch) s.(faults) = (e, f) ->
    step s (Sys e f s.(data) false (s.(brackets) + 1) s.(data) s.(rd))
| RBegin s :
    step s (Sys s.(epoch) s.(faults) s.(data) s.(writing) s.(brackets) s.(committed)
              (RCopy (read_begin s.(epoch)) []))
| RLoad s b c w :
    s.(rd) = RCopy b c -> s.(data) !! length c = Some w ->
    step s (Sys s.(epoch) s.(faults) s.(data) s.(writing) s.(brackets) s.(committed)
              (RCopy b (c ++ [w])))
| RVerify s b c :
    s.(rd) = RCopy b c -> length c = length s.(data) ->
    step s (Sys s.(epoch) s.(faults) s.(data) s.(writing) s.(brackets) s.(committed)
              (RDone (read_verify s.(epoch) b) c s.(committed))).

Definition reachable (image : list Z) (s : sys) : Prop := rtc step (init image) s.

Definition reader_inv (s : sys) : Prop :=
  match s.(rd) with
  | RIdle => True
  | RCopy b c =>
      0 <= b <= s.(epoch) /\
      (b = s.(epoch) -> s.(writing) = false -> c = take (length c) s.(data))
  | RDone ok c p => ok = true -> c = p
  end.

Definition inv (s : sys) : Prop :=
  s.(epoch) = 2 * s.(brackets) + Z.b2z s.(writing) /\ 0 <= s.(brackets) /\
  s.(faults) = Some 0 /\ (s.(writing) = false -> s.(committed) = s.(data)) /\
  reader_inv s.

Lemma parity k (w : bool) : Z.land (2 * k + Z.b2z w) 1 = Z.b2z w.
Proof.
  change 1 with (Z.ones 1). rewrite Z.land_ones by lia.
  rewrite Z.add_comm, Z.mul_comm.
  change (2 ^ 1) with 2. rewrite Z_mod_plus_full. by destruct w.
Qed.

Lemma step_brackets s s' : step s s' -> s.(brackets) <= s'.(brackets).
Proof. destruct 1; simpl; lia. Qed.

Lemma steps_brackets s s' : rtc step s s' -> s.(brackets) <= s'.(brackets).
Proof. induction 1 as [|s s' s'' H _ IH]; [lia|]. apply step_brackets in H. lia. Qed.

Lemma step_inv s s' : inv s -> step s s' -> s'.(brackets) < 2 ^ 63 -> inv s'.
Proof.
  intros (He & Hk & Hf & Hc & Hr) Hstep Hb. destruct Hstep as
    [s e f Hw Hop|s i v Hw|s e f Hw Hop|s|s b c w Hrd Hl|s b c Hrd Hl];
    unfold inv, reader_inv in *; simpl in *; unfold_widths.
  - unfold write_begin in Hop. rewrite Hw in *. rewrite He, parity in Hop. simpl in Hop, He.
    simplify_eq. rewrite wrap_id by flia. simpl. split_and!; try done; try lia.
    destruct s.(rd); try done. destruct Hr. split; [lia | done].
  - split_and!; try done; [by rewrite Hw in He|].
    destruct s.(rd); try done. destruct Hr. by split.
  - unfold write_end in Hop. rewrite Hw in *. rewrite He, parity in Hop. simpl in Hop, He.
    simplify_eq. rewrite wrap_id by flia. simpl. split_and!; try done; [lia..|].
    destruct s.(rd); try done. destruct Hr. split; [lia|]. lia.
  - split_and!; try done; unfold read_begin; lia || (destruct s.(writing); simpl in *; lia).
  - rewrite Hrd in Hr. destruct Hr as [Hle Hcp]. split_and!; try done; try lia.
    intros Hbe Hwr. specialize (Hcp Hbe Hwr). rewrite length_app. simpl.
    rewrite Nat.add_1_r. erewrite take_S_r by done. by rewrite <-Hcp.
  - rewrite Hrd in Hr. destruct Hr as [Hle Hcp]. split_and!; try done.
    unfold read_verify. rewrite andb_true_iff, negb_true_iff. intros [Hbe Hev].
    apply Z.eqb_eq in Hbe. rewrite <-Hbe, He, parity in Hev.
    destruct s.(writing); [done|]. rewrite Hc by done.
    rewrite (Hcp ltac:(lia) eq_refl), Hl. by rewrite take_ge.
Qed.

Lemma reachable_inv image s : reachable image s -> s.(brackets) < 2 ^ 63 -> inv s.
Proof.
  unfold reachable. intros H.
  assert (inv (init image)) as Hi by (unfold inv; simpl; split_and!; done).
  revert Hi. induction H as [s|s s' s'' Hst Hsts IH]; intros Hi Hb; [done|].
  apply IH; [|done]. apply (step_inv s s'); [done..|].
  apply steps_brackets in Hsts. lia.
Qed.

(** a snapshot that verifies is never torn.  In every interleaving of one
    writer's brackets and word stores with a reader's word-by-word copy (for
    fewer than 2^63 brackets, where the epoch cannot come round), a copy that
    read_verify accepts is exactly the image the last completed bracket had
    published; the single-writer tripwire never fires; and a read that meets
    no open bracket and no writer step in between is accepted. *)
Theorem verified_read_is_committed image s :
  reachable image s -> s.(brackets) < 2 ^ 63 ->
  s.(faults) = Some 0 /\
  (forall c p, s.(rd) = RDone true c p -> c = p) /\
  (forall s' b c, s.(rd) = RCopy b c -> step s s' -> forall p,
     s'.(rd) = RDone true c p ->
     s.(writing) = false /\ c = s.(data) /\ c = s.(committed)) /\
  (s.(writing) = false -> read_verify s.(epoch) (read_begin s.(epoch)) = true).
Proof.
  intros Hr Hb. pose proof (reachable_inv image s Hr Hb) as (He & Hk & Hf & Hc & Hi).
  unfold reader_inv in Hi. split; [done|]. split; [|split].
  - intros c p Hrd. rewrite Hrd in Hi. by apply Hi.
  - intros s' b c Hrd Hst p Hrd'. rewrite Hrd in Hi. destruct Hi as [_ Hcp].
    destruct Hst as [| | |s|s b' c' w Hrd2 Hl|s b' c' Hrd2 Hl]; simpl in *; try congruence.
    rewrite Hrd in Hrd2. injection Hrd2 as <- <-. injection Hrd' as Hv _.
    unfold read_verify in Hv. apply andb_true_iff in Hv as [Hbe Hev].
    apply Z.eqb_eq in Hbe. apply negb_true_iff in Hev.
    rewrite <-Hbe, He, parity in Hev. destruct s.(writing); [done|].
    rewrite take_ge in Hcp by lia. split; [done|]. rewrite Hc by done.
    split; apply Hcp; done || lia.
  - intros Hw. rewrite He, Hw. unfold read_verify, read_begin.
    by rewrite Z.eqb_refl, parity.
Qed.

(** A bracket lands inside the copy: the reader is at epoch 0 when the writer
    publishes, and the verification rejects the torn copy [0; 9]. *)
Example torn_run : rtc step (init [0; 0])
  (Sys 2 (Some 0) [7; 9] false 1 [7; 9] (RDone false [0; 9] [7; 9])).
Proof.
  eapply rtc_l; [apply RBegin|]. eapply rtc_l; [eapply RLoad; reflexivity|].
  eapply rtc_l; [by apply WBegin|].
  eapply rtc_l; [by apply (WStore _ 0%nat 7)|]. eapply rtc_l; [by apply (WStore _ 1%nat 9)|].
  eapply rtc_l; [by apply WEnd|]. eapply rtc_l; [eapply RLoad; reflexivity|].
  eapply rtc_l; [eapply RVerify; reflexivity|]. apply rtc_refl.
Qed.

Example clean_run : rtc step (init [3])
  (Sys 0 (Some 0) [3] false 0 [3] (RDone true [3] [3])).
Proof.
  eapply rtc_l; [apply RBegin|]. eapply rtc_l; [eapply RLoad; reflexivity|].
  eapply rtc_l; [eapply RVerify; reflexivity|]. apply rtc_refl.
Qed.

Example verified_read_is_committed_witness :
  Some 0 = Some 0 /\ (forall c p, RDone true [3] [3] = RDone true c p -> c = p).
Proof.
  destruct (verified_read_is_committed [3] _ clean_run ltac:(simpl; lia)) as (H1 & H2 & _).
  split; [exact H1 | exact H2].
Defined.
End Epoch.
