(* ===== verification/Bytes.v ===== *)
(** * Byte-level helpers of the checkpoint store (ds4_kvstore.c)

    Little-endian integers, the growable byte buffer, hexadecimal digests and
    the names of checkpoint files. *)

From S2P Require Import Prelude.

(** ** Little-endian integers *)
Module Le.

(** ds4_kvstore_le_put32: the four bytes it stores. *)
Definition put32 (v : Z) : list Z :=
  [u8 v; u8 (Z.shiftr v 8); u8 (Z.shiftr v 16); u8 (Z.shiftr v 24)].

(** kv_le_put64 *)
Definition put64 (v : Z) : list Z :=
  map (fun i => u8 (Z.shiftr v (8 * i))) [0; 1; 2; 3; 4; 5; 6; 7].

(** ds4_kvstore_le_get32, at offset [p] of a buffer. *)
Definition get32 (b : list Z) (p : Z) : Z :=
  Z.lor (Z.lor (Z.lor (znth 0 b p) (u32 (Z.shiftl (znth 0 b (p + 1)) 8)))
               (u32 (Z.shiftl (znth 0 b (p + 2)) 16)))
        (u32 (Z.shiftl (znth 0 b (p + 3)) 24)).

(** kv_le_get64 *)
Definition get64 (b : list Z) (p : Z) : Z :=
  fold_left (fun v i => Z.lor (u64 (Z.shiftl v 8)) (znth 0 b (p + i)))
    [7; 6; 5; 4; 3; 2; 1; 0] 0.

Lemma lor_shiftl_add a b k : 0 <= k -> 0 <= a < 2 ^ k -> Z.lor a (b * 2 ^ k) = a + b * 2 ^ k.
Proof.
  intros Hk Ha. symmetry. apply Z.add_nocarry_lor.
  rewrite <-Z.shiftl_mul_pow2 by done. apply Z.bits_inj'. intros i Hi.
  rewrite Z.land_spec, Z.bits_0. destruct (Z.lt_ge_cases i k).
  - rewrite Z.shiftl_spec_low by done. apply andb_false_r.
  - replace (Z.testbit a i) with false; [done|]. symmetry.
    destruct (Z.eq_dec a 0) as [->|]; [apply Z.bits_0|].
    apply Z.bits_above_log2; [lia|]. apply Z.log2_lt_pow2; [lia|].
    eapply Z.lt_le_trans; [apply Ha|]. by apply Z.pow_le_mono_r.
Qed.

Lemma byte_mod v k : 0 <= k -> u8 (Z.shiftr v k) = (v / 2 ^ k) mod 256.
Proof. intros Hk. unfold wrap. by rewrite Z.shiftr_div_pow2. Qed.

Lemma put32_bytes v : bytes_ok (put32 v).
Proof. unfold put32. repeat constructor; apply wrap_fits; lia. Qed.
Lemma put64_bytes v : bytes_ok (put64 v).
Proof. apply Forall_map, Forall_true. intros i. by apply wrap_fits. Qed.
Lemma put32_length v : length (put32 v) = 4%nat.
Proof. done. Qed.
Lemma put64_length v : length (put64 v) = 8%nat.
Proof. done. Qed.

(** Reference definitions: the bytes of [v], least significant first, and the
    value of such a list. *)
Fixpoint split (n : nat) (v : Z) : list Z :=
  match n with O => [] | S n => v mod 256 :: split n (v / 256) end.
Fixpoint combine (l : list Z) : Z :=
  match l with [] => 0 | b :: l => b + 256 * combine l end.

Lemma combine_split n v : combine (split n v) = v mod 2 ^ (8 * Z.of_nat n).
Proof.
  revert v. induction n as [|n IH]; intros v; simpl; [by rewrite Z.mod_1_r|].
  rewrite IH. replace (8 * Z.of_nat (S n)) with (8 + 8 * Z.of_nat n) by lia.
  rewrite Z.pow_add_r by lia. change (2 ^ 8) with 256.
  rewrite Z.rem_mul_r by (lia || (apply Z.pow_pos_nonneg; lia)). lia.
Qed.

Lemma combine_bounds l : bytes_ok l -> 0 <= combine l < 2 ^ (8 * blen l).
Proof.
  induction 1 as [|b l Hb _ IH]; simpl; [done|]. rewrite blen_cons.
  replace (8 * (1 + blen l)) with (8 + 8 * blen l) by lia.
  pose proof (blen_nonneg l). rewrite Z.pow_add_r by lia. flia.
Qed.

Lemma split_combine l : bytes_ok l -> split (length l) (combine l) = l.
Proof.
  induction 1 as [|b l Hb _ IH]; simpl; [done|]. unfold_widths.
  replace (b + 256 * combine l) with (combine l * 256 + b) by lia.
  rewrite Z.div_add_l, (Z.div_small b), Z.add_0_r, IH by lia.
  rewrite Z.add_comm, Z_mod_plus_full. by rewrite Z.mod_small by lia.
Qed.

Lemma put32_split v : put32 v = split 4 v.
Proof. unfold put32. cbn [split]. rewrite !byte_mod by lia. by rewrite !Z.div_div by lia. Qed.
Lemma put64_split v : put64 v = split 8 v.
Proof.
  unfold put64. cbn [split map]. rewrite !byte_mod by lia. rewrite !Z.div_div by lia.
  cbn [Z.mul Pos.mul Z.pow Z.pow_pos Pos.iter]. by rewrite Z.div_1_r.
Qed.

(** The bytes [p .. p + n) of a buffer. *)
Definition slice (b : list Z) (p n : Z) : list Z := ztake n (zdrop p b).

Lemma slice_znth b p n : 0 <= p -> 0 <= n -> p + n <= blen b ->
  slice b p n = map (fun i => znth 0 b (p + Z.of_nat i)) (seq 0 (Z.to_nat n)).
Proof.
  intros Hp Hn Hl. unfold slice, ztake, zdrop, znth, blen in *.
  apply list_eq. intros i. rewrite list_lookup_fmap.
  destruct (decide (i < Z.to_nat n)%nat) as [Hi|Hi].
  - rewrite lookup_take, lookup_drop, lookup_seq_lt by lia.
    destruct (decide (i < Z.to_nat n)%nat); [|lia]. simpl.
    rewrite nth_lookup. replace (Z.to_nat (p + Z.of_nat i)) with (Z.to_nat p + i)%nat by lia.
    destruct (lookup_lt_is_Some_2 b (Z.to_nat p + i)) as [x ->]; [lia|]. done.
  - rewrite lookup_take_ge, lookup_seq_ge by lia. done.
Qed.

Lemma slice_bytes b p n : bytes_ok b -> bytes_ok (slice b p n).
Proof. intros H. by apply Forall_take, Forall_drop. Qed.

Lemma get32_combine b p :
  bytes_ok b -> 0 <= p -> p + 4 <= blen b -> get32 b p = combine (slice b p 4).
Proof.
  intros Hb Hp Hl. pose proof (slice_bytes b p 4 Hb) as Hs.
  rewrite slice_znth in * by lia. change (seq 0 (Z.to_nat 4)) with [0; 1; 2; 3]%nat in *.
  cbn [map] in *. rewrite Z.add_0_r in *.
  repeat (apply Forall_cons in Hs as [? Hs]).
  change (Z.of_nat 1) with 1 in *. change (Z.of_nat 2) with 2 in *.
  change (Z.of_nat 3) with 3 in *. unfold_widths. unfold get32.
  rewrite !Z.shiftl_mul_pow2, !wrap_id by flia. 
  rewrite (lor_shiftl_add _ _ 8), (lor_shiftl_add _ _ 16), (lor_shiftl_add _ _ 24) by lia.
  cbn [combine]. lia.
Qed.

Lemma get64_fold l v :
  bytes_ok l -> 0 <= v -> (v + 1) * 2 ^ (8 * blen l) <= 2 ^ 64 ->
  fold_left (fun v x => Z.lor (u64 (Z.shiftl v 8)) x) (rev l) v =
    v * 2 ^ (8 * blen l) + combine l.
Proof.
  intros Hl Hv. induction Hl as [|x l Hx Hl IH]; intros Hb; simpl.
  { change (2 ^ (8 * blen [])) with 1. lia. }
  rewrite fold_left_app. simpl. rewrite blen_cons in *. pose proof (blen_nonneg l).
  replace (8 * (1 + blen l)) with (8 + 8 * blen l) in * by lia.
  rewrite Z.pow_add_r in * by lia. change (2 ^ 8) with 256 in *. unfold_widths.
  pose proof (combine_bounds l Hl).
  rewrite IH by nia. rewrite Z.shiftl_mul_pow2, wrap_id by (unfold fits; nia || lia).
  rewrite Z.lor_comm, lor_shiftl_add by lia. lia.
Qed.

Lemma get64_combine b p :
  bytes_ok b -> 0 <= p -> p + 8 <= blen b -> get64 b p = combine (slice b p 8).
Proof.
  intros Hb Hp Hl.
  transitivity (0 * 2 ^ (8 * blen (slice b p 8)) + combine (slice b p 8)); [|lia].
  rewrite <-get64_fold; [|by apply slice_bytes|lia|].
  - rewrite slice_znth by lia.
    change (seq 0 (Z.to_nat 8)) with [0; 1; 2; 3; 4; 5; 6; 7]%nat.
    unfold get64. cbn [map rev app fold_left]. reflexivity.
  - unfold slice. rewrite blen_ztake; [lia|]. rewrite blen_zdrop; lia.
Qed.

Lemma slice_app b x b' : slice (b ++ x ++ b') (blen b) (blen x) = x.
Proof.
  unfold slice, ztake, zdrop, blen. rewrite !Nat2Z.id.
  by rewrite drop_app_length, take_app_length.
Qed.

Lemma get32_put32 v b b' : fits 32 v -> bytes_ok b -> bytes_ok b' ->
  get32 (b ++ put32 v ++ b') (blen b) = v.
Proof.
  intros Hv Hb Hb'. pose proof (blen_nonneg b). pose proof (blen_nonneg b').
  rewrite get32_combine.
  - change 4 with (blen (put32 v)). rewrite slice_app, put32_split, combine_split.
    by apply Z.mod_small.
  - apply Forall_app; split; [done|]. apply Forall_app; split; [apply put32_bytes | done].
  - lia.
  - rewrite !blen_app. change (blen (put32 v)) with 4. lia.
Qed.

Lemma get64_put64 v b b' : fits 64 v -> bytes_ok b -> bytes_ok b' ->
  get64 (b ++ put64 v ++ b') (blen b) = v.
Proof.
  intros Hv Hb Hb'. pose proof (blen_nonneg b). pose proof (blen_nonneg b').
  rewrite get64_combine.
  - change 8 with (blen (put64 v)). rewrite slice_app, put64_split, combine_split.
    by apply Z.mod_small.
  - apply Forall_app; split; [done|]. apply Forall_app; split; [apply put64_bytes | done].
  - lia.
  - rewrite !blen_app. change (blen (put64 v)) with 8. lia.
Qed.

(** Writing back what was read reproduces the bytes. *)
Lemma put32_get32 b p : bytes_ok b -> 0 <= p -> p + 4 <= blen b ->
  put32 (get32 b p) = slice b p 4.
Proof.
  intros Hb Hp Hl. rewrite get32_combine, put32_split by done.
  pose proof (slice_bytes b p 4 Hb) as Hs. rewrite <-(split_combine _ Hs) at 2.
  f_equal. unfold slice, ztake, zdrop, blen in *. rewrite length_take, length_drop. lia.
Qed.
Lemma put64_get64 b p : bytes_ok b -> 0 <= p -> p + 8 <= blen b ->
  put64 (get64 b p) = slice b p 8.
Proof.
  intros Hb Hp Hl. rewrite get64_combine, put64_split by done.
  pose proof (slice_bytes b p 8 Hb) as Hs. rewrite <-(split_combine _ Hs) at 2.
  f_equal. unfold slice, ztake, zdrop, blen in *. rewrite length_take, length_drop. lia.
Qed.

Lemma get32_fits b p : bytes_ok b -> 0 <= p -> p + 4 <= blen b -> fits 32 (get32 b p).
Proof.
  intros Hb Hp Hl. rewrite get32_combine by done.
  pose proof (combine_bounds _ (slice_bytes b p 4 Hb)) as H.
  unfold slice in H at 3. rewrite blen_ztake in H by (rewrite blen_zdrop; lia). exact H.
Qed.
Lemma get64_fits b p : bytes_ok b -> 0 <= p -> p + 8 <= blen b -> fits 64 (get64 b p).
Proof.
  intros Hb Hp Hl. rewrite get64_combine by done.
  pose proof (combine_bounds _ (slice_bytes b p 8 Hb)) as H.
  unfold slice in H at 3. rewrite blen_ztake in H by (rewrite blen_zdrop; lia). exact H.
Qed.
End Le.

(** ** Growable buffer *)
Module KvBuf.

(** kv_buf: the bytes written so far and the allocated capacity (zero while
    [ptr] is NULL). *)
Record t := mk { data : list Z; cap : Z }.
Definition empty : t := mk [] 0.

(** [realloc(p, n)] succeeds or the process dies (kv_xrealloc, kv_die). *)
Section Alloc.
Context (realloc_ok : Z -> bool).

(** The loop [while (cap < need) cap *= 2;] *)
Fixpoint grow (fuel : nat) (cap need : Z) : option Z :=
  if cap <? need then
    match fuel with
    | O => None
    | S fuel => grow fuel (u64 (cap * 2)) need
    end
  else Some cap.

(** kv_buf_reserve; [None] is kv_die. *)
Definition reserve (b : t) (add : Z) : option t :=
  if u64 (SIZE_MAX - blen b.(data) - 1) <? add then None
  else
    let need := u64 (blen b.(data) + add + 1) in
    if need <=? b.(cap) then Some b
    else
      c ← grow 64 (if negb (b.(cap) =? 0) then u64 (b.(cap) * 2) else 256) need;
      if realloc_ok c then Some (mk b.(data) c) else None.

(** kv_buf_append *)
Definition append (b : t) (p : list Z) : option t :=
  b' ← reserve b (blen p); Some (mk (b'.(data) ++ p) b'.(cap)).

(** kv_buf_putc *)
Definition putc (b : t) (c : Z) : option t := append b [c].
(** kv_buf_puts *)
Definition puts (b : t) (s : list Z) : option t := append b s.

(** kv_buf_take: the C string handed out and the emptied buffer. *)
Definition take (b : t) : list Z * t :=
  if b.(cap) =? 0 then ([], b) else (b.(data), empty).

(** Between operations the buffer is empty and unallocated, or has room for
    its bytes and the terminating NUL. *)
Definition wf (b : t) : Prop :=
  0 <= b.(cap) < 2 ^ 63 /\
  (b.(cap) = 0 /\ b.(data) = [] \/ blen b.(data) + 1 <= b.(cap)).

Lemma grow_spec fuel c need :
  0 < c < 2 ^ 63 -> need <= 2 ^ 62 -> need <= c * 2 ^ Z.of_nat fuel ->
  exists c', grow fuel c need = Some c' /\ need <= c' /\ c <= c' /\
    (c' = c \/ c' < 2 * need).
Proof.
  revert c. induction fuel as [|fuel IH]; intros c Hc Hn Hf; simpl;
    destruct (Z.ltb_spec c need); try (exists c; split_and!; done || lia).
  rewrite wrap_id by flia.
  destruct (IH (c * 2)) as (c' & -> & H1 & H2 & H3); [lia|lia| |].
  - replace (Z.of_nat (S fuel)) with (1 + Z.of_nat fuel) in Hf by lia.
    rewrite Z.pow_add_r in Hf by lia. change (2 ^ 1) with 2 in Hf. lia.
  - exists c'. split_and!; try done; lia.
Qed.

(** What a reservation guarantees as long as the allocator succeeds and the
    buffer stays below 2^62 bytes. *)
Lemma reserve_spec b add :
  wf b -> 0 <= add -> blen b.(data) + add + 1 <= 2 ^ 62 -> (forall n, realloc_ok n = true) ->
  exists c, reserve b add = Some (mk b.(data) c) /\ b.(cap) <= c < 2 ^ 63 /\
    blen b.(data) + add + 1 <= c /\
    c <= Z.max (Z.max 256 (2 * b.(cap))) (2 * (blen b.(data) + add + 1)).
Proof.
  intros [Hc Hd] Ha Hn Hre. unfold reserve. pose proof (blen_nonneg b.(data)).
  rewrite !wrap_id by flia.
  destruct (Z.ltb_spec (18446744073709551615 - blen b.(data) - 1) add); [lia|].
  destruct (Z.leb_spec (blen b.(data) + add + 1) b.(cap)).
  { exists b.(cap). destruct b; simpl in *. split_and!; done || lia. }
  set (c0 := if negb (b.(cap) =? 0) then b.(cap) * 2 else 256).
  assert (b.(cap) <= c0 /\ 0 < c0 < 2 ^ 63 /\ c0 <= Z.max 256 (2 * b.(cap))).
  { unfold c0. destruct (Z.eqb_spec b.(cap) 0); simpl; lia. }
  destruct (grow_spec 64 c0 (blen b.(data) + add + 1)) as (c & -> & Hg1 & Hg2 & Hg3);
    [lia|lia|lia|].
  simpl. rewrite Hre. exists c. split_and!; done || lia.
Qed.

Lemma append_spec b p :
  wf b -> blen b.(data) + blen p + 1 <= 2 ^ 62 -> (forall n, realloc_ok n = true) ->
  exists b', append b p = Some b' /\ wf b' /\ b'.(data) = b.(data) ++ p /\ 0 < b'.(cap).
Proof.
  intros Hb Hl Hre. pose proof (blen_nonneg p). pose proof (blen_nonneg b.(data)).
  destruct (reserve_spec b (blen p)) as (c & Hr & Hc & Hn & _); [done..|].
  unfold append. rewrite Hr. simpl. eexists. split; [done|]. simpl. destruct Hb as [Hb _].
  split_and!; try lia; [|done]. unfold wf. simpl. rewrite blen_app. split; [lia|]. right. lia.
Qed.
End Alloc.
End KvBuf.

(** ** Hexadecimal digests and file names *)
Module Name.

Definition hex_digits : list Z := bs "0123456789abcdef".

(** hex20 *)
Definition hex20 (d : list Z) : list Z :=
  flat_map (fun b => [znth 0 hex_digits (Z.shiftr b 4); znth 0 hex_digits (Z.land b 15)]) d.

(** isxdigit and tolower of the C locale. *)
Definition isxdigit (c : Z) : bool :=
  ((ch "0" <=? c) && (c <=? ch "9")) || ((ch "a" <=? c) && (c <=? ch "f")) ||
  ((ch "A" <=? c) && (c <=? ch "F")).
Definition tolower (c : Z) : Z :=
  if (ch "A" <=? c) && (c <=? ch "Z") then c + 32 else c.

(** The digit loop of ds4_kvstore_sha_hex_name. *)
Fixpoint hex_lower (l : list Z) : option (list Z) :=
  match l with
  | [] => Some []
  | c :: l =>
      if negb (isxdigit c) then None
      else sha ← hex_lower l; Some (tolower c :: sha)
  end.

(** ds4_kvstore_sha_hex_name: the 40 digits, or the refusal. *)
Definition sha_hex_name (name : list Z) : option (list Z) :=
  if negb (blen name =? 43) || negb (streq (zdrop 40 name) (bs ".kv")) then None
  else hex_lower (ztake 40 name).

(** ds4_kvstore_path_join *)
Definition path_join (dir name : list Z) : list Z :=
  if (blen dir =? 0) || negb (znth 0 dir (blen dir - 1) =? ch "/")
  then dir ++ [ch "/"] ++ name
  else dir ++ name.

(** ds4_kvstore_path_for_sha *)
Definition path_for_sha (dir sha : list Z) : list Z :=
  path_join dir (ztake 40 sha ++ bs ".kv").

(** kv_mkdir_p over an abstract [mkdir] with its directory state; the boolean
    of [mkdir] is "created, or EEXIST". *)
Section Mkdir.
Context {FS : Type} (mkdir : FS -> list Z -> FS * bool).

Fixpoint mkdir_scan (fs : FS) (pre rest : list Z) : FS * bool :=
  match rest with
  | [] => mkdir fs pre
  | c :: rest =>
      if c =? ch "/" then
        let '(fs, ok) := mkdir fs pre in
        if ok then mkdir_scan fs (pre ++ [c]) rest else (fs, false)
      else mkdir_scan fs (pre ++ [c]) rest
  end.

Definition mkdir_p (fs : FS) (path : option (list Z)) : FS * bool :=
  match path with
  | None | Some [] => (fs, false)
  | Some (c :: rest) => mkdir_scan fs [c] rest
  end.
End Mkdir.

(** A digest as it appears in a file name. *)
Definition hex_ok (sha : list Z) : Prop :=
  length sha = 40%nat /\ Forall (fun c => isxdigit c = true /\ tolower c = c) sha.

Lemma nibble_digit n : 0 <= n < 16 ->
  isxdigit (znth 0 hex_digits n) = true /\ tolower (znth 0 hex_digits n) = znth 0 hex_digits n.
Proof.
  intros H.
  pose proof (forallb_range (fun n => isxdigit (znth 0 hex_digits n) &&
    (tolower (znth 0 hex_digits n) =? znth 0 hex_digits n)) 16 n eq_refl H) as Hb.
  apply andb_true_iff in Hb as [Hx Ht]. apply Z.eqb_eq in Ht. done.
Qed.

Lemma byte_nibbles b : fits 8 b -> 0 <= Z.shiftr b 4 < 16 /\ 0 <= Z.land b 15 < 16.
Proof.
  intros H. change 15 with (Z.ones 4). rewrite Z.land_ones, Z.shiftr_div_pow2 by lia.
  change (2 ^ 4) with 16. unfold_widths.
  split; [split; [apply Z.div_pos | apply Z.div_lt_upper_bound] | apply Z.mod_pos_bound]; lia.
Qed.

Lemma hex20_ok d : length d = 20%nat -> bytes_ok d -> hex_ok (hex20 d).
Proof.
  intros Hl Hd. split.
  - enough (length (hex20 d) = 2 * length d)%nat by lia.
    clear. induction d; simpl; lia.
  - clear Hl. induction Hd as [|b d Hb _ IH]; simpl; [done|].
    destruct (byte_nibbles b Hb).
    repeat constructor; try (by apply nibble_digit). done.
Qed.

Lemma sha_hex_name_ok sha : hex_ok sha -> sha_hex_name (sha ++ bs ".kv") = Some sha.
Proof.
  intros [Hl Hs]. unfold sha_hex_name. rewrite blen_app.
  unfold zdrop, ztake, blen. rewrite Hl. change (Z.to_nat 40) with 40%nat.
  rewrite drop_app_length', take_app_length' by done.
  unfold streq. rewrite bool_decide_true by done. simpl negb.
  replace (_ || false) with false by (by vm_compute). cbv iota. clear Hl.
  induction Hs as [|c sha [Hx Ht] _ IH]; simpl; [done|]. by rewrite Hx, IH, Ht.
Qed.

(** The 40 digits a name decodes to are always a well-formed digest. *)
Lemma sha_hex_name_hex name sha : sha_hex_name name = Some sha -> hex_ok sha.
Proof.
  unfold sha_hex_name. destruct (negb (blen name =? 43) || _) eqn:Hg; [done|].
  apply orb_false_iff in Hg as [Hl _]. apply negb_false_iff, Z.eqb_eq in Hl.
  assert (length (ztake 40 name) = 40%nat) as H40.
  { unfold ztake, blen in *. rewrite length_take. lia. }
  unfold hex_ok. rewrite <-H40. clear H40 Hl. generalize (ztake 40 name) as l.
  intros l. revert sha. induction l as [|c l IH]; intros sha; [by intros [= <-]|].
  simpl. destruct (isxdigit c) eqn:Hx; [|done]. simpl. simpl.
  destruct (hex_lower l) as [sha'|] eqn:Hd; [|done]. simpl.
  intros [= <-]. destruct (IH sha' eq_refl) as [Hlen Hok]. split; [simpl; lia|].
  constructor; [|done]. clear -Hx. unfold isxdigit, tolower in *.
  change (ch "0") with 48 in *. change (ch "9") with 57 in *. change (ch "a") with 97 in *.
  change (ch "f") with 102 in *. change (ch "A") with 65 in *. change (ch "F") with 70 in *.
  change (ch "Z") with 90 in *.
  destruct ((65 <=? c) && (c <=? 90)) eqn:Hu; [|split; [done | by rewrite Hu]].
  split; [lia|]. replace ((65 <=? c + 32) && (c + 32 <=? 90)) with false by lia. done.
Qed.
End Name.
