(* ===== verification/Sha1.v ===== *)
(** * SHA-1 (ds4_kvstore.c, sha1_ctx)

    The streaming digest that names checkpoint files, and its equivalence with
    the block-by-block definition of the hash of a padded message. *)

From S2P Require Import Prelude Bytes.

(** The five chaining words. *)
Record words := Words { h0 : Z; h1 : Z; h2 : Z; h3 : Z; h4 : Z }.

(** sha1_ctx *)
Record ctx := Ctx { h : words; nbytes : Z; block : list Z; used : Z }.

(** rol32 *)
Definition rol32 (v n : Z) : Z := Z.lor (u32 (Z.shiftl v n)) (Z.shiftr v (32 - n)).

(** The first loop of sha1_transform: sixteen big-endian words. *)
Definition load_word (block : list Z) (i : Z) : Z :=
  Z.lor (Z.lor (Z.lor (u32 (Z.shiftl (znth 0 block (i * 4)) 24))
                      (u32 (Z.shiftl (znth 0 block (i * 4 + 1)) 16)))
               (u32 (Z.shiftl (znth 0 block (i * 4 + 2)) 8)))
        (znth 0 block (i * 4 + 3)).

(** The second loop: the message schedule up to 80 words. *)
Fixpoint extend (n : nat) (w : list Z) : list Z :=
  match n with
  | O => w
  | S n =>
      let i := blen w in
      extend n (w ++ [rol32 (Z.lxor (Z.lxor (Z.lxor (znth 0 w (i - 3)) (znth 0 w (i - 8)))
                                            (znth 0 w (i - 14))) (znth 0 w (i - 16))) 1])
  end.

Definition schedule (block : list Z) : list Z :=
  extend 64 (map (load_word block) (seqZ 0 16)).

(** One of the eighty rounds. *)
Definition round (i wi : Z) (s : words) : words :=
  let '(Words a b cc d e) := s in
  let '(f, k) :=
    if i <? 20 then (Z.lor (Z.land b cc) (Z.land (u32 (Z.lnot b)) d), 0x5a827999)
    else if i <? 40 then (Z.lxor (Z.lxor b cc) d, 0x6ed9eba1)
    else if i <? 60 then
      (Z.lor (Z.lor (Z.land b cc) (Z.land b d)) (Z.land cc d), 0x8f1bbcdc)
    else (Z.lxor (Z.lxor b cc) d, 0xca62c1d6) in
  let tmp := u32 (rol32 a 5 + f + e + k + wi) in
  Words tmp a (rol32 b 30) cc d.

Fixpoint rounds (i : Z) (w : list Z) (s : words) : words :=
  match w with [] => s | wi :: w => rounds (i + 1) w (round i wi s) end.

(** sha1_transform, on the chaining words. *)
Definition transform (h : words) (block : list Z) : words :=
  let s := rounds 0 (schedule block) h in
  Words (u32 (h.(h0) + s.(h0))) (u32 (h.(h1) + s.(h1))) (u32 (h.(h2) + s.(h2)))
        (u32 (h.(h3) + s.(h3))) (u32 (h.(h4) + s.(h4))).

Definition IV : words := Words 0x67452301 0xefcdab89 0x98badcfe 0x10325476 0xc3d2e1f0.

(** sha1_init; the block buffer keeps whatever the stack held. *)
Definition init (stack : list Z) : ctx := Ctx IV 0 stack 0.

(** The [while (len != 0)] loop of sha1_update; [fuel] bounds its turns. *)
Fixpoint update_loop (fuel : nat) (c : ctx) (p : list Z) : ctx :=
  match fuel with
  | O => c
  | S fuel =>
      if blen p =? 0 then c
      else
        let n := 64 - c.(used) in
        let n := if blen p <? n then blen p else n in
        let blk := ztake c.(used) c.(block) ++ ztake n p ++ zdrop (c.(used) + n) c.(block) in
        let used := c.(used) + n in
        let c :=
          if used =? 64 then Ctx (transform c.(h) blk) c.(nbytes) blk 0
          else Ctx c.(h) c.(nbytes) blk used in
        update_loop fuel c (zdrop n p)
  end.

(** sha1_update.  Every turn consumes at least one byte. *)
Definition update (c : ctx) (p : list Z) : ctx :=
  update_loop (length p) (Ctx c.(h) (u64 (c.(nbytes) + blen p)) c.(block) c.(used)) p.

(** The padding loop [while (c->used != 56) sha1_update(c, &zero, 1);] *)
Fixpoint pad_loop (fuel : nat) (c : ctx) : ctx :=
  match fuel with
  | O => c
  | S fuel => if c.(used) =? 56 then c else pad_loop fuel (update c [0])
  end.

Definition be32 (v : Z) : list Z :=
  [u8 (Z.shiftr v 24); u8 (Z.shiftr v 16); u8 (Z.shiftr v 8); u8 v].

(** The digest bytes of the chaining words. *)
Definition digest (s : words) : list Z :=
  be32 s.(h0) ++ be32 s.(h1) ++ be32 s.(h2) ++ be32 s.(h3) ++ be32 s.(h4).

(** The eight length bytes of sha1_final. *)
Definition len_bytes (bits : Z) : list Z :=
  map (fun i => u8 (Z.shiftr bits (8 * (7 - i)))) (seqZ 0 8).

(** sha1_final; at most 63 padding zeros are fed. *)
Definition final (c : ctx) : list Z :=
  let bits := u64 (c.(nbytes) * 8) in
  let c := update c [0x80] in
  let c := pad_loop 64 c in
  let c := update c (len_bytes bits) in
  digest c.(h).

(** ds4_kvstore_sha1_bytes_hex *)
Definition sha1_bytes_hex (stack msg : list Z) : list Z :=
  Name.hex20 (final (update (init stack) msg)).

(** ** Reference definition *)

(** The blocks of a padded message, and the hash of their sequence. *)
Fixpoint blocks (fuel : nat) (m : list Z) : list (list Z) :=
  match fuel with
  | O => []
  | S fuel => ztake 64 m :: blocks fuel (zdrop 64 m)
  end.

Definition pad (m : list Z) : list Z :=
  m ++ [0x80] ++ replicate (Z.to_nat ((55 - blen m) mod 64)) 0 ++ len_bytes (u64 (blen m * 8)).

Definition hash_blocks (bs : list (list Z)) : words := fold_left transform bs IV.

Definition sha1 (m : list Z) : list Z :=
  digest (hash_blocks (blocks (length (pad m) / 64) (pad m))).

(** ** The context represents the bytes fed so far *)
Definition rep (c : ctx) (m : list Z) : Prop :=
  exists bs rest,
    m = concat bs ++ rest /\ Forall (fun b : list Z => length b = 64%nat) bs /\
    c.(h) = hash_blocks bs /\ c.(used) = blen rest /\ blen rest < 64 /\
    length c.(block) = 64%nat /\ ztake c.(used) c.(block) = rest /\
    c.(nbytes) = u64 (blen m).

Lemma rep_init (stack : list Z) : length stack = 64%nat -> rep (init stack) [].
Proof. intros H. exists [], []. split_and!; done. Qed.

Lemma concat_blocks_length bs :
  Forall (fun b : list Z => length b = 64%nat) bs -> blen (concat bs) = 64 * blen bs.
Proof.
  induction 1 as [|b bs Hb _ IH]; simpl; [done|]. rewrite blen_app, blen_cons, IH.
  unfold blen at 1. rewrite Hb. lia.
Qed.

(** One turn of the copy loop, ignoring the byte counter. *)
Lemma update_loop_rep fuel hh nb blk u p bs rest :
  (length p <= fuel)%nat -> Forall (fun b : list Z => length b = 64%nat) bs ->
  hh = hash_blocks bs -> u = blen rest -> blen rest < 64 -> length blk = 64%nat ->
  ztake u blk = rest ->
  exists bs' rest' blk',
    update_loop fuel (Ctx hh nb blk u) p = Ctx (hash_blocks bs') nb blk' (blen rest') /\
    concat bs ++ rest ++ p = concat bs' ++ rest' /\
    Forall (fun b : list Z => length b = 64%nat) bs' /\ blen rest' < 64 /\
    length blk' = 64%nat /\ ztake (blen rest') blk' = rest'.
Proof.
  revert hh blk u p bs rest. induction fuel as [|fuel IH];
    intros hh blk u p bs rest Hf Hbs -> -> Hr Hblk Hrest; simpl.
  { destruct p; [|simpl in Hf; lia]. exists bs, rest, blk. by rewrite app_nil_r. }
  pose proof (blen_nonneg rest). pose proof (blen_nonneg p).
  destruct (Z.eqb_spec (blen p) 0) as [Hp|Hp].
  { destruct p; [|rewrite blen_cons in Hp; pose proof (blen_nonneg p); lia].
    exists bs, rest, blk. by rewrite app_nil_r. }
  set (n := if blen p <? 64 - blen rest then blen p else 64 - blen rest).
  assert (0 < n <= blen p /\ blen rest + n <= 64 /\
    (blen rest + n <> 64 -> n = blen p)) as (Hn & Hn64 & Hall)
    by (unfold n; destruct (Z.ltb_spec (blen p) (64 - blen rest)); lia).
  clearbody n.
  assert (p = ztake n p ++ zdrop n p) as Hpsplit by (symmetry; apply take_drop).
  assert (length (zdrop n p) <= fuel)%nat
    by (unfold zdrop, blen in *; rewrite length_drop; lia).
  rewrite Hrest. set (blk' := rest ++ ztake n p ++ zdrop (blen rest + n) blk).
  assert (blen blk = 64) as Hb64 by (unfold blen; lia).
  assert (length blk' = 64%nat) as Hblk'.
  { enough (blen blk' = 64) by (unfold blen in *; lia). unfold blk'.
    rewrite !blen_app, blen_ztake, blen_zdrop by lia. lia. }
  assert (ztake (blen rest + n) blk' = rest ++ ztake n p) as Htake.
  { unfold blk', ztake. rewrite app_assoc. apply take_app_length'.
    rewrite length_app, length_take. unfold blen in *. lia. }
  destruct (Z.eqb_spec (blen rest + n) 64) as [H64|H64].
  - destruct (IH (transform (hash_blocks bs) blk') blk' 0 (zdrop n p) (bs ++ [blk']) [])
      as (bs' & rest' & blk'' & Heq & Hcat & Hok); [done| |  |done|done|done|done|].
    { apply Forall_app. split; [done|]. by constructor. }
    { unfold hash_blocks. by rewrite fold_left_app. }
    exists bs', rest', blk''. split; [done|]. split; [|done].
    rewrite <-Hcat, concat_app. simpl. rewrite app_nil_r, <-app_assoc. f_equal.
    rewrite Hpsplit at 1. rewrite app_assoc. f_equal. rewrite <-Htake, H64.
    unfold ztake. rewrite take_ge; [done|]. lia.
  - rewrite (Hall H64) in *.
    destruct (IH (hash_blocks bs) blk' (blen rest + blen p) (zdrop (blen p) p) bs (rest ++ p))
      as (bs' & rest' & blk'' & Heq & Hcat & Hok); [done|done|done| | |done| |].
    { by rewrite blen_app. }
    { rewrite blen_app. lia. }
    { rewrite Htake. f_equal. unfold ztake, blen. rewrite take_ge; [done|]. lia. }
    exists bs', rest', blk''. split; [done|]. split; [|done].
    rewrite <-Hcat. unfold zdrop, blen. rewrite drop_ge by lia. by rewrite app_nil_r.
Qed.

(** Feeding a chunk extends the represented message by it. *)
Lemma update_rep c m p : rep c m -> rep (update c p) (m ++ p).
Proof.
  intros (bs & rest & -> & Hbs & Hh & Hu & Hr & Hb & Ht & Hn). destruct c as [hh nb blk u].
  simpl in *. unfold update. simpl.
  destruct (update_loop_rep (length p) hh (u64 (nb + blen p)) blk u p bs rest)
    as (bs' & rest' & blk' & -> & Hcat & Hbs' & Hr' & Hb' & Ht'); [lia|done..|].
  exists bs', rest'. simpl. split_and!; try done; [by rewrite <-app_assoc|].
  rewrite Hn, (blen_app (_ ++ _) p). unfold wrap. by rewrite Zplus_mod_idemp_l.
Qed.

Lemma rep_used c m : rep c m -> c.(used) = blen m mod 64.
Proof.
  intros (bs & rest & -> & Hbs & _ & -> & Hr & _). pose proof (blen_nonneg rest).
  rewrite blen_app, concat_blocks_length by done.
  rewrite Z.add_comm, Z.mul_comm, Z_mod_plus_full. symmetry. by apply Z.mod_small.
Qed.

Lemma pad_loop_rep fuel c m :
  rep c m -> (56 - blen m) mod 64 < Z.of_nat fuel ->
  rep (pad_loop fuel c) (m ++ replicate (Z.to_nat ((56 - blen m) mod 64)) 0).
Proof.
  revert c m. induction fuel as [|fuel IH]; intros c m Hr Hf; simpl.
  { pose proof (Z.mod_pos_bound (56 - blen m) 64). lia. }
  pose proof (rep_used c m Hr) as Hu.
  destruct (Z.eqb_spec c.(used) 56) as [H56|H56].
  { rewrite H56 in Hu. replace ((56 - blen m) mod 64) with 0; [by rewrite app_nil_r|].
    symmetry. rewrite Zminus_mod, <-Hu. done. }
  assert ((56 - blen m) mod 64 = (56 - blen (m ++ [0])) mod 64 + 1) as Hk.
  { rewrite blen_snoc. rewrite Hu in H56.
    pose proof (Z_div_mod_eq_full (blen m) 64). pose proof (Z.mod_pos_bound (blen m) 64).
    pose proof (Z_div_mod_eq_full (56 - blen m) 64).
    pose proof (Z.mod_pos_bound (56 - blen m) 64).
    pose proof (Z_div_mod_eq_full (56 - (blen m + 1)) 64).
    pose proof (Z.mod_pos_bound (56 - (blen m + 1)) 64). lia. }
  pose proof (Z.mod_pos_bound (56 - blen (m ++ [0])) 64).
  rewrite Hk, Z2Nat.inj_add by lia. rewrite Nat.add_comm. simpl.
  replace (m ++ 0 :: replicate (Z.to_nat ((56 - blen (m ++ [0])) mod 64)) 0)
    with ((m ++ [0]) ++ replicate (Z.to_nat ((56 - blen (m ++ [0])) mod 64)) 0)
    by by rewrite <-app_assoc.
  apply IH; [by apply update_rep | lia].
Qed.

Lemma blocks_concat bs :
  Forall (fun b : list Z => length b = 64%nat) bs -> blocks (length bs) (concat bs) = bs.
Proof.
  induction 1 as [|b bs Hb _ IH]; simpl; [done|]. unfold ztake, zdrop.
  change (Z.to_nat 64) with 64%nat. rewrite take_app_length', drop_app_length' by done.
  by rewrite IH.
Qed.

Lemma pad_length m : blen (pad m) mod 64 = 0.
Proof.
  unfold pad. rewrite !blen_app. change (blen [128]) with 1. change (blen (len_bytes _)) with 8.
  pose proof (Z.mod_pos_bound (55 - blen m) 64).
  unfold blen at 2. rewrite length_replicate, Z2Nat.id by lia.
  pose proof (Z_div_mod_eq_full (55 - blen m) 64).
  replace (blen m + (1 + ((55 - blen m) mod 64 + 8))) with ((- ((55 - blen m) / 64) + 1) * 64)
    by lia.
  apply Z_mod_mult.
Qed.

Lemma rep_blocks c m : rep c m -> blen m mod 64 = 0 ->
  c.(h) = hash_blocks (blocks (length m / 64) m).
Proof.
  intros Hr Hm. pose proof (rep_used c m Hr) as Hu.
  destruct Hr as (bs & rest & -> & Hbs & Hh & Hur & _).
  rewrite Hm, Hur in Hu. destruct rest; [|rewrite blen_cons in Hu; pose proof (blen_nonneg rest); lia].
  rewrite app_nil_r in *. rewrite Hh. f_equal.
  pose proof (concat_blocks_length bs Hbs) as Hl.
  replace (length (concat bs)) with (length bs * 64)%nat by (unfold blen in Hl; lia).
  rewrite Nat.div_mul by done. by rewrite blocks_concat.
Qed.

Lemma final_rep c m : rep c m -> final c = sha1 m.
Proof.
  intros Hr. unfold final, sha1. f_equal.
  assert (c.(nbytes) = u64 (blen m)) as Hn by (by destruct Hr as (?&?&?&?&?&?&?&?&?&?)).
  assert (u64 (c.(nbytes) * 8) = u64 (blen m * 8)) as Hbits.
  { rewrite Hn. unfold wrap. by rewrite Zmult_mod_idemp_l. }
  apply rep_blocks; [|apply pad_length].
  pose proof (update_rep _ _ [128] Hr) as H1.
  pose proof (Z.mod_pos_bound (55 - blen m) 64).
  pose proof (pad_loop_rep 64 _ _ H1) as H2. rewrite blen_snoc in H2.
  replace (56 - (blen m + 1)) with (55 - blen m) in H2 by lia.
  pose proof (update_rep _ _ (len_bytes (u64 (c.(nbytes) * 8))) (H2 ltac:(lia))) as H3.
  rewrite Hbits in *. unfold pad. rewrite <-!app_assoc in H3. exact H3.
Qed.

(** the streaming digest is the hash of the padded message, however the
    message is cut into chunks: after any sequence of updates from a freshly
    initialised context (whatever the stack buffer held) the final digest is
    the block-by-block SHA-1 of the concatenation, length field included, with
    the padding loop terminating. *)
Theorem streaming_sha1 stack chunks :
  length stack = 64%nat ->
  final (fold_left update chunks (init stack)) = sha1 (concat chunks).
Proof.
  intros Hs. apply final_rep.
  assert (forall c m, rep c m -> rep (fold_left update chunks c) (m ++ concat chunks)) as H.
  { induction chunks as [|p chunks IH]; intros c m Hr; simpl; [by rewrite app_nil_r|].
    rewrite app_assoc. by apply IH, update_rep. }
  exact (H _ [] (rep_init stack Hs)).
Qed.

Example streaming_sha1_witness :
  final (fold_left update [bs "a"; []; bs "bc"] (init (replicate 64 7))) =
  [169; 153; 62; 54; 71; 6; 129; 106; 186; 62; 37; 113; 120; 80; 194; 108; 156; 208; 216; 157].
Proof. rewrite streaming_sha1 by reflexivity. vm_compute. reflexivity. Defined.

Lemma digest_bytes s : bytes_ok (digest s).
Proof. unfold digest, be32. repeat constructor; apply wrap_fits; lia. Qed.
Lemma digest_length s : length (digest s) = 20%nat.
Proof. done. Qed.

Lemma sha1_bytes_hex_eq stack m :
  length stack = 64%nat -> sha1_bytes_hex stack m = Name.hex20 (sha1 m).
Proof.
  intros Hs. unfold sha1_bytes_hex. f_equal. apply final_rep.
  exact (update_rep _ [] m (rep_init stack Hs)).
Qed.

Lemma sha1_hex_ok m : Name.hex_ok (Name.hex20 (sha1 m)).
Proof. apply Name.hex20_ok; [apply digest_length | apply digest_bytes]. Qed.

(** a digest always yields a checkpoint file name the directory scan accepts
    and decodes back to the same digest. *)
Theorem digest_name_roundtrip stack m :
  length stack = 64%nat ->
  Name.sha_hex_name (sha1_bytes_hex stack m ++ bs ".kv") = Some (sha1_bytes_hex stack m).
Proof.
  intros Hs. rewrite sha1_bytes_hex_eq by done. apply Name.sha_hex_name_ok, sha1_hex_ok.
Qed.

Example digest_name_roundtrip_witness :
  Name.sha_hex_name (bs "a9993e364706816aba3e25717850c26c9cd0d89d.kv") =
  Some (sha1_bytes_hex (replicate 64 0) (bs "abc")).
Proof.
  rewrite <-(digest_name_roundtrip (replicate 64 0) (bs "abc") eq_refl).
  vm_compute. reflexivity.
Defined.
