(* ===== verification/KvFile.v ===== *)
(** * Checkpoint files (ds4_kvstore.c)

    The 48-byte header and its reader, the entry a file decodes to, in-place
    touching, and the size arithmetic of a checkpoint file. *)

From S2P Require Import Prelude Bytes Sha1.

(** ** Constants *)
Definition FIXED_HEADER : Z := 48.
Definition KV_CACHE_VERSION : Z := 1.
Definition KV_CACHE_PAYLOAD_ABI : Z := 2.

Definition EXT_TOOL_MAP : Z := 1.
Definition EXT_RESPONSES_VISIBLE : Z := 2.
Definition EXT_THINKING_VISIBLE : Z := 4.
Definition EXT_SESSION_TITLE : Z := 8.
Definition EXT_BANK_REPLAY_V1 : Z := 16.
Definition EXT_IMAGE_PIXELS_V2 : Z := 32.

(** ds4_kvstore_reason *)
Definition REASON_UNKNOWN : Z := 0.
Definition REASON_COLD : Z := 1.
Definition REASON_CONTINUED : Z := 2.
Definition REASON_EVICT : Z := 3.
Definition REASON_SHUTDOWN : Z := 4.
Definition REASON_AGENT_SYSTEM : Z := 5.
Definition REASON_AGENT_SESSION : Z := 6.
Definition REASON_BANK_EVICT : Z := 7.
Definition REASON_BANK_SHUTDOWN : Z := 8.
Definition REASON_BANK_CHECKPOINT : Z := 9.

(** ds4_kvstore_reason_code *)
Definition reason_code (reason : option (list Z)) : Z :=
  match reason with
  | None => REASON_UNKNOWN
  | Some r =>
      if streq r (bs "cold") then REASON_COLD
      else if streq r (bs "continued") then REASON_CONTINUED
      else if streq r (bs "evict") then REASON_EVICT
      else if streq r (bs "shutdown") then REASON_SHUTDOWN
      else if streq r (bs "agent-system") then REASON_AGENT_SYSTEM
      else if streq r (bs "agent-session") then REASON_AGENT_SESSION
      else if streq r (bs "bank-evict") then REASON_BANK_EVICT
      else if streq r (bs "bank-shutdown") then REASON_BANK_SHUTDOWN
      else if streq r (bs "bank-checkpoint") then REASON_BANK_CHECKPOINT
      else REASON_UNKNOWN
  end.

Definition has_flag (flags bit : Z) : bool := negb (Z.land flags bit =? 0).

(** ds4_kvstore_key_kind *)
Definition key_kind (ext_flags : Z) : list Z :=
  if has_flag ext_flags EXT_IMAGE_PIXELS_V2 then bs "image-pixels"
  else if has_flag ext_flags EXT_RESPONSES_VISIBLE then bs "responses-visible"
  else if has_flag ext_flags EXT_THINKING_VISIBLE then bs "thinking-visible"
  else bs "token-text".

(** ds4_kvstore_entry *)
Record entry := Entry {
  sha : list Z;
  path : list Z;
  quant_bits : Z;
  model_id : Z;
  reason : Z;
  tokens : Z;
  hits : Z;
  ctx_size : Z;
  ext_flags : Z;
  created_at : Z;
  last_used : Z;
  payload_bytes : Z;
  text_bytes : Z;
  file_size : Z }.

(** ds4_kvstore_fill_header *)
Definition fill_header (model_id quant_bits reason ext_flags tokens hits ctx_size
    created_at last_used payload_bytes : Z) : list Z :=
  [ch "K"; ch "V"; ch "C"; KV_CACHE_VERSION; quant_bits; reason; ext_flags; model_id] ++
  Le.put32 tokens ++ Le.put32 hits ++ Le.put32 ctx_size ++ [KV_CACHE_PAYLOAD_ABI; 0; 0; 0] ++
  Le.put64 created_at ++ Le.put64 last_used ++ Le.put64 payload_bytes.

(** ds4_kvstore_read_header: the entry fields it fills, the text length and the
    rest of the stream; [None] where it returns false, after which no caller
    looks at the entry. *)
Definition read_header (fp : list Z) : option (entry * Z * list Z) :=
  if negb (blen (ztake FIXED_HEADER fp) =? FIXED_HEADER) then None else
  let h := ztake FIXED_HEADER fp in
  let fp := zdrop FIXED_HEADER fp in
  let b := znth 0 h in
  if negb (b 0 =? ch "K") || negb (b 1 =? ch "V") || negb (b 2 =? ch "C") ||
     negb (b 3 =? KV_CACHE_VERSION) then None else
  if negb (b 20 =? KV_CACHE_PAYLOAD_ABI) then None else
  let reason := if b 5 <=? REASON_BANK_CHECKPOINT then b 5 else REASON_UNKNOWN in
  if negb (blen (ztake 4 fp) =? 4) then None else
  let text_bytes := Le.get32 (ztake 4 fp) 0 in
  let e := Entry [] [] (b 4) (b 7) reason (Le.get32 h 8) (Le.get32 h 12) (Le.get32 h 16) (b 6)
             (Le.get64 h 24) (Le.get64 h 32) (Le.get64 h 40) text_bytes 0 in
  if negb (e.(tokens) =? 0) && ((e.(quant_bits) =? 2) || (e.(quant_bits) =? 4))
  then Some (e, text_bytes, zdrop 4 fp) else None.

(** The entry with the identity the directory scan gives it. *)
Definition named (e : entry) (sha path : list Z) (size : Z) : entry :=
  Entry sha path e.(quant_bits) e.(model_id) e.(reason) e.(tokens) e.(hits) e.(ctx_size)
    e.(ext_flags) e.(created_at) e.(last_used) e.(payload_bytes) e.(text_bytes) size.

(** ds4_kvstore_read_entry_file; [file] is the content when stat and fopen find
    the path. *)
Definition read_entry_file (file : option (list Z)) (path sha : list Z) : option entry :=
  match file with
  | None => None
  | Some c =>
      let st_size := blen c in
      if st_size <? FIXED_HEADER + 4 then None else
      match read_header c with
      | None => None
      | Some (e, text_bytes, _) =>
          let fixed := FIXED_HEADER + 4 in
          if (UINT64_MAX - fixed <? text_bytes) ||
             (u64 (UINT64_MAX - fixed - text_bytes) <? e.(payload_bytes)) then None
          else
            let expected := u64 (fixed + text_bytes + e.(payload_bytes)) in
            if st_size <? expected then None
            else Some (named e sha path st_size)
      end
  end.

(** ds4_kvstore_touch_file on the file's content: the content it leaves and its
    result.  [written] is how many of the 48 header bytes fwrite stores. *)
Definition touch_file (file : option (list Z)) (now : Z) (written : nat) (hits : Z)
    : option (list Z) * bool :=
  match file with
  | None => (None, false)
  | Some c =>
      match read_header c with
      | None => (Some c, false)
      | Some (e, _, _) =>
          let h := fill_header e.(model_id) e.(quant_bits) e.(reason) e.(ext_flags)
                     e.(tokens) hits e.(ctx_size) e.(created_at) now e.(payload_bytes) in
          (Some (take written h ++ drop (Nat.min written (length h)) c),
           (48 <=? written)%nat)
      end
  end.

(** ** Entry classification *)

(** kv_cache_reason_family *)
Definition reason_family (reason : Z) : Z :=
  if (REASON_COLD <=? reason) && (reason <=? REASON_SHUTDOWN) then 1
  else if (REASON_AGENT_SYSTEM <=? reason) && (reason <=? REASON_AGENT_SESSION) then 2
  else if (REASON_BANK_EVICT <=? reason) && (reason <=? REASON_BANK_CHECKPOINT) then 3
  else 0.

(** kv_entry_is_bank_replay_v1 *)
Definition is_bank_replay_v1 (e : entry) : bool :=
  (reason_family e.(reason) =? 3) && has_flag e.(ext_flags) EXT_BANK_REPLAY_V1.

(** kv_entry_is_automatic_exact_replay *)
Definition is_automatic_exact_replay (e : entry) : bool :=
  let family := reason_family e.(reason) in
  if family =? 1 then Z.land e.(ext_flags) EXT_BANK_REPLAY_V1 =? 0
  else is_bank_replay_v1 e.

(** kv_reopened_header_matches_entry *)
Definition reopened_header_matches_entry (hdr : entry) (text_len : Z) (e : entry) : bool :=
  (hdr.(model_id) =? e.(model_id)) && (hdr.(quant_bits) =? e.(quant_bits)) &&
  (hdr.(ctx_size) =? e.(ctx_size)) && (hdr.(tokens) =? e.(tokens)) &&
  (text_len =? e.(text_bytes)).

(** ** Sizes *)

(** kv_cache_file_size_bytes; [None] is false. *)
Definition file_size_bytes (text_bytes payload_bytes trailer_bytes : Z) : option Z :=
  let fixed := FIXED_HEADER + 4 in
  if (u64 (UINT64_MAX - fixed) <? text_bytes) ||
     (u64 (UINT64_MAX - fixed - text_bytes) <? payload_bytes) ||
     (u64 (UINT64_MAX - fixed - text_bytes - payload_bytes) <? trailer_bytes) then None
  else Some (u64 (fixed + text_bytes + payload_bytes + trailer_bytes)).

(** kv_cache_budget_required *)
Definition budget_required (file_bytes : Z) : option Z :=
  let slack := file_bytes / 100 in
  let slack := if negb (file_bytes mod 100 =? 0) then u64 (slack + 1) else slack in
  if u64 (UINT64_MAX - file_bytes) <? slack then None
  else Some (u64 (file_bytes + slack)).

(** ds4_kvstore_file_size_fits: the answer and the two out parameters as far as
    they are written.  [budget] is [None] for a NULL store. *)
Definition file_size_fits (budget : option Z) (text_bytes payload_bytes trailer_bytes : Z)
    : bool * option Z * option Z :=
  match file_size_bytes text_bytes payload_bytes trailer_bytes with
  | None => (false, None, None)
  | Some file_bytes =>
      match budget with
      | None => (true, Some file_bytes, None)
      | Some b =>
          if b =? 0 then (true, Some file_bytes, None)
          else
            match budget_required file_bytes with
            | None => (false, Some file_bytes, None)
            | Some required => (required <=? b, Some file_bytes, Some required)
            end
      end
  end.

(** ** Header round trip *)

Definition header_ok (model_id quant_bits reason ext_flags tokens hits ctx_size
    created_at last_used payload_bytes : Z) : Prop :=
  fits 8 model_id /\ fits 8 quant_bits /\ fits 8 reason /\ fits 8 ext_flags /\
  fits 32 tokens /\ fits 32 hits /\ fits 32 ctx_size /\
  fits 64 created_at /\ fits 64 last_used /\ fits 64 payload_bytes.

Definition clamp_reason (r : Z) : Z := if r <=? REASON_BANK_CHECKPOINT then r else REASON_UNKNOWN.

Lemma fill_header_length m q r x t h c cr lu pb :
  length (fill_header m q r x t h c cr lu pb) = 48%nat.
Proof. done. Qed.

(** Proves that a concatenation of fields and byte constants is a byte list. *)
Ltac bytes_tac :=
  repeat first
    [ done | apply Forall_nil_2 | apply Forall_app_2 | apply Le.put32_bytes
    | apply Le.put64_bytes
    | apply Forall_cons_2; [first [done | split; [intro; discriminate | reflexivity]] |] ].

Lemma fill_header_bytes m q r x t h c cr lu pb :
  header_ok m q r x t h c cr lu pb -> bytes_ok (fill_header m q r x t h c cr lu pb).
Proof.
  intros (Hm & Hq & Hr & Hx & _). unfold fill_header. bytes_tac.
Qed.

(** Reads a field of [fill_header] back with the lemma of its width. *)
Ltac read_field h8 lem v pre post :=
  let H := fresh in
  assert (H := lem v pre post); apply H; [done | subst h8; bytes_tac ..].

Lemma fill_header_fields m q r x t h c cr lu pb :
  header_ok m q r x t h c cr lu pb ->
  let hd := fill_header m q r x t h c cr lu pb in
  Le.get32 hd 8 = t /\ Le.get32 hd 12 = h /\ Le.get32 hd 16 = c /\
  Le.get64 hd 24 = cr /\ Le.get64 hd 32 = lu /\ Le.get64 hd 40 = pb.
Proof.
  intros (Hm & Hq & Hr & Hx & Ht & Hh & Hc & Hcr & Hlu & Hpb) hd.
  set (h8 := [ch "K"; ch "V"; ch "C"; KV_CACHE_VERSION; q; r; x; m]).
  set (abi := [KV_CACHE_PAYLOAD_ABI; 0; 0; 0]).
  split; [|split; [|split; [|split; [|split]]]].
  - read_field h8 Le.get32_put32 t h8 (Le.put32 h ++ Le.put32 c ++ abi ++ Le.put64 cr ++
      Le.put64 lu ++ Le.put64 pb).
  - read_field h8 Le.get32_put32 h (h8 ++ Le.put32 t) (Le.put32 c ++ abi ++ Le.put64 cr ++
      Le.put64 lu ++ Le.put64 pb).
  - read_field h8 Le.get32_put32 c (h8 ++ Le.put32 t ++ Le.put32 h) (abi ++ Le.put64 cr ++
      Le.put64 lu ++ Le.put64 pb).
  - read_field h8 Le.get64_put64 cr (h8 ++ Le.put32 t ++ Le.put32 h ++ Le.put32 c ++ abi)
      (Le.put64 lu ++ Le.put64 pb).
  - read_field h8 Le.get64_put64 lu (h8 ++ Le.put32 t ++ Le.put32 h ++ Le.put32 c ++ abi ++
      Le.put64 cr) (Le.put64 pb).
  - assert (H := Le.get64_put64 pb (h8 ++ Le.put32 t ++ Le.put32 h ++ Le.put32 c ++ abi ++
      Le.put64 cr ++ Le.put64 lu) []). apply H; [done | subst h8; bytes_tac ..].
Qed.

(** The reader on a 48-byte block followed by a text length. *)
Lemma read_header_block h tb rest :
  length h = 48%nat -> fits 32 tb ->
  read_header (h ++ Le.put32 tb ++ rest) =
  (if negb (znth 0 h 0 =? ch "K") || negb (znth 0 h 1 =? ch "V") ||
      negb (znth 0 h 2 =? ch "C") || negb (znth 0 h 3 =? KV_CACHE_VERSION) then None
   else if negb (znth 0 h 20 =? KV_CACHE_PAYLOAD_ABI) then None
   else
     let e := Entry [] [] (znth 0 h 4) (znth 0 h 7) (clamp_reason (znth 0 h 5))
                (Le.get32 h 8) (Le.get32 h 12) (Le.get32 h 16) (znth 0 h 6)
                (Le.get64 h 24) (Le.get64 h 32) (Le.get64 h 40) tb 0 in
     if negb (e.(tokens) =? 0) && ((e.(quant_bits) =? 2) || (e.(quant_bits) =? 4))
     then Some (e, tb, rest) else None).
Proof.
  intros Hh Htb. unfold read_header, ztake, zdrop.
  change (Z.to_nat FIXED_HEADER) with 48%nat.
  rewrite take_app_length', drop_app_length' by done.
  change (Z.to_nat 4) with (length (Le.put32 tb)).
  rewrite take_app_length, drop_app_length.
  assert (Le.get32 (Le.put32 tb) 0 = tb) as ->.
  { pose proof (Le.get32_put32 tb [] []) as H. rewrite app_nil_r in H.
    apply H; [done|by constructor..]. }
  unfold blen at 1. rewrite Hh. reflexivity.
Qed.

(** a written header reads back field for field, together with the text
    length that follows it; an out-of-range reason code is read as unknown. *)
Theorem header_roundtrip m q r x t h c cr lu pb tb rest :
  header_ok m q r x t h c cr lu pb -> fits 32 tb -> t <> 0 -> q = 2 \/ q = 4 ->
  read_header (fill_header m q r x t h c cr lu pb ++ Le.put32 tb ++ rest) =
  Some (Entry [] [] q m (clamp_reason r) t h c x cr lu pb tb 0, tb, rest).
Proof.
  intros Hok Htb Ht Hq. rewrite read_header_block by done.
  destruct (fill_header_fields m q r x t h c cr lu pb Hok) as (-> & -> & -> & -> & -> & ->).
  change (znth 0 (fill_header m q r x t h c cr lu pb) 4) with q.
  cbv zeta. cbn [tokens quant_bits].
  replace (negb (t =? 0) && _) with true by lia. reflexivity.
Qed.

Example header_roundtrip_witness :
  read_header (fill_header 1 4 3 16 30000 7 131072 1700000000 1700000500 123456789 ++
               Le.put32 5 ++ bs "hello") =
  Some (Entry [] [] 4 1 3 30000 7 131072 16 1700000000 1700000500 123456789 5 0, 5, bs "hello").
Proof.
  apply header_roundtrip; [unfold header_ok; repeat split; flia | flia | lia | by right].
Defined.

(** ** What the reader accepts *)

(** The fixed header of a file, and what an accepted file is made of. *)
Lemma read_header_shape c e tb rest :
  bytes_ok c -> read_header c = Some (e, tb, rest) ->
  exists h, c = h ++ Le.put32 tb ++ rest /\ length h = 48%nat /\ fits 32 tb /\
    bytes_ok h /\ bytes_ok rest.
Proof.
  intros Hc. unfold read_header.
  destruct (Z.eqb_spec (blen (ztake FIXED_HEADER c)) FIXED_HEADER) as [Hh|]; [|done].
  cbv zeta. cbn [negb]. destruct (negb _ || _ || _ || _); [done|].
  destruct (negb (_ =? KV_CACHE_PAYLOAD_ABI)); [done|].
  destruct (Z.eqb_spec (blen (ztake 4 (zdrop FIXED_HEADER c))) 4) as [H4|]; [|done].
  cbn [negb]. destruct (negb _ && _); [|done]. intros [= _ <- <-].
  assert (bytes_ok (ztake 4 (zdrop FIXED_HEADER c))) as Hb4 by (by apply Forall_take, Forall_drop).
  exists (ztake FIXED_HEADER c). split; [|split; [|split; [|split]]].
  - rewrite Le.put32_get32 by (done || lia). unfold Le.slice at 1.
    rewrite zdrop_0, ztake_ztake, ztake_zdrop. by rewrite ztake_zdrop.
  - unfold blen, FIXED_HEADER in *. lia.
  - apply Le.get32_fits; [done|lia|]. lia.
  - by apply Forall_take.
  - by apply Forall_drop, Forall_drop.
Qed.

(** The header with its unused bytes cleared and an unknown reason reset: what
    the store itself would have written. *)
Definition normal_header (h : list Z) : list Z :=
  <[5%nat := clamp_reason (znth 0 h 5)]> (<[21%nat := 0]> (<[22%nat := 0]> (<[23%nat := 0]> h))).

Definition entry_header (e : entry) : list Z :=
  fill_header e.(model_id) e.(quant_bits) e.(reason) e.(ext_flags) e.(tokens) e.(hits)
    e.(ctx_size) e.(created_at) e.(last_used) e.(payload_bytes).

Lemma header_reencode h :
  length h = 48%nat -> bytes_ok h -> znth 0 h 0 = ch "K" -> znth 0 h 1 = ch "V" ->
  znth 0 h 2 = ch "C" -> znth 0 h 3 = KV_CACHE_VERSION -> znth 0 h 20 = KV_CACHE_PAYLOAD_ABI ->
  normal_header h =
  fill_header (znth 0 h 7) (znth 0 h 4) (clamp_reason (znth 0 h 5)) (znth 0 h 6)
    (Le.get32 h 8) (Le.get32 h 12) (Le.get32 h 16) (Le.get64 h 24) (Le.get64 h 32) (Le.get64 h 40).
Proof.
  intros Hh Hb H0 H1 H2 H3 H20. assert (blen h = 48) as Hbl by (unfold blen; lia).
  unfold fill_header. rewrite !Le.put32_get32, !Le.put64_get64 by (done || lia).
  rewrite <-H0, <-H1, <-H2, <-H3, <-H20. clear H0 H1 H2 H3 H20 Hb Hbl.
  do 48 (destruct h as [|? h]; [done|]). destruct h; [reflexivity | done].
Qed.

(** the reader accepts nothing but stored checkpoints: an accepted file
    starts with 48 header bytes which, unused bytes and unknown reasons apart,
    are the encoding of exactly the fields that were read, then the text length
    and the rest; its token count is positive and its quantisation 2 or 4. *)
Theorem header_canonical c e tb rest :
  bytes_ok c -> read_header c = Some (e, tb, rest) ->
  exists h, c = h ++ Le.put32 tb ++ rest /\
    normal_header h = entry_header e /\
    0 < e.(tokens) < 2 ^ 32 /\ (e.(quant_bits) = 2 \/ e.(quant_bits) = 4) /\
    0 <= e.(reason) <= REASON_BANK_CHECKPOINT /\ e.(text_bytes) = tb /\
    fits 8 e.(model_id) /\ fits 8 e.(ext_flags) /\ fits 32 e.(hits) /\ fits 32 e.(ctx_size) /\
    fits 64 e.(created_at) /\ fits 64 e.(last_used) /\ fits 64 e.(payload_bytes).
Proof.
  intros Hc Hr. destruct (read_header_shape c e tb rest Hc Hr) as (h & -> & Hh & Htb & Hbh & _).
  rewrite read_header_block in Hr by done. exists h. split; [done|].
  assert (blen h = 48) as Hbl by (unfold blen; lia).
  pose proof (Le.get32_fits h 8 Hbh ltac:(lia) ltac:(lia)) as Ht.
  pose proof (Le.get32_fits h 12 Hbh ltac:(lia) ltac:(lia)) as Hhi.
  pose proof (Le.get32_fits h 16 Hbh ltac:(lia) ltac:(lia)) as Hcx.
  pose proof (Le.get64_fits h 24 Hbh ltac:(lia) ltac:(lia)) as Hcr.
  pose proof (Le.get64_fits h 32 Hbh ltac:(lia) ltac:(lia)) as Hlu.
  pose proof (Le.get64_fits h 40 Hbh ltac:(lia) ltac:(lia)) as Hpb.
  cbv zeta in Hr. cbn [tokens quant_bits] in Hr.
  destruct (negb _ || _ || _ || _) eqn:Hmagic; [done|].
  destruct (negb (znth 0 h 20 =? _)) eqn:Habi; [done|].
  destruct (negb _ && _) eqn:Hq; [|done]. injection Hr as <-. simpl in *.
  assert (forall i, fits 8 (znth 0 h i)) as Hby.
  { intros i. apply znth_Forall; [done | by split]. }
  split; [apply header_reencode; done || lia|]. split; [unfold fits in Ht; lia|].
  split; [lia|]. split; [|auto 10].
  unfold clamp_reason, REASON_BANK_CHECKPOINT, REASON_UNKNOWN. destruct (Hby 5). cases; lia.
Qed.

Definition sample_file : list Z :=
  fill_header 1 4 3 16 30000 7 131072 1700000000 1700000500 3 ++ Le.put32 5 ++
  bs "hello" ++ [1; 2; 3].

Lemma sample_file_bytes : bytes_ok sample_file.
Proof. by apply bytes_okb_ok. Qed.

Example header_canonical_witness :
  exists h, sample_file = h ++ Le.put32 5 ++ bs "hello" ++ [1; 2; 3] /\ blen h = 48.
Proof.
  destruct (header_canonical sample_file
    (Entry [] [] 4 1 3 30000 7 131072 16 1700000000 1700000500 3 5 0) 5 (bs "hello" ++ [1; 2; 3])
    sample_file_bytes) as (h & Hh & _); [vm_compute; reflexivity|].
  exists h. split; [exact Hh|]. apply (f_equal blen) in Hh. rewrite !blen_app in Hh.
  vm_compute (blen sample_file) in Hh. vm_compute (blen (Le.put32 5)) in Hh.
  vm_compute (blen (bs "hello")) in Hh. vm_compute (blen [1; 2; 3]) in Hh. lia.
Defined.

(** The reader leaves the fields of the directory scan empty. *)
Lemma read_header_anon c e tb rest :
  read_header c = Some (e, tb, rest) -> e = named e [] [] 0.
Proof.
  unfold read_header. cbv zeta.
  repeat match goal with |- (if ?b then _ else _) = _ -> _ => destruct b; [try discriminate|] end;
    [|discriminate].
  intros H. injection H as <- _ _. unfold named.
  cbn [tokens quant_bits model_id reason hits ctx_size ext_flags created_at last_used payload_bytes
    text_bytes]. reflexivity.
Qed.

(** ** Whole files *)

(** a directory entry is produced exactly for the files that hold a valid
    header and every byte that header announces, text and payload included; a
    file cut anywhere short of that is refused, whatever 64-bit payload size
    its header claims. *)
Theorem read_entry_complete c p s e :
  bytes_ok c -> blen c <= INT64_MAX ->
  (read_entry_file (Some c) p s = Some e <->
   exists hdr tb rest, read_header c = Some (hdr, tb, rest) /\
     e = named hdr s p (blen c) /\
     52 + tb + hdr.(payload_bytes) <= blen c).
Proof.
  intros Hc Hlen. unfold read_entry_file.
  destruct (Z.ltb_spec (blen c) (FIXED_HEADER + 4)) as [Hs|Hs].
  { split; [done|]. intros (hdr & tb & rest & Hr & _ & Hl).
    destruct (header_canonical c hdr tb rest Hc Hr)
      as (_ & _ & _ & _ & _ & _ & <- & _ & _ & _ & _ & _ & _ & Hpb).
    destruct (read_header_shape c _ _ _ Hc Hr) as (_ & _ & _ & Htb & _).
    unfold FIXED_HEADER in *. flia. }
  destruct (read_header c) as [[[hdr tb] rest]|] eqn:Hr; cycle 1.
  { split; [done|]. by intros (? & ? & ? & ? & _). }
  destruct (header_canonical c hdr tb rest Hc Hr)
    as (_ & _ & _ & _ & _ & _ & _ & _ & _ & _ & _ & _ & _ & Hpb).
  destruct (read_header_shape c _ _ _ Hc Hr) as (_ & _ & _ & Htb & _).
  unfold FIXED_HEADER in *. rewrite wrap_id by flia. split.
  - destruct (_ || _) eqn:Hov; [done|]. rewrite wrap_id by flia.
    destruct (Z.ltb_spec (blen c) (48 + 4 + tb + hdr.(payload_bytes))); [done|].
    intros [= <-]. exists hdr, tb, rest. split_and!; done || lia.
  - intros (? & ? & ? & [= <- <- <-] & -> & Hl).
    replace (_ || _) with false by flia. rewrite wrap_id by flia.
    destruct (Z.ltb_spec (blen c) (48 + 4 + tb + hdr.(payload_bytes))); [lia|done].
Qed.

Example read_entry_complete_witness :
  read_entry_file (Some sample_file) (bs "p") (bs "s") =
  Some (Entry (bs "s") (bs "p") 4 1 3 30000 7 131072 16 1700000000 1700000500 3 5 60).
Proof.
  apply (read_entry_complete sample_file (bs "p") (bs "s")
    (Entry (bs "s") (bs "p") 4 1 3 30000 7 131072 16 1700000000 1700000500 3 5 60)).
  - apply sample_file_bytes.
  - vm_compute. discriminate.
  - exists (Entry [] [] 4 1 3 30000 7 131072 16 1700000000 1700000500 3 5 0), 5,
      (bs "hello" ++ [1; 2; 3]).
    split; [vm_compute; reflexivity|]. split; [vm_compute; reflexivity|].
    vm_compute. discriminate.
Defined.

(** The entry a touch leaves on disk. *)
Definition touched (e : entry) (hits now : Z) : entry :=
  Entry e.(sha) e.(path) e.(quant_bits) e.(model_id) e.(reason) e.(tokens) hits e.(ctx_size)
    e.(ext_flags) e.(created_at) now e.(payload_bytes) e.(text_bytes) e.(file_size).

(** touching a checkpoint rewrites its header in place and nothing else: the
    file keeps its length and every byte from offset 48 on, and reads back as
    the same checkpoint with the new hit count and last-used time; a file that
    is not a checkpoint is left alone and reported. *)
Theorem touch_preserves c now hits :
  bytes_ok c -> fits 64 now -> fits 32 hits ->
  match read_header c with
  | None => forall w, touch_file (Some c) now w hits = (Some c, false)
  | Some (e, tb, rest) =>
      exists c', touch_file (Some c) now 48 hits = (Some c', true) /\
        blen c' = blen c /\ zdrop 48 c' = zdrop 48 c /\ bytes_ok c' /\
        read_header c' = Some (touched e hits now, tb, rest)
  end.
Proof.
  intros Hc Hnow Hhits. unfold touch_file.
  destruct (read_header c) as [[[e tb] rest]|] eqn:Hr; [|done].
  destruct (header_canonical c e tb rest Hc Hr) as
    (_ & _ & _ & Ht & Hq & Hrs & Hte & Hm & Hx & _ & Hcx & Hcr & _ & Hpb).
  destruct (read_header_shape c e tb rest Hc Hr) as (h & -> & Hh & Htb & Hbh & Hbr).
  set (h' := fill_header _ _ _ _ _ _ _ _ _ _).
  assert (header_ok e.(model_id) e.(quant_bits) e.(reason) e.(ext_flags) e.(tokens) hits
    e.(ctx_size) e.(created_at) now e.(payload_bytes)) as Hok.
  { unfold header_ok, REASON_BANK_CHECKPOINT in *. split_and!; try done; flia. }
  assert (length h' = 48%nat) as Hh' by done.
  change (Nat.min 48 (length h')) with 48%nat. rewrite (take_ge h') by lia.
  rewrite (drop_app_length' h) by done.
  exists (h' ++ Le.put32 tb ++ rest). split; [done|]. split; [|split; [|split]].
  - rewrite !blen_app. unfold blen at 1 4. rewrite Hh, Hh'. lia.
  - unfold zdrop. change (Z.to_nat 48) with 48%nat.
    rewrite (drop_app_length' h), (drop_app_length' h') by done. done.
  - apply Forall_app_2; [by apply fill_header_bytes|].
    apply Forall_app_2; [apply Le.put32_bytes | done].
  - unfold h'. rewrite header_roundtrip; [|done|done|lia|done].
    unfold touched, clamp_reason. destruct (Z.leb_spec e.(reason) REASON_BANK_CHECKPOINT); [|lia].
    rewrite Hte, (read_header_anon _ _ _ _ Hr). reflexivity.
Qed.

Example touch_preserves_witness :
  exists c', touch_file (Some sample_file) 1800000000 48 8 = (Some c', true) /\
    zdrop 48 c' = zdrop 48 sample_file.
Proof.
  pose proof (touch_preserves sample_file 1800000000 8 sample_file_bytes ltac:(flia) ltac:(flia))
    as H.
  vm_compute (read_header sample_file) in H. destruct H as (c' & Ht & _ & Hd & _).
  exists c'. split; [exact Ht | exact Hd].
Defined.

(** ** Size arithmetic *)

(** Hundredths rounded up. *)
Definition one_percent (n : Z) : Z := (n + 99) / 100.

Lemma file_size_bytes_spec t p r :
  fits 64 t -> fits 64 p -> fits 64 r ->
  file_size_bytes t p r =
    if 52 + t + p + r <=? UINT64_MAX then Some (52 + t + p + r) else None.
Proof.
  intros Ht Hp Hr. unfold file_size_bytes, FIXED_HEADER.
  rewrite (wrap_id 64 (18446744073709551615 - (48 + 4))) by flia.
  destruct (Z.leb_spec (52 + t + p + r) 18446744073709551615).
  - rewrite (wrap_id 64 (18446744073709551615 - (48 + 4) - t)) by flia.
    rewrite (wrap_id 64 (18446744073709551615 - (48 + 4) - t - p)) by flia.
    replace (_ || _ || _) with false by flia. by rewrite wrap_id by flia.
  - destruct (Z.ltb_spec (18446744073709551615 - (48 + 4)) t); [done|].
    rewrite (wrap_id 64 (18446744073709551615 - (48 + 4) - t)) by flia.
    destruct (Z.ltb_spec (18446744073709551615 - (48 + 4) - t) p); [done|].
    rewrite (wrap_id 64 (18446744073709551615 - (48 + 4) - t - p)) by flia.
    by destruct (Z.ltb_spec (18446744073709551615 - (48 + 4) - t - p) r); [|lia].
Qed.

Lemma budget_required_spec n : fits 64 n ->
  budget_required n =
    if n + one_percent n <=? UINT64_MAX then Some (n + one_percent n) else None.
Proof.
  intros Hn. unfold budget_required, one_percent. pose proof (Z.mod_pos_bound n 100).
  assert (0 <= n / 100 <= n) by (unfold_widths; split; [apply Z.div_pos | apply Z.div_le_upper_bound]; lia).
  assert ((if negb (n mod 100 =? 0) then u64 (n / 100 + 1) else n / 100) = (n + 99) / 100) as ->.
  { pose proof (Z_div_mod_eq_full n 100). destruct (Z.eqb_spec (n mod 100) 0); simpl.
    - apply (Z.div_unique _ _ _ 99); lia.
    - rewrite wrap_id by (unfold_widths; lia).
      apply (Z.div_unique _ _ _ (n mod 100 - 1)); lia. }
  assert (0 <= (n + 99) / 100) by (unfold_widths; apply Z.div_pos; lia).
  rewrite wrap_id by flia.
  destruct (Z.leb_spec (n + (n + 99) / 100) 18446744073709551615),
    (Z.ltb_spec (18446744073709551615 - n) ((n + 99) / 100)); try lia; [|done].
  rewrite wrap_id by flia. done.
Qed.

(** the admission arithmetic is exact.  Whether a checkpoint fits is decided
    as in unbounded arithmetic: the file must be representable in 64 bits and,
    under a budget, its size plus one percent rounded up must not exceed it; the
    sizes handed to the caller are the exact ones, so no overflow can admit a
    file that is too large. *)
Theorem file_size_fits_exact budget t p r :
  fits 64 t -> fits 64 p -> fits 64 r -> (forall b, budget = Some b -> fits 64 b) ->
  let total := 52 + t + p + r in
  let need := total + one_percent total in
  let '(ok, file, required) := file_size_fits budget t p r in
  (ok = true <-> total <= UINT64_MAX /\
     match budget with Some b => b = 0 \/ need <= b | None => True end) /\
  (forall n, file = Some n <-> n = total /\ total <= UINT64_MAX) /\
  (forall n, required = Some n <->
     n = need /\ need <= UINT64_MAX /\ exists b, budget = Some b /\ b <> 0).
Proof.
  intros Ht Hp Hr Hb total need. unfold file_size_fits.
  rewrite file_size_bytes_spec by done. fold total.
  assert (0 <= one_percent total) by (apply Z.div_pos; unfold total; flia).
  destruct (Z.leb_spec total UINT64_MAX); cycle 1.
  { split; [split; [done|lia]|]. split; intros n; (split; [done|unfold need; lia]). }
  destruct budget as [b|]; cycle 1.
  { split; [done|]. split; intros n; [split; [by intros [= <-] | by intros [-> _]]|].
    split; [done | by intros (_ & _ & ? & ? & _)]. }
  destruct (Z.eqb_spec b 0) as [->|Hb0].
  { split; [split; [auto|done]|].
    split; intros n; [split; [by intros [= <-] | by intros [-> _]]|].
    split; [done | by intros (_ & _ & ? & [= <-] & ?)]. }
  specialize (Hb b eq_refl).
  rewrite budget_required_spec by (unfold total; flia). fold need.
  destruct (Z.leb_spec need UINT64_MAX).
  - split; [lia|]. split; intros n; [split; [by intros [= <-] | by intros [-> _]]|].
    split; [intros [= <-]; split; [done|split; [done|by exists b]] | by intros [-> _]].
  - split; [split; [done | flia]|].
    split; intros n; [split; [by intros [= <-] | by intros [-> _]]|]. split; [done | lia].
Qed.

Example file_size_fits_exact_witness :
  file_size_fits (Some 1000) 100 838 0 = (true, Some 990, Some 1000) /\
  file_size_fits (Some 1000) 100 839 0 = (false, Some 991, Some 1001).
Proof.
  pose proof (file_size_fits_exact (Some 1000) 100 838 0 ltac:(flia) ltac:(flia) ltac:(flia)) as H.
  split; [|vm_compute; reflexivity].
  destruct (file_size_fits (Some 1000) 100 838 0) as [[ok f] q].
  destruct H as (Hok & Hf & Hq); [intros b [= <-]; flia|].
  replace ok with true by (symmetry; apply Hok; split; [done | right; vm_compute; done]).
  replace f with (Some 990) by (symmetry; by apply Hf).
  replace q with (Some 1000); [done|].
  symmetry. apply Hq. split; [done|]. split; [vm_compute; done|]. by exists 1000.
Defined.
