(* ===== verification/KvPolicy.v ===== *)
(** * Checkpoint placement policy (ds4_kvstore.c)

    The store's options and in-memory state, and the decisions about where a
    prompt is checkpointed: stable store lengths, the chat anchor, the paced
    continued stores and bank checkpoints. *)

From S2P Require Import Prelude Bytes Sha1 KvFile.

(** ds4_kvstore_options *)
Record options := Options {
  min_tokens : Z;
  cold_max_tokens : Z;
  continued_interval_tokens : Z;
  boundary_trim_tokens : Z;
  boundary_align_tokens : Z }.

(** ds4_kvstore_default_options *)
Definition default_options : options := Options 512 30000 10000 32 2048.

(** ds4_kvstore, without the allocation bookkeeping and the logger. *)
Record kvstore := Kv {
  enabled : bool;
  dir : list Z;
  budget_bytes : Z;
  reject_different_quant : bool;
  opt : options;
  continued_last_store_tokens : Z;
  entries : list entry }.

Definition with_last_store (kc : kvstore) (n : Z) : kvstore :=
  Kv kc.(enabled) kc.(dir) kc.(budget_bytes) kc.(reject_different_quant) kc.(opt) n kc.(entries).
Definition with_entries (kc : kvstore) (es : list entry) : kvstore :=
  Kv kc.(enabled) kc.(dir) kc.(budget_bytes) kc.(reject_different_quant) kc.(opt)
     kc.(continued_last_store_tokens) es.

(** ds4_kvstore_store_len.  C's [%] is the remainder of truncated division. *)
Definition store_len (kc : kvstore) (tokens : Z) : Z :=
  let trim := kc.(opt).(boundary_trim_tokens) in
  let align := kc.(opt).(boundary_align_tokens) in
  if kc.(opt).(min_tokens) + trim <? tokens then
    let stable := tokens - trim in
    let stable := if 0 <? align then stable - Z.rem stable align else stable in
    if kc.(opt).(min_tokens) <=? stable then stable else tokens
  else tokens.

(** The marker scan of ds4_kvstore_chat_anchor_pos. *)
Fixpoint anchor_scan (v : list Z) (i last_user user assistant : Z) : Z :=
  match v with
  | [] => last_user
  | token :: v =>
      if token =? assistant then last_user
      else anchor_scan v (i + 1) (if token =? user then i else last_user) user assistant
  end.

(** ds4_kvstore_chat_anchor_pos *)
Definition chat_anchor_pos (kc : kvstore) (prompt : option (list Z)) (user assistant : Z) : Z :=
  match prompt with
  | None => -1
  | Some v =>
      if (user <? 0) || (assistant <? 0) then -1
      else
        let last_user := anchor_scan v 0 (-1) user assistant in
        if kc.(opt).(min_tokens) <=? last_user then last_user else -1
  end.

(** kv_cache_continued_step *)
Definition continued_step (kc : kvstore) : Z :=
  if negb kc.(enabled) || (kc.(opt).(continued_interval_tokens) <=? 0) then 0
  else
    let step := kc.(opt).(continued_interval_tokens) in
    let align := kc.(opt).(boundary_align_tokens) in
    if 0 <? align then
      let step := Z.quot (step + align - 1) align * align in
      if step <=? 0 then align else step
    else step.

(** ds4_kvstore_continued_store_target *)
Definition continued_store_target (kc : kvstore) (live_tokens : Z) : Z :=
  let step := continued_step kc in
  if step <=? 0 then 0
  else if live_tokens <? kc.(opt).(min_tokens) then 0
  else if negb (Z.rem live_tokens step =? 0) then 0
  else if live_tokens <=? kc.(continued_last_store_tokens) then 0
  else live_tokens.

(** ds4_kvstore_note_store *)
Definition note_store (kc : kvstore) (tokens : Z) : kvstore :=
  if kc.(continued_last_store_tokens) <? tokens then with_last_store kc tokens else kc.

(** ds4_kvstore_bank_checkpoint_due *)
Definition bank_checkpoint_due (kc : kvstore) (committed stored_tokens : Z) : bool :=
  let step := continued_step kc in
  if step <=? 0 then false
  else if committed <? kc.(opt).(min_tokens) then false
  else if committed <? stored_tokens + step then false
  else true.

(** ds4_kvstore_suppress_continued_store *)
Definition suppress_continued_store (kc : kvstore) (tokens : Z) : Z * kvstore :=
  if negb (continued_store_target kc tokens =? tokens) then (-1, kc)
  else (kc.(continued_last_store_tokens), note_store kc tokens).

(** ds4_kvstore_restore_suppressed_continued *)
Definition restore_suppressed_continued (kc : kvstore) (old_tokens suppressed_tokens : Z)
    : kvstore :=
  if (0 <=? old_tokens) && (kc.(continued_last_store_tokens) =? suppressed_tokens)
  then with_last_store kc old_tokens else kc.

(** ** Store lengths *)

Definition options_ok (o : options) : Prop :=
  0 <= o.(min_tokens) <= 2 ^ 29 /\ 0 <= o.(continued_interval_tokens) <= 2 ^ 29 /\
  0 <= o.(boundary_trim_tokens) <= 2 ^ 29 /\ 0 <= o.(boundary_align_tokens) <= 2 ^ 29.

(** [n] is the largest multiple of the alignment (any number when there is
    none) that leaves the trimmed tail of [tokens] out. *)
Definition stable_boundary (o : options) (tokens n : Z) : Prop :=
  0 <= n <= tokens - o.(boundary_trim_tokens) /\
  (o.(boundary_align_tokens) = 0 -> n = tokens - o.(boundary_trim_tokens)) /\
  (0 < o.(boundary_align_tokens) ->
     (o.(boundary_align_tokens) | n) /\
     tokens - o.(boundary_trim_tokens) < n + o.(boundary_align_tokens)).

(** the store length is the stable boundary of the prompt whenever that
    boundary keeps at least the minimum token count, and the whole prompt
    otherwise; it never exceeds the prompt, and never cuts a prompt below the
    minimum. *)
Theorem store_len_spec kc tokens :
  options_ok kc.(opt) -> 0 <= tokens <= INT_MAX ->
  let n := store_len kc tokens in
  0 <= n <= tokens /\
  (n < kc.(opt).(min_tokens) -> n = tokens) /\
  (n <> tokens -> stable_boundary kc.(opt) tokens n) /\
  (forall b, stable_boundary kc.(opt) tokens b -> kc.(opt).(min_tokens) <= b ->
     kc.(opt).(min_tokens) + kc.(opt).(boundary_trim_tokens) < tokens -> n = b).
Proof.
  intros (Hmin & _ & Htrim & Hal) Ht n. unfold n, store_len, stable_boundary.
  set (m := kc.(opt).(min_tokens)) in *. set (tr := kc.(opt).(boundary_trim_tokens)) in *.
  set (al := kc.(opt).(boundary_align_tokens)) in *. clearbody m tr al.
  destruct (Z.ltb_spec (m + tr) tokens); [|split_and!; lia].
  destruct (Z.ltb_spec 0 al) as [Ha|Ha].
  - rewrite Z.rem_mod_nonneg by lia. pose proof (Z.mod_pos_bound (tokens - tr) al Ha).
    pose proof (Z_div_mod_eq_full (tokens - tr) al) as Hd.
    assert (0 <= (tokens - tr) / al) by (apply Z.div_pos; lia).
    assert (tokens - tr - (tokens - tr) mod al = (tokens - tr) / al * al) as Hs by lia.
    rewrite Hs. assert (0 <= (tokens - tr) / al * al) by nia.
    assert (forall b, (al | b) -> 0 <= b <= tokens - tr -> tokens - tr < b + al ->
      b = (tokens - tr) / al * al) as Huniq.
    { intros b [k ->] Hb Hb2. f_equal.
      apply (Z.div_unique _ _ _ (tokens - tr - k * al)); lia. }
    destruct (Z.leb_spec m ((tokens - tr) / al * al)).
    + split_and!; try lia; [|].
      * intros _. split; [lia|]. split; [lia|]. intros _. split; [by eexists | lia].
      * intros b (Hb & _ & Hb2) Hm _. destruct (Hb2 Ha). symmetry. by apply Huniq.
    + split_and!; try lia. intros b (Hb & _ & Hb2) Hm _. destruct (Hb2 Ha) as [Hdiv Hlt].
      rewrite (Huniq b Hdiv Hb Hlt) in Hm. lia.
  - assert (al = 0) by lia. destruct (Z.leb_spec m (tokens - tr)); [|lia].
    split_and!; lia.
Qed.

Definition sample_store : kvstore :=
  Kv true (bs "/kv") (2 ^ 30) true default_options 0 [].

Lemma sample_options_ok : options_ok sample_store.(opt).
Proof. unfold options_ok. simpl. lia. Qed.

Example store_len_spec_witness :
  store_len sample_store 5000 = 4096 /\ 0 <= store_len sample_store 600 <= 600.
Proof.
  destruct (store_len_spec sample_store 5000 sample_options_ok ltac:(lia)) as (_ & _ & _ & H).
  destruct (store_len_spec sample_store 600 sample_options_ok ltac:(lia)) as (H' & _).
  split; [|exact H']. apply H; simpl; [|lia|lia].
  unfold stable_boundary. simpl. split; [lia|]. split; [lia|]. intros _. split; [by exists 2|lia].
Defined.

(** ** Chat anchor *)

Lemma anchor_scan_spec v i lu user assistant :
  user <> assistant ->
  let r := anchor_scan v i lu user assistant in
  (exists k, v !! k = Some user /\ r = i + Z.of_nat k /\
     (forall j, (j <= k)%nat -> v !! j <> Some assistant) /\
     (forall j, (k < j)%nat -> v !! j = Some user ->
        exists a, (a < j)%nat /\ v !! a = Some assistant)) \/
  r = lu /\ (forall j, v !! j = Some user -> exists a, (a < j)%nat /\ v !! a = Some assistant).
Proof.
  intros Hne. revert i lu. induction v as [|t v IH]; intros i lu; simpl; [right; done|].
  destruct (Z.eqb_spec t assistant) as [->|Hta].
  { right. split; [done|]. intros [|j] Hj; [naive_solver|]. exists 0%nat. split; [lia|done]. }
  destruct (IH (i + 1) (if t =? user then i else lu)) as [(k & Hk & -> & Hno & Hlast)|[-> Hno]].
  - left. exists (S k). split; [done|]. split; [lia|]. split.
    + intros [|j] Hj; [by intros [= ->] | apply Hno; lia].
    + intros [|j] Hj Hu; [lia|]. destruct (Hlast j) as (a & Ha & Ha'); [lia|done|].
      exists (S a). split; [lia|done].
  - assert (forall j, v !! j = Some user -> exists a, (a < S j)%nat /\ (t :: v) !! a = Some assistant)
      as Hno'.
    { intros j Hj. destruct (Hno j Hj) as (a & Ha & Ha'). exists (S a). split; [lia|done]. }
    destruct (Z.eqb_spec t user) as [->|Htu].
    + left. exists 0%nat. split; [done|]. split; [lia|]. split.
      * intros j Hj. replace j with 0%nat by lia. by intros [= ->].
      * intros [|j] Hj Hu; [lia|]. by apply Hno'.
    + right. split; [done|]. intros [|j] Hj; [by injection Hj as ->|]. by apply Hno'.
Qed.

(** the chat anchor is the last user marker in front of the first assistant
    marker: a returned position holds a user marker, at or beyond the minimum
    token count, no assistant marker precedes it, and every later user marker
    already follows an assistant marker; minus one means that every user marker
    at or beyond the minimum follows an assistant marker or is superseded. *)
Theorem chat_anchor_spec kc v user assistant p :
  0 <= user -> 0 <= assistant -> user <> assistant -> 0 <= kc.(opt).(min_tokens) ->
  let anchors k := v !! k = Some user /\
    (forall j, (j <= k)%nat -> v !! j <> Some assistant) /\
    (forall j, (k < j)%nat -> v !! j = Some user ->
        exists a, (a < j)%nat /\ v !! a = Some assistant) in
  (chat_anchor_pos kc (Some v) user assistant = p <->
   (exists k, anchors k /\ kc.(opt).(min_tokens) <= Z.of_nat k /\ p = Z.of_nat k) \/
   p = -1 /\ (forall k, anchors k -> Z.of_nat k < kc.(opt).(min_tokens))).
Proof.
  intros Hu Ha Hne Hmin anchors.
  assert (forall k k', anchors k -> anchors k' -> k = k') as Huniq.
  { intros k k' (Hk & Hn & Hl) (Hk' & Hn' & Hl'). destruct (Nat.lt_trichotomy k k') as [H|[H|H]].
    - destruct (Hl k' H Hk') as (a & Ha1 & Ha2). exfalso. apply (Hn' a); [lia|done].
    - done.
    - destruct (Hl' k H Hk) as (a & Ha1 & Ha2). exfalso. apply (Hn a); [lia|done]. }
  unfold chat_anchor_pos. replace (_ || _) with false by lia.
  destruct (anchor_scan_spec v 0 (-1) user assistant Hne) as [(k & Hk & -> & Hno & Hl)|[-> Hno]].
  - assert (anchors k) as Hka by done. rewrite Z.add_0_l.
    destruct (Z.leb_spec kc.(opt).(min_tokens) (Z.of_nat k)); split.
    + intros <-. left. by exists k.
    + intros [(k' & Hk' & _ & ->)|[-> Hall]]; [by rewrite (Huniq k k')|].
      specialize (Hall k Hka). lia.
    + intros <-. right. split; [done|]. intros k' Hk'. by rewrite (Huniq k' k).
    + intros [(k' & Hk' & Hm & ->)|[-> _]]; [|done]. rewrite (Huniq k' k Hk' Hka) in Hm. lia.
  - destruct (Z.leb_spec kc.(opt).(min_tokens) (-1)); [lia|].
    assert (forall k, ~ anchors k) as Hnone.
    { intros k (Hk & Hn & _). destruct (Hno k Hk) as (a & Ha1 & Ha2). by apply (Hn a); [lia|]. }
    split.
    + intros <-. right. split; [done|]. intros k Hk. by destruct (Hnone k).
    + intros [(k & Hk & _)|[-> _]]; [by destruct (Hnone k) | done].
Qed.

Example chat_anchor_spec_witness :
  chat_anchor_pos (Kv true [] 0 true (Options 2 0 0 0 0) 0 [])
    (Some [9; 7; 7; 9; 5; 8; 7]) 7 8 = 2.
Proof.
  apply (chat_anchor_spec (Kv true [] 0 true (Options 2 0 0 0 0) 0 []) [9; 7; 7; 9; 5; 8; 7] 7 8 2);
    try (simpl; lia).
  left. exists 2%nat. split; [|simpl; lia]. split; [done|]. split.
  - intros [|[|[|j]]] Hj; [done..|lia].
  - intros [|[|[|[|[|[|[|j]]]]]]] Hj Hu; try lia; try done. exists 5%nat. split; [lia|done].
Defined.

(** ** Continued stores *)

Lemma continued_step_spec kc :
  options_ok kc.(opt) ->
  let step := continued_step kc in
  let interval := kc.(opt).(continued_interval_tokens) in
  let align := kc.(opt).(boundary_align_tokens) in
  0 <= step /\
  (step = 0 <-> kc.(enabled) = false \/ interval = 0) /\
  (step <> 0 -> interval <= step < interval + Z.max 1 align /\ (0 < align -> (align | step))).
Proof.
  intros (_ & Hi & _ & Ha) step interval align. unfold step, continued_step.
  fold interval align. destruct kc.(enabled); simpl; [|split_and!; auto; lia].
  destruct (Z.leb_spec interval 0).
  { split; [lia|]. split; [|lia]. split; [right; lia|done]. }
  destruct (Z.ltb_spec 0 align); cycle 1.
  { split; [lia|]. split; [lia|]. intros _. split; lia. }
  rewrite Z.quot_div_nonneg by lia.
  pose proof (Z_div_mod_eq_full (interval + align - 1) align).
  pose proof (Z.mod_pos_bound (interval + align - 1) align ltac:(lia)).
  destruct (Z.leb_spec ((interval + align - 1) / align * align) 0); [lia|].
  split; [lia|]. split; [split; [lia|intros [?|?]; [done|lia]]|].
  intros _. split; [lia|]. intros _. by eexists.
Qed.

(** continued stores are paced.  A store is due exactly at a positive
    multiple of the step, no smaller than the minimum and beyond the last
    stored length; the step is the interval rounded up to the alignment, and
    zero when the tier is off; once the due length has been noted, no length up
    to it is due again and the next due one is at least a whole step away. *)
Theorem continued_store_paced kc live :
  options_ok kc.(opt) -> 0 <= kc.(continued_last_store_tokens) -> 0 <= live ->
  let step := continued_step kc in
  (continued_store_target kc live <> 0 <->
     0 < step /\ (step | live) /\ kc.(opt).(min_tokens) <= live /\
     kc.(continued_last_store_tokens) < live) /\
  (continued_store_target kc live <> 0 -> continued_store_target kc live = live /\
     forall live', continued_store_target (note_store kc live) live' <> 0 -> live + step <= live').
Proof.
  intros Ho Hl Hlive step. destruct (continued_step_spec kc Ho) as (Hs0 & _).
  fold step in Hs0.
  assert (forall k n, continued_step k = step ->
    0 <= k.(continued_last_store_tokens) -> (continued_store_target k n <> 0 <->
      0 < step /\ (step | n) /\ k.(opt).(min_tokens) <= n /\ k.(continued_last_store_tokens) < n))
    as Htgt.
  { intros k n Hk Hk0. unfold continued_store_target. rewrite Hk.
    destruct (Z.leb_spec step 0); [split; [done|lia]|].
    destruct (Z.ltb_spec n k.(opt).(min_tokens)); [split; [done|lia]|].
    destruct (Z.eqb_spec (Z.rem n step) 0) as [Hr|Hr]; simpl; cycle 1.
    { split; [done|]. intros (_ & Hd & _). destruct Hr. by apply Z.rem_divide; [lia|]. }
    apply Z.rem_divide in Hr; [|lia].
    destruct (Z.leb_spec n k.(continued_last_store_tokens)); [split; [done|lia]|].
    split; [done|lia]. }
  split; [by apply Htgt|]. intros Hne. pose proof (proj1 (Htgt kc live eq_refl Hl) Hne)
    as (Hs & Hd & Hm & Hlast).
  split.
  - revert Hne. unfold continued_store_target. cases.
  - intros live' Hne'.
    assert (note_store kc live = with_last_store kc live) as Hns.
    { unfold note_store. by destruct (Z.ltb_spec kc.(continued_last_store_tokens) live); [|lia]. }
    rewrite Hns in Hne'. apply (Htgt (with_last_store kc live)) in Hne' as (_ & Hd' & _ & Hgt);
      [|done|done]. simpl in Hgt. destruct Hd as [a ->], Hd' as [b ->]. assert (a + 1 <= b) by nia. nia.
Qed.

Example continued_store_paced_witness :
  continued_store_target sample_store 10240 = 10240 /\
  continued_store_target (note_store sample_store 10240) 12000 = 0.
Proof.
  destruct (continued_store_paced sample_store 10240 sample_options_ok
    ltac:(simpl; lia) ltac:(lia)) as [_ H].
  destruct (H ltac:(vm_compute; discriminate)) as [H1 H2]. split; [exact H1|].
  destruct (Z.eq_dec (continued_store_target (note_store sample_store 10240) 12000) 0) as [|Hne];
    [assumption|].
  specialize (H2 12000 Hne). vm_compute in H2. by destruct H2.
Defined.

(** a suppressed continued store leaves no trace.  Suppression answers the
    previous mark and makes the length not due, or declines with minus one
    without touching the state; restoring afterwards brings back exactly the
    state before, so the store becomes due again, and restoring after another
    store has moved the mark, or after a declined suppression, changes nothing. *)
Theorem suppress_restore kc tokens :
  0 <= kc.(continued_last_store_tokens) -> 0 <= tokens ->
  let '(old, kc') := suppress_continued_store kc tokens in
  (old = -1 -> kc' = kc) /\
  (old <> -1 -> old = kc.(continued_last_store_tokens) /\
     continued_store_target kc tokens = tokens /\
     continued_store_target kc' tokens = 0) /\
  (forall n, restore_suppressed_continued (note_store kc' n) old tokens =
     if (old =? -1) || (tokens <? n) then note_store kc' n else kc).
Proof.
  intros Hl Ht. unfold suppress_continued_store.
  destruct (Z.eqb_spec (continued_store_target kc tokens) tokens) as [Htgt|]; simpl; cycle 1.
  { split_and!; try done. }
  assert (kc.(continued_last_store_tokens) < tokens \/ tokens = 0) as Hcase.
  { revert Htgt. unfold continued_store_target. cases; lia. }
  set (last := kc.(continued_last_store_tokens)) in *.
  assert (note_store kc tokens = if last <? tokens then with_last_store kc tokens else kc) as Hns
    by done.
  assert (forall n, with_last_store (with_last_store kc n) last = kc) as Hback
    by (intros n; by destruct kc).
  split; [lia|]. split.
  - intros _. split; [done|]. split; [done|]. unfold continued_store_target. rewrite Hns.
    destruct (Z.ltb_spec last tokens); cycle 1.
    { destruct Hcase; [lia|]. subst tokens. cases; lia. }
    change (continued_step (with_last_store kc tokens)) with (continued_step kc). simpl.
    rewrite Z.leb_refl. cases.
  - intros n. destruct (Z.eqb_spec last (-1)); [lia|]. simpl.
    unfold restore_suppressed_continued. destruct (Z.leb_spec 0 last); [|lia]. simpl.
    rewrite Hns. fold last. destruct (Z.ltb_spec last tokens).
    + unfold note_store. simpl. destruct (Z.ltb_spec tokens n); simpl.
      * destruct (Z.eqb_spec n tokens); [lia|done].
      * rewrite Z.eqb_refl. apply Hback.
    + destruct Hcase as [|Ht0]; [lia|]. subst tokens. unfold note_store. fold last.
      assert (with_last_store kc last = kc) as Hid by (by destruct kc).
      destruct (Z.ltb_spec last n), (Z.ltb_spec 0 n); try lia; simpl.
      * destruct (Z.eqb_spec n 0); [lia|done].
      * fold last. by destruct (last =? 0); rewrite ?Hid.
      * fold last. by destruct (last =? 0); rewrite ?Hid.
Qed.

Example suppress_restore_witness :
  exists kc', suppress_continued_store sample_store 10240 = (0, kc') /\
    continued_store_target kc' 10240 = 0 /\
    restore_suppressed_continued (note_store kc' 0) 0 10240 = sample_store.
Proof.
  pose proof (suppress_restore sample_store 10240 ltac:(simpl; lia) ltac:(lia)) as H.
  destruct (suppress_continued_store sample_store 10240) as [old kc'] eqn:Hs.
  assert (old = 0) as -> by (vm_compute in Hs; congruence).
  destruct H as (_ & H2 & H3). exists kc'. split; [reflexivity|].
  destruct (H2 ltac:(lia)) as (_ & _ & H2'). split; [exact H2'|]. exact (H3 0).
Defined.

(** bank checkpoints of a pin-tier bank are due exactly when the tier is on
    and the committed history reached the minimum and grew a whole step beyond
    the stored length; recording a due checkpoint silences it for the next
    step, so along any history no two checkpoints are closer than the step. *)
Theorem bank_checkpoint_paced kc committed stored :
  options_ok kc.(opt) -> 0 <= stored -> 0 <= committed ->
  let step := continued_step kc in
  (bank_checkpoint_due kc committed stored = true <->
     0 < step /\ kc.(opt).(min_tokens) <= committed /\ stored + step <= committed) /\
  (bank_checkpoint_due kc committed stored = true -> forall later,
     bank_checkpoint_due kc later committed = true -> committed + step <= later).
Proof.
  intros Ho Hs Hc step. destruct (continued_step_spec kc Ho) as (Hs0 & _). fold step in Hs0.
  assert (forall c s, bank_checkpoint_due kc c s = true <->
    0 < step /\ kc.(opt).(min_tokens) <= c /\ s + step <= c) as Hd.
  { intros c s. unfold bank_checkpoint_due. fold step.
    destruct (Z.leb_spec step 0); [split; [done|lia]|].
    destruct (Z.ltb_spec c kc.(opt).(min_tokens)); [split; [done|lia]|].
    destruct (Z.ltb_spec c (s + step)); split; done || lia. }
  split; [apply Hd|]. intros _ later Hlater. apply Hd in Hlater. lia.
Qed.

Example bank_checkpoint_paced_witness :
  bank_checkpoint_due sample_store 10240 0 = true /\
  bank_checkpoint_due sample_store 20479 10240 = false.
Proof.
  destruct (bank_checkpoint_paced sample_store 10240 0 sample_options_ok ltac:(lia) ltac:(lia))
    as [H1 H2].
  assert (bank_checkpoint_due sample_store 10240 0 = true) as Hd
    by (apply H1; vm_compute; split_and!; done).
  split; [exact Hd|].
  destruct (bank_checkpoint_due sample_store 20479 10240) eqn:Hl; [|reflexivity].
  specialize (H2 Hd 20479 Hl). vm_compute in H2. by destruct H2.
Defined.
