(* ===== verification/KvFs.v ===== *)
(** * The checkpoint directory

    The file system as the store sees it, the interface of the operating-system
    calls it makes, and the directory scan (kv_cache_refresh). *)

From S2P Require Import Prelude Bytes Sha1 KvFile KvPolicy.

(** Regular files by full path. *)
Abbreviation files := (gmap (list Z) (list Z)).

(** The answers of the calls that can fail or that the environment decides.
    [readdir] lists a directory in the order the system chooses, [None] when it
    cannot be opened; the booleans say whether the call succeeds on an existing
    file; [fwrite_n p n] is how many of [n] bytes a write to [p] stores, and
    [fclose_ok p] whether flushing and closing it succeeds; [pid_text] is the
    process id in decimal. *)
Class Os := {
  readdir : files -> list Z -> option (list (list Z));
  may_open : list Z -> bool;
  may_unlink : list Z -> bool;
  may_create : list Z -> bool;
  may_rename : list Z -> list Z -> bool;
  fwrite_n : list Z -> Z -> Z;
  fclose_ok : list Z -> bool;
  ftruncate_ok : list Z -> bool;
  pid_text : list Z;
  time_now : Z }.

(** What the store relies on: a directory that can be opened lists every file
    directly in it - a name has no separator - each name once. *)
Class OsLaws `{Os} := {
  readdir_complete : forall fs d names n c,
    readdir fs d = Some names -> n <> [] -> ch "/" ∉ n ->
    fs !! Name.path_join d n = Some c -> n ∈ names;
  readdir_nodup : forall fs d names, readdir fs d = Some names -> NoDup names }.

Section Fs.
Context `{Os}.

(** fopen(path, "rb") and the whole content behind it. *)
Definition read_file (fs : files) (p : list Z) : option (list Z) :=
  if may_open p then fs !! p else None.

(** unlink *)
Definition unlink (fs : files) (p : list Z) : files * bool :=
  match fs !! p with
  | Some _ => if may_unlink p then (delete p fs, true) else (fs, false)
  | None => (fs, false)
  end.

(** rename *)
Definition rename (fs : files) (old new : list Z) : files * bool :=
  match fs !! old with
  | Some c => if may_rename old new then (<[new := c]> (delete old fs), true) else (fs, false)
  | None => (fs, false)
  end.

(** The body of the readdir loop. *)
Definition scan_name (fs : files) (d name : list Z) : option entry :=
  sha ← Name.sha_hex_name name;
  let path := Name.path_join d name in
  read_entry_file (read_file fs path) path sha.

(** kv_cache_refresh *)
Definition refresh (fs : files) (kc : kvstore) : kvstore :=
  if negb kc.(enabled) then kc
  else
    match readdir fs kc.(dir) with
    | None => with_entries kc []
    | Some names => with_entries kc (omap (scan_name fs kc.(dir)) names)
    end.

(** ds4_kvstore_touch_file on the directory. *)
Definition touch (fs : files) (p : list Z) (hits : Z) : files * bool :=
  match touch_file (read_file fs p) time_now (Z.to_nat (fwrite_n p 48)) hits with
  | (Some c, ok) => (<[p := c]> fs, ok)
  | (None, ok) => (fs, ok)
  end.
End Fs.

(** ** Paths *)

Lemma path_join_inj d n n' : Name.path_join d n = Name.path_join d n' -> n = n'.
Proof.
  unfold Name.path_join. destruct (_ || _); intros H; apply app_inv_head in H; [|done].
  by apply (app_inv_head [ch "/"]) in H.
Qed.

(** An entry of a scan describes a readable file of the directory. *)
Lemma read_entry_file_path f p s e :
  read_entry_file f p s = Some e ->
  e.(path) = p /\ e.(sha) = s /\ exists c, f = Some c /\ e.(file_size) = blen c.
Proof.
  unfold read_entry_file. destruct f as [c|]; [|done]. destruct (_ <? _); [done|].
  destruct (read_header c) as [[[e' tb] rest]|]; [|done].
  destruct (_ || _); [done|]. destruct (_ <? _); [done|]. intros [= <-].
  split; [done|]. split; [done|]. by exists c.
Qed.

Section FsLemmas.
Context `{Os}.

Lemma scan_name_path fs d n e :
  scan_name fs d n = Some e ->
  e.(path) = Name.path_join d n /\ Name.hex_ok e.(sha) /\
  exists c, read_file fs e.(path) = Some c /\ fs !! e.(path) = Some c /\
    e.(file_size) = blen c /\ read_entry_file (Some c) e.(path) e.(sha) = Some e.
Proof.
  unfold scan_name. destruct (Name.sha_hex_name n) as [s|] eqn:Hs; [|done]. simpl.
  intros He. destruct (read_entry_file_path _ _ _ _ He) as (-> & -> & c & Hc & Hsz).
  split; [done|]. split; [by apply Name.sha_hex_name_hex in Hs|].
  exists c. rewrite Hc in He. split; [done|]. unfold read_file in Hc.
  destruct (may_open _); [|done]. done.
Qed.

Lemma refresh_fields fs kc :
  (refresh fs kc).(enabled) = kc.(enabled) /\ (refresh fs kc).(dir) = kc.(dir) /\
  (refresh fs kc).(budget_bytes) = kc.(budget_bytes) /\
  (refresh fs kc).(reject_different_quant) = kc.(reject_different_quant) /\
  (refresh fs kc).(opt) = kc.(opt) /\
  (refresh fs kc).(continued_last_store_tokens) = kc.(continued_last_store_tokens).
Proof. unfold refresh. destruct (negb _); [done|]. by destruct (readdir _ _). Qed.

(** Every entry after a refresh stands for one file of the directory. *)
Lemma refresh_entry fs kc e :
  kc.(enabled) = true -> e ∈ (refresh fs kc).(entries) ->
  exists n, e.(path) = Name.path_join kc.(dir) n /\ scan_name fs kc.(dir) n = Some e.
Proof.
  intros Hen. unfold refresh. rewrite Hen. simpl.
  destruct (readdir fs kc.(dir)) as [names|]; simpl; [|by intros ?%not_elem_of_nil].
  rewrite list_elem_of_omap. intros (n & Hn & He). exists n. split; [|done].
  by apply scan_name_path in He as [? _].
Qed.

Lemma refresh_nodup `{!OsLaws} fs kc :
  kc.(enabled) = true -> NoDup (map path (refresh fs kc).(entries)).
Proof.
  intros Hen. unfold refresh. rewrite Hen. simpl.
  destruct (readdir fs kc.(dir)) as [names|] eqn:Hrd; [|apply NoDup_nil_2].
  pose proof (readdir_nodup _ _ _ Hrd) as Hnd. simpl.
  clear Hrd. induction Hnd as [|n names Hn _ IH]; simpl; [apply NoDup_nil_2|].
  destruct (scan_name fs kc.(dir) n) as [e|] eqn:He; simpl; [|done].
  apply NoDup_cons_2; [|done]. rewrite list_elem_of_fmap.
  intros (e' & Hp & He'). apply list_elem_of_omap in He' as (n' & Hn' & He'').
  apply scan_name_path in He as [Hpe _]. apply scan_name_path in He'' as [Hpe' _].
  rewrite Hp, Hpe' in Hpe. apply path_join_inj in Hpe. by subst n'.
Qed.

(** The name of a record has no separator. *)
Lemma hex_lower_digits l sha : Name.hex_lower l = Some sha -> Forall (fun c => Name.isxdigit c = true) l.
Proof.
  revert sha. induction l as [|c l IH]; intros sha; [by constructor|]. simpl.
  destruct (Name.isxdigit c) eqn:Hx; [|done]. simpl. destruct (Name.hex_lower l) as [s|]; [|done].
  intros _. constructor; [done|by eapply IH].
Qed.

Lemma sha_hex_name_direct name sha : Name.sha_hex_name name = Some sha -> name <> [] /\ ch "/" ∉ name.
Proof.
  unfold Name.sha_hex_name. destruct (negb (blen name =? 43)) eqn:Hl; [done|]. simpl.
  destruct (streq (zdrop 40 name) (bs ".kv")) eqn:Hd; [|done]. simpl. intros Hh.
  apply bool_decide_eq_true in Hd. split; [by intros ->|]. rewrite <-(ztake_zdrop 40 name), Hd.
  apply hex_lower_digits in Hh. rewrite elem_of_app. intros [Hin|Hin].
  - rewrite Forall_forall in Hh. by apply Hh in Hin.
  - by repeat (apply elem_of_cons in Hin as [Hin|Hin]; [done|]); apply elem_of_nil in Hin.
Qed.

(** The scan takes only names of files directly in the directory. *)
Lemma scan_name_direct fs d n e : scan_name fs d n = Some e -> n <> [] /\ ch "/" ∉ n.
Proof.
  unfold scan_name. destruct (Name.sha_hex_name n) as [s|] eqn:Hs; [|done]. intros _.
  by apply sha_hex_name_direct in Hs.
Qed.

(** A valid checkpoint in the directory is always found by the scan. *)
Lemma refresh_complete `{!OsLaws} fs kc n e names :
  kc.(enabled) = true -> readdir fs kc.(dir) = Some names ->
  scan_name fs kc.(dir) n = Some e -> e ∈ (refresh fs kc).(entries).
Proof.
  intros Hen Hrd He. unfold refresh. rewrite Hen, Hrd. simpl.
  apply list_elem_of_omap. exists n. split; [|done].
  destruct (scan_name_path _ _ _ _ He) as (Hp & _ & c & _ & Hc & _).
  rewrite Hp in Hc. destruct (scan_name_direct _ _ _ _ He). by eapply readdir_complete.
Qed.
End FsLemmas.

(** ** A system in which every call succeeds *)

Fixpoint strip_prefix (p l : list Z) {struct p} : option (list Z) :=
  match p, l with
  | [], _ => Some l
  | a :: p, b :: l => if a =? b then strip_prefix p l else None
  | _ :: _, [] => None
  end.

Definition plain_os (now : Z) : Os := {|
  readdir fs d :=
    Some (filter (fun n => n <> [] /\ ch "/" ∉ n)
      (omap (fun kv => strip_prefix (Name.path_join d []) kv.1) (map_to_list fs)));
  may_open _ := true;
  may_unlink _ := true;
  may_create _ := true;
  may_rename _ _ := true;
  fwrite_n _ n := n;
  fclose_ok _ := true;
  ftruncate_ok _ := true;
  pid_text := bs "77";
  time_now := now |}.

Lemma strip_prefix_spec p l r : strip_prefix p l = Some r <-> l = p ++ r.
Proof.
  revert l. induction p as [|a p IH]; intros l; simpl; [naive_solver|].
  destruct l as [|b l]; [done|]. destruct (Z.eqb_spec a b) as [->|Hne].
  - rewrite IH. naive_solver.
  - naive_solver.
Qed.

Lemma path_join_base d n : Name.path_join d n = Name.path_join d [] ++ n.
Proof.
  unfold Name.path_join. destruct (_ || _); rewrite ?app_nil_r; [by rewrite <-!app_assoc|done].
Qed.

Lemma plain_os_laws now : @OsLaws (plain_os now).
Proof.
  split.
  - intros fs d names n c [= <-] Hne Hs Hc. apply list_elem_of_filter. split; [done|]. apply list_elem_of_omap.
    exists (Name.path_join d n, c). split; [by apply elem_of_map_to_list|].
    apply strip_prefix_spec. apply path_join_base.
  - intros fs d names [= <-]. apply NoDup_filter. pose proof (NoDup_fst_map_to_list fs) as Hnd.
    induction (map_to_list fs) as [|[k c] l IH]; simpl in *; [apply NoDup_nil_2|].
    apply NoDup_cons in Hnd as [Hk Hnd].
    destruct (strip_prefix _ k) as [n|] eqn:Hn; simpl; [|by apply IH].
    apply NoDup_cons_2; [|by apply IH]. rewrite list_elem_of_omap.
    intros ([k' c'] & Hin & Hn'). apply strip_prefix_spec in Hn. simpl in Hn'.
    apply strip_prefix_spec in Hn'. subst k k'. apply Hk, list_elem_of_fmap.
    by exists (Name.path_join d [] ++ n, c').
Qed.

(** Every file of the system is a byte list. *)
Definition files_ok (fs : files) : Prop := map_Forall (fun _ c => bytes_ok c) fs.
Definition files_okb (fs : files) : bool := forallb (fun kv => bytes_okb kv.2) (map_to_list fs).

Lemma files_okb_ok fs : files_okb fs = true -> files_ok fs.
Proof.
  unfold files_okb, files_ok. rewrite forallb_forall. intros H p c Hc.
  apply bytes_okb_ok. apply (H (p, c)), list_elem_of_In. by apply elem_of_map_to_list.
Qed.
