(* ===== verification/KvEvict.v ===== *)
(** * Eviction (ds4_kvstore.c)

    The eviction score in binary64 arithmetic, the victim scan, and the loop
    that brings the directory under its budget. *)

From S2P Require Import Prelude Float64 Bytes Sha1 KvFile KvPolicy KvFs.

Definition MIN_EFFECTIVE_HITS : spec_float := F64.lit 1 100.
Definition CONTINUED_PREFIX_MIN_FACTOR : spec_float := F64.lit 5 100.
Definition CONTINUED_PREFIX_HIT_FACTOR : spec_float := F64.lit 45 100.
Definition ANCHOR_REASON_SCORE_FACTOR : spec_float := F64.of_Z 2.
Definition HIT_HALF_LIFE_SECONDS : Z := 6 * 60 * 60.

(** ds4_kvstore_eviction_context *)
Record eviction_context := Incoming {
  in_text : option (list Z);
  in_text_len : Z;
  in_model_id : Z;
  in_quant_bits : Z;
  in_ctx_size : Z;
  in_reject_different_quant : bool }.

(** ds4_kvstore_sha1_bytes_hex; the digest does not depend on the stack buffer
    (Sha1.sha1_bytes_hex_eq), so a fixed one stands for it. *)
Definition sha_hex (m : list Z) : list Z := Sha1.sha1_bytes_hex (replicate 64 0) m.

Arguments sha_hex : simpl never.

(** kv_cache_incoming_supersedes_continued *)
Definition supersedes (e : entry) (incoming : option eviction_context) : bool :=
  match incoming with
  | None => false
  | Some i =>
      match i.(in_text) with
      | None => false
      | Some text =>
          if negb (e.(reason) =? REASON_CONTINUED) && negb (e.(reason) =? REASON_BANK_CHECKPOINT)
          then false
          else if (e.(text_bytes) =? 0) || (SIZE_MAX <? e.(text_bytes)) then false
          else if i.(in_text_len) <=? e.(text_bytes) then false
          else if negb (e.(model_id) =? i.(in_model_id)) then false
          else if i.(in_reject_different_quant) && negb (e.(quant_bits) =? i.(in_quant_bits))
          then false
          else if e.(ctx_size) <? i.(in_ctx_size) then false
          else streq (sha_hex (ztake e.(text_bytes) text)) e.(sha)
      end
  end.

(** kv_cache_reason_is_anchor *)
Definition reason_is_anchor (reason : Z) : bool :=
  (reason =? REASON_COLD) || (reason =? REASON_EVICT) || (reason =? REASON_SHUTDOWN) ||
  (reason =? REASON_BANK_EVICT) || (reason =? REASON_BANK_SHUTDOWN) ||
  (reason =? REASON_BANK_CHECKPOINT).

Section Evict.
Context `{Os}.
(** The C library's exp2. *)
Context (exp2 : spec_float -> spec_float).

(** ds4_kvstore_entry_eviction_score; the [live] argument is unused. *)
Definition entry_eviction_score (e : entry) (live : option (list Z)) (now : Z)
    (incoming : option eviction_context) : spec_float :=
  if e.(file_size) =? 0 then F64.of_Z 0
  else
    let effective_hits := F64.of_Z e.(hits) in
    let used_at := if negb (e.(last_used) =? 0) then e.(last_used) else e.(created_at) in
    let effective_hits :=
      if used_at =? 0 then F64.of_Z 0
      else if used_at <? now then
        let elapsed := F64.of_Z (now - used_at) in
        let h := F64.mul effective_hits
                   (exp2 (F64.div (F64.neg elapsed) (F64.of_Z HIT_HALF_LIFE_SECONDS))) in
        if F64.lt h MIN_EFFECTIVE_HITS then F64.of_Z 0 else h
      else effective_hits in
    let score := F64.div (F64.mul (F64.add effective_hits (F64.of_Z 1)) (F64.of_Z e.(tokens)))
                   (F64.of_Z e.(file_size)) in
    let score := if reason_is_anchor e.(reason)
                 then F64.mul score ANCHOR_REASON_SCORE_FACTOR else score in
    if supersedes e incoming then
      let h := if F64.lt (F64.of_Z 0) effective_hits
               then F64.div effective_hits (F64.add effective_hits (F64.of_Z 1))
               else F64.of_Z 0 in
      F64.mul score (F64.add CONTINUED_PREFIX_MIN_FACTOR (F64.mul CONTINUED_PREFIX_HIT_FACTOR h))
    else score.

Section Loop.
Context (score : entry -> spec_float).

(** The scan [for (i = 1; i < kc->len; i++)] that picks the victim; [v], [vs]
    and [vl] are the current victim, its score and its last-used time. *)
Fixpoint pick_from (i : nat) (rest : list entry) (v : nat) (vs : spec_float) (vl : Z) : nat :=
  match rest with
  | [] => v
  | e :: rest =>
      let s := score e in
      if F64.lt s vs || (F64.eq s vs && (e.(last_used) <? vl))
      then pick_from (S i) rest i s e.(last_used)
      else pick_from (S i) rest v vs vl
  end.

Definition pick (es : list entry) : nat :=
  match es with
  | [] => 0
  | e :: rest => pick_from 1 rest 0 (score e) e.(last_used)
  end.

(** The [while (total > target && kc->len > 0)] loop; one turn per entry. *)
Fixpoint evict_loop (fuel : nat) (fs : files) (es : list entry) (total target : Z)
    : files * list entry * Z :=
  match fuel with
  | O => (fs, es, total)
  | S fuel =>
      if target <? total then
        match es !! pick es with
        | None => (fs, es, total)
        | Some e =>
            let '(fs, ok) := unlink fs e.(path) in
            let total :=
              if ok then (if e.(file_size) <=? total then total - e.(file_size) else 0) else 0 in
            evict_loop fuel fs (delete (pick es) es) total target
        end
      else (fs, es, total)
  end.
End Loop.

(** The sum of the file sizes, in 64 bits. *)
Definition total_size (es : list entry) : Z :=
  fold_left (fun t e => u64 (t + e.(file_size))) es 0.

(** ds4_kvstore_evict *)
Definition evict (fs : files) (kc : kvstore) (live : option (list Z)) (extra_bytes : Z)
    (incoming : option eviction_context) : files * kvstore :=
  if negb kc.(enabled) || (kc.(budget_bytes) =? 0) then (fs, kc)
  else if kc.(budget_bytes) <? extra_bytes then (fs, kc)
  else
    let kc := refresh fs kc in
    let score e := entry_eviction_score e live time_now incoming in
    let target := kc.(budget_bytes) - extra_bytes in
    let '(fs, es, _) :=
      evict_loop score (length kc.(entries)) fs kc.(entries) (total_size kc.(entries)) target in
    (fs, with_entries kc es).
End Evict.

(** ** The eviction order *)

(** Lexicographic order on equally long lists. *)
Fixpoint lex_lt (a b : list Z) {struct a} : bool :=
  match a, b with
  | x :: a, y :: b => (x <? y) || ((x =? y) && lex_lt a b)
  | _, _ => false
  end.
Definition lex_le (a b : list Z) : Prop := lex_lt b a = false.

Lemma lex_lt_irrefl a : lex_lt a a = false.
Proof. induction a as [|x a IH]; simpl; [done|]. rewrite IH. lia. Qed.

Lemma lex_le_trans a b c :
  length a = length b -> length b = length c -> lex_le a b -> lex_le b c -> lex_le a c.
Proof.
  unfold lex_le. revert b c. induction a as [|x a IH]; intros [|y b] [|z c]; simpl; try done.
  intros [= Hab] [= Hbc]. rewrite !orb_false_iff, !andb_false_iff.
  specialize (IH b c Hab Hbc). rewrite !Z.ltb_ge, !Z.eqb_neq.
  intros [H1 H2] [H3 H4]. split; [lia|].
  destruct (Z.eq_dec z x) as [->|]; [right|by left].
  apply IH; [destruct H2; [lia|done] | destruct H4; [lia|done]].
Qed.

Lemma lex_lt_le a b : length a = length b -> lex_lt a b = true -> lex_le a b.
Proof.
  unfold lex_le. revert b. induction a as [|x a IH]; intros [|y b]; simpl; try done.
  intros [= Hl]. rewrite orb_true_iff, andb_true_iff, orb_false_iff, andb_false_iff.
  rewrite Z.ltb_lt, Z.eqb_eq, Z.ltb_ge, Z.eqb_neq. intros [H|[-> H]]; [lia|].
  split; [lia|]. right. by apply IH.
Qed.

(** A binary64 value that is not a NaN, as a point of that order. *)
Definition fkey (f : spec_float) : list Z :=
  match f with
  | S754_nan => [3; 0; 0]
  | S754_infinity s => [if s then -2 else 2; 0; 0]
  | S754_zero _ => [0; 0; 0]
  | S754_finite false m e => [1; e; Z.pos m]
  | S754_finite true m e => [-1; - e; - Z.pos m]
  end.

Lemma fkey_length f : length (fkey f) = 3%nat.
Proof. by destruct f as [| | |[]]. Qed.

Lemma lt_fkey f g : f <> S754_nan -> g <> S754_nan -> F64.lt f g = lex_lt (fkey f) (fkey g).
Proof.
  intros Hf Hg. unfold F64.lt, SFltb.
  destruct f as [sf|sf| |sf mf ef], g as [sg|sg| |sg mg eg]; try done;
    destruct sf, sg; try done; cbn [SFcompare fkey lex_lt];
    change (Pos.compare_cont Eq mf mg) with (Pos.compare mf mg).
  - destruct (Z.compare_spec ef eg); destruct (Pos.compare_spec mf mg); cbn [CompOpp]; lia.
  - destruct (Z.compare_spec ef eg); destruct (Pos.compare_spec mf mg); cbn [CompOpp]; lia.
Qed.

Lemma eq_fkey f g : f <> S754_nan -> g <> S754_nan ->
  F64.eq f g = bool_decide (fkey f = fkey g).
Proof.
  intros Hf Hg. unfold F64.eq, SFeqb. symmetry.
  destruct f as [sf|sf| |sf mf ef], g as [sg|sg| |sg mg eg]; try done;
    destruct sf, sg; try done; cbn [SFcompare fkey lex_lt];
    change (Pos.compare_cont Eq mf mg) with (Pos.compare mf mg).
  - destruct (Z.compare_spec ef eg); destruct (Pos.compare_spec mf mg); simpl;
      first [apply bool_decide_eq_true | apply bool_decide_eq_false]; (congruence || (intros [=]; lia)).
  - destruct (Z.compare_spec ef eg); destruct (Pos.compare_spec mf mg); simpl;
      first [apply bool_decide_eq_true | apply bool_decide_eq_false]; (congruence || (intros [=]; lia)).
Qed.

Section Order.
Context (score : entry -> spec_float).

(** Where an entry stands in the eviction order: by score, then least recently
    used first. *)
Definition rank (e : entry) : list Z := fkey (score e) ++ [e.(last_used)].

Lemma rank_length e : length (rank e) = 4%nat.
Proof. unfold rank. rewrite length_app, fkey_length. done. Qed.

Lemma lex_lt_app a b x y : length a = length b ->
  lex_lt (a ++ [x]) (b ++ [y]) = lex_lt a b || (bool_decide (a = b) && (x <? y)).
Proof.
  revert b. induction a as [|z a IH]; intros [|w b]; simpl; try done.
  - intros _. rewrite andb_false_r, orb_false_r. done.
  - intros [= Hl]. rewrite IH by done. destruct (Z.eqb_spec z w) as [->|Hne].
    + rewrite Z.ltb_irrefl. simpl. f_equal. f_equal. apply bool_decide_ext. naive_solver.
    + rewrite (bool_decide_false (z :: a = w :: b)) by congruence. simpl.
      by rewrite !orb_false_r.
Qed.

Lemma better_rank e v :
  score e <> S754_nan -> score v <> S754_nan ->
  F64.lt (score e) (score v) || (F64.eq (score e) (score v) && (e.(last_used) <? v.(last_used)))
  = lex_lt (rank e) (rank v).
Proof.
  intros He Hv. unfold rank. rewrite lex_lt_app by by rewrite !fkey_length.
  by rewrite lt_fkey, eq_fkey.
Qed.

Lemma pick_from_spec es i rest v ev :
  Forall (fun e => score e <> S754_nan) es -> rest = drop i es -> es !! v = Some ev ->
  (forall j x, (j < i)%nat -> es !! j = Some x -> lex_le (rank ev) (rank x)) ->
  exists er, es !! pick_from score i rest v (score ev) ev.(last_used) = Some er /\
    forall x, x ∈ es -> lex_le (rank er) (rank x).
Proof.
  intros Hnan. revert i v ev. induction rest as [|e rest IH]; intros i v ev Hr Hv Hmin; simpl.
  { exists ev. split; [done|]. intros x Hx. apply list_elem_of_lookup in Hx as [j Hj].
    apply (Hmin j); [|done]. apply lookup_lt_Some in Hj.
    apply (f_equal length) in Hr. rewrite length_drop in Hr. simpl in Hr. lia. }
  assert (es !! i = Some e) as Hi.
  { rewrite <-(Nat.add_0_r i), <-lookup_drop, <-Hr. done. }
  assert (rest = drop (S i) es) as Hr'.
  { rewrite <-Nat.add_1_r, <-drop_drop, <-Hr. done. }
  rewrite Forall_lookup in Hnan.
  rewrite better_rank by (by eapply Hnan).
  destruct (lex_lt (rank e) (rank ev)) eqn:Hb.
  - apply IH; [done|done|]. intros j x Hj Hx.
    destruct (decide (j = i)) as [->|].
    + rewrite Hi in Hx. injection Hx as <-. apply lex_lt_irrefl.
    + apply (lex_le_trans _ (rank ev)); try (by rewrite !rank_length).
      * apply lex_lt_le; [by rewrite !rank_length | done].
      * apply (Hmin j); [lia|done].
  - apply IH; [done|done|]. intros j x Hj Hx.
    destruct (decide (j = i)) as [->|]; [|apply (Hmin j); [lia|done]].
    rewrite Hi in Hx. by injection Hx as <-.
Qed.

(** The victim is an entry no other entry precedes. *)
Lemma pick_minimal es :
  Forall (fun e => score e <> S754_nan) es -> es <> [] ->
  exists v, es !! pick score es = Some v /\ forall x, x ∈ es -> lex_le (rank v) (rank x).
Proof.
  intros Hnan Hne. destruct es as [|e rest]; [done|].
  apply (pick_from_spec (e :: rest) 1 rest 0 e); [done|done|done|].
  intros [|j] x Hj Hx; [|lia]. injection Hx as <-. apply lex_lt_irrefl.
Qed.
End Order.

(** ** The loop *)

Definition sizes (es : list entry) : Z := foldr (fun e s => e.(file_size) + s) 0 es.

Lemma sizes_app a b : sizes (a ++ b) = sizes a + sizes b.
Proof. unfold sizes. induction a; simpl; lia. Qed.
Lemma sizes_perm a b : a ≡ₚ b -> sizes a = sizes b.
Proof. unfold sizes. induction 1; simpl; lia. Qed.
Lemma sizes_nonneg es : Forall (fun e => 0 <= e.(file_size)) es -> 0 <= sizes es.
Proof. unfold sizes. induction 1; simpl; lia. Qed.

Lemma total_size_from es a :
  Forall (fun e => 0 <= e.(file_size)) es -> 0 <= a -> a + sizes es <= UINT64_MAX ->
  fold_left (fun t e => u64 (t + e.(file_size))) es a = a + sizes es.
Proof.
  intros Hes. revert a. induction Hes as [|e es He Hes IH]; intros a Ha Hs; simpl in *; [lia|].
  pose proof (sizes_nonneg es Hes). rewrite wrap_id by flia. rewrite IH; lia.
Qed.

Lemma total_size_exact es :
  Forall (fun e => 0 <= e.(file_size)) es -> sizes es <= UINT64_MAX -> total_size es = sizes es.
Proof. intros Hes Hs. unfold total_size. rewrite total_size_from; [lia|done|lia|lia]. Qed.

(** The entries stand for distinct files that are on disk and removable. *)
Definition on_disk `{Os} (fs : files) (es : list entry) : Prop :=
  NoDup (map path es) /\
  Forall (fun e => 0 <= e.(file_size) /\ is_Some (fs !! e.(path)) /\ may_unlink e.(path) = true) es.

(** The files left after a list of victims was unlinked. *)
Definition without (fs : files) (vs : list entry) : files := foldr (fun v fs => delete v.(path) fs) fs vs.

Lemma without_lookup fs vs p :
  without fs vs !! p = if decide (p ∈ map path vs) then None else fs !! p.
Proof.
  induction vs as [|v vs IH].
  { by case_decide as Hd; [apply not_elem_of_nil in Hd|]. }
  change (without fs (v :: vs)) with (delete v.(path) (without fs vs)).
  change (map path (v :: vs)) with (v.(path) :: map path vs).
  destruct (decide (p = v.(path))) as [->|Hne].
  - clear IH. rewrite lookup_delete_eq.
    case_decide as Hd; [done|]. exfalso. apply Hd. by left.
  - rewrite lookup_delete_ne, IH by done. clear IH.
    case_decide as H1; case_decide as H2; try done; exfalso; [by destruct H2; right|].
    by apply elem_of_cons in H2 as [?|?].
Qed.

Lemma without_delete fs v vs : without (delete v.(path) fs) vs = without fs (v :: vs).
Proof.
  simpl. induction vs as [|w vs IH]; simpl; [done|]. rewrite IH. by rewrite delete_delete.
Qed.

Lemma on_disk_step `{Os} fs es i v :
  on_disk fs es -> es !! i = Some v ->
  on_disk (delete v.(path) fs) (delete i es) /\ es ≡ₚ v :: delete i es.
Proof.
  intros [Hnd Hall] Hi. pose proof (delete_Permutation es i v Hi) as Hp.
  split; [|done]. rewrite Hp in Hnd. simpl in Hnd. apply NoDup_cons in Hnd as [Hv Hnd].
  split; [done|]. rewrite Hp in Hall. apply Forall_cons in Hall as [_ Hall].
  rewrite Forall_forall in Hall |- *. intros e He. destruct (Hall e He) as (Hs & Hf & Hu).
  split; [done|]. split; [|done]. rewrite lookup_delete_ne; [done|].
  intros Heq. apply Hv. apply list_elem_of_fmap. by exists e.
Qed.

(** The whole run: the victims are unlinked, one at a time, each preceding every
    entry left at that moment, and only while the total is above the target. *)
Lemma evict_loop_spec `{Os} score fuel fs es target :
  Forall (fun e => score e <> S754_nan) es ->
  on_disk fs es -> 0 <= target -> (length es <= fuel)%nat ->
  exists vs es', evict_loop score fuel fs es (sizes es) target = (without fs vs, es', sizes es') /\
    es ≡ₚ vs ++ es' /\ sizes es' <= target /\
    (forall v k, v ∈ vs -> k ∈ es' -> lex_le (rank score v) (rank score k)) /\
    (vs = [] \/ exists us l, vs = us ++ [l] /\ target < sizes (l :: es')).
Proof.
  revert fs es. induction fuel as [|fuel IH]; intros fs es Hnan Hd Ht Hf.
  { destruct es; [|simpl in Hf; lia]. exists [], []. simpl. split; [done|].
    split; [done|]. split; [done|]. split; [by intros ?? ?%not_elem_of_nil|]. by left. }
  cbn [evict_loop]. destruct (Z.ltb_spec target (sizes es)) as [Hover|Hunder]; cycle 1.
  { exists [], es. simpl. split; [done|]. split; [done|]. split; [done|].
    split; [by intros ?? ?%not_elem_of_nil|]. by left. }
  assert (es <> []) as Hne by (intros ->; simpl in Hover; lia).
  destruct (pick_minimal score es Hnan Hne) as (v & Hv & Hmin). rewrite Hv.
  destruct (on_disk_step fs es _ v Hd Hv) as [Hd' Hperm].
  set (rest := delete (pick score es) es) in *.
  assert (v ∈ es) as Hin by (by apply list_elem_of_lookup_2 in Hv).
  pose proof (proj1 (Forall_forall _ _) (proj2 Hd) v Hin) as (Hsz & [c Hc] & Hun).
  assert (sizes es = v.(file_size) + sizes rest) as Hsum by (by rewrite (sizes_perm _ _ Hperm)).
  assert (0 <= sizes rest) by (apply sizes_nonneg; eapply Forall_impl; [apply Hd'|]; simpl; lia).
  unfold unlink. rewrite Hc, Hun.
  destruct (Z.leb_spec v.(file_size) (sizes es)); [|lia].
  replace (sizes es - v.(file_size)) with (sizes rest) by lia.
  assert (length es = S (length rest)) as Hlen by (by rewrite (Permutation_length Hperm)).
  destruct (IH (delete v.(path) fs) rest) as (vs & es' & -> & Hp' & Hle & Hord & Hlast);
    [by rewrite Hperm in Hnan; apply Forall_cons in Hnan as [_ ?] | done | done | lia |].
  exists (v :: vs), es'. rewrite without_delete. split; [done|].
  split; [by rewrite Hperm, Hp'|]. split; [done|]. split.
  - intros v' k [->|Hv']%elem_of_cons Hk; [|by apply Hord]. apply Hmin.
    rewrite Hperm, Hp'. right. apply elem_of_app. by right.
  - right. destruct Hlast as [->|(us & l & -> & Hl)].
    + exists [], v. split; [done|]. change (sizes (v :: es')) with (v.(file_size) + sizes es').
      rewrite (sizes_perm _ _ Hp') in Hsum. simpl in Hsum. lia.
    + exists (v :: us), l. done.
Qed.

(** C6: eviction brings the checkpoint directory under its budget and takes no
    more than it must.  With the store enabled, a budget, unlinkable files and
    scores that are numbers, ds4_kvstore_evict unlinks a list of victims: the
    entries that remain fit the budget with the requested extra bytes; every
    other file of the system is untouched; every victim stands before every
    remaining entry in the order (score, then least recently used); and the
    last victim was still needed.  The loop ends within one turn per entry. *)
Theorem evict_meets_budget `{Os} `{!OsLaws} exp2 fs kc live extra incoming :
  kc.(enabled) = true -> 0 < kc.(budget_bytes) -> 0 <= extra <= kc.(budget_bytes) ->
  let score e := entry_eviction_score exp2 e live time_now incoming in
  let es := (refresh fs kc).(entries) in
  Forall (fun e => may_unlink e.(path) = true /\ score e <> S754_nan) es ->
  sizes es <= UINT64_MAX ->
  exists vs es', evict exp2 fs kc live extra incoming =
      (without fs vs, with_entries (refresh fs kc) es') /\
    es ≡ₚ vs ++ es' /\
    sizes es' + extra <= kc.(budget_bytes) /\
    (forall p, p ∉ map path vs -> without fs vs !! p = fs !! p) /\
    (forall v, v ∈ vs -> without fs vs !! v.(path) = None) /\
    (forall v k, v ∈ vs -> k ∈ es' -> lex_le (rank score v) (rank score k)) /\
    (vs = [] \/ exists us l, vs = us ++ [l] /\
       kc.(budget_bytes) < sizes (l :: es') + extra).
Proof.
  intros Hen Hb Hx score es Hes Hsum. unfold evict. rewrite Hen.
  destruct (Z.eqb_spec kc.(budget_bytes) 0); [lia|]. simpl.
  destruct (Z.ltb_spec kc.(budget_bytes) extra); [lia|].
  destruct (refresh_fields fs kc) as (_ & _ & -> & _). fold es. fold score.
  assert (Forall (fun e => 0 <= e.(file_size)) es) as Hnn.
  { apply Forall_forall. intros e He. destruct (refresh_entry fs kc e Hen He) as (nm & _ & Hs).
    destruct (scan_name_path _ _ _ _ Hs) as (_ & _ & c & _ & _ & -> & _). apply blen_nonneg. }
  rewrite total_size_exact by done.
  destruct (evict_loop_spec score (length es) fs es (kc.(budget_bytes) - extra))
    as (vs & es' & -> & Hp & Hle & Hord & Hlast); [| |lia|done|].
  - eapply Forall_impl; [exact Hes|]. by intros e [_ ?].
  - split; [by apply refresh_nodup|]. apply Forall_forall. intros e He.
    destruct (refresh_entry fs kc e Hen He) as (nm & _ & Hs).
    destruct (scan_name_path _ _ _ _ Hs) as (_ & _ & c & _ & Hc & -> & _).
    split; [apply blen_nonneg|]. split; [by exists c|].
    by apply (proj1 (Forall_forall _ _) Hes e He).
  - exists vs, es'. split; [done|]. split; [done|]. split; [lia|]. split; [|split; [|split; [done|]]].
    + intros p Hpv. by rewrite without_lookup, decide_False.
    + intros v Hv. rewrite without_lookup, decide_True; [done|].
      apply list_elem_of_fmap. by exists v.
    + destruct Hlast as [?|(us & l & -> & Hl)]; [by left | right]. exists us, l. split; [done | simpl in Hl; lia].
Qed.

(** A checkpoint file as the store lays it out: header, text length, text,
    payload, trailer. *)
Definition checkpoint (model quant reason ext tokens hits ctx created used : Z)
    (text payload trailer : list Z) : list Z :=
  fill_header model quant reason ext tokens hits ctx created used (blen payload) ++
  Le.put32 (blen text) ++ text ++ payload ++ trailer.

Definition two_files : files :=
  <[Name.path_for_sha (bs "/kv") (sha_hex (bs "abc")) :=
      checkpoint 0 2 REASON_COLD 0 900 0 4096 100 900 (bs "abc") (replicate 60 1) []]>
  (<[Name.path_for_sha (bs "/kv") (sha_hex (bs "xy")) :=
      checkpoint 0 2 REASON_CONTINUED 0 600 0 4096 100 100 (bs "xy") (replicate 80 1) []]> ∅).

Definition small_store : kvstore := Kv true (bs "/kv") 200 true default_options 0 [].

Definition not_nan (f : spec_float) : bool := match f with S754_nan => false | _ => true end.
Lemma not_nan_ok f : not_nan f = true -> f <> S754_nan.
Proof. by destruct f. Qed.

Definition exp2_one (x : spec_float) : spec_float := F64.of_Z 1.

Example evict_meets_budget_witness :
  exists vs es',
    @evict (plain_os 1000) exp2_one two_files small_store None 50 None =
      (without two_files vs, with_entries (@refresh (plain_os 1000) two_files small_store) es') /\
    sizes es' + 50 <= 200 /\ map tokens es' = [900].
Proof.
  pose proof (@evict_meets_budget (plain_os 1000) (plain_os_laws 1000) exp2_one two_files
    small_store None 50 None eq_refl ltac:(simpl; lia) ltac:(simpl; lia)) as H.
  destruct H as (vs & es' & Hev & Hp & Hb & _ & _ & _ & Hlast).
  - apply Forall_forall. intros e He. split; [reflexivity|]. apply not_nan_ok.
    revert e He. apply Forall_forall, (forallb_Forall _ _).
    vm_compute. reflexivity.
  - vm_compute. discriminate.
  - exists vs, es'. split; [exact Hev|]. split; [exact Hb|].
    apply (f_equal (fun r => map tokens r.2.(entries))) in Hev.
    change (map tokens (_, with_entries _ es').2.(entries)) with (map tokens es') in Hev.
    rewrite <-Hev. vm_compute. reflexivity.
Defined.

(** ** Opening a store *)
Definition DEFAULT_MB : Z := 4096.

(** ds4_kvstore_open over an abstract [mkdir]; the returned store is the zeroed
    one where the function fails. *)
Section Open.
Context `{Os} (exp2 : spec_float -> spec_float).
Context {D : Type} (mkdir : D -> list Z -> D * bool).

Definition closed_store : kvstore := Kv false [] 0 false (Options 0 0 0 0 0) 0 [].

Definition open (dirs : D) (fs : files) (dir : option (list Z)) (budget_mb : Z)
    (reject_different_quant : bool) (opt : options) : D * files * kvstore * bool :=
  match dir with
  | None => (dirs, fs, closed_store, false)
  | Some d =>
      let '(dirs, ok) := Name.mkdir_p mkdir dirs dir in
      if negb ok then (dirs, fs, closed_store, false)
      else
        let budget_mb := if budget_mb =? 0 then DEFAULT_MB else budget_mb in
        let kc := Kv true d (u64 (budget_mb * 1024 * 1024)) reject_different_quant opt 0 [] in
        let '(fs, kc) := evict exp2 fs kc None 0 None in
        (dirs, fs, kc, true)
  end.

(** ds4_kvstore_close *)
Definition close (kc : kvstore) : kvstore := closed_store.

(** ds4_kvstore_clear *)
Definition clear (kc : kvstore) : kvstore := with_entries kc [].

(** The budget in bytes is computed in 64 bits: a budget of 2^44 MiB becomes
    zero, which the store treats as no budget at all. *)
Lemma open_budget_wraps dirs fs d opt :
  (Name.mkdir_p mkdir dirs (Some d)).2 = true ->
  let '(_, _, kc, ok) := open dirs fs (Some d) (2 ^ 44) true opt in
  ok = true /\ kc.(budget_bytes) = 0.
Proof.
  unfold open. destruct (Name.mkdir_p mkdir dirs (Some d)) as [dirs' ok]. intros Hok.
  simpl in Hok. subst ok. cbn [negb].
  change (if 2 ^ 44 =? 0 then DEFAULT_MB else 2 ^ 44) with (2 ^ 44).
  change (u64 (2 ^ 44 * 1024 * 1024)) with 0. by unfold evict.
Qed.
End Open.
