(* ===== verification/KvLookup.v ===== *)
(** * Checkpoint lookup (ds4_kvstore.c)

    The exact byte-prefix lookup of the serial and bank tiers, and the ranking
    by longest common prefix, each with the specification of what it finds. *)

From S2P Require Import Prelude Bytes Sha1 KvFile KvPolicy KvFs KvEvict.

(** ds4_kvstore_byte_prefix_match *)
Definition byte_prefix_match (text prefix : list Z) : bool :=
  (blen prefix <=? blen text) &&
  ((blen prefix =? 0) || streq (ztake (blen prefix) text) prefix).

(** What a lookup is asked for. *)
Record query := Query {
  prompt : list Z;
  want_model_id : Z;
  want_quant_bits : Z;
  want_ctx_size : Z;
  identity_mask : Z;
  identity_flags : Z }.

(** The metadata filters both lookups share, in the code's order. *)
Definition replayable (q : query) (e : entry) : bool :=
  is_automatic_exact_replay e &&
  (Z.land e.(ext_flags) q.(identity_mask) =? Z.land q.(identity_flags) q.(identity_mask)).

Definition loadable (kc : kvstore) (q : query) (e : entry) : bool :=
  negb (i32 e.(tokens) <? kc.(opt).(min_tokens)) &&
  (e.(model_id) =? u8 q.(want_model_id)) &&
  negb (u32 q.(want_ctx_size) <? e.(ctx_size)) &&
  negb (kc.(reject_different_quant) && negb (e.(quant_bits) =? u8 q.(want_quant_bits))).

(** The loop of kv_find_text_prefix; [best] is the best index so far and its
    entry. *)
Fixpoint prefix_scan (kc : kvstore) (q : query) (require_suffix : bool)
    (es : list entry) (i : Z) (best : option (Z * entry)) : option (Z * entry) :=
  match es with
  | [] => best
  | e :: es =>
      let next := prefix_scan kc q require_suffix es (i + 1) in
      let prompt_bytes := blen q.(prompt) in
      if negb (replayable q e) then next best
      else if (prompt_bytes <? e.(text_bytes)) || (SIZE_MAX <? e.(text_bytes)) then next best
      else if (require_suffix || is_bank_replay_v1 e) && (e.(text_bytes) =? prompt_bytes)
      then next best
      else if negb (loadable kc q e) then next best
      else
        let beaten :=
          match best with
          | None => false
          | Some (_, b) =>
              (e.(text_bytes) <? b.(text_bytes)) ||
              ((e.(text_bytes) =? b.(text_bytes)) && (e.(tokens) <=? b.(tokens)))
          end in
        if beaten then next best
        else if streq (sha_hex (ztake e.(text_bytes) q.(prompt))) e.(sha)
        then next (Some (i, e)) else next best
  end.

Section Find.
Context `{Os}.

(** kv_find_text_prefix: the refreshed store and the index, -1 for none. *)
Definition kv_find_text_prefix (fs : files) (kc : kvstore) (q : option query)
    (require_suffix : bool) : kvstore * Z :=
  match q with
  | None => (kc, -1)
  | Some q =>
      let kc := refresh fs kc in
      (kc, match prefix_scan kc q require_suffix kc.(entries) 0 None with
           | Some (i, _) => i
           | None => -1
           end)
  end.

Definition query_of (prompt_text : option (list Z)) (model quant ctx mask flags : Z)
    : option query :=
  t ← prompt_text; Some (Query t model quant ctx mask flags).

(** ds4_kvstore_find_text_prefix *)
Definition find_text_prefix (fs : files) (kc : kvstore) (prompt_text : option (list Z))
    (model quant ctx : Z) : kvstore * Z :=
  kv_find_text_prefix fs kc (query_of prompt_text model quant ctx 0 0) false.

(** ds4_kvstore_find_bank_text_prefix *)
Definition find_bank_text_prefix (fs : files) (kc : kvstore) (prompt_text : option (list Z))
    (model quant ctx : Z) : kvstore * Z :=
  kv_find_text_prefix fs kc (query_of prompt_text model quant ctx 0 0) true.

(** ds4_kvstore_find_bank_text_prefix_identity *)
Definition find_bank_text_prefix_identity (fs : files) (kc : kvstore)
    (prompt_text : option (list Z)) (model quant ctx flags : Z) : kvstore * Z :=
  kv_find_text_prefix fs kc (query_of prompt_text model quant ctx EXT_IMAGE_PIXELS_V2 flags) true.

(** [while (lcp < got && buf[lcp] == prompt_text[lcp]) lcp++;] *)
Fixpoint common_prefix (buf text : list Z) {struct buf} : Z :=
  match buf, text with
  | a :: buf, b :: text => if a =? b then 1 + common_prefix buf text else 0
  | _, _ => 0
  end.

(** The common prefix of the prompt and a stored text, as far as it is read. *)
Definition stored_lcp (fs : files) (q : query) (e : entry) : option Z :=
  c ← read_file fs e.(path);
  let want := if e.(text_bytes) <? blen q.(prompt) then e.(text_bytes) else blen q.(prompt) in
  Some
    match read_header c with
    | Some (_, text_len, fp) =>
        if text_len =? e.(text_bytes)
        then common_prefix (ztake want fp) q.(prompt) else 0
    | None => 0
    end.

(** The loop of kv_find_text_lcp; [best] carries the index, its common prefix
    and its text length. *)
Fixpoint lcp_scan (fs : files) (kc : kvstore) (q : query) (min_lcp : Z)
    (es : list entry) (i : Z) (best : option (Z * Z * Z)) : option (Z * Z * Z) :=
  match es with
  | [] => best
  | e :: es =>
      let next := lcp_scan fs kc q min_lcp es (i + 1) in
      if negb (replayable q e) then next best
      else if negb (loadable kc q e) then next best
      else if e.(text_bytes) <? min_lcp then next best
      else if u64 (8 * blen q.(prompt)) <? e.(text_bytes) then next best
      else
        match stored_lcp fs q e with
        | None => next best
        | Some lcp =>
            if lcp <? min_lcp then next best
            else if u64 (8 * lcp) <? e.(text_bytes) then next best
            else
              let beaten :=
                match best with
                | None => false
                | Some (_, best_lcp, best_text) =>
                    (lcp <? best_lcp) ||
                    ((lcp =? best_lcp) && (best_text <=? e.(text_bytes)))
                end in
              if beaten then next best else next (Some (i, lcp, e.(text_bytes)))
        end
  end.

(** kv_find_text_lcp: the refreshed store, the index and [*lcp_out]. *)
Definition kv_find_text_lcp (fs : files) (kc : kvstore) (q : option query) (min_lcp : Z)
    : kvstore * Z * Z :=
  match q with
  | None => (kc, -1, 0)
  | Some q =>
      if min_lcp =? 0 then (kc, -1, 0)
      else if blen q.(prompt) <? min_lcp then (kc, -1, 0)
      else
        let kc := refresh fs kc in
        match lcp_scan fs kc q min_lcp kc.(entries) 0 None with
        | Some (i, lcp, _) => (kc, i, lcp)
        | None => (kc, -1, 0)
        end
  end.

(** ds4_kvstore_find_text_lcp *)
Definition find_text_lcp (fs : files) (kc : kvstore) (prompt_text : option (list Z))
    (model quant ctx min_lcp : Z) : kvstore * Z * Z :=
  kv_find_text_lcp fs kc (query_of prompt_text model quant ctx 0 0) min_lcp.

(** ds4_kvstore_find_text_lcp_identity *)
Definition find_text_lcp_identity (fs : files) (kc : kvstore) (prompt_text : option (list Z))
    (model quant ctx min_lcp flags : Z) : kvstore * Z * Z :=
  kv_find_text_lcp fs kc (query_of prompt_text model quant ctx EXT_IMAGE_PIXELS_V2 flags) min_lcp.
End Find.

(** ** What the exact lookup finds *)

(** A stored checkpoint whose text is announced, by length and digest, to stand
    at the front of the prompt, and that this engine may load. *)
Definition candidate (kc : kvstore) (q : query) (require_suffix : bool) (e : entry) : bool :=
  replayable q e && loadable kc q e &&
  (e.(text_bytes) <=? blen q.(prompt)) && (e.(text_bytes) <=? SIZE_MAX) &&
  negb ((require_suffix || is_bank_replay_v1 e) && (e.(text_bytes) =? blen q.(prompt))) &&
  streq (sha_hex (ztake e.(text_bytes) q.(prompt))) e.(sha).

(** [best] is the first of the acceptable elements of [es] with the largest
    key, keys compared lexicographically. *)
Section Best.
Context {A : Type} (ok : A -> Prop) (key : A -> Z * Z).

Definition better (a b : A) : Prop :=
  (key b).1 < (key a).1 \/ (key b).1 = (key a).1 /\ (key b).2 < (key a).2.

Definition best_of (es : list A) (best : option (Z * A)) : Prop :=
  match best with
  | None => forall e, e ∈ es -> ~ ok e
  | Some (i, b) =>
      0 <= i /\ es !! Z.to_nat i = Some b /\ ok b /\
      (forall e, e ∈ es -> ok e -> ~ better e b) /\
      (forall j e, es !! j = Some e -> ok e -> (j < Z.to_nat i)%nat -> better b e)
  end.

Lemma best_of_nil : best_of [] None.
Proof. by intros e ?%not_elem_of_nil. Qed.

(** A scan that keeps a running best: the next element replaces it. *)
Lemma best_of_replace es e best :
  ok e -> (forall j b, best = Some (j, b) -> better e b) ->
  best_of es best -> best_of (es ++ [e]) (Some (blen es, e)).
Proof.
  intros He Hbet Hb. split; [apply blen_nonneg|]. unfold blen. rewrite Nat2Z.id.
  split; [by rewrite lookup_app_r, Nat.sub_diag by done|]. split; [done|].
  assert (forall x, x ∈ es -> ok x -> better e x) as Hall.
  { intros x Hx Hxo. destruct best as [[j b]|]; [|by destruct (Hb x Hx)].
    destruct Hb as (_ & _ & _ & Hmax & _). specialize (Hmax x Hx Hxo).
    pose proof (Hbet j b eq_refl). unfold better in *. lia. }
  split.
  - intros x [Hx|Hx%list_elem_of_singleton]%elem_of_app Hxo; [|subst x; unfold better; lia].
    specialize (Hall x Hx Hxo). unfold better in *. lia.
  - intros j x Hj Hxo Hlt. rewrite lookup_app_l in Hj by done.
    apply Hall; [by apply list_elem_of_lookup_2 in Hj | done].
Qed.

(** The next element does not replace it. *)
Lemma best_of_keep es e best :
  (ok e -> exists j b, best = Some (j, b) /\ ~ better e b) ->
  best_of es best -> best_of (es ++ [e]) best.
Proof.
  intros Hnot Hb. destruct best as [[j b]|].
  - destruct Hb as (Hj0 & Hj & Hbo & Hmax & Hfirst).
    pose proof (lookup_lt_Some _ _ _ Hj). split; [done|].
    split; [by rewrite lookup_app_l|]. split; [done|]. split.
    + intros x [Hx|Hx%list_elem_of_singleton]%elem_of_app Hxo; [by apply Hmax|].
      subst x. by destruct (Hnot Hxo) as (? & ? & [= <- <-] & ?).
    + intros k x Hk Hxo Hlt. rewrite lookup_app_l in Hk by lia. by eapply Hfirst.
  - intros x [Hx|Hx%list_elem_of_singleton]%elem_of_app Hxo; [by apply (Hb x)|].
    subst x. by destruct (Hnot Hxo) as (? & ? & ? & _).
Qed.
End Best.

Definition prefix_key (e : entry) : Z * Z := (e.(text_bytes), e.(tokens)).

Lemma prefix_scan_best kc q rs es done_ best :
  best_of (fun e => candidate kc q rs e = true) prefix_key done_ best ->
  best_of (fun e => candidate kc q rs e = true) prefix_key (done_ ++ es)
    (prefix_scan kc q rs es (blen done_) best).
Proof.
  revert done_ best. induction es as [|e es IH]; intros d best Hb; simpl; [by rewrite app_nil_r|].
  replace (d ++ e :: es) with ((d ++ [e]) ++ es) by by rewrite <-app_assoc.
  rewrite <-blen_snoc with (x := e).
  assert (forall b', best_of (fun e => candidate kc q rs e = true) prefix_key (d ++ [e]) b' ->
    best_of (fun e => candidate kc q rs e = true) prefix_key ((d ++ [e]) ++ es)
      (prefix_scan kc q rs es (blen (d ++ [e])) b')) as Hnext by (intros b'; apply IH).
  assert (candidate kc q rs e = false -> best_of (fun e => candidate kc q rs e = true) prefix_key
    (d ++ [e]) best) as Hskip.
  { intros Hc. apply best_of_keep; [|done]. by rewrite Hc. }
  unfold candidate in Hskip at 1.
  destruct (replayable q e) eqn:H1; simpl; [|by apply Hnext, Hskip].
  destruct (Z.ltb_spec (blen q.(prompt)) e.(text_bytes)), (Z.ltb_spec SIZE_MAX e.(text_bytes));
    simpl; try (apply Hnext, Hskip; simpl; lia).
  destruct ((rs || is_bank_replay_v1 e) && (e.(text_bytes) =? blen q.(prompt))) eqn:H2;
    [apply Hnext, Hskip; simpl; by rewrite !andb_false_r|].
  destruct (loadable kc q e) eqn:H3; simpl; [|by apply Hnext, Hskip].
  destruct (streq (sha_hex (ztake e.(text_bytes) q.(prompt))) e.(sha)) eqn:H4; cycle 1.
  { assert (best_of (fun e => candidate kc q rs e = true) prefix_key (d ++ [e]) best)
      by (apply Hskip; by rewrite andb_false_r).
    cases; by apply Hnext. }
  assert (candidate kc q rs e = true) as Hc.
  { unfold candidate. rewrite H1, H3, H2, H4. lia. }
  destruct best as [[j b]|]; cycle 1.
  { apply Hnext, (best_of_replace _ _ _ _ None); done. }
  destruct ((e.(text_bytes) <? b.(text_bytes)) || _) eqn:Hbeat; apply Hnext.
  - apply best_of_keep; [|done]. intros _. exists j, b. split; [done|].
    unfold better, prefix_key. simpl. lia.
  - apply (best_of_replace _ _ _ _ (Some (j, b))); [done| |done]. intros ? ? [= <- <-].
    unfold better, prefix_key. simpl. lia.
Qed.

Lemma find_prefix_longest_holds `{Os} fs kc q rs :
  let kc' := refresh fs kc in
  exists best, best_of (fun e => candidate kc' q rs e = true) prefix_key kc'.(entries) best /\
    kv_find_text_prefix fs kc (Some q) rs =
      (kc', match best with Some (i, _) => i | None => -1 end).
Proof.
  exists (prefix_scan (refresh fs kc) q rs (refresh fs kc).(entries) 0 None).
  split; [|done]. apply (prefix_scan_best _ _ _ _ [] None), best_of_nil.
Qed.

(** C5: the exact lookup returns the checkpoint that reaches furthest into the
    prompt.  After the directory was rescanned, the index names an eligible
    entry (replayable, loadable by this model, quantisation and context, whose
    text length and digest match the front of the prompt, strictly shorter than
    the prompt where a suffix is required) with the longest text and, among
    those, the most tokens; the first such in directory order; and -1 means
    that no eligible entry exists. *)
Theorem find_prefix_longest `{Os} fs kc q rs :
  let kc' := refresh fs kc in
  exists best, best_of (fun e => candidate kc' q rs e = true) prefix_key kc'.(entries) best /\
    kv_find_text_prefix fs kc (Some q) rs =
      (kc', match best with Some (i, _) => i | None => -1 end).
Proof. apply find_prefix_longest_holds. Qed.

(** ** What the common-prefix ranking finds *)
Section Lcp.
Context `{Os} (fs : files) (kc : kvstore) (q : query) (min_lcp : Z).

Definition lcp_of (e : entry) : Z := default 0 (stored_lcp fs q e).

(** A loadable record that shares at least [min_lcp] bytes and an eighth of its
    own text with the prompt. *)
Definition salvageable (e : entry) : bool :=
  replayable q e && loadable kc q e && (min_lcp <=? e.(text_bytes)) &&
  bool_decide (is_Some (stored_lcp fs q e)) && (min_lcp <=? lcp_of e) &&
  (e.(text_bytes) <=? 8 * lcp_of e).

Definition lcp_key (e : entry) : Z * Z := (lcp_of e, - e.(text_bytes)).

Definition lcp_triple (b : Z * entry) : Z * Z * Z := (b.1, lcp_of b.2, b.2.(text_bytes)).

Lemma common_prefix_bound a b : 0 <= common_prefix a b <= blen b.
Proof.
  revert b. induction a as [|x a IH]; intros [|y b]; cbn [common_prefix]; rewrite ?blen_cons;
    try (pose proof (blen_nonneg b)); try (pose proof (@blen_nonneg Z [])); try lia.
  specialize (IH b). destruct (x =? y); lia.
Qed.

Lemma stored_lcp_bound e l : stored_lcp fs q e = Some l -> 0 <= l <= blen q.(prompt).
Proof.
  unfold stored_lcp. destruct (read_file fs e.(path)) as [c|]; [|done]. simpl. intros [= <-].
  pose proof (blen_nonneg q.(prompt)).
  destruct (read_header c) as [[[h tl] fp]|]; [|lia].
  destruct (tl =? _); [apply common_prefix_bound | lia].
Qed.

Lemma lcp_scan_best es d best :
  0 < min_lcp -> blen q.(prompt) <= 2 ^ 60 ->
  best_of (fun e => salvageable e = true) lcp_key d best ->
  exists best', best_of (fun e => salvageable e = true) lcp_key (d ++ es) best' /\
    lcp_scan fs kc q min_lcp es (blen d) (lcp_triple <$> best) = lcp_triple <$> best'.
Proof.
  intros Hmin Hq. revert d best. induction es as [|e es IH]; intros d best Hb; simpl.
  { exists best. by rewrite app_nil_r. }
  replace (d ++ e :: es) with ((d ++ [e]) ++ es) by by rewrite <-app_assoc.
  rewrite <-blen_snoc with (x := e).
  assert (salvageable e = false -> best_of (fun e => salvageable e = true) lcp_key
    (d ++ [e]) best) as Hskip.
  { intros Hc. apply best_of_keep; [|done]. by rewrite Hc. }
  unfold salvageable in Hskip at 1. pose proof (blen_nonneg q.(prompt)).
  destruct (replayable q e) eqn:H1; simpl; [|by apply IH, Hskip].
  destruct (loadable kc q e) eqn:H3; simpl; [|by apply IH, Hskip].
  destruct (Z.ltb_spec e.(text_bytes) min_lcp); simpl; [apply IH, Hskip; simpl; lia|].
  unfold lcp_of in Hskip. destruct (stored_lcp fs q e) as [l|] eqn:Hl; cycle 1.
  { rewrite bool_decide_false in Hskip by apply is_Some_None.
    destruct (_ <? _); apply IH, Hskip; simpl; by rewrite andb_false_r. }
  pose proof (stored_lcp_bound e l Hl).
  rewrite bool_decide_true in Hskip by done. cbn [from_option id] in Hskip.
  rewrite !wrap_id by (unfold fits; lia).
  destruct (Z.ltb_spec (8 * blen q.(prompt)) e.(text_bytes)); [apply IH, Hskip; simpl in *; lia|].
  destruct (Z.ltb_spec l min_lcp); [apply IH, Hskip; simpl in *; lia|].
  destruct (Z.ltb_spec (8 * l) e.(text_bytes)); [apply IH, Hskip; simpl in *; lia|].
  assert (salvageable e = true) as Hc.
  { unfold salvageable, lcp_of. rewrite H1, H3, Hl, bool_decide_true by done. simpl. lia. }
  assert (lcp_triple (blen d, e) = (blen d, l, e.(text_bytes))) as Ht
    by (unfold lcp_triple, lcp_of; simpl; by rewrite Hl).
  assert (lcp_key e = (l, - e.(text_bytes))) as Hk by (unfold lcp_key, lcp_of; by rewrite Hl).
  rewrite <-Ht. destruct best as [[j b]|]; cycle 1.
  { apply (IH _ (Some (blen d, e))), (best_of_replace _ _ _ _ None); done. }
  simpl. destruct ((l <? lcp_of b) || _) eqn:Hbeat.
  - apply (IH _ (Some (j, b))). apply best_of_keep; [|done]. intros _. exists j, b. split; [done|].
    unfold better. rewrite Hk. simpl. lia.
  - apply (IH _ (Some (blen d, e))). apply (best_of_replace _ _ _ _ (Some (j, b))); [done| |done].
    intros ? ? [= <- <-]. unfold better. rewrite Hk. simpl. lia.
Qed.
End Lcp.

(** the partial lookup returns the record that salvages the most.  For a
    nonzero minimum and a prompt at least that long, the answer is the first
    salvageable record with the longest common prefix and, among equals, the
    shortest text, together with that common prefix, which is at least the
    minimum, at most the prompt, and covers an eighth of the record; -1 means
    that no record is salvageable. *)
Theorem find_lcp_best `{Os} fs kc q min_lcp :
  0 < min_lcp <= blen q.(prompt) -> blen q.(prompt) <= 2 ^ 60 ->
  let kc' := refresh fs kc in
  exists best, best_of (fun e => salvageable fs kc' q min_lcp e = true) (lcp_key fs q)
      kc'.(entries) best /\
    match best with
    | Some (i, e) =>
        kv_find_text_lcp fs kc (Some q) min_lcp = (kc', i, lcp_of fs q e) /\
        min_lcp <= lcp_of fs q e <= blen q.(prompt) /\ e.(text_bytes) <= 8 * lcp_of fs q e
    | None => kv_find_text_lcp fs kc (Some q) min_lcp = (kc', -1, 0)
    end.
Proof.
  intros Hmin Hq kc'. unfold kv_find_text_lcp.
  destruct (Z.eqb_spec min_lcp 0); [lia|]. destruct (Z.ltb_spec (blen q.(prompt)) min_lcp); [lia|].
  fold kc'. destruct (lcp_scan_best fs kc' q min_lcp kc'.(entries) [] None)
    as (best & Hb & Hs); [lia|done|apply best_of_nil|].
  change (blen []) with 0 in Hs. simpl in Hs. rewrite Hs. exists best. split; [done|].
  destruct best as [[i e]|]; simpl; [|done]. split; [done|].
  destruct Hb as (_ & _ & Hok & _). unfold salvageable in Hok.
  rewrite !andb_true_iff, bool_decide_eq_true in Hok. destruct Hok as (((_ & [l Hl]) & Hm) & H8).
  pose proof (stored_lcp_bound fs q e l Hl). unfold lcp_of in *. rewrite Hl in *. simpl in *. lia.
Qed.

Definition abc_query : query := Query (bs "abd and more") 0 2 4096 0 0.

Example find_lcp_best_witness :
  exists i, @kv_find_text_lcp (plain_os 1000) two_files small_store (Some abc_query) 2 =
    (@refresh (plain_os 1000) two_files small_store, i, 2).
Proof.
  destruct (@find_lcp_best (plain_os 1000) two_files small_store abc_query 2
    ltac:(vm_compute; split; discriminate || reflexivity) ltac:(vm_compute; discriminate))
    as (best & _ & Hb).
  assert (Hr : (@kv_find_text_lcp (plain_os 1000) two_files small_store (Some abc_query) 2).2 = 2)
    by (vm_compute; reflexivity).
  destruct best as [[i e]|].
  - destruct Hb as [Hb _]. rewrite Hb in Hr. exists i. rewrite Hb. f_equal. exact Hr.
  - rewrite Hb in Hr. discriminate Hr.
Defined.
