(* ===== verification/KvStore.v ===== *)
(** * Storing and restoring checkpoints (ds4_kvstore.c)

    The whole store path (compatibility check, eviction, temporary file, rename)
    and the two restore paths, against the interface of the inference engine
    and the session, with what they guarantee about the directory. *)

From S2P Require Import Prelude Bytes Sha1 KvFile KvPolicy KvFs KvEvict KvLookup.

(** ** The engine and the session *)

(** ds4_session_payload_file: the announced size and the temporary file, [None]
    when it cannot be opened any more. *)
Record payload_file := Payload { pf_bytes : Z; pf_file : option (list Z) }.

(** What the store asks of the engine (ds4.c): identification, detokenisation
    and the rendered-chat tokenizer. *)
Class Engine := {
  engine_quant_bits : Z;                  (* ds4_engine_routed_quant_bits *)
  engine_model_id : Z;                    (* ds4_engine_model_id *)
  token_text : Z -> list Z;               (* ds4_token_text *)
  tokenize_rendered : list Z -> list Z }. (* ds4_tokenize_rendered_chat *)

(** What the store asks of a session or of a continuous-batching bank.
    [load_payload] reads the stream at the payload and leaves it behind it. *)
Class Session (S : Type) := {
  session_tokens : S -> option (list Z);
  session_ctx : S -> Z;
  stage_payload : S -> option payload_file;
  load_payload : S -> list Z -> Z -> S * bool * list Z;
  session_invalidate : S -> S }.
Class Bank (B : Type) := {
  bank_restore : B -> Z -> list Z -> Z -> B * bool;
  bank_committed : B -> Z -> option (list Z) }.

(** ds4_kvstore_trailer_hooks; a missing function pointer is [None]. *)
Record hooks := Hooks {
  ext_flag : Z;
  serialized_size : option (list Z -> option Z);
  hook_write : option (list Z -> option (list Z)) }.

(** kv_trailer_serialized_size; [None] is false. *)
Definition trailer_serialized_size (hk : option hooks) (text : list Z) : option Z :=
  match hk with
  | None => Some 0
  | Some h => match h.(serialized_size) with None => Some 0 | Some f => f text end
  end.

(** The bytes kv_trailer_write hands to the file; [None] is false. *)
Definition trailer_write (hk : option hooks) (text : list Z) : option (list Z) :=
  match hk with
  | None => Some []
  | Some h => match h.(hook_write) with None => Some [] | Some f => f text end
  end.

(** ds4_tokens_starts_with *)
Fixpoint tokens_starts_with (tokens prefix : list Z) {struct prefix} : bool :=
  match prefix, tokens with
  | [], _ => true
  | p :: prefix, t :: tokens => (t =? p) && tokens_starts_with tokens prefix
  | _ :: _, [] => false
  end.

(** ds4_kvstore_tokens_copy_prefix *)
Definition tokens_copy_prefix (src : option (list Z)) (n : Z) : list Z :=
  match src with None => [] | Some v => ztake n v end.

Section Store.
Context `{Os} `{Engine} {S : Type} `{Session S}.
Context (exp2 : SpecFloat.spec_float -> SpecFloat.spec_float).

(** ds4_kvstore_render_tokens_text *)
Definition render_tokens_text (tokens : list Z) : list Z := flat_map token_text tokens.

(** ds4_kvstore_build_prompt_from_exact_prefix_and_text_suffix *)
Definition build_prompt (exact_prefix : list Z) (suffix_text : option (list Z)) : list Z :=
  exact_prefix ++ tokenize_rendered (default [] suffix_text).

(** kv_cache_file_text_matches *)
Definition file_text_matches (fs : files) (path sha text : list Z) : bool :=
  if UINT32_MAX <? blen text then false
  else
    match read_file fs path with
    | None => false
    | Some c =>
        match read_header c with
        | Some (_, text_len, fp) =>
            (text_len =? u32 (blen text)) && (blen (ztake text_len fp) =? text_len) &&
            streq (sha_hex (ztake text_len fp)) sha &&
            ((blen text =? 0) || streq (ztake (blen text) (ztake text_len fp)) text)
        | None => false
        end
    end.

(** [{ .reason = reason, .ext_flags = ext_flags }] *)
Definition expected_entry (reason ext_flags : Z) : entry :=
  Entry [] [] 0 0 reason 0 0 0 ext_flags 0 0 0 0 0.

(** kv_cache_existing_compatible *)
Definition existing_compatible (fs : files) (kc : kvstore) (path sha text : list Z)
    (model quant ctx reason ext_flags : Z) : files * bool :=
  match fs !! path with
  | None => (fs, false)
  | Some _ =>
      match read_entry_file (read_file fs path) path sha with
      | None => (fs, false)
      | Some e =>
          let compatible :=
            (e.(model_id) =? u8 model) &&
            (negb kc.(reject_different_quant) || (e.(quant_bits) =? u8 quant)) &&
            (e.(ctx_size) <=? u32 ctx) &&
            is_automatic_exact_replay e &&
            is_automatic_exact_replay (expected_entry reason ext_flags) &&
            file_text_matches fs path sha text in
          if negb compatible then ((unlink fs path).1, false) else (fs, true)
      end
  end.

(** Appending to a stream: the content so far and whether everything up to now
    was stored. *)
Definition put (p : list Z) (st : list Z * bool) (data : list Z) : list Z * bool :=
  if st.2 then
    let k := Z.max 0 (Z.min (blen data) (fwrite_n p (blen data))) in
    (st.1 ++ ztake k data, k =? blen data)
  else st.

(** kv_cache_rewrite_trailer: the file is cut behind the payload, the trailer
    appended, and the header rewritten with the extension flag. *)
Definition rewrite_trailer (fs : files) (path text : list Z) (hk : option hooks) : files :=
  match hk with
  | None => fs
  | Some h =>
      match h.(hook_write), h.(serialized_size), trailer_serialized_size hk text with
      | Some _, Some _, Some trailer_est =>
          if trailer_est =? 0 then fs
          else
            match read_file fs path with
            | None => fs
            | Some c =>
                match read_header c with
                | None => fs
                | Some (hdr, text_bytes, _) =>
                    let fin := u64 (FIXED_HEADER + 4 + text_bytes + hdr.(payload_bytes)) in
                    if (fin <=? INT64_MAX) && ftruncate_ok path then
                      let c := ztake fin c ++ replicate (Z.to_nat (fin - blen c)) 0 in
                      match trailer_write hk text with
                      | None => <[path := c]> fs
                      | Some t =>
                          let '(c, ok) := put path (c, true) t in
                          if ok && fclose_ok path && (0 <? blen t) then
                            let hd := fill_header hdr.(model_id) hdr.(quant_bits) hdr.(reason)
                                        (Z.lor hdr.(ext_flags) h.(ext_flag)) hdr.(tokens)
                                        hdr.(hits) hdr.(ctx_size) hdr.(created_at) time_now
                                        hdr.(payload_bytes) in
                            let n := (put path ([], true) hd).1 in
                            <[path := n ++ drop (length n) c]> fs
                          else <[path := c]> fs
                      end
                    else fs
                end
            end
      | _, _, _ => fs
      end
  end.

(** The bytes of the temporary file and whether every write succeeded: header,
    text length, text, staged payload (ds4_session_write_staged_payload copies
    exactly the announced bytes), trailer. *)
Definition write_checkpoint (tmp header text : list Z) (staged : payload_file)
    (trailer : option (list Z)) : list Z * bool :=
  let st := put tmp ([], true) header in
  let st := put tmp st (Le.put32 (u32 (blen text))) in
  let st := put tmp st text in
  let st :=
    match staged.(pf_file) with
    | Some c => if staged.(pf_bytes) <=? blen c then put tmp st (ztake staged.(pf_bytes) c)
                else (st.1, false)
    | None => (st.1, false)
    end in
  let st := match trailer with Some t => put tmp st t | None => (st.1, false) end in
  (st.1, st.2 && fclose_ok tmp).

(** The tail of ds4_kvstore_store_live_prefix_text, from the first fopen on:
    temporary file, size check on what was written, rename or clean-up. *)
Definition commit_checkpoint (fs : files) (kc : kvstore) (path header text : list Z)
    (staged : payload_file) (hk : option hooks) : files * bool :=
  let tmp := path ++ bs ".tmp." ++ pid_text in
  if negb (may_create tmp) then (fs, false)
  else
    let trailer := trailer_write hk text in
    let '(content, ok) := write_checkpoint tmp header text staged trailer in
    let fs := <[tmp := content]> fs in
    let trailer_bytes := blen (default [] trailer) in
    let ok :=
      if ok then (file_size_fits (Some kc.(budget_bytes)) (blen text) staged.(pf_bytes)
                    trailer_bytes).1.1
      else false in
    let '(fs, ok) := if ok then rename fs tmp path else (fs, false) in
    if ok then (fs, true) else ((unlink fs tmp).1, false).

(** ds4_kvstore_store_live_prefix_text *)
Definition store_live_prefix_text (fs : files) (kc : kvstore) (session : S) (ctx_size : Z)
    (tokens : option (list Z)) (store_len : Z) (reason : list Z)
    (cache_text_override : option (list Z)) (cache_text_ext : Z) (hk : option hooks)
    (staged_in : option payload_file) : files * kvstore * bool :=
  if negb kc.(enabled) then (fs, kc, false)
  else
  match tokens with
  | None => (fs, kc, false)
  | Some _ =>
  if store_len <? kc.(opt).(min_tokens) then (fs, kc, false)
  else
  let store_tokens := tokens_copy_prefix tokens store_len in
  let quant := engine_quant_bits in
  if negb (quant =? 2) && negb (quant =? 4) then (fs, kc, false)
  else
  let model := engine_model_id in
  let live_tokens := session_tokens session in
  let live_ok :=
    match staged_in with
    | Some _ => true
    | None =>
        match live_tokens with
        | None => false
        | Some live => (blen live =? blen store_tokens) && tokens_starts_with live store_tokens
        end
    end in
  if negb live_ok then (fs, kc, false)
  else
  let text_override :=
    match cache_text_override with Some (c :: _) => true | _ => false end in
  let text := if text_override then default [] cache_text_override
              else render_tokens_text store_tokens in
  if UINT32_MAX <? blen text then (fs, kc, false)
  else
  match trailer_serialized_size hk text with
  | None => (fs, kc, false)
  | Some trailer_est =>
  let sha := sha_hex text in
  let path := Name.path_for_sha kc.(dir) sha in
  let reason_code := reason_code (Some reason) in
  let ext_flags := match hk with
                   | Some h => if 0 <? trailer_est then h.(ext_flag) else 0
                   | None => 0
                   end in
  let ext_flags := if text_override then Z.lor ext_flags cache_text_ext else ext_flags in
  let '(fs, existing) :=
    existing_compatible fs kc path sha text model quant ctx_size reason_code ext_flags in
  if existing then (rewrite_trailer fs path text hk, kc, true)
  else
  match (match staged_in with Some p => Some p | None => stage_payload session end) with
  | None => (fs, kc, false)
  | Some staged =>
  let '(fits_, est_file, _) :=
    file_size_fits (Some kc.(budget_bytes)) (blen text) staged.(pf_bytes) trailer_est in
  if negb fits_ then (fs, kc, false)
  else
  let incoming := Incoming (Some text) (blen text) (u8 model) (u8 quant) (u32 ctx_size)
                    kc.(reject_different_quant) in
  let '(fs, kc) := evict exp2 fs kc live_tokens (default 0 est_file) (Some incoming) in
  let header := fill_header (u8 model) (u8 quant) reason_code ext_flags
                  (u32 (blen store_tokens)) 0 (u32 ctx_size) time_now time_now
                  staged.(pf_bytes) in
  let '(fs, ok) := commit_checkpoint fs kc path header text staged hk in
  (fs, kc, ok)
  end
  end
  end.

(** ds4_kvstore_store_live_prefix *)
Definition store_live_prefix (fs : files) (kc : kvstore) (session : S)
    (tokens : option (list Z)) (store_len : Z) (reason : list Z) (hk : option hooks)
    : files * kvstore * bool :=
  store_live_prefix_text fs kc session (session_ctx session) tokens store_len reason
    None 0 hk None.

(** ds4_kvstore_maybe_store_continued *)
Definition maybe_store_continued (fs : files) (kc : kvstore) (session : S) (hk : option hooks)
    : files * kvstore * bool :=
  match session_tokens session with
  | None => (fs, kc, false)
  | Some tokens =>
      let target := continued_store_target kc (blen tokens) in
      if target =? 0 then (fs, kc, false)
      else
        let '(fs, kc, ok) :=
          store_live_prefix fs kc session (Some tokens) target (bs "continued") hk in
        if ok then (fs, note_store kc target, true) else (fs, kc, false)
  end.
End Store.

Arguments write_checkpoint : simpl never.
Arguments commit_checkpoint : simpl never.
Arguments existing_compatible : simpl never.
Arguments rewrite_trailer : simpl never.

(** ** Writing and committing *)
Section Commit.
Context `{Os}.

Lemma put_ok p st data c :
  put p st data = (c, true) -> st.2 = true /\ c = st.1 ++ data.
Proof.
  unfold put. destruct st as [c0 [|]]; simpl; [|done].
  set (k := Z.max 0 _). intros [= <- Hk]. apply Z.eqb_eq in Hk. split; [done|].
  by rewrite ztake_ge by lia.
Qed.

(** The complete file of a checkpoint. *)
Definition checkpoint_file (header text : list Z) (staged : payload_file) (trailer : list Z)
    : list Z :=
  header ++ Le.put32 (u32 (blen text)) ++ text ++
  ztake staged.(pf_bytes) (default [] staged.(pf_file)) ++ trailer.

(** Everything was written and the staged payload was complete. *)
Lemma write_checkpoint_ok tmp header text staged trailer c :
  write_checkpoint tmp header text staged trailer = (c, true) ->
  exists t p, trailer = Some t /\ staged.(pf_file) = Some p /\ staged.(pf_bytes) <= blen p /\
    c = checkpoint_file header text staged t.
Proof.
  unfold write_checkpoint, checkpoint_file.
  destruct trailer as [t|]; simpl; cycle 1; [by intros [= _ ?]|].
  destruct staged.(pf_file) as [p|]; simpl; cycle 1; [by intros [= _ ?]|].
  destruct (Z.leb_spec staged.(pf_bytes) (blen p)); cycle 1; [by intros [= _ ?]|].
  destruct (put tmp _ t) as [c5 ok5] eqn:H5. simpl. intros [= <- [-> _]%andb_true_iff].
  apply put_ok in H5 as [H5 ->].
  destruct (put tmp _ (ztake _ _)) as [c4 ok4] eqn:H4. simpl in *. subst ok4.
  apply put_ok in H4 as [H4 ->].
  destruct (put tmp _ text) as [c3 ok3] eqn:H3. simpl in *. subst ok3. apply put_ok in H3 as [H3 ->].
  destruct (put tmp _ (Le.put32 _)) as [c2 ok2] eqn:H2. simpl in *. subst ok2.
  apply put_ok in H2 as [H2 ->].
  destruct (put tmp _ header) as [c1 ok1] eqn:H1. simpl in *. subst ok1. apply put_ok in H1 as [_ ->].
  exists t, p. simpl. by rewrite <-!app_assoc.
Qed.

Definition tmp_path (path : list Z) : list Z := path ++ bs ".tmp." ++ pid_text.

Lemma tmp_path_ne path : tmp_path path <> path.
Proof.
  unfold tmp_path. intros Heq. apply (f_equal length) in Heq. rewrite length_app in Heq.
  simpl in Heq. lia.
Qed.

Lemma commit_atomic_holds fs kc path header text staged hk fs' ok :
  commit_checkpoint fs kc path header text staged hk = (fs', ok) ->
  (forall p, p <> path -> p <> tmp_path path -> fs' !! p = fs !! p) /\
  (ok = true -> exists trailer, trailer_write hk text = Some trailer /\
     fs' !! path = Some (checkpoint_file header text staged trailer) /\
     fs' !! tmp_path path = None /\
     (exists p, staged.(pf_file) = Some p /\ staged.(pf_bytes) <= blen p) /\
     (file_size_fits (Some kc.(budget_bytes)) (blen text) staged.(pf_bytes)
        (blen trailer)).1.1 = true) /\
  (ok = false -> fs' !! path = fs !! path /\
     (may_create (tmp_path path) = true -> may_unlink (tmp_path path) = true ->
        fs' !! tmp_path path = None)).
Proof.
  pose proof (tmp_path_ne path) as Hne. unfold commit_checkpoint. fold (tmp_path path).
  set (tmp := tmp_path path) in *.
  destruct (may_create tmp); cbn [negb]; [|intros [= <- <-]; by split_and!].
  destruct (write_checkpoint tmp header text staged (trailer_write hk text)) as [c w] eqn:Hw.
  cbv zeta beta iota.
  match goal with |- context [if w then ?b else false] =>
    set (fits_ := if w then b else false) end.
  assert (forall fs2, ((unlink (<[tmp:=c]> fs) tmp).1, false) = (fs2, ok) ->
    (forall p, p <> path -> p <> tmp -> fs2 !! p = fs !! p) /\
    ok = false /\ fs2 !! path = fs !! path /\
    (may_unlink tmp = true -> fs2 !! tmp = None)) as Hclean.
  { intros fs2. unfold unlink. rewrite lookup_insert_eq.
    destruct (may_unlink tmp); simpl; intros [= <- <-].
    - split; [intros p _ Hp; by rewrite lookup_delete_ne, lookup_insert_ne by done|].
      split; [done|]. split; [by rewrite lookup_delete_ne, lookup_insert_ne by done|].
      intros _. apply lookup_delete_eq.
    - split; [intros p _ Hp; by rewrite lookup_insert_ne by done|].
      split; [done|]. split; [by rewrite lookup_insert_ne by done|done]. }
  assert (((unlink (<[tmp:=c]> fs) tmp).1, false) = (fs', ok) ->
    (forall p, p <> path -> p <> tmp -> fs' !! p = fs !! p) /\
    (ok = true -> exists trailer, trailer_write hk text = Some trailer /\
       fs' !! path = Some (checkpoint_file header text staged trailer) /\
       fs' !! tmp = None /\
       (exists p, staged.(pf_file) = Some p /\ staged.(pf_bytes) <= blen p) /\
       (file_size_fits (Some kc.(budget_bytes)) (blen text) staged.(pf_bytes)
          (blen trailer)).1.1 = true) /\
    (ok = false -> fs' !! path = fs !! path /\
       (true = true -> may_unlink tmp = true -> fs' !! tmp = None))) as Hfail.
  { intros Heq. destruct (Hclean fs' Heq) as (H1 & -> & H2 & H3). split_and!; done || auto. }
  destruct fits_ eqn:Hfits; [|exact Hfail].
  unfold rename. rewrite lookup_insert_eq. destruct (may_rename tmp path); [|exact Hfail].
  intros [= <- <-]. unfold fits_ in Hfits. destruct w; [|done].
  destruct (write_checkpoint_ok _ _ _ _ _ _ Hw) as (t & p & Ht & Hp & Hlen & ->).
  rewrite Ht in *. simpl in Hfits. split_and!; [| |done].
  - intros q Hq Hqt. rewrite lookup_insert_ne, lookup_delete_ne, lookup_insert_ne by done. done.
  - intros _. exists t. split; [done|]. split; [apply lookup_insert_eq|].
    split; [|split; [by exists p|done]].
    rewrite lookup_insert_ne by done. apply lookup_delete_eq.
Qed.

(** C2: a checkpoint appears under its name whole or not at all.  A commit that
    succeeds leaves exactly the complete file (header, text length, text, the
    announced payload bytes, trailer) under the record's path, within the
    budget and with no temporary file behind; a commit that fails at any call
    leaves the path as it was; in both cases no other file changes, and the
    temporary file is gone unless it can be neither renamed nor removed. *)
Theorem commit_atomic fs kc path header text staged hk fs' ok :
  commit_checkpoint fs kc path header text staged hk = (fs', ok) ->
  (forall p, p <> path -> p <> tmp_path path -> fs' !! p = fs !! p) /\
  (ok = true -> exists trailer, trailer_write hk text = Some trailer /\
     fs' !! path = Some (checkpoint_file header text staged trailer) /\
     fs' !! tmp_path path = None /\
     (exists p, staged.(pf_file) = Some p /\ staged.(pf_bytes) <= blen p) /\
     (file_size_fits (Some kc.(budget_bytes)) (blen text) staged.(pf_bytes)
        (blen trailer)).1.1 = true) /\
  (ok = false -> fs' !! path = fs !! path /\
     (may_create (tmp_path path) = true -> may_unlink (tmp_path path) = true ->
        fs' !! tmp_path path = None)).
Proof. apply commit_atomic_holds. Qed.

(** Eviction only ever removes files. *)
Lemma evict_loop_deletes score fuel fs es total target p :
  let fs' := (evict_loop score fuel fs es total target).1.1 in
  fs' !! p = fs !! p \/ fs' !! p = None.
Proof.
  revert fs es total. induction fuel as [|fuel IH]; intros fs es total; simpl; [by left|].
  destruct (target <? total); [|by left]. destruct (es !! pick score es) as [e|]; [|by left].
  unfold unlink. destruct (fs !! e.(path)) eqn:He; [destruct (may_unlink e.(path))|];
    try apply IH.
  destruct (IH (delete e.(path) fs) (delete (pick score es) es)
    (if e.(file_size) <=? total then total - e.(file_size) else 0)) as [Hl|Hn]; [|by right].
  rewrite Hl. destruct (decide (p = e.(path))) as [->|Hne].
  - right. apply lookup_delete_eq.
  - left. by apply lookup_delete_ne.
Qed.

Lemma evict_deletes exp2 fs kc live extra incoming p :
  let fs' := (evict exp2 fs kc live extra incoming).1 in
  fs' !! p = fs !! p \/ fs' !! p = None.
Proof.
  unfold evict. destruct (_ || _); [by left|]. destruct (_ <? _); [by left|].
  match goal with |- context [evict_loop ?s ?n ?f ?es ?t ?g] =>
    pose proof (evict_loop_deletes s n f es t g p) as Hd;
    destruct (evict_loop s n f es t g) as [[fs1 es1] t1] end. exact Hd.
Qed.

Lemma unlink_deletes fs q p : (unlink fs q).1 !! p = fs !! p \/ (unlink fs q).1 !! p = None.
Proof.
  unfold unlink. destruct (fs !! q); [|by left]. destruct (may_unlink q); [|by left]. simpl.
  destruct (decide (p = q)) as [->|]; [right; apply lookup_delete_eq | left; by apply lookup_delete_ne].
Qed.
End Commit.

(** ** The whole store *)
Section StoreSpec.
Context `{Os} `{Engine} {S : Type} `{Session S}.
Context (exp2 : SpecFloat.spec_float -> SpecFloat.spec_float).

(** The text a store is keyed by, and the path of its record. *)
Definition stored_text (tokens : list Z) (store_len : Z) (override : option (list Z)) : list Z :=
  match override with
  | Some (c :: t) => c :: t
  | _ => render_tokens_text (ztake store_len tokens)
  end.
Definition record_path (kc : kvstore) (text : list Z) : list Z :=
  Name.path_for_sha kc.(dir) (sha_hex text).

(** What happened to the file at [p]: kept, removed, or neither. *)
Definition kept_or_removed (fs fs' : files) (p : list Z) : Prop :=
  fs' !! p = fs !! p \/ fs' !! p = None.

Lemma kept_trans fs1 fs2 fs3 p :
  kept_or_removed fs1 fs2 p -> kept_or_removed fs2 fs3 p -> kept_or_removed fs1 fs3 p.
Proof. unfold kept_or_removed. intros [H12|H12] [H23|H23]; rewrite ?H23, ?H12; auto. Qed.

Lemma existing_kept fs kc path sha text model quant ctx reason ext p :
  kept_or_removed fs (existing_compatible fs kc path sha text model quant ctx reason ext).1 p.
Proof.
  unfold existing_compatible. destruct (fs !! path); [|by left].
  destruct (read_entry_file _ _ _); [|by left]. destruct (negb _); [|by left].
  apply unlink_deletes.
Qed.

Lemma rewrite_trailer_frame fs path text hk p :
  p <> path -> rewrite_trailer fs path text hk !! p = fs !! p.
Proof.
  intros Hp. unfold rewrite_trailer. repeat case_match; try done; by apply lookup_insert_ne.
Qed.

Lemma evict_fields fs kc live extra incoming :
  let kc' := (evict exp2 fs kc live extra incoming).2 in
  kc'.(enabled) = kc.(enabled) /\ kc'.(dir) = kc.(dir) /\ kc'.(budget_bytes) = kc.(budget_bytes) /\
  kc'.(reject_different_quant) = kc.(reject_different_quant) /\ kc'.(opt) = kc.(opt).
Proof.
  unfold evict. destruct (_ || _); [done|]. destruct (_ <? _); [done|].
  destruct (evict_loop _ _ _ _ _ _) as [[fs1 es1] t1]. simpl.
  by destruct (refresh_fields fs kc) as (-> & -> & -> & -> & -> & _).
Qed.

(** How a successful store ended: on an existing compatible record, or by
    committing a new file after an eviction pass. *)
Lemma store_outcome fs kc session ctx tokens n reason override ext hk staged_in fs' kc' ok :
  store_live_prefix_text exp2 fs kc session ctx (Some tokens) n reason override ext hk staged_in
    = (fs', kc', ok) ->
  let text := stored_text tokens n override in
  let path := record_path kc text in
  (fs' = fs /\ kc' = kc /\ ok = false) \/
  exists fs1 existing flags est,
    existing_compatible fs kc path (sha_hex text) text engine_model_id engine_quant_bits ctx
      (reason_code (Some reason)) flags = (fs1, existing) /\
    trailer_serialized_size hk text = Some est /\
    flags = Z.lor (match hk with Some h => if 0 <? est then h.(ext_flag) else 0 | None => 0 end)
              (match override with Some (_ :: _) => ext | _ => 0 end) /\
    blen text <= UINT32_MAX /\ kc.(enabled) = true /\ kc.(opt).(min_tokens) <= n /\
    (engine_quant_bits = 2 \/ engine_quant_bits = 4) /\
    (existing = true /\ fs' = rewrite_trailer fs1 path text hk /\ kc' = kc /\ ok = true \/
     existing = false /\
     (fs' = fs1 /\ kc' = kc /\ ok = false \/
      exists staged file live inc fs2,
        evict exp2 fs1 kc live file inc = (fs2, kc') /\
        commit_checkpoint fs2 kc' path
          (fill_header (u8 engine_model_id) (u8 engine_quant_bits) (reason_code (Some reason))
             flags (u32 (blen (ztake n tokens))) 0 (u32 ctx) time_now time_now staged.(pf_bytes))
          text staged hk = (fs', ok) /\
        (staged_in = Some staged \/ staged_in = None /\ stage_payload session = Some staged))).
Proof.
  intros Heq text path. unfold store_live_prefix_text in Heq.
  destruct kc.(enabled) eqn:Hen; cbn [negb] in Heq; [|left; by simplify_eq].
  destruct (Z.ltb_spec n kc.(opt).(min_tokens)); [left; by simplify_eq|].
  destruct (negb (engine_quant_bits =? 2) && negb (engine_quant_bits =? 4)) eqn:Hq;
    [left; by simplify_eq|].
  cbv zeta in Heq.
  match type of Heq with (if negb ?b then _ else _) = _ => destruct b end; cbn [negb] in Heq;
    [|left; by simplify_eq].
  assert ((if match override with Some (_ :: _) => true | _ => false end
           then default [] override
           else render_tokens_text (tokens_copy_prefix (Some tokens) n)) = text) as Htext
    by (unfold text, stored_text; by destruct override as [[|]|]).
  rewrite Htext in Heq. destruct (Z.ltb_spec UINT32_MAX (blen text)) as [|Htl];
    [left; by simplify_eq|].
  destruct (trailer_serialized_size hk text) as [est|] eqn:Hest;
    [|left; by simplify_eq].
  set (flags := if match override with Some (_ :: _) => true | _ => false end
                then Z.lor _ ext else _) in Heq.
  assert (flags = Z.lor (match hk with Some h => if 0 <? est then h.(ext_flag) else 0 | None => 0 end)
              (match override with Some (_ :: _) => ext | _ => 0 end)) as Hflags
    by (unfold flags; destruct override as [[|]|]; by rewrite ?Z.lor_0_r).
  clearbody flags. right. fold (record_path kc text) path in Heq.
  destruct (existing_compatible _ _ _ _ _ _ _ _ _ _) as [fs1 existing] eqn:Hex.
  exists fs1, existing, flags, est. split; [done|]. split; [done|]. split; [done|].
  split; [done|]. split; [done|]. split; [done|]. split; [lia|].
  destruct existing; [left; by simplify_eq|right]. split; [done|].
  destruct (match staged_in with Some p => Some p | None => stage_payload session end)
    as [staged|] eqn:Hst; [|left; by simplify_eq].
  destruct (file_size_fits _ _ _ _) as [[f est_file] ?]. destruct f; cbn [negb] in Heq;
    [|left; by simplify_eq].
  right. destruct (evict exp2 fs1 kc _ _ _) as [fs2 kc2] eqn:Hev.
  destruct (commit_checkpoint fs2 kc2 path _ text staged hk) as [fs3 ok3] eqn:Hcm.
  simplify_eq. exists staged, (default 0 est_file). do 2 eexists. exists fs2.
  split; [exact Hev|]. split; [exact Hcm|].
  destruct staged_in as [p|]; [left; congruence | right; by split].
Qed.

(** storing touches one record.  Whatever the outcome and whichever call
    fails, every file other than the record of the stored text and its temporary
    is afterwards either exactly what it was or gone (evicted); a successful
    store leaves a file under the record's path; the store's configuration does
    not change. *)
Theorem store_touches_one_record fs kc session ctx tokens n reason override ext hk staged_in
    fs' kc' ok :
  store_live_prefix_text exp2 fs kc session ctx (Some tokens) n reason override ext hk staged_in
    = (fs', kc', ok) ->
  let path := record_path kc (stored_text tokens n override) in
  (forall p, p <> path -> p <> tmp_path path -> kept_or_removed fs fs' p) /\
  (ok = true -> is_Some (fs' !! path)) /\
  kc'.(dir) = kc.(dir) /\ kc'.(opt) = kc.(opt) /\ kc'.(enabled) = kc.(enabled) /\
  kc'.(budget_bytes) = kc.(budget_bytes).
Proof.
  intros Hst path. destruct (store_outcome _ _ _ _ _ _ _ _ _ _ _ _ _ _ Hst)
    as [(-> & -> & ->)|(fs1 & existing & flags & est & Hex & _ & _ & _ & _ & _ & _ & Hrest)].
  { split; [by left|]. by split_and!. }
  fold path in Hex, Hrest.
  assert (forall p, kept_or_removed fs fs1 p) as Hk1.
  { intros p. change fs1 with (fs1, existing).1. rewrite <-Hex. apply existing_kept. }
  destruct Hrest as [(-> & -> & -> & ->)|(-> & [(-> & -> & ->)|(staged & file & live & inc & fs2 &
    Hev & Hcm & _)])].
  - split; [|split; [|done]].
    + intros p Hp _. eapply kept_trans; [apply Hk1|]. left. by apply rewrite_trailer_frame.
    + intros _. assert (is_Some (fs1 !! path)) as [c Hc].
      { unfold existing_compatible in Hex. destruct (fs !! path) as [c|] eqn:Hp; [|done].
        destruct (read_entry_file _ _ _); [|done]. destruct (negb _); [done|].
        injection Hex as <-. by rewrite Hp. }
      unfold rewrite_trailer. repeat case_match; try done; rewrite lookup_insert_eq; done.
  - split; [auto|]. by split_and!.
  - pose proof (evict_fields fs1 kc live file inc) as (E1 & E2 & E3 & _ & E5).
    rewrite Hev in E1, E2, E3, E5. simpl in *.
    destruct (commit_atomic_holds _ _ _ _ _ _ _ _ _ Hcm) as (Hframe & Hok & _).
    split; [|split; [|done]].
    + intros p Hp Ht. eapply kept_trans; [apply Hk1|].
      pose proof (evict_deletes exp2 fs1 kc live file inc p) as Hd. rewrite Hev in Hd.
      eapply kept_trans; [exact Hd|]. left. by apply Hframe.
    + intros Hokt. destruct (Hok Hokt) as (t & _ & Hf & _). rewrite Hf. done.
Qed.
End StoreSpec.

(** ** A small engine and session
    Tokens are bytes that spell themselves; a payload is the token list. *)
#[export] Instance byte_engine : Engine := {|
  engine_quant_bits := 2;
  engine_model_id := 0;
  token_text t := [t];
  tokenize_rendered l := l |}.

#[export] Instance byte_session : Session (list Z) := {|
  session_tokens s := Some s;
  session_ctx _ := 4096;
  stage_payload s := Some (Payload (blen s) (Some s));
  load_payload s fp n :=
    if n <=? blen fp then (ztake n fp, true, zdrop n fp) else (s, false, fp);
  session_invalidate _ := [] |}.

Definition byte_store : kvstore :=
  Kv true (bs "/kv") 100000 true (Options 2 0 0 0 0) 0 [].

Definition byte_saved : files * kvstore * bool :=
  @store_live_prefix_text (plain_os 1000) byte_engine (list Z) byte_session exp2_one two_files
    byte_store (bs "hello") 4096 (Some (bs "hello")) 5 (bs "cold") None 0 None None.

Example store_touches_one_record_witness :
  exists fs' kc', byte_saved = (fs', kc', true) /\ is_Some (fs' !! record_path byte_store (bs "hello")).
Proof.
  assert (Hok : byte_saved.2 = true) by (vm_compute; reflexivity).
  unfold byte_saved in *.
  destruct (store_live_prefix_text _ _ _ _ _ _ _ _ _ _ _ _) as [[fs' kc'] ok] eqn:Hst.
  simpl in Hok. subst ok. exists fs', kc'. split; [reflexivity|].
  destruct (store_touches_one_record _ _ _ _ _ _ _ _ _ _ _ _ _ _ _ Hst) as (_ & H & _).
  exact (H eq_refl).
Defined.

Example commit_atomic_witness :
  exists fs', @commit_checkpoint (plain_os 1000) two_files byte_store (bs "/kv/x") (bs "H")
      (bs "text") (Payload 3 (Some (bs "payload"))) None = (fs', true) /\
    fs' !! bs "/kv/x" = Some (bs "H" ++ [4; 0; 0; 0] ++ bs "text" ++ bs "pay").
Proof.
  destruct (@commit_checkpoint (plain_os 1000) two_files byte_store (bs "/kv/x") (bs "H")
      (bs "text") (Payload 3 (Some (bs "payload"))) None) as [fs' ok] eqn:Hc.
  assert (ok = true) as ->.
  { apply (f_equal snd) in Hc. simpl in Hc. rewrite <-Hc. vm_compute. reflexivity. }
  destruct (commit_atomic _ _ _ _ _ _ _ _ _ Hc) as (_ & H & _).
  destruct (H eq_refl) as (t & Ht & Hf & _). injection Ht as <-.
  exists fs'. split; [reflexivity|]. rewrite Hf. vm_compute. reflexivity.
Defined.
