(* ===== verification/KvRestore.v ===== *)
(** * Restoring checkpoints (ds4_kvstore.c)

    The serial loader and the bank restore, with the checks between the lookup
    and the payload, and what a successful restore is entitled to claim. *)

From S2P Require Import Prelude Bytes Sha1 KvFile KvPolicy KvFs KvEvict KvLookup KvStore.

Definition with_hit (e : entry) (hits last_used : Z) : entry :=
  Entry e.(sha) e.(path) e.(quant_bits) e.(model_id) e.(reason) e.(tokens) hits e.(ctx_size)
    e.(ext_flags) e.(created_at) last_used e.(payload_bytes) e.(text_bytes) e.(file_size).

(** The reopened header, the cached text and the stream at the payload, or the
    reason the record is not used. *)
Inductive fail_reason :=
  INVALID_HEADER | LEGACY_CONTRACT | CHANGED_DURING_LOOKUP | DIFFERENT_MODEL |
  NO_FRONTIER_LOGITS | NOT_STRICT_PREFIX | LONGER_THAN_PROMPT | TRUNCATED_TEXT |
  HASH_MISMATCH | PREFIX_MISMATCH.

Inductive checked :=
| Refused (why : fail_reason)
| Accepted (hdr : entry) (text : list Z) (payload : list Z).

(** The text checks at the end of both validations. *)
Definition check_text (hdr : entry) (text_bytes : Z) (fp : list Z) (sha : list Z)
    (prompt : option (list Z)) : checked :=
  if negb (blen (ztake text_bytes fp) =? text_bytes) then Refused TRUNCATED_TEXT
  else
    let cached_text := ztake text_bytes fp in
    if negb (streq (sha_hex cached_text) sha) then Refused HASH_MISMATCH
    else
      match prompt with
      | Some p => if negb (byte_prefix_match p cached_text) then Refused PREFIX_MISMATCH
                  else Accepted hdr cached_text (zdrop text_bytes fp)
      | None => Accepted hdr cached_text (zdrop text_bytes fp)
      end.

(** The validation inside kv_restore_bank_entry. *)
Definition check_bank_record (c : list Z) (e : entry) (prompt : option (list Z)) : checked :=
  match read_header c with
  | None => Refused INVALID_HEADER
  | Some (hdr, text_bytes, fp) =>
      if negb (is_automatic_exact_replay hdr) then Refused LEGACY_CONTRACT
      else if negb (reopened_header_matches_entry hdr text_bytes e)
      then Refused CHANGED_DURING_LOOKUP
      else if match prompt with Some p => blen p <=? text_bytes | None => false end
      then Refused NOT_STRICT_PREFIX
      else check_text hdr text_bytes fp e.(sha) prompt
  end.

(** The validation inside ds4_kvstore_try_load_text. *)
Definition check_serial_record (c : list Z) (e : entry) (model : Z) (prompt : list Z) : checked :=
  match read_header c with
  | None => Refused INVALID_HEADER
  | Some (hdr, text_bytes, fp) =>
      if negb (is_automatic_exact_replay hdr) then Refused LEGACY_CONTRACT
      else if negb (reopened_header_matches_entry hdr text_bytes e)
      then Refused CHANGED_DURING_LOOKUP
      else if negb (hdr.(model_id) =? u8 model) then Refused DIFFERENT_MODEL
      else if is_bank_replay_v1 hdr && (text_bytes =? blen prompt)
      then Refused NO_FRONTIER_LOGITS
      else if blen prompt <? text_bytes then Refused LONGER_THAN_PROMPT
      else check_text hdr text_bytes fp e.(sha) (Some prompt)
  end.

Section BankRestore.
Context `{Os} `{Engine} {B : Type} `{Bank B}.

Record bank_result := BankResult {
  br_files : files;
  br_store : kvstore;
  br_bank : B;
  br_loaded : Z;
  br_text : option (list Z) }.

(** kv_restore_bank_entry *)
Definition restore_bank_entry (fs : files) (kc : kvstore) (batch : B) (bank idx : Z)
    (e : entry) (prompt : option (list Z)) : bank_result :=
  match read_file fs e.(path) with
  | None => BankResult fs kc batch 0 None
  | Some c =>
      match check_bank_record c e prompt with
      | Refused _ => BankResult fs kc batch 0 None
      | Accepted hdr cached_text payload =>
          let '(batch, ok) := bank_restore batch bank payload hdr.(payload_bytes) in
          if negb ok then BankResult fs kc batch 0 None
          else
            match bank_committed batch bank with
            | Some htok =>
                if u32 (blen htok) =? hdr.(tokens) then
                  let loaded := i32 hdr.(tokens) in
                  if 0 <? loaded then
                    let hits := u32 (e.(hits) + 1) in
                    let es := <[Z.to_nat idx := with_hit e hits time_now]> kc.(entries) in
                    let '(fs, _) := touch fs e.(path) hits in
                    BankResult fs (with_entries kc es) batch loaded (Some cached_text)
                  else BankResult fs kc batch loaded None
                else BankResult (unlink fs e.(path)).1 kc batch 0 None
            | None => BankResult (unlink fs e.(path)).1 kc batch 0 None
            end
      end
  end.

(** ds4_kvstore_try_restore_bank_text *)
Definition try_restore_bank_text (fs : files) (kc : kvstore) (ctx_size : Z) (batch : B)
    (bank : Z) (prompt_text : option (list Z)) : bank_result :=
  match prompt_text with
  | None => BankResult fs kc batch 0 None
  | Some prompt =>
      if negb kc.(enabled) then BankResult fs kc batch 0 None
      else if negb (engine_quant_bits =? 2) && negb (engine_quant_bits =? 4)
      then BankResult fs kc batch 0 None
      else
        let '(kc, idx) :=
          find_bank_text_prefix fs kc (Some prompt) engine_model_id engine_quant_bits ctx_size in
        if idx <? 0 then BankResult fs kc batch 0 None
        else
          match kc.(entries) !! Z.to_nat idx with
          | None => BankResult fs kc batch 0 None
          | Some e => restore_bank_entry fs kc batch bank idx e (Some prompt)
          end
  end.

(** ds4_kvstore_try_restore_bank_entry *)
Definition try_restore_bank_entry (fs : files) (kc : kvstore) (batch : B) (bank idx : Z)
    : bank_result :=
  if negb kc.(enabled) then BankResult fs kc batch 0 None
  else if (idx <? 0) || (blen kc.(entries) <=? idx) then BankResult fs kc batch 0 None
  else
    match kc.(entries) !! Z.to_nat idx with
    | None => BankResult fs kc batch 0 None
    | Some e => restore_bank_entry fs kc batch bank idx e None
    end.
End BankRestore.

Arguments BankResult {B}.
Arguments br_files {B}.
Arguments br_store {B}.
Arguments br_bank {B}.
Arguments br_loaded {B}.
Arguments br_text {B}.

Section SerialLoad.
Context `{Os} `{Engine} {S : Type} `{Session S}.

(** ds4_kvstore_load_result, without the timing. *)
Record load_result := LoadResult {
  lr_tokens : Z;
  lr_text_bytes : Z;
  lr_quant_bits : Z;
  lr_ext_flags : Z;
  lr_path : list Z }.

Record serial_result := SerialResult {
  sr_files : files;
  sr_store : kvstore;
  sr_session : S;
  sr_loaded : Z;
  sr_prompt : list Z;                 (* the effective prompt *)
  sr_result : option load_result;
  sr_trailer : option (list Z) }.     (* the stream handed to the load hook *)

Definition load_refused (fs : files) (kc : kvstore) (session : S) : serial_result :=
  SerialResult fs kc session 0 [] None None.

(** The part of ds4_kvstore_try_load_text after the lookup. *)
Definition load_entry (fs : files) (kc : kvstore) (session : S) (prompt : list Z)
    (load_flag : option Z) (e : entry) : serial_result :=
  match read_file fs e.(path) with
  | None => load_refused fs kc session
  | Some c =>
      match check_serial_record c e engine_model_id prompt with
      | Refused _ => load_refused fs kc session
      | Accepted hdr cached_text payload =>
          let '(session, ok, rest) := load_payload session payload hdr.(payload_bytes) in
          if negb ok then load_refused fs kc (session_invalidate session)
          else
            match session_tokens session with
            | Some loaded_tokens =>
                if blen loaded_tokens =? i32 hdr.(tokens) then
                  let loaded := i32 hdr.(tokens) in
                  let effective :=
                    build_prompt loaded_tokens (Some (zdrop (blen cached_text) prompt)) in
                  let trailer :=
                    match load_flag with
                    | Some f => if has_flag hdr.(ext_flags) f then Some rest else None
                    | None => None
                    end in
                  if 0 <? loaded then
                    let '(fs, _) := touch fs e.(path) (u32 (hdr.(hits) + 1)) in
                    SerialResult fs (with_last_store kc loaded) session loaded effective
                      (Some (LoadResult loaded (blen cached_text) hdr.(quant_bits)
                               hdr.(ext_flags) e.(path))) trailer
                  else SerialResult fs kc session loaded effective None trailer
                else load_refused (unlink fs e.(path)).1 kc (session_invalidate session)
            | None => load_refused (unlink fs e.(path)).1 kc (session_invalidate session)
            end
      end
  end.

(** ds4_kvstore_try_load_text; [load_flag] is the flag of the load hook. *)
Definition try_load_text (fs : files) (kc : kvstore) (session : S)
    (prompt_text : option (list Z)) (load_flag : option Z) : serial_result :=
  match prompt_text with
  | None => load_refused fs kc session
  | Some prompt =>
      if negb kc.(enabled) then load_refused fs kc session
      else if negb (engine_quant_bits =? 2) && negb (engine_quant_bits =? 4)
      then load_refused fs kc session
      else
        let '(kc, idx) :=
          find_text_prefix fs kc (Some prompt) engine_model_id engine_quant_bits
            (session_ctx session) in
        if idx <? 0 then load_refused fs kc session
        else
          match kc.(entries) !! Z.to_nat idx with
          | None => load_refused fs kc session
          | Some e => load_entry fs kc session prompt load_flag e
          end
  end.
End SerialLoad.

(** ** What the checks establish *)

Lemma byte_prefix_match_spec text prefix :
  byte_prefix_match text prefix = true <-> exists suffix, text = prefix ++ suffix.
Proof.
  unfold byte_prefix_match, streq. rewrite andb_true_iff, orb_true_iff, bool_decide_eq_true.
  split.
  - intros [Hl [H0|<-]]; [|exists (zdrop (blen prefix) text); by rewrite ztake_zdrop].
    destruct prefix as [|x prefix]; [by exists text|].
    rewrite blen_cons in H0. pose proof (blen_nonneg prefix). lia.
  - intros [suffix ->]. pose proof (blen_nonneg suffix). rewrite blen_app, ztake_app.
    split; [lia | by right].
Qed.

Lemma check_text_accepted hdr tb fp sha prompt hdr' text payload :
  0 <= tb ->
  check_text hdr tb fp sha prompt = Accepted hdr' text payload ->
  hdr' = hdr /\ fp = text ++ payload /\ blen text = tb /\ sha_hex text = sha /\
  (forall p, prompt = Some p -> exists suffix, p = text ++ suffix).
Proof.
  intros Htb. unfold check_text. destruct (Z.eqb_spec (blen (ztake tb fp)) tb) as [Hl|]; [|done].
  unfold streq. case_bool_decide as Hs; [|done]. cbn [negb].
  destruct prompt as [p|].
  - destruct (byte_prefix_match p (ztake tb fp)) eqn:Hp; [|done]. intros [= <- <- <-].
    split_and!; try done; [by rewrite ztake_zdrop|].
    intros ? [= <-]. by apply byte_prefix_match_spec.
  - intros [= <- <- <-]. split_and!; try done. by rewrite ztake_zdrop.
Qed.

Lemma reopened_matches hdr tb e :
  reopened_header_matches_entry hdr tb e = true ->
  hdr.(model_id) = e.(model_id) /\ hdr.(quant_bits) = e.(quant_bits) /\
  hdr.(ctx_size) = e.(ctx_size) /\ hdr.(tokens) = e.(tokens) /\ tb = e.(text_bytes).
Proof. unfold reopened_header_matches_entry. rewrite !andb_true_iff, !Z.eqb_eq. tauto. Qed.

(** A record that stands behind a restore: on disk, intact, replayable and
    loadable by this engine, its text at the front of the prompt. *)
Record restorable `{Os} (fs : files) (kc : kvstore) (model quant ctx : Z) (prompt : list Z)
    (e hdr : entry) (text payload c : list Z) : Prop := {
  rs_listed : e ∈ (refresh fs kc).(entries);
  rs_file : fs !! e.(path) = Some c;
  rs_header : read_header c = Some (hdr, blen text, text ++ payload);
  rs_digest : sha_hex text = e.(sha);
  rs_prefix : exists suffix, prompt = text ++ suffix;
  rs_replay : is_automatic_exact_replay hdr = true;
  rs_model : hdr.(model_id) = u8 model;
  rs_quant : kc.(reject_different_quant) = true -> hdr.(quant_bits) = u8 quant;
  rs_ctx : hdr.(ctx_size) <= u32 ctx;
  rs_min : kc.(opt).(min_tokens) <= i32 hdr.(tokens) }.

Lemma header_text_nonneg c hdr tb fp :
  bytes_ok c -> read_header c = Some (hdr, tb, fp) -> 0 <= tb.
Proof. intros Hc Hr. destruct (read_header_shape _ _ _ _ Hc Hr) as (_ & _ & _ & Htb & _). flia. Qed.

Lemma candidate_restorable `{Os} fs kc model quant ctx prompt rs e i hdr text payload c :
  (refresh fs kc).(entries) !! i = Some e ->
  candidate (refresh fs kc) (Query prompt model quant ctx 0 0) rs e = true ->
  fs !! e.(path) = Some c -> read_header c = Some (hdr, blen text, text ++ payload) ->
  is_automatic_exact_replay hdr = true -> reopened_header_matches_entry hdr (blen text) e = true ->
  sha_hex text = e.(sha) -> (exists suffix, prompt = text ++ suffix) ->
  restorable fs kc model quant ctx prompt e hdr text payload c.
Proof.
  intros Hi Hc Hf Hr Hrep Hre Hs Hp.
  destruct (reopened_matches _ _ _ Hre) as (Em & Eq & Ec & Et & _).
  unfold candidate, loadable in Hc. simpl in Hc.
  destruct (refresh_fields fs kc) as (_ & _ & _ & Hrej & Hopt & _).
  rewrite Hrej, Hopt in Hc. rewrite !andb_true_iff in Hc.
  destruct Hc as (((((_ & ((Hmin & Hm) & Hx) & Hq) & _) & _) & _) & _).
  split; try done.
  - by apply list_elem_of_lookup_2 in Hi.
  - rewrite Em. by apply Z.eqb_eq.
  - intros Hrj. rewrite Hrj in Hq. rewrite Eq. simpl in Hq.
    destruct (Z.eqb_spec e.(quant_bits) (u8 quant)); done.
  - rewrite Ec. apply negb_true_iff, Z.ltb_ge in Hx. done.
  - rewrite Et. apply negb_true_iff, Z.ltb_ge in Hmin. done.
Qed.

(** Touching changes no byte behind the header, of no other file. *)
Lemma touch_body `{Os} fs p hits fs' b :
  touch fs p hits = (fs', b) ->
  (forall q, q <> p -> fs' !! q = fs !! q) /\
  (forall c, fs !! p = Some c -> exists c', fs' !! p = Some c' /\ zdrop 48 c' = zdrop 48 c).
Proof.
  unfold touch. destruct (read_file fs p) as [c|] eqn:Hrf; cycle 1.
  { simpl. intros [= <- <-]. split; [done|]. intros c Hc. by exists c. }
  assert (fs !! p = Some c) as Hc by (unfold read_file in Hrf; by destruct (may_open p)).
  simpl. destruct (read_header c) as [[[e tb] rest]|] eqn:Hr; intros [= <- <-]; split.
  - intros q Hq. by apply lookup_insert_ne.
  - intros c2 Hc2. rewrite Hc in Hc2. injection Hc2 as <-.
    eexists. split; [apply lookup_insert_eq|].
    match goal with |- context [take ?w ?h ++ drop _ c] => set (n := w); set (hd := h) end.
    assert (length hd = 48%nat) as Hhd by done. clearbody hd n.
    unfold zdrop. change (Z.to_nat 48) with 48%nat.
    destruct (decide (n <= 48)%nat).
    + rewrite drop_app_ge by (rewrite length_take; lia).
      rewrite length_take, drop_drop. f_equal. lia.
    + rewrite (take_ge hd) by lia. rewrite (drop_app_length' hd) by done.
      by rewrite Nat.min_r by lia.
  - intros q Hq. by apply lookup_insert_ne.
  - intros c2 Hc2. rewrite Hc in Hc2. injection Hc2 as <-. exists c.
    split; [apply lookup_insert_eq | done].
Qed.

(** ** Bank restores *)
Section BankSound.
Context `{Os} `{Engine} {B : Type} `{Bank B}.

(** The bank took a payload in, but its history has not the recorded length. *)
Definition wrong_length (b : B) (bank : Z) (hdr : entry) : Prop :=
  forall h, bank_committed b bank = Some h -> u32 (blen h) <> hdr.(tokens).

(** What a restore of one record may do: no other file changes; without a
    positive count there is no text and no file changes either, unless the
    record passed every check and the bank took in a payload of another length;
    with one, the record passed every check and the bank holds its payload. *)
Definition bank_effect (fs : files) (batch : B) (bank : Z) (e : entry) (prompt : option (list Z))
    (r : bank_result) : Prop :=
  (forall q, q <> e.(path) -> r.(br_files) !! q = fs !! q) /\
  (r.(br_loaded) <= 0 -> r.(br_text) = None /\ (r.(br_files) = fs \/
     exists c hdr text payload,
       fs !! e.(path) = Some c /\ check_bank_record c e prompt = Accepted hdr text payload /\
       bank_restore batch bank payload hdr.(payload_bytes) = (r.(br_bank), true) /\
       wrong_length r.(br_bank) bank hdr /\ r.(br_files) = (unlink fs e.(path)).1)) /\
  (0 < r.(br_loaded) -> exists c hdr text payload h,
     fs !! e.(path) = Some c /\ check_bank_record c e prompt = Accepted hdr text payload /\
     bank_restore batch bank payload hdr.(payload_bytes) = (r.(br_bank), true) /\
     bank_committed r.(br_bank) bank = Some h /\ u32 (blen h) = hdr.(tokens) /\
     r.(br_loaded) = i32 hdr.(tokens) /\ r.(br_text) = Some text /\
     exists c', r.(br_files) !! e.(path) = Some c' /\ zdrop 48 c' = zdrop 48 c).

Lemma effect_kept fs kc (batch batch' : B) bank e prompt l :
  l <= 0 -> bank_effect fs batch bank e prompt (BankResult fs kc batch' l None).
Proof. intros Hl. split; [done|]. simpl. split; [|lia]. intros _. split; [done | by left]. Qed.

Lemma effect_unlinked fs kc (batch batch' : B) bank e prompt c hdr text payload :
  fs !! e.(path) = Some c -> check_bank_record c e prompt = Accepted hdr text payload ->
  bank_restore batch bank payload hdr.(payload_bytes) = (batch', true) -> wrong_length batch' bank hdr ->
  bank_effect fs batch bank e prompt (BankResult (unlink fs e.(path)).1 kc batch' 0 None).
Proof.
  intros Hc Hchk Hres Hw. split; simpl; [|split; [|lia]].
  - intros q Hq. unfold unlink. destruct (fs !! e.(path)), (may_unlink e.(path)); simpl; try done.
    by apply lookup_delete_ne.
  - intros _. split; [done|]. right. by exists c, hdr, text, payload.
Qed.

Lemma restore_bank_entry_effect fs kc (batch : B) bank idx e prompt :
  bank_effect fs batch bank e prompt (restore_bank_entry fs kc batch bank idx e prompt).
Proof.
  unfold restore_bank_entry.
  destruct (read_file fs e.(path)) as [c|] eqn:Hrf; [|by apply effect_kept].
  assert (fs !! e.(path) = Some c) as Hc by (unfold read_file in Hrf; by destruct (may_open _)).
  destruct (check_bank_record c e prompt) as [why|hdr text payload] eqn:Hchk;
    [by apply effect_kept|].
  destruct (bank_restore batch bank payload hdr.(payload_bytes)) as [batch' ok] eqn:Hres.
  destruct ok; simpl; [|by apply effect_kept].
  destruct (bank_committed batch' bank) as [h|] eqn:Hh;
    [|eapply effect_unlinked; [done..|]; intros h; by rewrite Hh].
  destruct (Z.eqb_spec (u32 (blen h)) hdr.(tokens)) as [Ht|];
    [|eapply effect_unlinked; [done..|]; intros h'; rewrite Hh; by intros [= <-]].
  destruct (Z.ltb_spec 0 (i32 hdr.(tokens))); [|apply effect_kept; lia].
  destruct (touch fs e.(path) _) as [fs' b] eqn:Htch.
  destruct (touch_body _ _ _ _ _ Htch) as [Hframe Hbody].
  split; [done|]. simpl. split; [lia|]. intros _. exists c, hdr, text, payload, h.
  destruct (Hbody c Hc) as (c' & Hc' & Hd). split_and!; try done. by exists c'.
Qed.

Lemma check_bank_accepted c e prompt hdr text payload :
  bytes_ok c -> check_bank_record c e prompt = Accepted hdr text payload ->
  read_header c = Some (hdr, blen text, text ++ payload) /\
  is_automatic_exact_replay hdr = true /\
  reopened_header_matches_entry hdr (blen text) e = true /\ sha_hex text = e.(sha) /\
  (forall p, prompt = Some p -> exists suffix, p = text ++ suffix /\ suffix <> []).
Proof.
  intros Hc. unfold check_bank_record.
  destruct (read_header c) as [[[hdr0 tb] fp]|] eqn:Hr; [|done].
  pose proof (header_text_nonneg _ _ _ _ Hc Hr) as Htb.
  destruct (is_automatic_exact_replay hdr0) eqn:Hrep; [|done].
  destruct (reopened_header_matches_entry hdr0 tb e) eqn:Hre; [|done]. cbn [negb].
  destruct (match prompt with Some p => blen p <=? tb | None => false end) eqn:Hst; [done|].
  intros Ha. destruct (check_text_accepted _ _ _ _ _ _ _ _ Htb Ha) as (-> & -> & <- & Hs & Hp).
  split_and!; try done. intros p ->. destruct (Hp p eq_refl) as [suffix ->].
  exists suffix. split; [done|]. intros ->. rewrite app_nil_r in Hst. lia.
Qed.

(** C3: a bank is only ever warmed with a genuine prefix of the prompt.  When
    the automatic restore reports tokens, it used a listed record that is
    intact, replayable and loadable here, whose text (returned to the caller)
    is a strict prefix of the prompt, byte for byte, and whose payload the bank
    took in, its committed history having the recorded length; the record keeps
    its text and payload and no other file changes.  When it reports none, no
    text is returned and every file is as before, with one exception: a record
    that passed all these checks and whose payload the bank took in, but that
    left the bank without a history of the recorded length, is unlinked. *)
Theorem bank_restore_sound fs kc ctx (batch : B) bank prompt :
  files_ok fs ->
  let r := try_restore_bank_text fs kc ctx batch bank (Some prompt) in
  (r.(br_loaded) <= 0 -> r.(br_text) = None /\ (r.(br_files) = fs \/
     exists e hdr text payload c,
       restorable fs kc engine_model_id engine_quant_bits ctx prompt e hdr text payload c /\
       blen text < blen prompt /\
       bank_restore batch bank payload hdr.(payload_bytes) = (r.(br_bank), true) /\
       (forall h, bank_committed r.(br_bank) bank = Some h -> u32 (blen h) <> hdr.(tokens)) /\
       r.(br_files) = (unlink fs e.(path)).1)) /\
  (0 < r.(br_loaded) -> exists e hdr text payload c h,
     restorable fs kc engine_model_id engine_quant_bits ctx prompt e hdr text payload c /\
     r.(br_text) = Some text /\ blen text < blen prompt /\
     bank_restore batch bank payload hdr.(payload_bytes) = (r.(br_bank), true) /\
     bank_committed r.(br_bank) bank = Some h /\ u32 (blen h) = hdr.(tokens) /\
     r.(br_loaded) = i32 hdr.(tokens) /\
     (forall q, q <> e.(path) -> r.(br_files) !! q = fs !! q) /\
     exists c', r.(br_files) !! e.(path) = Some c' /\ zdrop 48 c' = zdrop 48 c).
Proof.
  intros Hbytes r. subst r. unfold try_restore_bank_text.
  assert (forall kc', 0 < br_loaded (BankResult fs kc' batch 0 None) -> False) as Hno
    by (simpl; lia).
  destruct kc.(enabled); simpl negb; [|split; [split; [done|by left] | by intros ?%(Hno kc)]].
  destruct (negb _ && negb _); [split; [split; [done|by left] | by intros ?%(Hno kc)]|].
  unfold find_bank_text_prefix, query_of. simpl mbind.
  destruct (find_prefix_longest_holds fs kc (Query prompt engine_model_id engine_quant_bits ctx 0 0) true)
    as (best & Hbest & ->).
  destruct best as [[i b]|]; [|split; [split; [done|by left] | by intros ?%(Hno kc)]].
  destruct Hbest as (Hi & Hlook & Hcand & _). destruct (Z.ltb_spec i 0); [lia|].
  rewrite Hlook.
  assert (forall c hdr text payload, fs !! b.(path) = Some c ->
    check_bank_record c b (Some prompt) = Accepted hdr text payload ->
    restorable fs kc engine_model_id engine_quant_bits ctx prompt b hdr text payload c /\
    blen text < blen prompt) as Hrec.
  { intros c hdr text payload Hc Hchk.
    destruct (check_bank_accepted _ _ _ _ _ _ (Hbytes _ _ Hc) Hchk)
      as (Hr & Hrep & Hre & Hs & Hp). destruct (Hp prompt eq_refl) as (suffix & Hsuf & Hne).
    split; [eapply candidate_restorable; try done; by exists suffix|].
    rewrite Hsuf, blen_app. destruct suffix as [|x suffix]; [done|].
    rewrite blen_cons. pose proof (blen_nonneg suffix). lia. }
  destruct (restore_bank_entry_effect fs (refresh fs kc) batch bank i b (Some prompt))
    as (Hframe & Hnone & Hsome).
  split.
  - intros Hl. destruct (Hnone Hl) as [Ht Hk]. split; [done|].
    destruct Hk as [?|(c & hdr & text & payload & Hc & Hchk & H3 & H4 & H5)]; [by left|right].
    exists b, hdr, text, payload, c. by destruct (Hrec _ _ _ _ Hc Hchk).
  - intros Hl. destruct (Hsome Hl) as (c & hdr & text & payload & h & Hc & Hchk & H3 & H4 & H5 & H6 & H7 & H8).
    exists b, hdr, text, payload, c, h. destruct (Hrec _ _ _ _ Hc Hchk). by split_and!.
Qed.
End BankSound.

(** ** Serial loads *)
Section SerialSound.
Context `{Os} `{Engine} {S : Type} `{Session S}.

Lemma check_serial_accepted c e model prompt hdr text payload :
  bytes_ok c -> check_serial_record c e model prompt = Accepted hdr text payload ->
  read_header c = Some (hdr, blen text, text ++ payload) /\
  is_automatic_exact_replay hdr = true /\
  reopened_header_matches_entry hdr (blen text) e = true /\ sha_hex text = e.(sha) /\
  exists suffix, prompt = text ++ suffix /\ (is_bank_replay_v1 hdr = true -> suffix <> []).
Proof.
  intros Hc. unfold check_serial_record.
  destruct (read_header c) as [[[hdr0 tb] fp]|] eqn:Hr; [|done].
  pose proof (header_text_nonneg _ _ _ _ Hc Hr) as Htb.
  destruct (is_automatic_exact_replay hdr0) eqn:Hrep; [|done].
  destruct (reopened_header_matches_entry hdr0 tb e) eqn:Hre; [|done].
  destruct (hdr0.(model_id) =? u8 model); [|done]. cbn [negb].
  destruct (is_bank_replay_v1 hdr0 && (tb =? blen prompt)) eqn:Hb; [done|].
  destruct (Z.ltb_spec (blen prompt) tb); [done|].
  intros Ha. destruct (check_text_accepted _ _ _ _ _ _ _ _ Htb Ha) as (-> & -> & <- & Hs & Hp).
  split_and!; try done. destruct (Hp prompt eq_refl) as [suffix ->].
  exists suffix. split; [done|]. intros Hbr ->. rewrite Hbr, app_nil_r in Hb. simpl in Hb. lia.
Qed.

(** What becomes of a record that is not loaded: it was not touched; or its
    checks passed and the engine refused the payload; or the engine took it and
    holds another number of tokens, and only then the record is removed. *)
Definition load_failed (fs : files) (session : S) (e : entry) (r : serial_result)
    (check : list Z -> entry -> list Z -> list Z -> Prop) : Prop :=
  r.(sr_session) = session /\ r.(sr_files) = fs \/
  exists c hdr text payload s ok rest,
    fs !! e.(path) = Some c /\ check c hdr text payload /\
    load_payload session payload hdr.(payload_bytes) = (s, ok, rest) /\
    r.(sr_session) = session_invalidate s /\
    if ok then (forall toks, session_tokens s = Some toks -> blen toks <> i32 hdr.(tokens)) /\
               r.(sr_files) = (unlink fs e.(path)).1
    else r.(sr_files) = fs.

(** What loading one record may do to the session and the directory. *)
Definition load_effect (fs : files) (session : S) (prompt : list Z) (flag : option Z) (e : entry)
    (r : serial_result) : Prop :=
  0 <= r.(sr_loaded) /\
  (forall q, q <> e.(path) -> r.(sr_files) !! q = fs !! q) /\
  (r.(sr_loaded) = 0 -> r.(sr_prompt) = [] /\ r.(sr_result) = None /\ r.(sr_trailer) = None /\
     load_failed fs session e r (fun c hdr text payload =>
       check_serial_record c e engine_model_id prompt = Accepted hdr text payload)) /\
  (0 < r.(sr_loaded) -> exists c hdr text payload rest toks,
     fs !! e.(path) = Some c /\ check_serial_record c e engine_model_id prompt = Accepted hdr text payload /\
     load_payload session payload hdr.(payload_bytes) = (r.(sr_session), true, rest) /\
     session_tokens r.(sr_session) = Some toks /\ blen toks = r.(sr_loaded) /\
     r.(sr_loaded) = i32 hdr.(tokens) /\
     r.(sr_prompt) = toks ++ tokenize_rendered (zdrop (blen text) prompt) /\
     r.(sr_store).(continued_last_store_tokens) = r.(sr_loaded) /\
     (forall t, r.(sr_trailer) = Some t -> t = rest) /\
     exists c', r.(sr_files) !! e.(path) = Some c' /\ zdrop 48 c' = zdrop 48 c).

Lemma refused_effect fs kc session prompt flag e :
  load_effect fs session prompt flag e (load_refused fs kc session).
Proof. split; [done|]. split; [done|]. simpl. split; [|lia]. intros _. split_and!; try done. by left. Qed.

Lemma failed_effect fs fs' kc session prompt flag e c hdr text payload s ok rest :
  fs !! e.(path) = Some c -> check_serial_record c e engine_model_id prompt = Accepted hdr text payload ->
  load_payload session payload hdr.(payload_bytes) = (s, ok, rest) ->
  (if ok then (forall toks, session_tokens s = Some toks -> blen toks <> i32 hdr.(tokens)) /\
              fs' = (unlink fs e.(path)).1 else fs' = fs) ->
  load_effect fs session prompt flag e (load_refused fs' kc (session_invalidate s)).
Proof.
  intros Hc Hchk Hld Hok. split; [done|]. split; [|split; simpl; [|lia]].
  - intros q Hq. simpl. destruct ok; [destruct Hok as [_ ->]|by rewrite Hok]. unfold unlink.
    destruct (fs !! e.(path)), (may_unlink e.(path)); try done. by apply lookup_delete_ne.
  - intros _. split_and!; try done. right. by exists c, hdr, text, payload, s, ok, rest.
Qed.

Lemma load_entry_effect fs kc session prompt flag e :
  files_ok fs ->
  load_effect fs session prompt flag e (load_entry fs kc session prompt flag e).
Proof.
  intros Hbytes. unfold load_entry.
  destruct (read_file fs e.(path)) as [c|] eqn:Hrf; [|by apply refused_effect].
  assert (fs !! e.(path) = Some c) as Hc by (unfold read_file in Hrf; by destruct (may_open _)).
  destruct (check_serial_record c e engine_model_id prompt) as [why|hdr text payload] eqn:Hchk;
    [by apply refused_effect|].
  destruct (load_payload session payload hdr.(payload_bytes)) as [[session' ok] rest] eqn:Hld.
  destruct ok; simpl; [|by eapply failed_effect].
  destruct (session_tokens session') as [toks|] eqn:Htoks;
    [|eapply failed_effect; [done..|]; split; [intros toks; by rewrite Htoks|done]].
  destruct (Z.eqb_spec (blen toks) (i32 hdr.(tokens))) as [Ht|];
    [|eapply failed_effect; [done..|]; split; [intros toks'; rewrite Htoks; by intros [= <-]|done]].
  destruct (check_serial_accepted _ _ _ _ _ _ _ (Hbytes _ _ Hc) Hchk) as (Hr & _).
  destruct (header_canonical _ _ _ _ (Hbytes _ _ Hc) Hr) as (_ & _ & _ & Htok & _).
  destruct (Z.ltb_spec 0 (i32 hdr.(tokens))) as [Hpos|Hpos]; cycle 1.
  { (* a 32-bit count is never zero, and a token list has no negative length *)
    pose proof (blen_nonneg toks). exfalso. unfold i32 in *.
    destruct (Z_lt_le_dec hdr.(tokens) (2 ^ 31)).
    - rewrite Z.mod_small in * by lia. lia.
    - replace (hdr.(tokens) + 2 ^ 31) with (hdr.(tokens) - 2 ^ 31 + 1 * 2 ^ 32) in * by lia.
      rewrite Z_mod_plus_full, Z.mod_small in * by lia. lia. }
  destruct (touch fs e.(path) _) as [fs' b] eqn:Htch.
  destruct (touch_body _ _ _ _ _ Htch) as [Hframe Hbody].
  split; [simpl; lia|]. split; [done|]. simpl. split; [lia|]. intros _.
  exists c, hdr, text, payload, rest, toks.
  destruct (Hbody c Hc) as (c' & Hc' & Hd). split_and!; try done.
  - intros t. destruct flag as [f|]; [|done]. destruct (has_flag _ _); [|done]. by intros [= <-].
  - by exists c'.
Qed.

(** C4: the serial loader resumes a prompt only from its own bytes.  When it
    reports tokens, the record it used is listed, intact, replayable, of this
    model and loadable; its text is a byte prefix of the prompt, strict when the
    record is a bank payload without frontier logits; the session holds exactly
    the recorded number of tokens, and the effective prompt is those tokens
    followed by the tokens of exactly the remaining text; the continued-store
    mark moves to the loaded length; only the record's header changes on disk.
    When it reports none, either nothing has changed, neither the session nor any
    file; or a record that passed all these checks was handed to the engine, which
    refused the payload (the session is invalidated, no file changes) or took it
    and then holds another number of tokens than recorded (the session is
    invalidated and the record unlinked). *)
Theorem serial_load_sound fs kc session prompt flag :
  files_ok fs ->
  let r := try_load_text fs kc session (Some prompt) flag in
  0 <= r.(sr_loaded) /\
  (r.(sr_loaded) = 0 -> r.(sr_prompt) = [] /\ r.(sr_result) = None /\
     exists e, load_failed fs session e r (fun c hdr text payload =>
       restorable fs kc engine_model_id engine_quant_bits (session_ctx session) prompt
         e hdr text payload c /\
       (is_bank_replay_v1 hdr = true -> blen text < blen prompt))) /\
  (0 < r.(sr_loaded) -> exists e hdr text payload c suffix toks rest,
     restorable fs kc engine_model_id engine_quant_bits (session_ctx session) prompt
       e hdr text payload c /\
     prompt = text ++ suffix /\ (is_bank_replay_v1 hdr = true -> suffix <> []) /\
     load_payload session payload hdr.(payload_bytes) = (r.(sr_session), true, rest) /\
     session_tokens r.(sr_session) = Some toks /\ blen toks = r.(sr_loaded) /\
     r.(sr_loaded) = i32 hdr.(tokens) /\
     r.(sr_prompt) = toks ++ tokenize_rendered suffix /\
     r.(sr_store).(continued_last_store_tokens) = r.(sr_loaded) /\
     (forall q, q <> e.(path) -> r.(sr_files) !! q = fs !! q) /\
     exists c', r.(sr_files) !! e.(path) = Some c' /\ zdrop 48 c' = zdrop 48 c).
Proof.
  intros Hbytes r. subst r. unfold try_load_text.
  assert (forall kc' P, let r := load_refused fs kc' session in
    0 <= r.(sr_loaded) /\
    (r.(sr_loaded) = 0 -> r.(sr_prompt) = [] /\ r.(sr_result) = None /\
       exists e, load_failed fs session e r (P e)) /\
    (0 < r.(sr_loaded) -> False)) as Hno.
  { intros kc' P. simpl. split; [lia|]. split; [|lia]. intros _. split_and!; try done.
    exists (Entry [] [] 0 0 0 0 0 0 0 0 0 0 0 0). by left. }
  assert (forall kc' P, (0 < (load_refused fs kc' session).(sr_loaded) -> P)) as Hvac
    by (intros kc' P Hl; simpl in Hl; lia).
  destruct kc.(enabled); simpl negb;
    [|split; [done|split; [apply (Hno kc)|apply Hvac]]].
  destruct (negb _ && negb _);
    [split; [done|split; [apply (Hno kc)|apply Hvac]]|].
  unfold find_text_prefix, query_of. simpl mbind.
  destruct (find_prefix_longest_holds fs kc
    (Query prompt engine_model_id engine_quant_bits (session_ctx session) 0 0) false)
    as (best & Hbest & ->).
  destruct best as [[i b]|]; [|split; [done|split; [apply (Hno (refresh fs kc))|apply Hvac]]].
  destruct Hbest as (Hi & Hlook & Hcand & _). destruct (Z.ltb_spec i 0); [lia|]. rewrite Hlook.
  assert (forall c hdr text payload, fs !! b.(path) = Some c ->
    check_serial_record c b engine_model_id prompt = Accepted hdr text payload ->
    restorable fs kc engine_model_id engine_quant_bits (session_ctx session) prompt b hdr text payload c /\
    exists suffix, prompt = text ++ suffix /\ (is_bank_replay_v1 hdr = true -> suffix <> [])) as Hrec.
  { intros c hdr text payload Hc Hchk.
    destruct (check_serial_accepted _ _ _ _ _ _ _ (Hbytes _ _ Hc) Hchk)
      as (Hr & Hrep & Hre & Hs & suffix & Hsuf & Hne).
    split; [eapply candidate_restorable; try done; by exists suffix|by exists suffix]. }
  destruct (load_entry_effect fs (refresh fs kc) session prompt flag b Hbytes)
    as (Hnn & Hframe & Hnone & Hsome).
  set (r := load_entry _ _ _ _ _ _) in *. split; [done|]. split.
  - intros Hl. destruct (Hnone Hl) as (Hp & Hr & _ & Hf). split; [done|]. split; [done|].
    exists b. destruct Hf as [?|(c & hdr & text & payload & s & ok & rest & Hc & Hchk & Hrest)]; [by left|right].
    destruct (Hrec _ _ _ _ Hc Hchk) as (Hres & suffix & Hsuf & Hne).
    exists c, hdr, text, payload, s, ok, rest. split; [done|]. split; [|done]. split; [done|].
    intros Hb. specialize (Hne Hb). rewrite Hsuf, blen_app. destruct suffix as [|x suffix]; [done|].
    rewrite blen_cons. pose proof (blen_nonneg suffix). lia.
  - intros Hl. destruct (Hsome Hl) as (c & hdr & text & payload & rest & toks & Hc & Hchk & H3 & H4
      & H5 & H6 & H7 & H8 & _ & H10).
    destruct (Hrec _ _ _ _ Hc Hchk) as (Hres & suffix & Hsuf & Hne).
    exists b, hdr, text, payload, c, suffix, toks, rest. split; [done|].
    split_and!; try done. rewrite H7, Hsuf. by rewrite zdrop_app.
Qed.
End SerialSound.

(** ** Runs *)

Definition byte_files : files := byte_saved.1.1.

Lemma byte_files_ok : files_ok byte_files.
Proof. apply files_okb_ok. vm_compute. reflexivity. Qed.

Example serial_load_sound_witness :
  exists toks rest,
    (@try_load_text (plain_os 2000) byte_engine (list Z) byte_session byte_files byte_store []
       (Some (bs "hello world")) None).(sr_prompt) = toks ++ rest /\
    toks ++ rest = bs "hello world".
Proof.
  destruct (@serial_load_sound (plain_os 2000) byte_engine (list Z) byte_session byte_files
    byte_store [] (bs "hello world") None byte_files_ok) as (_ & _ & H).
  destruct H as (e & hdr & text & payload & c & suffix & toks & rest & _ & _ & _ & _ & _ & _ & _ &
    Hp & _); [vm_compute; reflexivity|].
  exists toks, (tokenize_rendered suffix). split; [exact Hp|].
  rewrite <-Hp. vm_compute. reflexivity.
Defined.

#[export] Instance byte_bank : Bank (list Z) := {|
  bank_restore b bank fp n := if n <=? blen fp then (ztake n fp, true) else (b, false);
  bank_committed b bank := Some b |}.

Example bank_restore_sound_witness :
  exists text,
    (@try_restore_bank_text (plain_os 2000) byte_engine (list Z) byte_bank byte_files byte_store
       4096 [] 0 (Some (bs "hello world"))).(br_text) = Some text /\
    blen text < blen (bs "hello world").
Proof.
  destruct (@bank_restore_sound (plain_os 2000) byte_engine (list Z) byte_bank byte_files
    byte_store 4096 [] 0 (bs "hello world") byte_files_ok) as (_ & H).
  destruct H as (e & hdr & text & payload & c & h & _ & Ht & Hl & _); [vm_compute; reflexivity|].
  exists text. split; [exact Ht | exact Hl].
Defined.
