(* ===== verification/KvRoundtrip.v ===== *)
(** * A stored checkpoint is found again

    The round trip through the directory: what ds4_kvstore_store_live_prefix_text
    commits is listed by the next scan and answers the lookup of every prompt
    that continues its text. *)

From S2P Require Import Prelude Bytes Sha1 KvFile KvPolicy KvFs KvEvict KvLookup KvStore KvRestore.

Section Roundtrip.
Context `{Os} `{!OsLaws} `{Engine} {S : Type} `{Session S}.
Context (exp2 : SpecFloat.spec_float -> SpecFloat.spec_float).

(** The extension flags a store writes. *)
Definition stored_flags (hk : option hooks) (text : list Z) (override : option (list Z)) (ext : Z)
    : Z :=
  match trailer_serialized_size hk text with
  | Some est =>
      Z.lor (match hk with Some h => if 0 <? est then h.(ext_flag) else 0 | None => 0 end)
            (match override with Some (_ :: _) => ext | _ => 0 end)
  | None => 0
  end.

(** Inputs within the ranges of their C types, and a file the system can hold. *)
Record store_sane (text : list Z) (stored : list Z) (flags : Z) (hk : option hooks)
    (staged : payload_file) : Prop := {
  ss_text : bytes_ok text;
  ss_stored : 0 < blen stored < 2 ^ 31;
  ss_flags : fits 8 flags;
  ss_time : fits 64 time_now;
  ss_payload : fits 64 staged.(pf_bytes);
  ss_file : forall p, staged.(pf_file) = Some p -> bytes_ok p;
  ss_trailer : forall t, trailer_write hk text = Some t -> bytes_ok t /\
    52 + blen text + staged.(pf_bytes) + blen t <= INT64_MAX }.

Lemma reason_code_range r : 0 <= reason_code r <= REASON_BANK_CHECKPOINT.
Proof. unfold reason_code, REASON_BANK_CHECKPOINT. cases. Qed.

(** The entry a complete checkpoint file decodes to. *)
Lemma checkpoint_file_entry model quant reason flags ntok ctx text staged t p s pth :
  header_ok model quant reason flags ntok 0 ctx time_now time_now staged.(pf_bytes) ->
  bytes_ok text -> bytes_ok p -> bytes_ok t -> staged.(pf_file) = Some p ->
  staged.(pf_bytes) <= blen p -> ntok <> 0 -> quant = 2 \/ quant = 4 ->
  0 <= reason <= REASON_BANK_CHECKPOINT ->
  blen text <= UINT32_MAX -> 52 + blen text + staged.(pf_bytes) + blen t <= INT64_MAX ->
  read_entry_file (Some (checkpoint_file
      (fill_header model quant reason flags ntok 0 ctx time_now time_now staged.(pf_bytes))
      text staged t)) pth s =
  Some (Entry s pth quant model reason ntok 0 ctx flags time_now time_now staged.(pf_bytes)
          (blen text) (52 + blen text + staged.(pf_bytes) + blen t)).
Proof.
  intros Hok Htext Hp Ht Hpf Hpl Hn Hq Hrs Htl Hsz. unfold checkpoint_file. rewrite Hpf. simpl default.
  pose proof (blen_nonneg text). pose proof (blen_nonneg t).
  assert (fits 32 (blen text)) as Hft by flia. rewrite (wrap_id 32) by done.
  assert (0 <= staged.(pf_bytes)) as Hpb by (destruct Hok as (_&_&_&_&_&_&_&_&_&?); flia).
  set (c := fill_header _ _ _ _ _ _ _ _ _ _ ++ _).
  assert (blen c = 52 + blen text + staged.(pf_bytes) + blen t) as Hlen.
  { unfold c. rewrite !blen_app, (blen_ztake staged.(pf_bytes)) by lia.
    change (blen (fill_header _ _ _ _ _ _ _ _ _ _)) with 48. change (blen (Le.put32 _)) with 4. lia. }
  assert (bytes_ok c) as Hc.
  { unfold c. apply Forall_app_2; [by apply fill_header_bytes|].
    apply Forall_app_2; [apply Le.put32_bytes|]. apply Forall_app_2; [done|].
    apply Forall_app_2; [by apply Forall_take | done]. }
  apply read_entry_complete; [done|lia|].
  eexists _, (blen text), _. split; [apply header_roundtrip; [done|done|done|done]|].
  simpl. split; [|rewrite Hlen; lia]. unfold named. simpl. rewrite Hlen.
  unfold clamp_reason. destruct (Z.leb_spec reason REASON_BANK_CHECKPOINT); [done|lia].
Qed.

Lemma sha_hex_length text : length (sha_hex text) = 40%nat.
Proof. unfold sha_hex. rewrite Sha1.sha1_bytes_hex_eq by done. apply Sha1.sha1_hex_ok. Qed.

Lemma sha_hex_named text : Name.sha_hex_name (sha_hex text ++ bs ".kv") = Some (sha_hex text).
Proof.
  apply Name.sha_hex_name_ok. unfold sha_hex. rewrite Sha1.sha1_bytes_hex_eq by done.
  apply Sha1.sha1_hex_ok.
Qed.

Lemma record_path_join kc text :
  record_path kc text = Name.path_join kc.(dir) (sha_hex text ++ bs ".kv").
Proof.
  unfold record_path, Name.path_for_sha. rewrite ztake_ge; [done|].
  unfold blen. rewrite sha_hex_length. done.
Qed.

(** An entry keyed by a text is a candidate for every continuation of it. *)
Lemma candidate_of_text kc text suffix model quant ctx rs e :
  e.(text_bytes) = blen text -> e.(sha) = sha_hex text -> blen text <= UINT32_MAX ->
  is_automatic_exact_replay e = true -> suffix <> [] ->
  loadable kc (Query (text ++ suffix) model quant ctx 0 0) e = true ->
  candidate kc (Query (text ++ suffix) model quant ctx 0 0) rs e = true.
Proof.
  intros Ht Hs Hl Hr Hsuf Hld. unfold candidate, replayable. rewrite Hr, Hld, Hs, Ht. simpl.
  assert (0 < blen suffix) as Hpos.
  { destruct suffix as [|x sfx]; [done|]. rewrite blen_cons. pose proof (blen_nonneg sfx). lia. }
  rewrite blen_app, ztake_app, !Z.land_0_r. unfold streq. rewrite bool_decide_true by done. simpl.
  destruct (Z.eqb_spec (blen text) (blen text + blen suffix)); [lia|]. rewrite andb_false_r. simpl.
  lia.
Qed.

(** C1: what is stored is found.  After a successful store of a text that had
    no record yet - under a replayable reason, of at least the minimum of tokens,
    its lengths and its payload within the fields of the format - the lookup of
    any prompt that goes on behind that text (same model, quantisation and
    context), in a directory and a file that can be read, answers with an entry
    that covers at least the stored text. *)
Theorem stored_then_found fs kc session ctx tokens n reason override ext hk staged_in fs' kc'
    names suffix rs :
  store_live_prefix_text exp2 fs kc session ctx (Some tokens) n reason override ext hk staged_in
    = (fs', kc', true) ->
  let text := stored_text tokens n override in
  let path := record_path kc text in
  let flags := stored_flags hk text override ext in
  fs !! path = None -> may_open path = true -> readdir fs' kc.(dir) = Some names ->
  (forall staged, staged_in = Some staged \/ staged_in = None /\ stage_payload session = Some staged ->
     store_sane text (ztake n tokens) flags hk staged) ->
  kc.(opt).(min_tokens) <= blen (ztake n tokens) ->
  is_automatic_exact_replay (expected_entry (reason_code (Some reason)) flags) = true ->
  suffix <> [] ->
  exists i e,
    kv_find_text_prefix fs' kc' (Some (Query (text ++ suffix) engine_model_id engine_quant_bits
      ctx 0 0)) rs = (refresh fs' kc', i) /\
    0 <= i /\ (refresh fs' kc').(entries) !! Z.to_nat i = Some e /\ blen text <= e.(text_bytes).
Proof.
  intros Hst text path flags Hnone Hopen Hrd Hsane Hmin Hrep Hsuf.
  destruct (store_outcome exp2 _ _ _ _ _ _ _ _ _ _ _ _ _ _ Hst)
    as [(_ & _ & [=])|(fs1 & existing & flags' & est & Hex & Hest & Hfl & Htl & Hen & _ & Hq & Hrest)].
  fold text path in Hex, Hrest, Hfl, Htl, Hest.
  assert (flags' = flags) as -> by (unfold flags, stored_flags; by rewrite Hest).
  unfold existing_compatible in Hex. rewrite Hnone in Hex. injection Hex as <- <-.
  destruct Hrest as [(? & _)|(_ & [(_ & _ & ?)|(staged & file & live & inc & fs2 & Hev & Hcm & Hsg)])];
    [done|done|].
  destruct (Hsane staged Hsg) as [Htext Hstored Hflags Htime Hpb Hpf Htr].
  destruct (commit_atomic_holds _ _ _ _ _ _ _ _ _ Hcm) as (_ & Hok & _).
  destruct (Hok eq_refl) as (t & Ht & Hfile & _ & (p & Hp & Hpl) & _).
  destruct (Htr t Ht) as [Htb Hsz].
  pose proof (evict_fields exp2 fs kc live file inc) as (E1 & E2 & _ & _ & E5).
  rewrite Hev in E1, E2, E5. simpl in E1, E2, E5.
  assert (fits 32 (blen (ztake n tokens))) as Hf32 by flia.
  rewrite (wrap_id 32 (blen (ztake n tokens))) in Hfile by done.
  pose proof (reason_code_range (Some reason)) as Hrs.
  assert (header_ok (u8 engine_model_id) (u8 engine_quant_bits) (reason_code (Some reason)) flags
    (blen (ztake n tokens)) 0 (u32 ctx) time_now time_now staged.(pf_bytes)) as Hhok.
  { unfold header_ok, REASON_BANK_CHECKPOINT in *.
    split; [apply wrap_fits; lia|]. split; [apply wrap_fits; lia|]. split; [flia|].
    split; [done|]. split; [done|]. split; [flia|]. split; [apply wrap_fits; lia|]. done. }
  assert (u8 engine_quant_bits = 2 \/ u8 engine_quant_bits = 4) as Hq2
    by (destruct Hq as [-> | ->]; [by left | by right]).
  pose proof (checkpoint_file_entry _ _ _ _ _ _ text staged t p (sha_hex text) path Hhok Htext
    (Hpf p Hp) Htb Hp Hpl ltac:(lia) Hq2 Hrs Htl Hsz) as Hent.
  set (e := Entry _ path _ _ _ _ _ _ _ _ _ _ _ _) in Hent.
  assert (scan_name fs' kc'.(dir) (sha_hex text ++ bs ".kv") = Some e) as Hscan.
  { unfold scan_name. rewrite sha_hex_named. unfold mbind, option_bind. cbv beta iota zeta.
    rewrite E2, <-(record_path_join kc text).
    fold path. unfold read_file. rewrite Hopen, Hfile. exact Hent. }
  assert (readdir fs' kc'.(dir) = Some names) as Hrd' by by rewrite E2.
  pose proof (refresh_complete fs' kc' _ e names (eq_trans E1 Hen) Hrd' Hscan) as Hin.
  destruct (find_prefix_longest_holds fs' kc'
    (Query (text ++ suffix) engine_model_id engine_quant_bits ctx 0 0) rs) as (best & Hbest & Hfind).
  assert (candidate (refresh fs' kc')
    (Query (text ++ suffix) engine_model_id engine_quant_bits ctx 0 0) rs e = true) as Hcand.
  { destruct (refresh_fields fs' kc') as (_ & _ & _ & _ & Ho & _).
    apply candidate_of_text; try done. unfold loadable. rewrite Ho, E5. simpl.
    rewrite !Z.eqb_refl, Z.ltb_irrefl, andb_false_r.
    rewrite i32_id by lia. lia. }
  destruct best as [[i b]|]; [|by destruct (Hbest e Hin)].
  destruct Hbest as (Hi & Hlook & _ & Hmax & _).
  exists i, b. split; [exact Hfind|]. split; [done|]. split; [done|].
  specialize (Hmax e Hin Hcand). unfold better, prefix_key in Hmax. simpl in Hmax. lia.
Qed.
End Roundtrip.

Example stored_then_found_witness :
  exists i e, @kv_find_text_prefix (plain_os 1000) byte_files byte_store
      (Some (Query (bs "hello" ++ bs " world") 0 2 4096 0 0)) true =
      (@refresh (plain_os 1000) byte_files byte_store, i) /\
    (@refresh (plain_os 1000) byte_files byte_store).(entries) !! Z.to_nat i = Some e /\
    5 <= e.(text_bytes).
Proof.
  assert (Hst : byte_saved = (byte_files, byte_saved.1.2, true)).
  { assert (Hok : byte_saved.2 = true) by (vm_compute; reflexivity). unfold byte_files.
    destruct byte_saved as [[fs kc] ok]. simpl in *. by subst ok. }
  assert (Hkc : @refresh (plain_os 1000) byte_files byte_saved.1.2 =
                @refresh (plain_os 1000) byte_files byte_store) by (vm_compute; reflexivity).
  destruct (@stored_then_found (plain_os 1000) (plain_os_laws 1000) byte_engine (list Z)
    byte_session exp2_one two_files byte_store (bs "hello") 4096 (bs "hello") 5 (bs "cold") None 0
    None None byte_files byte_saved.1.2
    (default [] (@readdir (plain_os 1000) byte_files (bs "/kv"))) (bs " world") true Hst)
    as (i & e & Hf & _ & He & Hl).
  - vm_compute. reflexivity.
  - reflexivity.
  - vm_compute. reflexivity.
  - clear Hst Hkc. intros staged [[=]|[_ [= <-]]]. split.
    + by apply bytes_okb_ok.
    + vm_compute. done.
    + vm_compute. done.
    + vm_compute. done.
    + vm_compute. done.
    + intros p [= <-]. by apply bytes_okb_ok.
    + intros t [= <-]. split; [constructor | vm_compute; discriminate].
  - vm_compute. discriminate.
  - vm_compute. reflexivity.
  - discriminate.
  - exists i, e. rewrite Hkc in *. split; [|split; [exact He | exact Hl]].
    rewrite <-Hf. vm_compute. reflexivity.
Defined.
