(* ===== verification/Json.v ===== *)
(** * JSON reader and writer of the server (ds4_server.c)

    The pull parser over the bytes of a request, with the C library's number
    scanner, and the string escaper of the responses.  A position [p] is the
    list of the bytes in front of the terminating NUL; a parser that fails is
    never resumed, so failure carries no position. *)

From S2P Require Import Prelude Float64.

(** isspace of the C locale. *)
Definition isspace (c : Z) : bool := (c =? 32) || ((9 <=? c) && (c <=? 13)).
Definition isdigit (c : Z) : bool := (48 <=? c) && (c <=? 57).
(** Case-insensitive comparison with a lower-case letter. *)
Definition is_letter (l c : Z) : bool := (c =? l) || (c =? l - 32).

(** json_ws *)
Fixpoint ws (p : list Z) : list Z :=
  match p with
  | c :: r => if isspace c then ws r else p
  | [] => []
  end.

(** json_lit *)
Fixpoint lit (p l : list Z) {struct l} : option (list Z) :=
  match l, p with
  | [], _ => Some p
  | a :: l, b :: p => if a =? b then lit p l else None
  | _ :: _, [] => None
  end.

(** json_hex; [None] is -1. *)
Definition hex (c : Z) : option Z :=
  if (ch "0" <=? c) && (c <=? ch "9") then Some (c - ch "0")
  else if (ch "a" <=? c) && (c <=? ch "f") then Some (10 + c - ch "a")
  else if (ch "A" <=? c) && (c <=? ch "F") then Some (10 + c - ch "A")
  else None.

(** utf8_put: the bytes appended for a code point. *)
Definition utf8_put (cp : Z) : list Z :=
  if cp <=? 0x7f then [u8 cp]
  else if cp <=? 0x7ff then
    [u8 (Z.lor 0xc0 (Z.shiftr cp 6)); u8 (Z.lor 0x80 (Z.land cp 0x3f))]
  else if cp <=? 0xffff then
    [u8 (Z.lor 0xe0 (Z.shiftr cp 12)); u8 (Z.lor 0x80 (Z.land (Z.shiftr cp 6) 0x3f));
     u8 (Z.lor 0x80 (Z.land cp 0x3f))]
  else
    [u8 (Z.lor 0xf0 (Z.shiftr cp 18)); u8 (Z.lor 0x80 (Z.land (Z.shiftr cp 12) 0x3f));
     u8 (Z.lor 0x80 (Z.land (Z.shiftr cp 6) 0x3f)); u8 (Z.lor 0x80 (Z.land cp 0x3f))].

(** json_u16 *)
Definition u16_escape (p : list Z) : option (Z * list Z) :=
  match p with
  | b :: u :: c0 :: c1 :: c2 :: c3 :: r =>
      if negb (b =? ch "\") || negb (u =? ch "u") then None
      else
        h0 ← hex c0; h1 ← hex c1; h2 ← hex c2; h3 ← hex c3;
        Some (Z.lor (Z.shiftl (Z.lor (Z.shiftl (Z.lor (Z.shiftl h0 4) h1) 4) h2) 4) h3, r)
  | _ => None
  end.

(** The escapes of the switch in json_string, the letter u apart. *)
Definition simple_escape (c : Z) : option Z :=
  if c =? 34 then Some 34
  else if c =? ch "\" then Some (ch "\")
  else if c =? ch "/" then Some (ch "/")
  else if c =? ch "b" then Some 8
  else if c =? ch "f" then Some 12
  else if c =? ch "n" then Some 10
  else if c =? ch "r" then Some 13
  else if c =? ch "t" then Some 9
  else None.

Definition is_high (cp : Z) : bool := (0xd800 <=? cp) && (cp <=? 0xdbff).
Definition is_low (cp : Z) : bool := (0xdc00 <=? cp) && (cp <=? 0xdfff).

(** The case of json_string for the letter u, at the backslash: the code point put and the
    position.  The second escape is consumed even when it is not a low
    surrogate. *)
Definition unicode_escape (p : list Z) : option (Z * list Z) :=
  match u16_escape p with
  | None => None
  | Some (cp, p) =>
      if is_high cp then
        match u16_escape p with
        | Some (lo, p) =>
            Some (if is_low lo
                  then 0x10000 + Z.shiftl (cp - 0xd800) 10 + (lo - 0xdc00) else cp, p)
        | None => Some (cp, p)
        end
      else Some (cp, p)
  end.

(** The loop of json_string up to the closing quote; every turn consumes a
    byte, so the length of the input is enough fuel.  [b] is the buffer. *)
Fixpoint string_loop (fuel : nat) (p b : list Z) : option (list Z * list Z) :=
  match fuel with
  | O => None
  | S fuel =>
      match p with
      | [] => None
      | c :: r =>
          if c =? 34 then Some (c_str b, r)
          else if negb (c =? ch "\") then string_loop fuel r (b ++ [c])
          else
            match r with
            | [] => None
            | e :: r' =>
                if e =? ch "u" then
                  match unicode_escape p with
                  | Some (cp, q) => string_loop fuel q (b ++ utf8_put cp)
                  | None => None
                  end
                else
                  match simple_escape e with
                  | Some d => string_loop fuel r' (b ++ [d])
                  | None => None
                  end
            end
      end
  end.

(** json_string *)
Definition string_ (p : list Z) : option (list Z * list Z) :=
  match ws p with
  | c :: r => if c =? 34 then string_loop (S (length r)) r [] else None
  | [] => None
  end.

(** ** strtod *)
Inductive number :=
| NaN
| Inf (neg : bool)
| Dec (neg : bool) (mant exp10 : Z)
| Hexa (neg : bool) (mant exp2 : Z).

Definition letters (p : list Z) (w : list Z) : option (list Z) :=
  (fix go (w p : list Z) {struct w} :=
     match w, p with
     | [], _ => Some p
     | l :: w, c :: p => if is_letter l c then go w p else None
     | _ :: _, [] => None
     end) w p.

Definition digit_value (c : Z) : Z := default 0 (hex c).
Definition digits_value (base : Z) (ds : list Z) : Z :=
  fold_left (fun v c => v * base + digit_value c) ds 0.

(** An exponent [e[+-]?digits] introduced by the letter [l], if there is one. *)
Definition scan_exponent (l : Z) (p : list Z) : Z * list Z :=
  match p with
  | c :: r =>
      if is_letter l c then
        let '(neg, r') := match r with
                          | s :: r' => if s =? ch "-" then (true, r')
                                       else if s =? ch "+" then (false, r') else (false, r)
                          | [] => (false, r)
                          end in
        let '(ds, rest) := span isdigit r' in
        if negb (blen ds =? 0) then
          ((if neg : bool then - digits_value 10 ds else digits_value 10 ds), rest)
        else (0, p)
      else (0, p)
  | [] => (0, p)
  end.

(** Digits with an optional point, at least one digit. *)
Definition scan_mantissa (isd : Z -> bool) (p : list Z) : option (list Z * list Z * list Z) :=
  let '(ip, r) := span isd p in
  let '(fp, r') := match r with
                   | c :: r1 =>
                       if c =? ch "." then
                         let '(f, r2) := span isd r1 in
                         if (blen ip =? 0) && (blen f =? 0) then ([], r) else (f, r2)
                       else ([], r)
                   | [] => ([], r)
                   end in
  if (blen ip =? 0) && (blen fp =? 0) then None else Some (ip, fp, r').

Definition isxdigit (c : Z) : bool := bool_decide (is_Some (hex c)).

Definition scan_decimal (neg : bool) (p : list Z) : option (number * list Z) :=
  match scan_mantissa isdigit p with
  | None => None
  | Some (ip, fp, r) =>
      let '(e, r) := scan_exponent (ch "e") r in
      Some (Dec neg (digits_value 10 (ip ++ fp)) (e - blen fp), r)
  end.

Definition scan_hexadecimal (neg : bool) (p : list Z) : option (number * list Z) :=
  match p with
  | z :: x :: r =>
      if (z =? ch "0") && is_letter (ch "x") x then
        match scan_mantissa isxdigit r with
        | None => None
        | Some (ip, fp, r) =>
            let '(e, r) := scan_exponent (ch "p") r in
            Some (Hexa neg (digits_value 16 (ip ++ fp)) (e - 4 * blen fp), r)
        end
      else None
  | _ => None
  end.

(** The optional [(n-char-sequence)] of a NaN. *)
Definition nan_tail (p : list Z) : list Z :=
  match p with
  | c :: r =>
      if c =? ch "(" then
        let '(_, r') := span (fun c => isdigit c || (c =? ch "_") ||
          ((ch "a" <=? c) && (c <=? ch "z")) || ((ch "A" <=? c) && (c <=? ch "Z"))) r in
        match r' with d :: r'' => if d =? ch ")" then r'' else p | [] => p end
      else p
  | [] => p
  end.

(** strtod in the C locale: the number and the end pointer, [None] when nothing
    is converted. *)
Definition strtod (p : list Z) : option (number * list Z) :=
  let p := ws p in
  let '(neg, q) := match p with
                   | c :: r => if c =? ch "-" then (true, r)
                               else if c =? ch "+" then (false, r) else (false, p)
                   | [] => (false, p)
                   end in
  match letters q (bs "inf") with
  | Some r => Some (Inf neg, default r (letters r (bs "inity")))
  | None =>
      match letters q (bs "nan") with
      | Some r => Some (NaN, nan_tail r)
      | None =>
          match scan_hexadecimal neg q with
          | Some x => Some x
          | None => scan_decimal neg q
          end
      end
  end.

(** The correctly rounded binary64 value. *)
Definition value (n : number) : spec_float :=
  match n with
  | NaN => S754_nan
  | Inf neg => S754_infinity neg
  | Dec neg m e =>
      let v :=
        if m =? 0 then S754_zero false
        else if 0 <=? e then binary_normalize 53 1024 (m * 10 ^ e) 0 false
        else SFdiv 53 1024 (S754_finite false (Z.to_pos m) 0)
               (S754_finite false (Z.to_pos (10 ^ (- e))) 0) in
      if neg then SFopp v else v
  | Hexa neg m e =>
      let v := binary_normalize 53 1024 m e false in if neg then SFopp v else v
  end.

(** json_number *)
Definition number_ (p : list Z) : option (spec_float * list Z) :=
  match strtod (ws p) with Some (n, r) => Some (value n, r) | None => None end.

(** Conversion of a double to [int] by truncation; [int_of_nan] is the value the
    machine produces where C leaves it undefined. *)
Definition to_int (int_of_nan : Z) (f : spec_float) : Z :=
  match f with
  | S754_finite s m e =>
      let a := if 0 <=? e then Z.pos m * 2 ^ e else Z.pos m / 2 ^ (- e) in
      if s then - a else a
  | S754_zero _ => 0
  | _ => int_of_nan
  end.

(** json_int *)
Definition int_ (int_of_nan : Z) (p : list Z) : option (Z * list Z) :=
  match number_ p with
  | None => None
  | Some (v, r) =>
      let zero := S754_zero false in
      let v := if SFltb v zero then zero else v in
      let max := binary_normalize 53 1024 INT_MAX 0 false in
      let v := if SFltb max v then max else v in
      Some (to_int int_of_nan v, r)
  end.

(** json_bool *)
Definition bool_ (p : list Z) : option (bool * list Z) :=
  match lit (ws p) (bs "true") with
  | Some r => Some (true, r)
  | None =>
      match lit (ws p) (bs "false") with
      | Some r => Some (false, r)
      | None => None
      end
  end.

(** ** Skipping values *)
Definition MAX_NESTING : Z := 256.

(** json_skip_value_depth, with the loops of json_skip_array_depth and
    json_skip_object_depth behind their opening brackets. *)
Fixpoint skip_value (fuel : nat) (p : list Z) (depth : Z) : option (list Z) :=
  match fuel with
  | O => None
  | S fuel =>
      let p := ws p in
      match p with
      | c :: r =>
          if c =? 34 then
            match string_ p with Some (_, r) => Some r | None => None end
          else if c =? ch "{" then
            if MAX_NESTING <=? depth then None
            else
              match ws r with
              | d :: r' => if d =? ch "}" then Some r' else skip_members fuel (d :: r') depth
              | [] => None
              end
          else if c =? ch "[" then
            if MAX_NESTING <=? depth then None
            else
              match ws r with
              | d :: r' => if d =? ch "]" then Some r' else skip_elements fuel (d :: r') depth
              | [] => None
              end
          else
            match lit p (bs "true") with
            | Some r => Some r
            | None =>
                match lit p (bs "false") with
                | Some r => Some r
                | None =>
                    match lit p (bs "null") with
                    | Some r => Some r
                    | None => match number_ p with Some (_, r) => Some r | None => None end
                    end
                end
            end
      | [] => None
      end
  end
with skip_elements (fuel : nat) (p : list Z) (depth : Z) : option (list Z) :=
  match fuel with
  | O => None
  | S fuel =>
      match skip_value fuel p (depth + 1) with
      | None => None
      | Some p =>
          match ws p with
          | c :: r =>
              if c =? ch "]" then Some r
              else if negb (c =? ch ",") then None
              else skip_elements fuel r depth
          | [] => None
          end
      end
  end
with skip_members (fuel : nat) (p : list Z) (depth : Z) : option (list Z) :=
  match fuel with
  | O => None
  | S fuel =>
      match string_ p with
      | None => None
      | Some (_, p) =>
          match ws p with
          | c :: r =>
              if negb (c =? ch ":") then None
              else
                match skip_value fuel r (depth + 1) with
                | None => None
                | Some p =>
                    match ws p with
                    | c :: r =>
                        if c =? ch "}" then Some r
                        else if negb (c =? ch ",") then None
                        else skip_members fuel r depth
                    | [] => None
                    end
                end
          | [] => None
          end
      end
  end.

(** Turns that are always enough for an input of this length. *)
Definition skip_fuel (p : list Z) : nat := 2 * length p + 1.

(** json_skip_value *)
Definition skip (p : list Z) : option (list Z) := skip_value (skip_fuel p) p 0.

(** json_raw_value: the text of the value and the position behind it. *)
Definition raw_value (p : list Z) : option (list Z * list Z) :=
  let start := ws p in
  match skip start with
  | Some q => Some (ztake (blen start - blen q) start, q)
  | None => None
  end.

(** The copying loop of json_minify_raw_value. *)
Fixpoint minify_loop (s : list Z) (in_string escape : bool) : list Z :=
  match s with
  | [] => []
  | c :: s =>
      if in_string then
        c :: (if escape then minify_loop s true false
              else if c =? ch "\" then minify_loop s true true
              else if c =? 34 then minify_loop s false false
              else minify_loop s true false)
      else if c =? 34 then c :: minify_loop s true false
      else if negb (isspace c) then c :: minify_loop s false false
      else minify_loop s false false
  end.

(** json_minify_raw_value *)
Definition minify (json : option (list Z)) : list Z :=
  let p := default (bs "null") json in
  match raw_value p with
  | Some (s, _) => minify_loop s false false
  | None => p
  end.

(** json_value_is_complete: the minified value, [None] for [false]. *)
Definition value_is_complete (v : option (list Z)) : option (list Z) :=
  let start := ws (default [] v) in
  match start with
  | [] => None
  | _ =>
      match skip start with
      | None => None
      | Some p => match ws p with [] => Some (minify (Some start)) | _ => None end
      end
  end.

Definition comma (p : list Z) : list Z :=
  match p with c :: r => if c =? ch "," then r else p | [] => p end.

(** The member loop of json_content, up to the closing brace; [b] is the
    text collected so far. *)
Fixpoint content_members (fuel : nat) (p b : list Z) : option (list Z * list Z) :=
  match fuel with
  | O => None
  | S fuel =>
      match p with
      | [] => None
      | c :: r =>
          if c =? ch "}" then Some (b, r)
          else
            match string_ p with
            | None => None
            | Some (key, p) =>
                match ws p with
                | c :: p =>
                    if negb (c =? ch ":") then None
                    else if streq key (bs "text") then
                      match string_ p with
                      | None => None
                      | Some (s, p) => content_members fuel (ws (comma (ws p))) (b ++ s)
                      end
                    else
                      match skip p with
                      | None => None
                      | Some p => content_members fuel (ws (comma (ws p))) b
                      end
                | [] => None
                end
            end
      end
  end.

(** The part loop of json_content, up to the closing bracket. *)
Fixpoint content_parts (fuel : nat) (p b : list Z) : option (list Z * list Z) :=
  match fuel with
  | O => None
  | S fuel =>
      match p with
      | [] => None
      | c :: r =>
          if c =? ch "]" then Some (b, r)
          else if c =? 34 then
            match string_ p with
            | None => None
            | Some (s, p) => content_parts fuel (ws (comma (ws p))) (b ++ s)
            end
          else if c =? ch "{" then
            match content_members (S (length r)) (ws r) b with
            | None => None
            | Some (b, p) => content_parts fuel (ws (comma (ws p))) b
            end
          else
            match skip p with
            | None => None
            | Some p => content_parts fuel (ws (comma (ws p))) b
            end
      end
  end.

(** json_content *)
Definition content (p : list Z) : option (list Z * list Z) :=
  match ws p with
  | [] => match skip [] with Some q => Some ([], q) | None => None end
  | c :: r =>
      if c =? 34 then string_ (c :: r)
      else
        match lit (c :: r) (bs "null") with
        | Some q => Some ([], q)
        | None =>
            if negb (c =? ch "[") then
              match skip (c :: r) with Some q => Some ([], q) | None => None end
            else content_parts (S (length r)) (ws r) []
        end
  end.

(** One byte of json_escape and json_escape_fragment_n; the hexadecimal digits
    are those of the format [%04x] on a value below 32. *)
Definition hexdigit (v : Z) : Z := if v <? 10 then ch "0" + v else ch "a" + (v - 10).
Definition escape_byte (c : Z) : list Z :=
  if (c =? 34) || (c =? ch "\") then [ch "\"; c]
  else if c =? 10 then [ch "\"; ch "n"]
  else if c =? 13 then [ch "\"; ch "r"]
  else if c =? 9 then [ch "\"; ch "t"]
  else if c <? 0x20 then
    [ch "\"; ch "u"; ch "0"; ch "0"; hexdigit (Z.shiftr c 4); hexdigit (Z.land c 15)]
  else [c].

(** json_escape_fragment_n: the bytes appended. *)
Definition escape_fragment_n (s : list Z) (n : Z) : list Z := concat (map escape_byte (ztake n s)).

(** json_escape *)
Definition escape (s : list Z) : list Z := [34] ++ concat (map escape_byte s) ++ [34].

(** json_escape_n *)
Definition escape_n (s : option (list Z)) (n : Z) : list Z := escape (ztake n (default [] s)).

(** ** Progress *)

(** [eats n p q]: the position moved from [p] to [q] over at least [n] bytes. *)
Definition eats (n : nat) (p q : list Z) : Prop := exists a, p = a ++ q /\ (n <= length a)%nat.

Lemma eats_refl p : eats 0 p p.
Proof. exists []. split; [done|simpl; lia]. Qed.
Lemma eats_cons c p : eats 1 (c :: p) p.
Proof. exists [c]. split; [done|simpl; lia]. Qed.
Lemma eats_trans n m k p q r : eats n p q -> eats m q r -> (k <= n + m)%nat -> eats k p r.
Proof.
  intros [a [-> Ha]] [b [-> Hb]] Hk. exists (a ++ b). rewrite <- app_assoc, length_app.
  split; [done|lia].
Qed.
Lemma eats_step n m c p q : eats n p q -> (m <= S n)%nat -> eats m (c :: p) q.
Proof. intros H Hm. apply (eats_trans 1 n m _ p); [apply eats_cons|done|lia]. Qed.
Lemma eats_le n m p q : eats n p q -> (m <= n)%nat -> eats m p q.
Proof. intros [a [-> Ha]] Hm. exists a. split; [done|lia]. Qed.
Lemma eats_length n p q : eats n p q -> (length q + n <= length p)%nat.
Proof. intros [a [-> Ha]]. rewrite length_app. lia. Qed.
Lemma eats_text n p q : eats n p q -> ztake (blen p - blen q) p ++ q = p.
Proof.
  intros [a [-> _]]. rewrite blen_app.
  replace (blen a + blen q - blen q) with (blen a) by lia. by rewrite ztake_app.
Qed.
Lemma span_eats f p a q : span f p = (a, q) -> eats (length a) p q.
Proof. intros H%span_split. by exists a. Qed.

(** Closes [eats] goals: follows the bytes already matched, then a fact. *)
Ltac eats :=
  repeat match goal with
  | |- eats 0 ?p ?p => apply eats_refl
  | H : eats _ ?p ?q |- eats _ ?p ?q => apply (eats_le _ _ _ _ H); lia
  | |- eats _ (_ :: ?p) ?p => eapply eats_le; [apply eats_cons|lia]
  | H : eats ?n ?p _ |- eats _ ?p _ => eapply (eats_trans n); [exact H| |]; [clear H|]
  | |- eats _ (_ :: _) _ => eapply eats_step; [|reflexivity]
  end.

Lemma ws_eats p : eats 0 p (ws p).
Proof.
  induction p as [|c p IH]; simpl; [apply eats_refl|]. destruct (isspace c); [|apply eats_refl].
  eapply eats_step; [exact IH|lia].
Qed.
Lemma ws_length p : (length (ws p) <= length p)%nat.
Proof. pose proof (eats_length _ _ _ (ws_eats p)). lia. Qed.
Lemma comma_eats p : eats 0 p (comma p).
Proof.
  destruct p as [|c p]; simpl; [apply eats_refl|]. destruct (c =? _); [|apply eats_refl].
  eapply eats_le; [apply eats_cons|lia].
Qed.

Lemma lit_eats l p q : lit p l = Some q -> p = l ++ q.
Proof.
  revert p. induction l as [|a l IH]; intros p; simpl; [by intros [= ->]|].
  destruct p as [|b p]; [done|]. destruct (Z.eqb_spec a b) as [->|]; [|done].
  intros H%IH. by rewrite H.
Qed.
Lemma lit_app l q : lit (l ++ q) l = Some q.
Proof. induction l as [|a l IH]; simpl; [done|]. by rewrite Z.eqb_refl. Qed.

Lemma u16_eats p cp q : u16_escape p = Some (cp, q) -> eats 6 p q.
Proof.
  intros H. unfold u16_escape in H.
  destruct p as [|b [|u [|c0 [|c1 [|c2 [|c3 r]]]]]]; try done.
  destruct (_ || _); [done|]. unfold mbind, option_bind in H. repeat case_match; simplify_eq.
  eexists [_; _; _; _; _; _]. split; [done|simpl; lia].
Qed.

Lemma unicode_eats p cp q : unicode_escape p = Some (cp, q) -> eats 6 p q.
Proof.
  unfold unicode_escape. destruct (u16_escape p) as [[c p1]|] eqn:E1; [|done].
  apply u16_eats in E1. destruct (is_high c); [|by intros [= <- <-]].
  destruct (u16_escape p1) as [[lo p2]|] eqn:E2; [|by intros [= <- <-]].
  apply u16_eats in E2. intros [= _ <-]. apply (eats_trans _ _ 6 _ _ _ E1 E2). lia.
Qed.

Lemma string_loop_eats f p b s q : string_loop f p b = Some (s, q) -> eats 1 p q.
Proof.
  revert p b. induction f as [|f IH]; intros p b; [done|]. cbn [string_loop].
  destruct p as [|c r]; [done|].
  destruct (c =? 34); [intros [= _ <-]; apply eats_cons|].
  destruct (negb _); [intros H%IH; eapply eats_step; [exact H|lia]|].
  destruct r as [|e r]; [done|].
  destruct (e =? ch "u").
  - destruct (unicode_escape _) as [[cp q']|] eqn:E; [|done]. intros H%IH.
    apply unicode_eats in E. apply (eats_trans _ _ 1 _ _ _ E H). lia.
  - destruct (simple_escape e); [|done]. intros H%IH.
    apply (eats_step 1); [apply (eats_step 1); [exact H|lia]|lia].
Qed.

(** The fuel of the string loop is never exhausted. *)
Lemma string_loop_fuel f1 f2 p b : (length p < f1)%nat -> (length p < f2)%nat ->
  string_loop f1 p b = string_loop f2 p b.
Proof.
  revert f2 p b. induction f1 as [|f1 IH]; intros f2 p b H1 H2; [lia|].
  destruct f2 as [|f2]; [lia|]. cbn [string_loop]. destruct p as [|c r]; [done|]. cbn in *.
  destruct (c =? 34); [done|]. destruct (negb _); [apply IH; lia|].
  destruct r as [|e r]; [done|]. cbn in *. destruct (e =? ch "u").
  - destruct (unicode_escape _) as [[cp q]|] eqn:E; [|done].
    apply unicode_eats, eats_length in E. cbn in E. apply IH; lia.
  - destruct (simple_escape e); [|done]. apply IH; lia.
Qed.

Lemma string_eats p s q : string_ p = Some (s, q) -> eats 2 p q.
Proof.
  unfold string_. pose proof (ws_eats p) as Hw. destruct (ws p) as [|c r]; [done|].
  destruct (c =? 34); [|done]. intros H%string_loop_eats.
  eapply (eats_trans 0 2); [exact Hw| |lia]. eapply eats_step; [exact H|lia].
Qed.

Lemma letters_eats w p q : letters p w = Some q -> eats (length w) p q.
Proof.
  unfold letters. revert p. induction w as [|l w IH]; intros p.
  - intros [= <-]. apply eats_refl.
  - destruct p as [|c p]; [done|]. cbn [length]. destruct (is_letter l c); [|done].
    intros H%IH. eapply eats_step; [exact H|lia].
Qed.

Lemma exponent_eats l p e q : scan_exponent l p = (e, q) -> eats 0 p q.
Proof.
  unfold scan_exponent. destruct p as [|c r]; [intros [= _ <-]; apply eats_refl|].
  destruct (is_letter l c); [|intros [= _ <-]; apply eats_refl].
  set (sg := match r with [] => _ | _ => _ end).
  assert (Hs : eats 0 r sg.2).
  { subst sg. destruct r as [|s r]; [apply eats_refl|].
    destruct (s =? ch "-"); [eapply eats_le; [apply eats_cons|lia]|].
    destruct (s =? ch "+"); [eapply eats_le; [apply eats_cons|lia]|apply eats_refl]. }
  destruct sg as [neg r']. cbn in Hs. destruct (span isdigit r') as [dg rest] eqn:E.
  destruct (negb _); intros [= _ <-]; [|apply eats_refl].
  apply span_eats in E. eapply eats_step; [exact (eats_trans _ _ 0 _ _ _ Hs E ltac:(lia))|lia].
Qed.

Lemma mantissa_eats isd p a f q : scan_mantissa isd p = Some (a, f, q) -> eats 1 p q.
Proof.
  unfold scan_mantissa. destruct (span isd p) as [ip r] eqn:E. apply span_eats in E.
  assert (Hrest : forall f' r', eats (length f') r r' ->
    (if (blen ip =? 0) && (blen f' =? 0) then None else Some (ip, f', r')) = Some (a, f, q) ->
    eats 1 p q).
  { intros f' r' Hr. destruct (_ && _) eqn:Hc; [done|]. intros [= _ _ <-].
    apply (eats_trans _ _ 1 _ _ _ E Hr). apply andb_false_iff in Hc. unfold blen in Hc. lia. }
  destruct r as [|c r1]; [apply (Hrest [] []), eats_refl|].
  destruct (c =? ch "."); [|apply (Hrest [] (c :: r1)), eats_refl].
  destruct (span isd r1) as [f2 r2] eqn:E2. apply span_eats in E2.
  destruct ((blen ip =? 0) && (blen f2 =? 0)); [apply (Hrest [] (c :: r1)), eats_refl|].
  apply (Hrest f2 r2). eapply eats_step; [exact E2|lia].
Qed.

Lemma decimal_eats neg p n q : scan_decimal neg p = Some (n, q) -> eats 1 p q.
Proof.
  unfold scan_decimal. destruct (scan_mantissa _ p) as [[[ip fp] r]|] eqn:E; [|done].
  apply mantissa_eats in E. destruct (scan_exponent _ r) as [e r'] eqn:E2.
  apply exponent_eats in E2. intros [= _ <-]. apply (eats_trans _ _ 1 _ _ _ E E2). lia.
Qed.

Lemma hexadecimal_eats neg p n q : scan_hexadecimal neg p = Some (n, q) -> eats 1 p q.
Proof.
  unfold scan_hexadecimal. destruct p as [|z [|x r]]; try done. destruct (_ && _); [|done].
  destruct (scan_mantissa _ r) as [[[ip fp] r1]|] eqn:E; [|done].
  apply mantissa_eats in E. destruct (scan_exponent _ r1) as [e r'] eqn:E2.
  apply exponent_eats in E2. intros [= _ <-].
  do 2 (apply (eats_step 1); [|lia]). apply (eats_trans _ _ 1 _ _ _ E E2). lia.
Qed.

Lemma nan_tail_eats p : eats 0 p (nan_tail p).
Proof.
  unfold nan_tail. destruct p as [|c r]; [apply eats_refl|].
  destruct (c =? ch "("); [|apply eats_refl].
  destruct (span _ r) as [a [|d r']] eqn:E; [apply eats_refl|]. apply span_eats in E.
  destruct (d =? ch ")"); [|apply eats_refl].
  eapply eats_step; [|lia]. apply (eats_trans _ 1 0 _ _ _ E); [apply eats_cons|lia].
Qed.

Lemma strtod_eats p n q : strtod p = Some (n, q) -> eats 1 p q.
Proof.
  unfold strtod. pose proof (ws_eats p) as Hw.
  set (sg := match ws p with [] => _ | _ => _ end).
  assert (Hs : eats 0 p sg.2).
  { subst sg. destruct (ws p) as [|c r]; [done|].
    destruct (c =? ch "-"); [apply (eats_trans _ 1 0 _ _ _ Hw); [apply eats_cons|lia]|].
    destruct (c =? ch "+"); [apply (eats_trans _ 1 0 _ _ _ Hw); [apply eats_cons|lia]|done]. }
  destruct sg as [neg p1]. cbn in Hs.
  assert (Hd : forall k r, eats k p1 r -> (1 <= k)%nat -> eats 1 p r).
  { intros k r Hr Hk. apply (eats_trans _ _ 1 _ _ _ Hs Hr). lia. }
  destruct (letters p1 (bs "inf")) as [r|] eqn:E1.
  { apply letters_eats in E1. intros H.
    assert (q = default r (letters r (bs "inity"))) as -> by congruence. clear H.
    apply (Hd 1%nat); [|lia]. change (length (bs "inf")) with 3%nat in E1.
    destruct (letters r (bs "inity")) as [r'|] eqn:E2; cbn [default].
    - apply letters_eats in E2. apply (eats_trans _ _ 1 _ _ _ E1 E2). lia.
    - apply (eats_le _ _ _ _ E1). lia. }
  destruct (letters p1 (bs "nan")) as [r|] eqn:E2.
  { apply letters_eats in E2. intros [= _ <-]. eapply (Hd 1%nat); [|lia].
    apply (eats_trans _ _ 1 _ _ _ E2 (nan_tail_eats r)). vm_compute. lia. }
  destruct (scan_hexadecimal neg p1) as [[n' q']|] eqn:E3.
  - apply hexadecimal_eats in E3. intros [= _ <-]. exact (Hd _ _ E3 ltac:(lia)).
  - intros H%decimal_eats. exact (Hd _ _ H ltac:(lia)).
Qed.

Lemma number_eats p v q : number_ p = Some (v, q) -> eats 1 p q.
Proof.
  unfold number_. destruct (strtod (ws p)) as [[n r]|] eqn:E; [|done]. intros [= _ <-].
  apply strtod_eats in E. apply (eats_trans _ _ 1 _ _ _ (ws_eats p) E). lia.
Qed.

(** ** Skipping: progress and fuel *)

Lemma skip_parts_eats f :
  (forall p d q, skip_value f p d = Some q -> eats 1 p q) /\
  (forall p d q, skip_elements f p d = Some q -> eats 2 p q) /\
  (forall p d q, skip_members f p d = Some q -> eats 2 p q).
Proof.
  induction f as [|f (IHv & IHe & IHm)]; [done|]. split; [|split]; intros p d q; cbn [skip_value skip_elements skip_members].
  - intros H. apply (eats_trans 0 1 1 _ (ws p)); [apply ws_eats| |lia]. revert H.
    destruct (ws p) as [|c r] eqn:Ew; [done|].
    destruct (c =? 34).
    { destruct (string_ _) as [[s r']|] eqn:E; [|done]. intros [= <-].
      eapply eats_le; [exact (string_eats _ _ _ E)|lia]. }
    destruct (c =? ch "{").
    { destruct (_ <=? d); [done|]. pose proof (ws_eats r) as Hr. destruct (ws r) as [|e r']; [done|].
      intros H. apply (eats_step 0); [|lia]. apply (eats_trans 0 0 0 _ _ _ Hr); [|lia]. revert H.
      destruct (e =? ch "}"); [intros [= <-]; eapply eats_le; [apply eats_cons|lia]|].
      intros H%IHm. eapply eats_le; [exact H|lia]. }
    destruct (c =? ch "[").
    { destruct (_ <=? d); [done|]. pose proof (ws_eats r) as Hr. destruct (ws r) as [|e r']; [done|].
      intros H. apply (eats_step 0); [|lia]. apply (eats_trans 0 0 0 _ _ _ Hr); [|lia]. revert H.
      destruct (e =? ch "]"); [intros [= <-]; eapply eats_le; [apply eats_cons|lia]|].
      intros H%IHe. eapply eats_le; [exact H|lia]. }
    assert (Hl : forall l r', lit (c :: r) l = Some r' -> (1 <= length l)%nat -> eats 1 (c :: r) r').
    { intros l r' H%lit_eats Hl. by exists l. }
    destruct (lit _ (bs "true")) eqn:E1; [intros [= <-]; apply (Hl _ _ E1); vm_compute; lia|].
    destruct (lit _ (bs "false")) eqn:E2; [intros [= <-]; apply (Hl _ _ E2); vm_compute; lia|].
    destruct (lit _ (bs "null")) eqn:E3; [intros [= <-]; apply (Hl _ _ E3); vm_compute; lia|].
    destruct (number_ _) as [[v r']|] eqn:E4; [|done]. intros [= <-]. exact (number_eats _ _ _ E4).
  - destruct (skip_value f p (d + 1)) as [p1|] eqn:E; [|done]. apply IHv in E.
    pose proof (ws_eats p1) as Hw. destruct (ws p1) as [|c r]; [done|]. intros H.
    apply (eats_trans 1 1 2 _ _ _ E); [|lia]. apply (eats_trans 0 1 1 _ _ _ Hw); [|lia]. revert H.
    destruct (c =? ch "]"); [intros [= <-]; apply eats_cons|].
    destruct (negb _); [done|]. intros H%IHe. apply (eats_step 2); [exact H|lia].
  - destruct (string_ p) as [[k p1]|] eqn:E; [|done]. apply string_eats in E.
    pose proof (ws_eats p1) as Hw. destruct (ws p1) as [|c r]; [done|].
    destruct (negb (c =? ch ":")); [done|].
    destruct (skip_value f r (d + 1)) as [p2|] eqn:E2; [|done]. apply IHv in E2.
    pose proof (ws_eats p2) as Hw2. destruct (ws p2) as [|c2 r2]; [done|]. intros H.
    apply (eats_trans 2 0 2 _ _ _ E); [|lia]. apply (eats_trans 0 0 0 _ _ _ Hw); [|lia].
    apply (eats_step 0); [|lia]. apply (eats_trans 1 0 0 _ _ _ E2); [|lia].
    apply (eats_trans 0 0 0 _ _ _ Hw2); [|lia]. revert H.
    destruct (c2 =? ch "}"); [intros [= <-]; eapply eats_le; [apply eats_cons|lia]|].
    destruct (negb _); [done|]. intros H%IHm. apply (eats_step 2); [exact H|lia].
Qed.

Lemma skip_value_eats f p d q : skip_value f p d = Some q -> eats 1 p q.
Proof. apply skip_parts_eats. Qed.

Lemma skip_parts_fuel f : forall g,
  (forall p d, (2 * length p + 1 <= f)%nat -> (2 * length p + 1 <= g)%nat ->
     skip_value f p d = skip_value g p d) /\
  (forall p d, (2 * length p + 2 <= f)%nat -> (2 * length p + 2 <= g)%nat ->
     skip_elements f p d = skip_elements g p d) /\
  (forall p d, (2 * length p + 2 <= f)%nat -> (2 * length p + 2 <= g)%nat ->
     skip_members f p d = skip_members g p d).
Proof.
  induction f as [|f IH]; intros g; [repeat split; lia|].
  destruct g as [|g]; [repeat split; lia|]. destruct (IH g) as (IHv & IHe & IHm). clear IH.
  split; [|split]; intros p d Hf Hg; cbn [skip_value skip_elements skip_members].
  - pose proof (ws_length p) as Hw. destruct (ws p) as [|c r] eqn:Ew; [done|]. cbn in Hw.
    destruct (c =? 34); [done|].
    pose proof (ws_length r) as Hr.
    destruct (c =? ch "{"); [|destruct (c =? ch "["); [|done]]; (destruct (_ <=? d); [done|]);
      (destruct (ws r) as [|e r']; [done|]); cbn in Hr; (destruct (e =? _); [done|]);
      [apply IHm|apply IHe]; cbn [length]; lia.
  - rewrite IHv by lia. destruct (skip_value g p (d + 1)) as [p1|] eqn:E; [|done].
    apply skip_value_eats, eats_length in E. pose proof (ws_length p1) as Hw.
    destruct (ws p1) as [|c r]; [done|]. cbn in Hw. destruct (c =? ch "]"); [done|].
    destruct (negb _); [done|]. apply IHe; lia.
  - destruct (string_ p) as [[k p1]|] eqn:E; [|done]. apply string_eats, eats_length in E.
    pose proof (ws_length p1) as Hw. destruct (ws p1) as [|c r]; [done|]. cbn in Hw.
    destruct (negb _); [done|]. rewrite IHv by lia.
    destruct (skip_value g r (d + 1)) as [p2|] eqn:E2; [|done].
    apply skip_value_eats, eats_length in E2. pose proof (ws_length p2) as Hw2.
    destruct (ws p2) as [|c2 r2]; [done|]. cbn in Hw2. destruct (c2 =? ch "}"); [done|].
    destruct (negb _); [done|]. apply IHm; lia.
Qed.

(** The three functions at a fuel that is always enough. *)
Definition value_at (p : list Z) (d : Z) := skip_value (2 * length p + 1) p d.
Definition elements_at (p : list Z) (d : Z) := skip_elements (2 * length p + 2) p d.
Definition members_at (p : list Z) (d : Z) := skip_members (2 * length p + 2) p d.
Arguments value_at : simpl never.
Arguments elements_at : simpl never.
Arguments members_at : simpl never.

Lemma skip_value_at f p d : (2 * length p + 1 <= f)%nat -> skip_value f p d = value_at p d.
Proof. intros H. by apply (skip_parts_fuel f). Qed.
Lemma skip_elements_at f p d : (2 * length p + 2 <= f)%nat -> skip_elements f p d = elements_at p d.
Proof. intros H. by apply (skip_parts_fuel f). Qed.
Lemma skip_members_at f p d : (2 * length p + 2 <= f)%nat -> skip_members f p d = members_at p d.
Proof. intros H. by apply (skip_parts_fuel f). Qed.
Lemma skip_at p : skip p = value_at p 0.
Proof. done. Qed.

(** Their equations, without fuel: the recursion of the source. *)
Lemma elements_at_eq p d :
  elements_at p d =
  match value_at p (d + 1) with
  | None => None
  | Some p =>
      match ws p with
      | c :: r =>
          if c =? ch "]" then Some r
          else if negb (c =? ch ",") then None
          else elements_at r d
      | [] => None
      end
  end.
Proof.
  unfold elements_at at 1. replace (2 * length p + 2)%nat with (S (2 * length p + 1)) by lia.
  cbn [skip_elements]. fold (value_at p (d + 1)). destruct (value_at p (d + 1)) as [p1|] eqn:E; [|done].
  apply skip_value_eats, eats_length in E. pose proof (ws_length p1). destruct (ws p1) as [|c r]; [done|].
  destruct (c =? _); [done|]. destruct (negb _); [done|]. cbn in *. apply skip_elements_at. lia.
Qed.

Lemma members_at_eq p d :
  members_at p d =
  match string_ p with
  | None => None
  | Some (_, p) =>
      match ws p with
      | c :: r =>
          if negb (c =? ch ":") then None
          else
            match value_at r (d + 1) with
            | None => None
            | Some p =>
                match ws p with
                | c :: r =>
                    if c =? ch "}" then Some r
                    else if negb (c =? ch ",") then None
                    else members_at r d
                | [] => None
                end
            end
      | [] => None
      end
  end.
Proof.
  unfold members_at at 1. replace (2 * length p + 2)%nat with (S (2 * length p + 1)) by lia.
  cbn [skip_members]. destruct (string_ p) as [[k p1]|] eqn:E; [|done].
  apply string_eats, eats_length in E.
  pose proof (ws_length p1). destruct (ws p1) as [|c r]; [done|]. cbn in *.
  destruct (negb _); [done|]. rewrite skip_value_at by lia.
  destruct (value_at r (d + 1)) as [p2|] eqn:E2; [|done]. apply skip_value_eats, eats_length in E2.
  pose proof (ws_length p2). destruct (ws p2) as [|c2 r2]; [done|]. cbn in *.
  destruct (c2 =? _); [done|]. destruct (negb _); [done|]. apply skip_members_at. lia.
Qed.

(** A container at depth [d], behind its opening bracket. *)
Lemma value_at_array r d : value_at (ch "[" :: r) d =
  if MAX_NESTING <=? d then None
  else match ws r with
       | e :: r' => if e =? ch "]" then Some r' else elements_at (e :: r') d
       | [] => None
       end.
Proof.
  unfold value_at. replace (2 * length (ch "[" :: r) + 1)%nat with (S (2 * length r + 2)) by (cbn; lia).
  cbn [skip_value]. change (ws (ch "[" :: r)) with (ch "[" :: r). cbv iota zeta.
  change (ch "[" =? 34) with false. change (ch "[" =? ch "{") with false.
  change (ch "[" =? ch "[") with true. cbv iota. destruct (_ <=? d); [done|].
  pose proof (ws_length r). destruct (ws r) as [|e r']; [done|]. cbn in *.
  destruct (e =? _); [done|]. apply skip_elements_at. cbn. lia.
Qed.

Lemma value_at_object r d : value_at (ch "{" :: r) d =
  if MAX_NESTING <=? d then None
  else match ws r with
       | e :: r' => if e =? ch "}" then Some r' else members_at (e :: r') d
       | [] => None
       end.
Proof.
  unfold value_at. replace (2 * length (ch "{" :: r) + 1)%nat with (S (2 * length r + 2)) by (cbn; lia).
  cbn [skip_value]. change (ws (ch "{" :: r)) with (ch "{" :: r). cbv iota zeta.
  change (ch "{" =? 34) with false. change (ch "{" =? ch "{") with true. cbv iota.
  destruct (_ <=? d); [done|].
  pose proof (ws_length r). destruct (ws r) as [|e r']; [done|]. cbn in *.
  destruct (e =? _); [done|]. apply skip_members_at. cbn. lia.
Qed.

Lemma value_at_string r d : value_at (34 :: r) d =
  match string_ (34 :: r) with Some (_, q) => Some q | None => None end.
Proof.
  unfold value_at. replace (2 * length (34%Z :: r) + 1)%nat with (S (2 * length r + 2)) by (cbn; lia).
  cbn [skip_value]. change (ws (34 :: r)) with (34 :: r). cbv iota.
  change (34 =? 34) with true. cbv iota. by destruct (string_ _) as [[s q]|].
Qed.

Lemma ws_ws p : ws (ws p) = ws p.
Proof.
  induction p as [|c p IH]; simpl; [done|]. destruct (isspace c) eqn:E; [done|]. simpl. by rewrite E.
Qed.

Lemma value_at_ws p d : value_at (ws p) d = value_at p d.
Proof.
  rewrite <- (skip_value_at (2 * length p + 1) (ws p)) by (pose proof (ws_length p); lia).
  unfold value_at. replace (2 * length p + 1)%nat with (S (2 * length p)) by lia.
  cbn [skip_value]. by rewrite ws_ws.
Qed.

Lemma string_ws p : string_ (ws p) = string_ p.
Proof. unfold string_. by rewrite ws_ws. Qed.
