(* ===== verification/JsonText.v ===== *)
(** * JSON texts: what the reader of Json.v accepts and returns

    A syntax of JSON values, their printed texts with arbitrary white space
    between the tokens, and the theorems that relate the two: strings come back
    from the escaper unchanged, a printed value is skipped exactly when its
    nesting is within the limit, and raw values and minification return the
    text of the value. *)

From S2P Require Import Prelude Json.

(** ** Strings *)

Definition loop_at (p b : list Z) := string_loop (S (length p)) p b.

Lemma string_loop_at f p b : (length p < f)%nat -> string_loop f p b = loop_at p b.
Proof. intros H. apply string_loop_fuel; lia. Qed.

Lemma hex_hexdigit v : 0 <= v < 16 -> hex (hexdigit v) = Some v.
Proof.
  set (f v := match hex (hexdigit v) with Some w => w =? v | None => false end).
  intros H. assert (Hb : f v = true) by (apply (forallb_range f 16); [by vm_compute|done]).
  unfold f in Hb. destruct (hex (hexdigit v)) as [w|]; [|done]. f_equal. lia.
Qed.

Lemma nibbles c : 0 <= c < 256 -> Z.lor (Z.shiftl (Z.shiftr c 4) 4) (Z.land c 15) = c.
Proof.
  intros H. assert (Hb : (Z.lor (Z.shiftl (Z.shiftr c 4) 4) (Z.land c 15) =? c) = true).
  { apply (forallb_range (fun c => Z.lor (Z.shiftl (Z.shiftr c 4) 4) (Z.land c 15) =? c) 256);
      [by vm_compute|done]. }
  lia.
Qed.

Lemma u16_control c p : 0 <= c < 32 ->
  u16_escape ([ch "\"; ch "u"; ch "0"; ch "0"; hexdigit (Z.shiftr c 4); hexdigit (Z.land c 15)] ++ p)
  = Some (c, p).
Proof.
  intros H. cbn [app u16_escape].
  change (negb (ch "\" =? ch "\") || negb (ch "u" =? ch "u")) with false. cbv iota.
  assert (Hs : 0 <= Z.shiftr c 4 < 16).
  { rewrite Z.shiftr_div_pow2 by lia. change (2 ^ 4) with 16. split; [apply Z.div_pos|apply Z.div_lt_upper_bound]; lia. }
  assert (Hl : 0 <= Z.land c 15 < 16).
  { change 15 with (Z.ones 4). rewrite Z.land_ones by lia. change (2 ^ 4) with 16. apply Z.mod_pos_bound. lia. }
  rewrite !hex_hexdigit by done. change (hex (ch "0")) with (Some 0).
  unfold mbind, option_bind. cbv beta iota.
  change (Z.lor (Z.shiftl (Z.lor (Z.shiftl 0 4) 0) 4) (Z.shiftr c 4)) with (Z.lor 0 (Z.shiftr c 4)).
  rewrite Z.lor_0_l. by rewrite nibbles by lia.
Qed.

Lemma escape_byte_cases c : 0 < c < 256 ->
  (escape_byte c = [ch "\"; c] /\ (c = 34 \/ c = 92)) \/
  (exists e, escape_byte c = [ch "\"; e] /\ simple_escape e = Some c /\ (e =? ch "u") = false /\ e <> 34) \/
  (escape_byte c = [ch "\"; ch "u"; ch "0"; ch "0"; hexdigit (Z.shiftr c 4); hexdigit (Z.land c 15)]
   /\ c < 32) \/
  (escape_byte c = [c] /\ c <> 34 /\ c <> 92 /\ isspace c = (c =? 32)).
Proof.
  intros H. unfold escape_byte.
  destruct ((c =? 34) || (c =? ch "\")) eqn:E1.
  { left. split; [done|]. change (ch "\") with 92 in E1. lia. }
  destruct (c =? 10) eqn:E2; [right; left; exists (ch "n"); split; [done|split; [change (Some 10 = Some c); f_equal; lia|done]]|].
  destruct (c =? 13) eqn:E3; [right; left; exists (ch "r"); split; [done|split; [change (Some 13 = Some c); f_equal; lia|done]]|].
  destruct (c =? 9) eqn:E4; [right; left; exists (ch "t"); split; [done|split; [change (Some 9 = Some c); f_equal; lia|done]]|].
  right. right. destruct (c <? 32) eqn:E5; [left; split; [done|lia]|].
  right. change (ch "\") with 92 in E1. unfold isspace. split; [done|]. lia.
Qed.

Lemma utf8_put_ascii c : 0 <= c < 128 -> utf8_put c = [c].
Proof. intros H. unfold utf8_put. destruct (Z.leb_spec c 0x7f); [|lia]. rewrite wrap_id by flia. done. Qed.

(** One escaped byte is read back as that byte. *)
Lemma loop_escape_byte c p b : 0 < c < 256 -> loop_at (escape_byte c ++ p) b = loop_at p (b ++ [c]).
Proof.
  intros Hc. unfold loop_at at 1.
  destruct (escape_byte_cases c Hc) as [[-> Hq]|[(e & -> & He & Hu & _)|[[-> Hlt]|[-> (Hq & Hs & _)]]]].
  - cbn [app string_loop]. change (ch "\" =? 34) with false.
    change (negb (ch "\" =? ch "\")) with false. cbv iota.
    destruct Hq as [-> | ->];
      [change (34 =? ch "u") with false; change (simple_escape 34) with (Some 34)
      |change (92 =? ch "u") with false; change (simple_escape 92) with (Some 92)];
      cbv iota; apply string_loop_at; cbn; lia.
  - cbn [app string_loop]. change (ch "\" =? 34) with false.
    change (negb (ch "\" =? ch "\")) with false. cbv iota. rewrite Hu, He.
    apply string_loop_at. cbn. lia.
  - set (t := [_; _; _; _; _; _]). cbn [string_loop]. unfold t at 2. cbn [app].
    change (ch "\" =? 34) with false. change (negb (ch "\" =? ch "\")) with false.
    change (ch "u" =? ch "u") with true. cbv iota.
    unfold unicode_escape. unfold t at 2. rewrite u16_control by lia.
    unfold is_high. destruct (Z.leb_spec 0xd800 c); [lia|]. cbn [andb].
    rewrite utf8_put_ascii by lia. apply string_loop_at. cbn. lia.
  - cbn [app string_loop]. destruct (Z.eqb_spec c 34); [done|].
    destruct (Z.eqb_spec c (ch "\")); [done|]. cbn [negb]. apply string_loop_at. cbn. lia.
Qed.

Lemma loop_escaped s rest b : cstring s ->
  loop_at (concat (map escape_byte s) ++ 34 :: rest) b = Some (c_str (b ++ s), rest).
Proof.
  intros Hs. revert b. induction Hs as [|c s Hc Hs IH]; intros b; cbn [map concat].
  - by rewrite app_nil_r.
  - rewrite <- app_assoc, loop_escape_byte by done. rewrite IH, <- app_assoc. done.
Qed.

Lemma string_escape s rest : cstring s -> string_ (escape s ++ rest) = Some (s, rest).
Proof.
  intros Hs. unfold escape, string_. rewrite <- !app_assoc. cbn [app ws].
  change (isspace 34) with false. cbv iota. change (34 =? 34) with true. cbv iota.
  fold (loop_at (concat (map escape_byte s) ++ 34 :: rest) []). rewrite loop_escaped by done.
  cbn [app]. by rewrite c_str_id.
Qed.

(** ** A syntax of JSON values *)

Inductive literal := LTrue | LFalse | LNull.

(** A number text: sign, digits, fraction and exponent. *)
Record numeral := Numeral {
  n_neg : bool;
  n_int : list Z;
  n_frac : option (list Z);
  n_exp : option (bool * option bool * list Z)
}.

Unset Elimination Schemes.
Inductive json :=
| JLit (l : literal)
| JNum (n : numeral)
| JStr (s : list Z)
| JArr (l : list json)
| JObj (m : list (list Z * json)).
Set Elimination Schemes.

Section JsonInd.
Variable P : json -> Prop.
Hypothesis HLit : forall l, P (JLit l).
Hypothesis HNum : forall n, P (JNum n).
Hypothesis HStr : forall s, P (JStr s).
Hypothesis HArr : forall l, Forall P l -> P (JArr l).
Hypothesis HObj : forall m, Forall (fun kv => P kv.2) m -> P (JObj m).

Fixpoint json_ind' (j : json) : P j :=
  match j with
  | JLit l => HLit l
  | JNum n => HNum n
  | JStr s => HStr s
  | JArr l =>
      HArr l ((fix go l : Forall P l :=
                 match l with
                 | [] => Forall_nil_2 _
                 | j :: l => Forall_cons_2 _ _ _ (json_ind' j) (go l)
                 end) l)
  | JObj m =>
      HObj m ((fix go m : Forall (fun kv => P kv.2) m :=
                 match m with
                 | [] => Forall_nil_2 _
                 | (k, j) :: m => Forall_cons_2 _ (k, j) _ (json_ind' j) (go m)
                 end) m)
  end.
End JsonInd.

(** Well-formed values: digit strings are not empty, strings hold no NUL. *)
Definition digitsb (l : list Z) : bool := negb (blen l =? 0) && forallb isdigit l.
Definition numeral_okb (n : numeral) : bool :=
  digitsb (n_int n) && match n_frac n with Some f => digitsb f | None => true end
  && match n_exp n with Some (_, _, e) => digitsb e | None => true end.
Fixpoint json_okb (j : json) : bool :=
  match j with
  | JLit _ => true
  | JNum n => numeral_okb n
  | JStr s => cstringb s
  | JArr l => forallb json_okb l
  | JObj m => forallb (fun kv => cstringb kv.1 && json_okb kv.2) m
  end.

(** The number of containers on the longest path. *)
Fixpoint depth (j : json) : Z :=
  match j with
  | JArr l => 1 + foldr Z.max 0 (map depth l)
  | JObj m => 1 + foldr Z.max 0 (map (fun kv => depth kv.2) m)
  | _ => 0
  end.

Definition literal_text (l : literal) : list Z :=
  match l with LTrue => bs "true" | LFalse => bs "false" | LNull => bs "null" end.
Definition sign_text (s : option bool) : list Z :=
  match s with Some true => bs "-" | Some false => bs "+" | None => [] end.
Definition frac_text (f : option (list Z)) : list Z :=
  match f with Some f => ch "." :: f | None => [] end.
Definition exp_text (e : option (bool * option bool * list Z)) : list Z :=
  match e with
  | Some (upper, s, d) => (if upper then ch "E" else ch "e") :: sign_text s ++ d
  | None => []
  end.
Definition numeral_text (n : numeral) : list Z :=
  (if n_neg n then bs "-" else []) ++ n_int n ++ frac_text (n_frac n) ++ exp_text (n_exp n).

(** The items of a container, [w] around the commas and before the end. *)
Fixpoint join (w : list Z) (items : list (list Z)) : list Z :=
  match items with
  | [] => []
  | [x] => x ++ w
  | x :: l => x ++ w ++ ch "," :: w ++ join w l
  end.

(** The text of a value, the white space [w] between its tokens. *)
Fixpoint text (w : list Z) (j : json) : list Z :=
  match j with
  | JLit l => literal_text l
  | JNum n => numeral_text n
  | JStr s => escape s
  | JArr l => ch "[" :: w ++ join w (map (text w) l) ++ [ch "]"]
  | JObj m =>
      ch "{" :: w ++
      join w (map (fun kv => escape kv.1 ++ w ++ ch ":" :: w ++ text w kv.2) m) ++ [ch "}"]
  end.

(** What may follow a number. *)
Definition delimiter (c : Z) : bool :=
  isspace c || (c =? ch ",") || (c =? ch "]") || (c =? ch "}").
Definition delimited (p : list Z) : bool :=
  match p with c :: _ => delimiter c | [] => true end.

(** ** Numbers *)

Arguments ch : simpl never.

Ltac chars :=
  repeat match goal with
  | |- context [ch ?c] => let v := eval vm_compute in (ch c) in change (ch c) with v
  | H : context [ch ?c] |- _ => let v := eval vm_compute in (ch c) in change (ch c) with v in H
  end.
Ltac clia := unfold delimiter, is_letter, isdigit, isspace in *; chars; lia.

Lemma digit_hex c : isdigit c = true -> exists v, hex c = Some v.
Proof. intros H. unfold hex. case_match; [by eexists|]. clia. Qed.

Lemma head_app (f : Z -> bool) (a r : list Z) :
  match a with c :: _ => f c | [] => match r with c :: _ => f c | [] => false end end = false ->
  forall c q, a ++ r = c :: q -> f c = false.
Proof. destruct a as [|x a]; [destruct r as [|y r]|]; intros H c q; [done| |]; intros [= <- <-]; done. Qed.

Lemma digitsb_eq l : digitsb l = true -> forallb isdigit l = true /\ exists c r, l = c :: r /\ isdigit c = true.
Proof.
  unfold digitsb. intros [H1 H2]%andb_true_iff. split; [done|]. destruct l as [|c r]; [done|].
  exists c, r. split; [done|]. by apply andb_true_iff in H2 as [? _].
Qed.

Lemma tail_not (f : Z -> bool) e rest :
  (forall c, delimiter c = true -> f c = false) -> f (ch "e") = false -> f (ch "E") = false ->
  delimited rest = true -> forall c q, exp_text e ++ rest = c :: q -> f c = false.
Proof.
  intros Hd He HE Hr c q. destruct e as [[[[] s] d]|]; cbn.
  - by intros [= <- _].
  - by intros [= <- _].
  - intros ->. by apply Hd.
Qed.

Lemma after_int_not (f : Z -> bool) n rest :
  (forall c, delimiter c = true -> f c = false) -> f (ch "e") = false -> f (ch "E") = false ->
  f (ch ".") = false ->
  delimited rest = true -> forall c q, frac_text (n_frac n) ++ exp_text (n_exp n) ++ rest = c :: q -> f c = false.
Proof.
  intros Hd He HE Hp Hr c q. destruct (n_frac n) as [d|]; cbn; [by intros [= <- _]|].
  by apply tail_not.
Qed.

Lemma exponent_text e rest :
  match e with Some (_, _, d) => digitsb d = true | None => True end -> delimited rest = true ->
  exists v, scan_exponent (ch "e") (exp_text e ++ rest) = (v, rest).
Proof.
  intros He Hr. assert (Hnd : forall c q, rest = c :: q -> isdigit c = false).
  { intros c q ->. cbn in Hr. clia. }
  destruct e as [[[up s] d]|].
  - destruct (digitsb_eq _ He) as (Hd & c & r & -> & Hc).
    assert (Hs : forall u, u = c :: r ++ rest -> span isdigit u = (c :: r, rest)).
    { intros u ->. change (c :: r ++ rest) with ((c :: r) ++ rest). by apply span_app. }
    assert (Hl : is_letter (ch "e") (if up then ch "E" else ch "e") = true) by (by destruct up).
    assert (Hne : (blen (c :: r) =? 0) = false) by (rewrite blen_cons; pose proof (blen_nonneg r); lia).
    cbn [exp_text app]. unfold scan_exponent. rewrite Hl.
    destruct s as [[]|]; cbn [sign_text app].
    + change (bs "-") with [ch "-"]. cbn [app]. change (ch "-" =? ch "-") with true. cbv iota. rewrite Hs by done.
      rewrite Hne. by eexists.
    + change (bs "+") with [ch "+"]. cbn [app]. change (ch "+" =? ch "-") with false.
      change (ch "+" =? ch "+") with true. cbv iota. rewrite Hs by done.
      rewrite Hne. by eexists.
    + destruct (Z.eqb_spec c (ch "-")) as [->|]; [done|].
      destruct (Z.eqb_spec c (ch "+")) as [->|]; [done|]. rewrite Hs by done.
      rewrite Hne. by eexists.
  - cbn [exp_text app]. unfold scan_exponent. destruct rest as [|c r]; [by eexists|].
    cbn in Hr. replace (is_letter (ch "e") c) with false by clia. by eexists.
Qed.

Lemma mantissa_text n rest : numeral_okb n = true -> delimited rest = true ->
  exists f, scan_mantissa isdigit (n_int n ++ frac_text (n_frac n) ++ exp_text (n_exp n) ++ rest)
            = Some (n_int n, f, exp_text (n_exp n) ++ rest).
Proof.
  unfold numeral_okb. intros [[Hi Hf]%andb_true_iff He]%andb_true_iff Hr.
  destruct (digitsb_eq _ Hi) as (Hdi & c & r & Hcr & Hc).
  assert (Hne : (blen (n_int n) =? 0) = false).
  { rewrite Hcr, blen_cons. pose proof (blen_nonneg r). lia. }
  assert (Hnd : forall c q, exp_text (n_exp n) ++ rest = c :: q -> isdigit c = false).
  { apply tail_not; try done. intros d Hd. clia. }
  unfold scan_mantissa. rewrite span_app; [|done|].
  2: { apply after_int_not; try done. intros d Hd. clia. }
  destruct (n_frac n) as [f|]; cbn [frac_text app].
  - change (ch "." =? ch ".") with true. cbv iota. rewrite span_app; [|by apply digitsb_eq|done].
    rewrite Hne. cbn [andb]. rewrite ?Hne. by eexists.
  - assert (Hp : forall c q, exp_text (n_exp n) ++ rest = c :: q -> (c =? ch ".") = false).
    { apply tail_not; try done. intros d Hd. clia. }
    destruct (exp_text (n_exp n) ++ rest) as [|d q]; [rewrite Hne; by eexists|].
    rewrite (Hp d q) by done. rewrite Hne. by eexists.
Qed.

(** A printed number is scanned to its end. *)
Lemma number_text n rest : numeral_okb n = true -> delimited rest = true ->
  exists v, number_ (numeral_text n ++ rest) = Some (v, rest).
Proof.
  intros Hn Hr. assert (Hn' := Hn). unfold numeral_okb in Hn'.
  apply andb_true_iff in Hn' as [[Hi _]%andb_true_iff He].
  destruct (digitsb_eq _ Hi) as (Hdi & c & r & Hcr & Hc).
  set (u := n_int n ++ frac_text (n_frac n) ++ exp_text (n_exp n) ++ rest).
  assert (Hu : exists q, u = c :: q) by (unfold u; rewrite Hcr; by eexists).
  destruct Hu as [q Hu].
  assert (Hws : ws (numeral_text n ++ rest) = numeral_text n ++ rest).
  { unfold numeral_text. rewrite <- !app_assoc. destruct (n_neg n); [done|]. cbn [app].
    fold u. rewrite Hu. cbn [ws]. by replace (isspace c) with false by clia. }
  unfold number_, strtod. rewrite ws_ws, Hws.
  assert (Hsign : exists neg,
    match numeral_text n ++ rest with
    | c :: r => if c =? ch "-" then (true, r) else if c =? ch "+" then (false, r) else (false, numeral_text n ++ rest)
    | [] => (false, numeral_text n ++ rest) end = (neg, u)).
  { unfold numeral_text. rewrite <- !app_assoc. fold u. destruct (n_neg n).
    - by exists true.
    - cbn [app]. rewrite Hu. exists false.
      replace (c =? ch "-") with false by clia. by replace (c =? ch "+") with false by clia. }
  destruct Hsign as [neg ->].
  assert (Hl : forall l w, (forall c, isdigit c = true -> is_letter l c = false) -> letters u (l :: w) = None).
  { intros l w Hlc. rewrite Hu. cbn. by rewrite Hlc. }
  change (bs "inf") with (ch "i" :: bs "nf"). rewrite Hl by (intros d Hd; clia).
  change (bs "nan") with (ch "n" :: bs "an"). rewrite Hl by (intros d Hd; clia).
  assert (Hx : scan_hexadecimal neg u = None).
  { unfold scan_hexadecimal. rewrite Hu. destruct q as [|x q]; [done|].
    replace (is_letter (ch "x") x) with false; [by rewrite andb_false_r|].
    symmetry. destruct r as [|d r].
    - assert (Hx : frac_text (n_frac n) ++ exp_text (n_exp n) ++ rest = x :: q).
      { unfold u in Hu. rewrite Hcr in Hu. by injection Hu. }
      revert Hx. apply after_int_not; try done. intros d Hd. clia.
    - unfold u in Hu. rewrite Hcr in Hu. injection Hu as <- _.
      rewrite Hcr in Hdi. cbn in Hdi. clia. }
  rewrite Hx. unfold scan_decimal. destruct (mantissa_text n rest Hn Hr) as [f Hf]. unfold u. rewrite Hf.
  destruct (exponent_text (n_exp n) rest) as [e ->]; [|done|by eexists].
  destruct (n_exp n) as [[[up s] d]|]; done.
Qed.

(** ** Skipping printed values *)

Lemma ws_app w p : forallb isspace w = true -> ws (w ++ p) = ws p.
Proof. induction w as [|c w IH]; cbn; [done|]. intros [-> Hw]%andb_true_iff. by apply IH. Qed.

Lemma ws_nonspace c p : isspace c = false -> ws (c :: p) = c :: p.
Proof. intros H. cbn. by rewrite H. Qed.

Lemma delimited_app w c p : forallb isspace w = true -> delimiter c = true -> delimited (w ++ c :: p) = true.
Proof.
  destruct w as [|x w]; cbn; [done|]. intros [Hx _]%andb_true_iff _. unfold delimiter. by rewrite Hx.
Qed.

(** The first byte of a value's text. *)
Definition starts_value (c : Z) : bool :=
  negb (isspace c) && negb (c =? ch "]") && negb (c =? ch "}").

Lemma text_head w j : json_okb j = true -> exists c r, text w j = c :: r /\ starts_value c = true.
Proof.
  destruct j as [[]|n|s|l|m]; intros H; try (do 2 eexists; split; [reflexivity|reflexivity]).
  cbn in *. unfold numeral_okb in H. apply andb_true_iff in H as [[Hi _]%andb_true_iff _].
  destruct (digitsb_eq _ Hi) as (_ & c & r & Hcr & Hc). unfold numeral_text. rewrite Hcr.
  destruct (n_neg n); [by do 2 eexists|]. exists c. eexists. split; [reflexivity|].
  unfold starts_value. clia.
Qed.

Lemma ws_text w j p : json_okb j = true -> ws (text w j ++ p) = text w j ++ p.
Proof.
  intros H. destruct (text_head w j H) as (c & r & -> & Hc). cbn [app]. apply ws_nonspace.
  unfold starts_value in Hc. by destruct (isspace c).
Qed.

Lemma value_at_leaf c r d :
  (c =? 34) = false -> (c =? ch "{") = false -> (c =? ch "[") = false -> isspace c = false ->
  value_at (c :: r) d =
    match lit (c :: r) (bs "true") with
    | Some r => Some r
    | None =>
        match lit (c :: r) (bs "false") with
        | Some r => Some r
        | None =>
            match lit (c :: r) (bs "null") with
            | Some r => Some r
            | None => match number_ (c :: r) with Some (_, r) => Some r | None => None end
            end
        end
    end.
Proof.
  intros H1 H2 H3 H4. unfold value_at.
  replace (2 * length (c :: r) + 1)%nat with (S (2 * length r + 2)) by (cbn; lia).
  cbn [skip_value]. rewrite ws_nonspace by done. cbv zeta iota. by rewrite H1, H2, H3.
Qed.

Lemma value_literal l rest d : value_at (literal_text l ++ rest) d = Some rest.
Proof.
  destruct l; cbn [literal_text].
  - change (bs "true") with (ch "t" :: bs "rue"). cbn [app]. rewrite value_at_leaf by done.
    change (ch "t" :: bs "rue" ++ rest) with (bs "true" ++ rest). by rewrite lit_app.
  - change (bs "false") with (ch "f" :: bs "alse"). cbn [app]. rewrite value_at_leaf by done.
    change (ch "f" :: bs "alse" ++ rest) with (bs "false" ++ rest). by rewrite lit_app.
  - change (bs "null") with (ch "n" :: bs "ull"). cbn [app]. rewrite value_at_leaf by done.
    change (ch "n" :: bs "ull" ++ rest) with (bs "null" ++ rest). by rewrite lit_app.
Qed.

Lemma lit_head c r l x : c <> x -> lit (c :: r) (x :: l) = None.
Proof. intros H. cbn. destruct (Z.eqb_spec x c); [congruence|done]. Qed.

Lemma value_numeral n rest d : numeral_okb n = true -> delimited rest = true ->
  value_at (numeral_text n ++ rest) d = Some rest.
Proof.
  intros Hn Hr. destruct (number_text n rest Hn Hr) as [v Hv].
  assert (Hh : exists c r, numeral_text n ++ rest = c :: r /\ (isdigit c = true \/ c = ch "-")).
  { unfold numeral_okb in Hn. apply andb_true_iff in Hn as [[Hi _]%andb_true_iff _].
    destruct (digitsb_eq _ Hi) as (_ & c & r & Hcr & Hc). unfold numeral_text. rewrite Hcr.
    destruct (n_neg n); do 2 eexists; (split; [reflexivity|]); [by right|by left]. }
  destruct Hh as (c & r & Hcr & Hc). rewrite Hcr in *.
  rewrite value_at_leaf by clia.
  change (bs "true") with (ch "t" :: bs "rue"). change (bs "false") with (ch "f" :: bs "alse").
  change (bs "null") with (ch "n" :: bs "ull"). rewrite !lit_head by clia. by rewrite Hv.
Qed.

Lemma value_string s rest d : cstring s -> value_at (escape s ++ rest) d = Some rest.
Proof.
  intros Hs. pose proof (string_escape s rest Hs) as H. unfold escape in *. cbn [app] in *.
  by rewrite value_at_string, H.
Qed.

(** The texts of a value are accepted at depth [d] exactly within the limit. *)
Definition skips (w : list Z) (j : json) : Prop := forall d rest, json_okb j = true ->
  delimited rest = true -> 0 <= d <= MAX_NESTING ->
  value_at (text w j ++ rest) d = if d + depth j <=? MAX_NESTING then Some rest else None.

Section Skip.
Variable w : list Z.
Hypothesis Hw : forallb isspace w = true.

Lemma ws_item c p : isspace c = false -> ws (w ++ c :: p) = c :: p.
Proof using Hw. intros H. by rewrite ws_app, ws_nonspace by done. Qed.

Lemma elements_text l d rest : Forall (skips w) l -> l <> [] -> forallb json_okb l = true ->
  0 <= d < MAX_NESTING ->
  elements_at (join w (map (text w) l) ++ ch "]" :: rest) d =
    if forallb (fun j => d + 1 + depth j <=? MAX_NESTING) l then Some rest else None.
Proof using Hw.
  intros Hl Hne Hok Hd. induction Hl as [|j l Hj Hl IH]; [done|].
  cbn in Hok. apply andb_true_iff in Hok as [Hokj Hok]. rewrite elements_at_eq.
  destruct l as [|j' l].
  - cbn [map join forallb]. rewrite <- app_assoc.
    rewrite Hj; [|done|by apply delimited_app|lia].
    destruct (d + 1 + depth j <=? MAX_NESTING); [|done]. cbn [andb]. by rewrite ws_item.
  - cbn [map join]. rewrite <- !app_assoc. rewrite Hj; [|done|by apply delimited_app|lia].
    cbn [forallb]. destruct (d + 1 + depth j <=? MAX_NESTING); [|done]. cbn [andb].
    cbn [app]. rewrite ws_item by done.
    change (ch "," =? ch "]") with false. change (negb (ch "," =? ch ",")) with false. cbv iota.
    rewrite <- app_assoc. rewrite elements_at_eq, <- value_at_ws, ws_app, value_at_ws, <- elements_at_eq by done.
    by apply IH.
Qed.

Lemma members_text m d rest : Forall (fun kv => skips w kv.2) m -> m <> [] ->
  forallb (fun kv => cstringb kv.1 && json_okb kv.2) m = true ->
  0 <= d < MAX_NESTING ->
  members_at (join w (map (fun kv => escape kv.1 ++ w ++ ch ":" :: w ++ text w kv.2) m) ++ ch "}" :: rest) d =
    if forallb (fun kv => d + 1 + depth kv.2 <=? MAX_NESTING) m then Some rest else None.
Proof using Hw.
  intros Hl Hne Hok Hd. induction Hl as [|[k j] m Hj Hl IH]; [done|]. cbn [fst snd] in *.
  cbn in Hok. apply andb_true_iff in Hok as [[Hk%cstringb_ok Hokj]%andb_true_iff Hok].
  assert (Hone : forall q, delimited q = true ->
    members_at ((escape k ++ w ++ ch ":" :: w ++ text w j) ++ q) d =
    if d + 1 + depth j <=? MAX_NESTING then
      match ws q with
      | c :: r => if c =? ch "}" then Some r else if negb (c =? ch ",") then None else members_at r d
      | [] => None
      end
    else None).
  { intros q Hq. rewrite members_at_eq, <- app_assoc, string_escape by done.
    rewrite <- app_assoc. cbn [app]. rewrite ws_item by done.
    change (negb (ch ":" =? ch ":")) with false. cbv iota.
    rewrite <- app_assoc, <- value_at_ws, ws_app, value_at_ws by done.
    rewrite Hj by (done || lia). by destruct (_ <=? _). }
  destruct m as [|kv m].
  - cbn [map join forallb fst snd]. rewrite <- (app_assoc _ w), Hone by (by apply delimited_app).
    destruct (_ <=? _); [|done]. cbn [andb]. by rewrite ws_item.
  - cbn [map join fst snd]. rewrite <- (app_assoc (escape k ++ _)), Hone by (by rewrite <- app_assoc; apply delimited_app).
    cbn [forallb fst snd]. destruct (d + 1 + depth j <=? MAX_NESTING); [|done]. cbn [andb].
    rewrite <- app_assoc. cbn [app]. rewrite ws_item by done.
    change (ch "," =? ch "}") with false. change (negb (ch "," =? ch ",")) with false. cbv iota.
    rewrite <- app_assoc, members_at_eq, <- string_ws, ws_app, string_ws, <- members_at_eq by done.
    by apply IH.
Qed.

Lemma fits_children {A} (f : A -> Z) l d : (forall x, 0 <= f x) ->
  d < MAX_NESTING ->
  forallb (fun x => d + 1 + f x <=? MAX_NESTING) l = (d + (1 + foldr Z.max 0 (map f l)) <=? MAX_NESTING).
Proof.
  intros Hf Hd. unfold MAX_NESTING in *. induction l as [|x l IH]; cbn [forallb map foldr]; [lia|].
  rewrite IH. lia.
Qed.

Lemma foldr_max_nonneg {A} (f : A -> Z) l : 0 <= foldr Z.max 0 (map f l).
Proof. induction l as [|x l IH]; cbn [map foldr]; lia. Qed.

Lemma depth_nonneg j : 0 <= depth j.
Proof.
  destruct j as [l|n|s|l|m]; cbn [depth]; try lia.
  - pose proof (foldr_max_nonneg depth l). lia.
  - pose proof (foldr_max_nonneg (fun kv : list Z * json => depth kv.2) m). lia.
Qed.

Lemma skips_text j : skips w j.
Proof using Hw.
  induction j as [l|n|s|l IH|m IH] using json_ind'; intros d rest Hok Hr Hd; cbn [text depth json_okb] in *.
  - rewrite value_literal. by destruct (Z.leb_spec (d + 0) MAX_NESTING); [|lia].
  - rewrite value_numeral by done. by destruct (Z.leb_spec (d + 0) MAX_NESTING); [|lia].
  - rewrite value_string by by apply cstringb_ok.
    by destruct (Z.leb_spec (d + 0) MAX_NESTING); [|lia].
  - cbn [app]. rewrite value_at_array, <- !app_assoc. cbn [app].
    destruct (Z.leb_spec MAX_NESTING d) as [Hx|Hx].
    { destruct (Z.leb_spec (d + (1 + foldr Z.max 0 (map depth l))) MAX_NESTING); [|done].
      pose proof (foldr_max_nonneg depth l). lia. }
    rewrite <- (fits_children depth) by (apply depth_nonneg || lia).
    destruct l as [|j l]; [cbn [map join app forallb]; by rewrite ws_item|].
    assert (Hh : exists c r, join w (map (text w) (j :: l)) ++ ch "]" :: rest = c :: r /\ starts_value c = true).
    { apply andb_true_iff in Hok as [Hj _]. destruct (text_head w j Hj) as (c & r & E & Hc).
      cbn [map join]. rewrite E. exists c. destruct (map (text w) l); eexists; (split; [reflexivity|done]). }
    destruct Hh as (c & r & E & Hc).
    rewrite E, ws_item by (unfold starts_value in Hc; by destruct (isspace c)).
    replace (c =? ch "]") with false by (unfold starts_value in Hc; clia).
    rewrite <- E. apply elements_text; done || lia.
  - cbn [app]. rewrite value_at_object, <- !app_assoc. cbn [app].
    destruct (Z.leb_spec MAX_NESTING d) as [Hx|Hx].
    { destruct (Z.leb_spec (d + (1 + foldr Z.max 0 (map (fun kv => depth kv.2) m))) MAX_NESTING); [|done].
      pose proof (foldr_max_nonneg (fun kv : list Z * json => depth kv.2) m). lia. }
    rewrite <- (fits_children (fun kv => depth kv.2)) by (intros; apply depth_nonneg || lia).
    destruct m as [|[k j] m]; [cbn [map join app forallb]; by rewrite ws_item|].
    assert (Hh : exists r, join w (map (fun kv => escape kv.1 ++ w ++ ch ":" :: w ++ text w kv.2) ((k, j) :: m)) ++ ch "}" :: rest = 34 :: r).
    { cbn [map join]. destruct (map _ m); eexists; reflexivity. }
    destruct Hh as (r & E). rewrite E, ws_item by done. change (34 =? ch "}") with false. cbv iota.
    rewrite <- E. apply members_text; done || lia.
Qed.
End Skip.

(** ** Raw values and minification *)

Definition plain (c : Z) : bool := negb (isspace c) && negb (c =? 34).

Lemma minify_plain a k : forallb plain a = true ->
  minify_loop (a ++ k) false false = a ++ minify_loop k false false.
Proof.
  induction a as [|c a IH]; cbn; [done|]. unfold plain. intros [[Hs Hq]%andb_true_iff Ha]%andb_true_iff.
  destruct (c =? 34); [done|]. rewrite Hs. f_equal. by apply IH.
Qed.

Lemma minify_space w k : forallb isspace w = true ->
  minify_loop (w ++ k) false false = minify_loop k false false.
Proof.
  induction w as [|c w IH]; cbn; [done|]. intros [Hs Hw]%andb_true_iff.
  replace (c =? 34) with false by clia. rewrite Hs. by apply IH.
Qed.

Lemma minify_in_string c k : c <> 34 -> c <> ch "\" ->
  minify_loop (c :: k) true false = c :: minify_loop k true false.
Proof.
  intros H1 H2. cbn. destruct (Z.eqb_spec c (ch "\")); [done|]. by destruct (Z.eqb_spec c 34).
Qed.

Lemma hexdigit_plain v : 0 <= v < 16 -> hexdigit v <> 34 /\ hexdigit v <> ch "\".
Proof. intros H. unfold hexdigit. case_match; clia. Qed.

Lemma minify_escape_byte c k : 0 < c < 256 ->
  minify_loop (escape_byte c ++ k) true false = escape_byte c ++ minify_loop k true false.
Proof.
  intros Hc. destruct (escape_byte_cases c Hc) as [[-> Hq]|[(e & -> & He & Hu & _)|[[-> Hlt]|[-> (Hq & Hs & _)]]]];
    [done|done| |by apply minify_in_string].
  assert (Hh : forall v, 0 <= v < 16 -> forall q,
    minify_loop (hexdigit v :: q) true false = hexdigit v :: minify_loop q true false).
  { intros v Hv q. destruct (hexdigit_plain v Hv). by apply minify_in_string. }
  assert (Hs : 0 <= Z.shiftr c 4 < 16).
  { rewrite Z.shiftr_div_pow2 by lia. change (2 ^ 4) with 16. split; [apply Z.div_pos|apply Z.div_lt_upper_bound]; lia. }
  assert (Hl : 0 <= Z.land c 15 < 16).
  { change 15 with (Z.ones 4). rewrite Z.land_ones by lia. change (2 ^ 4) with 16. apply Z.mod_pos_bound. lia. }
  cbn [app]. transitivity ([ch "\"; ch "u"; ch "0"; ch "0"] ++
    minify_loop (hexdigit (Z.shiftr c 4) :: hexdigit (Z.land c 15) :: k) true false); [done|].
  by rewrite !Hh.
Qed.

Lemma minify_escape s k : cstring s ->
  minify_loop (escape s ++ k) false false = escape s ++ minify_loop k false false.
Proof.
  intros Hs. unfold escape. rewrite <- !app_assoc. cbn [app].
  change (minify_loop (34 :: ?x) false false) with (34 :: minify_loop x true false). f_equal.
  induction Hs as [|c s Hc Hs IH]; cbn [map concat]; [done|].
  rewrite <- !app_assoc, minify_escape_byte by done. by rewrite IH.
Qed.

Lemma digits_plain l : forallb isdigit l = true -> forallb plain l = true.
Proof.
  rewrite !forallb_forall. intros H c Hc. specialize (H c Hc). unfold plain. clia.
Qed.

Lemma numeral_plain n : numeral_okb n = true -> forallb plain (numeral_text n) = true.
Proof.
  unfold numeral_okb. intros [[Hi Hf]%andb_true_iff He]%andb_true_iff. unfold numeral_text.
  rewrite !forallb_app, !andb_true_iff. split; [by destruct (n_neg n)|].
  split; [by apply digits_plain, digitsb_eq|]. split.
  - destruct (n_frac n); [|done]. cbn. by apply digits_plain, digitsb_eq.
  - destruct (n_exp n) as [[[up s] d]|]; [|done]. cbn [exp_text forallb].
    rewrite forallb_app, !andb_true_iff. split; [by destruct up|]. split; [by destruct s as [[]|]|].
    by apply digits_plain, digitsb_eq.
Qed.

Section Minify.
Variable w : list Z.
Hypothesis Hw : forallb isspace w = true.

Lemma minify_join (items items' : list (list Z)) k :
  Forall2 (fun x x' => forall k, minify_loop (x ++ k) false false = x' ++ minify_loop k false false)
    items items' ->
  minify_loop (join w items ++ k) false false = join [] items' ++ minify_loop k false false.
Proof using Hw.
  induction 1 as [|x x' items items' Hx Hr IH]; [done|].
  destruct Hr as [|y y' items items' Hy Hr].
  - cbn [join]. rewrite <- app_assoc, Hx, minify_space by done. by rewrite app_nil_r.
  - remember (y :: items) as l. remember (y' :: items') as l'.
    assert (E : forall v, join v (x :: l) = x ++ v ++ ch "," :: v ++ join v l) by (by subst).
    assert (E' : forall v, join v (x' :: l') = x' ++ v ++ ch "," :: v ++ join v l') by (by subst).
    rewrite E, E', <- !app_assoc, Hx, minify_space by done. cbn [app]. f_equal.
    change (minify_loop (ch "," :: ?z) false false) with (ch "," :: minify_loop z false false). f_equal.
    rewrite <- app_assoc, minify_space by done. exact IH.
Qed.

Lemma minify_text j : json_okb j = true -> forall k,
  minify_loop (text w j ++ k) false false = text [] j ++ minify_loop k false false.
Proof using Hw.
  induction j as [l|n|s|l IH|m IH] using json_ind'; intros Hok k; cbn [text json_okb] in *.
  - apply minify_plain. by destruct l.
  - by apply minify_plain, numeral_plain.
  - by apply minify_escape, cstringb_ok.
  - cbn [app]. change (minify_loop (ch "[" :: ?z) false false) with (ch "[" :: minify_loop z false false).
    rewrite <- !app_assoc, minify_space, minify_join with (items' := map (text []) l); [done| |done].
    apply forallb_Forall in Hok. induction IH as [|j l Hj Hl IHl]; [constructor|].
    inversion Hok; subst. constructor; [by apply Hj|by apply IHl].
  - cbn [app]. change (minify_loop (ch "{" :: ?z) false false) with (ch "{" :: minify_loop z false false).
    rewrite <- !app_assoc, minify_space, minify_join
      with (items' := map (fun kv => escape kv.1 ++ ch ":" :: text [] kv.2) m); [done| |done].
    apply forallb_Forall in Hok. induction IH as [|[key j] m Hj Hl IHl]; [constructor|].
    inversion Hok as [|? ? Hkv Hm]; subst. constructor; [|by apply IHl]. cbn [fst snd] in *.
    apply andb_true_iff in Hkv as [Hk%cstringb_ok Hokj]. intros q.
    rewrite <- !app_assoc, minify_escape, minify_space by done. f_equal. cbn [app].
    change (minify_loop (ch ":" :: ?z) false false) with (ch ":" :: minify_loop z false false).
    by rewrite <- app_assoc, minify_space, Hj.
Qed.
End Minify.

Lemma raw_value_text pad w j rest : forallb isspace pad = true -> forallb isspace w = true ->
  json_okb j = true -> delimited rest = true -> depth j <= MAX_NESTING ->
  raw_value (pad ++ text w j ++ rest) = Some (text w j, rest).
Proof.
  intros Hp Hw Hok Hr Hd. unfold raw_value. rewrite ws_app, ws_text, skip_at by done.
  rewrite (skips_text w Hw) by (done || (unfold MAX_NESTING; lia)).
  destruct (Z.leb_spec (0 + depth j) MAX_NESTING); [|lia].
  rewrite blen_app. replace (blen (text w j) + blen rest - blen rest) with (blen (text w j)) by lia.
  by rewrite ztake_app.
Qed.

(** ** Properties *)

(** The reader returns exactly the string that json_escape wrote, and stops
    right behind its closing quote, for every C string. *)
Theorem string_roundtrip s rest : cstring s -> string_ (escape s ++ rest) = Some (s, rest).
Proof. apply string_escape. Qed.

Lemma skip_exact_holds pad w j rest :
  forallb isspace pad = true -> forallb isspace w = true -> json_okb j = true -> delimited rest = true ->
  skip (pad ++ text w j ++ rest) = if depth j <=? MAX_NESTING then Some rest else None.
Proof.
  intros Hp Hw Hok Hr. rewrite skip_at, <- value_at_ws, ws_app, value_at_ws by done.
  by rewrite (skips_text w Hw) by (done || (unfold MAX_NESTING; lia)).
Qed.

(** A printed JSON value, with any white space between its tokens, is skipped
    to its end when its containers nest at most 256 deep and refused when they
    nest deeper. *)
Theorem skip_exact pad w j rest :
  forallb isspace pad = true -> forallb isspace w = true -> json_okb j = true -> delimited rest = true ->
  skip (pad ++ text w j ++ rest) = if depth j <=? MAX_NESTING then Some rest else None.
Proof. apply skip_exact_holds. Qed.

(** A raw value is the text of the value, and minifying it gives the one text
    of that value without white space, whatever white space it was written
    with. *)
Theorem raw_value_canonical pad w j rest :
  forallb isspace pad = true -> forallb isspace w = true -> json_okb j = true -> delimited rest = true ->
  depth j <= MAX_NESTING ->
  raw_value (pad ++ text w j ++ rest) = Some (text w j, rest) /\
  minify (Some (pad ++ text w j ++ rest)) = text [] j /\
  value_is_complete (Some (pad ++ text w j ++ w)) = Some (text [] j).
Proof.
  intros Hp Hw Hok Hr Hd.
  assert (Hmin : forall pad rest, forallb isspace pad = true -> delimited rest = true ->
    minify (Some (pad ++ text w j ++ rest)) = text [] j).
  { intros p r Hp' Hr'. unfold minify. change (default (bs "null") (Some ?x)) with x. cbv zeta. rewrite raw_value_text by done.
    rewrite <- (app_nil_r (text w j)), (minify_text w Hw) by done. cbn. by rewrite app_nil_r. }
  split; [by apply raw_value_text|]. split; [by apply Hmin|].
  assert (Hdw : delimited w = true) by (destruct w; [done|]; cbn in *; clia).
  unfold value_is_complete. change (default [] (Some ?x)) with x. cbv zeta. rewrite ws_app, ws_text by done.
  destruct (text_head w j Hok) as (c & r & E & Hc).
  rewrite skip_at, (skips_text w Hw) by (done || (unfold MAX_NESTING; lia)).
  destruct (Z.leb_spec (0 + depth j) MAX_NESTING); [|lia].
  rewrite E. cbn [app]. replace (ws w) with (@nil Z); [|by rewrite <- (app_nil_r w), ws_app].
  specialize (Hmin [] w eq_refl Hdw). rewrite E in Hmin. cbn [app] in Hmin. by rewrite Hmin.
Qed.

(** Skipping always ends: the fuel of the model is never what stops it, and a
    skipped value moves the position forward over at least one byte. *)
Theorem skip_terminates p d fuel : (skip_fuel p <= fuel)%nat ->
  skip_value fuel p d = skip_value (skip_fuel p) p d /\
  (forall q, skip_value fuel p d = Some q -> exists a, p = a ++ q /\ a <> []).
Proof.
  unfold skip_fuel. intros Hf. split; [by rewrite skip_value_at|].
  intros q [a [-> Ha]]%skip_value_eats. exists a. split; [done|]. by destruct a; [cbn in Ha; lia|].
Qed.

(** ** Message contents *)

(** The texts of a list, in order; [None] where one of them has none. *)
Fixpoint collect {A} (f : A -> option (list Z)) (l : list A) : option (list Z) :=
  match l with
  | [] => Some []
  | x :: l => a ← f x; b ← collect f l; Some (a ++ b)
  end.

(** The text that json_content takes from a value: of a string the string, of
    an array the strings and the [text] members of its objects in order; [None]
    where a [text] member is not a string. *)
Definition member_text (kv : list Z * json) : option (list Z) :=
  if streq kv.1 (bs "text") then match kv.2 with JStr s => Some s | _ => None end else Some [].
Definition part_text (j : json) : option (list Z) :=
  match j with JStr s => Some s | JObj m => collect member_text m | _ => Some [] end.
Definition content_text (j : json) : option (list Z) :=
  match j with JStr s => Some s | JArr l => collect part_text l | _ => Some [] end.

Section Content.
Variable w : list Z.
Hypothesis Hw : forallb isspace w = true.

Lemma skip_item j q : json_okb j = true -> depth j <= MAX_NESTING -> delimited q = true ->
  skip (text w j ++ q) = Some q.
Proof using Hw.
  intros Hok Hd Hq. pose proof (skip_exact_holds [] w j q eq_refl Hw Hok Hq) as H. cbn [app] in H.
  rewrite H. by destruct (Z.leb_spec (depth j) MAX_NESTING); [|lia].
Qed.

Lemma string_not_json j q : json_okb j = true -> (forall s, j <> JStr s) ->
  string_ (text w j ++ q) = None.
Proof using Hw.
  intros Hok Hs. unfold string_. rewrite ws_text by done.
  destruct j as [[]|n|s|l|m]; [done|done|done| |by edestruct Hs|done|done].
  cbn in Hok. unfold numeral_okb in Hok. apply andb_true_iff in Hok as [[Hi _]%andb_true_iff _].
  destruct (digitsb_eq _ Hi) as (_ & c & r & Hcr & Hc). cbn [text]. unfold numeral_text. rewrite Hcr.
  destruct (n_neg n); [done|]. cbn [app]. by replace (c =? 34) with false by clia.
Qed.

(** Behind an item: a delimiter, and behind the comma the rest of the items. *)
Lemma join_split x l e rest : isspace e = false -> e <> ch "," -> delimiter e = true ->
  exists t, join w (x :: l) ++ e :: rest = x ++ w ++ t /\ delimited (w ++ t) = true /\
            ws (comma (ws (w ++ t))) = ws (join w l ++ e :: rest).
Proof using Hw.
  intros Hs Hc Hd. destruct l as [|y l].
  - exists (e :: rest). cbn [join]. rewrite <- app_assoc. split; [done|]. split; [by apply delimited_app|].
    rewrite ws_app, ws_nonspace by done. cbn [comma]. by destruct (Z.eqb_spec e (ch ",")).
  - exists (ch "," :: w ++ join w (y :: l) ++ e :: rest).
    split; [|split; [by apply delimited_app|]].
    + change (join w (x :: y :: l)) with (x ++ w ++ ch "," :: w ++ join w (y :: l)).
      rewrite <- !app_assoc. cbn [app]. by rewrite <- app_assoc.
    + rewrite ws_app, ws_nonspace by done. change (comma (ch "," :: ?z)) with z. by apply ws_app.
Qed.

Lemma shorter (x t : list Z) : x <> [] -> (length (ws (comma (ws (w ++ t)))) < length (x ++ w ++ t))%nat.
Proof.
  intros Hx. pose proof (eats_length _ _ _ (ws_eats (comma (ws (w ++ t))))).
  pose proof (eats_length _ _ _ (comma_eats (ws (w ++ t)))). pose proof (ws_length (w ++ t)).
  rewrite length_app. destruct x; [done|cbn [length]; lia].
Qed.

Lemma text_ne j : json_okb j = true -> text w j <> [].
Proof. intros H. destruct (text_head w j H) as (c & r & -> & _). done. Qed.

Definition member_item (kv : list Z * json) : list Z :=
  escape kv.1 ++ w ++ ch ":" :: w ++ text w kv.2.

Lemma string_spaces p : string_ (w ++ p) = string_ p.
Proof using Hw. by rewrite <- string_ws, ws_app, string_ws. Qed.
Lemma skip_spaces p : skip (w ++ p) = skip p.
Proof using Hw. by rewrite !skip_at, <- value_at_ws, ws_app, value_at_ws. Qed.

Lemma content_members_text m rest : Forall (fun kv => cstringb kv.1 && json_okb kv.2 = true /\
    depth kv.2 <= MAX_NESTING) m ->
  forall f b, (length (join w (map member_item m) ++ ch "}" :: rest) < f)%nat ->
  content_members f (join w (map member_item m) ++ ch "}" :: rest) b =
  ((fun t => (b ++ t, rest)) <$> collect member_text m).
Proof using Hw.
  induction 1 as [|[k j] m [Hok Hd] Hm IH]; intros f b Hf; (destruct f as [|f]; [lia|]).
  { cbn [map join app content_members collect]. change (ch "}" =? ch "}") with true. cbn. by rewrite app_nil_r. }
  cbn [fst snd] in *. apply andb_true_iff in Hok as [Hk%cstringb_ok Hok]. cbn [map] in *.
  destruct (join_split (member_item (k, j)) (map member_item m) (ch "}") rest) as (t & Ht & Hdt & Hnext); [done..|].
  rewrite Ht in *. unfold member_item in *. cbn [fst snd] in *.
  assert (Hws : ws (join w (map (fun kv => escape kv.1 ++ w ++ ch ":" :: w ++ text w kv.2) m) ++ ch "}" :: rest) =
    join w (map (fun kv => escape kv.1 ++ w ++ ch ":" :: w ++ text w kv.2) m) ++ ch "}" :: rest).
  { destruct m as [|kv [|kv' m]]; done. }
  rewrite Hws in Hnext.
  pose proof (shorter (escape k ++ w ++ ch ":" :: w ++ text w j) t ltac:(done)) as Hlen.
  cbn [collect content_members]. unfold mbind, option_bind.
  assert (Hhead : exists r, (escape k ++ w ++ ch ":" :: w ++ text w j) ++ w ++ t = 34 :: r) by (eexists; reflexivity).
  destruct Hhead as [r Hr]. rewrite Hr. change (34 =? ch "}") with false. cbv iota. rewrite <- Hr.
  rewrite <- (app_assoc (escape k)), string_escape by done.
  rewrite <- app_assoc. cbn [app]. rewrite ws_item by done.
  change (negb (ch ":" =? ch ":")) with false. cbv iota. rewrite <- app_assoc.
  unfold member_text at 1. cbn [fst snd].
  destruct (streq k (bs "text")).
  - rewrite string_spaces.
    destruct j as [l|n|s|l|l0]; try (rewrite string_not_json by done; done).
    cbn [text]. rewrite string_escape by (by apply cstringb_ok). rewrite Hnext in *. rewrite IH by lia.
    destruct (collect member_text m); [|done]. cbn. by rewrite app_assoc.
  - rewrite skip_spaces, skip_item by done. rewrite Hnext in *. rewrite IH by lia.
    by destruct (collect member_text m).
Qed.

Lemma content_parts_text l rest : Forall (fun j => json_okb j = true /\ depth j <= MAX_NESTING) l ->
  forall f b, (length (join w (map (text w) l) ++ ch "]" :: rest) < f)%nat ->
  content_parts f (join w (map (text w) l) ++ ch "]" :: rest) b =
  ((fun t => (b ++ t, rest)) <$> collect part_text l).
Proof using Hw.
  induction 1 as [|j l [Hok Hd] Hl IH]; intros f b Hf; (destruct f as [|f]; [lia|]).
  { cbn [map join app content_parts collect]. change (ch "]" =? ch "]") with true. cbn. by rewrite app_nil_r. }
  cbn [map] in *.
  destruct (join_split (text w j) (map (text w) l) (ch "]") rest) as (t & Ht & Hdt & Hnext); [done..|].
  rewrite Ht in *.
  assert (Hws : ws (join w (map (text w) l) ++ ch "]" :: rest) = join w (map (text w) l) ++ ch "]" :: rest).
  { destruct Hl as [|j' l [Hok' _] Hl]; [done|]. cbn [map].
    destruct (join_split (text w j') (map (text w) l) (ch "]") rest) as (t' & -> & _); [done..|].
    by apply ws_text. }
  rewrite Hws in Hnext. pose proof (shorter (text w j) t (text_ne j Hok)) as Hlen. rewrite Hnext in Hlen.
  specialize (IH f). cbn [collect]. unfold mbind, option_bind.
  destruct (text_head w j Hok) as (c & r & E & Hc).
  assert (Hc' : (c =? ch "]") = false) by (unfold starts_value in Hc; clia).
  destruct j as [li|n|s|li|m].
  3: { cbn [content_parts text part_text] in *. rewrite string_escape by (by apply cstringb_ok).
       change (escape s ++ w ++ t) with (34 :: (concat (map escape_byte s) ++ [34]) ++ w ++ t). cbv iota.
       change (34 =? ch "]") with false. change (34 =? 34) with true. cbv iota.
       rewrite Hnext, IH by lia. destruct (collect part_text l); [|done]. cbn. by rewrite app_assoc. }
  4: { assert (Hm : Forall (fun kv => cstringb kv.1 && json_okb kv.2 = true /\ depth kv.2 <= MAX_NESTING) m).
       { cbn in Hok. apply forallb_Forall in Hok. apply List.Forall_forall. intros kv Hin.
         rewrite List.Forall_forall in Hok. split; [by apply Hok|]. cbn [depth] in Hd.
         clear -Hd Hin. induction m as [|kv' m IH]; [done|]. cbn [map foldr] in Hd.
         destruct Hin as [->|Hin]; [lia|apply IH; [lia|done]]. }
       cbn [text part_text app] in *. rewrite <- !app_assoc in *. cbn [content_parts].
       change (ch "{" =? ch "]") with false. change (ch "{" =? 34) with false.
       change (ch "{" =? ch "{") with true. cbv iota. rewrite ws_app by done.
       cbn [app]. fold member_item.
       assert (Hwm : ws (join w (map member_item m) ++ ch "}" :: w ++ t) = join w (map member_item m) ++ ch "}" :: w ++ t)
         by (by destruct m as [|kv [|kv' m]]).
       rewrite Hwm, content_members_text; [|done|rewrite !length_app; cbn [length]; lia].
       destruct (collect member_text m) as [tm|]; [|done]. cbn [fmap option_fmap option_map].
       rewrite Hnext, IH by lia. destruct (collect part_text l); [|done]. cbn. by rewrite app_assoc. }
  all: cbn [part_text]; pose proof (skip_item _ (w ++ t) Hok Hd Hdt) as Hskip;
    assert (c <> 34 /\ c <> ch "{") as [H34 H7b];
    [|cbn [content_parts]; rewrite E in *; cbn [app] in *; rewrite Hc';
      destruct (Z.eqb_spec c 34); [done|]; destruct (Z.eqb_spec c (ch "{")); [done|];
      rewrite Hskip, Hnext, IH by lia; by destruct (collect part_text l)].
  - by destruct li; injection E as <- _.
  - cbn in Hok. unfold numeral_okb in Hok. apply andb_true_iff in Hok as [[Hi _]%andb_true_iff _].
    destruct (digitsb_eq _ Hi) as (_ & c' & r' & Hcr & Hc1). cbn [text] in E. unfold numeral_text in E.
    rewrite Hcr in E. destruct (n_neg n); injection E as <- _; clia.
  - by injection E as <- _.
Qed.
End Content.

(** The content of a message is the concatenation of its text parts: of a
    string the string itself, of an array its strings and the [text] members of
    its objects in order, nothing of any other value; it is refused exactly
    when a [text] member is not a string. *)
Theorem content_collects_text pad w j rest :
  forallb isspace pad = true -> forallb isspace w = true -> json_okb j = true -> delimited rest = true ->
  depth j <= MAX_NESTING ->
  content (pad ++ text w j ++ rest) = (fun t => (t, rest)) <$> content_text j.
Proof.
  intros Hp Hw Hok Hr Hd. unfold content. rewrite ws_app, ws_text by done.
  pose proof (skip_item w Hw j rest Hok Hd Hr) as Hs.
  destruct j as [l|n|s|l|m].
  - pose proof (lit_app (bs "null") rest) as Hn.
    destruct l; cbn [text literal_text] in *.
    + change (bs "true" ++ rest) with (ch "t" :: bs "rue" ++ rest) in *. cbv iota.
      change (bs "null") with (ch "n" :: bs "ull"). rewrite lit_head by done. by rewrite Hs.
    + change (bs "false" ++ rest) with (ch "f" :: bs "alse" ++ rest) in *. cbv iota.
      change (bs "null") with (ch "n" :: bs "ull"). rewrite lit_head by done. by rewrite Hs.
    + change (bs "null" ++ rest) with (ch "n" :: bs "ull" ++ rest) in *. cbv iota. by rewrite Hn.
  - cbn [text content_text] in *.
    assert (Hh : exists c r, numeral_text n ++ rest = c :: r /\ (isdigit c = true \/ c = ch "-")).
    { cbn in Hok. unfold numeral_okb in Hok. apply andb_true_iff in Hok as [[Hi _]%andb_true_iff _].
      destruct (digitsb_eq _ Hi) as (_ & c & r & Hcr & Hc). unfold numeral_text. rewrite Hcr.
      destruct (n_neg n); do 2 eexists; (split; [reflexivity|]); [by right|by left]. }
    destruct Hh as (c & r & E & Hc). rewrite E in *. cbv iota.
    replace (c =? 34) with false by clia. change (bs "null") with (ch "n" :: bs "ull").
    rewrite lit_head by clia. replace (c =? ch "[") with false by clia. cbn [negb]. by rewrite Hs.
  - transitivity (string_ (escape s ++ rest)); [done|]. by rewrite string_escape by (by apply cstringb_ok).
  - cbn [text content_text] in *. cbn [app] in *.
    change (ch "[" =? 34) with false. change (bs "null") with (ch "n" :: bs "ull").
    rewrite lit_head by done. change (negb (ch "[" =? ch "[")) with false. cbv iota.
    rewrite <- !app_assoc. cbn [app].
    assert (Hl : Forall (fun j => json_okb j = true /\ depth j <= MAX_NESTING) l).
    { cbn in Hok. apply forallb_Forall in Hok. apply List.Forall_forall. intros j Hin.
      rewrite List.Forall_forall in Hok. split; [by apply Hok|]. cbn [depth] in Hd.
      clear -Hd Hin. induction l as [|j' l IH]; [done|]. cbn [map foldr] in Hd.
      destruct Hin as [->|Hin]; [lia|apply IH; [lia|done]]. }
    assert (Hws : ws (w ++ join w (map (text w) l) ++ ch "]" :: rest) = join w (map (text w) l) ++ ch "]" :: rest).
    { rewrite ws_app by done. destruct Hl as [|j' l [Hok' _] Hl]; [done|]. cbn [map].
      destruct (join_split w Hw (text w j') (map (text w) l) (ch "]") rest) as (t' & -> & _); [done..|].
      by apply ws_text. }
    rewrite Hws, content_parts_text; [done|done|done|]. rewrite !length_app. cbn [length]. lia.
  - cbn [text content_text] in *. cbn [app] in *.
    change (ch "{" =? 34) with false. change (bs "null") with (ch "n" :: bs "ull").
    rewrite lit_head by done. change (negb (ch "{" =? ch "[")) with true. cbv iota. by rewrite Hs.
Qed.

(** A value with every construct, for the witnesses. *)
Definition sample : json :=
  JObj [(bs "type", JStr (bs "text")); (bs "text", JStr [104; 10; 34; 1; 92]);
        (bs "n", JArr [JNum (Numeral true [ch "1"] (Some [ch "5"]) (Some (false, Some true, [ch "3"])));
                       JLit LTrue; JLit LNull; JArr []])].
Definition nested (n : nat) : json := Nat.iter n (fun j => JArr [j]) (JArr []).

Example string_roundtrip_witness : cstringb (bs "a b") = true /\ string_ (escape (bs "a b") ++ [44]) = Some (bs "a b", [44]).
Proof. split; [reflexivity|]. apply string_roundtrip. by apply cstringb_ok. Defined.

Example skip_exact_witness :
  skip ([9] ++ text [32] (nested 255) ++ [44]) = Some [44] /\
  skip ([9] ++ text [32] (nested 256) ++ [44]) = None.
Proof.
  split.
  - rewrite (skip_exact [9] [32] (nested 255) [44]) by (by vm_compute). by vm_compute.
  - rewrite (skip_exact [9] [32] (nested 256) [44]) by (by vm_compute). by vm_compute.
Defined.

Example raw_value_canonical_witness :
  minify (Some ([32] ++ text [32; 10] sample ++ [125])) = text [] sample.
Proof. apply (raw_value_canonical [32] [32; 10] sample [125]); by vm_compute. Defined.

Example skip_terminates_witness :
  skip_value 1000 (bs "[1,2] ") 0 = skip_value (skip_fuel (bs "[1,2] ")) (bs "[1,2] ") 0.
Proof. apply (skip_terminates (bs "[1,2] ") 0 1000). vm_compute. lia. Defined.

Example content_collects_text_witness :
  content ([32] ++ text [32] (JArr [JStr (bs "a"); sample; JLit LTrue]) ++ [44]) =
  Some (bs "a" ++ [104; 10; 34; 1; 92], [44]).
Proof.
  rewrite (content_collects_text [32] [32] (JArr [JStr (bs "a"); sample; JLit LTrue]) [44]) by (by vm_compute).
  by vm_compute.
Defined.
