(* ===== verification/Route.v ===== *)
(** * Lane routing of the server (ds4_server.c)

    The requirements of a parsed request, the pure lane decision shared by the
    worker and the continuous admission, and the batchability predicates it
    replaced. *)

From S2P Require Import Prelude Float64.

(** ** Requests *)
Inductive api_style := API_OPENAI | API_ANTHROPIC | API_RESPONSES.
Inductive req_kind := REQ_CHAT | REQ_COMPLETION.
Inductive wire_surface :=
| WIRE_OPENAI_CHAT | WIRE_OPENAI_COMPLETION | WIRE_ANTHROPIC | WIRE_RESPONSES.

#[export] Instance api_style_eq_dec : EqDecision api_style.
Proof. solve_decision. Defined.
#[export] Instance req_kind_eq_dec : EqDecision req_kind.
Proof. solve_decision. Defined.
#[export] Instance wire_surface_eq_dec : EqDecision wire_surface.
Proof. solve_decision. Defined.

(** The fields of [request] that routing reads; [think_mode] is 0 for
    DS4_THINK_NONE and lists are represented by their lengths. *)
Record request := Request {
  kind : req_kind;
  api : api_style;
  max_tokens : Z;
  max_tokens_set : bool;
  temperature : spec_float;
  stream : bool;
  return_token_ids : bool;
  think_mode : Z;
  has_tools : bool;
  stops_len : Z;
  responses_requires_live_tool_state : bool;
  responses_requires_live_reasoning : bool;
  anthropic_requires_live_tool_state : bool;
  live_state_bank_owned : bool;
  images_len : Z;
  prompt_len : Z;
  needs : Z
}.

(** ds4_think_mode_enabled *)
Definition think_mode_enabled (mode : Z) : bool := negb (mode =? 0).

(** ** Requirement bits (enum ds4_req_need) *)
Abbreviation NEED_STREAMING := 1.
Abbreviation NEED_PER_ROW_SAMPLING := 2.
Abbreviation NEED_THINKING := 4.
Abbreviation NEED_STOP_SCAN := 8.
Abbreviation NEED_TOOL_SCAN := 16.
Abbreviation NEED_TOKEN_IDS := 32.
Abbreviation NEED_LIVE_FRONTIER := 64.
Abbreviation NEED_CONTINUATION_PUBLISH := 128.
Abbreviation NEED_CORRECTIVE_RECOVERY := 256.
Abbreviation NEED_DURABLE_RESPONSE := 512.
Abbreviation NEED_PREFILL_ONLY := 1024.
Abbreviation NEED_BANK_FRONTIER := 2048.
Abbreviation NEED_IMAGE := 4096.

Definition bit_if (b : bool) (m : Z) (n : Z) : Z := if b then Z.lor n m else n.

(** request_compute_needs *)
Definition compute_needs (r : request) : Z :=
  let n := 0 in
  let n := bit_if (stream r) NEED_STREAMING n in
  let n := bit_if (F64.lt F64.zero (temperature r)) NEED_PER_ROW_SAMPLING n in
  let n := bit_if (think_mode_enabled (think_mode r)) NEED_THINKING n in
  let n := bit_if (0 <? stops_len r) NEED_STOP_SCAN n in
  let n := bit_if (has_tools r) NEED_TOOL_SCAN n in
  let n := bit_if (return_token_ids r) NEED_TOKEN_IDS n in
  let n := bit_if (0 <? images_len r) NEED_IMAGE n in
  let n :=
    if responses_requires_live_tool_state r || responses_requires_live_reasoning r ||
       anthropic_requires_live_tool_state r
    then Z.lor n (if live_state_bank_owned r then NEED_BANK_FRONTIER else NEED_LIVE_FRONTIER)
    else n in
  let n :=
    if has_tools r && negb (bool_decide (api r = API_OPENAI)) then
      let n := Z.lor n NEED_CONTINUATION_PUBLISH in
      bit_if (negb (stream r)) NEED_CORRECTIVE_RECOVERY n
    else n in
  bit_if (bool_decide (api r = API_ANTHROPIC) && max_tokens_set r && (max_tokens r <=? 0))
    NEED_PREFILL_ONLY n.

(** wire_surface_for *)
Definition surface_for (r : request) : wire_surface :=
  match api r with
  | API_ANTHROPIC => WIRE_ANTHROPIC
  | API_RESPONSES => WIRE_RESPONSES
  | API_OPENAI =>
      match kind r with REQ_COMPLETION => WIRE_OPENAI_COMPLETION | REQ_CHAT => WIRE_OPENAI_CHAT end
  end.

(** request_decode_budget *)
Definition decode_budget (r : request) (server_default : Z) : Z :=
  if max_tokens_set r && (max_tokens r <=? 0) then 0
  else if 0 <? max_tokens r then max_tokens r else server_default.

(** ** The decision *)
Inductive lane := SERIAL | CONTINUOUS | STATIC | NONE.
Inductive reason :=
| R_CONT | R_STATIC_NO_CONT | R_STATIC_PROMPT_BOUNDS | R_COALESCE_OFF | R_SURFACE
| R_NEED_LIVE_FRONTIER | R_NEED_CONTINUATION_PUBLISH | R_NEED_CORRECTIVE_RECOVERY
| R_NEED_DURABLE | R_NEED_PREFILL_ONLY | R_TOKEN_IDS_PROJECTION | R_TOOLS_COMPLETION
| R_CONT_UNAVAILABLE | R_CONT_BANK.

#[export] Instance lane_eq_dec : EqDecision lane.
Proof. solve_decision. Defined.

(** ds4_route_env *)
Record route_env := Env {
  coalesce : bool;
  have_cont : bool;
  cont_anthropic : bool;
  cont_responses : bool;
  cont_tools_anthropic : bool;
  cont_tools_responses : bool;
  seq_cap : Z;
  env_prompt_len : Z
}.

Definition CONT_MASK : Z :=
  Z.lor NEED_STREAMING (Z.lor NEED_PER_ROW_SAMPLING (Z.lor NEED_THINKING
    (Z.lor NEED_STOP_SCAN (Z.lor NEED_TOOL_SCAN (Z.lor NEED_TOKEN_IDS NEED_IMAGE))))).
Definition STATIC_MASK : Z := 0.

(** [needs & m] as a condition. *)
Definition has (n m : Z) : bool := negb (Z.land n m =? 0).
(** [~m] on 32 bits. *)
Definition not32 (m : Z) : Z := u32 (Z.lnot m).

Definition is_surface (a b : wire_surface) : bool := bool_decide (a = b).

Definition tools_promoted (surf : wire_surface) (env : route_env) : bool :=
  (cont_anthropic env && cont_tools_anthropic env && is_surface surf WIRE_ANTHROPIC) ||
  (cont_responses env && cont_tools_responses env && is_surface surf WIRE_RESPONSES).

Definition cont_promoted (surf : wire_surface) (env : route_env) : bool :=
  (cont_anthropic env && is_surface surf WIRE_ANTHROPIC) ||
  (cont_responses env && is_surface surf WIRE_RESPONSES).

(** route_decide *)
Definition route_decide (n : Z) (surf : wire_surface) (env : route_env) : lane * reason :=
  if has n NEED_DURABLE_RESPONSE then (NONE, R_NEED_DURABLE)
  else if has n NEED_LIVE_FRONTIER then (SERIAL, R_NEED_LIVE_FRONTIER)
  else if has n NEED_BANK_FRONTIER && negb (tools_promoted surf env)
  then (SERIAL, R_NEED_LIVE_FRONTIER)
  else if has n NEED_CONTINUATION_PUBLISH &&
          negb (has n NEED_STREAMING && tools_promoted surf env)
  then (SERIAL, R_NEED_CONTINUATION_PUBLISH)
  else if has n NEED_CORRECTIVE_RECOVERY then (SERIAL, R_NEED_CORRECTIVE_RECOVERY)
  else if has n NEED_PREFILL_ONLY then (SERIAL, R_NEED_PREFILL_ONLY)
  else if has n NEED_TOKEN_IDS && negb (has n NEED_STREAMING && is_surface surf WIRE_OPENAI_CHAT)
  then (SERIAL, R_TOKEN_IDS_PROJECTION)
  else if has n NEED_TOOL_SCAN && is_surface surf WIRE_OPENAI_COMPLETION
  then (SERIAL, R_TOOLS_COMPLETION)
  else
    let mask := CONT_MASK in
    let mask :=
      if tools_promoted surf env then
        let mask := if has n NEED_STREAMING then Z.lor mask NEED_CONTINUATION_PUBLISH else mask in
        Z.lor mask NEED_BANK_FRONTIER
      else mask in
    if has n (not32 mask) then (SERIAL, R_CONT_UNAVAILABLE)
    else if negb (is_surface surf WIRE_OPENAI_CHAT) && negb (is_surface surf WIRE_OPENAI_COMPLETION)
            && negb (cont_promoted surf env)
    then (SERIAL, R_SURFACE)
    else if negb (coalesce env) then (SERIAL, R_COALESCE_OFF)
    else if have_cont env && (0 <? env_prompt_len env) && (env_prompt_len env <=? seq_cap env)
    then (CONTINUOUS, if has n NEED_BANK_FRONTIER then R_CONT_BANK else R_CONT)
    else if has n NEED_IMAGE then (NONE, R_CONT_UNAVAILABLE)
    else if negb (has n (not32 STATIC_MASK)) &&
            (is_surface surf WIRE_OPENAI_CHAT || is_surface surf WIRE_OPENAI_COMPLETION ||
             cont_promoted surf env)
    then (STATIC, if have_cont env then R_STATIC_PROMPT_BOUNDS else R_STATIC_NO_CONT)
    else (SERIAL, R_CONT_UNAVAILABLE).

(** ** The predicates it replaced *)

(** job_is_batchable *)
Definition is_batchable (r : request) : bool :=
  if negb (bool_decide (api r = API_OPENAI)) then false
  else if negb (bool_decide (kind r = REQ_CHAT)) && negb (bool_decide (kind r = REQ_COMPLETION))
  then false
  else if return_token_ids r && negb (stream r && bool_decide (kind r = REQ_CHAT)) then false
  else if has_tools r && negb (bool_decide (kind r = REQ_CHAT)) then false
  else true.

(** job_is_static_batchable *)
Definition is_static_batchable (r : request) : bool :=
  is_batchable r && negb (stream r) && F64.le (temperature r) F64.zero &&
  negb (think_mode_enabled (think_mode r)) && negb (has_tools r) && (stops_len r =? 0).

(** job_static_peer_ok, given the two surface switches of the server. *)
Definition static_peer_ok (anthropic responses : bool) (r : request) : bool :=
  if is_static_batchable r then true
  else if negb (bool_decide (kind r = REQ_CHAT)) then false
  else if negb ((anthropic && bool_decide (api r = API_ANTHROPIC)) ||
                (responses && bool_decide (api r = API_RESPONSES))) then false
  else compute_needs r =? 0.

(** ** Reading the requirement bits *)

Lemma has_lor a b m : has (Z.lor a b) m = has a m || has b m.
Proof.
  unfold has. rewrite Z.land_lor_distr_l. destruct (Z.eqb_spec (Z.lor (Z.land a m) (Z.land b m)) 0) as [E|E].
  - apply Z.lor_eq_0_iff in E as [-> ->]. done.
  - destruct (Z.eqb_spec (Z.land a m) 0) as [Ea|]; [|done].
    destruct (Z.eqb_spec (Z.land b m) 0) as [Eb|]; [|done]. by rewrite Ea, Eb in E.
Qed.
Lemma has_bit_if b m n k : has (bit_if b m n) k = has n k || (b && has m k).
Proof. destruct b; cbn [bit_if andb]; [apply has_lor|by rewrite orb_false_r]. Qed.
Lemma has_if (b : bool) m n k : has (if b then m else n) k = if b then has m k else has n k.
Proof. by destruct b. Qed.
Lemma has_0 m : has 0 m = false.
Proof. done. Qed.

Lemma negb_false_and b c : b && negb c = false -> b = true -> c = true.
Proof. by destruct b, c. Qed.

(** The conditions behind the bits that the decision tests. *)
Definition needs_live (r : request) : bool :=
  responses_requires_live_tool_state r || responses_requires_live_reasoning r ||
  anthropic_requires_live_tool_state r.
Definition foreign_tools (r : request) : bool := has_tools r && negb (bool_decide (api r = API_OPENAI)).
Definition prewarm (r : request) : bool :=
  bool_decide (api r = API_ANTHROPIC) && max_tokens_set r && (max_tokens r <=? 0).
Definition hot (r : request) : bool := F64.lt F64.zero (temperature r).

(** Evaluates the closed bit tests. *)
Ltac has_consts :=
  repeat match goal with
  | |- context [has ?a ?m] =>
      let v := eval vm_compute in (has a m) in
      lazymatch v with true => idtac | false => idtac end; change (has a m) with v
  end.

Lemma needs_any r m : has (compute_needs r) m =
  (stream r && has NEED_STREAMING m) || (hot r && has NEED_PER_ROW_SAMPLING m) ||
  (think_mode_enabled (think_mode r) && has NEED_THINKING m) || ((0 <? stops_len r) && has NEED_STOP_SCAN m) ||
  (has_tools r && has NEED_TOOL_SCAN m) || (return_token_ids r && has NEED_TOKEN_IDS m) ||
  ((0 <? images_len r) && has NEED_IMAGE m) ||
  (needs_live r && live_state_bank_owned r && has NEED_BANK_FRONTIER m) ||
  (needs_live r && negb (live_state_bank_owned r) && has NEED_LIVE_FRONTIER m) ||
  (foreign_tools r && has NEED_CONTINUATION_PUBLISH m) ||
  (foreign_tools r && negb (stream r) && has NEED_CORRECTIVE_RECOVERY m) ||
  (prewarm r && has NEED_PREFILL_ONLY m).
Proof.
  unfold compute_needs. cbv zeta. fold (needs_live r) (foreign_tools r) (prewarm r) (hot r).
  rewrite has_bit_if. f_equal.
  set (base := bit_if (0 <? images_len r) _ _).
  assert (Hb : has base m = (stream r && has NEED_STREAMING m) || (hot r && has NEED_PER_ROW_SAMPLING m) ||
    (think_mode_enabled (think_mode r) && has NEED_THINKING m) || ((0 <? stops_len r) && has NEED_STOP_SCAN m) ||
    (has_tools r && has NEED_TOOL_SCAN m) || (return_token_ids r && has NEED_TOKEN_IDS m) ||
    ((0 <? images_len r) && has NEED_IMAGE m)).
  { unfold base. by rewrite !has_bit_if, has_0, orb_false_l. }
  rewrite <- Hb.
  destruct (foreign_tools r), (needs_live r), (live_state_bank_owned r);
    rewrite ?has_bit_if, ?has_lor; cbn [andb orb negb]; rewrite ?orb_false_r; done.
Qed.

Ltac needs_bit := rewrite needs_any; has_consts; rewrite ?andb_false_r, ?andb_true_r, ?orb_false_r, ?orb_false_l; done.

Lemma needs_streaming r : has (compute_needs r) NEED_STREAMING = stream r.
Proof. needs_bit. Qed.
Lemma needs_tool_scan r : has (compute_needs r) NEED_TOOL_SCAN = has_tools r.
Proof. needs_bit. Qed.
Lemma needs_token_ids r : has (compute_needs r) NEED_TOKEN_IDS = return_token_ids r.
Proof. needs_bit. Qed.
Lemma needs_image r : has (compute_needs r) NEED_IMAGE = (0 <? images_len r).
Proof. needs_bit. Qed.
Lemma needs_live_frontier r : has (compute_needs r) NEED_LIVE_FRONTIER = needs_live r && negb (live_state_bank_owned r).
Proof. needs_bit. Qed.
Lemma needs_bank_frontier r : has (compute_needs r) NEED_BANK_FRONTIER = needs_live r && live_state_bank_owned r.
Proof. needs_bit. Qed.
Lemma needs_publish r : has (compute_needs r) NEED_CONTINUATION_PUBLISH = foreign_tools r.
Proof. needs_bit. Qed.
Lemma needs_corrective r : has (compute_needs r) NEED_CORRECTIVE_RECOVERY = foreign_tools r && negb (stream r).
Proof. needs_bit. Qed.
Lemma needs_prefill_only r : has (compute_needs r) NEED_PREFILL_ONLY = prewarm r.
Proof. needs_bit. Qed.
Lemma needs_durable r : has (compute_needs r) NEED_DURABLE_RESPONSE = false.
Proof. needs_bit. Qed.

(** No need at all: the shapes of the static lane. *)
Definition plain_request (r : request) : bool :=
  negb (stream r) && negb (hot r) && negb (think_mode_enabled (think_mode r)) && negb (0 <? stops_len r) &&
  negb (has_tools r) && negb (return_token_ids r) && negb (0 <? images_len r) && negb (needs_live r) &&
  negb (prewarm r).

Lemma needs_none r : negb (has (compute_needs r) (not32 STATIC_MASK)) = plain_request r.
Proof.
  rewrite needs_any. has_consts. rewrite !andb_true_r. unfold plain_request, foreign_tools.
  destruct (stream r), (hot r), (think_mode_enabled _), (0 <? stops_len r), (has_tools r),
    (return_token_ids r), (0 <? images_len r), (needs_live r), (live_state_bank_owned r); done.
Qed.

Lemma has_all n : 0 <= n < 2 ^ 32 -> has n (not32 STATIC_MASK) = negb (n =? 0).
Proof.
  intros Hn. unfold has, not32, STATIC_MASK. change (u32 (Z.lnot 0)) with (Z.ones 32).
  rewrite Z.land_ones, Z.mod_small by lia. done.
Qed.

Lemma bit_if_range b m n k : 0 < k -> 0 <= m < 2 ^ k -> 0 <= n < 2 ^ k -> 0 <= bit_if b m n < 2 ^ k.
Proof.
  intros Hk Hm Hn. destruct b; [|done]. cbn. assert (Hp : 0 <= Z.lor n m) by (apply Z.lor_nonneg; lia).
  split; [done|]. destruct (Z.eq_dec (Z.lor n m) 0) as [->|]; [lia|].
  apply Z.log2_lt_pow2; [lia|]. rewrite Z.log2_lor by lia.
  assert (Hl : forall x, 0 <= x < 2 ^ k -> Z.log2 x < k).
  { intros x Hx. destruct (Z.eq_dec x 0) as [->|]; [done|]. apply Z.log2_lt_pow2; lia. }
  pose proof (Hl n Hn). pose proof (Hl m Hm). lia.
Qed.

Lemma needs_fits r : fits 32 (compute_needs r).
Proof.
  unfold compute_needs, fits. cbv zeta.
  set (base := bit_if (0 <? images_len r) _ _).
  assert (Hb : 0 <= base < 2 ^ 32) by (unfold base; repeat (apply bit_if_range; [lia|lia|]); lia).
  apply bit_if_range; [lia|lia|].
  set (l := if (_ || _ || _ : bool) then Z.lor base _ else base).
  assert (Hl : 0 <= l < 2 ^ 32).
  { unfold l. destruct (_ || _); [|done].
    apply (bit_if_range true); [lia| |done]. destruct (live_state_bank_owned r); lia. }
  destruct (_ && _); [|done]. apply bit_if_range; [lia|lia|]. by apply (bit_if_range true).
Qed.

Lemma needs_zero r : (compute_needs r =? 0) = plain_request r.
Proof. rewrite <- needs_none, has_all by apply needs_fits. by rewrite negb_involutive. Qed.

(** The mask check of the continuous lane, behind the branches above it. *)
Lemma needs_cont_mask r (promoted publish : bool) :
  has (compute_needs r)
    (not32 (if promoted then Z.lor (if publish then Z.lor CONT_MASK NEED_CONTINUATION_PUBLISH else CONT_MASK) NEED_BANK_FRONTIER
            else CONT_MASK)) =
  (needs_live r && live_state_bank_owned r && negb promoted) ||
  (needs_live r && negb (live_state_bank_owned r)) ||
  (foreign_tools r && negb (promoted && publish)) ||
  (foreign_tools r && negb (stream r)) || prewarm r.
Proof.
  rewrite needs_any. destruct promoted, publish; has_consts;
    rewrite ?andb_false_r, ?andb_true_r, ?orb_false_r, ?orb_false_l; cbn [andb orb negb];
    destruct (needs_live r), (live_state_bank_owned r), (foreign_tools r), (stream r), (prewarm r); done.
Qed.

(** The decision on a request, in terms of its fields. *)
Lemma route_request r env : route_decide (compute_needs r) (surface_for r) env =
  let surf := surface_for r in
  let promoted := tools_promoted surf env in
  if needs_live r && negb (live_state_bank_owned r) then (SERIAL, R_NEED_LIVE_FRONTIER)
  else if (needs_live r && live_state_bank_owned r) && negb promoted then (SERIAL, R_NEED_LIVE_FRONTIER)
  else if foreign_tools r && negb (stream r && promoted) then (SERIAL, R_NEED_CONTINUATION_PUBLISH)
  else if prewarm r then (SERIAL, R_NEED_PREFILL_ONLY)
  else if return_token_ids r && negb (stream r && is_surface surf WIRE_OPENAI_CHAT)
  then (SERIAL, R_TOKEN_IDS_PROJECTION)
  else if has_tools r && is_surface surf WIRE_OPENAI_COMPLETION then (SERIAL, R_TOOLS_COMPLETION)
  else if negb (is_surface surf WIRE_OPENAI_CHAT) && negb (is_surface surf WIRE_OPENAI_COMPLETION)
          && negb (cont_promoted surf env)
  then (SERIAL, R_SURFACE)
  else if negb (coalesce env) then (SERIAL, R_COALESCE_OFF)
  else if have_cont env && (0 <? env_prompt_len env) && (env_prompt_len env <=? seq_cap env)
  then (CONTINUOUS, if needs_live r && live_state_bank_owned r then R_CONT_BANK else R_CONT)
  else if 0 <? images_len r then (NONE, R_CONT_UNAVAILABLE)
  else if plain_request r then (STATIC, if have_cont env then R_STATIC_PROMPT_BOUNDS else R_STATIC_NO_CONT)
  else (SERIAL, R_CONT_UNAVAILABLE).
Proof.
  unfold route_decide. cbv zeta.
  rewrite needs_durable, needs_live_frontier, needs_bank_frontier, needs_publish, needs_streaming,
    needs_corrective, needs_prefill_only, needs_token_ids, needs_tool_scan, needs_cont_mask, needs_image, needs_none.
  set (surf := surface_for r). set (P := tools_promoted surf env).
  destruct (needs_live r), (live_state_bank_owned r), P, (foreign_tools r), (stream r), (prewarm r);
    cbn [andb orb negb]; try done;
    repeat (match goal with |- (if ?b then _ else _) = _ => destruct b eqn:? end; try done);
    destruct (is_surface surf WIRE_OPENAI_CHAT), (is_surface surf WIRE_OPENAI_COMPLETION), (cont_promoted surf env);
    cbn in *; try done; by destruct (plain_request r).
Qed.

(** ** The routing table *)

(** Evaluates the closed comparisons of surfaces, styles and kinds. *)
Ltac closed_bool b :=
  let v := eval vm_compute in b in
  lazymatch v with true => idtac | false => idtac end; change b with v.
Ltac eq_consts :=
  repeat match goal with
  | |- context [is_surface ?a ?b] => closed_bool (is_surface a b)
  | |- context [@bool_decide ?p ?d] => closed_bool (@bool_decide p d)
  end; cbn [andb orb negb]; rewrite ?andb_false_r, ?orb_false_r, ?andb_true_r, ?orb_true_r; cbn [andb orb negb].

(** Case analysis on the fields that a goal still mentions. *)
Ltac split_field t := destruct t; cbn; try done.
Ltac split_fields r env :=
  repeat match goal with
  | |- context [coalesce env] => split_field (coalesce env)
  | |- context [needs_live r] => split_field (needs_live r)
  | |- context [has_tools r] => split_field (has_tools r)
  | |- context [stream r] => split_field (stream r)
  | |- context [return_token_ids r] => split_field (return_token_ids r)
  | |- context [live_state_bank_owned r] => split_field (live_state_bank_owned r)
  | |- context [cont_tools_anthropic env] => split_field (cont_tools_anthropic env)
  | |- context [cont_tools_responses env] => split_field (cont_tools_responses env)
  | |- context [cont_anthropic env] => split_field (cont_anthropic env)
  | |- context [cont_responses env] => split_field (cont_responses env)
  | |- context [hot r] => split_field (hot r)
  | |- context [think_mode_enabled (think_mode r)] => split_field (think_mode_enabled (think_mode r))
  | |- context [0 <? stops_len r] => split_field (0 <? stops_len r)
  end.

(** The prompt is within what a continuous bank can hold. *)
Definition fits_bank (r : request) (env : route_env) : bool :=
  have_cont env && (0 <? prompt_len r) && (prompt_len r <=? seq_cap env).

(** The dispatch tree that the decision replaced. *)
Definition legacy_lane (r : request) (env : route_env) : lane :=
  if coalesce env && is_batchable r then
    if fits_bank r env then CONTINUOUS else if is_static_batchable r then STATIC else SERIAL
  else SERIAL.

(** That tree with the Anthropic and Responses shapes covered by [mask]
    promoted. *)
Definition promoted_lane (mask : Z) (r : request) (env : route_env) : lane :=
  if coalesce env && negb (bool_decide (api r = API_OPENAI)) &&
     negb (has (compute_needs r) (not32 mask)) && negb (has (compute_needs r) NEED_TOKEN_IDS)
  then if fits_bank r env then CONTINUOUS
       else if compute_needs r =? 0 then STATIC else legacy_lane r env
  else legacy_lane r env.

Definition full_mask (r : request) : Z :=
  if stream r then Z.lor (Z.lor CONT_MASK NEED_CONTINUATION_PUBLISH) NEED_BANK_FRONTIER
  else Z.lor CONT_MASK NEED_BANK_FRONTIER.

(** What the parsers guarantee of a request. *)
Record coherent (r : request) : Prop := {
  live_is_native : api r = API_OPENAI -> needs_live r = false;
  native_is_chat : api r <> API_OPENAI -> kind r = REQ_CHAT;
  temperature_ok : F64.is_nan (temperature r) = false;
  stops_ok : 0 <= stops_len r
}.

Lemma stops_zero r : 0 <= stops_len r -> (stops_len r =? 0) = negb (0 <? stops_len r).
Proof. lia. Qed.

Lemma le_hot r : F64.is_nan (temperature r) = false -> F64.le (temperature r) F64.zero = negb (hot r).
Proof. intros H. unfold hot. by rewrite F64.lt_zero_le, negb_involutive. Qed.

Lemma needs_full_mask r : has (compute_needs r) (not32 (full_mask r)) =
  (needs_live r && negb (live_state_bank_owned r)) || (foreign_tools r && negb (stream r)) || prewarm r.
Proof.
  unfold full_mask. pose proof (needs_cont_mask r true (stream r)) as H. cbv iota in H.
  destruct (stream r) eqn:E; rewrite H, ?E;
    destruct (needs_live r), (live_state_bank_owned r), (foreign_tools r), (prewarm r); done.
Qed.

Lemma needs_cont_mask_off r : has (compute_needs r) (not32 CONT_MASK) =
  needs_live r || foreign_tools r || prewarm r.
Proof.
  pose proof (needs_cont_mask r false false) as H. cbv iota in H. rewrite H.
  by destruct (needs_live r), (live_state_bank_owned r), (foreign_tools r), (prewarm r), (stream r).
Qed.

(** C38: The lane of a request without images is that of the dispatch table: with
    every promotion switch on the table with streaming tool turns and bank
    continuations promoted, with the tool switches off the table of the
    stateless promotions, with the surface switches off the old tree of
    job_is_batchable and job_is_static_batchable, whatever the tool switches. *)
Theorem route_matches_table r env : coherent r -> images_len r = 0 -> env_prompt_len env = prompt_len r ->
  let d := (route_decide (compute_needs r) (surface_for r) env).1 in
  (cont_anthropic env = true -> cont_responses env = true ->
   cont_tools_anthropic env = true -> cont_tools_responses env = true ->
   d = promoted_lane (full_mask r) r env) /\
  (cont_anthropic env = true -> cont_responses env = true ->
   cont_tools_anthropic env = false -> cont_tools_responses env = false ->
   d = promoted_lane CONT_MASK r env) /\
  (cont_anthropic env = false -> cont_responses env = false -> d = legacy_lane r env).
Proof.
  intros [Hlive Hkind Hnan Hst] Him Hlen. cbv zeta. rewrite route_request. cbv zeta.
  unfold promoted_lane. rewrite needs_full_mask, needs_cont_mask_off, needs_token_ids, needs_zero.
  unfold legacy_lane, fits_bank, is_static_batchable, is_batchable, tools_promoted, cont_promoted, plain_request, surface_for.
  rewrite Hlen, le_hot, stops_zero, Him by done. change (0 <? 0) with false. cbv iota.
  set (F := have_cont env && (0 <? prompt_len r) && (prompt_len r <=? seq_cap env)).
  unfold foreign_tools, prewarm in *.
  set (Z0 := max_tokens_set r && (max_tokens r <=? 0)).
  assert (HZ : forall b, b && max_tokens_set r && (max_tokens r <=? 0) = b && Z0).
  { intros b. unfold Z0. by rewrite andb_assoc. }
  rewrite !HZ. clearbody Z0 F. clear HZ.
  destruct (api r) eqn:Ea; [rewrite (Hlive eq_refl); destruct (kind r)|rewrite (Hkind ltac:(done))..];
    clear Hlive Hkind; (split; [|split]); first [intros -> -> -> ->|intros -> ->];
    eq_consts; split_fields r env; by destruct Z0, F.
Qed.

(** What each lane can honour, in terms of the request: the continuous lane
    resumes no serial frontier, publishes tool turns only of promoted streaming
    surfaces, echoes token ids only on streaming chat, scans tools only on chat
    and needs a prompt that fits a bank; the static lane serves buffered greedy
    requests that need no scan, tool, echo, image or live state. *)
Definition lane_serves (l : lane) (r : request) (env : route_env) : Prop :=
  let surf := surface_for r in
  let promoted := tools_promoted surf env in
  match l with
  | CONTINUOUS =>
      coalesce env = true /\ have_cont env = true /\ 0 < env_prompt_len env <= seq_cap env /\
      (needs_live r = true -> live_state_bank_owned r = true /\ promoted = true) /\
      (foreign_tools r = true -> stream r = true /\ promoted = true) /\ prewarm r = false /\
      (return_token_ids r = true -> stream r = true /\ surf = WIRE_OPENAI_CHAT) /\
      (has_tools r = true -> surf <> WIRE_OPENAI_COMPLETION) /\
      (api r <> API_OPENAI -> cont_promoted surf env = true)
  | STATIC =>
      coalesce env = true /\ plain_request r = true /\ compute_needs r = 0 /\
      (api r <> API_OPENAI -> cont_promoted surf env = true)
  | NONE => 0 < images_len r /\ coalesce env = true
  | SERIAL => coalesce env = true -> fits_bank r env = true ->
      (surf = WIRE_OPENAI_CHAT \/ surf = WIRE_OPENAI_COMPLETION \/ cont_promoted surf env = true) ->
      (needs_live r && negb (live_state_bank_owned r && promoted)) ||
      (foreign_tools r && negb (stream r && promoted)) || prewarm r ||
      (return_token_ids r && negb (stream r && is_surface surf WIRE_OPENAI_CHAT)) ||
      (has_tools r && is_surface surf WIRE_OPENAI_COMPLETION) = true
  end.

Lemma surface_openai r : api r <> API_OPENAI ->
  is_surface (surface_for r) WIRE_OPENAI_CHAT = false /\ is_surface (surface_for r) WIRE_OPENAI_COMPLETION = false.
Proof. unfold surface_for. by destruct (api r). Qed.

(** A request is only ever given to a lane that honours everything it asks for;
    it is kept on the serial lane, when batching is on and its prompt fits, only
    for something that the continuous lane cannot honour; and no lane is found
    for it only when it carries an image. *)
Theorem route_serves r env : env_prompt_len env = prompt_len r ->
  lane_serves (route_decide (compute_needs r) (surface_for r) env).1 r env.
Proof.
  intros Hlen. rewrite route_request. cbv zeta. unfold lane_serves, fits_bank. rewrite <- Hlen.
  set (surf := surface_for r). set (P := tools_promoted surf env). set (C := cont_promoted surf env).
  assert (Hforeign : api r <> API_OPENAI ->
    is_surface surf WIRE_OPENAI_CHAT = false /\ is_surface surf WIRE_OPENAI_COMPLETION = false).
  { unfold surf, surface_for. by destruct (api r). }
  assert (Hsurf : (surf = WIRE_OPENAI_CHAT \/ surf = WIRE_OPENAI_COMPLETION \/ C = true) ->
    is_surface surf WIRE_OPENAI_CHAT || is_surface surf WIRE_OPENAI_COMPLETION || C = true).
  { intros [ -> | [ -> | -> ]]; [done|done|by rewrite orb_true_r]. }
  assert (Hchat : is_surface surf WIRE_OPENAI_CHAT = true -> surf = WIRE_OPENAI_CHAT) by apply bool_decide_eq_true.
  assert (Hcomp : is_surface surf WIRE_OPENAI_COMPLETION = false -> surf <> WIRE_OPENAI_COMPLETION)
    by apply bool_decide_eq_false.
  destruct (needs_live r && negb (live_state_bank_owned r)) eqn:E1.
  { intros _ _ _. by destruct (needs_live r), (live_state_bank_owned r), P. }
  destruct ((needs_live r && live_state_bank_owned r) && negb P) eqn:E2.
  { intros _ _ _. by destruct (needs_live r), (live_state_bank_owned r), P. }
  destruct (foreign_tools r && negb (stream r && P)) eqn:E3.
  { intros _ _ _. cbn. by rewrite orb_true_r. }
  destruct (prewarm r) eqn:E4; [intros _ _ _; cbn; by rewrite orb_true_r|].
  destruct (return_token_ids r && negb (stream r && is_surface surf WIRE_OPENAI_CHAT)) eqn:E5.
  { intros _ _ _. by rewrite !orb_true_r. }
  destruct (has_tools r && is_surface surf WIRE_OPENAI_COMPLETION) eqn:E6.
  { intros _ _ _. by rewrite !orb_true_r. }
  destruct (negb (is_surface surf WIRE_OPENAI_CHAT) && negb (is_surface surf WIRE_OPENAI_COMPLETION) && negb C) eqn:E7.
  { intros _ _ Hs%Hsurf. by destruct (is_surface surf WIRE_OPENAI_CHAT), (is_surface surf WIRE_OPENAI_COMPLETION), C. }
  assert (Hprom : api r <> API_OPENAI -> C = true).
  { intros Ha. destruct (Hforeign Ha) as [Y1 Y2]. rewrite Y1, Y2 in E7. by destruct C. }
  destruct (coalesce env) eqn:E8; [|by intros]. cbn [negb].
  destruct (have_cont env && (0 <? env_prompt_len env) && (env_prompt_len env <=? seq_cap env)) eqn:E9.
  - apply andb_true_iff in E9 as [[Hc Hl]%andb_true_iff Hu]. cbn [fst].
    repeat split; try done; try lia.
    all: try (destruct (needs_live r), (live_state_bank_owned r), P; done).
    all: try (destruct (foreign_tools r), (stream r), P; done).
    all: try (destruct (return_token_ids r), (stream r); done).
    all: try (apply Hchat; by destruct (return_token_ids r), (stream r), (is_surface surf WIRE_OPENAI_CHAT)).
    intros Ht. apply Hcomp. by rewrite Ht in E6.
  - destruct (Z.ltb_spec 0 (images_len r)); [done|]. destruct (plain_request r) eqn:Ep; [|by cbn].
    cbn [fst]. repeat split; try done. pose proof (needs_zero r) as Hz. rewrite Ep in Hz. lia.
Qed.

(** A need added without a branch is never batched: a requirement word with a
    bit that no lane names goes to the serial lane or to none. *)
Theorem route_tripwire n surf env : has n (not32 8191) = true ->
  let l := (route_decide n surf env).1 in l <> CONTINUOUS /\ l <> STATIC.
Proof.
  intros Hn. cbv zeta. unfold route_decide. cbv zeta.
  assert (Hsub : forall m, Z.land m 8191 = m -> has n (not32 m) = true).
  { intros m Hm. unfold has in *. destruct (Z.eqb_spec (Z.land n (not32 m)) 0) as [E|]; [|done].
    exfalso. apply negb_true_iff, Z.eqb_neq in Hn. apply Hn. apply Z.bits_inj'. intros k Hk.
    assert (Hb : Z.testbit (Z.land n (not32 m)) k = false) by (rewrite E; apply Z.bits_0).
    unfold not32, wrap in *. rewrite Z.land_spec in *.
    destruct (Z.lt_ge_cases k 32); [|by rewrite Z.mod_pow2_bits_high, Z.bits_0, andb_false_r by lia].
    rewrite Z.mod_pow2_bits_low, Z.lnot_spec in * by lia. rewrite Z.bits_0.
    assert (Hmk : Z.testbit m k = Z.testbit m k && Z.testbit 8191 k) by (rewrite <- Z.land_spec; by rewrite Hm).
    destruct (Z.testbit n k), (Z.testbit m k), (Z.testbit 8191 k); done. }
  rewrite !Hsub by (repeat case_match; done).
  repeat (case_match; try done).
Qed.

(** The peer check of the static lane is its routing row: a request without
    images may join a static group exactly when the decision would give it the
    static lane once no continuous bank can take it. *)
Theorem static_peer_is_static_row r env : coherent r -> images_len r = 0 ->
  coalesce env = true -> fits_bank r env = false -> env_prompt_len env = prompt_len r ->
  static_peer_ok (cont_anthropic env) (cont_responses env) r = true <->
  (route_decide (compute_needs r) (surface_for r) env).1 = STATIC.
Proof.
  intros [Hlive Hkind Hnan Hst] Him Hc Hf Hlen. rewrite route_request. cbv zeta.
  unfold static_peer_ok, is_static_batchable, is_batchable, fits_bank in *.
  rewrite le_hot, stops_zero, needs_zero by done. rewrite Hc, Hlen, Hf.
  unfold tools_promoted, cont_promoted, plain_request, surface_for. rewrite Him. change (0 <? 0) with false. cbv iota.
  unfold foreign_tools, prewarm in *.
  set (Z0 := max_tokens_set r && (max_tokens r <=? 0)).
  assert (HZ : forall b, b && max_tokens_set r && (max_tokens r <=? 0) = b && Z0).
  { intros b. unfold Z0. by rewrite andb_assoc. }
  rewrite !HZ. clearbody Z0. clear HZ.
  destruct (api r) eqn:Ea; [rewrite (Hlive eq_refl); destruct (kind r)|rewrite (Hkind ltac:(done))..];
    clear Hlive Hkind; eq_consts; split_fields r env; by destruct Z0.
Qed.

(** With an image the two disagree: the peer check, which does not look at the
    images, lets into a static group a request that the decision gives to no
    lane. *)
Lemma image_joins_static_group :
  exists r env, coherent r /\ 0 < images_len r /\ coalesce env = true /\ env_prompt_len env = prompt_len r /\
    static_peer_ok (cont_anthropic env) (cont_responses env) r = true /\
    (route_decide (compute_needs r) (surface_for r) env).1 = NONE.
Proof.
  exists (Request REQ_CHAT API_OPENAI 64 true F64.zero false false 0 false 0 false false false false 1 900 0).
  exists (Env true true true true true true 512 900). by repeat split.
Qed.

Definition sample_request : request :=
  Request REQ_CHAT API_ANTHROPIC 64 true (F64.of_Z 1) true false 1 true 1 false false true true 0 100 0.
Definition sample_env : route_env := Env true true true true true true 4096 100.

Lemma sample_coherent : coherent sample_request.
Proof. by split. Qed.

Example route_matches_table_witness :
  coherent sample_request /\
  (route_decide (compute_needs sample_request) (surface_for sample_request) sample_env).1 = CONTINUOUS.
Proof.
  split; [apply sample_coherent|].
  destruct (route_matches_table sample_request sample_env sample_coherent eq_refl eq_refl) as [H _].
  rewrite H by reflexivity. by vm_compute.
Defined.

Example route_serves_witness :
  lane_serves CONTINUOUS sample_request sample_env.
Proof. exact (route_serves sample_request sample_env eq_refl). Defined.

Example route_tripwire_witness : (route_decide 8193 WIRE_OPENAI_CHAT sample_env).1 <> CONTINUOUS.
Proof. apply (route_tripwire 8193 WIRE_OPENAI_CHAT sample_env). by vm_compute. Defined.

Example static_peer_is_static_row_witness :
  let r := Request REQ_CHAT API_RESPONSES 64 true F64.zero false false 0 false 0 false false false false 0 100 0 in
  (route_decide (compute_needs r) (surface_for r) (Env true false true true true true 0 100)).1 = STATIC.
Proof.
  cbv zeta. apply static_peer_is_static_row; [by split|reflexivity|reflexivity|reflexivity|reflexivity|by vm_compute].
Defined.
