(* ===== verification/JobQueue.v ===== *)
(** * The job queue of the server (ds4_server.c)

    Jobs are records of the client threads linked into a FIFO through their
    [next] fields; the heap of jobs and the links are kept as the code has them,
    and [queue_rep] relates them to the list of waiting jobs.  The socket probe
    and the clock are environment functions of a tick that every probe
    advances. *)

From S2P Require Import Prelude Float64 Route.

Inductive outcome_t :=
| OUT_COMPLETED | OUT_FAILED | OUT_REFUSED_DEEP_SERIAL | OUT_CANCELED | OUT_SHED
| OUT_SHED_CONT_HOLD.

(** struct job: the fields of queueing and output. *)
Record job := Job {
  fd : Z;
  req : request;
  done : bool;
  next : option Z;
  out : list Z;
  client_gone : bool;
  t_arrive : spec_float;
  outcome : outcome_t;
  body_bytes : Z;
  slip_attempts : Z
}.

Definition set_next (n : option Z) (j : job) : job :=
  Job (fd j) (req j) (done j) n (out j) (client_gone j) (t_arrive j) (outcome j) (body_bytes j) (slip_attempts j).
Definition set_done (j : job) : job :=
  Job (fd j) (req j) true (next j) (out j) (client_gone j) (t_arrive j) (outcome j) (body_bytes j) (slip_attempts j).
Definition set_outcome (o : outcome_t) (j : job) : job :=
  Job (fd j) (req j) (done j) (next j) (out j) (client_gone j) (t_arrive j) o (body_bytes j) (slip_attempts j).
Definition set_out (b : list Z) (j : job) : job :=
  Job (fd j) (req j) (done j) (next j) b (client_gone j) (t_arrive j) (outcome j) (body_bytes j) (slip_attempts j).
Definition set_gone (j : job) : job :=
  Job (fd j) (req j) (done j) (next j) (out j) true (t_arrive j) (outcome j) (body_bytes j) (slip_attempts j).
Definition set_needs (j : job) : job :=
  let r := req j in
  let r' := Request (kind r) (api r) (max_tokens r) (max_tokens_set r) (temperature r) (stream r)
    (return_token_ids r) (think_mode r) (has_tools r) (stops_len r)
    (responses_requires_live_tool_state r) (responses_requires_live_reasoning r)
    (anthropic_requires_live_tool_state r) (live_state_bank_owned r) (images_len r) (prompt_len r)
    (compute_needs r) in
  Job (fd j) r' (done j) (next j) (out j) (client_gone j) (t_arrive j) (outcome j) (body_bytes j) (slip_attempts j).

(** struct server: the queue, its bounds, the routing switches; [sent] records
    the refusals written to sockets as (fd, status, retry-after). *)
Record server := Server {
  jobs : gmap Z job;
  head : option Z;
  tail : option Z;
  stopping : bool;
  queued : Z;
  inflight_body_bytes : Z;
  max_queue : Z;
  max_queue_bytes : Z;
  max_queue_age : spec_float;
  switches : route_env;
  default_tokens : Z;
  sent : list (Z * Z * Z);
  tick : Z
}.

Definition set_queue (js : gmap Z job) (h t : option Z) (q : Z) (s : server) : server :=
  Server js h t (stopping s) q (inflight_body_bytes s) (max_queue s) (max_queue_bytes s)
    (max_queue_age s) (switches s) (default_tokens s) (sent s) (tick s).
Definition set_inflight (n : Z) (s : server) : server :=
  Server (jobs s) (head s) (tail s) (stopping s) (queued s) n (max_queue s) (max_queue_bytes s)
    (max_queue_age s) (switches s) (default_tokens s) (sent s) (tick s).
Definition set_sent (l : list (Z * Z * Z)) (s : server) : server :=
  Server (jobs s) (head s) (tail s) (stopping s) (queued s) (inflight_body_bytes s) (max_queue s)
    (max_queue_bytes s) (max_queue_age s) (switches s) (default_tokens s) l (tick s).
Definition set_tick (n : Z) (s : server) : server :=
  Server (jobs s) (head s) (tail s) (stopping s) (queued s) (inflight_body_bytes s) (max_queue s)
    (max_queue_bytes s) (max_queue_age s) (switches s) (default_tokens s) (sent s) n.
Definition set_stopping (s : server) : server :=
  Server (jobs s) (head s) (tail s) true (queued s) (inflight_body_bytes s) (max_queue s)
    (max_queue_bytes s) (max_queue_age s) (switches s) (default_tokens s) (sent s) (tick s).
Definition on_job (i : Z) (f : job -> job) (s : server) : server :=
  set_queue (alter f i (jobs s)) (head s) (tail s) (queued s) s.

(** ** Queue operations *)
Inductive enq_verdict := ENQ_OK | ENQ_STOPPING | ENQ_SHED_QUEUE_DEPTH | ENQ_SHED_QUEUE_BYTES.

Definition body_of (s : server) (i : Z) : Z :=
  match jobs s !! i with Some j => body_bytes j | None => 0 end.

(** enqueue *)
Definition enqueue (s : server) (i : Z) : server * enq_verdict :=
  let s := on_job i set_needs s in
  if stopping s then (s, ENQ_STOPPING)
  else if (0 <? max_queue s) && (max_queue s <=? queued s) then (s, ENQ_SHED_QUEUE_DEPTH)
  else if (0 <? max_queue_bytes s) &&
          (max_queue_bytes s <? u64 (inflight_body_bytes s + body_of s i))
  then (s, ENQ_SHED_QUEUE_BYTES)
  else
    let s' :=
      match tail s with
      | Some t => set_queue (alter (set_next (Some i)) t (jobs s)) (head s) (Some i) (queued s + 1) s
      | None => set_queue (jobs s) (Some i) (Some i) (queued s + 1) s
      end in
    (set_inflight (u64 (inflight_body_bytes s + body_of s i)) s', ENQ_OK).

(** requeue_job_head *)
Definition requeue_job_head (s : server) (i : Z) : server :=
  let js := alter (set_next (head s)) i (jobs s) in
  set_queue js (Some i) (match tail s with None => Some i | t => t end) (queued s + 1) s.

(** queue_unlink_head_locked; [None] where the code would dereference a NULL
    head. *)
Definition queue_unlink_head_locked (s : server) : option (Z * server) :=
  match head s with
  | None => None
  | Some i =>
      match jobs s !! i with
      | None => None
      | Some j =>
          let h := next j in
          Some (i, set_queue (alter (set_next None) i (jobs s)) h
                     (match h with None => None | _ => tail s end) (queued s - 1) s)
      end
  end.

(** job_finish *)
Definition job_finish (s : server) (i : Z) : server := on_job i set_done s.

Inductive recv_result := Received (n : Z) | RecvError (errno : Z).
Abbreviation ECONNRESET := 104.
Abbreviation ENOTCONN := 107.

Section Worker.
(** recv(fd, MSG_PEEK | MSG_DONTWAIT) and now_sec() at a tick. *)
Context (recv : Z -> Z -> recv_result) (now : Z -> spec_float).

(** client_disconnected *)
Definition client_disconnected (s : server) (f : Z) : bool * server :=
  (match recv (tick s) f with
   | Received n => n =? 0
   | RecvError e => (e =? ECONNRESET) || (e =? ENOTCONN)
   end, set_tick (tick s + 1) s).

(** job_queue_aged *)
Definition job_queue_aged (s : server) (j : job) : bool :=
  if 0 <? slip_attempts j then false
  else F64.lt F64.zero (max_queue_age s) &&
       F64.lt (max_queue_age s) (F64.sub (now (tick s)) (t_arrive j)).

(** job_shed_aged *)
Definition job_shed_aged (s : server) (i : Z) (j : job) : server :=
  let '(gone, s) := client_disconnected s (fd j) in
  if gone then job_finish (on_job i (set_outcome OUT_CANCELED) s) i
  else
    let s := set_sent (sent s ++ [(fd j, 503, 30)]) s in
    job_finish (on_job i (set_outcome OUT_SHED) s) i.

(** The outcome of a dequeue: a job, no more work, or a wait for a signal. *)
Inductive dequeued := Got (i : Z) | Stopped | Waiting.

(** dequeue, between two waits on the condition variable. *)
Fixpoint dequeue_loop (fuel : nat) (s : server) : option (server * dequeued) :=
  match fuel with
  | O => None
  | S fuel =>
      match head s with
      | None => Some (s, if stopping s then Stopped else Waiting)
      | Some _ =>
          '(i, s) ← queue_unlink_head_locked s;
          j ← jobs s !! i;
          let '(gone, s) := client_disconnected s (fd j) in
          if gone then dequeue_loop fuel (job_finish (on_job i (set_outcome OUT_CANCELED) s) i)
          else if job_queue_aged s j then dequeue_loop fuel (job_shed_aged s i j)
          else Some (s, Got i)
      end
  end.
Definition dequeue (s : server) : option (server * dequeued) := dequeue_loop (S (Z.to_nat (queued s))) s.

(** job_tok_footprint *)
Definition job_tok_footprint (s : server) (j : job) : Z :=
  prompt_len (req j) + decode_budget (req j) (default_tokens s).

(** What wakes a thread that waits on the queue: a client thread enqueued a
    job, or the server is stopping; running out of events is the timeout. *)
Inductive wake := Arrives (i : Z) | Stops.
Definition wake_up (w : wake) (s : server) : server :=
  match w with Arrives i => (enqueue s i).1 | Stops => set_stopping s end.

(** The loop of coalesce_gather; [group] is the array of gathered jobs. *)
Fixpoint gather_loop (fuel : nat) (s : server) (group : list Z) (tok_total cap wait_ms max_tok : Z)
    (wakes : list wake) : option (server * list Z) :=
  match fuel with
  | O => None
  | S fuel =>
      if cap <=? blen group then Some (s, group)
      else
        match head s with
        | Some h =>
            j ← jobs s !! h;
            if static_peer_ok (cont_anthropic (switches s)) (cont_responses (switches s)) (req j) then
              if (0 <? max_tok) && (max_tok <? tok_total + job_tok_footprint s j) then Some (s, group)
              else if job_queue_aged s j then Some (s, group)
              else
                '(g, s) ← queue_unlink_head_locked s;
                let '(gone, s) := client_disconnected s (fd j) in
                if gone then
                  gather_loop fuel (job_finish (on_job g (set_outcome OUT_CANCELED) s) g) group
                    tok_total cap wait_ms max_tok wakes
                else
                  gather_loop fuel s (group ++ [g]) (tok_total + job_tok_footprint s j) cap wait_ms
                    max_tok wakes
            else Some (s, group)
        | None =>
            if stopping s || (wait_ms <=? 0) then Some (s, group)
            else
              match wakes with
              | [] => Some (s, group)
              | w :: wakes => gather_loop fuel (wake_up w s) group tok_total cap wait_ms max_tok wakes
              end
        end
  end.

Definition gather_fuel (s : server) (wakes : list wake) : nat :=
  Z.to_nat (queued s) + 2 * length wakes + 1.

(** coalesce_gather *)
Definition coalesce_gather (s : server) (first cap wait_ms max_tok : Z) (wakes : list wake) :
    option (server * list Z) :=
  j ← jobs s !! first;
  gather_loop (gather_fuel s wakes) s [first] (job_tok_footprint s j) cap wait_ms max_tok wakes.

(** The FIFO pull of cont_admit, between the slot check and the admission. *)
Definition cont_env (s : server) (bank_cap plen : Z) : route_env :=
  let sw := switches s in
  Env true true (cont_anthropic sw) (cont_responses sw) (cont_tools_anthropic sw)
    (cont_tools_responses sw) bank_cap plen.

Fixpoint cont_pull_loop (fuel : nat) (s : server) (bank_cap : Z) : option (server * option Z) :=
  match fuel with
  | O => None
  | S fuel =>
      match head s with
      | None => Some (s, None)
      | Some h =>
          j ← jobs s !! h;
          if job_queue_aged s j then
            '(i, s) ← queue_unlink_head_locked s;
            cont_pull_loop fuel (job_shed_aged s i j) bank_cap
          else
            match (route_decide (needs (req j)) (surface_for (req j))
                     (cont_env s bank_cap (prompt_len (req j)))).1 with
            | CONTINUOUS =>
                '(i, s) ← queue_unlink_head_locked s;
                let '(gone, s) := client_disconnected s (fd j) in
                if gone then
                  cont_pull_loop fuel (job_finish (on_job i (set_outcome OUT_CANCELED) s) i) bank_cap
                else Some (s, Some i)
            | _ => Some (s, None)
            end
      end
  end.
Definition cont_pull (s : server) (bank_cap : Z) : option (server * option Z) :=
  cont_pull_loop (S (Z.to_nat (queued s))) s bank_cap.
End Worker.

(** ** Output of a job *)
Abbreviation JOB_OUT_CAP := 16777216.

(** The counters and bounds of the output sink. *)
Record sink := Sink {
  out_backlog_bytes : Z;
  shed_slow_reader : Z;
  out_agg_cap : Z;
  out_agg_evict_min : Z
}.

Definition set_backlog (n : Z) (k : sink) : sink :=
  Sink n (shed_slow_reader k) (out_agg_cap k) (out_agg_evict_min k).
Definition shed_one (k : sink) : sink :=
  Sink (out_backlog_bytes k) (u64 (shed_slow_reader k + 1)) (out_agg_cap k) (out_agg_evict_min k).

(** job_emit *)
Definition job_emit (k : sink) (j : job) (p : list Z) : sink * job * bool :=
  let n := blen p in
  let '(k, j) :=
    if negb (client_gone j) then
      if JOB_OUT_CAP <? u64 (blen (out j) + n) then (shed_one k, set_gone j)
      else if (0 <? out_agg_cap k) && (out_agg_cap k <? u64 (out_backlog_bytes k + n)) &&
              (out_agg_evict_min k <=? u64 (blen (out j) + n))
      then (shed_one k, set_gone j)
      else (set_backlog (u64 (out_backlog_bytes k + n)) k, set_out (out j ++ p) j)
    else (k, j) in
  (k, j, negb (client_gone j)).

(** terminal_sink_reserve *)
Definition terminal_sink_reserve (k : sink) (n : Z) : sink * bool :=
  if (JOB_OUT_CAP <? n) ||
     ((0 <? out_agg_cap k) && (out_agg_cap k <? u64 (out_backlog_bytes k + n)))
  then (shed_one k, false)
  else (set_backlog (u64 (out_backlog_bytes k + n)) k, true).

(** terminal_sink_release *)
Definition terminal_sink_release (k : sink) (n : Z) : sink :=
  set_backlog (u64 (out_backlog_bytes k + u64 (- n))) k.

(** ** Fit of the serial session *)

(** serial_session_reuse_ok *)
Definition serial_session_reuse_ok (cur_ctx : Z) (graph_pending : bool) (need_min request_cap : Z)
    (current_graph_fits : bool) : bool :=
  if cur_ctx <? need_min then false
  else if negb graph_pending then true
  else (cur_ctx <=? request_cap) && current_graph_fits.

Inductive frame_kind := FRAME_CANONICAL | FRAME_RESOLVED_LIVE | FRAME_REQUIRED_MISS.
Inductive fit_plan := FIT_REUSE | FIT_RESIZE | FIT_REFUSE_PRESERVE | FIT_PASS_NATIVE.

(** serial_session_fit_plan *)
Definition serial_session_fit_plan (cur_ctx : Z) (graph_pending : bool) (need_min request_cap : Z)
    (current_graph_fits : bool) (kind : frame_kind) : fit_plan :=
  match kind with
  | FRAME_REQUIRED_MISS => FIT_PASS_NATIVE
  | _ =>
      if serial_session_reuse_ok cur_ctx graph_pending need_min request_cap current_graph_fits
      then FIT_REUSE
      else match kind with FRAME_RESOLVED_LIVE => FIT_REFUSE_PRESERVE | _ => FIT_RESIZE end
  end.

(** ** The list of waiting jobs *)

Fixpoint linked (js : gmap Z job) (l : list Z) : Prop :=
  match l with
  | [] => True
  | i :: l => (exists j, js !! i = Some j /\ next j = hd_error l) /\ linked js l
  end.

Record queue_rep (s : server) (l : list Z) : Prop := {
  rep_nodup : NoDup l;
  rep_linked : linked (jobs s) l;
  rep_head : head s = hd_error l;
  rep_tail : tail s = last l;
  rep_count : queued s = blen l
}.

Lemma linked_alter f i js l : i ∉ l -> linked js l -> linked (alter f i js) l.
Proof.
  induction l as [|k l IH]; intros Hi; cbn; [done|]. apply not_elem_of_cons in Hi as [Hik Hi].
  intros [(j & Hj & Hn) Hl]. split; [|by apply IH]. exists j. by rewrite lookup_alter_ne.
Qed.

(** Changing a job without touching its link. *)
Lemma linked_alter_link f i js l : (forall j, next (f j) = next j) -> linked js l -> linked (alter f i js) l.
Proof.
  intros Hf. induction l as [|k l IH]; cbn; [done|]. intros [(j & Hj & Hn) Hl]. split; [|by apply IH].
  destruct (decide (k = i)) as [->|].
  - exists (f j). rewrite lookup_alter_eq, Hj. by rewrite Hf.
  - exists j. by rewrite lookup_alter_ne.
Qed.

Lemma linked_snoc js l t i j : last l = Some t -> NoDup l -> i ∉ l -> js !! i = Some j -> next j = None ->
  linked js l -> linked (alter (set_next (Some i)) t js) (l ++ [i]).
Proof.
  intros Ht Hnd Hi Hj Hn. revert t Ht. induction l as [|k l IH]; intros t Ht; [done|].
  apply NoDup_cons in Hnd as [Hk Hnd]. apply not_elem_of_cons in Hi as [Hik Hi]. cbn.
  intros [(jk & Hjk & Hnk) Hl]. destruct l as [|k' l].
  - cbn in *. injection Ht as <-. split; [|split; [|done]].
    + exists (set_next (Some i) jk). by rewrite lookup_alter_eq, Hjk.
    + exists j. by rewrite lookup_alter_ne.
  - assert (Hne : k <> t).
    { intros ->. apply Hk, last_Some_elem_of, Ht. }
    split; [|by apply IH]. exists jk. rewrite lookup_alter_ne by done. by rewrite Hnk.
Qed.

Lemma last_cons_some {A} (x : A) l : last (x :: l) = Some (default x (last l)).
Proof. revert x. induction l as [|y l IH]; intros x; [done|]. change (last (x :: y :: l)) with (last (y :: l)). rewrite IH. done. Qed.

(** The head of the queue leaves it, the rest keeps its order. *)
Lemma unlink_spec s i l : queue_rep s (i :: l) ->
  exists j s', jobs s !! i = Some j /\ queue_unlink_head_locked s = Some (i, s') /\ queue_rep s' l /\
    jobs s' = alter (set_next None) i (jobs s) /\
    s' = set_queue (jobs s') (head s') (tail s') (queued s') s.
Proof.
  intros [Hnd Hl Hh Ht Hq]. apply NoDup_cons in Hnd as [Hi Hnd]. cbn in Hl, Hh.
  destruct Hl as [(j & Hj & Hn) Hl].
  eexists j, _. unfold queue_unlink_head_locked. rewrite Hh, Hj. split; [done|]. split; [reflexivity|].
  split; [|done]. split; cbn; [done|by apply linked_alter|done| |].
  - rewrite Hn, Ht. destruct l as [|k l]; [done|]. cbn [hd_error]. done.
  - rewrite Hq, blen_cons. lia.
Qed.

Lemma queue_rep_job f i s l : i ∉ l -> queue_rep s l -> queue_rep (on_job i f s) l.
Proof. intros Hi [Hnd Hl Hh Ht Hq]. split; try done. by apply linked_alter. Qed.
Lemma queue_rep_fields s s' l : jobs s' = jobs s -> head s' = head s -> tail s' = tail s ->
  queued s' = queued s -> queue_rep s l -> queue_rep s' l.
Proof. intros Hj Hh Ht Hq [? ? ? ? ?]. split; congruence. Qed.

(** ** Settled jobs *)

(** Two states hold the same job, its link apart. *)
Definition agrees (s s' : server) (i : Z) : Prop :=
  set_next None <$> jobs s' !! i = set_next None <$> jobs s !! i.

(** A job left the queue for good: it is signalled done, either as canceled by
    its client or as shed with the answer 503 on its socket. *)
Definition settled_job (s : server) (i : Z) : Prop :=
  exists j, jobs s !! i = Some j /\ done j = true /\
    (outcome j = OUT_CANCELED \/ (outcome j = OUT_SHED /\ (fd j, 503, 30) ∈ sent s)).

(** The bounds, switches and byte accounting, which the pulls leave alone. *)
Definition same_config (s s' : server) : Prop :=
  stopping s' = stopping s /\ inflight_body_bytes s' = inflight_body_bytes s /\
  max_queue s' = max_queue s /\ max_queue_bytes s' = max_queue_bytes s /\
  max_queue_age s' = max_queue_age s /\ switches s' = switches s /\ default_tokens s' = default_tokens s.

(** [pre] left the queue between [s] and [s'], every other job is as it was. *)
Definition settled (pre : list Z) (s s' : server) : Prop :=
  Forall (settled_job s') pre /\ (forall i, i ∉ pre -> agrees s s' i) /\
  same_config s s' /\ sent s `prefix_of` sent s'.

Lemma settled_refl s : settled [] s s.
Proof. split; [constructor|]. split; [done|]. done. Qed.

Lemma settled_job_mono s s' i : agrees s s' i -> sent s `prefix_of` sent s' ->
  settled_job s i -> settled_job s' i.
Proof.
  unfold agrees. intros Ha Hs (j & Hj & Hd & Ho). rewrite Hj in Ha. cbn in Ha.
  destruct (jobs s' !! i) as [j'|] eqn:Hj'; [|done]. cbn in Ha. injection Ha as E.
  exists j'. split; [done|].
  assert (Hdone : done j' = done j) by congruence. rewrite Hdone. split; [done|].
  assert (outcome j' = outcome j) as -> by congruence. assert (fd j' = fd j) as -> by congruence.
  destruct Ho as [|[? Hin]]; [by left|]. right. split; [done|].
  destruct Hs as [k ->]. apply elem_of_app. by left.
Qed.

Lemma settled_trans pre pre' s s' s'' : settled pre s s' -> settled pre' s' s'' ->
  Forall (fun i => i ∉ pre') pre -> settled (pre ++ pre') s s''.
Proof.
  intros (H1 & A1 & (C1 & C2 & C3 & C4 & C5 & C6 & C7) & P1) (H2 & A2 & (D1 & D2 & D3 & D4 & D5 & D6 & D7) & P2) Hd.
  split; [|split; [|split]].
  - apply Forall_app. split; [|done]. apply Forall_forall. intros i Hi. rewrite Forall_forall in H1, Hd.
    apply (settled_job_mono s'); [by apply A2, Hd|done|by apply H1].
  - intros i Hi. apply not_elem_of_app in Hi as [Hi Hi']. unfold agrees in *. rewrite A2, A1 by done. done.
  - unfold same_config. repeat split; congruence.
  - by transitivity (sent s').
Qed.

(** Retiring a job that is not in the queue. *)
Lemma retire_settles s s1 i j o l : jobs s !! i = Some j ->
  (forall k, k <> i -> agrees s s1 k) -> same_config s s1 -> sent s `prefix_of` sent s1 ->
  jobs s1 !! i = Some (set_next None j) ->
  (o = OUT_CANCELED \/ (o = OUT_SHED /\ (fd j, 503, 30) ∈ sent s1)) -> i ∉ l -> queue_rep s1 l ->
  let s2 := job_finish (on_job i (set_outcome o) s1) i in settled [i] s s2 /\ queue_rep s2 l.
Proof.
  intros Hj Ha Hc Hs H1 Ho Hi Hq. cbv zeta. split.
  - split; [|split; [|split; [done|done]]].
    + constructor; [|constructor]. eexists. unfold job_finish, on_job. cbn.
      rewrite lookup_alter_eq, lookup_alter_eq, H1. cbn. split; [reflexivity|]. split; [done|]. done.
    + intros k Hk. apply not_elem_of_cons in Hk as [Hk _]. unfold agrees, job_finish, on_job. cbn.
      rewrite !lookup_alter_ne by done. by apply Ha.
  - unfold job_finish. by do 2 (apply queue_rep_job; [done|]).
Qed.

(** ** The queue operations on the list *)

Lemma enqueue_rep s l i j : queue_rep s l -> jobs s !! i = Some j -> i ∉ l -> next j = None ->
  match (enqueue s i).2 with
  | ENQ_OK => queue_rep (enqueue s i).1 (l ++ [i])
  | _ => queue_rep (enqueue s i).1 l
  end.
Proof.
  intros Hq Hj Hi Hn. unfold enqueue.
  assert (Hq' : queue_rep (on_job i set_needs s) l) by by apply queue_rep_job.
  assert (Hj' : jobs (on_job i set_needs s) !! i = Some (set_needs j)) by (cbn; by rewrite lookup_alter_eq, Hj).
  set (s0 := on_job i set_needs s) in *. clearbody s0. clear Hq Hj.
  destruct (stopping s0); [done|]. destruct (_ && _); [done|]. destruct (_ && _); [done|].
  destruct Hq' as [Hnd Hl Hh Ht Hc]. cbn [fst snd]. destruct (tail s0) as [t|] eqn:Et.
  - assert (Hne : l <> []) by (intros ->; done).
    split; cbn.
    + apply NoDup_app. split; [done|]. split; [|apply NoDup_singleton].
      intros k Hk Hk'. apply list_elem_of_singleton in Hk'. by subst.
    + by apply linked_snoc with (set_needs j).
    + rewrite Hh. by destruct l.
    + by rewrite last_snoc.
    + rewrite Hc, blen_app. done.
  - destruct l as [|k l]; [|by rewrite last_cons_some in Ht]. split; cbn.
    + apply NoDup_singleton.
    + split; [|done]. by exists (set_needs j).
    + done.
    + done.
    + rewrite Hc. done.
Qed.

Lemma requeue_rep s l i j : queue_rep s l -> jobs s !! i = Some j -> i ∉ l ->
  queue_rep (requeue_job_head s i) (i :: l).
Proof.
  intros [Hnd Hl Hh Ht Hc] Hj Hi. split; cbn.
  - by apply NoDup_cons.
  - split; [|by apply linked_alter]. exists (set_next (head s) j). rewrite lookup_alter_eq, Hj. done.
  - done.
  - rewrite Ht. destruct l as [|k l]; [done|]. change (last (i :: k :: l)) with (last (k :: l)). by rewrite last_cons_some.
  - rewrite Hc, blen_cons. lia.
Qed.

Lemma agrees_unlink s s' i j : jobs s !! i = Some j -> jobs s' = alter (set_next None) i (jobs s) ->
  forall k, agrees s s' k.
Proof.
  intros Hj Hs k. unfold agrees. rewrite Hs. destruct (decide (k = i)) as [->|].
  - by rewrite lookup_alter_eq, Hj.
  - by rewrite lookup_alter_ne.
Qed.

Section WorkerSpec.
Variable recv : Z -> Z -> recv_result.
Variable now : Z -> spec_float.

Lemma cancel_settles s s1 i j l : jobs s !! i = Some j ->
  (forall k, agrees s s1 k) -> same_config s s1 -> sent s = sent s1 ->
  jobs s1 !! i = Some (set_next None j) -> i ∉ l -> queue_rep s1 l ->
  let s2 := job_finish (on_job i (set_outcome OUT_CANCELED) s1) i in settled [i] s s2 /\ queue_rep s2 l.
Proof.
  intros Hj Ha Hc Hs H1 Hi Hq.
  apply retire_settles with j; try done; try (by intros k _; apply Ha); [by rewrite Hs|by left].
Qed.

Lemma shed_settles s s1 i j l : jobs s !! i = Some j ->
  (forall k, agrees s s1 k) -> same_config s s1 -> sent s = sent s1 ->
  jobs s1 !! i = Some (set_next None j) -> i ∉ l -> queue_rep s1 l ->
  settled [i] s (job_shed_aged recv s1 i j) /\ queue_rep (job_shed_aged recv s1 i j) l.
Proof.
  intros Hj Ha Hc Hs H1 Hi Hq. unfold job_shed_aged, client_disconnected.
  set (gone := match recv _ _ with Received _ => _ | RecvError _ => _ end).
  assert (Hq' : forall snt t, queue_rep (set_sent snt (set_tick t s1)) l).
  { intros snt t. by apply (queue_rep_fields s1). }
  destruct gone.
  - apply cancel_settles with j; try done. by apply (queue_rep_fields s1).
  - apply retire_settles with j; try done; cbn.
    + by intros k _; apply Ha.
    + rewrite Hs. by apply prefix_app_r.
    + right. split; [done|]. apply elem_of_app. right. by apply list_elem_of_singleton.
Qed.

Lemma dequeue_loop_spec l : forall fuel s, queue_rep s l -> (length l < fuel)%nat ->
  exists s' r pre, dequeue_loop recv now fuel s = Some (s', r) /\ settled pre s s' /\
  match r with
  | Got i => exists post j, l = pre ++ i :: post /\ queue_rep s' post /\ jobs s' !! i = Some j /\
               job_queue_aged now s' j = false /\ (client_disconnected recv (set_tick (tick s' - 1) s') (fd j)).1 = false
  | Stopped => l = pre /\ queue_rep s' [] /\ stopping s' = true
  | Waiting => l = pre /\ queue_rep s' [] /\ stopping s' = false
  end.
Proof.
  induction l as [|i l IH]; intros fuel s Hq Hf; (destruct fuel as [|fuel]; [lia|]); cbn [dequeue_loop].
  - rewrite (rep_head _ _ Hq). cbn [hd_error]. eexists s, _, []. split; [reflexivity|].
    split; [apply settled_refl|]. by destruct (stopping s).
  - rewrite (rep_head _ _ Hq). cbn [hd_error].
    pose proof (rep_nodup _ _ Hq) as Hnd. apply NoDup_cons in Hnd as [Hi Hnd].
    destruct (unlink_spec s i l Hq) as (j & s1 & Hj & Hu & Hq1 & Hj1 & Hs1). rewrite Hu.
    pose proof (agrees_unlink s s1 i j Hj Hj1) as Ha.
    assert (Hj1' : jobs s1 !! i = Some (set_next None j)) by (by rewrite Hj1, lookup_alter_eq, Hj).
    assert (Hc1 : same_config s s1) by (rewrite Hs1; done).
    assert (Hsent : sent s = sent s1) by (rewrite Hs1; done).
    unfold mbind, option_bind. cbv beta iota. rewrite Hj1'. cbv beta iota. cbn [fd set_next].
    destruct (client_disconnected recv s1 (fd j)) as [gone s2'] eqn:Ecd.
    assert (Hgone : gone = (client_disconnected recv s1 (fd j)).1) by (by rewrite Ecd).
    assert (s2' = set_tick (tick s1 + 1) s1) as -> by (by injection Ecd). clear Ecd.
    set (s2 := set_tick (tick s1 + 1) s1).
    assert (Hq2 : queue_rep s2 l) by by apply (queue_rep_fields s1).
    assert (Hnext : forall s3, settled [i] s s3 -> queue_rep s3 l ->
      exists s' r pre, dequeue_loop recv now fuel s3 = Some (s', r) /\ settled pre s s' /\
      match r with
      | Got k => exists post j, i :: l = pre ++ k :: post /\ queue_rep s' post /\ jobs s' !! k = Some j /\
               job_queue_aged now s' j = false /\ (client_disconnected recv (set_tick (tick s' - 1) s') (fd j)).1 = false
      | Stopped => i :: l = pre /\ queue_rep s' [] /\ stopping s' = true
      | Waiting => i :: l = pre /\ queue_rep s' [] /\ stopping s' = false
      end).
    { intros s3 H3 Hq3. destruct (IH fuel s3 Hq3 ltac:(cbn in Hf; lia)) as (s' & r & pre & Hd & Hst & Hr).
      exists s', r, (i :: pre). split; [done|]. split.
      - apply (settled_trans [i] pre s s3 s' H3 Hst). constructor; [|constructor].
        destruct r as [k| |]; [destruct Hr as (post & jk & -> & _); set_solver|destruct Hr as [-> _]; done|destruct Hr as [-> _]; done].
      - destruct r as [k| |]; [destruct Hr as (post & jk & -> & ?); by exists post, jk|destruct Hr as [-> ?]; done|destruct Hr as [-> ?]; done]. }
    destruct gone.
    { destruct (cancel_settles s s2 i j l) as [Hset Hrep]; try done. by apply Hnext. }
    destruct (job_queue_aged now s2 (set_next None j)) eqn:Eaged.
    { destruct (shed_settles s s2 i j l) as [Hset Hrep]; try done. by apply Hnext. }
    eexists s2, (Got i), []. split; [reflexivity|]. split.
    + split; [constructor|]. split; [intros k _; apply Ha|]. split; [done|]. cbn. by rewrite Hsent.
    + exists l, (set_next None j). split; [done|]. split; [done|]. split; [done|]. split; [done|].
      rewrite Hgone. cbn. by replace (tick s1 + 1 - 1) with (tick s1) by lia.
Qed.
End WorkerSpec.

(** ** Gathering a static group *)

Section GatherSpec.
Variable recv : Z -> Z -> recv_result.
Variable now : Z -> spec_float.

Definition arrivals (wakes : list wake) : list Z :=
  omap (fun w => match w with Arrives i => Some i | Stops => None end) wakes.

(** The jobs that will arrive: distinct, not in the queue, unlinked. *)
Definition fresh (s : server) (l : list Z) (wakes : list wake) : Prop :=
  NoDup (arrivals wakes) /\
  Forall (fun i => (i ∉ l) /\ exists j, jobs s !! i = Some j /\ next j = None) (arrivals wakes).

Definition peer (s : server) (i : Z) : Prop :=
  exists j, jobs s !! i = Some j /\
    static_peer_ok (cont_anthropic (switches s)) (cont_responses (switches s)) (req j) = true.

Definition footprint (s : server) (i : Z) : Z :=
  match jobs s !! i with Some j => job_tok_footprint s j | None => 0 end.
Definition footprints (s : server) (l : list Z) : Z := foldr (fun i t => footprint s i + t) 0 l.

(** What stays the same under arrivals and pulls. *)
Definition same_settings (s s' : server) : Prop :=
  switches s' = switches s /\ default_tokens s' = default_tokens s /\ sent s `prefix_of` sent s' /\
  max_queue_age s' = max_queue_age s.

Lemma same_settings_trans s s1 s' : same_settings s s1 -> same_settings s1 s' -> same_settings s s'.
Proof.
  intros (? & ? & ? & ?) (? & ? & ? & ?). split; [congruence|]. split; [congruence|]. split; [by transitivity (sent s1)|congruence].
Qed.

Lemma agrees_job s s' i j : agrees s s' i -> jobs s !! i = Some j ->
  exists j', jobs s' !! i = Some j' /\ req j' = req j /\ fd j' = fd j /\ done j' = done j /\ outcome j' = outcome j.
Proof.
  unfold agrees. intros Ha Hj. rewrite Hj in Ha. cbn in Ha. destruct (jobs s' !! i) as [j'|]; [|done].
  cbn in Ha. assert (E : set_next None j' = set_next None j) by congruence.
  exists j'. split; [done|]. split; [exact (f_equal req E)|]. split; [exact (f_equal fd E)|].
  split; [exact (f_equal done E)|exact (f_equal outcome E)].
Qed.

Lemma peer_mono s s' i : agrees s s' i -> same_settings s s' -> peer s i -> peer s' i.
Proof.
  intros Ha (Hs & _) (j & Hj & Hp). destruct (agrees_job _ _ _ _ Ha Hj) as (j' & Hj' & Hr & _).
  exists j'. by rewrite Hs, Hr.
Qed.

Lemma footprint_mono s s' i : agrees s s' i -> same_settings s s' -> footprint s' i = footprint s i.
Proof.
  intros Ha (_ & Hs & _ & _). unfold footprint, agrees in *.
  destruct (jobs s !! i) as [j|], (jobs s' !! i) as [j'|]; cbn in Ha; try done.
  assert (E : set_next None j' = set_next None j) by congruence.
  unfold job_tok_footprint. by rewrite Hs, (f_equal req E : req j' = req j).
Qed.

Lemma fresh_mono s s' l l' wakes : fresh s l wakes -> (forall i, i ∈ l' -> i ∈ l) ->
  (forall i, i ∈ arrivals wakes -> jobs s' !! i = jobs s !! i) -> fresh s' l' wakes.
Proof.
  intros [Hnd Hf] Hl Hj. split; [done|]. rewrite Forall_forall in *. intros i Hi.
  destruct (Hf i Hi) as (Hi' & j & Hji & Hn). split; [by intros H%Hl|]. exists j. by rewrite Hj.
Qed.

Lemma wake_spec s w wakes : queue_rep s [] -> fresh s [] (w :: wakes) ->
  exists arr, queue_rep (wake_up w s) arr /\ arr `sublist_of` arrivals [w] /\ fresh (wake_up w s) arr wakes /\
    (forall i, i ∉ arrivals [w] -> agrees s (wake_up w s) i) /\ same_settings s (wake_up w s).
Proof.
  intros Hq [Hnd Hf]. destruct w as [i|].
  - cbn in Hnd, Hf. apply NoDup_cons in Hnd as [Hi Hnd]. apply Forall_cons in Hf as [(Hil & j & Hj & Hn) Hf].
    pose proof (enqueue_rep s [] i j Hq Hj Hil Hn) as He. cbn [wake_up].
    assert (Hjobs : forall k, k <> i -> jobs (enqueue s i).1 !! k = jobs s !! k).
    { intros k Hk. unfold enqueue. cbn. rewrite (rep_tail _ _ Hq). cbn.
      repeat case_match; cbn; by rewrite lookup_alter_ne. }
    assert (Hset : same_settings s (enqueue s i).1).
    { unfold enqueue. repeat case_match; done. }
    exists (match (enqueue s i).2 with ENQ_OK => [i] | _ => [] end). split; [by destruct (enqueue s i).2|].
    split; [destruct (enqueue s i).2; [done|apply sublist_nil_l..]|]. split; [|split; [|done]].
    + split; [done|]. rewrite Forall_forall in *. intros k Hk. destruct (Hf k Hk) as (_ & jk & Hjk & Hnk).
      assert (Hki : k <> i) by (by intros ->). split.
      * destruct (enqueue s i).2; [by rewrite list_elem_of_singleton|apply not_elem_of_nil..].
      * exists jk. by rewrite Hjobs.
    + intros k Hk. cbn in Hk. apply not_elem_of_cons in Hk as [Hk _]. unfold agrees. by rewrite Hjobs.
  - exists []. split; [by apply (queue_rep_fields s)|]. split; [done|]. split; [|done].
    by apply (fresh_mono s _ []).
Qed.

(** The peek at the socket [f] at tick [t] says that the client left: an orderly
    close, or a connection that is reset or no longer there. *)
Definition lost (t f : Z) : Prop :=
  recv t f = Received 0 \/ recv t f = RecvError ECONNRESET \/ recv t f = RecvError ENOTCONN.

Lemma disconnected_lost s f : (client_disconnected recv s f).1 = true <-> lost (tick s) f.
Proof.
  unfold client_disconnected, lost. cbn. destruct (recv (tick s) f) as [n|e].
  - rewrite Z.eqb_eq. naive_solver.
  - rewrite orb_true_iff, !Z.eqb_eq. naive_solver.
Qed.

(** The jobs taken off the head of the queue from tick [t] on, one peek each:
    none of them is over age, the connected ones are [took], the others are
    signalled done as canceled. *)
Inductive passed (s' : server) : Z -> list Z -> list Z -> Prop :=
| passed_nil t : passed s' t [] []
| passed_taken t i j pre took :
    jobs s' !! i = Some j -> job_queue_aged now (set_tick t s') j = false -> ~ lost t (fd j) ->
    passed s' (t + 1) pre took -> passed s' t (i :: pre) (i :: took)
| passed_lost t i j pre took :
    jobs s' !! i = Some j -> job_queue_aged now (set_tick t s') j = false -> lost t (fd j) ->
    done j = true -> outcome j = OUT_CANCELED ->
    passed s' (t + 1) pre took -> passed s' t (i :: pre) took.

Lemma passed_sub s' t pre took : passed s' t pre took -> took `sublist_of` pre.
Proof. induction 1; by constructor. Qed.

(** Why the gather ended in [s'] with the queue [post]: the group is full; the
    head is not compatible, over the token budget or over age; or nothing
    waits and the server stops, no wait is asked for or the wait timed out
    (no event is left). *)
Definition gather_ended (s' : server) (post : list Z) (rest : list wake) (cap wait max_tok tok n : Z) : Prop :=
  cap <= n \/
  match post with
  | h :: _ => ~ peer s' h \/ 0 < max_tok < tok + footprint s' h \/
      (exists j, jobs s' !! h = Some j /\ job_queue_aged now s' j = true)
  | [] => stopping s' = true \/ wait <= 0 \/ rest = []
  end.

(** The outcome of a gather that started with the queue [l]. *)
Record gathered (s s' : server) (l : list Z) (wakes : list wake) (cap wait max_tok tok : Z) (group took : list Z) : Prop := {
  g_queue : exists arr pre post used rest, l ++ arr = pre ++ post /\ queue_rep s' post /\
    wakes = used ++ rest /\ arr `sublist_of` arrivals used /\ passed s' (tick s) pre took /\
    (forall i, i ∉ arrivals wakes -> i ∉ pre \/ i ∈ took -> agrees s s' i) /\
    gather_ended s' post rest cap wait max_tok (tok + footprints s' took) (blen (group ++ took));
  g_settings : same_settings s s';
  g_peers : Forall (peer s') took;
  g_cap : took <> [] -> blen (group ++ took) <= cap;
  g_tokens : 0 < max_tok -> took <> [] -> tok + footprints s' took <= max_tok
}.

Lemma gather_stop s l wakes cap wait mx tok group : queue_rep s l ->
  gather_ended s l wakes cap wait mx tok (blen group) -> gathered s s l wakes cap wait mx tok group [].
Proof.
  intros Hq He. split; try done.
  exists [], [], l, [], wakes. rewrite !app_nil_r. cbn [footprints foldr]. rewrite Z.add_0_r.
  do 3 (split; [done|]). split; [apply sublist_nil_l|]. split; [constructor|]. done.
Qed.

Lemma aged_agrees s1 s' t i j j' : agrees s1 s' i -> same_settings s1 s' -> jobs s1 !! i = Some j ->
  jobs s' !! i = Some j' -> job_queue_aged now (set_tick t s') j' = job_queue_aged now (set_tick t s1) j.
Proof.
  unfold agrees. intros Ha (_ & _ & _ & Hs) Hj Hj'. rewrite Hj, Hj' in Ha. cbn in Ha.
  assert (E : set_next None j' = set_next None j) by congruence.
  unfold job_queue_aged. cbn. rewrite Hs. pose proof (f_equal slip_attempts E) as E1. pose proof (f_equal t_arrive E) as E2.
  cbn in E1, E2. by rewrite E1, E2.
Qed.

(** One job leaves the queue, into the group or for good; then the rest. *)
Lemma gather_step s s1 s' i j l wakes cap wait mx tok tok' group took1 took :
  queue_rep s (i :: l) -> fresh s (i :: l) wakes ->
  (forall k, k <> i -> agrees s s1 k) -> same_settings s s1 -> queue_rep s1 l -> tick s1 = tick s + 1 ->
  jobs s1 !! i = Some j -> job_queue_aged now (set_tick (tick s) s1) j = false ->
  gathered s1 s' l wakes cap wait mx tok' (group ++ took1) took ->
  ((took1 = [] /\ done j = true /\ outcome j = OUT_CANCELED /\ lost (tick s) (fd j) /\ tok' = tok) \/
   (took1 = [i] /\ agrees s s1 i /\ ~ lost (tick s) (fd j) /\ peer s1 i /\ blen group < cap /\
    tok' = tok + footprint s1 i /\ (0 < mx -> tok' <= mx))) ->
  gathered s s' (i :: l) wakes cap wait mx tok group (took1 ++ took).
Proof.
  intros Hq [_ Hf] Ha Hset Hq1 Htk Hj Hag
    [(arr & pre & post & used & rest & Hlp & Hqp & Hw & Harr & Hpass & Hframe & Hend) Hset' Hpeers Hcap Htok] Hcase.
  assert (Hi : i ∉ l) by (pose proof (rep_nodup _ _ Hq) as H; by apply NoDup_cons in H as [? _]).
  assert (Hiw : i ∉ arrivals wakes).
  { intros Hin. rewrite Forall_forall in Hf. destruct (Hf i Hin) as [H _]. apply H. by left. }
  assert (Hip : i ∉ pre).
  { intros Hin. assert (H : i ∈ l ++ arr) by (rewrite Hlp; apply elem_of_app; by left).
    apply elem_of_app in H as [?|H]; [done|]. apply Hiw. rewrite Hw. unfold arrivals. rewrite omap_app.
    apply elem_of_app. left. by apply (elem_of_sublist arr). }
  pose proof (Hframe i Hiw (or_introl Hip)) as Hai.
  destruct (agrees_job _ _ _ _ Hai Hj) as (j' & Hj' & _ & Hfd & Hdn & Hout).
  assert (Hag' : job_queue_aged now (set_tick (tick s) s') j' = false) by by rewrite (aged_agrees s1 s' _ i j j').
  rewrite Htk in Hpass.
  assert (Hft : footprint s' i = footprint s1 i) by by apply footprint_mono.
  split.
  - exists arr, (i :: pre), post, used, rest. split; [cbn; by rewrite Hlp|]. do 3 (split; [done|]). split; [|split].
    + destruct Hcase as [(-> & Hd & Ho & Hl & _)|(-> & _ & Hl & _)]; cbn [app].
      * apply (passed_lost s' _ i j'); rewrite ?Hfd, ?Hdn, ?Hout; done.
      * apply (passed_taken s' _ i j'); rewrite ?Hfd; done.
    + intros k Hkw Hk. unfold agrees in *. destruct (decide (k = i)) as [->|Hki].
      * destruct Hcase as [(-> & _)|(-> & Hi1 & _)]; [|by rewrite Hai].
        destruct Hk as [Hk|Hk]; [set_solver|]. destruct Hip. by apply (elem_of_sublist took pre); [|eapply passed_sub].
      * rewrite Hframe; [by apply Ha|done|]. destruct Hk as [Hk|Hk]; [left; set_solver|].
        destruct Hcase as [(-> & _)|(-> & _)]; [by right|]. right. set_solver.
    + destruct Hcase as [(-> & _ & _ & _ & ->)|(-> & _ & _ & _ & _ & -> & _)].
      * by rewrite app_nil_r in Hend.
      * rewrite <- app_assoc in Hend. cbn [app footprints foldr] in Hend |- *. rewrite Hft.
        by rewrite Z.add_assoc.
  - by apply (same_settings_trans s s1).
  - destruct Hcase as [(-> & _)|(-> & _ & _ & Hp & _)]; [done|]. cbn. constructor; [|done].
    by apply (peer_mono s1).
  - intros Hne. destruct Hcase as [(-> & _)|(-> & _ & _ & _ & Hc & _)].
    + rewrite app_nil_r in Hcap. by apply Hcap.
    + destruct took as [|k took]; [|rewrite app_assoc; by apply Hcap]. rewrite app_nil_r, blen_snoc. lia.
  - intros Hmx Hne. destruct Hcase as [(-> & _ & _ & _ & ->)|(-> & _ & _ & _ & _ & -> & Hb)]; [by apply Htok|].
    cbn [app footprints foldr]. rewrite Hft. fold (footprints s' took).
    destruct took as [|k took]; [cbn; specialize (Hb Hmx); lia|]. specialize (Htok Hmx ltac:(done)). lia.
Qed.

Lemma tick_enqueue s i : tick (enqueue s i).1 = tick s.
Proof. unfold enqueue. repeat case_match; done. Qed.

(** An event while the queue is empty, then the rest. *)
Lemma gather_wake s s' arr w wakes cap wait mx tok group took : queue_rep s [] -> fresh s [] (w :: wakes) ->
  arr `sublist_of` arrivals [w] -> (forall i, i ∉ arrivals [w] -> agrees s (wake_up w s) i) ->
  same_settings s (wake_up w s) -> gathered (wake_up w s) s' arr wakes cap wait mx tok group took ->
  gathered s s' [] (w :: wakes) cap wait mx tok group took.
Proof.
  intros Hq Hfr Harr Haw Hsw
    [(arr' & pre & post & used & rest & Hlp & Hqp & Hu & Harr' & Hpass & Hframe & Hend) Hset' Hpeers Hc Htok].
  assert (Hw : forall ws, arrivals (w :: ws) = arrivals [w] ++ arrivals ws) by (intros ws; by destruct w).
  assert (Htk : tick (wake_up w s) = tick s) by (destruct w; [apply tick_enqueue|done]).
  rewrite Htk in Hpass. split; try done; [|by apply (same_settings_trans s (wake_up w s))].
  exists (arr ++ arr'), pre, post, (w :: used), rest. split; [done|]. split; [done|]. split; [by rewrite Hu|].
  split; [rewrite Hw; by apply sublist_app|]. split; [done|]. split; [|done].
  intros k Hk Hor. rewrite Hw in Hk. apply not_elem_of_app in Hk as [Hk Hk'].
  unfold agrees in *. rewrite Hframe; [by apply Haw|done|done].
Qed.

Lemma gather_loop_spec fuel : forall s l group tok cap wait mx wakes, queue_rep s l -> fresh s l wakes ->
  (length l + 2 * length wakes < fuel)%nat ->
  exists s' took, gather_loop recv now fuel s group tok cap wait mx wakes = Some (s', group ++ took) /\
    gathered s s' l wakes cap wait mx tok group took.
Proof.
  induction fuel as [|fuel IH]; intros s l group tok cap wait mx wakes Hq Hfr Hf; [lia|]. cbn [gather_loop].
  assert (Hstop : gather_ended s l wakes cap wait mx tok (blen group) ->
    exists s' took, Some (s, group) = Some (s', group ++ took) /\
    gathered s s' l wakes cap wait mx tok group took).
  { intros He. exists s, []. split; [by rewrite app_nil_r|by apply gather_stop]. }
  destruct (Z.leb_spec cap (blen group)) as [Hcap|Hcap]; [apply Hstop; by left|].
  rewrite (rep_head _ _ Hq). destruct l as [|i l]; cbn [hd_error].
  - destruct (stopping s) eqn:Est; cbn [orb]; [apply Hstop; right; by left|].
    destruct (Z.leb_spec wait 0); [apply Hstop; right; right; by left|].
    destruct wakes as [|w wakes]; [apply Hstop; right; right; by right|].
    destruct (wake_spec s w wakes Hq Hfr) as (arr & Hqw & Harr & Hfw & Haw & Hsw).
    assert (Hla : (length arr <= 1)%nat).
    { apply sublist_length in Harr. by destruct w; cbn in Harr; lia. }
    destruct (IH (wake_up w s) arr group tok cap wait mx wakes Hqw Hfw ltac:(cbn in Hf; lia)) as (s' & took & Hg & Hgs).
    exists s', took. split; [done|]. by apply (gather_wake s s' arr).
  - destruct (unlink_spec s i l Hq) as (j & s1 & Hj & Hu & Hq1 & Hj1 & Hs1).
    unfold mbind, option_bind. cbv beta iota. rewrite Hj. cbv beta iota.
    destruct (static_peer_ok _ _ _) eqn:Epeer.
    2: { apply Hstop. right. left. intros (j0 & Hj0 & Hp0). rewrite Hj in Hj0. injection Hj0 as <-. congruence. }
    destruct ((0 <? mx) && _) eqn:Ebudget.
    { apply Hstop. right. right. left. unfold footprint. rewrite Hj. lia. }
    destruct (job_queue_aged _ _ _) eqn:Eaged; [apply Hstop; right; right; right; by exists j|].
    rewrite Hu. cbv beta iota.
    destruct (client_disconnected recv s1 (fd j)) as [gone s2'] eqn:Ecd.
    assert (Hlost : gone = true <-> lost (tick s) (fd j)).
    { pose proof (disconnected_lost s1 (fd j)) as H. rewrite Ecd in H. cbn in H. rewrite H, Hs1. done. }
    assert (s2' = set_tick (tick s1 + 1) s1) as -> by (by injection Ecd). clear Ecd.
    set (s2 := set_tick (tick s1 + 1) s1).
    pose proof (agrees_unlink s s1 i j Hj Hj1) as Ha.
    assert (Hj2 : jobs s2 !! i = Some (set_next None j)) by (cbn; by rewrite Hj1, lookup_alter_eq, Hj).
    assert (Hq2 : queue_rep s2 l) by by apply (queue_rep_fields s1).
    assert (Hset2 : same_settings s s2) by (unfold s2; rewrite Hs1; done).
    assert (Htick2 : tick s2 = tick s + 1) by (unfold s2; cbn; by rewrite Hs1).
    assert (Hage : max_queue_age s2 = max_queue_age s) by (unfold s2; rewrite Hs1; done).
    assert (Hi : i ∉ l) by (pose proof (rep_nodup _ _ Hq) as H; by apply NoDup_cons in H as [? _]).
    assert (Hfresh : forall s3, (forall k, k <> i -> jobs s3 !! k = jobs s !! k) -> fresh s3 l wakes).
    { intros s3 H3. apply (fresh_mono s s3 (i :: l) l); [done|by right|]. intros k Hk. apply H3. intros ->.
      destruct Hfr as [_ Hfr]. rewrite Forall_forall in Hfr. destruct (Hfr i Hk) as [H _]. apply H. by left. }
    assert (Hother : forall k, k <> i -> jobs s2 !! k = jobs s !! k) by (intros k Hk; cbn; by rewrite Hj1, lookup_alter_ne).
    destruct gone.
    + set (s3 := job_finish _ _).
      destruct (cancel_settles s s2 i j l) as [[Hset3 (Ha3 & _ & Hsent3)] Hq3]; try done; [by unfold s2; rewrite Hs1|unfold s2; by rewrite Hs1|].
      fold s3 in Hset3, Ha3, Hq3, Hsent3.
      destruct (IH s3 l group tok cap wait mx wakes Hq3) as (s' & took & Hg & Hgs).
      { apply Hfresh. intros k Hk. cbn. by rewrite !lookup_alter_ne, Hother. }
      { cbn in Hf. lia. }
      exists s', took. split; [done|]. rewrite <- (app_nil_r group) in Hgs.
      apply (gather_step s s3 s' i (set_done (set_outcome OUT_CANCELED (set_next None j))) l wakes cap wait mx tok tok group [] took);
        try done.
      * intros k Hk. apply Ha3. by rewrite list_elem_of_singleton.
      * unfold s3, job_finish, on_job. cbn. cbn in Hj2. by rewrite !lookup_alter_eq, Hj2.
      * revert Eaged. unfold job_queue_aged. cbn. cbn in Hage. by rewrite Hage.
      * left. do 3 (split; [done|]). split; [by apply Hlost|done].
    + destruct (IH s2 l (group ++ [i]) (tok + job_tok_footprint s2 j) cap wait mx wakes Hq2) as (s' & took & Hg & Hgs).
      { by apply Hfresh. }
      { cbn in Hf. lia. }
      exists s', (i :: took). split; [by rewrite Hg, <- app_assoc|].
      apply (gather_step s s2 s' i (set_next None j) l wakes cap wait mx tok (tok + job_tok_footprint s2 j) group [i] took); try done.
      { intros k Hk. unfold agrees. by rewrite Hother. }
      { revert Eaged. unfold job_queue_aged. cbn. cbn in Hage. by rewrite Hage. }
      assert (Hfp : footprint s2 i = job_tok_footprint s2 j) by (unfold footprint; by rewrite Hj2).
      right. split; [done|]. split; [apply Ha|]. split; [cbn; intros Hl; by apply Hlost in Hl|]. split.
      * exists (set_next None j). split; [done|]. by rewrite (proj1 Hset2).
      * split; [done|]. split; [by rewrite Hfp|]. intros Hmx.
        assert (job_tok_footprint s2 j = job_tok_footprint s j) by (unfold s2; rewrite Hs1; done). lia.
Qed.
End GatherSpec.

(** ** Pulling for the continuous lane *)

Section PullSpec.
Variable recv : Z -> Z -> recv_result.
Variable now : Z -> spec_float.

(** Whether the continuous lane takes the job. *)
Definition routes_continuous (s : server) (cap i : Z) : Prop :=
  exists j, jobs s !! i = Some j /\
    (route_decide (needs (req j)) (surface_for (req j)) (cont_env s cap (prompt_len (req j)))).1 = CONTINUOUS.

Lemma routes_mono s s' cap i : agrees s s' i -> switches s' = switches s ->
  routes_continuous s cap i -> routes_continuous s' cap i.
Proof.
  intros Ha Hs (j & Hj & Hr). destruct (agrees_job _ _ _ _ Ha Hj) as (j' & Hj' & E & _).
  exists j'. unfold cont_env in *. by rewrite Hs, E.
Qed.

Lemma cont_pull_loop_spec cap l : forall fuel s, queue_rep s l -> (length l < fuel)%nat ->
  exists s' r pre, cont_pull_loop recv now fuel s cap = Some (s', r) /\ settled pre s s' /\
  match r with
  | Some i => exists post, l = pre ++ i :: post /\ queue_rep s' post /\ routes_continuous s' cap i
  | None => exists post, l = pre ++ post /\ queue_rep s' post /\
              match post with
              | [] => True
              | h :: _ => ~ routes_continuous s' cap h /\
                  forall j, jobs s' !! h = Some j -> job_queue_aged now s' j = false
              end
  end.
Proof.
  induction l as [|i l IH]; intros fuel s Hq Hf; (destruct fuel as [|fuel]; [lia|]); cbn [cont_pull_loop];
    rewrite (rep_head _ _ Hq); cbn [hd_error].
  { exists s, None, []. split; [done|]. split; [apply settled_refl|]. by exists []. }
  pose proof (rep_nodup _ _ Hq) as Hnd. apply NoDup_cons in Hnd as [Hi Hnd].
  destruct (unlink_spec s i l Hq) as (j & s1 & Hj & Hu & Hq1 & Hj1 & Hs1).
  pose proof (agrees_unlink s s1 i j Hj Hj1) as Ha.
  assert (Hj1' : jobs s1 !! i = Some (set_next None j)) by (by rewrite Hj1, lookup_alter_eq, Hj).
  assert (Hc1 : same_config s s1) by (rewrite Hs1; done).
  assert (Hsent : sent s = sent s1) by (rewrite Hs1; done).
  unfold mbind, option_bind. cbv beta iota. rewrite Hj. cbv beta iota. rewrite Hu. cbv beta iota.
  assert (Hnext : forall s3, settled [i] s s3 -> queue_rep s3 l ->
    exists s' r pre, cont_pull_loop recv now fuel s3 cap = Some (s', r) /\ settled pre s s' /\
    match r with
    | Some k => exists post, i :: l = pre ++ k :: post /\ queue_rep s' post /\ routes_continuous s' cap k
    | None => exists post, i :: l = pre ++ post /\ queue_rep s' post /\
              match post with
              | [] => True
              | h :: _ => ~ routes_continuous s' cap h /\
                  forall j, jobs s' !! h = Some j -> job_queue_aged now s' j = false
              end
    end).
  { intros s3 H3 Hq3. destruct (IH fuel s3 Hq3 ltac:(cbn in Hf; lia)) as (s' & r & pre & Hd & Hst & Hr).
    exists s', r, (i :: pre). split; [done|]. split.
    - apply (settled_trans [i] pre s s3 s' H3 Hst). constructor; [|constructor].
      destruct r as [k|]; destruct Hr as (post & -> & _); intros Hin; apply Hi, elem_of_app; by left.
    - destruct r as [k|]; destruct Hr as (post & -> & ?); by exists post. }
  destruct (job_queue_aged now s j) eqn:Eaged.
  { destruct (shed_settles recv s s1 i j l) as [Hset Hrep]; try done. by apply Hnext. }
  assert (Hleave : (route_decide (needs (req j)) (surface_for (req j)) (cont_env s cap (prompt_len (req j)))).1 <> CONTINUOUS ->
    exists s' r pre, Some (s, @None Z) = Some (s', r) /\ settled pre s s' /\
    match r with
    | Some k => exists post, i :: l = pre ++ k :: post /\ queue_rep s' post /\ routes_continuous s' cap k
    | None => exists post, i :: l = pre ++ post /\ queue_rep s' post /\
              match post with
              | [] => True
              | h :: _ => ~ routes_continuous s' cap h /\
                  forall j, jobs s' !! h = Some j -> job_queue_aged now s' j = false
              end
    end).
  { intros Hne. exists s, None, []. split; [done|]. split; [apply settled_refl|].
    exists (i :: l). split; [done|]. split; [done|]. split.
    - intros (j' & Hj' & Hr). rewrite Hj in Hj'. injection Hj' as <-. done.
    - intros j' Hj'. rewrite Hj in Hj'. injection Hj' as <-. done. }
  destruct ((route_decide (needs (req j)) (surface_for (req j)) (cont_env s cap (prompt_len (req j)))).1) eqn:Er;
    [by apply Hleave| |by apply Hleave|by apply Hleave].
  destruct (client_disconnected recv s1 (fd j)) as [gone s2'] eqn:Ecd.
  assert (s2' = set_tick (tick s1 + 1) s1) as -> by (by injection Ecd). clear Ecd.
  set (s2 := set_tick (tick s1 + 1) s1).
  assert (Hq2 : queue_rep s2 l) by by apply (queue_rep_fields s1).
  destruct gone.
  { destruct (cancel_settles s s2 i j l) as [Hset Hrep]; try done. by apply Hnext. }
  exists s2, (Some i), []. split; [done|]. split.
  - split; [constructor|]. split; [intros k _; apply Ha|]. split; [done|]. cbn. by rewrite Hsent.
  - exists l. split; [done|]. split; [done|]. apply (routes_mono s); [apply Ha| |by exists j].
    unfold s2. rewrite Hs1. done.
Qed.
End PullSpec.

(** ** Properties *)

(** Linking jobs changes nothing else about them. *)
Lemma agrees_link s s' t i : jobs s' = alter (set_next i) t (jobs s) -> forall k, agrees s s' k.
Proof.
  intros Hs k. unfold agrees. rewrite Hs. destruct (decide (k = t)) as [->|].
  - rewrite lookup_alter_eq. by destruct (jobs s !! t).
  - by rewrite lookup_alter_ne.
Qed.

(** C36: The linked queue is a FIFO list with two ends.  enqueue answers
    ENQ_STOPPING exactly when the server is stopping, otherwise
    ENQ_SHED_QUEUE_DEPTH exactly when a depth bound is set and the queue has
    reached it, otherwise ENQ_SHED_QUEUE_BYTES exactly when a byte bound is set
    and the body bytes in flight with this job's (as a 64-bit sum) are over it;
    with these three the whole state is as it was but for the job's computed
    needs, and in every other case the job is appended with ENQ_OK, its body
    bytes are charged, and depth and bytes are within their bounds.
    requeue_job_head puts the job in front, whatever the bounds, and unlinking
    removes the first job; nothing else about a job changes than its link and,
    at enqueue, its needs. *)
Theorem queue_refines_fifo s l i j : queue_rep s l -> jobs s !! i = Some j -> i ∉ l -> next j = None ->
  let held := u64 (inflight_body_bytes s + body_bytes j) in
  let s0 := on_job i set_needs s in
  (let '(s1, v) := enqueue s i in
   (v = ENQ_STOPPING <-> stopping s = true) /\
   (v = ENQ_SHED_QUEUE_DEPTH <-> stopping s = false /\ 0 < max_queue s <= blen l) /\
   (v = ENQ_SHED_QUEUE_BYTES <-> stopping s = false /\ ~ 0 < max_queue s <= blen l /\ 0 < max_queue_bytes s < held) /\
   (v <> ENQ_OK -> s1 = s0 /\ queue_rep s1 l) /\
   (v = ENQ_OK -> queue_rep s1 (l ++ [i]) /\ (forall k, agrees s0 s1 k) /\ inflight_body_bytes s1 = held /\
      (0 < max_queue s -> blen (l ++ [i]) <= max_queue s) /\ (0 < max_queue_bytes s -> held <= max_queue_bytes s))) /\
  queue_rep (requeue_job_head s i) (i :: l) /\ (forall k, agrees s (requeue_job_head s i) k) /\
  inflight_body_bytes (requeue_job_head s i) = inflight_body_bytes s /\
  (exists s', queue_unlink_head_locked (requeue_job_head s i) = Some (i, s') /\ queue_rep s' l /\
     forall k, agrees s s' k) /\
  (forall h t, l = h :: t -> exists s', queue_unlink_head_locked s = Some (h, s') /\ queue_rep s' t /\
     forall k, agrees s s' k).
Proof.
  intros Hq Hj Hi Hn held s0. pose proof (enqueue_rep s l i j Hq Hj Hi Hn) as He.
  pose proof (requeue_rep s l i j Hq Hj Hi) as Hr. pose proof (rep_count _ _ Hq) as Hc.
  assert (Hag : forall k, agrees s (requeue_job_head s i) k) by by eapply agrees_link.
  assert (Hb : body_of s0 i = body_bytes j) by (unfold body_of; cbn; by rewrite lookup_alter_eq, Hj).
  assert (Hu : forall s l h t, queue_rep s l -> l = h :: t ->
    exists s', queue_unlink_head_locked s = Some (h, s') /\ queue_rep s' t /\ forall k, agrees s s' k).
  { intros s2 l2 h t H2 ->. destruct (unlink_spec _ _ _ H2) as (jr & s' & Hjr & Hu & Hqs & Hjs & Hs).
    exists s'. do 2 (split; [done|]). by eapply agrees_unlink. }
  split; [|split; [done|split; [done|split; [done|split; [|by intros h t; apply Hu]]]]].
  2: { destruct (Hu _ _ i l Hr eq_refl) as (s' & H1 & H2 & H3). exists s'. do 2 (split; [done|]).
       intros k. unfold agrees in *. by rewrite H3, Hag. }
  revert He. unfold enqueue. fold s0. rewrite Hb. change (stopping s0) with (stopping s).
  change (max_queue s0) with (max_queue s). change (queued s0) with (queued s).
  change (max_queue_bytes s0) with (max_queue_bytes s). change (inflight_body_bytes s0) with (inflight_body_bytes s).
  fold held. rewrite Hc. destruct (stopping s).
  { cbn. intros He. split; [done|]. do 2 (split; [by split; [|intros [? _]]|]). done. }
  destruct (Z.ltb_spec 0 (max_queue s)), (Z.leb_spec (max_queue s) (blen l)),
    (Z.ltb_spec 0 (max_queue_bytes s)), (Z.ltb_spec (max_queue_bytes s) held); cbn [andb fst snd]; intros He;
    (split; [done|]); (split; [split; [intros; try done; lia|intros; try done; lia]|]);
    (split; [split; [intros; try done; lia|intros; try done; lia]|]); (split; [done|]); intros Hok; try done;
    (split; [done|]); rewrite blen_snoc; (split; [|split; [done|lia]]); intros k;
    destruct (tail s0) as [t|]; try done; by eapply agrees_link.
Qed.

(** Dequeuing walks the queue from its head: the jobs it passes are signalled
    done, canceled when their client is gone and answered 503 when they waited
    too long; the job it returns is the first whose client is connected and
    that is not over age; the jobs behind it stay queued in order, and no other
    job changes. *)
Theorem dequeue_fifo recv now s l : queue_rep s l ->
  exists s' r pre, dequeue recv now s = Some (s', r) /\ settled pre s s' /\
  match r with
  | Got i => exists post j, l = pre ++ i :: post /\ queue_rep s' post /\ jobs s' !! i = Some j /\
               job_queue_aged now s' j = false /\ (client_disconnected recv (set_tick (tick s' - 1) s') (fd j)).1 = false
  | Stopped => l = pre /\ queue_rep s' [] /\ stopping s' = true
  | Waiting => l = pre /\ queue_rep s' [] /\ stopping s' = false
  end.
Proof.
  intros Hq. apply dequeue_loop_spec; [done|]. rewrite (rep_count _ _ Hq). unfold blen. lia.
Qed.

(** C37: A static group is taken from the head of the queue in order, arrivals
    during the wait included, and nothing overtakes: the jobs that leave the
    queue are a prefix of it, each looked at once, not over age; one whose
    client's socket reports an orderly close, a reset or no connection at its
    peek is signalled done as canceled, every other one joins the group.  The
    jobs taken are compatible with the static path, the group is within the
    row bound and its token footprints are within the budget, and the gather
    ends only with a full group, at a head that is incompatible, over budget or
    over age, or on an empty queue when the server stops, no wait is asked for
    or the wait runs out; jobs that stay queued and the jobs taken are as they
    were. *)
Theorem gather_static_group recv now s l first j cap wait mx wakes :
  queue_rep s l -> fresh s l wakes -> jobs s !! first = Some j ->
  exists s' took, coalesce_gather recv now s first cap wait mx wakes = Some (s', first :: took) /\
    gathered recv now s s' l wakes cap wait mx (job_tok_footprint s j) [first] took.
Proof.
  intros Hq Hf Hj. unfold coalesce_gather. rewrite Hj. cbn [mbind option_bind].
  apply gather_loop_spec; [done|done|]. unfold gather_fuel. rewrite (rep_count _ _ Hq). unfold blen. lia.
Qed.

(** The continuous lane pulls in order too: over-age and disconnected jobs are
    settled, the job returned is one that the route decision gives to the
    continuous lane, and otherwise the head stays queued because the decision
    gives it to another lane. *)
Theorem cont_pull_fifo recv now s l cap : queue_rep s l ->
  exists s' r pre, cont_pull recv now s cap = Some (s', r) /\ settled pre s s' /\
  match r with
  | Some i => exists post, l = pre ++ i :: post /\ queue_rep s' post /\ routes_continuous s' cap i
  | None => exists post, l = pre ++ post /\ queue_rep s' post /\
              match post with
              | [] => True
              | h :: _ => ~ routes_continuous s' cap h /\
                  forall j, jobs s' !! h = Some j -> job_queue_aged now s' j = false
              end
  end.
Proof.
  intros Hq. apply cont_pull_loop_spec; [done|]. rewrite (rep_count _ _ Hq). unfold blen. lia.
Qed.

(** The output sink is bounded: a job never holds more than 16 MiB; an emission
    either appends all its bytes and charges them to the aggregate, which then
    is within its cap unless this job's backlog is below the eviction minimum,
    or it appends none and the client is gone from then on; a reservation for a
    terminal that is granted is within both bounds and released exactly. *)
Theorem sink_bounded k j p : blen (out j) <= JOB_OUT_CAP -> blen p < 2 ^ 63 ->
  0 <= out_backlog_bytes k < 2 ^ 63 -> fits 64 (shed_slow_reader k + 1) ->
  let '(k', j', ok) := job_emit k j p in
  blen (out j') <= JOB_OUT_CAP /\ ok = negb (client_gone j') /\ (client_gone j = true -> ok = false) /\
  (ok = true -> out j' = out j ++ p /\ out_backlog_bytes k' = out_backlog_bytes k + blen p /\
     shed_slow_reader k' = shed_slow_reader k /\
     (0 < out_agg_cap k -> out_backlog_bytes k' <= out_agg_cap k \/ blen (out j') < out_agg_evict_min k)) /\
  (ok = false -> out j' = out j /\ out_backlog_bytes k' = out_backlog_bytes k /\
     shed_slow_reader k' = shed_slow_reader k + (if client_gone j then 0 else 1)) /\
  (let n := blen p in
   let '(k', ok) := terminal_sink_reserve k n in
   if ok then n <= JOB_OUT_CAP /\ (0 < out_agg_cap k -> out_backlog_bytes k' <= out_agg_cap k) /\
              terminal_sink_release k' n = k
   else k' = shed_one k).
Proof.
  intros Ho Hp Hk Hsh. pose proof (blen_nonneg (out j)). pose proof (blen_nonneg p).
  destruct k as [b sh ac em]. cbn [out_backlog_bytes shed_slow_reader out_agg_cap out_agg_evict_min] in *.
  assert (E1 : u64 (blen (out j) + blen p) = blen (out j) + blen p) by (apply wrap_id; flia).
  assert (E2 : u64 (b + blen p) = b + blen p) by (apply wrap_id; flia).
  assert (E3 : u64 (sh + 1) = sh + 1) by by apply wrap_id.
  unfold job_emit, terminal_sink_reserve, terminal_sink_release, shed_one, set_backlog.
  cbn [out_backlog_bytes shed_slow_reader out_agg_cap out_agg_evict_min]. rewrite E1, E2, E3.
  assert (Hrel : u64 (b + blen p + u64 (- blen p)) = b).
  { unfold wrap. rewrite Zplus_mod_idemp_r. replace (b + blen p + - blen p) with b by lia.
    apply Z.mod_small. flia. }
  assert (Hres : let '(k', ok) := if (JOB_OUT_CAP <? blen p) || ((0 <? ac) && (ac <? b + blen p))
      then (Sink b (sh + 1) ac em, false) else (Sink (b + blen p) sh ac em, true) in
    if ok : bool then blen p <= JOB_OUT_CAP /\ (0 < ac -> out_backlog_bytes k' <= ac) /\
       Sink (u64 (out_backlog_bytes k' + u64 (- blen p))) (shed_slow_reader k') (out_agg_cap k') (out_agg_evict_min k')
       = Sink b sh ac em
    else k' = Sink b (sh + 1) ac em).
  { destruct (_ || _) eqn:E; [done|]. cbn. rewrite Hrel. split; [lia|]. split; [lia|done]. }
  destruct (client_gone j) eqn:Eg; cbn [negb].
  - rewrite Eg. cbn. split; [done|]. split; [done|]. split; [done|]. split; [done|]. split; [|exact Hres].
    intros _. split; [done|]. split; [done|lia].
  - destruct (Z.ltb_spec JOB_OUT_CAP (blen (out j) + blen p)).
    { cbn. split; [done|]. split; [done|]. split; [done|]. split; [done|]. split; [done|exact Hres]. }
    destruct ((0 <? ac) && (ac <? b + blen p) && (em <=? blen (out j) + blen p)) eqn:E.
    { cbn. split; [done|]. split; [done|]. split; [done|]. split; [done|]. split; [done|exact Hres]. }
    cbn. rewrite Eg. cbn. rewrite blen_app. split; [lia|]. split; [done|]. split; [done|]. split; [|split; [done|exact Hres]].
    intros _. split; [done|]. split; [done|]. split; [done|]. intros Hac.
    destruct (Z.leb_spec (b + blen p) ac); [by left|right]. lia.
Qed.

(** The serial session is never destroyed for a request that continues it: a
    resolved live frame is served as it is or refused, an unresolved one is
    passed on, and a session is resized only for a canonical frame that the
    current one cannot hold; what is reused always holds the request. *)
Theorem fit_plan_preserves_live cur pending need cap fits_ kind :
  let plan := serial_session_fit_plan cur pending need cap fits_ kind in
  (plan = FIT_RESIZE -> kind = FRAME_CANONICAL /\ (pending = false -> cur < need)) /\
  (plan = FIT_REUSE -> need <= cur /\ (pending = true -> cur <= cap /\ fits_ = true)) /\
  (plan = FIT_REFUSE_PRESERVE -> kind = FRAME_RESOLVED_LIVE /\ (pending = false -> cur < need)) /\
  (plan = FIT_PASS_NATIVE <-> kind = FRAME_REQUIRED_MISS).
Proof.
  cbv zeta. unfold serial_session_fit_plan, serial_session_reuse_ok.
  destruct kind, (Z.ltb_spec cur need), pending; cbn; try (destruct ((cur <=? cap) && fits_) eqn:E; cbn);
    repeat split; intros; simplify_eq; try done; try lia; destruct fits_; try done; lia.
Qed.

(** ** Witnesses *)
Definition witness_request (plen : Z) : request :=
  Request REQ_CHAT API_OPENAI 16 true F64.zero false false 0 false 0 false false false false 0 plen 0.
Definition witness_job (f : Z) (nxt : option Z) : job :=
  Job f (witness_request 10) false nxt [] false F64.zero OUT_COMPLETED 100 0.
Definition witness_env : route_env := Env true true true true true true 64 10.
(** Job 7 waits, whose client left; job 8 waits behind it; job 9 is new. *)
Definition witness_server : server :=
  Server (<[7 := witness_job 1 (Some 8)]> (<[8 := witness_job 2 None]> (<[9 := witness_job 3 None]> ∅)))
    (Some 7) (Some 8) false 2 200 10 1000 F64.zero witness_env 64 [] 0.
Definition witness_recv (_ f : Z) : recv_result := if f =? 1 then Received 0 else RecvError 11.

Lemma witness_rep : queue_rep witness_server [7; 8].
Proof.
  split; try reflexivity.
  - by apply (bool_decide_unpack _).
  - cbn. repeat split; by eexists.
Qed.

Example queue_refines_fifo_witness :
  queue_rep witness_server [7; 8] /\ queue_rep (requeue_job_head witness_server 9) [9; 7; 8].
Proof.
  split; [exact witness_rep|].
  apply (queue_refines_fifo witness_server [7; 8] 9 (witness_job 3 None) witness_rep eq_refl); [set_solver|reflexivity].
Defined.

Example dequeue_fifo_witness :
  exists s' r pre, dequeue witness_recv (fun _ => F64.zero) witness_server = Some (s', r) /\ settled pre witness_server s'.
Proof.
  destruct (dequeue_fifo witness_recv (fun _ => F64.zero) witness_server [7; 8] witness_rep) as (s' & r & pre & H & Hs & _).
  by exists s', r, pre.
Defined.

Example gather_static_group_witness :
  exists s' took, coalesce_gather witness_recv (fun _ => F64.zero) witness_server 9 4 10 1000 [Stops] = Some (s', 9 :: took).
Proof.
  destruct (gather_static_group witness_recv (fun _ => F64.zero) witness_server [7; 8] 9 (witness_job 3 None) 4 10 1000
    [Stops] witness_rep) as (s' & took & H & _); [split; constructor|reflexivity|by exists s', took].
Defined.

Example cont_pull_fifo_witness :
  exists s' r pre, cont_pull witness_recv (fun _ => F64.zero) witness_server 64 = Some (s', r) /\ settled pre witness_server s'.
Proof.
  destruct (cont_pull_fifo witness_recv (fun _ => F64.zero) witness_server [7; 8] 64 witness_rep) as (s' & r & pre & H & Hs & _).
  by exists s', r, pre.
Defined.

Example sink_bounded_witness :
  let '(k', j', ok) := job_emit (Sink 0 0 64 8) (witness_job 1 None) [1; 2; 3] in ok = negb (client_gone j').
Proof.
  refine (proj1 (proj2 (sink_bounded (Sink 0 0 64 8) (witness_job 1 None) [1; 2; 3] _ _ _ _))); by vm_compute.
Defined.
