(* ===== verification/QueueLive.v ===== *)
(** * No job waits forever (ds4_server.c)

    A worker that keeps dequeuing reaches every queued job: the jobs ahead of it are
    finitely many, and no arrival can overtake it. *)

From S2P Require Import Prelude Float64 Route JobQueue.

Section Rounds.
Variable recv : Z -> Z -> recv_result.
Variable now : Z -> spec_float.

(** The clients of a batch enqueue their jobs, one after the other. *)
Definition enqueue_all (s : server) (batch : list Z) : server :=
  fold_left (fun s i => (enqueue s i).1) batch s.

(** One round of worker_main: arrivals since the last one, then a dequeue. *)
Definition round (s : server) (batch : list Z) : option (server * dequeued) :=
  dequeue recv now (enqueue_all s batch).

Fixpoint serve (s : server) (batches : list (list Z)) : option (server * list dequeued) :=
  match batches with
  | [] => Some (s, [])
  | b :: t =>
      r ← round s b;
      rs ← serve r.1 t;
      Some (rs.1, r.2 :: rs.2)
  end.

(** ** Arrivals *)

Lemma enqueue_other s i k l : queue_rep s l -> k <> i -> k ∉ l ->
  jobs (enqueue s i).1 !! k = jobs s !! k.
Proof.
  intros Hq Hk Hl. unfold enqueue. cbn. rewrite (rep_tail _ _ Hq).
  assert (Ht : forall t, last l = Some t -> t <> k).
  { intros t Ht ->. apply Hl. by apply last_Some_elem_of. }
  repeat case_match; cbn; rewrite ?lookup_alter_ne; try done; by apply Ht.
Qed.

(** The jobs that arrive are distinct, exist, and are not in the queue yet. *)
Definition arriving (s : server) (l : list Z) (ks : list Z) : Prop :=
  NoDup ks /\ Forall (fun i => (i ∉ l) /\ exists j, jobs s !! i = Some j /\ next j = None) ks.

Lemma enqueue_all_rep s l batch rest : queue_rep s l -> arriving s l (batch ++ rest) ->
  exists added, queue_rep (enqueue_all s batch) (l ++ added) /\
    (forall i, i ∈ added -> i ∈ batch) /\ arriving (enqueue_all s batch) (l ++ added) rest.
Proof.
  unfold enqueue_all. revert s l. induction batch as [|i batch IH]; intros s l Hq Hf; cbn.
  - exists []. rewrite app_nil_r. split; [done|]. split; [|done]. by intros i ?.
  - destruct Hf as [Hnd Hf]. cbn in Hnd, Hf. apply NoDup_cons in Hnd as [Hi Hnd].
    apply Forall_cons in Hf as [(Hil & j & Hj & Hn) Hf].
    pose proof (enqueue_rep s l i j Hq Hj Hil Hn) as He.
    set (s1 := (enqueue s i).1) in *.
    set (a := match (enqueue s i).2 with ENQ_OK => [i] | _ => [] end).
    assert (Hq1 : queue_rep s1 (l ++ a)).
    { unfold a. destruct (enqueue s i).2; [done|rewrite app_nil_r; done..]. }
    assert (Ha : forall k, k ∈ a -> k = i).
    { unfold a. intros k. destruct (enqueue s i).2; [by intros ->%list_elem_of_singleton|by intros ?%elem_of_nil..]. }
    destruct (IH s1 (l ++ a) Hq1) as (added & Hq2 & Hin & Har).
    { split; [done|]. rewrite Forall_forall in *. intros k Hk. destruct (Hf k Hk) as (Hkl & jk & Hjk & Hnk).
      assert (Hki : k <> i) by (by intros ->). split.
      - rewrite elem_of_app. intros [?|?%Ha]; done.
      - exists jk. split; [|done]. unfold s1. by rewrite (enqueue_other s i k l Hq Hki Hkl). }
    exists (a ++ added). rewrite app_assoc. split; [done|]. split; [|done].
    intros k [->%Ha|Hk%Hin]%elem_of_app; [by left|by right].
Qed.

(** ** A dequeue leaves the jobs outside the queue alone *)

Lemma on_job_other f i s k : k <> i -> jobs (on_job i f s) !! k = jobs s !! k.
Proof. intros Hk. cbn. by rewrite lookup_alter_ne. Qed.

Lemma shed_other s i j k : k <> i -> jobs (job_shed_aged recv s i j) !! k = jobs s !! k.
Proof.
  intros Hk. unfold job_shed_aged, client_disconnected, job_finish.
  destruct (match recv _ _ with Received _ => _ | RecvError _ => _ end);
    by rewrite !on_job_other.
Qed.

Lemma dequeue_loop_other l : forall fuel s s' r, queue_rep s l ->
  dequeue_loop recv now fuel s = Some (s', r) ->
  forall k, k ∉ l -> jobs s' !! k = jobs s !! k.
Proof.
  induction l as [|i l IH]; intros fuel s s' r Hq Hd k Hk; (destruct fuel as [|fuel]; [done|]);
    cbn [dequeue_loop] in Hd; rewrite (rep_head _ _ Hq) in Hd; cbn [hd_error] in Hd.
  - by injection Hd as <- _.
  - apply not_elem_of_cons in Hk as [Hki Hk].
    pose proof (rep_nodup _ _ Hq) as Hnd. apply NoDup_cons in Hnd as [Hi _].
    destruct (unlink_spec s i l Hq) as (j & s1 & Hj & Hu & Hq1 & Hj1 & Hs1). rewrite Hu in Hd.
    assert (Hk1 : jobs s1 !! k = jobs s !! k) by (rewrite Hj1; by rewrite lookup_alter_ne).
    assert (Hj1' : jobs s1 !! i = Some (JobQueue.set_next None j)) by (by rewrite Hj1, lookup_alter_eq, Hj).
    unfold mbind, option_bind in Hd. cbv beta iota in Hd. rewrite Hj1' in Hd. cbv beta iota in Hd.
    destruct (client_disconnected recv s1 _) as [gone s2'] eqn:Ecd.
    assert (s2' = set_tick (tick s1 + 1) s1) as -> by (by injection Ecd). clear Ecd.
    set (s2 := set_tick (tick s1 + 1) s1) in *.
    assert (Hq2 : queue_rep s2 l) by by apply (queue_rep_fields s1).
    destruct gone; [|destruct (job_queue_aged now s2 _)].
    + rewrite (IH _ _ _ _ ltac:(unfold job_finish; by do 2 (apply queue_rep_job; [done|])) Hd k Hk).
      unfold job_finish. by rewrite !on_job_other.
    + rewrite (IH _ _ _ _ ltac:(apply (shed_settles recv s1 s2 i (JobQueue.set_next None j) l); try done) Hd k Hk).
      by rewrite shed_other.
    + by injection Hd as <- _.
Qed.

(** ** Progress *)

Lemma arriving_other s s' l l' ks : arriving s l ks -> (forall i, i ∈ l' -> i ∈ l) ->
  (forall i, i ∉ l -> jobs s' !! i = jobs s !! i) -> arriving s' l' ks.
Proof.
  intros [Hnd Hf] Hl Hj. split; [done|]. rewrite Forall_forall in *. intros i Hi.
  destruct (Hf i Hi) as (Hil & j & Hji & Hn). split; [by intros ?%Hl|]. exists j. by rewrite Hj.
Qed.

Lemma split_unique (x : Z) pre post pre' post' :
  pre ++ x :: post = pre' ++ x :: post' -> NoDup (pre ++ x :: post) -> pre' = pre.
Proof.
  revert pre'. induction pre as [|a pre IH]; intros [|b pre']; simpl; intros H Hn; try done.
  - injection H as -> ->. apply NoDup_cons in Hn as [Hn _]. destruct Hn.
    apply elem_of_app. right. by left.
  - injection H as -> <-. apply NoDup_cons in Hn as [Hn _]. destruct Hn.
    apply elem_of_app. right. by left.
  - injection H as -> H. apply NoDup_cons in Hn as [_ Hn]. f_equal. by apply IH.
Qed.

(** a queued job is served: a worker that keeps dequeuing, with any jobs arriving
    between its rounds, has after at most as many rounds as there are jobs ahead,
    and one more, been handed the job, or the job is settled: canceled because its
    client left, or answered 503 because it waited too long. *)
Theorem queued_job_is_served s pre x post batches :
  queue_rep s (pre ++ x :: post) -> arriving s (pre ++ x :: post) (concat batches) ->
  (length pre < length batches)%nat ->
  exists n s' rs, (n <= S (length pre))%nat /\ serve s (take n batches) = Some (s', rs) /\
    (last rs = Some (Got x) \/ settled_job s' x).
Proof.
  remember (length pre) as m eqn:Hm. revert s pre post batches Hm.
  induction m as [m IH] using lt_wf_ind. intros s pre post batches Hm Hq Har Hb.
  destruct batches as [|b bs]; [cbn in Hb; lia|]. cbn [concat] in Har.
  destruct (enqueue_all_rep s _ b (concat bs) Hq Har) as (added & Hq1 & _ & Har1).
  rewrite <- app_assoc in Hq1, Har1. cbn in Hq1, Har1.
  set (s1 := enqueue_all s b) in *. set (l1 := pre ++ x :: post ++ added) in *.
  destruct (dequeue_loop_spec recv now l1 (S (Z.to_nat (queued s1))) s1 Hq1) as (s2 & r & pre0 & Hd & Hst & Hr).
  { rewrite (rep_count _ _ Hq1). unfold blen. lia. }
  assert (Hround : round s b = Some (s2, r)) by exact Hd.
  assert (Hserve1 : serve s (take 1 (b :: bs)) = Some (s2, [r])).
  { cbn [take serve]. rewrite Hround. cbn. by destruct bs. }
  assert (Hx1 : x ∈ l1) by (apply elem_of_app; right; by left).
  assert (Hnow : settled_job s2 x \/ r = Got x -> exists n s' rs,
    (n <= S m)%nat /\ serve s (take n (b :: bs)) = Some (s', rs) /\
    (last rs = Some (Got x) \/ settled_job s' x)).
  { intros H. exists 1%nat, s2, [r]. split; [lia|]. split; [exact Hserve1|].
    destruct H as [H| ->]; [by right|by left]. }
  destruct Hst as (Hsettled & _).
  assert (Hin : x ∈ pre0 -> settled_job s2 x) by (intros H; rewrite Forall_forall in Hsettled; by apply Hsettled).
  destruct r as [i| |]; [|destruct Hr as [<- _]; apply Hnow; by left; apply Hin..].
  destruct Hr as (post0 & j & Hl & Hq2 & _). rewrite Hl in Hx1.
  apply elem_of_app in Hx1 as [Hx1|Hx1]; [apply Hnow; by left; apply Hin|].
  apply elem_of_cons in Hx1 as [->|Hx1]; [apply Hnow; by right|].
  apply list_elem_of_split in Hx1 as (pre' & post' & ->).
  assert (Hpre : pre0 ++ i :: pre' = pre).
  { apply (split_unique x pre (post ++ added) (pre0 ++ i :: pre') post').
    - rewrite <- app_assoc. exact Hl.
    - apply (rep_nodup _ _ Hq1). }
  assert (Hlen : (length pre' < m)%nat) by (rewrite Hm, <- Hpre, length_app; cbn; lia).
  destruct (IH (length pre') Hlen s2 pre' post' bs eq_refl Hq2) as (n & s' & rs & Hn & Hs & Hfin).
  - apply (arriving_other s1 s2 l1); [done| |].
    + intros k Hk. rewrite Hl. apply elem_of_app. right. by right.
    + by apply (dequeue_loop_other l1 _ s1 s2 _ Hq1 Hd).
  - cbn in Hb. lia.
  - exists (S n), s', (Got i :: rs). split; [lia|]. split.
    + cbn [take serve]. rewrite Hround. cbn. by rewrite Hs.
    + destruct Hfin as [Hfin|Hfin]; [left|by right]. rewrite last_cons_some, Hfin. done.
Qed.
End Rounds.

(** Job 8 waits behind a job whose client left; job 9 arrives. *)
Example queued_job_is_served_witness :
  exists n s' rs, (n <= 2)%nat /\
    serve witness_recv (fun _ => F64.zero) witness_server (take n [[9]; []]) = Some (s', rs) /\
    (last rs = Some (Got 8) \/ settled_job s' 8).
Proof.
  apply (queued_job_is_served witness_recv (fun _ => F64.zero) witness_server [7] 8 [] [[9]; []]).
  - exact witness_rep.
  - split; [by apply (bool_decide_unpack _)|]. constructor; [|constructor]. split.
    + simpl. intros H. repeat (apply elem_of_cons in H as [H|H]; [discriminate H|]).
      by apply elem_of_nil in H.
    + exists (witness_job 3 None). by split.
  - simpl. lia.
Defined.
