(* ===== verification/Text.v ===== *)
(** * C string search

    [strstr], [strncmp] against a literal and the search for a last occurrence,
    on the byte lists of Prelude.v, with positions as C sizes. *)

From S2P Require Import Prelude.

(** [strncmp(h, n, strlen(n)) == 0] *)
Fixpoint starts_with (h n : list Z) {struct n} : bool :=
  match n, h with
  | [], _ => true
  | a :: n, b :: h => (a =? b) && starts_with h n
  | _ :: _, [] => false
  end.

(** strstr: the offset of the first occurrence. *)
Fixpoint strstr (h n : list Z) : option Z :=
  if starts_with h n then Some 0
  else match h with [] => None | _ :: h => (fun i => 1 + i) <$> strstr h n end.

(** strchr for a byte that is not NUL. *)
Definition strchr (h : list Z) (c : Z) : option Z := strstr h [c].

(** [n] occurs in [h] at offset [i]. *)
Definition occurs (h n : list Z) (i : Z) : Prop := exists a b, h = a ++ n ++ b /\ blen a = i.

(** [n] occurs in [h] first at [i]. *)
Definition first_at (h n : list Z) (i : Z) : Prop := occurs h n i /\ forall k, occurs h n k -> i <= k.

Lemma starts_with_spec h n : starts_with h n = true <-> exists b, h = n ++ b.
Proof.
  revert h. induction n as [|a n IH]; intros h; cbn; [split; [by exists h|done]|].
  destruct h as [|b h]; [split; [done|by intros [? ?]]|]. rewrite andb_true_iff, IH, Z.eqb_eq.
  split; [intros [-> [k ->]]; by exists k|intros [k [= -> ->]]; split; [done|by exists k]].
Qed.

Lemma starts_with_app n b : starts_with (n ++ b) n = true.
Proof. apply starts_with_spec. by exists b. Qed.

Lemma occurs_0 h n : occurs h n 0 <-> starts_with h n = true.
Proof.
  rewrite starts_with_spec. split.
  - intros (a & b & -> & Ha). destruct a; [by exists b|]. rewrite blen_cons in Ha. pose proof (blen_nonneg a). lia.
  - intros [b ->]. by exists [], b.
Qed.

Lemma occurs_cons c h n i : occurs (c :: h) n (1 + i) <-> occurs h n i \/ (i = -1 /\ starts_with (c :: h) n = true).
Proof.
  split.
  - intros (a & b & E & Ha). destruct a as [|x a].
    + right. rewrite blen_nil in Ha. split; [lia|]. apply starts_with_spec. by exists b.
    + left. injection E as <- E. exists a, b. split; [done|]. rewrite blen_cons in Ha. lia.
  - intros [(a & b & -> & Ha)|[-> Hs]].
    + exists (c :: a), b. split; [done|]. rewrite blen_cons. lia.
    + by apply occurs_0.
Qed.

Lemma occurs_bounds h n i : occurs h n i -> 0 <= i /\ i + blen n <= blen h.
Proof.
  intros (a & b & -> & Ha). rewrite !blen_app.
  pose proof (blen_nonneg a). pose proof (blen_nonneg b). lia.
Qed.

Lemma strstr_spec h n :
  match strstr h n with
  | Some i => first_at h n i
  | None => forall i, ~ occurs h n i
  end.
Proof.
  induction h as [|c h IH].
  - cbn. destruct (starts_with [] n) eqn:E.
    + split; [by apply occurs_0|]. intros k [? _]%occurs_bounds. done.
    + intros i Hi. pose proof (occurs_bounds _ _ _ Hi) as [H0 H1]. rewrite blen_nil in H1.
      pose proof (blen_nonneg n). assert (i = 0) as -> by lia. apply occurs_0 in Hi. congruence.
  - cbn [strstr]. destruct (starts_with (c :: h) n) eqn:E.
    { split; [by apply occurs_0|]. intros k [? _]%occurs_bounds. done. }
    destruct (strstr h n) as [i|]; cbn.
    + destruct IH as [Ho Hmin]. split; [apply occurs_cons; by left|].
      intros k Hk. replace k with (1 + (k - 1)) in Hk by lia. apply occurs_cons in Hk as [Hk|[_ Hk]]; [|congruence].
      specialize (Hmin _ Hk). lia.
    + intros i Hi. replace i with (1 + (i - 1)) in Hi by lia. apply occurs_cons in Hi as [Hi|[_ Hi]]; [|congruence].
      by apply IH in Hi.
Qed.

Lemma strstr_Some h n i : strstr h n = Some i -> first_at h n i.
Proof. intros H. pose proof (strstr_spec h n) as Hs. by rewrite H in Hs. Qed.
Lemma strstr_None h n i : strstr h n = None -> ~ occurs h n i.
Proof. intros H. pose proof (strstr_spec h n) as Hs. by rewrite H in Hs. Qed.
Lemma first_at_unique h n i k : first_at h n i -> first_at h n k -> i = k.
Proof. intros [H1 M1] [H2 M2]. specialize (M1 _ H2). specialize (M2 _ H1). lia. Qed.
Lemma strstr_first h n i : first_at h n i -> strstr h n = Some i.
Proof.
  intros Hf. pose proof (strstr_spec h n) as Hs. destruct (strstr h n) as [k|].
  - f_equal. by apply (first_at_unique h n).
  - exfalso. apply (Hs i), Hf.
Qed.
Lemma strstr_none_iff h n : strstr h n = None <-> forall i, ~ occurs h n i.
Proof.
  split; [intros H i; by apply strstr_None|]. intros H. destruct (strstr h n) as [i|] eqn:E; [|done].
  apply strstr_Some in E as [E _]. by apply H in E.
Qed.

Lemma occurs_app_l h k n i : occurs h n i -> occurs (h ++ k) n i.
Proof. intros (a & b & -> & Ha). exists a, (b ++ k). by rewrite <- !app_assoc. Qed.

Lemma app_take_eq (a b c d : list Z) : a ++ b = c ++ d -> (length a <= length c)%nat ->
  exists e, c = a ++ e /\ b = e ++ d.
Proof.
  intros E Hl. exists (drop (length a) c). assert (Ha : a = take (length a) c).
  { apply (f_equal (take (length a))) in E. rewrite take_app_length in E. rewrite E at 1. by apply take_app_le. }
  split; [by rewrite Ha at 1; rewrite take_drop|].
  rewrite Ha in E at 1. rewrite <- (take_drop (length a) c) in E at 2. rewrite <- app_assoc in E.
  by apply app_inv_head in E.
Qed.

(** An occurrence in an extended text is inside the text or ends behind it. *)
Lemma occurs_app_inv h k n i : occurs (h ++ k) n i -> occurs h n i \/ blen h < i + blen n.
Proof.
  intros (a & b & E & Ha). destruct (Z.le_gt_cases (i + blen n) (blen h)) as [Hle|]; [left|right; lia].
  rewrite app_assoc in E. symmetry in E. apply app_take_eq in E.
  - destruct E as (e & -> & _). exists a, e. by rewrite <- app_assoc.
  - rewrite length_app. unfold blen in *. lia.
Qed.

Lemma occurs_zdrop h n from i : 0 <= from <= blen h ->
  occurs (zdrop from h) n i <-> 0 <= i /\ occurs h n (from + i).
Proof.
  intros Hf. split.
  - intros Ho. pose proof (occurs_bounds _ _ _ Ho). destruct Ho as (a & b & E & Ha).
    split; [lia|]. exists (ztake from h ++ a), b. rewrite <- app_assoc, <- E, ztake_zdrop.
    split; [done|]. rewrite blen_app, blen_ztake by done. lia.
  - intros [Hi (a & b & E & Ha)]. rewrite <- (ztake_zdrop from h) in E.
    pose proof (blen_ztake from h Hf) as Hl. apply app_take_eq in E.
    + destruct E as (e & -> & Hd). exists e, b. split; [done|]. rewrite blen_app, Hl in Ha. lia.
    + unfold blen in *. lia.
Qed.

(** The loop of find_last_substr: [base] is the offset of the scan position,
    [last] the last match so far; every turn moves the position forward. *)
Fixpoint find_last_loop (fuel : nat) (p n : list Z) (base : Z) (last : option Z) : option Z :=
  match fuel with
  | O => last
  | S fuel =>
      match strstr p n with
      | None => last
      | Some i => find_last_loop fuel (zdrop (i + 1) p) n (base + i + 1) (Some (base + i))
      end
  end.

(** find_last_substr *)
Definition find_last_substr (s n : list Z) : option Z :=
  match n with [] => None | _ => find_last_loop (S (length s)) s n 0 None end.

Lemma find_last_loop_spec n : n <> [] -> forall fuel p base last, (length p < fuel)%nat ->
  match find_last_loop fuel p n base last with
  | Some i => (last = Some i /\ forall k, ~ occurs p n k) \/
              (occurs p n (i - base) /\ forall k, occurs p n k -> k <= i - base)
  | None => last = None /\ forall k, ~ occurs p n k
  end.
Proof.
  intros Hn fuel. induction fuel as [|fuel IH]; intros p base last Hf; [lia|]. cbn [find_last_loop].
  destruct (strstr p n) as [i|] eqn:E.
  2: { rewrite strstr_none_iff in E. destruct last; [left|]; done. }
  apply strstr_Some in E as [Ho Hmin]. pose proof (occurs_bounds _ _ _ Ho) as [Hi Hb].
  assert (Hnl : 1 <= blen n) by (destruct n; [done|rewrite blen_cons; pose proof (blen_nonneg n); lia]).
  assert (Hd : 0 <= i + 1 <= blen p) by lia.
  pose proof (blen_zdrop (i + 1) p Hd) as Hl.
  specialize (IH (zdrop (i + 1) p) (base + i + 1) (Some (base + i)) ltac:(unfold blen in *; lia)).
  destruct (find_last_loop _ _ _ _ _) as [r|]; [|by destruct IH].
  right. destruct IH as [[[= <-] Hno]|[Hr Hmax]].
  - replace (base + i - base) with i by lia. split; [done|]. intros k Hk.
    destruct (Z.le_gt_cases k i); [done|exfalso]. apply (Hno (k - (i + 1))), occurs_zdrop; [done|].
    split; [lia|]. by replace (i + 1 + (k - (i + 1))) with k by lia.
  - apply occurs_zdrop in Hr as [Hr0 Hr]; [|done].
    replace (i + 1 + (r - (base + i + 1))) with (r - base) in Hr by lia. split; [done|].
    intros k Hk. destruct (Z.le_gt_cases k i); [lia|].
    assert (Hk' : occurs (zdrop (i + 1) p) n (k - (i + 1))).
    { apply occurs_zdrop; [done|]. split; [lia|]. by replace (i + 1 + (k - (i + 1))) with k by lia. }
    specialize (Hmax _ Hk'). lia.
Qed.

(** The last occurrence, overlapping ones included. *)
Lemma find_last_substr_spec s n : n <> [] ->
  match find_last_substr s n with
  | Some i => occurs s n i /\ forall k, occurs s n k -> k <= i
  | None => forall k, ~ occurs s n k
  end.
Proof.
  intros Hn. unfold find_last_substr. destruct n as [|a n]; [done|].
  pose proof (find_last_loop_spec (a :: n) Hn (S (length s)) s 0 None ltac:(lia)) as H.
  destruct (find_last_loop _ _ _ _ _) as [i|]; [|by destruct H].
  destruct H as [[? _]|H]; [done|]. by rewrite Z.sub_0_r in H.
Qed.

(** ** Delimiters

    A pattern whose first byte does not occur again in it, like the tags of the
    chat formats, cannot overlap itself or another one with that first byte. *)
Lemma elem_inside (h : Z) e b t y : e ++ h :: b = t ++ y -> (length e < length t)%nat -> h ∈ t.
Proof.
  intros E Hl. apply app_take_eq in E; [|lia]. destruct E as (z & -> & Ez). rewrite length_app in Hl.
  destruct z as [|c z]; cbn in *; [lia|]. injection Ez as -> ->. set_solver.
Qed.

Lemma occurs_app_ge a b n i : occurs (a ++ b) n i -> blen a <= i -> occurs b n (i - blen a).
Proof.
  intros Ho Hi. pose proof (blen_nonneg b). pose proof (blen_nonneg a).
  assert (Hz : occurs (zdrop (blen a) (a ++ b)) n (i - blen a)).
  { apply occurs_zdrop; [rewrite blen_app; lia|]. split; [lia|].
    by replace (blen a + (i - blen a)) with i by lia. }
  by rewrite zdrop_app in Hz.
Qed.

Lemma occurs_app_r a b n i : occurs b n i -> occurs (a ++ b) n (blen a + i).
Proof. intros (x & y & -> & Hx). exists (a ++ x), y. rewrite <- app_assoc, blen_app. split; [done|lia]. Qed.

Lemma occurs_straddle a h b t i : h ∉ t -> occurs (a ++ h :: b) (h :: t) i ->
  occurs a (h :: t) i \/ blen a <= i.
Proof.
  intros Ht Ho. destruct (occurs_app_inv _ _ _ _ Ho) as [|Hend]; [by left|].
  destruct (Z.le_gt_cases (blen a) i) as [|Hi]; [by right|exfalso].
  destruct Ho as (x & y & E & Hx). symmetry in E. apply app_take_eq in E; [|unfold blen in *; lia].
  destruct E as (e & -> & E). rewrite blen_app in *. rewrite blen_cons in *.
  destruct e as [|c e]; [rewrite blen_nil in *; lia|]. injection E as -> E.
  apply Ht. eapply elem_inside; [by symmetry|]. rewrite blen_cons in *. unfold blen in *. lia.
Qed.

Lemma strstr_app_l h k n i : strstr h n = Some i -> strstr (h ++ k) n = Some i.
Proof.
  intros [Ho Hmin]%strstr_Some. apply strstr_first. split; [by apply occurs_app_l|].
  intros j Hj. destruct (occurs_app_inv _ _ _ _ Hj) as [Hj'|Hj']; [by apply Hmin|].
  apply occurs_bounds in Ho. lia.
Qed.

(** The first occurrence of a delimiter behind a text that does not hold it. *)
Lemma strstr_delim a h t r : h ∉ t -> (forall i, ~ occurs a (h :: t) i) ->
  strstr (a ++ (h :: t) ++ r) (h :: t) = Some (blen a).
Proof.
  intros Ht Ha. apply strstr_first. split; [by exists a, r|].
  intros k Hk. change ((h :: t) ++ r) with (h :: (t ++ r)) in Hk.
  apply occurs_straddle in Hk as [Hk|Hk]; [by apply Ha in Hk|done|done].
Qed.

Lemma strstr_not_before a h b t : h ∉ t -> (forall i, ~ occurs a (h :: t) i) ->
  forall k, strstr (a ++ h :: b) (h :: t) = Some k -> blen a <= k.
Proof.
  intros Ht Ha k [Hk _]%strstr_Some. apply occurs_straddle in Hk as [Hk|Hk]; [by apply Ha in Hk|done|done].
Qed.

Lemma not_in_no_occurs a c t i : c ∉ a -> ~ occurs a (c :: t) i.
Proof. intros Hc (x & y & -> & _). apply Hc. set_solver. Qed.

Lemma strchr_app a c r : c ∉ a -> strchr (a ++ c :: r) c = Some (blen a).
Proof.
  intros Hc. unfold strchr. apply (strstr_delim a c [] r); [set_solver|].
  intros i. by apply not_in_no_occurs.
Qed.

(** A pattern that ends in its only quote is found behind the next quote unless
    the text before that quote ends in it. *)
Lemma strstr_quote a q rest w : q ∉ w -> q ∉ a -> (forall x, a <> x ++ w) ->
  strstr (a ++ q :: rest) (w ++ [q]) = (fun k => blen a + 1 + k) <$> strstr rest (w ++ [q]).
Proof.
  intros Hw Ha Hend.
  assert (Hpast : forall i, occurs (a ++ q :: rest) (w ++ [q]) i -> blen a + 1 <= i).
  { intros i Ho. destruct (Z.le_gt_cases (blen a + 1) i) as [|Hi]; [done|exfalso].
    destruct Ho as (x & y & E & Hx). rewrite <- app_assoc in E. cbn [app] in E.
    symmetry in E. apply app_take_eq in E; [|unfold blen in *; lia]. destruct E as (e & -> & E).
    destruct (Nat.lt_trichotomy (length e) (length w)) as [Hl|[Hl|Hl]].
    - apply Hw. by apply (elem_inside q e rest w (q :: y)).
    - apply app_inj_1 in E as [-> _]; [|done]. by apply (Hend x).
    - apply Ha, elem_of_app. right. by apply (elem_inside q w y e (q :: rest)). }
  destruct (strstr rest (w ++ [q])) as [k|] eqn:E; cbn [fmap option_fmap option_map].
  - apply strstr_Some in E as [Ho Hmin]. apply strstr_first. split.
    + replace (blen a + 1 + k) with (blen (a ++ [q]) + k) by (rewrite blen_snoc; lia).
      replace (a ++ q :: rest) with ((a ++ [q]) ++ rest) by (by rewrite <- app_assoc). by apply occurs_app_r.
    + intros j Hj. pose proof (Hpast _ Hj). replace (a ++ q :: rest) with ((a ++ [q]) ++ rest) in Hj by (by rewrite <- app_assoc).
      apply occurs_app_ge in Hj; [|rewrite blen_snoc; lia]. apply Hmin in Hj. rewrite blen_snoc in Hj. lia.
  - rewrite strstr_none_iff in *. intros i Hi. pose proof (Hpast _ Hi).
    replace (a ++ q :: rest) with ((a ++ [q]) ++ rest) in Hi by (by rewrite <- app_assoc).
    apply occurs_app_ge in Hi; [|rewrite blen_snoc; lia]. by apply E in Hi.
Qed.

(** A pattern without a byte lies on one side of it. *)
Lemma occurs_avoid a c b n i : c ∉ n -> occurs (a ++ c :: b) n i -> occurs a n i \/ blen a + 1 <= i.
Proof.
  intros Hc Ho. destruct (occurs_app_inv _ _ _ _ Ho) as [|Hend]; [by left|].
  destruct (Z.le_gt_cases (blen a + 1) i) as [|Hi]; [by right|exfalso].
  destruct Ho as (x & y & E & Hx). symmetry in E. apply app_take_eq in E; [|unfold blen in *; lia].
  destruct E as (e & -> & E). apply Hc. eapply elem_inside; [by symmetry|].
  rewrite blen_app in Hend. unfold blen in *. lia.
Qed.

(** The last occurrence of a delimiter, when none follows. *)
Lemma find_last_delim a h t r : h ∉ t -> (forall i, ~ occurs r (h :: t) i) ->
  find_last_substr (a ++ (h :: t) ++ r) (h :: t) = Some (blen a).
Proof.
  intros Ht Hr. pose proof (find_last_substr_spec (a ++ (h :: t) ++ r) (h :: t) ltac:(done)) as H.
  assert (Hhere : occurs (a ++ (h :: t) ++ r) (h :: t) (blen a)) by (by exists a, r).
  destruct (find_last_substr _ _) as [k|]; [|by apply H in Hhere]. destruct H as [Hk Hmax].
  specialize (Hmax _ Hhere). f_equal. destruct (Z.le_gt_cases k (blen a)) as [|Hgt]; [lia|exfalso].
  apply occurs_app_ge in Hk; [|lia]. replace (k - blen a) with (1 + (k - blen a - 1)) in Hk by lia.
  cbn [app] in Hk. apply occurs_cons in Hk as [Hk|[? _]]; [|lia].
  destruct (Z.le_gt_cases (blen t) (k - blen a - 1)) as [Hle|Hlt].
  { apply occurs_app_ge in Hk; [|done]. by apply Hr in Hk. }
  destruct Hk as (x & y & E & Hx). symmetry in E. apply app_take_eq in E; [|unfold blen in *; lia].
  destruct E as (e & -> & E). apply Ht. destruct e as [|c e].
  - rewrite app_nil_r in Hlt. lia.
  - injection E as -> _. set_solver.
Qed.
