(* ===== verification/Stream.v ===== *)
(** * Generated text: streaming boundaries and the semantic accumulator (ds4_server.c)

    Where a stream may be cut without splitting a UTF-8 character, the stop
    strings and their rolling window, the thinking state, the tool-call markers
    and their hold-back, and the accumulator that every generated token goes
    through.  The sampling tracker of the accumulator, which only chooses how
    the next token is drawn, is not part of this model. *)

From S2P Require Import Prelude Float64 Text Json Route.

(** ** UTF-8 boundaries *)

(** utf8_expected_len *)
Definition utf8_expected_len (c : Z) : Z :=
  if c <? 0x80 then 1
  else if (0xc2 <=? c) && (c <=? 0xdf) then 2
  else if (0xe0 <=? c) && (c <=? 0xef) then 3
  else if (0xf0 <=? c) && (c <=? 0xf4) then 4
  else 1.

(** A continuation byte. *)
Definition is_cont (c : Z) : bool := Z.land c 0xc0 =? 0x80.

(** The backwards loop of utf8_stream_safe_len: the position and the number of
    continuation bytes passed; it runs at most four times. *)
Fixpoint back_over (fuel : nat) (s : list Z) (start p : Z) : Z :=
  match fuel with
  | O => p
  | S fuel => if (start <? p) && is_cont (znth 0 s (p - 1)) then back_over fuel s start (p - 1) else p
  end.

(** utf8_stream_safe_len; [None] is a NULL string. *)
Definition utf8_stream_safe_len (s : option (list Z)) (start limit : Z) : Z :=
  match s with
  | None => limit
  | Some s =>
      if limit <=? start then limit
      else
        let p := back_over 4 s start limit in
        if p =? limit then
          if 1 <? utf8_expected_len (znth 0 s (limit - 1)) then limit - 1 else limit
        else if (p =? start) && is_cont (znth 0 s p) then start
        else
          let lead := p - 1 in
          let need := utf8_expected_len (znth 0 s lead) in
          if limit - lead <? need then lead else limit
  end.

(** utf8_trim_tail_dup *)
Definition utf8_trim_tail_dup (s : option (list Z)) : option (list Z) :=
  match s with
  | Some t => Some (ztake (utf8_stream_safe_len s 0 (blen t)) t)
  | None => None
  end.

(** ** Stop strings *)
Record stop_list := Stops { stops_v : list (list Z); max_len : Z }.

(** stop_list_clear *)
Definition stop_list_clear : stop_list := Stops [] 0.

(** stop_list_push *)
Definition stop_list_push (l : stop_list) (s : option (list Z)) : stop_list :=
  match s with
  | None | Some [] => l
  | Some s => Stops (stops_v l ++ [s]) (if max_len l <? blen s then blen s else max_len l)
  end.

(** The loop of parse_stop over the array behind its opening bracket. *)
Fixpoint parse_stop_loop (fuel : nat) (p : list Z) (out : stop_list) : option (stop_list * list Z) :=
  match fuel with
  | O => None
  | S fuel =>
      match p with
      | [] => None
      | c :: r =>
          if c =? ch "]" then Some (out, r)
          else if c =? 34 then
            match string_ p with
            | None => None
            | Some (s, p) => parse_stop_loop fuel (ws (comma (ws p))) (stop_list_push out (Some s))
            end
          else
            match skip p with
            | None => None
            | Some p => parse_stop_loop fuel (ws (comma (ws p))) out
            end
      end
  end.

(** parse_stop *)
Definition parse_stop (p : list Z) : option (stop_list * list Z) :=
  match ws p with
  | [] => match skip [] with Some q => Some (stop_list_clear, q) | None => None end
  | c :: r =>
      if c =? 34 then
        match string_ (c :: r) with
        | Some (s, q) => Some (stop_list_push stop_list_clear (Some s), q)
        | None => None
        end
      else if negb (c =? ch "[") then
        match skip (c :: r) with Some q => Some (stop_list_clear, q) | None => None end
      else parse_stop_loop (S (length r)) (ws r) stop_list_clear
  end.

(** The loop of parse_stream_options over the members of the object. *)
Fixpoint stream_options_loop (fuel : nat) (p : list Z) (include_usage : bool) : option (bool * list Z) :=
  match fuel with
  | O => None
  | S fuel =>
      match p with
      | [] => None
      | c :: r =>
          if c =? ch "}" then Some (include_usage, r)
          else
            match string_ p with
            | None => None
            | Some (key, p) =>
                match ws p with
                | [] => None
                | c :: p =>
                    if negb (c =? ch ":") then None
                    else if streq key (bs "include_usage") then
                      match bool_ p with
                      | None => None
                      | Some (b, p) => stream_options_loop fuel (ws (comma (ws p))) b
                      end
                    else
                      match skip p with
                      | None => None
                      | Some p => stream_options_loop fuel (ws (comma (ws p))) include_usage
                      end
                end
            end
      end
  end.

(** parse_stream_options *)
Definition parse_stream_options (p : list Z) (include_usage : bool) : option (bool * list Z) :=
  match ws p with
  | [] => match skip [] with Some q => Some (include_usage, q) | None => None end
  | c :: r =>
      if negb (c =? ch "{") then
        match skip (c :: r) with Some q => Some (include_usage, q) | None => None end
      else stream_options_loop (S (length r)) (ws r) include_usage
  end.

(** The loop of stop_list_find_from: the best position and length so far. *)
Fixpoint find_loop (v : list (list Z)) (text : list Z) (from : Z) (best : option (Z * Z)) : option (Z * Z) :=
  match v with
  | [] => best
  | stop :: v =>
      let best :=
        match strstr (c_str (zdrop from text)) stop with
        | None => best
        | Some i =>
            let ppos := from + i in
            match best with
            | Some (b, _) => if ppos <? b then Some (ppos, blen stop) else best
            | None => Some (ppos, blen stop)
            end
        end in
      find_loop v text from best
  end.

(** stop_list_find_from *)
Definition stop_list_find_from (stops : stop_list) (text : list Z) (from : Z) : option (Z * Z) :=
  find_loop (stops_v stops) text from None.

(** stop_list_stream_safe_len *)
Definition stop_list_stream_safe_len (stops : stop_list) (text_len : Z) : Z :=
  if (blen (stops_v stops) =? 0) || (max_len stops <=? 1) then text_len
  else
    let hold := max_len stops - 1 in
    if hold <? text_len then text_len - hold else 0.

(** ** Thinking state *)
Inductive chat_format := FORMAT_DSML | FORMAT_SOLAR_OPEN2 | FORMAT_EXAONE | FORMAT_QWEN4EXP.

#[export] Instance chat_format_eq_dec : EqDecision chat_format.
Proof. solve_decision. Defined.

Definition THINK_START : list Z := bs "<think>".
Definition THINK_END : list Z := bs "</think>".
Definition SOLAR_THINK_START : list Z := bs "<|think:start|>".
Definition SOLAR_THINK_END : list Z := bs "<|think:end|>".

(** chat_think_end *)
Definition chat_think_end (f : chat_format) : list Z :=
  match f with FORMAT_SOLAR_OPEN2 => SOLAR_THINK_END | _ => THINK_END end.

Record thinking_state := Thinking { inside : bool; tail : list Z }.

(** thinking_tail_ends_with *)
Definition ends_with (t s : list Z) : bool := (blen s <=? blen t) && streq (zdrop (blen t - blen s) t) s.

(** One byte of thinking_state_feed. *)
Definition think_byte (st : thinking_state) (c : Z) : thinking_state :=
  let t := if blen (tail st) =? 16 then zdrop 1 (tail st) else tail st in
  let t := t ++ [c] in
  if ends_with t THINK_START || ends_with t SOLAR_THINK_START then Thinking true t
  else if ends_with t THINK_END || ends_with t SOLAR_THINK_END then Thinking false t
  else Thinking (inside st) t.

(** thinking_state_feed *)
Definition thinking_state_feed (st : thinking_state) (p : list Z) : thinking_state := fold_left think_byte p st.

(** ** Tool-call markers *)
Definition DSML : list Z := bs "｜DSML｜".
Definition DSML_SHORT : list Z := bs "DSML｜".
Definition TOOL_CALLS_START : list Z := bs "<" ++ DSML ++ bs "tool_calls>".
Definition TOOL_CALLS_END : list Z := bs "</" ++ DSML ++ bs "tool_calls>".
Definition TOOL_CALLS_START_SHORT : list Z := bs "<" ++ DSML_SHORT ++ bs "tool_calls>".
Definition TOOL_CALLS_END_SHORT : list Z := bs "</" ++ DSML_SHORT ++ bs "tool_calls>".
Definition SOLAR_TOOL_CALL_START : list Z := bs "<|tool_call:start|>".
Definition SOLAR_TOOL_CALL_END : list Z := bs "<|tool_call:end|>".

(** The smallest of the candidates, the first one of equal ones. *)
Definition earliest (l : list (option Z)) : option Z :=
  fold_left (fun best c =>
    match c, best with
    | Some c, Some b => if c <? b then Some c else best
    | Some c, None => Some c
    | None, _ => best
    end) l None.

Definition start_marks : list (list Z) :=
  [TOOL_CALLS_START; TOOL_CALLS_START_SHORT; bs "<tool_calls>"; bs "<tool_call>"; bs "<dots_function_call>"].
Definition end_marks : list (list Z) :=
  [TOOL_CALLS_END; TOOL_CALLS_END_SHORT; bs "</tool_calls>"; bs "</tool_call>"; bs "</dots_function_call>"].

(** find_any_tool_start, find_any_tool_end *)
Definition find_any_tool_start (s : list Z) : option Z := earliest (map (strstr s) start_marks).
Definition find_any_tool_end (s : list Z) : option Z := earliest (map (strstr s) end_marks).

(** find_tool_start_format *)
Definition find_tool_start_format (s : option (list Z)) (f : chat_format) : option Z :=
  match f with
  | FORMAT_SOLAR_OPEN2 => s ← s; strstr s SOLAR_TOOL_CALL_START
  | FORMAT_EXAONE | FORMAT_QWEN4EXP => s ← s; strstr s (bs "<tool_call>")
  | FORMAT_DSML => find_any_tool_start (default [] s)
  end.

(** find_tool_end_format *)
Definition find_tool_end_format (s : option (list Z)) (f : chat_format) : option Z :=
  match f with
  | FORMAT_SOLAR_OPEN2 => s ← s; strstr s SOLAR_TOOL_CALL_END
  | FORMAT_EXAONE | FORMAT_QWEN4EXP => s ← s; strstr s (bs "</tool_call>")
  | FORMAT_DSML => find_any_tool_end (default [] s)
  end.

(** observe_tool_markers_format: the three flags after the scan. *)
Definition observe_tool_markers_format (scan : list Z) (saw_start saw_end orphan : bool) (f : chat_format)
    : bool * bool * bool :=
  let had_start := saw_start in
  let start := find_tool_start_format (Some scan) f in
  let saw_start := match start with Some _ => true | None => saw_start end in
  let end_scan := if had_start then Some scan
                  else match start with Some i => Some (zdrop i scan) | None => None end in
  let end_ := match end_scan with Some t => find_tool_end_format (Some t) f | None => None end in
  match end_ with
  | Some _ => (saw_start, true, orphan)
  | None =>
      if negb had_start && negb (bool_decide (is_Some start)) &&
         bool_decide (is_Some (find_tool_end_format (Some scan) f))
      then (saw_start, saw_end, true)
      else (saw_start, saw_end, orphan)
  end.

(** The markers of tool_marker_stream_safe_len. *)
Definition hold_marks (f : chat_format) : list (list Z) :=
  match f with
  | FORMAT_SOLAR_OPEN2 => [SOLAR_TOOL_CALL_START]
  | FORMAT_EXAONE | FORMAT_QWEN4EXP => [bs "<tool_call>"]
  | FORMAT_DSML => [TOOL_CALLS_START; TOOL_CALLS_START_SHORT; bs "<tool_call>"; bs "<dots_function_call>"]
  end.

(** Its inner loop: the longest prefix of the marker, of at most [k] bytes, that
    the text ends with. *)
Fixpoint hold_len (text mark : list Z) (k : nat) : Z :=
  match k with
  | O => 0
  | S k' =>
      let n := Z.of_nat k in
      if bool_decide (zdrop (blen text - n) text = ztake n mark) then n else hold_len text mark k'
  end.

(** tool_marker_stream_safe_len *)
Definition tool_marker_stream_safe_len (text : list Z) (f : chat_format) : Z :=
  let len := blen text in
  if len =? 0 then len
  else
    fold_left (fun safe mark =>
      let ml := blen mark in
      let k := hold_len text mark (Z.to_nat (if ml - 1 <? len then ml - 1 else len)) in
      if 0 <? k then (if len - k <? safe then len - k else safe) else safe) (hold_marks f) len.

(** ** The accumulator *)
Inductive verdict_t := VERDICT_STOP | VERDICT_TOOL_CALLS.

(** sem_accum, without the sampling tracker and the forced-prefix positions. *)
Record sem_accum := Accum {
  text : list Z;
  thinking : thinking_state;
  track_tools : bool;
  cut_tool_syntax : bool;
  think_gates_markers : bool;
  count_reasoning : bool;
  acc_format : chat_format;
  waiting_think_close : bool;
  stop_scan_from : Z;
  tool_scan_from : Z;
  saw_tool_start : bool;
  saw_tool_end : bool;
  saw_orphan_tool_end : bool;
  matched_stop : option (list Z);
  verdict : option verdict_t;
  completion : Z;
  reasoning_tokens : Z
}.

(** The parts of a request that generation reads. *)
Record gen_request := GenRequest {
  base : request;
  stops : stop_list;
  format : chat_format;
  prompt_text : option (list Z)
}.

(** thinking_state_from_prompt *)
Definition thinking_state_from_prompt (r : gen_request) : thinking_state :=
  match prompt_text r with
  | Some p => thinking_state_feed (Thinking false []) p
  | None => if think_mode_enabled (think_mode (base r)) then Thinking true [] else Thinking false []
  end.

Definition is_chat (r : gen_request) : bool := bool_decide (kind (base r) = REQ_CHAT).

(** sem_accum_init *)
Definition sem_accum_init (r : gen_request) : sem_accum :=
  let th := thinking_state_from_prompt r in
  let enabled := think_mode_enabled (think_mode (base r)) in
  Accum [] th (is_chat r && has_tools (base r)) (is_chat r && negb (has_tools (base r))) enabled enabled
    (format r) (enabled && inside th) 0 0 false false false None None 0 0.

(** sem_feed *)
Record sem_feed := Feed {
  emit_limit : Z;
  hit_stop : bool;
  tool_block_closed : bool;
  entered_tool_block : bool;
  orphan_tool_end : bool;
  tool_syntax_cut : bool
}.

(** The marker scan of sem_accum_feed: the new scan start, waiting flag and
    marker flags, with the cut position. *)
Record marker_scan := Scan {
  sc_from : Z; sc_waiting : bool; sc_start : bool; sc_end : bool; sc_orphan : bool; sc_cut : option Z
}.

Definition scan_markers (a : sem_accum) (t : list Z) (th : thinking_state) : marker_scan :=
  if track_tools a || cut_tool_syntax a then
    if think_gates_markers a && inside th then
      Scan (blen t) true (saw_tool_start a) (saw_tool_end a) false None
    else
      let from :=
        if waiting_think_close a then
          let marker := chat_think_end (acc_format a) in
          let from := match find_last_substr (c_str t) marker with
                      | Some i => i + blen marker
                      | None => blen t
                      end in
          if blen t <? from then blen t else from
        else tool_scan_from a in
      let from := if blen t <? from then blen t else from in
      let scan := c_str (zdrop from t) in
      let '(st, en, orphan) :=
        observe_tool_markers_format scan (saw_tool_start a) (saw_tool_end a) false (acc_format a) in
      let cut :=
        if (st && negb (saw_tool_start a)) && cut_tool_syntax a
        then (fun i => from + i) <$> find_tool_start_format (Some scan) (acc_format a) else None in
      let hold_from := if 80 <? blen t then blen t - 80 else 0 in
      Scan (if from <? hold_from then hold_from else from) false st en orphan cut
  else Scan (tool_scan_from a) (waiting_think_close a) (saw_tool_start a) (saw_tool_end a) false None.

(** sem_accum_feed *)
Definition sem_accum_feed (a : sem_accum) (r : gen_request) (piece : list Z) : sem_accum * sem_feed :=
  let reasoning := if count_reasoning a && inside (thinking a) then reasoning_tokens a + 1 else reasoning_tokens a in
  let t := text a ++ piece in
  let th := thinking_state_feed (thinking a) piece in
  let hit := stop_list_find_from (stops r) t (stop_scan_from a) in
  let limit := match hit with
               | Some (pos, _) => pos
               | None => stop_list_stream_safe_len (stops r) (blen t)
               end in
  let limit := if blen t <? limit then blen t else limit in
  let stop_from :=
    match hit with
    | None =>
        if 1 <? max_len (stops r) then
          let hold := max_len (stops r) - 1 in
          if hold <? blen t then blen t - hold else 0
        else stop_scan_from a
    | Some _ => stop_scan_from a
    end in
  let limit :=
    if cut_tool_syntax a then
      let safe := tool_marker_stream_safe_len t (acc_format a) in if safe <? limit then safe else limit
    else limit in
  let sc := scan_markers a t th in
  let orphan := sc_orphan sc && negb (saw_orphan_tool_end a) in
  let entered := sc_start sc && negb (saw_tool_start a) in
  let closed := sc_end sc && negb (saw_tool_end a) in
  let result txt matched v f :=
    (Accum txt th (track_tools a) (cut_tool_syntax a) (think_gates_markers a) (count_reasoning a)
       (acc_format a) (sc_waiting sc) stop_from (sc_from sc) (sc_start sc) (sc_end sc)
       (saw_orphan_tool_end a || sc_orphan sc) matched v (completion a + 1) reasoning, f) in
  match hit with
  | Some (pos, len) =>
      result (ztake pos t) (Some (c_str (ztake len (zdrop pos t)))) (Some VERDICT_STOP)
        (Feed limit true closed entered orphan false)
  | None =>
      match cut_tool_syntax a, sc_cut sc, verdict a with
      | true, Some cut, None =>
          result (ztake cut t) (matched_stop a) (Some VERDICT_STOP)
            (Feed (if cut <? limit then cut else limit) true closed entered orphan true)
      | _, _, _ =>
          let v :=
            match verdict a with
            | None =>
                if track_tools a && sc_end sc && bool_decide (acc_format a = FORMAT_DSML)
                then Some VERDICT_TOOL_CALLS else None
            | v => v
            end in
          result t (matched_stop a) v (Feed limit false closed entered orphan false)
      end
  end.

(** ** Holding back a partial marker *)

Lemma hold_len_ge text mark n k : (1 <= k <= n)%nat ->
  zdrop (blen text - Z.of_nat k) text = ztake (Z.of_nat k) mark -> Z.of_nat k <= hold_len text mark n.
Proof.
  induction n as [|n IH]; intros Hk E; [lia|]. cbn [hold_len].
  destruct (bool_decide _) eqn:Hd; [lia|]. apply bool_decide_eq_false in Hd.
  destruct (decide (k = S n)) as [->|]; [by exfalso|]. apply IH; [lia|done].
Qed.

Lemma hold_len_range text mark n : 0 <= hold_len text mark n <= Z.of_nat n.
Proof.
  induction n as [|n IH]; [cbn; lia|]. cbn [hold_len].
  destruct (bool_decide (_ = _)); lia.
Qed.

Definition hold_step (text : list Z) (safe : Z) (mark : list Z) : Z :=
  let ml := blen mark in
  let k := hold_len text mark (Z.to_nat (if ml - 1 <? blen text then ml - 1 else blen text)) in
  if 0 <? k then (if blen text - k <? safe then blen text - k else safe) else safe.

Lemma hold_step_le text safe mark : hold_step text safe mark <= safe.
Proof. unfold hold_step. repeat case_match; lia. Qed.

Lemma hold_fold_le text marks safe : fold_left (hold_step text) marks safe <= safe.
Proof.
  revert safe. induction marks as [|m marks IH]; intros safe; cbn; [lia|].
  specialize (IH (hold_step text safe m)). pose proof (hold_step_le text safe m). lia.
Qed.

Lemma hold_fold_in text marks safe mark : mark ∈ marks ->
  exists safe', fold_left (hold_step text) marks safe <= hold_step text safe' mark.
Proof.
  revert safe. induction marks as [|m marks IH]; intros safe Hm; [by apply not_elem_of_nil in Hm|].
  apply elem_of_cons in Hm as [->|Hm]; cbn; [|by apply IH].
  exists safe. apply hold_fold_le.
Qed.

(** A straddling occurrence makes the text end with a prefix of the marker. *)
Lemma straddle text more mark pos : occurs (text ++ more) mark pos -> ~ occurs text mark pos ->
  pos < blen text -> zdrop pos text = ztake (blen text - pos) mark /\ blen text - pos < blen mark.
Proof.
  intros Ho Hn Hp. pose proof (occurs_bounds _ _ _ Ho) as [Hp0 _].
  destruct (occurs_app_inv _ _ _ _ Ho) as [|Hlt]; [done|]. split; [|lia].
  destruct Ho as (a & b & E & Ha). symmetry in E. apply app_take_eq in E; [|unfold blen in *; lia].
  destruct E as (e & -> & Hme). rewrite blen_app in *.
  rewrite <- Ha. rewrite zdrop_app. replace (blen a + blen e - blen a) with (blen e) by lia.
  assert (Hle : blen e <= blen mark) by lia.
  symmetry in Hme. apply app_take_eq in Hme; [|unfold blen in *; lia].
  destruct Hme as (g & -> & _). by rewrite ztake_app.
Qed.

(** No byte of a tool-call marker is streamed before the marker is complete: a
    marker of the hold-back list that is not yet complete in the text, however
    the text goes on, starts at or behind the position up to which the text may
    be streamed. *)
Theorem marker_hold_back f txt more mark pos : mark ∈ hold_marks f ->
  occurs (txt ++ more) mark pos -> ~ occurs txt mark pos ->
  tool_marker_stream_safe_len txt f <= pos /\ tool_marker_stream_safe_len txt f <= blen txt.
Proof.
  intros Hm Ho Hn. pose proof (occurs_bounds _ _ _ Ho) as [Hp0 _]. unfold tool_marker_stream_safe_len.
  destruct (Z.eqb_spec (blen txt) 0) as [E|E]; [lia|].
  fold (hold_step txt). pose proof (hold_fold_le txt (hold_marks f) (blen txt)) as Hle. split; [|done].
  destruct (Z.le_gt_cases (blen txt) pos); [lia|].
  destruct (straddle txt more mark pos Ho Hn ltac:(lia)) as [Et Hlt].
  destruct (hold_fold_in txt (hold_marks f) (blen txt) mark Hm) as [safe' Hs].
  set (n := Z.to_nat (if blen mark - 1 <? blen txt then blen mark - 1 else blen txt)) in *.
  set (k := Z.to_nat (blen txt - pos)). assert (Hkz : Z.of_nat k = blen txt - pos) by (unfold k; lia).
  assert (Hk : Z.of_nat k <= hold_len txt mark n).
  { apply hold_len_ge.
    - unfold n, k. destruct (Z.ltb_spec (blen mark - 1) (blen txt)); lia.
    - unfold k. rewrite Z2Nat.id by lia. by replace (blen txt - (blen txt - pos)) with pos by lia. }
  etransitivity; [exact Hs|]. unfold hold_step. fold n.
  destruct (Z.ltb_spec 0 (hold_len txt mark n)); [|lia].
  destruct (Z.ltb_spec (blen txt - hold_len txt mark n) safe'); lia.
Qed.

(** The start search knows one marker more than the hold-back list: the text is
    streamed up to the end of an unfinished tool_calls tag, which the search
    then finds at its beginning. *)
Lemma tool_calls_not_held :
  let txt := bs "<tool_calls" in
  tool_marker_stream_safe_len txt FORMAT_DSML = blen txt /\
  find_any_tool_start (txt ++ bs ">") = Some 0.
Proof. by vm_compute. Qed.

(** ** Stop strings *)

(** What pushing onto a cleared list keeps. *)
Record stops_ok (l : stop_list) : Prop := {
  stops_nonempty : Forall (fun s => s <> []) (stops_v l);
  stops_max : Forall (fun s => blen s <= max_len l) (stops_v l)
}.

Lemma stops_ok_clear : stops_ok stop_list_clear.
Proof. by split. Qed.

Lemma stops_ok_push l s : stops_ok l -> stops_ok (stop_list_push l s).
Proof.
  intros [Hn Hm]. destruct s as [[|c s]|]; try (by split). split; cbn [stop_list_push stops_v max_len].
  - apply Forall_app. split; [done|]. by constructor.
  - apply Forall_app. split; [|constructor; [|done]].
    + eapply Forall_impl; [exact Hm|]. intros x Hx. cbv beta in *.
      destruct (Z.ltb_spec (max_len l) (blen (c :: s))); lia.
    + destruct (Z.ltb_spec (max_len l) (blen (c :: s))); lia.
Qed.

(** Some stop string occurs at this offset. *)
Definition stop_at (l : stop_list) (h : list Z) (i : Z) : Prop := exists s, s ∈ stops_v l /\ occurs h s i.

Lemma c_str_drop h from : cstring h -> c_str (zdrop from h) = zdrop from h.
Proof. intros H. apply c_str_id. unfold zdrop. by apply Forall_drop. Qed.

Lemma find_loop_spec v h from best : cstring h -> 0 <= from <= blen h ->
  (forall p n, best = Some (p, n) -> from <= p) ->
  match find_loop v h from best with
  | None => best = None /\ forall s k, s ∈ v -> from <= k -> ~ occurs h s k
  | Some (p, n) =>
      from <= p /\ (best = Some (p, n) \/ exists s, s ∈ v /\ occurs h s p /\ n = blen s) /\
      (forall b m, best = Some (b, m) -> p <= b) /\
      (forall s k, s ∈ v -> from <= k -> occurs h s k -> p <= k)
  end.
Proof.
  intros Hc Hf. revert best. induction v as [|s v IH]; intros best Hbest.
  - cbn [find_loop]. destruct best as [[p n]|].
    + split; [by apply (Hbest p n)|]. split; [by left|]. split; [by intros b m [= <- _]|].
      by intros s k Hs%not_elem_of_nil.
    + split; [done|]. by intros s k Hs%not_elem_of_nil.
  - cbn [find_loop]. rewrite (c_str_drop h from Hc).
    set (best' := match strstr (zdrop from h) s with Some _ => _ | None => _ end).
    assert (Hb' : (best' = best \/ exists i, best' = Some (from + i, blen s) /\ 0 <= i /\ occurs h s (from + i)) /\
      (forall b m, best = Some (b, m) -> exists b' m', best' = Some (b', m') /\ b' <= b) /\
      (forall k, from <= k -> occurs h s k -> exists b' m', best' = Some (b', m') /\ b' <= k)).
    { unfold best'. destruct (strstr (zdrop from h) s) as [i|] eqn:E.
      - apply strstr_Some in E as [Ho Hmin]. apply occurs_zdrop in Ho as [Hi Ho]; [|done].
        assert (Hk : forall k, from <= k -> occurs h s k -> from + i <= k).
        { intros k Hk Hok. assert (Hd : occurs (zdrop from h) s (k - from)).
          { apply occurs_zdrop; [done|]. split; [lia|]. by replace (from + (k - from)) with k by lia. }
          specialize (Hmin _ Hd). lia. }
        destruct best as [[b m]|]; [destruct (Z.ltb_spec (from + i) b)|].
        + split; [right; by exists i|]. split; [intros ? ? [= <- <-]; do 2 eexists; split; [done|lia]|].
          intros k Hk1 Hk2. specialize (Hk k Hk1 Hk2). do 2 eexists. split; [done|lia].
        + split; [by left|]. split; [intros ? ? [= <- <-]; do 2 eexists; split; [done|lia]|].
          intros k Hk1 Hk2. specialize (Hk k Hk1 Hk2). do 2 eexists. split; [done|lia].
        + split; [right; by exists i|]. split; [done|].
          intros k Hk1 Hk2. specialize (Hk k Hk1 Hk2). do 2 eexists. split; [done|lia].
      - split; [by left|]. split; [intros b m ->; do 2 eexists; split; [done|lia]|].
        intros k Hk Hok. exfalso. apply (strstr_None _ _ (k - from) E), occurs_zdrop; [done|].
        split; [lia|]. by replace (from + (k - from)) with k by lia. }
    destruct Hb' as (Hcase & Hold & Hnew). clearbody best'.
    assert (Hge : forall p n, best' = Some (p, n) -> from <= p).
    { intros p n E. destruct Hcase as [->|(i & -> & Hi & _)]; [by apply (Hbest p n)|]. injection E as <- _. lia. }
    specialize (IH best' Hge). destruct (find_loop v h from best') as [[p n]|].
    + destruct IH as (Hp & Hor & Hmin & Hall). split; [done|]. split; [|split].
      * destruct Hor as [->|(s' & Hs' & Ho & Hn)]; [|right; exists s'; split; [by right|done]].
        destruct Hcase as [E|(i & [= -> ->] & Hi & Ho)]; [by left|].
        right. exists s. split; [by left|done].
      * intros b m E. destruct (Hold b m E) as (b' & m' & E' & Hb). specialize (Hmin b' m' E'). lia.
      * intros s' k [->|Hs']%elem_of_cons Hk Ho; [|by apply (Hall s')].
        destruct (Hnew k Hk Ho) as (b' & m' & E' & Hb). specialize (Hmin b' m' E'). lia.
    + destruct IH as (-> & Hall). split.
      * destruct best as [[b m]|]; [|done]. by destruct (Hold b m eq_refl) as (? & ? & ? & _).
      * intros s' k [->|Hs']%elem_of_cons Hk Ho; [|by apply (Hall s' k Hs' Hk)].
        by destruct (Hnew k Hk Ho) as (? & ? & ? & _).
Qed.

(** The earliest stop string at or behind [from]. *)
Lemma find_from_spec l h from : cstring h -> 0 <= from <= blen h ->
  match stop_list_find_from l h from with
  | None => forall k, from <= k -> ~ stop_at l h k
  | Some (p, n) => from <= p /\ (exists s, s ∈ stops_v l /\ occurs h s p /\ n = blen s) /\
      forall k, from <= k -> stop_at l h k -> p <= k
  end.
Proof.
  intros Hc Hf. unfold stop_list_find_from.
  pose proof (find_loop_spec (stops_v l) h from None Hc Hf ltac:(done)) as H.
  destruct (find_loop _ _ _ _) as [[p n]|].
  - destruct H as (Hp & [|Hs] & _ & Hall); [done|]. split; [done|]. split; [done|].
    intros k Hk (s & Hs' & Ho). by apply (Hall s k).
  - destruct H as [_ H]. intros k Hk (s & Hs & Ho). by apply (H s k).
Qed.

(** The rolling window: no stop string in the text so far, and every stop string
    of a longer text starts in the window. *)
Record window (a : sem_accum) (r : gen_request) : Prop := {
  w_text : cstring (text a);
  w_none : forall k, ~ stop_at (stops r) (text a) k;
  w_from : 0 <= stop_scan_from a <= blen (text a);
  w_hold : stop_scan_from a <= Z.max 0 (blen (text a) - (max_len (stops r) - 1))
}.

(** A stop string that the text does not contain yet ends behind it. *)
Lemma stop_at_new l h ext k : stops_ok l -> (forall i, ~ stop_at l h i) -> stop_at l (h ++ ext) k ->
  0 <= k /\ blen h - (max_len l - 1) <= k /\ 1 <= max_len l.
Proof.
  intros [Hne Hmax] Hno (s & Hs & Ho). pose proof (occurs_bounds _ _ _ Ho) as [Hk _].
  rewrite Forall_forall in Hne, Hmax. specialize (Hne s Hs). specialize (Hmax s Hs). cbv beta in *.
  assert (Hl : 1 <= blen s) by (destruct s as [|c s]; [done|rewrite blen_cons; pose proof (blen_nonneg s); lia]).
  split; [done|]. destruct (occurs_app_inv _ _ _ _ Ho) as [Hin|Hlt].
  - exfalso. apply (Hno k). by exists s.
  - lia.
Qed.

Lemma safe_len_spec l h ext k : stops_ok l -> (forall i, ~ stop_at l h i) -> stop_at l (h ++ ext) k ->
  stop_list_stream_safe_len l (blen h) <= k.
Proof.
  intros Hok Hno Hs. destruct (stop_at_new l h ext k Hok Hno Hs) as (H0 & Hk & H1).
  unfold stop_list_stream_safe_len.
  destruct Hs as (s & Hs & _). assert (Hne : (blen (stops_v l) =? 0) = false).
  { destruct (stops_v l) as [|x v]; [by apply not_elem_of_nil in Hs|]. rewrite blen_cons. pose proof (blen_nonneg v). lia. }
  rewrite Hne. cbn [orb]. destruct (Z.leb_spec (max_len l) 1); [lia|].
  destruct (Z.ltb_spec (max_len l - 1) (blen h)); lia.
Qed.

Lemma occurs_text h s p : occurs h s p -> ztake (blen s) (zdrop p h) = s.
Proof.
  intros (a & b & -> & <-). by rewrite zdrop_app, ztake_app.
Qed.

(** When nothing starts before [from], searching from there is searching all. *)
Lemma find_loop_shift v h from best : cstring h -> 0 <= from <= blen h ->
  (forall s k, s ∈ v -> occurs h s k -> from <= k) -> find_loop v h from best = find_loop v h 0 best.
Proof.
  intros Hc Hf. revert best. induction v as [|s v IH]; intros best Hall; [done|]. cbn [find_loop].
  rewrite !c_str_drop by done. rewrite zdrop_0.
  assert (E : strstr h s = (fun i => from + i) <$> strstr (zdrop from h) s).
  { destruct (strstr (zdrop from h) s) as [i|] eqn:Ed; cbn.
    - apply strstr_Some in Ed as [Ho Hmin]. apply occurs_zdrop in Ho as [Hi Ho]; [|done].
      apply strstr_first. split; [done|]. intros k Hk. pose proof (Hall s k ltac:(by left) Hk).
      assert (Hd : occurs (zdrop from h) s (k - from)).
      { apply occurs_zdrop; [done|]. split; [lia|]. by replace (from + (k - from)) with k by lia. }
      specialize (Hmin _ Hd). lia.
    - apply strstr_none_iff. intros k Hk. pose proof (Hall s k ltac:(by left) Hk).
      apply (strstr_None _ _ (k - from) Ed), occurs_zdrop; [done|]. split; [lia|].
      by replace (from + (k - from)) with k by lia. }
  rewrite E. rewrite IH by (intros s' k Hs'; apply Hall; by right).
  by destruct (strstr (zdrop from h) s).
Qed.

(** One token: either the earliest stop string of the whole text ends it, or no
    stop string is in the text and none can start before the streamed part. *)
Lemma feed_step a r piece : window a r -> stops_ok (stops r) -> cstring piece ->
  let t := text a ++ piece in
  let '(a', f) := sem_accum_feed a r piece in
  cut_tool_syntax a' = cut_tool_syntax a /\ emit_limit f <= blen t /\
  match stop_list_find_from (stops r) t 0 with
  | Some (p, n) =>
      hit_stop f = true /\ text a' = ztake p t /\ verdict a' = Some VERDICT_STOP /\
      emit_limit f <= p /\ 0 <= p <= blen t /\ matched_stop a' = Some (ztake n (zdrop p t))
  | None =>
      (forall ext k, stop_at (stops r) (t ++ ext) k -> emit_limit f <= k) /\
      (cut_tool_syntax a = false -> hit_stop f = false /\ text a' = t /\ window a' r)
  end.
Proof.
  intros [Hc Hno Hf Hh] Hok Hp t.
  assert (Ht : cstring t) by (by apply Forall_app).
  assert (Hlt : blen (text a) <= blen t) by (unfold t; rewrite blen_app; pose proof (blen_nonneg piece); lia).
  pose proof (find_from_spec (stops r) t 0 Ht ltac:(lia)) as H0.
  assert (Heq : stop_list_find_from (stops r) t (stop_scan_from a) = stop_list_find_from (stops r) t 0).
  { apply find_loop_shift; [done|lia|]. intros s k Hs Ho.
    destruct (stop_at_new (stops r) (text a) piece k Hok Hno) as (? & ? & ?); [by exists s|lia]. }
  unfold sem_accum_feed. fold t. rewrite Heq. clear Heq.
  destruct (stop_list_find_from (stops r) t 0) as [[p n]|].
  - destruct H0 as (Hp0 & (s & Hs & Ho & Hn) & Hmin).
    pose proof (occurs_bounds _ _ _ Ho) as Hb. pose proof (blen_nonneg s).
    split; [done|]. cbn [fst snd emit_limit hit_stop text verdict matched_stop].
    destruct (Z.ltb_spec (blen t) p); [lia|].
    split; [repeat case_match; lia|]. split; [done|]. split; [done|]. split; [done|].
    split; [repeat case_match; lia|]. split; [lia|].
    rewrite c_str_id; [done|]. unfold cstring. by apply Forall_take, Forall_drop.
  - assert (Hnot : forall k, ~ stop_at (stops r) t k).
    { intros k Hk. destruct (Z.le_gt_cases 0 k); [by apply (H0 k)|].
      destruct Hk as (s & _ & Ho). pose proof (occurs_bounds _ _ _ Ho). lia. }
    set (L := stop_list_stream_safe_len (stops r) (blen t)).
    set (L1 := if blen t <? L then blen t else L).
    set (safe := tool_marker_stream_safe_len t (acc_format a)).
    set (L2 := if cut_tool_syntax a then if safe <? L1 then safe else L1 else L1).
    assert (HL2 : L2 <= blen t /\ L2 <= L).
    { unfold L2, L1. destruct (cut_tool_syntax a), (Z.ltb_spec (blen t) L); repeat case_match; lia. }
    assert (Hsafe : forall ext k, stop_at (stops r) (t ++ ext) k -> L <= k).
    { intros ext k Hk. by apply (safe_len_spec _ t ext). }
    destruct (cut_tool_syntax a) eqn:Ecut; [destruct (sc_cut _) as [c|]; [destruct (verdict a)|]|];
      cbn [fst snd emit_limit hit_stop text verdict cut_tool_syntax];
      (split; [done|]); (split; [try (case_match; lia); lia|]);
      (split; [intros ext k Hk; specialize (Hsafe ext k Hk); try (case_match; lia); lia|]); try done.
    intros _. split; [done|]. split; [done|]. split; cbn [text stop_scan_from]; [done|done| |];
      destruct (Z.ltb_spec 1 (max_len (stops r))); try lia;
      destruct (Z.ltb_spec (max_len (stops r) - 1) (blen t)); lia.
Qed.

(** The drivers' loop over the tokens of a generation, up to a stop hit; the
    limits are what may have been streamed. *)
Fixpoint run (a : sem_accum) (r : gen_request) (pieces : list (list Z)) : sem_accum * list Z * bool :=
  match pieces with
  | [] => (a, [], false)
  | p :: pieces =>
      let '(a, f) := sem_accum_feed a r p in
      if hit_stop f then (a, [emit_limit f], true)
      else let '(a, limits, hit) := run a r pieces in (a, emit_limit f :: limits, hit)
  end.

(** The reference: after every token, walk over the whole text byte by byte and
    stop at the first byte where a stop string starts; of those that start
    there, the first of the list. *)
Fixpoint stop_here (v : list (list Z)) (t : list Z) : option (list Z) :=
  match v with
  | [] => None
  | s :: v => if bool_decide (take (length s) t = s) then Some s else stop_here v t
  end.

Fixpoint scan_text (v : list (list Z)) (t : list Z) (i : Z) : option (Z * list Z) :=
  match stop_here v t, t with
  | Some s, _ => Some (i, s)
  | None, [] => None
  | None, _ :: t => scan_text v t (i + 1)
  end.

Fixpoint reference (l : stop_list) (t : list Z) (pieces : list (list Z)) : list Z * option (list Z) :=
  match pieces with
  | [] => (t, None)
  | p :: pieces =>
      match scan_text (stops_v l) (t ++ p) 0 with
      | Some (pos, s) => (ztake pos (t ++ p), Some s)
      | None => reference l (t ++ p) pieces
      end
  end.

(** What both searches find. *)
Definition earliest_stop (v : list (list Z)) (t : list Z) (r : option (Z * list Z)) : Prop :=
  match r with
  | None => forall s k, s ∈ v -> ~ occurs t s k
  | Some (p, s) => occurs t s p /\ (forall s' k, s' ∈ v -> occurs t s' k -> p <= k) /\
      exists v1 v2, v = v1 ++ s :: v2 /\ forall s', s' ∈ v1 -> ~ occurs t s' p
  end.

Lemma earliest_inj v t r1 r2 : earliest_stop v t r1 -> earliest_stop v t r2 -> r1 = r2.
Proof.
  assert (Hs : forall p s, earliest_stop v t (Some (p, s)) -> s ∈ v).
  { intros p s (_ & _ & v1 & v2 & -> & _). set_solver. }
  destruct r1 as [[p1 s1]|], r2 as [[p2 s2]|]; intros H1 H2; [| | |done].
  - pose proof (Hs _ _ H1) as Hi1. pose proof (Hs _ _ H2) as Hi2.
    destruct H1 as (O1 & M1 & a1 & b1 & E1 & N1), H2 as (O2 & M2 & a2 & b2 & E2 & N2).
    assert (p1 = p2) as <- by (pose proof (M1 _ _ Hi2 O2); pose proof (M2 _ _ Hi1 O1); lia).
    rewrite E1 in E2. assert (Hl : length a1 = length a2).
    { destruct (lt_eq_lt_dec (length a1) (length a2)) as [[Hl|Hl]|Hl]; [exfalso|done|exfalso].
      - apply (N2 s1); [|done]. apply list_elem_of_lookup. exists (length a1).
        assert (Hx : (a1 ++ s1 :: b1) !! length a1 = Some s1) by by apply list_lookup_middle.
        rewrite E2, lookup_app_l in Hx by done. done.
      - apply (N1 s2); [|done]. apply list_elem_of_lookup. exists (length a2).
        assert (Hx : (a2 ++ s2 :: b2) !! length a2 = Some s2) by by apply list_lookup_middle.
        rewrite <- E2, lookup_app_l in Hx by done. done. }
    apply app_inj_1 in E2 as [_ [= -> _]]; done.
  - exfalso. by apply (H2 s1 p1); [apply (Hs p1)|apply H1].
  - exfalso. by apply (H1 s2 p2); [apply (Hs p2)|apply H2].
Qed.

Lemma find_loop_app v w h from best : find_loop (v ++ w) h from best = find_loop w h from (find_loop v h from best).
Proof. revert best. induction v as [|s v IH]; intros best; [done|]. cbn [app find_loop]. apply IH. Qed.

Lemma find_earliest v t : cstring t -> exists r, earliest_stop v t r /\
  find_loop v t 0 None = (fun x => (x.1, blen x.2)) <$> r.
Proof.
  intros Hc. induction v as [|s v IH] using rev_ind; [by exists None; split; [intros ? ? Hn%not_elem_of_nil|]|].
  destruct IH as (r & Hr & E). rewrite find_loop_app, E. cbn [find_loop]. rewrite zdrop_0, c_str_id by done.
  destruct (strstr t s) as [i|] eqn:Es.
  - apply strstr_Some in Es as [Ho Hmin]. destruct r as [[p s0]|]; cbn [fmap option_fmap option_map fst snd].
    + destruct Hr as (Ho0 & Hm0 & v1 & v2 & -> & Hn). rewrite Z.add_0_l. destruct (Z.ltb_spec i p).
      * exists (Some (i, s)). split; [|done]. split; [done|]. split.
        -- intros s' k Hin Hk. apply elem_of_app in Hin as [Hin| ->%list_elem_of_singleton]; [|by apply Hmin].
           specialize (Hm0 s' k Hin Hk). lia.
        -- exists (v1 ++ s0 :: v2), []. split; [done|]. intros s' Hin Hk. specialize (Hm0 s' i Hin Hk). lia.
      * exists (Some (p, s0)). split; [|done]. split; [done|]. split.
        -- intros s' k Hin Hk. apply elem_of_app in Hin as [Hin| ->%list_elem_of_singleton]; [by apply (Hm0 s')|].
           specialize (Hmin k Hk). lia.
        -- exists v1, (v2 ++ [s]). by rewrite <- app_assoc.
    + exists (Some (i, s)). split; [|by rewrite Z.add_0_l]. split; [done|]. split.
      * intros s' k Hin Hk. apply elem_of_app in Hin as [Hin| ->%list_elem_of_singleton]; [by destruct (Hr s' k Hin)|].
        by apply Hmin.
      * exists v, []. split; [done|]. intros s' Hin. by apply Hr.
  - assert (Hno : forall k, ~ occurs t s k) by (intros k; by apply strstr_None).
    exists r. split; [|done]. destruct r as [[p s0]|].
    + destruct Hr as (Ho0 & Hm0 & v1 & v2 & -> & Hn). split; [done|]. split.
      * intros s' k Hin Hk. apply elem_of_app in Hin as [Hin| ->%list_elem_of_singleton]; [by apply (Hm0 s')|].
        by destruct (Hno k).
      * exists v1, (v2 ++ [s]). by rewrite <- app_assoc.
    + intros s' k Hin. apply elem_of_app in Hin as [Hin| ->%list_elem_of_singleton]; [by apply Hr|apply Hno].
Qed.

Lemma occurs_at_0 t s : occurs t s 0 <-> take (length s) t = s.
Proof.
  split.
  - intros (a & b & -> & Ha). destruct a as [|x a]; [|rewrite blen_cons in Ha; pose proof (blen_nonneg a); lia].
    by rewrite app_nil_l, take_app_length.
  - intros E. exists [], (drop (length s) t). split; [|done]. cbn [app]. rewrite <- E at 1. by rewrite take_drop.
Qed.

Lemma occurs_behind c t s k : 0 <= k -> occurs (c :: t) s (k + 1) <-> occurs t s k.
Proof.
  intros Hk. split.
  - intros (a & b & E & Ha). destruct a as [|x a]; [rewrite blen_nil in Ha; lia|]. injection E as _ ->.
    exists a, b. rewrite blen_cons in Ha. split; [done|lia].
  - intros (a & b & -> & Ha). exists (c :: a), b. rewrite blen_cons. split; [done|lia].
Qed.

Lemma stop_here_spec v t :
  match stop_here v t with
  | None => forall s, s ∈ v -> ~ occurs t s 0
  | Some s => occurs t s 0 /\ exists v1 v2, v = v1 ++ s :: v2 /\ forall s', s' ∈ v1 -> ~ occurs t s' 0
  end.
Proof.
  induction v as [|s v IH]; [by intros ? ?%not_elem_of_nil|]. cbn [stop_here]. case_bool_decide as E.
  - split; [by apply occurs_at_0|]. exists [], v. split; [done|]. by intros ? ?%not_elem_of_nil.
  - rewrite <- occurs_at_0 in E. destruct (stop_here v t) as [s0|].
    + destruct IH as (Ho & v1 & v2 & -> & Hn). split; [done|]. exists (s :: v1), v2. split; [done|].
      by intros s' [->|Hin]%elem_of_cons; [|apply Hn].
    + by intros s' [->|Hin]%elem_of_cons; [|apply IH].
Qed.

Lemma walk_earliest v t : Forall (fun s => s <> []) v -> forall i,
  exists r, earliest_stop v t r /\ scan_text v t i = (fun x => (i + x.1, x.2)) <$> r.
Proof.
  intros Hne. induction t as [|c t IH]; intros i; cbn [scan_text]; pose proof (stop_here_spec v) as Hh.
  - specialize (Hh []). destruct (stop_here v []) as [s|].
    + exfalso. destruct Hh as (Ho & v1 & v2 & -> & _). rewrite Forall_app, Forall_cons in Hne.
      destruct Hne as (_ & Hs & _). destruct s as [|x s]; [done|]. pose proof (occurs_bounds _ _ _ Ho) as [_ Hb].
      unfold blen in Hb. cbn in Hb. lia.
    + exists None. split; [|done]. intros s k Hin Ho. pose proof (occurs_bounds _ _ _ Ho) as Hb.
      unfold blen in Hb. cbn in Hb. assert (k = 0) as -> by lia. by apply (Hh s).
  - specialize (Hh (c :: t)). destruct (stop_here v (c :: t)) as [s|].
    + destruct Hh as (Ho & Hv). exists (Some (0, s)). split; [|cbn; do 2 f_equal; lia]. split; [done|]. split; [|done].
      intros s' k _ Hk. by apply occurs_bounds in Hk as [? _].
    + destruct (IH (i + 1)) as (r & Hr & E). exists ((fun x => (x.1 + 1, x.2)) <$> r).
      assert (Hpos : forall s k, s ∈ v -> occurs (c :: t) s k -> 1 <= k /\ occurs t s (k - 1)).
      { intros s k Hin Hk. pose proof (occurs_bounds _ _ _ Hk) as [H0 _].
        destruct (Z.eq_dec k 0) as [->|Hk0]; [by destruct (Hh s Hin)|]. split; [lia|].
        apply (occurs_behind c); [lia|]. by replace (k - 1 + 1) with k by lia. }
      split; [|rewrite E; destruct r as [[p s]|]; [cbn; do 2 f_equal; lia|done]].
      destruct r as [[p s]|]; cbn.
      * destruct Hr as (Ho & Hm & v1 & v2 & Ev & Hn). pose proof (occurs_bounds _ _ _ Ho) as [Hp _].
        split; [by apply occurs_behind|]. split.
        -- intros s' k Hin Hk. destruct (Hpos s' k Hin Hk) as [H1 H2]. specialize (Hm s' _ Hin H2). lia.
        -- exists v1, v2. split; [done|]. intros s' Hin. rewrite occurs_behind by done. by apply Hn.
      * intros s k Hin Hk. destruct (Hpos s k Hin Hk) as [_ H2]. by apply (Hr s (k - 1)).
Qed.

(** The code's search and the walk agree. *)
Lemma find_walk l t : stops_ok l -> cstring t ->
  stop_list_find_from l t 0 = (fun x => (x.1, blen x.2)) <$> scan_text (stops_v l) t 0 /\
  (forall p s, scan_text (stops_v l) t 0 = Some (p, s) -> occurs t s p).
Proof.
  intros Hok Hc. destruct (find_earliest (stops_v l) t Hc) as (r & Hr & E).
  destruct (walk_earliest (stops_v l) t (stops_nonempty _ Hok) 0) as (r' & Hr' & E').
  rewrite (earliest_inj _ _ _ _ Hr' Hr) in E'. unfold stop_list_find_from. rewrite E, E'.
  split; [by destruct r as [[p s]|]|]. destruct r as [[p s]|]; [|done]. intros ? ? [= <- <-]. apply Hr.
Qed.

Lemma reference_stop_pos l pieces : stops_ok l -> forall t, Forall cstring pieces -> cstring t -> (forall k, ~ stop_at l t k) ->
  forall lim, lim <= blen t -> (forall ext k, stop_at l (t ++ ext) k -> lim <= k) -> lim <= blen (reference l t pieces).1.
Proof.
  intros Hok. induction pieces as [|p pieces IH]; intros t Hps Ht Hno lim Hle Hlim; [done|]. cbn [reference].
  apply Forall_cons in Hps as [Hp Hps].
  assert (Htp : cstring (t ++ p)) by by apply Forall_app.
  assert (Hlt : blen t <= blen (t ++ p)) by (rewrite blen_app; pose proof (blen_nonneg p); lia).
  pose proof (find_from_spec l (t ++ p) 0 Htp ltac:(pose proof (blen_nonneg t); lia)) as H.
  destruct (find_walk l (t ++ p) Hok Htp) as [Ew _]. rewrite Ew in H. clear Ew.
  destruct (scan_text _ _ _) as [[pos n]|]; cbn [fst fmap option_fmap option_map snd] in *.
  - destruct H as (Hp0 & (s & Hs & Ho & _) & _). pose proof (occurs_bounds _ _ _ Ho). pose proof (blen_nonneg s).
    rewrite blen_ztake by lia. apply (Hlim p pos). by exists s.
  - apply IH; [done|done| |lia|].
    + intros k Hk. destruct (Z.le_gt_cases 0 k); [by apply (H k)|].
      destruct Hk as (s & _ & Ho). pose proof (occurs_bounds _ _ _ Ho). lia.
    + intros ext k Hk. rewrite <- app_assoc in Hk. by apply (Hlim (p ++ ext)).
Qed.

Lemma run_reference r pieces : stops_ok (stops r) -> Forall cstring pieces -> forall a, window a r ->
  cut_tool_syntax a = false ->
  let '(a', limits, hit) := run a r pieces in
  text a' = (reference (stops r) (text a) pieces).1 /\
  hit = bool_decide (is_Some (reference (stops r) (text a) pieces).2) /\
  (hit = true -> matched_stop a' = (reference (stops r) (text a) pieces).2 /\ verdict a' = Some VERDICT_STOP) /\
  Forall (fun lim => lim <= blen (text a')) limits.
Proof.
  intros Hok. induction 1 as [|p pieces Hp Hps IH]; intros a Hw Hcut; [by cbn|]. cbn [run reference].
  pose proof (feed_step a r p Hw Hok Hp) as Hs. cbv zeta in Hs.
  destruct (sem_accum_feed a r p) as [a1 f]. destruct Hs as (Hc1 & Hle & Hm).
  set (t := text a ++ p) in *.
  assert (Ht : cstring t) by (apply Forall_app; split; [by apply Hw|done]).
  destruct (find_walk (stops r) t Hok Ht) as [Ew Hocc]. rewrite Ew in Hm. clear Ew.
  destruct (scan_text (stops_v (stops r)) t 0) as [[pos s]|]; cbn [fst fmap option_fmap option_map snd] in *.
  - destruct Hm as (-> & Htx & Hv & Hlim & Hpos & Hmt). rewrite (occurs_text _ _ _ (Hocc _ _ eq_refl)) in Hmt.
    rewrite Htx. split; [done|]. split; [done|]. split; [done|]. constructor; [|done]. by rewrite blen_ztake.
  - destruct Hm as (Hlim & Hgo). destruct (Hgo Hcut) as (-> & Htx & Hw1).
    specialize (IH a1 Hw1 ltac:(by rewrite Hc1)). destruct (run a1 r pieces) as [[a2 limits] hit].
    rewrite Htx in IH. destruct IH as (IH1 & IH2 & IH3 & IH4). split; [done|]. split; [done|]. split; [done|].
    constructor; [|done]. rewrite IH1. apply reference_stop_pos; [done|done|done| |done|done].
    rewrite <- Htx. apply Hw1.
Qed.

Lemma window_init r : stops_ok (stops r) -> window (sem_accum_init r) r.
Proof.
  intros Hok. split; cbn; [by apply Forall_nil_2| |done|lia]. intros k (s & Hs & Ho).
  pose proof (occurs_bounds _ _ _ Ho) as [_ Hb]. rewrite blen_nil in Hb. pose proof (stops_nonempty _ Hok) as Hne.
  rewrite Forall_forall in Hne. specialize (Hne s Hs). destruct s as [|c s]; [done|].
  pose proof (occurs_bounds _ _ _ Ho). rewrite blen_cons in Hb. pose proof (blen_nonneg s). lia.
Qed.

(** C39: The rolling stop window is exact and streaming never has to take bytes
    back.  For stop strings pushed onto a cleared list (no empty one, max_len at
    least their lengths), a chat request with tools or any other request, and
    any split of a generated text without NUL bytes into tokens, the accumulator
    ends the text where a walk over the whole text after every token does: at
    the first byte where some stop string starts, reporting the first string of
    the list that starts there, with the stop verdict, and at no byte when none
    occurs; and every position up to which the text was released for streaming
    is within the final text.  (A chat request without tools, whose text may
    also be cut at a tool-call marker, is the subject of marker_hold_back.) *)
Theorem stop_window_exact r pieces : stops_ok (stops r) -> Forall cstring pieces ->
  is_chat r && negb (has_tools (base r)) = false ->
  let '(a, limits, hit) := run (sem_accum_init r) r pieces in
  text a = (reference (stops r) [] pieces).1 /\
  hit = bool_decide (is_Some (reference (stops r) [] pieces).2) /\
  (hit = true -> matched_stop a = (reference (stops r) [] pieces).2 /\ verdict a = Some VERDICT_STOP) /\
  Forall (fun lim => lim <= blen (text a)) limits.
Proof.
  intros Hok Hps Hcut. apply (run_reference r pieces Hok Hps (sem_accum_init r)); [by apply window_init|done].
Qed.

(** ** The bounded tail of the thinking state *)

(** What a byte that completes [h] does to the state. *)
Definition marker_of (h : list Z) : option bool :=
  if ends_with h THINK_START || ends_with h SOLAR_THINK_START then Some true
  else if ends_with h THINK_END || ends_with h SOLAR_THINK_END then Some false
  else None.

(** The reference: compare the markers with the whole history [h]. *)
Fixpoint think_reference (b : bool) (h p : list Z) : bool :=
  match p with
  | [] => b
  | c :: p => think_reference (default b (marker_of (h ++ [c]))) (h ++ [c]) p
  end.

(** The last sixteen bytes. *)
Definition last16 (h : list Z) : list Z := zdrop (blen h - 16) h.

Lemma blen_last16 h : blen (last16 h) = Z.min 16 (blen h).
Proof.
  unfold last16. pose proof (blen_nonneg h). destruct (Z.le_gt_cases 16 (blen h)).
  - rewrite blen_zdrop by lia. lia.
  - unfold zdrop. replace (Z.to_nat (blen h - 16)) with O by lia. rewrite drop_0. lia.
Qed.

Lemma zdrop_zdrop {A} n m (l : list A) : 0 <= n -> 0 <= m -> zdrop n (zdrop m l) = zdrop (m + n) l.
Proof. intros. unfold zdrop. rewrite drop_drop. f_equal. lia. Qed.

Lemma ends_with_last16 h s : blen s <= 16 -> ends_with (last16 h) s = ends_with h s.
Proof.
  intros Hs. pose proof (blen_last16 h) as Hl. pose proof (blen_nonneg h). pose proof (blen_nonneg s).
  unfold ends_with. rewrite Hl. destruct (Z.leb_spec (blen s) (blen h)) as [Hle|Hgt].
  - destruct (Z.leb_spec (blen s) (Z.min 16 (blen h))); [|lia]. cbn [andb]. f_equal. unfold last16.
    destruct (Z.le_gt_cases 16 (blen h)).
    + rewrite zdrop_zdrop by lia. f_equal. lia.
    + replace (zdrop (blen h - 16) h) with h; [f_equal; lia|].
      unfold zdrop. by replace (Z.to_nat (blen h - 16)) with O by lia.
  - destruct (Z.leb_spec (blen s) (Z.min 16 (blen h))); [lia|done].
Qed.

Lemma last16_snoc h c : (if blen (last16 h) =? 16 then zdrop 1 (last16 h) else last16 h) ++ [c] = last16 (h ++ [c]).
Proof.
  rewrite blen_last16. unfold last16. rewrite blen_snoc. pose proof (blen_nonneg h).
  destruct (Z.eqb_spec (Z.min 16 (blen h)) 16).
  - rewrite zdrop_zdrop by lia. unfold zdrop, blen in *. rewrite drop_app_le by lia. f_equal. f_equal. lia.
  - unfold zdrop. replace (Z.to_nat (blen h - 16)) with O by lia.
    by replace (Z.to_nat (blen h + 1 - 16)) with O by lia.
Qed.

(** The sixteen-byte tail is enough: for any split of the text into pieces the
    state is inside a thinking block exactly when the last marker completed in
    the whole text opened one, and the tail is the end of that text. *)
Theorem thinking_tail_exact b pieces :
  fold_left thinking_state_feed pieces (Thinking b []) =
  Thinking (think_reference b [] (concat pieces)) (last16 (concat pieces)).
Proof.
  assert (Hgen : forall p h b, thinking_state_feed (Thinking b (last16 h)) p =
    Thinking (think_reference b h p) (last16 (h ++ p))).
  { unfold thinking_state_feed. induction p as [|c p IH]; intros h b'; cbn [fold_left think_reference]; [by rewrite app_nil_r|].
    assert (Hb : think_byte (Thinking b' (last16 h)) c = Thinking (default b' (marker_of (h ++ [c]))) (last16 (h ++ [c]))).
    { unfold think_byte, marker_of. cbn [tail inside]. rewrite last16_snoc.
      rewrite !ends_with_last16 by (by vm_compute).
      destruct (_ || _); [done|]. by destruct (_ || _). }
    rewrite Hb, IH, <- app_assoc. done. }
  assert (Hfold : forall h b, fold_left thinking_state_feed pieces (Thinking b (last16 h)) =
    Thinking (think_reference b h (concat pieces)) (last16 (h ++ concat pieces))).
  { induction pieces as [|p pieces IH]; intros h b'; cbn [fold_left concat].
    - by rewrite app_nil_r.
    - rewrite Hgen, IH. f_equal; [|by rewrite app_assoc].
      clear. revert h b'. induction p as [|c p IH]; intros h b'; cbn [think_reference app]; [by rewrite app_nil_r|].
      rewrite <- IH. by rewrite <- app_assoc. }
  apply (Hfold []).
Qed.

(** ** UTF-8 boundaries *)

(** The bytes of one character: a lead byte and the continuation bytes it
    announces. *)
Definition is_char (l : list Z) : bool :=
  match l with
  | [] => false
  | lead :: rest => (utf8_expected_len lead =? blen l) && forallb is_cont rest && negb (is_cont lead)
  end.

Lemma znth_app_r (a l : list Z) i : 0 <= i -> znth 0 (a ++ l) (blen a + i) = znth 0 l i.
Proof.
  intros Hi. unfold znth, blen. rewrite app_nth2 by lia. f_equal. lia.
Qed.

Lemma expected_len_range c : 1 <= utf8_expected_len c <= 4.
Proof. unfold utf8_expected_len. repeat case_match; lia. Qed.

Lemma back_over_rest pre lead start : is_cont lead = false -> start <= blen pre ->
  forall rest post fuel, forallb is_cont rest = true -> (length rest <= fuel)%nat ->
  back_over fuel (pre ++ lead :: rest ++ post) start (blen pre + 1 + blen rest) = blen pre + 1.
Proof.
  intros Hlead Hst rest. induction rest as [|x rest IH] using rev_ind; intros post fuel Hr Hf.
  - rewrite blen_nil, Z.add_0_r. destruct fuel as [|fuel]; [done|]. cbn [back_over app].
    replace (blen pre + 1 - 1) with (blen pre + 0) by lia. rewrite znth_app_r by lia.
    change (znth 0 (lead :: post) 0) with lead. by rewrite Hlead, andb_false_r.
  - rewrite forallb_app in Hr. apply andb_true_iff in Hr as [Hr Hx]. cbn in Hx. rewrite andb_true_r in Hx.
    rewrite length_app in Hf. cbn in Hf. destruct fuel as [|fuel]; [lia|]. cbn [back_over].
    rewrite blen_snoc. destruct (Z.ltb_spec start (blen pre + 1 + (blen rest + 1))); [|pose proof (blen_nonneg rest); lia].
    replace (blen pre + 1 + (blen rest + 1) - 1) with (blen pre + 1 + blen rest) by lia.
    assert (E : znth 0 (pre ++ lead :: (rest ++ [x]) ++ post) (blen pre + 1 + blen rest) = x).
    { replace (pre ++ lead :: (rest ++ [x]) ++ post) with ((pre ++ lead :: rest) ++ x :: post) by (by rewrite <- !app_assoc).
      replace (blen pre + 1 + blen rest) with (blen (pre ++ lead :: rest) + 0) by (rewrite blen_app, blen_cons; lia).
      by rewrite znth_app_r. }
    rewrite E, Hx. cbn [andb]. rewrite <- app_assoc. apply IH; [done|lia].
Qed.

(** The text up to [limit] ends with the first bytes of one character. *)
Lemma safe_len_block pre lead rest post start : start <= blen pre ->
  is_cont lead = false -> forallb is_cont rest = true -> 1 + blen rest <= utf8_expected_len lead ->
  utf8_stream_safe_len (Some (pre ++ lead :: rest ++ post)) start (blen pre + 1 + blen rest) =
    if 1 + blen rest <? utf8_expected_len lead then blen pre else blen pre + 1 + blen rest.
Proof.
  intros Hst Hlead Hrest Hm. pose proof (expected_len_range lead) as He. pose proof (blen_nonneg pre) as Hp.
  pose proof (blen_nonneg rest) as Hr.
  unfold utf8_stream_safe_len. destruct (Z.leb_spec (blen pre + 1 + blen rest) start); [lia|].
  rewrite back_over_rest by (done || (unfold blen in *; lia)).
  assert (Hat : znth 0 (pre ++ lead :: rest ++ post) (blen pre) = lead).
  { replace (blen pre) with (blen pre + 0) by lia. by rewrite znth_app_r. }
  destruct (Z.eqb_spec (blen pre + 1) (blen pre + 1 + blen rest)) as [E|E].
  - replace (blen pre + 1 + blen rest - 1) with (blen pre) by lia. rewrite Hat.
    replace (1 + blen rest) with 1 by lia. destruct (1 <? utf8_expected_len lead); lia.
  - destruct (Z.eqb_spec (blen pre + 1) start); [lia|]. cbn [andb].
    replace (blen pre + 1 - 1) with (blen pre) by lia. rewrite Hat.
    replace (blen pre + 1 + blen rest - blen pre) with (1 + blen rest) by lia. done.
Qed.

Lemma char_parts l : is_char l = true -> exists lead rest, l = lead :: rest /\ is_cont lead = false /\
  forallb is_cont rest = true /\ utf8_expected_len lead = 1 + blen rest.
Proof.
  destruct l as [|lead rest]; [done|]. cbn [is_char]. rewrite !andb_true_iff, blen_cons.
  intros [[H1 H2] H3%negb_true_iff]. exists lead, rest. split; [done|]. split; [done|]. split; [done|]. lia.
Qed.

(** Of a text that is cut anywhere inside a character, exactly the bytes of the
    unfinished character are held back; of a text that ends with a whole
    character, nothing is.  [part] is what the cut left of the character [c]. *)
Theorem utf8_cut_exact pre chars c part post :
  forallb is_char chars = true -> is_char c = true -> part `prefix_of` c -> part <> c ->
  let start := blen pre in
  let limit := start + blen (concat chars) + blen part in
  utf8_stream_safe_len (Some (pre ++ concat chars ++ part ++ post)) start limit = limit - blen part.
Proof.
  intros Hch Hc [more Hpart] Hne. cbv zeta. destruct part as [|lead part].
  - rewrite blen_nil. cbn [app]. rewrite Z.add_0_r, Z.sub_0_r.
    destruct chars as [|ch0 chars0] using rev_ind.
    { cbn. unfold utf8_stream_safe_len. by destruct (Z.leb_spec (blen pre + blen (@nil Z)) (blen pre)); [|change (blen (@nil Z)) with 0 in *; lia]. }
    clear IHchars0. rewrite forallb_app in Hch. apply andb_true_iff in Hch as [_ Hl]. cbn in Hl. rewrite andb_true_r in Hl.
    destruct (char_parts _ Hl) as (lead & rest & -> & Hlead & Hrest & He).
    rewrite concat_app. cbn [concat]. rewrite app_nil_r, blen_app, blen_cons, <- app_assoc. cbn [app].
    pose proof (safe_len_block (pre ++ concat chars0) lead rest post (blen pre)) as H.
    rewrite <- app_assoc, blen_app in H. replace (blen pre + (blen (concat chars0) + (1 + blen rest))) with
      (blen pre + blen (concat chars0) + 1 + blen rest) by lia.
    rewrite H; [|pose proof (blen_nonneg (concat chars0)); lia|done|done|lia].
    destruct (Z.ltb_spec (1 + blen rest) (utf8_expected_len lead)); lia.
  - destruct (char_parts _ Hc) as (lead' & rest & Hcr & Hlead & Hrest & He). rewrite Hcr in Hpart.
    cbn in Hpart. injection Hpart as -> Hpart. subst rest.
    rewrite forallb_app in Hrest. apply andb_true_iff in Hrest as [Hrest _]. rewrite blen_app in He.
    assert (Hmore : 1 <= blen more).
    { destruct more as [|x more]; [exfalso; apply Hne; by rewrite Hcr, app_nil_r|]. rewrite blen_cons.
      pose proof (blen_nonneg more). lia. }
    pose proof (safe_len_block (pre ++ concat chars) lead part post (blen pre)) as H.
    rewrite <- app_assoc, blen_app in H. rewrite blen_cons.
    replace (blen pre + blen (concat chars) + (1 + blen part)) with (blen pre + blen (concat chars) + 1 + blen part) by lia.
    cbn [app]. rewrite H; [|pose proof (blen_nonneg (concat chars)); lia|done|done|lia].
    destruct (Z.ltb_spec (1 + blen part) (utf8_expected_len lead)); lia.
Qed.

(** ** Witnesses *)
Definition witness_stops : stop_list := stop_list_push (stop_list_push stop_list_clear (Some (bs "STOP"))) (Some (bs "END")).
Definition witness_gen : gen_request :=
  GenRequest (Request REQ_CHAT API_OPENAI 64 true F64.zero true false 1 true 2 false false false false 0 10 0)
    witness_stops FORMAT_DSML (Some (bs "<think>")).

Lemma witness_stops_ok : stops_ok witness_stops.
Proof. unfold witness_stops. do 2 apply stops_ok_push. apply stops_ok_clear. Qed.

Example stop_window_exact_witness :
  text (run (sem_accum_init witness_gen) witness_gen [bs "answer ST"; bs "OP hidden"]).1.1 = bs "answer ".
Proof.
  pose proof (stop_window_exact witness_gen [bs "answer ST"; bs "OP hidden"] witness_stops_ok) as H.
  destruct (run _ _ _) as [[a limits] hit]. cbn [fst]. destruct H as [-> _]; [|by vm_compute|by vm_compute].
  repeat constructor; by apply cstringb_ok.
Defined.

Example marker_hold_back_witness :
  tool_marker_stream_safe_len (bs "hi <tool_c") FORMAT_DSML <= 3.
Proof.
  apply (marker_hold_back FORMAT_DSML (bs "hi <tool_c") (bs "all>") (bs "<tool_call>") 3).
  - by apply (bool_decide_unpack _).
  - by exists (bs "hi "), [].
  - intros [_ H]%occurs_bounds. by vm_compute in H.
Defined.

Example utf8_cut_exact_witness :
  utf8_stream_safe_len (Some (bs "a" ++ bs "é" ++ [0xe2; 0x82])) 0 5 = 3.
Proof.
  exact (utf8_cut_exact [] [bs "a"; bs "é"] [0xe2; 0x82; 0xac] [0xe2; 0x82] [] eq_refl eq_refl
    (ex_intro _ [0xac] eq_refl) ltac:(done)).
Defined.
