(* ===== verification/ToolText.v ===== *)
(** * Tool calls as text (ds4_server.c)

    The argument lists of a tool call, read from and written as JSON objects,
    and the writers of the four chat formats (DSML, Solar, Qwen, Hermes); the
    DSML escapes of attribute values and parameter texts and their inverse. *)

From S2P Require Import Prelude Json JsonText Text Stream.

Arguments ch : simpl never.
Arguments bs : simpl never.

(** ** Data *)
Record tool_call := Call {
  tc_id : option (list Z);
  tc_name : option (list Z);
  tc_arguments : option (list Z) }.

Record tool_calls := Calls {
  tcs : list tool_call;
  raw_dsml : option (list Z);
  raw_tool_text : option (list Z) }.

Definition no_calls : tool_calls := Calls [] None None.

(** tool_calls_push *)
Definition tool_calls_push (calls : tool_calls) (tc : tool_call) : tool_calls :=
  Calls (tcs calls ++ [tc]) (raw_dsml calls) (raw_tool_text calls).

(** What a tool schema says of a tool: its names and its properties in the
    order of the schema, each with the type it declares. *)
Record tool_schema_order := Order {
  so_name : option (list Z);
  wire_name : option (list Z);
  namespace : option (list Z);
  responses_tool_search : bool;
  props : list (option (list Z) * option (list Z)) }.

(** [a && !strcmp(a, b)] *)
Definition same (a : option (list Z)) (b : list Z) : bool :=
  match a with Some a => streq a b | None => false end.

(** tool_schema_order_prop_push *)
Definition tool_schema_order_prop_push (o : tool_schema_order) (prop type : option (list Z)) : tool_schema_order :=
  Order (so_name o) (wire_name o) (namespace o) (responses_tool_search o) (props o ++ [(prop, type)]).

(** The scan of tool_schema_orders_find_index from index [i] on. *)
Fixpoint find_index_from (orders : list tool_schema_order) (n : list Z) (i : Z) : Z :=
  match orders with
  | [] => -1
  | o :: orders => if same (so_name o) n then i else find_index_from orders n (i + 1)
  end.

(** tool_schema_orders_find_index *)
Definition tool_schema_orders_find_index (orders : option (list tool_schema_order)) (n : option (list Z)) : Z :=
  match orders, n with
  | Some orders, Some n => find_index_from orders n 0
  | _, _ => -1
  end.

(** tool_schema_orders_push *)
Definition tool_schema_orders_push (orders : list tool_schema_order) (o : tool_schema_order) : list tool_schema_order :=
  let idx := tool_schema_orders_find_index (Some orders) (so_name o) in
  if 0 <=? idx then <[Z.to_nat idx := o]> orders else orders ++ [o].

(** tool_schema_orders_find *)
Definition tool_schema_orders_find (orders : option (list tool_schema_order)) (n : option (list Z)) :
    option tool_schema_order :=
  let idx := tool_schema_orders_find_index orders n in
  if 0 <=? idx then default [] orders !! Z.to_nat idx else None.

(** The scan of tool_schema_order_prop_type. *)
Fixpoint prop_type_in (ps : list (option (list Z) * option (list Z))) (n : list Z) : option (list Z) :=
  match ps with
  | [] => None
  | (p, t) :: ps => if same p n then t else prop_type_in ps n
  end.

(** tool_schema_order_prop_type *)
Definition tool_schema_order_prop_type (o : option tool_schema_order) (n : option (list Z)) : option (list Z) :=
  match o, n with
  | Some o, Some n => prop_type_in (props o) n
  | _, _ => None
  end.

(** ** Argument lists *)
Record json_arg := Arg {
  arg_key : list Z;
  arg_value : list Z;
  is_string : bool;
  used : bool }.

(** json_args_push *)
Definition json_args_push (args : list json_arg) (a : json_arg) : list json_arg := args ++ [a].

(** The scan of json_args_find_unused from index [i] on. *)
Fixpoint find_unused_from (args : list json_arg) (k : list Z) (i : Z) : Z :=
  match args with
  | [] => -1
  | a :: args => if negb (used a) && streq (arg_key a) k then i else find_unused_from args k (i + 1)
  end.

(** json_args_find_unused *)
Definition json_args_find_unused (args : list json_arg) (k : option (list Z)) : Z :=
  match k with
  | None => -1
  | Some k => find_unused_from args k 0
  end.

(** The member loop of json_args_parse; every turn consumes a byte. *)
Fixpoint json_args_loop (fuel : nat) (p : list Z) (args : list json_arg) : option (list json_arg) :=
  match fuel with
  | O => None
  | S fuel =>
      match p with
      | [] => None
      | c :: _ =>
          if c =? ch "}" then Some args
          else
            match string_ p with
            | None => None
            | Some (k, p) =>
                match ws p with
                | [] => None
                | c :: p =>
                    if negb (c =? ch ":") then None
                    else
                      let p := ws p in
                      let quoted := match p with c :: _ => c =? 34 | [] => false end in
                      match (if quoted then string_ p
                             else match raw_value p with
                                  | Some (raw, q) => Some (minify (Some raw), q)
                                  | None => None
                                  end) with
                      | None => None
                      | Some (x, p) =>
                          json_args_loop fuel (ws (comma (ws p))) (json_args_push args (Arg k x quoted false))
                      end
                end
            end
      end
  end.

(** json_args_parse *)
Definition json_args_parse (json : option (list Z)) : option (list json_arg) :=
  match ws (default [] json) with
  | c :: p => if c =? ch "{" then json_args_loop (S (length p)) (ws p) [] else None
  | [] => None
  end.

(** append_json_arg_pair *)
Definition append_json_arg_pair (a : json_arg) : list Z :=
  escape (arg_key a) ++ bs ":" ++ (if is_string a then escape (arg_value a) else arg_value a).

(** append_json_object_or_empty *)
Definition append_json_object_or_empty (json : option (list Z)) : list Z :=
  match json_args_parse json with
  | None => bs "{}"
  | Some args => bs "{" ++ join [] (map append_json_arg_pair args) ++ bs "}"
  end.

(** ** DSML escapes *)
Definition INVOKE_START : list Z := bs "<" ++ DSML ++ bs "invoke".
Definition INVOKE_END : list Z := bs "</" ++ DSML ++ bs "invoke>".
Definition PARAM_START : list Z := bs "<" ++ DSML ++ bs "parameter".
Definition PARAM_END : list Z := bs "</" ++ DSML ++ bs "parameter>".
Definition INVOKE_START_SHORT : list Z := bs "<" ++ DSML_SHORT ++ bs "invoke".
Definition INVOKE_END_SHORT : list Z := bs "</" ++ DSML_SHORT ++ bs "invoke>".
Definition PARAM_START_SHORT : list Z := bs "<" ++ DSML_SHORT ++ bs "parameter".
Definition PARAM_END_SHORT : list Z := bs "</" ++ DSML_SHORT ++ bs "parameter>".

(** append_dsml_attr_escaped, one byte *)
Definition attr_byte (c : Z) : list Z :=
  if c =? ch "&" then bs "&amp;"
  else if c =? ch "<" then bs "&lt;"
  else if c =? ch ">" then bs "&gt;"
  else if c =? 34 then bs "&quot;"
  else [c].

(** append_dsml_attr_escaped *)
Definition append_dsml_attr_escaped (s : option (list Z)) : list Z := concat (map attr_byte (default [] s)).

(** The loop the three writers below share: where [end_] starts, [repl] stands
    for its first byte. *)
Fixpoint protect (end_ repl s : list Z) : list Z :=
  match s with
  | [] => []
  | c :: r => (if starts_with s end_ then repl else [c]) ++ protect end_ repl r
  end.

(** append_dsml_parameter_text *)
Definition append_dsml_parameter_text (s : option (list Z)) : list Z := protect PARAM_END (bs "&lt;") (default [] s).

(** append_tool_result_text *)
Definition append_tool_result_text (s : option (list Z)) : list Z :=
  protect (bs "</tool_result>") (bs "&lt;") (default [] s).

(** append_dsml_json_literal *)
Definition append_dsml_json_literal (s : option (list Z)) : list Z := protect PARAM_END (bs "\u003c") (default [] s).

(** dsml_unescape_text; [skip] bytes are left of the entity just decoded. *)
Fixpoint unescape_loop (s : list Z) (skip : nat) : list Z :=
  match s with
  | [] => []
  | c :: r =>
      match skip with
      | S skip => unescape_loop r skip
      | O =>
          if negb (c =? ch "&") then c :: unescape_loop r 0
          else if starts_with s (bs "&amp;") then ch "&" :: unescape_loop r 4
          else if starts_with s (bs "&lt;") then ch "<" :: unescape_loop r 3
          else if starts_with s (bs "&gt;") then ch ">" :: unescape_loop r 3
          else if starts_with s (bs "&quot;") then 34 :: unescape_loop r 5
          else if starts_with s (bs "&apos;") then ch "'" :: unescape_loop r 5
          else ch "&" :: unescape_loop r 0
      end
  end.
Definition dsml_unescape_text (s : option (list Z)) : list Z := unescape_loop (default [] s) 0.

(** ** Writers *)

(** append_dsml_arg *)
Definition append_dsml_arg (a : json_arg) : list Z :=
  PARAM_START ++ bs " name=" ++ [34] ++ append_dsml_attr_escaped (Some (arg_key a)) ++
  [34] ++ bs " string=" ++ [34] ++ bs (if is_string a then "true" else "false") ++ [34] ++ bs ">" ++
  (if is_string a then append_dsml_parameter_text (Some (arg_value a))
   else append_dsml_json_literal (Some (arg_value a))) ++
  PARAM_END ++ [10].

(** The two loops by which the *_arguments_from_json functions write the
    arguments: first those the schema names, in its order, then the others. *)
Definition mark_used (a : json_arg) : json_arg := Arg (arg_key a) (arg_value a) (is_string a) true.
Fixpoint schema_loop (emit : json_arg -> list Z) (ps : list (option (list Z) * option (list Z)))
    (args : list json_arg) (out : list Z) : list json_arg * list Z :=
  match ps with
  | [] => (args, out)
  | (p, _) :: ps =>
      let idx := json_args_find_unused args p in
      if idx <? 0 then schema_loop emit ps args out
      else
        match args !! Z.to_nat idx with
        | Some a => schema_loop emit ps (<[Z.to_nat idx := mark_used a]> args) (out ++ emit a)
        | None => schema_loop emit ps args out
        end
  end.
Definition arguments_in_order (emit : json_arg -> list Z) (args : list json_arg)
    (order : option tool_schema_order) : list Z :=
  let '(args, out) :=
    match order with
    | Some o => schema_loop emit (props o) args []
    | None => (args, [])
    end in
  out ++ concat (map (fun a => if used a then [] else emit a) args).

(** append_dsml_arguments_from_json *)
Definition append_dsml_arguments_from_json (json : option (list Z)) (order : option tool_schema_order) :
    option (list Z) :=
  args ← json_args_parse json; Some (arguments_in_order append_dsml_arg args order).

(** The [calls->raw_dsml && calls->raw_dsml[0]] test and the like. *)
Definition nonempty (s : option (list Z)) : option (list Z) :=
  match s with Some (c :: r) => Some (c :: r) | _ => None end.

(** One turn of append_dsml_tool_calls_text. *)
Definition dsml_call (tc : tool_call) : list Z :=
  INVOKE_START ++ bs " name=" ++ [34] ++ append_dsml_attr_escaped (tc_name tc) ++ [34] ++ bs ">" ++ [10] ++
  match append_dsml_arguments_from_json (tc_arguments tc) None with
  | Some t => t
  | None =>
      PARAM_START ++ bs " name=" ++ [34] ++ bs "arguments" ++ [34] ++ bs " string=" ++ [34] ++ bs "true" ++
      [34] ++ bs ">" ++ append_dsml_parameter_text (tc_arguments tc) ++ PARAM_END ++ [10]
  end ++ INVOKE_END ++ [10].

(** append_dsml_tool_calls_text *)
Definition append_dsml_tool_calls_text (calls : option tool_calls) : list Z :=
  match calls with
  | None => []
  | Some calls =>
      if blen (tcs calls) =? 0 then []
      else
        match nonempty (raw_dsml calls) with
        | Some t => t
        | None => [10; 10] ++ TOOL_CALLS_START ++ [10] ++ concat (map dsml_call (tcs calls)) ++ TOOL_CALLS_END
        end
  end.

Definition SOLAR_TOOL_ARG_START : list Z := bs "<|tool_arg:start|>".
Definition SOLAR_TOOL_ARG_VALUE : list Z := bs "<|tool_arg:value|>".
Definition SOLAR_TOOL_ARG_END : list Z := bs "<|tool_arg:end|>".

(** append_solar_arg *)
Definition append_solar_arg (a : json_arg) : list Z :=
  SOLAR_TOOL_ARG_START ++ arg_key a ++ SOLAR_TOOL_ARG_VALUE ++ arg_value a ++ SOLAR_TOOL_ARG_END ++ [10].

(** append_solar_arguments_from_json *)
Definition append_solar_arguments_from_json (json : option (list Z)) (order : option tool_schema_order) :
    option (list Z) :=
  args ← json_args_parse json; Some (arguments_in_order append_solar_arg args order).

(** The texts of the calls, [sep] between two of them. *)
Fixpoint separated (sep : list Z) (items : list (list Z)) : list Z :=
  match items with
  | [] => []
  | [x] => x
  | x :: items => x ++ sep ++ separated sep items
  end.

Definition solar_call (orders : option (list tool_schema_order)) (tc : tool_call) : list Z :=
  SOLAR_TOOL_CALL_START ++ default [] (tc_name tc) ++ [10] ++
  match append_solar_arguments_from_json (tc_arguments tc) (tool_schema_orders_find orders (tc_name tc)) with
  | Some t => t
  | None =>
      SOLAR_TOOL_ARG_START ++ bs "arguments" ++ SOLAR_TOOL_ARG_VALUE ++ default (bs "{}") (tc_arguments tc) ++
      SOLAR_TOOL_ARG_END ++ [10]
  end ++ SOLAR_TOOL_CALL_END.

(** append_solar_tool_calls_text *)
Definition append_solar_tool_calls_text (calls : option tool_calls) (orders : option (list tool_schema_order)) :
    list Z :=
  match calls with
  | None => []
  | Some calls =>
      if blen (tcs calls) =? 0 then []
      else
        match nonempty (raw_dsml calls) with
        | Some t => t
        | None => separated [10] (map (solar_call orders) (tcs calls))
        end
  end.

Definition QWEN_TOOL_CALL_START : list Z := bs "<tool_call>".
Definition QWEN_TOOL_CALL_END : list Z := bs "</tool_call>".

(** append_qwen_arg *)
Definition append_qwen_arg (a : json_arg) : list Z :=
  bs "<parameter=" ++ arg_key a ++ bs ">" ++ [10] ++ arg_value a ++ [10] ++ bs "</parameter>" ++ [10].

(** append_qwen_arguments_from_json *)
Definition append_qwen_arguments_from_json (json : option (list Z)) (order : option tool_schema_order) :
    option (list Z) :=
  args ← json_args_parse json; Some (arguments_in_order append_qwen_arg args order).

Definition qwen_call (orders : option (list tool_schema_order)) (tc : tool_call) : list Z :=
  QWEN_TOOL_CALL_START ++ [10] ++ bs "<function=" ++ default [] (tc_name tc) ++ bs ">" ++ [10] ++
  match append_qwen_arguments_from_json (tc_arguments tc) (tool_schema_orders_find orders (tc_name tc)) with
  | Some t => t
  | None =>
      bs "<parameter=arguments>" ++ [10] ++ default (bs "{}") (tc_arguments tc) ++ [10] ++ bs "</parameter>" ++ [10]
  end ++ bs "</function>" ++ [10] ++ QWEN_TOOL_CALL_END.

(** append_qwen_tool_calls_text *)
Definition append_qwen_tool_calls_text (calls : option tool_calls) (orders : option (list tool_schema_order)) :
    list Z :=
  match calls with
  | None => []
  | Some calls =>
      if blen (tcs calls) =? 0 then []
      else
        match nonempty (raw_dsml calls) with
        | Some t => t
        | None => separated [10] (map (qwen_call orders) (tcs calls))
        end
  end.

(** append_model_tool_calls_text *)
Definition append_model_tool_calls_text (calls : option tool_calls) (orders : option (list tool_schema_order))
    (f : chat_format) : list Z :=
  match f with
  | FORMAT_SOLAR_OPEN2 => append_solar_tool_calls_text calls orders
  | FORMAT_QWEN4EXP => append_qwen_tool_calls_text calls orders
  | _ => append_dsml_tool_calls_text calls
  end.

(** The Hermes body of append_motif3_tool_calls_text and
    append_exaone_tool_calls_text: everything between the wrapper's tags. *)
Definition hermes_body (tc : tool_call) (include_ids : bool) : list Z :=
  bs "{" ++ [34] ++ bs "name" ++ [34] ++ bs ": " ++ escape (default [] (tc_name tc)) ++
  bs ", " ++ [34] ++ bs "arguments" ++ [34] ++ bs ": " ++ default (bs "null") (nonempty (tc_arguments tc)) ++
  (if include_ids then
     match nonempty (tc_id tc) with
     | Some i => bs ", " ++ [34] ++ bs "id" ++ [34] ++ bs ": " ++ escape i
     | None => []
     end
   else []) ++ bs "}".

(** append_motif3_tool_calls_text *)
Definition append_motif3_tool_calls_text (calls : option tool_calls) (include_ids : bool) : list Z :=
  match calls with
  | None => []
  | Some calls =>
      if blen (tcs calls) =? 0 then []
      else
        match nonempty (raw_tool_text calls) with
        | Some t => t
        | None =>
            concat (map (fun tc => [10] ++ bs "<tool_call>" ++ hermes_body tc include_ids ++ bs "</tool_call>")
                      (tcs calls))
        end
  end.

(** skip_ascii_ws *)
Definition skip_ascii_ws (p : list Z) : list Z := (span isspace p).2.

(** append_exaone_tool_calls_text *)
Definition append_exaone_tool_calls_text (calls : option tool_calls) (content_before : bool) : list Z :=
  match calls with
  | None => []
  | Some calls =>
      if blen (tcs calls) =? 0 then []
      else
        let lead := if content_before then [10] else [] in
        match nonempty (raw_tool_text calls) with
        | Some t => lead ++ skip_ascii_ws t
        | None =>
            lead ++ separated [10]
              (map (fun tc => bs "<tool_call>" ++ hermes_body tc false ++ bs "</tool_call>") (tcs calls))
        end
  end.
