(* ===== verification/ToolParse.v ===== *)
(** * Parsing generated messages (ds4_server.c)

    The split of a generated message into reasoning, content and tool calls, for
    each of the formats the server's models emit.  A C string is a byte list
    without NUL and a position in it is the text from there on; the two parsers
    that compare positions use offsets instead. *)

From S2P Require Import Prelude Json Text Stream ToolText.

(** What a loop of a parser ends with: a result, a rejected message, or no fuel
    left; the last case is proved impossible. *)
Inductive outcome (A : Type) := Ok (a : A) | Bad | Timeout.
Arguments Ok {A}. Arguments Bad {A}. Arguments Timeout {A}.

(** The out-parameters of the parsers and their result; a parser that returns
    false leaves the calls pushed so far behind. *)
Inductive parsed :=
| Parsed (content : list Z) (reasoning : option (list Z)) (calls : tool_calls)
| Rejected (calls : tool_calls)
| OutOfFuel.

(** ** Splitting *)

(** trim_tool_separator_ws *)
Fixpoint trim_from (raw : list Z) (start : Z) (limit : nat) : Z :=
  match limit with
  | O => 0
  | S l => if (start <? Z.of_nat limit) && isspace (znth 0 raw (Z.of_nat l)) then trim_from raw start l
           else Z.of_nat limit
  end.
Definition trim_tool_separator_ws (raw : list Z) (start limit : Z) : Z := trim_from raw start (Z.to_nat limit).

(** trim_ascii_span_dup *)
Definition trim_ascii_span_dup (s : list Z) : list Z :=
  let s := skip_ascii_ws s in ztake (trim_tool_separator_ws s 0 (blen s)) s.

(** chat_think_start *)
Definition chat_think_start (f : chat_format) : list Z :=
  match f with FORMAT_SOLAR_OPEN2 => SOLAR_THINK_START | _ => THINK_START end.

(** [!strncmp(body, mark, strlen(mark)) ? body + strlen(mark) : body] *)
Definition strip (mark body : list Z) : list Z := if starts_with body mark then zdrop (blen mark) body else body.

(** split_reasoning_content_format: content and reasoning. *)
Definition split_reasoning_content_format (text : option (list Z)) (n : Z) (f : chat_format) :
    list Z * option (list Z) :=
  let s := ztake n (default [] text) in
  let body := strip (chat_think_start f) s in
  match strstr body (chat_think_end f) with
  | Some i => (zdrop (i + blen (chat_think_end f)) body, Some (ztake i body))
  | None => (s, None)
  end.

(** split_reasoning_content *)
Definition split_reasoning_content (text : option (list Z)) (n : Z) : list Z * option (list Z) :=
  split_reasoning_content_format text n FORMAT_DSML.

(** ds4_local_unterminated_reasoning *)
Definition local_unterminated_reasoning (text : option (list Z)) : list Z * option (list Z) :=
  ([], Some (strip THINK_START (default [] text))).

(** ds4_unterminated_reasoning_before_tool *)
Definition unterminated_reasoning_before_tool (text : option (list Z)) (prefix_len : Z) :
    list Z * option (list Z) :=
  let body := default [] text in
  let prefix_len := if blen body <? prefix_len then blen body else prefix_len in
  if (7 <=? prefix_len) && starts_with body THINK_START
  then ([], Some (ztake (prefix_len - 7) (zdrop 7 body)))
  else ([], Some (ztake prefix_len body)).

(** split_reasoning_response_format *)
Definition split_reasoning_response_format (text : option (list Z)) (n : Z) (f : chat_format)
    (require_thinking_closed : bool) : list Z * option (list Z) :=
  let s := ztake n (default [] text) in
  match (if require_thinking_closed then find_last_substr s (chat_think_end f) else Some 0) with
  | None => ([], Some (strip (chat_think_start f) s))
  | Some _ => split_reasoning_content_format (Some s) (blen s) f
  end.

(** The out-parameters of a call of one of the above. *)
Definition parsed_of (cr : list Z * option (list Z)) (calls : tool_calls) : parsed := Parsed cr.1 cr.2 calls.

Definition set_raw_dsml (t : list Z) (calls : tool_calls) : tool_calls :=
  Calls (tcs calls) (Some t) (raw_tool_text calls).
Definition set_raw_tool_text (t : list Z) (calls : tool_calls) : tool_calls :=
  Calls (tcs calls) (raw_dsml calls) (Some t).

(** The call each parser pushes: the arguments collected so far in braces. *)
Definition wrapped_call (name args : list Z) : tool_call :=
  Call None (Some name) (Some (bs "{" ++ args ++ bs "}")).

(** ** DSML *)

(** tool_call_json_args_add *)
Definition tool_call_json_args_add (args : list Z) (name value is_string : option (list Z)) : list Z :=
  (if blen args =? 0 then args else args ++ bs ", ") ++ escape (default [] name) ++ bs ": " ++
  (if same is_string (bs "true") then escape (default [] value)
   else match minify (Some (default (bs "null") value)) with [] => bs "null" | m => m end).

(** dsml_attr; the pattern is built in 64 bytes. *)
Definition dsml_attr (tag name : list Z) : option (list Z) :=
  let pat := ztake 63 (name ++ [ch "="; 34]) in
  match strstr tag pat with
  | None => None
  | Some i =>
      let p := zdrop (i + blen pat) tag in
      match strchr p 34 with
      | None => None
      | Some j => Some (dsml_unescape_text (Some (ztake j p)))
      end
  end.

(** The value of a parameter and its type, as both parsers pass them on. *)
Definition dsml_value (raw : list Z) (is_string : option (list Z)) : option (list Z) * option (list Z) :=
  let type := default (bs "true") is_string in
  (Some (if streq type (bs "true") then dsml_unescape_text (Some raw) else raw), Some type).

(** dsml_parse_leaf_param_json: the position behind the parameter and the
    buffer. *)
Definition dsml_parse_leaf_param_json (p param_start param_end out : list Z) : option (list Z * list Z) :=
  if negb (starts_with p param_start) then None
  else
    match strchr p (ch ">") with
    | None => None
    | Some tag_end =>
        let tag := ztake (tag_end + 1) p in
        match dsml_attr tag (bs "name") with
        | None => None
        | Some name =>
            let is_string := dsml_attr tag (bs "string") in
            let value_start := zdrop (tag_end + 1) p in
            match strstr value_start param_end with
            | None => None
            | Some e =>
                let '(value, type) := dsml_value (ztake e value_start) is_string in
                Some (zdrop (e + blen param_end) value_start,
                      tool_call_json_args_add out (Some name) value type)
            end
        end
    end.

(** The loop of dsml_parse_nested_params_object. *)
Fixpoint nested_loop (fuel : nat) (p param_start param_end members : list Z) (any : bool) :
    outcome (list Z * list Z * bool) :=
  match fuel with
  | O => Timeout
  | S fuel =>
      let p := skip_ascii_ws p in
      if negb (starts_with p param_start) then Ok (p, members, any)
      else
        match dsml_parse_leaf_param_json p param_start param_end members with
        | None => Bad
        | Some (p, members) => nested_loop fuel p param_start param_end members true
        end
  end.

(** dsml_parse_nested_params_object *)
Definition dsml_parse_nested_params_object (p param_start param_end out : list Z) : outcome (list Z * list Z) :=
  match nested_loop (S (length p)) p param_start param_end [] false with
  | Ok (q, members, true) => Ok (q, out ++ bs "{" ++ members ++ bs "}")
  | Ok (_, _, false) | Bad => Bad
  | Timeout => Timeout
  end.

(** dsml_match_any3 *)
Definition dsml_match_any3 (p t0 t1 t2 : list Z) : option (list Z) :=
  if starts_with p t0 then Some t0
  else if starts_with p t1 then Some t1
  else if starts_with p t2 then Some t2 else None.

(** dsml_find_earliest3: the offset and the tag found there. *)
Definition dsml_find_earliest3 (hay t0 t1 t2 : list Z) : option (Z * list Z) :=
  fold_left (fun best c =>
    match strstr hay c, best with
    | Some s, Some (b, _) => if s <? b then Some (s, c) else best
    | Some s, None => Some (s, c)
    | None, _ => best
    end) [t0; t1; t2] None.

Definition any_param_start (p : list Z) := dsml_match_any3 p PARAM_START PARAM_START_SHORT (bs "<parameter").
Definition any_param_end (p : list Z) := dsml_match_any3 p PARAM_END PARAM_END_SHORT (bs "</parameter>").
Definition any_invoke_start (p : list Z) := dsml_match_any3 p INVOKE_START INVOKE_START_SHORT (bs "<invoke").
Definition any_invoke_end (p : list Z) := dsml_match_any3 p INVOKE_END INVOKE_END_SHORT (bs "</invoke>").
Definition any_block_end (p : list Z) := dsml_match_any3 p TOOL_CALLS_END TOOL_CALLS_END_SHORT (bs "</tool_calls>").

(** The end tag the parser pairs with the start tag of a nested parameter. *)
Definition nested_end (tag : list Z) : list Z :=
  if streq tag PARAM_START then PARAM_END
  else if streq tag PARAM_START_SHORT then PARAM_END_SHORT else bs "</parameter>".

(** The parameter loop of parse_generated_message_ex_format, up to the end tag
    of the call. *)
Fixpoint dsml_params (fuel : nat) (p args : list Z) : outcome (list Z * list Z) :=
  match fuel with
  | O => Timeout
  | S fuel =>
      let p := skip_ascii_ws p in
      match any_invoke_end p with
      | Some tag => Ok (zdrop (blen tag) p, args)
      | None =>
          if negb (bool_decide (is_Some (any_param_start p))) then Bad
          else
            match strchr p (ch ">") with
            | None => Bad
            | Some tag_end =>
                let tag := ztake (tag_end + 1) p in
                match dsml_attr tag (bs "name") with
                | None => Bad
                | Some param_name =>
                    let is_string := dsml_attr tag (bs "string") in
                    let value_start := zdrop (tag_end + 1) p in
                    match is_string, any_param_start (skip_ascii_ws value_start) with
                    | None, Some nested_tag =>
                        match dsml_parse_nested_params_object value_start nested_tag (nested_end nested_tag) [] with
                        | Timeout => Timeout
                        | Bad => Bad
                        | Ok (q, nested) =>
                            let args := tool_call_json_args_add args (Some param_name) (Some nested)
                                          (Some (bs "false")) in
                            let p := skip_ascii_ws q in
                            let p := match any_param_end p with
                                     | Some tag => zdrop (blen tag) p
                                     | None => p
                                     end in
                            dsml_params fuel p args
                        end
                    | _, _ =>
                        match dsml_find_earliest3 value_start PARAM_END PARAM_END_SHORT (bs "</parameter>") with
                        | None => Bad
                        | Some (e, end_tag) =>
                            let '(value, type) := dsml_value (ztake e value_start) is_string in
                            dsml_params fuel (zdrop (e + blen end_tag) value_start)
                              (tool_call_json_args_add args (Some param_name) value type)
                        end
                    end
                end
            end
      end
  end.

(** The call loop of parse_generated_message_ex_format: the calls and the
    position behind the end tag of the block. *)
Fixpoint dsml_calls (fuel : nat) (p : list Z) (calls : tool_calls) : tool_calls * outcome (list Z) :=
  match fuel with
  | O => (calls, Timeout)
  | S fuel =>
      let p := skip_ascii_ws p in
      match any_block_end p with
      | Some tag => (calls, Ok (zdrop (blen tag) p))
      | None =>
          if negb (bool_decide (is_Some (any_invoke_start p))) then (calls, Bad)
          else
            match strchr p (ch ">") with
            | None => (calls, Bad)
            | Some tag_end =>
                match dsml_attr (ztake (tag_end + 1) p) (bs "name") with
                | None => (calls, Bad)
                | Some name =>
                    match dsml_params (S (length p)) (zdrop (tag_end + 1) p) [] with
                    | Timeout => (calls, Timeout)
                    | Bad => (calls, Bad)
                    | Ok (p, args) => dsml_calls fuel p (tool_calls_push calls (wrapped_call name args))
                    end
                end
            end
      end
  end.

(** The search for the block, in the order of the code's six attempts. *)
Definition first_found (hay : list Z) (marks : list (list Z * list Z)) : option (Z * list Z) :=
  fold_right (fun m rest => match strstr hay m.1 with Some i => Some (i, m.2) | None => rest end) None marks.
Definition block_marks : list (list Z * list Z) :=
  [([10; 10] ++ TOOL_CALLS_START, TOOL_CALLS_START); (TOOL_CALLS_START, TOOL_CALLS_START);
   ([10; 10] ++ TOOL_CALLS_START_SHORT, TOOL_CALLS_START_SHORT); (TOOL_CALLS_START_SHORT, TOOL_CALLS_START_SHORT);
   ([10; 10] ++ bs "<tool_calls>", bs "<tool_calls>"); (bs "<tool_calls>", bs "<tool_calls>")].

(** The text between two positions of the same string. *)
Definition between (p q : list Z) : list Z := ztake (blen p - blen q) p.

(** Where the search for calls starts when reasoning has to be closed. *)
Definition search_from (text : list Z) (require_thinking_closed : bool) (mark : list Z) : option Z :=
  if require_thinking_closed then
    match find_last_substr text mark with
    | None => None
    | Some e => Some (e + blen mark)
    end
  else Some 0.

(** The DSML part of parse_generated_message_ex_format *)
Definition parse_dsml_generated_message (text : option (list Z)) (require_thinking_closed : bool)
    (calls : tool_calls) : parsed :=
  let text := default [] text in
  match search_from text require_thinking_closed THINK_END with
  | None => parsed_of (local_unterminated_reasoning (Some text)) calls
  | Some from =>
      match first_found (zdrop from text) block_marks with
      | None => parsed_of (split_reasoning_content (Some text) (blen text)) calls
      | Some (i, mark) =>
          let start := from + i in
          let content_len := trim_tool_separator_ws text 0 start in
          let block := zdrop start text in
          match strstr block mark with
          | None => Rejected calls
          | Some k =>
              let p := zdrop (k + blen mark) block in
              match dsml_calls (S (length p)) p calls with
              | (calls, Ok q) =>
                  parsed_of (split_reasoning_content (Some text) content_len) (set_raw_dsml (between block q) calls)
              | (calls, Bad) => Rejected calls
              | (_, Timeout) => OutOfFuel
              end
          end
      end
  end.

(** ** Solar and Qwen *)

(** solar_tool_arg_json_add *)
Definition solar_tool_arg_json_add (args name raw : list Z) (expected_type : option (list Z)) : list Z :=
  (if blen args =? 0 then args else args ++ bs ", ") ++ escape name ++ bs ": " ++
  (if same expected_type (bs "string") then escape raw
   else match value_is_complete (Some (trim_ascii_span_dup raw)) with
        | Some minified => minified
        | None => escape raw
        end).

Definition is_crlf (c : Z) : bool := (c =? 13) || (c =? 10).

(** The argument loop of parse_solar_generated_message. *)
Fixpoint solar_args (fuel : nat) (order : option tool_schema_order) (p args : list Z) : outcome (list Z * list Z) :=
  match fuel with
  | O => Timeout
  | S fuel =>
      match p with
      | [] => Bad
      | _ =>
          let p := (span is_crlf p).2 in
          if starts_with p SOLAR_TOOL_CALL_END then Ok (zdrop (blen SOLAR_TOOL_CALL_END) p, args)
          else if negb (starts_with p SOLAR_TOOL_ARG_START) then Bad
          else
            let p := zdrop (blen SOLAR_TOOL_ARG_START) p in
            match strstr p SOLAR_TOOL_ARG_VALUE with
            | None => Bad
            | Some m =>
                let arg_name := trim_ascii_span_dup (ztake m p) in
                let p := zdrop (m + blen SOLAR_TOOL_ARG_VALUE) p in
                match strstr p SOLAR_TOOL_ARG_END, arg_name with
                | Some e, _ :: _ =>
                    solar_args fuel order (zdrop (e + blen SOLAR_TOOL_ARG_END) p)
                      (solar_tool_arg_json_add args arg_name (ztake e p)
                         (tool_schema_order_prop_type order (Some arg_name)))
                | _, _ => Bad
                end
            end
      end
  end.

(** The call loop of parse_solar_generated_message. *)
Fixpoint solar_calls (fuel : nat) (orders : option (list tool_schema_order)) (p : list Z) (calls : tool_calls) :
    tool_calls * outcome (list Z) :=
  match fuel with
  | O => (calls, Timeout)
  | S fuel =>
      if negb (starts_with p SOLAR_TOOL_CALL_START) then (calls, Bad)
      else
        let p := zdrop (blen SOLAR_TOOL_CALL_START) p in
        match strchr p 10 with
        | None => (calls, Bad)
        | Some e =>
            let name := trim_ascii_span_dup (ztake e p) in
            if blen name =? 0 then (calls, Bad)
            else
              let p := zdrop (e + 1) p in
              match solar_args (S (length p)) (tool_schema_orders_find orders (Some name)) p [] with
              | Timeout => (calls, Timeout)
              | Bad => (calls, Bad)
              | Ok (p, args) =>
                  let calls := tool_calls_push calls (wrapped_call name args) in
                  let next := skip_ascii_ws p in
                  if negb (starts_with next SOLAR_TOOL_CALL_START) then (calls, Ok p)
                  else solar_calls fuel orders next calls
              end
        end
  end.

(** parse_solar_generated_message *)
Definition parse_solar_generated_message (text : option (list Z)) (require_thinking_closed : bool)
    (orders : option (list tool_schema_order)) (calls : tool_calls) : parsed :=
  let text := default [] text in
  match search_from text require_thinking_closed SOLAR_THINK_END with
  | None => Parsed [] (Some (strip SOLAR_THINK_START text)) calls
  | Some from =>
      match strstr (zdrop from text) SOLAR_TOOL_CALL_START with
      | None => parsed_of (split_reasoning_content_format (Some text) (blen text) FORMAT_SOLAR_OPEN2) calls
      | Some i =>
          let content_len := trim_tool_separator_ws text 0 (from + i) in
          let start := zdrop (from + i) text in
          match solar_calls (S (length start)) orders start calls with
          | (_, Timeout) => OutOfFuel
          | (calls, Bad) => Rejected calls
          | (calls, Ok q) =>
              let calls := set_raw_dsml (between start q) calls in
              if 0 <? blen (tcs calls)
              then parsed_of (split_reasoning_content_format (Some text) content_len FORMAT_SOLAR_OPEN2) calls
              else Rejected calls
          end
      end
  end.

Definition skip_byte (c : Z) (p : list Z) : list Z :=
  match p with d :: r => if d =? c then r else p | [] => p end.

(** The line break a Qwen value ends with, taken off. *)
Definition drop_last_if (c : Z) (s : list Z) : list Z :=
  if (0 <? blen s) && (znth 0 s (blen s - 1) =? c) then ztake (blen s - 1) s else s.

(** The parameter loop of parse_qwen_generated_message. *)
Fixpoint qwen_params (fuel : nat) (order : option tool_schema_order) (p args : list Z) : outcome (list Z * list Z) :=
  match fuel with
  | O => Timeout
  | S fuel =>
      match p with
      | [] => Bad
      | _ =>
          let p := skip_ascii_ws p in
          if starts_with p (bs "</function>") then Ok (zdrop 11 p, args)
          else if negb (starts_with p (bs "<parameter=")) then Bad
          else
            let p := zdrop 11 p in
            match strchr p (ch ">") with
            | None => Bad
            | Some e =>
                let arg_name := trim_ascii_span_dup (ztake e p) in
                let p := skip_byte 10 (skip_byte 13 (zdrop (e + 1) p)) in
                match strstr p (bs "</parameter>"), arg_name with
                | Some e, _ :: _ =>
                    qwen_params fuel order (zdrop (e + 12) p)
                      (solar_tool_arg_json_add args arg_name (drop_last_if 13 (drop_last_if 10 (ztake e p)))
                         (tool_schema_order_prop_type order (Some arg_name)))
                | _, _ => Bad
                end
            end
      end
  end.

(** The call loop of parse_qwen_generated_message; it is entered at a start
    tag. *)
Fixpoint qwen_calls (fuel : nat) (orders : option (list tool_schema_order)) (p : list Z) (calls : tool_calls) :
    tool_calls * outcome (list Z) :=
  match fuel with
  | O => (calls, Timeout)
  | S fuel =>
      let p := skip_ascii_ws (zdrop (blen QWEN_TOOL_CALL_START) p) in
      if negb (starts_with p (bs "<function=")) then (calls, Bad)
      else
        let p := zdrop 10 p in
        match strchr p (ch ">") with
        | None => (calls, Bad)
        | Some e =>
            let name := trim_ascii_span_dup (ztake e p) in
            if blen name =? 0 then (calls, Bad)
            else
              let p := zdrop (e + 1) p in
              match qwen_params (S (length p)) (tool_schema_orders_find orders (Some name)) p [] with
              | Timeout => (calls, Timeout)
              | Bad => (calls, Bad)
              | Ok (p, args) =>
                  let p := skip_ascii_ws p in
                  if negb (starts_with p QWEN_TOOL_CALL_END) then (calls, Bad)
                  else
                    let p := zdrop (blen QWEN_TOOL_CALL_END) p in
                    let calls := tool_calls_push calls (wrapped_call name args) in
                    let next := skip_ascii_ws p in
                    if negb (starts_with next QWEN_TOOL_CALL_START) then (calls, Ok p)
                    else qwen_calls fuel orders next calls
              end
        end
  end.

(** parse_qwen_generated_message *)
Definition parse_qwen_generated_message (text : option (list Z)) (require_thinking_closed : bool)
    (orders : option (list tool_schema_order)) (calls : tool_calls) : parsed :=
  let text := default [] text in
  match search_from text require_thinking_closed THINK_END with
  | None => Parsed [] (Some (strip THINK_START text)) calls
  | Some from =>
      match strstr (zdrop from text) QWEN_TOOL_CALL_START with
      | None => parsed_of (split_reasoning_content_format (Some text) (blen text) FORMAT_QWEN4EXP) calls
      | Some i =>
          let content_len := trim_tool_separator_ws text 0 (from + i) in
          let start := zdrop (from + i) text in
          match qwen_calls (S (length start)) orders start calls with
          | (_, Timeout) => OutOfFuel
          | (calls, Bad) => Rejected calls
          | (calls, Ok q) =>
              let calls := set_raw_dsml (between start q) calls in
              if 0 <? blen (tcs calls)
              then parsed_of (split_reasoning_content_format (Some text) content_len FORMAT_QWEN4EXP) calls
              else Rejected calls
          end
      end
  end.

(** parse_generated_message_ex_format *)
Definition parse_generated_message_ex_format (text : option (list Z)) (require_thinking_closed : bool)
    (f : chat_format) (orders : option (list tool_schema_order)) (calls : tool_calls) : parsed :=
  match f with
  | FORMAT_SOLAR_OPEN2 => parse_solar_generated_message text require_thinking_closed orders calls
  | FORMAT_QWEN4EXP => parse_qwen_generated_message text require_thinking_closed orders calls
  | _ => parse_dsml_generated_message text require_thinking_closed calls
  end.
