(* ===== verification/ToolHermes.v ===== *)
(** * Hermes, dots3 and K2 messages (ds4_server.c)

    The parsers of the formats whose calls are wrapped JSON objects (Motif-3,
    K-EXAONE), [<invoke>] bodies inside a wrapper (dots3) or absent (K2), and the
    dispatch on the model's syntax. *)

From S2P Require Import Prelude Json Text Stream ToolText ToolParse.

(** server_model_syntax *)
Inductive server_model_syntax :=
  SYNTAX_DEEPSEEK | SYNTAX_SOLAR_OPEN2 | SYNTAX_MOTIF3 | SYNTAX_EXAONE | SYNTAX_DOTS3 | SYNTAX_K2_HORIZON.

(** ** The Hermes call body *)
Definition set_name (s : list Z) (tc : tool_call) : tool_call := Call (tc_id tc) (Some s) (tc_arguments tc).
Definition set_arguments (s : list Z) (tc : tool_call) : tool_call := Call (tc_id tc) (tc_name tc) (Some s).
Definition set_id (s : list Z) (tc : tool_call) : tool_call := Call (Some s) (tc_name tc) (tc_arguments tc).

(** json_string_replace and json_raw_value_replace: on failure the target
    keeps its value. *)
Definition json_string_replace (p : list Z) (set : list Z -> tool_call -> tool_call) (tc : tool_call) :
    option (list Z * tool_call) :=
  match string_ p with Some (s, q) => Some (q, set s tc) | None => None end.
Definition json_raw_value_replace (p : list Z) (set : list Z -> tool_call -> tool_call) (tc : tool_call) :
    option (list Z * tool_call) :=
  match raw_value p with Some (s, q) => Some (q, set s tc) | None => None end.

(** The member loop of parse_hermes_tool_call_json, up to the closing brace. *)
Fixpoint hermes_members (fuel : nat) (p : list Z) (tc : tool_call) : outcome (list Z * tool_call) :=
  match fuel with
  | O => Timeout
  | S fuel =>
      match p with
      | [] => Bad
      | c :: r =>
          if c =? ch "}" then Ok (r, tc)
          else
            match string_ p with
            | None => Bad
            | Some (key, p) =>
                match ws p with
                | [] => Bad
                | c :: p =>
                    if negb (c =? ch ":") then Bad
                    else
                      match (if streq key (bs "name") then json_string_replace p set_name tc
                             else if streq key (bs "arguments") then json_raw_value_replace p set_arguments tc
                             else if streq key (bs "id") then json_string_replace p set_id tc
                             else match skip p with Some q => Some (q, tc) | None => None end) with
                      | None => Bad
                      | Some (p, tc) => hermes_members fuel (ws (comma (ws p))) tc
                      end
                end
            end
      end
  end.

(** parse_hermes_tool_call_json *)
Definition parse_hermes_tool_call_json (json : option (list Z)) : outcome tool_call :=
  match ws (default [] json) with
  | [] => Bad
  | c :: p =>
      if negb (c =? ch "{") then Bad
      else
        match hermes_members (S (length p)) (ws p) (Call None None None) with
        | Timeout => Timeout
        | Bad => Bad
        | Ok (p, tc) =>
            match ws p, nonempty (tc_name tc) with
            | [], Some _ =>
                Ok (match tc_arguments tc with Some _ => tc | None => set_arguments (bs "null") tc end)
            | _, _ => Bad
            end
        end
  end.

(** ** Locating the calls *)

(** Where the Hermes and dots3 parsers look for calls, and whether the call is
    one left inside reasoning that never closes; [None] when nothing follows. *)
Definition recover_from (text : list Z) (require_thinking_closed : bool) (tool_start tool_end : list Z) :
    option (Z * bool) :=
  if require_thinking_closed then
    match find_last_substr text THINK_END with
    | Some e => Some (e + 8, false)
    | None =>
        match strstr text tool_start with
        | None => None
        | Some c =>
            match strstr (zdrop c text) tool_end with
            | None => None
            | Some _ => Some (c, true)
            end
        end
    end
  else Some (0, false).

(** What both parsers do around their call loop [parse_calls]. *)
Definition parse_wrapped (parse_calls : list Z -> tool_calls -> tool_calls * outcome (list Z))
    (tool_start tool_end : list Z) (text : option (list Z)) (require_thinking_closed : bool)
    (calls : tool_calls) : parsed :=
  let text := default [] text in
  match recover_from text require_thinking_closed tool_start tool_end with
  | None => parsed_of (local_unterminated_reasoning (Some text)) calls
  | Some (from, recovered) =>
      match strstr (zdrop from text) tool_start with
      | None => parsed_of (split_reasoning_content (Some text) (blen text)) calls
      | Some i =>
          let start := from + i in
          let raw_block_start :=
            if (0 <? start) && (znth 0 text (start - 1) =? 10) then start - 1 else start in
          let content_len := trim_tool_separator_ws text 0 raw_block_start in
          match parse_calls (zdrop start text) calls with
          | (_, Timeout) => OutOfFuel
          | (calls, Bad) => Rejected calls
          | (calls, Ok p) =>
              if blen (tcs calls) =? 0 then Rejected calls
              else
                let calls := set_raw_tool_text (between (zdrop raw_block_start text) p) calls in
                if recovered then parsed_of (unterminated_reasoning_before_tool (Some text) content_len) calls
                else parsed_of (split_reasoning_content (Some text) content_len) calls
          end
      end
  end.

(** The call loop of parse_hermes_generated_message_ex. *)
Fixpoint hermes_calls (fuel : nat) (p : list Z) (calls : tool_calls) : tool_calls * outcome (list Z) :=
  match fuel with
  | O => (calls, Timeout)
  | S fuel =>
      let p := skip_ascii_ws p in
      if negb (starts_with p QWEN_TOOL_CALL_START) then (calls, Ok p)
      else
        let p := zdrop (blen QWEN_TOOL_CALL_START) p in
        match strstr p QWEN_TOOL_CALL_END with
        | None => (calls, Bad)
        | Some close =>
            match parse_hermes_tool_call_json (Some (ztake close p)) with
            | Timeout => (calls, Timeout)
            | Bad => (calls, Bad)
            | Ok tc => hermes_calls fuel (zdrop (close + blen QWEN_TOOL_CALL_END) p) (tool_calls_push calls tc)
            end
        end
  end.

(** parse_hermes_generated_message_ex *)
Definition parse_hermes_generated_message_ex (text : option (list Z)) (require_thinking_closed : bool)
    (calls : tool_calls) : parsed :=
  parse_wrapped (fun p => hermes_calls (S (length p)) p) QWEN_TOOL_CALL_START QWEN_TOOL_CALL_END
    text require_thinking_closed calls.

(** ** dots3 *)

(** strstr and strchr from offset [i] on, as an offset. *)
Definition strstr_from (s : list Z) (i : Z) (n : list Z) : option Z := (fun k => i + k) <$> strstr (zdrop i s) n.
Definition at_byte (s : list Z) (i c : Z) : bool := znth 0 s i =? c.
Definition dquote : list Z := [34].

(** The parameter loop of parse_dots3_invoke; [p] and [body_end] are offsets in
    [body], which runs to the end of the message. *)
Fixpoint dots3_params (fuel : nat) (body : list Z) (p body_end : Z) (args : list Z) (n_args : Z) :
    outcome (list Z) :=
  match fuel with
  | O => Timeout
  | S fuel =>
      let param_open := bs "<parameter name=" ++ dquote in
      match strstr_from body p param_open with
      | None => Ok args
      | Some open =>
          if body_end <=? open then Ok args
          else
            let key := open + blen param_open in
            match strstr_from body key dquote with
            | None => Ok args
            | Some key_end =>
                if body_end <=? key_end then Ok args
                else
                  let value := key_end + 1 in
                  let value := if at_byte body value (ch ">") then value + 1 else value in
                  let value := if at_byte body value 10 then value + 1 else value in
                  match strstr_from body value (bs "</parameter>") with
                  | None => Ok args
                  | Some close =>
                      if body_end <? close then Ok args
                      else
                        let value_end := if (value <? close) && at_byte body (close - 1) 10 then close - 1 else close in
                        let raw := ztake (value_end - value) (zdrop value body) in
                        let typed :=
                          match raw_value (ws raw) with
                          | Some (value_json, probe) => match ws probe with [] => Some value_json | _ => None end
                          | None => None
                          end in
                        let args :=
                          (if 0 <? n_args then args ++ bs ", " else args) ++
                          escape (ztake (key_end - key) (zdrop key body)) ++ bs ": " ++
                          match typed with Some value_json => value_json | None => escape raw end in
                        dots3_params fuel body (close + 12) body_end args (n_args + 1)
                  end
            end
      end
  end.

(** parse_dots3_invoke *)
Definition parse_dots3_invoke (body : list Z) (body_end : Z) : outcome tool_call :=
  let name_open := bs "<invoke name=" ++ dquote in
  match strstr body name_open with
  | None => Bad
  | Some p =>
      if body_end <=? p then Bad
      else
        let p := p + blen name_open in
        match strstr_from body p dquote with
        | None => Bad
        | Some name_end =>
            if body_end <=? name_end then Bad
            else
              let name := ztake (name_end - p) (zdrop p body) in
              let p := name_end + 1 in
              let p := if at_byte body p (ch ">") then p + 1 else p in
              match dots3_params (S (length body)) body p body_end [] 0 with
              | Timeout => Timeout
              | Bad => Bad
              | Ok args => if blen name =? 0 then Bad else Ok (wrapped_call name args)
              end
        end
  end.

(** The inner loop of parse_dots3_generated_message_ex: [invoke] and [close] are
    offsets in [p], the text behind the start tag of the block. *)
Fixpoint dots3_invokes (fuel : nat) (p : list Z) (invoke close : Z) (calls : tool_calls) :
    tool_calls * outcome unit :=
  match fuel with
  | O => (calls, Timeout)
  | S fuel =>
      if close <=? invoke then (calls, Ok tt)
      else
        match strstr_from p invoke (bs "<invoke name=" ++ dquote) with
        | None => (calls, Ok tt)
        | Some next =>
            if close <=? next then (calls, Ok tt)
            else
              let invoke_end :=
                match strstr_from p next (bs "</invoke>") with
                | None => close
                | Some e => if close <? e then close else e
                end in
              match parse_dots3_invoke (zdrop next p) (invoke_end - next) with
              | Timeout => (calls, Timeout)
              | Bad => (calls, Bad)
              | Ok tc => dots3_invokes fuel p invoke_end close (tool_calls_push calls tc)
              end
        end
  end.

Definition DOTS3_START : list Z := bs "<dots_function_call>".
Definition DOTS3_END : list Z := bs "</dots_function_call>".

(** The block loop of parse_dots3_generated_message_ex. *)
Fixpoint dots3_blocks (fuel : nat) (p : list Z) (calls : tool_calls) : tool_calls * outcome (list Z) :=
  match fuel with
  | O => (calls, Timeout)
  | S fuel =>
      let p := skip_ascii_ws p in
      if negb (starts_with p DOTS3_START) then (calls, Ok p)
      else
        let p := zdrop (blen DOTS3_START) p in
        match strstr p DOTS3_END with
        | None => (calls, Bad)
        | Some close =>
            match dots3_invokes (S (length p)) p 0 close calls with
            | (calls, Timeout) => (calls, Timeout)
            | (calls, Bad) => (calls, Bad)
            | (calls, Ok _) => dots3_blocks fuel (zdrop (close + blen DOTS3_END) p) calls
            end
        end
  end.

(** parse_dots3_generated_message_ex *)
Definition parse_dots3_generated_message_ex (text : option (list Z)) (require_thinking_closed : bool)
    (calls : tool_calls) : parsed :=
  parse_wrapped (fun p => dots3_blocks (S (length p)) p) DOTS3_START DOTS3_END text require_thinking_closed calls.

(** ** Dispatch *)
Definition K2_THINK_START : list Z := bs "<ifm|think>".
Definition K2_THINK_END : list Z := bs "</ifm|think>".

(** The K2 case of parse_generated_message_ex_for_model. *)
Definition parse_k2_generated_message (text : option (list Z)) (require_thinking_closed : bool)
    (calls : tool_calls) : parsed :=
  let t := default [] text in
  let skipped := if starts_with t K2_THINK_START then blen K2_THINK_START else 0 in
  match strstr t K2_THINK_END with
  | None => if require_thinking_closed then Parsed [] (Some (zdrop skipped t)) calls else Parsed t None calls
  | Some e => Parsed (zdrop (e + blen K2_THINK_END) t) (Some (ztake (e - skipped) (zdrop skipped t))) calls
  end.

(** parse_generated_message_ex_for_model *)
Definition parse_generated_message_ex_for_model (syntax : server_model_syntax) (text : option (list Z))
    (require_thinking_closed : bool) (f : chat_format) (orders : option (list tool_schema_order))
    (calls : tool_calls) : parsed :=
  match syntax with
  | SYNTAX_MOTIF3 | SYNTAX_EXAONE => parse_hermes_generated_message_ex text require_thinking_closed calls
  | SYNTAX_DOTS3 => parse_dots3_generated_message_ex text require_thinking_closed calls
  | SYNTAX_K2_HORIZON => parse_k2_generated_message text require_thinking_closed calls
  | _ => parse_generated_message_ex_format text require_thinking_closed f orders calls
  end.
