(* ===== verification/ToolTotal.v ===== *)
(** * The message parsers return (ds4_server.c)

    Every loop of the generated-message parsers consumes a byte per turn, so the
    fuel they are given, the length of the text, is enough: no parser ends out of
    fuel, whatever the text. *)

From S2P Require Import Prelude Json Text Stream ToolText ToolParse ToolHermes.

(** ** How far the searches move *)
Lemma zdrop_length {A} n (l : list A) : length (zdrop n l) = (length l - Z.to_nat n)%nat.
Proof. unfold zdrop. by rewrite length_drop. Qed.

Lemma skip_ws_length p : (length (skip_ascii_ws p) <= length p)%nat.
Proof.
  unfold skip_ascii_ws. destruct (span isspace p) as [a b] eqn:E. apply span_split in E as ->.
  rewrite length_app. cbn. lia.
Qed.

Lemma starts_length p t : starts_with p t = true -> (length t <= length p)%nat.
Proof. intros [b ->]%starts_with_spec. rewrite length_app. lia. Qed.

Lemma strstr_length p t i : strstr p t = Some i -> 0 <= i /\ (Z.to_nat i + length t <= length p)%nat.
Proof. intros [[H1 H2]%occurs_bounds _]%strstr_Some. unfold blen in *. lia. Qed.

Lemma any3_length p t0 t1 t2 t : dsml_match_any3 p t0 t1 t2 = Some t ->
  (length t <= length p)%nat /\ t ∈ [t0; t1; t2].
Proof.
  unfold dsml_match_any3.
  destruct (starts_with p t0) eqn:E0; [intros [= <-]; split; [by apply starts_length|set_solver]|].
  destruct (starts_with p t1) eqn:E1; [intros [= <-]; split; [by apply starts_length|set_solver]|].
  destruct (starts_with p t2) eqn:E2; [intros [= <-]; split; [by apply starts_length|set_solver]|]. done.
Qed.

Lemma find3_length p t0 t1 t2 e t : dsml_find_earliest3 p t0 t1 t2 = Some (e, t) ->
  strstr p t = Some e /\ t ∈ [t0; t1; t2].
Proof.
  unfold dsml_find_earliest3. cbn [fold_left].
  destruct (strstr p t0) as [i|] eqn:E0; destruct (strstr p t1) as [j|] eqn:E1;
    destruct (strstr p t2) as [k|] eqn:E2; repeat case_match; intros; simplify_eq;
    (split; [done|set_solver]).
Qed.

Lemma blen_nat {A} (l : list A) : Z.to_nat (blen l) = length l.
Proof. unfold blen. lia. Qed.

(** Gathers what the searches of the context say about lengths. *)
Ltac lengths :=
  repeat match goal with
  | H : strchr ?p _ = Some _ |- _ => apply strstr_length in H as [? ?]
  | H : strstr ?p _ = Some _ |- _ => apply strstr_length in H as [? ?]
  | H : dsml_match_any3 _ _ _ _ = Some _ |- _ => apply any3_length in H as [? _]
  | H : dsml_find_earliest3 _ _ _ _ = Some (_, _) |- _ => apply find3_length in H as [H ?]
  | H : starts_with _ _ = true |- _ => apply starts_length in H
  | H : context [length (zdrop _ _)] |- _ => rewrite zdrop_length in H
  | H : context [Z.to_nat (blen _)] |- _ => rewrite blen_nat in H
  end;
  rewrite ?zdrop_length, ?blen_nat; cbn [length] in *.

Ltac shorter_ws :=
  repeat match goal with
  | |- context [skip_ascii_ws ?p] =>
      lazymatch goal with
      | _ : (length (skip_ascii_ws p) <= length p)%nat |- _ => fail
      | _ => pose proof (skip_ws_length p)
      end
  | H : context [skip_ascii_ws ?p] |- _ =>
      lazymatch goal with
      | _ : (length (skip_ascii_ws p) <= length p)%nat |- _ => fail
      | _ => pose proof (skip_ws_length p)
      end
  end.

Lemma pos_length (l : list Z) : l <> [] -> (0 < length l)%nat.
Proof. destruct l; cbn; [done|lia]. Qed.

Lemma solar_arg_length : length SOLAR_TOOL_ARG_START = 18%nat. Proof. done. Qed.
Lemma solar_call_length : length SOLAR_TOOL_CALL_START = 19%nat. Proof. done. Qed.

(** ** DSML *)
Lemma leaf_shrinks p ps pe out q o : pe <> [] -> dsml_parse_leaf_param_json p ps pe out = Some (q, o) ->
  (length q < length p)%nat.
Proof.
  intros Hpe%pos_length. unfold dsml_parse_leaf_param_json.
  destruct (starts_with p ps); [|done]. cbn [negb].
  destruct (strchr p (ch ">")) as [t|] eqn:Et; [|done].
  destruct (dsml_attr _ _); [|done].
  destruct (strstr (zdrop (t + 1) p) pe) as [e|] eqn:Ee; [|done].
  destruct (dsml_value _ _). intros [= <- <-]. lengths. unfold blen in *. lia.
Qed.

Lemma nested_total ps pe : pe <> [] -> forall fuel p m any, (length p < fuel)%nat ->
  exists r, nested_loop fuel p ps pe m any = r /\ r <> Timeout /\
    (forall q m' b, r = Ok (q, m', b) -> (length q <= length p)%nat).
Proof.
  intros Hpe. induction fuel as [|fuel IH]; intros p m any Hf; [lia|]. cbn [nested_loop].
  pose proof (skip_ws_length p).
  destruct (starts_with (skip_ascii_ws p) ps) eqn:Es; cbn [negb].
  - destruct (dsml_parse_leaf_param_json (skip_ascii_ws p) ps pe m) as [[q o]|] eqn:El.
    + apply leaf_shrinks in El; [|done]. destruct (IH q o true) as (r & -> & Hr & Hq); [lia|].
      eexists; split; [done|split; [done|]]. intros. specialize (Hq _ _ _ H0). lia.
    + eexists; split; [done|split; [done|done]].
  - eexists; split; [done|split; [done|]]. by intros ? ? ? [= <- <- <-].
Qed.

Lemma nested_object_total p ps pe out : pe <> [] ->
  dsml_parse_nested_params_object p ps pe out <> Timeout /\
  (forall q o, dsml_parse_nested_params_object p ps pe out = Ok (q, o) -> (length q <= length p)%nat).
Proof.
  intros Hpe. unfold dsml_parse_nested_params_object.
  destruct (nested_total ps pe Hpe (S (length p)) p [] false) as (r & -> & Hr & Hq); [lia|].
  destruct r as [[[q m] [|]]| |]; split; try done. intros ? ? [= <- <-]. by eapply Hq.
Qed.

Lemma end_tags_ne t : t ∈ [PARAM_END; PARAM_END_SHORT; bs "</parameter>"] -> t <> [].
Proof. intros Ht ->. rewrite !elem_of_cons, elem_of_nil in Ht. by destruct Ht as [|[|[|]]]. Qed.

Lemma nested_end_ne t : nested_end t <> [].
Proof. unfold nested_end. by repeat case_match. Qed.

Lemma dsml_params_total : forall fuel p args, (length p < fuel)%nat ->
  dsml_params fuel p args <> Timeout /\
  (forall q a, dsml_params fuel p args = Ok (q, a) -> (length q <= length p)%nat).
Proof.
  induction fuel as [|fuel IH]; intros p args Hf; [lia|]. cbn [dsml_params].
  pose proof (skip_ws_length p). set (s := skip_ascii_ws p) in *.
  destruct (any_invoke_end s) as [tag|] eqn:Etag.
  { split; [done|]. intros q a [= <- <-]. unfold any_invoke_end in Etag. lengths. lia. }
  destruct (negb _); [done|]. destruct (strchr s (ch ">")) as [t|] eqn:Et; [|done].
  destruct (dsml_attr _ _) as [nm|]; [|done]. set (rest := zdrop (t + 1) s).
  assert (Hrest : (length rest < length s)%nat) by (subst rest; lengths; lia).
  assert (IH' : forall q a, (length q <= length rest)%nat -> dsml_params fuel q a <> Timeout /\
    (forall q' a', dsml_params fuel q a = Ok (q', a') -> (length q' <= length p)%nat)).
  { intros q a Hq. destruct (IH q a) as [H1 H2]; [lia|]. split; [done|]. intros ? ? HH. apply H2 in HH. lia. }
  assert (Hflat : forall st,
    (let r := match dsml_find_earliest3 rest PARAM_END PARAM_END_SHORT (bs "</parameter>") with
    | None => Bad
    | Some (e, end_tag) =>
        let '(value, type) := dsml_value (ztake e rest) st in
        dsml_params fuel (zdrop (e + blen end_tag) rest) (tool_call_json_args_add args (Some nm) value type)
    end in r <> Timeout /\ forall q a, r = Ok (q, a) -> (length q <= length p)%nat)).
  { intros st. destruct (dsml_find_earliest3 _ _ _ _) as [[e et]|] eqn:Ee; cbn zeta; [|done].
    destruct (dsml_value _ _). apply IH'. lengths. lia. }
  destruct (dsml_attr (ztake (t + 1) s) (bs "string")) as [st|]; [apply Hflat|].
  destruct (any_param_start (skip_ascii_ws rest)) as [nt|]; [|apply Hflat].
  pose proof (nested_object_total rest nt (nested_end nt) [] (nested_end_ne nt)) as [Hn1 Hn2].
  destruct (dsml_parse_nested_params_object _ _ _ _) as [[q nested]| |]; [|done|done].
  specialize (Hn2 _ _ eq_refl). pose proof (skip_ws_length q). apply IH'.
  destruct (any_param_end _) as [tag|]; [rewrite zdrop_length|]; lia.
Qed.

Lemma dsml_calls_total : forall fuel p calls, (length p < fuel)%nat -> (dsml_calls fuel p calls).2 <> Timeout.
Proof.
  induction fuel as [|fuel IH]; intros p calls Hf; [lia|]. cbn [dsml_calls].
  pose proof (skip_ws_length p). set (s := skip_ascii_ws p) in *.
  destruct (any_block_end s); [done|]. destruct (negb _); [done|].
  destruct (strchr s (ch ">")) as [t|] eqn:Et; [|done].
  destruct (dsml_attr _ _) as [nm|]; [|done].
  assert (Hr : (length (zdrop (t + 1) s) < length s)%nat) by (lengths; lia).
  destruct (dsml_params_total (S (length s)) (zdrop (t + 1) s) []) as [H1 H2]; [lia|].
  destruct (dsml_params _ _ _) as [[q a]| |]; [|done|done].
  specialize (H2 _ _ eq_refl). apply IH. lia.
Qed.

Lemma parsed_of_fuel cr calls : parsed_of cr calls <> OutOfFuel.
Proof. done. Qed.

(** Every parser ends in its call loop, or before it. *)
Ltac by_loop H :=
  repeat case_match; try done; simplify_eq;
  match goal with E : _ = (_, Timeout) |- _ => exfalso; eapply H; [|rewrite E; reflexivity]; lia end.

Lemma dsml_total text closed calls : parse_dsml_generated_message text closed calls <> OutOfFuel.
Proof. unfold parse_dsml_generated_message. by_loop dsml_calls_total. Qed.

(** ** Solar and Qwen *)
Lemma span_length f p : (length (span f p).2 <= length p)%nat.
Proof. destruct (span f p) as [a b] eqn:E. apply span_split in E as ->. rewrite length_app. cbn. lia. Qed.

Lemma skip_byte_length c p : (length (skip_byte c p) <= length p)%nat.
Proof. destruct p as [|d r]; cbn; [lia|]. destruct (d =? c); cbn; lia. Qed.

Lemma solar_args_total order : forall fuel p args, (length p < fuel)%nat ->
  solar_args fuel order p args <> Timeout /\
  (forall q a, solar_args fuel order p args = Ok (q, a) -> (length q <= length p)%nat).
Proof.
  induction fuel as [|fuel IH]; intros p args Hf; [lia|]. cbn [solar_args].
  destruct p as [|c r]; [done|]. set (p := c :: r) in *. clearbody p.
  pose proof (span_length is_crlf p). set (s := (span is_crlf p).2) in *.
  destruct (starts_with s SOLAR_TOOL_CALL_END) eqn:E.
  { split; [done|]. intros q a [= <- <-]. lengths. lia. }
  destruct (starts_with s SOLAR_TOOL_ARG_START) eqn:E1; [|done]. cbn [negb].
  destruct (strstr _ SOLAR_TOOL_ARG_VALUE) as [m|] eqn:Em; [|done].
  destruct (strstr _ SOLAR_TOOL_ARG_END) as [e|] eqn:Ee; [|done].
  destruct (trim_ascii_span_dup _) as [|x y]; [done|].
  pose proof solar_arg_length.
  match goal with |- context [solar_args fuel order ?q ?a] => destruct (IH q a) as [H1 H2] end.
  { lengths. lia. }
  split; [done|]. intros q a HH%H2. lengths. lia.
Qed.

Lemma solar_calls_total orders : forall fuel p calls, (length p < fuel)%nat ->
  (solar_calls fuel orders p calls).2 <> Timeout.
Proof.
  induction fuel as [|fuel IH]; intros p calls Hf; [lia|]. cbn [solar_calls].
  destruct (starts_with p SOLAR_TOOL_CALL_START) eqn:E; [|done]. cbn [negb].
  destruct (strchr _ 10) as [e|] eqn:Ee; [|done]. destruct (blen _ =? 0); [done|].
  set (q := zdrop (e + 1) _). assert (Hq : (length q < length p)%nat).
  { pose proof solar_call_length. subst q. lengths. lia. }
  destruct (solar_args_total (tool_schema_orders_find orders
    (Some (trim_ascii_span_dup (ztake e (zdrop (blen SOLAR_TOOL_CALL_START) p))))) (S (length q)) q []) as [H1 H2]; [lia|].
  destruct (solar_args _ _ _ _) as [[q' a]| |]; [|done|done]. specialize (H2 _ _ eq_refl).
  destruct (negb _); [done|]. apply IH. pose proof (skip_ws_length q'). lia.
Qed.

Lemma solar_total text closed orders calls : parse_solar_generated_message text closed orders calls <> OutOfFuel.
Proof. unfold parse_solar_generated_message. by_loop solar_calls_total. Qed.

Lemma qwen_params_total order : forall fuel p args, (length p < fuel)%nat ->
  qwen_params fuel order p args <> Timeout /\
  (forall q a, qwen_params fuel order p args = Ok (q, a) -> (length q <= length p)%nat).
Proof.
  induction fuel as [|fuel IH]; intros p args Hf; [lia|]. cbn [qwen_params].
  destruct p as [|c r]; [done|]. set (p := c :: r) in *. clearbody p.
  pose proof (skip_ws_length p). set (s := skip_ascii_ws p) in *.
  destruct (starts_with s (bs "</function>")) eqn:E.
  { split; [done|]. intros q a [= <- <-]. rewrite zdrop_length. lia. }
  destruct (starts_with s (bs "<parameter=")) eqn:E1; [|done]. cbn [negb].
  destruct (strchr _ (ch ">")) as [m|] eqn:Em; [|done].
  set (k := skip_byte 10 _). assert (Hk : (length k < length s)%nat).
  { pose proof (skip_byte_length 13 (zdrop (m + 1) (zdrop 11 s))).
    pose proof (skip_byte_length 10 (skip_byte 13 (zdrop (m + 1) (zdrop 11 s)))). fold k in H1.
    lengths. lia. }
  destruct (strstr k (bs "</parameter>")) as [e|] eqn:Ee; [|done].
  destruct (trim_ascii_span_dup _) as [|x y]; [done|].
  match goal with |- context [qwen_params fuel order ?q ?a] => destruct (IH q a) as [H1 H2] end.
  { rewrite zdrop_length. lia. }
  split; [done|]. intros q a HH%H2. rewrite zdrop_length in HH. lia.
Qed.

Lemma qwen_calls_total orders : forall fuel p calls, (length p < fuel)%nat ->
  (qwen_calls fuel orders p calls).2 <> Timeout.
Proof.
  induction fuel as [|fuel IH]; intros p calls Hf; [lia|]. cbn [qwen_calls].
  set (s := skip_ascii_ws _). assert (Hs : (length s <= length p)%nat).
  { subst s. etransitivity; [apply skip_ws_length|]. rewrite zdrop_length. lia. }
  destruct (starts_with s (bs "<function=")) eqn:E; [|done]. cbn [negb].
  destruct (strchr _ (ch ">")) as [e|] eqn:Ee; [|done]. destruct (blen _ =? 0); [done|].
  set (q := zdrop (e + 1) _). assert (Hq : (length q < length p)%nat).
  { subst q. lengths. lia. }
  destruct (qwen_params_total (tool_schema_orders_find orders
    (Some (trim_ascii_span_dup (ztake e (zdrop 10 s))))) (S (length q)) q []) as [H1 H2]; [lia|].
  destruct (qwen_params _ _ _ _) as [[q' a]| |]; [|done|done]. specialize (H2 _ _ eq_refl).
  destruct (starts_with _ QWEN_TOOL_CALL_END) eqn:E2; [|done]. cbn [negb].
  destruct (negb _); [done|]. apply IH. shorter_ws. lengths. shorter_ws. lia.
Qed.

Lemma qwen_total text closed orders calls : parse_qwen_generated_message text closed orders calls <> OutOfFuel.
Proof. unfold parse_qwen_generated_message. by_loop qwen_calls_total. Qed.

(** ** Hermes *)
Lemma hermes_members_total : forall fuel p tc, (length p < fuel)%nat -> hermes_members fuel p tc <> Timeout.
Proof.
  induction fuel as [|fuel IH]; intros p tc Hf; [lia|]. cbn [hermes_members].
  destruct p as [|c r]; [done|]. destruct (c =? ch "}"); [done|].
  destruct (string_ (c :: r)) as [[k q]|] eqn:Es; [|done]. apply string_eats, eats_length in Es.
  pose proof (ws_length q). destruct (ws q) as [|d q'] eqn:Ew; [done|].
  destruct (negb _); [done|]. cbn [length] in *.
  assert (Hstep : forall o : option (list Z * tool_call),
    (forall q2 tc2, o = Some (q2, tc2) -> (length q2 <= length q')%nat) ->
    match o with None => Bad | Some (p, tc) => hermes_members fuel (ws (comma (ws p))) tc end <> Timeout).
  { intros [[q2 tc2]|] Ho; [|done]. specialize (Ho _ _ eq_refl). apply IH.
    pose proof (ws_length (comma (ws q2))). pose proof (eats_length _ _ _ (comma_eats (ws q2))).
    pose proof (ws_length q2). lia. }
  apply Hstep. intros q2 tc2.
  unfold json_string_replace, json_raw_value_replace, raw_value.
  destruct (streq k _); [|destruct (streq k _); [|destruct (streq k _)]].
  - destruct (string_ q') as [[s q3]|] eqn:E; [|done]. intros [= <- <-].
    apply string_eats, eats_length in E. lia.
  - destruct (skip (ws q')) as [q3|] eqn:E; [|done]. intros [= <- <-].
    apply skip_value_eats, eats_length in E. pose proof (ws_length q'). lia.
  - destruct (string_ q') as [[s q3]|] eqn:E; [|done]. intros [= <- <-].
    apply string_eats, eats_length in E. lia.
  - destruct (skip q') as [q3|] eqn:E; [|done]. intros [= <- <-].
    apply skip_value_eats, eats_length in E. lia.
Qed.

Lemma hermes_json_total json : parse_hermes_tool_call_json json <> Timeout.
Proof.
  unfold parse_hermes_tool_call_json. destruct (ws _) as [|c p]; [done|]. destruct (negb _); [done|].
  pose proof (hermes_members_total (S (length p)) (ws p) (Call None None None)) as H.
  pose proof (ws_length p). destruct (hermes_members _ _ _) as [[q tc]| |]; [|done|].
  - repeat case_match; done.
  - exfalso. apply H; [lia|done].
Qed.

Lemma hermes_calls_total : forall fuel p calls, (length p < fuel)%nat -> (hermes_calls fuel p calls).2 <> Timeout.
Proof.
  induction fuel as [|fuel IH]; intros p calls Hf; [lia|]. cbn [hermes_calls].
  pose proof (skip_ws_length p). set (s := skip_ascii_ws p) in *.
  destruct (starts_with s QWEN_TOOL_CALL_START) eqn:E; [|done]. cbn [negb].
  destruct (strstr _ QWEN_TOOL_CALL_END) as [close|] eqn:Ec; [|done].
  pose proof (hermes_json_total (Some (ztake close (zdrop (blen QWEN_TOOL_CALL_START) s)))) as Hj.
  destruct (parse_hermes_tool_call_json _) as [tc| |]; [|done|done]. apply IH.
  assert (length QWEN_TOOL_CALL_START = 11%nat) by done. lengths. lia.
Qed.

(** ** dots3 *)
Lemma strstr_from_bounds s i n k : 0 <= i -> n <> [] -> strstr_from s i n = Some k ->
  i <= k /\ k + blen n <= blen s.
Proof.
  intros Hi Hn%pos_length. unfold strstr_from. destruct (strstr (zdrop i s) n) as [j|] eqn:E; [|done]. cbn. intros [= <-].
  lengths. unfold blen. lia.
Qed.

Lemma dots3_params_total body body_end : forall fuel p args n, 0 <= p -> p <= blen body + 2 ->
  (Z.to_nat (blen body + 2 - p) < fuel)%nat ->
  exists a, dots3_params fuel body p body_end args n = Ok a.
Proof.
  induction fuel as [|fuel IH]; intros p args n Hp Hb Hf; [lia|]. cbn [dots3_params].
  destruct (strstr_from body p _) as [o|] eqn:Eo; [|by eexists].
  apply strstr_from_bounds in Eo as [Ho1 Ho2]; [|done|done].
  change (blen (bs "<parameter name=" ++ dquote)) with 17 in *.
  destruct (body_end <=? o); [by eexists|].
  destruct (strstr_from body (o + 17) dquote) as [ke|] eqn:Ek; [|by eexists].
  apply strstr_from_bounds in Ek as [Hk1 Hk2]; [|lia|done].
  destruct (body_end <=? ke); [by eexists|].
  set (v1 := if at_byte body (ke + 1) _ then _ else _). assert (Hv1 : 0 <= v1) by (subst v1; case_match; lia).
  set (v2 := if at_byte body v1 _ then _ else _). assert (Hv2 : ke + 1 <= v2).
  { subst v2 v1. repeat case_match; lia. }
  destruct (strstr_from body v2 _) as [cl|] eqn:Ec; [|by eexists].
  apply strstr_from_bounds in Ec as [Hc1 Hc2]; [|lia|done].
  change (blen (bs "</parameter>")) with 12 in *.
  destruct (body_end <? cl); [by eexists|]. apply IH; lia.
Qed.

Lemma dots3_invoke_total body body_end : parse_dots3_invoke body body_end <> Timeout.
Proof.
  unfold parse_dots3_invoke. destruct (strstr body _) as [p|] eqn:E; [|done]. lengths.
  destruct (body_end <=? p); [done|]. change (blen (bs "<invoke name=" ++ dquote)) with 14 in *.
  change (length (bs "<invoke name=" ++ dquote)) with 14%nat in *.
  destruct (strstr_from _ _ _) as [ne|] eqn:En; [|done]. apply strstr_from_bounds in En as [H1 H2]; [|lia|done].
  change (blen dquote) with 1 in *. destruct (body_end <=? ne); [done|].
  set (q := if at_byte _ _ _ then _ else _). assert (Hq : 14 <= q <= blen body + 1) by (subst q; case_match; lia).
  destruct (dots3_params_total body body_end (S (length body)) q [] 0) as [a ->]; [lia|lia|unfold blen in *; lia|].
  by case_match.
Qed.

(** A match further on: the text at [next] starts with [n], so not with [m]. *)
Lemma strstr_from_at s i n k : 0 <= i -> strstr_from s i n = Some k -> starts_with (zdrop k s) n = true.
Proof.
  intros Hi. unfold strstr_from. destruct (strstr (zdrop i s) n) as [j|] eqn:E; [|done]. cbn. intros [= <-].
  pose proof (strstr_length _ _ _ E) as [Hj Hl].
  apply strstr_Some in E as [(a & b & Ed & Ha) _]. apply starts_with_spec. exists b.
  unfold zdrop in *. rewrite Z2Nat.inj_add by lia. rewrite <- drop_drop, Ed.
  apply drop_app_length'. unfold blen in Ha. lia.
Qed.

Lemma strstr_from_past s k n m j : 0 <= k -> starts_with (zdrop k s) n = true ->
  (forall r, starts_with (n ++ r) m = false) -> m <> [] -> strstr_from s k m = Some j -> k < j.
Proof.
  intros Hk [r Er]%starts_with_spec Hno Hm E. pose proof (strstr_from_bounds _ _ _ _ Hk Hm E).
  destruct (decide (j = k)) as [->|]; [exfalso|lia].
  apply strstr_from_at in E; [|done]. by rewrite Er, Hno in E.
Qed.

Lemma dots3_invokes_total p close : close <= blen p -> forall fuel i calls, 0 <= i ->
  (Z.to_nat (close - i) < fuel)%nat -> (dots3_invokes fuel p i close calls).2 <> Timeout.
Proof.
  intros Hclose. induction fuel as [|fuel IH]; intros i calls Hi Hf; [lia|]. cbn [dots3_invokes].
  destruct (close <=? i) eqn:Eci; [done|].
  destruct (strstr_from p i _) as [nx|] eqn:En; [|done].
  pose proof (strstr_from_at _ _ _ _ Hi En) as Hat.
  apply strstr_from_bounds in En as [Hn1 Hn2]; [|done|done].
  destruct (close <=? nx) eqn:Ecn; [done|].
  pose proof (dots3_invoke_total (zdrop nx p)) as Hinv.
  set (e := match strstr_from p nx _ with None => _ | Some _ => _ end).
  assert (He : nx < e).
  { subst e. destruct (strstr_from p nx _) as [k|] eqn:Ek; [|lia].
    apply (strstr_from_past p nx (bs "<invoke name=" ++ dquote)) in Ek; [case_match; lia|lia|done|done|done]. }
  specialize (Hinv (e - nx)). destruct (parse_dots3_invoke _ _) as [tc| |]; [|done|done].
  apply IH; [lia|]. lia.
Qed.

Lemma dots3_blocks_total : forall fuel p calls, (length p < fuel)%nat -> (dots3_blocks fuel p calls).2 <> Timeout.
Proof.
  induction fuel as [|fuel IH]; intros p calls Hf; [lia|]. cbn [dots3_blocks].
  pose proof (skip_ws_length p). set (s := skip_ascii_ws p) in *.
  destruct (starts_with s DOTS3_START) eqn:E; [|done]. cbn [negb]. set (q := zdrop _ s).
  assert (Hq : (length q < length s)%nat).
  { assert (length DOTS3_START = 20%nat) by done. subst q. lengths. lia. }
  destruct (strstr q DOTS3_END) as [close|] eqn:Ec; [|done].
  pose proof (strstr_length _ _ _ Ec) as [Hc1 Hc2].
  pose proof (dots3_invokes_total q close) as Hi.
  specialize (Hi ltac:(unfold blen; lia) (S (length q)) 0 calls ltac:(lia) ltac:(lia)).
  destruct (dots3_invokes _ _ _ _ _) as [calls' [u| |]]; [|done|done]. apply IH. lengths. lia.
Qed.

Lemma wrapped_total f ts te text closed calls : (forall p c, (f p c).2 <> Timeout) ->
  parse_wrapped f ts te text closed calls <> OutOfFuel.
Proof.
  intros Hf. unfold parse_wrapped. repeat case_match; try done.
  match goal with E : f ?p ?c = (_, Timeout) |- _ => specialize (Hf p c); by rewrite E in Hf end.
Qed.

(** whatever text a model generates, every parser of the server returns:
    each turn of each loop consumes part of the text, so the length of the text is
    enough fuel for all of them. *)
Theorem parse_returns syntax text closed f orders calls :
  parse_generated_message_ex_for_model syntax text closed f orders calls <> OutOfFuel.
Proof.
  assert (Hd : parse_generated_message_ex_format text closed f orders calls <> OutOfFuel).
  { destruct f; [apply dsml_total|apply solar_total|apply dsml_total|apply qwen_total]. }
  destruct syntax; cbn; try done.
  - apply wrapped_total. intros. apply hermes_calls_total. lia.
  - apply wrapped_total. intros. apply hermes_calls_total. lia.
  - apply wrapped_total. intros. apply dots3_blocks_total. lia.
  - unfold parse_k2_generated_message. by repeat case_match.
Qed.
