(* ===== verification/ToolEscape.v ===== *)
(** * The escapes of tool text (ds4_server.c)

    What the escapes of ToolText.v protect, and that the parser's inverse undoes
    them. *)

From S2P Require Import Prelude Json JsonText Text Stream ToolText.

(** ** Attribute values *)
Lemma unescape_plain c r : c <> ch "&" -> unescape_loop (c :: r) 0 = c :: unescape_loop r 0.
Proof. intros H. cbn [unescape_loop]. destruct (Z.eqb_spec c (ch "&")); [done|]. done. Qed.

Lemma unescape_attr_byte c r : unescape_loop (attr_byte c ++ r) 0 = c :: unescape_loop r 0.
Proof.
  unfold attr_byte.
  destruct (Z.eqb_spec c (ch "&")) as [->|H]; [reflexivity|].
  destruct (Z.eqb_spec c (ch "<")) as [->|]; [reflexivity|].
  destruct (Z.eqb_spec c (ch ">")) as [->|]; [reflexivity|].
  destruct (Z.eqb_spec c 34) as [->|]; [reflexivity|]. by apply unescape_plain.
Qed.

Lemma unescape_attr s r : unescape_loop (concat (map attr_byte s) ++ r) 0 = s ++ unescape_loop r 0.
Proof.
  induction s as [|c s IH]; [done|]. cbn [map concat]. by rewrite <- app_assoc, unescape_attr_byte, IH.
Qed.

Definition attr_safe (c : Z) : bool := negb (c =? 34) && negb (c =? ch "<") && negb (c =? ch ">").

Lemma attr_byte_safe c : forallb attr_safe (attr_byte c) = true.
Proof.
  unfold attr_byte. destruct (c =? ch "&"); [done|].
  destruct (c =? ch "<") eqn:E1; [done|]. destruct (c =? ch ">") eqn:E2; [done|].
  destruct (c =? 34) eqn:E3; [done|]. cbn [forallb]. unfold attr_safe. by rewrite E1, E2, E3.
Qed.

Lemma attr_escaped s : append_dsml_attr_escaped (Some s) = concat (map attr_byte s). Proof. done. Qed.

Lemma attr_bytes_safe s : forallb attr_safe (append_dsml_attr_escaped (Some s)) = true.
Proof.
  rewrite attr_escaped. induction s as [|a s IH]; [done|].
  change (concat (map attr_byte (a :: s))) with (attr_byte a ++ concat (map attr_byte s)).
  by rewrite forallb_app, attr_byte_safe, IH.
Qed.

Lemma attr_not_in s c : attr_safe c = false -> c ∉ append_dsml_attr_escaped (Some s).
Proof.
  intros Hc Hin. pose proof (attr_bytes_safe s) as H. rewrite forallb_forall in H.
  apply list_elem_of_In in Hin. apply H in Hin. congruence.
Qed.

Lemma attr_byte_last c x y d : x ++ attr_byte c = y ++ [d] -> d <> ch ";" -> c = d /\ x = y.
Proof.
  intros E Hd. unfold attr_byte in E.
  repeat match type of E with context [if ?b then _ else _] => destruct b end.
  5: { by apply app_inj_tail in E as [-> ->]. }
  all: exfalso; apply Hd; apply (f_equal last) in E; rewrite last_snoc, last_app in E; cbn in E;
    injection E as E; by rewrite <- E.
Qed.

(** An escaped text ends in a word without semicolons only if the text does. *)
Lemma attr_suffix w s x : Forall (fun c => c <> ch ";") w ->
  concat (map attr_byte s) = x ++ w -> exists y, s = y ++ w.
Proof.
  revert s x. induction w as [|d w IH] using rev_ind; intros s x Hw E; [by exists s; rewrite app_nil_r|].
  apply Forall_app in Hw as [Hw Hd]. inversion Hd as [|? ? Hd' _]; subst.
  destruct s as [|c s _] using rev_ind.
  { cbn in E. symmetry in E. apply app_eq_nil in E as [_ E]. by apply app_eq_nil in E as [_ ?]. }
  rewrite map_app, concat_app, app_assoc in E. cbn [map concat] in E. rewrite app_nil_r in E.
  apply attr_byte_last in E as [-> E]; [|done].
  apply IH in E as [y ->]; [|done]. exists y. by rewrite <- app_assoc.
Qed.

(** ** Protected texts *)
Section Protect.
(** The end tag, whose first byte [h] is its only one, and a replacement that
    starts with a byte the tag does not have. *)
Context (h : Z) (tag : list Z) (b : Z) (repl : list Z).
Hypothesis Hh : h ∉ tag.
Hypothesis Hb : b ∉ h :: tag.
Hypothesis Hr : h ∉ b :: repl.
Let end_ := h :: tag.
Let repl_ := b :: repl.

Lemma protect_starts x s : b ∉ x -> starts_with (protect end_ repl_ s) x = true -> starts_with s x = true.
Proof using Hh Hb Hr.
  revert x. induction s as [|c s IH]; intros x Hx; [done|]. cbn [protect].
  destruct x as [|d x]; [done|]. destruct (starts_with (c :: s) end_); cbn [app].
  - intros [E _]%andb_true_iff. apply Z.eqb_eq in E as <-. exfalso. apply Hx. set_solver.
  - cbn [starts_with]. destruct (d =? c); cbn [andb]; [|done]. apply IH. set_solver.
Qed.

(** A protected text never holds the end tag. *)
Lemma protect_no_end s i : ~ occurs (protect end_ repl_ s) end_ i.
Proof using Hh Hb Hr.
  revert i. induction s as [|c s IH]; intros i.
  { intros [? Hi]%occurs_bounds. unfold end_ in *. cbn in Hi. rewrite blen_cons, blen_nil in Hi.
    pose proof (blen_nonneg tag). lia. }
  cbn [protect]. destruct (starts_with (c :: s) end_) eqn:E; intros Ho.
  - destruct (Z.le_gt_cases (blen repl_) i).
    { apply occurs_app_ge in Ho; [|done]. by apply IH in Ho. }
    destruct Ho as (x & y & Ex & Hx). symmetry in Ex. apply app_take_eq in Ex; [|unfold blen in *; lia].
    destruct Ex as (e & Er & Ex). unfold repl_, end_ in *. destruct e as [|d e].
    { apply (f_equal (@length Z)) in Er. rewrite length_app in Er. cbn in *. unfold blen in *. cbn in *. lia. }
    injection Ex as -> _. apply Hr. rewrite Er. set_solver.
  - replace i with (1 + (i - 1)) in Ho by lia. cbn [app] in Ho. apply occurs_cons in Ho as [Ho|[_ Ho]]; [by apply IH in Ho|].
    unfold end_ in *. cbn [starts_with] in Ho, E. destruct (h =? c); cbn [andb] in *; [|done].
    apply protect_starts in Ho; [congruence|set_solver].
Qed.

(** A text without the end tag is its own protected text. *)
Lemma protect_id s : (forall i, ~ occurs s end_ i) -> protect end_ repl_ s = s.
Proof using.
  induction s as [|c s IH]; intros H; [done|]. cbn [protect].
  destruct (starts_with (c :: s) end_) eqn:E; [by apply occurs_0, H in E|]. cbn [app].
  rewrite IH; [done|]. intros i Hi. apply (H (1 + i)), occurs_cons. by left.
Qed.

(** Another tag with the same first byte appears only where it was before. *)
Lemma protect_occurs t s i : b ∉ t -> occurs (protect end_ repl_ s) (h :: t) i -> exists j, occurs s (h :: t) j.
Proof using Hh Hb Hr.
  intros Ht. revert i. induction s as [|c s IH]; intros i Ho; [by exists i|]. cbn [protect] in Ho.
  destruct (starts_with (c :: s) end_) eqn:E.
  - destruct (Z.le_gt_cases (blen repl_) i).
    { apply occurs_app_ge in Ho; [|done]. apply IH in Ho as [j Hj]. exists (1 + j). apply occurs_cons. by left. }
    exfalso. destruct Ho as (x & y & Ex & Hx). symmetry in Ex. apply app_take_eq in Ex; [|unfold blen in *; lia].
    destruct Ex as (e & Er & Ex). unfold repl_, end_ in *. destruct e as [|d e].
    { apply (f_equal (@length Z)) in Er. rewrite length_app in Er. cbn in *. unfold blen in *. cbn in *. lia. }
    injection Ex as -> _. apply Hr. rewrite Er. set_solver.
  - replace i with (1 + (i - 1)) in Ho by lia. cbn [app] in Ho. apply occurs_cons in Ho as [Ho|[_ Ho]].
    + apply IH in Ho as [j Hj]. exists (1 + j). apply occurs_cons. by left.
    + exists 0. apply occurs_0. cbn [starts_with] in *. destruct (h =? c); cbn [andb] in *; [|done].
      by apply protect_starts in Ho.
Qed.
End Protect.

(** Membership of a byte in a literal, decided. *)
Lemma not_in_literal c (l : list Z) : forallb (fun d => negb (d =? c)) l = true -> c ∉ l.
Proof. rewrite forallb_forall. intros H Hc%list_elem_of_In. apply H in Hc. lia. Qed.
Ltac tag_side := apply not_in_literal; reflexivity.

(** text inserted into a wrapper never closes it: the result text of a tool
    holds no closing tool-result tag, and neither a string nor a raw JSON
    parameter holds the closing parameter tag. *)
Theorem protected_text_stays_inside s i :
  ~ occurs (append_tool_result_text s) (bs "</tool_result>") i /\
  ~ occurs (append_dsml_parameter_text s) PARAM_END i /\
  ~ occurs (append_dsml_json_literal s) PARAM_END i.
Proof. split; [|split]; apply protect_no_end; tag_side. Qed.

(** ** Parameter texts *)

(** The bytes the parser takes for an escape. *)
Definition entities : list (list Z) := [bs "&amp;"; bs "&lt;"; bs "&gt;"; bs "&quot;"; bs "&apos;"].
Definition no_entity (s : list Z) : Prop := Forall (fun e => forall i, ~ occurs s e i) entities.

Lemma no_entity_cons c s : no_entity (c :: s) -> no_entity s.
Proof.
  unfold no_entity. rewrite !Forall_forall. intros H e He i Hi. apply (H e He (1 + i)), occurs_cons. by left.
Qed.
Lemma no_entity_starts s e : no_entity s -> e ∈ entities -> starts_with s e = false.
Proof.
  unfold no_entity. rewrite Forall_forall. intros H He. specialize (H e He).
  destruct (starts_with s e) eqn:E; [by apply occurs_0, H in E|done].
Qed.

Lemma entity_shape e : e ∈ entities -> exists t, e = ch "&" :: t /\ ch "&" ∉ t.
Proof.
  revert e. apply Forall_forall. unfold entities.
  repeat (apply Forall_cons; split; [eexists; split; [reflexivity|tag_side]|]). apply Forall_nil_2.
Qed.

Lemma unescape_parameter s : no_entity s -> dsml_unescape_text (Some (append_dsml_parameter_text (Some s))) = s.
Proof.
  change (no_entity s -> unescape_loop (protect PARAM_END (bs "&lt;") s) 0 = s).
  induction s as [|c s IH]; intros Hs; [done|]. cbn [protect].
  specialize (IH (no_entity_cons _ _ Hs)).
  destruct (starts_with (c :: s) PARAM_END) eqn:E.
  - assert (c = ch "<") as ->.
    { unfold PARAM_END in E. change (bs "</" ++ ?x) with (ch "<" :: (bs "/" ++ x)) in E. cbn [starts_with] in E.
      destruct (Z.eqb_spec (ch "<") c); done. }
    transitivity (ch "<" :: unescape_loop (protect PARAM_END (bs "&lt;") s) 0); [reflexivity|]. by rewrite IH.
  - cbn [app]. destruct (Z.eqb_spec c (ch "&")) as [->|Hc]; [|by rewrite unescape_plain, IH].
    assert (Hno : forall e, e ∈ entities -> starts_with (ch "&" :: protect PARAM_END (bs "&lt;") s) e = false).
    { intros e He. destruct (starts_with (_ :: _) e) eqn:Es; [|done].
      rewrite <- (no_entity_starts _ e Hs He).
      destruct (entity_shape e He) as (t & -> & Ht). cbn [starts_with] in *. rewrite Z.eqb_refl in *. cbn [andb] in *.
      symmetry. by apply (protect_starts (ch "<") (tl PARAM_END) (ch "&") (tl (bs "&lt;"))); [tag_side..| |]. }
    cbn [unescape_loop]. rewrite Z.eqb_refl. cbn [negb].
    rewrite !Hno by (unfold entities; set_solver). by rewrite IH.
Qed.
