(* ===== verification/ToolRoundtrip.v ===== *)
(** * Rendering and parsing DSML calls (ds4_server.c)

    The block append_dsml_tool_calls_text writes is read back by
    parse_generated_message_ex_format: the same calls, their arguments in one
    canonical spelling, and rendering those calls again gives the same block. *)

From S2P Require Import Prelude Json JsonText Text Stream ToolText ToolParse ToolHermes ToolEscape.

(** ** What an argument becomes *)
Definition pair_text (a : json_arg) : list Z :=
  escape (arg_key a) ++ bs ": " ++ (if is_string a then escape (arg_value a) else arg_value a).
Definition args_body (args : list json_arg) : list Z := separated (bs ", ") (map pair_text args).
Definition args_object (args : list json_arg) : list Z := bs "{" ++ args_body args ++ bs "}".

Definition absent (t s : list Z) : Prop := forall i, ~ occurs s t i.

(** The arguments that survive: a key may not end in [string=], a string may not
    hold what the parser takes for an escape or for the end of the parameter in
    the two spellings the writer does not use, and a value that is not a string is
    a JSON text without an end of the parameter. *)
Record arg_ok (a : json_arg) : Prop := {
  ok_key : cstring (arg_key a);
  ok_suffix : forall x, arg_key a <> x ++ bs "string=";
  ok_unused : used a = false;
  ok_short : absent PARAM_END_SHORT (arg_value a);
  ok_plain : absent (bs "</parameter>") (arg_value a);
  ok_value :
    if is_string a then cstring (arg_value a) /\ no_entity (arg_value a)
    else absent PARAM_END (arg_value a) /\
         exists j, arg_value a = JsonText.text [] j /\ json_okb j = true /\ depth j <= MAX_NESTING /\
                   (forall s, j <> JStr s) }.

(** ** Positions *)
Lemma skip_ws_tag c r : isspace c = false -> skip_ascii_ws (c :: r) = c :: r.
Proof. intros H. unfold skip_ascii_ws. cbn. by rewrite H. Qed.

Lemma skip_ws_newline r : skip_ascii_ws (10 :: r) = skip_ascii_ws r.
Proof. unfold skip_ascii_ws. cbn. by destruct (span isspace r). Qed.

Lemma zdrop_past {A} n (a b : list A) : n = blen a -> zdrop n (a ++ b) = b.
Proof. intros ->. apply zdrop_app. Qed.
Lemma ztake_past {A} n (a b : list A) : n = blen a -> ztake n (a ++ b) = a.
Proof. intros ->. apply ztake_app. Qed.

Lemma ztake_to {A} (a : list A) c b : ztake (blen a + 1) (a ++ c :: b) = a ++ [c].
Proof. rewrite cons_middle, app_assoc. apply ztake_past. by rewrite blen_snoc. Qed.
Lemma zdrop_to {A} (a : list A) c b : zdrop (blen a + 1) (a ++ c :: b) = b.
Proof. rewrite cons_middle, app_assoc. apply zdrop_past. by rewrite blen_snoc. Qed.

Lemma not_suffix (a w : list Z) : drop (length a - length w) a <> w -> forall x, a <> x ++ w.
Proof. intros H x ->. apply H. rewrite length_app. replace (_ + _ - _)%nat with (length x) by lia. apply drop_app_length. Qed.

(** ** Attributes *)
Lemma attr_found tag name i x y : (blen name <= 61) ->
  strstr tag (name ++ [ch "="; 34]) = Some i ->
  zdrop (i + blen (name ++ [ch "="; 34])) tag = x ++ 34 :: y -> 34 ∉ x ->
  dsml_attr tag name = Some (dsml_unescape_text (Some x)).
Proof.
  intros Hl Hs Hz Hx. unfold dsml_attr. rewrite ztake_ge by (rewrite blen_app; cbn; unfold blen in *; cbn; lia).
  cbv zeta. rewrite Hs, Hz, strchr_app by done. by rewrite ztake_app.
Qed.

Lemma attr_name open k y : strstr (open ++ bs " name=" ++ [34]) (bs "name" ++ [ch "="; 34]) = Some (blen open + 1) ->
  dsml_attr (open ++ bs " name=" ++ [34] ++ append_dsml_attr_escaped (Some k) ++ 34 :: y) (bs "name") = Some k.
Proof.
  intros Hs. apply (strstr_app_l _ (append_dsml_attr_escaped (Some k) ++ 34 :: y)) in Hs.
  rewrite <- !app_assoc in Hs.
  rewrite (attr_found _ _ (blen open + 1) (append_dsml_attr_escaped (Some k)) y); [|done|exact Hs| |by apply attr_not_in].
  - f_equal. change (unescape_loop (append_dsml_attr_escaped (Some k)) 0 = k).
    rewrite <- (app_nil_r (append_dsml_attr_escaped (Some k))), attr_escaped, unescape_attr. cbn. apply app_nil_r.
  - rewrite (app_assoc open), (app_assoc (open ++ _)). apply zdrop_past. rewrite !blen_app.
    change (blen (bs " name=")) with 6. change (blen (bs "name")) with 4. unfold blen. cbn. lia.
Qed.

Lemma attr_string k b : (forall x, k <> x ++ bs "string=") -> 34 ∉ b ->
  dsml_attr (PARAM_START ++ bs " name=" ++ [34] ++ append_dsml_attr_escaped (Some k) ++ 34 ::
             bs " string=" ++ [34] ++ b ++ 34 :: [ch ">"]) (bs "string") = Some (dsml_unescape_text (Some b)).
Proof.
  intros Hk Hb.
  set (k' := append_dsml_attr_escaped (Some k)). set (rest := bs " string=" ++ [34] ++ b ++ 34 :: [ch ">"]).
  assert (Hs : strstr rest (bs "string=" ++ [34]) = Some 1).
  { subst rest. rewrite (app_assoc _ [34]). by apply strstr_app_l. }
  assert (Hs2 : strstr (k' ++ 34 :: rest) (bs "string=" ++ [34]) = Some (blen k' + 2)).
  { rewrite strstr_quote, Hs; [cbn; f_equal; lia|tag_side|by apply attr_not_in|].
    intros x Hx. subst k'. rewrite attr_escaped in Hx. apply attr_suffix in Hx as [y ->]; [by apply (Hk y)|].
    apply Forall_forall. intros c Hc ->. revert Hc. apply not_in_literal. reflexivity. }
  set (pre := PARAM_START ++ bs " name=").
  assert (Hs3 : strstr (pre ++ 34 :: (k' ++ 34 :: rest)) (bs "string=" ++ [34]) = Some (blen pre + blen k' + 3)).
  { rewrite strstr_quote, Hs2; [cbn; f_equal; lia|tag_side|tag_side|]. apply not_suffix. by vm_compute. }
  replace (PARAM_START ++ bs " name=" ++ [34] ++ k' ++ 34 :: rest) with (pre ++ 34 :: (k' ++ 34 :: rest))
    by (subst pre; by rewrite <- app_assoc).
  change (bs "string=" ++ [34]) with (bs "string" ++ [ch "="; 34]) in Hs3.
  apply (attr_found _ (bs "string") (blen pre + blen k' + 3) b [ch ">"]); [done|exact Hs3| |done].
  replace (pre ++ 34 :: k' ++ 34 :: rest) with ((pre ++ 34 :: k' ++ 34 :: bs " string=" ++ [34]) ++ b ++ 34 :: [ch ">"]).
  - apply zdrop_past. repeat rewrite ?blen_app, ?blen_cons, ?blen_nil.
    change (blen (bs " string=")) with 8. change (blen (bs "string")) with 6. unfold blen. cbn [length]. lia.
  - subst rest. rewrite <- !app_assoc. cbn. by rewrite <- app_assoc.
Qed.

(** ** One parameter *)
Definition value_text (a : json_arg) : list Z :=
  if is_string a then append_dsml_parameter_text (Some (arg_value a))
  else append_dsml_json_literal (Some (arg_value a)).
Definition type_text (a : json_arg) : list Z := bs (if is_string a then "true" else "false").

(** The tag of a parameter without its closing angle. *)
Definition param_tag (a : json_arg) : list Z :=
  PARAM_START ++ bs " name=" ++ [34] ++ append_dsml_attr_escaped (Some (arg_key a)) ++ 34 ::
  bs " string=" ++ [34] ++ type_text a ++ [34].

Lemma arg_text a rest :
  append_dsml_arg a ++ rest = param_tag a ++ ch ">" :: value_text a ++ PARAM_END ++ 10 :: rest.
Proof.
  unfold append_dsml_arg, param_tag, value_text, type_text. rewrite <- !app_assoc. cbn [app].
  rewrite <- !app_assoc. cbn [app]. rewrite <- !app_assoc. by destruct (is_string a).
Qed.

Lemma arg_attrs a : arg_ok a ->
  dsml_attr (param_tag a ++ [ch ">"]) (bs "name") = Some (arg_key a) /\
  dsml_attr (param_tag a ++ [ch ">"]) (bs "string") = Some (type_text a).
Proof.
  intros H. unfold param_tag. rewrite <- !app_assoc. cbn [app]. rewrite <- !app_assoc. cbn [app]. split.
  - by apply attr_name.
  - rewrite <- !app_assoc. pose proof (attr_string (arg_key a) (type_text a) (ok_suffix _ H)) as Ha. cbn [app] in Ha.
    cbn [app]. rewrite Ha; [|unfold type_text; destruct (is_string a); tag_side].
    unfold type_text. by destruct (is_string a).
Qed.

Lemma param_tag_angle a : ch ">" ∉ param_tag a.
Proof.
  unfold param_tag. repeat (apply not_elem_of_app; split); try tag_side; [by apply attr_not_in|].
  apply not_elem_of_cons; split; [done|]. repeat (apply not_elem_of_app; split); try tag_side.
  unfold type_text. destruct (is_string a); tag_side.
Qed.

(** No spelling of the end tag is in the text of a value. *)
Lemma value_no_end a t : arg_ok a -> t ∈ [PARAM_END; PARAM_END_SHORT; bs "</parameter>"] -> absent t (value_text a).
Proof.
  intros H Ht i Ho. unfold value_text in Ho.
  assert (Hcase : forall repl, (repl = bs "&lt;" \/ repl = bs "\u003c") -> forall u, (u = PARAM_END_SHORT \/ u = bs "</parameter>") ->
    occurs (protect PARAM_END repl (arg_value a)) u i -> exists j, occurs (arg_value a) u j).
  { intros repl Hr u Hu Hocc. destruct Hr as [->| ->].
    - destruct Hu as [->| ->];
        by eapply (protect_occurs (ch "<") (tl PARAM_END) (ch "&") (tl (bs "&lt;"))); [tag_side..| |exact Hocc]; tag_side.
    - destruct Hu as [->| ->];
        by eapply (protect_occurs (ch "<") (tl PARAM_END) (ch "\") (tl (bs "\u003c"))); [tag_side..| |exact Hocc]; tag_side. }
  rewrite !elem_of_cons, elem_of_nil in Ht. destruct Ht as [->|[->|[->|[]]]].
  - destruct (is_string a); [by apply (protect_no_end (ch "<") (tl PARAM_END) (ch "&") (tl (bs "&lt;"))) in Ho; [|tag_side..]|].
    by apply (protect_no_end (ch "<") (tl PARAM_END) (ch "\") (tl (bs "\u003c"))) in Ho; [|tag_side..].
  - assert (exists j, occurs (arg_value a) PARAM_END_SHORT j) as [j Hj]
      by (destruct (is_string a); eapply Hcase; [| |exact Ho| | |exact Ho]; auto).
    by apply (ok_short _ H) in Hj.
  - assert (exists j, occurs (arg_value a) (bs "</parameter>") j) as [j Hj]
      by (destruct (is_string a); eapply Hcase; [| |exact Ho| | |exact Ho]; auto).
    by apply (ok_plain _ H) in Hj.
Qed.

Lemma value_decoded a : arg_ok a ->
  dsml_value (value_text a) (Some (type_text a)) = (Some (arg_value a), Some (type_text a)).
Proof.
  intros H. pose proof (ok_value _ H) as Hv. unfold dsml_value, value_text, type_text.
  destruct (is_string a).
  - destruct Hv as [_ Hv]. change (streq (bs "true") (bs "true")) with true. cbv zeta iota.
    cbn [default]. f_equal. f_equal. by apply unescape_parameter.
  - destruct Hv as [Hv _]. change (streq (default (bs "true") (Some (bs "false"))) (bs "true")) with false. cbv zeta iota.
    f_equal. f_equal. by apply (protect_id (ch "<") (tl PARAM_END) (ch "\") (tl (bs "\u003c"))).
Qed.

(** The buffer after one more argument. *)
Definition grow (args : list Z) (a : json_arg) : list Z :=
  (if blen args =? 0 then args else args ++ bs ", ") ++ pair_text a.

Lemma json_value_text a j : arg_value a = JsonText.text [] j -> json_okb j = true -> depth j <= MAX_NESTING ->
  minify (Some (arg_value a)) = arg_value a /\ arg_value a <> [].
Proof.
  intros -> Hok Hd. split; [|by apply (text_ne [])].
  unfold minify. change (default (bs "null") (Some ?x)) with x. cbv zeta.
  pose proof (raw_value_text [] [] j [] eq_refl eq_refl Hok eq_refl Hd) as Hr. cbn [app] in Hr. rewrite app_nil_r in Hr.
  rewrite Hr. pose proof (minify_text [] eq_refl j Hok []) as Hm. by rewrite !app_nil_r in Hm.
Qed.

Lemma args_add_grow a args : arg_ok a ->
  tool_call_json_args_add args (Some (arg_key a)) (Some (arg_value a)) (Some (type_text a)) = grow args a.
Proof.
  intros H. pose proof (ok_value _ H) as Hv. unfold tool_call_json_args_add, grow, pair_text, type_text.
  f_equal. f_equal. f_equal. destruct (is_string a).
  - by change (same (Some (bs "true")) (bs "true")) with true.
  - change (same (Some (bs "false")) (bs "true")) with false. cbv iota.
    destruct Hv as (_ & j & Ej & Hok & Hd & _). destruct (json_value_text a j Ej Hok Hd) as [Hm Hne].
    change (default (bs "null") (Some (arg_value a))) with (arg_value a). rewrite Hm.
    by destruct (arg_value a).
Qed.

Lemma find_end a rest : arg_ok a ->
  dsml_find_earliest3 (value_text a ++ PARAM_END ++ rest) PARAM_END PARAM_END_SHORT (bs "</parameter>") =
  Some (blen (value_text a), PARAM_END).
Proof.
  intros H. unfold dsml_find_earliest3. cbn [fold_left].
  assert (Hbeh : forall t, (t = PARAM_END_SHORT \/ t = bs "</parameter>") -> forall k,
    strstr (value_text a ++ PARAM_END ++ rest) t = Some k -> blen (value_text a) <= k).
  { intros t Ht k. change (PARAM_END ++ rest) with (ch "<" :: (tl PARAM_END ++ rest)).
    destruct Ht as [-> | ->].
    - apply (strstr_not_before _ (ch "<") _ (tl PARAM_END_SHORT)); [tag_side|]. apply value_no_end; [done|set_solver].
    - apply (strstr_not_before _ (ch "<") _ (tl (bs "</parameter>"))); [tag_side|]. apply value_no_end; [done|set_solver]. }
  assert (Hend : strstr (value_text a ++ PARAM_END ++ rest) PARAM_END = Some (blen (value_text a))).
  { apply (strstr_delim _ (ch "<") (tl PARAM_END)); [tag_side|]. apply value_no_end; [done|set_solver]. }
  rewrite Hend. clear Hend.
  pose proof (Hbeh PARAM_END_SHORT (or_introl eq_refl)) as H1.
  pose proof (Hbeh (bs "</parameter>") (or_intror eq_refl)) as H2. clear Hbeh.
  set (v := blen (value_text a)) in *. clearbody v.
  set (o1 := strstr _ PARAM_END_SHORT) in *. set (o2 := strstr _ (bs "</parameter>")) in *. clearbody o1 o2.
  destruct o1 as [k|]; [specialize (H1 _ eq_refl); destruct (Z.ltb_spec k v); [lia|]|];
    (destruct o2 as [m|]; [specialize (H2 _ eq_refl); destruct (Z.ltb_spec m v); [lia|]|]); reflexivity.
Qed.

Lemma param_step fuel a rest args : arg_ok a ->
  dsml_params (S fuel) (10 :: append_dsml_arg a ++ rest) args = dsml_params fuel (10 :: rest) (grow args a).
Proof.
  intros H. cbn [dsml_params]. rewrite skip_ws_newline.
  replace (skip_ascii_ws (append_dsml_arg a ++ rest)) with (append_dsml_arg a ++ rest) by reflexivity.
  replace (any_invoke_end (append_dsml_arg a ++ rest)) with (@None (list Z)) by reflexivity.
  replace (any_param_start (append_dsml_arg a ++ rest)) with (Some PARAM_START) by reflexivity.
  rewrite bool_decide_true by done. cbn [negb].
  rewrite arg_text, strchr_app by apply param_tag_angle.
  rewrite ztake_to, zdrop_to.
  destruct (arg_attrs a H) as [-> ->]. rewrite find_end by done.
  rewrite ztake_app, value_decoded, args_add_grow by done.
  rewrite app_assoc. rewrite zdrop_past by (by rewrite blen_app). done.
Qed.

Lemma params_read args : forall acc fuel rest, Forall arg_ok args -> (length args < fuel)%nat ->
  dsml_params fuel (10 :: concat (map append_dsml_arg args) ++ INVOKE_END ++ rest) acc =
  Ok (rest, fold_left grow args acc).
Proof.
  induction args as [|a args IH]; intros acc fuel rest Hok Hf.
  - destruct fuel as [|fuel]; [cbn in Hf; lia|]. cbn [map concat app fold_left dsml_params]. rewrite skip_ws_newline.
    replace (skip_ascii_ws (INVOKE_END ++ rest)) with (INVOKE_END ++ rest) by reflexivity.
    replace (any_invoke_end (INVOKE_END ++ rest)) with (Some INVOKE_END) by reflexivity.
    by rewrite zdrop_app.
  - inversion Hok; subst. destruct fuel as [|fuel]; [cbn in Hf; lia|]. cbn [map concat fold_left].
    rewrite <- app_assoc, param_step by done. apply IH; [done|cbn in Hf; lia].
Qed.

Lemma pair_text_ne a : pair_text a <> [].
Proof. done. Qed.

Lemma grow_all args : args <> [] -> forall acc, acc <> [] -> fold_left grow args acc = acc ++ bs ", " ++ args_body args.
Proof.
  induction args as [|a args IH]; [done|]. intros _ acc Hacc. cbn [fold_left].
  assert (Hg : grow acc a = acc ++ bs ", " ++ pair_text a).
  { unfold grow. destruct acc as [|c acc]; [done|]. rewrite blen_cons. pose proof (blen_nonneg acc).
    destruct (Z.eqb_spec (1 + blen acc) 0); [lia|]. by rewrite <- app_assoc. }
  rewrite Hg. destruct args as [|b args]; [done|]. rewrite IH; [|done|by destruct acc].
  unfold args_body. cbn [map separated]. by rewrite <- !app_assoc.
Qed.

Lemma grow_body args : fold_left grow args [] = args_body args.
Proof.
  destruct args as [|a args]; [done|]. cbn [fold_left]. change (grow [] a) with (pair_text a).
  destruct args as [|b args]; [done|]. by rewrite grow_all.
Qed.

(** ** The block *)

(** The arguments the writer prints: those of the JSON object, or the whole text
    as one string where it is not one. *)
Definition dsml_args (tc : tool_call) : list json_arg :=
  match json_args_parse (tc_arguments tc) with
  | Some args => args
  | None => [Arg (bs "arguments") (default [] (tc_arguments tc)) true false]
  end.

(** The call the parser returns for it. *)
Definition canonical (tc : tool_call) : tool_call :=
  Call None (Some (default [] (tc_name tc))) (Some (args_object (dsml_args tc))).

Definition call_ok (tc : tool_call) : Prop := Forall arg_ok (dsml_args tc).

Lemma in_order_all emit args : Forall arg_ok args -> arguments_in_order emit args None = concat (map emit args).
Proof.
  intros H. unfold arguments_in_order. cbn [app]. f_equal. induction H as [|a args Ha _ IH]; [done|].
  cbn [map]. by rewrite (ok_unused _ Ha), IH.
Qed.

Definition call_head (tc : tool_call) : list Z :=
  INVOKE_START ++ bs " name=" ++ [34] ++ append_dsml_attr_escaped (Some (default [] (tc_name tc))) ++ [34].

Lemma call_text tc rest : call_ok tc ->
  dsml_call tc ++ rest = call_head tc ++ ch ">" :: 10 :: concat (map append_dsml_arg (dsml_args tc)) ++
                         INVOKE_END ++ 10 :: rest.
Proof.
  unfold dsml_call, call_head, call_ok, dsml_args, append_dsml_arguments_from_json. intros H.
  destruct (json_args_parse (tc_arguments tc)) as [args|]; cbn [mbind option_bind].
  - rewrite in_order_all by done. rewrite <- !app_assoc. cbn [app]. done.
  - cbn [map concat]. unfold append_dsml_arg. cbn [arg_key arg_value is_string].
    change (append_dsml_attr_escaped (Some (bs "arguments"))) with (bs "arguments").
    change (append_dsml_parameter_text (Some (default [] (tc_arguments tc))))
      with (append_dsml_parameter_text (tc_arguments tc)).
    rewrite <- !app_assoc. cbn [app]. repeat (rewrite <- !app_assoc; cbn [app]). done.
Qed.

Lemma call_head_angle tc : ch ">" ∉ call_head tc.
Proof. unfold call_head. repeat (apply not_elem_of_app; split); try tag_side. by apply attr_not_in. Qed.

Lemma call_name tc : dsml_attr (call_head tc ++ [ch ">"]) (bs "name") = Some (default [] (tc_name tc)).
Proof. unfold call_head. rewrite <- !app_assoc. cbn [app]. by apply attr_name. Qed.

Lemma concat_length {A} (f : A -> list Z) l : (forall x, f x <> []) -> (length l <= length (concat (map f l)))%nat.
Proof.
  intros H. induction l as [|x l IH]; [done|]. cbn. rewrite length_app. specialize (H x).
  destruct (f x); [done|]. cbn. lia.
Qed.

Lemma calls_read l : forall fuel calls rest, Forall call_ok l -> (length l < fuel)%nat ->
  dsml_calls fuel (10 :: concat (map dsml_call l) ++ TOOL_CALLS_END ++ rest) calls =
  (fold_left tool_calls_push (map canonical l) calls, Ok rest).
Proof.
  induction l as [|tc l IH]; intros fuel calls rest Hok Hf.
  - destruct fuel as [|fuel]; [cbn in Hf; lia|]. cbn [map concat app fold_left dsml_calls]. rewrite skip_ws_newline.
    replace (skip_ascii_ws (TOOL_CALLS_END ++ rest)) with (TOOL_CALLS_END ++ rest) by reflexivity.
    replace (any_block_end (TOOL_CALLS_END ++ rest)) with (Some TOOL_CALLS_END) by reflexivity.
    by rewrite zdrop_app.
  - inversion Hok; subst. destruct fuel as [|fuel]; [cbn in Hf; lia|]. cbn [map concat fold_left dsml_calls].
    rewrite <- app_assoc, skip_ws_newline.
    set (tail := concat (map dsml_call l) ++ TOOL_CALLS_END ++ rest).
    replace (skip_ascii_ws (dsml_call tc ++ tail)) with (dsml_call tc ++ tail) by reflexivity.
    replace (any_block_end (dsml_call tc ++ tail)) with (@None (list Z)) by reflexivity.
    replace (any_invoke_start (dsml_call tc ++ tail)) with (Some INVOKE_START) by reflexivity.
    rewrite bool_decide_true by done. cbn [negb].
    rewrite call_text, strchr_app by (done || apply call_head_angle). rewrite ztake_to, zdrop_to, call_name.
    rewrite params_read; [|done|].
    + rewrite grow_body. apply IH; [done|cbn in Hf; lia].
    + repeat (rewrite length_app; cbn [length]). pose proof (concat_length append_dsml_arg (dsml_args tc) ltac:(done)). lia.
Qed.

Lemma push_all l calls : fold_left tool_calls_push l calls = Calls (tcs calls ++ l) (raw_dsml calls) (raw_tool_text calls).
Proof.
  revert calls. induction l as [|tc l IH]; intros calls; cbn [fold_left]; [by destruct calls; rewrite app_nil_r|].
  rewrite IH. cbn. by rewrite <- app_assoc.
Qed.

(** ** Reading the arguments back *)
Lemma text_not_quote j r : json_okb j = true -> (forall s, j <> JStr s) ->
  exists c q, JsonText.text [] j ++ r = c :: q /\ isspace c = false /\ (c =? 34) = false.
Proof.
  intros Hok Hs. destruct j as [l|n|s|l|m]; [| |by destruct (Hs s)| |].
  - destruct l; by eexists _, _.
  - destruct (text_head [] (JNum n) Hok) as (c & q & E & Hc). exists c, (q ++ r). rewrite E. split; [done|].
    cbn in E, Hok. unfold numeral_text, numeral_okb in *. apply andb_true_iff in Hok as [[Hi _]%andb_true_iff _].
    apply digitsb_eq in Hi as [_ (d & i & Ei & Hd)]. rewrite Ei in E.
    destruct (n_neg n); cbn in E; injection E as <- _; [done|]. unfold isdigit, isspace in *. lia.
  - by eexists _, _.
  - by eexists _, _.
Qed.

(** What follows a pair in the object: a comma and the next pair, or the end. *)
Lemma pair_read fuel a tail acc : arg_ok a -> delimited tail = true ->
  (forall c r, tail = c :: r -> isspace c = false) ->
  json_args_loop (S fuel) (pair_text a ++ tail) acc = json_args_loop fuel (ws (comma tail)) (acc ++ [a]).
Proof.
  intros H Hd Hsp. unfold pair_text. rewrite <- !app_assoc. cbn [json_args_loop].
  change (escape (arg_key a) ++ ?x) with (34 :: (concat (map escape_byte (arg_key a)) ++ [34]) ++ x) at 1.
  change (34 =? ch "}") with false. cbv iota.
  rewrite string_escape by apply (ok_key _ H). cbn [app].
  change (ws (bs ": " ++ ?x)) with (ch ":" :: (bs " " ++ x)). cbv iota.
  change (negb (ch ":" =? ch ":")) with false. cbv iota.
  change (ws (bs " " ++ ?x)) with (ws x).
  assert (Hws : ws tail = tail).
  { destruct tail as [|c r]; [done|]. by apply ws_nonspace, (Hsp c r). }
  pose proof (ok_value _ H) as Hv. pose proof (ok_unused _ H) as Hu.
  destruct a as [k x b u]. cbn [arg_key arg_value is_string used] in *. subst u. destruct b.
  - destruct Hv as [Hc _].
    replace (ws (escape x ++ tail)) with (escape x ++ tail) by reflexivity.
    change (match escape x ++ tail with c :: _ => c =? 34 | [] => false end) with true. cbv iota.
    rewrite string_escape by done. by rewrite Hws.
  - destruct Hv as (_ & j & -> & Hok & Hdep & Hns).
    destruct (text_not_quote j tail Hok Hns) as (c & q & E & Hc & Hq).
    assert (Ew : ws (JsonText.text [] j ++ tail) = JsonText.text [] j ++ tail) by (rewrite E; by apply ws_nonspace).
    rewrite Ew. rewrite E at 1. cbv zeta iota. rewrite Hq. cbv iota.
    pose proof (raw_value_text [] [] j tail eq_refl eq_refl Hok Hd Hdep) as Hr. cbn [app] in Hr. rewrite Hr.
    destruct (json_value_text (Arg k (JsonText.text [] j) false false) j eq_refl Hok Hdep) as [Hm _].
    cbn [arg_value] in Hm. rewrite Hm, Hws, E, Hq. reflexivity.
Qed.

Lemma body_read args : args <> [] -> forall fuel acc, Forall arg_ok args -> (length args < fuel)%nat ->
  json_args_loop fuel (args_body args ++ bs "}") acc = Some (acc ++ args).
Proof.
  induction args as [|a args IH]; [done|]. intros _ fuel acc Hok Hf. inversion Hok; subst.
  destruct fuel as [|[|fuel]]; [cbn in Hf; lia..|]. destruct args as [|b args].
  - change (args_body [a]) with (pair_text a). rewrite pair_read; [|done|done|by intros c r [= <- _]].
    done.
  - unfold args_body. cbn [map]. change (separated ?s (?x :: ?y :: ?l)) with (x ++ s ++ separated s (y :: l)).
    rewrite <- !app_assoc. rewrite pair_read; [|done|done|by intros c r [= <- _]].
    change (ws (comma (bs ", " ++ ?x))) with (ws x).
    replace (ws (separated (bs ", ") (pair_text b :: map pair_text args) ++ bs "}"))
      with (args_body (b :: args) ++ bs "}").
    + rewrite IH; [by rewrite <- app_assoc|done|done|cbn in *; lia].
    + unfold args_body. cbn [map]. destruct (map pair_text args); reflexivity.
Qed.

Lemma object_read args : Forall arg_ok args -> json_args_parse (Some (args_object args)) = Some args.
Proof.
  intros Hok. unfold json_args_parse, args_object.
  change (ws (default [] (Some (bs "{" ++ ?x)))) with (ch "{" :: x). cbv iota.
  change (ch "{" =? ch "{") with true. cbv iota. destruct args as [|a args]; [reflexivity|].
  replace (ws (args_body (a :: args) ++ bs "}")) with (args_body (a :: args) ++ bs "}").
  - rewrite (body_read (a :: args)); [done|done|done|].
    rewrite length_app. unfold args_body.
    assert (Hs : forall l : list json_arg, (length l <= length (separated (bs ", ") (map pair_text l)))%nat).
    { induction l as [|x [|y l] IHl]; [done|cbn; lia|].
      change (separated ?s (map pair_text (x :: ?z))) with (pair_text x ++ s ++ separated s (map pair_text z)).
      rewrite !length_app. pose proof (pair_text_ne x). destruct (pair_text x); [done|]. cbn [length] in *. lia. }
    specialize (Hs (a :: args)). lia.
  - unfold args_body. cbn [map]. destruct (map pair_text args); reflexivity.
Qed.

Lemma canonical_args tc : call_ok tc -> dsml_args (canonical tc) = dsml_args tc.
Proof. intros H. unfold dsml_args at 1, canonical. cbn [tc_arguments]. by rewrite object_read. Qed.

Lemma canonical_text tc : call_ok tc -> dsml_call (canonical tc) = dsml_call tc.
Proof.
  intros H. assert (Hc : call_ok (canonical tc)) by (unfold call_ok; by rewrite canonical_args).
  rewrite <- (app_nil_r (dsml_call tc)), <- (app_nil_r (dsml_call (canonical tc))), !call_text by done.
  by rewrite canonical_args.
Qed.

(** ** The message *)
Definition block_text (l : list tool_call) : list Z :=
  [10; 10] ++ TOOL_CALLS_START ++ 10 :: concat (map dsml_call l) ++ TOOL_CALLS_END.

Lemma writer_block calls : tcs calls <> [] -> nonempty (raw_dsml calls) = None ->
  append_dsml_tool_calls_text (Some calls) = block_text (tcs calls).
Proof.
  intros Hne Hraw. unfold append_dsml_tool_calls_text. rewrite Hraw.
  destruct (tcs calls) as [|tc l]; [done|]. rewrite blen_cons. pose proof (blen_nonneg l).
  destruct (Z.eqb_spec (1 + blen l) 0); [lia|]. done.
Qed.

(** The reasoning in front of the content: none where the request does not
    think, else up to the last closing mark of the message. *)
Definition reasoning_closed (closed : bool) (r rest : list Z) : Prop :=
  if closed then (exists r', r = r' ++ THINK_END) /\ absent THINK_END rest else r = [].

Lemma search_closed closed r rest : reasoning_closed closed r rest ->
  search_from (r ++ rest) closed THINK_END = Some (blen r).
Proof.
  unfold reasoning_closed, search_from. destruct closed; [|by intros ->].
  intros [[r' ->] Ha]. rewrite <- app_assoc.
  pose proof (find_last_delim r' (ch "<") (tl THINK_END) rest ltac:(tag_side) Ha) as E.
  change (ch "<" :: tl THINK_END) with THINK_END in E. rewrite E. by rewrite blen_app.
Qed.

Lemma start_found content x : absent TOOL_CALLS_START content ->
  strstr (content ++ [10; 10] ++ TOOL_CALLS_START ++ x) ([10; 10] ++ TOOL_CALLS_START) = Some (blen content).
Proof.
  intros Ha. apply strstr_first. split; [by exists content, x|]. intros k Hk.
  assert (Hno : absent TOOL_CALLS_START ((content ++ [10]) ++ [10])).
  { intros i Hi. assert (Hlf : 10 ∉ TOOL_CALLS_START) by tag_side.
    pose proof (occurs_bounds _ _ _ Hi) as [_ Hb]. repeat rewrite ?blen_app, ?blen_cons, ?blen_nil in Hb.
    change (blen TOOL_CALLS_START) with 22 in Hb.
    apply occurs_avoid in Hi as [Hi|Hi]; [|rewrite blen_snoc in Hi; lia|done].
    apply occurs_avoid in Hi as [Hi|Hi]; [by apply Ha in Hi|lia|done]. }
  destruct Hk as (a & b & E & Hab).
  assert (Hs : strstr (((content ++ [10]) ++ [10]) ++ ch "<" :: (tl TOOL_CALLS_START ++ x)) (ch "<" :: tl TOOL_CALLS_START)
               = Some (blen content + 2)).
  { pose proof (strstr_delim ((content ++ [10]) ++ [10]) (ch "<") (tl TOOL_CALLS_START) x ltac:(tag_side) Hno) as Hd.
    rewrite !blen_snoc in Hd. etransitivity; [exact Hd|]. f_equal. lia. }
  apply strstr_Some in Hs as [_ Hmin]. specialize (Hmin (k + 2)).
  assert (blen content + 2 <= k + 2); [|lia]. apply Hmin. exists (a ++ [10; 10]), b. split.
  - rewrite <- !app_assoc. cbn [app] in *. exact E.
  - by rewrite blen_app, Hab.
Qed.

(** C7: For the DSML and EXAONE formats, a message that closes its reasoning (or
    has none when the request does not think), says something and then calls
    tools in the form the server renders is read back as those calls, in order,
    by name and arguments object (the rendered block carries no ids), with the
    raw block kept for replay; and rendering the parsed calls again, without
    the raw block, gives that block byte for byte, so the text is a stable
    cache key.  This holds when there is at least one call and no raw block to
    replay, the content does not contain the block's start mark, nothing behind
    the reasoning contains its end mark, and every argument ([arg_ok]) has a
    name without NUL that does not end in [string=] and a value that does not
    contain the end tags of a parameter in their short or plain form; a string
    value has no NUL and none of the five character entities the parser decodes
    ([no_entity]); any other value is a JSON value printed without white space,
    nested no deeper than the parser allows, without the DSML end tag of a
    parameter.  Outside these bounds the text is ambiguous and is read back as
    something else. *)
Theorem dsml_roundtrip closed f orders r content calls :
  f = FORMAT_DSML \/ f = FORMAT_EXAONE ->
  tcs calls <> [] -> nonempty (raw_dsml calls) = None -> Forall call_ok (tcs calls) ->
  absent TOOL_CALLS_START content ->
  reasoning_closed closed r (content ++ append_dsml_tool_calls_text (Some calls)) ->
  let block := append_dsml_tool_calls_text (Some calls) in
  let message := r ++ content ++ block in
  parse_generated_message_ex_format (Some message) closed f orders no_calls =
    parsed_of (split_reasoning_content (Some message) (trim_tool_separator_ws message 0 (blen r + blen content)))
      (Calls (map canonical (tcs calls)) (Some block) None) /\
  append_dsml_tool_calls_text (Some (Calls (map canonical (tcs calls)) None None)) = block.
Proof.
  intros Hf Hne Hraw Hok Hc Hr. cbv zeta. rewrite writer_block in Hr |- * by done. set (l := tcs calls) in *. split.
  - set (block := block_text l) in *.
    transitivity (parse_dsml_generated_message (Some (r ++ content ++ block)) closed no_calls);
      [by destruct Hf as [-> | ->]|].
    unfold parse_dsml_generated_message. cbn [default]. change (id (r ++ content ++ block)) with (r ++ content ++ block).
    rewrite (search_closed closed r (content ++ block)) by done. rewrite zdrop_app. unfold first_found, block_marks. cbn [fold_right fst snd].
    unfold block at 1, block_text. rewrite (start_found content) by done.
    replace (zdrop (blen r + blen content) (r ++ content ++ block)) with block
      by (rewrite app_assoc; symmetry; apply zdrop_past; by rewrite blen_app).
    assert (Hs : strstr block TOOL_CALLS_START = Some 2).
    { subst block. unfold block_text. rewrite app_assoc. by apply strstr_app_l. }
    rewrite Hs. change (2 + blen TOOL_CALLS_START) with 24.
    replace (zdrop 24 block) with (10 :: concat (map dsml_call l) ++ TOOL_CALLS_END ++ []).
    2: { rewrite app_nil_r. subst block. unfold block_text. rewrite app_assoc. symmetry. by apply zdrop_past. }
    rewrite calls_read; [|done|].
    + rewrite push_all. unfold between. rewrite Z.sub_0_r, ztake_ge by lia. done.
    + cbn [length]. rewrite length_app. pose proof (concat_length dsml_call l ltac:(done)). lia.
  - rewrite writer_block; [|by destruct l|done]. unfold block_text. cbn [tcs]. do 3 f_equal.
    rewrite map_map. f_equal. f_equal. apply map_ext_in. intros tc Hin%list_elem_of_In. apply canonical_text.
    rewrite Forall_forall in Hok. by apply Hok.
Qed.

Lemma absent_literal t s : strstr s t = None -> absent t s.
Proof. intros H. intros i. by apply strstr_None. Qed.

Definition sample_calls : tool_calls :=
  Calls [Call None (Some (bs "search <web>"))
           (Some (bs "{ " ++ escape (bs "query") ++ bs " : " ++ escape (bs "a<b && c </" ++ DSML ++ bs "parameter>") ++
                  bs ", " ++ escape (bs "deep") ++ bs ":[true, null] }"));
         Call (Some (bs "call_1")) (Some (bs "note")) (Some (bs "not an object"))] None None.

Lemma sample_calls_ok : Forall call_ok (tcs sample_calls).
Proof.
  assert (Hent : forall s, forallb (fun e => bool_decide (strstr s e = None)) entities = true -> no_entity s).
  { intros s H%forallb_Forall. unfold no_entity. rewrite Forall_forall in H |- *. intros e He.
    specialize (H e He). apply bool_decide_eq_true in H. by apply absent_literal. }
  constructor; [|constructor; [|constructor]]; unfold call_ok;
    match goal with |- Forall _ ?l => let l' := eval vm_compute in l in change l with l' end;
    repeat match goal with |- Forall _ _ => constructor end;
    (constructor; [by apply cstringb_ok|by apply not_suffix|done|by apply absent_literal|by apply absent_literal|]).
  - split; [by apply cstringb_ok|by apply Hent].
  - split; [by apply absent_literal|]. by exists (JArr [JLit LTrue; JLit LNull]).
  - split; [by apply cstringb_ok|by apply Hent].
Qed.

Example dsml_roundtrip_witness :
  let block := append_dsml_tool_calls_text (Some sample_calls) in
  let message := bs "<think>look it up</think>" ++ bs "One moment." ++ block in
  parse_generated_message_ex_format (Some message) true FORMAT_DSML None no_calls =
    parsed_of (split_reasoning_content (Some message) (trim_tool_separator_ws message 0 36))
      (Calls (map canonical (tcs sample_calls)) (Some block) None) /\
  append_dsml_tool_calls_text (Some (Calls (map canonical (tcs sample_calls)) None None)) = block.
Proof.
  apply (dsml_roundtrip true FORMAT_DSML None (bs "<think>look it up</think>") (bs "One moment.") sample_calls).
  - by left.
  - done.
  - done.
  - apply sample_calls_ok.
  - by apply absent_literal.
  - split; [by exists (bs "<think>look it up")|]. apply absent_literal. by vm_compute.
Defined.

(** ** What the conditions of [arg_ok] exclude *)
Definition one_call (k v : list Z) : tool_calls :=
  Calls [Call None (Some (bs "f")) (Some (bs "{" ++ escape k ++ bs ":" ++ escape v ++ bs "}"))] None None.
Definition reread (calls : tool_calls) : parsed :=
  parse_generated_message_ex_format (Some (append_dsml_tool_calls_text (Some calls))) false FORMAT_DSML None no_calls.
Definition arguments_of (p : parsed) : option (list (option (list Z))) :=
  match p with Parsed _ _ calls => Some (map tc_arguments (tcs calls)) | _ => None end.

(** A string with the plain spelling of the end tag is cut there, and the rest of
    it is taken for markup. *)
Lemma plain_end_tag_breaks : arguments_of (reread (one_call (bs "text") (bs "<a></parameter>b"))) = None.
Proof. by vm_compute. Qed.

(** A string that spells an escape comes back decoded. *)
Lemma entity_is_decoded :
  arguments_of (reread (one_call (bs "html") (bs "a &lt; b"))) =
  Some [Some (bs "{" ++ escape (bs "html") ++ bs ": " ++ escape (bs "a < b") ++ bs "}")].
Proof. by vm_compute. Qed.

(** A key that ends in [string=] hides the type of its parameter: the string is
    passed on as if it were JSON text. *)
Lemma key_hides_type :
  arguments_of (reread (one_call (bs "string=") (bs "x"))) =
  Some [Some (bs "{" ++ escape (bs "string=") ++ bs ": x}")].
Proof. by vm_compute. Qed.

(** * Rendering and parsing Hermes calls (ds4_server.c)

    The calls append_motif3_tool_calls_text writes are read back by
    parse_hermes_generated_message_ex with their names, their ids when they were
    written, and their arguments byte for byte. *)

(** The calls that survive: a name, arguments that are JSON with any white space,
    and no closing tag inside the body. *)
Record hermes_ok (ids : bool) (tc : tool_call) : Prop := {
  h_name : exists n, tc_name tc = Some n /\ cstring n /\ n <> [];
  h_args : tc_arguments tc = None \/ exists w j, tc_arguments tc = Some (JsonText.text w j) /\
             forallb isspace w = true /\ json_okb j = true /\ depth j <= MAX_NESTING;
  h_id : forall i, tc_id tc = Some i -> cstring i;
  h_closed : absent QWEN_TOOL_CALL_END (hermes_body tc ids) }.

(** What is read back. *)
Definition hermes_canonical (ids : bool) (tc : tool_call) : tool_call :=
  Call (if ids then nonempty (tc_id tc) else None) (tc_name tc)
    (Some (default (bs "null") (nonempty (tc_arguments tc)))).

Lemma nonempty_Some s : s <> [] -> nonempty (Some s) = Some s.
Proof. by destruct s. Qed.

(** ** The body *)

(** One member: the key, and whatever its kind of value does with the text behind
    the colon. *)
Lemma member_read fuel (k : list Z) x tail tc tc' : cstring k ->
  (if streq k (bs "name") then json_string_replace (bs " " ++ x ++ tail) set_name tc
   else if streq k (bs "arguments") then json_raw_value_replace (bs " " ++ x ++ tail) set_arguments tc
   else if streq k (bs "id") then json_string_replace (bs " " ++ x ++ tail) set_id tc
   else match skip (bs " " ++ x ++ tail) with Some q => Some (q, tc) | None => None end) = Some (tail, tc') ->
  hermes_members (S fuel) (escape k ++ bs ": " ++ x ++ tail) tc = hermes_members fuel (ws (comma (ws tail))) tc'.
Proof.
  intros Hk Hx. cbn [hermes_members].
  change (escape k ++ ?x) with (34 :: (concat (map escape_byte k) ++ [34]) ++ x) at 1.
  change (34 =? ch "}") with false. cbv iota. rewrite string_escape by done.
  change (ws (bs ": " ++ ?y)) with (ch ":" :: (bs " " ++ y)). cbv iota.
  change (negb (ch ":" =? ch ":")) with false. cbv iota. by rewrite Hx.
Qed.

Lemma string_member set s tail tc : cstring s ->
  json_string_replace (bs " " ++ escape s ++ tail) set tc = Some (tail, set s tc).
Proof.
  intros Hs. unfold json_string_replace.
  change (string_ (bs " " ++ ?x)) with (string_ x). by rewrite string_escape.
Qed.

Lemma raw_member set w j tail tc : forallb isspace w = true -> json_okb j = true -> depth j <= MAX_NESTING ->
  delimited tail = true ->
  json_raw_value_replace (bs " " ++ JsonText.text w j ++ tail) set tc = Some (tail, set (JsonText.text w j) tc).
Proof. intros Hw Hj Hd Ht. unfold json_raw_value_replace. by rewrite (raw_value_text (bs " ") w j tail). Qed.

(** The arguments as the body holds them are a JSON text. *)
Lemma args_text ids tc : hermes_ok ids tc -> exists w j,
  default (bs "null") (nonempty (tc_arguments tc)) = JsonText.text w j /\
  forallb isspace w = true /\ json_okb j = true /\ depth j <= MAX_NESTING.
Proof.
  intros H. destruct (h_args _ _ H) as [-> | (w & j & -> & Hw & Hj & Hd)].
  - by exists [], (JLit LNull).
  - exists w, j. rewrite nonempty_Some by (by apply text_ne). done.
Qed.

Lemma finish_read fuel tc : hermes_members (S fuel) (bs "}") tc = Ok ([], tc).
Proof. done. Qed.

Lemma hermes_json_read ids tc : hermes_ok ids tc ->
  parse_hermes_tool_call_json (Some (hermes_body tc ids)) = Ok (hermes_canonical ids tc).
Proof.
  intros H. destruct (args_text ids tc H) as (w & j & Ea & Hw & Hj & Hd). destruct (h_name _ _ H) as (n & En & Hn & Hne).
  set (idt := if ids then match nonempty (tc_id tc) with
                          | Some i => bs ", " ++ escape (bs "id") ++ bs ": " ++ escape i
                          | None => []
                          end else []).
  assert (Hbody : hermes_body tc ids = bs "{" ++ escape (bs "name") ++ bs ": " ++ escape n ++ bs ", " ++
            escape (bs "arguments") ++ bs ": " ++ JsonText.text w j ++ idt ++ bs "}").
  { unfold hermes_body. rewrite En, Ea. change (default [] (Some n)) with n. subst idt.
    destruct ids; [destruct (nonempty (tc_id tc))|]; reflexivity. }
  unfold parse_hermes_tool_call_json. rewrite Hbody.
  change (ws (default [] (Some (bs "{" ++ ?x)))) with (ch "{" :: x). cbv iota.
  change (negb (ch "{" =? ch "{")) with false. cbv iota.
  change (ws (escape (bs "name") ++ ?x)) with (escape (bs "name") ++ x).
  set (body := escape (bs "name") ++ _). assert (Hfuel : exists f, S (length body) = S (S (S (S f)))).
  { exists (length body - 3)%nat. unfold body. rewrite length_app.
    change (length (escape (bs "name"))) with 6%nat. lia. }
  destruct Hfuel as [f ->]. subst body.
  rewrite (member_read _ (bs "name") (escape n) _ _ (Call None (Some n) None));
    [|by apply cstringb_ok|by rewrite string_member].
  change (ws (comma (ws (bs ", " ++ ?x)))) with (ws x).
  change (ws (escape (bs "arguments") ++ ?x)) with (escape (bs "arguments") ++ x).
  set (tc2 := Call None (Some n) (Some (JsonText.text w j))).
  assert (Hdel : delimited (idt ++ bs "}") = true).
  { subst idt. destruct ids; [destruct (nonempty (tc_id tc))|]; reflexivity. }
  rewrite (member_read _ (bs "arguments") (JsonText.text w j) _ _ tc2);
    [|by apply cstringb_ok|by rewrite raw_member].
  unfold hermes_canonical. rewrite En, Ea. subst idt.
  destruct ids; [destruct (tc_id tc) as [[|c i]|] eqn:Ei|].
  - change (nonempty (Some [])) with (@None (list Z)). cbv iota. change (ws (comma (ws ([] ++ bs "}")))) with (bs "}").
    rewrite finish_read. cbn [ws tc_name tc2]. rewrite nonempty_Some by done. done.
  - change (nonempty (Some (c :: i))) with (Some (c :: i)). cbv iota. rewrite <- !app_assoc.
    change (ws (comma (ws (bs ", " ++ ?x)))) with (ws x).
    change (ws (escape (bs "id") ++ ?x)) with (escape (bs "id") ++ x).
    rewrite (member_read _ (bs "id") (escape (c :: i)) _ _ (Call (Some (c :: i)) (Some n) (Some (JsonText.text w j))));
      [|by apply cstringb_ok|].
    2: { transitivity (json_string_replace (bs " " ++ escape (c :: i) ++ bs "}") set_id tc2); [reflexivity|].
         rewrite string_member; [done|by apply (h_id _ _ H)]. }
    change (ws (comma (ws (bs "}")))) with (bs "}").
    rewrite finish_read. cbn [ws tc_name]. rewrite nonempty_Some by done. done.
  - change (nonempty None) with (@None (list Z)). cbv iota. change (ws (comma (ws ([] ++ bs "}")))) with (bs "}").
    rewrite finish_read. cbn [ws tc_name tc2]. rewrite nonempty_Some by done. done.
  - change (ws (comma (ws ([] ++ bs "}")))) with (bs "}").
    rewrite finish_read. cbn [ws tc_name tc2]. rewrite nonempty_Some by done. done.
Qed.

(** ** The message *)
Definition hermes_text (ids : bool) (tc : tool_call) : list Z :=
  [10] ++ QWEN_TOOL_CALL_START ++ hermes_body tc ids ++ QWEN_TOOL_CALL_END.

Lemma hermes_calls_read ids l : forall fuel calls, Forall (hermes_ok ids) l -> (length l < fuel)%nat ->
  hermes_calls fuel (concat (map (hermes_text ids) l)) calls =
  (fold_left tool_calls_push (map (hermes_canonical ids) l) calls, Ok []).
Proof.
  induction l as [|tc l IH]; intros fuel calls Hok Hf; (destruct fuel as [|fuel]; [cbn in Hf; lia|]); [done|].
  inversion Hok as [|? ? Htc Hl]; subst. cbn [map concat fold_left hermes_calls].
  set (tail := concat _).
  assert (E : skip_ascii_ws (hermes_text ids tc ++ tail) =
              QWEN_TOOL_CALL_START ++ hermes_body tc ids ++ QWEN_TOOL_CALL_END ++ tail).
  { unfold hermes_text. rewrite <- !app_assoc. reflexivity. }
  rewrite E.
  rewrite starts_with_app. cbn [negb]. rewrite zdrop_app.
  pose proof (strstr_delim (hermes_body tc ids) (ch "<") (tl QWEN_TOOL_CALL_END) tail ltac:(tag_side) (h_closed _ _ Htc)) as Hs.
  change (ch "<" :: tl QWEN_TOOL_CALL_END) with QWEN_TOOL_CALL_END in Hs. rewrite Hs.
  rewrite ztake_app, hermes_json_read by done.
  rewrite (app_assoc (hermes_body tc ids)), zdrop_past by (by rewrite blen_app).
  apply IH; [done|cbn in Hf; lia].
Qed.

Lemma hermes_calls_newline fuel p calls : hermes_calls fuel (10 :: p) calls = hermes_calls fuel p calls.
Proof. destruct fuel as [|fuel]; [done|]. cbn [hermes_calls]. by rewrite skip_ws_newline. Qed.

Lemma hermes_writer ids calls : tcs calls <> [] -> nonempty (raw_tool_text calls) = None ->
  append_motif3_tool_calls_text (Some calls) ids = concat (map (hermes_text ids) (tcs calls)).
Proof.
  intros Hne Hraw. unfold append_motif3_tool_calls_text. rewrite Hraw.
  destruct (tcs calls) as [|tc l]; [done|]. rewrite blen_cons. pose proof (blen_nonneg l).
  destruct (Z.eqb_spec (1 + blen l) 0); [lia|]. reflexivity.
Qed.

(** Calls rendered for a Hermes model are read back in order: the same names,
    the arguments byte for byte, the ids exactly when they were written, and the
    rendered text kept for replay; the line break in front of the first call
    belongs to that text and not to the content. *)
Theorem hermes_roundtrip closed ids r content calls :
  tcs calls <> [] -> nonempty (raw_tool_text calls) = None -> Forall (hermes_ok ids) (tcs calls) ->
  absent QWEN_TOOL_CALL_START content ->
  reasoning_closed closed r (content ++ append_motif3_tool_calls_text (Some calls) ids) ->
  let block := append_motif3_tool_calls_text (Some calls) ids in
  let message := r ++ content ++ block in
  parse_hermes_generated_message_ex (Some message) closed no_calls =
    parsed_of (split_reasoning_content (Some message) (trim_tool_separator_ws message 0 (blen r + blen content)))
      (Calls (map (hermes_canonical ids) (tcs calls)) None (Some block)).
Proof.
  intros Hne Hraw Hok Hc Hr. cbv zeta. rewrite hermes_writer in Hr |- * by done. set (l := tcs calls) in *.
  set (block := concat _) in *. unfold parse_hermes_generated_message_ex, parse_wrapped.
  change (default [] (Some ?x)) with x. cbv zeta.
  assert (Hrec : recover_from (r ++ content ++ block) closed QWEN_TOOL_CALL_START QWEN_TOOL_CALL_END = Some (blen r, false)).
  { pose proof (search_closed closed r (content ++ block) Hr) as Hs. unfold search_from, recover_from in *.
    destruct closed; [|by injection Hs as ->]. destruct (find_last_substr _ _) as [e|]; [|done].
    injection Hs as Hs. change (blen THINK_END) with 8 in Hs. by rewrite Hs. }
  rewrite Hrec, zdrop_app.
  assert (Hblock : exists b, block = [10] ++ QWEN_TOOL_CALL_START ++ b).
  { subst block l. destruct (tcs calls) as [|tc l]; [done|]. eexists. cbn [map concat]. unfold hermes_text at 1.
    rewrite <- !app_assoc. reflexivity. }
  destruct Hblock as [b Eb].
  assert (Hs : strstr (content ++ block) QWEN_TOOL_CALL_START = Some (blen content + 1)).
  { rewrite Eb. rewrite app_assoc.
    pose proof (strstr_delim (content ++ [10]) (ch "<") (tl QWEN_TOOL_CALL_START) b ltac:(tag_side)) as Hd.
    rewrite blen_snoc in Hd. apply Hd. intros i Hi. pose proof (occurs_bounds _ _ _ Hi) as [_ Hb].
    rewrite blen_snoc in Hb. apply occurs_avoid in Hi as [Hi|Hi]; [by apply Hc in Hi| |tag_side].
    change (blen (ch "<" :: tl QWEN_TOOL_CALL_START)) with 11 in Hb. lia. }
  rewrite Hs. set (n := blen r + blen content).
  replace (blen r + (blen content + 1)) with (n + 1) by (subst n; lia).
  pose proof (blen_nonneg r). pose proof (blen_nonneg content).
  assert (Hnl : znth 0 (r ++ content ++ block) (n + 1 - 1) = 10).
  { apply znth_lookup. replace (Z.to_nat (n + 1 - 1)) with (length (r ++ content) + 0)%nat
      by (rewrite length_app; unfold n, blen; lia).
    rewrite app_assoc, lookup_app_r by lia. rewrite Eb.
    by replace (length (r ++ content) + 0 - length (r ++ content))%nat with 0%nat by lia. }
  rewrite Hnl. destruct (Z.ltb_spec 0 (n + 1)); [|lia]. change (10 =? 10) with true. cbn [andb].
  replace (n + 1 - 1) with n by lia.
  assert (Hd0 : zdrop n (r ++ content ++ block) = block)
    by (rewrite app_assoc; apply zdrop_past; subst n; by rewrite blen_app).
  assert (Hd1 : zdrop (n + 1) (r ++ content ++ block) = QWEN_TOOL_CALL_START ++ b).
  { unfold zdrop in *. rewrite Z2Nat.inj_add by lia. by rewrite <- drop_drop, Hd0, Eb. }
  rewrite Hd0, Hd1.
  assert (Hcalls : hermes_calls (S (length (QWEN_TOOL_CALL_START ++ b))) (QWEN_TOOL_CALL_START ++ b) no_calls =
                   (fold_left tool_calls_push (map (hermes_canonical ids) l) no_calls, Ok [])).
  { rewrite <- hermes_calls_newline. change (10 :: QWEN_TOOL_CALL_START ++ b) with ([10] ++ QWEN_TOOL_CALL_START ++ b).
    rewrite <- Eb. apply hermes_calls_read; [done|].
    assert (Hlen : (2 * length l <= length block)%nat).
    { subst block. clear. induction l as [|tc l IH]; [done|]. cbn [map concat]. unfold hermes_text at 1.
      rewrite !length_app. change (length QWEN_TOOL_CALL_START) with 11%nat. cbn [length]. lia. }
    rewrite Eb in Hlen. cbn [app length] in Hlen. destruct l; cbn [length] in *; lia. }
  rewrite Hcalls, push_all. cbn [tcs app].
  assert (Hnz : (blen (map (hermes_canonical ids) l) =? 0) = false).
  { subst l. destruct (tcs calls) as [|tc l]; [done|]. cbn [map]. rewrite blen_cons. pose proof (blen_nonneg (map (hermes_canonical ids) l)). lia. }
  change (tcs no_calls ++ ?x) with x. cbn [tcs]. rewrite Hnz. unfold between. change (blen (@nil Z)) with 0.
  by rewrite Z.sub_0_r, ztake_ge by lia.
Qed.

Definition hermes_sample : tool_calls :=
  Calls [Call (Some (bs "call_7")) (Some (bs "weather")) (Some (bs "{ " ++ escape (bs "city") ++ bs " : " ++ escape (bs "Seoul") ++ bs " }"));
         Call None (Some (bs "done")) None] None None.

Example hermes_roundtrip_witness :
  let block := append_motif3_tool_calls_text (Some hermes_sample) true in
  let message := bs "<think>check</think>" ++ bs "Checking." ++ block in
  parse_hermes_generated_message_ex (Some message) true no_calls =
    parsed_of (split_reasoning_content (Some message) (trim_tool_separator_ws message 0 29))
      (Calls (map (hermes_canonical true) (tcs hermes_sample)) None (Some block)).
Proof.
  apply (hermes_roundtrip true true (bs "<think>check</think>") (bs "Checking.") hermes_sample).
  - done.
  - done.
  - constructor; [|constructor; [|constructor]]; constructor.
    + exists (bs "weather"). split; [done|split; [by apply cstringb_ok|done]].
    + right. by exists (bs " "), (JObj [(bs "city", JStr (bs "Seoul"))]).
    + intros i [= <-]. by apply cstringb_ok.
    + by apply absent_literal.
    + exists (bs "done"). split; [done|split; [by apply cstringb_ok|done]].
    + by left.
    + done.
    + by apply absent_literal.
  - by apply absent_literal.
  - split; [by exists (bs "<think>check")|]. apply absent_literal. by vm_compute.
Defined.
