(* ===== verification/ToolGate.v ===== *)
(** * Reasoning is inert (ds4_server.c)

    When a request thinks, parse_generated_message_ex_format takes tool calls only
    from behind the last closing mark of the reasoning: text inside unfinished
    reasoning never becomes a call, and the block kept for replay is a part of the
    message behind that mark. *)

From S2P Require Import Prelude Json Text Stream ToolText ToolParse ToolHermes ToolTotal ToolEscape ToolRoundtrip.

(** ** The positions are suffixes *)
Lemma zdrop_suffix {A} n (l s : list A) : l `suffix_of` s -> zdrop n l `suffix_of` s.
Proof. intros H. etransitivity; [|exact H]. exists (ztake n l). by rewrite ztake_zdrop. Qed.

Lemma skip_ws_suffix p s : p `suffix_of` s -> skip_ascii_ws p `suffix_of` s.
Proof.
  intros H. etransitivity; [|exact H]. unfold skip_ascii_ws. destruct (span isspace p) as [a b] eqn:E.
  apply span_split in E as ->. by exists a.
Qed.

Lemma span_suffix f p s : p `suffix_of` s -> (span f p).2 `suffix_of` s.
Proof.
  intros H. etransitivity; [|exact H]. destruct (span f p) as [a b] eqn:E. apply span_split in E as ->. by exists a.
Qed.

Lemma skip_byte_suffix c p s : p `suffix_of` s -> skip_byte c p `suffix_of` s.
Proof.
  intros H. etransitivity; [|exact H]. destruct p as [|d p]; cbn; [done|]. destruct (d =? c); [by exists [d]|done].
Qed.

Lemma suffix_self {A} (l : list A) : l `suffix_of` l.
Proof. by exists []. Qed.

Create HintDb suffixes.
#[local] Hint Resolve zdrop_suffix skip_ws_suffix span_suffix skip_byte_suffix suffix_self : suffixes.

Lemma leaf_suffix p ps pe out q o : dsml_parse_leaf_param_json p ps pe out = Some (q, o) -> q `suffix_of` p.
Proof. unfold dsml_parse_leaf_param_json. intros H. repeat case_match; simplify_eq; eauto with suffixes. Qed.

Lemma nested_suffix fuel : forall p ps pe m any q m' b,
  nested_loop fuel p ps pe m any = Ok (q, m', b) -> q `suffix_of` p.
Proof.
  induction fuel as [|fuel IH]; intros p ps pe m any q m' b; [done|]. cbn [nested_loop].
  destruct (negb _); [intros [= <- <- <-]; eauto with suffixes|].
  destruct (dsml_parse_leaf_param_json _ _ _ _) as [[q1 o]|] eqn:E; [|done]. intros H%IH. apply leaf_suffix in E.
  etransitivity; [exact H|]. etransitivity; [exact E|]. eauto with suffixes.
Qed.

Lemma nested_object_suffix p ps pe out q o :
  dsml_parse_nested_params_object p ps pe out = Ok (q, o) -> q `suffix_of` p.
Proof.
  unfold dsml_parse_nested_params_object. destruct (nested_loop _ _ _ _ _ _) as [[[q1 m] [|]]| |] eqn:E; try done.
  intros [= <- _]. by apply nested_suffix in E.
Qed.

Lemma params_suffix fuel : forall p args q a, dsml_params fuel p args = Ok (q, a) -> q `suffix_of` p.
Proof.
  induction fuel as [|fuel IH]; intros p args q a; [done|]. cbn [dsml_params].
  destruct (any_invoke_end _); [intros [= <- _]; eauto with suffixes|].
  destruct (negb _); [done|]. destruct (strchr _ _) as [t|]; [|done]. destruct (dsml_attr _ _) as [nm|]; [|done].
  assert (Hflat : forall st, match dsml_find_earliest3 (zdrop (t + 1) (skip_ascii_ws p)) PARAM_END PARAM_END_SHORT
      (bs "</parameter>") with
    | None => Bad
    | Some (e, end_tag) =>
        let '(value, type) := dsml_value (ztake e (zdrop (t + 1) (skip_ascii_ws p))) st in
        dsml_params fuel (zdrop (e + blen end_tag) (zdrop (t + 1) (skip_ascii_ws p)))
          (tool_call_json_args_add args (Some nm) value type)
    end = Ok (q, a) -> q `suffix_of` p).
  { intros st. destruct (dsml_find_earliest3 _ _ _ _) as [[e et]|]; [|done]. destruct (dsml_value _ _).
    intros H%IH. etransitivity; [exact H|]. eauto 8 with suffixes. }
  destruct (dsml_attr _ (bs "string")); [apply Hflat|]. destruct (any_param_start _) as [nt|]; [|apply Hflat].
  destruct (dsml_parse_nested_params_object _ _ _ _) as [[q1 nested]| |] eqn:E; [|done|done].
  apply nested_object_suffix in E. intros H%IH. etransitivity; [exact H|].
  assert (q1 `suffix_of` p) by (etransitivity; [exact E|]; eauto with suffixes).
  destruct (any_param_end _); eauto with suffixes.
Qed.

Lemma calls_suffix fuel : forall p calls calls' q, dsml_calls fuel p calls = (calls', Ok q) -> q `suffix_of` p.
Proof.
  induction fuel as [|fuel IH]; intros p calls calls' q; [done|]. cbn [dsml_calls].
  destruct (any_block_end _); [intros [= _ <-]; eauto with suffixes|].
  destruct (negb _); [done|]. destruct (strchr _ _) as [t|]; [|done]. destruct (dsml_attr _ _) as [nm|]; [|done].
  destruct (dsml_params _ _ _) as [[q1 a]| |] eqn:E; [|done|done]. apply params_suffix in E.
  intros H%IH. etransitivity; [exact H|]. etransitivity; [exact E|]. eauto with suffixes.
Qed.

Lemma solar_args_suffix order fuel : forall p args q a, solar_args fuel order p args = Ok (q, a) -> q `suffix_of` p.
Proof.
  induction fuel as [|fuel IH]; intros p args q a; [done|]. cbn [solar_args].
  destruct p as [|c r]; [done|]. set (p := c :: r). clearbody p.
  repeat case_match; intros Hq; simplify_eq; [|apply IH in Hq; etransitivity; [exact Hq|]]; eauto 8 with suffixes.
Qed.

Lemma solar_calls_suffix orders fuel : forall p calls calls' q,
  solar_calls fuel orders p calls = (calls', Ok q) -> q `suffix_of` p.
Proof.
  induction fuel as [|fuel IH]; intros p calls calls' q; [done|]. cbn [solar_calls].
  destruct (negb _); [done|]. destruct (strchr _ _) as [e|]; [|done]. destruct (_ =? 0); [done|].
  destruct (solar_args _ _ _ _) as [[q1 a]| |] eqn:E; [|done|done]. apply solar_args_suffix in E.
  assert (q1 `suffix_of` p) by (etransitivity; [exact E|]; eauto with suffixes).
  destruct (negb _); [by intros [= _ <-]|]. intros Hq%IH. etransitivity; [exact Hq|]. eauto with suffixes.
Qed.

Lemma qwen_params_suffix order fuel : forall p args q a, qwen_params fuel order p args = Ok (q, a) -> q `suffix_of` p.
Proof.
  induction fuel as [|fuel IH]; intros p args q a; [done|]. cbn [qwen_params].
  destruct p as [|c r]; [done|]. set (p := c :: r). clearbody p.
  repeat case_match; intros Hq; simplify_eq; [|apply IH in Hq; etransitivity; [exact Hq|]]; eauto 10 with suffixes.
Qed.

Lemma qwen_calls_suffix orders fuel : forall p calls calls' q,
  qwen_calls fuel orders p calls = (calls', Ok q) -> q `suffix_of` p.
Proof.
  induction fuel as [|fuel IH]; intros p calls calls' q; [done|]. cbn [qwen_calls].
  destruct (negb _); [done|]. destruct (strchr _ _) as [e|]; [|done]. destruct (_ =? 0); [done|].
  destruct (qwen_params _ _ _ _) as [[q1 a]| |] eqn:E; [|done|done]. apply qwen_params_suffix in E.
  assert (q1 `suffix_of` p) by (etransitivity; [exact E|]; eauto 8 with suffixes).
  destruct (negb _); [done|]. destruct (negb _); [intros [= _ <-]; eauto with suffixes|].
  intros Hq%IH. etransitivity; [exact Hq|]. eauto 8 with suffixes.
Qed.

(** ** The gate *)
Definition end_mark (f : chat_format) : list Z :=
  match f with FORMAT_SOLAR_OPEN2 => bs "<|think:end|>" | _ => bs "</think>" end.
Definition start_mark (f : chat_format) : list Z :=
  match f with FORMAT_SOLAR_OPEN2 => bs "<|think:start|>" | _ => bs "<think>" end.
(** What begins a block of calls, the preferred spelling first. *)
Definition tool_marks (f : chat_format) : list (list Z) :=
  match f with
  | FORMAT_SOLAR_OPEN2 => [bs "<|tool_call:start|>"]
  | FORMAT_QWEN4EXP => [bs "<tool_call>"]
  | _ => [[10; 10] ++ bs "<｜DSML｜tool_calls>"; bs "<｜DSML｜tool_calls>"; [10; 10] ++ bs "<DSML｜tool_calls>"; bs "<DSML｜tool_calls>";
          [10; 10] ++ bs "<tool_calls>"; bs "<tool_calls>"]
  end.

(** The text without the mark that opens its reasoning, if it begins with one. *)
Definition opened (f : chat_format) (text body : list Z) : Prop :=
  text = start_mark f ++ body \/ (body = text /\ forall k, text <> start_mark f ++ k).

(** The split of a message: its reasoning up to the first end of reasoning, its
    content behind that. *)
Definition shown (f : chat_format) (text content reasoning : list Z) : Prop :=
  exists body, opened f text body /\ body = reasoning ++ end_mark f ++ content /\ first_at body (end_mark f) (blen reasoning).

(** The first of the marks, in their order, that occurs, and where it does first. *)
Definition preferred (marks : list (list Z)) (text mark : list Z) (i : Z) : Prop :=
  exists before after, marks = before ++ mark :: after /\ Forall (fun m => absent m text) before /\ first_at text mark i.

(** A text without the white space at its end. *)
Definition trimmed (text kept : list Z) : Prop :=
  (exists ws, text = kept ++ ws /\ Forall (fun c => isspace c = true) ws) /\
  (forall k x, kept = k ++ [x] -> isspace x = false).

(** What the gate promises of a result. *)
Definition gated (f : chat_format) (text : list Z) (calls : tool_calls) (p : parsed) : Prop :=
  p <> OutOfFuel /\
  (absent (end_mark f) text -> exists reasoning, p = Parsed [] (Some reasoning) calls /\ opened f text reasoning) /\
  (forall r rest, text = r ++ end_mark f ++ rest -> absent (end_mark f) rest ->
    (Forall (fun m => absent m rest) (tool_marks f) ->
       exists content reasoning, p = Parsed content (Some reasoning) calls /\ shown f text content reasoning) /\
    (forall mark pre blk, preferred (tool_marks f) rest mark (blen pre) -> rest = pre ++ blk ->
       (exists left, p = Rejected left) \/
       exists kept block post content reasoning calls',
         p = Parsed content (Some reasoning) calls' /\
         trimmed (r ++ end_mark f ++ pre) kept /\ shown f kept content reasoning /\
         blk = block ++ post /\ raw_dsml calls' = Some block)).

Lemma between_suffix p q : q `suffix_of` p -> between p q ++ q = p.
Proof.
  intros [k ->]. unfold between. rewrite blen_app. replace (blen k + blen q - blen q) with (blen k) by lia.
  by rewrite ztake_app.
Qed.

(** Where the search starts: behind the last mark, when there is one. *)
Lemma search_from_spec text mark : mark <> [] ->
  match search_from text true mark with
  | None => absent mark text
  | Some from => exists r rest, text = r ++ mark ++ rest /\ from = blen (r ++ mark) /\
                   forall k, occurs text mark k -> k <= blen r
  end.
Proof.
  intros Hm. unfold search_from. pose proof (find_last_substr_spec text mark Hm) as H.
  destruct (find_last_substr text mark) as [e|]; [|exact H].
  destruct H as [(r & rest & -> & Hr) Hmax]. exists r, rest. split; [done|]. rewrite blen_app, Hr. split; [done|].
  intros k Hk. apply Hmax in Hk. lia.
Qed.

Lemma mark_cons f : exists h u, end_mark f = h :: u /\ h ∉ u.
Proof. destruct f; do 2 eexists; (split; [reflexivity|tag_side]). Qed.

Lemma search_last f r rest : absent (end_mark f) rest ->
  search_from (r ++ end_mark f ++ rest) true (end_mark f) = Some (blen (r ++ end_mark f)).
Proof.
  intros Ha. unfold search_from. rewrite blen_app. destruct (mark_cons f) as (h & u & E & Hu). rewrite E in *.
  by rewrite (find_last_delim r h u rest Hu Ha).
Qed.

Lemma search_none f text : absent (end_mark f) text -> search_from text true (end_mark f) = None.
Proof.
  intros Ha. pose proof (search_from_spec text (end_mark f) ltac:(by destruct f)) as H.
  destruct (search_from _ _ _) as [from|]; [|done]. destruct H as (r & rest & -> & _).
  exfalso. by apply (Ha (blen r)); exists r, rest.
Qed.

(** *** The split *)
Lemma strip_opened f text : opened f text (strip (start_mark f) text).
Proof.
  unfold opened, strip. destruct (starts_with text (start_mark f)) eqn:E.
  - left. apply starts_with_spec in E as [b ->]. by rewrite zdrop_app.
  - right. split; [done|]. intros k ->. by rewrite starts_with_app in E.
Qed.

(** The two marks do not overlap. *)
Lemma end_behind_start f body k : occurs (start_mark f ++ body) (end_mark f) k -> occurs body (end_mark f) (k - blen (start_mark f)).
Proof.
  intros H. destruct (Z.le_gt_cases (blen (start_mark f)) k) as [Hle|Hlt].
  - rewrite <- (zdrop_app (start_mark f) body). apply occurs_zdrop; [rewrite blen_app; pose proof (blen_nonneg body); pose proof (blen_nonneg (start_mark f)); lia|].
    split; [lia|]. by replace (blen (start_mark f) + (k - blen (start_mark f))) with k by lia.
  - exfalso. destruct H as (a & b & E & <-). assert (length a < length (start_mark f))%nat as Hl by (unfold blen in Hlt; lia).
    assert (start_mark f !! length a = Some (ch "<")) as Hlk.
    { rewrite <- (lookup_app_l _ body) by done. rewrite E. rewrite lookup_app_r by done. rewrite Nat.sub_diag. by destruct f. }
    assert (a = []) as ->.
    { destruct a as [|x a]; [done|]. exfalso. cbn [length] in Hlk. assert (ch "<" ∉ drop 1 (start_mark f)) as Hno by (destruct f; tag_side).
      apply Hno. apply (list_elem_of_lookup_2 _ (length a)). rewrite <- Hlk, lookup_drop. done. }
    destruct f; discriminate E.
Qed.

Lemma split_shown f text n : (exists k, occurs (ztake n text) (end_mark f) k) -> exists content reasoning,
  split_reasoning_content_format (Some text) n f = (content, Some reasoning) /\ shown f (ztake n text) content reasoning.
Proof.
  intros [k Hk]. unfold split_reasoning_content_format. cbn [default]. change (id text) with text. set (s := ztake n text) in *.
  assert (chat_think_start f = start_mark f /\ chat_think_end f = end_mark f) as [-> ->] by (by destruct f).
  pose proof (strip_opened f s) as Ho. set (body := strip (start_mark f) s) in *.
  assert (exists j, occurs body (end_mark f) j) as [j Hj].
  { destruct Ho as [E|[-> _]]; [|by exists k]. rewrite E in Hk. apply end_behind_start in Hk. by eexists. }
  destruct (strstr body (end_mark f)) as [i|] eqn:Ei; [|by apply strstr_None in Hj].
  apply strstr_Some in Ei. pose proof (occurs_bounds _ _ _ (proj1 Ei)) as Hb. destruct Ei as [(a & b & E & <-) Hmin].
  do 2 eexists. split; [reflexivity|]. exists body. split; [done|].
  assert (ztake (blen a) body = a /\ zdrop (blen a + blen (end_mark f)) body = b) as [-> ->].
  { rewrite E. split; [by rewrite ztake_app|]. rewrite app_assoc, <- blen_app. by rewrite zdrop_app. }
  split; [done|]. split; [by exists a, b|done].
Qed.

(** *** Trimming *)
Lemma trim_trimmed text n : 0 <= n <= blen text -> trimmed (ztake n text) (ztake (trim_tool_separator_ws text 0 n) text).
Proof.
  intros Hn. unfold trim_tool_separator_ws. rewrite <- (Z2Nat.id n) at 1 by lia. assert (Z.to_nat n <= length text)%nat as Hl by (unfold blen in Hn; lia).
  clear Hn. induction (Z.to_nat n) as [|m IH]; cbn [trim_from].
  { split; [by exists []|]. intros k x E. by destruct k. }
  assert (exists c, text !! m = Some c) as [c Hc] by (apply lookup_lt_is_Some; lia).
  assert (take (S m) text = take m text ++ [c]) as Hs by (by apply take_S_r).
  rewrite (proj2 (Z.ltb_lt 0 (Z.of_nat (S m)))) by lia. cbn [andb].
  assert (znth 0 text (Z.of_nat m) = c) as -> by (apply znth_lookup; by rewrite Nat2Z.id).
  assert (ztake (Z.of_nat (S m)) text = ztake (Z.of_nat m) text ++ [c]) as Hz by (unfold ztake; by rewrite !Nat2Z.id).
  destruct (isspace c) eqn:Hsp.
  - destruct (IH ltac:(lia)) as [(ws & E & Hw) Hlast]. split; [|done]. exists (ws ++ [c]).
    rewrite Hz, E, <- app_assoc. split; [done|]. apply Forall_app. split; [done|]. by constructor.
  - split; [exists []; by rewrite app_nil_r|]. rewrite Hz. intros k x E. apply app_inj_tail in E as [_ <-]. done.
Qed.

Lemma exists_last_or_nil {A} (l : list A) : l = [] \/ exists l' x, l = l' ++ [x].
Proof. destruct l as [|x l] using rev_ind; [by left|right; by exists l, x]. Qed.

(** The end of reasoning is not white space, so that it stays. *)
Lemma trimmed_keeps f r pre kept : trimmed (r ++ end_mark f ++ pre) kept -> exists k, occurs kept (end_mark f) k.
Proof.
  intros [(ws & E & Hw) _]. destruct (Nat.le_gt_cases (length (r ++ end_mark f)) (length kept)) as [Hle|Hgt].
  - rewrite app_assoc in E. apply app_take_eq in E as (e & -> & _); [|done]. exists (blen r), r, e. by rewrite <- app_assoc.
  - exfalso. assert (exists x, end_mark f = x ++ [ch ">"]) as [x Ex] by (destruct f; [exists (bs "</think")|exists (bs "<|think:end|")|exists (bs "</think")|exists (bs "</think")]; done).
    symmetry in E. rewrite app_assoc in E. apply app_take_eq in E as (e & E & ->); [|lia].
    rewrite Ex, app_assoc in E. destruct (exists_last_or_nil e) as [->|(e' & y & ->)].
    { rewrite app_nil_r in E. rewrite <- E, Ex, app_assoc, !length_app in Hgt. cbn in Hgt. lia. }
    rewrite app_assoc in E. apply app_inj_tail in E as [_ <-]. rewrite <- app_assoc in Hw. apply Forall_app in Hw as [_ Hw]. by apply Forall_inv in Hw.
Qed.

(** *** The marks *)
Lemma preferred_found marks hay i m : first_found hay marks = Some (i, m) ->
  exists n, In (n, m) marks /\ preferred (map fst marks) hay n i.
Proof.
  unfold first_found. induction marks as [|[n' m'] marks IH]; cbn [fold_right fst snd]; [done|].
  destruct (strstr hay n') as [k|] eqn:E.
  - intros [= <- <-]. exists n'. split; [by left|]. exists [], (map fst marks). split; [done|]. split; [done|by apply strstr_Some].
  - intros H. destruct (IH H) as (n & Hin & before & after & Em & Hf & Hfi). exists n. split; [by right|].
    exists (n' :: before), after. cbn. rewrite Em. split; [done|]. split; [|done]. constructor; [|done]. intros k. by apply strstr_None.
Qed.

Lemma none_found marks hay : first_found hay marks = None -> Forall (fun m => absent m hay) (map fst marks).
Proof.
  unfold first_found. induction marks as [|[n m] marks IH]; cbn [fold_right fst snd map]; [by constructor|].
  destruct (strstr hay n) as [k|] eqn:E; [done|]. intros H. constructor; [|by apply IH]. intros k. by apply strstr_None.
Qed.

Lemma preferred_unique marks hay m m' i i' : preferred marks hay m i -> preferred marks hay m' i' -> m = m' /\ i = i'.
Proof.
  intros (b & a & E & Hb & Hi) (b' & a' & E' & Hb' & Hi').
  assert (b = b' /\ m = m') as [<- <-]; [|split; [done|by eapply first_at_unique]].
  rewrite E in E'. clear E. revert b' E' Hb'. induction b as [|x b IH]; intros [|x' b'] E' Hb'; cbn [app] in E'; injection E' as Ex E'.
  - done.
  - apply Forall_inv in Hb'. rewrite <- Ex in Hb'. exfalso. by apply (Hb' i), Hi.
  - apply Forall_inv in Hb. rewrite Ex in Hb. exfalso. by apply (Hb i'), Hi'.
  - apply Forall_inv_tail in Hb, Hb'. destruct (IH Hb b' E' Hb') as [-> ->]. by rewrite Ex.
Qed.

Lemma preferred_none marks hay m i : Forall (fun m => absent m hay) marks -> ~ preferred marks hay m i.
Proof.
  intros Hn (b & a & -> & _ & Hi). rewrite Forall_forall in Hn. apply (Hn m ltac:(set_solver) i), Hi.
Qed.

(** A parser with the shape of all of them is gated: [pick] is its search for a block
    behind the last end of reasoning, [read] what it makes of the block. *)
Lemma gated_by f text calls (p : parsed) :
  p <> OutOfFuel ->
  (search_from text true (end_mark f) = None -> p = Parsed [] (Some (strip (start_mark f) text)) calls) ->
  (forall from, search_from text true (end_mark f) = Some from ->
     (Forall (fun m => absent m (zdrop from text)) (tool_marks f) /\
        p = parsed_of (split_reasoning_content_format (Some text) (blen text) f) calls) \/
     (exists mark i, preferred (tool_marks f) (zdrop from text) mark i /\
        ((exists left, p = Rejected left) \/
         exists calls' q, q `suffix_of` zdrop (from + i) text /\ raw_dsml calls' = Some (between (zdrop (from + i) text) q) /\
           p = parsed_of (split_reasoning_content_format (Some text) (trim_tool_separator_ws text 0 (from + i)) f) calls'))) ->
  gated f text calls p.
Proof.
  intros Hfuel Hnone Hsome. split; [done|]. split.
  { intros Ha. eexists. split; [apply Hnone; by apply search_none|apply strip_opened]. }
  intros r rest Et Ha. pose proof (search_last f r rest Ha) as Hs. rewrite <- Et in Hs. specialize (Hsome _ Hs).
  assert (zdrop (blen (r ++ end_mark f)) text = rest) as Hz by (rewrite Et, app_assoc; apply zdrop_app). rewrite Hz in Hsome. split.
  - intros Hn. destruct Hsome as [[_ ->]|(mark & i & Hp & _)]; [|by apply preferred_none in Hp].
    destruct (split_shown f text (blen text)) as (c & s & -> & Hsh).
    { rewrite ztake_ge by done. exists (blen r), r, rest. by rewrite Et. }
    rewrite ztake_ge in Hsh by done. by exists c, s.
  - intros mark pre blk Hp Er. destruct Hsome as [[Hn _]|(mark' & i & Hp' & Hres)]; [by apply preferred_none in Hp|].
    destruct (preferred_unique _ _ _ _ _ _ Hp Hp') as [<- <-]. destruct Hres as [?|(calls' & q & Hq & Hraw & ->)]; [by left|right].
    assert (zdrop (blen (r ++ end_mark f) + blen pre) text = blk) as Hblk.
    { rewrite <- blen_app, Et, Er, !app_assoc. apply zdrop_app. }
    rewrite Hblk in Hq, Hraw. set (n := trim_tool_separator_ws text 0 _).
    assert (ztake (blen (r ++ end_mark f) + blen pre) text = r ++ end_mark f ++ pre) as Htk.
    { rewrite <- blen_app, Et, Er, !app_assoc. apply ztake_app. }
    pose proof (trim_trimmed text (blen (r ++ end_mark f) + blen pre)) as Htr. fold n in Htr. rewrite Htk in Htr.
    assert (trimmed (r ++ end_mark f ++ pre) (ztake n text)) as Htr'.
    { apply Htr. rewrite <- blen_app, Et, Er, !app_assoc, (blen_app _ blk). pose proof (blen_nonneg blk). pose proof (blen_nonneg (((r ++ end_mark f) ++ pre))). lia. }
    destruct (split_shown f text n (trimmed_keeps _ _ _ _ Htr')) as (c & s & -> & Hsh).
    exists (ztake n text), (between blk q), q, c, s, calls'. split; [done|]. split; [done|]. split; [done|]. split; [|done].
    symmetry. by apply between_suffix.
Qed.

Lemma dsml_gated f text calls : end_mark f = THINK_END -> start_mark f = THINK_START ->
  tool_marks f = map fst block_marks ->
  (forall n, split_reasoning_content (Some text) n = split_reasoning_content_format (Some text) n f) ->
  gated f text calls (parse_dsml_generated_message (Some text) true calls).
Proof.
  intros He Hst Hm Hsp. apply gated_by; [apply dsml_total|..]; unfold parse_dsml_generated_message;
    change (default [] (Some text)) with text; rewrite <- He.
  { intros ->. unfold local_unterminated_reasoning. by rewrite <- Hst. }
  intros from ->. destruct (first_found _ _) as [[i m]|] eqn:Ef.
  2: { left. split; [|by rewrite Hsp]. rewrite Hm. by apply none_found. }
  right. destruct (preferred_found _ _ _ _ Ef) as (n & _ & Hp). exists n, i. rewrite Hm. split; [done|].
  destruct (strstr _ m) as [k|]; [|left; by eexists].
  match goal with |- context [dsml_calls (S (length ?l)) ?l ?cs] => pose proof (dsml_calls_total (S (length l)) l cs ltac:(lia)) as Ht end.
  destruct (dsml_calls _ _ _) as [calls' [q| |]] eqn:Ec; [|left; by eexists|done].
  right. apply calls_suffix in Ec. exists (set_raw_dsml (between (zdrop (from + i) text) q) calls'), q. split; [|split; [done|by rewrite Hsp]].
  etransitivity; [exact Ec|]. eauto with suffixes.
Qed.

Lemma single_mark text mark : match strstr text mark with
  | Some i => preferred [mark] text mark i
  | None => Forall (fun m => absent m text) [mark]
  end.
Proof.
  destruct (strstr text mark) as [i|] eqn:E; [exists [], []; split; [done|]; split; [done|by apply strstr_Some]|].
  constructor; [|done]. intros k. by apply strstr_None.
Qed.

Lemma solar_gated text orders calls :
  gated FORMAT_SOLAR_OPEN2 text calls (parse_solar_generated_message (Some text) true orders calls).
Proof.
  apply gated_by; [apply solar_total|..]; unfold parse_solar_generated_message; change (default [] (Some text)) with text;
    change SOLAR_THINK_END with (end_mark FORMAT_SOLAR_OPEN2); [by intros ->|].
  intros from ->. pose proof (single_mark (zdrop from text) SOLAR_TOOL_CALL_START) as Hm.
  destruct (strstr _ _) as [i|]; [right; exists SOLAR_TOOL_CALL_START, i; split; [done|]|by left].
  match goal with |- context [solar_calls (S (length ?l)) ?o ?l ?cs] => pose proof (solar_calls_total o (S (length l)) l cs ltac:(lia)) as Ht end.
  destruct (solar_calls _ _ _ _) as [calls' [q| |]] eqn:Ec; [|left; by eexists|done]. apply solar_calls_suffix in Ec.
  destruct (0 <? _); [right|left; by eexists]. by exists (set_raw_dsml (between (zdrop (from + i) text) q) calls'), q.
Qed.

Lemma qwen_gated text orders calls :
  gated FORMAT_QWEN4EXP text calls (parse_qwen_generated_message (Some text) true orders calls).
Proof.
  apply gated_by; [apply qwen_total|..]; unfold parse_qwen_generated_message; change (default [] (Some text)) with text;
    change THINK_END with (end_mark FORMAT_QWEN4EXP); [by intros ->|].
  intros from ->. pose proof (single_mark (zdrop from text) QWEN_TOOL_CALL_START) as Hm.
  destruct (strstr _ _) as [i|]; [right; exists QWEN_TOOL_CALL_START, i; split; [done|]|by left].
  match goal with |- context [qwen_calls (S (length ?l)) ?o ?l ?cs] => pose proof (qwen_calls_total o (S (length l)) l cs ltac:(lia)) as Ht end.
  destruct (qwen_calls _ _ _ _) as [calls' [q| |]] eqn:Ec; [|left; by eexists|done]. apply qwen_calls_suffix in Ec.
  destruct (0 <? _); [right|left; by eexists]. by exists (set_raw_dsml (between (zdrop (from + i) text) q) calls'), q.
Qed.

