(* ===== verification/DList.v ===== *)
(** * Doubly linked lists of allocated objects (ds4_server.c)

    The tool memory keeps its entries, and the continuation registry its records,
    on intrusive doubly linked lists with a head and a tail pointer.  Here a
    pointer is a key, the [prev] and [next] fields of the allocated objects are a
    finite map from pointers, and a dereference of an absent key is [None].  The
    operations are those of the program, assignment by assignment; [repr d l]
    says that [d] is the list [l], first element at the head. *)

From S2P Require Import Prelude.

(** The address of an allocated object; NULL is [None] where a pointer may be
    null. *)
Abbreviation ptr := positive (only parsing).

Record links := Links { prev : option ptr; next : option ptr }.

Record dlist := DL { fields : gmap ptr links; head : option ptr; tail : option ptr }.

Definition dnil : dlist := DL ∅ None None.

(** ** Assignments through a pointer *)

Definition set_prev (p : ptr) (v : option ptr) (f : gmap ptr links) : option (gmap ptr links) :=
  l ← f !! p; Some (<[p := Links v (next l)]> f).

Definition set_next (p : ptr) (v : option ptr) (f : gmap ptr links) : option (gmap ptr links) :=
  l ← f !! p; Some (<[p := Links (prev l) v]> f).

(** tool_memory_link_head *)
Definition link_head (d : dlist) (e : ptr) : option dlist :=
  f1 ← set_prev e None (fields d);
  f2 ← set_next e (head d) f1;
  match head d with
  | Some h => f3 ← set_prev h (Some e) f2; Some (DL f3 (Some e) (tail d))
  | None => Some (DL f2 (Some e) (Some e))
  end.

(** tool_memory_unlink *)
Definition unlink (d : dlist) (e : ptr) : option dlist :=
  l ← fields d !! e;
  d1 ← (match prev l with
        | Some q => f ← set_next q (next l) (fields d); Some (DL f (head d) (tail d))
        | None => Some (DL (fields d) (next l) (tail d))
        end);
  d2 ← (match next l with
        | Some q => f ← set_prev q (prev l) (fields d1); Some (DL f (head d1) (tail d1))
        | None => Some (DL (fields d1) (head d1) (prev l))
        end);
  f1 ← set_prev e None (fields d2);
  f2 ← set_next e None f1;
  Some (DL f2 (head d2) (tail d2)).

(** A fresh object, its fields zeroed by the memset that follows its malloc. *)
Definition dalloc (p : ptr) (d : dlist) : dlist :=
  DL (<[p := Links None None]> (fields d)) (head d) (tail d).

Definition dfree (p : ptr) (d : dlist) : dlist :=
  DL (delete p (fields d)) (head d) (tail d).

(** ** Representation *)

Definition first (l : list ptr) (nx : option ptr) : option ptr :=
  match l with [] => nx | p :: _ => Some p end.

Fixpoint final (l : list ptr) (pv : option ptr) : option ptr :=
  match l with [] => pv | p :: t => final t (Some p) end.

(** The objects of [l] are allocated and chained both ways, the first one after
    [pv] and the last one before [nx]. *)
Fixpoint seg (f : gmap ptr links) (pv : option ptr) (l : list ptr) (nx : option ptr) : Prop :=
  match l with
  | [] => True
  | p :: t => f !! p = Some (Links pv (first t nx)) ∧ seg f (Some p) t nx
  end.

Definition repr (d : dlist) (l : list ptr) : Prop :=
  seg (fields d) None l None ∧ NoDup l ∧ head d = first l None ∧ tail d = final l None.

Lemma final_app l k pv : final (l ++ k) pv = final k (final l pv).
Proof.
  revert pv. induction l as [|p l IH]; intros pv; simpl; [done|]. apply IH.
Qed.

Lemma first_app l k nx : first (l ++ k) nx = first l (first k nx).
Proof. by destruct l. Qed.

Lemma seg_app f pv l k nx :
  seg f pv (l ++ k) nx ↔ seg f pv l (first k nx) ∧ seg f (final l pv) k nx.
Proof.
  revert pv. induction l as [|p l IH]; intros pv; simpl.
  - tauto.
  - rewrite IH, first_app. tauto.
Qed.

Lemma seg_lookup f pv l nx p : seg f pv l nx → p ∈ l → is_Some (f !! p).
Proof.
  revert pv. induction l as [|q l IH]; intros pv Hs Hp; [by apply elem_of_nil in Hp|].
  destruct Hs as [Hq Hs]. apply elem_of_cons in Hp as [->|Hp]; eauto.
Qed.

(** Objects outside the segment do not matter. *)
Lemma seg_frame f f' pv l nx :
  (∀ p, p ∈ l → f' !! p = f !! p) → seg f pv l nx → seg f' pv l nx.
Proof.
  revert pv. induction l as [|q l IH]; intros pv Hf Hs; [done|].
  destruct Hs as [Hq Hs]. split.
  - rewrite Hf; [done|]. by left.
  - apply IH; [|done]. intros p Hp. apply Hf. by right.
Qed.

Lemma seg_insert f pv l nx p v : p ∉ l → seg f pv l nx → seg (<[p := v]> f) pv l nx.
Proof.
  intros Hp. apply seg_frame. intros q Hq. apply lookup_insert_ne. by intros ->.
Qed.

Lemma seg_delete f pv l nx p : p ∉ l → seg f pv l nx → seg (delete p f) pv l nx.
Proof.
  intros Hp. apply seg_frame. intros q Hq. apply lookup_delete_ne. by intros ->.
Qed.

Lemma repr_nil : repr dnil [].
Proof. repeat split; constructor. Qed.

Lemma repr_alloc d l p : p ∉ l → repr d l → repr (dalloc p d) l.
Proof.
  intros Hp (Hs & Hn & Hh & Ht). split; [|done]. by apply seg_insert.
Qed.

Lemma repr_free d l p : p ∉ l → repr d l → repr (dfree p d) l.
Proof.
  intros Hp (Hs & Hn & Hh & Ht). split; [|done]. by apply seg_delete.
Qed.

Lemma repr_lookup d l p : repr d l → p ∈ l → is_Some (fields d !! p).
Proof. intros (Hs & _). by apply (seg_lookup _ _ _ _ _ Hs). Qed.

(** Linking an allocated object that is not on the list makes it the first. *)
Lemma link_head_repr d l e :
  repr d l → e ∉ l → is_Some (fields d !! e) →
  ∃ d', link_head d e = Some d' ∧ repr d' (e :: l).
Proof.
  intros (Hs & Hn & Hh & Ht) He [le Hle]. unfold link_head, set_prev, set_next.
  rewrite Hle. simpl. rewrite lookup_insert_eq. simpl. rewrite insert_insert_eq.
  rewrite Hh. destruct l as [|h l]; simpl.
  - eexists. split; [done|]. repeat split; simpl.
    + by rewrite lookup_insert_eq.
    + constructor; [done|constructor].
  - destruct Hs as [Hlh Hs]. assert (e ≠ h) by (intros ->; apply He; by left).
    rewrite lookup_insert_ne by done. rewrite Hlh. simpl.
    eexists. split; [done|]. apply NoDup_cons in Hn as Hn'. destruct Hn' as [Hhl Hnl].
    repeat split; simpl.
    + by rewrite lookup_insert_ne, lookup_insert_eq by done.
    + by rewrite lookup_insert_eq.
    + apply seg_insert; [done|]. apply seg_insert; [|done]. intros Hel. apply He. by right.
    + constructor; [|done]. intros [->|Hel]%elem_of_cons; [done|]. apply He. by right.
    + done.
Qed.

(** The fields of a linked object point to its neighbours. *)
Lemma repr_fields d l1 e l2 :
  repr d (l1 ++ e :: l2) →
  fields d !! e = Some (Links (final l1 None) (first l2 None)).
Proof. intros (Hs & _). apply seg_app in Hs as [_ [Hs _]]. done. Qed.

Lemma final_snoc l q pv : final (l ++ [q]) pv = Some q.
Proof. by rewrite final_app. Qed.

(** [set_next] and [set_prev] on the neighbours splice the list. *)
Lemma seg_set_next f pv l q nx nx' :
  NoDup (l ++ [q]) → seg f pv (l ++ [q]) nx →
  ∃ f', set_next q nx' f = Some f' ∧ seg f' pv (l ++ [q]) nx' ∧
        ∀ p, p ≠ q → f' !! p = f !! p.
Proof.
  intros Hn (Hs & Hq & _)%seg_app. unfold set_next. rewrite Hq. simpl.
  eexists. split; [done|]. apply NoDup_app in Hn as (_ & Hd & _).
  split; [apply seg_app; split|].
  - apply seg_insert; [|done]. intros Hql. apply (Hd _ Hql). by left.
  - simpl. by rewrite lookup_insert_eq.
  - intros p Hp. by apply lookup_insert_ne.
Qed.

Lemma seg_set_prev f pv pv' q l nx :
  NoDup (q :: l) → seg f pv (q :: l) nx →
  ∃ f', set_prev q pv' f = Some f' ∧ seg f' pv' (q :: l) nx ∧
        ∀ p, p ≠ q → f' !! p = f !! p.
Proof.
  intros [Hq Hn]%NoDup_cons [Hf Hs]. unfold set_prev. rewrite Hf. simpl.
  eexists. split; [done|]. split; [split|].
  - by rewrite lookup_insert_eq.
  - by apply seg_insert.
  - intros p Hp. by apply lookup_insert_ne.
Qed.

(** The fields of an allocated object that is off the list may be cleared. *)
Lemma seg_clear f pv l nx e le :
  e ∉ l → seg f pv l nx → f !! e = Some le →
  ∃ f1 f2, set_prev e None f = Some f1 ∧ set_next e None f1 = Some f2 ∧ seg f2 pv l nx.
Proof.
  intros He Hs Hle. unfold set_prev, set_next. rewrite Hle. simpl.
  eexists. eexists. split; [done|]. rewrite lookup_insert_eq. simpl. split; [done|].
  by do 2 (apply seg_insert; [done|]).
Qed.

Lemma NoDup_middle (l1 l2 : list ptr) e :
  NoDup (l1 ++ e :: l2) → NoDup (l1 ++ l2) ∧ e ∉ l1 ++ l2.
Proof.
  rewrite <- Permutation_middle. intros [? ?]%NoDup_cons. done.
Qed.

Lemma NoDup_split_unique (l1 l2 k1 k2 : list ptr) e :
  l1 ++ e :: l2 = k1 ++ e :: k2 → NoDup (l1 ++ e :: l2) → k1 = l1 ∧ k2 = l2.
Proof.
  revert k1. induction l1 as [|a l1 IH]; intros [|b k1]; simpl; intros H Hn.
  - by injection H as ->.
  - injection H as -> ->. apply NoDup_cons in Hn as [Hn _]. destruct Hn.
    apply elem_of_app. right. by left.
  - injection H as -> <-. apply NoDup_cons in Hn as [Hn _]. destruct Hn.
    apply elem_of_app. right. by left.
  - injection H as <- H. apply NoDup_cons in Hn as [_ Hn]. by destruct (IH _ H Hn) as [-> ->].
Qed.

(** Unlinking removes exactly the object, which stays allocated. *)
Lemma unlink_repr d l1 e l2 :
  repr d (l1 ++ e :: l2) →
  ∃ d', unlink d e = Some d' ∧ repr d' (l1 ++ l2) ∧ is_Some (fields d' !! e).
Proof.
  intros Hr. pose proof (repr_fields _ _ _ _ Hr) as He.
  destruct Hr as (Hs & Hn & Hh & Ht). destruct (NoDup_middle _ _ _ Hn) as [Hn' Hel].
  apply seg_app in Hs as [Hs1 [_ Hs2]]. simpl in Hs1.
  unfold unlink. rewrite He. simpl.
  (* the assignment to the predecessor, or to the head *)
  assert (∃ f1, (match final l1 None with
       | Some q => f ← set_next q (first l2 None) (fields d); Some (DL f (head d) (tail d))
       | None => Some (DL (fields d) (first l2 None) (tail d)) end)
      = Some (DL f1 (first (l1 ++ l2) None) (tail d)) ∧
      seg f1 None l1 (first l2 None) ∧ seg f1 (Some e) l2 None ∧ is_Some (f1 !! e))
    as (f1 & -> & Hf1 & Hf2 & Hfe).
  { destruct l1 as [|q l1 _] using rev_ind; [by eauto 10|]. rewrite final_snoc.
    assert (NoDup (l1 ++ [q])) as Hnq by (by apply NoDup_app in Hn' as (? & _)).
    destruct (seg_set_next _ _ _ _ _ (first l2 None) Hnq Hs1) as (f' & -> & Hf' & Hne).
    exists f'. simpl. split; [|repeat split].
    - rewrite Hh. f_equal. f_equal. rewrite <- !app_assoc. by destruct l1.
    - done.
    - apply (seg_frame (fields d)); [|done]. intros p Hp. apply Hne.
      intros ->. apply NoDup_app in Hn' as (_ & Hd & _). apply (Hd q); [|done].
      apply elem_of_app. right. by left.
    - rewrite Hne; [by rewrite He|]. intros ->. apply Hel.
      apply elem_of_app. left. apply elem_of_app. right. by left. }
  simpl.
  (* the assignment to the successor, or to the tail *)
  assert (∃ f2, (match first l2 None with
       | Some q => f ← set_prev q (final l1 None) f1;
                   Some (DL f (first (l1 ++ l2) None) (tail d))
       | None => Some (DL f1 (first (l1 ++ l2) None) (final l1 None)) end)
      = Some (DL f2 (first (l1 ++ l2) None) (final (l1 ++ l2) None)) ∧
      seg f2 None (l1 ++ l2) None ∧ is_Some (f2 !! e)) as (f2 & -> & Hf3 & Hfe2).
  { destruct l2 as [|q l2]; simpl; [rewrite app_nil_r; by eauto|].
    assert (NoDup (q :: l2)) as Hnq by (by apply NoDup_app in Hn' as (_ & _ & ?)).
    destruct (seg_set_prev _ _ (final l1 None) _ _ _ Hnq Hf2) as (f' & -> & Hf' & Hne).
    exists f'. simpl. split; [|split].
    - rewrite Ht, !final_app. done.
    - apply seg_app. split; [|done]. apply (seg_frame f1); [|done].
      intros p Hp. apply Hne. intros ->. apply NoDup_app in Hn' as (_ & Hd & _).
      apply (Hd q); [done|by left].
    - rewrite Hne; [done|]. intros ->. apply Hel. apply elem_of_app. right. by left. }
  simpl. destruct Hfe2 as [le Hle].
  destruct (seg_clear _ _ _ _ _ _ Hel Hf3 Hle) as (g1 & g2 & Hg1 & Hg2 & Hg).
  rewrite Hg1. simpl. rewrite Hg2. simpl. eexists. split; [done|].
  split; [by repeat split|]. simpl. revert Hg2. unfold set_next.
  destruct (g1 !! e) eqn:Hge; [|done]. simpl. intros [= <-]. by rewrite lookup_insert_eq.
Qed.
