(* ===== verification/ToolMem.v ===== *)
(** * Remembered tool-call text (tool_memory_* in ds4_server.c)

    A generated tool call is remembered as the exact text the model sampled, under
    the id the client will send back.  Entries (one per id) hang on an LRU list and
    share blocks (one per distinct text); a block is freed with its last entry.
    This file has the data, the operations on one memory, the invariant that ties
    the entries, the blocks, the two indexes and the byte count together, and what
    each operation does to it.  Pruning, which may evict a continuation record, is
    in ContRegistry. *)

From S2P Require Import Prelude DList.

(** ** Allocation

    malloc returns some address that is not in use; an address that was freed
    may come back. *)
Class Malloc := {
  malloc : gset ptr → ptr;
  malloc_fresh : ∀ X, malloc X ∉ X }.

#[export] Instance lowest_free : Malloc := {| malloc := fresh; malloc_fresh := is_fresh |}.

(** ** Data *)

Inductive tool_memory_source := TOOL_MEMORY_RAM | TOOL_MEMORY_DISK.

#[export] Instance tool_memory_source_eq : EqDecision tool_memory_source.
Proof. solve_decision. Defined.

(** [e_rec] is the continuation record that owns the entry; the [prev] and [next]
    fields live in the LRU list. *)
Record tool_memory_entry := Entry {
  e_id : list Z;
  e_block : option ptr;
  e_bytes : Z;
  e_stamp : Z;
  e_source : tool_memory_source;
  e_pins : Z;
  e_rec : option ptr }.

(** [b_entries] is the list chained through [block_next]. *)
Record tool_memory_block := Block {
  b_dsml : list Z;
  b_len : Z;
  b_bytes : Z;
  b_refs : Z;
  b_seen : Z;
  b_entries : list ptr }.

(** [ehp] and [bhp] are the entries and blocks allocated at the moment.  An index
    that has not been created answers like an empty one.  [srv] says whether the
    pointer to the owning server is set. *)
Record tool_memory := TM {
  by_id : gmap (list Z) ptr;
  by_block : gmap (list Z) ptr;
  ehp : gmap ptr tool_memory_entry;
  bhp : gmap ptr tool_memory_block;
  lru : dlist;
  entries : Z;
  max_entries : Z;
  bytes : Z;
  max_bytes : Z;
  clock : Z;
  scan_clock : Z;
  srv : bool }.

Definition empty_memory (me mb : Z) : tool_memory :=
  TM ∅ ∅ ∅ ∅ dnil 0 me 0 mb 0 0 false.

Definition with_lru (m : tool_memory) (d : dlist) : tool_memory :=
  TM (by_id m) (by_block m) (ehp m) (bhp m) d (entries m) (max_entries m) (bytes m)
     (max_bytes m) (clock m) (scan_clock m) (srv m).

Definition with_ehp (m : tool_memory) (h : gmap ptr tool_memory_entry) : tool_memory :=
  TM (by_id m) (by_block m) h (bhp m) (lru m) (entries m) (max_entries m) (bytes m)
     (max_bytes m) (clock m) (scan_clock m) (srv m).

Definition with_blocks (m : tool_memory) (i : gmap (list Z) ptr)
    (h : gmap ptr tool_memory_block) (n : Z) : tool_memory :=
  TM (by_id m) i (ehp m) h (lru m) (entries m) (max_entries m) n (max_bytes m) (clock m)
     (scan_clock m) (srv m).

Definition with_clock (m : tool_memory) (c : Z) : tool_memory :=
  TM (by_id m) (by_block m) (ehp m) (bhp m) (lru m) (entries m) (max_entries m) (bytes m)
     (max_bytes m) c (scan_clock m) (srv m).

Definition with_srv (m : tool_memory) : tool_memory :=
  TM (by_id m) (by_block m) (ehp m) (bhp m) (lru m) (entries m) (max_entries m) (bytes m)
     (max_bytes m) (clock m) (scan_clock m) true.

Definition with_block (e : tool_memory_entry) (b : option ptr) : tool_memory_entry :=
  Entry (e_id e) b (e_bytes e) (e_stamp e) (e_source e) (e_pins e) (e_rec e).
Definition with_stamp (e : tool_memory_entry) (z : Z) : tool_memory_entry :=
  Entry (e_id e) (e_block e) (e_bytes e) z (e_source e) (e_pins e) (e_rec e).
Definition with_source (e : tool_memory_entry) (s : tool_memory_source) : tool_memory_entry :=
  Entry (e_id e) (e_block e) (e_bytes e) (e_stamp e) s (e_pins e) (e_rec e).
Definition with_pins (e : tool_memory_entry) (z : Z) : tool_memory_entry :=
  Entry (e_id e) (e_block e) (e_bytes e) (e_stamp e) (e_source e) z (e_rec e).
Definition with_rec (e : tool_memory_entry) (r : option ptr) : tool_memory_entry :=
  Entry (e_id e) (e_block e) (e_bytes e) (e_stamp e) (e_source e) (e_pins e) r.

Definition with_entries (k : tool_memory_block) (refs : Z) (l : list ptr) : tool_memory_block :=
  Block (b_dsml k) (b_len k) (b_bytes k) refs (b_seen k) l.

(** ** Limits *)

Definition DS4_TOOL_MEMORY_DEFAULT_MAX_IDS : Z := 100000.
Definition DS4_TOOL_MEMORY_MAX_BYTES : Z := 512 * 1024 * 1024.

(** sizeof(tool_memory_block) and sizeof(tool_memory_entry), LP64 *)
Definition SIZEOF_BLOCK : Z := 48.
Definition SIZEOF_ENTRY : Z := 72.

Definition tool_memory_max_entries (m : tool_memory) : Z :=
  if 0 <? max_entries m then max_entries m else DS4_TOOL_MEMORY_DEFAULT_MAX_IDS.

Definition tool_memory_max_bytes (m : tool_memory) : Z :=
  if 0 <? max_bytes m then max_bytes m else DS4_TOOL_MEMORY_MAX_BYTES.

(** ** Operations *)

(** The bytes of an object leave the count, which never goes below zero. *)
Definition give_back (total n : Z) : Z := if n <=? total then total - n else 0.

(** tool_memory_touch *)
Definition tool_memory_touch (m : tool_memory) (p : ptr) : option tool_memory :=
  e ← ehp m !! p;
  let c := u64 (clock m + 1) in
  let m1 := with_clock (with_ehp m (<[p := with_stamp e c]> (ehp m))) c in
  if bool_decide (head (lru m) = Some p) then Some m1
  else d1 ← unlink (lru m) p; d2 ← link_head d1 p; Some (with_lru m1 d2).

(** tool_block_unlink_entry *)
Fixpoint tool_block_unlink_entry (l : list ptr) (p : ptr) : list ptr :=
  match l with
  | [] => []
  | q :: t => if bool_decide (q = p) then t else q :: tool_block_unlink_entry t p
  end.

(** tool_memory_find_block_locked *)
Definition tool_memory_find_block_locked (m : tool_memory) (dsml : list Z) : option ptr :=
  if blen dsml =? 0 then None else by_block m !! dsml.

(** tool_memory_find_entry_locked: a null or empty id names nothing. *)
Definition tool_memory_find_entry_locked (m : tool_memory) (id : option (list Z)) : option ptr :=
  match id with
  | None | Some [] => None
  | Some i => by_id m !! i
  end.

Arguments tool_memory_find_entry_locked : simpl never.

(** tool_memory_release_block_locked *)
Definition tool_memory_release_block_locked (m : tool_memory) (ob : option ptr)
    : option tool_memory :=
  match ob with
  | None => Some m
  | Some b =>
      k ← bhp m !! b;
      let refs := b_refs k - 1 in
      if 0 <? refs then
        Some (with_blocks m (by_block m) (<[b := with_entries k refs (b_entries k)]> (bhp m))
                          (bytes m))
      else
        Some (with_blocks m (delete (b_dsml k) (by_block m)) (delete b (bhp m))
                          (give_back (bytes m) (b_bytes k)))
  end.

(** tool_memory_remove_entry_locked *)
Definition tool_memory_remove_entry_locked (m : tool_memory) (p : ptr) : option tool_memory :=
  e ← ehp m !! p;
  d ← unlink (lru m) p;
  h ← (match e_block e with
       | None => Some (bhp m)
       | Some b => k ← bhp m !! b;
                   Some (<[b := with_entries k (b_refs k)
                                  (tool_block_unlink_entry (b_entries k) p)]> (bhp m))
       end);
  let m1 := TM (delete (e_id e) (by_id m)) (by_block m) (ehp m) h d
               (if 0 <? entries m then entries m - 1 else entries m) (max_entries m)
               (give_back (bytes m) (e_bytes e)) (max_bytes m) (clock m) (scan_clock m)
               (srv m) in
  m2 ← tool_memory_release_block_locked m1 (e_block e);
  Some (with_lru (with_ehp m2 (delete p (ehp m2))) (dfree p (lru m2))).

(** ** Adding an entry *)

Section alloc.
Context `{Malloc}.

(** tool_memory_get_block_locked *)
Definition tool_memory_get_block_locked (m : tool_memory) (dsml : list Z)
    : tool_memory * ptr :=
  match tool_memory_find_block_locked m dsml with
  | Some b => (m, b)
  | None =>
      let b := malloc (dom (bhp m)) in
      let size := blen dsml + 1 + SIZEOF_BLOCK in
      (with_blocks m (<[dsml := b]> (by_block m))
                     (<[b := Block dsml (blen dsml) size 0 0 []]> (bhp m))
                     (bytes m + size), b)
  end.

(** The part of tool_memory_put_locked between the removal of the old entry and
    the prune: the new entry joins its block, the index and the LRU list. *)
Definition put_new (m : tool_memory) (id dsml : list Z) (source : tool_memory_source)
    : option tool_memory :=
  let '(m1, b) := tool_memory_get_block_locked m dsml in
  let p := malloc (dom (ehp m1)) in
  let c := u64 (clock m1 + 1) in
  let e := Entry id (Some b) (blen id + 1 + SIZEOF_ENTRY) c source 0 None in
  k ← bhp m1 !! b;
  d ← link_head (dalloc p (lru m1)) p;
  Some (TM (<[id := p]> (by_id m1)) (by_block m1) (<[p := e]> (ehp m1))
           (<[b := with_entries k (b_refs k + 1) (p :: b_entries k)]> (bhp m1)) d
           (entries m1 + 1) (max_entries m1) (bytes m1 + e_bytes e) (max_bytes m1) c
           (scan_clock m1) (srv m1)).
End alloc.

(** What no operation on the entries changes. *)
Definition params (m : tool_memory) : Z * Z * bool := (max_entries m, max_bytes m, srv m).

(** The text remembered under an id, and where it came from, as a lookup reads
    them. *)
Definition text_of (m : tool_memory) (id : list Z) : option (list Z) :=
  p ← by_id m !! id; e ← ehp m !! p; b ← e_block e; k ← bhp m !! b; Some (b_dsml k).

(** * The invariant *)

(** ** Sums over the objects allocated *)

Definition msum {A} (f : A → Z) (h : gmap ptr A) : Z := map_fold (λ _ x n, f x + n) 0 h.

Section msum.
Context {A : Type} (f : A → Z).
Implicit Types h : gmap ptr A.

Lemma msum_empty : msum f ∅ = 0.
Proof. done. Qed.

Lemma msum_insert h p x : h !! p = None → msum f (<[p := x]> h) = f x + msum f h.
Proof.
  intros Hp. unfold msum. apply (map_fold_insert_L (λ _ x n, f x + n)); [|done]. lia.
Qed.

Lemma msum_delete h p x : h !! p = Some x → msum f h = f x + msum f (delete p h).
Proof.
  intros Hp. unfold msum. apply (map_fold_delete_L (λ _ x n, f x + n)); [|done]. lia.
Qed.

Lemma msum_update h p x y :
  h !! p = Some x → msum f (<[p := y]> h) = msum f h - f x + f y.
Proof.
  intros Hp. rewrite <- (insert_delete_eq h p y), msum_insert by apply lookup_delete_eq.
  rewrite (msum_delete h p x Hp). lia.
Qed.

Lemma msum_nonneg h : (∀ p x, h !! p = Some x → 0 <= f x) → 0 <= msum f h.
Proof.
  induction h as [|p x h Hp IH] using map_ind; intros Hf; [done|].
  rewrite msum_insert by done. assert (0 <= f x) by (apply (Hf p); by rewrite lookup_insert_eq).
  assert (0 <= msum f h); [|lia]. apply IH. intros q y Hq. apply (Hf q).
  rewrite lookup_insert_ne; [done|]. by intros ->; rewrite Hp in Hq.
Qed.
End msum.

(** ** Well-formed memories *)

Record entry_ok (m : tool_memory) (p : ptr) (e : tool_memory_entry) : Prop := {
  entry_id : e_id e ≠ [];
  entry_bytes : e_bytes e = blen (e_id e) + 1 + SIZEOF_ENTRY;
  entry_block : ∃ b k, e_block e = Some b ∧ bhp m !! b = Some k ∧ p ∈ b_entries k }.

Record block_ok (m : tool_memory) (b : ptr) (k : tool_memory_block) : Prop := {
  block_text : b_dsml k ≠ [];
  block_len : b_len k = blen (b_dsml k);
  block_bytes : b_bytes k = blen (b_dsml k) + 1 + SIZEOF_BLOCK;
  block_refs : b_refs k = blen (b_entries k);
  block_used : b_entries k ≠ [];
  block_nodup : NoDup (b_entries k);
  block_entries : ∀ p, p ∈ b_entries k → ∃ e, ehp m !! p = Some e ∧ e_block e = Some b }.

Record mem_ok (m : tool_memory) (L : list ptr) : Prop := {
  mem_lru : repr (lru m) L;
  mem_dom : ∀ p, p ∈ L ↔ is_Some (ehp m !! p);
  mem_count : entries m = blen L;
  mem_ids : ∀ i p, by_id m !! i = Some p ↔ ∃ e, ehp m !! p = Some e ∧ e_id e = i;
  mem_texts : ∀ t b, by_block m !! t = Some b ↔ ∃ k, bhp m !! b = Some k ∧ b_dsml k = t;
  mem_entry : ∀ p e, ehp m !! p = Some e → entry_ok m p e;
  mem_block : ∀ b k, bhp m !! b = Some k → block_ok m b k;
  mem_bytes : bytes m = msum e_bytes (ehp m) + msum b_bytes (bhp m) }.

Lemma empty_memory_ok me mb : mem_ok (empty_memory me mb) [].
Proof.
  split; simpl; try done.
  - apply repr_nil.
  - intros p. rewrite lookup_empty. split; [by intros ?%elem_of_nil|by intros [? ?]].
  - intros i p. rewrite lookup_empty. split; [done|]. by intros (e & He & _).
  - intros t b. rewrite lookup_empty. split; [done|]. by intros (k & Hk & _).
Qed.

(** ** The entry list of a block *)

Lemma unlink_entry_perm l p :
  p ∈ l → l ≡ₚ p :: tool_block_unlink_entry l p.
Proof.
  induction l as [|q l IH]; [by intros ?%elem_of_nil|]. simpl.
  destruct (bool_decide_reflect (q = p)) as [->|Hne]; [done|].
  intros [->|Hp]%elem_of_cons; [done|]. rewrite (IH Hp) at 1. apply Permutation_swap.
Qed.

Lemma unlink_entry_in l p q :
  NoDup l → p ∈ l → q ∈ tool_block_unlink_entry l p ↔ q ∈ l ∧ q ≠ p.
Proof.
  intros Hn Hp. pose proof (unlink_entry_perm _ _ Hp) as Hl. rewrite Hl in Hn.
  apply NoDup_cons in Hn as [Hp' _]. rewrite Hl at 2. rewrite elem_of_cons.
  split; [|tauto]. intros Hq. split; [by right|]. by intros ->.
Qed.

Lemma unlink_entry_nodup l p : NoDup l → p ∈ l → NoDup (tool_block_unlink_entry l p).
Proof.
  intros Hn Hp. rewrite (unlink_entry_perm _ _ Hp) in Hn. by apply NoDup_cons in Hn as [_ ?].
Qed.

Lemma unlink_entry_len l p :
  p ∈ l → blen (tool_block_unlink_entry l p) = blen l - 1.
Proof.
  intros Hp. unfold blen. rewrite (unlink_entry_perm _ _ Hp) at 2. simpl. lia.
Qed.

(** ** Bytes *)

Lemma entry_bytes_nonneg m L h : mem_ok m L → h ⊆ ehp m → 0 <= msum e_bytes h.
Proof.
  intros Hm Hh. apply msum_nonneg. intros p e He.
  rewrite (entry_bytes _ _ _ (mem_entry _ _ Hm _ _ (lookup_weaken _ _ _ _ He Hh))).
  pose proof (blen_nonneg (e_id e)). unfold SIZEOF_ENTRY. lia.
Qed.

Lemma block_bytes_nonneg m L h : mem_ok m L → h ⊆ bhp m → 0 <= msum b_bytes h.
Proof.
  intros Hm Hh. apply msum_nonneg. intros b k Hk.
  rewrite (block_bytes _ _ _ (mem_block _ _ Hm _ _ (lookup_weaken _ _ _ _ Hk Hh))).
  pose proof (blen_nonneg (b_dsml k)). unfold SIZEOF_BLOCK. lia.
Qed.

Lemma give_back_exact total n rest : 0 <= rest → total = n + rest → give_back total n = rest.
Proof. intros Hr ->. unfold give_back. destruct (n <=? n + rest) eqn:E; lia. Qed.

(** ** Changes the invariant does not see *)

Lemma mem_ok_clock m L c : mem_ok m L → mem_ok (with_clock m c) L.
Proof. intros [????? He Hb ?]. split; try done. - intros p e H. by destruct (He p e H). - intros b k H. by destruct (Hb b k H). Qed.

Lemma mem_ok_srv m L : mem_ok m L → mem_ok (with_srv m) L.
Proof. intros [????? He Hb ?]. split; try done. - intros p e H. by destruct (He p e H). - intros b k H. by destruct (Hb b k H). Qed.

Lemma mem_ok_lru m L d L' :
  mem_ok m L → repr d L' → L' ≡ₚ L → mem_ok (with_lru m d) L'.
Proof.
  intros [? Hd Hc ?? He Hb ?] Hr HL. split; try done.
  - intros p. by rewrite HL.
  - simpl. rewrite Hc. unfold blen. by rewrite HL.
  - intros p e H. by destruct (He p e H).
  - intros b k H. by destruct (Hb b k H).
Qed.

(** An assignment to a field other than the id, the block and the size. *)
Lemma mem_ok_update m L p e e' :
  mem_ok m L → ehp m !! p = Some e →
  e_id e' = e_id e → e_block e' = e_block e → e_bytes e' = e_bytes e →
  mem_ok (with_ehp m (<[p := e']> (ehp m))) L.
Proof.
  intros Hm Hp Hi Hk Hb. destruct Hm as [? Hd Hc Hids ? He Hbl Hby].
  assert (∀ q x, <[p := e']> (ehp m) !! q = Some x →
            ∃ y, ehp m !! q = Some y ∧ e_id x = e_id y ∧ e_block x = e_block y ∧
                 e_bytes x = e_bytes y) as Hback.
  { intros q x. destruct (decide (p = q)) as [<-|Hne].
    - rewrite lookup_insert_eq. intros [= <-]. eauto.
    - rewrite lookup_insert_ne by done. eauto. }
  assert (∀ q y, ehp m !! q = Some y →
            ∃ x, <[p := e']> (ehp m) !! q = Some x ∧ e_id x = e_id y ∧ e_block x = e_block y)
    as Hforth.
  { intros q y. destruct (decide (p = q)) as [<-|Hne].
    - rewrite Hp, lookup_insert_eq. intros [= <-]. eauto.
    - rewrite lookup_insert_ne by done. eauto. }
  split; simpl; try done.
  - intros q. rewrite Hd, lookup_insert_is_Some. destruct (decide (p = q)) as [<-|Hne].
    + rewrite Hp. split; eauto.
    + split; [tauto|]. intros [->|[_ ?]]; done.
  - intros i q. rewrite Hids. split.
    + intros (y & Hy & <-). destruct (Hforth q y Hy) as (x & Hx & Hxi & _). eauto.
    + intros (x & Hx & <-). destruct (Hback q x Hx) as (y & Hy & Hyi & _). eauto.
  - intros q x Hx. destruct (Hback q x Hx) as (y & Hy & Hxi & Hxb & Hxs).
    destruct (He q y Hy) as [A B C]. split; rewrite ?Hxi, ?Hxs, ?Hxb; done.
  - intros b k Hbk. destruct (Hbl b k Hbk) as [? ? ? ? ? ? Hin]. split; try done.
    intros q Hq. destruct (Hin q Hq) as (y & Hy & Hyb).
    destruct (Hforth q y Hy) as (x & Hx & _ & Hxb). simpl. exists x. by rewrite Hxb.
  - rewrite (msum_update _ _ _ e) by done. lia.
Qed.

Lemma text_of_update m p e e' i :
  ehp m !! p = Some e → e_block e' = e_block e →
  text_of (with_ehp m (<[p := e']> (ehp m))) i = text_of m i.
Proof.
  intros Hp Hb. unfold text_of. simpl. destruct (by_id m !! i) as [q|]; simpl; [|done].
  destruct (decide (p = q)) as [<-|Hne].
  - by rewrite lookup_insert_eq, Hp; simpl; rewrite Hb.
  - by rewrite lookup_insert_ne.
Qed.

(** Touching moves the entry to the head. *)
Lemma touch_ok m L p :
  mem_ok m L → p ∈ L →
  ∃ e m' L', ehp m !! p = Some e ∧ tool_memory_touch m p = Some m' ∧ mem_ok m' L' ∧
    L' ≡ₚ L ∧ ehp m' = <[p := with_stamp e (u64 (clock m + 1))]> (ehp m) ∧
    by_id m' = by_id m ∧ bhp m' = bhp m ∧ params m' = params m ∧ entries m' = entries m ∧ bytes m' = bytes m.
Proof.
  intros Hm Hp. destruct (proj1 (mem_dom _ _ Hm p) Hp) as [e He].
  unfold tool_memory_touch. rewrite He. simpl.
  set (m1 := with_clock _ _). assert (mem_ok m1 L) as Hm1.
  { apply mem_ok_clock. by apply (mem_ok_update _ _ _ e). }
  case_bool_decide as Hh.
  { exists e, m1, L. do 9 (split; [done|]). done. }
  apply list_elem_of_split in Hp as (l1 & l2 & ->).
  destruct (unlink_repr _ _ _ _ (mem_lru _ _ Hm)) as (d1 & -> & Hr & Hs). simpl.
  destruct (link_head_repr d1 (l1 ++ l2) p Hr) as (d2 & -> & Hr2); [|done|].
  { apply NoDup_middle. apply (mem_lru _ _ Hm). }
  simpl. exists e, (with_lru m1 d2), (p :: l1 ++ l2). split; [done|]. split; [done|].
  assert (p :: l1 ++ l2 ≡ₚ l1 ++ p :: l2) as HP by apply Permutation_middle.
  split; [by apply (mem_ok_lru m1 (l1 ++ p :: l2))|]. do 6 (split; [done|]). done.
Qed.

(** ** Removing an entry *)

(** The blocks after an entry of block [b] has left: the block goes with its last
    entry. *)
Definition release (h : gmap ptr tool_memory_block) (b p : ptr) (k : tool_memory_block)
    : gmap ptr tool_memory_block :=
  let l := tool_block_unlink_entry (b_entries k) p in
  if decide (l = []) then delete b h else <[b := with_entries k (blen l) l]> h.

Lemma remove_eval m L1 p L2 e b k :
  mem_ok m (L1 ++ p :: L2) → ehp m !! p = Some e → e_block e = Some b → bhp m !! b = Some k →
  p ∈ b_entries k →
  ∃ d, repr d (L1 ++ L2) ∧
    let l := tool_block_unlink_entry (b_entries k) p in
    let h := release (bhp m) b p k in
    tool_memory_remove_entry_locked m p =
      Some (TM (delete (e_id e) (by_id m))
               (if decide (l = []) then delete (b_dsml k) (by_block m) else by_block m)
               (delete p (ehp m)) h d (blen (L1 ++ L2)) (max_entries m)
               (msum e_bytes (delete p (ehp m)) + msum b_bytes h)
               (max_bytes m) (clock m) (scan_clock m) (srv m)).
Proof.
  intros Hm He Heb Hk Hp.
  assert (0 <= msum e_bytes (delete p (ehp m))) as HsE
    by exact (entry_bytes_nonneg _ _ _ Hm (delete_subseteq _ _)).
  assert (0 <= msum b_bytes (bhp m)) as HsB by exact (block_bytes_nonneg _ _ _ Hm (reflexivity _)).
  destruct (unlink_repr _ _ _ _ (mem_lru _ _ Hm)) as (d & Hd & Hr & Hs).
  exists (dfree p d). split; [by apply repr_free; [apply NoDup_middle, (mem_lru _ _ Hm)|]|].
  destruct (mem_block _ _ Hm _ _ Hk) as [_ _ Hkb Href _ Hnd _].
  pose proof (unlink_entry_len _ _ Hp) as Hlen. cbv zeta.
  set (l := tool_block_unlink_entry (b_entries k) p) in *.
  unfold tool_memory_remove_entry_locked. rewrite He. simpl. rewrite Hd. simpl.
  rewrite Heb, Hk. simpl. fold l. rewrite lookup_insert_eq. simpl.
  assert ((if 0 <? entries m then entries m - 1 else entries m) = blen (L1 ++ L2)) as ->.
  { rewrite (mem_count _ _ Hm), !blen_app, blen_cons.
    pose proof (blen_nonneg L1). pose proof (blen_nonneg L2).
    destruct (0 <? blen L1 + (1 + blen L2)) eqn:E; lia. }
  assert (give_back (bytes m) (e_bytes e) =
          msum e_bytes (delete p (ehp m)) + msum b_bytes (bhp m)) as ->.
  { apply give_back_exact; [lia|]. rewrite (mem_bytes _ _ Hm), (msum_delete _ (ehp m) p e) by done.
    lia. }
  unfold release. fold l. rewrite Href. destruct (decide (l = [])) as [El|El].
  - rewrite El in Hlen. change (blen (@nil ptr)) with 0 in Hlen.
    replace (0 <? blen (b_entries k) - 1) with false by lia. simpl.
    unfold with_lru, with_ehp, with_blocks. simpl. rewrite delete_insert_eq.
    do 2 f_equal. apply give_back_exact.
    + pose proof (block_bytes_nonneg _ _ _ Hm (delete_subseteq (bhp m) b)). lia.
    + rewrite (msum_delete b_bytes (bhp m) b k) by done. lia.
  - assert (0 < blen l) by (destruct l as [|q l]; [done|]; rewrite blen_cons; pose proof (blen_nonneg l); lia).
    replace (0 <? blen (b_entries k) - 1) with true by lia.
    unfold with_lru, with_ehp, with_blocks. simpl. rewrite insert_insert_eq.
    replace (blen (b_entries k) - 1) with (blen l) by lia.
    rewrite (msum_update b_bytes (bhp m) b k) by done. do 2 f_equal. simpl. lia.
Qed.

(** The block that loses an entry. *)
Lemma release_lookup h b p k b' :
  release h b p k !! b' =
    if decide (b' = b) then
      if decide (tool_block_unlink_entry (b_entries k) p = []) then None
      else Some (with_entries k (blen (tool_block_unlink_entry (b_entries k) p))
                                (tool_block_unlink_entry (b_entries k) p))
    else h !! b'.
Proof.
  unfold release. destruct (decide (b' = b)) as [->|Hb]; case_decide.
  - by rewrite lookup_delete_eq.
  - by rewrite lookup_insert_eq.
  - by rewrite lookup_delete_ne.
  - by rewrite lookup_insert_ne.
Qed.

(** The text of a remaining block is unchanged. *)
Lemma release_text h b p k b' k' :
  h !! b = Some k → release h b p k !! b' = Some k' →
  ∃ k0, h !! b' = Some k0 ∧ b_dsml k' = b_dsml k0.
Proof.
  rewrite release_lookup. intros Hk. destruct (decide (b' = b)) as [->|].
  - case_decide; [done|]. intros [= <-]. eauto.
  - eauto.
Qed.

Lemma release_bytes m L b p k :
  mem_ok m L → bhp m !! b = Some k → msum b_bytes (release (bhp m) b p k) <= msum b_bytes (bhp m).
Proof.
  intros Hm Hk. unfold release. case_decide.
  - rewrite (msum_delete b_bytes (bhp m) b k Hk), (block_bytes _ _ _ (mem_block _ _ Hm _ _ Hk)).
    pose proof (blen_nonneg (b_dsml k)). unfold SIZEOF_BLOCK. lia.
  - rewrite (msum_update b_bytes (bhp m) b k _ Hk). simpl. lia.
Qed.

(** Removing an entry deletes it, its id, and its block when no other entry shares
    the text. *)
Lemma remove_ok m L1 p L2 :
  mem_ok m (L1 ++ p :: L2) →
  ∃ e m', ehp m !! p = Some e ∧ tool_memory_remove_entry_locked m p = Some m' ∧
    mem_ok m' (L1 ++ L2) ∧ ehp m' = delete p (ehp m) ∧
    by_id m' = delete (e_id e) (by_id m) ∧ params m' = params m ∧
    entries m' <= entries m ∧ bytes m' <= bytes m ∧
    (∀ b k' , bhp m' !! b = Some k' → ∃ k, bhp m !! b = Some k ∧ b_dsml k' = b_dsml k).
Proof.
  intros Hm. assert (p ∈ L1 ++ p :: L2) as HpL by (apply elem_of_app; right; by left).
  destruct (proj1 (mem_dom _ _ Hm p) HpL) as [e He].
  destruct (entry_block _ _ _ (mem_entry _ _ Hm _ _ He)) as (b & k & Heb & Hk & Hp).
  destruct (remove_eval _ _ _ _ _ _ _ Hm He Heb Hk Hp) as (d & Hd & Hev). cbv zeta in Hev.
  destruct (mem_block _ _ Hm _ _ Hk) as [Hkt Hkl Hkb Href _ Hnd Hke].
  pose proof (NoDup_middle _ _ _ (proj1 (proj2 (mem_lru _ _ Hm)))) as [HnL HpL'].
  eexists e, _. split; [done|]. split; [exact Hev|].
  split; [|split; [done|]; split; [done|]; split; [done|]; split; [|split]].
  2: { simpl. rewrite (mem_count _ _ Hm), !blen_app, blen_cons. lia. }
  2: { simpl. rewrite (mem_bytes _ _ Hm), (msum_delete _ (ehp m) p e He).
       pose proof (release_bytes m _ b p k Hm Hk). pose proof (blen_nonneg (e_id e)).
       rewrite (entry_bytes _ _ _ (mem_entry _ _ Hm _ _ He)). unfold SIZEOF_ENTRY. lia. }
  2: { intros b' k'. by apply release_text. }
  assert (∀ b' k', release (bhp m) b p k !! b' = Some k' → ∀ q, q ∈ b_entries k' → q ≠ p)
    as Hgone.
  { intros b' k'. rewrite release_lookup. destruct (decide (b' = b)) as [->|Hb].
    - case_decide; [done|]. intros [= <-] q. simpl. rewrite unlink_entry_in by done. tauto.
    - intros Hk' q Hq ->. destruct (block_entries _ _ _ (mem_block _ _ Hm _ _ Hk') _ Hq) as (x & Hx & Hxb).
      congruence. }
  split; simpl; try done.
  - intros q. rewrite lookup_delete_is_Some, <- (mem_dom _ _ Hm).
    rewrite !elem_of_app, elem_of_cons. rewrite elem_of_app in HpL'. naive_solver.
  - intros i q. rewrite lookup_delete_Some, (mem_ids _ _ Hm). split.
    + intros [Hi (x & Hx & <-)]. exists x. rewrite lookup_delete_ne; [done|].
      intros <-. congruence.
    + intros (x & [Hpq Hx]%lookup_delete_Some & <-). split; [|by eauto]. intros Hid.
      apply Hpq. assert (by_id m !! e_id e = Some p) by (apply (mem_ids _ _ Hm); eauto).
      assert (by_id m !! e_id e = Some q) by (apply (mem_ids _ _ Hm); eauto). congruence.
  - intros t b'. case_decide as El.
    + rewrite lookup_delete_Some, (mem_texts _ _ Hm). setoid_rewrite release_lookup. split.
      * intros [Ht (k' & Hk' & <-)]. exists k'. rewrite decide_False; [done|].
        intros ->. congruence.
      * intros (k' & Hk' & <-). destruct (decide (b' = b)) as [->|Hb]; [by rewrite decide_True in Hk'|].
        split; [|by eauto]. intros Ht. apply Hb.
        assert (by_block m !! b_dsml k = Some b) by (apply (mem_texts _ _ Hm); eauto).
        assert (by_block m !! b_dsml k = Some b') by (apply (mem_texts _ _ Hm); eauto). congruence.
    + rewrite (mem_texts _ _ Hm). setoid_rewrite release_lookup. split.
      * intros (k' & Hk' & <-). destruct (decide (b' = b)) as [->|]; [|by eauto].
        rewrite decide_False by done. eexists. split; [done|]. simpl. congruence.
      * intros (k' & Hk' & <-). destruct (decide (b' = b)) as [->|]; [|by eauto].
        rewrite decide_False in Hk' by done. injection Hk' as <-. eauto.
  - intros q x [Hpq Hx]%lookup_delete_Some. destruct (mem_entry _ _ Hm _ _ Hx) as [A B (b' & k' & C & D & E)].
    split; [done|done|]. simpl. setoid_rewrite release_lookup. exists b'.
    destruct (decide (b' = b)) as [->|]; [|by eauto]. replace k' with k in * by congruence.
    assert (q ∈ tool_block_unlink_entry (b_entries k) p) by (apply unlink_entry_in; done).
    case_decide as El; [by rewrite El in *; set_solver|]. eauto.
  - intros b' k' Hk'. pose proof (Hgone _ _ Hk') as Hne. rewrite release_lookup in Hk'.
    destruct (decide (b' = b)) as [->|Hb].
    + case_decide as El; [done|]. injection Hk' as <-. split; simpl; try done.
      * by apply unlink_entry_nodup.
      * intros q Hq. rewrite lookup_delete_ne by (intros <-; by apply (Hne p)).
        apply Hke. exact (proj1 (proj1 (unlink_entry_in _ _ _ Hnd Hp) Hq)).
    + destruct (mem_block _ _ Hm _ _ Hk') as [? ? ? ? ? ? Hin]. split; simpl; try done.
      intros q Hq. rewrite lookup_delete_ne by (intros <-; by apply (Hne p)). by apply Hin.
Qed.

(** ** Adding an entry *)

Section put.
Context `{Malloc}.

(** What finding or creating the block of a text gives: the block, new and still
    without entries or old, and otherwise the memory as it was. *)
Record got_block (m m1 : tool_memory) (b : ptr) (dsml : list Z) (k : tool_memory_block)
    : Prop := {
  got_entries : ehp m1 = ehp m ∧ by_id m1 = by_id m ∧ lru m1 = lru m ∧
                entries m1 = entries m ∧ params m1 = params m ∧ clock m1 = clock m;
  got_block_at : bhp m1 = <[b := k]> (bhp m);
  got_others : bhp m !! b = None ∨ bhp m !! b = Some k;
  got_text : b_dsml k = dsml ∧ b_len k = blen dsml ∧
             b_bytes k = blen dsml + 1 + SIZEOF_BLOCK ∧ b_refs k = blen (b_entries k) ∧
             NoDup (b_entries k);
  got_members : ∀ p, p ∈ b_entries k → ∃ e, ehp m !! p = Some e ∧ e_block e = Some b;
  got_index : ∀ t b', by_block m1 !! t = Some b' ↔
                ∃ k', bhp m1 !! b' = Some k' ∧ b_dsml k' = t;
  got_bytes : bytes m1 = msum e_bytes (ehp m1) + msum b_bytes (bhp m1) }.

Lemma get_block_ok m L dsml :
  mem_ok m L → dsml ≠ [] →
  ∃ m1 b k, tool_memory_get_block_locked m dsml = (m1, b) ∧ got_block m m1 b dsml k.
Proof.
  intros Hm Hd. unfold tool_memory_get_block_locked, tool_memory_find_block_locked.
  assert ((blen dsml =? 0) = false) as ->.
  { destruct dsml as [|c l]; [done|]. rewrite blen_cons. pose proof (blen_nonneg l). lia. }
  destruct (by_block m !! dsml) as [b|] eqn:Hb.
  - destruct (proj1 (mem_texts _ _ Hm dsml b) Hb) as (k & Hk & Hkd).
    destruct (mem_block _ _ Hm _ _ Hk) as [_ Hkl Hkb Hkr _ Hkn Hke]. rewrite Hkd in *.
    exists m, b, k. split; [done|]. split; try by auto 10.
    + by rewrite insert_id.
    + apply (mem_texts _ _ Hm).
    + apply (mem_bytes _ _ Hm).
  - set (b := malloc (dom (bhp m))).
    assert (bhp m !! b = None) as Hf by (apply not_elem_of_dom, malloc_fresh).
    eexists _, b, (Block dsml (blen dsml) (blen dsml + 1 + SIZEOF_BLOCK) 0 0 []).
    split; [done|]. split; simpl; try by auto 10.
    + repeat split. constructor.
    + by intros p Hp%elem_of_nil.
    + intros t b'. destruct (decide (dsml = t)) as [<-|Ht].
      * rewrite lookup_insert_eq. destruct (decide (b = b')) as [<-|Hne].
        -- rewrite lookup_insert_eq. split; [intros _; eauto|done].
        -- rewrite lookup_insert_ne by done. split; [by intros [= ->]|].
           intros Hk. apply (mem_texts _ _ Hm) in Hk. congruence.
      * rewrite lookup_insert_ne by done. rewrite (mem_texts _ _ Hm).
        destruct (decide (b = b')) as [<-|Hne].
        -- rewrite lookup_insert_eq, Hf. split; [by intros (? & ? & ?)|].
           by intros (k & [= <-] & ?).
        -- by rewrite lookup_insert_ne.
    + rewrite msum_insert by done. rewrite (mem_bytes _ _ Hm). simpl. lia.
Qed.

Lemma get_block_bytes m dsml :
  bytes (tool_memory_get_block_locked m dsml).1 <= bytes m + (blen dsml + 1 + SIZEOF_BLOCK).
Proof.
  unfold tool_memory_get_block_locked. pose proof (blen_nonneg dsml). unfold SIZEOF_BLOCK.
  destruct (tool_memory_find_block_locked m dsml); simpl; lia.
Qed.

(** The memory after the new entry has joined block [b]. *)
Definition placed (m1 : tool_memory) (b p : ptr) (k : tool_memory_block)
    (e : tool_memory_entry) (d : dlist) (c : Z) : tool_memory :=
  TM (<[e_id e := p]> (by_id m1)) (by_block m1) (<[p := e]> (ehp m1))
     (<[b := with_entries k (b_refs k + 1) (p :: b_entries k)]> (bhp m1)) d
     (entries m1 + 1) (max_entries m1) (bytes m1 + e_bytes e) (max_bytes m1) c
     (scan_clock m1) (srv m1).

Lemma placed_ok m L m1 b p k e d c dsml :
  mem_ok m L → got_block m m1 b dsml k → dsml ≠ [] →
  ehp m !! p = None → by_id m !! e_id e = None → repr d (p :: L) →
  e_id e ≠ [] → e_block e = Some b → e_bytes e = blen (e_id e) + 1 + SIZEOF_ENTRY →
  mem_ok (placed m1 b p k e d c) (p :: L).
Proof.
  intros Hm [(He & Hi & Hl & Hc & Hpar & Hck) Hbh Hoth (Ht & Htl & Htb & Hr & Hn) Hmem Hidx Hby]
    Hd Hp Hnew Hrepr Hne Heb Hes.
  assert (∀ q y, ehp m !! q = Some y → p ≠ q) as Hold by (intros q y Hq ->; congruence).
  assert (p ∉ b_entries k) as Hpk by (intros (? & ? & _)%Hmem; congruence).
  assert (∀ q y, ehp m !! q = Some y → <[p := e]> (ehp m) !! q = Some y) as Hkeep.
  { intros q y Hq. rewrite lookup_insert_ne by eauto. done. }
  unfold placed. rewrite Hbh, insert_insert_eq, He, Hi. split; simpl; try done.
  - intros q. rewrite elem_of_cons, lookup_insert_is_Some, (mem_dom _ _ Hm). split.
    + intros [->|Hq]; [by left|]. destruct (decide (p = q)); [by left|by right].
    + intros [->|[_ Hq]]; [by left|by right].
  - rewrite Hc, (mem_count _ _ Hm), blen_cons. lia.
  - intros i q. rewrite !lookup_insert_Some, (mem_ids _ _ Hm). split.
    + intros [[<- <-]|[Hi' (x & Hx & <-)]]; [exists e|exists x]; split; try done.
      * by rewrite lookup_insert_eq.
      * by apply Hkeep.
    + intros (x & Hx & Hxi). destruct (decide (p = q)) as [<-|Hpq].
      * rewrite lookup_insert_eq in Hx. injection Hx as ->. by left.
      * rewrite lookup_insert_ne in Hx by done. right. split; [|by eauto]. intros Hii.
        assert (by_id m !! i = Some q) by (apply (mem_ids _ _ Hm); eauto). congruence.
  - intros t b'. rewrite Hidx, Hbh. destruct (decide (b = b')) as [<-|Hb].
    + rewrite !lookup_insert_eq. split; intros (k' & [= <-] & Hk'); by eauto.
    + by rewrite !lookup_insert_ne.
  - intros q x Hx. destruct (decide (p = q)) as [<-|Hpq].
    + rewrite lookup_insert_eq in Hx. injection Hx as <-. split; try done. simpl.
      exists b. rewrite lookup_insert_eq. eexists. split; [done|]. split; [done|]. by left.
    + rewrite lookup_insert_ne in Hx by done.
      destruct (mem_entry _ _ Hm _ _ Hx) as [A B (b' & k' & C & D & E)]. split; try done. simpl.
      exists b'. destruct (decide (b = b')) as [<-|Hb].
      * rewrite lookup_insert_eq. eexists. split; [done|]. split; [done|]. right.
        destruct Hoth as [Hno|Hso]; congruence.
      * rewrite lookup_insert_ne by done. eauto.
  - intros b' k' Hk'. destruct (decide (b = b')) as [<-|Hb].
    + rewrite lookup_insert_eq in Hk'. injection Hk' as <-. split; simpl; try congruence.
      * rewrite blen_cons. lia.
      * by constructor.
      * intros q [->|Hq]%elem_of_cons; [exists e; by rewrite lookup_insert_eq|].
        destruct (Hmem q Hq) as (y & Hy & Hyb). eauto.
    + rewrite lookup_insert_ne in Hk' by done.
      destruct (mem_block _ _ Hm _ _ Hk') as [? ? ? ? ? ? Hin]. split; try done. simpl.
      intros q Hq. destruct (Hin q Hq) as (y & Hy & Hyb). eauto.
  - rewrite Hby, He, msum_insert by done. rewrite Hbh.
    rewrite <- (insert_insert_eq (bhp m) b (with_entries k (b_refs k + 1) (p :: b_entries k)) k).
    rewrite (msum_update _ (<[b := k]> (bhp m)) b k) by apply lookup_insert_eq. simpl. lia.
Qed.

(** The new entry is the first of the LRU list, unpinned and without a record. *)
Lemma put_new_ok m L id dsml source :
  mem_ok m L → id ≠ [] → dsml ≠ [] → by_id m !! id = None →
  ∃ m' p e, put_new m id dsml source = Some m' ∧ ehp m !! p = None ∧
    mem_ok m' (p :: L) ∧ ehp m' = <[p := e]> (ehp m) ∧
    e_id e = id ∧ e_source e = source ∧ e_pins e = 0 ∧ e_rec e = None ∧
    by_id m' = <[id := p]> (by_id m) ∧ params m' = params m ∧ text_of m' id = Some dsml ∧
    entries m' = entries m + 1 ∧
    bytes m' <= bytes m + (blen id + 1 + SIZEOF_ENTRY) + (blen dsml + 1 + SIZEOF_BLOCK) ∧
    (∀ b k, bhp m !! b = Some k → ∃ k', bhp m' !! b = Some k' ∧ b_dsml k' = b_dsml k).
Proof.
  intros Hm Hid Hd Hnew.
  destruct (get_block_ok m L dsml Hm Hd) as (m1 & b & k & Hget & G).
  pose proof G as [(He & Hi & Hl & Hc & Hpar & Hck) Hbh Hoth (Ht & _) _ _ _].
  unfold put_new. rewrite Hget. cbv beta iota zeta. set (p := malloc (dom (ehp m1))).
  assert (ehp m !! p = None) as Hp by (rewrite <- He; apply not_elem_of_dom, malloc_fresh).
  assert (p ∉ L) as HpL by (rewrite (mem_dom _ _ Hm p), Hp; by intros [? ?]).
  assert (bhp m1 !! b = Some k) as -> by (rewrite Hbh; apply lookup_insert_eq). simpl.
  destruct (link_head_repr (dalloc p (lru m1)) L p) as (d & -> & Hd'); [|done| |].
  { apply repr_alloc; [done|]. rewrite Hl. apply (mem_lru _ _ Hm). }
  { simpl. by rewrite lookup_insert_eq. }
  simpl. set (c := u64 _). set (e := Entry _ _ _ _ _ _ _).
  exists (placed m1 b p k e d c), p, e.
  split; [done|]. split; [done|].
  split; [by apply (placed_ok m L m1 b p k e d c dsml)|].
  split; [simpl; by rewrite He|]. do 4 (split; [done|]). split; [simpl; by rewrite Hi|].
  split; [done|]. split; [|split; [simpl; by rewrite Hc|split]].
  - unfold text_of. simpl. rewrite lookup_insert_eq. simpl. rewrite lookup_insert_eq. simpl.
    by rewrite lookup_insert_eq; simpl; rewrite Ht.
  - simpl. pose proof (get_block_bytes m dsml) as Hgb. rewrite Hget in Hgb. simpl in Hgb.
    pose proof (blen_nonneg dsml). unfold SIZEOF_BLOCK in *. lia.
  - intros b' k' Hk'. simpl. rewrite Hbh, insert_insert_eq.
    destruct (decide (b = b')) as [<-|Hb].
    + rewrite lookup_insert_eq. eexists. split; [done|]. destruct Hoth; simpl; congruence.
    + rewrite lookup_insert_ne by done. eauto.
Qed.
End put.
