(* ===== verification/ContRegistry.v ===== *)
(** * The continuation registry and the pruning of tool memory (ds4_server.c)

    One record per tool-call turn owns the turn's execution reference (owner,
    generation, committed frontier) and, while it is LIVE_FRONTIER, pins the
    remembered text of its call ids.  Records are allocated objects on a
    newest-first list, indexed by (protocol, call id).  This file translates the
    operations, the tool-memory prune included, since it evicts records; every
    operation runs under [tool_mu], so each is one step on the server state.
    [None] is a dereference of freed memory. *)

From S2P Require Import Prelude Float64 Text Stream Route DList ToolText ToolMem.

(** ** Data *)

Inductive cont_record_state := CONT_REC_LIVE_FRONTIER | CONT_REC_REPLAY_ONLY.
Inductive cont_record_owner := CONT_OWNER_SERIAL_SESSION | CONT_OWNER_BATCH_BANK.

#[export] Instance cont_record_state_eq : EqDecision cont_record_state.
Proof. solve_decision. Defined.
#[export] Instance cont_record_owner_eq : EqDecision cont_record_owner.
Proof. solve_decision. Defined.

(** [prev] and [next] live in the record list. *)
Record cont_record := Rec {
  state : cont_record_state;
  owner : cont_record_owner;
  protocol : api_style;
  owner_id : Z;
  owner_gen : Z;
  frontier : Z;
  call_ids : stop_list;
  publish_time : spec_float;
  hard_refs : Z;
  pin_expiry : spec_float }.

(** [rhp] holds the records allocated at the moment; [by_call_id] is [None] until
    the registry is initialised. *)
Record cont_registry := Reg {
  by_call_id : option (gmap (list Z) ptr);
  rhp : gmap ptr cont_record;
  rlist : dlist;
  n_records : Z;
  n_live : Z;
  max_records : Z;
  serial_live : option ptr;
  grace_s : spec_float;
  ttl_s : spec_float;
  pin_deadline_s : spec_float;
  hold_shed_s : spec_float }.

(** The part of [server] under [tool_mu], and the metrics the registry keeps. *)
Record server := Server {
  tool_mem : tool_memory;
  creg : cont_registry;
  disable_exact_dsml_tool_replay : bool;
  creg_published : Z;
  creg_demoted : Z;
  creg_records_live : Z }.

Definition with_state (r : cont_record) (x : cont_record_state) : cont_record :=
  Rec x (owner r) (protocol r) (owner_id r) (owner_gen r) (frontier r) (call_ids r)
      (publish_time r) (hard_refs r) (pin_expiry r).

Definition with_hard (r : cont_record) (n : Z) (t : spec_float) : cont_record :=
  Rec (state r) (owner r) (protocol r) (owner_id r) (owner_gen r) (frontier r) (call_ids r)
      (publish_time r) n t.

Definition with_index (g : cont_registry) (i : option (gmap (list Z) ptr)) : cont_registry :=
  Reg i (rhp g) (rlist g) (n_records g) (n_live g) (max_records g) (serial_live g)
      (grace_s g) (ttl_s g) (pin_deadline_s g) (hold_shed_s g).

Definition with_rhp (g : cont_registry) (h : gmap ptr cont_record) : cont_registry :=
  Reg (by_call_id g) h (rlist g) (n_records g) (n_live g) (max_records g) (serial_live g)
      (grace_s g) (ttl_s g) (pin_deadline_s g) (hold_shed_s g).

Definition with_list (g : cont_registry) (h : gmap ptr cont_record) (d : dlist) (n : Z)
    : cont_registry :=
  Reg (by_call_id g) h d n (n_live g) (max_records g) (serial_live g)
      (grace_s g) (ttl_s g) (pin_deadline_s g) (hold_shed_s g).

Definition with_live (g : cont_registry) (n : Z) (sl : option ptr) : cont_registry :=
  Reg (by_call_id g) (rhp g) (rlist g) (n_records g) n (max_records g) sl
      (grace_s g) (ttl_s g) (pin_deadline_s g) (hold_shed_s g).

Definition with_mem (s : server) (m : tool_memory) : server :=
  Server m (creg s) (disable_exact_dsml_tool_replay s) (creg_published s) (creg_demoted s)
         (creg_records_live s).

Definition with_reg (s : server) (g : cont_registry) : server :=
  Server (tool_mem s) g (disable_exact_dsml_tool_replay s) (creg_published s) (creg_demoted s)
         (creg_records_live s).

Definition index (g : cont_registry) : gmap (list Z) ptr := default ∅ (by_call_id g).

(** ** Id lists *)

(** id_list_contains *)
Definition id_list_contains (ids : stop_list) (id : option (list Z)) : bool :=
  match id with
  | None | Some [] => false
  | Some i => existsb (fun x => bool_decide (x = i)) (stops_v ids)
  end.

(** id_list_push_unique *)
Definition id_list_push_unique (ids : stop_list) (id : option (list Z)) : stop_list :=
  match id with
  | None | Some [] => ids
  | Some _ => if id_list_contains ids id then ids else stop_list_push ids id
  end.

(** ** The index *)

Definition CONT_REGISTRY_MAX_DEFAULT : Z := 64.

Definition proto_code (p : api_style) : Z :=
  match p with API_OPENAI => 0 | API_ANTHROPIC => 1 | API_RESPONSES => 2 end.

(** cont_registry_key, with the 96-byte buffer of every caller *)
Definition cont_registry_key (proto : api_style) (id : list Z) : list Z :=
  (ch "0" + proto_code proto) :: 31 :: ztake (96 - 2) id.

(** cont_registry_init_locked *)
Definition cont_registry_init_locked (g : cont_registry) : cont_registry :=
  match by_call_id g with
  | Some _ => g
  | None => Reg (Some ∅) (rhp g) (rlist g) (n_records g) (n_live g)
                (if max_records g <=? 0 then CONT_REGISTRY_MAX_DEFAULT else max_records g)
                (serial_live g) (grace_s g) (ttl_s g) (pin_deadline_s g) (hold_shed_s g)
  end.

(** cont_registry_find_locked *)
Definition cont_registry_find_locked (g : cont_registry) (proto : api_style)
    (id : option (list Z)) : option ptr :=
  match by_call_id g, id with
  | Some rows, Some (c :: i) => rows !! cont_registry_key proto (c :: i)
  | _, _ => None
  end.

(** The loop of cont_registry_drop_index_locked: a row is dropped only when it
    still points at the record. *)
Fixpoint drop_rows (rows : gmap (list Z) ptr) (proto : api_style) (r : ptr)
    (ids : list (list Z)) : gmap (list Z) ptr :=
  match ids with
  | [] => rows
  | i :: t =>
      let key := cont_registry_key proto i in
      drop_rows (if bool_decide (rows !! key = Some r) then delete key rows else rows) proto r t
  end.

(** cont_registry_drop_index_locked *)
Definition cont_registry_drop_index_locked (g : cont_registry) (r : ptr) (rec : cont_record)
    : cont_registry :=
  match by_call_id g with
  | None => g
  | Some rows => with_index g (Some (drop_rows rows (protocol rec) r (stops_v (call_ids rec))))
  end.

(** ** Demotion and removal *)

(** The unpinning loop of cont_registry_demote_locked. *)
Fixpoint unpin_ids (m : tool_memory) (ids : list (list Z)) : option tool_memory :=
  match ids with
  | [] => Some m
  | i :: t =>
      match tool_memory_find_entry_locked m (Some i) with
      | None => unpin_ids m t
      | Some p =>
          e ← ehp m !! p;
          unpin_ids (if 0 <? e_pins e
                     then with_ehp m (<[p := with_pins e (e_pins e - 1)]> (ehp m)) else m) t
      end
  end.

(** cont_registry_demote_locked *)
Definition cont_registry_demote_locked (s : server) (r : ptr) : option server :=
  rec ← rhp (creg s) !! r;
  match state rec with
  | CONT_REC_REPLAY_ONLY => Some s
  | CONT_REC_LIVE_FRONTIER =>
      m ← unpin_ids (tool_mem s) (stops_v (call_ids rec));
      let g := with_rhp (creg s) (<[r := with_state rec CONT_REC_REPLAY_ONLY]> (rhp (creg s))) in
      let n := if 0 <? n_live g then n_live g - 1 else n_live g in
      let sl := if bool_decide (serial_live g = Some r) then None else serial_live g in
      Some (Server m (with_live g n sl) (disable_exact_dsml_tool_replay s) (creg_published s)
                   (u64 (creg_demoted s + 1)) (u64 n))
  end.

(** The loop of cont_registry_remove_locked that drops the record's own entries. *)
Fixpoint drop_entries (m : tool_memory) (r : ptr) (ids : list (list Z)) : option tool_memory :=
  match ids with
  | [] => Some m
  | i :: t =>
      match tool_memory_find_entry_locked m (Some i) with
      | None => drop_entries m r t
      | Some p =>
          e ← ehp m !! p;
          if bool_decide (e_rec e = Some r) then
            m1 ← tool_memory_remove_entry_locked
                   (with_ehp m (<[p := with_rec e None]> (ehp m))) p;
            drop_entries m1 r t
          else drop_entries m r t
      end
  end.

(** cont_registry_remove_locked.  The fields of the record that the program leaves
    alone when it unlinks it are those [unlink] clears; the record is freed next. *)
Definition cont_registry_remove_locked (s : server) (r : ptr) : option server :=
  s1 ← cont_registry_demote_locked s r;
  rec ← rhp (creg s1) !! r;
  let g := cont_registry_drop_index_locked (creg s1) r rec in
  m ← drop_entries (tool_mem s1) r (stops_v (call_ids rec));
  d ← unlink (rlist g) r;
  let n := if 0 <? n_records g then n_records g - 1 else n_records g in
  Some (with_reg (with_mem s1 m) (with_list g (delete r (rhp g)) (dfree r d) n)).

Definition evictable (rec : cont_record) : bool :=
  bool_decide (state rec = CONT_REC_REPLAY_ONLY) && (hard_refs rec <=? 0).

(** The walk of cont_registry_prune_locked from [cur] towards the head. *)
Fixpoint registry_prune_walk (fuel : nat) (s : server) (cur : option ptr) : option server :=
  if n_records (creg s) <=? max_records (creg s) then Some s else
  match cur, fuel with
  | None, _ => Some s
  | Some _, O => None
  | Some r, S f =>
      l ← fields (rlist (creg s)) !! r;
      rec ← rhp (creg s) !! r;
      s1 ← (if evictable rec then cont_registry_remove_locked s r else Some s);
      registry_prune_walk f s1 (prev l)
  end.

(** cont_registry_prune_locked; the fuel is the number of records. *)
Definition cont_registry_prune_locked (s : server) : option server :=
  registry_prune_walk (size (rhp (creg s))) s (tail (rlist (creg s))).

(** ** Pruning tool memory *)

Definition over_budget (m : tool_memory) : bool :=
  (tool_memory_max_entries m <? entries m) || (tool_memory_max_bytes m <? bytes m).

(** The walk of tool_memory_prune_locked from [cur] towards the head, restarted at
    the tail when a record went. *)
Fixpoint tool_prune_walk (fuel : nat) (s : server) (cur : option ptr) : option server :=
  if negb (over_budget (tool_mem s)) then Some s else
  match cur, fuel with
  | None, _ => Some s
  | Some _, O => None
  | Some p, S f =>
      e ← ehp (tool_mem s) !! p;
      l ← fields (lru (tool_mem s)) !! p;
      if 0 <? e_pins e then tool_prune_walk f s (prev l)
      else match e_rec e, srv (tool_mem s) with
      | Some r, true =>
          rec ← rhp (creg s) !! r;
          if evictable rec then
            s1 ← cont_registry_remove_locked s r;
            tool_prune_walk f s1 (tail (lru (tool_mem s1)))
          else tool_prune_walk f s (prev l)
      | _, _ =>
          m ← tool_memory_remove_entry_locked (tool_mem s) p;
          tool_prune_walk f (with_mem s m) (prev l)
      end
  end.

(** tool_memory_prune_locked; with [n] entries the walk and its restarts take at
    most [n + n * n] steps. *)
Definition tool_memory_prune_locked (s : server) : option server :=
  let n := size (ehp (tool_mem s)) in
  tool_prune_walk (n + n * n) s (tail (lru (tool_mem s))).

(** ** Remembering a text *)

Section store.
Context `{Malloc}.

(** tool_memory_put_locked *)
Definition tool_memory_put_locked (s : server) (id dsml : option (list Z))
    (source : tool_memory_source) : option server :=
  match id, dsml with
  | Some (c :: i), Some (d :: t) =>
      let id := c :: i in
      let text := d :: t in
      let m := tool_mem s in
      match tool_memory_find_entry_locked m (Some id) with
      | Some p =>
          e ← ehp m !! p;
          ok ← (match e_block e with
                | None => Some false
                | Some b => k ← bhp m !! b;
                            Some ((b_len k =? blen text) && bool_decide (b_dsml k = text))
                end);
          if (ok : bool) then
            let e' := if bool_decide (source = TOOL_MEMORY_RAM)
                      then with_source e TOOL_MEMORY_RAM else e in
            m1 ← tool_memory_touch (with_ehp m (<[p := e']> (ehp m))) p;
            tool_memory_prune_locked (with_mem s m1)
          else
            m1 ← tool_memory_remove_entry_locked m p;
            m2 ← put_new m1 id text source;
            tool_memory_prune_locked (with_mem s m2)
      | None =>
          m2 ← put_new m id text source;
          tool_memory_prune_locked (with_mem s m2)
      end
  | _, _ => Some s
  end.

(** tool_calls_exact_text *)
Definition tool_calls_exact_text (calls : tool_calls) : option (list Z) :=
  match raw_dsml calls with
  | Some (c :: t) => Some (c :: t)
  | _ => match raw_tool_text calls with Some (c :: t) => Some (c :: t) | _ => None end
  end.

Fixpoint put_all (s : server) (l : list tool_call) (text : list Z) : option server :=
  match l with
  | [] => Some s
  | tc :: t => s1 ← tool_memory_put_locked s (tc_id tc) (Some text) TOOL_MEMORY_RAM;
               put_all s1 t text
  end.

(** tool_memory_remember *)
Definition tool_memory_remember (s : server) (calls : tool_calls) : option server :=
  match tool_calls_exact_text calls with
  | None => Some s
  | Some text => if disable_exact_dsml_tool_replay s then Some s
                 else put_all s (tcs calls) text
  end.

(** tool_memory_put_source *)
Definition tool_memory_put_source (s : server) (id dsml : option (list Z))
    (source : tool_memory_source) : option server :=
  if disable_exact_dsml_tool_replay s then Some s
  else tool_memory_put_locked s id dsml source.

(** ** Publishing a record *)

(** The walk that finds the LIVE record of a bank, newest first. *)
Fixpoint find_bank_live (fuel : nat) (g : cont_registry) (cur : option ptr) (bank : Z)
    : option (option ptr) :=
  match cur, fuel with
  | None, _ => Some None
  | Some _, O => None
  | Some r, S f =>
      rec ← rhp g !! r;
      l ← fields (rlist g) !! r;
      if bool_decide (state rec = CONT_REC_LIVE_FRONTIER) &&
         bool_decide (owner rec = CONT_OWNER_BATCH_BANK) && (owner_id rec =? bank)
      then Some (Some r)
      else find_bank_live f g (next l) bank
  end.

(** The record the new one supersedes is demoted. *)
Definition supersede (s : server) (own : cont_record_owner) (bank : Z) : option server :=
  match own with
  | CONT_OWNER_SERIAL_SESSION =>
      match serial_live (creg s) with
      | Some r => cont_registry_demote_locked s r
      | None => Some s
      end
  | CONT_OWNER_BATCH_BANK =>
      old ← find_bank_live (size (rhp (creg s))) (creg s) (head (rlist (creg s))) bank;
      match old with
      | Some r => cont_registry_demote_locked s r
      | None => Some s
      end
  end.

(** The call ids of the turn, each one once. *)
Definition turn_ids (l : list tool_call) : stop_list :=
  fold_left (fun ids tc => id_list_push_unique ids (tc_id tc)) l stop_list_clear.

(** The index row and the pin of every id. *)
Fixpoint bind_ids (rows : gmap (list Z) ptr) (m : tool_memory) (proto : api_style) (r : ptr)
    (ids : list (list Z)) : option (gmap (list Z) ptr * tool_memory) :=
  match ids with
  | [] => Some (rows, m)
  | i :: t =>
      let rows1 := <[cont_registry_key proto i := r]> rows in
      match tool_memory_find_entry_locked m (Some i) with
      | None => bind_ids rows1 m proto r t
      | Some p =>
          e ← ehp m !! p;
          bind_ids rows1
            (with_ehp m (<[p := with_rec (with_pins e (e_pins e + 1)) (Some r)]> (ehp m)))
            proto r t
      end
  end.

(** cont_registry_publish *)
Definition cont_registry_publish (s : server) (proto : api_style) (calls : tool_calls)
    (own : cont_record_owner) (bank gen front : Z) (now : spec_float) : option server :=
  if (match tcs calls with [] => true | _ => false end) || (gen =? 0) || (front <=? 0)
  then Some s else
  let s0 := with_reg s (cont_registry_init_locked (creg s)) in
  s1 ← supersede s0 own bank;
  let ids := turn_ids (tcs calls) in
  match stops_v ids with
  | [] => Some s1
  | _ =>
      let r := malloc (dom (rhp (creg s1))) in
      let rec := Rec CONT_REC_LIVE_FRONTIER own proto
                     (match own with CONT_OWNER_BATCH_BANK => bank | _ => 0 end)
                     gen front ids now 0 F64.zero in
      b ← bind_ids (index (creg s1)) (tool_mem s1) proto r (stops_v ids);
      d ← link_head (dalloc r (rlist (creg s1))) r;
      let g := creg s1 in
      let n := n_live g + 1 in
      let g1 := Reg (Some b.1) (<[r := rec]> (rhp g)) d (n_records g + 1) n (max_records g)
                    (match own with CONT_OWNER_SERIAL_SESSION => Some r | _ => serial_live g end)
                    (grace_s g) (ttl_s g) (pin_deadline_s g) (hold_shed_s g) in
      s2 ← cont_registry_prune_locked
             (Server (with_srv b.2) g1 (disable_exact_dsml_tool_replay s1) (creg_published s1)
                     (creg_demoted s1) (creg_records_live s1));
      Some (Server (tool_mem s2) (creg s2) (disable_exact_dsml_tool_replay s2)
                   (u64 (creg_published s2 + 1)) (creg_demoted s2) (u64 (n_live (creg s2))))
  end.

(** cont_registry_publish_serial *)
Definition cont_registry_publish_serial (s : server) (proto : api_style) (calls : tool_calls)
    (gen front : Z) (now : spec_float) : option server :=
  cont_registry_publish s proto calls CONT_OWNER_SERIAL_SESSION 0 gen front now.

(** cont_registry_publish_bank *)
Definition cont_registry_publish_bank (s : server) (proto : api_style) (calls : tool_calls)
    (bank gen front : Z) (now : spec_float) : option server :=
  if bank <? 0 then Some s
  else cont_registry_publish s proto calls CONT_OWNER_BATCH_BANK bank gen front now.
End store.

(** ** Demotion by the server and by time *)

(** cont_registry_demote_serial *)
Definition cont_registry_demote_serial (s : server) : option server :=
  match serial_live (creg s) with
  | Some r => cont_registry_demote_locked s r
  | None => Some s
  end.

(** Has a LIVE record outlived the retention time? *)
Definition expired (g : cont_registry) (rec : cont_record) (now : spec_float) : bool :=
  bool_decide (state rec = CONT_REC_LIVE_FRONTIER) &&
  F64.lt (ttl_s g) (F64.sub now (publish_time rec)).

Fixpoint expire_walk (fuel : nat) (s : server) (cur : option ptr) (now : spec_float)
    : option server :=
  match cur, fuel with
  | None, _ => Some s
  | Some _, O => None
  | Some r, S f =>
      rec ← rhp (creg s) !! r;
      l ← fields (rlist (creg s)) !! r;
      s1 ← (if expired (creg s) rec now then cont_registry_demote_locked s r else Some s);
      expire_walk f s1 (next l) now
  end.

(** cont_registry_expire_locked *)
Definition cont_registry_expire_locked (s : server) (now : spec_float) : option server :=
  if F64.le (ttl_s (creg s)) F64.zero || (n_live (creg s) =? 0) then Some s
  else expire_walk (size (rhp (creg s))) s (head (rlist (creg s))) now.

(** ** Queued pins *)

(** cont_registry_pin_live: the record whose pin the request now holds. *)
Definition cont_registry_pin_live (s : server) (proto : api_style) (id : option (list Z))
    (now : spec_float) : option (server * option ptr) :=
  match id with
  | None | Some [] => Some (s, None)
  | Some _ =>
      s1 ← cont_registry_expire_locked s now;
      match cont_registry_find_locked (creg s1) proto id with
      | None => Some (s1, None)
      | Some r =>
          rec ← rhp (creg s1) !! r;
          if bool_decide (state rec = CONT_REC_LIVE_FRONTIER) then
            let dl := pin_deadline_s (creg s1) in
            let t := F64.add now dl in
            let e := if F64.lt F64.zero dl && F64.lt (pin_expiry rec) t then t
                     else pin_expiry rec in
            Some (with_reg s1 (with_rhp (creg s1)
                    (<[r := with_hard rec (hard_refs rec + 1) e]> (rhp (creg s1)))), Some r)
          else Some (s1, None)
      end
  end.

(** cont_registry_unpin *)
Definition cont_registry_unpin (s : server) (pin : option ptr) : option server :=
  match pin with
  | None => Some s
  | Some r =>
      rec ← rhp (creg s) !! r;
      Some (if 0 <? hard_refs rec
            then with_reg s (with_rhp (creg s)
                   (<[r := with_hard rec (hard_refs rec - 1) (pin_expiry rec)]> (rhp (creg s))))
            else s)
  end.

(** ** Shutdown *)

Fixpoint remove_heads (fuel : nat) (s : server) : option server :=
  match head (rlist (creg s)), fuel with
  | None, _ => Some s
  | Some _, O => None
  | Some r, S f => s1 ← cont_registry_remove_locked s r; remove_heads f s1
  end.

(** cont_registry_free *)
Definition cont_registry_free (s : server) : option server :=
  s1 ← remove_heads (size (rhp (creg s))) s;
  Some (with_reg s1 (Reg None (rhp (creg s1)) dnil 0 0 0 None F64.zero F64.zero F64.zero F64.zero)).

Fixpoint remove_tails (fuel : nat) (m : tool_memory) : option tool_memory :=
  match tail (lru m), fuel with
  | None, _ => Some m
  | Some _, O => None
  | Some p, S f => m1 ← tool_memory_remove_entry_locked m p; remove_tails f m1
  end.

(** tool_memory_free *)
Definition tool_memory_free (m : tool_memory) : option tool_memory :=
  m1 ← remove_tails (size (ehp m)) m;
  Some (TM ∅ ∅ (ehp m1) (bhp m1) dnil 0 0 0 0 0 0 false).
