(* ===== verification/ContInv.v ===== *)
(** * The invariant of tool memory and registry

    [server_ok s L R]: the entries of [s] are the list [L], its records the list
    [R], every pointer between them leads to an allocated object, and the counters,
    the index and the two LIVE tips agree with the records.  Each operation of
    ContRegistry is shown to keep it and never to reach freed memory. *)

From S2P Require Import Prelude Float64 Text Stream Route DList ToolText ToolMem ContRegistry.

(** ** Evicting entries *)

(** An entry that remains has its id, block and record, and no more pins. *)
Definition keeps (e e' : tool_memory_entry) : Prop :=
  e_id e' = e_id e ∧ e_block e' = e_block e ∧ e_rec e' = e_rec e ∧
  (0 <= e_pins e → 0 <= e_pins e' <= e_pins e).

(** [m'] is [m] without some entries and the blocks only they used. *)
Record evicted (m m' : tool_memory) : Prop := {
  ev_entry : ∀ p e', ehp m' !! p = Some e' → ∃ e, ehp m !! p = Some e ∧ keeps e e';
  ev_block : ∀ b k', bhp m' !! b = Some k' →
    ∃ k, bhp m !! b = Some k ∧ b_dsml k' = b_dsml k;
  ev_params : params m' = params m }.

#[export] Instance evicted_preorder : PreOrder evicted.
Proof.
  split.
  - intros m. split; [|by eauto|done]. intros p e He. exists e. by repeat split.
  - intros m1 m2 m3 [A1 B1 C1] [A2 B2 C2]. split; [| |congruence].
    + intros p e3 (e2 & He2 & K1 & K2 & K3 & K4)%A2.
      destruct (A1 _ _ He2) as (e1 & He1 & J1 & J2 & J3 & J4).
      exists e1. split; [done|]. repeat split; try congruence; lia.
    + intros b k3 (k2 & Hk2 & E2)%B2. destruct (B1 _ _ Hk2) as (k1 & Hk1 & E1).
      exists k1. split; [done|congruence].
Qed.

Lemma find_entry_some m i p :
  tool_memory_find_entry_locked m (Some i) = Some p → by_id m !! i = Some p ∧ i ≠ [].
Proof. by destruct i. Qed.

Lemma find_entry_id m i :
  i ≠ [] → tool_memory_find_entry_locked m (Some i) = by_id m !! i.
Proof. by destruct i. Qed.

(** Removing one entry, through its place on the list. *)
Lemma remove_entry_ok m L p e :
  mem_ok m L → ehp m !! p = Some e →
  ∃ m' L1 L2, L = L1 ++ p :: L2 ∧ tool_memory_remove_entry_locked m p = Some m' ∧
    mem_ok m' (L1 ++ L2) ∧ ehp m' = delete p (ehp m) ∧
    by_id m' = delete (e_id e) (by_id m) ∧ evicted m m' ∧
    entries m' <= entries m ∧ bytes m' <= bytes m.
Proof.
  intros Hm He. assert (p ∈ L) as Hp by (apply (mem_dom _ _ Hm); eauto).
  apply list_elem_of_split in Hp as (L1 & L2 & ->).
  destruct (remove_ok _ _ _ _ Hm) as (e' & m' & He' & Hev & Hm' & Hh & Hi & Hpar & Hen & Hby & Hb).
  replace e' with e in * by congruence.
  exists m', L1, L2. do 5 (split; [done|]). split; [|done]. split; [|done|done].
  rewrite Hh. intros q x [_ Hx]%lookup_delete_Some. exists x. by repeat split.
Qed.

(** The removal loop takes exactly the listed entries the record owns. *)
Lemma drop_entries_ok m L r ids :
  mem_ok m L →
  ∃ m' L', drop_entries m r ids = Some m' ∧ mem_ok m' L' ∧ evicted m m' ∧
    ehp m' ⊆ ehp m ∧
    (∀ p e, ehp m !! p = Some e → e_rec e ≠ Some r → ehp m' !! p = Some e) ∧
    (∀ p e, ehp m' !! p = Some e → e_rec e = Some r → e_id e ∉ ids).
Proof.
  revert m L. induction ids as [|i ids IH]; intros m L Hm; simpl.
  { exists m, L. do 2 (split; [done|]). split; [done|]. split; [done|]. split; [done|].
    intros p e _ _. apply not_elem_of_nil. }
  assert (∀ m' L', mem_ok m' L' → evicted m m' → ehp m' ⊆ ehp m →
    (∀ p e, ehp m !! p = Some e → e_rec e ≠ Some r → ehp m' !! p = Some e) →
    (∀ p e, ehp m' !! p = Some e → e_rec e = Some r → e_id e ≠ i) →
    ∃ m2 L2, drop_entries m' r ids = Some m2 ∧ mem_ok m2 L2 ∧ evicted m m2 ∧ ehp m2 ⊆ ehp m ∧
    (∀ p e, ehp m !! p = Some e → e_rec e ≠ Some r → ehp m2 !! p = Some e) ∧
    (∀ p e, ehp m2 !! p = Some e → e_rec e = Some r → e_id e ∉ i :: ids)) as Hgo.
  { intros m' L' Hm' Hev Hsub Hkeep Hi.
    destruct (IH m' L' Hm') as (m2 & L2 & Hd & Hm2 & Hev2 & Hsub2 & Hk2 & Hg2).
    exists m2, L2. split; [done|]. split; [done|]. split; [by transitivity m'|].
    split; [by transitivity (ehp m')|]. split; [by eauto|].
    intros p e Hp Hr. apply not_elem_of_cons. split; [|by eauto].
    apply (Hi p); [|done]. by apply (lookup_weaken _ _ _ _ Hp). }
  destruct (tool_memory_find_entry_locked m (Some i)) as [p|] eqn:Hf.
  - apply find_entry_some in Hf as [Hp Hi].
    destruct (proj1 (mem_ids _ _ Hm _ _) Hp) as (e & He & Hei).
    rewrite He. simpl. case_bool_decide as Hr.
    + set (e0 := with_rec e None).
      assert (mem_ok (with_ehp m (<[p := e0]> (ehp m))) L) as Hm0 by by apply (mem_ok_update _ _ _ e).
      destruct (remove_entry_ok _ _ p e0 Hm0) as (m' & L1 & L2 & _ & -> & Hm' & Hh & _ & Hev & _).
      { apply lookup_insert_eq. }
      simpl in Hh. rewrite delete_insert_eq in Hh. simpl. apply (Hgo m' _ Hm').
      * split; [|apply Hev|apply Hev]. rewrite Hh. intros q x [_ Hx]%lookup_delete_Some.
        exists x. by repeat split.
      * rewrite Hh. apply delete_subseteq.
      * intros q x Hx Hxr. rewrite Hh, lookup_delete_ne; [done|]. intros <-. congruence.
      * rewrite Hh. intros q x [Hq Hx]%lookup_delete_Some _ Hxi. apply Hq.
        assert (by_id m !! i = Some p) by (apply (mem_ids _ _ Hm); eauto).
        assert (by_id m !! i = Some q) by (apply (mem_ids _ _ Hm); eauto). congruence.
    + apply (Hgo m L Hm); try done. intros q x Hx Hxr Hxi. apply Hr.
      assert (by_id m !! i = Some p) by (apply (mem_ids _ _ Hm); eauto).
      assert (by_id m !! i = Some q) by (apply (mem_ids _ _ Hm); eauto). congruence.
  - apply (Hgo m L Hm); try done. intros q x Hx Hxr Hxi.
    assert (by_id m !! i = Some q) as Hq by (apply (mem_ids _ _ Hm); eauto).
    pose proof (entry_id _ _ _ (mem_entry _ _ Hm _ _ Hx)) as Hne. rewrite Hxi in Hne.
    rewrite find_entry_id in Hf by done. congruence.
Qed.

(** The unpinning loop lowers the pins of the listed ids and touches nothing else. *)
Lemma unpin_ids_ok m L ids :
  mem_ok m L →
  ∃ m', unpin_ids m ids = Some m' ∧ mem_ok m' L ∧ evicted m m' ∧
    by_id m' = by_id m ∧ bhp m' = bhp m ∧
    (∀ p e, ehp m !! p = Some e → e_id e ∉ ids → ehp m' !! p = Some e).
Proof.
  revert m. induction ids as [|i ids IH]; intros m Hm; simpl.
  { exists m. by repeat (split; [done|]). }
  destruct (tool_memory_find_entry_locked m (Some i)) as [p|] eqn:Hf.
  - apply find_entry_some in Hf as [Hp Hi].
    destruct (proj1 (mem_ids _ _ Hm _ _) Hp) as (e & He & Hei). rewrite He. simpl.
    destruct (0 <? e_pins e) eqn:Hpin.
    + set (e1 := with_pins e (e_pins e - 1)). set (m1 := with_ehp m (<[p := e1]> (ehp m))).
      assert (mem_ok m1 L) as Hm1 by by apply (mem_ok_update _ _ _ e).
      destruct (IH m1 Hm1) as (m' & -> & Hm' & Hev & Hid & Hb & Hsame).
      exists m'. split; [done|]. split; [done|]. split; [|split; [done|split; [done|]]].
      * transitivity m1; [|done]. split; [|by eauto|done].
        intros q x. simpl. destruct (decide (p = q)) as [<-|Hne].
        -- rewrite lookup_insert_eq. intros [= <-]. exists e. split; [done|].
           repeat split; simpl; lia.
        -- rewrite lookup_insert_ne by done. intros Hx. exists x. by repeat split.
      * intros q x Hx Hn. apply not_elem_of_cons in Hn as [Hn1 Hn2].
        apply Hsame; [|done]. simpl. rewrite lookup_insert_ne; [done|]. intros <-. congruence.
    + destruct (IH m Hm) as (m' & -> & Hm' & Hev & Hid & Hb & Hsame).
      exists m'. do 5 (split; [done|]). intros q x Hx Hn.
      apply not_elem_of_cons in Hn as [_ Hn]. eauto.
  - destruct (IH m Hm) as (m' & -> & Hm' & Hev & Hid & Hb & Hsame).
    exists m'. do 5 (split; [done|]). intros q x Hx Hn.
    apply not_elem_of_cons in Hn as [_ Hn]. eauto.
Qed.

(** ** The invariant *)

Definition live (rec : cont_record) : bool := bool_decide (state rec = CONT_REC_LIVE_FRONTIER).

Definition ids_of (rec : cont_record) : list (list Z) := stops_v (call_ids rec).

(** A record lists at least one id, none of them empty, each once, at a positive
    frontier of a real generation. *)
Record rec_ok (rec : cont_record) : Prop := {
  rec_ids : ids_of rec ≠ [];
  rec_nonempty : [] ∉ ids_of rec;
  rec_nodup : NoDup (ids_of rec);
  rec_frontier : 0 < frontier rec;
  rec_gen : owner_gen rec ≠ 0;
  rec_hard : 0 <= hard_refs rec }.

Definition live_one (rec : cont_record) : Z := if live rec then 1 else 0.

Record server_ok (s : server) (L R : list ptr) : Prop := {
  ok_mem : mem_ok (tool_mem s) L;
  ok_list : repr (rlist (creg s)) R;
  ok_dom : ∀ r, r ∈ R ↔ is_Some (rhp (creg s) !! r);
  ok_records : n_records (creg s) = blen R;
  ok_live : n_live (creg s) = msum live_one (rhp (creg s));
  ok_rec : ∀ r rec, rhp (creg s) !! r = Some rec → rec_ok rec;
  ok_index : ∀ k r, index (creg s) !! k = Some r →
    ∃ rec i, rhp (creg s) !! r = Some rec ∧ i ∈ ids_of rec ∧
             k = cont_registry_key (protocol rec) i;
  ok_serial : ∀ r, serial_live (creg s) = Some r ↔
    ∃ rec, rhp (creg s) !! r = Some rec ∧ live rec = true ∧
           owner rec = CONT_OWNER_SERIAL_SESSION;
  ok_bank : ∀ r1 r2 rec1 rec2,
    rhp (creg s) !! r1 = Some rec1 → rhp (creg s) !! r2 = Some rec2 →
    live rec1 = true → live rec2 = true →
    owner rec1 = CONT_OWNER_BATCH_BANK → owner rec2 = CONT_OWNER_BATCH_BANK →
    owner_id rec1 = owner_id rec2 → r1 = r2;
  ok_entry : ∀ p e, ehp (tool_mem s) !! p = Some e →
    0 <= e_pins e ∧
    ∀ r, e_rec e = Some r →
      srv (tool_mem s) = true ∧ ∃ rec, rhp (creg s) !! r = Some rec ∧ e_id e ∈ ids_of rec }.

(** Evicting entries keeps it. *)
Lemma server_ok_mem s L R m' L' :
  server_ok s L R → mem_ok m' L' → evicted (tool_mem s) m' → server_ok (with_mem s m') L' R.
Proof.
  intros [] Hm Hev. split; try done. simpl. intros p e' He'.
  destruct (ev_entry _ _ Hev _ _ He') as (e & He & K1 & K2 & K3 & K4).
  destruct (ok_entry0 _ _ He) as [Hp Hr]. split; [lia|]. rewrite K1, K3. intros r Hr'.
  destruct (Hr r Hr') as [Hs ?]. split; [|done].
  pose proof (ev_params _ _ Hev) as Hpar. unfold params in Hpar. congruence.
Qed.

(** The prune looks at the state and the pins of a record only, and the rest of the
    invariant at its other fields; a change of pins keeps everything. *)
Lemma server_ok_pins s L R r rec n t :
  server_ok s L R → rhp (creg s) !! r = Some rec → 0 <= n →
  server_ok (with_reg s (with_rhp (creg s) (<[r := with_hard rec n t]> (rhp (creg s))))) L R.
Proof.
  intros [] Hr Hn.
  assert (∀ q x, <[r := with_hard rec n t]> (rhp (creg s)) !! q = Some x →
    ∃ y, rhp (creg s) !! q = Some y ∧
      (x = y ∨ x = with_hard y n t)) as Hback.
  { intros q x. destruct (decide (r = q)) as [<-|Hne].
    - rewrite lookup_insert_eq. intros [= <-]. eauto.
    - rewrite lookup_insert_ne by done. eauto. }
  assert (∀ q y, rhp (creg s) !! q = Some y →
    ∃ x, <[r := with_hard rec n t]> (rhp (creg s)) !! q = Some x ∧
      (x = y ∨ x = with_hard y n t)) as Hforth.
  { intros q y. destruct (decide (r = q)) as [<-|Hne].
    - rewrite lookup_insert_eq. intros Hq. replace y with rec by congruence. eauto.
    - rewrite lookup_insert_ne by done. eauto. }
  split; simpl; try done.
  - intros q. rewrite ok_dom0, lookup_insert_is_Some. destruct (decide (r = q)) as [<-|Hne].
    + rewrite Hr. split; eauto.
    + split; [tauto|]. intros [->|[_ ?]]; done.
  - rewrite ok_live0, (msum_update _ _ _ rec) by done. unfold live_one, live. simpl. lia.
  - intros q x Hx. destruct (Hback _ _ Hx) as (y & Hy & [->| ->]); [by eauto|].
    by destruct (ok_rec0 _ _ Hy).
  - intros k q Hk. destruct (ok_index0 _ _ Hk) as (y & i & Hy & Hi & ->).
    destruct (Hforth _ _ Hy) as (x & Hx & [->| ->]); eauto.
  - intros q. rewrite ok_serial0. split; intros (y & Hy & Hl & Ho).
    + destruct (Hforth _ _ Hy) as (x & Hx & [->| ->]); eauto.
    + destruct (Hback _ _ Hy) as (x & Hx & [->| ->]); eauto.
  - intros q1 q2 x1 x2 H1 H2.
    destruct (Hback _ _ H1) as (y1 & Hy1 & [->| ->]), (Hback _ _ H2) as (y2 & Hy2 & [->| ->]);
      by apply (ok_bank0 q1 q2 y1 y2).
  - intros p e He. destruct (ok_entry0 _ _ He) as [Hp Hq]. split; [done|].
    intros q Hq'. destruct (Hq q Hq') as (Hs & y & Hy & Hi). split; [done|].
    destruct (Hforth _ _ Hy) as (x & Hx & [->| ->]); eauto.
Qed.

(** ** Demotion *)

(** What the retention policy reads and no operation on the records changes. *)
Definition policy (g : cont_registry) :=
  (max_records g, grace_s g, ttl_s g, pin_deadline_s g, hold_shed_s g).

Definition replay (rec : cont_record) : cont_record := with_state rec CONT_REC_REPLAY_ONLY.

(** [s'] is [s] with the record at [r] made REPLAY_ONLY. *)
Record demoted (s s' : server) (r : ptr) (rec : cont_record) : Prop := {
  de_rhp : rhp (creg s') = <[r := replay rec]> (rhp (creg s));
  de_reg : by_call_id (creg s') = by_call_id (creg s) ∧ rlist (creg s') = rlist (creg s) ∧
           n_records (creg s') = n_records (creg s) ∧ policy (creg s') = policy (creg s);
  de_mem : evicted (tool_mem s) (tool_mem s') ∧ by_id (tool_mem s') = by_id (tool_mem s) ∧
           bhp (tool_mem s') = bhp (tool_mem s);
  de_serial : serial_live (creg s) ≠ Some r → serial_live (creg s') = serial_live (creg s);
  de_same : ∀ p e, ehp (tool_mem s) !! p = Some e → e_id e ∉ ids_of rec →
            ehp (tool_mem s') !! p = Some e;
  de_disable : disable_exact_dsml_tool_replay s' = disable_exact_dsml_tool_replay s }.

Lemma replay_id rec : live rec = false → replay rec = rec.
Proof.
  unfold live. intros Hl. apply bool_decide_eq_false in Hl. destruct rec as [[] ? ? ? ? ? ? ? ? ?]; done.
Qed.

Lemma live_replay rec : live (replay rec) = false.
Proof. done. Qed.

Lemma live_state rec : live rec = true ↔ state rec = CONT_REC_LIVE_FRONTIER.
Proof. unfold live. by rewrite bool_decide_eq_true. Qed.

Lemma live_sum_pos h (r : ptr) rec : h !! r = Some rec → live rec = true → 0 < msum live_one h.
Proof.
  intros Hr Hl. rewrite (msum_delete _ _ _ _ Hr). unfold live_one at 1. rewrite Hl.
  assert (0 <= msum live_one (delete r h)); [|lia].
  apply msum_nonneg. intros p x _. unfold live_one. by destruct (live x).
Qed.

(** The registry half of the demotion of a LIVE record. *)
Lemma demote_reg_ok s L R r rec m' :
  server_ok s L R → rhp (creg s) !! r = Some rec → live rec = true →
  mem_ok m' L → evicted (tool_mem s) m' →
  ∀ c z, server_ok
    (Server m' (with_live (with_rhp (creg s) (<[r := replay rec]> (rhp (creg s))))
                (n_live (creg s) - 1)
                (if bool_decide (serial_live (creg s) = Some r) then None
                 else serial_live (creg s)))
       (disable_exact_dsml_tool_replay s) (creg_published s) c z) L R.
Proof.
  intros Hok Hr Hl Hm' Hev c z. apply (server_ok_mem _ _ _ m' L) in Hok as []; [|done|done].
  split; simpl in *; try done.
  - intros q. rewrite ok_dom0, lookup_insert_is_Some. destruct (decide (r = q)) as [<-|Hne].
    + rewrite Hr. split; eauto.
    + split; [tauto|]. intros [->|[_ ?]]; done.
  - rewrite ok_live0, (msum_update _ _ _ rec) by done. unfold live_one. rewrite Hl. simpl. lia.
  - intros q x [[<- <-]|[Hq Hx]]%lookup_insert_Some; [|by eauto]. by destruct (ok_rec0 _ _ Hr).
  - intros k q Hk. destruct (ok_index0 _ _ Hk) as (y & i & Hy & Hi & ->).
    destruct (decide (r = q)) as [<-|Hne].
    + rewrite lookup_insert_eq. exists (replay rec), i. by replace y with rec in * by congruence.
    + rewrite lookup_insert_ne by done. eauto.
  - intros q. transitivity (serial_live (creg s) = Some q ∧ q ≠ r).
    + case_bool_decide as Hs; [split; [done|]|split].
      * intros [? ?]. congruence.
      * intros Hq. split; [done|congruence].
      * by intros [? _].
    + rewrite ok_serial0. split.
      * intros [(y & Hy & ? & ?) Hq]. exists y. by rewrite lookup_insert_ne.
      * intros (y & [[<- <-]|[Hq Hy]]%lookup_insert_Some & Hly & ?); [done|]. split; eauto.
  - intros q1 q2 x1 x2 [[<- <-]|[Hq1 H1]]%lookup_insert_Some; [done|].
    intros [[<- <-]|[Hq2 H2]]%lookup_insert_Some; [done|]. by apply (ok_bank0 q1 q2 x1 x2).
  - intros p e He. destruct (ok_entry0 _ _ He) as [Hp Hq]. split; [done|].
    intros q Hq'. destruct (Hq q Hq') as (Hs & y & Hy & Hi). split; [done|].
    destruct (decide (r = q)) as [<-|Hne].
    + rewrite lookup_insert_eq. exists (replay rec). by replace y with rec in * by congruence.
    + rewrite lookup_insert_ne by done. eauto.
Qed.

Lemma demote_ok s L R r rec :
  server_ok s L R → rhp (creg s) !! r = Some rec →
  ∃ s', cont_registry_demote_locked s r = Some s' ∧ server_ok s' L R ∧ demoted s s' r rec ∧
        (live rec = false → s' = s).
Proof.
  intros Hok Hr. unfold cont_registry_demote_locked. rewrite Hr. simpl.
  destruct (live rec) eqn:Hl.
  - destruct (unpin_ids_ok _ _ (ids_of rec) (ok_mem _ _ _ Hok))
      as (m' & Hu & Hm' & Hev & Hid & Hb & Hsame).
    apply live_state in Hl as Hst. rewrite Hst. unfold ids_of in Hu. rewrite Hu. simpl.
    assert (0 < n_live (creg s)) as Hn.
    { rewrite (ok_live _ _ _ Hok). by apply (live_sum_pos _ r rec). }
    replace (0 <? n_live (creg s)) with true by lia.
    eexists. split; [done|]. split; [by apply demote_reg_ok|]. split; [|done]. split; try done.
    simpl. intros Hs. by rewrite bool_decide_false.
  - assert (state rec = CONT_REC_REPLAY_ONLY) as Hst.
    { unfold live in Hl. apply bool_decide_eq_false in Hl. by destruct (state rec). }
    rewrite Hst. exists s. split; [done|]. split; [done|]. split; [|done]. split; try done.
    by rewrite replay_id, insert_id.
Qed.

(** ** Removal *)

Lemma drop_rows_sub rows proto r ids k q :
  drop_rows rows proto r ids !! k = Some q → rows !! k = Some q.
Proof.
  revert rows. induction ids as [|i ids IH]; intros rows; simpl; [done|].
  intros H%IH. case_bool_decide; [|done]. by apply lookup_delete_Some in H as [_ ?].
Qed.

Lemma drop_rows_gone rows proto r ids i :
  i ∈ ids → drop_rows rows proto r ids !! cont_registry_key proto i ≠ Some r.
Proof.
  revert rows. induction ids as [|j ids IH]; intros rows; [by intros ?%elem_of_nil|].
  intros [->|Hi]%elem_of_cons; simpl; [|by apply IH].
  intros H%drop_rows_sub. case_bool_decide; [|done].
  by rewrite lookup_delete_eq in H.
Qed.

Lemma drop_rows_keep rows proto r ids k q :
  rows !! k = Some q → q ≠ r → drop_rows rows proto r ids !! k = Some q.
Proof.
  revert rows. induction ids as [|i ids IH]; intros rows Hk Hq; simpl; [done|].
  apply IH; [|done]. case_bool_decide as H; [|done].
  rewrite lookup_delete_ne; [done|]. intros <-. congruence.
Qed.

Lemma drop_index_with g r rec :
  cont_registry_drop_index_locked g r rec =
  with_index g (by_call_id (cont_registry_drop_index_locked g r rec)).
Proof.
  unfold cont_registry_drop_index_locked. destruct (by_call_id g) as [rows|] eqn:Hg; [done|].
  rewrite Hg. unfold with_index. destruct g; simpl in *. by subst.
Qed.

Lemma drop_index_index g r rec :
  index (cont_registry_drop_index_locked g r rec) =
  drop_rows (index g) (protocol rec) r (ids_of rec).
Proof.
  unfold cont_registry_drop_index_locked, index. destruct (by_call_id g) as [rows|] eqn:Hg; simpl.
  - done.
  - rewrite Hg. simpl. generalize (ids_of rec). intros l.
    induction l as [|i l IH]; simpl; [done|].
    case_bool_decide as H; [|done]. by rewrite lookup_empty in H.
Qed.

(** [s'] is [s] without the record at [r]: its rows, its entries and the blocks
    only they used are gone, and nothing of another record is. *)
Record removed (s s' : server) (r : ptr) (rec : cont_record) : Prop := {
  rm_rhp : rhp (creg s') = delete r (rhp (creg s));
  rm_policy : policy (creg s') = policy (creg s);
  rm_mem : evicted (tool_mem s) (tool_mem s');
  rm_sub : live rec = false → ehp (tool_mem s') ⊆ ehp (tool_mem s);
  rm_gone : ∀ p e, ehp (tool_mem s') !! p = Some e → e_rec e ≠ Some r;
  rm_same : ∀ p e, ehp (tool_mem s) !! p = Some e → e_rec e ≠ Some r →
            live rec = false ∨ e_id e ∉ ids_of rec → ehp (tool_mem s') !! p = Some e;
  rm_rows : ∀ k q, q ≠ r → index (creg s) !! k = Some q → index (creg s') !! k = Some q;
  rm_serial : serial_live (creg s) ≠ Some r → serial_live (creg s') = serial_live (creg s);
  rm_disable : disable_exact_dsml_tool_replay s' = disable_exact_dsml_tool_replay s }.

(** The registry half, for a record that is not LIVE. *)
Lemma remove_reg_ok s L R1 r R2 rec m' L' d :
  server_ok s L (R1 ++ r :: R2) → rhp (creg s) !! r = Some rec → live rec = false →
  mem_ok m' L' → evicted (tool_mem s) m' →
  (∀ p e, ehp m' !! p = Some e → e_rec e ≠ Some r) →
  repr d (R1 ++ R2) →
  let g := cont_registry_drop_index_locked (creg s) r rec in
  server_ok (with_reg (with_mem s m')
               (with_list g (delete r (rhp g)) d
                  (if 0 <? n_records g then n_records g - 1 else n_records g)))
            L' (R1 ++ R2).
Proof.
  intros Hok Hr Hl Hm' Hev Hgone Hd g.
  assert (rhp g = rhp (creg s) ∧ n_records g = n_records (creg s) ∧ n_live g = n_live (creg s) ∧
          serial_live g = serial_live (creg s)) as (Eh & En & Ev & Es).
  { unfold g. by rewrite drop_index_with. }
  assert (index g = drop_rows (index (creg s)) (protocol rec) r (ids_of rec)) as Ei
    by apply drop_index_index.
  pose proof (NoDup_middle _ _ _ (proj1 (proj2 (ok_list _ _ _ Hok)))) as [Hnd HrR].
  apply (server_ok_mem _ _ _ m' L') in Hok as []; [|done|done].
  split; simpl in *; rewrite ?Eh, ?En, ?Ev, ?Es; try done.
  - intros q. rewrite lookup_delete_is_Some, <- ok_dom0, !elem_of_app, elem_of_cons.
    rewrite elem_of_app in HrR. naive_solver.
  - rewrite ok_records0, !blen_app, blen_cons.
    pose proof (blen_nonneg R1). pose proof (blen_nonneg R2).
    destruct (0 <? _) eqn:E; lia.
  - rewrite ok_live0, (msum_delete _ _ r rec) by done. unfold live_one at 1. by rewrite Hl.
  - intros q x [_ Hx]%lookup_delete_Some. eauto.
  - intros k q. change (index (with_list _ _ _ _)) with (index g). rewrite Ei. intros Hk.
    pose proof (drop_rows_sub _ _ _ _ _ _ Hk) as Hk0.
    destruct (ok_index0 _ _ Hk0) as (y & i & Hy & Hi & ->).
    exists y, i. split; [|done]. rewrite lookup_delete_ne; [done|]. intros <-.
    replace y with rec in * by congruence. by apply (drop_rows_gone _ _ _ _ _ Hi) in Hk.
  - intros q. rewrite ok_serial0. split; intros (y & Hy & Hly & Ho); exists y.
    + split; [|done]. rewrite lookup_delete_ne; [done|]. intros <-. congruence.
    + by apply lookup_delete_Some in Hy as [_ ?].
  - intros q1 q2 x1 x2 [_ H1]%lookup_delete_Some [_ H2]%lookup_delete_Some. eauto.
  - intros p e He. destruct (ok_entry0 _ _ He) as [Hp Hq]. split; [done|].
    intros q Hq'. destruct (Hq q Hq') as (Hs & y & Hy & Hi). split; [done|].
    exists y. split; [|done]. rewrite lookup_delete_ne; [done|]. intros <-.
    by apply (Hgone p e).
Qed.

Lemma remove_record_ok s L R r rec :
  server_ok s L R → rhp (creg s) !! r = Some rec →
  ∃ s' L' R1 R2, R = R1 ++ r :: R2 ∧ cont_registry_remove_locked s r = Some s' ∧
    server_ok s' L' (R1 ++ R2) ∧ removed s s' r rec.
Proof.
  intros Hok Hr. destruct (demote_ok _ _ _ _ _ Hok Hr) as (s1 & Hde & Hok1 & D & Hsame).
  assert (r ∈ R) as HrR by (apply (ok_dom _ _ _ Hok); eauto).
  apply list_elem_of_split in HrR as (R1 & R2 & ->).
  assert (rhp (creg s1) !! r = Some (replay rec)) as Hr1
    by (rewrite (de_rhp _ _ _ _ D); apply lookup_insert_eq).
  destruct (drop_entries_ok _ _ r (ids_of rec) (ok_mem _ _ _ Hok1))
    as (m' & L' & Hdrop & Hm' & Hev & Hsub & Hkeep & Hgone0).
  assert (∀ p e, ehp m' !! p = Some e → e_rec e ≠ Some r) as Hgone.
  { intros p e He Her. apply (Hgone0 p e He Her).
    pose proof (lookup_weaken _ _ _ _ He Hsub) as He1.
    destruct (ok_entry _ _ _ Hok1 _ _ He1) as [_ Hq]. destruct (Hq r Her) as (_ & y & Hy & Hi).
    by replace y with (replay rec) in * by congruence. }
  destruct (unlink_repr _ _ _ _ (ok_list _ _ _ Hok1)) as (d & Hd & Hrd & _).
  set (g := cont_registry_drop_index_locked (creg s1) r (replay rec)).
  assert (g = with_index (creg s1) (by_call_id g)) as Eg by apply drop_index_with.
  exists (with_reg (with_mem s1 m') (with_list g (delete r (rhp g)) (dfree r d)
            (if 0 <? n_records g then n_records g - 1 else n_records g))), L', R1, R2.
  split; [done|]. split; [|split].
  - unfold cont_registry_remove_locked. rewrite Hde. simpl. rewrite Hr1. simpl.
    unfold ids_of in Hdrop. rewrite Hdrop. simpl. fold g.
    assert (rlist g = rlist (creg s1)) as -> by by rewrite Eg.
    by rewrite Hd.
  - apply (remove_reg_ok s1 L); try done. apply repr_free; [|done].
    apply NoDup_middle, (ok_list _ _ _ Hok1).
  - destruct D as [Drhp (Di & _ & _ & Dp) (Dev & _ & _) Dser Dsame Ddis].
    assert (rhp g = rhp (creg s1) ∧ policy g = policy (creg s1) ∧
            serial_live g = serial_live (creg s1)) as (Eh & Ep & Es) by by rewrite Eg.
    split; simpl; try done.
    + by rewrite Eh, Drhp, delete_insert_eq.
    + change (policy g = policy (creg s)). by rewrite Ep.
    + by transitivity (tool_mem s1).
    + intros Hl. by rewrite (Hsame Hl) in Hsub.
    + intros p e He Her [Hl|Hni]; apply Hkeep; try done.
      * by rewrite (Hsame Hl).
      * by apply Dsame.
    + intros k q Hq Hk. change (index (with_list ?g _ _ _)) with (index g).
      unfold g. rewrite drop_index_index. apply drop_rows_keep; [|done].
      unfold index in *. by rewrite Di.
    + intros Hs. rewrite Es. by apply Dser.
Qed.

(** ** Pruning *)

(** The record of the entry is LIVE or held by a queued request; an entry without a
    record is pinned. *)
Definition safe (s : server) (e : tool_memory_entry) : bool :=
  match e_rec e with
  | Some r => match rhp (creg s) !! r with Some rec => negb (evictable rec) | None => false end
  | None => 0 <? e_pins e
  end.

(** The prune does not take this entry when it reaches it. *)
Definition protected (s : server) (e : tool_memory_entry) : bool :=
  (0 <? e_pins e) || safe s e.

(** Between [s] and [s'] only unprotected entries and evictable records went. *)
Record pruned (s s' : server) : Prop := {
  pr_mem : evicted (tool_mem s) (tool_mem s');
  pr_sub : ehp (tool_mem s') ⊆ ehp (tool_mem s);
  pr_keep : ∀ p e, ehp (tool_mem s) !! p = Some e → safe s e = true → ehp (tool_mem s') !! p = Some e;
  pr_rhp : rhp (creg s') ⊆ rhp (creg s);
  pr_rec : ∀ r rec, rhp (creg s) !! r = Some rec → evictable rec = false →
           rhp (creg s') !! r = Some rec;
  pr_rows : ∀ k r, index (creg s) !! k = Some r → is_Some (rhp (creg s') !! r) →
            index (creg s') !! k = Some r;
  pr_policy : policy (creg s') = policy (creg s);
  pr_serial : serial_live (creg s') = serial_live (creg s);
  pr_disable : disable_exact_dsml_tool_replay s' = disable_exact_dsml_tool_replay s }.

#[export] Instance pruned_preorder : PreOrder pruned.
Proof.
  split.
  - intros s. by split.
  - intros s1 s2 s3 [A1 B1 C1 D1 E1 F1 G1 H1 I1] [A2 B2 C2 D2 E2 F2 G2 H2 I2].
    split; try congruence.
    + by transitivity (tool_mem s2).
    + by transitivity (ehp (tool_mem s2)).
    + intros p e He Hs. apply C2; [by apply C1|]. unfold safe in *.
      destruct (e_rec e) as [r|]; [|done].
      destruct (rhp (creg s1) !! r) as [rec|] eqn:Hr; [|done].
      rewrite (E1 r rec Hr); [done|]. by destruct (evictable rec).
    + by transitivity (rhp (creg s2)).
    + eauto.
    + intros k r Hk Hs. apply F2; [|done]. apply F1; [done|].
      destruct Hs as [rec Hs]. exists rec. by apply (lookup_weaken _ _ _ _ Hs).
Qed.

Lemma evictable_not_live rec : evictable rec = true → live rec = false.
Proof.
  unfold evictable, live. intros [H _]%andb_prop. apply bool_decide_eq_true in H.
  by rewrite H.
Qed.

(** Removing an evictable record prunes. *)
Lemma evict_record_ok s L R r rec :
  server_ok s L R → rhp (creg s) !! r = Some rec → evictable rec = true →
  ∃ s' L' R1 R2, R = R1 ++ r :: R2 ∧ cont_registry_remove_locked s r = Some s' ∧
    server_ok s' L' (R1 ++ R2) ∧ pruned s s' ∧
    (∀ p e, ehp (tool_mem s') !! p = Some e → e_rec e ≠ Some r).
Proof.
  intros Hok Hr Hv. pose proof (evictable_not_live _ Hv) as Hl.
  destruct (remove_record_ok _ _ _ _ _ Hok Hr) as (s' & L' & R1 & R2 & -> & Hrm & Hok' & D).
  exists s', L', R1, R2. do 3 (split; [done|]). split; [|by apply (rm_gone _ _ _ _ D)].
  destruct D as [Drhp Dpol Dmem Dsub Dgone Dsame Drows Dser Ddis].
  split; try done.
  - by apply Dsub.
  - intros p e He Hs. apply Dsame; [done| |by left]. intros Her.
    unfold safe in Hs. by rewrite Her, Hr, Hv in Hs.
  - rewrite Drhp. apply delete_subseteq.
  - intros q x Hx Hxv. rewrite Drhp, lookup_delete_ne; [done|]. intros <-. congruence.
  - intros k q Hk [x Hx]. apply Drows; [|done]. intros ->. by rewrite Drhp, lookup_delete_eq in Hx.
  - apply Dser. intros Hs. apply (ok_serial _ _ _ Hok) in Hs as (x & Hx & Hlx & _). congruence.
Qed.

(** Removing an entry that is not safe prunes. *)
Lemma evict_entry_ok s L R L1 p L2 e :
  server_ok s L R → L = L1 ++ p :: L2 → ehp (tool_mem s) !! p = Some e → safe s e = false →
  ∃ m, tool_memory_remove_entry_locked (tool_mem s) p = Some m ∧
    server_ok (with_mem s m) (L1 ++ L2) R ∧ pruned s (with_mem s m) ∧
    ehp m = delete p (ehp (tool_mem s)).
Proof.
  intros Hok -> He Hs. destruct (remove_ok _ _ _ _ (ok_mem _ _ _ Hok))
    as (e' & m & He' & Hrm & Hm & Hh & Hi & Hpar & _ & _ & Hb).
  exists m. split; [done|].
  assert (evicted (tool_mem s) m) as Hev.
  { split; [|done|done]. rewrite Hh. intros q x [_ Hx]%lookup_delete_Some. exists x. by repeat split. }
  split; [by apply (server_ok_mem _ (L1 ++ p :: L2))|]. split; [|done].
  split; simpl; try done.
  - rewrite Hh. apply delete_subseteq.
  - intros q x Hx Hxs. rewrite Hh, lookup_delete_ne; [done|]. intros <-. congruence.
Qed.

Lemma mem_size m L : mem_ok m L → size (ehp m) = length L.
Proof.
  intros Hm. rewrite <- size_dom. replace (dom (ehp m)) with (list_to_set L : gset ptr).
  - apply size_list_to_set, (mem_lru _ _ Hm).
  - apply set_eq. intros p. by rewrite elem_of_list_to_set, (mem_dom _ _ Hm), elem_of_dom.
Qed.

Lemma size_smaller {A} (h h' : gmap ptr A) p x :
  h' ⊆ h → h !! p = Some x → h' !! p = None → (size h' < size h)%nat.
Proof.
  intros Hs Hp Hn. apply map_subset_size. split; [done|]. intros Hs'.
  pose proof (lookup_weaken _ _ _ _ Hp Hs'). congruence.
Qed.

(** What a prune promises: a well-formed server in which only what could go is gone,
    within budget or with nothing left that may go. *)
Definition prune_result (s : server) (o : option server) : Prop :=
  ∃ s' L' R', o = Some s' ∧ server_ok s' L' R' ∧ pruned s s' ∧
    (over_budget (tool_mem s') = false ∨
     ∀ p e, ehp (tool_mem s') !! p = Some e → protected s' e = true).

Lemma prune_result_step s s1 o : pruned s s1 → prune_result s1 o → prune_result s o.
Proof.
  intros Hp (s' & L' & R' & Ho & Hok & Hp' & H). exists s', L', R'.
  do 2 (split; [done|]). split; [by transitivity s1|done].
Qed.

Lemma prune_result_stop s L R :
  server_ok s L R →
  over_budget (tool_mem s) = false ∨
    (∀ p e, p ∈ L → ehp (tool_mem s) !! p = Some e → protected s e = true) →
  prune_result s (Some s).
Proof.
  intros Hok H. exists s, L, R. do 3 (split; [done|]). destruct H as [H|H]; [by left|right].
  intros p e He. apply (H p); [|done]. apply (mem_dom _ _ (ok_mem _ _ _ Hok)). eauto.
Qed.

(** The tool-memory walk, from the place [L1 | L2] on the list, everything in [L2]
    being protected already. *)
Lemma tool_prune_walk_ok fuel s R L1 L2 :
  server_ok s (L1 ++ L2) R →
  (length L1 + length (L1 ++ L2) * length (L1 ++ L2) <= fuel)%nat →
  (∀ p e, p ∈ L2 → ehp (tool_mem s) !! p = Some e → protected s e = true) →
  prune_result s (tool_prune_walk fuel s (final L1 None)).
Proof.
  revert s R L1 L2. induction fuel as [|f IH]; intros s R L1 L2 Hok Hf Hp; simpl;
    (destruct (over_budget (tool_mem s)) eqn:Ho; simpl;
      [|apply (prune_result_stop _ _ _ Hok); by left]);
    (destruct L1 as [|p L1 _] using rev_ind; [apply (prune_result_stop _ _ _ Hok); by right|]).
  { rewrite length_app in Hf. simpl in Hf. lia. }
  rewrite final_snoc. rewrite <- app_assoc in Hok, Hf. simpl in Hok, Hf.
  rewrite !length_app in Hf. simpl in Hf.
  pose proof (ok_mem _ _ _ Hok) as Hm.
  assert (p ∈ L1 ++ p :: L2) as HpL by (apply elem_of_app; right; by left).
  destruct (proj1 (mem_dom _ _ Hm p) HpL) as [e He].
  rewrite He, (repr_fields _ _ _ _ (mem_lru _ _ Hm)). simpl.
  assert (protected s e = true → prune_result s (tool_prune_walk f s (final L1 None))) as Hpast.
  { intros Hpe. apply (IH s R L1 (p :: L2)); [done|rewrite length_app; simpl; lia|].
    intros q x [->|Hq]%elem_of_cons Hx; [congruence|by apply (Hp q)]. }
  assert (safe s e = false → prune_result s
    (m ← tool_memory_remove_entry_locked (tool_mem s) p;
     tool_prune_walk f (with_mem s m) (final L1 None))) as Hgoes.
  { intros Hs. destruct (evict_entry_ok _ _ _ _ _ _ _ Hok eq_refl He Hs) as (m & -> & Hok1 & Hpr & Hh).
    simpl. apply (prune_result_step _ _ _ Hpr), (IH _ R L1 L2 Hok1).
    - rewrite length_app. nia.
    - intros q x Hq Hx. simpl in Hx. rewrite Hh in Hx. apply lookup_delete_Some in Hx as [_ Hx].
      by apply (Hp q x Hq). }
  destruct (0 <? e_pins e) eqn:Hpin; [apply Hpast; unfold protected; by rewrite Hpin|].
  destruct (e_rec e) as [r|] eqn:Her; [|apply Hgoes; unfold safe; by rewrite Her].
  destruct (proj2 (ok_entry _ _ _ Hok _ _ He) r Her) as (Hsrv & rec & Hr & _).
  rewrite Hsrv, Hr. simpl. destruct (evictable rec) eqn:Hv.
  - destruct (evict_record_ok _ _ _ _ _ Hok Hr Hv) as (s1 & L' & R1 & R2 & _ & -> & Hok1 & Hpr & Hgone).
    simpl. pose proof (ok_mem _ _ _ Hok1) as Hm1.
    assert (length L' < length (L1 ++ p :: L2))%nat as Hlt.
    { rewrite <- (mem_size _ _ Hm1), <- (mem_size _ _ Hm). apply (size_smaller _ _ p e (pr_sub _ _ Hpr) He).
      destruct (ehp (tool_mem s1) !! p) as [x|] eqn:Hx; [|done]. destruct (Hgone p x Hx).
      pose proof (lookup_weaken _ _ _ _ Hx (pr_sub _ _ Hpr)). congruence. }
    rewrite length_app in Hlt. simpl in Hlt.
    destruct (mem_lru _ _ Hm1) as (_ & _ & _ & ->).
    apply (prune_result_step _ _ _ Hpr), (IH s1 (R1 ++ R2) L' []); rewrite ?app_nil_r; [done|nia|].
    by intros ? ? ?%elem_of_nil.
  - apply Hpast. unfold protected, safe. by rewrite Her, Hr, Hv, orb_true_r.
Qed.

Lemma tool_prune_ok s L R :
  server_ok s L R → prune_result s (tool_memory_prune_locked s).
Proof.
  intros Hok. pose proof (ok_mem _ _ _ Hok) as Hm. unfold tool_memory_prune_locked.
  destruct (mem_lru _ _ Hm) as (_ & _ & _ & ->).
  apply (tool_prune_walk_ok _ s R L []); rewrite ?app_nil_r; [done| |by intros ? ? ?%elem_of_nil].
  rewrite (mem_size _ _ Hm). lia.
Qed.

(** The registry walk, from the place [R1 | R2], nothing evictable in [R2]. *)
Lemma registry_prune_walk_ok fuel s L R1 R2 :
  server_ok s L (R1 ++ R2) → (length R1 <= fuel)%nat →
  (∀ r rec, r ∈ R2 → rhp (creg s) !! r = Some rec → evictable rec = false) →
  ∃ s' L' R', registry_prune_walk fuel s (final R1 None) = Some s' ∧ server_ok s' L' R' ∧
    pruned s s' ∧
    (n_records (creg s') <= max_records (creg s') ∨
     ∀ r rec, rhp (creg s') !! r = Some rec → evictable rec = false).
Proof.
  revert s L R1 R2. induction fuel as [|f IH]; intros s L R1 R2 Hok Hf Hp; simpl;
    (destruct (n_records (creg s) <=? max_records (creg s)) eqn:Ho;
      [exists s, L, (R1 ++ R2); do 3 (split; [done|]); left; lia|]);
    (destruct R1 as [|r R1 _] using rev_ind;
      [exists s, L, R2; do 3 (split; [done|]); right; intros r rec Hr; apply (Hp r); [|done];
       apply (ok_dom _ _ _ Hok); by eauto|]).
  { rewrite length_app in Hf. simpl in Hf. lia. }
  rewrite final_snoc. rewrite <- app_assoc in Hok. simpl in Hok. rewrite length_app in Hf. simpl in Hf.
  assert (r ∈ R1 ++ r :: R2) as HrR by (apply elem_of_app; right; by left).
  destruct (proj1 (ok_dom _ _ _ Hok r) HrR) as [rec Hr].
  rewrite (repr_fields _ _ _ _ (ok_list _ _ _ Hok)), Hr. simpl.
  destruct (evictable rec) eqn:Hv.
  - destruct (evict_record_ok _ _ _ _ _ Hok Hr Hv) as (s1 & L' & R1' & R2' & HR & -> & Hok1 & Hpr & _).
    simpl. apply NoDup_split_unique in HR as [-> ->]; [|apply (ok_list _ _ _ Hok)].
    destruct (IH s1 L' R1 R2 Hok1) as (s' & L'' & R'' & Hw & ? & Hpr' & ?); [lia| |].
    + intros q x Hq Hx. apply (Hp q); [done|]. by apply (lookup_weaken _ _ _ _ Hx), Hpr.
    + exists s', L'', R''. do 2 (split; [done|]). split; [by transitivity s1|done].
  - simpl. apply (IH s L R1 (r :: R2)); [done|lia|].
    intros q x [->|Hq]%elem_of_cons Hx; [congruence|by apply (Hp q)].
Qed.

Lemma reg_size s L R : server_ok s L R → size (rhp (creg s)) = length R.
Proof.
  intros Hok. rewrite <- size_dom. replace (dom (rhp (creg s))) with (list_to_set R : gset ptr).
  - apply size_list_to_set, (ok_list _ _ _ Hok).
  - apply set_eq. intros p. by rewrite elem_of_list_to_set, (ok_dom _ _ _ Hok), elem_of_dom.
Qed.

Lemma registry_prune_ok s L R :
  server_ok s L R →
  ∃ s' L' R', cont_registry_prune_locked s = Some s' ∧ server_ok s' L' R' ∧ pruned s s' ∧
    (n_records (creg s') <= max_records (creg s') ∨
     ∀ r rec, rhp (creg s') !! r = Some rec → evictable rec = false).
Proof.
  intros Hok. unfold cont_registry_prune_locked.
  destruct (ok_list _ _ _ Hok) as (_ & _ & _ & ->).
  apply (registry_prune_walk_ok _ s L R []); rewrite ?app_nil_r; [done| |by intros ? ? ?%elem_of_nil].
  rewrite (reg_size _ _ _ Hok). lia.
Qed.
