(* ===== verification/ContOps.v ===== *)
(** * Operations of tool memory and registry keep the invariant

    Remembering a text, publishing a record, expiry, pins and shutdown: from a
    well-formed server each returns a well-formed server, with what it changed and
    what it left alone. *)

From S2P Require Import Prelude Float64 Text Stream Route DList ToolText ToolMem ContRegistry ContInv.

(** ** Texts across operations *)

Lemma text_of_at m L p e :
  mem_ok m L → ehp m !! p = Some e →
  ∃ b k, e_block e = Some b ∧ bhp m !! b = Some k ∧ text_of m (e_id e) = Some (b_dsml k).
Proof.
  intros Hm He. destruct (entry_block _ _ _ (mem_entry _ _ Hm _ _ He)) as (b & k & Hb & Hk & _).
  exists b, k. do 2 (split; [done|]). unfold text_of.
  assert (by_id m !! e_id e = Some p) as -> by (apply (mem_ids _ _ Hm); eauto). simpl.
  rewrite He. simpl. rewrite Hb. simpl. by rewrite Hk.
Qed.

(** An entry that remains has its text. *)
Lemma text_evicted m m' L L' p e :
  mem_ok m L → mem_ok m' L' → evicted m m' → ehp m' !! p = Some e →
  text_of m' (e_id e) = text_of m (e_id e).
Proof.
  intros Hm Hm' Hev He. destruct (text_of_at _ _ _ _ Hm' He) as (b & k' & Hb & Hk & ->).
  destruct (ev_entry _ _ Hev _ _ He) as (e0 & He0 & K1 & K2 & _).
  destruct (ev_block _ _ Hev _ _ Hk) as (k & Hk0 & ->). rewrite K1.
  destruct (text_of_at _ _ _ _ Hm He0) as (b0 & k0 & Hb0 & Hk00 & ->). congruence.
Qed.

(** The same index, the same blocks and the same entries up to other fields. *)
Lemma text_same m m' L i :
  mem_ok m L → by_id m' = by_id m → bhp m' = bhp m →
  (∀ p e, ehp m !! p = Some e → ∃ e', ehp m' !! p = Some e' ∧ e_block e' = e_block e) →
  text_of m' i = text_of m i.
Proof.
  intros Hm Hi Hb He. unfold text_of. rewrite Hi. destruct (by_id m !! i) as [p|] eqn:Hp; [|done].
  simpl. destruct (proj1 (mem_ids _ _ Hm _ _) Hp) as (e & Hpe & _).
  destruct (He p e Hpe) as (e' & -> & Heb). rewrite Hpe. simpl. rewrite Heb.
  destruct (e_block e); simpl; [|done]. by rewrite Hb.
Qed.

(** ** Remembering *)

(** [m0] is [m] with [text] under [id], the newest entry, and nothing else changed. *)
Record stored (m m0 : tool_memory) (id text : list Z) : Prop := {
  st_text : text_of m0 id = Some text;
  st_new : ∀ p e, ehp m0 !! p = Some e → e_id e ≠ id → ehp m !! p = Some e;
  st_old : ∀ p e, ehp m !! p = Some e → e_id e ≠ id → ehp m0 !! p = Some e;
  st_blocks : ∀ p e b k, ehp m !! p = Some e → e_id e ≠ id → e_block e = Some b →
    bhp m !! b = Some k → ∃ k', bhp m0 !! b = Some k' ∧ b_dsml k' = b_dsml k;
  st_same : ∀ p e, ehp m0 !! p = Some e → e_id e = id →
    (e_rec e = None ∧ e_pins e = 0) ∨
    ∃ e0, ehp m !! p = Some e0 ∧ keeps e0 e ∧ e_pins e = e_pins e0 ∧ text_of m id = Some text;
  st_params : params m0 = params m;
  st_entries : entries m0 <= entries m + 1;
  st_bytes : bytes m0 <= bytes m + (blen id + 1 + SIZEOF_ENTRY) + (blen text + 1 + SIZEOF_BLOCK) }.

Lemma stored_ok s L R m0 L0 id text :
  server_ok s L R → mem_ok m0 L0 → stored (tool_mem s) m0 id text →
  server_ok (with_mem s m0) L0 R.
Proof.
  intros [A B C D E F G H I J] Hm0 [_ Hnew _ _ Hsame Hpar _ _]. split; try done. simpl. intros p e He.
  assert (srv m0 = srv (tool_mem s)) as -> by (unfold params in Hpar; congruence).
  destruct (decide (e_id e = id)) as [Hi|Hi]; [|by apply (J p e), Hnew].
  destruct (Hsame _ _ He Hi) as [[-> ->]|(e0 & He0 & (-> & _ & -> & _) & -> & _)].
  - by split.
  - by apply (J p e0).
Qed.

(** ** Hard references *)

(** How many queued requests hold the record at [r]. *)
Definition holds (s : server) (r : ptr) : Z :=
  match rhp (creg s) !! r with Some rec => hard_refs rec | None => 0 end.

(** The operation returns a well-formed server, and every record is held as often
    as before; a record that went was not held. *)
Definition ok_result (s : server) (o : option server) : Prop :=
  ∃ s' L' R', o = Some s' ∧ server_ok s' L' R' ∧ ∀ r, holds s' r = holds s r.

Lemma ok_result_id s L R : server_ok s L R → ok_result s (Some s).
Proof. intros Hok. by exists s, L, R. Qed.

Lemma ok_result_bind s o f :
  ok_result s o → (∀ s1 L R, server_ok s1 L R → ok_result s1 (f s1)) →
  ok_result s (o ≫= f).
Proof.
  intros (s1 & L1 & R1 & -> & Hok & Hh) Hf. simpl.
  destruct (Hf _ _ _ Hok) as (s2 & L2 & R2 & Ho & Hok2 & Hh2).
  exists s2, L2, R2. do 2 (split; [done|]). intros r. by rewrite Hh2.
Qed.

Lemma pruned_refs s s' L R : server_ok s L R → pruned s s' → ∀ r, holds s' r = holds s r.
Proof.
  intros Hok Hpr r. unfold holds. destruct (rhp (creg s) !! r) as [rec|] eqn:Hr.
  - pose proof (rec_hard _ (ok_rec _ _ _ Hok _ _ Hr)). destruct (evictable rec) eqn:Hv.
    + assert (hard_refs rec = 0) as Hz.
      { unfold evictable in Hv. apply andb_prop in Hv as [_ ?]. lia. }
      destruct (rhp (creg s') !! r) as [rec'|] eqn:Hr'; [|done].
      pose proof (lookup_weaken _ _ _ _ Hr' (pr_rhp _ _ Hpr)). congruence.
    + by rewrite (pr_rec _ _ Hpr r rec Hr Hv).
  - destruct (rhp (creg s') !! r) as [rec'|] eqn:Hr'; [|done].
    pose proof (lookup_weaken _ _ _ _ Hr' (pr_rhp _ _ Hpr)). congruence.
Qed.

(** The text of a safe entry, and the absence of a text, survive a prune. *)
Lemma pruned_text s s' L R L' R' i :
  server_ok s L R → server_ok s' L' R' → pruned s s' →
  (∀ p e, ehp (tool_mem s) !! p = Some e → e_id e = i → safe s e = true) →
  text_of (tool_mem s') i = text_of (tool_mem s) i.
Proof.
  intros [Hm _ _ _ _ _ _ _ _ _] [Hm' _ _ _ _ _ _ _ _ _] Hpr Hs.
  destruct (by_id (tool_mem s) !! i) as [p|] eqn:Hp.
  - destruct (proj1 (mem_ids _ _ Hm _ _) Hp) as (e & He & Hei). rewrite <- Hei.
    apply (text_evicted _ _ L L' p); [done|done|apply Hpr|].
    apply (pr_keep _ _ Hpr); [done|by apply (Hs p)].
  - assert (text_of (tool_mem s) i = None) as -> by (unfold text_of; by rewrite Hp).
    unfold text_of. destruct (by_id (tool_mem s') !! i) as [p|] eqn:Hp'; [|done].
    destruct (proj1 (mem_ids _ _ Hm' _ _) Hp') as (e & He & Hei).
    pose proof (lookup_weaken _ _ _ _ He (pr_sub _ _ Hpr)) as He0.
    assert (by_id (tool_mem s) !! i = Some p); [|congruence]. apply (mem_ids _ _ Hm). eauto.
Qed.

Section ops.
Context `{Malloc}.

Lemma put_new_stored m L id text src :
  mem_ok m L → id ≠ [] → text ≠ [] → by_id m !! id = None →
  ∃ m0 L0, put_new m id text src = Some m0 ∧ mem_ok m0 L0 ∧ stored m m0 id text.
Proof.
  intros Hm Hi Ht Hn.
  destruct (put_new_ok m L id text src Hm Hi Ht Hn)
    as (m0 & p & e & Hp & Hfree & Hm0 & Hh & Hei & _ & Hpin & Hrec & _ & Hpar & Htx & Hen & Hby & Hbl).
  exists m0, (p :: L). split; [done|]. split; [done|].
  split; try done; rewrite ?Hh; try lia.
  - intros q x [[<- <-]|[_ Hx]]%lookup_insert_Some; [done|done].
  - intros q x Hx _. rewrite lookup_insert_ne; [done|]. intros <-. congruence.
  - eauto.
  - intros q x [[<- <-]|[_ Hx]]%lookup_insert_Some; [by left|]. intros Hxi.
    assert (by_id m !! id = Some q); [|congruence]. apply (mem_ids _ _ Hm). eauto.
Qed.

(** The same text again: the entry moves to the head. *)
Lemma touch_stored m L p e e' b k id text :
  mem_ok m L → by_id m !! id = Some p → ehp m !! p = Some e → e_id e = id →
  e_block e = Some b → bhp m !! b = Some k → b_dsml k = text →
  keeps e e' → e_bytes e' = e_bytes e → e_pins e' = e_pins e →
  ∃ m0 L0, tool_memory_touch (with_ehp m (<[p := e']> (ehp m))) p = Some m0 ∧
    mem_ok m0 L0 ∧ stored m m0 id text.
Proof.
  intros Hm Hp He Hei Hb Hk Ht K Kb Kp.
  assert (mem_ok (with_ehp m (<[p := e']> (ehp m))) L) as Hm1
    by (apply (mem_ok_update _ _ _ e); [done|done|apply K|apply K|done]).
  destruct (touch_ok _ _ p Hm1) as (x & m1 & L1 & Hx & -> & Hok1 & HL & Hh & Hid & Hbh & Hpar & Hen & Hby).
  { apply (mem_dom _ _ Hm). eauto. }
  simpl in *. rewrite lookup_insert_eq in Hx. injection Hx as <-.
  rewrite insert_insert_eq in Hh. destruct K as (K1 & K2 & K3 & K4).
  assert (text_of m id = Some text) as Htx.
  { destruct (text_of_at _ _ _ _ Hm He) as (b1 & k1 & Hb1 & Hk1 & Htx). congruence. }
  pose proof (blen_nonneg id). pose proof (blen_nonneg text).
  exists m1, L1. split; [done|]. split; [done|].
  split; try done; rewrite ?Hh; try (unfold SIZEOF_ENTRY, SIZEOF_BLOCK; lia).
  - unfold text_of. rewrite Hid, Hp. simpl. rewrite Hh, lookup_insert_eq. simpl.
    rewrite K2, Hb. simpl. rewrite Hbh, Hk. simpl. by rewrite Ht.
  - intros q x [[<- <-]|[_ Hx]]%lookup_insert_Some; [|done]. simpl. congruence.
  - intros q x Hx Hn. rewrite lookup_insert_ne; [done|]. intros <-. congruence.
  - intros q x b' k' _ _ _ Hk'. rewrite Hbh. eauto.
  - intros q x [[<- <-]|[Hq Hx]]%lookup_insert_Some Hxi.
    + right. exists e. by split.
    + assert (by_id m !! id = Some q) as Hq' by (apply (mem_ids _ _ Hm); eauto). congruence.
Qed.

(** Another text: the old entry goes first. *)
Lemma replace_stored m L p e id text src :
  mem_ok m L → ehp m !! p = Some e → e_id e = id → id ≠ [] → text ≠ [] →
  ∃ m1 m0 L0, tool_memory_remove_entry_locked m p = Some m1 ∧
    put_new m1 id text src = Some m0 ∧ mem_ok m0 L0 ∧ stored m m0 id text.
Proof.
  intros Hm He Hei Hi Ht.
  destruct (remove_entry_ok _ _ _ _ Hm He) as (m1 & L1 & L2 & _ & Hrm & Hm1 & Hh & Hid & Hev & Hen & Hby).
  assert (by_id m1 !! id = None) as Hn1 by (rewrite Hid, Hei; apply lookup_delete_eq).
  destruct (put_new_stored m1 _ id text src Hm1 Hi Ht Hn1) as (m0 & L0 & Hput & Hm0 & S).
  exists m1, m0, L0. do 3 (split; [done|]).
  assert (∀ q x, ehp m !! q = Some x → e_id x ≠ id → ehp m1 !! q = Some x) as Hkeep.
  { intros q x Hx Hn. rewrite Hh, lookup_delete_ne; [done|]. intros <-. congruence. }
  destruct S as [S1 S2 S3 S4 S5 S6 S7 S8]. split; eauto; try lia.
  - intros q x Hx Hn. apply (S2 _ _ Hx) in Hn. rewrite Hh in Hn.
    by apply lookup_delete_Some in Hn as [_ ?].
  - intros q x b' k' Hx Hn Hxb Hk'. pose proof (Hkeep q x Hx Hn) as Hx1.
    destruct (text_of_at _ _ _ _ Hm1 Hx1) as (b1 & k1 & Hb1 & Hk1 & _).
    replace b1 with b' in * by congruence.
    destruct (S4 q x b' k1 Hx1 Hn Hxb Hk1) as (k2 & Hk2 & E2).
    destruct (ev_block _ _ Hev _ _ Hk1) as (k0 & Hk0 & E0). exists k2. split; [done|congruence].
  - intros q x Hx Hxi. left. destruct (S5 q x Hx Hxi) as [?|(e0 & He0 & K & _)]; [done|].
    assert (by_id m1 !! id = Some q); [|congruence].
    apply (mem_ids _ _ Hm1). exists e0. split; [done|]. destruct K. congruence.
  - rewrite S6. apply (ev_params _ _ Hev).
Qed.

(** The stages of tool_memory_put_locked before its prune. *)
Lemma put_stage s L R id text src :
  server_ok s L R → id ≠ [] → text ≠ [] →
  ∃ m0 L0, tool_memory_put_locked s (Some id) (Some text) src =
             tool_memory_prune_locked (with_mem s m0) ∧
    mem_ok m0 L0 ∧ stored (tool_mem s) m0 id text.
Proof.
  intros Hok Hi Ht. pose proof (ok_mem _ _ _ Hok) as Hm. unfold tool_memory_put_locked.
  destruct id as [|c i]; [done|]. destruct text as [|d t]; [done|]. cbv zeta.
  set (id := c :: i) in *. set (text := d :: t) in *.
  destruct (tool_memory_find_entry_locked _ _) as [p|] eqn:Hf.
  - apply find_entry_some in Hf as [Hp _].
    destruct (proj1 (mem_ids _ _ Hm _ _) Hp) as (e & He & Hei). rewrite He. simpl.
    destruct (text_of_at _ _ _ _ Hm He) as (b & k & Hb & Hk & Htx). rewrite Hb. simpl.
    rewrite Hk. simpl. destruct (_ && _) eqn:Hsame.
    + apply andb_prop in Hsame as [_ Hs%bool_decide_eq_true].
      edestruct (touch_stored _ _ p e (if bool_decide (src = TOOL_MEMORY_RAM)
          then with_source e TOOL_MEMORY_RAM else e)
        b k id text Hm Hp He Hei Hb Hk Hs) as (m0 & L0 & -> & Hm0 & S); [..|by exists m0, L0];
        case_bool_decide; by repeat split.
    + destruct (replace_stored _ _ _ _ id text src Hm He Hei Hi Ht) as (m1 & m0 & L0 & -> & Hp0 & ?).
      simpl. rewrite Hp0. simpl. by exists m0, L0.
  - rewrite find_entry_id in Hf by done.
    destruct (put_new_stored _ _ id text src Hm Hi Ht Hf) as (m0 & L0 & -> & Hm0 & S).
    simpl. by exists m0, L0.
Qed.

(** The prune does nothing within budget. *)
Lemma prune_idle s : over_budget (tool_mem s) = false → tool_memory_prune_locked s = Some s.
Proof.
  intros Ho. unfold tool_memory_prune_locked.
  destruct (size (ehp (tool_mem s)) + _)%nat; simpl; by rewrite Ho.
Qed.

(** Where there is room, remembering evicts nothing. *)
Record remembered (s s' : server) (L : list ptr) (R : list ptr) (id text : list Z) : Prop := {
  rm_ok : server_ok s' L R;
  rm_text : text_of (tool_mem s') id = Some text;
  rm_other : ∀ j, j ≠ id → text_of (tool_mem s') j = text_of (tool_mem s) j;
  rm_params : params (tool_mem s') = params (tool_mem s);
  rm_entries : entries (tool_mem s') <= entries (tool_mem s) + 1;
  rm_bytes : bytes (tool_mem s') <= bytes (tool_mem s) + blen id + blen text + 122;
  rm_disable : disable_exact_dsml_tool_replay s' = disable_exact_dsml_tool_replay s }.

Lemma put_room s L R id text src :
  server_ok s L R → id ≠ [] → text ≠ [] →
  entries (tool_mem s) < tool_memory_max_entries (tool_mem s) →
  bytes (tool_mem s) + blen id + blen text + 122 <= tool_memory_max_bytes (tool_mem s) →
  ∃ s' L', tool_memory_put_locked s (Some id) (Some text) src = Some s' ∧
    remembered s s' L' R id text.
Proof.
  intros Hok Hi Ht He Hb.
  destruct (put_stage s L R id text src Hok Hi Ht) as (m0 & L0 & -> & Hm0 & S).
  pose proof S as [S1 S2 S3 S4 _ S6 S7 S8]. unfold SIZEOF_ENTRY, SIZEOF_BLOCK in S8.
  exists (with_mem s m0), L0. split.
  { apply prune_idle. unfold over_budget, tool_memory_max_entries, tool_memory_max_bytes in *. simpl.
    unfold params in S6. injection S6 as Hme Hmb _. rewrite Hme, Hmb. lia. }
  split; [by apply (stored_ok s L R m0 L0 id text)|done| |done|done|simpl; lia|done].
  intros j Hj. simpl. pose proof (ok_mem _ _ _ Hok) as Hm.
  destruct (by_id (tool_mem s) !! j) as [p|] eqn:Hpj.
  - destruct (proj1 (mem_ids _ _ Hm _ _) Hpj) as (e & Hpe & Hei).
    assert (e_id e ≠ id) as Hne by congruence.
    destruct (text_of_at _ _ _ _ Hm Hpe) as (b & k & Hbk & Hk & Htx). rewrite <- Hei, Htx.
    destruct (text_of_at _ _ _ _ Hm0 (S3 p e Hpe Hne)) as (b' & k' & Hbk' & Hk' & ->).
    destruct (S4 p e b k Hpe Hne Hbk Hk) as (k2 & Hk2 & E2). congruence.
  - assert (text_of (tool_mem s) j = None) as -> by (unfold text_of; by rewrite Hpj).
    unfold text_of. destruct (by_id m0 !! j) as [p|] eqn:Hp0; [|done].
    destruct (proj1 (mem_ids _ _ Hm0 _ _) Hp0) as (e & Hpe & Hei).
    pose proof (S2 p e Hpe ltac:(congruence)) as Hold.
    assert (by_id (tool_mem s) !! j = Some p); [|congruence]. apply (mem_ids _ _ Hm). eauto.
Qed.

(** Remembering a text under an id. *)
Lemma memory_put_ok s L R id text src :
  server_ok s L R → ok_result s (tool_memory_put_locked s id text src).
Proof.
  intros Hok. destruct id as [[|c i]|], text as [[|d t]|]; try by apply (ok_result_id s L R).
  destruct (put_stage s L R (c :: i) (d :: t) src Hok) as (m0 & L0 & -> & Hm0 & S); [done|done|].
  assert (server_ok (with_mem s m0) L0 R) as Hok0 by by apply (stored_ok _ L _ _ _ (c :: i) (d :: t)).
  destruct (tool_prune_ok _ _ _ Hok0) as (s' & L' & R' & -> & Hok' & Hpr & _).
  exists s', L', R'. do 2 (split; [done|]). exact (pruned_refs _ _ L0 R Hok0 Hpr).
Qed.

Lemma put_all_ok s L R l text :
  server_ok s L R → ok_result s (put_all s l text).
Proof.
  revert s L R. induction l as [|tc l IH]; intros s L R Hok; simpl.
  - by apply (ok_result_id s L R).
  - apply ok_result_bind; [by apply (memory_put_ok s L R)|]. eauto.
Qed.

Lemma remember_ok s L R calls :
  server_ok s L R → ok_result s (tool_memory_remember s calls).
Proof.
  intros Hok. unfold tool_memory_remember.
  destruct (tool_calls_exact_text calls); [|by apply (ok_result_id s L R)].
  destruct (disable_exact_dsml_tool_replay s); [by apply (ok_result_id s L R)|].
  by apply (put_all_ok s L R).
Qed.

Lemma put_source_ok s L R id text src :
  server_ok s L R → ok_result s (tool_memory_put_source s id text src).
Proof.
  intros Hok. unfold tool_memory_put_source.
  destruct (disable_exact_dsml_tool_replay s); [by apply (ok_result_id s L R)|].
  by apply (memory_put_ok s L R).
Qed.
End ops.

(** ** Demotion and expiry *)

Lemma demoted_holds s s' r rec :
  rhp (creg s) !! r = Some rec → demoted s s' r rec → ∀ q, holds s' q = holds s q.
Proof.
  intros Hr D q. unfold holds. rewrite (de_rhp _ _ _ _ D).
  destruct (decide (r = q)) as [<-|Hne].
  - by rewrite lookup_insert_eq, Hr.
  - by rewrite lookup_insert_ne.
Qed.

Lemma demoted_text s s' L L' r rec i :
  mem_ok (tool_mem s) L → mem_ok (tool_mem s') L' → L' = L → demoted s s' r rec →
  text_of (tool_mem s') i = text_of (tool_mem s) i.
Proof.
  intros Hm Hm' -> D. destruct (de_mem _ _ _ _ D) as (Hev & Hi & Hb).
  apply (text_same _ _ L); try done. intros p e He.
  destruct (proj1 (mem_dom _ _ Hm' p)) as [e' He']; [apply (mem_dom _ _ Hm); eauto|].
  destruct (ev_entry _ _ Hev _ _ He') as (e0 & He0 & _ & Hbk & _). exists e'. split; [done|congruence].
Qed.

Lemma demote_result s L R r :
  server_ok s L R → is_Some (rhp (creg s) !! r) → ok_result s (cont_registry_demote_locked s r).
Proof.
  intros Hok [rec Hr]. destruct (demote_ok _ _ _ _ _ Hok Hr) as (s' & -> & Hok' & D & _).
  exists s', L, R. do 2 (split; [done|]). by apply (demoted_holds _ _ _ _ Hr D).
Qed.

Lemma serial_live_some s L R r :
  server_ok s L R → serial_live (creg s) = Some r → is_Some (rhp (creg s) !! r).
Proof. intros Hok Hs. apply (ok_serial _ _ _ Hok) in Hs as (rec & -> & _). eauto. Qed.

Lemma demote_serial_ok s L R :
  server_ok s L R → ok_result s (cont_registry_demote_serial s).
Proof.
  intros Hok. unfold cont_registry_demote_serial.
  destruct (serial_live (creg s)) as [r|] eqn:Hs; [|by apply (ok_result_id s L R)].
  apply (demote_result s L R); [done|]. by apply (serial_live_some s L R).
Qed.

(** Demotion keeps the lists as they are. *)
Lemma demote_lists s L R r rec s' :
  server_ok s L R → rhp (creg s) !! r = Some rec → cont_registry_demote_locked s r = Some s' →
  server_ok s' L R ∧ rlist (creg s') = rlist (creg s) ∧ demoted s s' r rec.
Proof.
  intros Hok Hr Hd. destruct (demote_ok _ _ _ _ _ Hok Hr) as (s1 & Hd1 & Hok1 & D & _).
  replace s' with s1 by congruence. split; [done|]. split; [apply D|done].
Qed.

(** The walk demotes exactly the LIVE records that have expired. *)
Definition lapse (g : cont_registry) (now : spec_float) (rec : cont_record) : cont_record :=
  if expired g rec now then replay rec else rec.

Lemma expire_walk_ok fuel s L R1 R2 now :
  server_ok s L (R1 ++ R2) → (length R2 <= fuel)%nat →
  ∃ s', expire_walk fuel s (first R2 None) now = Some s' ∧ server_ok s' L (R1 ++ R2) ∧
    policy (creg s') = policy (creg s) ∧ index (creg s') = index (creg s) ∧
    rhp (creg s') = map_imap (λ r rec, Some (if decide (r ∈ R2) then lapse (creg s) now rec else rec))
                             (rhp (creg s)).
Proof.
  revert s R1 R2. induction fuel as [|f IH]; intros s R1 R2 Hok Hf.
  - assert (R2 = []) as -> by (destruct R2; [done|simpl in Hf; lia]). exists s.
    do 4 (split; [done|]). apply map_eq. intros r. rewrite map_lookup_imap.
    by destruct (rhp (creg s) !! r).
  - destruct R2 as [|r R2]; simpl.
    { exists s. do 4 (split; [done|]). apply map_eq. intros r. rewrite map_lookup_imap.
      by destruct (rhp (creg s) !! r). }
    assert (r ∈ R1 ++ r :: R2) as HrR by (apply elem_of_app; right; by left).
    destruct (proj1 (ok_dom _ _ _ Hok r) HrR) as [rec Hr].
    pose proof (proj1 (proj2 (ok_list _ _ _ Hok))) as Hnd.
    assert (r ∉ R2) as HrR2.
    { apply NoDup_app in Hnd as (_ & _ & Hnd). by apply NoDup_cons in Hnd as [? _]. }
    rewrite Hr, (repr_fields _ _ _ _ (ok_list _ _ _ Hok)). simpl.
    assert (∃ s1, (if expired (creg s) rec now then cont_registry_demote_locked s r else Some s)
        = Some s1 ∧ server_ok s1 L (R1 ++ r :: R2) ∧ policy (creg s1) = policy (creg s) ∧
        index (creg s1) = index (creg s) ∧
        rhp (creg s1) = <[r := lapse (creg s) now rec]> (rhp (creg s))) as (s1 & -> & Hok1 & Hp & Hi & Hh).
    { unfold lapse. destruct (expired (creg s) rec now).
      - destruct (demote_ok _ _ _ _ _ Hok Hr) as (s1 & -> & Hok1 & D & _).
        exists s1. do 2 (split; [done|]). destruct (de_reg _ _ _ _ D) as (Hi & _ & _ & Hp).
        split; [done|]. split; [unfold index; by rewrite Hi|apply D].
      - exists s. do 4 (split; [done|]). by rewrite insert_id. }
    simpl. replace (R1 ++ r :: R2) with ((R1 ++ [r]) ++ R2) in * by by rewrite <- app_assoc.
    destruct (IH s1 (R1 ++ [r]) R2 Hok1) as (s' & -> & Hok' & Hp' & Hi' & Hh'); [simpl in Hf; lia|].
    exists s'. do 2 (split; [done|]). split; [congruence|]. split; [congruence|].
    rewrite Hh', Hh. apply map_eq. intros q. rewrite !map_lookup_imap.
    assert (∀ x, lapse (creg s1) now x = lapse (creg s) now x) as Hl.
    { intros x. unfold lapse, expired. unfold policy in Hp. by injection Hp as _ _ -> _ _. }
    destruct (decide (r = q)) as [<-|Hne].
    + rewrite lookup_insert_eq, Hr. simpl.
      rewrite decide_False by done. rewrite decide_True by (by left). done.
    + rewrite lookup_insert_ne by done. destruct (rhp (creg s) !! q); simpl; [|done].
      f_equal. destruct (decide (q ∈ R2)) as [Hq|Hq].
      * rewrite decide_True by (by right). apply Hl.
      * rewrite decide_False; [done|]. intros [->|?]%elem_of_cons; done.
Qed.

(** What the lazy expiry makes of a record; a retention time of zero or less never
    expires. *)
Definition aged (g : cont_registry) (now : spec_float) (rec : cont_record) : cont_record :=
  if F64.le (ttl_s g) F64.zero then rec else lapse g now rec.

Lemma lapse_dead g now rec : live rec = false → lapse g now rec = rec.
Proof.
  intros Hl. unfold lapse, expired. unfold live in Hl. by rewrite Hl.
Qed.

Lemma no_live_dead s L R :
  server_ok s L R → n_live (creg s) = 0 → ∀ r rec, rhp (creg s) !! r = Some rec → live rec = false.
Proof.
  intros Hok Hn r rec Hr. destruct (live rec) eqn:Hl; [|done].
  pose proof (live_sum_pos _ r rec Hr Hl). rewrite <- (ok_live _ _ _ Hok) in *. lia.
Qed.

Lemma expire_ok s L R now :
  server_ok s L R →
  ∃ s', cont_registry_expire_locked s now = Some s' ∧ server_ok s' L R ∧
    policy (creg s') = policy (creg s) ∧ index (creg s') = index (creg s) ∧
    rhp (creg s') = aged (creg s) now <$> rhp (creg s).
Proof.
  intros Hok. unfold cont_registry_expire_locked.
  destruct (F64.le (ttl_s (creg s)) F64.zero) eqn:Ht; simpl.
  { exists s. do 4 (split; [done|]). apply map_eq. intros r. rewrite lookup_fmap.
    unfold aged. rewrite Ht. by destruct (rhp (creg s) !! r). }
  destruct (n_live (creg s) =? 0) eqn:Hn.
  { exists s. do 4 (split; [done|]). apply map_eq. intros r. rewrite lookup_fmap.
    destruct (rhp (creg s) !! r) as [rec|] eqn:Hr; [|done]. simpl.
    unfold aged. rewrite Ht, lapse_dead; [done|]. apply (no_live_dead s L R Hok) with r; [lia|done]. }
  destruct (ok_list _ _ _ Hok) as (_ & _ & -> & _). rewrite (reg_size _ _ _ Hok).
  destruct (expire_walk_ok (length R) s L [] R now Hok) as (s' & -> & Hok' & Hp & Hi & Hh); [done|].
  exists s'. do 4 (split; [done|]). rewrite Hh. apply map_eq. intros r.
  rewrite map_lookup_imap, lookup_fmap. destruct (rhp (creg s) !! r) as [rec|] eqn:Hr; [|done].
  simpl. rewrite decide_True by (apply (ok_dom _ _ _ Hok); eauto). unfold aged. by rewrite Ht.
Qed.

Lemma aged_hard g now rec : hard_refs (aged g now rec) = hard_refs rec.
Proof. unfold aged, lapse. destruct (F64.le _ _); [done|]. by destruct (expired _ _ _). Qed.

Lemma expire_result s L R now :
  server_ok s L R → ok_result s (cont_registry_expire_locked s now).
Proof.
  intros Hok. destruct (expire_ok s L R now Hok) as (s' & -> & Hok' & _ & _ & Hh).
  exists s', L, R. do 2 (split; [done|]). intros r. unfold holds. rewrite Hh, lookup_fmap.
  destruct (rhp (creg s) !! r); simpl; [apply aged_hard|done].
Qed.

(** ** Pins *)

Lemma holds_nonneg s L R r : server_ok s L R → 0 <= holds s r.
Proof.
  intros Hok. unfold holds. destruct (rhp (creg s) !! r) as [rec|] eqn:Hr; [|done].
  apply (rec_hard _ (ok_rec _ _ _ Hok _ _ Hr)).
Qed.

Lemma find_index g proto id r :
  cont_registry_find_locked g proto id = Some r →
  ∃ i, id = Some i ∧ i ≠ [] ∧ index g !! cont_registry_key proto i = Some r.
Proof.
  unfold cont_registry_find_locked, index. destruct (by_call_id g) as [rows|]; [|done].
  destruct id as [[|c i]|]; try done. intros Hr. by exists (c :: i).
Qed.

(** A row leads to a record that is allocated. *)
Lemma find_record s L R proto id r :
  server_ok s L R → cont_registry_find_locked (creg s) proto id = Some r →
  ∃ rec, rhp (creg s) !! r = Some rec.
Proof.
  intros Hok (i & _ & _ & Hr)%find_index.
  destruct (ok_index _ _ _ Hok _ _ Hr) as (rec & _ & Hrec & _). by exists rec.
Qed.

Definition one_at (o : option ptr) (r : ptr) : Z := if bool_decide (o = Some r) then 1 else 0.

(** The request that pins holds the record once more, and only a LIVE record is
    pinned. *)
Lemma pin_ok s L R proto id now :
  server_ok s L R →
  ∃ s' o, cont_registry_pin_live s proto id now = Some (s', o) ∧ server_ok s' L R ∧
    (∀ r, holds s' r = holds s r + one_at o r) ∧
    (∀ r, o = Some r → ∃ rec, rhp (creg s') !! r = Some rec ∧ live rec = true).
Proof.
  intros Hok. unfold cont_registry_pin_live.
  assert (∀ s1, server_ok s1 L R → (∀ r, holds s1 r = holds s r) →
    ∃ s' o, Some (s1, @None ptr) = Some (s', o) ∧ server_ok s' L R ∧
    (∀ r, holds s' r = holds s r + one_at o r) ∧
    (∀ r, o = Some r → ∃ rec, rhp (creg s') !! r = Some rec ∧ live rec = true)) as Hnone.
  { intros s1 Hok1 Hh1. exists s1, None. do 2 (split; [done|]). split; [|done].
    intros r. rewrite Hh1. unfold one_at. simpl. lia. }
  destruct id as [[|c i]|]; try by apply Hnone.
  destruct (expire_result s L R now Hok) as (s1 & L1 & R1 & He & _ & Hh1).
  destruct (expire_ok s L R now Hok) as (s2 & He2 & Hok1 & _).
  replace s2 with s1 in * by congruence. rewrite He. simpl.
  destruct (cont_registry_find_locked _ _ _) as [r|] eqn:Hf; [|by apply Hnone].
  destruct (find_record _ _ _ _ _ _ Hok1 Hf) as [rec Hr]. rewrite Hr. simpl.
  case_bool_decide as Hst; [|by apply Hnone].
  eexists _, (Some r). split; [done|].
  pose proof (rec_hard _ (ok_rec _ _ _ Hok1 _ _ Hr)) as Hh0.
  split; [apply (server_ok_pins _ _ _ _ rec); [done|done|lia]|]. split.
  - intros q. rewrite <- Hh1. unfold holds, one_at. simpl.
    destruct (decide (r = q)) as [<-|Hne].
    + rewrite lookup_insert_eq, Hr, bool_decide_true by done. done.
    + rewrite lookup_insert_ne by done. rewrite bool_decide_false by congruence. lia.
  - intros q [= <-]. simpl. rewrite lookup_insert_eq. eexists. split; [done|].
    by apply live_state.
Qed.

(** Releasing a pin that is held. *)
Lemma unpin_ok s L R r :
  server_ok s L R → 0 < holds s r →
  ∃ s', cont_registry_unpin s (Some r) = Some s' ∧ server_ok s' L R ∧
    ∀ q, holds s' q = holds s q - one_at (Some r) q.
Proof.
  intros Hok Hp. unfold cont_registry_unpin. unfold holds in Hp.
  destruct (rhp (creg s) !! r) as [rec|] eqn:Hr; [|lia]. simpl.
  replace (0 <? hard_refs rec) with true by lia.
  eexists. split; [done|]. split; [apply (server_ok_pins _ _ _ _ rec); [done|done|lia]|].
  intros q. unfold holds, one_at. simpl. destruct (decide (r = q)) as [<-|Hne].
  - by rewrite lookup_insert_eq, Hr, bool_decide_true.
  - rewrite lookup_insert_ne by done. rewrite bool_decide_false by congruence. lia.
Qed.
