(* ===== verification/ContPublish.v ===== *)
(** * Publishing a continuation record

    The record of a tool-call turn supersedes the owner's previous LIVE record,
    takes the index rows and the pins of its call ids, and joins the list; the
    registry is pruned last. *)

From S2P Require Import Prelude Float64 Text Stream Route DList ToolText ToolMem ContRegistry.
From S2P Require Import ContInv ContOps.

(** ** The ids of a turn *)

Lemma id_list_contains_in ids i :
  i ≠ [] → (id_list_contains ids (Some i) = true) ↔ i ∈ stops_v ids.
Proof.
  intros Hi. unfold id_list_contains. destruct i as [|c i]; [done|].
  rewrite existsb_exists. split.
  - intros (x & Hx & Hxi%bool_decide_eq_true). subst x. by apply list_elem_of_In.
  - intros Hx. exists (c :: i). rewrite list_elem_of_In in Hx. by rewrite bool_decide_true.
Qed.

Definition good_ids (ids : stop_list) : Prop := ([] ∉ stops_v ids) ∧ NoDup (stops_v ids).

Lemma push_unique_good ids id : good_ids ids → good_ids (id_list_push_unique ids id).
Proof.
  intros [He Hn]. destruct id as [[|c i]|]; try done. unfold id_list_push_unique.
  destruct (id_list_contains ids (Some (c :: i))) eqn:Hc; [done|].
  assert ((c :: i) ∉ stops_v ids) as Hi.
  { intros Hi. rewrite <- id_list_contains_in in Hi by done. congruence. }
  split; simpl.
  - rewrite elem_of_app, elem_of_cons. intros [?|[?|?%elem_of_nil]]; done.
  - apply NoDup_app. split; [done|]. split; [|apply NoDup_singleton].
    intros x Hx ->%list_elem_of_singleton. done.
Qed.

Lemma push_unique_in ids id i :
  i ∈ stops_v (id_list_push_unique ids id) ↔ i ∈ stops_v ids ∨ (id = Some i ∧ i ≠ []).
Proof.
  destruct id as [[|c j]|]; unfold id_list_push_unique.
  - split; [by left|]. intros [?|[[= <-] ?]]; done.
  - destruct (id_list_contains ids (Some (c :: j))) eqn:Hc.
    + rewrite id_list_contains_in in Hc by done. split; [by left|].
      intros [?|[[= <-] _]]; done.
    + simpl. rewrite elem_of_app, list_elem_of_singleton. split.
      * intros [?| ->]; [by left|by right].
      * intros [?|[[= <-] _]]; [by left|by right].
  - split; [by left|]. intros [?|[? _]]; done.
Qed.

(** Each non-empty id of a call, once. *)
Lemma turn_ids_in l i :
  i ∈ stops_v (turn_ids l) ↔ i ≠ [] ∧ ∃ tc, tc ∈ l ∧ tc_id tc = Some i.
Proof.
  unfold turn_ids.
  assert (∀ acc, i ∈ stops_v (fold_left (λ ids tc, id_list_push_unique ids (tc_id tc)) l acc) ↔
    i ∈ stops_v acc ∨ (i ≠ [] ∧ ∃ tc, tc ∈ l ∧ tc_id tc = Some i)) as Hgen.
  { induction l as [|tc l IH]; intros acc; simpl.
    - split; [by left|]. intros [?|(_ & tc & ?%elem_of_nil & _)]; done.
    - rewrite IH, push_unique_in. setoid_rewrite elem_of_cons. naive_solver. }
  rewrite Hgen. simpl. rewrite elem_of_nil. naive_solver.
Qed.

Lemma turn_ids_good l : good_ids (turn_ids l).
Proof.
  unfold turn_ids. assert (good_ids stop_list_clear) as H.
  { split; [by intros ?%elem_of_nil|constructor]. }
  revert H. generalize stop_list_clear. induction l as [|tc l IH]; intros acc H; simpl; [done|].
  by apply IH, push_unique_good.
Qed.

(** ** Binding the ids *)

(** The entry after the record at [r] has taken its ids. *)
Definition bind_entry (r : ptr) (ids : list (list Z)) (e : tool_memory_entry)
    : tool_memory_entry :=
  if decide (e_id e ∈ ids) then with_rec (with_pins e (e_pins e + 1)) (Some r) else e.

Lemma bind_entry_skip r i ids e :
  e_id e ≠ i → bind_entry r (i :: ids) e = bind_entry r ids e.
Proof.
  intros Hi. unfold bind_entry. destruct (decide (e_id e ∈ ids)) as [H|H].
  - rewrite decide_True; [done|]. by right.
  - rewrite decide_False; [done|]. intros [?|?]%elem_of_cons; done.
Qed.

Lemma bind_ids_ok rows m L proto r ids :
  mem_ok m L → NoDup ids → [] ∉ ids →
  ∃ rows' m', bind_ids rows m proto r ids = Some (rows', m') ∧ mem_ok m' L ∧
    (∀ k q, rows' !! k = Some q →
       rows !! k = Some q ∨ (q = r ∧ ∃ i, i ∈ ids ∧ k = cont_registry_key proto i)) ∧
    (∀ k, rows !! k = Some r ∨ (∃ i, i ∈ ids ∧ k = cont_registry_key proto i) →
       rows' !! k = Some r) ∧
    ehp m' = bind_entry r ids <$> ehp m ∧
    by_id m' = by_id m ∧ bhp m' = bhp m ∧ params m' = params m.
Proof.
  revert rows m. induction ids as [|i ids IH]; intros rows m Hm Hn He; simpl.
  { exists rows, m. do 2 (split; [done|]). split; [by left|].
    split; [by intros k [?|(i & ?%elem_of_nil & _)]|]. split; [|done].
    apply map_eq. intros p. rewrite lookup_fmap. destruct (ehp m !! p) as [e|]; [|done].
    simpl. unfold bind_entry. rewrite decide_False; [done|apply not_elem_of_nil]. }
  apply NoDup_cons in Hn as [Hi Hn]. apply not_elem_of_cons in He as [Hie He].
  set (rows1 := <[cont_registry_key proto i := r]> rows).
  assert (∃ m1, mem_ok m1 L ∧ bind_entry r (i :: ids) <$> ehp m = bind_entry r ids <$> ehp m1 ∧
    by_id m1 = by_id m ∧ bhp m1 = bhp m ∧ params m1 = params m ∧
    (match tool_memory_find_entry_locked m (Some i) with
     | None => bind_ids rows1 m proto r ids
     | Some p => e ← ehp m !! p;
         bind_ids rows1 (with_ehp m (<[p := with_rec (with_pins e (e_pins e + 1)) (Some r)]> (ehp m)))
                  proto r ids
     end) = bind_ids rows1 m1 proto r ids) as (m1 & Hm1 & -> & <- & <- & <- & ->).
  { rewrite find_entry_id by done. destruct (by_id m !! i) as [p|] eqn:Hp.
    - destruct (proj1 (mem_ids _ _ Hm _ _) Hp) as (e & Hpe & Hei). rewrite Hpe. simpl.
      exists (with_ehp m (<[p := with_rec (with_pins e (e_pins e + 1)) (Some r)]> (ehp m))).
      split; [by apply (mem_ok_update _ _ _ e)|]. split; [|done]. simpl.
      apply map_eq. intros q. rewrite !lookup_fmap. destruct (decide (p = q)) as [<-|Hne].
      + rewrite lookup_insert_eq, Hpe. simpl. f_equal. unfold bind_entry. simpl. rewrite Hei.
        rewrite decide_True by by left. by rewrite decide_False.
      + rewrite lookup_insert_ne by done. destruct (ehp m !! q) as [x|] eqn:Hx; [|done]. simpl.
        rewrite bind_entry_skip; [done|]. intros Hxi. apply Hne.
        assert (by_id m !! i = Some q) by (apply (mem_ids _ _ Hm); eauto). congruence.
    - exists m. split; [done|]. split; [|done]. apply map_eq. intros q. rewrite !lookup_fmap.
      destruct (ehp m !! q) as [x|] eqn:Hx; [|done]. simpl.
      rewrite bind_entry_skip; [done|]. intros Hxi.
      assert (by_id m !! i = Some q) by (apply (mem_ids _ _ Hm); eauto). congruence. }
  destruct (IH rows1 m1 Hm1 Hn He) as (rows' & m' & -> & Hm' & Hr1 & Hr2 & Hh).
  exists rows', m'. do 2 (split; [done|]). split; [|split; [|done]].
  - intros k q [Hk|(-> & j & Hj & ->)]%Hr1.
    + apply lookup_insert_Some in Hk as [[<- <-]|[_ Hk]]; [|by left].
      right. split; [done|]. exists i. split; [by left|done].
    + right. split; [done|]. exists j. split; [by right|done].
  - intros k [Hk|(j & [->|Hj]%elem_of_cons & ->)]; apply Hr2.
    + left. unfold rows1. destruct (decide (cont_registry_key proto i = k)) as [->|Hne].
      * by rewrite lookup_insert_eq.
      * by rewrite lookup_insert_ne.
    + left. apply lookup_insert_eq.
    + right. eauto.
Qed.

(** ** Before the record is linked *)

Lemma init_ok s L R :
  server_ok s L R → server_ok (with_reg s (cont_registry_init_locked (creg s))) L R.
Proof.
  intros Hok. destruct s as [m g dis pub dem lv]. simpl.
  unfold cont_registry_init_locked. destruct (by_call_id g) eqn:Hg; [done|].
  destruct Hok as [A B C D E F G H I J]. split; try done.
Qed.

Lemma init_fields g :
  let g' := cont_registry_init_locked g in
  rhp g' = rhp g ∧ rlist g' = rlist g ∧ index g' = index g ∧ serial_live g' = serial_live g.
Proof.
  unfold cont_registry_init_locked, index. destruct (by_call_id g) eqn:Hg; simpl; by rewrite ?Hg.
Qed.

(** The LIVE tip of an owner. *)
Definition tip_of (own : cont_record_owner) (bank : Z) (rec : cont_record) : Prop :=
  live rec = true ∧ owner rec = own ∧ (own = CONT_OWNER_BATCH_BANK → owner_id rec = bank).

Lemma find_bank_live_ok fuel s L R1 R2 bank :
  server_ok s L (R1 ++ R2) → (length R2 <= fuel)%nat →
  ∃ o, find_bank_live fuel (creg s) (first R2 None) bank = Some o ∧
    match o with
    | Some r => ∃ rec, rhp (creg s) !! r = Some rec ∧ tip_of CONT_OWNER_BATCH_BANK bank rec
    | None => ∀ r rec, r ∈ R2 → rhp (creg s) !! r = Some rec →
                ¬ tip_of CONT_OWNER_BATCH_BANK bank rec
    end.
Proof.
  revert R1 R2. induction fuel as [|f IH]; intros R1 R2 Hok Hf.
  { assert (R2 = []) as -> by (destruct R2; [done|simpl in Hf; lia]).
    exists None. split; [done|]. by intros ? ? ?%elem_of_nil. }
  destruct R2 as [|r R2]; simpl.
  { exists None. split; [done|]. by intros ? ? ?%elem_of_nil. }
  assert (r ∈ R1 ++ r :: R2) as HrR by (apply elem_of_app; right; by left).
  destruct (proj1 (ok_dom _ _ _ Hok r) HrR) as [rec Hr].
  rewrite Hr, (repr_fields _ _ _ _ (ok_list _ _ _ Hok)). simpl.
  destruct (_ && _) eqn:Hc.
  - exists (Some r). split; [done|]. exists rec. split; [done|].
    apply andb_prop in Hc as [[Hl%bool_decide_eq_true Ho%bool_decide_eq_true]%andb_prop Hi].
    split; [by apply live_state|]. split; [done|]. intros _. lia.
  - destruct (IH (R1 ++ [r]) R2) as (o & -> & Ho); [by rewrite <- app_assoc|simpl in Hf; lia|].
    exists o. split; [done|]. destruct o as [q|]; [done|].
    intros q x [->|Hq]%elem_of_cons Hx; [|by apply (Ho q)].
    replace x with rec by congruence. intros (Hl & Hown & Hid).
    apply live_state in Hl. rewrite Hl, Hown, (Hid eq_refl), !bool_decide_true, Z.eqb_refl in Hc by done.
    done.
Qed.

(** After superseding the owner has no LIVE tip. *)
Lemma supersede_ok s L R own bank :
  server_ok s L R →
  ∃ s', supersede s own bank = Some s' ∧ server_ok s' L R ∧
    (∀ r, holds s' r = holds s r) ∧ policy (creg s') = policy (creg s) ∧
    (∀ i, text_of (tool_mem s') i = text_of (tool_mem s) i) ∧
    (∀ r rec, rhp (creg s') !! r = Some rec → ¬ tip_of own bank rec).
Proof.
  intros Hok.
  assert (∀ o, match o with
      | Some r => ∃ rec, rhp (creg s) !! r = Some rec ∧ tip_of own bank rec
      | None => ∀ r rec, rhp (creg s) !! r = Some rec → ¬ tip_of own bank rec end →
    (∀ r1 r2 x1 x2, rhp (creg s) !! r1 = Some x1 → rhp (creg s) !! r2 = Some x2 →
       tip_of own bank x1 → tip_of own bank x2 → r1 = r2) →
    ∃ s', match o with Some r => cont_registry_demote_locked s r | None => Some s end = Some s' ∧
      server_ok s' L R ∧ (∀ r, holds s' r = holds s r) ∧ policy (creg s') = policy (creg s) ∧
      (∀ i, text_of (tool_mem s') i = text_of (tool_mem s) i) ∧
      (∀ r rec, rhp (creg s') !! r = Some rec → ¬ tip_of own bank rec)) as Hgo.
  { intros [r|] Ho Huniq; [|by exists s].
    destruct Ho as (rec & Hr & Ht). destruct (demote_ok _ _ _ _ _ Hok Hr) as (s' & -> & Hok' & D & _).
    exists s'. do 2 (split; [done|]). split; [by apply (demoted_holds _ _ _ _ Hr D)|].
    split; [apply D|]. split.
    { intros i. apply (demoted_text s s' L L r rec i); [apply Hok|apply Hok'|done|done]. }
    rewrite (de_rhp _ _ _ _ D).
    intros q x [[<- <-]|[Hq Hx]]%lookup_insert_Some Htx; [by destruct Htx|].
    apply Hq. by apply (Huniq r q rec x). }
  destruct own; simpl.
  - apply (Hgo (serial_live (creg s))).
    + destruct (serial_live (creg s)) as [r|] eqn:Hs.
      * apply (ok_serial _ _ _ Hok) in Hs as (rec & Hr & Hl & Ho). exists rec. by repeat split.
      * intros r rec Hr (Hl & Ho & _). assert (serial_live (creg s) = Some r); [|congruence].
        apply (ok_serial _ _ _ Hok). eauto.
    + intros r1 r2 x1 x2 H1 H2 (Hl1 & Ho1 & _) (Hl2 & Ho2 & _).
      assert (serial_live (creg s) = Some r1) by (apply (ok_serial _ _ _ Hok); eauto).
      assert (serial_live (creg s) = Some r2) by (apply (ok_serial _ _ _ Hok); eauto). congruence.
  - rewrite (reg_size _ _ _ Hok). destruct (ok_list _ _ _ Hok) as (_ & _ & -> & _).
    destruct (find_bank_live_ok (length R) s L [] R bank Hok) as (o & -> & Ho); [done|]. simpl.
    apply (Hgo o).
    + destruct o; [done|]. intros r rec Hr. apply (Ho r); [|done]. apply (ok_dom _ _ _ Hok). eauto.
    + intros r1 r2 x1 x2 H1 H2 (Hl1 & Ho1 & Hi1) (Hl2 & Ho2 & Hi2).
      apply (ok_bank _ _ _ Hok r1 r2 x1 x2); try done. by rewrite Hi1, Hi2.
Qed.

(** ** Linking *)

Lemma link_ok s L R r rec d rows m pub dem lv :
  server_ok s L R → rhp (creg s) !! r = None → rec_ok rec → live rec = true →
  (∀ q x, rhp (creg s) !! q = Some x → ¬ tip_of (owner rec) (owner_id rec) x) →
  repr d (r :: R) → mem_ok m L → params m = params (tool_mem s) →
  ehp m = bind_entry r (ids_of rec) <$> ehp (tool_mem s) →
  (∀ k q, rows !! k = Some q → index (creg s) !! k = Some q ∨
     (q = r ∧ ∃ i, i ∈ ids_of rec ∧ k = cont_registry_key (protocol rec) i)) →
  let g := creg s in
  server_ok
    (Server (with_srv m)
       (Reg (Some rows) (<[r := rec]> (rhp g)) d (n_records g + 1) (n_live g + 1) (max_records g)
            (match owner rec with CONT_OWNER_SERIAL_SESSION => Some r | _ => serial_live g end)
            (grace_s g) (ttl_s g) (pin_deadline_s g) (hold_shed_s g))
       (disable_exact_dsml_tool_replay s) pub dem lv) L (r :: R).
Proof.
  intros Hok Hr Hrec Hl Htip Hd Hm Hpar Hh Hrows g.
  assert (∀ q x, rhp g !! q = Some x → <[r := rec]> (rhp g) !! q = Some x) as Hkeep.
  { intros q x Hx. rewrite lookup_insert_ne; [done|]. intros <-. unfold g in *. congruence. }
  destruct Hok as [A B C D E F G H I J]. split; simpl; try done.
  - by apply mem_ok_srv.
  - intros q. rewrite elem_of_cons, C, lookup_insert_is_Some. fold g. split.
    + intros [->|Hq]; [by left|]. destruct (decide (r = q)); [by left|by right].
    + intros [->|[_ ?]]; [by left|by right].
  - unfold g. rewrite D, blen_cons. lia.
  - rewrite msum_insert by done. unfold live_one at 1. rewrite Hl. unfold g. lia.
  - intros q x [[<- <-]|[_ Hx]]%lookup_insert_Some; [done|by apply (F q)].
  - intros k q Hk. change (rows !! k = Some q) in Hk. destruct (Hrows k q Hk) as [Hk'|(-> & i & Hi & ->)].
    + destruct (G _ _ Hk') as (x & i & Hx & Hi & ->). exists x, i. by rewrite (Hkeep q x).
    + exists rec, i. by rewrite lookup_insert_eq.
  - intros q. destruct (owner rec) eqn:Ho.
    + split.
      * intros [= <-]. exists rec. by rewrite lookup_insert_eq.
      * intros (x & [[<- <-]|[_ Hx]]%lookup_insert_Some & Hlx & Hox); [done|].
        destruct (Htip q x Hx). by repeat split.
    + unfold g. rewrite H. split; intros (x & Hx & Hlx & Hox); exists x.
      * split; [by apply Hkeep|done].
      * apply lookup_insert_Some in Hx as [[<- <-]|[_ Hx]]; [congruence|done].
  - intros q1 q2 x1 x2 [[<- <-]|[Hq1 H1]]%lookup_insert_Some
      [[<- <-]|[Hq2 H2]]%lookup_insert_Some Hl1 Hl2 Ho1 Ho2 Hi; try done.
    + destruct (Htip q2 x2 H2). rewrite Ho1. by repeat split.
    + destruct (Htip q1 x1 H1). rewrite Ho2. by repeat split.
    + by apply (I q1 q2 x1 x2).
  - intros p e'. rewrite Hh, lookup_fmap. destruct (ehp (tool_mem s) !! p) as [e|] eqn:He; [|done].
    intros [= <-]. destruct (J _ _ He) as [Hp Hq]. unfold bind_entry. case_decide as Hi; simpl.
    + split; [lia|]. intros q [= <-]. split; [done|]. exists rec. by rewrite lookup_insert_eq.
    + split; [done|]. intros q Hq'. split; [done|]. destruct (Hq q Hq') as (_ & x & Hx & Hxi).
      exists x. by rewrite (Hkeep q x).
Qed.

(** ** Publication *)

Definition published_record (proto : api_style) (calls : tool_calls) (own : cont_record_owner)
    (bank gen front : Z) (now : spec_float) : cont_record :=
  Rec CONT_REC_LIVE_FRONTIER own proto
      (match own with CONT_OWNER_BATCH_BANK => bank | _ => 0 end)
      gen front (turn_ids (tcs calls)) now 0 F64.zero.

Section publish.
Context `{Malloc}.

(** A turn with an id, a generation and a frontier is published: its record is
    LIVE, every id leads to it, and the texts of its ids are pinned by it. *)
Lemma publish_spec s L R proto calls own bank gen front now :
  server_ok s L R → gen ≠ 0 → 0 < front → stops_v (turn_ids (tcs calls)) ≠ [] →
  ∃ s' L' R' r, cont_registry_publish s proto calls own bank gen front now = Some s' ∧
    server_ok s' L' R' ∧ (∀ q, holds s' q = holds s q) ∧
    rhp (creg s') !! r = Some (published_record proto calls own bank gen front now) ∧
    (∀ i, i ∈ stops_v (turn_ids (tcs calls)) →
       index (creg s') !! cont_registry_key proto i = Some r) ∧
    (∀ p e, ehp (tool_mem s') !! p = Some e → e_id e ∈ stops_v (turn_ids (tcs calls)) →
       e_rec e = Some r ∧ 0 < e_pins e) ∧
    (∀ i, i ∈ stops_v (turn_ids (tcs calls)) →
       text_of (tool_mem s') i = text_of (tool_mem s) i) ∧
    policy (creg s') = policy (cont_registry_init_locked (creg s)).
Proof.
  intros Hok Hgen Hfront Hids. unfold cont_registry_publish.
  destruct (tcs calls) as [|tc0 l0] eqn:Htcs; [done|]. rewrite <- Htcs in *.
  replace (gen =? 0) with false by lia. replace (front <=? 0) with false by lia. simpl.
  set (s0 := with_reg s (cont_registry_init_locked (creg s))).
  pose proof (init_ok _ _ _ Hok) as Hok0. fold s0 in Hok0.
  destruct (supersede_ok s0 L R own bank Hok0) as (s1 & -> & Hok1 & Hh1 & Hp1 & Htx1 & Htip). simpl.
  destruct (stops_v (turn_ids (tcs calls))) as [|i0 il] eqn:Hil; [done|]. rewrite <- Hil in *.
  clear i0 il Hil tc0 l0 Htcs.
  set (r := malloc (dom (rhp (creg s1)))).
  change (Rec CONT_REC_LIVE_FRONTIER own proto _ gen front (turn_ids (tcs calls)) now 0 F64.zero)
    with (published_record proto calls own bank gen front now).
  set (rec := published_record proto calls own bank gen front now).
  assert (rhp (creg s1) !! r = None) as Hr by apply not_elem_of_dom, malloc_fresh.
  destruct (turn_ids_good (tcs calls)) as [Hne Hnd].
  destruct (bind_ids_ok (index (creg s1)) _ L proto r (stops_v (turn_ids (tcs calls)))
    (ok_mem _ _ _ Hok1) Hnd Hne) as (rows & m & -> & Hm & Hrows & Hrows2 & Hh & Hbi & Hbb & Hpar).
  simpl. destruct (link_head_repr (dalloc r (rlist (creg s1))) R r) as (d & -> & Hd).
  { apply repr_alloc; [|apply (ok_list _ _ _ Hok1)]. rewrite (ok_dom _ _ _ Hok1), Hr. by intros [? ?]. }
  { rewrite (ok_dom _ _ _ Hok1), Hr. by intros [? ?]. }
  { simpl. by rewrite lookup_insert_eq. }
  simpl. match goal with |- context [cont_registry_prune_locked ?x] => set (sL := x) end.
  assert (server_ok sL L (r :: R)) as HokL.
  { apply (link_ok s1 L R r rec d rows m); try done.
    intros q x Hx (Hlx & Hox & Hix). apply (Htip q x Hx). split; [done|]. split; [done|].
    intros Hb. rewrite (Hix Hb). simpl. by rewrite Hb. }
  destruct (registry_prune_ok _ _ _ HokL) as (s2 & L2 & R2 & -> & Hok2 & Hpr & _).
  simpl. eexists _, L2, R2, r. split; [done|].
  assert (rhp (creg s2) !! r = Some rec) as Hr2.
  { apply (pr_rec _ _ Hpr); [|done]. simpl. by rewrite lookup_insert_eq. }
  split; [by destruct Hok2|]. split.
  { intros q. transitivity (holds s1 q).
    - transitivity (holds s2 q); [done|]. rewrite (pruned_refs _ _ _ _ HokL Hpr).
      unfold holds. simpl. destruct (decide (r = q)) as [<-|Hq].
      + by rewrite lookup_insert_eq, Hr.
      + by rewrite lookup_insert_ne.
    - rewrite Hh1. unfold s0, holds. simpl. by destruct (init_fields (creg s)) as (-> & _). }
  split; [done|]. split.
  { intros i Hi. apply (pr_rows _ _ Hpr); [|by rewrite Hr2]. apply Hrows2. right. eauto. }
  assert (∀ i, text_of m i = text_of (tool_mem s) i) as Htx.
  { intros i. change (tool_mem s) with (tool_mem s0). rewrite <- Htx1.
    apply (text_same _ _ L); [apply Hok1|done|done|]. intros p e He. rewrite Hh, lookup_fmap, He.
    eexists. split; [done|]. unfold bind_entry. by case_decide. }
  split; [|split; [|change (policy (creg s2) = policy (creg s0)); rewrite <- Hp1;
                    apply (pr_policy _ _ Hpr)]].
  - intros p e He Hi. pose proof (lookup_weaken _ _ _ _ He (pr_sub _ _ Hpr)) as He1. simpl in He1.
    rewrite Hh, lookup_fmap in He1. destruct (ehp (tool_mem s1) !! p) as [e0|] eqn:He0; [|done].
    injection He1 as <-. unfold bind_entry in *. case_decide as Hi0; [|done]. simpl.
    destruct (ok_entry _ _ _ Hok1 _ _ He0). split; [done|lia].
  - intros i Hi. rewrite <- Htx. change (text_of m i) with (text_of (tool_mem sL) i).
    apply (pruned_text sL s2 L (r :: R) L2 R2); [done|done|done|]. simpl. intros p e.
    rewrite Hh, lookup_fmap. destruct (ehp (tool_mem s1) !! p) as [e0|] eqn:He0; [|done].
    intros [= <-] Hei. unfold safe, bind_entry in *. simpl. case_decide as Hi0; simpl in *.
    + by rewrite lookup_insert_eq.
    + subst i. done.
Qed.

Lemma publish_result s L R proto calls own bank gen front now :
  server_ok s L R → ok_result s (cont_registry_publish s proto calls own bank gen front now).
Proof.
  intros Hok. unfold cont_registry_publish.
  destruct (_ || _) eqn:Hg; [by apply (ok_result_id s L R)|].
  apply orb_false_iff in Hg as [[Htc Hgen]%orb_false_iff Hfront].
  destruct (stops_v (turn_ids (tcs calls))) as [|i0 il] eqn:Hil.
  - set (s0 := with_reg s (cont_registry_init_locked (creg s))).
    destruct (supersede_ok s0 L R own bank (init_ok _ _ _ Hok)) as (s1 & -> & Hok1 & Hh1 & _).
    simpl. exists s1, L, R. do 2 (split; [done|]). intros r. rewrite Hh1. unfold s0, holds. simpl.
    by destruct (init_fields (creg s)) as (-> & _).
  - destruct (publish_spec s L R proto calls own bank gen front now Hok)
      as (s' & L' & R' & r & Hp & Hok' & Hh & _); [lia|lia|by rewrite Hil|].
    exists s', L', R'. split; [|done]. rewrite <- Hp. unfold cont_registry_publish.
    by rewrite Htc, Hgen, Hfront, Hil.
Qed.

Lemma publish_bank_result s L R proto calls bank gen front now :
  server_ok s L R → ok_result s (cont_registry_publish_bank s proto calls bank gen front now).
Proof.
  intros Hok. unfold cont_registry_publish_bank.
  destruct (bank <? 0); [by apply (ok_result_id s L R)|]. by apply (publish_result s L R).
Qed.
End publish.

(** ** Shutdown *)

(** Removing the records one by one leaves none, and no entry that names one. *)
Lemma remove_heads_ok fuel s L R :
  server_ok s L R → (length R <= fuel)%nat →
  ∃ s' L', remove_heads fuel s = Some s' ∧ server_ok s' L' [].
Proof.
  revert s L R. induction fuel as [|f IH]; intros s L R Hok Hf;
    destruct (ok_list _ _ _ Hok) as (_ & _ & Hhd & _); simpl; rewrite Hhd;
    (destruct R as [|r R]; simpl; [by exists s, L|]).
  - simpl in Hf. lia.
  - destruct (proj1 (ok_dom _ _ _ Hok r) (list_elem_of_here _ _)) as [rec Hr].
    destruct (remove_record_ok _ _ _ _ _ Hok Hr) as (s1 & L1 & R1 & R2 & HR & -> & Hok1 & _).
    simpl. apply (IH s1 L1 (R1 ++ R2) Hok1).
    assert (length (r :: R) = length (R1 ++ r :: R2)) as Hlen by by rewrite HR.
    rewrite length_app in *. simpl in *. lia.
Qed.

Lemma remove_tails_ok fuel m L :
  mem_ok m L → (length L <= fuel)%nat →
  ∃ m', remove_tails fuel m = Some m' ∧ mem_ok m' [].
Proof.
  revert m L. induction fuel as [|f IH]; intros m L Hm Hf;
    destruct (mem_lru _ _ Hm) as (_ & _ & _ & Htl); simpl; rewrite Htl;
    (destruct L as [|p L _] using rev_ind; [by exists m|]); rewrite final_snoc;
    rewrite length_app in Hf; simpl in Hf.
  - lia.
  - destruct (remove_ok _ _ _ _ Hm) as (e & m1 & _ & -> & Hm1 & _). simpl.
    apply (IH m1 (L ++ []) Hm1). rewrite app_nil_r. lia.
Qed.
