(* ===== verification/ToolReplay.v ===== *)
(** * Replaying remembered tool text (ds4_server.c)

    A client sends its tool calls back as JSON.  When every id of a message leads to
    the same remembered block, the message takes the sampled text of that block, so
    the prompt is rendered byte for byte as the model wrote it; otherwise the call
    is rendered canonically. *)

From S2P Require Import Prelude Float64 Text Stream Route DList ToolText ToolMem ContRegistry.

(** tool_replay_stats *)
Record tool_replay_stats := Stats { mem : Z; disk : Z; canonical : Z; missing_ids : Z }.

(** tool_memory_has_id *)
Definition tool_memory_has_id (s : server) (id : option (list Z)) : bool :=
  if disable_exact_dsml_tool_replay s then false
  else match tool_memory_find_entry_locked (tool_mem s) id with Some _ => true | None => false end.

(** What a lookup finds: the text, where it came from and its block. *)
Record hit := Hit { hit_text : list Z; hit_source : tool_memory_source; hit_block : ptr }.

(** tool_memory_lookup_locked *)
Definition tool_memory_lookup_locked (m : tool_memory) (id : option (list Z))
    : option (tool_memory * option hit) :=
  match tool_memory_find_entry_locked m id with
  | None => Some (m, None)
  | Some p =>
      e ← ehp m !! p;
      match e_block e with
      | None => Some (m, None)
      | Some b =>
          m1 ← tool_memory_touch m p;
          k ← bhp m1 !! b;
          Some (m1, Some (Hit (b_dsml k) (e_source e) b))
      end
  end.

(** The loop over the calls of one message: the block they agree on so far, its
    source, whether the replay is still exact, and the ids not found. *)
Record matching := Match {
  matched : option ptr;
  matched_source : tool_memory_source;
  exact : bool;
  missing : Z }.

Fixpoint match_calls (m : tool_memory) (l : list tool_call) (a : matching)
    : option (tool_memory * matching) :=
  match l with
  | [] => Some (m, a)
  | tc :: t =>
      h ← tool_memory_lookup_locked m (tc_id tc);
      match h.2 with
      | None => match_calls h.1 t (Match (matched a) (matched_source a) false (missing a + 1))
      | Some x =>
          let a1 := match matched a with
                    | None => Match (Some (hit_block x)) (hit_source x) (exact a) (missing a)
                    | Some b => if bool_decide (b = hit_block x) then a
                                else Match (Some b) (matched_source a) false (missing a)
                    end in
          let a2 := if bool_decide (hit_source x = TOOL_MEMORY_RAM)
                    then Match (matched a1) TOOL_MEMORY_RAM (exact a1) (missing a1) else a1 in
          match_calls h.1 t a2
      end
  end.

(** The body of the loop over the messages. *)
Definition attach_message (m : tool_memory) (calls : tool_calls) (st : tool_replay_stats)
    : option (tool_memory * tool_calls * tool_replay_stats) :=
  match tcs calls, tool_calls_exact_text calls with
  | [], _ | _, Some _ => Some (m, calls, st)
  | l, None =>
      r ← match_calls m l (Match None TOOL_MEMORY_DISK true 0);
      let '(m1, a) := r in
      match exact a, matched a with
      | true, Some b =>
          k ← bhp m1 !! b;
          Some (m1, Calls l (Some (b_dsml k)) (Some (b_dsml k)),
                if bool_decide (matched_source a = TOOL_MEMORY_RAM)
                then Stats (mem st + 1) (disk st) (canonical st) (missing_ids st)
                else Stats (mem st) (disk st + 1) (canonical st) (missing_ids st))
      | _, _ => Some (m1, calls, Stats (mem st) (disk st) (canonical st + 1)
                                       (missing_ids st + missing a))
      end
  end.

Fixpoint attach_messages (m : tool_memory) (msgs : list tool_calls) (st : tool_replay_stats)
    : option (tool_memory * list tool_calls * tool_replay_stats) :=
  match msgs with
  | [] => Some (m, [], st)
  | c :: t =>
      r ← attach_message m c st;
      let '(m1, c1, st1) := r in
      r2 ← attach_messages m1 t st1;
      let '(m2, t2, st2) := r2 in
      Some (m2, c1 :: t2, st2)
  end.

(** The counting of a server that does not replay. *)
Definition count_canonical (st : tool_replay_stats) (calls : tool_calls) : tool_replay_stats :=
  match tcs calls, tool_calls_exact_text calls with
  | [], _ | _, Some _ => st
  | l, None => Stats (mem st) (disk st) (canonical st + 1) (missing_ids st + blen l)
  end.

(** tool_memory_attach_to_messages, on the tool calls of the messages *)
Definition tool_memory_attach_to_messages (s : server) (msgs : list tool_calls)
    (st : tool_replay_stats) : option (server * list tool_calls * tool_replay_stats) :=
  if disable_exact_dsml_tool_replay s then
    Some (s, msgs, fold_left count_canonical msgs st)
  else
    r ← attach_messages (tool_mem s) msgs st;
    let '(m, msgs', st') := r in Some (with_mem s m, msgs', st').

(** tool_calls_contains_id *)
Definition tool_calls_contains_id (calls : tool_calls) (id : option (list Z)) (upto : Z) : bool :=
  match id with
  | None | Some [] => false
  | Some i => existsb (fun tc => bool_decide (tc_id tc = Some i)) (ztake upto (tcs calls))
  end.

(** cont_registry_id_known *)
Definition cont_registry_id_known (s : server) (id : option (list Z)) : bool :=
  match id with
  | None | Some [] => false
  | Some _ =>
      existsb (fun p => match cont_registry_find_locked (creg s) p id with
                        | Some _ => true | None => false end)
              [API_OPENAI; API_ANTHROPIC; API_RESPONSES]
  end.

(** tool_id_in_use *)
Definition tool_id_in_use (s : server) (id : option (list Z)) : bool :=
  tool_memory_has_id s id || cont_registry_id_known s id.

(** The rejection loop of assign_tool_call_ids over a stream of random ids, which is
    the source of randomness of the model: the first one in use nowhere. *)
Fixpoint mint (s : server) (calls : tool_calls) (i : Z) (random : list (list Z))
    : option (list Z * list (list Z)) :=
  match random with
  | [] => None
  | id :: t =>
      if negb (tool_calls_contains_id calls (Some id) i) && negb (tool_id_in_use s (Some id))
      then Some (id, t) else mint s calls i t
  end.

(** assign_tool_call_ids; [None] when the random stream ends too early. *)
Fixpoint assign_from (s : server) (done_ : list tool_call) (todo : list tool_call)
    (random : list (list Z)) : option (list tool_call) :=
  match todo with
  | [] => Some done_
  | tc :: t =>
      match tc_id tc with
      | Some (c :: i) => assign_from s (done_ ++ [tc]) t random
      | _ =>
          r ← mint s (Calls (done_ ++ todo) None None) (blen done_) random;
          assign_from s (done_ ++ [Call (Some r.1) (tc_name tc) (tc_arguments tc)]) t r.2
      end
  end.

Definition assign_tool_call_ids (s : server) (calls : tool_calls) (random : list (list Z))
    : option tool_calls :=
  l ← assign_from s [] (tcs calls) random; Some (Calls l (raw_dsml calls) (raw_tool_text calls)).
