(* ===== verification/ContReplay.v ===== *)
(** * Replay is exact

    Looking texts up reorders the LRU list and nothing else, and a message takes a
    remembered text exactly when all its ids are remembered under that text. *)

From S2P Require Import Prelude Float64 Text Stream Route DList ToolText ToolMem ContRegistry.
From S2P Require Import ContInv ContOps ToolReplay.

(** ** Touching *)

(** Only stamps and the order of the LRU list differ. *)
Definition same_but_stamp (e e' : tool_memory_entry) : Prop :=
  e_id e' = e_id e ∧ e_block e' = e_block e ∧ e_bytes e' = e_bytes e ∧
  e_source e' = e_source e ∧ e_pins e' = e_pins e ∧ e_rec e' = e_rec e.

Record touched (m m' : tool_memory) : Prop := {
  to_fwd : ∀ p e, ehp m !! p = Some e → ∃ e', ehp m' !! p = Some e' ∧ same_but_stamp e e';
  to_bwd : ∀ p e', ehp m' !! p = Some e' → ∃ e, ehp m !! p = Some e ∧ same_but_stamp e e';
  to_same : by_id m' = by_id m ∧ bhp m' = bhp m ∧ params m' = params m }.

#[export] Instance same_but_stamp_preorder : PreOrder same_but_stamp.
Proof.
  split; [by intros e; repeat split|].
  intros e1 e2 e3 (A1 & B1 & C1 & D1 & E1 & F1) (A2 & B2 & C2 & D2 & E2 & F2).
  repeat split; congruence.
Qed.

#[export] Instance touched_preorder : PreOrder touched.
Proof.
  split.
  - intros m. split; [| |done]; intros p e He; by exists e.
  - intros m1 m2 m3 [A1 B1 (C1 & D1 & E1)] [A2 B2 (C2 & D2 & E2)]. split.
    + intros p e (e2 & He2 & S)%A1. destruct (A2 _ _ He2) as (e3 & He3 & S').
      exists e3. split; [done|by transitivity e2].
    + intros p e (e2 & He2 & S)%B2. destruct (B1 _ _ He2) as (e1 & He1 & S').
      exists e1. split; [done|by transitivity e2].
    + repeat split; congruence.
Qed.

Lemma touch_touched m L p :
  mem_ok m L → p ∈ L →
  ∃ m' L', tool_memory_touch m p = Some m' ∧ mem_ok m' L' ∧ touched m m'.
Proof.
  intros Hm Hp. destruct (touch_ok _ _ _ Hm Hp) as (e & m' & L' & He & Ht & Hm' & _ & Hh & Hi & Hb & Hpar & _).
  exists m', L'. do 2 (split; [done|]). split; [| |done]; rewrite Hh; intros q x.
  - intros Hx. destruct (decide (p = q)) as [<-|Hne].
    + rewrite lookup_insert_eq. eexists. split; [done|]. replace x with e by congruence. by repeat split.
    + rewrite lookup_insert_ne by done. by exists x.
  - intros [[<- <-]|[_ Hx]]%lookup_insert_Some; [|by exists x].
    exists e. split; [done|]. by repeat split.
Qed.

(** The block an id leads to. *)
Definition block_of (m : tool_memory) (id : option (list Z)) : option ptr :=
  p ← tool_memory_find_entry_locked m id; e ← ehp m !! p; e_block e.

Lemma touched_find m m' id :
  touched m m' → tool_memory_find_entry_locked m' id = tool_memory_find_entry_locked m id.
Proof.
  intros [_ _ (Hi & _)]. destruct id as [[|c i]|]; [done| |done].
  unfold tool_memory_find_entry_locked. by rewrite Hi.
Qed.

Lemma touched_block m m' id : touched m m' → block_of m' id = block_of m id.
Proof.
  intros T. unfold block_of. rewrite (touched_find _ _ _ T).
  destruct (tool_memory_find_entry_locked m id) as [p|]; simpl; [|done].
  destruct (ehp m !! p) as [e|] eqn:He; simpl.
  - destruct (to_fwd _ _ T _ _ He) as (e' & -> & _ & Hb & _). simpl. by rewrite Hb.
  - destruct (ehp m' !! p) as [e'|] eqn:He'; [|done].
    destruct (to_bwd _ _ T _ _ He') as (x & Hx & _). congruence.
Qed.

Lemma block_of_text m L id b t :
  mem_ok m L → block_of m (Some id) = Some b →
  (text_of m id = Some t ↔ ∃ k, bhp m !! b = Some k ∧ b_dsml k = t).
Proof.
  intros Hm. unfold block_of. destruct (tool_memory_find_entry_locked m (Some id)) as [p|] eqn:Hf;
    [|done]. apply find_entry_some in Hf as [Hp _]. simpl.
  destruct (ehp m !! p) as [e|] eqn:He; [|done]. simpl. intros Hb.
  unfold text_of. rewrite Hp. simpl. rewrite He. simpl. rewrite Hb. simpl.
  destruct (bhp m !! b) as [k|]; simpl; split.
  - intros [= <-]. by exists k.
  - by intros (x & [= <-] & <-).
  - done.
  - by intros (x & ? & _).
Qed.

(** ** One message *)

Lemma lookup_ok m L id :
  mem_ok m L →
  ∃ m' L' h, tool_memory_lookup_locked m id = Some (m', h) ∧ mem_ok m' L' ∧ touched m m' ∧
    hit_block <$> h = block_of m id ∧
    (∀ x, h = Some x → ∃ k, bhp m !! hit_block x = Some k ∧ b_dsml k = hit_text x).
Proof.
  intros Hm. unfold tool_memory_lookup_locked, block_of.
  destruct (tool_memory_find_entry_locked m id) as [p|] eqn:Hf; simpl.
  - assert (∃ i, id = Some i) as [i ->] by (destruct id; [eauto|done]).
    apply find_entry_some in Hf as [Hp _].
    destruct (proj1 (mem_ids _ _ Hm _ _) Hp) as (e & He & _).
    destruct (text_of_at _ _ _ _ Hm He) as (b & k & Hb & Hk & _).
    rewrite He. simpl. rewrite Hb. simpl.
    destruct (touch_touched m L p Hm) as (m' & L' & -> & Hm' & T).
    { apply (mem_dom _ _ Hm). eauto. }
    simpl. destruct (to_same _ _ T) as (_ & -> & _). rewrite Hk. simpl.
    exists m', L', (Some (Hit (b_dsml k) (e_source e) b)). do 3 (split; [done|]).
    split; [done|]. intros x [= <-]. by exists k.
  - by exists m, L, None.
Qed.

(** The loop over the calls finds a block all ids agree on, or that there is none. *)
Lemma match_calls_ok m L l a :
  mem_ok m L →
  ∃ m' L' a', match_calls m l a = Some (m', a') ∧ mem_ok m' L' ∧ touched m m' ∧
    (exact a' = true → exact a = true ∧
       (∀ tc, tc ∈ l → ∃ b, block_of m (tc_id tc) = Some b ∧ matched a' = Some b) ∧
       (∀ b, matched a = Some b → matched a' = Some b)) ∧
    (∀ b, exact a = true → (matched a = None ∨ matched a = Some b) →
       (∀ tc, tc ∈ l → block_of m (tc_id tc) = Some b) →
       exact a' = true ∧ (l = [] ∨ matched a' = Some b)) ∧
    (l = [] → a' = a).
Proof.
  revert m L a. induction l as [|tc l IH]; intros m L a Hm; simpl.
  { exists m, L, a. do 3 (split; [done|]). split; [|split; [|done]].
    - intros Ha. split; [done|]. split; [by intros ? ?%elem_of_nil|done].
    - intros b Ha _ _. split; [done|by left]. }
  destruct (lookup_ok m L (tc_id tc) Hm) as (m1 & L1 & h & -> & Hm1 & T1 & Hh & _). simpl.
  assert (∀ id, block_of m1 id = block_of m id) as Hbo by (intros; by apply touched_block).
  destruct h as [x|]; simpl in Hh.
  - set (a2 := if bool_decide (hit_source x = TOOL_MEMORY_RAM) then _ else _).
    assert (exact a2 = match matched a with None => exact a | Some b =>
              if bool_decide (b = hit_block x) then exact a else false end ∧
            matched a2 = Some (match matched a with None => hit_block x | Some b => b end)) as [He Hmt].
    { unfold a2. destruct (matched a) as [b|] eqn:Hma; [|by case_bool_decide].
      case_bool_decide; case_bool_decide; simpl; by rewrite ?Hma. }
    destruct (IH m1 L1 a2 Hm1) as (m' & L' & a' & -> & Hm' & T' & H1 & H2 & _).
    exists m', L', a'. do 2 (split; [done|]). split; [by transitivity m1|]. split; [|split; [|done]].
    + intros Hex. destruct (H1 Hex) as (Ha2 & Hall & Hmm). rewrite He in Ha2.
      destruct (matched a) as [b|] eqn:Hma.
      * case_bool_decide as Hbx; [|done]. subst b. split; [done|]. split.
        -- intros tc' [->|Htc]%elem_of_cons; [exists (hit_block x); split; [by rewrite <- Hh|by apply Hmm]|].
           setoid_rewrite <- Hbo. by apply Hall.
        -- intros b [= <-]. by apply Hmm.
      * split; [done|]. split; [|done].
        intros tc' [->|Htc]%elem_of_cons; [exists (hit_block x); split; [by rewrite <- Hh|by apply Hmm]|].
        setoid_rewrite <- Hbo. by apply Hall.
    + intros b Ha Hma Hall. assert (hit_block x = b) as Hx.
      { assert (block_of m (tc_id tc) = Some b) as Hb by (apply Hall; by left). congruence. }
      destruct (H2 b) as [Hex Hl].
      * rewrite He. destruct Hma as [-> | ->]; [done|]. by rewrite bool_decide_true.
      * right. rewrite Hmt. destruct Hma as [-> | ->]; congruence.
      * intros tc' Htc. rewrite Hbo. apply Hall. by right.
      * split; [done|]. right. destruct Hl as [->|Hl]; [|done].
        simpl in *. apply H1 in Hex as (_ & _ & Hmm). apply Hmm. rewrite Hmt.
        destruct Hma as [-> | ->]; congruence.
  - destruct (IH m1 L1 (Match (matched a) (matched_source a) false (missing a + 1)) Hm1)
      as (m' & L' & a' & -> & Hm' & T' & H1 & H2 & _).
    exists m', L', a'. do 2 (split; [done|]). split; [by transitivity m1|]. split; [|split; [|done]].
    + intros Hex. by destruct (H1 Hex) as (? & _).
    + intros b Ha _ Hall. assert (block_of m (tc_id tc) = Some b) as Hb by (apply Hall; by left).
      congruence.
Qed.

Lemma block_of_some m id b : block_of m id = Some b → ∃ i, id = Some i.
Proof. destruct id as [i|]; [eauto|done]. Qed.

Lemma block_of_alloc m L id b :
  mem_ok m L → block_of m id = Some b → ∃ k, bhp m !! b = Some k.
Proof.
  intros Hm. unfold block_of. destruct (tool_memory_find_entry_locked m id) as [p|]; [|done]. simpl.
  destruct (ehp m !! p) as [e|] eqn:He; [|done]. simpl. intros Hb.
  destruct (text_of_at _ _ _ _ Hm He) as (b' & k & Hb' & Hk & _). exists k. congruence.
Qed.

(** Equal texts share a block. *)
Lemma text_block m L i t :
  mem_ok m L → text_of m i = Some t →
  ∃ b, block_of m (Some i) = Some b ∧ by_block m !! t = Some b.
Proof.
  intros Hm Ht. unfold text_of in Ht. destruct (by_id m !! i) as [p|] eqn:Hp; [|done]. simpl in Ht.
  destruct (proj1 (mem_ids _ _ Hm _ _) Hp) as (e & He & Hei). rewrite He in Ht. simpl in Ht.
  destruct (e_block e) as [b|] eqn:Hb; [|done]. simpl in Ht.
  destruct (bhp m !! b) as [k|] eqn:Hk; [|done]. injection Ht as <-.
  exists b. split; [|apply (mem_texts _ _ Hm); by exists k].
  unfold block_of. rewrite find_entry_id.
  - rewrite Hp. simpl. by rewrite He.
  - rewrite <- Hei. apply (entry_id _ _ _ (mem_entry _ _ Hm _ _ He)).
Qed.

(** All ids of a message are remembered under [t]. *)
Definition all_remembered (m : tool_memory) (l : list tool_call) (t : list Z) : Prop :=
  ∀ tc, tc ∈ l → ∃ i, tc_id tc = Some i ∧ text_of m i = Some t.

Lemma all_remembered_block m L l t :
  mem_ok m L → l ≠ [] →
  (all_remembered m l t ↔
   ∃ b k, bhp m !! b = Some k ∧ b_dsml k = t ∧ ∀ tc, tc ∈ l → block_of m (tc_id tc) = Some b).
Proof.
  intros Hm Hl. split.
  - intros Hall. destruct l as [|tc0 l]; [done|].
    destruct (Hall tc0) as (i0 & _ & Ht0); [by left|].
    destruct (text_block _ _ _ _ Hm Ht0) as (b & Hb & Hbt).
    destruct (proj1 (mem_texts _ _ Hm _ _) Hbt) as (k & Hk & Hkt).
    exists b, k. do 2 (split; [done|]). intros tc Htc. destruct (Hall tc Htc) as (i & -> & Ht).
    destruct (text_block _ _ _ _ Hm Ht) as (b' & Hb' & Hbt'). congruence.
  - intros (b & k & Hk & Hkt & Hall) tc Htc. pose proof (Hall tc Htc) as Hb.
    destruct (block_of_some _ _ _ Hb) as [i Hi]. exists i. split; [done|]. rewrite Hi in Hb.
    apply (block_of_text m L i b t Hm Hb). by exists k.
Qed.

(** A message without a text of its own takes the text its ids agree on, and only
    then. *)
Lemma attach_message_ok m L calls st :
  mem_ok m L → tcs calls ≠ [] → tool_calls_exact_text calls = None →
  ∃ m' L' calls' st', attach_message m calls st = Some (m', calls', st') ∧ mem_ok m' L' ∧
    touched m m' ∧ tcs calls' = tcs calls ∧
    (∀ t, tool_calls_exact_text calls' = Some t ↔ all_remembered m (tcs calls) t).
Proof.
  intros Hm Hl Hno. unfold attach_message.
  destruct (tcs calls) as [|tc0 l0] eqn:Htcs; [done|]. rewrite Hno, <- Htcs in *.
  destruct (match_calls_ok m L (tcs calls) (Match None TOOL_MEMORY_DISK true 0) Hm)
    as (m' & L' & a & -> & Hm' & T & H1 & H2 & _). simpl.
  assert (∀ t, all_remembered m (tcs calls) t → ∃ b k, exact a = true ∧ matched a = Some b ∧
    bhp m' !! b = Some k ∧ b_dsml k = t) as Hyes.
  { intros t (b & k & Hk & Hkt & Hall)%(all_remembered_block m L _ t Hm Hl).
    destruct (H2 b eq_refl) as [He [?|Hmt]]; [by left|done|done|].
    exists b, k. do 2 (split; [done|]). by destruct (to_same _ _ T) as (_ & -> & _). }
  destruct (exact a) eqn:He; [destruct (matched a) as [b|] eqn:Hmt|].
  - destruct (H1 eq_refl) as (_ & Hall & _).
    assert (∀ tc, tc ∈ tcs calls → block_of m (tc_id tc) = Some b) as Hall'.
    { intros tc Htc. destruct (Hall tc Htc) as (b' & Hb & [= <-]). done. }
    destruct (block_of_alloc m L (tc_id tc0) b Hm) as [k Hk].
    { apply Hall'. rewrite Htcs. by left. }
    assert (bhp m' !! b = Some k) as Hk' by (by destruct (to_same _ _ T) as (_ & -> & _)).
    rewrite Hk'. simpl. do 4 eexists. split; [done|]. split; [exact Hm'|]. split; [exact T|].
    split; [done|]. pose proof (block_text _ _ _ (mem_block _ _ Hm _ _ Hk)) as Hne.
    intros t. rewrite (all_remembered_block m L _ t Hm Hl). unfold tool_calls_exact_text. simpl.
    destruct (b_dsml k) as [|c d] eqn:Hd; [done|]. split.
    + intros [= <-]. by exists b, k.
    + intros (b' & k' & Hk2 & Hkt & Hall2).
      assert (block_of m (tc_id tc0) = Some b) by (apply Hall'; rewrite Htcs; by left).
      assert (block_of m (tc_id tc0) = Some b') by (apply Hall2; rewrite Htcs; by left). congruence.
  - destruct (H1 eq_refl) as (_ & Hall & _). destruct (Hall tc0) as (b & _ & ?); [|done].
    rewrite Htcs. by left.
  - do 4 eexists. split; [done|]. split; [exact Hm'|]. split; [exact T|]. split; [done|].
    intros t. rewrite Hno. split; [done|]. intros Ha. destruct (Hyes t Ha) as (? & ? & ? & _). done.
Qed.

(** ** The whole request *)

Lemma attach_message_total m L calls st :
  mem_ok m L →
  ∃ m' L' calls' st', attach_message m calls st = Some (m', calls', st') ∧ mem_ok m' L' ∧
    touched m m'.
Proof.
  intros Hm. destruct (tcs calls) as [|tc l] eqn:Htcs;
    [|destruct (tool_calls_exact_text calls) as [t|] eqn:Ht].
  - unfold attach_message. rewrite Htcs. by exists m, L, calls, st.
  - unfold attach_message. rewrite Htcs, Ht. by exists m, L, calls, st.
  - destruct (attach_message_ok m L calls st Hm) as (m' & L' & c' & st' & ? & ? & ? & _); [by rewrite Htcs|done|].
    by exists m', L', c', st'.
Qed.

Lemma touched_text m L i t m' :
  mem_ok m L → touched m m' → (text_of m' i = Some t ↔ text_of m i = Some t).
Proof.
  intros Hm T. assert (text_of m' i = text_of m i) as ->; [|done].
  unfold text_of. destruct (to_same _ _ T) as (-> & Hb & _).
  destruct (by_id m !! i) as [p|] eqn:Hp; [|done]. simpl.
  destruct (proj1 (mem_ids _ _ Hm _ _) Hp) as (e & He & _).
  destruct (to_fwd _ _ T _ _ He) as (e' & -> & _ & Heb & _). rewrite He. simpl. rewrite Heb.
  destruct (e_block e); simpl; [|done]. by rewrite Hb.
Qed.

Lemma attach_messages_ok m L msgs st :
  mem_ok m L →
  ∃ m' L' msgs' st', attach_messages m msgs st = Some (m', msgs', st') ∧ mem_ok m' L' ∧
    touched m m' ∧
    ∀ n calls, msgs !! n = Some calls → tcs calls ≠ [] → tool_calls_exact_text calls = None →
      ∃ calls', msgs' !! n = Some calls' ∧ tcs calls' = tcs calls ∧
        ∀ t, tool_calls_exact_text calls' = Some t ↔ all_remembered m (tcs calls) t.
Proof.
  revert m L st. induction msgs as [|c msgs IH]; intros m L st Hm; simpl.
  { by exists m, L, [], st. }
  destruct (attach_message_total m L c st Hm) as (m1 & L1 & c1 & st1 & Hc & Hm1 & T1).
  rewrite Hc. simpl. destruct (IH m1 L1 st1 Hm1) as (m2 & L2 & t2 & st2 & -> & Hm2 & T2 & Hall).
  simpl. exists m2, L2, (c1 :: t2), st2. do 2 (split; [done|]). split; [by transitivity m1|].
  intros [|n] calls Hn Hl Hno; simpl in Hn.
  - injection Hn as ->. destruct (attach_message_ok m L calls st Hm Hl Hno)
      as (? & ? & c' & ? & Hc' & _ & _ & Htc & Hx). exists c1. split; [done|].
    by replace c1 with c' by congruence.
  - destruct (Hall n calls Hn Hl Hno) as (c' & Hc' & Htc & Hx). exists c'. split; [done|].
    split; [done|]. intros t. rewrite Hx. unfold all_remembered.
    by setoid_rewrite (touched_text m L _ t m1 Hm T1).
Qed.

(** The registry does not see a touch. *)
Lemma touched_ok s L R m' L' :
  server_ok s L R → mem_ok m' L' → touched (tool_mem s) m' → server_ok (with_mem s m') L' R.
Proof.
  intros [A B C D E F G H I J] Hm' T. split; try done. simpl. intros p e' He'.
  destruct (to_bwd _ _ T _ _ He') as (e & He & S1 & _ & _ & _ & S5 & S6).
  destruct (to_same _ _ T) as (_ & _ & Hpar). unfold params in Hpar.
  rewrite S1, S5, S6. replace (srv m') with (srv (tool_mem s)) by congruence. by apply (J p e).
Qed.
