(* ===== verification/ContPolicy.v ===== *)
(** * What a continuation record grants (ds4_server.c)

    The parser's advisory check, the worker's admission, the hold that sheds other
    work while a frontier is fresh, and the protection of batch banks.  The engine
    is asked for a bank's live generation and committed length through a query,
    here a parameter. *)

From S2P Require Import Prelude Float64 Text Stream Route DList ToolText ToolMem ContRegistry.

(** ** Requests *)

(** The fields of [request] these operations read and write. *)
Record live_request := LiveRequest {
  lr_api : api_style;
  responses_live_call_ids : stop_list;
  anthropic_live_call_ids : stop_list;
  cont_pin : option ptr;
  live_state_bank_owned : bool }.

Definition live_ids (proto : api_style) (q : live_request) : option stop_list :=
  match proto with
  | API_RESPONSES => Some (responses_live_call_ids q)
  | API_ANTHROPIC => Some (anthropic_live_call_ids q)
  | API_OPENAI => None
  end.

(** request_acquire_cont_pin *)
Definition request_acquire_cont_pin (s : server) (q : live_request) (now : spec_float)
    : option (server * live_request) :=
  match cont_pin q, live_ids (lr_api q) q with
  | None, Some ids =>
      match stops_v ids with
      | [] => Some (s, q)
      | i :: _ =>
          x ← cont_registry_pin_live s (lr_api q) (Some i) now;
          match x.2 with
          | None => Some (x.1, q)
          | Some r =>
              rec ← rhp (creg x.1) !! r;
              Some (x.1, LiveRequest (lr_api q) (responses_live_call_ids q)
                           (anthropic_live_call_ids q) (Some r)
                           (bool_decide (owner rec = CONT_OWNER_BATCH_BANK)))
          end
      end
  | _, _ => Some (s, q)
  end.

(** ** Admission *)

(** The ids of a request are those of the record: as many, and each contained. *)
Definition same_ids (rec : cont_record) (ids : stop_list) : bool :=
  (blen (stops_v (call_ids rec)) =? blen (stops_v ids)) &&
  forallb (fun i => id_list_contains (call_ids rec) (Some i)) (stops_v ids).

Definition first_id (ids : stop_list) : option (list Z) :=
  match stops_v ids with [] => None | i :: _ => Some i end.

(** cont_registry_live_has_id *)
Definition cont_registry_live_has_id (s : server) (proto : api_style) (id : option (list Z))
    (now : spec_float) : option (server * bool) :=
  match id with
  | None | Some [] => Some (s, false)
  | Some _ =>
      s1 ← cont_registry_expire_locked s now;
      match cont_registry_find_locked (creg s1) proto id with
      | None => Some (s1, false)
      | Some r => rec ← rhp (creg s1) !! r;
                  Some (s1, bool_decide (state rec = CONT_REC_LIVE_FRONTIER))
      end
  end.

(** cont_registry_resolve_serial *)
Definition cont_registry_resolve_serial (s : server) (proto : api_style) (ids : stop_list)
    (session_gen live_pos : Z) (now : spec_float) : option (server * bool) :=
  match first_id ids with
  | None => Some (s, false)
  | Some i =>
      if session_gen =? 0 then Some (s, false) else
      s1 ← cont_registry_expire_locked s now;
      match cont_registry_find_locked (creg s1) proto (Some i) with
      | None => Some (s1, false)
      | Some r =>
          rec ← rhp (creg s1) !! r;
          Some (s1, bool_decide (state rec = CONT_REC_LIVE_FRONTIER) &&
                    bool_decide (owner rec = CONT_OWNER_SERIAL_SESSION) &&
                    bool_decide (protocol rec = proto) &&
                    (owner_gen rec =? session_gen) && (frontier rec =? live_pos) &&
                    same_ids rec ids)
      end
  end.

(** cont_registry_bank_claim: the claimed bank, generation and frontier. *)
Definition cont_registry_bank_claim (s : server) (proto : api_style) (ids : stop_list)
    (now : spec_float) : option (server * option (Z * Z * Z)) :=
  match first_id ids with
  | None => Some (s, None)
  | Some i =>
      s1 ← cont_registry_expire_locked s now;
      match cont_registry_find_locked (creg s1) proto (Some i) with
      | None => Some (s1, None)
      | Some r =>
          rec ← rhp (creg s1) !! r;
          Some (s1, if bool_decide (state rec = CONT_REC_LIVE_FRONTIER) &&
                       bool_decide (owner rec = CONT_OWNER_BATCH_BANK) &&
                       bool_decide (protocol rec = proto) && same_ids rec ids
                    then Some (owner_id rec, owner_gen rec, frontier rec) else None)
      end
  end.

(** ** The serial seat *)

Definition pinned_now (g : cont_registry) (rec : cont_record) (now : spec_float) : bool :=
  (0 <? hard_refs rec) && F64.lt F64.zero (pin_deadline_s g) && F64.lt now (pin_expiry rec).

(** The whole seconds a client is told to wait. *)
Definition retry_after (left : spec_float) : Z :=
  let n := i32 (F64.trunc (F64.add left (F64.lit 999 1000))) in if n <? 1 then 1 else n.

(** What is left of the window in which the serial seat sheds. *)
Definition shed_left (g : cont_registry) (rec : cont_record) (now : spec_float) : spec_float :=
  let w := if F64.lt (hold_shed_s g) (grace_s g) then hold_shed_s g else grace_s g in
  if F64.lt F64.zero w then F64.sub w (F64.sub now (publish_time rec)) else F64.zero.

(** cont_registry_serial_hold: [Some n] sheds with Retry-After [n]. *)
Definition cont_registry_serial_hold (s : server) (q : live_request) (now : spec_float)
    : option (server * option Z) :=
  s1 ← cont_registry_expire_locked s now;
  match serial_live (creg s1) with
  | None => Some (s1, None)
  | Some r =>
      rec ← rhp (creg s1) !! r;
      let continues := match live_ids (protocol rec) q with
                       | Some ids => negb (blen (stops_v ids) =? 0) && same_ids rec ids
                       | None => false
                       end in
      if continues then Some (s1, None) else
      let left := shed_left (creg s1) rec now in
      let pinned := pinned_now (creg s1) rec now in
      if F64.le left F64.zero && negb pinned then Some (s1, None) else
      let t := F64.sub (pin_expiry rec) now in
      Some (s1, Some (retry_after (if pinned && F64.lt left t then t else left)))
  end.

(** ** Batch banks *)

(** cont_record_bank_reference_matches *)
Definition cont_record_bank_reference_matches (rec : cont_record) (live_gen live_frontier : Z)
    : bool :=
  bool_decide (state rec = CONT_REC_LIVE_FRONTIER) &&
  bool_decide (owner rec = CONT_OWNER_BATCH_BANK) && negb (live_gen =? 0) &&
  (0 <? live_frontier) && (owner_gen rec =? live_gen) && (frontier rec =? live_frontier).

Section banks.
(** cont_bank_reference_query: the live generation and committed length of a bank,
    when the engine can answer. *)
Variable query : Z → option (Z * Z).

(** cont_record_bank_reference_is_current *)
Definition cont_record_bank_reference_is_current (rec : cont_record) : bool :=
  match query (owner_id rec) with
  | None => false
  | Some (gen, front) => cont_record_bank_reference_matches rec gen front
  end.

(** cont_record_bank_protects *)
Definition cont_record_bank_protects (g : cont_registry) (rec : cont_record)
    (now : spec_float) : bool :=
  bool_decide (owner rec = CONT_OWNER_BATCH_BANK) &&
  bool_decide (state rec = CONT_REC_LIVE_FRONTIER) &&
  (match query (owner_id rec) with
   | Some (gen, front) => cont_record_bank_reference_matches rec gen front
   | None => true
   end) &&
  ((F64.lt F64.zero (grace_s g) && F64.lt (F64.sub now (publish_time rec)) (grace_s g)) ||
   pinned_now g rec now).

(** The walk over the records, newest first, until one protects. *)
Fixpoint protects_walk (fuel : nat) (g : cont_registry) (cur : option ptr)
    (bank : option Z) (now : spec_float) : option bool :=
  match cur, fuel with
  | None, _ => Some false
  | Some _, O => None
  | Some r, S f =>
      rec ← rhp g !! r;
      l ← fields (rlist g) !! r;
      if (match bank with Some b => owner_id rec =? b | None => true end) &&
         cont_record_bank_protects g rec now
      then Some true else protects_walk f g (next l) bank now
  end.

(** cont_registry_bank_protected_with_query *)
Definition cont_registry_bank_protected (s : server) (bank : Z) (now : spec_float)
    : option bool :=
  if bank <? 0 then Some false
  else protects_walk (size (rhp (creg s))) (creg s) (head (rlist (creg s))) (Some bank) now.

(** cont_registry_reclaim_unprotected_with_query: [reclaim] frees that many bytes
    of bank memory when it is called with a request for all of it; the result says
    whether a protected bank was spared instead. *)
Definition cont_registry_reclaim_unprotected (s : server) (now : spec_float)
    (reclaim : Z → Z) : option (Z * bool) :=
  p ← protects_walk (size (rhp (creg s))) (creg s) (head (rlist (creg s))) None now;
  Some (if (p : bool) then (0, true) else (reclaim UINT64_MAX, false)).

(** The walk of cont_registry_bank_hold_retry_with_query; [m] is the least time
    left so far, negative when none. *)
Fixpoint hold_retry_walk (fuel : nat) (g : cont_registry) (cur : option ptr)
    (now m : spec_float) : option spec_float :=
  match cur, fuel with
  | None, _ => Some m
  | Some _, O => None
  | Some r, S f =>
      rec ← rhp g !! r;
      l ← fields (rlist g) !! r;
      let m' :=
        if cont_record_bank_protects g rec now then
          let grace_left := if F64.lt F64.zero (grace_s g)
                            then F64.sub (grace_s g) (F64.sub now (publish_time rec))
                            else F64.zero in
          let pin_left := if pinned_now g rec now then F64.sub (pin_expiry rec) now
                          else F64.zero in
          let left := if F64.lt pin_left grace_left then grace_left else pin_left in
          if F64.lt F64.zero left && (F64.lt m F64.zero || F64.lt left m) then left else m
        else m in
      hold_retry_walk f g (next l) now m'
  end.

(** cont_registry_bank_hold_retry_with_query *)
Definition cont_registry_bank_hold_retry (s : server) (now : spec_float) : option Z :=
  m ← hold_retry_walk (size (rhp (creg s))) (creg s) (head (rlist (creg s))) now
        (F64.neg (F64.of_Z 1));
  Some (if F64.le m F64.zero then 1 else retry_after m).
End banks.

(** ** Visible prefixes *)

(** live_tool_state and visible_live_state *)
Record visible_live_state := Visible {
  valid : bool; live_tokens : Z; visible_text : option (list Z); visible_len : Z }.

(** visible_live_clear_locked and live_tool_state_clear_locked *)
Definition visible_live_clear_locked : visible_live_state := Visible false 0 None 0.

(** thinking_live_remember and responses_live_remember: [pos] is the session's
    position. *)
Definition visible_live_remember (st : visible_live_state) (text : option (list Z)) (pos : Z)
    : visible_live_state :=
  match text with
  | None | Some [] => st
  | Some t => Visible true pos (Some t) (blen t)
  end.
