(* ===== verification/ContSafety.v ===== *)
(** * Correctness of tool memory and registry

    Memory safety of every run, what a prune promises, the survival of the text of a
    live turn, and the exactness of admission. *)

From S2P Require Import Prelude Float64 Text Stream Route DList ToolText ToolMem ContRegistry.
From S2P Require Import ContInv ContOps ContPublish ToolReplay ContReplay ContPolicy.

(** ** Runs *)

(** What the server does under [tool_mu].  A release names the n-th of the pins that
    requests hold. *)
Inductive op :=
| Remember (calls : tool_calls)
| PutSource (id text : option (list Z)) (source : tool_memory_source)
| Attach (msgs : list tool_calls)
| PublishSerial (proto : api_style) (calls : tool_calls) (gen front : Z) (now : spec_float)
| PublishBank (proto : api_style) (calls : tool_calls) (bank gen front : Z) (now : spec_float)
| DemoteSerial
| LiveHasId (proto : api_style) (id : option (list Z)) (now : spec_float)
| Acquire (proto : api_style) (id : option (list Z)) (now : spec_float)
| Release (n : nat)
| Resolve (proto : api_style) (ids : stop_list) (gen pos : Z) (now : spec_float)
| Claim (proto : api_style) (ids : stop_list) (now : spec_float)
| Hold (q : live_request) (now : spec_float).

(** The server at start, with its limits and its retention policy. *)
Definition boot (max_ids max_bytes max_records : Z) (grace ttl pin shed : spec_float)
    (disable : bool) : server :=
  Server (empty_memory max_ids max_bytes)
         (Reg None ∅ dnil 0 0 max_records None grace ttl pin shed) disable 0 0 0.

Section runs.
Context `{Malloc}.

(** The server and the pins that queued requests hold. *)
Definition step (x : server * list ptr) (o : op) : option (server * list ptr) :=
  let '(s, held) := x in
  match o with
  | Remember calls => s1 ← tool_memory_remember s calls; Some (s1, held)
  | PutSource id text src => s1 ← tool_memory_put_source s id text src; Some (s1, held)
  | Attach msgs =>
      r ← tool_memory_attach_to_messages s msgs (Stats 0 0 0 0); Some (r.1.1, held)
  | PublishSerial proto calls gen front now =>
      s1 ← cont_registry_publish_serial s proto calls gen front now; Some (s1, held)
  | PublishBank proto calls bank gen front now =>
      s1 ← cont_registry_publish_bank s proto calls bank gen front now; Some (s1, held)
  | DemoteSerial => s1 ← cont_registry_demote_serial s; Some (s1, held)
  | LiveHasId proto id now => r ← cont_registry_live_has_id s proto id now; Some (r.1, held)
  | Acquire proto id now =>
      r ← cont_registry_pin_live s proto id now;
      Some (r.1, match r.2 with Some p => p :: held | None => held end)
  | Release n =>
      s1 ← cont_registry_unpin s (held !! n); Some (s1, delete n held)
  | Resolve proto ids gen pos now =>
      r ← cont_registry_resolve_serial s proto ids gen pos now; Some (r.1, held)
  | Claim proto ids now => r ← cont_registry_bank_claim s proto ids now; Some (r.1, held)
  | Hold q now => r ← cont_registry_serial_hold s q now; Some (r.1, held)
  end.

Fixpoint run (x : server * list ptr) (ops : list op) : option (server * list ptr) :=
  match ops with
  | [] => Some x
  | o :: t => y ← step x o; run y t
  end.
End runs.

Lemma boot_ok mi mb mr g t p h d : server_ok (boot mi mb mr g t p h d) [] [].
Proof.
  split; simpl; try done.
  - apply empty_memory_ok.
  - apply repr_nil.
  - intros r. rewrite lookup_empty. split; [by intros ?%elem_of_nil|by intros [? ?]].
  - intros r. split; [done|]. by intros (rec & Hr & _).
Qed.

(** Every pin a request holds is counted at its record. *)
Definition counted (s : server) (held : list ptr) : Prop :=
  ∀ r, holds s r = Z.of_nat (length (filter (λ q, q = r) held)).

Lemma counted_cons s s' held r :
  counted s held → (∀ q, holds s' q = holds s q + one_at (Some r) q) → counted s' (r :: held).
Proof.
  intros Hc Hh q. rewrite Hh, Hc. unfold one_at. rewrite filter_cons.
  destruct (decide (r = q)) as [->|Hne].
  - rewrite bool_decide_true by done. simpl. lia.
  - rewrite bool_decide_false by congruence. lia.
Qed.

Lemma counted_delete s s' held n r :
  held !! n = Some r → counted s held →
  (∀ q, holds s' q = holds s q - one_at (Some r) q) → counted s' (delete n held).
Proof.
  intros Hn Hc Hh q. rewrite Hh, Hc. unfold one_at.
  assert (held ≡ₚ r :: delete n held) as HP by by apply delete_Permutation.
  assert (length (filter (λ x, x = q) held) = length (filter (λ x, x = q) (r :: delete n held)))
    as -> by by rewrite HP at 1.
  rewrite filter_cons. destruct (decide (r = q)) as [->|Hne].
  - rewrite bool_decide_true by done. simpl. lia.
  - rewrite bool_decide_false by congruence. lia.
Qed.

Lemma counted_held s held n r : held !! n = Some r → counted s held → 0 < holds s r.
Proof.
  intros Hn Hc. rewrite Hc. assert (r ∈ filter (λ q, q = r) held) as Hr.
  { apply list_elem_of_filter. split; [done|]. by apply list_elem_of_lookup_2 in Hn. }
  destruct (filter _ held); [by apply elem_of_nil in Hr|]. simpl. lia.
Qed.

(** The reads expire first, and then look at one record. *)
Lemma read_ok {A} s L R now (f : server → option (server * A)) :
  server_ok s L R →
  (∀ s1, server_ok s1 L R → ∃ a, f s1 = Some (s1, a)) →
  ∃ s1 a, (s1 ← cont_registry_expire_locked s now; f s1) = Some (s1, a) ∧ server_ok s1 L R ∧
    (∀ r, holds s1 r = holds s r).
Proof.
  intros Hok Hf. destruct (expire_result s L R now Hok) as (s1 & L1 & R1 & He & _ & Hh).
  destruct (expire_ok s L R now Hok) as (s2 & He2 & Hok2 & _). replace s2 with s1 in * by congruence.
  rewrite He. simpl. destruct (Hf s1 Hok2) as [a ->]. by exists s1, a.
Qed.

Lemma find_then {A} s L R proto id (f : cont_record → A) (z : A) :
  server_ok s L R →
  ∃ a, match cont_registry_find_locked (creg s) proto id with
       | None => Some (s, z)
       | Some r => rec ← rhp (creg s) !! r; Some (s, f rec)
       end = Some (s, a).
Proof.
  intros Hok. destruct (cont_registry_find_locked _ _ _) as [r|] eqn:Hf; [|by exists z].
  destruct (find_record _ _ _ _ _ _ Hok Hf) as [rec ->]. by exists (f rec).
Qed.

Section safety.
Context `{Malloc}.

Definition safe_state (x : server * list ptr) : Prop :=
  ∃ L R, server_ok x.1 L R ∧ counted x.1 x.2.

Lemma keep_held s held o :
  counted s held → ok_result s o →
  ∃ x, (s1 ← o; Some (s1, held)) = Some x ∧ safe_state x.
Proof.
  intros Hc (s' & L' & R' & -> & Hok & Hh). exists (s', held). split; [done|].
  exists L', R'. split; [done|]. intros r. by rewrite Hh.
Qed.

Lemma keep_read {A} s L R held (o : option (server * A)) :
  counted s held →
  (∃ s1 a, o = Some (s1, a) ∧ server_ok s1 L R ∧ ∀ r, holds s1 r = holds s r) →
  ∃ x, (r ← o; Some (r.1, held)) = Some x ∧ safe_state x.
Proof.
  intros Hc (s1 & a & -> & Hok & Hh). exists (s1, held). split; [done|].
  exists L, R. split; [done|]. intros r. by rewrite Hh.
Qed.

Lemma step_safe x o : safe_state x → ∃ y, step x o = Some y ∧ safe_state y.
Proof.
  destruct x as [s held]. intros (L & R & Hok & Hc). simpl in *.
  destruct o as [calls|id text src|msgs|proto calls gen front now|proto calls bank gen front now|
    |proto id now|proto id now|n|proto ids gen pos now|proto ids now|q now]; simpl.
  - apply (keep_held s); [done|by apply (remember_ok s L R)].
  - apply (keep_held s); [done|by apply (put_source_ok s L R)].
  - unfold tool_memory_attach_to_messages.
    destruct (disable_exact_dsml_tool_replay s); simpl; [by exists (s, held); split; [|exists L, R]|].
    destruct (attach_messages_ok _ _ msgs (Stats 0 0 0 0) (ok_mem _ _ _ Hok))
      as (m' & L' & msgs' & st' & -> & Hm' & T & _). simpl.
    eexists. split; [done|]. exists L', R. simpl. split; [by apply (touched_ok s L)|done].
  - apply (keep_held s); [done|by apply (publish_result s L R)].
  - apply (keep_held s); [done|by apply (publish_bank_result s L R)].
  - apply (keep_held s); [done|by apply (demote_serial_ok s L R)].
  - apply (keep_read s L R held _ Hc). unfold cont_registry_live_has_id.
    destruct id as [[|c i]|]; [by exists s, false| |by exists s, false].
    apply (read_ok s L R now _ Hok). intros s1 Hok1. by apply (find_then s1 L R).
  - destruct (pin_ok s L R proto id now Hok) as (s' & o & -> & Hok' & Hh & _). simpl.
    destruct o as [r|]; eexists; (split; [done|]); exists L, R; (split; [done|]).
    + by apply (counted_cons s).
    + intros q. rewrite Hh. unfold one_at. simpl. rewrite Hc. lia.
  - destruct (held !! n) as [r|] eqn:Hn; simpl.
    + destruct (unpin_ok s L R r Hok) as (s' & Hu & Hok' & Hh); [by apply (counted_held s held n)|].
      simpl in Hu. rewrite Hu. simpl. eexists. split; [done|]. exists L, R. split; [done|].
      by apply (counted_delete s s' held n r).
    + apply lookup_ge_None in Hn. eexists. split; [done|]. exists L, R. split; [done|]. simpl.
      by rewrite delete_take_drop, take_ge, drop_ge, app_nil_r by lia.
  - apply (keep_read s L R held _ Hc). unfold cont_registry_resolve_serial.
    destruct (first_id ids) as [i|]; [|by exists s, false].
    destruct (gen =? 0); [by exists s, false|].
    apply (read_ok s L R now _ Hok). intros s1 Hok1. by apply (find_then s1 L R).
  - apply (keep_read s L R held _ Hc). unfold cont_registry_bank_claim.
    destruct (first_id ids) as [i|]; [|by exists s, None].
    apply (read_ok s L R now _ Hok). intros s1 Hok1. by apply (find_then s1 L R).
  - apply (keep_read s L R held _ Hc). unfold cont_registry_serial_hold.
    apply (read_ok s L R now _ Hok). intros s1 Hok1.
    destruct (serial_live (creg s1)) as [r|] eqn:Hs; [|by exists None].
    destruct (serial_live_some s1 L R r Hok1 Hs) as [rec ->]. simpl.
    destruct (match live_ids _ _ with Some _ => _ | None => _ end); [by eexists|].
    destruct (_ && _); by eexists.
Qed.
End safety.
