(* ===== verification/ContTheorems.v ===== *)
(** * What tool memory and registry promise

    The properties over reachable servers: memory safety, shutdown, the budget, the
    round trip of a remembered text, the survival of a live turn's texts, and exact
    admission. *)

From S2P Require Import Prelude Float64 Text Stream Route DList ToolText ToolMem ContRegistry.
From S2P Require Import ContInv ContOps ContPublish ToolReplay ContReplay ContPolicy ContSafety.

(** ** Reachable servers *)

Section reach.
Context `{Malloc}.

Definition reachable (s : server) (held : list ptr) : Prop :=
  ∃ mi mb mr g t p h d ops, run (boot mi mb mr g t p h d, []) ops = Some (s, held).

Lemma run_safe x ops : safe_state x → ∃ y, run x ops = Some y ∧ safe_state y.
Proof.
  revert x. induction ops as [|o ops IH]; intros x Hx; simpl; [by exists x|].
  destruct (step_safe x o Hx) as (y & -> & Hy). by apply IH.
Qed.

Lemma boot_safe mi mb mr g t p h d : safe_state (boot mi mb mr g t p h d, []).
Proof. exists [], []. split; [apply boot_ok|done]. Qed.

Lemma reachable_ok s held : reachable s held → ∃ L R, server_ok s L R ∧ counted s held.
Proof.
  intros (mi & mb & mr & g & t & p & h & d & ops & Hr).
  destruct (run_safe _ ops (boot_safe mi mb mr g t p h d)) as (y & Hy & Hs).
  rewrite Hr in Hy. injection Hy as <-. exact Hs.
Qed.

(** C9: whatever the server is asked to do, tool memory and registry never reach
    a freed entry, block or record: every sequence of operations runs to its end,
    a request releases its pin on a record that is still allocated, and the
    indexes, the lists, the counters, the byte count and the LIVE tips agree with
    the objects allocated. *)
Theorem memory_safe mi mb mr g t p h d ops :
  ∃ s held L R, run (boot mi mb mr g t p h d, []) ops = Some (s, held) ∧
    server_ok s L R ∧ counted s held.
Proof.
  destruct (run_safe _ ops (boot_safe mi mb mr g t p h d)) as ((s & held) & Hr & L & R & Hok & Hc).
  by exists s, held, L, R.
Qed.

Lemma mem_ok_empty m : mem_ok m [] → ehp m = ∅ ∧ bhp m = ∅.
Proof.
  intros Hm. assert (ehp m = ∅) as He.
  { apply map_empty. intros p. apply eq_None_not_Some. intros Hp%(mem_dom _ _ Hm).
    by apply elem_of_nil in Hp. }
  split; [done|]. apply map_empty. intros b. apply eq_None_not_Some. intros [k Hk].
  destruct (mem_block _ _ Hm _ _ Hk) as [_ _ _ _ Hu _ Hin].
  destruct (b_entries k) as [|p l]; [done|]. destruct (Hin p) as (e & Hp & _); [by left|].
  by rewrite He, lookup_empty in Hp.
Qed.

(** shutting down, registry first and tool memory second, frees every record,
    entry and block that any run has left allocated. *)
Theorem shutdown_frees_all mi mb mr g t p h d ops :
  ∃ s held s' m, run (boot mi mb mr g t p h d, []) ops = Some (s, held) ∧
    cont_registry_free s = Some s' ∧ tool_memory_free (tool_mem s') = Some m ∧
    rhp (creg s') = ∅ ∧ ehp m = ∅ ∧ bhp m = ∅.
Proof.
  destruct (run_safe _ ops (boot_safe mi mb mr g t p h d)) as ((s & held) & Hr & L & R & Hok & _).
  simpl in Hok. unfold cont_registry_free.
  destruct (remove_heads_ok (size (rhp (creg s))) s L R Hok) as (s1 & L1 & Hrm & Hok1).
  { by rewrite (reg_size _ _ _ Hok). }
  destruct (remove_tails_ok (size (ehp (tool_mem s1))) (tool_mem s1) L1 (ok_mem _ _ _ Hok1))
    as (m1 & Hm & Hm1).
  { by rewrite (mem_size _ _ (ok_mem _ _ _ Hok1)). }
  exists s, held. eexists _, _. split; [done|]. rewrite Hrm. simpl. split; [done|].
  unfold tool_memory_free. simpl. rewrite Hm. simpl. split; [done|].
  split; [|exact (mem_ok_empty _ Hm1)].
  apply map_empty. intros r. apply eq_None_not_Some. intros Hr'%(ok_dom _ _ _ Hok1).
  by apply elem_of_nil in Hr'.
Qed.

(** ** Budget and round trip *)

(** after a text has been remembered, tool memory is within its limits on ids
    and bytes, or nothing that may go is left: every remaining entry is pinned or
    belongs to a record that is LIVE or held by a queued request. *)
Theorem put_meets_budget s held c i t0 text src s' :
  reachable s held →
  tool_memory_put_locked s (Some (c :: i)) (Some (t0 :: text)) src = Some s' →
  over_budget (tool_mem s') = false ∨
  ∀ p e, ehp (tool_mem s') !! p = Some e → protected s' e = true.
Proof.
  intros (L & R & Hok & _)%reachable_ok Hput.
  destruct (put_stage s L R (c :: i) (t0 :: text) src Hok) as (m0 & L0 & Hp & Hm0 & S); [done|done|].
  destruct (tool_prune_ok _ _ _ (stored_ok _ _ _ _ _ _ _ Hok Hm0 S))
    as (s1 & L' & R' & Hpr & _ & _ & Hb).
  replace s' with s1 by congruence. exact Hb.
Qed.

(** when there is room for one more entry and its text, a text remembered
    under an id is found under it afterwards, byte for byte, and the texts of all
    other ids are the same as before. *)
Theorem put_then_lookup s held c i t0 text src s' :
  reachable s held →
  tool_memory_put_locked s (Some (c :: i)) (Some (t0 :: text)) src = Some s' →
  entries (tool_mem s) < tool_memory_max_entries (tool_mem s) →
  bytes (tool_mem s) + blen (c :: i) + blen (t0 :: text) + 122 <=
    tool_memory_max_bytes (tool_mem s) →
  text_of (tool_mem s') (c :: i) = Some (t0 :: text) ∧
  ∀ j, j ≠ c :: i → text_of (tool_mem s') j = text_of (tool_mem s) j.
Proof.
  intros (L & R & Hok & _)%reachable_ok Hput He Hb.
  destruct (put_room s L R (c :: i) (t0 :: text) src Hok) as (s1 & L1 & Hp & Hr); [done..|].
  replace s1 with s' in Hr by congruence. split; apply Hr.
Qed.

(** ** The texts of a live turn *)

(** Remembering one more text keeps the entries of the records that may not go. *)
Lemma put_keeps s L R id text src s' :
  server_ok s L R → tool_memory_put_locked s id text src = Some s' →
  (∀ r rec, rhp (creg s) !! r = Some rec → evictable rec = false →
     rhp (creg s') !! r = Some rec) ∧
  (∀ j, Some j ≠ id → by_id (tool_mem s) !! j = None → by_id (tool_mem s') !! j = None) ∧
  ∀ p e, ehp (tool_mem s) !! p = Some e → Some (e_id e) ≠ id → safe s e = true →
    ehp (tool_mem s') !! p = Some e ∧
    text_of (tool_mem s') (e_id e) = text_of (tool_mem s) (e_id e).
Proof.
  intros Hok Hput. destruct id as [[|c i]|], text as [[|d t]|];
    try by (injection Hput as <-; eauto).
  pose proof (ok_mem _ _ _ Hok) as Hm.
  destruct (put_stage s L R (c :: i) (d :: t) src Hok) as (m0 & L0 & Hp & Hm0 & S); [done|done|].
  pose proof (stored_ok _ _ _ _ _ _ _ Hok Hm0 S) as Hok0.
  destruct (tool_prune_ok _ _ _ Hok0) as (s1 & L' & R' & Hpr & Hok' & D & _).
  replace s1 with s' in * by congruence. split; [apply (pr_rec _ _ D)|]. split.
  { intros j Hj Hn. apply eq_None_not_Some. intros [p Hpj].
    destruct (proj1 (mem_ids _ _ (ok_mem _ _ _ Hok') _ _) Hpj) as (e & He & Hei).
    pose proof (lookup_weaken _ _ _ _ He (pr_sub _ _ D)) as He0.
    pose proof (st_new _ _ _ _ S _ _ He0 ltac:(congruence)) as He1.
    assert (by_id (tool_mem s) !! j = Some p); [|congruence]. apply (mem_ids _ _ Hm). eauto. }
  intros p e He Hi Hs. assert (e_id e ≠ c :: i) as Hne by congruence.
  pose proof (st_old _ _ _ _ S _ _ He Hne) as He0.
  assert (ehp (tool_mem s') !! p = Some e) as He' by (apply (pr_keep _ _ D); done).
  split; [done|].
  destruct (text_of_at _ _ _ _ Hm He) as (b & k & Hb & Hk & ->).
  destruct (st_blocks _ _ _ _ S _ _ _ _ He Hne Hb Hk) as (k0 & Hk0 & <-).
  rewrite (text_evicted m0 _ L0 L' p e Hm0 (ok_mem _ _ _ Hok') (pr_mem _ _ D) He').
  destruct (text_of_at _ _ _ _ Hm0 He0) as (b0 & k1 & Hb0 & Hk1 & ->). congruence.
Qed.

(** A sequence of texts remembered one after the other. *)
Fixpoint put_many (s : server) (l : list (option (list Z) * option (list Z) * tool_memory_source))
    : option server :=
  match l with
  | [] => Some s
  | (id, text, src) :: t => s1 ← tool_memory_put_locked s id text src; put_many s1 t
  end.

Lemma put_many_keeps s L R l s' r rec p e :
  server_ok s L R → put_many s l = Some s' →
  rhp (creg s) !! r = Some rec → evictable rec = false →
  ehp (tool_mem s) !! p = Some e → e_rec e = Some r → (Some (e_id e) ∉ l.*1.*1) →
  text_of (tool_mem s') (e_id e) = text_of (tool_mem s) (e_id e).
Proof.
  revert s L R. induction l as [|[[id text] src] l IH]; intros s L R Hok Hput Hr Hv He Her Hi;
    simpl in *; [by injection Hput as <-|].
  apply not_elem_of_cons in Hi as [Hi0 Hi].
  destruct (memory_put_ok s L R id text src Hok) as (s1 & L1 & R1 & Hp & Hok1 & _).
  rewrite Hp in Hput. simpl in Hput.
  destruct (put_keeps s L R id text src s1 Hok Hp) as (Hrec & _ & Hkeep).
  destruct (Hkeep p e He Hi0) as [He1 Htx]; [unfold safe; by rewrite Her, Hr, Hv|].
  rewrite <- Htx. apply (IH s1 L1 R1); try done. by apply Hrec.
Qed.

Lemma put_many_absent s L R l s' j :
  server_ok s L R → put_many s l = Some s' → (Some j ∉ l.*1.*1) →
  by_id (tool_mem s) !! j = None → by_id (tool_mem s') !! j = None.
Proof.
  revert s L R. induction l as [|[[id text] src] l IH]; intros s L R Hok Hput Hi Hn;
    simpl in *; [by injection Hput as <-|].
  apply not_elem_of_cons in Hi as [Hi0 Hi].
  destruct (memory_put_ok s L R id text src Hok) as (s1 & L1 & R1 & Hp & Hok1 & _).
  rewrite Hp in Hput. simpl in Hput. apply (IH s1 L1 R1); try done.
  by apply (put_keeps s L R id text src s1 Hok Hp).
Qed.

(** C10: once a turn's record is published, the texts remembered under its call ids
    cannot be displaced: whatever texts are remembered afterwards under other ids,
    and however far over budget tool memory is, each id of the turn still leads to
    the text it led to before the record was published. *)
Theorem live_text_survives s held proto calls own bank gen front now s1 l s2 i :
  reachable s held → gen ≠ 0 → 0 < front →
  cont_registry_publish s proto calls own bank gen front now = Some s1 →
  put_many s1 l = Some s2 →
  i ∈ stops_v (turn_ids (tcs calls)) → (Some i ∉ l.*1.*1) →
  text_of (tool_mem s2) i = text_of (tool_mem s) i.
Proof.
  intros (L & R & Hok & _)%reachable_ok Hgen Hfront Hpub Hput Hi Hnew.
  destruct (publish_spec s L R proto calls own bank gen front now Hok Hgen Hfront)
    as (s1' & L1 & R1 & r & Hp & Hok1 & _ & Hr & _ & Hent & Htx & _).
  { intros Hn. by rewrite Hn in Hi; apply elem_of_nil in Hi. }
  replace s1' with s1 in * by congruence. rewrite <- (Htx i Hi).
  destruct (by_id (tool_mem s1) !! i) as [p|] eqn:Hp1.
  2: { unfold text_of. by rewrite Hp1, (put_many_absent s1 L1 R1 l s2 i Hok1 Hput Hnew Hp1). }
  destruct (proj1 (mem_ids _ _ (ok_mem _ _ _ Hok1) _ _) Hp1) as (e & He & <-).
  destruct (Hent p e He Hi) as [Her _].
  by apply (put_many_keeps s1 L1 R1 l s2 r _ p e Hok1 Hput Hr).
Qed.
End reach.

(** ** Admission *)

(** The record has not outlived its retention time. *)
Definition unexpired (g : cont_registry) (rec : cont_record) (now : spec_float) : bool :=
  F64.le (ttl_s g) F64.zero || negb (F64.lt (ttl_s g) (F64.sub now (publish_time rec))).

Lemma aged_live g now rec :
  live (aged g now rec) = live rec && unexpired g rec now.
Proof.
  unfold aged, unexpired, lapse, expired. destruct (F64.le (ttl_s g) F64.zero); simpl.
  - by rewrite andb_true_r.
  - change (bool_decide (state rec = CONT_REC_LIVE_FRONTIER)) with (live rec).
    destruct (live rec) eqn:Hl; simpl; [|done]. by destruct (F64.lt _ _).
Qed.

Lemma aged_fields g now rec :
  let a := aged g now rec in
  owner a = owner rec ∧ owner_id a = owner_id rec ∧ protocol a = protocol rec ∧
  owner_gen a = owner_gen rec ∧ frontier a = frontier rec ∧ call_ids a = call_ids rec.
Proof. unfold aged, lapse. destruct (F64.le _ _); [done|]. by destruct (expired _ _ _). Qed.

Lemma rec_good_ids rec : rec_ok rec → good_ids (call_ids rec).
Proof. intros []. by split. Qed.

(** Equal length and containment make the id lists the same up to order. *)
Lemma same_ids_perm rec ids :
  good_ids (call_ids rec) → good_ids ids →
  (same_ids rec ids = true) ↔ stops_v ids ≡ₚ ids_of rec.
Proof.
  intros [Hre Hrn] [He Hn]. unfold same_ids, ids_of. rewrite andb_true_iff, forallb_forall. split.
  - intros [Hlen Hall]. apply submseteq_length_Permutation.
    + apply NoDup_submseteq; [done|]. intros i Hi.
      apply id_list_contains_in; [by intros ->|]. apply Hall. by apply list_elem_of_In.
    + unfold blen in Hlen. lia.
  - intros HP. split; [unfold blen; rewrite HP; lia|]. intros i Hi%list_elem_of_In.
    apply id_list_contains_in; [by intros ->|]. by rewrite <- HP.
Qed.

Lemma index_find g proto i r :
  i ≠ [] → (cont_registry_find_locked g proto (Some i) = Some r) ↔
           index g !! cont_registry_key proto i = Some r.
Proof.
  intros Hi. unfold cont_registry_find_locked, index. destruct i as [|c i]; [done|].
  destruct (by_call_id g); [done|]. simpl. by rewrite lookup_empty.
Qed.

Section admission.
Context `{Malloc}.

Lemma resolve_eval s L R proto ids i gen pos now :
  server_ok s L R → first_id ids = Some i → i ≠ [] → gen ≠ 0 →
  ∃ s', cont_registry_resolve_serial s proto ids gen pos now =
    Some (s', match index (creg s) !! cont_registry_key proto i with
              | None => false
              | Some r => match rhp (creg s) !! r with
                | None => false
                | Some rec => live rec && unexpired (creg s) rec now &&
                    bool_decide (owner rec = CONT_OWNER_SERIAL_SESSION) &&
                    bool_decide (protocol rec = proto) && (owner_gen rec =? gen) &&
                    (frontier rec =? pos) && same_ids rec ids
                end
              end).
Proof.
  intros Hok Hf Hi Hg. unfold cont_registry_resolve_serial. rewrite Hf.
  replace (gen =? 0) with false by lia.
  destruct (expire_ok s L R now Hok) as (s1 & -> & Hok1 & _ & Hidx & Hh). simpl.
  exists s1. rewrite <- Hidx.
  destruct (index (creg s1) !! cont_registry_key proto i) as [r|] eqn:Hr.
  - rewrite (proj2 (index_find _ _ _ _ Hi) Hr).
    destruct (ok_index _ _ _ Hok1 _ _ Hr) as (a & _ & Ha & _). rewrite Ha. simpl.
    rewrite Hh, lookup_fmap in Ha. destruct (rhp (creg s) !! r) as [rec|] eqn:Hrec; [|done].
    injection Ha as <-. rewrite <- aged_live.
    destruct (aged_fields (creg s) now rec) as (Ho & _ & Hp & Hgn & Hfr & Hids).
    unfold same_ids. by rewrite Ho, Hp, Hgn, Hfr, Hids.
  - destruct (cont_registry_find_locked (creg s1) proto (Some i)) as [r|] eqn:Hfd; [|done].
    apply index_find in Hfd; [congruence|done].
Qed.

(** C11: an output-only continuation of the serial session is admitted exactly when
    the session has a generation, the registry's index names the one LIVE record of
    the session for the first id of the request on the request's surface (a record
    published later under the same id and surface takes that place in the index),
    that record was published on this surface, is not past its retention time and
    stands at the generation and the position the session has now, and the ids of
    the request, in any order, are all its call ids. *)
Theorem resolve_serial_exact s held proto ids i gen pos now s' b :
  reachable s held → good_ids ids → first_id ids = Some i →
  cont_registry_resolve_serial s proto ids gen pos now = Some (s', b) →
  (b = true ↔ gen ≠ 0 ∧ ∃ r rec,
     serial_live (creg s) = Some r ∧ rhp (creg s) !! r = Some rec ∧
     index (creg s) !! cont_registry_key proto i = Some r ∧
     unexpired (creg s) rec now = true ∧ protocol rec = proto ∧
     owner_gen rec = gen ∧ frontier rec = pos ∧ stops_v ids ≡ₚ ids_of rec).
Proof.
  intros (L & R & Hok & _)%reachable_ok Hids Hf Hres.
  assert (i ≠ []) as Hi.
  { intros ->. unfold first_id in Hf. destruct Hids as [He _].
    destruct (stops_v ids); [done|]. injection Hf as ->. apply He. by left. }
  destruct (decide (gen = 0)) as [->|Hg].
  { unfold cont_registry_resolve_serial in Hres. rewrite Hf in Hres. simpl in Hres.
    injection Hres as _ <-. split; [done|]. by intros [? _]. }
  destruct (resolve_eval s L R proto ids i gen pos now Hok Hf Hi Hg) as (s1 & He).
  rewrite He in Hres. injection Hres as _ <-. split.
  - destruct (index (creg s) !! _) as [r|] eqn:Hr; [|done].
    destruct (rhp (creg s) !! r) as [rec|] eqn:Hrec; [|done].
    rewrite !andb_true_iff, !bool_decide_eq_true, !Z.eqb_eq.
    intros ((((((Hl & Hu) & Ho) & Hp) & Hgn) & Hfr) & Hs).
    split; [done|]. exists r, rec.
    split; [apply (ok_serial _ _ _ Hok); eauto|]. do 6 (split; [done|]).
    by apply same_ids_perm; [apply rec_good_ids, (ok_rec _ _ _ Hok r)| |].
  - intros (_ & r & rec & Hs & Hrec & Hr & Hu & Hp & Hgn & Hfr & HP). rewrite Hr, Hrec.
    apply (ok_serial _ _ _ Hok) in Hs as (rec' & Hrec' & Hl & Ho).
    replace rec' with rec in * by congruence.
    rewrite Hl, Hu, Hgn, Hfr, !Z.eqb_refl, !bool_decide_true by done. simpl.
    by apply same_ids_perm; [apply rec_good_ids, (ok_rec _ _ _ Hok r)| |].
Qed.

Lemma first_id_some ids i : first_id ids = Some i → i ∈ stops_v ids.
Proof. unfold first_id. destruct (stops_v ids); [done|]. intros [= ->]. by left. Qed.

(** a turn that has just been published is resolved by its own ids, in any
    order, at its generation and position until it expires; at another generation
    or position it is not; and once the session's tip is given up it never is. *)
Theorem publish_then_resolve s held proto calls gen front t0 now s1 ids i :
  reachable s held → gen ≠ 0 → 0 < front → good_ids ids → first_id ids = Some i →
  stops_v ids ≡ₚ stops_v (turn_ids (tcs calls)) →
  cont_registry_publish_serial s proto calls gen front t0 = Some s1 →
  let r := published_record proto calls CONT_OWNER_SERIAL_SESSION 0 gen front t0 in
  (∀ gen' pos', ∃ s2, cont_registry_resolve_serial s1 proto ids gen' pos' now =
     Some (s2, (gen' =? gen) && (pos' =? front) && unexpired (creg s) r now)) ∧
  ∃ s3 s4, cont_registry_demote_serial s1 = Some s3 ∧
    cont_registry_resolve_serial s3 proto ids gen front now = Some (s4, false).
Proof.
  intros (L & R & Hok & _)%reachable_ok Hgen Hfront Hids Hf HP Hpub r.
  pose proof (first_id_some _ _ Hf) as Hin.
  assert (i ≠ []) as Hi by (intros ->; by destruct Hids).
  assert (i ∈ stops_v (turn_ids (tcs calls))) as Hit by by rewrite <- HP.
  destruct (publish_spec s L R proto calls CONT_OWNER_SERIAL_SESSION 0 gen front t0 Hok Hgen Hfront)
    as (s1' & L1 & R1 & p & Hp & Hok1 & _ & Hr & Hidx & _ & _ & Hpol).
  { intros Hn. by rewrite Hn in Hit; apply elem_of_nil in Hit. }
  unfold cont_registry_publish_serial in Hpub. replace s1' with s1 in * by congruence.
  assert (unexpired (creg s1) r now = unexpired (creg s) r now) as Hu.
  { unfold unexpired. unfold policy in Hpol. injection Hpol as _ _ -> _ _.
    unfold cont_registry_init_locked. by destruct (by_call_id (creg s)). }
  assert (same_ids r ids = true) as Hs.
  { apply same_ids_perm; [|done|by rewrite HP]. apply turn_ids_good. }
  split.
  - intros gen' pos'. destruct (decide (gen' = 0)) as [->|Hg].
    + exists s1. unfold cont_registry_resolve_serial. rewrite Hf.
      by replace (0 =? gen) with false by lia.
    + destruct (resolve_eval s1 L1 R1 proto ids i gen' pos' now Hok1 Hf Hi Hg) as (s2 & ->).
      exists s2. rewrite (Hidx i Hit), Hr. fold r. rewrite Hu, Hs, !andb_true_r.
      change (live r) with true. rewrite !bool_decide_true by done. simpl.
      rewrite (Z.eqb_sym gen'), (Z.eqb_sym pos'). do 2 f_equal.
      destruct (unexpired (creg s) r now), (gen =? gen'), (front =? pos'); done.
  - unfold cont_registry_demote_serial.
    assert (serial_live (creg s1) = Some p) as ->.
    { apply (ok_serial _ _ _ Hok1). exists r. by repeat split. }
    destruct (demote_ok _ _ _ _ _ Hok1 Hr) as (s3 & -> & Hok3 & D & _).
    destruct (resolve_eval s3 L1 R1 proto ids i gen front now Hok3 Hf Hi Hgen) as (s4 & He).
    exists s3, s4. split; [done|]. rewrite He. do 2 f_equal.
    assert (index (creg s3) = index (creg s1)) as ->.
    { unfold index. destruct (de_reg _ _ _ _ D) as (-> & _). done. }
    rewrite (Hidx i Hit), (de_rhp _ _ _ _ D), lookup_insert_eq. done.
Qed.

(** C12: a message without a text of its own takes the remembered text [t] exactly
    when every one of its call ids is remembered under [t]; ids that are unknown,
    or remembered under different texts, leave it without one. *)
Theorem attach_replays_exactly s held msgs st s' msgs' st' n calls :
  reachable s held → disable_exact_dsml_tool_replay s = false →
  tool_memory_attach_to_messages s msgs st = Some (s', msgs', st') →
  msgs !! n = Some calls → tcs calls ≠ [] → tool_calls_exact_text calls = None →
  ∃ calls', msgs' !! n = Some calls' ∧ tcs calls' = tcs calls ∧
    ∀ t, tool_calls_exact_text calls' = Some t ↔ all_remembered (tool_mem s) (tcs calls) t.
Proof.
  intros (L & R & Hok & _)%reachable_ok Hdis Hat. unfold tool_memory_attach_to_messages in Hat.
  rewrite Hdis in Hat.
  destruct (attach_messages_ok _ _ msgs st (ok_mem _ _ _ Hok)) as (m' & L' & ms & st1 & He & _ & _ & Hall).
  rewrite He in Hat. injection Hat as <- <- <-. apply Hall.
Qed.
End admission.

(** ** Minting ids *)

Lemma mint_new s calls i random id rest :
  mint s calls i random = Some (id, rest) →
  id ∈ random ∧ tool_calls_contains_id calls (Some id) i = false ∧
  tool_id_in_use s (Some id) = false ∧ ∀ x, x ∈ rest → x ∈ random.
Proof.
  induction random as [|x t IH]; simpl; [done|].
  destruct (_ && _) eqn:Hc.
  - intros [= <- <-]. apply andb_prop in Hc as [H1%negb_true_iff H2%negb_true_iff].
    split; [by left|]. do 2 (split; [done|]). intros y Hy. by right.
  - intros (H1 & H2 & H3 & H4)%IH. split; [by right|]. do 2 (split; [done|]).
    intros y Hy. right. by apply H4.
Qed.

(** An id that the model or the stream has already given. *)
Definition given (tc : tool_call) : bool :=
  match tc_id tc with Some (_ :: _) => true | _ => false end.

Lemma contains_id_false l id n tc j :
  id ≠ [] → tool_calls_contains_id l (Some id) n = false →
  tcs l !! j = Some tc → Z.of_nat j < n → tc_id tc ≠ Some id.
Proof.
  unfold tool_calls_contains_id. destruct id as [|c i]; [done|]. intros _ Hf Hj Hn Heq.
  assert (existsb (λ tc, bool_decide (tc_id tc = Some (c :: i))) (ztake n (tcs l)) = true); [|congruence].
  apply existsb_exists. exists tc. split; [|by apply bool_decide_eq_true].
  apply list_elem_of_In. unfold ztake. apply list_elem_of_lookup. exists j.
  rewrite lookup_take_lt; [done|lia].
Qed.

(** What the loop has made of a call at place [n] of [out]. *)
Definition assigned (s : server) (random : list (list Z)) (out : list tool_call) (n : nat)
    (tc tc' : tool_call) : Prop :=
  tc_name tc' = tc_name tc ∧ tc_arguments tc' = tc_arguments tc ∧
  if given tc then tc' = tc
  else ∃ id, tc_id tc' = Some id ∧ id ∈ random ∧ tool_id_in_use s (Some id) = false ∧
       ∀ j x, (j < n)%nat → out !! j = Some x → tc_id x ≠ Some id.

Lemma assign_from_ok s before todo random out :
  [] ∉ random → assign_from s before todo random = Some out →
  length out = length (before ++ todo) ∧
  (∀ j, (j < length before)%nat → out !! j = before !! j) ∧
  ∀ j tc, todo !! j = Some tc →
    ∃ tc', out !! (length before + j)%nat = Some tc' ∧
           assigned s random out (length before + j) tc tc'.
Proof.
  revert before random. induction todo as [|tc todo IH]; intros before random Hne; simpl.
  { intros [= <-]. rewrite app_nil_r. done. }
  assert (∀ tc' rest, [] ∉ rest → (∀ x, x ∈ rest → x ∈ random) →
    (∀ o, (∀ j, (j < length before)%nat → o !! j = before !! j) →
       assigned s random o (length before) tc tc') →
    assign_from s (before ++ [tc']) todo rest = Some out →
    length out = length (before ++ tc :: todo) ∧
    (∀ j, (j < length before)%nat → out !! j = before !! j) ∧
    ∀ j x, (tc :: todo) !! j = Some x →
      ∃ x', out !! (length before + j)%nat = Some x' ∧
            assigned s random out (length before + j) x x') as Hgo.
  { intros tc' rest Hr Hsub Has Ho. destruct (IH _ _ Hr Ho) as (Hlen & Hpre & Hrest).
    assert (∀ j, (j < length before)%nat → out !! j = before !! j) as Hpre'.
    { intros j Hj. rewrite Hpre by (rewrite length_app; simpl; lia). by apply lookup_app_l. }
    split; [rewrite Hlen, !length_app; simpl; lia|]. split; [done|].
    intros [|j] x Hx; simpl in Hx.
    - injection Hx as <-. rewrite Nat.add_0_r. exists tc'. split; [|by apply Has].
      rewrite Hpre by (rewrite length_app; simpl; lia).
      by rewrite lookup_app_r, Nat.sub_diag by lia.
    - destruct (Hrest j x Hx) as (x' & Hx' & Hn & Ha & Hg).
      rewrite length_app in *. simpl in *.
      replace (length before + 1 + j)%nat with (length before + S j)%nat in * by lia.
      exists x'. split; [done|]. do 2 (split; [done|]). destruct (given x); [done|].
      destruct Hg as (id & ? & ? & ?). exists id. eauto. }
  destruct (tc_id tc) as [[|c i]|] eqn:Hid.
  2: { apply Hgo; [done|done|]. intros o _. do 2 (split; [done|]). unfold given. by rewrite Hid. }
  all: destruct (mint _ _ _ _) as [[id rest]|] eqn:Hm; [|done]; simpl;
    destruct (mint_new _ _ _ _ _ _ Hm) as (Hin & Hnc & Huse & Hsub);
    assert (id ≠ []) as Hidne by (by intros ->);
    apply Hgo; [by intros ?%Hsub|done|]; intros o Ho; do 2 (split; [done|]);
    unfold given; rewrite Hid; exists id; do 3 (split; [done|]);
    intros j x Hj Hx; rewrite (Ho j Hj) in Hx;
    apply (contains_id_false _ _ (blen before) x j Hidne Hnc);
    [by apply lookup_app_l_Some|unfold blen; lia].
Qed.

(** every call of a turn ends with an id: one that the model or the stream gave
    is kept, and a new one is drawn until it is an id that no remembered text, no
    record of any surface and no earlier call of the turn uses. *)
Theorem minted_ids_are_new s calls random calls' :
  [] ∉ random → assign_tool_call_ids s calls random = Some calls' →
  length (tcs calls') = length (tcs calls) ∧
  ∀ j tc, tcs calls !! j = Some tc →
    ∃ tc', tcs calls' !! j = Some tc' ∧ assigned s random (tcs calls') j tc tc'.
Proof.
  intros Hne. unfold assign_tool_call_ids.
  destruct (assign_from s [] (tcs calls) random) as [out|] eqn:Ho; [|done]. simpl.
  intros [= <-]. destruct (assign_from_ok s [] (tcs calls) random out Hne Ho) as (Hlen & _ & Hall).
  by split.
Qed.

(** ** Bank protection *)

Section bank.
Context (query : Z → option (Z * Z)).

Definition covers (bank : option Z) (rec : cont_record) : bool :=
  match bank with Some b => owner_id rec =? b | None => true end.

Lemma protects_walk_ok fuel s L R1 R2 bank now :
  server_ok s L (R1 ++ R2) → (length R2 <= fuel)%nat →
  ∃ b, protects_walk query fuel (creg s) (first R2 None) bank now = Some b ∧
    (b = true ↔ ∃ r rec, r ∈ R2 ∧ rhp (creg s) !! r = Some rec ∧ covers bank rec = true ∧
                 cont_record_bank_protects query (creg s) rec now = true).
Proof.
  revert R1 R2. induction fuel as [|f IH]; intros R1 R2 Hok Hf.
  { assert (R2 = []) as -> by (destruct R2; [done|simpl in Hf; lia]).
    exists false. split; [done|]. split; [done|]. by intros (r & rec & ?%elem_of_nil & _). }
  destruct R2 as [|r R2]; simpl.
  { exists false. split; [done|]. split; [done|]. by intros (r & rec & ?%elem_of_nil & _). }
  assert (r ∈ R1 ++ r :: R2) as HrR by (apply elem_of_app; right; by left).
  destruct (proj1 (ok_dom _ _ _ Hok r) HrR) as [rec Hr].
  rewrite Hr, (repr_fields _ _ _ _ (ok_list _ _ _ Hok)). simpl.
  change (match bank with Some b => owner_id rec =? b | None => true end) with (covers bank rec).
  destruct (covers bank rec && cont_record_bank_protects query (creg s) rec now) eqn:Hc.
  - exists true. split; [done|]. split; [|done]. intros _. apply andb_prop in Hc as [? ?].
    exists r, rec. split; [by left|done].
  - destruct (IH (R1 ++ [r]) R2) as (b & -> & Hb); [by rewrite <- app_assoc|simpl in Hf; lia|].
    exists b. split; [done|]. rewrite Hb. split; intros (q & x & Hq & Hx & Hcx & Hpx).
    + exists q, x. split; [by right|done].
    + apply elem_of_cons in Hq as [->|Hq]; [|by exists q, x].
      replace x with rec in * by congruence. by rewrite Hcx, Hpx in Hc.
Qed.

(** the serial lane's emergency reclaim, which spends every batch bank, runs
    exactly when no record protects its bank; otherwise it frees nothing and says
    that it spared a protected bank.  A bank is protected through a record that is
    LIVE, still describes the bank as far as the engine can tell, and is inside its
    grace window or held by a queued continuation. *)
Theorem reclaim_spares_protected `{Malloc} s held now reclaim :
  reachable s held →
  ∃ freed skipped,
    cont_registry_reclaim_unprotected query s now reclaim = Some (freed, skipped) ∧
    (skipped = true ↔ ∃ r rec, rhp (creg s) !! r = Some rec ∧ live rec = true ∧
       owner rec = CONT_OWNER_BATCH_BANK ∧
       (∀ gen front, query (owner_id rec) = Some (gen, front) →
          gen = owner_gen rec ∧ front = frontier rec) ∧
       ((F64.lt F64.zero (grace_s (creg s)) = true ∧
         F64.lt (F64.sub now (publish_time rec)) (grace_s (creg s)) = true) ∨
        pinned_now (creg s) rec now = true)) ∧
    freed = (if skipped then 0 else reclaim UINT64_MAX).
Proof.
  intros (L & R & Hok & _)%reachable_ok. unfold cont_registry_reclaim_unprotected.
  rewrite (reg_size _ _ _ Hok). destruct (ok_list _ _ _ Hok) as (_ & _ & -> & _).
  destruct (protects_walk_ok (length R) s L [] R None now Hok) as (b & -> & Hb); [done|]. simpl.
  assert (∀ rec, rec_ok rec → cont_record_bank_protects query (creg s) rec now = true ↔
    live rec = true ∧ owner rec = CONT_OWNER_BATCH_BANK ∧
       (∀ gen front, query (owner_id rec) = Some (gen, front) →
          gen = owner_gen rec ∧ front = frontier rec) ∧
       ((F64.lt F64.zero (grace_s (creg s)) = true ∧
         F64.lt (F64.sub now (publish_time rec)) (grace_s (creg s)) = true) ∨
        pinned_now (creg s) rec now = true)) as Hprot.
  { intros rec [_ _ _ Hfr Hgn _]. unfold cont_record_bank_protects, cont_record_bank_reference_matches.
    change (bool_decide (state rec = CONT_REC_LIVE_FRONTIER)) with (live rec).
    rewrite !andb_true_iff, orb_true_iff, andb_true_iff, bool_decide_eq_true.
    destruct (query (owner_id rec)) as [[gen front]|].
    - rewrite !andb_true_iff, negb_true_iff, Z.eqb_neq, Z.ltb_lt, !Z.eqb_eq, bool_decide_eq_true.
      split.
      + intros (((Ho & Hl) & (((((_ & _) & _) & _) & Hg) & Hf)) & Hw). do 2 (split; [done|]).
        split; [|done]. intros g f [= <- <-]. done.
      + intros (Hl & Ho & Hq & Hw). destruct (Hq gen front eq_refl) as [-> ->]. tauto.
    - split; [intros (((Ho & Hl) & _) & Hw)|intros (Hl & Ho & _ & Hw)]; by repeat split. }
  exists (if b then 0 else reclaim UINT64_MAX), b. split; [by destruct b|]. split; [|done].
  rewrite Hb. split.
  - intros (r & rec & _ & Hr & _ & Hp). exists r, rec. split; [done|].
    by apply Hprot; [apply (ok_rec _ _ _ Hok r)|].
  - intros (r & rec & Hr & Hp). exists r, rec.
    split; [apply (ok_dom _ _ _ Hok); eauto|]. do 2 (split; [done|]).
    by apply Hprot; [apply (ok_rec _ _ _ Hok r)|].
Qed.
End bank.

(** ** A small run *)

Definition demo_calls : tool_calls :=
  Calls [Call (Some (bs "call_1")) (Some (bs "f")) (Some (bs "{}"))] (Some (bs "<raw>")) None.

Definition demo_ops : list op :=
  [Remember demo_calls;
   PublishSerial API_RESPONSES demo_calls 7 100 (F64.of_Z 10);
   Acquire API_RESPONSES (Some (bs "call_1")) (F64.of_Z 11)].

Definition demo_boot : server :=
  boot 2 1000 0 (F64.of_Z 60) (F64.of_Z 300) (F64.of_Z 60) (F64.of_Z 5) false.

Definition demo : server :=
  match run (demo_boot, []) demo_ops with Some (s, _) => s | None => demo_boot end.

Lemma demo_reachable : reachable demo [1%positive].
Proof.
  exists 2, 1000, 0, (F64.of_Z 60), (F64.of_Z 300), (F64.of_Z 60), (F64.of_Z 5), false, demo_ops.
  vm_compute. reflexivity.
Qed.

(** The same server before the turn is published. *)
Definition demo0 : server :=
  match run (demo_boot, []) [Remember demo_calls] with Some (s, _) => s | None => demo_boot end.

Lemma demo0_reachable : reachable demo0 [].
Proof.
  exists 2, 1000, 0, (F64.of_Z 60), (F64.of_Z 300), (F64.of_Z 60), (F64.of_Z 5), false,
    [Remember demo_calls].
  vm_compute. reflexivity.
Qed.

Definition demo_ids : stop_list := Stops [bs "call_1"] 6.

Lemma demo_ids_good : good_ids demo_ids.
Proof.
  split; [|apply NoDup_singleton]. simpl. intros H%list_elem_of_singleton. discriminate H.
Qed.

(** ** Witnesses *)

Example put_meets_budget_witness :
  ∃ s', tool_memory_put_locked demo (Some (bs "x")) (Some (bs "t")) TOOL_MEMORY_RAM = Some s' ∧
    (over_budget (tool_mem s') = false ∨
     ∀ p e, ehp (tool_mem s') !! p = Some e → protected s' e = true).
Proof.
  eexists. split; [vm_compute; reflexivity|].
  apply (put_meets_budget demo [1%positive] (ch "x") [] (ch "t") [] TOOL_MEMORY_RAM);
    [exact demo_reachable|vm_compute; reflexivity].
Defined.

Example put_then_lookup_witness :
  ∃ s', tool_memory_put_locked demo (Some (bs "x")) (Some (bs "t")) TOOL_MEMORY_RAM = Some s' ∧
    text_of (tool_mem s') (bs "x") = Some (bs "t") ∧
    ∀ j, j ≠ bs "x" → text_of (tool_mem s') j = text_of (tool_mem demo) j.
Proof.
  eexists. split; [vm_compute; reflexivity|].
  apply (put_then_lookup demo [1%positive] (ch "x") [] (ch "t") [] TOOL_MEMORY_RAM);
    [exact demo_reachable|vm_compute; reflexivity|vm_compute; reflexivity|].
  vm_compute. discriminate.
Defined.

Example live_text_survives_witness :
  ∃ s1 s2,
    cont_registry_publish demo0 API_RESPONSES demo_calls CONT_OWNER_SERIAL_SESSION 0 7 100
      (F64.of_Z 10) = Some s1 ∧
    put_many s1 [(Some (bs "a"), Some (bs "t"), TOOL_MEMORY_RAM);
                 (Some (bs "b"), Some (bs "u"), TOOL_MEMORY_RAM);
                 (Some (bs "c"), Some (bs "v"), TOOL_MEMORY_RAM)] = Some s2 ∧
    text_of (tool_mem s2) (bs "call_1") = text_of (tool_mem demo0) (bs "call_1").
Proof.
  eexists _, _. split; [vm_compute; reflexivity|]. split; [vm_compute; reflexivity|].
  eapply (live_text_survives demo0 [] API_RESPONSES demo_calls CONT_OWNER_SERIAL_SESSION 0 7 100
    (F64.of_Z 10) _ [(Some (bs "a"), Some (bs "t"), TOOL_MEMORY_RAM);
                 (Some (bs "b"), Some (bs "u"), TOOL_MEMORY_RAM);
                 (Some (bs "c"), Some (bs "v"), TOOL_MEMORY_RAM)]);
    [exact demo0_reachable|lia|lia|vm_compute; reflexivity|vm_compute; reflexivity| |].
  - vm_compute. left.
  - simpl. intros H. repeat (apply elem_of_cons in H as [H|H]; [discriminate H|]).
    by apply elem_of_nil in H.
Defined.

Example resolve_serial_exact_witness :
  ∃ s', cont_registry_resolve_serial demo API_RESPONSES demo_ids 7 100 (F64.of_Z 20) =
          Some (s', true) ∧
    (true = true ↔ 7 ≠ 0 ∧ ∃ r rec,
       serial_live (creg demo) = Some r ∧ rhp (creg demo) !! r = Some rec ∧
       index (creg demo) !! cont_registry_key API_RESPONSES (bs "call_1") = Some r ∧
       unexpired (creg demo) rec (F64.of_Z 20) = true ∧ protocol rec = API_RESPONSES ∧
       owner_gen rec = 7 ∧ frontier rec = 100 ∧ stops_v demo_ids ≡ₚ ids_of rec).
Proof.
  eexists. split; [vm_compute; reflexivity|].
  eapply (resolve_serial_exact demo [1%positive] API_RESPONSES demo_ids (bs "call_1") 7 100
    (F64.of_Z 20)); [exact demo_reachable|exact demo_ids_good|reflexivity|vm_compute; reflexivity].
Defined.

Example publish_then_resolve_witness :
  ∃ s1, cont_registry_publish_serial demo0 API_RESPONSES demo_calls 7 100 (F64.of_Z 10) = Some s1 ∧
    let r := published_record API_RESPONSES demo_calls CONT_OWNER_SERIAL_SESSION 0 7 100
               (F64.of_Z 10) in
    (∀ gen' pos', ∃ s2,
       cont_registry_resolve_serial s1 API_RESPONSES demo_ids gen' pos' (F64.of_Z 20) =
       Some (s2, (gen' =? 7) && (pos' =? 100) && unexpired (creg demo0) r (F64.of_Z 20))) ∧
    ∃ s3 s4, cont_registry_demote_serial s1 = Some s3 ∧
      cont_registry_resolve_serial s3 API_RESPONSES demo_ids 7 100 (F64.of_Z 20) = Some (s4, false).
Proof.
  eexists. split; [vm_compute; reflexivity|].
  eapply (publish_then_resolve demo0 [] API_RESPONSES demo_calls 7 100 (F64.of_Z 10) (F64.of_Z 20) _
    demo_ids (bs "call_1"));
    [exact demo0_reachable|lia|lia|exact demo_ids_good|reflexivity|reflexivity|vm_compute; reflexivity].
Defined.

Example attach_replays_exactly_witness :
  ∃ s' msgs' st' calls',
    tool_memory_attach_to_messages demo [Calls (tcs demo_calls) None None] (Stats 0 0 0 0) =
      Some (s', msgs', st') ∧
    msgs' !! 0%nat = Some calls' ∧ tcs calls' = tcs demo_calls ∧
    ∀ t, tool_calls_exact_text calls' = Some t ↔ all_remembered (tool_mem demo) (tcs demo_calls) t.
Proof.
  assert (∃ s' msgs' st',
    tool_memory_attach_to_messages demo [Calls (tcs demo_calls) None None] (Stats 0 0 0 0) =
      Some (s', msgs', st')) as (s' & msgs' & st' & He)
    by (eexists _, _, _; vm_compute; reflexivity).
  destruct (attach_replays_exactly demo [1%positive] _ _ s' msgs' st' 0
    (Calls (tcs demo_calls) None None) demo_reachable eq_refl He eq_refl) as (calls' & H1 & H2 & H3);
    [discriminate|reflexivity|].
  exists s', msgs', st', calls'. split; [exact He|]. split; [exact H1|]. split; [exact H2|exact H3].
Defined.

Example minted_ids_are_new_witness :
  ∃ calls', assign_tool_call_ids demo (Calls [Call None (Some (bs "f")) None] None None)
              [bs "call_1"; bs "call_2"] = Some calls' ∧
    length (tcs calls') = 1%nat ∧
    ∀ j tc, [Call None (Some (bs "f")) None] !! j = Some tc →
      ∃ tc', tcs calls' !! j = Some tc' ∧
        assigned demo [bs "call_1"; bs "call_2"] (tcs calls') j tc tc'.
Proof.
  eexists. split; [vm_compute; reflexivity|].
  eapply (minted_ids_are_new demo (Calls [Call None (Some (bs "f")) None] None None)
    [bs "call_1"; bs "call_2"]); [|vm_compute; reflexivity].
  intros H. repeat (apply elem_of_cons in H as [H|H]; [discriminate H|]).
  by apply elem_of_nil in H.
Defined.

Example reclaim_spares_protected_witness :
  ∃ freed skipped,
    cont_registry_reclaim_unprotected (λ _, None) demo (F64.of_Z 20) (λ _, 5) =
      Some (freed, skipped) ∧ freed = (if skipped then 0 else 5).
Proof.
  destruct (reclaim_spares_protected (λ _, None) demo [1%positive] (F64.of_Z 20) (λ _, 5)
    demo_reachable) as (freed & skipped & H1 & _ & H2).
  exists freed, skipped. split; [exact H1|exact H2].
Defined.
