(* ===== verification/ToolMap.v ===== *)
(** * The tool map of a checkpoint (kv_tool_map_* in ds4_server.c)

    A KV checkpoint carries, behind its payload, the remembered texts of the tool
    calls that its conversation text holds, so that a restarted server can replay
    them.  The text is scanned for tool blocks in every native spelling; each
    remembered block found is written once, with all its ids.  The last block may
    be cut, and is found by its longest matching tail. *)

From S2P Require Import Prelude Float64 Bytes Json Text Stream Route DList ToolText ToolMem.
From S2P Require Import ContRegistry ToolReplay.

(** ** Native spellings *)

(** struct kv_tool_block_form *)
Record block_form := Form {
  form_start : list Z;
  form_end : list Z;
  form_repeat : option (list Z) }.

Definition NL2 : list Z := [10; 10].

Definition kv_tool_block_forms : list block_form :=
  [Form (NL2 ++ TOOL_CALLS_START) TOOL_CALLS_END None;
   Form TOOL_CALLS_START TOOL_CALLS_END None;
   Form (NL2 ++ TOOL_CALLS_START_SHORT) TOOL_CALLS_END_SHORT None;
   Form TOOL_CALLS_START_SHORT TOOL_CALLS_END_SHORT None;
   Form (NL2 ++ bs "<tool_calls>") (bs "</tool_calls>") None;
   Form (bs "<tool_calls>") (bs "</tool_calls>") None;
   Form SOLAR_TOOL_CALL_START SOLAR_TOOL_CALL_END (Some SOLAR_TOOL_CALL_START);
   Form ([10] ++ bs "<tool_call>") (bs "</tool_call>") (Some (bs "<tool_call>"));
   Form (bs "<tool_call>") (bs "</tool_call>") (Some (bs "<tool_call>"))].

(** The best start so far, the offset behind its end marker, and its form. *)
Record found := Found { f_start : Z; f_end : Z; f_form : block_form }.

(** The loop over the forms: an earlier start wins, the first form on a tie, and a
    start without an end marker behind it does not count. *)
Fixpoint best_form (forms : list block_form) (p : list Z) (best : option found) : option found :=
  match forms with
  | [] => best
  | f :: t =>
      match strstr p (form_start f) with
      | None => best_form t p best
      | Some s =>
          if (match best with Some b => f_start b <=? s | None => false end) then best_form t p best
          else match strstr (zdrop s p) (form_end f) with
               | None => best_form t p best
               | Some e => best_form t p (Some (Found s (s + e + blen (form_end f)) f))
               end
      end
  end.

(** The adjacent calls of one turn: [fin] is the offset behind the last call so
    far. *)
Fixpoint repeat_loop (fuel : nat) (p rs re : list Z) (fin : Z) : option Z :=
  match fuel with
  | O => None
  | S fuel =>
      let next := ws (zdrop fin p) in
      let at_ := blen p - blen next in
      if starts_with next rs then
        match strstr (zdrop (blen rs) next) re with
        | None => Some fin
        | Some e => repeat_loop fuel p rs re (at_ + blen rs + e + blen re)
        end
      else Some fin
  end.

(** find_next_dsml_tool_block: the offsets of the block and of what follows it. *)
Definition find_next_dsml_tool_block (p : list Z) : option (option (Z * Z)) :=
  match best_form kv_tool_block_forms p None with
  | None => Some None
  | Some b =>
      match form_repeat (f_form b) with
      | None => Some (Some (f_start b, f_end b))
      | Some rs => fin ← repeat_loop (S (length p)) p rs (form_end (f_form b)) (f_end b);
                   Some (Some (f_start b, fin))
      end
  end.

(** ** The tail of the text *)

(** The occurrences of the marker in the text, from offset [tm] on. *)
Fixpoint text_marks (fuel : nat) (text dsml marker : list Z) (block_marker tm best : Z)
    : option Z :=
  match fuel with
  | O => None
  | S fuel =>
      match strstr (zdrop tm text) marker with
      | None => Some best
      | Some d =>
          let text_marker := tm + d in
          let candidate := text_marker - block_marker in
          let suffix_len := blen text - candidate in
          let best' :=
            if (block_marker <=? text_marker) && (suffix_len <=? blen dsml) &&
               (block_marker + blen marker <=? suffix_len) &&
               bool_decide (zdrop candidate text = ztake suffix_len dsml) &&
               (best <? suffix_len)
            then suffix_len else best in
          text_marks fuel text dsml marker block_marker (text_marker + 1) best'
      end
  end.

(** The occurrences of the marker in the block, from offset [bm] on. *)
Fixpoint block_marks (fuel : nat) (text dsml marker : list Z) (bm best : Z) : option Z :=
  match fuel with
  | O => None
  | S fuel =>
      match strstr (zdrop bm dsml) marker with
      | None => Some best
      | Some d =>
          let block_marker := bm + d in
          let text_len := blen text in
          let min_candidate := if blen dsml <? text_len then text_len - blen dsml else 0 in
          best' ← (if (block_marker <=? text_len - min_candidate) &&
                      (min_candidate + block_marker <=? text_len)
                   then text_marks (S (length text)) text dsml marker block_marker
                          (min_candidate + block_marker) best
                   else Some best);
          block_marks fuel text dsml marker (block_marker + 1) best'
      end
  end.

Fixpoint tail_forms (forms : list block_form) (text dsml : list Z) (best : Z) : option Z :=
  match forms with
  | [] => Some best
  | f :: t => best' ← block_marks (S (length dsml)) text dsml (form_start f) 0 best;
              tail_forms t text dsml best'
  end.

(** kv_tool_map_tail_prefix_len: how much of the block's beginning ends the text. *)
Definition kv_tool_map_tail_prefix_len (text : list Z) (k : tool_memory_block) : option Z :=
  if (blen text =? 0) || (b_len k =? 0) then Some 0
  else tail_forms kv_tool_block_forms text (b_dsml k) 0.

(** The walk of kv_tool_map_tail_block_locked. *)
Record tail_best := Tail { t_best : option ptr; t_len : Z; t_ambiguous : bool }.

Fixpoint tail_walk (fuel : nat) (m : tool_memory) (text : list Z) (scan : Z)
    (cur : option ptr) (a : tail_best) : option tail_best :=
  match cur, fuel with
  | None, _ => Some a
  | Some _, O => None
  | Some p, S f =>
      e ← ehp m !! p;
      l ← fields (lru m) !! p;
      a' ← (match e_block e with
            | None => Some a
            | Some b =>
                k ← bhp m !! b;
                if (b_seen k =? scan) || bool_decide (t_best a = Some b) then Some a else
                n ← kv_tool_map_tail_prefix_len text k;
                Some (if t_len a <? n then Tail (Some b) n false
                      else if negb (n =? 0) && (n =? t_len a)
                           then Tail (t_best a) (t_len a) true else a)
            end);
      tail_walk f m text scan (next l) a'
  end.

(** kv_tool_map_tail_block_locked: two blocks that match equally far are none. *)
Definition kv_tool_map_tail_block_locked (m : tool_memory) (text : list Z) (scan : Z)
    : option (option ptr) :=
  a ← tail_walk (size (ehp m)) m text scan (head (lru m)) (Tail None 0 false);
  Some (if t_ambiguous a then None else t_best a).

(** ** Visiting the remembered blocks of a text *)

Definition mark_seen (m : tool_memory) (b : ptr) (k : tool_memory_block) (scan : Z)
    : tool_memory :=
  with_blocks m (by_block m)
    (<[b := Block (b_dsml k) (b_len k) (b_bytes k) (b_refs k) scan (b_entries k)]> (bhp m))
    (bytes m).

Definition with_scan (m : tool_memory) : tool_memory :=
  TM (by_id m) (by_block m) (ehp m) (bhp m) (lru m) (entries m) (max_entries m) (bytes m)
     (max_bytes m) (clock m) (u64 (scan_clock m + 1)) (srv m).

Section visit.
(** What is done with a block that is seen for the first time in this scan; an
    inner [None] gives the scan up. *)
Context {A : Type} (visit : tool_memory → tool_memory_block → A → option (option A)).

Definition visit_block (m : tool_memory) (b : ptr) (scan : Z) (a : A)
    : option (tool_memory * option A) :=
  k ← bhp m !! b;
  if b_seen k =? scan then Some (m, Some a)
  else
    let m1 := mark_seen m b k scan in
    r ← visit m1 k a;
    Some (m1, r).

(** The loop over the blocks of the text that kv_tool_map_measure_locked and
    kv_tool_map_write share. *)
Fixpoint scan_blocks (fuel : nat) (m : tool_memory) (p : list Z) (scan : Z) (a : A)
    : option (tool_memory * option A) :=
  match fuel with
  | O => None
  | S fuel =>
      x ← find_next_dsml_tool_block p;
      match x with
      | None => Some (m, Some a)
      | Some (st, fin) =>
          r ← (match tool_memory_find_block_locked m (ztake (fin - st) (zdrop st p)) with
               | None => Some (m, Some a)
               | Some b => visit_block m b scan a
               end);
          match r with
          | (m1, None) => Some (m1, None)
          | (m1, Some a1) => scan_blocks fuel m1 (zdrop fin p) scan a1
          end
      end
  end.

(** The block the text's tail begins, after the others. *)
Definition scan_tail (m : tool_memory) (text : list Z) (scan : Z) (a : A)
    : option (tool_memory * option A) :=
  t ← kv_tool_map_tail_block_locked m text scan;
  match t with
  | None => Some (m, Some a)
  | Some b => visit_block m b scan a
  end.

(** A whole scan, under the next scan number. *)
Definition scan_text (m : tool_memory) (text : list Z) (a : A)
    : option (tool_memory * option A) :=
  let m0 := with_scan m in
  let scan := scan_clock m0 in
  r ← scan_blocks (S (length text)) m0 text scan a;
  match r with
  | (m1, None) => Some (m1, None)
  | (m1, Some a1) => scan_tail m1 text scan a1
  end.
End visit.

(** ** Measuring and writing *)

Definition KV_TOOL_MAP_HEADER : Z := 8.

(** The entries of a block add 8 bytes and their id and text each; too long ones
    are left out, and an overflow gives up. *)
Fixpoint measure_entries (m : tool_memory) (k : tool_memory_block) (l : list ptr) (c : Z * Z)
    : option (option (Z * Z)) :=
  match l with
  | [] => Some (Some c)
  | p :: t =>
      e ← ehp m !! p;
      let id_len := blen (e_id e) in
      let dsml_len := b_len k in
      let '(count, total) := c in
      if (UINT32_MAX <? id_len) || (UINT32_MAX <? dsml_len) then measure_entries m k t c
      else if count =? UINT32_MAX then Some None
      else if (UINT64_MAX - total <? 8) || (UINT64_MAX - total - 8 <? id_len) ||
              (UINT64_MAX - total - 8 - id_len <? dsml_len) then Some None
      else measure_entries m k t (count + 1, total + (8 + id_len + dsml_len))
  end.

Definition visit_measure (m : tool_memory) (k : tool_memory_block) (c : Z * Z) :=
  measure_entries m k (b_entries k) c.

(** kv_tool_map_measure_locked: the memory with its scan marks, and the number of
    records and the bytes they take, unless it gave up. *)
Definition kv_tool_map_measure_locked (m : tool_memory) (text : list Z)
    : option (tool_memory * option (Z * Z)) :=
  x ← scan_text visit_measure m text (0, KV_TOOL_MAP_HEADER);
  Some (fst x, match snd x with
               | None => None
               | Some (count, total) => Some (count, if count =? 0 then 0 else total)
               end).

(** kv_tool_map_serialized_size; an inner [None] is false. *)
Definition kv_tool_map_serialized_size (s : server) (text : list Z)
    : option (server * option Z) :=
  if disable_exact_dsml_tool_replay s || (blen text =? 0) then Some (s, Some 0)
  else
    x ← kv_tool_map_measure_locked (tool_mem s) text;
    Some (with_mem s (fst x), option_map snd (snd x)).

(** One record of the map. *)
Definition map_record (id text : list Z) : list Z :=
  Le.put32 (blen id) ++ Le.put32 (blen text) ++ id ++ text.

Fixpoint write_entries (m : tool_memory) (k : tool_memory_block) (l : list ptr) (out : list Z)
    : option (option (list Z)) :=
  match l with
  | [] => Some (Some out)
  | p :: t =>
      e ← ehp m !! p;
      if (UINT32_MAX <? blen (e_id e)) || (UINT32_MAX <? b_len k) then write_entries m k t out
      else write_entries m k t (out ++ map_record (e_id e) (b_dsml k))
  end.

Definition visit_write (m : tool_memory) (k : tool_memory_block) (out : list Z) :=
  write_entries m k (b_entries k) out.

Definition map_header (count : Z) : list Z := [ch "K"; ch "T"; ch "M"; 1] ++ Le.put32 count.

(** kv_tool_map_write: the bytes handed to the file and the number reported; an inner
    [None] is false. *)
Definition kv_tool_map_write (s : server) (text : list Z)
    : option (server * option (list Z * Z)) :=
  if disable_exact_dsml_tool_replay s || (blen text =? 0) then Some (s, Some ([], 0))
  else
    x ← kv_tool_map_measure_locked (tool_mem s) text;
    match x with
    | (m1, None) => Some (with_mem s m1, None)
    | (m1, Some (count, total)) =>
        if count =? 0 then Some (with_mem s m1, Some ([], 0))
        else
          y ← scan_text visit_write m1 text (map_header count);
          Some (with_mem s (fst y), option_map (fun out => (out, total)) (snd y))
    end.

(** ** Loading *)

Section load.
Context `{Malloc}.

(** The loop over the records of the file; [None] is a dereference of freed memory. *)
Fixpoint load_loop (n : nat) (s : server) (fp : list Z) (wanted : option stop_list) (loaded : Z)
    : option (server * Z) :=
  match n with
  | O => Some (s, loaded)
  | S n =>
      if blen fp <? 8 then Some (s, loaded) else
      let id_len := Le.get32 fp 0 in
      let dsml_len := Le.get32 fp 4 in
      if (id_len =? 0) || (256 <? id_len) || (dsml_len =? 0) ||
         (DS4_TOOL_MEMORY_MAX_BYTES <? dsml_len) then Some (s, loaded) else
      let body := zdrop 8 fp in
      if blen body <? id_len + dsml_len then Some (s, loaded) else
      let id := c_str (ztake id_len body) in
      let text := c_str (ztake dsml_len (zdrop id_len body)) in
      if (match wanted with None => true | Some ids => id_list_contains ids (Some id) end) then
        s1 ← tool_memory_put_source s (Some id) (Some text) TOOL_MEMORY_DISK;
        load_loop n s1 (zdrop (id_len + dsml_len) body) wanted (loaded + 1)
      else load_loop n s (zdrop (id_len + dsml_len) body) wanted loaded
  end.

(** kv_tool_map_load_from_pos *)
Definition kv_tool_map_load_from_pos (s : server) (fp : list Z) (wanted : option stop_list)
    : option (server * Z) :=
  if disable_exact_dsml_tool_replay s then Some (s, 0)
  else if blen fp <? KV_TOOL_MAP_HEADER then Some (s, 0)
  else if negb (bool_decide (ztake 4 fp = [ch "K"; ch "T"; ch "M"; 1])) then Some (s, 0)
  else
    let count := Le.get32 fp 4 in
    if tool_memory_max_entries (tool_mem s) * 4 <? count then Some (s, 0)
    else load_loop (Z.to_nat count) s (zdrop 8 fp) wanted 0.
End load.
