(* ===== verification/ToolMapSpec.v ===== *)
(** * What the tool map of a checkpoint holds

    The scans end; measuring and writing visit the same blocks, so the announced
    size is the number of bytes written; loading what was written gives every id of
    a block in the text its text back. *)

From S2P Require Import Prelude Float64 Bytes Json Text Stream Route DList ToolText ToolMem.
From S2P Require Import ContRegistry ContInv ContOps ToolReplay ToolTotal ToolMap.

(** ** The scans end *)

Lemma strstr_room p t i : strstr p t = Some i → 0 <= i ∧ i + blen t <= blen p.
Proof. intros [? ?]%strstr_length. unfold blen. lia. Qed.

Lemma zdrop_room {A} n (l : list A) : 0 <= n → blen (zdrop n l) = Z.max 0 (blen l - n).
Proof.
  intros Hn. destruct (Z.le_gt_cases n (blen l)) as [H|H].
  - rewrite blen_zdrop; lia.
  - rewrite zdrop_ge by lia. rewrite blen_nil. lia.
Qed.

Lemma starts_room h n : starts_with h n = true → blen n <= blen h.
Proof. intros [b ->]%starts_with_spec. rewrite blen_app. pose proof (blen_nonneg b). lia. Qed.

Lemma ws_room p : blen (ws p) <= blen p.
Proof. unfold blen. pose proof (ws_length p). lia. Qed.

Lemma repeat_loop_total fuel p rs re fin :
  rs ≠ [] → 0 <= fin <= blen p → blen p - fin < Z.of_nat fuel →
  ∃ fin', repeat_loop fuel p rs re fin = Some fin' ∧ fin <= fin' <= blen p.
Proof.
  intros Hrs. revert fin. induction fuel as [|f IH]; intros fin Hfin Hf; [lia|]. simpl.
  pose proof (ws_room (zdrop fin p)) as Hw. rewrite zdrop_room in Hw by lia.
  destruct (starts_with _ rs) eqn:Hs; [|exists fin; split; [done|lia]].
  apply starts_room in Hs as Hr. set (next := ws (zdrop fin p)) in *.
  destruct (strstr _ re) as [e|] eqn:He; [|exists fin; split; [done|lia]].
  apply strstr_room in He as [He0 He]. pose proof (blen_nonneg rs). rewrite zdrop_room in He by done.
  pose proof (blen_nonneg re).
  assert (0 < blen rs) by (destruct rs; [done|rewrite blen_cons; pose proof (blen_nonneg rs); lia]).
  destruct (IH (blen p - blen next + blen rs + e + blen re)) as (fin' & -> & ?); [lia..|].
  exists fin'. split; [done|lia].
Qed.

(** Every form has an end marker, and a repeated start that is not empty. *)
Definition form_ok (f : block_form) : Prop := 0 < blen (form_end f) ∧ form_repeat f ≠ Some [].

Lemma forms_ok : Forall form_ok kv_tool_block_forms.
Proof. by repeat constructor. Qed.

Definition found_ok (p : list Z) (b : found) : Prop :=
  0 <= f_start b < f_end b ∧ f_end b <= blen p ∧ form_ok (f_form b).

Lemma best_form_ok forms p best :
  Forall form_ok forms → (∀ b, best = Some b → found_ok p b) →
  ∀ b, best_form forms p best = Some b → found_ok p b.
Proof.
  intros Hf. revert best. induction Hf as [|f t Hfo Hf IH]; intros best Hb; simpl; [done|].
  destruct (strstr p (form_start f)) as [s|] eqn:Hs; [|by apply IH].
  destruct (match best with Some b => _ | None => _ end); [by apply IH|].
  destruct (strstr (zdrop s p) _) as [e|] eqn:He; [|by apply IH].
  apply IH. intros b [= <-]. apply strstr_room in Hs as [Hs0 Hs]. apply strstr_room in He as [He0 He].
  rewrite zdrop_room in He by done. destruct Hfo as [Hfo ?]. pose proof (blen_nonneg (form_start f)).
  by repeat split; simpl; try lia.
Qed.

Lemma find_block_total p :
  ∃ r, find_next_dsml_tool_block p = Some r ∧
    ∀ st fin, r = Some (st, fin) → 0 <= st < fin ∧ fin <= blen p.
Proof.
  unfold find_next_dsml_tool_block. destruct (best_form _ _ _) as [b|] eqn:Hb; [|by eexists].
  apply best_form_ok in Hb as (Hs & He & Hf & Hr); [|apply forms_ok|done].
  destruct (form_repeat _) as [rs|] eqn:Hrs.
  - destruct (repeat_loop_total (S (length p)) p rs (form_end (f_form b)) (f_end b))
      as (fin & -> & ?); [congruence|lia|unfold blen; lia|].
    simpl. eexists. split; [done|]. intros ? ? [= <- <-]. lia.
  - eexists. split; [done|]. intros ? ? [= <- <-]. lia.
Qed.

Lemma text_marks_total fuel text dsml marker bm tm best :
  marker ≠ [] → 0 <= tm <= blen text → blen text - tm < Z.of_nat fuel →
  ∃ n, text_marks fuel text dsml marker bm tm best = Some n.
Proof.
  intros Hm. assert (0 < blen marker)
    by (destruct marker; [done|rewrite blen_cons; pose proof (blen_nonneg marker); lia]).
  revert tm best. induction fuel as [|f IH]; intros tm best Ht Hf; simpl; [lia|].
  destruct (strstr _ marker) as [d|] eqn:Hd; [|by eexists].
  apply strstr_room in Hd as [? Hd]. rewrite zdrop_room in Hd by lia. apply IH; lia.
Qed.

Lemma block_marks_total fuel text dsml marker bm best :
  marker ≠ [] → 0 <= bm <= blen dsml → blen dsml - bm < Z.of_nat fuel →
  ∃ n, block_marks fuel text dsml marker bm best = Some n.
Proof.
  intros Hm. assert (0 < blen marker)
    by (destruct marker; [done|rewrite blen_cons; pose proof (blen_nonneg marker); lia]).
  revert bm best. induction fuel as [|f IH]; intros bm best Ht Hf; simpl; [lia|].
  destruct (strstr _ marker) as [d|] eqn:Hd; [|by eexists].
  apply strstr_room in Hd as [? Hd]. rewrite zdrop_room in Hd by lia.
  set (mc := if _ <? _ then _ else _). assert (0 <= mc) by (unfold mc; case_match; lia).
  destruct (_ && _) eqn:Hg; simpl; [|apply IH; lia].
  destruct (text_marks_total (S (length text)) text dsml marker (bm + d) (mc + (bm + d)) best)
    as [n Hn]; [done|lia|unfold blen; lia|].
  simpl in Hn. rewrite Hn. simpl. apply IH; lia.
Qed.

Lemma starts_nonempty : Forall (λ f, form_start f ≠ []) kv_tool_block_forms.
Proof. by repeat constructor. Qed.

Lemma tail_forms_total forms text dsml best :
  Forall (λ f, form_start f ≠ []) forms → ∃ n, tail_forms forms text dsml best = Some n.
Proof.
  intros Hf. revert best. induction Hf as [|f t Hs _ IH]; intros best; [by eexists|]. cbn [tail_forms].
  destruct (block_marks_total (S (length dsml)) text dsml (form_start f) 0 best)
    as [n ->]; [done|unfold blen; lia|unfold blen; lia|]. apply IH.
Qed.

Lemma tail_prefix_total text k : ∃ n, kv_tool_map_tail_prefix_len text k = Some n.
Proof.
  unfold kv_tool_map_tail_prefix_len. case_match; [by eexists|]. apply tail_forms_total, starts_nonempty.
Qed.

(** ** Scans that differ only in their marks *)

Definition same_block (k1 k2 : tool_memory_block) : Prop :=
  b_dsml k1 = b_dsml k2 ∧ b_len k1 = b_len k2 ∧ b_entries k1 = b_entries k2 ∧
  b_len k1 = blen (b_dsml k1).

(** [m2] has every block of [m1], with a mark of [b] where that of [m1] is [a]. *)
Record like (a b : Z) (m1 m2 : tool_memory) : Prop := {
  lk_entries : ehp m1 = ehp m2;
  lk_list : lru m1 = lru m2;
  lk_index : by_block m1 = by_block m2;
  lk_block : ∀ x k1, bhp m1 !! x = Some k1 →
    ∃ k2, bhp m2 !! x = Some k2 ∧ same_block k1 k2 ∧ (b_seen k1 =? a) = (b_seen k2 =? b) }.

Lemma like_self L m a : mem_ok m L → like a a m m.
Proof.
  intros Hm. split; [done..|]. intros b k Hk. exists k. split; [done|]. split; [|done].
  split_and!; try done. apply (block_len _ _ _ (mem_block _ _ Hm _ _ Hk)).
Qed.

Lemma like_mark a b m1 m2 x k1 k2 :
  like a b m1 m2 → same_block k1 k2 → like a b (mark_seen m1 x k1 a) (mark_seen m2 x k2 b).
Proof.
  intros [A B C D] (E1 & E2 & E3 & E4). split; [done..|]. simpl. intros y k.
  intros [[<- <-]|[Hy Hk]]%lookup_insert_Some.
  - rewrite lookup_insert_eq. eexists. split; [done|]. split; [done|]. simpl. lia.
  - rewrite lookup_insert_ne by done. by apply D.
Qed.

Lemma tail_prefix_same text k1 k2 :
  same_block k1 k2 → kv_tool_map_tail_prefix_len text k1 = kv_tool_map_tail_prefix_len text k2.
Proof. intros (E1 & E2 & _ & _). unfold kv_tool_map_tail_prefix_len. by rewrite E1, E2. Qed.

Lemma tail_walk_like a b m1 m2 fuel text cur t r :
  like a b m1 m2 → tail_walk fuel m1 text a cur t = Some r → tail_walk fuel m2 text b cur t = Some r.
Proof.
  intros Hl. revert cur t. induction fuel as [|f IH]; intros [p|] t; simpl; try done.
  rewrite <- (lk_entries _ _ _ _ Hl), <- (lk_list _ _ _ _ Hl).
  destruct (ehp m1 !! p) as [e|]; simpl; [|done]. destruct (fields _ !! p) as [l|]; simpl; [|done].
  destruct (e_block e) as [x|]; simpl; [|apply IH].
  destruct (bhp m1 !! x) as [k1|] eqn:Hk; simpl; [|done].
  destruct (lk_block _ _ _ _ Hl _ _ Hk) as (k2 & -> & Hs & ->). simpl.
  rewrite (tail_prefix_same _ _ _ Hs). destruct (_ || _); simpl; [apply IH|].
  destruct (kv_tool_map_tail_prefix_len text k2); simpl; [|done]. apply IH.
Qed.

Section sim.
Context {A B : Type}.
Context (v1 : tool_memory → tool_memory_block → A → option (option A)).
Context (v2 : tool_memory → tool_memory_block → B → option (option B)).
Context (Q : A → B → Prop).

(** Where the first visit goes on, so does the second, with related results. *)
Definition follows : Prop :=
  ∀ m1 m2 k1 k2 a b a', ehp m1 = ehp m2 → same_block k1 k2 → Q a b →
    v1 m1 k1 a = Some (Some a') → ∃ b', v2 m2 k2 b = Some (Some b') ∧ Q a' b'.

Context (Hv : follows).

Lemma visit_like x y m1 m2 p a b m1' a' :
  like x y m1 m2 → Q a b → visit_block v1 m1 p x a = Some (m1', Some a') →
  ∃ m2' b', visit_block v2 m2 p y b = Some (m2', Some b') ∧ like x y m1' m2' ∧ Q a' b'.
Proof.
  intros Hl HQ. unfold visit_block. destruct (bhp m1 !! p) as [k1|] eqn:Hk; simpl; [|done].
  destruct (lk_block _ _ _ _ Hl _ _ Hk) as (k2 & -> & Hs & Hseen). simpl. rewrite Hseen.
  destruct (b_seen k2 =? y); [intros [= <- <-]; by exists m2, b|].
  destruct (v1 _ k1 a) as [[a1|]|] eqn:H1; simpl; [|done..]. intros [= <- <-].
  destruct (Hv (mark_seen m1 p k1 x) (mark_seen m2 p k2 y) _ k2 _ b _ (lk_entries _ _ _ _ Hl) Hs HQ H1) as (b1 & -> & HQ1).
  simpl. exists (mark_seen m2 p k2 y), b1. split; [done|]. split; [by apply like_mark|done].
Qed.

Lemma scan_blocks_like x y fuel m1 m2 p a b m1' a' :
  like x y m1 m2 → Q a b → scan_blocks v1 fuel m1 p x a = Some (m1', Some a') →
  ∃ m2' b', scan_blocks v2 fuel m2 p y b = Some (m2', Some b') ∧ like x y m1' m2' ∧ Q a' b'.
Proof.
  revert m1 m2 p a b. induction fuel as [|f IH]; intros m1 m2 p a b Hl HQ; cbn [scan_blocks]; [done|].
  destruct (find_next_dsml_tool_block p) as [[[st fin]|]|]; simpl; [|intros [= <- <-]; by exists m2, b|done].
  unfold tool_memory_find_block_locked. rewrite <- (lk_index _ _ _ _ Hl).
  destruct (if _ =? _ then None else _) as [q|]; simpl; [|by apply IH].
  destruct (visit_block v1 m1 q x a) as [[m3 [a3|]]|] eqn:H1; simpl; [|done..].
  destruct (visit_like _ _ _ _ _ _ _ _ _ Hl HQ H1) as (m4 & b4 & -> & Hl4 & HQ4). simpl. by apply IH.
Qed.

Lemma scan_tail_like x y m1 m2 text a b m1' a' :
  like x y m1 m2 → Q a b → scan_tail v1 m1 text x a = Some (m1', Some a') →
  ∃ m2' b', scan_tail v2 m2 text y b = Some (m2', Some b') ∧ like x y m1' m2' ∧ Q a' b'.
Proof.
  intros Hl HQ. unfold scan_tail, kv_tool_map_tail_block_locked.
  rewrite <- (lk_entries _ _ _ _ Hl), <- (lk_list _ _ _ _ Hl).
  destruct (tail_walk _ m1 text x _ _) as [t|] eqn:Ht; simpl; [|done].
  rewrite (tail_walk_like _ _ _ _ _ _ _ _ _ Hl Ht). simpl.
  destruct (t_ambiguous t); [intros [= <- <-]; by exists m2, b|].
  destruct (t_best t); [by apply visit_like|]. intros [= <- <-]. by exists m2, b.
Qed.

Lemma scan_text_like m1 m2 text a b m1' a' :
  like (scan_clock (with_scan m1)) (scan_clock (with_scan m2)) (with_scan m1) (with_scan m2) →
  Q a b → scan_text v1 m1 text a = Some (m1', Some a') →
  ∃ m2' b', scan_text v2 m2 text b = Some (m2', Some b') ∧ Q a' b'.
Proof.
  intros Hl HQ. unfold scan_text. cbv zeta.
  destruct (scan_blocks v1 _ _ _ _ a) as [[m3 [a3|]]|] eqn:H1; cbn [mbind option_bind]; [|done..].
  destruct (scan_blocks_like _ _ _ _ _ _ _ _ _ _ Hl HQ H1) as (m4 & b4 & -> & Hl4 & HQ4).
  cbn [mbind option_bind]. intros H2. destruct (scan_tail_like _ _ _ _ _ _ _ _ _ Hl4 HQ4 H2) as (m5 & b5 & -> & _ & ?).
  by exists m5, b5.
Qed.
End sim.

(** ** What a scan leaves alone *)

Section keeps.
Context {A : Type} (v : tool_memory → tool_memory_block → A → option (option A)).
Context (P : tool_memory → Prop) (scan : Z).
Context (HP : ∀ m b k, P m → bhp m !! b = Some k → P (mark_seen m b k scan)).

Lemma visit_keeps m b a m' o : P m → visit_block v m b scan a = Some (m', o) → P m'.
Proof.
  intros Hm. unfold visit_block. destruct (bhp m !! b) as [k|] eqn:Hk; simpl; [|done].
  destruct (b_seen k =? scan); [by intros [= <- _]|].
  destruct (v _ k a) as [r|]; simpl; [|done]. intros [= <- _]. by apply HP.
Qed.

Lemma scan_blocks_keeps fuel m p a m' o : P m → scan_blocks v fuel m p scan a = Some (m', o) → P m'.
Proof.
  revert m p a. induction fuel as [|f IH]; intros m p a Hm; cbn [scan_blocks]; [done|].
  destruct (find_next_dsml_tool_block p) as [[[st fin]|]|]; simpl; [|by intros [= <- _]|done].
  destruct (tool_memory_find_block_locked m _) as [b|]; simpl; [|by apply IH].
  destruct (visit_block v m b scan a) as [[m1 [a1|]]|] eqn:H1; simpl; [| |done];
    pose proof (visit_keeps _ _ _ _ _ Hm H1); [by apply IH|by intros [= <- _]].
Qed.

Lemma scan_tail_keeps m text a m' o : P m → scan_tail v m text scan a = Some (m', o) → P m'.
Proof.
  intros Hm. unfold scan_tail. destruct (kv_tool_map_tail_block_locked m text scan) as [[b|]|]; simpl.
  - by apply visit_keeps.
  - by intros [= <- _].
  - done.
Qed.
End keeps.

Lemma scan_keeps {A} (v : tool_memory → tool_memory_block → A → option (option A)) (P : tool_memory → Prop) m text a m' o :
  (∀ m1 b k, P m1 → bhp m1 !! b = Some k → P (mark_seen m1 b k (u64 (scan_clock m + 1)))) →
  P (with_scan m) → scan_text v m text a = Some (m', o) → P m'.
Proof.
  intros HP Hm. unfold scan_text. cbv zeta. change (scan_clock (with_scan m)) with (u64 (scan_clock m + 1)).
  destruct (scan_blocks v _ _ _ _ a) as [[m3 [a3|]]|] eqn:H1; cbn [mbind option_bind]; [| |done];
    pose proof (scan_blocks_keeps _ _ _ HP _ _ _ _ _ _ Hm H1) as H3; [|by intros [= <- _]].
  by apply (scan_tail_keeps v P).
Qed.

(** No mark is ahead of the scan number. *)
Record marks_ok (m : tool_memory) : Prop := {
  mk_clock : fits 64 (scan_clock m);
  mk_seen : ∀ b k, bhp m !! b = Some k → b_seen k <= scan_clock m }.

Definition blocks_same (m m' : tool_memory) : Prop :=
  ∀ b k, bhp m !! b = Some k → ∃ k', bhp m' !! b = Some k' ∧ same_block k k'.

(** [m'] is [m] with other marks, under scan number [c]. *)
Record rescanned (c : Z) (m m' : tool_memory) : Prop := {
  rs_clock : scan_clock m' = c;
  rs_marks : marks_ok m';
  rs_ids : by_id m' = by_id m;
  rs_entries : ehp m' = ehp m;
  rs_list : lru m' = lru m;
  rs_index : by_block m' = by_block m;
  rs_block : blocks_same m m';
  rs_back : ∀ b, is_Some (bhp m' !! b) → is_Some (bhp m !! b) }.

Lemma mem_ok_mark m L b k scan :
  mem_ok m L → bhp m !! b = Some k → mem_ok (mark_seen m b k scan) L.
Proof.
  intros Hm Hk. pose proof (mem_block _ _ Hm _ _ Hk) as [K1 K2 K3 K4 K5 K6 K7].
  split; simpl; try apply Hm.
  - intros t x. rewrite (mem_texts _ _ Hm). split.
    + intros (k' & Hk' & Ht). destruct (decide (b = x)) as [<-|Hn].
      * rewrite lookup_insert_eq. eexists. split; [done|]. simpl. congruence.
      * rewrite lookup_insert_ne by done. by exists k'.
    + intros (k' & [[<- <-]|[Hn Hk']]%lookup_insert_Some & Ht); [by exists k|by exists k'].
  - intros p e He. destruct (mem_entry _ _ Hm _ _ He) as [E1 E2 (x & kx & Hx & Hkx & Hin)].
    split; [done..|]. exists x. simpl. destruct (decide (b = x)) as [<-|Hn].
    + rewrite lookup_insert_eq. eexists. split; [done|]. split; [done|]. simpl. congruence.
    + rewrite lookup_insert_ne by done. by exists kx.
  - intros x k' [[<- <-]|[Hn Hk']]%lookup_insert_Some; [by split|].
    destruct (mem_block _ _ Hm _ _ Hk'). by split.
  - rewrite (mem_bytes _ _ Hm), (msum_update b_bytes (bhp m) b k) by done. simpl. lia.
Qed.

Lemma mem_ok_scan m L : mem_ok m L → mem_ok (with_scan m) L.
Proof.
  intros [A B C D E F G I]. split; try done.
  - intros p e He. by destruct (F p e He).
  - intros b k Hk. by destruct (G b k Hk).
Qed.

Lemma same_block_trans k1 k2 k3 : same_block k1 k2 → same_block k2 k3 → same_block k1 k3.
Proof. intros (?&?&?&?) (?&?&?&?). repeat split; congruence. Qed.

Lemma same_block_sym k1 k2 : same_block k1 k2 → same_block k2 k1.
Proof. intros (?&?&?&?). repeat split; congruence. Qed.

Lemma rescanned_mark c m m1 b k :
  rescanned c m m1 → bhp m1 !! b = Some k → rescanned c m (mark_seen m1 b k c).
Proof.
  intros [A [B1 B2] C D E F G I] Hk. split; try done; simpl.
  - split; [done|]. simpl. intros x kx [[<- <-]|[_ Hx]]%lookup_insert_Some; [simpl; lia|by apply (B2 x)].
  - intros x kx Hx. destruct (G x kx Hx) as (k' & Hk' & Hs). simpl. destruct (decide (b = x)) as [<-|Hn].
    + rewrite lookup_insert_eq. eexists. split; [done|]. apply (same_block_trans _ _ _ Hs).
      assert (k' = k) as -> by congruence. destruct Hs as (?&?&?&?). by repeat split; congruence.
    + rewrite lookup_insert_ne by done. by exists k'.
  - intros x [kx [[<- <-]|[_ Hx]]%lookup_insert_Some]; apply I; eauto.
Qed.

(** Room for [n] more scans before the scan number wraps. *)
Definition scans_left (n : Z) (m : tool_memory) : Prop :=
  marks_ok m ∧ scan_clock m + n <= UINT64_MAX.

Lemma next_scan m n : scans_left n m → 0 < n → u64 (scan_clock m + 1) = scan_clock m + 1.
Proof. intros [[Hc _] Hn] ?. apply wrap_id. unfold fits in *. lia. Qed.

Lemma scan_rescans {A} (v : tool_memory → tool_memory_block → A → option (option A)) m L n text a m' o :
  mem_ok m L → scans_left n m → 0 < n → scan_text v m text a = Some (m', o) →
  rescanned (scan_clock m + 1) m m' ∧ mem_ok m' L ∧ scans_left (n - 1) m'.
Proof.
  intros Hm Hn Hpos Hs. pose proof (next_scan _ _ Hn Hpos) as Hc.
  assert (rescanned (scan_clock m + 1) m m' ∧ mem_ok m' L) as [Hr Hm'].
  { apply (scan_keeps v (λ x, rescanned (scan_clock m + 1) m x ∧ mem_ok x L) m text a m' o); [..|done].
    - intros m1 b k [H1 H2] Hk. rewrite Hc. split; [by apply rescanned_mark|by apply mem_ok_mark].
    - split; [|by apply mem_ok_scan]. destruct Hn as [[Hf Hseen] Hn]. split; try done; simpl.
      + split; simpl; rewrite Hc; [unfold fits in *; lia|].
        intros b k Hk. apply Hseen in Hk. lia.
      + intros b k Hk. exists k. repeat split; [done|]. apply (block_len _ _ _ (mem_block _ _ Hm _ _ Hk)). }
  split; [done|]. split; [done|]. split; [apply Hr|]. rewrite (rs_clock _ _ _ Hr). destruct Hn. lia.
Qed.

(** A later scan of the same memory finds nothing marked. *)
Lemma scans_like m m1 c n n1 :
  rescanned c m m1 → scans_left n m → 0 < n → scans_left n1 m1 → 0 < n1 →
  like (scan_clock (with_scan m)) (scan_clock (with_scan m1)) (with_scan m) (with_scan m1) ∧
  like (scan_clock (with_scan m1)) (scan_clock (with_scan m)) (with_scan m1) (with_scan m).
Proof.
  intros Hr Hn Hp Hn1 Hp1. simpl. rewrite (next_scan _ _ Hn Hp), (next_scan _ _ Hn1 Hp1).
  split; (split; simpl; [(apply Hr || (symmetry; apply Hr))..|]).
  - intros b k Hk. destruct (rs_block _ _ _ Hr _ _ Hk) as (k1 & Hk1 & Hs). exists k1.
    do 2 (split; [done|]). pose proof (mk_seen _ (proj1 Hn) _ _ Hk). pose proof (mk_seen _ (proj1 Hn1) _ _ Hk1).
    lia.
  - intros b k1 Hk1. destruct (rs_back _ _ _ Hr b) as [k Hk]; [eauto|]. exists k. split; [done|].
    destruct (rs_block _ _ _ Hr _ _ Hk) as (k' & Hk' & Hs). replace k' with k1 in Hs by congruence.
    split; [by apply same_block_sym|].
    pose proof (mk_seen _ (proj1 Hn) _ _ Hk). pose proof (mk_seen _ (proj1 Hn1) _ _ Hk1). lia.
Qed.

(** ** Scans of a well-formed memory end *)

Definition entries_there (m : tool_memory) (k : tool_memory_block) : Prop :=
  ∀ p, p ∈ b_entries k → is_Some (ehp m !! p).

Lemma block_there m L b k : mem_ok m L → bhp m !! b = Some k → entries_there m k.
Proof. intros Hm Hk p Hp. destruct (block_entries _ _ _ (mem_block _ _ Hm _ _ Hk) p Hp) as (e & -> & _). eauto. Qed.

Lemma tail_walk_total m text scan fuel L1 L2 t :
  mem_ok m (L1 ++ L2) → (length L2 <= fuel)%nat → (∀ b, t_best t = Some b → is_Some (bhp m !! b)) →
  ∃ t', tail_walk fuel m text scan (first L2 None) t = Some t' ∧
    ∀ b, t_best t' = Some b → is_Some (bhp m !! b).
Proof.
  revert L1 L2 t. induction fuel as [|f IH]; intros L1 [|p L2] t Hm Hf Ht; simpl in *; try by exists t.
  - lia.
  - destruct (proj1 (mem_dom _ _ Hm p)) as [e He]; [apply elem_of_app; right; by left|].
    rewrite He. simpl. rewrite (repr_fields _ _ _ _ (mem_lru _ _ Hm)). simpl.
    assert (∀ t0, (∀ b, t_best t0 = Some b → is_Some (bhp m !! b)) → ∃ t',
      tail_walk f m text scan (first L2 None) t0 = Some t' ∧
      ∀ b, t_best t' = Some b → is_Some (bhp m !! b)) as Hgo.
    { intros t0 Ht0. apply (IH (L1 ++ [p])); [by rewrite <- app_assoc|lia|done]. }
    destruct (entry_block _ _ _ (mem_entry _ _ Hm _ _ He)) as (b & k & -> & Hk & _). rewrite Hk. simpl.
    destruct (_ || _); simpl; [by apply Hgo|].
    destruct (tail_prefix_total text k) as [n ->]. simpl. apply Hgo.
    repeat case_match; simpl; try done. intros ? [= <-]. eauto.
Qed.

Lemma tail_block_total m L text scan :
  mem_ok m L → ∃ r, kv_tool_map_tail_block_locked m text scan = Some r ∧
    ∀ b, r = Some b → is_Some (bhp m !! b).
Proof.
  intros Hm. unfold kv_tool_map_tail_block_locked. destruct (mem_lru _ _ Hm) as (_ & _ & -> & _).
  destruct (tail_walk_total m text scan (size (ehp m)) [] L (Tail None 0 false)) as (t & -> & Ht);
    [done|by rewrite (mem_size _ _ Hm)|done|].
  simpl. eexists. split; [done|]. intros b. case_match; [done|]. apply Ht.
Qed.

Section total.
Context {A : Type} (v : tool_memory → tool_memory_block → A → option (option A)).
Context (Hv : ∀ m k a, entries_there m k → is_Some (v m k a)).

Lemma visit_total m L b scan a :
  mem_ok m L → is_Some (bhp m !! b) → ∃ m' o, visit_block v m b scan a = Some (m', o) ∧ mem_ok m' L.
Proof.
  intros Hm [k Hk]. unfold visit_block. rewrite Hk. simpl.
  destruct (b_seen k =? scan); [by exists m, (Some a)|].
  destruct (Hv (mark_seen m b k scan) k a) as [o ->]; [exact (block_there _ _ _ _ Hm Hk)|].
  simpl. eexists _, _. split; [done|]. by apply mem_ok_mark.
Qed.

Lemma scan_blocks_total fuel m L p scan a :
  mem_ok m L → blen p < Z.of_nat fuel →
  ∃ m' o, scan_blocks v fuel m p scan a = Some (m', o) ∧ mem_ok m' L.
Proof.
  revert m p a. induction fuel as [|f IH]; intros m p a Hm Hf; [pose proof (blen_nonneg p); lia|].
  cbn [scan_blocks]. destruct (find_block_total p) as (r & -> & Hr). simpl.
  destruct r as [[st fin]|]; [|by exists m, (Some a)].
  destruct (Hr st fin eq_refl) as [? ?].
  assert (blen (zdrop fin p) < Z.of_nat f) by (rewrite zdrop_room; lia).
  destruct (tool_memory_find_block_locked m _) as [b|] eqn:Hb; simpl; [|by apply IH].
  assert (is_Some (bhp m !! b)) as Hbs.
  { unfold tool_memory_find_block_locked in Hb. case_match; [done|].
    apply (mem_texts _ _ Hm) in Hb as (k & -> & _). eauto. }
  destruct (visit_total m L b scan a Hm Hbs) as (m1 & [a1|] & -> & Hm1); simpl; [by apply IH|].
  by exists m1, None.
Qed.

Lemma scan_text_total m L text a :
  mem_ok m L → ∃ m' o, scan_text v m text a = Some (m', o) ∧ mem_ok m' L.
Proof.
  intros Hm. unfold scan_text. cbv zeta.
  destruct (scan_blocks_total (S (length text)) (with_scan m) L text (scan_clock (with_scan m)) a)
    as (m1 & [a1|] & -> & Hm1); [by apply mem_ok_scan|unfold blen; lia| |];
    cbn [mbind option_bind]; [|by exists m1, None].
  unfold scan_tail. destruct (tail_block_total m1 L text (scan_clock (with_scan m)) Hm1) as ([b|] & -> & Hb);
    cbn [mbind option_bind]; [|by exists m1, (Some a1)].
  apply visit_total; [done|]. by apply Hb.
Qed.
End total.

(** ** Records *)

Abbreviation record := (list Z * list Z)%type.

(** The record of an id and its text can be written. *)
Definition sizes_fit (r : record) : bool :=
  (blen (fst r) <=? UINT32_MAX) && (blen (snd r) <=? UINT32_MAX).

(** The records of the entries of a block. *)
Fixpoint records (m : tool_memory) (k : tool_memory_block) (l : list ptr) : option (list record) :=
  match l with
  | [] => Some []
  | p :: t => e ← ehp m !! p; rs ← records m k t;
              Some ((if sizes_fit (e_id e, b_dsml k) then [(e_id e, b_dsml k)] else []) ++ rs)
  end.

Definition collect (m : tool_memory) (k : tool_memory_block) (a : list record)
    : option (option (list record)) :=
  rs ← records m k (b_entries k); Some (Some (a ++ rs)).

Definition map_bytes (a : list record) : list Z := flat_map (λ r, map_record (fst r) (snd r)) a.

Lemma map_record_len i t : blen (map_record i t) = 8 + blen i + blen t.
Proof. unfold map_record. rewrite !blen_app. change (blen (Le.put32 _)) with 4. lia. Qed.

Lemma map_bytes_app a b : map_bytes (a ++ b) = map_bytes a ++ map_bytes b.
Proof. unfold map_bytes. by rewrite flat_map_app. Qed.

Lemma map_bytes_one i t : map_bytes [(i, t)] = map_record i t.
Proof. unfold map_bytes. cbn [flat_map fst snd]. apply app_nil_r. Qed.

(** The count and the size that belong to the records. *)
Definition counted (c : Z * Z) (a : list record) : Prop :=
  c = (blen a, KV_TOOL_MAP_HEADER + blen (map_bytes a)) ∧ blen a <= UINT32_MAX.

Definition written (hd : list Z) (a : list record) (out : list Z) : Prop := out = hd ++ map_bytes a.

Lemma too_long i t : (UINT32_MAX <? blen i) || (UINT32_MAX <? blen t) = negb (sizes_fit (i, t)).
Proof. unfold sizes_fit. simpl. lia. Qed.

Lemma measure_counts m k l c a c' :
  b_len k = blen (b_dsml k) → counted c a → measure_entries m k l c = Some (Some c') →
  ∃ rs, records m k l = Some rs ∧ counted c' (a ++ rs).
Proof.
  intros Hk. revert c a. induction l as [|p l IH]; intros c a Hc; cbn [measure_entries records].
  - intros [= <-]. exists []. by rewrite app_nil_r.
  - destruct (ehp m !! p) as [e|] eqn:He; simpl; [|done]. rewrite Hk.
    destruct c as [n b]. rewrite too_long. destruct (sizes_fit _); simpl.
    + destruct (n =? UINT32_MAX) eqn:Hn; [done|]. destruct (_ || _) eqn:Hb; [done|]. intros Hm.
      assert (counted (n + 1, b + (8 + blen (e_id e) + blen (b_dsml k))) (a ++ [(e_id e, b_dsml k)])) as Hc1.
      { destruct Hc as [[= -> ->] Hc]. unfold counted.
        rewrite map_bytes_app, map_bytes_one, !blen_app, map_record_len, blen_cons, blen_nil.
        split; [f_equal; lia|lia]. }
      destruct (IH _ _ Hc1 Hm) as (rs & -> & Hr).
      eexists. split; [done|]. by rewrite <- app_assoc in Hr.
    + intros Hm. destruct (IH _ _ Hc Hm) as (rs & -> & Hr). by exists rs.
Qed.

Lemma write_appends m k l out hd a rs :
  b_len k = blen (b_dsml k) → records m k l = Some rs → written hd a out →
  ∃ out', write_entries m k l out = Some (Some out') ∧ written hd (a ++ rs) out'.
Proof.
  intros Hk. revert out a rs. induction l as [|p l IH]; intros out a rs; cbn [write_entries records].
  - intros [= <-] Ho. exists out. by rewrite app_nil_r.
  - destruct (ehp m !! p) as [e|]; simpl; [|done]. rewrite Hk, too_long.
    destruct (records m k l) as [r|] eqn:Hr; simpl; [|done]. intros [= <-] Ho.
    destruct (sizes_fit _); simpl; [|by apply IH]. rewrite cons_middle, app_assoc. apply IH; [done|].
    unfold written in *. by rewrite Ho, map_bytes_app, map_bytes_one, app_assoc.
Qed.

Lemma records_same m1 m2 k1 k2 l :
  ehp m1 = ehp m2 → same_block k1 k2 → records m1 k1 l = records m2 k2 l.
Proof. intros He (Hd & _). induction l as [|p l IH]; simpl; [done|]. by rewrite He, Hd, IH. Qed.

Lemma measure_same m1 m2 k1 k2 l c :
  ehp m1 = ehp m2 → same_block k1 k2 → measure_entries m1 k1 l c = measure_entries m2 k2 l c.
Proof.
  intros He (_ & Hl & _). revert c. induction l as [|p l IH]; intros c; cbn [measure_entries]; [done|].
  rewrite He, Hl. destruct (ehp m2 !! p); simpl; [|done]. destruct c. repeat case_match; done || apply IH.
Qed.

Lemma measure_follows : follows visit_measure visit_measure eq.
Proof.
  intros m1 m2 k1 k2 a _ a' He Hs <- Hm. exists a'. split; [|done].
  unfold visit_measure in *. destruct Hs as (E1 & E2 & E3 & E4). rewrite <- E3.
  by rewrite <- (measure_same m1 m2 k1 k2).
Qed.

Lemma collect_follows : follows visit_measure collect counted.
Proof.
  intros m1 m2 k1 k2 c a c' He Hs Hc Hm. destruct (measure_counts _ _ _ _ _ _ ltac:(apply Hs) Hc Hm) as (rs & Hr & Hc').
  exists (a ++ rs). split; [|done]. unfold collect. destruct Hs as (E1 & E2 & E3 & E4). rewrite <- E3.
  rewrite <- (records_same m1 m2 k1 k2) by done. by rewrite Hr.
Qed.

Lemma write_follows hd : follows collect visit_write (written hd).
Proof.
  intros m1 m2 k1 k2 a out a' He Hs Ho Hm. unfold collect in Hm.
  destruct (records m1 k1 _) as [rs|] eqn:Hr; simpl in Hm; [|done]. injection Hm as <-.
  destruct Hs as (E1 & E2 & E3 & E4). rewrite (records_same m1 m2 k1 k2) in Hr by done.
  unfold visit_write. rewrite <- E3. apply write_appends; [congruence|done|done].
Qed.

Lemma measure_there m k a : entries_there m k → is_Some (visit_measure m k a).
Proof.
  unfold entries_there, visit_measure. generalize (b_entries k) as l. intros l. revert a.
  induction l as [|p l IH]; intros a Hl; cbn [measure_entries]; [eauto|].
  destruct (Hl p) as [e He]; [by left|]. rewrite He. simpl.
  assert (∀ q, q ∈ l → is_Some (ehp m !! q)) by (intros; apply Hl; by right).
  destruct a. repeat case_match; eauto.
Qed.

(** ** Measuring, then writing *)

Lemma measure_ok m L n text :
  mem_ok m L → scans_left n m → 0 < n →
  ∃ m' r, kv_tool_map_measure_locked m text = Some (m', r) ∧ mem_ok m' L ∧ scans_left (n - 1) m' ∧
    rescanned (scan_clock m + 1) m m' ∧
    (∀ c, r = Some c → ∃ m'' a, scan_text collect m text [] = Some (m'', Some a) ∧
       blen a <= UINT32_MAX ∧
       c = (blen a, if blen a =? 0 then 0 else KV_TOOL_MAP_HEADER + blen (map_bytes a))).
Proof.
  intros Hm Hn Hp. unfold kv_tool_map_measure_locked.
  destruct (scan_text_total visit_measure measure_there m L text (0, KV_TOOL_MAP_HEADER) Hm) as (m' & o & Hs & _).
  destruct (scan_rescans _ _ _ _ _ _ _ _ Hm Hn Hp Hs) as (Hr & Hm' & Hn').
  rewrite Hs. simpl. eexists _, _. split; [done|]. do 3 (split; [done|]).
  intros c Hc. destruct o as [[count total]|]; [|done]. injection Hc as <-.
  destruct (scan_text_like visit_measure collect counted collect_follows m m text
    (0, KV_TOOL_MAP_HEADER) [] m' (count, total)) as (m'' & a & Ha & Hca & Hle); [| |exact Hs|].
  - by apply (like_self L), mem_ok_scan.
  - by split.
  - exists m'', a. by injection Hca as -> ->.
Qed.

(** Measuring again, in a later scan, gives the same answer. *)
Lemma measure_again m m1 L n text r m2 r2 :
  mem_ok m L → scans_left n m → 2 <= n → rescanned (scan_clock m + 1) m m1 →
  kv_tool_map_measure_locked m text = Some (m1, r) →
  kv_tool_map_measure_locked m1 text = Some (m2, r2) → r2 = r.
Proof.
  intros Hm Hn H2 Hr H1 H3.
  destruct (measure_ok _ _ _ text Hm Hn ltac:(lia)) as (m1' & r' & H1' & Hm1 & Hn1 & _).
  assert (m1' = m1) as -> by congruence.
  unfold kv_tool_map_measure_locked in *.
  destruct (scan_text visit_measure m text _) as [[x1 o1]|] eqn:S1; simpl in H1; [|done].
  destruct (scan_text visit_measure m1 text _) as [[x2 o2]|] eqn:S2; simpl in H3; [|done].
  destruct (scans_like _ _ _ _ _ Hr Hn ltac:(lia) Hn1 ltac:(lia)) as [F B].
  injection H1 as <- <-. injection H3 as <- <-. assert (o2 = o1) as ->; [|done].
  destruct o1 as [c1|].
  - destruct (scan_text_like _ _ _ measure_follows _ _ _ _ _ _ _ F eq_refl S1) as (? & ? & E & ->). congruence.
  - destruct o2 as [c2|]; [|done].
    destruct (scan_text_like _ _ _ measure_follows _ _ _ _ _ _ _ B eq_refl S2) as (? & ? & E & ->). congruence.
Qed.

(** What kv_tool_map_write hands to the file. *)
Lemma write_ok s L n text :
  mem_ok (tool_mem s) L → scans_left n (tool_mem s) → 2 <= n →
  disable_exact_dsml_tool_replay s = false → blen text ≠ 0 →
  ∃ m1 s' r o, kv_tool_map_measure_locked (tool_mem s) text = Some (m1, r) ∧
    kv_tool_map_write s text = Some (s', o) ∧ option_map snd o = option_map snd r ∧
    ∀ out total, o = Some (out, total) → blen out = total ∧
      ∃ m' a, scan_text collect (tool_mem s) text [] = Some (m', Some a) ∧
        out = match a with [] => [] | _ => map_header (blen a) ++ map_bytes a end ∧
        blen a <= UINT32_MAX.
Proof.
  intros Hm Hn H2 Hd Ht. unfold kv_tool_map_write. rewrite Hd, (proj2 (Z.eqb_neq _ _) Ht). simpl.
  destruct (measure_ok _ _ _ text Hm Hn ltac:(lia)) as (m1 & r & -> & Hm1 & Hn1 & Hr & Hc). simpl.
  destruct r as [[count total]|]; [|by eexists m1, _, None, None].
  destruct (Hc _ eq_refl) as (m' & a & Ha & Hle & [= -> ->]). exists m1.
  destruct (blen a =? 0) eqn:Hz.
  - eexists _, _, _. do 3 (split; [done|]). intros out total' [= <- <-]. split; [done|]. exists m', a.
    split; [done|]. split; [|done]. destruct a; [done|]. rewrite blen_cons in Hz.
    pose proof (blen_nonneg a). lia.
  - destruct (scans_like _ _ _ _ _ Hr Hn ltac:(lia) Hn1 ltac:(lia)) as [F _].
    destruct (scan_text_like collect visit_write (written (map_header (blen a))) (write_follows _)
      (tool_mem s) m1 text [] (map_header (blen a)) m' a F) as (m2 & out & -> & Ho);
      [unfold written; by rewrite app_nil_r|done|].
    simpl. eexists _, _, _. do 3 (split; [done|]). intros out' total' [= <- <-]. unfold written in Ho.
    split; [rewrite Ho, blen_app; by change (blen (map_header _)) with KV_TOOL_MAP_HEADER|].
    exists m', a. split; [done|]. split; [|done]. by destruct a.
Qed.
