(* ===== verification/ToolMapTheorems.v ===== *)
(** * The tool map survives a restart

    What the written map holds, what loading it does, and the two together: after a
    load, every id of a block in the text gives the text it gave before. *)

From S2P Require Import Prelude Float64 Bytes Json Text Stream Route DList ToolText ToolMem.
From S2P Require Import ContRegistry ContInv ContOps ToolReplay ToolTotal ContSafety ContTheorems.
From S2P Require Import ToolMap ToolMapSpec.

(** ** What is in the map *)

(** The complete tool blocks of a text, as the scanner cuts them. *)
Fixpoint cut_blocks (fuel : nat) (p : list Z) : list (list Z) :=
  match fuel, find_next_dsml_tool_block p with
  | S fuel, Some (Some (st, fin)) => ztake (fin - st) (zdrop st p) :: cut_blocks fuel (zdrop fin p)
  | _, _ => []
  end.

Definition text_blocks (text : list Z) : list (list Z) := cut_blocks (S (length text)) text.

(** The id [i] with text [t] can be written. *)
Definition kept (m : tool_memory) (k : tool_memory_block) (a : list record) : Prop :=
  ∀ p e, p ∈ b_entries k → ehp m !! p = Some e → sizes_fit (e_id e, b_dsml k) = true →
    (e_id e, b_dsml k) ∈ a.

(** During a collecting scan: the marked blocks have been collected, and what has
    been collected is in the memory. *)
Record collecting (m0 : tool_memory) (L : list ptr) (scan : Z) (m : tool_memory) (a : list record)
    : Prop := {
  cl_mem : mem_ok m L;
  cl_same : by_block m = by_block m0 ∧ ehp m = ehp m0;
  cl_back : ∀ b k, bhp m !! b = Some k → ∃ k0, bhp m0 !! b = Some k0 ∧ same_block k0 k;
  cl_marked : ∀ b k, bhp m !! b = Some k → b_seen k = scan → kept m k a;
  cl_real : ∀ i t, (i, t) ∈ a → text_of m0 i = Some t }.

Lemma records_in m k l rs p e :
  records m k l = Some rs → p ∈ l → ehp m !! p = Some e → sizes_fit (e_id e, b_dsml k) = true →
  (e_id e, b_dsml k) ∈ rs.
Proof.
  revert rs. induction l as [|q l IH]; intros rs; simpl; [by intros _ ?%elem_of_nil|].
  destruct (ehp m !! q) as [x|] eqn:Hx; simpl; [|done]. destruct (records m k l) as [r|]; simpl; [|done].
  intros [= <-] [->|Hp]%elem_of_cons He Hs; apply elem_of_app.
  - left. replace x with e by congruence. rewrite Hs. by left.
  - right. by apply IH.
Qed.

Lemma records_of m k l rs i t :
  records m k l = Some rs → (i, t) ∈ rs → t = b_dsml k ∧ ∃ p e, p ∈ l ∧ ehp m !! p = Some e ∧ e_id e = i.
Proof.
  revert rs. induction l as [|q l IH]; intros rs; simpl; [by intros [= <-] ?%elem_of_nil|].
  destruct (ehp m !! q) as [x|] eqn:Hx; simpl; [|done]. destruct (records m k l) as [r|]; simpl; [|done].
  intros [= <-] [Hp|Hp]%elem_of_app.
  - destruct (sizes_fit _); [|by apply elem_of_nil in Hp].
    apply list_elem_of_singleton in Hp as [= -> ->]. split; [done|]. exists q, x. split; [by left|done].
  - destruct (IH _ eq_refl Hp) as (? & p & e & ? & ?). split; [done|]. exists p, e. split; [by right|done].
Qed.

Lemma block_text_of m L b k p e :
  mem_ok m L → bhp m !! b = Some k → p ∈ b_entries k → ehp m !! p = Some e →
  text_of m (e_id e) = Some (b_dsml k).
Proof.
  intros Hm Hk Hp He. destruct (text_of_at _ _ _ _ Hm He) as (b' & k' & Hb & Hk' & ->).
  destruct (block_entries _ _ _ (mem_block _ _ Hm _ _ Hk) p Hp) as (e' & He' & Hb'). congruence.
Qed.

Lemma collect_visit m0 L scan m a b m' o :
  mem_ok m0 L → collecting m0 L scan m a → visit_block collect m b scan a = Some (m', o) →
  ∃ a', o = Some a' ∧ collecting m0 L scan m' a' ∧ a ⊆ a' ∧
    ∀ k, bhp m0 !! b = Some k → kept m0 k a'.
Proof.
  intros Hm0 [A [B1 B2] C D E]. unfold visit_block.
  destruct (bhp m !! b) as [k|] eqn:Hk; simpl; [|done].
  destruct (C _ _ Hk) as (k0 & Hk0 & E1 & E2 & E3 & E4).
  destruct (b_seen k =? scan) eqn:Hs.
  - intros [= <- <-]. exists a. split; [done|]. split; [by split|]. split; [done|].
    intros k1 Hk1 p e. replace k1 with k0 by congruence. rewrite E1, E3, <- B2. apply (D b k Hk). lia.
  - unfold collect. simpl. destruct (records _ k (b_entries k)) as [rs|] eqn:Hr; simpl; [|done].
    intros [= <- <-]. exists (a ++ rs). split; [done|].
    assert (kept m k (a ++ rs)) as Hkept.
    { intros p e Hp He Hsz. apply elem_of_app. right.
      by apply (records_in (mark_seen m b k scan) k (b_entries k) rs p). }
    split; [split|split].
    + by apply mem_ok_mark.
    + done.
    + simpl. intros x kx [[<- <-]|[_ Hx]]%lookup_insert_Some; [|by apply C]. exists k0. by repeat split.
    + simpl. intros x kx [[<- <-]|[_ Hx]]%lookup_insert_Some Hseen; [exact Hkept|].
      intros p e Hp He Hsz. apply elem_of_app. left. by apply (D x kx Hx Hseen p e).
    + intros i t [Hi|Hi]%elem_of_app; [by apply E|].
      apply (records_of _ _ _ _ _ _ Hr) in Hi as (-> & p & e & Hp & He & <-). simpl in He.
      rewrite <- E1. apply (block_text_of m0 L b k0 p); [done|done|congruence|congruence].
    + intros x Hx. apply elem_of_app. by left.
    + intros k1 Hk1 p e. replace k1 with k0 by congruence. rewrite E1, E3, <- B2. apply Hkept.
Qed.

Lemma collect_blocks m0 L scan fuel m p a m' o :
  mem_ok m0 L → collecting m0 L scan m a → scan_blocks collect fuel m p scan a = Some (m', o) →
  ∃ a', o = Some a' ∧ collecting m0 L scan m' a' ∧ a ⊆ a' ∧
    ∀ t b k, t ∈ cut_blocks fuel p → t ≠ [] → by_block m0 !! t = Some b → bhp m0 !! b = Some k →
      kept m0 k a'.
Proof.
  intros Hm0. revert m p a. induction fuel as [|f IH]; intros m p a Hc; cbn [scan_blocks cut_blocks]; [done|].
  destruct (find_next_dsml_tool_block p) as [[[st fin]|]|]; simpl; [| |done].
  2: { intros [= <- <-]. exists a. do 3 (split; [done|]). by intros t b k ?%elem_of_nil. }
  set (u := ztake _ _). unfold tool_memory_find_block_locked. rewrite (proj1 (cl_same _ _ _ _ _ Hc)).
  destruct (if _ =? _ then None else _) as [b|] eqn:Hb; simpl.
  - destruct (visit_block collect m b scan a) as [[m1 o1]|] eqn:Hv; simpl; [|done].
    destruct (collect_visit _ _ _ _ _ _ _ _ Hm0 Hc Hv) as (a1 & -> & Hc1 & Hsub & Hkept).
    intros Hrest. destruct (IH _ _ _ Hc1 Hrest) as (a' & -> & Hc' & Hsub' & Hall).
    exists a'. do 2 (split; [done|]). split; [by transitivity a1|].
    intros t b' k [->|Ht]%elem_of_cons Hne Hb' Hk; [|by apply (Hall t b')].
    destruct (blen u =? 0); [done|]. intros q e Hq He Hs. apply Hsub'.
    apply (Hkept k ltac:(congruence) q e Hq He Hs).
  - intros Hrest. destruct (IH _ _ _ Hc Hrest) as (a' & -> & Hc' & Hsub' & Hall).
    exists a'. do 3 (split; [done|]).
    intros t b' k [->|Ht]%elem_of_cons Hne Hb' Hk; [|by apply (Hall t b')].
    destruct (blen u =? 0) eqn:Hz; [|congruence]. destruct u; [done|]. rewrite blen_cons in Hz.
    pose proof (blen_nonneg u). lia.
Qed.

Lemma collect_ok m L n text m' a :
  mem_ok m L → scans_left n m → 0 < n → scan_text collect m text [] = Some (m', Some a) →
  (∀ i t, (i, t) ∈ a → text_of m i = Some t) ∧
  (∀ i t, t ∈ text_blocks text → text_of m i = Some t → sizes_fit (i, t) = true → (i, t) ∈ a).
Proof.
  intros Hm Hn Hp. unfold scan_text. cbv zeta.
  assert (collecting m L (scan_clock (with_scan m)) (with_scan m) []) as Hc.
  { split.
    - by apply mem_ok_scan.
    - done.
    - intros b k Hk. exists k. split; [done|]. split_and!; try done.
      apply (block_len _ _ _ (mem_block _ _ Hm _ _ Hk)).
    - simpl. rewrite (next_scan _ _ Hn Hp). intros b k Hk Hs.
      pose proof (mk_seen _ (proj1 Hn) _ _ Hk). lia.
    - by intros i t ?%elem_of_nil. }
  destruct (scan_blocks collect _ _ _ _ _) as [[m1 o1]|] eqn:H1; cbn [mbind option_bind]; [|done].
  destruct (collect_blocks _ _ _ _ _ _ _ _ _ Hm Hc H1) as (a1 & -> & Hc1 & _ & Hall).
  intros Ht. assert (collecting m L (scan_clock (with_scan m)) m' a ∧ a1 ⊆ a) as [Hc' Hsub].
  { revert Ht. unfold scan_tail. destruct (kv_tool_map_tail_block_locked m1 text _) as [[b|]|];
      cbn [mbind option_bind]; [|by intros [= <- <-]|done].
    intros Hv. destruct (collect_visit _ _ _ _ _ _ _ _ Hm Hc1 Hv) as (a' & [= <-] & ? & ? & _). done. }
  split; [apply Hc'|]. intros i t Hin Htx Hs. apply Hsub.
  revert Htx. unfold text_of. destruct (by_id m !! i) as [p|] eqn:Hi; simpl; [|done].
  destruct (proj1 (mem_ids _ _ Hm _ _) Hi) as (e & He & <-). rewrite He. simpl.
  destruct (entry_block _ _ _ (mem_entry _ _ Hm _ _ He)) as (b & k & -> & Hk & Hpk). simpl.
  rewrite Hk. simpl. intros [= <-].
  refine (Hall _ b k Hin _ _ Hk p e Hpk He Hs); [|by apply (mem_texts _ _ Hm); eauto].
  apply (block_text _ _ _ (mem_block _ _ Hm _ _ Hk)).
Qed.

(** ** Loading *)

(** What the loader accepts as a record: at most 256 bytes of id, and C strings. *)
Definition loadable (r : record) : Prop :=
  0 < blen (fst r) <= 256 ∧ cstring (fst r) ∧
  0 < blen (snd r) <= DS4_TOOL_MEMORY_MAX_BYTES ∧ cstring (snd r).

Lemma get32_at0 v l : fits 32 v → Le.get32 (Le.put32 v ++ l) 0 = v.
Proof.
  intros Hv. transitivity (Le.get32 ([] ++ Le.put32 v ++ []) (blen (@nil Z))); [reflexivity|].
  apply Le.get32_put32; [done|constructor|constructor].
Qed.

Lemma get32_at4 h v l : length h = 4%nat → fits 32 v → Le.get32 (h ++ Le.put32 v ++ l) 4 = v.
Proof.
  intros Hh Hv. destruct h as [|a [|b [|c [|d [|]]]]]; try done.
  transitivity (Le.get32 (Le.put32 v ++ []) 0); [reflexivity|]. by apply get32_at0.
Qed.

Section load.
Context `{Malloc}.

(** What a list of records takes at most. *)
Fixpoint cost (l : list record) : Z :=
  match l with [] => 0 | (i, t) :: l => blen i + blen t + 122 + cost l end.

Lemma cost_nonneg l : 0 <= cost l.
Proof.
  induction l as [|[i t] l IH]; simpl; [done|]. pose proof (blen_nonneg i). pose proof (blen_nonneg t). lia.
Qed.

Lemma nonempty {A} (l : list A) : 0 < blen l → l ≠ [].
Proof. by destruct l. Qed.

Lemma take_body (i t l : list Z) :
  ztake (blen i) (i ++ t ++ l) = i ∧ ztake (blen t) (zdrop (blen i) (i ++ t ++ l)) = t ∧
  zdrop (blen i + blen t) (i ++ t ++ l) = l.
Proof.
  rewrite zdrop_app, !ztake_app. do 2 (split; [done|]).
  rewrite app_assoc, <- blen_app. apply zdrop_app.
Qed.

Lemma max_entries_params m m' : params m = params m' → tool_memory_max_entries m = tool_memory_max_entries m'.
Proof. unfold params, tool_memory_max_entries. by intros [= -> _ _]. Qed.
Lemma max_bytes_params m m' : params m = params m' → tool_memory_max_bytes m = tool_memory_max_bytes m'.
Proof. unfold params, tool_memory_max_bytes. by intros [= _ -> _]. Qed.

Lemma load_loop_ok (G : list Z → option (list Z)) s L R l loaded :
  server_ok s L R → disable_exact_dsml_tool_replay s = false →
  Forall loadable l → (∀ i t, (i, t) ∈ l → G i = Some t) →
  entries (tool_mem s) + blen l <= tool_memory_max_entries (tool_mem s) →
  bytes (tool_mem s) + cost l <= tool_memory_max_bytes (tool_mem s) →
  ∃ s' L', load_loop (length l) s (map_bytes l) None loaded = Some (s', loaded + blen l) ∧
    server_ok s' L' R ∧
    (∀ i t, (i, t) ∈ l → text_of (tool_mem s') i = Some t) ∧
    ∀ i, (∀ t, (i, t) ∉ l) → text_of (tool_mem s') i = text_of (tool_mem s) i.
Proof.
  intros Hok Hd Hl. revert s L loaded Hok Hd.
  induction Hl as [|[i t] l (Hi & Hic & Ht & Htc) _ IH]; intros s L loaded Hok Hd HG He Hb.
  - exists s, L. rewrite blen_nil, Z.add_0_r. do 2 (split; [done|]). split; [by intros i t ?%elem_of_nil|done].
  - cbn [length load_loop]. change (map_bytes ((i, t) :: l)) with (map_record i t ++ map_bytes l).
    unfold map_record. rewrite <- !app_assoc. cbn [fst snd] in *. rewrite blen_cons in He. simpl in Hb.
    pose proof (blen_nonneg l). pose proof (cost_nonneg l). unfold DS4_TOOL_MEMORY_MAX_BYTES in *.
    rewrite get32_at0, get32_at4 by (done || (unfold fits; lia)).
    set (body := i ++ t ++ map_bytes l).
    change (zdrop 8 (Le.put32 (blen i) ++ Le.put32 (blen t) ++ body)) with body.
    rewrite (proj2 (Z.ltb_ge (blen (Le.put32 (blen i) ++ _)) 8)).
    2: { rewrite !blen_app. change (blen (Le.put32 _)) with 4. pose proof (blen_nonneg body). lia. }
    replace ((blen i =? 0) || (256 <? blen i) || (blen t =? 0) || (512 * 1024 * 1024 <? blen t))
      with false by lia.
    rewrite (proj2 (Z.ltb_ge (blen body) _)).
    2: { unfold body. rewrite !blen_app. pose proof (blen_nonneg (map_bytes l)). lia. }
    unfold body. destruct (take_body i t (map_bytes l)) as (-> & -> & ->). rewrite !c_str_id by done.
    unfold tool_memory_put_source. rewrite Hd.
    destruct (put_room s L R i t TOOL_MEMORY_DISK Hok) as (s1 & L1 & -> & [P1 P2 P3 P4 P5 P6 P7]);
      [apply nonempty; lia..|lia|lia|]. cbn [mbind option_bind].
    destruct (IH s1 L1 (loaded + 1) P1) as (s' & L' & -> & Hok' & Hin & Hout).
    + congruence.
    + intros j u Hj. apply HG. by right.
    + rewrite (max_entries_params _ _ P4). lia.
    + rewrite (max_bytes_params _ _ P4). lia.
    + exists s', L'. split; [by rewrite blen_cons, Z.add_assoc|]. split; [done|]. split.
      * intros j u [[= -> ->]|Hj]%elem_of_cons; [|by apply Hin].
        destruct (decide (Exists (λ r, fst r = i) l)) as [Hex|Hnex].
        -- apply Exists_exists in Hex as ([i' t'] & Hin' & Hfst). simpl in Hfst. subst i'.
           rewrite (Hin _ _ Hin'). rewrite <- (HG i t'); [|by right]. apply HG. by left.
        -- rewrite Hout, P2; [done|]. intros t' Ht'. apply Hnex, Exists_exists. by exists (i, t').
      * intros j Hj. rewrite Hout; [|intros u Hu; apply (Hj u); by right]. apply P3.
        intros ->. apply (Hj t). by left.
Qed.

Lemma header_count n l : fits 32 n → Le.get32 (map_header n ++ l) 4 = n.
Proof. intros Hn. unfold map_header. rewrite <- app_assoc. by apply get32_at4. Qed.

(** Loading the bytes of a written map. *)
Lemma load_map_ok (G : list Z → option (list Z)) s L R l :
  server_ok s L R → disable_exact_dsml_tool_replay s = false →
  Forall loadable l → blen l <= UINT32_MAX → (∀ i t, (i, t) ∈ l → G i = Some t) →
  entries (tool_mem s) + blen l <= tool_memory_max_entries (tool_mem s) →
  bytes (tool_mem s) + cost l <= tool_memory_max_bytes (tool_mem s) →
  ∃ s' L', kv_tool_map_load_from_pos s (map_header (blen l) ++ map_bytes l) None =
             Some (s', blen l) ∧
    server_ok s' L' R ∧
    (∀ i t, (i, t) ∈ l → text_of (tool_mem s') i = Some t) ∧
    ∀ i, (∀ t, (i, t) ∉ l) → text_of (tool_mem s') i = text_of (tool_mem s) i.
Proof.
  intros Hok Hd Hl Hlen HG He Hb. pose proof (ok_mem _ _ _ Hok) as Hm. unfold kv_tool_map_load_from_pos.
  cbv zeta. rewrite Hd. rewrite (proj2 (Z.ltb_ge (blen (_ ++ _)) _)).
  2: { rewrite blen_app. change (blen (map_header _)) with 8. pose proof (blen_nonneg (map_bytes l)).
       unfold KV_TOOL_MAP_HEADER. lia. }
  change (ztake 4 (map_header (blen l) ++ map_bytes l)) with [ch "K"; ch "T"; ch "M"; 1].
  rewrite bool_decide_true by done. cbn [negb].
  pose proof (blen_nonneg l). pose proof (mem_count _ _ Hm). pose proof (blen_nonneg L).
  rewrite header_count by (unfold fits; lia). rewrite (proj2 (Z.ltb_ge _ _)) by lia.
  change (zdrop 8 (map_header (blen l) ++ map_bytes l)) with (map_bytes l).
  assert (Z.to_nat (blen l) = length l) as -> by apply Nat2Z.id.
  by destruct (load_loop_ok G s L R l 0 Hok Hd Hl HG He Hb) as (s' & L' & ? & ?); exists s', L'.
Qed.
End load.

(** ** The properties *)

(** The number of records a written map announces. *)
Definition map_count (out : list Z) : Z := if blen out =? 0 then 0 else Le.get32 out 4.

(** Every remembered id and text is one the loader accepts. *)
Definition all_loadable (m : tool_memory) : Prop :=
  ∀ i t, text_of m i = Some t → loadable (i, t).

Section props.
Context `{Malloc}.

(** the size announced for the tool map of a checkpoint is the number of bytes
    then written behind its payload; the two calls agree on giving up as well, and
    neither changes the memory beyond its scan marks. *)
Theorem map_size_is_written s L text :
  mem_ok (tool_mem s) L → scans_left 3 (tool_mem s) →
  ∃ s1 s2 r, kv_tool_map_serialized_size s text = Some (s1, option_map snd r) ∧
    kv_tool_map_write s1 text = Some (s2, r) ∧
    (∀ out n, r = Some (out, n) → blen out = n) ∧
    mem_ok (tool_mem s1) L ∧ ∀ i, text_of (tool_mem s1) i = text_of (tool_mem s) i.
Proof.
  intros Hm Hn. unfold kv_tool_map_serialized_size.
  destruct (disable_exact_dsml_tool_replay s) eqn:Hd; [|destruct (blen text =? 0) eqn:Ht]; simpl.
  - exists s, s, (Some ([], 0)). do 2 (split; [by try (unfold kv_tool_map_write; rewrite Hd)|]).
    by split; [intros ? ? [= <- <-]|].
  - exists s, s, (Some ([], 0)). do 2 (split; [by try (unfold kv_tool_map_write; rewrite Hd, Ht)|]).
    by split; [intros ? ? [= <- <-]|].
  - destruct (measure_ok _ _ _ text Hm Hn ltac:(lia)) as (m1 & r & Hms & Hm1 & Hn1 & Hr & _).
    rewrite Hms. simpl.
    destruct (write_ok (with_mem s m1) L (3 - 1) text Hm1 Hn1 ltac:(lia) Hd ltac:(lia))
      as (m2 & s2 & r2 & o & Hms2 & Hw & Ho & Hout).
    rewrite (measure_again _ _ _ _ _ _ _ _ Hm Hn ltac:(lia) Hr Hms Hms2) in Ho.
    exists (with_mem s m1), s2, o. rewrite Ho. do 2 (split; [done|]).
    split; [intros out n Hon; by apply Hout|]. split; [done|]. intros i. simpl.
    unfold text_of. rewrite (rs_ids _ _ _ Hr), (rs_entries _ _ _ Hr).
    destruct (by_id (tool_mem s) !! i) as [p|] eqn:Hp; simpl; [|done].
    destruct (ehp (tool_mem s) !! p) as [e|] eqn:He; simpl; [|done].
    destruct (entry_block _ _ _ (mem_entry _ _ Hm _ _ He)) as (b & k & -> & Hk & _). simpl.
    destruct (rs_block _ _ _ Hr _ _ Hk) as (k' & -> & E & _). rewrite Hk. simpl. by rewrite E.
Qed.

(** The records that a written map holds, in order; one without records is empty. *)
Definition holds_records (out : list Z) (l : list record) : Prop :=
  out = match l with [] => [] | _ => map_header (blen l) ++ map_bytes l end.

(** C26: A restart keeps the tool calls of a checkpoint.  When every remembered id has
    at most 256 bytes and no id or text is empty, holds a NUL or, for texts, is longer
    than the memory's limit ([all_loadable]; a longer id makes the loader give up on
    every later record), the map written for a text holds only ids with the texts
    remembered for them, among them every id whose remembered text is a complete tool
    block of that text.  Loaded into a server that has room for its entries and bytes,
    whatever else that server holds, it gives every id in the map its text back, and
    every id that is not in the map keeps what the server had for it.  (For replay
    enabled on both servers and a memory with scan numbers left.) *)
Theorem tool_map_restores s L text s1 out n s2 L2 R2 :
  mem_ok (tool_mem s) L → scans_left 2 (tool_mem s) → all_loadable (tool_mem s) →
  disable_exact_dsml_tool_replay s = false →
  kv_tool_map_write s text = Some (s1, Some (out, n)) →
  server_ok s2 L2 R2 → disable_exact_dsml_tool_replay s2 = false →
  entries (tool_mem s2) + map_count out <= tool_memory_max_entries (tool_mem s2) →
  bytes (tool_mem s2) + n + 114 * map_count out <= tool_memory_max_bytes (tool_mem s2) →
  ∃ l s3, holds_records out l ∧ kv_tool_map_load_from_pos s2 out None = Some (s3, blen l) ∧
    (∀ i t, (i, t) ∈ l → text_of (tool_mem s) i = Some t) ∧
    (∀ t i, t ∈ text_blocks text → text_of (tool_mem s) i = Some t → (i, t) ∈ l) ∧
    (∀ i t, (i, t) ∈ l → text_of (tool_mem s3) i = Some t) ∧
    ∀ i, (∀ t, (i, t) ∉ l) → text_of (tool_mem s3) i = text_of (tool_mem s2) i.
Proof.
  intros Hm Hn Hload Hd Hw Hok2 Hd2 He Hb.
  destruct (decide (blen text = 0)) as [Hz|Hz].
  { destruct text; [|rewrite blen_cons in Hz; pose proof (blen_nonneg text); lia].
    unfold kv_tool_map_write in Hw. rewrite Hd in Hw. injection Hw as <- <- <-.
    exists [], s2. unfold kv_tool_map_load_from_pos. rewrite Hd2. split; [done|]. split; [done|].
    split; [by intros i t ?%elem_of_nil|]. split; [by intros t i ?%elem_of_nil|]. split; [by intros i t ?%elem_of_nil|done]. }
  destruct (write_ok s L 2 text Hm Hn ltac:(lia) Hd Hz) as (m1 & s' & r & o & _ & Hw' & _ & Hout).
  assert (o = Some (out, n)) as -> by congruence.
  destruct (Hout _ _ eq_refl) as (Hlen & m' & a & Ha & -> & Hle).
  destruct (collect_ok _ _ _ _ _ _ Hm Hn ltac:(lia) Ha) as [Hreal Hall].
  assert (∀ i t, (i, t) ∈ a → loadable (i, t)) as Hla by auto.
  assert (∀ t i, t ∈ text_blocks text → text_of (tool_mem s) i = Some t → (i, t) ∈ a) as Hcov.
  { intros t i Ht Hi. apply Hall; [done|done|]. destruct (Hload _ _ Hi) as (? & _ & ? & _).
    unfold sizes_fit. simpl in *. unfold DS4_TOOL_MEMORY_MAX_BYTES in *. lia. }
  destruct a as [|r0 a0] eqn:Hae.
  { exists [], s2. unfold kv_tool_map_load_from_pos. rewrite Hd2. split; [done|]. split; [done|].
    split; [by intros i t ?%elem_of_nil|]. split; [exact (λ t i, Hcov t i)|]. split; [by intros i t ?%elem_of_nil|done]. }
  rewrite <- Hae in *. assert (map_count (map_header (blen a) ++ map_bytes a) = blen a) as Hcount.
  { unfold map_count. rewrite blen_app. change (blen (map_header _)) with 8.
    pose proof (blen_nonneg (map_bytes a)). pose proof (blen_nonneg a).
    rewrite (proj2 (Z.eqb_neq _ _)) by lia.
    apply header_count. unfold fits. lia. }
  rewrite Hcount in *.
  assert (∀ l : list record, cost l = blen (map_bytes l) + 114 * blen l) as Hcost.
  { clear. induction l as [|[i t] l IH]; [done|]. simpl cost.
    change (map_bytes ((i, t) :: l)) with (map_record i t ++ map_bytes l).
    rewrite blen_app, map_record_len, blen_cons. lia. }
  destruct (load_map_ok (text_of (tool_mem s)) s2 L2 R2 a Hok2 Hd2) as (s3 & L3 & -> & _ & Hin & Hother);
    [|done|done|lia| |].
  - apply Forall_forall. intros [i t] Hr. by apply Hla.
  - rewrite Hcost. rewrite blen_app in Hlen. change (blen (map_header _)) with 8 in Hlen. lia.
  - exists a, s3. split; [by rewrite Hae|]. do 2 (split; [done|]). split; [exact (λ t i, Hcov t i)|]. done.
Qed.
End props.

(** ** A small checkpoint *)

Definition map_block : list Z := bs "<tool_calls>x</tool_calls>".
Definition map_text : list Z := bs "say " ++ map_block ++ bs " done".

Definition map_calls : tool_calls :=
  Calls [Call (Some (bs "call_1")) (Some (bs "f")) (Some (bs "{}"))] (Some map_block) None.

Definition map_server : server :=
  match run (demo_boot, []) [Remember map_calls] with Some (s, _) => s | None => demo_boot end.

Lemma map_server_reachable : reachable map_server [].
Proof.
  exists 2, 1000, 0, (F64.of_Z 60), (F64.of_Z 300), (F64.of_Z 60), (F64.of_Z 5), false,
    [Remember map_calls].
  vm_compute. reflexivity.
Qed.

Lemma demo_boot_reachable : reachable demo_boot [].
Proof.
  exists 2, 1000, 0, (F64.of_Z 60), (F64.of_Z 300), (F64.of_Z 60), (F64.of_Z 5), false, [].
  reflexivity.
Qed.

Lemma map_server_scans : scans_left 3 (tool_mem map_server).
Proof.
  split; [split|]; [vm_compute; by split| |by vm_compute].
  assert (map_Forall (λ _ k, b_seen k <= scan_clock (tool_mem map_server)) (bhp (tool_mem map_server))) as H.
  { apply (bool_decide_unpack _). vm_compute. exact I. }
  exact H.
Qed.

Lemma map_server_loadable : all_loadable (tool_mem map_server).
Proof.
  assert (map_Forall (λ i _, i = bs "call_1") (by_id (tool_mem map_server))) as H.
  { apply (bool_decide_unpack _). vm_compute. exact I. }
  intros i t Ht. assert (i = bs "call_1") as ->.
  { unfold text_of in Ht. destruct (by_id (tool_mem map_server) !! i) as [p|] eqn:Hp; [|done].
    by apply (H i p). }
  assert (text_of (tool_mem map_server) (bs "call_1") = Some map_block) as Hm by (vm_compute; reflexivity).
  replace t with map_block by congruence. split_and!; try done; repeat constructor; lia.
Qed.

Example map_size_is_written_witness :
  ∃ s1 s2 r, kv_tool_map_serialized_size map_server map_text = Some (s1, option_map snd r) ∧
    kv_tool_map_write s1 map_text = Some (s2, r) ∧ (∀ out n, r = Some (out, n) → blen out = n).
Proof.
  destruct (reachable_ok _ _ map_server_reachable) as (L & R & Hok & _).
  destruct (map_size_is_written map_server L map_text (ok_mem _ _ _ Hok) map_server_scans)
    as (s1 & s2 & r & H1 & H2 & H3 & _).
  exists s1, s2, r. split; [exact H1|]. split; [exact H2|exact H3].
Defined.

Example tool_map_restores_witness :
  ∃ s1 out n s3 k, kv_tool_map_write map_server map_text = Some (s1, Some (out, n)) ∧
    kv_tool_map_load_from_pos demo_boot out None = Some (s3, k) ∧
    text_of (tool_mem s3) (bs "call_1") = Some map_block.
Proof.
  destruct (reachable_ok _ _ map_server_reachable) as (L & R & Hok & _).
  destruct (reachable_ok _ _ demo_boot_reachable) as (L2 & R2 & Hok2 & _).
  destruct map_server_scans as [Hmarks _].
  eexists _, _, _. edestruct (tool_map_restores map_server L map_text) as (l & s3 & H0 & H1 & _ & H2 & H3 & _).
  - exact (ok_mem _ _ _ Hok).
  - split; [exact Hmarks|vm_compute; discriminate].
  - exact map_server_loadable.
  - reflexivity.
  - vm_compute. reflexivity.
  - exact Hok2.
  - reflexivity.
  - vm_compute. discriminate.
  - vm_compute. discriminate.
  - exists s3, (blen l). split; [vm_compute; reflexivity|]. split; [exact H1|]. apply H3, H2; [|vm_compute; reflexivity].
    apply list_elem_of_here || (vm_compute; apply list_elem_of_here).
Defined.
