(* ===== verification/StrTable.v ===== *)
(** * The string table of the tokenizer (str_i32_table in ds4.c)

    An open-addressed hash table with linear probing and no growth: what it holds
    as an array of slots, and that it answers like a finite map as long as one slot
    is free.  A full table is what its callers have to avoid. *)

From S2P Require Import Prelude.

(** ** Data and operations *)

(** hash_bytes: 64-bit FNV-1a *)
Definition hash_bytes (key : list Z) : Z :=
  fold_left (fun h b => u64 (Z.lxor h b * 1099511628211)) key 1469598103934665603.

(** A slot that is not [used] is [None]. *)
Record str_i32_table := Table {
  entry : list (option (list Z * Z));
  cap : Z;
  used : Z }.

(** next_pow2: the loop's [p] stays a power of two; with [n] above 2^63 it becomes
    zero and stays below [n]. *)
Fixpoint next_pow2_loop (fuel : nat) (n p : Z) : option Z :=
  match fuel with
  | O => None
  | S fuel => if p <? n then next_pow2_loop fuel n (u64 (Z.shiftl p 1)) else Some p
  end.

Definition next_pow2 (n : Z) : option Z := next_pow2_loop 65 n 1.

(** table_init *)
Definition table_init (expected : Z) : option str_i32_table :=
  c ← next_pow2 (u64 (expected * 2 + 16));
  Some (Table (replicate (Z.to_nat c) None) c 0).

(** The probe both operations make: the first slot from [i] on that is free or has
    the key.  The C loops have no other way out. *)
Fixpoint probe (fuel : nat) (t : str_i32_table) (key : list Z) (i : Z) : option Z :=
  match fuel with
  | O => None
  | S fuel =>
      match entry t !! Z.to_nat i with
      | Some (Some (k, _)) =>
          if bool_decide (k = key) then Some i
          else probe fuel t key (Z.land (i + 1) (cap t - 1))
      | _ => Some i
      end
  end.

Definition start (t : str_i32_table) (key : list Z) : Z := Z.land (hash_bytes key) (cap t - 1).

(** table_put; [None] is a probe that does not end. *)
Definition table_put (t : str_i32_table) (key : list Z) (value : Z) : option str_i32_table :=
  i ← probe (Z.to_nat (cap t)) t key (start t key);
  match entry t !! Z.to_nat i with
  | Some (Some _) => Some (Table (<[Z.to_nat i := Some (key, value)]> (entry t)) (cap t) (used t))
  | _ => Some (Table (<[Z.to_nat i := Some (key, value)]> (entry t)) (cap t) (used t + 1))
  end.

(** table_get; the outer [None] is a probe that does not end. *)
Definition table_get (t : str_i32_table) (key : list Z) : option (option Z) :=
  if cap t =? 0 then Some None
  else
    i ← probe (Z.to_nat (cap t)) t key (start t key);
    match entry t !! Z.to_nat i with
    | Some (Some (_, v)) => Some (Some v)
    | _ => Some None
    end.

(** A table with the given entries put in order. *)
Fixpoint put_all (t : str_i32_table) (l : list (list Z * Z)) : option str_i32_table :=
  match l with
  | [] => Some t
  | (k, v) :: l => t1 ← table_put t k v; put_all t1 l
  end.

(** ** Sizes *)

Lemma next_pow2_loop_ok fuel n j :
  0 <= j <= 63 → n <= 2 ^ 63 → (Z.to_nat (64 - j) <= fuel)%nat →
  ∃ k, 0 <= k <= 63 ∧ next_pow2_loop fuel n (2 ^ j) = Some (2 ^ k) ∧ n <= 2 ^ k.
Proof.
  revert j. induction fuel as [|f IH]; intros j Hj Hn Hf; [lia|]. simpl.
  destruct (2 ^ j <? n) eqn:Hlt; [|exists j; split; [done|]; split; [done|lia]].
  assert (j ≠ 63) by (intros ->; lia).
  rewrite Z.shiftl_mul_pow2, <- Z.pow_add_r by lia. rewrite wrap_id.
  - apply IH; lia.
  - split; [apply Z.pow_nonneg; lia|]. apply Z.pow_lt_mono_r; lia.
Qed.

Lemma next_pow2_ok n : n <= 2 ^ 63 → ∃ k, 0 <= k <= 63 ∧ next_pow2 n = Some (2 ^ k) ∧ n <= 2 ^ k.
Proof. intros Hn. apply (next_pow2_loop_ok 65 n 0); lia. Qed.

(** ** The invariant *)

(** The slot [d] places behind the key's first one. *)
Definition slot (t : str_i32_table) (key : list Z) (d : nat) : option (list Z * Z) :=
  mjoin (entry t !! Z.to_nat ((hash_bytes key + Z.of_nat d) mod cap t)).

Definition occupied (o : option (list Z * Z)) : bool := match o with Some _ => true | None => false end.

Definition n_occupied (l : list (option (list Z * Z))) : nat := length (List.filter occupied l).

Lemma hole_exists l : (n_occupied l < length l)%nat → ∃ i, l !! i = Some None.
Proof.
  unfold n_occupied. induction l as [|[x|] l IH]; simpl; intros Hl; [lia| |by exists 0%nat].
  destruct IH as [i Hi]; [lia|]. by exists (S i).
Qed.

Lemma occupied_insert l i o x :
  l !! i = Some o →
  n_occupied (<[i := Some x]> l) = (n_occupied l + if occupied o then 0 else 1)%nat.
Proof.
  unfold n_occupied. revert i. induction l as [|y l IH]; intros [|i]; simpl; try done.
  - intros [= <-]. destruct y; simpl; lia.
  - intros Hi. apply IH in Hi. destruct y; simpl; lia.
Qed.

Record table_ok (t : str_i32_table) (M : gmap (list Z) Z) : Prop := {
  tb_cap : ∃ k, 0 <= k <= 63 ∧ cap t = 2 ^ k;
  tb_len : blen (entry t) = cap t;
  tb_used : used t = Z.of_nat (size M);
  tb_count : n_occupied (entry t) = size M;
  tb_path : ∀ k v, M !! k = Some v → ∃ d, Z.of_nat d < cap t ∧ slot t k d = Some (k, v) ∧
    ∀ j, (j < d)%nat → ∃ k' v', slot t k j = Some (k', v') ∧ k' ≠ k;
  tb_real : ∀ i k v, entry t !! i = Some (Some (k, v)) → M !! k = Some v;
  tb_once : ∀ i j k v w, entry t !! i = Some (Some (k, v)) → entry t !! j = Some (Some (k, w)) → i = j }.

Lemma hash_nonneg key : 0 <= hash_bytes key.
Proof.
  unfold hash_bytes. assert (0 <= 1469598103934665603) as H by done. revert H.
  generalize 1469598103934665603 as h. induction key as [|b key IH]; intros h Hh; [done|].
  cbn [fold_left]. apply IH. by apply wrap_fits.
Qed.

Section table.
Context (t : str_i32_table) (M : gmap (list Z) Z) (Hok : table_ok t M).

Lemma cap_pos : 0 < cap t.
Proof using Hok. destruct (tb_cap _ _ Hok) as (k & Hk & ->). apply Z.pow_pos_nonneg; lia. Qed.

(** The index of the slot [d] places on. *)
Definition at_ (key : list Z) (d : nat) : Z := (hash_bytes key + Z.of_nat d) mod cap t.

Lemma at_range key d : 0 <= at_ key d < cap t.
Proof using Hok. apply Z.mod_pos_bound, cap_pos. Qed.

Lemma mask_mod x : 0 <= x → Z.land x (cap t - 1) = x mod cap t.
Proof using Hok.
  intros Hx. destruct (tb_cap _ _ Hok) as (k & Hk & ->).
  replace (2 ^ k - 1) with (Z.ones k) by (rewrite Z.ones_equiv; lia). by rewrite Z.land_ones by lia.
Qed.

Lemma start_at key : start t key = at_ key 0.
Proof using Hok. unfold start, at_. rewrite mask_mod by apply hash_nonneg. f_equal. lia. Qed.

Lemma next_at key d : Z.land (at_ key d + 1) (cap t - 1) = at_ key (S d).
Proof using Hok.
  pose proof (at_range key d). rewrite mask_mod by lia. unfold at_.
  rewrite Z.add_mod_idemp_l by (pose proof cap_pos; lia). f_equal. lia.
Qed.

Lemma slot_at key d :
  entry t !! Z.to_nat (at_ key d) = Some (slot t key d).
Proof using Hok.
  pose proof (at_range key d). unfold slot. fold (at_ key d).
  destruct (lookup_lt_is_Some_2 (entry t) (Z.to_nat (at_ key d))) as [o ->]; [|done].
  pose proof (tb_len _ _ Hok). unfold blen in *. lia.
Qed.

(** The slot [d] ends the key's probe. *)
Definition ends (key : list Z) (d : nat) : bool :=
  match slot t key d with Some (k, _) => bool_decide (k = key) | None => true end.

Lemma probe_runs fuel key d n :
  (n < fuel)%nat → (∀ j, (j < n)%nat → ends key (d + j) = false) → ends key (d + n) = true →
  probe fuel t key (at_ key d) = Some (at_ key (d + n)).
Proof using Hok.
  revert d n. induction fuel as [|f IH]; intros d n Hf Hj Hn; [lia|]. simpl.
  rewrite slot_at. destruct n as [|n].
  - rewrite Nat.add_0_r in *. unfold ends in Hn. destruct (slot t key d) as [[k v]|]; [|done].
    by rewrite Hn.
  - pose proof (Hj 0%nat ltac:(lia)) as H0. rewrite Nat.add_0_r in H0. unfold ends in H0.
    destruct (slot t key d) as [[k v]|]; [|done]. rewrite H0, next_at.
    replace (d + S n)%nat with (S d + n)%nat in * by lia. apply IH; [lia| |done].
    intros j Hjn. replace (S d + j)%nat with (d + S j)%nat by lia. apply Hj. lia.
Qed.

Lemma slots_reach key i : 0 <= i < cap t → ∃ d, Z.of_nat d < cap t ∧ at_ key d = i.
Proof using Hok.
  intros Hi. pose proof cap_pos as Hc. exists (Z.to_nat ((i - hash_bytes key) mod cap t)).
  pose proof (Z.mod_pos_bound (i - hash_bytes key) (cap t) Hc).
  split; [lia|]. unfold at_. rewrite Z2Nat.id by lia.
  rewrite Z.add_mod_idemp_r by lia. replace (hash_bytes key + (i - hash_bytes key)) with i by lia.
  by apply Z.mod_small.
Qed.

Lemma first_end key n : ends key n = true →
  ∃ d, (d <= n)%nat ∧ ends key d = true ∧ ∀ j, (j < d)%nat → ends key j = false.
Proof using.
  induction n as [n IH] using lt_wf_ind. intros Hn.
  destruct (existsb (ends key) (seq 0 n)) eqn:He.
  - apply existsb_exists in He as (j & Hj%in_seq & Hje). destruct (IH j ltac:(lia) Hje) as (d & ? & ?).
    exists d. split; [lia|done].
  - exists n. do 2 (split; [done|]). intros j Hj. destruct (ends key j) eqn:Hje; [|done].
    exfalso. rewrite <- not_true_iff_false in He. apply He, existsb_exists. exists j.
    split; [apply in_seq; lia|done].
Qed.

(** With a free slot the probe ends, at the first slot that is free or has the
    key. *)
Lemma probe_ends key :
  Z.of_nat (size M) < cap t →
  ∃ d, Z.of_nat d < cap t ∧ probe (Z.to_nat (cap t)) t key (start t key) = Some (at_ key d) ∧
    ends key d = true ∧ ∀ j, (j < d)%nat → ends key j = false.
Proof using Hok.
  intros Hfree. assert (∃ i, 0 <= i < cap t ∧ entry t !! Z.to_nat i = Some None) as (i & Hi & Hhole).
  { pose proof (tb_count _ _ Hok) as Hc. pose proof (tb_len _ _ Hok) as Hl. unfold blen in Hl.
    destruct (hole_exists (entry t)) as [i Hi]; [lia|]. exists (Z.of_nat i).
    pose proof (lookup_lt_Some _ _ _ Hi). rewrite Nat2Z.id. split; [lia|done]. }
  destruct (slots_reach key i Hi) as (n & Hn & Hat).
  assert (ends key n = true) as Hen.
  { unfold ends. pose proof (slot_at key n) as Hs. rewrite Hat, Hhole in Hs. by injection Hs as <-. }
  destruct (first_end key n Hen) as (d & Hd & Hde & Hj). exists d. split; [lia|].
  split; [|done]. rewrite start_at. apply (probe_runs _ _ 0 d); [lia|done|done].
Qed.

(** What the slot the probe ends at says about the map. *)
Lemma end_reads key d :
  Z.of_nat d < cap t → ends key d = true → (∀ j, (j < d)%nat → ends key j = false) →
  M !! key = snd <$> slot t key d.
Proof using Hok.
  intros Hd He Hj. destruct (slot t key d) as [[k v]|] eqn:Hs; simpl.
  - unfold ends in He. rewrite Hs in He. apply bool_decide_eq_true in He as ->.
    apply (tb_real _ _ Hok (Z.to_nat (at_ key d))). by rewrite slot_at, Hs.
  - destruct (M !! key) as [v|] eqn:HM; [|done].
    destruct (tb_path _ _ Hok _ _ HM) as (d' & _ & Hd' & Hp).
    destruct (lt_eq_lt_dec d d') as [[Hlt|<-]|Hgt].
    + destruct (Hp d Hlt) as (k' & v' & ? & _). congruence.
    + congruence.
    + specialize (Hj d' Hgt). unfold ends in Hj. rewrite Hd' in Hj.
      by rewrite bool_decide_true in Hj.
Qed.

Lemma get_ok key : Z.of_nat (size M) < cap t → table_get t key = Some (M !! key).
Proof using Hok.
  intros Hfree. unfold table_get. pose proof cap_pos. rewrite (proj2 (Z.eqb_neq _ _)) by lia.
  destruct (probe_ends key Hfree) as (d & Hd & -> & He & Hj). cbn [mbind option_bind].
  rewrite slot_at, (end_reads key d Hd He Hj). by destruct (slot t key d) as [[k v]|].
Qed.

(** The slots after a write at [at_ key d]. *)
Lemma slot_write key d kv n k j :
  let t' := Table (<[Z.to_nat (at_ key d) := Some kv]> (entry t)) (cap t) n in
  slot t' k j = if decide (at_ k j = at_ key d) then Some kv else slot t k j.
Proof using Hok.
  simpl. unfold slot at 1. simpl. fold (at_ k j). pose proof (at_range k j). pose proof (at_range key d).
  destruct (decide (at_ k j = at_ key d)) as [->|Hne].
  - rewrite list_lookup_insert_eq; [done|]. pose proof (tb_len _ _ Hok). unfold blen in *. lia.
  - rewrite list_lookup_insert_ne by lia. done.
Qed.

(** A write at the end of the key's probe. *)
Lemma slot_write_ok key v d n :
  Z.of_nat (size M) < cap t → Z.of_nat d < cap t → ends key d = true →
  (∀ j, (j < d)%nat → ends key j = false) →
  n = Z.of_nat (size (<[key := v]> M)) →
  table_ok (Table (<[Z.to_nat (at_ key d) := Some (key, v)]> (entry t)) (cap t) n) (<[key := v]> M).
Proof using Hok.
  intros Hfree Hd He Hj Hn. pose proof (at_range key d) as Hat. pose proof (end_reads key d Hd He Hj) as HM.
  assert (∀ k j, at_ k j = at_ key d → slot t k j = slot t key d) as Hsame.
  { intros k j E. pose proof (slot_at k j) as H1. rewrite E, slot_at in H1. by injection H1. }
  split; simpl.
  - apply (tb_cap _ _ Hok).
  - unfold blen. rewrite length_insert. apply (tb_len _ _ Hok).
  - done.
  - rewrite (occupied_insert _ _ _ _ (slot_at key d)), (tb_count _ _ Hok).
    rewrite map_size_insert, HM. destruct (slot t key d) as [[k w]|]; simpl; lia.
  - intros k w. intros [[<- <-]|[Hk HMk]]%lookup_insert_Some.
    + exists d. split; [done|]. rewrite slot_write, decide_True by done. split; [done|].
      intros j Hlt. specialize (Hj j Hlt) as He'. rewrite slot_write.
      destruct (decide _) as [E|_].
      * exfalso. unfold ends in He, He'. rewrite (Hsame key j E) in He'. congruence.
      * unfold ends in He'. destruct (slot t key j) as [[k' v']|]; [|done].
        exists k', v'. split; [done|]. intros ->. by rewrite bool_decide_true in He'.
    + destruct (tb_path _ _ Hok _ _ HMk) as (e & Hlt & Hs & Hp). exists e. split; [done|].
      split.
      * rewrite slot_write. destruct (decide _) as [E|_]; [|done].
        exfalso. rewrite (Hsame k e E) in Hs. unfold ends in He. rewrite Hs in He.
        by apply bool_decide_eq_true in He.
      * intros j Hje. rewrite slot_write. destruct (decide _) as [E|_]; [|by apply Hp].
        exists key, v. split; [done|]. congruence.
  - intros i k w Hi. destruct (decide (i = Z.to_nat (at_ key d))) as [->|Hne].
    + rewrite list_lookup_insert_eq in Hi.
      * injection Hi as <- <-. apply lookup_insert_eq.
      * pose proof (tb_len _ _ Hok). unfold blen in *. lia.
    + rewrite list_lookup_insert_ne in Hi by done. pose proof (tb_real _ _ Hok _ _ _ Hi) as HMk.
      rewrite lookup_insert_ne; [done|]. intros <-. rewrite HMk in HM.
      destruct (slot t key d) as [[k' w']|] eqn:Hs; [|done]. unfold ends in He. rewrite Hs in He.
      apply bool_decide_eq_true in He as ->. apply Hne.
      apply (tb_once _ _ Hok _ _ key w w'); [done|]. by rewrite slot_at, Hs.
  - intros i j k w w' Hi Hj'.
    assert (∀ x u, <[Z.to_nat (at_ key d):=Some (key, v)]> (entry t) !! x = Some (Some (key, u)) →
      x = Z.to_nat (at_ key d)) as Hkey.
    { intros x u Hx. destruct (decide (x = Z.to_nat (at_ key d))) as [|Hx']; [done|].
      rewrite list_lookup_insert_ne in Hx by done. pose proof (tb_real _ _ Hok _ _ _ Hx) as HMk.
      rewrite HMk in HM. destruct (slot t key d) as [[k' w'']|] eqn:Hs; [|done].
      unfold ends in He. rewrite Hs in He. apply bool_decide_eq_true in He as ->.
      apply (tb_once _ _ Hok _ _ key u w''); [done|]. by rewrite slot_at, Hs. }
    destruct (decide (k = key)) as [->|Hk]; [by rewrite (Hkey _ _ Hi), (Hkey _ _ Hj')|].
    apply list_lookup_insert_Some in Hi as [(_ & [= <- <-] & _)|[_ Hi]]; [done|].
    apply list_lookup_insert_Some in Hj' as [(_ & [= <- <-] & _)|[_ Hj']]; [done|].
    by apply (tb_once _ _ Hok _ _ k w w').
Qed.

(** The last proof of uniqueness above uses that a key has one slot; with it, a put
    is an insertion. *)
Lemma table_put_ok key v :
  Z.of_nat (size M) < cap t →
  ∃ t', table_put t key v = Some t' ∧ cap t' = cap t ∧ table_ok t' (<[key := v]> M).
Proof using Hok.
  intros Hfree. unfold table_put. destruct (probe_ends key Hfree) as (d & Hd & -> & He & Hj).
  cbn [mbind option_bind]. rewrite slot_at. pose proof (end_reads key d Hd He Hj) as HM.
  assert (size (<[key := v]> M) = match M !! key with None => S (size M) | _ => size M end) as Hsz
    by (rewrite map_size_insert; by destruct (M !! key)).
  rewrite HM in Hsz.
  destruct (slot t key d) as [p|]; (eexists; split; [done|]; split; [done|]; apply slot_write_ok; try done);
    rewrite (tb_used _ _ Hok); simpl in Hsz; lia.
Qed.
End table.

(** ** A fresh table *)

Lemma table_init_ok n :
  0 <= n <= 2 ^ 61 → ∃ t, table_init n = Some t ∧ table_ok t ∅ ∧ n * 2 + 16 <= cap t.
Proof.
  intros Hn. unfold table_init. rewrite wrap_id by (unfold fits; lia).
  destruct (next_pow2_ok (n * 2 + 16)) as (k & Hk & -> & Hle); [lia|]. simpl.
  eexists. split; [done|]. split; [|done].
  assert (∀ i o, replicate (Z.to_nat (2 ^ k)) (@None (list Z * Z)) !! i = Some o → o = None) as Hnone.
  { intros i o [? _]%lookup_replicate. done. }
  split; simpl; try done.
  - by exists k.
  - unfold blen. rewrite length_replicate. pose proof (Z.pow_nonneg 2 k). lia.
  - unfold n_occupied. generalize (Z.to_nat (2 ^ k)) as m. intros m. by induction m.
  - intros i key v Hi. by apply Hnone in Hi.
  - intros i j key v w Hi. by apply Hnone in Hi.
Qed.

Definition map_of (l : list (list Z * Z)) : gmap (list Z) Z :=
  fold_left (fun M kv => <[fst kv := snd kv]> M) l ∅.

Lemma table_put_all_ok t M l :
  table_ok t M → Z.of_nat (size M) + blen l <= cap t →
  ∃ t', put_all t l = Some t' ∧ cap t' = cap t ∧
    table_ok t' (fold_left (fun M kv => <[fst kv := snd kv]> M) l M).
Proof.
  revert t M. induction l as [|[k v] l IH]; intros t M Hok Hl; [by exists t|].
  rewrite blen_cons in Hl. pose proof (blen_nonneg l). cbn [put_all fold_left].
  destruct (table_put_ok t M Hok k v) as (t1 & -> & Hc & Hok1); [lia|]. cbn [mbind option_bind fst snd].
  destruct (IH t1 _ Hok1) as (t' & Ht' & Hc' & Hok').
  - rewrite Hc. assert (size (<[k := v]> M) <= S (size M))%nat; [|lia].
    rewrite map_size_insert. destruct (M !! k); simpl; lia.
  - exists t'. split; [done|]. split; [congruence|done].
Qed.

Lemma map_of_size l : Z.of_nat (size (map_of l)) <= blen l.
Proof.
  unfold map_of. assert (∀ (M : gmap (list Z) Z), Z.of_nat (size (fold_left (fun M kv => <[fst kv := snd kv]> M) l M))
    <= Z.of_nat (size M) + blen l) as Hsz; [|specialize (Hsz ∅); rewrite map_size_empty in Hsz; lia].
  induction l as [|[k v] l IH]; intros M; cbn [fold_left]; [rewrite blen_nil; lia|].
  rewrite blen_cons. etransitivity; [apply IH|]. cbn [fst snd]. rewrite map_size_insert. destruct (M !! k); simpl; lia.
Qed.

(** As long as fewer puts are made than there are slots. *)
Lemma table_reads_as_map n :
  0 <= n <= 2 ^ 61 → ∃ t0, table_init n = Some t0 ∧ n * 2 + 16 <= cap t0 ∧ (∃ k, 0 <= k <= 63 ∧ cap t0 = 2 ^ k) ∧
    ∀ l, blen l < cap t0 → ∃ t, put_all t0 l = Some t ∧ ∀ key, table_get t key = Some (map_of l !! key).
Proof.
  intros Hn. destruct (table_init_ok n Hn) as (t0 & -> & Hok0 & Hcap). exists t0. split; [done|]. split; [done|].
  split; [apply (tb_cap _ _ Hok0)|]. intros l Hl.
  destruct (table_put_all_ok t0 ∅ l Hok0) as (t & Ht & Hc & Hok); [rewrite map_size_empty; lia|].
  exists t. split; [done|]. intros key. apply get_ok; [done|]. pose proof (map_of_size l). unfold map_of in *. lia.
Qed.

(** The tokenizer's string table answers like a finite map: a table made for [n]
    entries takes up to 2n + 15 puts, and a lookup then ends with the value last put
    under the key, or with none; collisions and the wrap-around of the probe make
    no difference. *)
Lemma filled_table_reads n l :
  0 <= n <= 2 ^ 61 → blen l < n * 2 + 16 →
  ∃ t0 t, table_init n = Some t0 ∧ put_all t0 l = Some t ∧
    ∀ key, table_get t key = Some (map_of l !! key).
Proof.
  intros Hn Hl. destruct (table_reads_as_map n Hn) as (t0 & H0 & Hcap & _ & Hall). exists t0.
  destruct (Hall l ltac:(lia)) as (t & Ht & Hget). by exists t.
Qed.

(** In a table without a free slot the probe for an absent key never ends. *)
Lemma full_table_hangs t key fuel i k :
  0 <= k → cap t = 2 ^ k →
  (∀ i, 0 <= i < cap t → ∃ k v, entry t !! Z.to_nat i = Some (Some (k, v)) ∧ k ≠ key) →
  0 <= i < cap t → probe fuel t key i = None.
Proof.
  intros Hk0 Hc Hfull. revert i. induction fuel as [|f IH]; intros i Hi; [done|]. simpl.
  destruct (Hfull i Hi) as (k' & v & -> & Hk). rewrite bool_decide_false by done.
  apply IH. rewrite Hc. replace (2 ^ k - 1) with (Z.ones k) by (rewrite Z.ones_equiv; lia).
  rewrite Z.land_ones by done. apply Z.mod_pos_bound. lia.
Qed.

(** The table vocab_load makes for the USER_DEFINED tokens of a model is sized for 64
    of them whatever their number; with 256 of them it is full. *)
Definition many_tokens : list (list Z * Z) := map (fun i => ([i; 1], i)) (seqZ 0 256).

Definition crowded : option str_i32_table := t0 ← table_init 64; put_all t0 many_tokens.

(** No free slot, and no slot with the key [x]. *)
Definition crowded_check (t : str_i32_table) : bool :=
  (cap t =? 256) && (length (entry t) =? 256)%nat &&
  (0 <=? start t (bs "x")) && (start t (bs "x") <? 256) &&
  forallb (fun o => match o with Some (k, _) => negb (bool_decide (k = bs "x")) | None => false end)
    (entry t).

Lemma crowded_checked : match crowded with Some t => crowded_check t | None => false end = true.
Proof. vm_compute. reflexivity. Qed.

Lemma user_table_fills_up :
  ∃ t, crowded = Some t ∧ ∀ fuel, probe fuel t (bs "x") (start t (bs "x")) = None.
Proof.
  pose proof crowded_checked as H. destruct crowded as [t|]; [|done]. exists t. split; [done|].
  intros fuel. unfold crowded_check in H. rewrite !andb_true_iff in H.
  destruct H as ((((Hc & Hlen) & Hs1) & Hs2) & Hall).
  apply Z.eqb_eq in Hc. apply Nat.eqb_eq in Hlen.
  apply (full_table_hangs _ _ _ _ 8); [done|change (2 ^ 8) with 256; lia| |lia]. intros i Hi.
  destruct (lookup_lt_is_Some_2 (entry t) (Z.to_nat i)) as [o Ho]; [lia|].
  rewrite forallb_forall in Hall. specialize (Hall o).
  rewrite <- list_elem_of_In in Hall. specialize (Hall ltac:(by eapply list_elem_of_lookup_2)).
  destruct o as [[k v]|]; [|done]. exists k, v. split; [done|].
  intros ->. by rewrite bool_decide_true in Hall.
Qed.
