(* ===== verification/Bpe.v ===== *)
(** * Byte-level BPE (ds4.c)

    Bytes are mapped to printable code points, the symbols of a piece are merged by
    rank, and the resulting symbols are looked up as tokens; the way back turns a
    token's spelling into bytes again.  The tables are used through an interface,
    which the hash table of StrTable and finite maps both implement. *)

From S2P Require Import Prelude StrTable.

(** ** The interface of a table *)

Class Dict (T : Type) := dget : T → list Z → option Z.

(** table_get; a probe that would not end finds nothing. *)
#[export] Instance hashed : Dict str_i32_table := fun t k => default None (table_get t k).
#[export] Instance mapped : Dict (gmap (list Z) Z) := fun M k => M !! k.

(** ** Vocabulary *)

(** struct ds4_vocab, as tokenization and decoding read it *)
Record ds4_vocab (T : Type) := Vocab {
  token : list (list Z);
  token_to_id : T;
  merge_rank : T;
  user_defined : T;
  user_defined_max_len : Z;
  user_defined_first : list bool;
  motif3_added_first : list bool }.

Arguments Vocab {T}.
Arguments token {T}.
Arguments token_to_id {T}.
Arguments merge_rank {T}.
Arguments user_defined {T}.
Arguments user_defined_max_len {T}.
Arguments user_defined_first {T}.
Arguments motif3_added_first {T}.

(** ** Bytes as code points *)

Definition utf8_put (cp : Z) : list Z :=
  if cp <=? 0x7f then [u8 cp]
  else if cp <=? 0x7ff then
    [u8 (Z.lor 0xc0 (Z.shiftr cp 6)); u8 (Z.lor 0x80 (Z.land cp 0x3f))]
  else if cp <=? 0xffff then
    [u8 (Z.lor 0xe0 (Z.shiftr cp 12)); u8 (Z.lor 0x80 (Z.land (Z.shiftr cp 6) 0x3f));
     u8 (Z.lor 0x80 (Z.land cp 0x3f))]
  else
    [u8 (Z.lor 0xf0 (Z.shiftr cp 18)); u8 (Z.lor 0x80 (Z.land (Z.shiftr cp 12) 0x3f));
     u8 (Z.lor 0x80 (Z.land (Z.shiftr cp 6) 0x3f)); u8 (Z.lor 0x80 (Z.land cp 0x3f))].

(** The bytes that stand for themselves. *)
Definition printable (b : Z) : bool :=
  ((33 <=? b) && (b <=? 126)) || ((161 <=? b) && (b <=? 172)) || (174 <=? b).

(** The loop over the others, [n] of them passed so far; [b] is the answer when it
    runs out. *)
Fixpoint hidden_index (xs : list Z) (b n : Z) : Z :=
  match xs with
  | [] => b
  | x :: xs => if printable x then hidden_index xs b n
               else if x =? b then 256 + n else hidden_index xs b (n + 1)
  end.

Definition gpt2_byte_to_codepoint (b : Z) : Z :=
  if printable b then b else hidden_index (seqZ 0 256) b 0.

(** byte_encode *)
Definition byte_encode (l : list Z) : list Z := flat_map (fun b => utf8_put (gpt2_byte_to_codepoint b)) l.

Definition utf8_len_from_first_byte (c : Z) : Z :=
  if c <? 0x80 then 1
  else if Z.land c 0xe0 =? 0xc0 then 2
  else if Z.land c 0xf0 =? 0xe0 then 3
  else if Z.land c 0xf8 =? 0xf0 then 4
  else 1.

(** ** Merging *)

(** The symbols of an encoded piece: one per code point. *)
Fixpoint symbols (fuel : nat) (enc : list Z) : option (list (list Z)) :=
  match enc, fuel with
  | [], _ => Some []
  | _, O => None
  | c :: _, S fuel =>
      let n := utf8_len_from_first_byte c in
      let n := if blen enc <? n then 1 else n in
      rest ← symbols fuel (zdrop n enc);
      Some (ztake n enc :: rest)
  end.

Section bpe.
Context {T : Type} `{Dict T} (vocab : ds4_vocab T).

(** bpe_rank: -1 where the pair has no merge *)
Definition bpe_rank (a b : list Z) : Z := default (-1) (dget (merge_rank vocab) (a ++ [32] ++ b)).

(** The lowest rank of two neighbours, INT32_MAX when there is none. *)
Fixpoint best_rank (sym : list (list Z)) (best : Z) : Z :=
  match sym with
  | a :: (b :: _) as t =>
      let rank := bpe_rank a b in
      best_rank t (if (0 <=? rank) && (rank <? best) then rank else best)
  | _ => best
  end.

(** The pass that merges the pairs of that rank from the left. *)
Fixpoint merge_pass (sym : list (list Z)) (best : Z) : list (list Z) :=
  match sym with
  | a :: t =>
      match t with
      | b :: rest => if bpe_rank a b =? best then (a ++ b) :: merge_pass rest best
                     else a :: merge_pass t best
      | [] => [a]
      end
  | [] => []
  end.

Fixpoint merge_loop (fuel : nat) (sym : list (list Z)) : option (list (list Z)) :=
  let best := best_rank sym INT_MAX in
  if best =? INT_MAX then Some sym
  else match fuel with O => None | S fuel => merge_loop fuel (merge_pass sym best) end.

(** The tokens of one symbol: itself, or those of its bytes that are tokens. *)
Definition symbol_tokens (s : list Z) : list Z :=
  match dget (token_to_id vocab) s with
  | Some t => [t]
  | None => flat_map (fun b => match dget (token_to_id vocab) [b] with
                               | Some t => [t] | None => [] end) s
  end.

(** bpe_emit_piece, as the tokens it appends *)
Definition bpe_emit_piece (raw : list Z) : option (list Z) :=
  let enc := byte_encode raw in
  sym ← symbols (length enc) enc;
  out ← merge_loop (length sym) sym;
  Some (flat_map symbol_tokens out).

(** ** Decoding *)

(** utf8_decode_one: the code point at [pos] and the position behind it *)
Definition utf8_decode_one (s : list Z) (pos : Z) : Z * Z :=
  let len := blen s in
  let c := znth 0 s pos in
  let b k := Z.land (znth 0 s (pos + k)) 0x3f in
  if (c <? 0x80) || (len <=? pos + 1) then (c, pos + 1)
  else if (Z.land c 0xe0 =? 0xc0) && (pos + 1 <? len) then
    (Z.lor (Z.shiftl (Z.land c 0x1f) 6) (b 1), pos + 2)
  else if (Z.land c 0xf0 =? 0xe0) && (pos + 2 <? len) then
    (Z.lor (Z.lor (Z.shiftl (Z.land c 0x0f) 12) (Z.shiftl (b 1) 6)) (b 2), pos + 3)
  else if (Z.land c 0xf8 =? 0xf0) && (pos + 3 <? len) then
    (Z.lor (Z.lor (Z.lor (Z.shiftl (Z.land c 0x07) 18) (Z.shiftl (b 1) 12))
                  (Z.shiftl (b 2) 6)) (b 3), pos + 4)
  else (c, pos + 1).

Fixpoint hidden_byte (xs : list Z) (cp n : Z) : Z :=
  match xs with
  | [] => -1
  | x :: xs => if printable x then hidden_byte xs cp n
               else if cp =? 256 + n then x else hidden_byte xs cp (n + 1)
  end.

Definition gpt2_codepoint_to_byte (cp : Z) : Z :=
  if ((33 <=? cp) && (cp <=? 126)) || ((161 <=? cp) && (cp <=? 172)) ||
     ((174 <=? cp) && (cp <=? 255)) then cp
  else hidden_byte (seqZ 0 256) cp 0.

(** A token that holds U+FF5C is spelled literally. *)
Fixpoint vocab_token_is_literal_special (s : list Z) : bool :=
  match s with
  | [] => false
  | _ :: t => bool_decide (take 3 s = [0xef; 0xbd; 0x9c]) || vocab_token_is_literal_special t
  end.

Fixpoint decode_loop (fuel : nat) (s : list Z) (pos : Z) : option (list Z) :=
  if blen s <=? pos then Some []
  else match fuel with
  | O => None
  | S fuel =>
      let '(cp, next) := utf8_decode_one s pos in
      let b := gpt2_codepoint_to_byte cp in
      rest ← decode_loop fuel s next;
      Some ((if 0 <=? b then [u8 b] else ztake (next - pos) (zdrop pos s)) ++ rest)
  end.

(** vocab_token_text: a token outside the vocabulary has no text *)
Definition vocab_token_text (t : Z) : option (list Z) :=
  if (t <? 0) || (blen (token vocab) <=? t) then Some []
  else
    let s := znth [] (token vocab) t in
    if vocab_token_is_literal_special s then Some s
    else decode_loop (length s) s 0.
End bpe.
