(* ===== verification/BpeSpec.v ===== *)
(** * What byte-level BPE promises

    Encoding is a bijection on bytes, the merge loop ends in a state without a
    mergeable pair, and the tokens of a piece spell the piece. *)

From S2P Require Import Prelude StrTable Bpe.

(** ** The byte encoding *)

Definition enc (b : Z) : list Z := utf8_put (gpt2_byte_to_codepoint b).

(** Everything about one byte, checked at all 256. *)
Definition enc_checked (b : Z) : bool :=
  match enc b with
  | [c] => (c <? 0x80) && (c =? gpt2_byte_to_codepoint b) && (utf8_len_from_first_byte c =? 1) &&
           negb (c =? 0xef)
  | [c; d] => negb (c <? 0x80) && (Z.land c 0xe0 =? 0xc0) && (utf8_len_from_first_byte c =? 2) &&
              (Z.lor (Z.shiftl (Z.land c 0x1f) 6) (Z.land d 0x3f) =? gpt2_byte_to_codepoint b) &&
              negb (c =? 0xef) && negb (d =? 0xef)
  | _ => false
  end && (gpt2_codepoint_to_byte (gpt2_byte_to_codepoint b) =? b).

Lemma enc_all b : byte_ok b → enc_checked b = true.
Proof.
  intros Hb. apply (forallb_range enc_checked 256); [vm_compute; reflexivity|exact Hb].
Qed.

Lemma enc_shape b : byte_ok b →
  (∃ c, enc b = [c] ∧ c < 0x80 ∧ c = gpt2_byte_to_codepoint b ∧ utf8_len_from_first_byte c = 1 ∧ c ≠ 0xef) ∨
  (∃ c d, enc b = [c; d] ∧ 0x80 <= c ∧ Z.land c 0xe0 = 0xc0 ∧ utf8_len_from_first_byte c = 2 ∧
    Z.lor (Z.shiftl (Z.land c 0x1f) 6) (Z.land d 0x3f) = gpt2_byte_to_codepoint b ∧ c ≠ 0xef ∧ d ≠ 0xef).
Proof.
  intros Hb%enc_all. unfold enc_checked in Hb. rewrite andb_true_iff in Hb. destruct Hb as [Hb _].
  destruct (enc b) as [|c [|d [|]]]; try done.
  - left. exists c. rewrite !andb_true_iff, negb_true_iff in Hb.
    destruct Hb as (((? & ?) & ?) & ?). split; [done|]. split_and!; lia.
  - right. exists c, d. rewrite !andb_true_iff, !negb_true_iff in Hb.
    destruct Hb as (((((? & ?) & ?) & ?) & ?) & ?).
    split; [done|]. split_and!; lia.
Qed.

Lemma codepoint_back b : byte_ok b → gpt2_codepoint_to_byte (gpt2_byte_to_codepoint b) = b.
Proof.
  intros Hb%enc_all. unfold enc_checked in Hb. rewrite andb_true_iff in Hb. destruct Hb as [_ Hb]. lia.
Qed.

Lemma encode_cons b l : byte_encode (b :: l) = enc b ++ byte_encode l.
Proof. done. Qed.

Lemma encode_app l k : byte_encode (l ++ k) = byte_encode l ++ byte_encode k.
Proof. unfold byte_encode. by rewrite flat_map_app. Qed.

Lemma encode_nil l : bytes_ok l → byte_encode l = [] → l = [].
Proof.
  intros Hl. destruct Hl as [|b l Hb _]; [done|]. rewrite encode_cons.
  by destruct (enc_shape b Hb) as [(c & -> & _)|(c & d & -> & _)].
Qed.

Lemma symbols_encode fuel l :
  bytes_ok l → (length l <= fuel)%nat → symbols fuel (byte_encode l) = Some (map enc l).
Proof.
  revert l. induction fuel as [|f IH]; intros l Hl Hf.
  - by destruct l; [|simpl in Hf; lia].
  - destruct Hl as [|b l Hb Hl]; [done|]. rewrite encode_cons.
    assert (symbols f (byte_encode l) = Some (map enc l)) as IHl by (apply IH; [done|simpl in Hf; lia]).
    destruct (enc_shape b Hb) as [(c & E & _ & _ & Hn & _)|(c & d & E & _ & _ & Hn & _)]; rewrite E.
    + cbn [symbols app]. rewrite Hn, (proj2 (Z.ltb_ge _ _)).
      2: { rewrite blen_cons. pose proof (blen_nonneg (byte_encode l)). lia. }
      change (zdrop 1 (c :: byte_encode l)) with (byte_encode l). rewrite IHl.
      change (ztake 1 (c :: byte_encode l)) with [c]. simpl. by rewrite E.
    + cbn [symbols app]. rewrite Hn, (proj2 (Z.ltb_ge _ _)).
      2: { rewrite !blen_cons. pose proof (blen_nonneg (byte_encode l)). lia. }
      change (zdrop 2 (c :: d :: byte_encode l)) with (byte_encode l). rewrite IHl.
      change (ztake 2 (c :: d :: byte_encode l)) with [c; d]. simpl. by rewrite E.
Qed.

Lemma encode_length l : bytes_ok l → (length l <= length (byte_encode l))%nat.
Proof.
  induction 1 as [|b l Hb _ IH]; [done|]. rewrite encode_cons, length_app. simpl.
  destruct (enc_shape b Hb) as [(c & -> & _)|(c & d & -> & _)]; simpl; lia.
Qed.

Lemma encode_no_bar l : bytes_ok l → Forall (λ c, c ≠ 0xef) (byte_encode l).
Proof.
  induction 1 as [|b l Hb _ IH]; [constructor|]. rewrite encode_cons. apply Forall_app. split; [|done].
  destruct (enc_shape b Hb) as [(c & -> & ?)|(c & d & -> & ?)]; repeat constructor; tauto.
Qed.

Lemma not_special l : Forall (λ c, c ≠ 0xef) l → vocab_token_is_literal_special l = false.
Proof.
  induction 1 as [|c l Hc _ IH]; [done|]. cbn [vocab_token_is_literal_special]. rewrite IH, orb_false_r.
  apply bool_decide_eq_false. simpl. congruence.
Qed.

(** ** Merging *)

Section merge.
Context {T : Type} `{Dict T} (vocab : ds4_vocab T).

Abbreviation rank := (bpe_rank vocab).

(** Two neighbours with that rank. *)
Fixpoint has_pair (sym : list (list Z)) (r : Z) : Prop :=
  match sym with
  | a :: t => match t with b :: _ => rank a b = r ∨ has_pair t r | [] => False end
  | [] => False
  end.

Lemma has_pair_cons a b t r : has_pair (a :: b :: t) r ↔ rank a b = r ∨ has_pair (b :: t) r.
Proof. done. Qed.

Lemma best_rank_cons a b t best :
  best_rank vocab (a :: b :: t) best =
    best_rank vocab (b :: t) (if (0 <=? rank a b) && (rank a b <? best) then rank a b else best).
Proof. done. Qed.

Lemma merge_pass_cons a b t r :
  merge_pass vocab (a :: b :: t) r =
    if rank a b =? r then (a ++ b) :: merge_pass vocab t r else a :: merge_pass vocab (b :: t) r.
Proof. done. Qed.

Lemma best_rank_nonneg sym best : 0 <= best → 0 <= best_rank vocab sym best.
Proof.
  revert best. induction sym as [|a [|b t] IH]; intros best Hb; [done..|].
  rewrite best_rank_cons. apply IH. destruct (_ && _) eqn:Hr; lia.
Qed.

Lemma best_rank_le sym best : best_rank vocab sym best <= best.
Proof.
  revert best. induction sym as [|a [|b t] IH]; intros best; [simpl; lia..|].
  rewrite best_rank_cons. etransitivity; [apply IH|]. destruct (_ && _) eqn:Hr; lia.
Qed.

Lemma best_rank_pair sym best :
  best_rank vocab sym best = best ∨ has_pair sym (best_rank vocab sym best).
Proof.
  revert best. induction sym as [|a [|b t] IH]; intros best; [by left..|].
  rewrite best_rank_cons, has_pair_cons.
  destruct (IH (if (0 <=? rank a b) && (rank a b <? best) then rank a b else best)) as [E|E]; [|by do 2 right].
  rewrite E. destruct (_ && _); [by right; left|by left].
Qed.

(** No pair that was passed has a lower rank. *)
Lemma best_rank_min sym best r :
  has_pair sym r → 0 <= r → best_rank vocab sym best <= r.
Proof.
  revert best. induction sym as [|a [|b t] IH]; intros best Hp Hr; [done..|].
  rewrite best_rank_cons. apply has_pair_cons in Hp as [E|Hp]; [|by apply IH].
  etransitivity; [apply best_rank_le|]. destruct (_ && _) eqn:Hc; lia.
Qed.

Lemma merge_pass_le sym r : (length (merge_pass vocab sym r) <= length sym)%nat.
Proof.
  induction sym as [sym IH] using (well_founded_induction (well_founded_ltof _ length)).
  destruct sym as [|a [|b t]]; [done..|]. rewrite merge_pass_cons.
  destruct (_ =? r); simpl.
  - pose proof (IH t). unfold ltof in *. simpl in *. lia.
  - pose proof (IH (b :: t)). unfold ltof in *. simpl in *. lia.
Qed.

Lemma merge_pass_lt sym r : has_pair sym r → (length (merge_pass vocab sym r) < length sym)%nat.
Proof.
  induction sym as [|a [|b t] IH]; [done..|]. intros Hp%has_pair_cons. rewrite merge_pass_cons.
  destruct (rank a b =? r) eqn:Hab.
  - pose proof (merge_pass_le t r). simpl. lia.
  - destruct Hp as [E|Hp]; [lia|]. specialize (IH Hp). change (length (a :: b :: t)) with (S (length (b :: t))).
    change (length (a :: merge_pass vocab (b :: t) r)) with (S (length (merge_pass vocab (b :: t) r))). lia.
Qed.

Lemma merge_pass_concat sym r : concat (merge_pass vocab sym r) = concat sym.
Proof.
  induction sym as [sym IH] using (well_founded_induction (well_founded_ltof _ length)).
  destruct sym as [|a [|b t]]; [done..|]. rewrite merge_pass_cons.
  destruct (_ =? r); cbn [concat].
  - rewrite IH by (unfold ltof; simpl; lia). by rewrite app_assoc.
  - f_equal. apply (IH (b :: t)). unfold ltof. simpl. lia.
Qed.

(** What holds of the symbols and of merged pairs holds after the pass. *)
Lemma merge_pass_Forall (P : list Z → Prop) sym r :
  Forall P sym → (∀ a b, P a → P b → rank a b = r → P (a ++ b)) → Forall P (merge_pass vocab sym r).
Proof.
  intros Hs HP. revert Hs.
  induction sym as [sym IH] using (well_founded_induction (well_founded_ltof _ length)).
  destruct sym as [|a [|b t]]; [done..|]. rewrite merge_pass_cons.
  intros [Ha [Hb Ht]%Forall_cons]%Forall_cons. destruct (_ =? r) eqn:Hr.
  - constructor; [apply HP; [done|done|lia]|]. apply IH; [unfold ltof; simpl; lia|done].
  - constructor; [done|]. apply (IH (b :: t)); [unfold ltof; simpl; lia|by constructor].
Qed.

(** The loop ends where no pair can be merged, having only merged. *)
Lemma merge_loop_ok (P : list Z → Prop) fuel sym :
  (length sym <= fuel)%nat → Forall P sym →
  (∀ a b, P a → P b → 0 <= rank a b → P (a ++ b)) →
  ∃ out, merge_loop vocab fuel sym = Some out ∧ concat out = concat sym ∧ Forall P out ∧
    ∀ r, has_pair out r → 0 <= r → INT_MAX <= r.
Proof.
  revert sym. induction fuel as [|f IH]; intros sym Hf Hs HP; cbn [merge_loop];
    destruct (best_rank vocab sym INT_MAX =? INT_MAX) eqn:Hb.
  1, 3: exists sym; do 3 (split; [done|]); intros r Hr Hr0;
    pose proof (best_rank_min sym INT_MAX r Hr Hr0); lia.
  - assert (sym = []) as -> by (destruct sym; [done|simpl in Hf; lia]). by simpl in Hb.
  - destruct (best_rank_pair sym INT_MAX) as [E|Hp]; [lia|].
    pose proof (merge_pass_lt _ _ Hp) as Hlt.
    assert (0 <= best_rank vocab sym INT_MAX) as H0 by (apply best_rank_nonneg; lia).
    destruct (IH (merge_pass vocab sym (best_rank vocab sym INT_MAX))) as (out & -> & Hc & Ho & Hn).
    + lia.
    + apply merge_pass_Forall; [done|]. intros a b Ha Hbb E. apply HP; [done|done|lia].
    + done.
    + exists out. split; [done|]. split; [by rewrite Hc, merge_pass_concat|done].
Qed.
End merge.

(** ** Decoding *)

Lemma znth_skip {A} (x : A) l k i : 0 <= i → znth x (l ++ k) (blen l + i) = znth x k i.
Proof.
  intros Hi. unfold znth, blen. rewrite Z2Nat.inj_add, Nat2Z.id by lia.
  rewrite app_nth2 by lia. f_equal. lia.
Qed.

Lemma decode_one l b r : byte_ok b →
  utf8_decode_one (l ++ enc b ++ r) (blen l) = (gpt2_byte_to_codepoint b, blen l + blen (enc b)).
Proof.
  intros Hb. unfold utf8_decode_one. replace (znth 0 (l ++ enc b ++ r) (blen l))
    with (znth 0 (enc b ++ r) 0) by (rewrite <- (znth_skip 0 l) by done; by rewrite Z.add_0_r).
  rewrite !znth_skip by lia. rewrite !blen_app. pose proof (blen_nonneg r).
  destruct (enc_shape b Hb) as [(c & -> & Hc & Hcp & _)|(c & d & -> & Hc & Hl & _ & Hcp & _)].
  - change (znth 0 ([c] ++ r) 0) with c. rewrite (proj2 (Z.ltb_lt c 0x80) Hc). simpl. by rewrite Hcp.
  - change (znth 0 ([c; d] ++ r) 0) with c. change (znth 0 ([c; d] ++ r) 1) with d.
    rewrite (proj2 (Z.ltb_ge c 0x80) Hc). change (blen [c; d]) with 2.
    rewrite (proj2 (Z.leb_gt _ _)) by lia. rewrite Hl, (proj2 (Z.ltb_lt _ _)) by lia. simpl.
    by rewrite Hcp.
Qed.

Lemma decode_loop_encode fuel p q :
  bytes_ok q → (length q <= fuel)%nat →
  decode_loop fuel (byte_encode p ++ byte_encode q) (blen (byte_encode p)) = Some q.
Proof.
  revert p fuel. induction q as [|b q IH]; intros p fuel Hq Hf.
  - simpl. rewrite app_nil_r. destruct fuel; simpl; by rewrite Z.leb_refl.
  - destruct fuel as [|fuel]; [simpl in Hf; lia|]. apply Forall_cons in Hq as [Hb Hq].
    cbn [decode_loop]. rewrite encode_cons, (proj2 (Z.leb_gt _ _)).
    2: { rewrite !blen_app. pose proof (blen_nonneg (byte_encode q)).
         destruct (enc_shape b Hb) as [(c & -> & _)|(c & d & -> & _)]; [change (blen [c]) with 1|change (blen [c; d]) with 2]; lia. }
    rewrite decode_one by done. rewrite codepoint_back by done.
    rewrite (proj2 (Z.leb_le 0 b)) by apply Hb. rewrite wrap_id by done.
    specialize (IH (p ++ [b]) fuel Hq ltac:(simpl in Hf; lia)).
    rewrite encode_app, blen_app in IH. change (byte_encode [b]) with (enc b ++ []) in IH.
    rewrite app_nil_r, <- app_assoc in IH. by rewrite IH.
Qed.

Section piece.
Context {T : Type} `{Dict T} (vocab : ds4_vocab T).

(** The spelling of a token and its entry in the index go together. *)
Definition spelled : Prop :=
  ∀ s t, dget (token_to_id vocab) s = Some t → token vocab !! Z.to_nat t = Some s ∧ 0 <= t.

(** Every byte is a token, and so is the result of every merge. *)
Definition complete : Prop :=
  (∀ b, byte_ok b → is_Some (dget (token_to_id vocab) (enc b))) ∧
  (∀ a b, is_Some (dget (token_to_id vocab) a) → is_Some (dget (token_to_id vocab) b) →
     0 <= bpe_rank vocab a b → is_Some (dget (token_to_id vocab) (a ++ b))).

(** The text of a token sequence. *)
Fixpoint tokens_text (ids : list Z) : option (list Z) :=
  match ids with
  | [] => Some []
  | t :: ids => a ← vocab_token_text vocab t; b ← tokens_text ids; Some (a ++ b)
  end.

Lemma tokens_text_cons t l a b :
  vocab_token_text vocab t = Some a → tokens_text l = Some b → tokens_text (t :: l) = Some (a ++ b).
Proof. intros Ha Hb. simpl. by rewrite Ha, Hb. Qed.

Lemma tokens_text_app l k a b :
  tokens_text l = Some a → tokens_text k = Some b → tokens_text (l ++ k) = Some (a ++ b).
Proof.
  revert a. induction l as [|t l IH]; intros a; simpl; [by intros [= <-]|].
  destruct (vocab_token_text vocab t) as [x|]; simpl; [|done].
  destruct (tokens_text l) as [y|]; simpl; [|done]. intros [= <-] Hk.
  rewrite (IH y eq_refl Hk). simpl. by rewrite app_assoc.
Qed.

(** A token spelled as encoded bytes reads as those bytes. *)
Lemma token_text_encoded t q :
  spelled → bytes_ok q → dget (token_to_id vocab) (byte_encode q) = Some t →
  vocab_token_text vocab t = Some q.
Proof.
  intros Hs Hq Ht. destruct (Hs _ _ Ht) as [Hl H0]. unfold vocab_token_text.
  pose proof (lookup_lt_Some _ _ _ Hl). rewrite (proj2 (Z.ltb_ge t 0)) by done.
  rewrite (proj2 (Z.leb_gt _ _)) by (unfold blen; lia). simpl.
  rewrite (znth_lookup _ _ _ _ Hl), not_special by by apply encode_no_bar.
  apply (decode_loop_encode _ [] q Hq). by apply encode_length.
Qed.

(** A symbol: encoded bytes that are a token. *)
Definition symbol (s : list Z) : Prop :=
  ∃ q, s = byte_encode q ∧ bytes_ok q ∧ is_Some (dget (token_to_id vocab) s).

Lemma symbols_text sym :
  spelled → Forall symbol sym →
  ∃ q, tokens_text (flat_map (symbol_tokens vocab) sym) = Some q ∧ bytes_ok q ∧
    byte_encode q = concat sym.
Proof.
  intros Hs. induction 1 as [|s sym (q & -> & Hq & t & Ht) _ (r & IH & Hr & Hc)]; [by exists []|].
  exists (q ++ r). cbn [flat_map concat]. unfold symbol_tokens at 1. rewrite Ht.
  split; [|split; [by apply Forall_app|by rewrite encode_app, Hc]].
  apply tokens_text_cons; [by apply token_text_encoded|done].
Qed.

Lemma encode_inj p q : bytes_ok p → bytes_ok q → byte_encode p = byte_encode q → p = q.
Proof.
  intros Hp Hq E. pose proof (decode_loop_encode (length (byte_encode p)) [] p Hp (encode_length _ Hp)) as H1.
  pose proof (decode_loop_encode (length (byte_encode q)) [] q Hq (encode_length _ Hq)) as H2.
  rewrite E in H1. rewrite H1 in H2. by injection H2.
Qed.

(** The tokens of a piece, and the state the merging ends in. *)
Lemma emit_piece_ok raw :
  spelled → complete → bytes_ok raw →
  ∃ sym ids, bpe_emit_piece vocab raw = Some ids ∧ tokens_text ids = Some raw ∧
    ids = flat_map (symbol_tokens vocab) sym ∧ concat sym = byte_encode raw ∧
    ∀ r, has_pair vocab sym r → 0 <= r → INT_MAX <= r.
Proof.
  intros Hs [Hbase Hmerge] Hraw. unfold bpe_emit_piece. cbv zeta.
  rewrite symbols_encode by (done || by apply encode_length). cbn [mbind option_bind].
  destruct (merge_loop_ok vocab symbol (length (map enc raw)) (map enc raw)) as (sym & -> & Hc & Hsym & Hn).
  - done.
  - apply Forall_map. eapply Forall_impl; [exact Hraw|]. intros b Hb. exists [b].
    split; [simpl; by rewrite app_nil_r|]. split; [by constructor|by apply Hbase].
  - intros a b (p & -> & Hp & Ha) (q & -> & Hq & Hb) Hr. exists (p ++ q).
    split; [by rewrite encode_app|]. split; [by apply Forall_app|by apply Hmerge].
  - cbn [mbind option_bind]. exists sym. eexists. split; [done|].
    assert (concat sym = byte_encode raw) as Hcat by (rewrite Hc; symmetry; apply flat_map_concat_map).
    destruct (symbols_text sym Hs Hsym) as (q & Hq & Hqb & Hqe).
    replace q with raw in Hq by (apply encode_inj; congruence). done.
Qed.
End piece.

(** ** Two tables with the same answers *)

Section agree.
Context {T U : Type} `{Dict T} `{Dict U} (v : ds4_vocab T) (w : ds4_vocab U).

Record vocab_agree : Prop := {
  ag_token : token v = token w;
  ag_ids : ∀ k, dget (token_to_id v) k = dget (token_to_id w) k;
  ag_ranks : ∀ k, dget (merge_rank v) k = dget (merge_rank w) k;
  ag_user : ∀ k, dget (user_defined v) k = dget (user_defined w) k;
  ag_len : user_defined_max_len v = user_defined_max_len w;
  ag_first : user_defined_first v = user_defined_first w;
  ag_motif : motif3_added_first v = motif3_added_first w }.

Context (Hag : vocab_agree).

Lemma rank_agree a b : bpe_rank v a b = bpe_rank w a b.
Proof using Hag. unfold bpe_rank. by rewrite (ag_ranks Hag). Qed.

Lemma emit_agree raw : bpe_emit_piece v raw = bpe_emit_piece w raw.
Proof using Hag.
  assert (∀ sym best, best_rank v sym best = best_rank w sym best) as Hbest.
  { induction sym as [|a [|b t] IH]; intros best; [done..|].
    rewrite !best_rank_cons, IH, rank_agree. done. }
  assert (∀ sym r, merge_pass v sym r = merge_pass w sym r) as Hpass.
  { intros sym r. induction sym as [sym IH] using (well_founded_induction (well_founded_ltof _ length)).
    destruct sym as [|a [|b t]]; [done..|]. rewrite !merge_pass_cons, rank_agree.
    rewrite (IH t), (IH (b :: t)) by (unfold ltof; simpl; lia). done. }
  assert (∀ fuel sym, merge_loop v fuel sym = merge_loop w fuel sym) as Hloop.
  { induction fuel as [|f IH]; intros sym; cbn [merge_loop]; rewrite Hbest; [done|].
    destruct (_ =? _); [done|]. by rewrite Hpass, IH. }
  unfold bpe_emit_piece. cbv zeta. destruct (symbols _ _) as [sym|]; [|done]. cbn [mbind option_bind].
  rewrite Hloop. destruct (merge_loop w _ _) as [out|]; [|done]. cbn [mbind option_bind]. f_equal.
  induction out as [|s out IH]; [done|]. cbn [flat_map]. rewrite IH. f_equal.
  unfold symbol_tokens. rewrite (ag_ids Hag). destruct (dget _ s); [done|].
  apply flat_map_ext. intros b. by rewrite (ag_ids Hag).
Qed.
End agree.
