(* ===== verification/PreTok.v ===== *)
(** * Pre-tokenization (ds4.c)

    Each model family cuts a text into pieces in its own way before byte-level BPE is
    applied to every piece, and some take out tokens that are matched literally
    first.  A splitter here is the function from a position to what the loop does
    there and where it goes on; the text is addressed by position as in the code. *)

From S2P Require Import Prelude StrTable Bpe.

(** ** Characters *)

Definition byte_at (s : list Z) (pos : Z) : Z := znth 0 s pos.

Definition next_utf8_char (s : list Z) (pos : Z) : Z :=
  let n := utf8_len_from_first_byte (byte_at s pos) in
  pos + (if blen s <? pos + n then 1 else n).

Definition ascii_alpha (c : Z) : bool :=
  ((ch "A" <=? c) && (c <=? ch "Z")) || ((ch "a" <=? c) && (c <=? ch "z")).
Definition ascii_digit (c : Z) : bool := (ch "0" <=? c) && (c <=? ch "9").
Definition ascii_space (c : Z) : bool :=
  (c =? 32) || (c =? 9) || (c =? 10) || (c =? 13) || (c =? 11) || (c =? 12).
Definition ascii_newline (c : Z) : bool := (c =? 10) || (c =? 13).
Definition joyai_ascii_punct_symbol (c : Z) : bool :=
  ((ch "!" <=? c) && (c <=? ch "/")) || ((ch ":" <=? c) && (c <=? ch "@")) ||
  ((ch "[" <=? c) && (c <=? ch "`")) || ((ch "{" <=? c) && (c <=? ch "~")).

Definition in_ranges (l : list (Z * Z)) (cp : Z) : bool :=
  existsb (fun r => (fst r <=? cp) && (cp <=? snd r)) l.

Definition utf8_is_cjk_hira_kata (cp : Z) : bool :=
  in_ranges [(0x4e00, 0x9fa5); (0x3040, 0x309f); (0x30a0, 0x30ff)] cp.

(** utf8_peek_one: the code point and the position behind it *)
Definition utf8_peek_one (s : list Z) (pos : Z) : Z * Z :=
  let c0 := byte_at s pos in
  let b k := Z.land (byte_at s (pos + k)) 0x3f in
  let n := utf8_len_from_first_byte c0 in
  let n := if blen s <? pos + n then 1 else n in
  (if n =? 1 then c0
   else if n =? 2 then Z.lor (Z.shiftl (Z.land c0 0x1f) 6) (b 1)
   else if n =? 3 then
     Z.lor (Z.lor (Z.shiftl (Z.land c0 0x0f) 12) (Z.shiftl (b 1) 6)) (b 2)
   else Z.lor (Z.lor (Z.lor (Z.shiftl (Z.land c0 0x07) 18) (Z.shiftl (b 1) 12))
                     (Z.shiftl (b 2) 6)) (b 3), pos + n).

Definition joyai_letter_like_at (s : list Z) (pos : Z) : bool :=
  let c := byte_at s pos in if c <? 128 then ascii_alpha c else true.

Definition joyai_cjk_at (s : list Z) (pos : Z) : bool :=
  if byte_at s pos <? 128 then false else utf8_is_cjk_hira_kata (fst (utf8_peek_one s pos)).

(** glm4_char_info and solar_char_info, which have the same fields *)
Record char_info := Char {
  cp : Z; next : Z; valid : bool; is_letter : bool; is_number : bool; is_whitespace : bool }.

Definition no_char : char_info := Char 0 0 false false false false.

Definition glm4_unicode_whitespace (cp : Z) : bool :=
  if cp <? 128 then ascii_space cp else in_ranges
  [(0x0085, 0x0085); (0x00a0, 0x00a0); (0x1680, 0x1680); (0x2000, 0x200a);
   (0x2028, 0x2028); (0x2029, 0x2029); (0x202f, 0x202f); (0x205f, 0x205f);
   (0x3000, 0x3000)] cp.

Definition glm4_unicode_number (cp : Z) : bool :=
  if cp <? 128 then ascii_digit cp else in_ranges
  [(0x0660, 0x0669); (0x06f0, 0x06f9); (0x07c0, 0x07c9); (0x0966, 0x096f);
   (0x09e6, 0x09ef); (0x0a66, 0x0a6f); (0x0ae6, 0x0aef); (0x0b66, 0x0b6f);
   (0x0be6, 0x0bef); (0x0c66, 0x0c6f); (0x0ce6, 0x0cef); (0x0d66, 0x0d6f);
   (0x0de6, 0x0def); (0x0e50, 0x0e59); (0x0ed0, 0x0ed9); (0x0f20, 0x0f29);
   (0x1040, 0x1049); (0x1090, 0x1099); (0x17e0, 0x17e9); (0x1810, 0x1819);
   (0xff10, 0xff19)] cp.

Definition glm4_unicode_punct_symbol (cp : Z) : bool :=
  if cp <? 128 then joyai_ascii_punct_symbol cp else in_ranges
  [(0x00a1, 0x00a9); (0x00ab, 0x00ac); (0x00ae, 0x00b1); (0x00b4, 0x00b4);
   (0x00b6, 0x00b8); (0x00bb, 0x00bb); (0x00bf, 0x00bf); (0x00d7, 0x00d7);
   (0x00f7, 0x00f7); (0x02c2, 0x02df); (0x02e5, 0x02eb); (0x02ed, 0x02ff);
   (0x0375, 0x037e); (0x0384, 0x0385); (0x0387, 0x0387); (0x055a, 0x055f);
   (0x0589, 0x058a); (0x05be, 0x05c0); (0x05c3, 0x05c3); (0x05c6, 0x05c7);
   (0x0609, 0x060a); (0x060c, 0x060d); (0x061b, 0x061b); (0x061e, 0x061f);
   (0x066a, 0x066a); (0x066d, 0x066d); (0x06d4, 0x06d4); (0x2000, 0x206f);
   (0x20a0, 0x20cf); (0x2100, 0x214f); (0x2190, 0x23ff); (0x2460, 0x24ff);
   (0x2500, 0x2775); (0x2794, 0x2bff); (0x2e00, 0x2e7f); (0x3000, 0x303f);
   (0xfd3e, 0xfd3f); (0xfe10, 0xfe6f); (0xff01, 0xff0f); (0xff1a, 0xff20);
   (0xff3b, 0xff40); (0xff5b, 0xff65); (0x1f000, 0x1faff)] cp.

Definition glm4_char_at (s : list Z) (pos : Z) : char_info :=
  if blen s <=? pos then no_char
  else
    let '(cp, next) := utf8_peek_one s pos in
    let w := glm4_unicode_whitespace cp in
    let n := glm4_unicode_number cp in
    Char cp next true
      (if cp <? 128 then ascii_alpha cp
       else negb w && negb n && negb (glm4_unicode_punct_symbol cp)) n w.

(** The source repeats the character tables for Solar word for word. *)
Definition solar_unicode_whitespace : Z → bool := glm4_unicode_whitespace.
Definition solar_unicode_number : Z → bool := glm4_unicode_number.
Definition solar_unicode_punct_symbol : Z → bool := glm4_unicode_punct_symbol.
Definition solar_char_at : list Z → Z → char_info := glm4_char_at.

(** ascii_tolower_cp and solar_ascii_tolower *)
Definition ascii_tolower_cp (cp : Z) : Z :=
  if (ch "A" <=? cp) && (cp <=? ch "Z") then cp + (ch "a" - ch "A") else cp.

(** ** Runs

    The scanning loops of the splitters: they go on while the character at the
    position is valid and passes the test. *)
Fixpoint run (fuel : nat) (P : char_info → bool) (s : list Z) (pos : Z) : Z :=
  match fuel with
  | O => pos
  | S fuel => let c := glm4_char_at s pos in
              if valid c && P c then run fuel P s (next c) else pos
  end.

(** Long enough for any text. *)
Definition scan (P : char_info → bool) (s : list Z) (pos : Z) : Z := run (S (length s)) P s pos.

Definition is_punct (c : char_info) : bool :=
  negb (is_whitespace c) && negb (is_letter c) && negb (is_number c).
Definition is_newline (c : char_info) : bool := (cp c =? 13) || (cp c =? 10).

(** The whitespace run: its end, the end of its last newline (0 without one), the
    start of its last character, and its length. *)
Record ws_info := Ws { ws_end : Z; ws_newline : Z; ws_last : Z; ws_count : Z }.

Fixpoint ws_scan (fuel : nat) (s : list Z) (w : ws_info) : ws_info :=
  match fuel with
  | O => w
  | S fuel =>
      let c := glm4_char_at s (ws_end w) in
      if valid c && is_whitespace c then
        ws_scan fuel s (Ws (next c) (if is_newline c then next c else ws_newline w) (ws_end w)
                           (ws_count w + 1))
      else w
  end.

(** Where a piece of whitespace ends: behind the last newline, or before the last
    space when text follows. *)
Definition ws_piece_end (s : list Z) (pos : Z) : Z :=
  let w := ws_scan (S (length s)) s (Ws pos 0 pos 0) in
  if negb (ws_newline w =? 0) then ws_newline w
  else if (1 <? ws_count w) && (ws_end w <? blen s) then ws_last w
  else ws_end w.

Fixpoint run_bytes (fuel : nat) (f : Z → bool) (s : list Z) (pos : Z) : Z :=
  match fuel with
  | O => pos
  | S fuel => if (pos <? blen s) && f (byte_at s pos) then run_bytes fuel f s (pos + 1) else pos
  end.

Fixpoint run_chars (fuel : nat) (f : list Z → Z → bool) (s : list Z) (pos : Z) : Z :=
  match fuel with
  | O => pos
  | S fuel => if (pos <? blen s) && f s pos then run_chars fuel f s (next_utf8_char s pos) else pos
  end.

(** ** GLM *)

(** What a splitter takes from the text: a piece for BPE, or a token that stands
    for the text as it is. *)
Inductive item := Piece (text : list Z) | Added (id : Z) (text : list Z).

Definition quote : Z := 39.

(** 's 't 'm 'd 're 've 'll: the end of the contraction at [cur]. *)
Definition glm4_contraction (s : list Z) (cur : char_info) : option Z :=
  if (cp cur =? quote) && (next cur <? blen s) then
    let n := glm4_char_at s (next cur) in
    let n1 := ascii_tolower_cp (cp n) in
    if (n1 =? ch "s") || (n1 =? ch "t") || (n1 =? ch "m") || (n1 =? ch "d") then Some (next n)
    else if valid n && (next n <? blen s) then
      let m := glm4_char_at s (next n) in
      let n2 := ascii_tolower_cp (cp m) in
      if ((n1 =? ch "r") && (n2 =? ch "e")) || ((n1 =? ch "v") && (n2 =? ch "e")) ||
         ((n1 =? ch "l") && (n2 =? ch "l")) then Some (next m) else None
    else None
  else None.

(** An optional space before punctuation: where the punctuation would start. *)
Definition after_space (cur : char_info) (pos : Z) : Z := if cp cur =? 32 then next cur else pos.

(** Where the piece at [pos] ends in bpe_tokenize_text_glm4. *)
Definition glm4_end (s : list Z) (pos : Z) : Z :=
  let cur := glm4_char_at s pos in
  match glm4_contraction s cur with
  | Some e => e
  | None =>
      if negb (is_newline cur || is_number cur) &&
         (is_letter cur || is_letter (glm4_char_at s (next cur))) then scan is_letter s (next cur)
      else if is_number cur then run 3 is_number s pos
      else
        let p := after_space cur pos in
        let punct := glm4_char_at s p in
        if valid punct && is_punct punct then scan is_newline s (scan is_punct s p)
        else if is_whitespace cur then ws_piece_end s pos
        else next cur
  end.

(** ** Motif *)

Definition motif3_upperish (c : char_info) : bool :=
  valid c && (if cp c <? 128 then (ch "A" <=? cp c) && (cp c <=? ch "Z") else is_letter c).
Definition motif3_lowerish (c : char_info) : bool :=
  valid c && (if cp c <? 128 then (ch "a" <=? cp c) && (cp c <=? ch "z") else is_letter c).

(** The run of upper-case characters, and its last character that is lower-case as
    well. *)
Fixpoint upper_run (fuel : nat) (s : list Z) (pos : Z) (last : option Z) : Z * option Z :=
  match fuel with
  | O => (pos, last)
  | S fuel =>
      let c := glm4_char_at s pos in
      if motif3_upperish c
      then upper_run fuel s (next c) (if motif3_lowerish c then Some pos else last)
      else (pos, last)
  end.

Definition motif3_match_lower_word (s : list Z) (pos : Z) : Z :=
  let '(e, last) := upper_run (S (length s)) s pos None in
  if motif3_lowerish (glm4_char_at s e) then scan motif3_lowerish s e
  else match last with None => pos | Some l => scan motif3_lowerish s l end.

Definition motif3_match_upper_word (s : list Z) (pos : Z) : Z :=
  if motif3_upperish (glm4_char_at s pos)
  then scan motif3_lowerish s (scan motif3_upperish s pos) else pos.

Definition motif3_match_contraction (s : list Z) (pos : Z) : Z :=
  if (blen s <=? pos) || negb (byte_at s pos =? quote) then pos
  else if blen s <=? pos + 1 then pos
  else
    let c1 := ascii_tolower_cp (byte_at s (pos + 1)) in
    if (c1 =? ch "s") || (c1 =? ch "t") || (c1 =? ch "m") || (c1 =? ch "d") then pos + 2
    else if blen s <=? pos + 2 then pos
    else
      let c2 := ascii_tolower_cp (byte_at s (pos + 2)) in
      if ((c1 =? ch "r") && (c2 =? ch "e")) || ((c1 =? ch "v") && (c2 =? ch "e")) ||
         ((c1 =? ch "l") && (c2 =? ch "l")) then pos + 3 else pos.

(** Further words behind single spaces. *)
Fixpoint more_words (fuel : nat) (word : Z → Z) (s : list Z) (e : Z) : Z :=
  match fuel with
  | O => e
  | S fuel =>
      let sp := glm4_char_at s e in
      if valid sp && (cp sp =? 32) then
        let n := word (next sp) in
        if n =? next sp then e else more_words fuel word s n
      else e
  end.

Definition motif3_match_word_pattern (s : list Z) (pos : Z) (lower_pattern : bool) : Z :=
  let first := glm4_char_at s pos in
  let word := if valid first && negb (is_newline first) && negb (is_letter first) &&
                 negb (is_number first) then next first else pos in
  let m := if lower_pattern then motif3_match_lower_word s else motif3_match_upper_word s in
  let e := m word in
  if e =? word then pos
  else motif3_match_contraction s (more_words (S (length s)) m s e).

Definition slash_newline (c : char_info) : bool := is_newline c || (cp c =? ch "/").

(** Where the piece at [pos] ends in bpe_tokenize_text_motif3_core. *)
Definition motif3_end (s : list Z) (pos : Z) : Z :=
  let e := motif3_match_word_pattern s pos true in
  let e := if e =? pos then motif3_match_word_pattern s pos false else e in
  if negb (e =? pos) then e
  else
    let cur := glm4_char_at s pos in
    if is_number cur then run 3 is_number s pos
    else
      let p := after_space cur pos in
      let punct := glm4_char_at s p in
      if valid punct && is_punct punct then scan slash_newline s (scan is_punct s p)
      else if is_whitespace cur then ws_piece_end s pos
      else next cur.

(** ** Solar *)

Definition tolower_is (s : list Z) (pos : Z) (a : ascii) : bool :=
  ascii_tolower_cp (byte_at s pos) =? ch a.

(** solar_contraction_len and exaone_contraction_len, which read the same: the
    length of the contraction at [pos]. *)
Definition solar_contraction_len (s : list Z) (pos : Z) : option Z :=
  if (blen s <=? pos) || negb (byte_at s pos =? quote) then None
  else
    let rem := blen s - pos - 1 in
    let at_ := tolower_is s in
    if (2 <=? rem) && ((at_ (pos + 1) "r"%char && at_ (pos + 2) "e"%char) ||
                       (at_ (pos + 1) "v"%char && at_ (pos + 2) "e"%char) ||
                       (at_ (pos + 1) "l"%char && at_ (pos + 2) "l"%char)) then Some 3
    else if (1 <=? rem) && (at_ (pos + 1) "s"%char || at_ (pos + 1) "t"%char ||
                            at_ (pos + 1) "m"%char || at_ (pos + 1) "d"%char) then Some 2
    else None.

Definition exaone_contraction_len : list Z → Z → option Z := solar_contraction_len.

(** Where the piece at [pos] ends in bpe_tokenize_text_solar, behind the literal
    tokens. *)
Definition solar_end (s : list Z) (pos : Z) : Z :=
  let cur := solar_char_at s pos in
  match solar_contraction_len s pos with
  | Some n => pos + n
  | None =>
      let p := if is_newline cur || is_letter cur || is_number cur then pos else next cur in
      let first := solar_char_at s p in
      if valid first && is_letter first then scan is_letter s p
      else if is_number cur then next cur
      else
        let p := after_space cur pos in
        let run := scan is_punct s p in
        if p <? run then scan is_newline s run
        else if is_whitespace cur then ws_piece_end s pos
        else next cur
  end.

(** ** EXAONE *)

(** A letter run that single spaces between letters do not end. *)
Fixpoint exaone_letters (fuel : nat) (s : list Z) (p : Z) : Z :=
  match fuel with
  | O => p
  | S fuel =>
      let c := glm4_char_at s p in
      if valid c && is_letter c then exaone_letters fuel s (next c)
      else if valid c && (cp c =? 32) then
        let n := glm4_char_at s (next c) in
        if valid n && is_letter n then exaone_letters fuel s (next c) else p
      else p
  end.

Definition exaone_ws_run_end (s : list Z) (pos : Z) : Z := scan is_whitespace s pos.

(** The end of the last newline of the run, 0 without one. *)
Fixpoint last_newline_end (fuel : nat) (s : list Z) (p ws_end last : Z) : Z :=
  match fuel with
  | O => last
  | S fuel =>
      if p <? ws_end then
        let c := glm4_char_at s p in
        if valid c then last_newline_end fuel s (next c) ws_end (if is_newline c then next c else last)
        else last
      else last
  end.

Definition exaone_end (s : list Z) (pos : Z) : Z :=
  let cur := glm4_char_at s pos in
  match exaone_contraction_len s pos with
  | Some n => pos + n
  | None =>
      let p := if is_newline cur || is_letter cur || is_number cur then pos else next cur in
      let first := glm4_char_at s p in
      if valid first && is_letter first then exaone_letters (S (length s)) s p
      else if is_number cur then next cur
      else
        let p := after_space cur pos in
        let run := scan is_punct s p in
        if p <? run then
          let c := glm4_char_at s run in
          if valid c && slash_newline c then next c else run
        else if is_whitespace cur then
          let e := exaone_ws_run_end s pos in
          let nl := last_newline_end (S (length s)) s pos e 0 in
          if negb (nl =? 0) then nl else e
        else next_utf8_char s pos
  end.

(** ** JoyAI (DeepSeek) *)

Definition joyai_consume_letters (s : list Z) (pos : Z) : Z :=
  run_chars (S (length s)) joyai_letter_like_at s pos.

(** The bytewise whitespace run and the end of its last newline. *)
Fixpoint joyai_spaces (fuel : nat) (s : list Z) (p last : Z) : Z * Z :=
  match fuel with
  | O => (p, last)
  | S fuel => if (p <? blen s) && ascii_space (byte_at s p)
              then joyai_spaces fuel s (p + 1) (if ascii_newline (byte_at s p) then p + 1 else last)
              else (p, last)
  end.

Definition joyai_end (s : list Z) (pos : Z) : Z :=
  let len := blen s in
  let c := byte_at s pos in
  let bytes := run_bytes (S (length s)) in
  let e :=
    if ascii_digit c then run_bytes 3 ascii_digit s pos
    else if joyai_cjk_at s pos then
      run_chars (S (length s)) joyai_cjk_at s (next_utf8_char s pos)
    else if joyai_ascii_punct_symbol c && (pos + 1 <? len) && ascii_alpha (byte_at s (pos + 1)) then
      bytes ascii_alpha s (pos + 1)
    else if joyai_letter_like_at s pos then joyai_consume_letters s pos
    else if negb (ascii_newline c) && negb (joyai_ascii_punct_symbol c) && (pos + 1 <? len) &&
            joyai_letter_like_at s (pos + 1) then joyai_consume_letters s (pos + 1)
    else if (c =? 32) && (pos + 1 <? len) && joyai_ascii_punct_symbol (byte_at s (pos + 1)) then
      bytes ascii_newline s (bytes joyai_ascii_punct_symbol s (pos + 1))
    else if joyai_ascii_punct_symbol c then
      bytes ascii_newline s (bytes joyai_ascii_punct_symbol s pos)
    else if ascii_space c then
      let '(p, nl) := joyai_spaces (S (length s)) s pos 0 in
      if negb (nl =? 0) then nl
      else if (p <? len) && (pos + 1 <? p) &&
              (joyai_letter_like_at s p || joyai_ascii_punct_symbol (byte_at s p)) then p - 1
      else p
    else next_utf8_char s pos in
  if e =? pos then next_utf8_char s pos else e.

(** ** Splitting a text *)

Definition span (s : list Z) (from to : Z) : list Z := ztake (to - from) (zdrop from s).

(** A splitter that cuts pieces only. *)
Fixpoint pieces (fuel : nat) (piece_end : list Z → Z → Z) (s : list Z) (pos : Z) : option (list item) :=
  if blen s <=? pos then Some []
  else match fuel with
  | O => None
  | S fuel => let e := piece_end s pos in
              rest ← pieces fuel piece_end s e;
              Some (Piece (span s pos e) :: rest)
  end.

Section split.
Context {T : Type} `{Dict T} (vocab : ds4_vocab T).

(** The longest literal token at [pos], tried from the longest length down. *)
Fixpoint longest_literal (n : nat) (s : list Z) (pos : Z) : option (Z * Z) :=
  match n with
  | O => None
  | S m => match dget (user_defined vocab) (span s pos (pos + Z.of_nat n)) with
           | Some id => Some (id, Z.of_nat n)
           | None => longest_literal m s pos
           end
  end.

Definition literal_at (s : list Z) (pos : Z) : option (Z * Z) :=
  if negb (user_defined_max_len vocab =? 0) &&
     znth false (user_defined_first vocab) (byte_at s pos)
  then longest_literal (Z.to_nat (Z.min (blen s - pos) (user_defined_max_len vocab))) s pos
  else None.

(** The loops of bpe_tokenize_text_solar and bpe_tokenize_text_exaone: literal
    tokens first, then pieces. *)
Fixpoint literal_pieces (fuel : nat) (piece_end : list Z → Z → Z) (s : list Z) (pos : Z)
    : option (list item) :=
  if blen s <=? pos then Some []
  else match fuel with
  | O => None
  | S fuel =>
      match literal_at s pos with
      | Some (id, hit) =>
          rest ← literal_pieces fuel piece_end s (pos + hit);
          Some (Added id (span s pos (pos + hit)) :: rest)
      | None =>
          let e := piece_end s pos in
          rest ← literal_pieces fuel piece_end s e;
          Some (Piece (span s pos e) :: rest)
      end
  end.

Definition split_glm4 (s : list Z) : option (list item) := pieces (length s) glm4_end s 0.
Definition split_motif3_core (s : list Z) : option (list item) := pieces (length s) motif3_end s 0.
Definition split_joyai (s : list Z) : option (list item) := pieces (length s) joyai_end s 0.
Definition split_solar (s : list Z) : option (list item) := literal_pieces (length s) solar_end s 0.
Definition split_exaone (s : list Z) : option (list item) := literal_pieces (length s) exaone_end s 0.

(** The loop of bpe_tokenize_text_dots3: the literal tokens partition the text, and
    the spans between them go through the Solar splitter. *)
Definition solar_span (s : list Z) (from to : Z) : option (list item) :=
  if from <? to then split_solar (span s from to) else Some [].

Fixpoint dots3_loop (fuel : nat) (s : list Z) (from pos : Z) : option (list item) :=
  if blen s <=? pos then solar_span s from (blen s)
  else match fuel with
  | O => None
  | S fuel =>
      match literal_at s pos with
      | None => dots3_loop fuel s from (pos + 1)
      | Some (id, hit) =>
          a ← solar_span s from pos;
          rest ← dots3_loop fuel s (pos + hit) (pos + hit);
          Some (a ++ Added id (span s pos (pos + hit)) :: rest)
      end
  end.

Definition split_dots3 (s : list Z) : option (list item) := dots3_loop (length s) s 0 0.

(** ** Motif: tokens of the vocabulary's head that are matched literally *)

Definition motif3_added_token_lstrip (id : Z) : bool :=
  (id =? 53) || (id =? 54) || ((85 <=? id) && (id <=? 159)).

(** The loop over the first tokens: the longest that the text starts with, the
    first of equal ones. *)
Fixpoint best_added (ids : list (list Z)) (id : Z) (p : list Z) (best : option (Z * Z))
    : option (Z * Z) :=
  match ids with
  | [] => best
  | t :: ids =>
      let best_len := match best with Some (_, n) => n | None => 0 end in
      let best' :=
        if (blen t =? 0) || (blen p <? blen t) || (blen t <? best_len) then best
        else if negb (bool_decide (ztake (blen t) p = t)) then best
        else match best with
             | Some (_, n) => if n <? blen t then Some (id, blen t) else best
             | None => Some (id, blen t)
             end in
      best_added ids (id + 1) p best'
  end.

Definition motif3_added_token_at (s : list Z) (pos : Z) : option (Z * Z) :=
  if znth false (motif3_added_first vocab) (byte_at s pos)
  then best_added (ztake 160 (token vocab)) 0 (zdrop pos s) None
  else None.

(** The end of the last character before the token that is not whitespace. *)
Fixpoint lstrip_loop (fuel : nat) (s : list Z) (token_start scan kept : Z) : Z :=
  match fuel with
  | O => kept
  | S fuel =>
      if scan <? token_start then
        let c := glm4_char_at (ztake token_start s) scan in
        if negb (valid c) || (token_start <? next c) then kept
        else lstrip_loop fuel s token_start (next c) (if is_whitespace c then kept else next c)
      else kept
  end.

Definition motif3_added_lstrip_start (s : list Z) (span_start token_start : Z) : Z :=
  lstrip_loop (S (length s)) s token_start span_start span_start.

Definition motif3_core_span (s : list Z) (from to : Z) : option (list item) :=
  if to <=? from then Some [] else split_motif3_core (span s from to).

(** The first position from [scan] on with an added token. *)
Fixpoint find_added (fuel : nat) (s : list Z) (scan : Z) : option (Z * (Z * Z)) :=
  match fuel with
  | O => None
  | S fuel =>
      if scan <? blen s then
        match motif3_added_token_at s scan with
        | Some hit => Some (scan, hit)
        | None => find_added fuel s (scan + 1)
        end
      else None
  end.

(** The loop of bpe_tokenize_text_motif3. *)
Fixpoint motif3_loop (fuel : nat) (s : list Z) (pos : Z) : option (list item) :=
  if blen s <=? pos then Some []
  else match fuel with
  | O => None
  | S fuel =>
      match motif3_added_token_at s pos with
      | Some (id, n) =>
          rest ← motif3_loop fuel s (pos + n);
          Some (Added id (span s pos (pos + n)) :: rest)
      | None =>
          match find_added (length s) s (pos + 1) with
          | None => motif3_core_span s pos (blen s)
          | Some (found, (id, n)) =>
              let core_end := if motif3_added_token_lstrip id
                              then motif3_added_lstrip_start s pos found else found in
              core ← motif3_core_span s pos core_end;
              rest ← motif3_loop fuel s (found + n);
              Some (core ++ Added id (span s core_end (found + n)) :: rest)
          end
      end
  end.

Definition split_motif3 (s : list Z) : option (list item) := motif3_loop (length s) s 0.

(** ** Tokenizing *)

(** The tokens of the items in order. *)
Fixpoint emit_items (l : list item) : option (list Z) :=
  match l with
  | [] => Some []
  | Piece p :: l => a ← bpe_emit_piece vocab p; b ← emit_items l; Some (a ++ b)
  | Added id _ :: l => b ← emit_items l; Some (id :: b)
  end.

(** DS4_MODEL_FAMILY *)
Inductive family :=
  DEEPSEEK4 | SOLAR_OPEN2 | MOTIF3 | EXAONE_MOE | DOTS3_NOTE | QWEN4EXP | GLM53 | INKLING |
  STEP37 | LING3VL | MIMO2 | QWEN35 | NAIVE | IQUEST | GLM53_VQ | LING31_VQ | BEAM_VQ |
  MINIMAX_VQ | AXK2_VQ | GEMMA4.

(** The splitter bpe_tokenize_text chooses. *)
Definition split_text (f : family) (s : list Z) : option (list item) :=
  match f with
  | GLM53 => split_glm4 s
  | MOTIF3 => split_motif3 s
  | SOLAR_OPEN2 => split_solar s
  | DOTS3_NOTE | QWEN4EXP | QWEN35 => split_dots3 s
  | EXAONE_MOE => split_exaone s
  | _ => split_joyai s
  end.

(** bpe_tokenize_text, as the tokens it appends *)
Definition bpe_tokenize_text (f : family) (s : list Z) : option (list Z) :=
  items ← split_text f s; emit_items items.
End split.
