(* ===== verification/PreTokSpec.v ===== *)
(** * What the splitters promise

    Every splitter ends, and what it takes from the text, in order, is the whole
    text: no byte is lost, repeated or moved. *)

From S2P Require Import Prelude StrTable Bpe BpeSpec PreTok.

(** ** Positions *)

(** A step from [pos] that gains something and stays in the text. *)
Definition advances (s : list Z) (pos e : Z) : Prop := pos < e <= blen s.

Lemma first_byte_len c : 1 <= utf8_len_from_first_byte c <= 4.
Proof. unfold utf8_len_from_first_byte. repeat case_match; lia. Qed.

Lemma next_char_advances s pos : pos < blen s → advances s pos (next_utf8_char s pos).
Proof.
  intros Hp. unfold next_utf8_char, advances. pose proof (first_byte_len (byte_at s pos)).
  cbv zeta. destruct (Z.ltb_spec (blen s) (pos + utf8_len_from_first_byte (byte_at s pos))); lia.
Qed.

Lemma peek_next s pos : snd (utf8_peek_one s pos) = next_utf8_char s pos.
Proof. done. Qed.

Lemma char_valid s pos : valid (glm4_char_at s pos) = (pos <? blen s).
Proof.
  unfold glm4_char_at. destruct (Z.leb_spec (blen s) pos).
  - symmetry. apply Z.ltb_ge. lia.
  - destruct (utf8_peek_one s pos). symmetry. apply Z.ltb_lt. lia.
Qed.

Lemma char_next s pos : pos < blen s → next (glm4_char_at s pos) = next_utf8_char s pos.
Proof.
  intros Hp. unfold glm4_char_at. rewrite (proj2 (Z.leb_gt _ _)) by lia.
  rewrite <- peek_next. by destruct (utf8_peek_one s pos).
Qed.

Lemma char_advances s pos : pos < blen s → advances s pos (next (glm4_char_at s pos)).
Proof. intros Hp. rewrite char_next by done. by apply next_char_advances. Qed.

Lemma valid_advances s pos : valid (glm4_char_at s pos) = true → advances s pos (next (glm4_char_at s pos)).
Proof. rewrite char_valid. intros Hp. apply char_advances. lia. Qed.

(** Past the end there is no character, so no letter, number or space. *)
Lemma letter_valid s pos : is_letter (glm4_char_at s pos) = true → valid (glm4_char_at s pos) = true.
Proof. unfold glm4_char_at. case_match; [done|]. by destruct (utf8_peek_one s pos). Qed.

(** ** Runs *)

Lemma run_bounds fuel P s pos : pos <= blen s → pos <= run fuel P s pos <= blen s.
Proof.
  revert pos. induction fuel as [|f IH]; intros pos Hp; cbn [run]; [lia|].
  destruct (_ && _) eqn:Hc; [|lia]. apply andb_prop in Hc as [Hv _].
  apply valid_advances in Hv as [? ?]. specialize (IH (next (glm4_char_at s pos)) ltac:(lia)). lia.
Qed.

Lemma run_advances fuel P s pos :
  valid (glm4_char_at s pos) = true → P (glm4_char_at s pos) = true →
  advances s pos (run (S fuel) P s pos).
Proof.
  intros Hv HP. cbn [run]. rewrite Hv, HP. simpl. apply valid_advances in Hv as [? ?].
  pose proof (run_bounds fuel P s (next (glm4_char_at s pos)) ltac:(lia)). unfold advances. lia.
Qed.

Lemma scan_bounds P s pos : pos <= blen s → pos <= scan P s pos <= blen s.
Proof. apply run_bounds. Qed.

Lemma scan_advances P s pos :
  valid (glm4_char_at s pos) = true → P (glm4_char_at s pos) = true → advances s pos (scan P s pos).
Proof. apply run_advances. Qed.

(** A scan is a whole run: it ends at a character that fails the test, or at the end
    of the text, never for lack of fuel. *)
Lemma scan_stops P s pos :
  0 <= pos → valid (glm4_char_at s (scan P s pos)) && P (glm4_char_at s (scan P s pos)) = false.
Proof.
  unfold scan. intros H0. assert (Z.max 0 (blen s - pos) < Z.of_nat (S (length s))) as Hf by (unfold blen; lia).
  revert H0 Hf. generalize (S (length s)) as fuel. intros fuel. revert pos.
  induction fuel as [|f IH]; intros pos H0 Hf; [lia|]. cbn [run].
  destruct (valid (glm4_char_at s pos) && P (glm4_char_at s pos)) eqn:Hc; [|done].
  apply andb_prop in Hc as [Hv _]. apply valid_advances in Hv as [? ?]. apply IH; lia.
Qed.

Lemma run_bytes_bounds fuel f s pos : pos <= blen s → pos <= run_bytes fuel f s pos <= blen s.
Proof.
  revert pos. induction fuel as [|n IH]; intros pos Hp; cbn [run_bytes]; [lia|].
  destruct (_ && _) eqn:Hc; [|lia]. apply andb_prop in Hc as [Hc _]. specialize (IH (pos + 1)). lia.
Qed.

Lemma run_chars_bounds fuel f s pos : pos <= blen s → pos <= run_chars fuel f s pos <= blen s.
Proof.
  revert pos. induction fuel as [|n IH]; intros pos Hp; cbn [run_chars]; [lia|].
  destruct (_ && _) eqn:Hc; [|lia]. apply andb_prop in Hc as [Hc _].
  pose proof (next_char_advances s pos ltac:(lia)) as [? ?]. specialize (IH (next_utf8_char s pos)). lia.
Qed.

(** The whitespace scan: the last character starts behind the first one as soon as
    there are two. *)
Lemma ws_scan_ok fuel s pos w :
  0 <= pos → pos <= ws_end w <= blen s → 0 <= ws_count w →
  (ws_count w = 0 → ws_end w = pos) → (0 < ws_count w → pos < ws_end w) →
  (1 < ws_count w → pos < ws_last w <= blen s) →
  (ws_newline w = 0 ∨ advances s pos (ws_newline w)) →
  let v := ws_scan fuel s w in
  pos <= ws_end v <= blen s ∧ (1 < ws_count v → pos < ws_last v <= blen s) ∧
  (ws_newline v = 0 ∨ advances s pos (ws_newline v)) ∧ ws_end w <= ws_end v.
Proof.
  intros H0. revert w. induction fuel as [|f IH]; intros w He Hc Hz Hp Hl Hn; cbn [ws_scan]; [split_and!; tauto || lia|].
  destruct (_ && _) eqn:Hw; [|simpl; split_and!; tauto || lia]. apply andb_prop in Hw as [Hv _].
  apply valid_advances in Hv as [? ?]. set (c := glm4_char_at s (ws_end w)) in *.
  edestruct (IH (Ws (next c) (if is_newline c then next c else ws_newline w) (ws_end w) (ws_count w + 1)))
    as (A & B & C & D); simpl; try lia.
  - destruct (is_newline c); [|done]. right. unfold advances. lia.
  - simpl in *. split_and!; try tauto; lia.
Qed.

Lemma ws_piece_advances s pos :
  0 <= pos → valid (glm4_char_at s pos) = true → is_whitespace (glm4_char_at s pos) = true →
  advances s pos (ws_piece_end s pos).
Proof.
  intros H0 Hv Hw. pose proof (valid_advances _ _ Hv) as [? ?]. unfold ws_piece_end.
  cbn [ws_scan ws_end]. rewrite Hv, Hw. simpl andb. cbn iota. cbn [ws_newline ws_last ws_count].
  set (c := glm4_char_at s pos) in *. set (w0 := Ws _ _ _ _).
  destruct (ws_scan_ok (length s) s pos w0) as (A & B & C & D); simpl; try lia.
  - destruct (is_newline c); [right; unfold advances; lia|by left].
  - unfold advances in *. simpl in D. cbv zeta. destruct (negb _) eqn:Hn; [destruct C; [lia|done]|].
    destruct (_ && _) eqn:Hc; [|lia]. apply B. lia.
Qed.

(** ** Every splitter advances *)

(** A splitter takes a non-empty part of what is left. *)
Definition splitter (piece_end : list Z → Z → Z) : Prop :=
  ∀ s pos, 0 <= pos < blen s → advances s pos (piece_end s pos).

Lemma here_valid s pos : pos < blen s → valid (glm4_char_at s pos) = true.
Proof. intros Hp. rewrite char_valid. by apply Z.ltb_lt. Qed.

Lemma after_space_bounds s pos :
  pos < blen s → pos <= after_space (glm4_char_at s pos) pos <= blen s.
Proof. intros Hp. pose proof (char_advances s pos Hp) as [? ?]. unfold after_space. case_match; lia. Qed.

(** A punctuation run and what may follow it. *)
Lemma punct_advances s pos p Q :
  pos <= p → valid (glm4_char_at s p) = true → is_punct (glm4_char_at s p) = true →
  advances s pos (scan Q s (scan is_punct s p)).
Proof.
  intros Hp Hv Hu. destruct (scan_advances is_punct s p Hv Hu) as [? ?].
  pose proof (scan_bounds Q s (scan is_punct s p) ltac:(lia)). unfold advances. lia.
Qed.

Lemma contraction_advances s pos e :
  pos < blen s → glm4_contraction s (glm4_char_at s pos) = Some e → advances s pos e.
Proof.
  intros Hp. pose proof (char_advances s pos Hp) as [? ?]. unfold glm4_contraction.
  set (c := glm4_char_at s pos) in *. destruct (_ && _) eqn:Hc; [|done].
  apply andb_prop in Hc as [_ Hn]. apply Z.ltb_lt in Hn. pose proof (char_advances s _ Hn) as [? ?].
  destruct (_ || _); [intros [= <-]; unfold advances; lia|].
  destruct (valid _ && _) eqn:Hv; [|done]. apply andb_prop in Hv as [_ Hm]. apply Z.ltb_lt in Hm.
  pose proof (char_advances s _ Hm) as [? ?]. destruct (_ || _); [|done].
  intros [= <-]. unfold advances. lia.
Qed.

Lemma glm4_advances : splitter glm4_end.
Proof.
  intros s pos [H0 Hp]. pose proof (char_advances s pos Hp) as [? ?]. pose proof (here_valid s pos Hp) as Hv.
  unfold glm4_end. cbv zeta. destruct (glm4_contraction _ _) as [e|] eqn:He; [by apply contraction_advances|].
  pose proof (after_space_bounds s pos Hp).
  destruct (_ && _).
  { pose proof (scan_bounds is_letter s (next (glm4_char_at s pos)) ltac:(lia)). unfold advances. lia. }
  destruct (is_number _) eqn:Hn; [by apply run_advances|].
  destruct (valid _ && is_punct _) eqn:Hu.
  { apply andb_prop in Hu as [Hpv Hu]. apply punct_advances; [lia|done|done]. }
  destruct (is_whitespace _) eqn:Hw; [by apply ws_piece_advances|done].
Qed.

(** *** Motif *)

Lemma upper_run_bounds fuel s pos last lo :
  lo <= pos <= blen s → (∀ l, last = Some l → lo <= l <= blen s) →
  let '(e, l) := upper_run fuel s pos last in
  pos <= e <= blen s ∧ ∀ x, l = Some x → lo <= x <= blen s.
Proof.
  revert pos last. induction fuel as [|f IH]; intros pos last Hp Hl; cbn [upper_run]; [split; [lia|done]|].
  destruct (motif3_upperish _) eqn:Hu; [|split; [lia|done]].
  unfold motif3_upperish in Hu. apply andb_prop in Hu as [Hv _]. apply valid_advances in Hv as [? ?].
  specialize (IH (next (glm4_char_at s pos)) (if motif3_lowerish (glm4_char_at s pos) then Some pos else last)).
  destruct (upper_run _ _ _ _). destruct IH as [A B]; [lia| |split; [lia|done]].
  case_match; [intros ? [= <-]; lia|done].
Qed.

Lemma lower_word_bounds s pos : pos <= blen s → pos <= motif3_match_lower_word s pos <= blen s.
Proof.
  intros Hp. unfold motif3_match_lower_word.
  pose proof (upper_run_bounds (S (length s)) s pos None pos ltac:(lia)) as Hu.
  destruct (upper_run _ _ _ _) as [e l]. destruct Hu as [He Hl]; [done|].
  destruct (motif3_lowerish _); [pose proof (scan_bounds motif3_lowerish s e); lia|].
  destruct l as [l|]; [|lia]. specialize (Hl l eq_refl). pose proof (scan_bounds motif3_lowerish s l). lia.
Qed.

Lemma upper_word_bounds s pos : pos <= blen s → pos <= motif3_match_upper_word s pos <= blen s.
Proof.
  intros Hp. unfold motif3_match_upper_word. case_match; [|lia].
  pose proof (scan_bounds motif3_upperish s pos Hp).
  pose proof (scan_bounds motif3_lowerish s (scan motif3_upperish s pos)). lia.
Qed.

Lemma more_words_bounds fuel m s e :
  (∀ p, p <= blen s → p <= m p <= blen s) → e <= blen s → e <= more_words fuel m s e <= blen s.
Proof.
  intros Hm. revert e. induction fuel as [|f IH]; intros e He; cbn [more_words]; [lia|].
  destruct (_ && _) eqn:Hc; [|lia]. apply andb_prop in Hc as [Hv _]. apply valid_advances in Hv as [? ?].
  cbv zeta. case_match; [lia|]. pose proof (Hm (next (glm4_char_at s e)) ltac:(lia)).
  specialize (IH (m (next (glm4_char_at s e)))). lia.
Qed.

Lemma motif_contraction_bounds s pos :
  pos <= blen s → pos <= motif3_match_contraction s pos <= blen s.
Proof. intros Hp. unfold motif3_match_contraction. repeat case_match; lia. Qed.

Lemma word_pattern_ok s pos lower :
  pos <= blen s → motif3_match_word_pattern s pos lower = pos ∨
  advances s pos (motif3_match_word_pattern s pos lower).
Proof.
  intros Hp. unfold motif3_match_word_pattern. cbv zeta.
  set (word := if _ && _ && _ && _ then _ else _).
  assert (pos <= word <= blen s) as Hw.
  { unfold word. destruct (_ && _ && _ && _) eqn:Hc; [|lia]. rewrite !andb_true_iff in Hc.
    destruct Hc as (((Hv & _) & _) & _). apply valid_advances in Hv as [? ?]. lia. }
  set (m := if lower then _ else _).
  assert (∀ p, p <= blen s → p <= m p <= blen s) as Hm.
  { unfold m. intros p Hq. destruct lower; [by apply lower_word_bounds|by apply upper_word_bounds]. }
  pose proof (Hm word ltac:(lia)). destruct (Z.eqb_spec (m word) word); [by left|right].
  pose proof (more_words_bounds (S (length s)) m s (m word) Hm ltac:(lia)).
  pose proof (motif_contraction_bounds s (more_words (S (length s)) m s (m word)) ltac:(lia)).
  unfold advances. lia.
Qed.

Lemma motif3_advances : splitter motif3_end.
Proof.
  intros s pos [H0 Hp]. pose proof (char_advances s pos Hp) as [? ?]. pose proof (here_valid s pos Hp) as Hv.
  unfold motif3_end. cbv zeta. pose proof (after_space_bounds s pos Hp).
  assert (∀ e, (e = pos ∨ advances s pos e) → negb (e =? pos) = true → advances s pos e) as Hmoved.
  { intros e [->|]; [lia|done]. }
  destruct (negb _) eqn:He.
  { apply Hmoved; [|done]. case_match; apply word_pattern_ok; lia. }
  destruct (is_number _) eqn:Hn; [by apply run_advances|].
  destruct (valid _ && is_punct _) eqn:Hu.
  { apply andb_prop in Hu as [Hpv Hu]. apply punct_advances; [lia|done|done]. }
  destruct (is_whitespace _) eqn:Hw; [by apply ws_piece_advances|done].
Qed.

(** *** Solar and EXAONE *)

Lemma solar_contraction_ok s pos n : solar_contraction_len s pos = Some n → advances s pos (pos + n).
Proof.
  unfold solar_contraction_len. destruct (_ || negb _) eqn:Hg; [done|]. cbv zeta.
  destruct ((2 <=? _) && _) eqn:H2; [intros [= <-]|destruct ((1 <=? _) && _) eqn:H1; [intros [= <-]|done]].
  - apply andb_prop in H2 as [H2 _]. unfold advances. lia.
  - apply andb_prop in H1 as [H1 _]. unfold advances. lia.
Qed.

(** The optional character before a word. *)
Lemma word_start_bounds s pos (b : bool) :
  pos < blen s → pos <= (if b then pos else next (glm4_char_at s pos)) <= blen s.
Proof. intros Hp. pose proof (char_advances s pos Hp) as [? ?]. destruct b; lia. Qed.

Lemma solar_advances : splitter solar_end.
Proof.
  intros s pos [H0 Hp]. pose proof (char_advances s pos Hp) as [? ?]. pose proof (here_valid s pos Hp) as Hv.
  unfold solar_end, solar_char_at. cbv zeta.
  destruct (solar_contraction_len _ _) as [n|] eqn:Hc; [by apply solar_contraction_ok|].
  match goal with |- context [if ?b then pos else next _] => pose proof (word_start_bounds s pos b Hp) as Hws end.
  set (p := if _ || _ || _ then pos else _) in *.
  destruct (valid _ && is_letter _) eqn:Hl.
  { apply andb_prop in Hl as [Hpv Hl]. destruct (scan_advances is_letter s p Hpv Hl). unfold advances. lia. }
  destruct (is_number _); [done|]. pose proof (after_space_bounds s pos Hp).
  set (q := after_space _ _) in *. pose proof (scan_bounds is_punct s q ltac:(lia)).
  destruct (Z.ltb_spec q (scan is_punct s q)).
  { pose proof (scan_bounds is_newline s (scan is_punct s q) ltac:(lia)). unfold advances. lia. }
  destruct (is_whitespace _) eqn:Hw; [by apply ws_piece_advances|done].
Qed.

Lemma exaone_letters_bounds fuel s p : p <= blen s → p <= exaone_letters fuel s p <= blen s.
Proof.
  revert p. induction fuel as [|f IH]; intros p Hp; cbn [exaone_letters]; [lia|].
  destruct (valid _ && is_letter _) eqn:Hl.
  - apply andb_prop in Hl as [Hv _]. apply valid_advances in Hv as [? ?].
    specialize (IH (next (glm4_char_at s p))). lia.
  - destruct (valid _ && (_ =? 32)) eqn:Hsp; [|lia]. apply andb_prop in Hsp as [Hv _].
    apply valid_advances in Hv as [? ?]. cbv zeta. case_match; [|lia].
    specialize (IH (next (glm4_char_at s p))). lia.
Qed.

Lemma last_newline_ok fuel s pos p e last :
  0 <= pos → pos <= p → e <= blen s → (last = 0 ∨ advances s pos last) →
  last_newline_end fuel s p e last = 0 ∨ advances s pos (last_newline_end fuel s p e last).
Proof.
  intros H0. revert p last. induction fuel as [|f IH]; intros p last Hp He Hl; cbn [last_newline_end]; [done|].
  destruct (p <? e); [|done]. cbv zeta. destruct (valid _) eqn:Hv; [|done].
  apply valid_advances in Hv as [? ?]. apply IH; [lia|done|].
  case_match; [right; unfold advances; lia|done].
Qed.

Lemma exaone_advances : splitter exaone_end.
Proof.
  intros s pos [H0 Hp]. pose proof (char_advances s pos Hp) as [? ?]. pose proof (here_valid s pos Hp) as Hv.
  unfold exaone_end, exaone_contraction_len. cbv zeta.
  destruct (solar_contraction_len _ _) as [n|] eqn:Hc; [by apply solar_contraction_ok|].
  match goal with |- context [if ?b then pos else next _] => pose proof (word_start_bounds s pos b Hp) as Hws end.
  set (p := if _ || _ || _ then pos else _) in *.
  destruct (valid _ && is_letter _) eqn:Hl.
  { apply andb_prop in Hl as [Hpv Hl]. apply valid_advances in Hpv as Hpn. destruct Hpn.
    pose proof (exaone_letters_bounds (length s) s (next (glm4_char_at s p)) ltac:(lia)).
    cbn [exaone_letters]. rewrite Hpv, Hl. simpl. unfold advances. lia. }
  destruct (is_number _); [done|]. pose proof (after_space_bounds s pos Hp).
  set (q := after_space _ _) in *. pose proof (scan_bounds is_punct s q ltac:(lia)).
  destruct (Z.ltb_spec q (scan is_punct s q)).
  { destruct (valid _ && slash_newline _) eqn:Hn; [|unfold advances; lia].
    apply andb_prop in Hn as [Hnv _]. apply valid_advances in Hnv as [? ?]. unfold advances. lia. }
  destruct (is_whitespace _) eqn:Hw; [|by apply next_char_advances].
  destruct (scan_advances is_whitespace s pos Hv Hw). fold (exaone_ws_run_end s pos) in *.
  assert (∀ e, (e = 0 ∨ advances s pos e) → negb (e =? 0) = true → advances s pos e) as Hnl.
  { intros e [->|]; [lia|done]. }
  destruct (negb _) eqn:He; [|done]. apply Hnl; [|done].
  apply last_newline_ok; [lia|lia|lia|by left].
Qed.

(** *** JoyAI *)

Lemma joyai_spaces_bounds fuel s pos p last :
  0 <= pos <= p → p <= blen s → (last = 0 ∨ advances s pos last) →
  let '(e, nl) := joyai_spaces fuel s p last in
  p <= e <= blen s ∧ (nl = 0 ∨ advances s pos nl).
Proof.
  revert p last. induction fuel as [|f IH]; intros p last Hp Hl Hn; cbn [joyai_spaces]; [split; [lia|done]|].
  destruct (_ && _) eqn:Hc; [|split; [lia|done]]. apply andb_prop in Hc as [Hc _]. apply Z.ltb_lt in Hc.
  specialize (IH (p + 1) (if ascii_newline (byte_at s p) then p + 1 else last)).
  destruct (joyai_spaces _ _ _ _) as [e nl]. destruct IH as [A B]; [lia|lia| |split; [lia|done]].
  case_match; [right; unfold advances; lia|done].
Qed.

Lemma joyai_advances : splitter joyai_end.
Proof.
  intros s pos [H0 Hp]. pose proof (next_char_advances s pos Hp) as [? ?]. unfold joyai_end. cbv zeta.
  assert (∀ e, pos <= e <= blen s → advances s pos (if e =? pos then next_utf8_char s pos else e)) as Hfix.
  { intros e He. destruct (Z.eqb_spec e pos); unfold advances; lia. }
  apply Hfix. unfold joyai_consume_letters.
  pose proof (run_bytes_bounds (S (length s))) as Hb. pose proof (run_chars_bounds (S (length s))) as Hc.
  destruct (ascii_digit _); [apply run_bytes_bounds; lia|].
  destruct (joyai_cjk_at s pos); [pose proof (Hc joyai_cjk_at s (next_utf8_char s pos)); lia|].
  destruct (_ && ascii_alpha _) eqn:Ha.
  { rewrite !andb_true_iff in Ha. pose proof (Hb ascii_alpha s (pos + 1)). lia. }
  destruct (joyai_letter_like_at s pos); [apply Hc; lia|].
  destruct (_ && joyai_letter_like_at _ _) eqn:Hl.
  { rewrite !andb_true_iff in Hl. pose proof (Hc joyai_letter_like_at s (pos + 1)). lia. }
  destruct ((_ =? 32) && _ && _) eqn:Hsp.
  { rewrite !andb_true_iff in Hsp. pose proof (Hb joyai_ascii_punct_symbol s (pos + 1)).
    pose proof (Hb ascii_newline s (run_bytes (S (length s)) joyai_ascii_punct_symbol s (pos + 1))). lia. }
  destruct (joyai_ascii_punct_symbol _).
  { pose proof (Hb joyai_ascii_punct_symbol s pos).
    pose proof (Hb ascii_newline s (run_bytes (S (length s)) joyai_ascii_punct_symbol s pos)). lia. }
  destruct (ascii_space _); [|lia].
  pose proof (joyai_spaces_bounds (S (length s)) s pos pos 0 ltac:(lia) ltac:(lia) ltac:(by left)) as Hj.
  destruct (joyai_spaces _ _ _ _) as [p nl]. destruct Hj as [Hj Hnl].
  destruct (Z.eqb_spec nl 0) as [->|Hz]; cbn [negb]; [|destruct Hnl as [->|[? ?]]; lia].
  destruct ((p <? blen s) && (pos + 1 <? p)) eqn:Hback; cbn [andb]; [|lia].
  apply andb_prop in Hback as [? ?]. case_match; lia.
Qed.

(** ** The whole text *)

Definition item_text (i : item) : list Z := match i with Piece p => p | Added _ p => p end.

(** The items' texts, put together. *)
Definition joined (l : list item) : list Z := concat (map item_text l).

Lemma joined_app l k : joined (l ++ k) = joined l ++ joined k.
Proof. unfold joined. by rewrite map_app, concat_app. Qed.

Lemma zdrop_drop {A} (l : list A) a b : 0 <= a <= b → zdrop (b - a) (zdrop a l) = zdrop b l.
Proof. intros H. unfold zdrop. rewrite drop_drop. f_equal. lia. Qed.

Lemma span_rest s a b : 0 <= a <= b → span s a b ++ zdrop b s = zdrop a s.
Proof. intros H. unfold span. rewrite <- (zdrop_drop s a b H). apply ztake_zdrop. Qed.

Lemma text_span_length s a b : 0 <= a <= b → b <= blen s → blen (span s a b) = b - a.
Proof. intros H Hb. unfold span. rewrite blen_ztake; [done|]. rewrite blen_zdrop by lia. lia. Qed.

Lemma span_nonempty s a b : 0 <= a → advances s a b → span s a b ≠ [].
Proof.
  intros H0 [Hab Hb] E. pose proof (text_span_length s a b ltac:(lia) Hb) as Hl. rewrite E, blen_nil in Hl. lia.
Qed.

Section covers.
(** What is known of an item besides its text. *)
Context (Q : item → Prop) (HQ : ∀ p, Q (Piece p)).

(** The items of a loop cover the text from a position on, and none is empty. *)
Definition covers (s : list Z) (pos : Z) (o : option (list item)) : Prop :=
  ∃ l, o = Some l ∧ joined l = zdrop pos s ∧ Forall (λ i, item_text i ≠ [] ∧ Q i) l.

Lemma covers_end s pos : blen s <= pos → covers s pos (Some []).
Proof using. intros Hp. exists []. rewrite zdrop_ge by done. repeat split; constructor. Qed.

Lemma covers_step s pos e i o :
  0 <= pos → advances s pos e → item_text i = span s pos e → Q i → covers s e o →
  covers s pos (rest ← o; Some (i :: rest)).
Proof using.
  intros H0 He Hi Hq (l & -> & Hj & Hn). exists (i :: l). split; [done|].
  split; [|constructor; [split; [rewrite Hi; by apply span_nonempty|done]|done]].
  unfold joined in *. cbn [map concat]. rewrite Hj, Hi. apply span_rest. destruct He. lia.
Qed.

Lemma pieces_cover fuel piece_end s pos :
  splitter piece_end → 0 <= pos → blen s - pos <= Z.of_nat fuel → covers s pos (pieces fuel piece_end s pos).
Proof using HQ.
  intros Hs. revert pos. induction fuel as [|f IH]; intros pos H0 Hf; cbn [pieces].
  - rewrite (proj2 (Z.leb_le _ _)) by lia. apply covers_end. lia.
  - destruct (Z.leb_spec (blen s) pos); [by apply covers_end|].
    destruct (Hs s pos ltac:(lia)) as [? ?]. cbv zeta.
    apply (covers_step _ _ (piece_end s pos)); [done|done|done|apply HQ|]. apply IH; lia.
Qed.

(** A part of the text that is split by itself, an item behind it, and the rest. *)
Lemma covers_part s from to e o i rest :
  0 <= from <= to → advances s to e → covers (span s from to) 0 o →
  item_text i = span s to e → Q i → covers s e rest →
  covers s from (a ← o; r ← rest; Some (a ++ i :: r)).
Proof using.
  intros Hf He (l & -> & Hj & Hn) Hi Hq (k & -> & Hk & Hkn). exists (l ++ i :: k). split; [done|].
  rewrite joined_app, Hj, zdrop_0. destruct He as [Hte He]. split.
  - unfold joined in *. cbn [map concat]. rewrite Hk, Hi, span_rest by lia. by apply span_rest.
  - apply Forall_app. split; [done|]. constructor; [|done]. split; [|done].
    rewrite Hi. apply span_nonempty; [lia|done].
Qed.

(** The last part. *)
Lemma covers_tail s from o :
  0 <= from <= blen s → covers (span s from (blen s)) 0 o → covers s from o.
Proof using.
  intros Hf (l & -> & Hj & Hn). exists l. split; [done|]. split; [|done].
  rewrite Hj, zdrop_0. unfold span. apply ztake_ge. rewrite blen_zdrop; lia.
Qed.
End covers.

Section split.
Context {T : Type} `{Dict T} (vocab : ds4_vocab T).

(** A literal token: the table names it for exactly this text. *)
Definition literal (i : item) : Prop :=
  match i with Piece _ => True | Added id p => dget (user_defined vocab) p = Some id end.

(** Motif's literal tokens are of the vocabulary's head, and some swallow the space
    before them. *)
Definition motif_literal (i : item) : Prop :=
  match i with
  | Piece _ => True
  | Added id p => ∃ w t, 0 <= id < 160 ∧ token vocab !! Z.to_nat id = Some t ∧ p = w ++ t ∧
                    (w = [] ∨ motif3_added_token_lstrip id = true)
  end.

Definition genuine (f : family) : item → Prop :=
  match f with MOTIF3 => motif_literal | _ => literal end.

Lemma literal_piece p : literal (Piece p).
Proof. exact I. Qed.

Lemma longest_literal_ok n s pos id hit :
  longest_literal vocab n s pos = Some (id, hit) →
  1 <= hit <= Z.of_nat n ∧ dget (user_defined vocab) (span s pos (pos + hit)) = Some id ∧
  ∀ m, hit < m <= Z.of_nat n → dget (user_defined vocab) (span s pos (pos + m)) = None.
Proof.
  induction n as [|n IH]; cbn [longest_literal]; [done|].
  destruct (dget _ (span s pos (pos + Z.of_nat (S n)))) as [i|] eqn:Hd.
  - intros [= -> <-]. split; [lia|]. split; [done|]. intros m Hm. lia.
  - intros Hr. destruct (IH Hr) as (A & B & C). split; [lia|]. split; [done|].
    intros m Hm. destruct (Z.eq_dec m (Z.of_nat (S n))) as [->|]; [done|]. apply C. lia.
Qed.

Lemma literal_at_ok s pos id hit :
  0 <= pos → literal_at vocab s pos = Some (id, hit) →
  advances s pos (pos + hit) ∧ literal (Added id (span s pos (pos + hit))).
Proof.
  intros H0. unfold literal_at. destruct (_ && _); [|done].
  intros (A & B & _)%longest_literal_ok. split; [unfold advances; lia|done].
Qed.

Lemma literal_pieces_cover fuel piece_end s pos :
  splitter piece_end → 0 <= pos → blen s - pos <= Z.of_nat fuel →
  covers literal s pos (literal_pieces vocab fuel piece_end s pos).
Proof.
  intros Hs. revert pos. induction fuel as [|f IH]; intros pos H0 Hf; cbn [literal_pieces].
  - rewrite (proj2 (Z.leb_le _ _)) by lia. apply covers_end. lia.
  - destruct (Z.leb_spec (blen s) pos); [by apply covers_end|].
    destruct (literal_at vocab s pos) as [[id hit]|] eqn:Hl.
    + destruct (literal_at_ok _ _ _ _ H0 Hl) as [[? ?] ?].
      apply (covers_step _ _ _ (pos + hit)); [done|done|done|done|]. apply IH; lia.
    + destruct (Hs s pos ltac:(lia)) as [? ?]. cbv zeta.
      apply (covers_step _ _ _ (piece_end s pos)); [done|done|done|done|]. apply IH; lia.
Qed.

Lemma split_solar_covers s : covers literal s 0 (split_solar vocab s).
Proof. apply literal_pieces_cover; [apply solar_advances|done|unfold blen; lia]. Qed.

Lemma solar_span_covers s from to :
  0 <= from <= to → to <= blen s → covers literal (span s from to) 0 (solar_span vocab s from to).
Proof.
  intros Hf Ht. unfold solar_span. destruct (Z.ltb_spec from to); [apply split_solar_covers|].
  apply covers_end. rewrite text_span_length; lia.
Qed.

Lemma dots3_cover fuel s from pos :
  0 <= from <= pos → pos <= blen s → blen s - pos <= Z.of_nat fuel →
  covers literal s from (dots3_loop vocab fuel s from pos).
Proof.
  assert (∀ from, 0 <= from <= blen s → covers literal s from (solar_span vocab s from (blen s))) as Htail.
  { intros fr Hfr. apply covers_tail; [done|]. apply solar_span_covers; lia. }
  revert from pos. induction fuel as [|f IH]; intros from pos Hfp Hp Hf; cbn [dots3_loop].
  - rewrite (proj2 (Z.leb_le _ _)) by lia. apply Htail. lia.
  - destruct (Z.leb_spec (blen s) pos); [apply Htail; lia|].
    destruct (literal_at vocab s pos) as [[id hit]|] eqn:Hl; [|apply IH; lia].
    destruct (literal_at_ok s pos id hit ltac:(lia) Hl) as [[? ?] ?].
    apply (covers_part literal s from pos (pos + hit)); [done|done|by apply solar_span_covers|done|done|].
    apply IH; lia.
Qed.

(** *** Motif *)

Lemma motif_piece p : motif_literal (Piece p).
Proof. exact I. Qed.

Lemma best_added_ok ids k p best id n :
  (∀ id n, best = Some (id, n) → 0 < n <= blen p ∧ 0 <= id < 160 ∧
     token vocab !! Z.to_nat id = Some (ztake n p)) →
  0 <= k → (∀ j t, ids !! j = Some t → token vocab !! (Z.to_nat k + j)%nat = Some t) →
  k + blen ids <= 160 →
  best_added ids k p best = Some (id, n) →
  0 < n <= blen p ∧ 0 <= id < 160 ∧ token vocab !! Z.to_nat id = Some (ztake n p).
Proof.
  revert k best. induction ids as [|t ids IH]; intros k best Hb Hk Ht Hlen; cbn [best_added]; [apply Hb|].
  rewrite blen_cons in Hlen. pose proof (blen_nonneg ids). apply IH; [|lia| |lia].
  - assert (0 < blen t <= blen p → ztake (blen t) p = t → ∀ id0 n0, Some (k, blen t) = Some (id0, n0) →
      0 < n0 <= blen p ∧ 0 <= id0 < 160 ∧ token vocab !! Z.to_nat id0 = Some (ztake n0 p)) as Hnew.
    { intros Hl Htake i0 n0 [= <- <-]. split; [done|]. split; [lia|]. rewrite Htake.
      specialize (Ht 0%nat t eq_refl). by rewrite Nat.add_0_r in Ht. }
    intros i0 n0. destruct (_ || _ || _) eqn:Hg; [apply Hb|]. rewrite !orb_false_iff in Hg.
    pose proof (blen_nonneg t). destruct (negb _) eqn:Hm; [apply Hb|].
    apply negb_false_iff, bool_decide_eq_true in Hm.
    destruct best as [[bi bn]|]; [destruct (bn <? blen t); [|apply Hb]|]; apply Hnew; lia || done.
  - intros j u Hj. specialize (Ht (S j) u Hj). rewrite <- Ht. f_equal. lia.
Qed.

Lemma added_at_ok s pos id n :
  0 <= pos <= blen s → motif3_added_token_at vocab s pos = Some (id, n) →
  advances s pos (pos + n) ∧ 0 <= id < 160 ∧ token vocab !! Z.to_nat id = Some (span s pos (pos + n)).
Proof.
  intros Hp. unfold motif3_added_token_at. case_match; [|done]. intros Hb.
  apply best_added_ok in Hb as (A & B & C); [|done|done| |].
  - rewrite blen_zdrop in A by lia. split; [unfold advances; lia|]. split; [done|].
    unfold span. by replace (pos + n - pos) with n by lia.
  - intros j t Hj. simpl. unfold ztake in Hj. by apply lookup_take_Some in Hj as [? _].
  - unfold ztake, blen. rewrite length_take. lia.
Qed.

Lemma find_added_ok fuel s scan found id n :
  0 <= scan → find_added vocab fuel s scan = Some (found, (id, n)) →
  scan <= found < blen s ∧ motif3_added_token_at vocab s found = Some (id, n).
Proof.
  revert scan. induction fuel as [|f IH]; intros scan H0; cbn [find_added]; [done|].
  destruct (Z.ltb_spec scan (blen s)); [|done].
  destruct (motif3_added_token_at vocab s scan) as [h|] eqn:Hh.
  - intros [= <- ->]. split; [lia|done].
  - intros Hf. apply IH in Hf as [? ?]; [split; [lia|done]|lia].
Qed.

Lemma lstrip_bounds fuel s token_start scan kept lo :
  lo <= kept <= token_start → lo <= scan → lo <= lstrip_loop fuel s token_start scan kept <= token_start.
Proof.
  revert scan kept. induction fuel as [|f IH]; intros scan kept Hk Hs; cbn [lstrip_loop]; [done|].
  destruct (scan <? token_start); [|done]. cbv zeta. destruct (_ || _) eqn:Hg; [done|].
  apply orb_false_iff in Hg as [Hv Hn]. apply negb_false_iff in Hv.
  apply valid_advances in Hv as [? _]. apply IH; [case_match|]; lia.
Qed.

Lemma core_span_covers s from to :
  0 <= from <= to → to <= blen s → covers motif_literal (span s from to) 0 (motif3_core_span s from to).
Proof.
  intros Hf Ht. unfold motif3_core_span. destruct (Z.leb_spec to from).
  - apply covers_end. rewrite text_span_length; lia.
  - apply pieces_cover; [exact motif_piece|apply motif3_advances|done|unfold blen; lia].
Qed.

Lemma text_span_split s a b c : 0 <= a <= b → b <= c <= blen s → span s a c = span s a b ++ span s b c.
Proof.
  intros Ha Hb. apply (inj (.++ zdrop c s)). rewrite <- app_assoc, !span_rest by lia. done.
Qed.

Lemma motif3_cover fuel s pos :
  0 <= pos <= blen s → blen s - pos <= Z.of_nat fuel → covers motif_literal s pos (motif3_loop vocab fuel s pos).
Proof.
  revert pos. induction fuel as [|f IH]; intros pos Hp Hf; cbn [motif3_loop].
  - rewrite (proj2 (Z.leb_le _ _)) by lia. apply covers_end. lia.
  - destruct (Z.leb_spec (blen s) pos); [apply covers_end; lia|].
    destruct (motif3_added_token_at vocab s pos) as [[id n]|] eqn:Ha.
    + destruct (added_at_ok s pos id n Hp Ha) as ([? ?] & ? & ?).
      apply (covers_step _ _ _ (pos + n)); [lia|done|done| |apply IH; lia].
      exists [], (span s pos (pos + n)). do 3 (split; [done|]). by left.
    + destruct (find_added _ _ _ _) as [[found [id n]]|] eqn:Hfa.
      2: { apply covers_tail; [lia|]. apply core_span_covers; lia. }
      apply find_added_ok in Hfa as [Hfound Hat]; [|lia].
      destruct (added_at_ok s found id n ltac:(lia) Hat) as ([? ?] & ? & ?).
      cbv zeta. set (ce := if motif3_added_token_lstrip id then motif3_added_lstrip_start s pos found else found).
      assert (pos <= ce <= found) as Hce.
      { unfold ce. case_match; [|lia]. apply lstrip_bounds; lia. }
      apply (covers_part motif_literal s pos ce (found + n));
        [lia|unfold advances; lia|apply core_span_covers; lia|done| |apply IH; lia].
      exists (span s ce found), (span s found (found + n)).
      split; [done|]. split; [done|]. split; [apply text_span_split; lia|].
      unfold ce. destruct (motif3_added_token_lstrip id); [by right|left].
      unfold span. by rewrite Z.sub_diag.
Qed.

(** Every family's splitter ends, and its items are the text. *)
Lemma split_text_covers f s : covers (genuine f) s 0 (split_text vocab f s).
Proof.
  pose proof (pieces_cover literal literal_piece (length s)) as Hp.
  assert (blen s - 0 <= Z.of_nat (length s)) as Hl by (unfold blen; lia). pose proof (blen_nonneg s).
  destruct f; simpl; try (by apply Hp, Hl; [apply joyai_advances|done]);
    try (by apply dots3_cover; unfold blen; lia).
  - apply split_solar_covers.
  - by apply motif3_cover.
  - by apply literal_pieces_cover; [apply exaone_advances|done|].
  - by apply Hp, Hl; [apply glm4_advances|done].
Qed.
End split.
