(* ===== verification/ChatTok.v ===== *)
(** * Chat prompts as tokens (ds4.c)

    The vocabulary a host installs, the markers that structure a chat, rendered text
    whose markers become single tokens, tool output whose closing marker is escaped,
    and the prompts and messages each model family builds from them. *)

From S2P Require Import Prelude Text StrTable Bpe PreTok.

(** ** Markers *)

(** The id fields of struct ds4_vocab; -1 is a marker the vocabulary lacks. *)
Record chat_ids := ChatIds {
  bos_id : Z; eos_id : Z; system_id : Z; eot_id : Z; im_start_id : Z; im_content_id : Z;
  im_end_id : Z; user_id : Z; assistant_id : Z; start_of_turn_id : Z; end_of_turn_id : Z;
  tool_id : Z; reference_id : Z; plan_start_id : Z; plan_end_id : Z; observation_id : Z;
  sop_id : Z; think_start_id : Z; think_end_id : Z; tool_call_start_id : Z;
  tool_call_end_id : Z; tool_response_start_id : Z; tool_response_end_id : Z;
  arg_key_start_id : Z; arg_key_end_id : Z; arg_value_start_id : Z; arg_value_end_id : Z;
  latent_start_id : Z; latent_pad_id : Z; latent_end_id : Z; tool_schema_start_id : Z;
  tool_schema_end_id : Z; dsml_id : Z; image_id : Z; dots3_endofsystem_id : Z;
  dots3_endofuser_id : Z; dots3_endoftext_id : Z;
  stop : list Z }.

(** ds4_host_vocab; the structure has no arg_value_end_id, so that field of [h_ids]
    is not read. *)
Record ds4_host_vocab := HostVocab {
  h_tokens : list (list Z);
  h_merges : list (list Z);
  h_user_defined : list Z;
  h_user_defined_max_len : Z;
  h_user_defined_first : list bool;
  h_motif3_added_first : list bool;
  h_ids : chat_ids }.

(** ds4_host_vocab_apply, for arrays that are there *)
Definition ds4_host_vocab_apply (h : ds4_host_vocab) : bool :=
  forallb (fun id => (0 <=? id) && (id <? blen (h_tokens h)) &&
                     negb (blen (znth [] (h_tokens h) id) =? 0)) (h_user_defined h).

(** [f] of every element and its index. *)
Definition indexed (l : list (list Z)) : list (list Z * Z) := zip l (seqZ 0 (blen l)).

(** The ids after the copy: memset first, then every field the host has. *)
Definition copied_ids (i : chat_ids) : chat_ids :=
  ChatIds
    (bos_id i) (eos_id i) (system_id i) (eot_id i) (im_start_id i) (im_content_id i)
    (im_end_id i) (user_id i) (assistant_id i) (start_of_turn_id i) (end_of_turn_id i)
    (tool_id i) (reference_id i) (plan_start_id i) (plan_end_id i) (observation_id i)
    (sop_id i) (think_start_id i) (think_end_id i) (tool_call_start_id i)
    (tool_call_end_id i) (tool_response_start_id i) (tool_response_end_id i)
    (arg_key_start_id i) (arg_key_end_id i) (arg_value_start_id i) 0 (latent_start_id i)
    (latent_pad_id i) (latent_end_id i) (tool_schema_start_id i) (tool_schema_end_id i)
    (dsml_id i) (image_id i) (dots3_endofsystem_id i) (dots3_endofuser_id i)
    (dots3_endoftext_id i)
    (stop i).

(** model_apply_host_vocab; [None] is ds4_die *)
Definition model_apply_host_vocab (h : ds4_host_vocab)
    : option (ds4_vocab str_i32_table * chat_ids) :=
  if negb (ds4_host_vocab_apply h) then None
  else
    t0 ← table_init (blen (h_tokens h));
    token_to_id ← put_all t0 (indexed (h_tokens h));
    u0 ← table_init (if blen (h_user_defined h) =? 0 then 64 else blen (h_user_defined h));
    user_defined ← put_all u0 (map (fun id => (znth [] (h_tokens h) id, id)) (h_user_defined h));
    m0 ← table_init (blen (h_merges h));
    merge_rank ← put_all m0 (indexed (h_merges h));
    if 8 <? blen (stop (h_ids h)) then None
    else Some (Vocab (h_tokens h) token_to_id merge_rank user_defined (h_user_defined_max_len h)
                     (h_user_defined_first h) (h_motif3_added_first h), copied_ids (h_ids h)).

Definition DS4_QWEN_VISION_START_TOKEN_ID : Z := 248053.
Definition DS4_QWEN_VISION_END_TOKEN_ID : Z := 248054.
Definition DS4_QWEN_IMAGE_PAD_TOKEN_ID : Z := 248056.

Definition is_qwen (f : family) : bool := match f with QWEN4EXP | QWEN35 => true | _ => false end.

(** The table of special_token_at. *)
Definition specials (f : family) (ids : chat_ids) : list (list Z * Z) :=
  let glm t := match f with GLM53 => t | _ => -1 end in
  let qwen t := if is_qwen f then t else -1 in
  let vl t := match f with QWEN4EXP => t | _ => -1 end in
  let given c t := if 0 <=? c then t else -1 in
  [
   (bs "[gMASK]", glm (bos_id ids));
   (bs "<sop>", glm (sop_id ids));
   (bs "<|system|>", glm (system_id ids));
   (bs "<|user|>", glm (user_id ids));
   (bs "<|assistant|>", glm (assistant_id ids));
   (bs "<|observation|>", glm (observation_id ids));
   (bs "<|begin_of_image|>", glm 154830);
   (bs "<|image|>", glm 154854);
   (bs "<|end_of_image|>", glm 154831);
   (bs "<|endoftext|>", dots3_endoftext_id ids);
   (bs "<|endofsystem|>", dots3_endofsystem_id ids);
   (bs "<|endofuser|>", dots3_endofuser_id ids);
   (bs "<|endofassistant|>", given (dots3_endofuser_id ids) (eos_id ids));
   (bs "<|system|>", given (dots3_endofsystem_id ids) (system_id ids));
   (bs "<|user|>", given (dots3_endofuser_id ids) (user_id ids));
   (bs "<|assistant|>", given (dots3_endofuser_id ids) (assistant_id ids));
   (bs "<|endoftext|>", qwen (eot_id ids));
   (bs "<|im_start|>", qwen (im_start_id ids));
   (bs "<|im_end|>", qwen (im_end_id ids));
   (bs "<|vision_start|>", vl DS4_QWEN_VISION_START_TOKEN_ID);
   (bs "<|vision_end|>", vl DS4_QWEN_VISION_END_TOKEN_ID);
   (bs "<|image_pad|>", vl DS4_QWEN_IMAGE_PAD_TOKEN_ID);
   (bs "<|endoftext|>", eos_id ids);
   (bs "<|beginoftext|>", bos_id ids);
   (bs "<|startofturn|>", start_of_turn_id ids);
   (bs "<|endofturn|>", end_of_turn_id ids);
   (bs "<|tool|>", tool_id ids);
   (bs "<|reference|>", reference_id ids);
   (bs "<|plan|>", plan_start_id ids);
   (bs "<|endofplan|>", plan_end_id ids);
   (bs "<｜begin▁of▁sentence｜>", bos_id ids);
   (bs "<｜end▁of▁sentence｜>", eos_id ids);
   (bs "<|startoftext|>", bos_id ids);
   (bs "<|endoftext|>", eos_id ids);
   (bs "<|im:start|>", im_start_id ids);
   (bs "<|im:content|>", im_content_id ids);
   (bs "<|im:end|>", im_end_id ids);
   (bs "<|tool:start|>", tool_schema_start_id ids);
   (bs "<|tool:end|>", tool_schema_end_id ids);
   (bs "<｜User｜>", user_id ids);
   (bs "<｜Assistant｜>", assistant_id ids);
   (bs "<think>", think_start_id ids);
   (bs "</think>", think_end_id ids);
   (bs "<|think:start|>", think_start_id ids);
   (bs "<|think:end|>", think_end_id ids);
   (bs "<tool_call>", tool_call_start_id ids);
   (bs "</tool_call>", tool_call_end_id ids);
   (bs "<|tool_call:start|>", tool_call_start_id ids);
   (bs "<|tool_call:end|>", tool_call_end_id ids);
   (bs "<tool_response>", tool_response_start_id ids);
   (bs "</tool_response>", tool_response_end_id ids);
   (bs "<|tool_response:start|>", tool_response_start_id ids);
   (bs "<|tool_response:end|>", tool_response_end_id ids);
   (bs "</arg_key><arg_value>", arg_value_start_id ids);
   (bs "<arg_key>", arg_key_start_id ids);
   (bs "</arg_key>", arg_key_end_id ids);
   (bs "<arg_value>", arg_value_start_id ids);
   (bs "</arg_value>", arg_value_end_id ids);
   (bs "<latent>", latent_start_id ids);
   (bs "<latent_pad>", latent_pad_id ids);
   (bs "</latent>", latent_end_id ids);
   (bs "<|tool_arg:start|>", arg_key_start_id ids);
   (bs "<|tool_arg:value|>", arg_value_start_id ids);
   (bs "<|tool_arg:end|>", arg_value_end_id ids);
   (bs "｜DSML｜", dsml_id ids);
   (bs "<｜deepseek_image｜>", image_id ids)].

(** special_token_at: the first row whose marker exists and that the text starts
    with *)
Fixpoint first_special (l : list (list Z * Z)) (p : list Z) : option (Z * Z) :=
  match l with
  | [] => None
  | (text, t) :: l => if (0 <=? t) && starts_with p text then Some (t, blen text)
                      else first_special l p
  end.

Definition special_token_at (f : family) (ids : chat_ids) (p : list Z) : option (Z * Z) :=
  first_special (specials f ids) p.

(** ** Thinking modes *)

Inductive ds4_think_mode := THINK_NONE | THINK_LOW | THINK_HIGH | THINK_MAX.

Definition ds4_think_mode_enabled (m : ds4_think_mode) : bool :=
  match m with THINK_NONE => false | _ => true end.

Definition DS4_REASONING_EFFORT_HIGH_PREFIX : list Z :=
  bs "Reasoning Effort: Absolute maximum with no shortcuts permitted." ++ [10] ++
  bs "You MUST be very thorough in your thinking and comprehensively decompose the problem to resolve the root cause, rigorously stress-testing your logic against all potential paths, edge cases, and adversarial scenarios." ++ [10] ++
  bs "Explicitly write out your entire deliberation process, documenting every intermediate step, considered alternative, and rejected hypothesis to ensure absolutely no assumption is left unchecked." ++ [10; 10].

Definition DS4_REASONING_EFFORT_MAX_PREFIX : list Z :=
  bs "Reasoning Effort: Beyond maximum — exhaustive, relentless, and uncompromising." ++ [10] ++
  bs "You MUST reason with the utmost depth and rigor, leaving absolutely nothing to chance: exhaustively decompose the problem into its most fundamental components, trace every causal chain to its root, and resolve the underlying cause rather than any surface symptom." ++ [10] ++
  bs "Do not stop reasoning until you have independently verified the solution from multiple angles and are certain that no assumption remains unchecked and no error remains undiscovered." ++ [10; 10].

Definition ds4_think_effort_prefix (m : ds4_think_mode) : list Z :=
  match m with
  | THINK_HIGH => DS4_REASONING_EFFORT_HIGH_PREFIX
  | THINK_MAX => DS4_REASONING_EFFORT_MAX_PREFIX
  | THINK_NONE | THINK_LOW => []
  end.

Definition glm53_reasoning_effort (m : ds4_think_mode) : option (list Z) :=
  match m with
  | THINK_LOW => Some (bs "Reasoning Effort: Low")
  | THINK_HIGH => Some (bs "Reasoning Effort: High")
  | THINK_MAX => Some (bs "Reasoning Effort: Max")
  | THINK_NONE => None
  end.

Definition DS4_QWEN_XHIGH_PROMPT : list Z :=
  bs "Reasoning effort is set to xhigh. Please think carefully through the task, validate key assumptions, consider plausible alternatives, and prioritize correctness, consistency, and clarity in the final answer.".

(** ** Appending tokens

    What the functions append to the token vector, in order; [None] is ds4_die. *)

Fixpoint all_of (l : list (option (list Z))) : option (list Z) :=
  match l with
  | [] => Some []
  | o :: l => a ← o; b ← all_of l; Some (a ++ b)
  end.

Definition push (t : Z) : option (list Z) := Some [t].

Definition when (b : bool) (l : list (option (list Z))) : list (option (list Z)) :=
  if b then l else [].

(** A marker that the prompt needs is missing. *)
Definition missing (l : list Z) : bool := existsb (fun t => t <? 0) l.

Definition nonempty (s : list Z) : bool := negb (blen s =? 0).

Section chat.
Context {T : Type} `{Dict T} (vocab : ds4_vocab T) (ids : chat_ids) (f : family).

Abbreviation encode := (bpe_tokenize_text vocab f).

(** ** Rendered text *)

(** A span that is not empty. *)
Definition flush (span : list Z) : list item := if nonempty span then [Piece span] else [].

(** The loop of tokenize_rendered_chat_vocab: markers become [Added] tokens, and
    the spans between them are to be tokenized as text. *)
Fixpoint rendered_loop (fuel : nat) (span p : list Z) : option (list item) :=
  match p, fuel with
  | [], _ => Some (flush span)
  | _, O => None
  | c :: t, S fuel =>
      match special_token_at f ids p with
      | Some (token, len) =>
          rest ← rendered_loop fuel [] (zdrop len p);
          Some (flush span ++ Added token (ztake len p) :: rest)
      | None => rendered_loop fuel (span ++ [c]) t
      end
  end.

(** tokenize_span of the spans, and the marker tokens. *)
Fixpoint emit_spans (l : list item) : option (list Z) :=
  match l with
  | [] => Some []
  | Piece p :: l => a ← encode p; b ← emit_spans l; Some (a ++ b)
  | Added id _ :: l => b ← emit_spans l; Some (id :: b)
  end.

Definition tokenize_rendered_chat_vocab (text : list Z) : option (list Z) :=
  items ← rendered_loop (length text) [] text; emit_spans items.

(** ** Wrapped payloads *)

Definition escaped_lt : list Z := bs "&lt;".

(** The loop of bpe_tokenize_wrapped_payload_text: the first byte of a closing
    marker is written as an entity. *)
Fixpoint wrapped_loop (end_marker span p : list Z) : list item :=
  match p with
  | [] => flush span
  | c :: t =>
      if starts_with p end_marker then flush span ++ Piece escaped_lt :: wrapped_loop end_marker [] t
      else wrapped_loop end_marker (span ++ [c]) t
  end.

Definition bpe_tokenize_wrapped_payload_text (content end_marker : list Z) : option (list Z) :=
  emit_spans (wrapped_loop end_marker [] content).

(** ** Roles *)

Definition chat_push_fragment (prefix text : list Z) : option (list Z) :=
  if blen prefix + blen text =? 0 then Some [] else encode (prefix ++ text).

Definition solar_chat_open_role (role : list Z) : list (option (list Z)) :=
  [push (im_start_id ids); encode role; push (im_content_id ids)].

Definition solar_chat_close_role : list (option (list Z)) :=
  [push (im_end_id ids); chat_push_fragment [10] []].

Definition qwen_chat_open_role (role : list Z) : list (option (list Z)) :=
  [push (im_start_id ids); encode role; encode [10]].

Definition qwen_chat_close_role : list (option (list Z)) := [push (im_end_id ids); encode [10]].

Definition chat_push_bos_sequence : list (option (list Z)) :=
  push (bos_id ids) ::
  when (match f with GLM53 => 0 <=? sop_id ids | _ => false end) [push (sop_id ids)].

(** ** Whole prompts; an absent system text is empty. *)

Definition encode_chat_prompt_solar (system prompt : list Z) (m : ds4_think_mode) : option (list Z) :=
  if missing [im_start_id ids; im_content_id ids; im_end_id ids; think_start_id ids; think_end_id ids]
  then None
  else all_of
    (when (nonempty system)
       (solar_chat_open_role (bs "system") ++
        [chat_push_fragment (bs "## System Prompt" ++ [10; 10]) system] ++ solar_chat_close_role) ++
     solar_chat_open_role (bs "user") ++ [chat_push_fragment [] prompt] ++ solar_chat_close_role ++
     solar_chat_open_role (bs "assistant") ++ [push (think_start_id ids)] ++
     when (negb (ds4_think_mode_enabled m)) [push (think_end_id ids)]).

Definition encode_chat_prompt_exaone (system prompt : list Z) (m : ds4_think_mode) : option (list Z) :=
  if missing [user_id ids; assistant_id ids; eos_id ids; think_start_id ids; think_end_id ids] then None
  else if nonempty system && (system_id ids <? 0) then None
  else all_of
    (when (nonempty system)
       [push (system_id ids); chat_push_fragment [10] system; push (eos_id ids);
        chat_push_fragment [10] []] ++
     [push (user_id ids); chat_push_fragment [10] prompt; push (eos_id ids); chat_push_fragment [10] [];
      push (assistant_id ids); chat_push_fragment [10] []; push (think_start_id ids)] ++
     (if ds4_think_mode_enabled m then [chat_push_fragment [10] []]
      else [chat_push_fragment [10; 10] []; push (think_end_id ids); chat_push_fragment [10; 10] []])).

(** The opening of an answer in the Qwen template. *)
Definition qwen_think (m : ds4_think_mode) : list (option (list Z)) :=
  push (think_start_id ids) ::
  (if ds4_think_mode_enabled m then [encode [10]]
   else [encode [10; 10]; push (think_end_id ids); encode [10; 10]]).

Definition encode_chat_prompt_qwen (system prompt : list Z) (m : ds4_think_mode) : option (list Z) :=
  if missing [im_start_id ids; im_end_id ids; think_start_id ids; think_end_id ids] then None
  else
    let xhigh := match m with THINK_HIGH | THINK_MAX => true | _ => false end in
    all_of
      (when (xhigh || nonempty system)
         (qwen_chat_open_role (bs "system") ++
          when xhigh (encode DS4_QWEN_XHIGH_PROMPT :: when (nonempty system) [encode [10; 10]]) ++
          when (nonempty system) [encode system] ++ qwen_chat_close_role) ++
       qwen_chat_open_role (bs "user") ++ [encode prompt] ++ qwen_chat_close_role ++
       qwen_chat_open_role (bs "assistant") ++ qwen_think m).

Definition ends_with (s suffix : list Z) : bool :=
  (blen suffix <=? blen s) && bool_decide (zdrop (blen s - blen suffix) s = suffix).

(** encode_chat_prompt *)
Definition encode_chat_prompt (system prompt : list Z) (m : ds4_think_mode) : option (list Z) :=
  let off := negb (ds4_think_mode_enabled m) in
  match f with
  | GLM53 =>
      if missing [bos_id ids; sop_id ids; system_id ids; user_id ids; assistant_id ids;
                  think_start_id ids; think_end_id ids] then None
      else all_of
        (chat_push_bos_sequence ++
         match glm53_reasoning_effort m with
         | Some effort => [push (system_id ids); encode effort] | None => [] end ++
         when (nonempty system) [push (system_id ids); encode system] ++
         [push (user_id ids); encode prompt; push (assistant_id ids); push (think_start_id ids)] ++
         when off [push (think_end_id ids)])
  | EXAONE_MOE => encode_chat_prompt_exaone system prompt m
  | QWEN4EXP | QWEN35 => encode_chat_prompt_qwen system prompt m
  | MOTIF3 =>
      if missing [bos_id ids; system_id ids; user_id ids; assistant_id ids; start_of_turn_id ids;
                  end_of_turn_id ids; think_start_id ids; think_end_id ids] then None
      else all_of
        (chat_push_bos_sequence ++
         when (nonempty system)
           [push (start_of_turn_id ids); push (system_id ids); encode system; push (end_of_turn_id ids)] ++
         [push (start_of_turn_id ids); push (user_id ids); encode prompt; push (end_of_turn_id ids);
          push (start_of_turn_id ids); push (assistant_id ids); push (think_start_id ids)] ++
         when off [push (think_end_id ids)])
  | SOLAR_OPEN2 => encode_chat_prompt_solar system prompt m
  | DOTS3_NOTE =>
      if missing [system_id ids; user_id ids; assistant_id ids; dots3_endofsystem_id ids;
                  dots3_endofuser_id ids; eos_id ids; think_start_id ids; think_end_id ids] then None
      else all_of
        ([push (system_id ids);
          encode (if nonempty system then system else bs "You are a helpful assistant.");
          push (dots3_endofsystem_id ids); push (user_id ids); encode prompt] ++
         when (off && negb (ends_with prompt (bs "<no_think>"))) [encode (bs "<no_think>")] ++
         [push (dots3_endofuser_id ids); push (assistant_id ids)] ++
         when off [push (think_start_id ids); encode [10; 10]; push (think_end_id ids); encode [10; 10]])
  | _ =>
      all_of
        ([push (bos_id ids)] ++
         when (nonempty (ds4_think_effort_prefix m)) [encode (ds4_think_effort_prefix m)] ++
         when (nonempty system) [encode system] ++
         [push (user_id ids); encode prompt; push (assistant_id ids);
          push (if ds4_think_mode_enabled m then think_start_id ids else think_end_id ids)])
  end.

(** ds4_encode_chat_prompt *)
Definition ds4_encode_chat_prompt := encode_chat_prompt.

Definition ds4_chat_begin : option (list Z) :=
  match f with
  | SOLAR_OPEN2 | DOTS3_NOTE | QWEN4EXP | QWEN35 => Some []
  | _ => all_of chat_push_bos_sequence
  end.

Definition ds4_chat_append_effort_prefix (m : ds4_think_mode) : option (list Z) :=
  match f with
  | GLM53 => match glm53_reasoning_effort m with
             | Some effort => all_of [push (system_id ids); encode effort]
             | None => Some [] end
  | MOTIF3 | SOLAR_OPEN2 | DOTS3_NOTE | QWEN4EXP | QWEN35 => Some []
  | _ => all_of (when (nonempty (ds4_think_effort_prefix m)) [encode (ds4_think_effort_prefix m)])
  end.
End chat.
