(* ===== verification/ChatMsg.v ===== *)
(** * Chat messages as tokens (ds4.c)

    What a message of a role, and the opening of an answer, append to the tokens of a
    conversation, and the tokens that end a generation. *)

From S2P Require Import Prelude Text StrTable Bpe PreTok ChatTok.

(** ** Roles

    The strings compared with in ds4_chat_append_message; every other role is the
    user's. *)

Inductive chat_role := SystemRole | AssistantRole | ToolRole | UserRole.

Definition role_of (role : list Z) : chat_role :=
  if bool_decide (role = bs "system") || bool_decide (role = bs "developer") then SystemRole
  else if bool_decide (role = bs "assistant") then AssistantRole
  else if bool_decide (role = bs "tool") || bool_decide (role = bs "function") then ToolRole
  else UserRole.

Section messages.
Context {T : Type} `{Dict T} (vocab : ds4_vocab T) (ids : chat_ids) (f : family).

Abbreviation encode := (bpe_tokenize_text vocab f).
Abbreviation rendered := (tokenize_rendered_chat_vocab vocab ids f).
Abbreviation wrapped := (bpe_tokenize_wrapped_payload_text vocab f).

(** The last token so far is [t]. *)
Definition ends_at (tokens : list Z) (t : Z) : bool :=
  match last tokens with Some x => x =? t | None => false end.

(** The newline after a sampled Solar turn. *)
Definition solar_gap (tokens : list Z) : list (option (list Z)) :=
  when (ends_at tokens (im_end_id ids)) [chat_push_fragment vocab f [10] []].

(** An assistant turn that does not open its own thoughts gets closed ones. *)
Definition closed_thoughts (content : list Z) (marks : list (list Z)) (l : list (option (list Z)))
    : list (option (list Z)) :=
  when (negb (existsb (starts_with content) marks)) l.

Definition glm_message (r : chat_role) (content : list Z) : list (option (list Z)) :=
  match r with
  | SystemRole => [push (system_id ids); rendered content]
  | AssistantRole =>
      [push (assistant_id ids)] ++
      closed_thoughts content [bs "<think>"; bs "</think>"]
        [push (think_start_id ids); push (think_end_id ids)] ++ [rendered content]
  | ToolRole => [push (observation_id ids); push (tool_response_start_id ids);
                 wrapped content (bs "</tool_response>"); push (tool_response_end_id ids)]
  | UserRole => [push (user_id ids); encode content]
  end.

Definition motif3_message (r : chat_role) (content : list Z) : list (option (list Z)) :=
  [push (start_of_turn_id ids)] ++
  match r with
  | SystemRole => [push (system_id ids); encode content]
  | AssistantRole => [push (assistant_id ids); rendered content]
  | ToolRole => [push (tool_id ids); push (tool_response_start_id ids);
                 wrapped content (bs "</tool_response>"); push (tool_response_end_id ids)]
  | UserRole => [push (user_id ids); encode content]
  end ++ [push (end_of_turn_id ids)].

Definition dots3_message (r : chat_role) (content : list Z) : list (option (list Z)) :=
  match r with
  | SystemRole => [push (system_id ids); encode content; push (dots3_endofsystem_id ids)]
  | AssistantRole => [push (assistant_id ids); rendered content; push (eos_id ids)]
  | ToolRole => [push (user_id ids); encode [10]; push (tool_response_start_id ids); encode [10];
                 wrapped content (bs "</dots_function_response>"); encode [10];
                 push (tool_response_end_id ids); push (dots3_endofuser_id ids)]
  | UserRole => [push (user_id ids); encode content; push (dots3_endofuser_id ids)]
  end.

Definition solar_message (r : chat_role) (content : list Z) : list (option (list Z)) :=
  match r with
  | SystemRole => solar_chat_open_role vocab ids f (bs "system") ++
                  [chat_push_fragment vocab f (bs "## System Prompt" ++ [10; 10]) content]
  | AssistantRole => solar_chat_open_role vocab ids f (bs "assistant") ++
                     closed_thoughts content [bs "<|think:start|>"]
                       [push (think_start_id ids); push (think_end_id ids)] ++ [rendered content]
  | ToolRole => (if missing [tool_response_start_id ids; tool_response_end_id ids] then [None] else []) ++
                solar_chat_open_role vocab ids f (bs "tool") ++
                [push (tool_response_start_id ids); wrapped content (bs "<|tool_response:end|>");
                 push (tool_response_end_id ids)]
  | UserRole => solar_chat_open_role vocab ids f (bs "user") ++ [rendered content]
  end ++ solar_chat_close_role vocab ids f.

Definition qwen_message (r : chat_role) (content : list Z) : list (option (list Z)) :=
  match r with
  | SystemRole => qwen_chat_open_role vocab ids f (bs "system") ++ [encode content]
  | AssistantRole => qwen_chat_open_role vocab ids f (bs "assistant") ++
                     closed_thoughts content [bs "<think>"]
                       [push (think_start_id ids); encode [10; 10]; push (think_end_id ids);
                        encode [10; 10]] ++ [rendered content]
  | ToolRole => qwen_chat_open_role vocab ids f (bs "user") ++
                [push (tool_response_start_id ids); encode [10];
                 wrapped content (bs "</tool_response>"); encode [10];
                 push (tool_response_end_id ids)]
  | UserRole => qwen_chat_open_role vocab ids f (bs "user") ++ [rendered content]
  end ++ qwen_chat_close_role vocab ids f.

(** The families without a template of their own. *)
Definition plain_message (r : chat_role) (content : list Z) : list (option (list Z)) :=
  match r with
  | SystemRole => [encode content]
  | AssistantRole => [push (assistant_id ids)] ++
                     closed_thoughts content [bs "<think>"; bs "</think>"] [push (think_end_id ids)] ++
                     [encode content]
  | ToolRole => [push (user_id ids); encode (bs "Tool: "); encode content]
  | UserRole => [push (user_id ids); encode content]
  end.

(** ds4_chat_append_message: the tokens after the call *)
Definition ds4_chat_append_message (tokens role content : list Z) : option (list Z) :=
  let r := role_of role in
  added ← all_of
    match f with
    | GLM53 => glm_message r content
    | MOTIF3 => motif3_message r content
    | DOTS3_NOTE => dots3_message r content
    | SOLAR_OPEN2 => solar_gap tokens ++ solar_message r content
    | QWEN4EXP | QWEN35 => qwen_message r content
    | _ => plain_message r content
    end;
  Some (tokens ++ added).

(** ds4_chat_append_assistant_prefix *)
Definition ds4_chat_append_assistant_prefix (tokens : list Z) (m : ds4_think_mode) : option (list Z) :=
  let off := negb (ds4_think_mode_enabled m) in
  added ← all_of
    match f with
    | GLM53 => [push (assistant_id ids); push (think_start_id ids)] ++
               when off [push (think_end_id ids)]
    | DOTS3_NOTE => [push (assistant_id ids)] ++
                    when off [push (think_start_id ids); encode [10; 10]; push (think_end_id ids);
                              encode [10; 10]]
    | MOTIF3 => [push (start_of_turn_id ids); push (assistant_id ids); push (think_start_id ids)] ++
                when off [push (think_end_id ids)]
    | SOLAR_OPEN2 => solar_gap tokens ++ solar_chat_open_role vocab ids f (bs "assistant") ++
                     [push (think_start_id ids)] ++ when off [push (think_end_id ids)]
    | QWEN4EXP | QWEN35 => qwen_chat_open_role vocab ids f (bs "assistant") ++ qwen_think vocab ids f m
    | _ => [push (assistant_id ids);
            push (if ds4_think_mode_enabled m then think_start_id ids else think_end_id ids)]
    end;
  Some (tokens ++ added).

(** ** The tokens that end a generation *)

(** A marker the vocabulary has, and it is [t]. *)
Definition is_marker (id t : Z) : bool := (0 <=? id) && (t =? id).

Definition vocab_token_is_generation_stop (t : Z) : bool :=
  if t <? 0 then false
  else if negb (bool_decide (stop ids = [])) then existsb (Z.eqb t) (stop ids)
  else (t =? eos_id ids) ||
    match f with
    | GLM53 => is_marker (user_id ids) t || is_marker (observation_id ids) t
    | SOLAR_OPEN2 | QWEN4EXP | QWEN35 | BEAM_VQ => is_marker (eot_id ids) t
    | MIMO2 => is_marker (eot_id ids) t || is_marker (end_of_turn_id ids) t
    | MOTIF3 => is_marker (user_id ids) t || is_marker (end_of_turn_id ids) t
    | DOTS3_NOTE => is_marker (dots3_endoftext_id ids) t
    | LING3VL | LING31_VQ | AXK2_VQ => is_marker (eot_id ids) t || is_marker (im_start_id ids) t
    | _ => false
    end.

Definition ds4_token_eos : Z :=
  match f with
  | SOLAR_OPEN2 => if 0 <=? eot_id ids then eot_id ids else eos_id ids
  | _ => eos_id ids
  end.

Definition ds4_token_is_stop : Z -> bool := vocab_token_is_generation_stop.

Definition ds4_token_is_thinking_control (t : Z) : bool :=
  if t <? 0 then false else is_marker (think_start_id ids) t || is_marker (think_end_id ids) t.

Definition ds4_token_is_stop_for_think_mode (t : Z) (m : ds4_think_mode) : bool :=
  ds4_token_is_stop t || (negb (ds4_think_mode_enabled m) && ds4_token_is_thinking_control t).
End messages.
