(* ===== verification/TokSpec.v ===== *)
(** * What tokenization promises

    The tokens of a text read back as the text; a vocabulary held in hash tables
    tokenizes like one held in finite maps; and the vocabulary a host installs is
    such a pair. *)

From S2P Require Import Prelude Text StrTable Bpe BpeSpec PreTok PreTokSpec ChatTok.

(** ** The items of a text *)

Section items.
Context {T : Type} `{Dict T} (vocab : ds4_vocab T) (f : family).

(** The text that stays of an item: a literal token of Motif that swallowed the space
    before it reads back as the token alone. *)
Definition kept (i : item) : list Z :=
  match f, i with
  | MOTIF3, Added id _ => znth [] (token vocab) id
  | _, _ => item_text i
  end.

(** Literal tokens are spelled as they are read. *)
Definition readable : Prop :=
  match f with
  | MOTIF3 => ∀ id t, 0 <= id < 160 → token vocab !! Z.to_nat id = Some t → vocab_token_text vocab id = Some t
  | _ => ∀ k t, dget (user_defined vocab) k = Some t → vocab_token_text vocab t = Some k
  end.

Lemma item_reads i : readable → genuine vocab f i →
  match i with Piece _ => True | Added id _ => vocab_token_text vocab id = Some (kept i) end.
Proof.
  unfold readable, genuine, kept. destruct i as [p|id p]; [done|].
  destruct f; simpl; intros Hr Hg; try (by apply Hr).
  destruct Hg as (w & t & Hid & Ht & _ & _). rewrite (Hr id t Hid Ht). f_equal.
  unfold znth. symmetry. by apply nth_lookup_Some.
Qed.

Lemma emit_items_ok l :
  spelled vocab → complete vocab → readable → Forall (genuine vocab f) l →
  Forall (λ i, bytes_ok (item_text i)) l →
  ∃ ids, emit_items vocab l = Some ids ∧ tokens_text vocab ids = Some (concat (map kept l)).
Proof.
  intros Hs Hc Hr. induction l as [|i l IH]; intros Hg Hb; [by exists []|].
  apply Forall_cons in Hg as [Hi Hg]. apply Forall_cons in Hb as [Hbi Hb].
  destruct (IH Hg Hb) as (ids & He & Ht). pose proof (item_reads i Hr Hi) as Hread.
  destruct i as [p|id p]; cbn [emit_items map concat]; rewrite He.
  - destruct (emit_piece_ok vocab p Hs Hc Hbi) as (sym & pids & -> & Hp & _).
    cbn [mbind option_bind]. eexists. split; [done|].
    replace (kept (Piece p)) with p by (unfold kept; by destruct f). by apply tokens_text_app.
  - cbn [mbind option_bind]. eexists. split; [done|]. by apply tokens_text_cons.
Qed.

Lemma joined_bytes l : bytes_ok (joined l) → Forall (λ i, bytes_ok (item_text i)) l.
Proof.
  induction l as [|i l IH]; intros Hb; [constructor|]. unfold joined in Hb. cbn [map concat] in Hb.
  apply Forall_app in Hb as [? ?]. constructor; [done|]. by apply IH.
Qed.

Lemma kept_joined l : f ≠ MOTIF3 → concat (map kept l) = joined l.
Proof. intros Hf. unfold joined. f_equal. apply map_ext. intros i. unfold kept. by destruct f. Qed.

(** All that tokenizing a text does, at once. *)
Lemma tokenize_ok s :
  spelled vocab → complete vocab → readable → bytes_ok s →
  ∃ l ids, split_text vocab f s = Some l ∧ joined l = s ∧ Forall (genuine vocab f) l ∧
    bpe_tokenize_text vocab f s = Some ids ∧ emit_items vocab l = Some ids ∧
    tokens_text vocab ids = Some (concat (map kept l)).
Proof.
  intros Hs Hc Hr Hb. destruct (split_text_covers vocab f s) as (l & Hl & Hj & Hg).
  rewrite zdrop_0 in Hj. apply Forall_and in Hg as [_ Hg].
  destruct (emit_items_ok l Hs Hc Hr Hg) as (ids & He & Ht); [by apply joined_bytes; rewrite Hj|].
  exists l, ids. unfold bpe_tokenize_text. rewrite Hl. done.
Qed.

Lemma tokenize_reads_back s :
  f ≠ MOTIF3 → spelled vocab → complete vocab → readable → bytes_ok s →
  ∃ ids, bpe_tokenize_text vocab f s = Some ids ∧ tokens_text vocab ids = Some s.
Proof.
  intros Hf Hs Hc Hr Hb. destruct (tokenize_ok s Hs Hc Hr Hb) as (l & ids & _ & Hj & _ & Ht & _ & Hx).
  exists ids. split; [done|]. by rewrite kept_joined, Hj in Hx.
Qed.
End items.

(** ** Two vocabularies with the same answers *)

Section agree.
Context {T U : Type} `{Dict T} `{Dict U} (v : ds4_vocab T) (w : ds4_vocab U) (Hag : vocab_agree v w).

Lemma literal_agree s pos : literal_at v s pos = literal_at w s pos.
Proof using Hag.
  unfold literal_at. rewrite (ag_len _ _ Hag), (ag_first _ _ Hag). destruct (_ && _); [|done].
  generalize (Z.to_nat (Z.min (blen s - pos) (user_defined_max_len w))) as n.
  induction n as [|n IH]; cbn [longest_literal]; [done|]. by rewrite (ag_user _ _ Hag), IH.
Qed.

Lemma added_agree s pos : motif3_added_token_at v s pos = motif3_added_token_at w s pos.
Proof using Hag. unfold motif3_added_token_at. by rewrite (ag_motif _ _ Hag), (ag_token _ _ Hag). Qed.

Lemma literal_pieces_agree fuel e s pos : literal_pieces v fuel e s pos = literal_pieces w fuel e s pos.
Proof using Hag.
  revert pos. induction fuel as [|n IH]; intros pos; cbn [literal_pieces]; [done|].
  rewrite literal_agree. destruct (blen s <=? pos); [done|].
  destruct (literal_at w s pos) as [[id hit]|]; cbv zeta; by rewrite IH.
Qed.

Lemma dots3_agree fuel s from pos : dots3_loop v fuel s from pos = dots3_loop w fuel s from pos.
Proof using Hag.
  assert (∀ a b, solar_span v s a b = solar_span w s a b) as Hs.
  { intros a b. unfold solar_span, split_solar. by rewrite literal_pieces_agree. }
  revert from pos. induction fuel as [|n IH]; intros from pos; cbn [dots3_loop]; [by rewrite Hs|].
  rewrite literal_agree, Hs. destruct (blen s <=? pos); [done|].
  destruct (literal_at w s pos) as [[id hit]|]; [|done]. by rewrite Hs, IH.
Qed.

Lemma motif3_agree fuel s pos : motif3_loop v fuel s pos = motif3_loop w fuel s pos.
Proof using Hag.
  assert (∀ n scan, find_added v n s scan = find_added w n s scan) as Hfa.
  { induction n as [|n IH]; intros scan; cbn [find_added]; [done|]. by rewrite added_agree, IH. }
  revert pos. induction fuel as [|n IH]; intros pos; cbn [motif3_loop]; [done|].
  rewrite added_agree, Hfa. destruct (blen s <=? pos); [done|].
  destruct (motif3_added_token_at w s pos) as [[id m]|]; [by rewrite IH|].
  destruct (find_added w (length s) s (pos + 1)) as [[found [id m]]|]; [|done]. cbv zeta. by rewrite IH.
Qed.

Lemma tokenize_agree f s : bpe_tokenize_text v f s = bpe_tokenize_text w f s.
Proof using Hag.
  assert (split_text v f s = split_text w f s) as Hsplit.
  { destruct f; cbn [split_text]; try done;
      unfold split_solar, split_motif3, split_exaone, split_dots3;
      auto using literal_pieces_agree, dots3_agree, motif3_agree. }
  unfold bpe_tokenize_text. rewrite Hsplit. destruct (split_text w f s) as [l|]; [|done].
  cbn [mbind option_bind]. clear Hsplit. induction l as [|[p|id p] l IH]; cbn [emit_items]; [done| |by rewrite IH].
  by rewrite (emit_agree _ _ Hag), IH.
Qed.
End agree.

(** ** Tokens of spans and markers *)

Section spans.
Context {T : Type} `{Dict T} (vocab : ds4_vocab T) (f : family).
Context (Hs : spelled vocab) (Hc : complete vocab) (Hr : readable vocab f).

(** Every token's text is somewhere in [s]. *)
Definition tokens_in (ids : list Z) (s : list Z) : Prop :=
  Forall (λ t, ∃ x i, vocab_token_text vocab t = Some x ∧ occurs s x i) ids.

Lemma occurs_mid a x b y i : occurs x y i → occurs (a ++ x ++ b) y (blen a + i).
Proof using.
  intros (u & w & -> & <-). exists (a ++ u), (w ++ b). rewrite blen_app, !app_assoc. done.
Qed.

Lemma tokens_in_mid ids a x b : tokens_in ids x → tokens_in ids (a ++ x ++ b).
Proof using.
  unfold tokens_in. rewrite !Forall_forall. intros Hx t Ht. destruct (Hx t Ht) as (y & i & Hy & Hi).
  exists y, (blen a + i). split; [done|]. by apply occurs_mid.
Qed.

Lemma tokens_in_both ids k a b : tokens_in ids a → tokens_in k b → tokens_in (ids ++ k) (a ++ b).
Proof using.
  intros Ha Hb. apply Forall_app. split.
  - by apply (tokens_in_mid ids [] a b).
  - pose proof (tokens_in_mid k a b [] Hb) as Hk. by rewrite app_nil_r in Hk.
Qed.

(** Tokens that read back as [s] are in [s]. *)
Lemma text_tokens_in ids s : tokens_text vocab ids = Some s → tokens_in ids s.
Proof using.
  revert s. induction ids as [|t ids IH]; intros s; cbn [tokens_text]; [constructor|].
  destruct (vocab_token_text vocab t) as [a|] eqn:Ha; [|done]. cbn [mbind option_bind].
  destruct (tokens_text vocab ids) as [b|]; [|done]. intros [= <-].
  apply (tokens_in_both [t]); [|by apply IH]. constructor; [|constructor].
  exists a, 0. split; [done|]. exists [], []. by rewrite app_nil_r.
Qed.

(** What is kept of an item is a part of it. *)
Lemma kept_in ids i : genuine vocab f i → tokens_in ids (kept vocab f i) → tokens_in ids (item_text i).
Proof using.
  clear Hr. unfold genuine, kept. destruct f, i as [p|id p]; try done. cbn [motif_literal item_text].
  intros (w & t & _ & Ht & -> & _) Hin. unfold znth in Hin.
  rewrite (nth_lookup_Some _ _ _ _ Ht) in Hin.
  pose proof (tokens_in_mid ids w t [] Hin) as Hk. by rewrite app_nil_r in Hk.
Qed.

Lemma items_tokens_in l :
  Forall (genuine vocab f) l → Forall (λ i, bytes_ok (item_text i)) l →
  ∃ ids, emit_items vocab l = Some ids ∧ tokens_in ids (joined l).
Proof using Hs Hc Hr.
  induction l as [|i l IH]; intros Hg Hb; [exists []; split; [done|constructor]|].
  apply Forall_cons in Hg as [Hi Hg]. apply Forall_cons in Hb as [Hbi Hb].
  destruct (IH Hg Hb) as (ids & He & Hin). clear IH.
  destruct (emit_items_ok vocab f [i] Hs Hc Hr) as (k & Hk & Hkt); [by constructor|by constructor|].
  cbn [map concat] in Hkt. rewrite app_nil_r in Hkt.
  exists (k ++ ids). split.
  - destruct i as [p|id p]; cbn [emit_items] in Hk |- *; rewrite He.
    + destruct (bpe_emit_piece vocab p); [|done]. cbn [mbind option_bind] in *.
      injection Hk as <-. by rewrite app_nil_r.
    + cbn [mbind option_bind] in *. by injection Hk as <-.
  - apply tokens_in_both; [|done]. apply (kept_in k i Hi), text_tokens_in, Hkt.
Qed.

Lemma encode_tokens_in s : bytes_ok s →
  ∃ ids, bpe_tokenize_text vocab f s = Some ids ∧ tokens_in ids s ∧
    (f ≠ MOTIF3 → tokens_text vocab ids = Some s).
Proof using Hs Hc Hr.
  intros Hb. destruct (tokenize_ok vocab f s Hs Hc Hr Hb) as (l & ids & _ & Hj & Hg & Ht & He & Hx).
  exists ids. split; [done|]. split.
  - destruct (items_tokens_in l Hg) as (ids' & He' & Hin); [apply joined_bytes; by rewrite Hj|].
    rewrite Hj in Hin. congruence.
  - intros Hf. by rewrite kept_joined, Hj in Hx.
Qed.

Lemma emit_spans_total l :
  Forall (λ i, bytes_ok (item_text i)) l → ∃ ids, emit_spans vocab f l = Some ids.
Proof using Hs Hc Hr.
  induction 1 as [|[p|id p] l Hb Hl (ids & IH)]; cbn [emit_spans]; [by exists []| |by rewrite IH; eexists].
  destruct (encode_tokens_in p Hb) as (k & -> & _). rewrite IH. by eexists.
Qed.

(** The spans are tokenized; a marker has the text it stands for. *)
Lemma emit_spans_ok l :
  Forall (λ i, bytes_ok (item_text i)) l →
  Forall (λ i, match i with Piece _ => True | Added id p => vocab_token_text vocab id = Some p end) l →
  ∃ ids, emit_spans vocab f l = Some ids ∧ tokens_in ids (joined l) ∧
    (f ≠ MOTIF3 → tokens_text vocab ids = Some (joined l)).
Proof using Hs Hc Hr.
  induction l as [|i l IH]; intros Hb Hm; [exists []; split; [done|]; split; [constructor|done]|].
  apply Forall_cons in Hb as [Hbi Hb]. apply Forall_cons in Hm as [Hi Hm].
  destruct (IH Hb Hm) as (ids & He & Hin & Ht). unfold joined. cbn [map concat]. fold (joined l).
  destruct i as [p|id p]; cbn [emit_spans item_text] in *; rewrite He; cbn [mbind option_bind].
  - destruct (encode_tokens_in p Hbi) as (k & -> & Hk & Hkt). cbn [mbind option_bind].
    eexists. split; [done|]. split; [by apply tokens_in_both|].
    intros Hf. apply tokens_text_app; auto.
  - eexists. split; [done|]. split.
    + apply (tokens_in_both [id]); [|done]. apply text_tokens_in. cbn [tokens_text]. rewrite Hi.
      cbn [mbind option_bind]. by rewrite app_nil_r.
    + intros Hf. apply tokens_text_cons; auto.
Qed.
End spans.
