(* ===== verification/TokTheorems.v ===== *)
(** * Tokenization: the theorems

    The vocabulary a host installs, the round trip of text, tool output that stays
    inside its wrapper, and rendered conversations. *)

From S2P Require Import Prelude Text ToolText ToolEscape StrTable Bpe BpeSpec PreTok PreTokSpec.
From S2P Require Import ChatTok ChatMsg TokSpec.

(** ** The vocabulary a host installs *)

(** The same vocabulary with finite maps. *)
Definition map_vocab (h : ds4_host_vocab) : ds4_vocab (gmap (list Z) Z) :=
  Vocab (h_tokens h) (map_of (indexed (h_tokens h))) (map_of (indexed (h_merges h)))
    (map_of (map (λ id, (znth [] (h_tokens h) id, id)) (h_user_defined h)))
    (h_user_defined_max_len h) (h_user_defined_first h) (h_motif3_added_first h).

Lemma map_of_elem l k v : map_of l !! k = Some v → (k, v) ∈ l.
Proof.
  unfold map_of. assert (∀ M : gmap (list Z) Z, fold_left (λ M kv, <[fst kv := snd kv]> M) l M !! k = Some v →
    (k, v) ∈ l ∨ M !! k = Some v) as Hgen.
  { induction l as [|[k1 v1] l IH]; intros M; cbn [fold_left fst snd]; [by right|].
    intros [?|[[-> ->]|[_ ?]]%lookup_insert_Some]%IH; [by left; constructor|by left; constructor|by right]. }
  intros [?|E]%Hgen; [done|]. by rewrite lookup_empty in E.
Qed.

Lemma indexed_elem l k v : (k, v) ∈ indexed l → l !! Z.to_nat v = Some k ∧ 0 <= v.
Proof.
  unfold indexed. intros [i Hi]%list_elem_of_lookup. apply lookup_zip_Some in Hi as [Hk Hv].
  apply lookup_seqZ in Hv as [-> Hv]. split; [|lia]. by replace (Z.to_nat (0 + Z.of_nat i)) with i by lia.
Qed.

Lemma map_vocab_spelled h : spelled (map_vocab h).
Proof. intros s t Ht. by apply indexed_elem, map_of_elem. Qed.

Lemma blen_indexed l : blen (indexed l) = blen l.
Proof.
  unfold indexed, blen. rewrite length_zip_with_l_eq; [done|]. rewrite length_seqZ. lia.
Qed.

(** What a host may hand over: lengths a C array can have, and ids that name tokens. *)
Record host_ok (h : ds4_host_vocab) : Prop := {
  ho_ids : ds4_host_vocab_apply h = true;
  ho_tokens : blen (h_tokens h) <= 2 ^ 31;
  ho_merges : blen (h_merges h) <= 2 ^ 31;
  ho_user : blen (h_user_defined h) <= 2 ^ 31;
  ho_stop : blen (stop (h_ids h)) <= 8 }.

(** A table made for as many entries as are put. *)
Lemma filled n l : 0 <= n <= 2 ^ 61 → blen l <= n →
  ∃ t0 t, table_init n = Some t0 ∧ put_all t0 l = Some t ∧ ∀ k, dget t k = map_of l !! k.
Proof.
  intros Hn Hl. destruct (filled_table_reads n l Hn ltac:(lia)) as (t0 & t & H0 & H1 & H2).
  exists t0, t. do 2 (split; [done|]). intros k. unfold dget, hashed. by rewrite H2.
Qed.

Lemma host_vocab_ok h : host_ok h →
  ∃ v, model_apply_host_vocab h = Some (v, copied_ids (h_ids h)) ∧ vocab_agree v (map_vocab h).
Proof.
  intros [Hids Ht Hm Hu Hst]. unfold model_apply_host_vocab. rewrite Hids. cbn [negb].
  pose proof (blen_nonneg (h_tokens h)). pose proof (blen_nonneg (h_merges h)).
  pose proof (blen_nonneg (h_user_defined h)).
  destruct (filled (blen (h_tokens h)) (indexed (h_tokens h))) as (t0 & t & -> & E1 & Ht1);
    [lia|by rewrite blen_indexed|]. cbn [mbind option_bind]. rewrite E1. cbn [mbind option_bind].
  set (pairs := map (λ id, (znth [] (h_tokens h) id, id)) (h_user_defined h)).
  assert (blen pairs = blen (h_user_defined h)) as Hp by (unfold pairs, blen; by rewrite length_map).
  destruct (filled (if blen (h_user_defined h) =? 0 then 64 else blen (h_user_defined h)) pairs)
    as (u0 & u & -> & E2 & Hu1); [case_match; lia|case_match; lia|].
  cbn [mbind option_bind]. rewrite E2. cbn [mbind option_bind].
  destruct (filled (blen (h_merges h)) (indexed (h_merges h))) as (m0 & m & -> & E3 & Hm1);
    [lia|by rewrite blen_indexed|]. cbn [mbind option_bind]. rewrite E3. cbn [mbind option_bind].
  rewrite (proj2 (Z.ltb_ge _ _)) by lia. eexists. split; [done|]. by split.
Qed.

Lemma agree_spelled {T U} `{Dict T} `{Dict U} (v : ds4_vocab T) (w : ds4_vocab U) :
  vocab_agree v w → spelled w → spelled v.
Proof. intros Hag Hs s t. rewrite (ag_ids _ _ Hag), (ag_token _ _ Hag). apply Hs. Qed.

(** C14: a host vocabulary with in-range ids installs without dying, and the hash
    tables it is copied into tokenize every text, in every model family, exactly as
    the finite maps from spelling to token, merge to rank and literal to token do; in
    particular a token the index finds is spelled as it was looked up. *)
Theorem host_vocab_tokenizes_as_maps h :
  host_ok h →
  ∃ v ids, model_apply_host_vocab h = Some (v, ids) ∧
    (∀ f s, bpe_tokenize_text v f s = bpe_tokenize_text (map_vocab h) f s) ∧
    (∀ s t, dget (token_to_id v) s = Some t → token v !! Z.to_nat t = Some s).
Proof.
  intros Hh. destruct (host_vocab_ok h Hh) as (v & Hv & Hag). exists v, (copied_ids (h_ids h)).
  split; [done|]. split; [intros f s; by apply tokenize_agree|].
  intros s t Ht. by apply (agree_spelled v _ Hag (map_vocab_spelled h)).
Qed.

(** *** A small vocabulary

    All bytes, one merge and one literal token. *)

Definition no_ids : chat_ids :=
  ChatIds (-1) (-1) (-1) (-1) (-1) (-1) (-1) (-1) (-1) (-1) (-1) (-1) (-1) (-1) (-1) (-1) (-1) (-1) (-1)
    (-1) (-1) (-1) (-1) (-1) (-1) (-1) (-1) (-1) (-1) (-1) (-1) (-1) (-1) (-1) (-1) (-1) (-1) [].

Definition small : ds4_host_vocab :=
  HostVocab (map enc (seqZ 0 256) ++ [bs "he"; bs "<think>"]) [bs "h e"] [257] 7
    (map (λ b, b =? 60) (seqZ 0 256)) (replicate 256 false) no_ids.

Lemma small_ok : host_ok small.
Proof. by split; vm_compute. Qed.

Example host_vocab_tokenizes_as_maps_witness :
  ∃ v ids, model_apply_host_vocab small = Some (v, ids) ∧
    bpe_tokenize_text v SOLAR_OPEN2 (bs "he<think>") = bpe_tokenize_text (map_vocab small) SOLAR_OPEN2 (bs "he<think>").
Proof.
  destruct (host_vocab_tokenizes_as_maps small small_ok) as (v & ids & Hv & Ht & _).
  exists v, ids. split; [exact Hv|apply Ht].
Defined.

(** ** Text *)

(** C13: tokenizing a text ends for every model family, and the tokens read back
    (vocab_token_text, one after the other) as the text itself, byte for byte, whatever
    the bytes, as long as the vocabulary has every byte and every merge result and its
    literal tokens are spelled as they are read.  Motif alone may lose bytes: those a
    literal token swallowed in front of it, so that there each literal token reads
    back as its own spelling. *)
Theorem tokens_read_back {T} `{Dict T} (vocab : ds4_vocab T) f s :
  spelled vocab → complete vocab → readable vocab f → bytes_ok s →
  ∃ items ids, split_text vocab f s = Some items ∧ concat (map item_text items) = s ∧
    bpe_tokenize_text vocab f s = Some ids ∧
    tokens_text vocab ids = Some (concat (map (kept vocab f) items)) ∧
    (f ≠ MOTIF3 → tokens_text vocab ids = Some s) ∧
    (f = MOTIF3 → Forall (motif_literal vocab) items).
Proof.
  intros Hs Hc Hr Hb. destruct (tokenize_ok vocab f s Hs Hc Hr Hb) as (l & ids & Hl & Hj & Hg & Ht & _ & Hx).
  exists l, ids. split; [done|]. split; [exact Hj|]. do 2 (split; [done|]). split.
  - intros Hf. by rewrite kept_joined, Hj in Hx.
  - intros ->. exact Hg.
Qed.

Lemma small_spaces a b : a ++ [32] ++ b = bs "h e" → a = [104] ∧ b = [101].
Proof. destruct a as [|x [|y [|z a]]]; cbn; intros [=]; subst; auto. by destruct a. Qed.

Lemma rank_found {T} `{Dict T} (v : ds4_vocab T) a b :
  0 <= bpe_rank v a b → ∃ r, dget (merge_rank v) (a ++ [32] ++ b) = Some r.
Proof. unfold bpe_rank. destruct (dget _ _) as [r|]; [by exists r|done]. Qed.

Lemma small_complete : complete (map_vocab small).
Proof.
  split.
  - intros b Hb. set (known b := match dget (token_to_id (map_vocab small)) (enc b) with
                                | Some _ => true | None => false end).
    assert (known b = true) as Hk by (apply (forallb_range known 256); [vm_compute; reflexivity|exact Hb]).
    unfold known in Hk. by destruct (dget _ (enc b)).
  - intros a b _ _ (r & Hr)%rank_found.
    apply map_of_elem, indexed_elem in Hr as [Hr Hr0].
    assert (a ++ [32] ++ b = bs "h e") as [-> ->]%small_spaces.
    { destruct (Z.to_nat r) as [|n]; [by injection Hr|done]. }
    vm_compute. by exists 256.
Qed.

Lemma small_readable : readable (map_vocab small) SOLAR_OPEN2.
Proof.
  intros k t Ht. apply map_of_elem in Ht. apply list_elem_of_singleton in Ht as [= -> ->].
  vm_compute. reflexivity.
Qed.

Example tokens_read_back_witness :
  ∃ ids, bpe_tokenize_text (map_vocab small) SOLAR_OPEN2 (bs "he said <think>" ++ [0xff; 0]) = Some ids ∧
    tokens_text (map_vocab small) ids = Some (bs "he said <think>" ++ [0xff; 0]).
Proof.
  destruct (tokens_read_back (map_vocab small) SOLAR_OPEN2 (bs "he said <think>" ++ [0xff; 0])
              (map_vocab_spelled small) small_complete small_readable) as (items & ids & _ & _ & H1 & _ & H2 & _).
  - repeat constructor; done.
  - exists ids. split; [exact H1|]. apply H2. discriminate.
Defined.

(** ** Tool output *)

Section tool.
Context {T : Type} `{Dict T} (vocab : ds4_vocab T) (ids : chat_ids) (f : family).
Context (Hs : spelled vocab) (Hc : complete vocab) (Hr : readable vocab f).

(** The closing markers of ds4_chat_append_message. *)
Definition tool_end : list Z :=
  match f with
  | SOLAR_OPEN2 => bs "<|tool_response:end|>"
  | DOTS3_NOTE => bs "</dots_function_response>"
  | _ => bs "</tool_response>"
  end.

(** The escaped output. *)
Definition escaped (content : list Z) : list Z := protect tool_end escaped_lt content.

Lemma tool_end_shape : ∃ tag, tool_end = (60 :: tag) ∧ (60 ∉ tag) ∧ (38 ∉ (60 :: tag)).
Proof using.
  clear Hr. unfold tool_end. destruct f; (eexists; split; [reflexivity|split; tag_side]).
Qed.

Lemma escaped_id content : (∀ i, ¬ occurs content tool_end i) → escaped content = content.
Proof using.
  unfold escaped. destruct tool_end_shape as (tag & -> & _). apply (protect_id 60 tag 38 (bs "lt;")).
Qed.

Lemma escaped_has_no_end content i : ¬ occurs (escaped content) tool_end i.
Proof using.
  unfold escaped. destruct tool_end_shape as (tag & -> & Hh & Hb).
  apply (protect_no_end 60 tag 38 (bs "lt;")); [done|done|tag_side].
Qed.

Lemma flush_joined s : joined (flush s) = s.
Proof using.
  unfold flush, nonempty. destruct s as [|c s]; [done|]. rewrite blen_cons. pose proof (blen_nonneg s).
  rewrite (proj2 (Z.eqb_neq _ _)) by lia. unfold joined. cbn. by rewrite app_nil_r.
Qed.

Lemma wrapped_joined e s p : joined (wrapped_loop e s p) = s ++ protect e escaped_lt p.
Proof using.
  revert s. induction p as [|c p IH]; intros s; cbn [wrapped_loop protect].
  - by rewrite flush_joined, app_nil_r.
  - destruct (starts_with (c :: p) e).
    + rewrite joined_app, flush_joined. unfold joined at 1. cbn [map concat item_text]. fold (joined (wrapped_loop e [] p)).
      by rewrite IH.
    + rewrite IH, <- app_assoc. done.
Qed.

Lemma flush_pieces (P : item → Prop) s : (∀ p, P (Piece p)) → Forall P (flush s).
Proof using. intros HP. unfold flush. case_match; repeat constructor; auto. Qed.

Lemma wrapped_pieces (P : item → Prop) e s p : (∀ q, P (Piece q)) → Forall P (wrapped_loop e s p).
Proof using.
  intros HP. revert s. induction p as [|c p IH]; intros s; cbn [wrapped_loop]; [by apply flush_pieces|].
  case_match; [|done]. apply Forall_app. split; [by apply flush_pieces|]. by constructor.
Qed.

Lemma protect_bytes e r s : bytes_ok r → bytes_ok s → bytes_ok (protect e r s).
Proof using.
  intros Hr'. induction 1 as [|c s Hb Hs' IH]; [constructor|]. cbn [protect].
  apply Forall_app. split; [case_match; [done|by constructor]|done].
Qed.

Lemma wrapped_ok content : bytes_ok content →
  ∃ payload, bpe_tokenize_wrapped_payload_text vocab f content tool_end = Some payload ∧
    tokens_in vocab payload (escaped content) ∧
    (f ≠ MOTIF3 → tokens_text vocab payload = Some (escaped content)).
Proof using Hs Hc Hr.
  intros Hb. pose proof (wrapped_joined tool_end [] content) as Hj. cbn [app] in Hj.
  fold (escaped content) in Hj. rewrite <- Hj. apply emit_spans_ok; [done..| |].
  - apply joined_bytes. rewrite Hj. apply protect_bytes; [|done]. by repeat constructor.
  - by apply wrapped_pieces.
Qed.

(** No token of the payload reads as the closing marker. *)
Lemma payload_has_no_end payload content t :
  tokens_in vocab payload (escaped content) → t ∈ payload → vocab_token_text vocab t ≠ Some tool_end.
Proof using.
  intros Hin Ht E. unfold tokens_in in Hin. rewrite Forall_forall in Hin.
  destruct (Hin t Ht) as (x & i & Hx & Ho). rewrite E in Hx. injection Hx as <-.
  by apply escaped_has_no_end in Ho.
Qed.
End tool.

(** The families that wrap tool output. *)
Definition wraps (f : family) : bool :=
  match f with GLM53 | MOTIF3 | DOTS3_NOTE | SOLAR_OPEN2 | QWEN4EXP | QWEN35 => true | _ => false end.

Lemma all_of_app l k :
  all_of (l ++ k) = (a ← all_of l; b ← all_of k; Some (a ++ b)).
Proof.
  induction l as [|o l IH]; cbn [app all_of]; [cbn; by destruct (all_of k)|].
  destruct o as [a|]; [|done]. cbn [mbind option_bind]. rewrite IH.
  destruct (all_of l) as [b|]; [|done]. cbn [mbind option_bind].
  destruct (all_of k); [|done]. cbn. by rewrite app_assoc.
Qed.

(** A payload between fixed parts. *)
Lemma all_of_frame l payload r pre post :
  all_of l = Some pre → all_of r = Some post →
  all_of (l ++ Some payload :: r) = Some (pre ++ payload ++ post).
Proof. intros Hl Hrr. rewrite all_of_app, Hl. cbn [all_of mbind option_bind]. by rewrite Hrr. Qed.

(** Text whose bytes are literals. *)
Lemma encode_some {T} `{Dict T} (vocab : ds4_vocab T) f s :
  spelled vocab → complete vocab → readable vocab f → bytes_ok s → ∃ l, bpe_tokenize_text vocab f s = Some l.
Proof. intros Hs Hc Hr Hb. destruct (encode_tokens_in vocab f Hs Hc Hr s Hb) as (l & -> & _). by exists l. Qed.

Lemma all_of_some ks : ∀ l, Forall2 (λ o k, o = Some k) l ks → all_of l = Some (concat ks).
Proof.
  induction ks as [|k ks IH]; intros l Hl; inversion Hl as [|o ? l' ? -> Hl' E1 E2]; subst; [done|].
  cbn [all_of]. by rewrite (IH l' Hl').
Qed.

Lemma qwen_tool_parts {T} `{Dict T} (vocab : ds4_vocab T) ids f tokens nl us :
  bpe_tokenize_text vocab f [10] = Some nl → bpe_tokenize_text vocab f (bs "user") = Some us →
  ∃ l r pre post, all_of l = Some pre ∧ all_of r = Some post ∧ ∀ content,
    (added ← all_of (qwen_message vocab ids f ToolRole content); Some (tokens ++ added)) =
      (added ← all_of (l ++ bpe_tokenize_wrapped_payload_text vocab f content (bs "</tool_response>") :: r);
       Some (tokens ++ added)).
Proof.
  intros Hnl Hus.
  exists (qwen_chat_open_role vocab ids f (bs "user") ++
          [push (tool_response_start_id ids); bpe_tokenize_text vocab f [10]]),
    ([bpe_tokenize_text vocab f [10]; push (tool_response_end_id ids)] ++ qwen_chat_close_role vocab ids f).
  exists (concat [[im_start_id ids]; us; nl; [tool_response_start_id ids]; nl]),
    (concat [nl; [tool_response_end_id ids]; [im_end_id ids]; nl]).
  do 2 (split; [apply all_of_some; by repeat constructor|]). done.
Qed.

(** The parts before and behind the payload exist and do not depend on it. *)
Lemma tool_parts {T} `{Dict T} (vocab : ds4_vocab T) ids f tokens role :
  spelled vocab → complete vocab → readable vocab f → wraps f = true → role_of role = ToolRole →
  0 <= tool_response_start_id ids → 0 <= tool_response_end_id ids →
  ∃ l r pre post, all_of l = Some pre ∧ all_of r = Some post ∧ ∀ content,
    ds4_chat_append_message vocab ids f tokens role content =
      (added ← all_of (l ++ bpe_tokenize_wrapped_payload_text vocab f content (tool_end f) :: r);
       Some (tokens ++ added)).
Proof.
  intros Hs Hc Hr Hw Hrole H0 H1.
  assert (∀ s, bytes_ok s → ∃ k, bpe_tokenize_text vocab f s = Some k) as He
    by (intros s; by apply encode_some).
  destruct (He [10]) as [nl Hnl]; [by repeat constructor|].
  destruct (He (bs "user")) as [us Hus]; [by repeat constructor|].
  destruct (He (bs "tool")) as [tl Htl]; [by repeat constructor|].
  assert (all_of (solar_gap vocab ids f tokens) = Some (if ends_at tokens (im_end_id ids) then nl else [])) as Hgap.
  { unfold solar_gap. destruct (ends_at _ _); [|done].
    change (all_of [bpe_tokenize_text vocab f [10]] = Some nl). cbn [all_of]. rewrite Hnl.
    cbn [mbind option_bind]. by rewrite app_nil_r. }
  unfold ds4_chat_append_message. rewrite Hrole.
  destruct f; try discriminate Hw; cbn [glm_message motif3_message dots3_message solar_message qwen_message].
  - exists (solar_gap vocab ids SOLAR_OPEN2 tokens ++ solar_chat_open_role vocab ids SOLAR_OPEN2 (bs "tool") ++
            [push (tool_response_start_id ids)]),
      (push (tool_response_end_id ids) :: solar_chat_close_role vocab ids SOLAR_OPEN2).
    eexists ((if ends_at tokens (im_end_id ids) then nl else []) ++ concat [_; _; _; _]),
      (concat [_; _; _]). split; [|split].
    + rewrite all_of_app, Hgap. cbn [mbind option_bind].
      rewrite (all_of_some [[im_start_id ids]; tl; [im_content_id ids]; [tool_response_start_id ids]]); [done|].
      by repeat constructor.
    + apply (all_of_some [[tool_response_end_id ids]; [im_end_id ids]; nl]). by repeat constructor.
    + intros content. unfold solar_message, missing. cbn [existsb]. rewrite !(proj2 (Z.ltb_ge _ _)) by done.
      cbn [orb]. rewrite <- (app_assoc (solar_gap vocab ids SOLAR_OPEN2 tokens)). done.
  - exists [push (start_of_turn_id ids); push (tool_id ids); push (tool_response_start_id ids)],
      [push (tool_response_end_id ids); push (end_of_turn_id ids)].
    eexists _, _. do 2 (split; [reflexivity|]). reflexivity.
  - exists [push (user_id ids); bpe_tokenize_text vocab DOTS3_NOTE [10]; push (tool_response_start_id ids);
            bpe_tokenize_text vocab DOTS3_NOTE [10]],
      [bpe_tokenize_text vocab DOTS3_NOTE [10]; push (tool_response_end_id ids); push (dots3_endofuser_id ids)].
    exists (concat [[user_id ids]; nl; [tool_response_start_id ids]; nl]),
      (concat [nl; [tool_response_end_id ids]; [dots3_endofuser_id ids]]).
    do 2 (split; [apply all_of_some; by repeat constructor|]). done.
  - by apply (qwen_tool_parts vocab ids QWEN4EXP tokens nl us).
  - exists [push (observation_id ids); push (tool_response_start_id ids)],
      [push (tool_response_end_id ids)].
    eexists _, _. do 2 (split; [reflexivity|]). reflexivity.
  - by apply (qwen_tool_parts vocab ids QWEN35 tokens nl us).
Qed.

Definition is_tool (role : list Z) : Prop := role_of role = ToolRole.

(** C15: in every family whose template wraps tool results, the message
    ds4_chat_append_message adds for a tool consists of parts that do not depend on the
    tool's output and of the output's own tokens, among which there is never the token
    spelled like the closing marker; they read back (in all families but Motif, whose
    literal tokens may swallow spaces) as the output with the first byte of each closing
    marker escaped, and as the output itself when it has none. *)
Theorem tool_output_stays_in_frame {T} `{Dict T} (vocab : ds4_vocab T) ids f tokens role :
  spelled vocab → complete vocab → readable vocab f → wraps f = true → is_tool role →
  0 <= tool_response_start_id ids → 0 <= tool_response_end_id ids →
  ∃ pre post, ∀ content, bytes_ok content →
    ∃ payload, ds4_chat_append_message vocab ids f tokens role content =
                 Some (tokens ++ pre ++ payload ++ post) ∧
      (∀ t, t ∈ payload → vocab_token_text vocab t ≠ Some (tool_end f)) ∧
      (f ≠ MOTIF3 → tokens_text vocab payload = Some (escaped f content) ∧
        ((∀ i, ¬ occurs content (tool_end f) i) → tokens_text vocab payload = Some content)).
Proof.
  intros Hs Hc Hr Hw Hrole H0 H1.
  assert (∃ l r pre post, all_of l = Some pre ∧ all_of r = Some post ∧ ∀ content,
    ds4_chat_append_message vocab ids f tokens role content =
      (added ← all_of (l ++ bpe_tokenize_wrapped_payload_text vocab f content (tool_end f) :: r);
       Some (tokens ++ added))) as (l & r & pre & post & Hl & Hpost & Hm).
  { by apply tool_parts. }
  exists pre, post. intros content Hb. destruct (wrapped_ok vocab f Hs Hc Hr content Hb) as (payload & Hp & Hin & Ht).
  exists payload. rewrite Hm, Hp, (all_of_frame l payload r pre post Hl Hpost). split; [done|].
  split; [intros t; by apply payload_has_no_end with content|].
  intros Hf. split; [by apply Ht|]. intros Hno. rewrite (Ht Hf). f_equal.
  apply escaped_id. exact Hno.
Qed.

Lemma small_readable_glm : readable (map_vocab small) GLM53.
Proof. exact small_readable. Qed.

Definition tool_ids : chat_ids :=
  ChatIds (-1) (-1) (-1) (-1) (-1) (-1) (-1) (-1) (-1) (-1) (-1) (-1) (-1) (-1) (-1) 9 (-1) (-1) (-1)
    (-1) (-1) 5 6 (-1) (-1) (-1) (-1) (-1) (-1) (-1) (-1) (-1) (-1) (-1) (-1) (-1) (-1) [].

Example tool_output_stays_in_frame_witness :
  ∃ pre post payload, ds4_chat_append_message (map_vocab small) tool_ids GLM53 [] (bs "tool")
               (bs "x</tool_response>y") = Some (pre ++ payload ++ post) ∧
    tokens_text (map_vocab small) payload = Some (bs "x&lt;/tool_response>y").
Proof.
  destruct (tool_output_stays_in_frame (map_vocab small) tool_ids GLM53 [] (bs "tool")
              (map_vocab_spelled small) small_complete small_readable_glm) as (pre & post & Hm);
    [reflexivity|reflexivity|discriminate|discriminate|].
  destruct (Hm (bs "x</tool_response>y")) as (payload & Hp & _ & Ht); [repeat constructor; done|].
  exists pre, post, payload. split; [exact Hp|].
  destruct Ht as [Ht _]; [discriminate|]. rewrite Ht. vm_compute. reflexivity.
Defined.

(** ** Rendered conversations *)

(** What a marker means: for each token that a conversation can name, the markers that
    name it; [-1] where the family or the vocabulary has no such token.  No marker occurs
    twice, so the order of the rows is of no consequence. *)
Definition only (b : bool) (t : Z) : Z := if b then t else -1.
Definition either (t t' : Z) : Z := if 0 <=? t then t else t'.

Definition is_glm (f : family) : bool := match f with GLM53 => true | _ => false end.
Definition is_qwen4 (f : family) : bool := match f with QWEN4EXP => true | _ => false end.

(** Vocabularies of dots3 are those with its ends of turns. *)
Definition dots3_turns (ids : chat_ids) : bool := 0 <=? dots3_endofuser_id ids.

Definition meanings (f : family) (ids : chat_ids) : list (Z * list (list Z)) :=
  [ (* the text as a whole *)
    (bos_id ids, [bs "<|beginoftext|>"; bs "<｜begin▁of▁sentence｜>"; bs "<|startoftext|>"]);
    (only (is_glm f) (bos_id ids), [bs "[gMASK]"]);
    (only (is_glm f) (sop_id ids), [bs "<sop>"]);
    (eos_id ids, [bs "<｜end▁of▁sentence｜>"]);
    (either (dots3_endoftext_id ids) (either (only (is_qwen f) (eot_id ids)) (eos_id ids)), [bs "<|endoftext|>"]);
    (* turns *)
    (only (is_glm f || (0 <=? dots3_endofsystem_id ids)) (system_id ids), [bs "<|system|>"]);
    (only (is_glm f || dots3_turns ids) (user_id ids), [bs "<|user|>"]);
    (only (is_glm f || dots3_turns ids) (assistant_id ids), [bs "<|assistant|>"]);
    (user_id ids, [bs "<｜User｜>"]);
    (assistant_id ids, [bs "<｜Assistant｜>"]);
    (only (is_glm f) (observation_id ids), [bs "<|observation|>"]);
    (dots3_endofsystem_id ids, [bs "<|endofsystem|>"]);
    (dots3_endofuser_id ids, [bs "<|endofuser|>"]);
    (only (dots3_turns ids) (eos_id ids), [bs "<|endofassistant|>"]);
    (only (is_qwen f) (im_start_id ids), [bs "<|im_start|>"]);
    (only (is_qwen f) (im_end_id ids), [bs "<|im_end|>"]);
    (im_start_id ids, [bs "<|im:start|>"]);
    (im_content_id ids, [bs "<|im:content|>"]);
    (im_end_id ids, [bs "<|im:end|>"]);
    (start_of_turn_id ids, [bs "<|startofturn|>"]);
    (end_of_turn_id ids, [bs "<|endofturn|>"]);
    (* pictures *)
    (only (is_glm f) 154830, [bs "<|begin_of_image|>"]);
    (only (is_glm f) 154854, [bs "<|image|>"]);
    (only (is_glm f) 154831, [bs "<|end_of_image|>"]);
    (only (is_qwen4 f) 248053, [bs "<|vision_start|>"]);
    (only (is_qwen4 f) 248054, [bs "<|vision_end|>"]);
    (only (is_qwen4 f) 248056, [bs "<|image_pad|>"]);
    (image_id ids, [bs "<｜deepseek_image｜>"]);
    (* thinking *)
    (think_start_id ids, [bs "<think>"; bs "<|think:start|>"]);
    (think_end_id ids, [bs "</think>"; bs "<|think:end|>"]);
    (plan_start_id ids, [bs "<|plan|>"]);
    (plan_end_id ids, [bs "<|endofplan|>"]);
    (latent_start_id ids, [bs "<latent>"]);
    (latent_pad_id ids, [bs "<latent_pad>"]);
    (latent_end_id ids, [bs "</latent>"]);
    (* tools *)
    (tool_id ids, [bs "<|tool|>"]);
    (reference_id ids, [bs "<|reference|>"]);
    (dsml_id ids, [bs "｜DSML｜"]);
    (tool_schema_start_id ids, [bs "<|tool:start|>"]);
    (tool_schema_end_id ids, [bs "<|tool:end|>"]);
    (tool_call_start_id ids, [bs "<tool_call>"; bs "<|tool_call:start|>"]);
    (tool_call_end_id ids, [bs "</tool_call>"; bs "<|tool_call:end|>"]);
    (tool_response_start_id ids, [bs "<tool_response>"; bs "<|tool_response:start|>"]);
    (tool_response_end_id ids, [bs "</tool_response>"; bs "<|tool_response:end|>"]);
    (arg_key_start_id ids, [bs "<arg_key>"; bs "<|tool_arg:start|>"]);
    (arg_key_end_id ids, [bs "</arg_key>"]);
    (arg_value_start_id ids, [bs "<arg_value>"; bs "</arg_key><arg_value>"; bs "<|tool_arg:value|>"]);
    (arg_value_end_id ids, [bs "</arg_value>"; bs "<|tool_arg:end|>"]) ].

(** The token that a marker names, or [-1]. *)
Definition marker_token (f : family) (ids : chat_ids) (m : list Z) : Z :=
  match List.find (λ r, existsb (λ x, bool_decide (m = x)) r.2) (meanings f ids) with Some r => only (0 <=? r.1) r.1 | None => -1 end.

(** The marker at the head of a text is the longest one that names a token. *)
Definition marker_here (f : family) (ids : chat_ids) (p m : list Z) (t : Z) : Prop :=
  marker_token f ids m = t ∧ 0 <= t ∧ starts_with p m = true ∧
  ∀ m', 0 <= marker_token f ids m' → starts_with p m' = true → blen m' <= blen m.

(** The token of a marker in a table searched from the top, where a longer marker stands
    before each one it begins with. *)
Definition row_token (l : list (list Z * Z)) (m : list Z) : Z :=
  foldr (λ r t, if bool_decide (m = r.1) then either r.2 t else t) (-1) l.

Fixpoint longer_first (l : list (list Z)) : bool :=
  match l with
  | [] => true
  | x :: l => forallb (λ y, negb (starts_with y x) || (blen y <=? blen x)) l && longer_first l
  end.

Lemma row_token_in l m : 0 <= row_token l m → m ∈ map fst l.
Proof.
  induction l as [|[x t] l IH]; cbn; [lia|]. rewrite elem_of_cons.
  case_bool_decide; [by left|]. intros Hm. right. by apply IH.
Qed.

Lemma prefixes_nest p a b : starts_with p a = true → starts_with p b = true → blen a <= blen b → starts_with b a = true.
Proof.
  rewrite !starts_with_spec. intros [x ->] [y Hy] Hl. apply app_eq_inv in Hy as [(k & -> & _)|(k & -> & _)]; [|by exists k].
  rewrite blen_app in Hl. pose proof (blen_nonneg k). destruct k as [|z k]; [|rewrite blen_cons in *; pose proof (blen_nonneg k); lia].
  rewrite app_nil_r. exists []. by rewrite app_nil_r.
Qed.

Lemma longer_first_in x l y p : longer_first (x :: l) = true → y ∈ l →
  starts_with p x = true → starts_with p y = true → blen y <= blen x.
Proof.
  cbn [longer_first]. intros [Hx _]%andb_true_iff Hy Hpx Hpy. rewrite forallb_forall in Hx.
  apply list_elem_of_In in Hy. apply Hx in Hy. apply orb_true_iff in Hy as [Hy|Hy]; [|lia].
  destruct (Z.le_gt_cases (blen y) (blen x)); [done|]. by rewrite (prefixes_nest p x y Hpx Hpy) in Hy by lia.
Qed.

Lemma first_special_row l p : longer_first (map fst l) = true →
  match first_special l p with
  | Some (t, n) => ∃ m, row_token l m = t ∧ 0 <= t ∧ starts_with p m = true ∧ n = blen m ∧
      ∀ m', 0 <= row_token l m' → starts_with p m' = true → blen m' <= blen m
  | None => ∀ m, 0 <= row_token l m → starts_with p m = false
  end.
Proof.
  induction l as [|[x t] l IH]; intros Hl; cbn [first_special map]; [intros m; cbn; lia|].
  pose proof Hl as Hl'. cbn [map fst longer_first] in Hl'. apply andb_true_iff in Hl' as [_ Hl'].
  specialize (IH Hl'). unfold row_token. cbn [foldr fst snd]. fold (row_token l).
  destruct ((0 <=? t) && starts_with p x) eqn:E.
  - apply andb_true_iff in E as [Ht Hx]. exists x. rewrite bool_decide_true by done. unfold either. rewrite Ht.
    do 4 (split; [done || lia|]). intros m'. case_bool_decide as Hm; [by subst|].
    intros Hm'%row_token_in Hp. by apply (longer_first_in x (map fst l) m' p).
  - assert (Hsame : ∀ m, starts_with p m = true → (if bool_decide (m = x) then either t (row_token l m) else row_token l m) = row_token l m).
    { intros m Hm. case_bool_decide; [|done]. subst m. rewrite Hm, andb_true_r in E. unfold either. by rewrite E. }
    destruct (first_special l p) as [[t' n]|].
    + destruct IH as (m & H1 & H2 & H3 & H4 & H5). exists m. rewrite Hsame by done. do 4 (split; [done|]).
      intros m' Hm' Hp. rewrite Hsame in Hm' by done. by apply H5.
    + intros m Hm. destruct (starts_with p m) eqn:Ep; [|done]. rewrite Hsame in Hm by done. by rewrite (IH m Hm) in Ep.
Qed.

(** The table of special_token_at means what [meanings] says. *)
Local Ltac row_means f :=
  cbv -[Z.leb Z.ltb orb either only is_glm is_qwen is_qwen4]; unfold either, only;
  (lia || (destruct f; cbn [is_glm is_qwen is_qwen4 orb]; repeat case_match; lia)).

Lemma rows_mean f ids : Forall (λ m, row_token (specials f ids) m = marker_token f ids m) (map fst (specials f ids)).
Proof. destruct ids. cbn [specials map fst]. repeat (constructor; [row_means f|]). constructor. Qed.

Lemma marker_is_row f ids m : 0 <= marker_token f ids m → m ∈ map fst (specials f ids).
Proof.
  assert (Forall (λ r, Forall (λ m, m ∈ map fst (specials f ids)) r.2) (meanings f ids)) as Hall.
  { eapply Forall_impl; [|intros r Hr; eapply Forall_impl; [exact Hr|intros m'; apply (bool_decide_unpack (m' ∈ map fst (specials f ids)))]].
    repeat (constructor; [cbn [snd]; repeat (constructor; [by vm_compute|]); constructor|]). constructor. }
  unfold marker_token. destruct (List.find _ _) as [r|] eqn:E; [|lia]. intros _.
  apply find_some in E as [Hr Hm]. apply existsb_exists in Hm as (x & Hx & Hm). apply bool_decide_eq_true in Hm as <-.
  rewrite List.Forall_forall in Hall. apply Hall in Hr. rewrite List.Forall_forall in Hr. by apply Hr.
Qed.

Lemma table_means f ids m : 0 <= marker_token f ids m ↔ 0 <= row_token (specials f ids) m.
Proof.
  pose proof (rows_mean f ids) as Hr. rewrite Forall_forall in Hr.
  split; intros Hm; [rewrite Hr|rewrite <- Hr]; try done; [by apply marker_is_row|by apply row_token_in].
Qed.

Lemma special_is_marker f ids p : match special_token_at f ids p with
  | Some (t, n) => ∃ m, marker_here f ids p m t ∧ n = blen m
  | None => ∀ m t, ¬ marker_here f ids p m t
  end.
Proof.
  unfold special_token_at. pose proof (first_special_row (specials f ids) p ltac:(by vm_compute)) as H.
  pose proof (rows_mean f ids) as Hr. rewrite Forall_forall in Hr.
  destruct (first_special _ p) as [[t n]|].
  - destruct H as (m & <- & Ht & Hp & -> & Hl). exists m. split; [|done].
    split; [symmetry; by apply Hr, row_token_in|]. do 2 (split; [done|]). intros m' Hm'%table_means. by apply Hl.
  - intros m t (<- & Hm%table_means & Hp & _). by rewrite (H m Hm) in Hp.
Qed.

Section rendered.
Context {T : Type} `{Dict T} (vocab : ds4_vocab T) (ids : chat_ids) (f : family).

(** No marker starts in [s], with [rest] behind it. *)
Definition marker_free (s rest : list Z) : Prop :=
  ∀ i m t, 0 <= i < blen s → ¬ marker_here f ids (zdrop i (s ++ rest)) m t.

(** A text cut at its markers, from the left. *)
Inductive segmented : list Z → list item → Prop :=
| seg_text s : marker_free s [] → segmented s (flush s)
| seg_marker s m rest t l :
    marker_free s (m ++ rest) → marker_here f ids (m ++ rest) m t →
    segmented rest l → segmented (s ++ m ++ rest) (flush s ++ Added t m :: l).

Lemma marker_not_empty t p : ¬ marker_here f ids p [] t.
Proof using.
  intros (<- & Hm%marker_is_row & _).
  assert (Forall (λ m : list Z, m ≠ []) (map fst (specials f ids))) as Hne by (repeat constructor; discriminate).
  rewrite Forall_forall in Hne. by apply Hne in Hm.
Qed.

Lemma marker_free_snoc s c p :
  marker_free s (c :: p) → (∀ m t, ¬ marker_here f ids (c :: p) m t) → marker_free (s ++ [c]) p.
Proof using.
  intros Hs Hc i m t Hi. rewrite <- app_assoc. cbn [app].
  rewrite blen_app in Hi. change (blen [c]) with 1 in Hi.
  destruct (Z.eq_dec i (blen s)) as [->|]; [|apply Hs; lia]. rewrite zdrop_app. apply Hc.
Qed.

Lemma rendered_segments fuel s p :
  (length p <= fuel)%nat → marker_free s p →
  ∃ l, rendered_loop ids f fuel s p = Some l ∧ segmented (s ++ p) l.
Proof using.
  revert s p. induction fuel as [|n IH]; intros s [|c p] Hf Hm; cbn [rendered_loop].
  1, 3: eexists; split; [done|]; rewrite app_nil_r; by apply seg_text.
  { simpl in Hf. lia. }
  pose proof (special_is_marker f ids (c :: p)) as Hsp.
  destruct (special_token_at f ids (c :: p)) as [[t len]|].
  - destruct Hsp as (m & Hh & ->). pose proof Hh as (_ & _ & [rest Hp]%starts_with_spec & _).
    rewrite Hp, zdrop_app, ztake_app. rewrite Hp in Hm, Hh.
    destruct (IH [] rest) as (l & -> & Hl).
    { apply (f_equal length) in Hp. rewrite length_app in Hp. destruct m; [by apply marker_not_empty in Hh|]. simpl in *. lia. }
    { intros i m' t' Hi. unfold blen in Hi. simpl in Hi. lia. }
    cbn [mbind option_bind]. eexists. split; [done|]. by apply seg_marker.
  - destruct (IH (s ++ [c]) p) as (l & -> & Hl); [simpl in Hf; lia|by apply marker_free_snoc|].
    exists l. split; [done|]. by rewrite <- app_assoc in Hl.
Qed.

Lemma segmented_joined s l : segmented s l → joined l = s.
Proof using.
  induction 1 as [s Hs|s m rest t l Hs Hm Hl IH]; [by apply flush_joined|].
  rewrite joined_app, flush_joined. unfold joined in *. cbn [map concat item_text]. by rewrite IH.
Qed.
End rendered.

(** C16: a rendered conversation is cut at its markers from the left, and nowhere else:
    each marker becomes the one token that it names in the family and the vocabulary, the
    longest marker where several begin, the text between markers, in which none that names
    a token starts, is tokenized as text, and together the parts are the conversation.
    Over a vocabulary whose index and spellings agree, with a token for every byte and
    every result of a merge and literal tokens that are spelled as they are read,
    tokenization of any bytes always ends; and in every family but Motif, when each marker that occurs is spelled
    like its token, the tokens read back as the conversation. *)
Theorem rendered_chat_cut_at_markers {T} `{Dict T} (vocab : ds4_vocab T) ids f text :
  spelled vocab → complete vocab → readable vocab f → bytes_ok text →
  ∃ items, rendered_loop ids f (length text) [] text = Some items ∧ segmented ids f text items ∧
    concat (map item_text items) = text ∧
    ∃ out, tokenize_rendered_chat_vocab vocab ids f text = Some out ∧ emit_spans vocab f items = Some out ∧
      (Forall (λ i, match i with Piece _ => True | Added t m => vocab_token_text vocab t = Some m end) items →
       f ≠ MOTIF3 → tokens_text vocab out = Some text).
Proof.
  intros Hs Hc Hr Hb.
  destruct (rendered_segments ids f (length text) [] text) as (l & Hl & Hseg); [done| |].
  { intros i m t Hi. unfold blen in Hi. simpl in Hi. lia. }
  pose proof (segmented_joined ids f _ _ Hseg) as Hj. cbn [app] in *.
  unfold tokenize_rendered_chat_vocab. rewrite Hl. cbn [mbind option_bind].
  exists l. split; [done|]. split; [done|]. split; [exact Hj|].
  assert (Forall (λ i, bytes_ok (item_text i)) l) as Hbytes by (apply joined_bytes; by rewrite Hj).
  destruct (emit_spans_total vocab f Hs Hc Hr l Hbytes) as (out & Ho). exists out. do 2 (split; [done|]).
  intros Hmark Hf. destruct (emit_spans_ok vocab f Hs Hc Hr l Hbytes Hmark) as (out' & Ho' & _ & Ht).
  rewrite Hj in Ht. rewrite <- (Ht Hf). congruence.
Qed.

Definition think_ids : chat_ids :=
  ChatIds (-1) (-1) (-1) (-1) (-1) (-1) (-1) (-1) (-1) (-1) (-1) (-1) (-1) (-1) (-1) (-1) (-1) 257 (-1)
    (-1) (-1) (-1) (-1) (-1) (-1) (-1) (-1) (-1) (-1) (-1) (-1) (-1) (-1) (-1) (-1) (-1) (-1) [].

Example rendered_chat_cut_at_markers_witness :
  ∃ out, tokenize_rendered_chat_vocab (map_vocab small) think_ids GLM53 (bs "hi<think>he") = Some out ∧
    out = [104; 105; 257; 256] ∧ tokens_text (map_vocab small) out = Some (bs "hi<think>he").
Proof.
  destruct (rendered_chat_cut_at_markers (map_vocab small) think_ids GLM53 (bs "hi<think>he")
              (map_vocab_spelled small) small_complete small_readable_glm)
    as (items & H1 & _ & _ & out & H2 & H3 & H4); [repeat constructor; done|].
  exists out. split; [exact H2|]. vm_compute in H1. injection H1 as <-. split.
  - vm_compute in H3. injection H3 as <-. reflexivity.
  - apply H4; [|discriminate]. repeat constructor.
Defined.

(** ** Markers a host cannot name

    ds4_host_vocab has no field for the end of a tool argument's value; the engine
    clears the vocabulary before it copies, so the marker exists with token 0. *)
Lemma arg_value_end_is_lost i : arg_value_end_id (copied_ids i) = 0.
Proof. done. Qed.

Example arg_value_end_becomes_token_0 :
  special_token_at GLM53 (copied_ids no_ids) (bs "</arg_value>") = Some (0, 12).
Proof. vm_compute. reflexivity. Qed.
