(* ===== verification/Images.v ===== *)
(** * Images of a request (ds4_server.c)

    Base64 payloads, the pictures a request carries with their limits, and data URIs:
    what is accepted, and that the limits hold. *)

From S2P Require Import Prelude Bytes Text.

(** ** Base64 *)

Definition base64_value (c : Z) : Z :=
  if (ch "A" <=? c) && (c <=? ch "Z") then c - ch "A"
  else if (ch "a" <=? c) && (c <=? ch "z") then 26 + c - ch "a"
  else if (ch "0" <=? c) && (c <=? ch "9") then 52 + c - ch "0"
  else if c =? ch "+" then 62
  else if c =? ch "/" then 63
  else -1.

Definition CHAT_IMAGE_MAX_COUNT : Z := 4.
Definition CHAT_IMAGE_MAX_BYTES : Z := 10 * 1024 * 1024.
Definition CHAT_IMAGE_TOTAL_MAX : Z := 20 * 1024 * 1024.

(** The messages the functions below leave in [err]. *)
Inductive image_error :=
  | InvalidLength | ImageTooLarge | RequestTooLarge | InvalidData | InvalidPadding
  | UnsupportedType (mime : list Z) | TooManyImages | MagicMismatch | NotDataUri
  | WrongModel | NotUserMessage | InvalidReference | Unreferenced.

(** One quantum: the values of its four characters, -2 for a padding character. *)
Definition pad_value (c : Z) : Z := if c =? ch "=" then -2 else base64_value c.

Definition quad_bad (last : bool) (a b c d : Z) : bool :=
  (a <? 0) || (b <? 0) || (c =? -1) || (d =? -1) ||
  (negb last && ((c <? 0) || (d <? 0))) ||
  ((c =? -2) && negb (d =? -2)) ||
  ((c =? -2) && negb (Z.land b 15 =? 0)) ||
  ((d =? -2) && (0 <=? c) && negb (Z.land c 3 =? 0)).

(** The 24 bits of a quantum. *)
Definition quad_word (a b c d : Z) : Z :=
  Z.lor (Z.lor (Z.lor (u32 (Z.shiftl a 18)) (u32 (Z.shiftl b 12)))
               (u32 (Z.shiftl (if c <? 0 then 0 else c) 6))) (if d <? 0 then 0 else d).

(** The loop of base64_decode_image: [w] bytes of [decoded] are written; [None] is
    invalid data. *)
Fixpoint decode_quads (src : list Z) (decoded w : Z) : option (list Z) :=
  match src with
  | c0 :: c1 :: c2 :: c3 :: rest =>
      let last := match rest with [] => true | _ => false end in
      let '(a, b, c, d) := (base64_value c0, base64_value c1, pad_value c2, pad_value c3) in
      if quad_bad last a b c d then None
      else
        let v := quad_word a b c d in
        let out := ztake (decoded - w) [u8 (Z.shiftr v 16); u8 (Z.shiftr v 8); u8 v] in
        more ← decode_quads rest decoded (w + blen out);
        Some (out ++ more)
  | _ => Some []
  end.

(** The padding characters at the end of a text of whole quanta. *)
Definition padding (src : list Z) : Z :=
  let n := blen src in
  (if znth 0 src (n - 1) =? ch "=" then 1 else 0) +
  (if (1 <? n) && (znth 0 src (n - 2) =? ch "=") then 1 else 0).

(** base64_decode_image *)
Definition base64_decode_image (src : list Z) (request_remaining : Z) : list Z + image_error :=
  let n := blen src in
  if (n =? 0) || negb (Z.land n 3 =? 0) then inr InvalidLength
  else
    let decoded := u64 (n / 4 * 3 - padding src) in
    if (decoded =? 0) || (CHAT_IMAGE_MAX_BYTES <? decoded) then inr ImageTooLarge
    else if request_remaining <? decoded then inr RequestTooLarge
    else match decode_quads src decoded 0 with
    | None => inr InvalidData
    | Some dst => if blen dst =? decoded then inl dst else inr InvalidPadding
    end.

(** ** The pictures of a request *)

Inductive chat_image_mime := CHAT_IMAGE_PNG | CHAT_IMAGE_JPEG.

(** ds4_qwen_image_info *)
Record image_info := Info {
  source_width : Z; source_height : Z; resized_width : Z; resized_height : Z;
  grid_h : Z; grid_w : Z; token_count : Z }.

Record chat_image := Image {
  img_mime : chat_image_mime;
  img_data : list Z;
  img_info : image_info;
  token_offset : Z;
  pixel_hash : Z;
  cache_marker_start : Z;
  cache_marker_end : Z }.

(** A picture as it is stored: everything else is cleared. *)
Definition new_image (mime : chat_image_mime) (data : list Z) : chat_image :=
  Image mime data (Info 0 0 0 0 0 0 0) 0 0 0 0.

Record chat_images := Images { img_v : list chat_image; total_bytes : Z }.

Definition no_images : chat_images := Images [] 0.

Definition png_magic : list Z := [0x89; ch "P"; ch "N"; ch "G"; 13; 10; 0x1a; 10].

Definition chat_image_magic_matches (mime : chat_image_mime) (data : list Z) : bool :=
  match mime with
  | CHAT_IMAGE_PNG => starts_with data png_magic
  | CHAT_IMAGE_JPEG => starts_with data [0xff; 0xd8; 0xff]
  end.

Definition mime_of (mime_type : list Z) : option chat_image_mime :=
  if bool_decide (mime_type = bs "image/png") then Some CHAT_IMAGE_PNG
  else if bool_decide (mime_type = bs "image/jpeg") then Some CHAT_IMAGE_JPEG
  else None.

(** chat_images_add_base64: the pictures afterwards and the index of the new one *)
Definition chat_images_add_base64 (images : chat_images) (mime_type payload : list Z)
    : (chat_images * Z) + image_error :=
  match mime_of mime_type with
  | None => inr (UnsupportedType mime_type)
  | Some mime =>
      if CHAT_IMAGE_MAX_COUNT <=? blen (img_v images) then inr TooManyImages
      else if CHAT_IMAGE_TOTAL_MAX <? total_bytes images then inr RequestTooLarge
      else match base64_decode_image payload (CHAT_IMAGE_TOTAL_MAX - total_bytes images) with
      | inr e => inr e
      | inl data =>
          if negb (chat_image_magic_matches mime data) then inr MagicMismatch
          else inl (Images (img_v images ++ [new_image mime data]) (u64 (total_bytes images + blen data)),
                    blen (img_v images))
      end
  end.

(** chat_images_add_data_uri *)
Definition chat_images_add_data_uri (images : chat_images) (uri : list Z)
    : (chat_images * Z) + image_error :=
  if negb (starts_with uri (bs "data:")) then inr NotDataUri
  else
    let p := zdrop 5 uri in
    match strstr p (bs ";base64,") with
    | None | Some 0 => inr NotDataUri
    | Some sep => chat_images_add_base64 images (ztake sep p) (zdrop (sep + 8) p)
    end.

(** ** Reference: the canonical encoding *)

Definition base64_char (v : Z) : Z :=
  if v <? 26 then ch "A" + v
  else if v <? 52 then ch "a" + (v - 26)
  else if v <? 62 then ch "0" + (v - 52)
  else if v =? 62 then ch "+" else ch "/".

Fixpoint base64_encode (d : list Z) : list Z :=
  match d with
  | [] => []
  | [x] => [base64_char (x / 4); base64_char (x mod 4 * 16); ch "="; ch "="]
  | [x; y] => [base64_char (x / 4); base64_char (x mod 4 * 16 + y / 16);
               base64_char (y mod 16 * 4); ch "="]
  | x :: y :: z :: d =>
      [base64_char (x / 4); base64_char (x mod 4 * 16 + y / 16);
       base64_char (y mod 16 * 4 + z / 64); base64_char (z mod 64)] ++ base64_encode d
  end.

(** ** Base64 is decoded exactly *)

Lemma value_of_char v : 0 <= v < 64 → base64_value (base64_char v) = v ∧ base64_char v ≠ ch "=" ∧
  base64_char v ≠ 0.
Proof.
  intros Hv. set (f v := (base64_value (base64_char v) =? v) && negb (base64_char v =? ch "=") &&
                         negb (base64_char v =? 0)).
  assert (f v = true) as Hf by (apply (forallb_range f 64); [vm_compute; reflexivity|done]).
  unfold f in Hf. rewrite !andb_true_iff, !negb_true_iff in Hf. lia.
Qed.

Lemma char_of_value c : 0 <= base64_value c → 0 <= base64_value c < 64 ∧ base64_char (base64_value c) = c.
Proof.
  intros Hc. assert (0 <= c < 256) as Hr.
  { unfold base64_value in Hc. change (ch "A") with 65 in Hc. change (ch "Z") with 90 in Hc.
    change (ch "a") with 97 in Hc. change (ch "z") with 122 in Hc. change (ch "0") with 48 in Hc.
    change (ch "9") with 57 in Hc. change (ch "+") with 43 in Hc. change (ch "/") with 47 in Hc.
    repeat case_match; lia. }
  set (f c := (base64_value c <? 0) || ((base64_value c <? 64) && (base64_char (base64_value c) =? c))).
  assert (f c = true) as Hf by (apply (forallb_range f 256); [vm_compute; reflexivity|done]).
  unfold f in Hf. lia.
Qed.

Lemma pad_of_char v : 0 <= v < 64 → pad_value (base64_char v) = v.
Proof.
  intros Hv. destruct (value_of_char v Hv) as (E & Hne & _). unfold pad_value.
  by rewrite (proj2 (Z.eqb_neq _ _)).
Qed.

(** The value of the third or fourth character, when it is one. *)
Lemma pad_value_cases c : pad_value c <> -1 →
  (c = ch "=" ∧ pad_value c = -2) ∨ (0 <= pad_value c < 64 ∧ base64_char (pad_value c) = c ∧ c ≠ ch "=").
Proof.
  unfold pad_value. destruct (Z.eqb_spec c (ch "=")) as [->|Hc]; [by left|]. intros Hv. right.
  assert (0 <= base64_value c) as Hp by (unfold base64_value in *; repeat case_match; lia).
  destruct (char_of_value c Hp). done.
Qed.

Lemma quad_word_sum a b c d :
  0 <= a < 64 → 0 <= b < 64 → c < 64 → d < 64 →
  quad_word a b c d = a * 2 ^ 18 + b * 2 ^ 12 + (if c <? 0 then 0 else c) * 2 ^ 6 + (if d <? 0 then 0 else d).
Proof.
  intros Ha Hb Hc Hd. unfold quad_word. set (c' := if c <? 0 then 0 else c). set (d' := if d <? 0 then 0 else d).
  assert (0 <= c' < 64) by (unfold c'; case_match; lia). assert (0 <= d' < 64) by (unfold d'; case_match; lia).
  rewrite !Z.shiftl_mul_pow2 by lia. rewrite !wrap_id by (unfold fits; lia).
  rewrite (Z.lor_comm (a * _)), (Le.lor_shiftl_add _ _ 18) by lia.
  rewrite (Z.lor_comm _ (c' * _)).
  replace (b * 2 ^ 12 + a * 2 ^ 18) with ((b + a * 2 ^ 6) * 2 ^ 12) by lia.
  rewrite (Le.lor_shiftl_add _ _ 12) by lia. rewrite Z.lor_comm.
  replace (c' * 2 ^ 6 + (b + a * 2 ^ 6) * 2 ^ 12) with ((c' + (b + a * 2 ^ 6) * 2 ^ 6) * 2 ^ 6) by lia.
  rewrite (Le.lor_shiftl_add _ _ 6) by lia. lia.
Qed.

Definition quad_bytes (a b c d : Z) : list Z :=
  [a * 4 + b / 16; b mod 16 * 16 + c / 4; c mod 4 * 64 + d].

Lemma quad_word_bytes a b c d :
  0 <= a < 64 → 0 <= b < 64 → c < 64 → d < 64 →
  let v := quad_word a b c d in
  [u8 (Z.shiftr v 16); u8 (Z.shiftr v 8); u8 v] =
  quad_bytes a b (if c <? 0 then 0 else c) (if d <? 0 then 0 else d).
Proof.
  intros Ha Hb Hc Hd v. unfold v. rewrite quad_word_sum by done.
  set (c' := if c <? 0 then 0 else c). set (d' := if d <? 0 then 0 else d).
  assert (0 <= c' < 64) by (unfold c'; case_match; lia). assert (0 <= d' < 64) by (unfold d'; case_match; lia).
  rewrite !Z.shiftr_div_pow2 by lia. unfold wrap, quad_bytes.
  change (2 ^ 16) with 65536. change (2 ^ 18) with 262144. change (2 ^ 12) with 4096. change (2 ^ 6) with 64.
  change (2 ^ 8) with 256. repeat f_equal; Z.div_mod_to_equations; lia.
Qed.

Lemma padding_skip c0 c1 c2 c3 rest :
  (2 <= length rest)%nat → padding (c0 :: c1 :: c2 :: c3 :: rest) = padding rest.
Proof.
  intros Hl. unfold padding. set (l := rest). change (c0 :: c1 :: c2 :: c3 :: l) with ([c0; c1; c2; c3] ++ l).
  rewrite blen_app. change (blen [c0; c1; c2; c3]) with 4.
  assert (2 <= blen l) by (unfold blen, l; lia).
  assert (∀ i, 0 <= i → znth 0 ([c0; c1; c2; c3] ++ l) (4 + i) = znth 0 l i) as Hz.
  { intros i Hi. unfold znth. rewrite Z2Nat.inj_add by lia. done. }
  replace (4 + blen l - 1) with (4 + (blen l - 1)) by lia.
  replace (4 + blen l - 2) with (4 + (blen l - 2)) by lia. rewrite !Hz by lia.
  by rewrite !(proj2 (Z.ltb_lt 1 _)) by lia.
Qed.

Lemma padding_last c0 c1 c2 c3 :
  padding [c0; c1; c2; c3] = (if c3 =? ch "=" then 1 else 0) + (if c2 =? ch "=" then 1 else 0).
Proof. done. Qed.

Lemma padding_range l : 0 <= padding l <= 2.
Proof. unfold padding. repeat case_match; lia. Qed.

(** What a quantum must be. *)
Lemma quad_ok last c0 c1 c2 c3 :
  quad_bad last (base64_value c0) (base64_value c1) (pad_value c2) (pad_value c3) = false →
  (0 <= base64_value c0 < 64 ∧ base64_char (base64_value c0) = c0) ∧
  (0 <= base64_value c1 < 64 ∧ base64_char (base64_value c1) = c1) ∧
  ((pad_value c2 = -2 ∧ c2 = ch "=" ∧ pad_value c3 = -2 ∧ c3 = ch "=" ∧ last = true ∧
      base64_value c1 mod 16 = 0) ∨
   (0 <= pad_value c2 < 64 ∧ base64_char (pad_value c2) = c2 ∧ c2 ≠ ch "=" ∧
    ((pad_value c3 = -2 ∧ c3 = ch "=" ∧ last = true ∧ pad_value c2 mod 4 = 0) ∨
     (0 <= pad_value c3 < 64 ∧ base64_char (pad_value c3) = c3 ∧ c3 ≠ ch "=")))).
Proof.
  unfold quad_bad. rewrite !orb_false_iff, !andb_false_iff, !negb_false_iff, !orb_false_iff.
  intros (((((((Ha & Hb) & Hc) & Hd) & Hlast) & Hcd) & Hb4) & Hc2).
  do 2 (split; [apply char_of_value; lia|]).
  change 15 with (Z.ones 4) in Hb4. change 3 with (Z.ones 2) in Hc2.
  rewrite !Z.land_ones in Hb4, Hc2 by lia. change (2 ^ 4) with 16 in Hb4. change (2 ^ 2) with 4 in Hc2.
  destruct (pad_value_cases c2) as [[Ec Ec']|(Ec & Ec' & Ec'')]; [lia| |];
    (destruct (pad_value_cases c3) as [[Ed Ed']|(Ed & Ed' & Ed'')]; [lia| |]).
  - left. destruct last; [|lia]. repeat split; try done. lia.
  - lia.
  - right. do 3 (split; [done|]). left. destruct last; [|lia]. repeat split; try done. lia.
  - right. do 3 (split; [done|]). by right.
Qed.

Section quad.
Context (a b c d : Z).
Hypothesis Ha : 0 <= a < 64.
Hypothesis Hb : 0 <= b < 64.
Hypothesis Hc : 0 <= c < 64.
Hypothesis Hd : 0 <= d < 64.

Lemma encode_quad l :
  base64_encode (quad_bytes a b c d ++ l) =
  [base64_char a; base64_char b; base64_char c; base64_char d] ++ base64_encode l.
Proof using Ha Hb Hc Hd.
  cbn [quad_bytes app base64_encode]. repeat f_equal; Z.div_mod_to_equations; lia.
Qed.

Lemma encode_quad_1 : b mod 16 = 0 →
  base64_encode [a * 4 + b / 16] = [base64_char a; base64_char b; ch "="; ch "="].
Proof using Ha Hb. clear Hc Hd. intros Hm. cbn [base64_encode]. repeat f_equal; Z.div_mod_to_equations; lia. Qed.

Lemma encode_quad_2 : c mod 4 = 0 →
  base64_encode [a * 4 + b / 16; b mod 16 * 16 + c / 4] =
  [base64_char a; base64_char b; base64_char c; ch "="].
Proof using Ha Hb Hc. clear Hd. intros Hm. cbn [base64_encode]. repeat f_equal; Z.div_mod_to_equations; lia. Qed.

Lemma quad_bytes_ok : bytes_ok (quad_bytes a b c d).
Proof using Ha Hb Hc Hd.
  unfold quad_bytes. repeat constructor; change (2 ^ 8) with 256; Z.div_mod_to_equations; lia.
Qed.
End quad.

Lemma positive_id v : 0 <= v → (if v <? 0 then 0 else v) = v.
Proof. intros Hv. by rewrite (proj2 (Z.ltb_ge _ _)). Qed.

(** The last quantum. *)
Lemma last_quad_sound c0 c1 c2 c3 room out :
  room = 3 - padding [c0; c1; c2; c3] →
  quad_bad true (base64_value c0) (base64_value c1) (pad_value c2) (pad_value c3) = false →
  out = ztake room (quad_bytes (base64_value c0) (base64_value c1)
    (if pad_value c2 <? 0 then 0 else pad_value c2) (if pad_value c3 <? 0 then 0 else pad_value c3)) →
  [c0; c1; c2; c3] = base64_encode out ∧ blen out = room ∧ bytes_ok out ∧ out ≠ [].
Proof.
  intros Hroom Hq. destruct (quad_ok _ _ _ _ _ Hq) as ((Ha & Ca) & (Hb & Cb) & Hcd).
  rewrite padding_last in Hroom.
  destruct Hcd as [(Ec & E2 & Ed & E3 & _ & Hm)|(Hc & Cc & N2 & [(Ed & E3 & _ & Hm)|(Hd & Cd & N3)])].
  - rewrite (proj2 (Z.eqb_eq _ _) E2), (proj2 (Z.eqb_eq _ _) E3) in Hroom. change (room = 1) in Hroom. subst room.
    rewrite Ec, Ed. intros ->. cbn [Z.ltb Z.compare].
    pose proof (quad_bytes_ok _ _ 0 0 Ha Hb ltac:(lia) ltac:(lia)) as Hok.
    change (ztake 1 (quad_bytes ?a ?b ?c ?d)) with [a * 4 + b / 16].
    rewrite encode_quad_1 by done. split; [congruence|]. split; [done|]. split; [|done].
    exact (Forall_take _ 1 _ Hok).
  - rewrite (proj2 (Z.eqb_neq _ _) N2), (proj2 (Z.eqb_eq _ _) E3) in Hroom. change (room = 2) in Hroom. subst room.
    rewrite Ed, positive_id by lia. intros ->. cbn [Z.ltb Z.compare].
    pose proof (quad_bytes_ok _ _ _ 0 Ha Hb Hc ltac:(lia)) as Hok.
    change (ztake 2 (quad_bytes ?a ?b ?c ?d)) with [a * 4 + b / 16; b mod 16 * 16 + c / 4].
    rewrite encode_quad_2 by done. split; [congruence|]. split; [done|]. split; [|done].
    exact (Forall_take _ 2 _ Hok).
  - rewrite (proj2 (Z.eqb_neq _ _) N2), (proj2 (Z.eqb_neq _ _) N3) in Hroom. change (room = 3) in Hroom. subst room.
    rewrite !positive_id by lia. intros ->. change (ztake 3 (quad_bytes ?a ?b ?c ?d)) with (quad_bytes a b c d).
    pose proof (quad_bytes_ok _ _ _ _ Ha Hb Hc Hd) as Hok.
    rewrite <- (app_nil_r (quad_bytes _ _ _ _)), encode_quad by done.
    split; [cbn [app base64_encode]; congruence|]. rewrite app_nil_r. by split.
Qed.

Lemma decode_quads_sound k src decoded w out :
  length src = (4 * S k)%nat → decoded - w = 3 * Z.of_nat (S k) - padding src →
  decode_quads src decoded w = Some out →
  src = base64_encode out ∧ blen out = decoded - w ∧ bytes_ok out ∧ out ≠ [].
Proof.
  revert src w out. induction k as [|k IH]; intros src w out Hl Hd;
    destruct src as [|c0 [|c1 [|c2 [|c3 rest]]]]; try (simpl in Hl; lia); cbn [decode_quads].
  - destruct rest; [|simpl in Hl; lia].
    destruct (quad_bad _ _ _ _ _) eqn:Hq; [done|]. cbv zeta. cbn [decode_quads mbind option_bind].
    destruct (quad_ok _ _ _ _ _ Hq) as ((Ha & _) & (Hb & _) & Hcd).
    rewrite quad_word_bytes by lia. rewrite app_nil_r. intros [= <-].
    apply (last_quad_sound c0 c1 c2 c3); [lia|done|done].
  - assert (length rest = (4 * S k)%nat) as Hr by (simpl in Hl; lia).
    destruct rest as [|r0 rest']; [simpl in Hr; lia|]. set (rest := r0 :: rest') in *.
    destruct (quad_bad _ _ _ _ _) eqn:Hq; [done|]. cbv zeta.
    destruct (quad_ok _ _ _ _ _ Hq) as ((Ha & Ca) & (Hb & Cb) & Hcd).
    destruct Hcd as [(_ & _ & _ & _ & ? & _)|(Hc & Cc & _ & [(_ & _ & ? & _)|(Hdd & Cd & _)])]; [done|done|].
    rewrite quad_word_bytes, !positive_id by lia.
    rewrite padding_skip in Hd by lia. pose proof (padding_range rest).
    rewrite ztake_ge by (unfold quad_bytes, blen; simpl length; lia).
    change (blen (quad_bytes _ _ _ _)) with 3.
    destruct (decode_quads rest decoded (w + 3)) as [more|] eqn:Hm; [|done]. cbn [mbind option_bind]. intros <-%(inj Some).
    apply IH in Hm as (-> & Hlen & Hok & Hne); [|done|lia].
    rewrite encode_quad by done. split; [cbn [app]; congruence|].
    split; [rewrite blen_app; change (blen (quad_bytes _ _ _ _)) with 3; lia|].
    split; [apply Forall_app; split; [by apply quad_bytes_ok|done]|done].
Qed.

(** *** Every canonical encoding is decoded *)

(** Data in threes: one or two last bytes, three, or three and more. *)
Lemma triple_ind (P : list Z → Prop) :
  (∀ x, P [x]) → (∀ x y, P [x; y]) → (∀ x y z, P [x; y; z]) →
  (∀ x y z d, d ≠ [] → P d → P (x :: y :: z :: d)) → ∀ d, d ≠ [] → P d.
Proof.
  intros H1 H2 H3 Hs d. induction d as [d IH] using (well_founded_induction (well_founded_ltof _ length)).
  destruct d as [|x [|y [|z d]]]; [done|auto..|]. intros _. destruct d as [|t d]; [apply H3|].
  apply Hs; [done|]. apply IH; [unfold ltof; simpl; lia|done].
Qed.

(** One quantum of the encoding is decoded. *)
Lemma decode_quad_step c0 c1 c2 c3 rest decoded w (c d : Z) :
  0 <= base64_value c0 < 64 → 0 <= base64_value c1 < 64 →
  pad_value c2 = c → pad_value c3 = d → c < 64 → d < 64 →
  quad_bad (match rest with [] => true | _ => false end) (base64_value c0) (base64_value c1) c d = false →
  decode_quads (c0 :: c1 :: c2 :: c3 :: rest) decoded w =
  (let out := ztake (decoded - w) (quad_bytes (base64_value c0) (base64_value c1)
                (if c <? 0 then 0 else c) (if d <? 0 then 0 else d)) in
   more ← decode_quads rest decoded (w + blen out); Some (out ++ more)).
Proof.
  intros Ha Hb <- <- Hc Hd Hq. cbn [decode_quads]. rewrite Hq. cbv zeta.
  by rewrite quad_word_bytes by done.
Qed.

Lemma quad_good_full last a b c d :
  0 <= a → 0 <= b → 0 <= c → 0 <= d → quad_bad last a b c d = false.
Proof. intros. unfold quad_bad. destruct last; cbn [negb andb]; lia. Qed.

Lemma byte_split x : byte_ok x → 0 <= x / 4 < 64 ∧ 0 <= x mod 4 * 16 < 64 ∧ 0 <= x mod 64 < 64.
Proof. unfold fits. change (2 ^ 8) with 256. intros Hx. Z.div_mod_to_equations; lia. Qed.

Lemma byte_join x y : byte_ok x → byte_ok y →
  0 <= x mod 4 * 16 + y / 16 < 64 ∧ 0 <= y mod 16 * 4 < 64 ∧ 0 <= x mod 16 * 4 + y / 64 < 64.
Proof. unfold fits. change (2 ^ 8) with 256. intros Hx Hy. Z.div_mod_to_equations; lia. Qed.

(** What an encoding looks like, and what becomes of it. *)
Definition decodes (d : list Z) : Prop :=
  ∃ k, length (base64_encode d) = (4 * S k)%nat ∧ blen d = 3 * Z.of_nat (S k) - padding (base64_encode d) ∧
    Forall (λ c, c ≠ 0) (base64_encode d) ∧
    ∀ w, decode_quads (base64_encode d) (w + blen d) w = Some d.

Lemma char_neq v : 0 <= v < 64 → (base64_char v =? ch "=") = false.
Proof. intros Hv. apply Z.eqb_neq, value_of_char, Hv. Qed.

Lemma decodes_1 x : byte_ok x → decodes [x].
Proof.
  intros Hx. destruct (byte_split x Hx) as (H1 & H2 & _). exists 0%nat. split; [done|].
  cbn [base64_encode]. rewrite padding_last. split; [done|].
  split; [repeat constructor; try (by apply value_of_char); done|]. intros w.
  destruct (value_of_char _ H1) as [E1 _], (value_of_char _ H2) as [E2 _].
  rewrite (decode_quad_step _ _ _ _ _ _ _ (-2) (-2)); rewrite ?E1, ?E2; try done.
  - cbv zeta. replace (w + blen [x] - w) with 1 by (rewrite blen_cons, blen_nil; lia).
    change (ztake 1 (quad_bytes ?a ?b ?c ?d)) with [a * 4 + b / 16].
    cbn [decode_quads mbind option_bind app]. f_equal. f_equal. Z.div_mod_to_equations; lia.
  - unfold quad_bad. change 15 with (Z.ones 4). rewrite Z.land_ones by lia. change (2 ^ 4) with 16.
    rewrite Z.mod_mul by done. cbn. rewrite !orb_false_r. lia.
Qed.

Lemma decodes_2 x y : byte_ok x → byte_ok y → decodes [x; y].
Proof.
  intros Hx Hy. destruct (byte_split x Hx) as (H1 & _ & _). destruct (byte_join x y Hx Hy) as (H2 & H3 & _).
  exists 0%nat. split; [done|]. cbn [base64_encode]. rewrite padding_last, char_neq by done. split; [done|].
  split; [repeat constructor; try (by apply value_of_char); done|]. intros w.
  destruct (value_of_char _ H1) as [E1 _], (value_of_char _ H2) as [E2 _].
  rewrite (decode_quad_step _ _ _ _ _ _ _ (y mod 16 * 4) (-2)); rewrite ?E1, ?E2; try done; try lia.
  - rewrite positive_id by lia. cbv zeta. replace (w + blen [x; y] - w) with 2 by (rewrite !blen_cons, blen_nil; lia).
    change (ztake 2 (quad_bytes ?a ?b ?c ?d)) with [a * 4 + b / 16; b mod 16 * 16 + c / 4].
    cbn [decode_quads mbind option_bind app]. unfold fits in *. change (2 ^ 8) with 256 in *. repeat f_equal; Z.div_mod_to_equations; lia.
  - by apply pad_of_char.
  - unfold quad_bad. change 3 with (Z.ones 2). rewrite (Z.land_ones _ 2) by lia. change (2 ^ 2) with 4.
    rewrite Z.mod_mul by done. lia.
Qed.

Lemma decodes_more x y z d :
  byte_ok x → byte_ok y → byte_ok z → d = [] ∨ decodes d → decodes (x :: y :: z :: d).
Proof.
  intros Hx Hy Hz Hd. destruct (byte_split x Hx) as (H1 & _ & _). destruct (byte_join x y Hx Hy) as (H2 & _ & _).
  destruct (byte_join y z Hy Hz) as (_ & _ & H3). destruct (byte_split z Hz) as (_ & _ & H4).
  destruct (value_of_char _ H1) as [E1 _], (value_of_char _ H2) as [E2 _].
  assert (∀ w decoded, 3 <= decoded - w →
    decode_quads (base64_encode (x :: y :: z :: d)) decoded w =
    (more ← decode_quads (base64_encode d) decoded (w + 3); Some ([x; y; z] ++ more))) as Hstep.
  { intros w decoded Hw. cbn [base64_encode app].
    rewrite (decode_quad_step _ _ _ _ _ _ _ (y mod 16 * 4 + z / 64) (z mod 64));
      rewrite ?E1, ?E2; rewrite ?pad_of_char by done; try done; try lia;
      [|apply quad_good_full; lia].
    rewrite !positive_id by lia. rewrite ztake_ge by (unfold quad_bytes, blen; simpl length; lia).
    replace (quad_bytes _ _ _ _) with [x; y; z]; [done|]. unfold quad_bytes, fits in *.
    change (2 ^ 8) with 256 in *. repeat f_equal; Z.div_mod_to_equations; lia. }
  assert (Forall (λ c, c ≠ 0) [base64_char (x / 4); base64_char (x mod 4 * 16 + y / 16);
    base64_char (y mod 16 * 4 + z / 64); base64_char (z mod 64)]) as Hnul
    by (repeat constructor; by apply value_of_char).
  destruct Hd as [->|(k & Hl & Hb & Hn & Hq)].
  - exists 0%nat. split; [done|]. cbn [base64_encode app]. rewrite padding_last, !char_neq by done. split; [done|].
    split; [done|]. intros w. rewrite Hstep by (rewrite !blen_cons, blen_nil; lia). done.
  - exists (S k). cbn [base64_encode app length]. split; [lia|]. rewrite padding_skip by lia.
    split; [rewrite !blen_cons; lia|].
    split; [apply (Forall_app_2 _ _ _ Hnul Hn)|]. intros w.
    rewrite Hstep by (rewrite !blen_cons; pose proof (blen_nonneg d); lia).
    replace (w + blen (x :: y :: z :: d)) with (w + 3 + blen d) by (rewrite !blen_cons; lia).
    by rewrite Hq.
Qed.

Lemma encoding_decodes d : d ≠ [] → bytes_ok d → decodes d.
Proof.
  revert d. apply (triple_ind (λ d, bytes_ok d → decodes d)).
  - intros x [Hx _]%Forall_cons. by apply decodes_1.
  - intros x y [Hx [Hy _]%Forall_cons]%Forall_cons. by apply decodes_2.
  - intros x y z [Hx [Hy [Hz _]%Forall_cons]%Forall_cons]%Forall_cons. apply decodes_more; auto.
  - intros x y z d _ IH [Hx [Hy [Hz Hd]%Forall_cons]%Forall_cons]%Forall_cons. apply decodes_more; auto.
Qed.

(** A payload is accepted exactly when it is the canonical encoding of data within the
    limits. *)
Lemma decode_image_exact src room d :
  blen src < 2 ^ 64 →
  base64_decode_image src room = inl d ↔
  d ≠ [] ∧ bytes_ok d ∧ src = base64_encode d ∧ blen d <= CHAT_IMAGE_MAX_BYTES ∧ blen d <= room.
Proof.
  intros Hmax. unfold base64_decode_image. change 3 with (Z.ones 2) at 1. rewrite Z.land_ones by lia.
  change (2 ^ 2) with 4. split.
  - destruct (_ || negb _) eqn:Hn; [done|]. apply orb_false_iff in Hn as [Hn0 Hn4].
    apply negb_false_iff in Hn4.
    assert (∃ k, length src = (4 * S k)%nat) as [k Hk].
    { pose proof (blen_nonneg src). exists (Z.to_nat (blen src / 4 - 1)). unfold blen in *.
      Z.div_mod_to_equations. lia. }
    assert (blen src / 4 * 3 = 3 * Z.of_nat (S k)) as Hb by (unfold blen; Z.div_mod_to_equations; lia).
    pose proof (padding_range src). rewrite Hb.
    rewrite wrap_id by (unfold fits, blen in *; lia).
    destruct (_ || _) eqn:Hbig; [done|]. apply orb_false_iff in Hbig as [_ Hbig].
    destruct (Z.ltb_spec room (3 * Z.of_nat (S k) - padding src)); [done|].
    destruct (decode_quads src _ 0) as [dst|] eqn:Hd; [|done]. destruct (blen dst =? _); [|done]. intros [= <-].
    apply (decode_quads_sound k) in Hd as (Hs & Hl & Hok & Hne); [|done|lia].
    rewrite Z.sub_0_r in Hl. rewrite Z.ltb_ge in Hbig. split_and!; try done; lia.
  - intros (Hne & Hok & -> & Hlim & Hroom).
    destruct (encoding_decodes d Hne Hok) as (k & Hk & Hl & _ & Hd).
    assert (blen (base64_encode d) = 4 * Z.of_nat (S k)) as Hb by (unfold blen; lia).
    rewrite Hb, (Z.mul_comm 4), Z.mod_mul, Z.div_mul by done.
    rewrite (proj2 (Z.eqb_neq _ 0)) by lia. cbn [Z.eqb negb orb].
    replace (Z.of_nat (S k) * 3 - padding (base64_encode d)) with (blen d) by lia.
    assert (0 < blen d) by (destruct d; [done|rewrite blen_cons; pose proof (blen_nonneg d); lia]).
    unfold CHAT_IMAGE_MAX_BYTES in *. rewrite wrap_id by (unfold fits; lia).
    destruct (_ || (_ <? blen d)) eqn:Hbig; [lia|]. rewrite (proj2 (Z.ltb_ge _ _)) by lia.
    specialize (Hd 0). rewrite Z.add_0_l in Hd. by rewrite Hd, Z.eqb_refl.
Qed.

(** ** The limits *)

Definition bytes_of (images : list chat_image) : Z := fold_right (λ i s, blen (img_data i) + s) 0 images.

Record images_ok (images : chat_images) : Prop := {
  im_count : blen (img_v images) <= CHAT_IMAGE_MAX_COUNT;
  im_total : total_bytes images = bytes_of (img_v images);
  im_limit : total_bytes images <= CHAT_IMAGE_TOTAL_MAX;
  im_each : Forall (λ i, 0 < blen (img_data i) <= CHAT_IMAGE_MAX_BYTES ∧ bytes_ok (img_data i) ∧
                         chat_image_magic_matches (img_mime i) (img_data i) = true) (img_v images) }.

Lemma bytes_of_app l k : bytes_of (l ++ k) = bytes_of l + bytes_of k.
Proof. induction l as [|i l IH]; simpl; [lia|]. rewrite IH. lia. Qed.

Lemma bytes_of_nonneg l : 0 <= bytes_of l.
Proof. induction l as [|i l IH]; simpl; [lia|]. pose proof (blen_nonneg (img_data i)). lia. Qed.

(** What an accepted picture adds. *)
Definition added (images : chat_images) (mime : chat_image_mime) (d : list Z) : chat_images :=
  Images (img_v images ++ [new_image mime d]) (total_bytes images + blen d).

Definition fits_limits (images : chat_images) (mime : chat_image_mime) (d : list Z) : Prop :=
  d ≠ [] ∧ bytes_ok d ∧ chat_image_magic_matches mime d = true ∧
  blen (img_v images) < CHAT_IMAGE_MAX_COUNT ∧ blen d <= CHAT_IMAGE_MAX_BYTES ∧
  total_bytes images + blen d <= CHAT_IMAGE_TOTAL_MAX.

Lemma added_ok images mime d : images_ok images → fits_limits images mime d → images_ok (added images mime d).
Proof.
  intros [Hc Ht Hl He] (Hne & Hok & Hm & Hc' & Hb & Hr). split; simpl.
  - rewrite blen_app. change (blen [new_image mime d]) with 1. lia.
  - rewrite bytes_of_app, Ht. simpl. lia.
  - done.
  - apply Forall_app. split; [done|]. repeat constructor; simpl; try done.
    destruct d; [done|]. rewrite blen_cons. pose proof (blen_nonneg d). lia.
Qed.

Lemma add_base64_exact images mime_type payload r :
  images_ok images → blen payload < 2 ^ 64 →
  chat_images_add_base64 images mime_type payload = inl r ↔
  ∃ mime d, mime_of mime_type = Some mime ∧ payload = base64_encode d ∧ fits_limits images mime d ∧
    r = (added images mime d, blen (img_v images)).
Proof.
  intros Hok Hp. unfold chat_images_add_base64. pose proof (im_limit _ Hok) as Hlim.
  assert (0 <= total_bytes images) as H0 by (rewrite (im_total _ Hok); apply bytes_of_nonneg).
  split.
  - destruct (mime_of mime_type) as [mime|]; [|done].
    destruct (Z.leb_spec CHAT_IMAGE_MAX_COUNT (blen (img_v images))); [done|].
    destruct (_ <? _); [done|]. destruct (base64_decode_image _ _) as [d|e] eqn:Hd; [|done].
    apply decode_image_exact in Hd as (Hne & Hb & -> & Hmax & Hroom); [|done].
    destruct (chat_image_magic_matches mime d) eqn:Hm; [|done]. intros [= <-].
    exists mime, d. do 2 (split; [done|]). split; [unfold fits_limits; split_and!; try done; lia|].
    unfold added, CHAT_IMAGE_TOTAL_MAX in *. rewrite wrap_id; [done|].
    unfold fits. pose proof (blen_nonneg d). lia.
  - intros (mime & d & -> & -> & (Hne & Hb & Hm & Hc & Hmax & Hroom) & ->).
    rewrite (proj2 (Z.leb_gt _ _)), (proj2 (Z.ltb_ge _ _)) by lia.
    rewrite (proj2 (decode_image_exact _ _ d Hp)) by (split_and!; try done; lia).
    rewrite Hm. cbn [negb]. unfold added, CHAT_IMAGE_TOTAL_MAX in *. rewrite wrap_id; [done|].
    unfold fits. pose proof (blen_nonneg d). lia.
Qed.

(** ** Data URIs *)

Definition mime_name (m : chat_image_mime) : list Z :=
  match m with CHAT_IMAGE_PNG => bs "image/png" | CHAT_IMAGE_JPEG => bs "image/jpeg" end.

Lemma mime_of_name l m : mime_of l = Some m ↔ l = mime_name m.
Proof.
  unfold mime_of, mime_name. split.
  - case_bool_decide as H1; [by intros [= <-]|]. case_bool_decide; [by intros [= <-]|done].
  - intros ->. by destruct m.
Qed.

Definition data_uri (m : chat_image_mime) (d : list Z) : list Z :=
  bs "data:" ++ mime_name m ++ bs ";base64," ++ base64_encode d.

(** a picture is accepted exactly when it is given as a data URI of a supported
    media type, whose payload is the canonical base64 encoding (right padding, zero
    spare bits, no other characters) of data that is not empty, begins like a file of
    that type and keeps every limit: 10 MiB for a picture, four pictures and 20 MiB for
    a request.  What is stored is that data, and the limits hold afterwards. *)
Theorem data_uri_accepted_exactly images uri r :
  images_ok images → blen uri < 2 ^ 64 →
  (chat_images_add_data_uri images uri = inl r ↔
   ∃ mime d, uri = data_uri mime d ∧ fits_limits images mime d ∧
     r = (added images mime d, blen (img_v images))) ∧
  (chat_images_add_data_uri images uri = inl r → images_ok (fst r)).
Proof.
  intros Hok Hu.
  assert (chat_images_add_data_uri images uri = inl r ↔
   ∃ mime d, uri = data_uri mime d ∧ fits_limits images mime d ∧
     r = (added images mime d, blen (img_v images))) as Hiff.
  { unfold chat_images_add_data_uri. split.
    - destruct (starts_with uri (bs "data:")) eqn:Hs; [|done]. cbn [negb].
      apply starts_with_spec in Hs as [p ->]. change (zdrop 5 (bs "data:" ++ p)) with p.
      destruct (strstr p (bs ";base64,")) as [sep|] eqn:Hf; [|done].
      apply strstr_Some in Hf as [(a & b & -> & <-) _].
      assert (ztake (blen a) (a ++ bs ";base64," ++ b) = a) as Ha by apply ztake_app.
      assert (zdrop (blen a + 8) (a ++ bs ";base64," ++ b) = b) as Hb.
      { rewrite app_assoc. replace (blen a + 8) with (blen (a ++ bs ";base64,")); [apply zdrop_app|].
        by rewrite blen_app. }
      rewrite Ha, Hb. intros Hadd.
      assert (chat_images_add_base64 images a b = inl r) as Hadd' by (by destruct (blen a)).
      apply add_base64_exact in Hadd' as (mime & d & ->%mime_of_name & -> & Hl & ->); [|done|].
      + by exists mime, d.
      + rewrite !blen_app in Hu. change (blen (bs "data:")) with 5 in Hu. change (blen (bs ";base64,")) with 8 in Hu.
        pose proof (blen_nonneg a). lia.
    - intros (mime & d & -> & Hl & ->). unfold data_uri. rewrite starts_with_app. cbn [negb].
      change (zdrop 5 (bs "data:" ++ ?p)) with p.
      set (p := mime_name mime ++ bs ";base64," ++ base64_encode d).
      assert (strstr p (bs ";base64,") = Some (blen (mime_name mime)) ∧
        ztake (blen (mime_name mime)) p = mime_name mime ∧
        zdrop (blen (mime_name mime) + 8) p = base64_encode d) as (-> & -> & ->) by (by destruct mime).
      assert (chat_images_add_base64 images (mime_name mime) (base64_encode d) =
        inl (added images mime d, blen (img_v images))) as ->.
      + apply add_base64_exact; [done| |].
        * unfold data_uri in Hu. rewrite !blen_app in Hu. pose proof (blen_nonneg (mime_name mime)).
          change (blen (bs "data:")) with 5 in Hu. change (blen (bs ";base64,")) with 8 in Hu. lia.
        * exists mime, d. split; [by apply mime_of_name|]. done.
      + by destruct mime. }
  split; [exact Hiff|]. intros (mime & d & _ & Hl & ->)%Hiff. by apply added_ok.
Qed.

Lemma no_images_ok : images_ok no_images.
Proof. split; simpl; done || constructor. Qed.

Example data_uri_accepted_exactly_witness :
  ∃ r, chat_images_add_data_uri no_images (bs "data:image/jpeg;base64,/9j/4A==") = inl r ∧ images_ok (fst r).
Proof.
  destruct (data_uri_accepted_exactly no_images (bs "data:image/jpeg;base64,/9j/4A==")
    (added no_images CHAT_IMAGE_JPEG [0xff; 0xd8; 0xff; 0xe0], 0)) as [[_ H] Hk].
  - exact no_images_ok.
  - reflexivity.
  - eexists. assert (chat_images_add_data_uri no_images (bs "data:image/jpeg;base64,/9j/4A==") =
      inl (added no_images CHAT_IMAGE_JPEG [0xff; 0xd8; 0xff; 0xe0], 0)) as E.
    { apply H. exists CHAT_IMAGE_JPEG, [0xff; 0xd8; 0xff; 0xe0].
      split; [reflexivity|]. split; [|reflexivity]. repeat split; try discriminate; repeat constructor; done. }
    split; [exact E|apply (Hk E)].
Defined.
