(* ===== verification/ImageUse.v ===== *)
(** * Images in the messages of a request (ds4_server.c)

    The parts of a message's content, and the check that every picture of a request is
    used by a user message. *)

From S2P Require Import Prelude Text Images.

(** A part of a message's content, and the role and parts of a message. *)
Inductive chat_part := TextPart (text : list Z) | ImagePart (index : Z).

Record chat_msg := Msg { msg_role : list Z; msg_content : list Z; msg_parts : list chat_part }.

(** chat_msg_append_text_part *)
Definition chat_msg_append_text_part (m : chat_msg) (text : list Z) : chat_msg :=
  Msg (msg_role m) (msg_content m ++ text) (msg_parts m ++ [TextPart text]).

(** chat_msg_append_image_part *)
Definition chat_msg_append_image_part (m : chat_msg) (index : Z) : chat_msg :=
  Msg (msg_role m) (msg_content m) (msg_parts m ++ [ImagePart index]).

(** The walk over the parts of one message; [seen] is the array of flags. *)
Fixpoint see_parts (user : bool) (n : Z) (parts : list chat_part) (seen : list bool)
    : list bool + image_error :=
  match parts with
  | [] => inl seen
  | TextPart _ :: parts => see_parts user n parts seen
  | ImagePart i :: parts =>
      if negb user then inr NotUserMessage
      else if (i <? 0) || (n <=? i) then inr InvalidReference
      else see_parts user n parts (<[Z.to_nat i := true]> seen)
  end.

Fixpoint see_messages (n : Z) (msgs : list chat_msg) (seen : list bool) : list bool + image_error :=
  match msgs with
  | [] => inl seen
  | m :: msgs =>
      match see_parts (bool_decide (msg_role m = bs "user")) n (msg_parts m) seen with
      | inr e => inr e
      | inl seen => see_messages n msgs seen
      end
  end.

(** chat_msgs_validate_images; [qwen] is the format Qwen4Exp. *)
Definition chat_msgs_validate_images (msgs : list chat_msg) (images : chat_images) (qwen : bool)
    : option image_error :=
  let n := blen (img_v images) in
  if n =? 0 then None
  else if negb qwen then Some WrongModel
  else match see_messages n msgs (replicate (Z.to_nat CHAT_IMAGE_MAX_COUNT) false) with
  | inr e => Some e
  | inl seen =>
      if Z.of_nat (length (List.filter id seen)) =? n then None else Some Unreferenced
  end.

(** ** What the check accepts *)

Section validate.
Context (n : Z).

(** A reference to a picture that is allowed. *)
Definition part_ok (user : bool) (p : chat_part) : Prop :=
  match p with TextPart _ => True | ImagePart i => user = true ∧ 0 <= i < n end.

Definition msg_ok (m : chat_msg) : Prop := Forall (part_ok (bool_decide (msg_role m = bs "user"))) (msg_parts m).

(** The flags say which pictures were referenced, before or in [parts]. *)
Definition flags (seen : list bool) (before : Z → Prop) : Prop :=
  ∀ i, 0 <= i → seen !! Z.to_nat i = Some true ↔ before i ∧ (Z.to_nat i < length seen)%nat.

Lemma flags_set seen before i :
  0 <= i → (Z.to_nat i < length seen)%nat → flags seen before →
  flags (<[Z.to_nat i := true]> seen) (λ k, before k ∨ k = i).
Proof using.
  unfold flags. intros H0 Hi Hf k Hk. rewrite length_insert. destruct (Z.eq_dec k i) as [->|Hne].
  - rewrite list_lookup_insert_eq by done. split; [by auto|done].
  - rewrite list_lookup_insert_ne by lia. rewrite (Hf k Hk). intuition lia.
Qed.

Lemma flags_same seen (P Q : Z → Prop) : (∀ i, P i ↔ Q i) → flags seen P → flags seen Q.
Proof using. unfold flags. intros HPQ Hf i Hi. by rewrite (Hf i Hi), (HPQ i). Qed.

Lemma see_parts_ok user parts seen before :
  n <= Z.of_nat (length seen) → flags seen before →
  match see_parts user n parts seen with
  | inl seen' => Forall (part_ok user) parts ∧ length seen' = length seen ∧
                 flags seen' (λ i, before i ∨ ImagePart i ∈ parts)
  | inr _ => ¬ Forall (part_ok user) parts
  end.
Proof using.
  intros Hn. revert seen before Hn. induction parts as [|[t|i] parts IH]; intros seen before Hn Hf; cbn [see_parts].
  - split; [constructor|]. split; [done|]. eapply flags_same; [|done]. intros i. set_solver.
  - specialize (IH seen before Hn Hf). case_match.
    + destruct IH as (Hok & Hl & Hfl). split; [by constructor|]. split; [done|].
      eapply flags_same; [|done]. intros i. rewrite elem_of_cons. naive_solver.
    + intros [_ ?]%Forall_cons. done.
  - destruct user; cbn [negb]; [|by intros [[? _] _]%Forall_cons].
    destruct ((i <? 0) || (n <=? i)) eqn:Hi; [intros [[_ ?] _]%Forall_cons; lia|].
    apply orb_false_iff in Hi as [H0 Hin].
    specialize (IH (<[Z.to_nat i := true]> seen) (λ k, before k ∨ k = i)). rewrite length_insert in IH.
    specialize (IH Hn (flags_set seen before i ltac:(lia) ltac:(lia) Hf)). case_match.
    + destruct IH as (Hok & Hl & Hfl). split; [constructor; [split; [done|lia]|done]|].
      split; [done|]. eapply flags_same; [|done]. intros k. rewrite elem_of_cons. naive_solver.
    + intros [_ ?]%Forall_cons. done.
Qed.

Definition referenced (msgs : list chat_msg) (i : Z) : Prop := ∃ m, m ∈ msgs ∧ ImagePart i ∈ msg_parts m.

Lemma see_messages_ok msgs seen before :
  n <= Z.of_nat (length seen) → flags seen before →
  match see_messages n msgs seen with
  | inl seen' => Forall msg_ok msgs ∧ length seen' = length seen ∧
                 flags seen' (λ i, before i ∨ referenced msgs i)
  | inr _ => ¬ Forall msg_ok msgs
  end.
Proof using.
  revert seen before. induction msgs as [|m msgs IH]; intros seen before Hn Hf; cbn [see_messages].
  - split; [constructor|]. split; [done|]. eapply flags_same; [|done]. unfold referenced. intros i. set_solver.
  - pose proof (see_parts_ok (bool_decide (msg_role m = bs "user")) (msg_parts m) seen before Hn Hf) as Hp.
    destruct (see_parts _ _ _ _) as [seen1|e]; [|by intros [? _]%Forall_cons].
    destruct Hp as (Hok & Hl & Hf1). specialize (IH seen1 _ ltac:(by rewrite Hl) Hf1).
    destruct (see_messages n msgs seen1) as [seen2|e]; [|by intros [_ ?]%Forall_cons].
    destruct IH as (Hok2 & Hl2 & Hf2). split; [by constructor|]. split; [lia|].
    eapply flags_same; [|done]. intros i. unfold referenced. set_solver.
Qed.
End validate.

(** As many flags as pictures are set exactly when each of them is. *)
Lemma count_flags (seen : list bool) n :
  (∀ i, seen !! i = Some true → (i < n)%nat) → (n <= length seen)%nat →
  length (List.filter id seen) = n ↔ ∀ i, (i < n)%nat → seen !! i = Some true.
Proof.
  revert n. induction seen as [|b seen IH]; intros n Hlt Hn.
  - simpl in *. split; [intros <- i Hi; lia|]. lia.
  - destruct n as [|n].
    + split; [lia|]. intros _. assert (Forall (λ b, b = false) (b :: seen)) as Hfalse.
      { apply Forall_lookup. intros i [] Hi; [|done]. apply Hlt in Hi. lia. }
      clear -Hfalse. induction Hfalse as [|? ? -> _ IH]; [done|]. exact IH.
    + specialize (IH n). assert (∀ i, seen !! i = Some true → (i < n)%nat) as Hlt'.
      { intros i Hi. specialize (Hlt (S i) Hi). lia. }
      specialize (IH Hlt' ltac:(simpl in Hn; lia)). destruct b; simpl.
      * split.
        -- intros [= E] [|i] Hi; [done|]. simpl. apply IH; [done|lia].
        -- intros Hall. f_equal. apply IH. intros i Hi. apply (Hall (S i)). lia.
      * split; [|intros Hall; by specialize (Hall 0%nat ltac:(lia))].
        intros E. exfalso. assert (length (List.filter id seen) <= n)%nat; [|lia].
        clear -Hlt' E. revert n Hlt' E. induction seen as [|[] seen IH]; simpl; intros n Hlt' E; [lia| |].
        -- specialize (Hlt' 0%nat eq_refl) as H0. destruct n as [|n]; [lia|].
           assert (length (List.filter id seen) <= n)%nat; [|lia]. injection E as E. apply IH; [|lia].
           intros i Hi. specialize (Hlt' (S i) Hi). lia.
        -- apply IH; [|done]. intros i Hi. specialize (Hlt' (S i) Hi). lia.
Qed.

(** the pictures of a request are accepted exactly when there are none, or the
    model takes pictures, every reference is in a user message and names one of them,
    and each of them is referenced; a picture may be used more than once. *)
Theorem images_validated_exactly msgs images qwen :
  images_ok images →
  chat_msgs_validate_images msgs images qwen = None ↔
  img_v images = [] ∨
  (qwen = true ∧ Forall (msg_ok (blen (img_v images))) msgs ∧
   ∀ i, 0 <= i < blen (img_v images) → referenced msgs i).
Proof.
  intros Hok. pose proof (im_count _ Hok) as Hc. unfold chat_msgs_validate_images.
  set (n := blen (img_v images)) in *. unfold CHAT_IMAGE_MAX_COUNT in Hc. cbv zeta.
  assert (0 <= n) as H0 by apply blen_nonneg.
  assert (n = 0 ↔ img_v images = []) as Hempty.
  { unfold n, blen. destruct (img_v images); [done|]. simpl. split; [lia|done]. }
  destruct (Z.eqb_spec n 0) as [E|E].
  { split; [left; by apply Hempty|done]. }
  assert (img_v images ≠ []) as Hne by (intros He; by apply E, Hempty).
  destruct qwen; cbn [negb]; [|split; [done|intros [?|[? _]]; done]].
  set (seen := replicate (Z.to_nat CHAT_IMAGE_MAX_COUNT) false).
  assert (flags seen (λ _, False)) as Hf.
  { intros i Hi. split; [|by intros [? _]]. unfold seen. intros [? _]%lookup_replicate. done. }
  pose proof (see_messages_ok n msgs seen _ Hc Hf) as Hs.
  destruct (see_messages n msgs seen) as [seen'|e].
  - destruct Hs as (Hm & Hl & Hfl).
    assert (∀ i, seen' !! i = Some true → (i < Z.to_nat n)%nat) as Hlt.
    { intros i Hi. specialize (Hfl (Z.of_nat i) ltac:(lia)). rewrite Nat2Z.id in Hfl.
      apply Hfl in Hi as [[[]|(m & Hin & Hp)] _]. unfold msg_ok in Hm. rewrite Forall_forall in Hm.
      specialize (Hm m Hin). rewrite Forall_forall in Hm. destruct (Hm _ Hp). lia. }
    pose proof (count_flags seen' (Z.to_nat n) Hlt ltac:(rewrite Hl; unfold seen; rewrite length_replicate;
      unfold CHAT_IMAGE_MAX_COUNT; lia)) as Hcount.
    transitivity (∀ i, (i < Z.to_nat n)%nat → seen' !! i = Some true).
    { rewrite <- Hcount. case_match; split; intros; try done; lia. }
    split.
    + intros Hall. right. split; [done|]. split; [done|]. intros i Hi.
      specialize (Hall (Z.to_nat i) ltac:(lia)). apply Hfl in Hall; [|lia]. by destruct Hall as [[[]|?] _].
    + intros [?|(_ & _ & Href)] i Hi; [done|]. specialize (Hfl (Z.of_nat i) ltac:(lia)). rewrite Nat2Z.id in Hfl.
      apply Hfl. split; [right; apply Href; lia|]. rewrite Hl. unfold seen. rewrite length_replicate.
      unfold CHAT_IMAGE_MAX_COUNT. lia.
  - split; [done|]. intros [?|(_ & ? & _)]; done.
Qed.

Example images_validated_exactly_witness :
  chat_msgs_validate_images
    [Msg (bs "user") (bs "look") [TextPart (bs "look"); ImagePart 0; ImagePart 0]]
    (added no_images CHAT_IMAGE_JPEG [0xff; 0xd8; 0xff; 0xe0]) true = None.
Proof.
  apply images_validated_exactly.
  - apply added_ok; [exact no_images_ok|]. repeat split; try discriminate; repeat constructor; done.
  - right. split; [reflexivity|]. split.
    + repeat constructor; done.
    + intros i Hi. change (0 <= i < 1) in Hi. assert (i = 0) as -> by lia.
      eexists. split; [apply list_elem_of_here|]. apply list_elem_of_further, list_elem_of_here.
Defined.
