(* ===== verification/ImageKey.v ===== *)
(** * Cache keys and tokens of pictures (ds4_server.c)

    The text under which a prompt with pictures is cached names each picture behind its
    placeholder; the placeholder's token is repeated as often as the picture has
    tokens. *)

From S2P Require Import Prelude Bytes Text Images.

(** ** Formats *)

(** [%0wx] of a value below 16^w. *)
Fixpoint hex_fixed (w : nat) (v : Z) : list Z :=
  match w with
  | O => []
  | S w => hex_fixed w (v / 16) ++ [znth 0 Name.hex_digits (v mod 16)]
  end.

Definition DS4_QWEN_IMAGE_PAD : list Z := bs "<|image_pad|>".
Definition DS4_QWEN_IMAGE_PAD_TOKEN_ID : Z := 248056.
Definition QWEN_IMAGE_CACHE_PREFIX : list Z := 0xff :: bs "DS4IMG2:".
Definition QWEN_IMAGE_CACHE_MARKER_LEN : Z := 53.

(** The marker snprintf writes for a picture. *)
Definition image_marker (i : chat_image) : list Z :=
  QWEN_IMAGE_CACHE_PREFIX ++ hex_fixed 16 (pixel_hash i) ++ bs ":" ++
  hex_fixed 8 (grid_h (img_info i)) ++ bs ":" ++ hex_fixed 8 (grid_w (img_info i)) ++ bs ":" ++
  hex_fixed 8 (token_count (img_info i)) ++ [0xfe].

(** The positions that need not be digits. *)
Definition marker_colon (i : Z) : bool := (i =? 25) || (i =? 34) || (i =? 43).

Definition qwen_image_cache_marker_at (p : list Z) : bool :=
  (QWEN_IMAGE_CACHE_MARKER_LEN <=? blen p) && starts_with p QWEN_IMAGE_CACHE_PREFIX &&
  (znth 0 p 25 =? ch ":") && (znth 0 p 34 =? ch ":") && (znth 0 p 43 =? ch ":") && (znth 0 p 52 =? 0xfe) &&
  forallb (fun i => marker_colon i || Name.isxdigit (znth 0 p i)) (seqZ 9 43).

(** ** The engine's pictures

    ds4_qwen_image_probe reads the size of a picture and ds4_qwen_image_pixel_hash
    hashes its pixels; both decode the file with the stb library. *)
Class ImageCodec := {
  qwen_image_probe : list Z → option image_info;
  qwen_image_pixel_hash : list Z → option Z }.

(** The errors; the last one is a write outside the token buffer, which the code
    does not check for. *)
Inductive key_error := MissingPlaceholder | HashFailed | NoImages | ProbeFailed | PromptTooLarge |
  LiteralPad | PlaceholderCount | OutsideBuffer.

Section key.
Context `{ImageCodec}.

Definition set_hash (i : chat_image) (h : Z) : chat_image :=
  Image (img_mime i) (img_data i) (img_info i) (token_offset i) h (cache_marker_start i) (cache_marker_end i).

Definition set_marker (i : chat_image) (a b : Z) : chat_image :=
  Image (img_mime i) (img_data i) (img_info i) (token_offset i) (pixel_hash i) a b.

(** The hash is computed once. *)
Definition hashed_image (i : chat_image) : option chat_image :=
  if pixel_hash i =? 0 then set_hash i <$> qwen_image_pixel_hash (img_data i) else Some i.

(** The loop of qwen_image_cache_text_build; [at_] bytes are written. *)
Fixpoint build_key (images : list chat_image) (cursor : list Z) (at_ : Z)
    : (list Z * list chat_image) + key_error :=
  match images with
  | [] => inl (cursor, [])
  | i :: images =>
      match strstr cursor DS4_QWEN_IMAGE_PAD with
      | None => inr MissingPlaceholder
      | Some pad =>
          match hashed_image i with
          | None => inr HashFailed
          | Some i =>
              let through := pad + blen DS4_QWEN_IMAGE_PAD in
              let from := at_ + through in
              let upto := from + blen (image_marker i) in
              match build_key images (zdrop through cursor) upto with
              | inr e => inr e
              | inl (key, done) => inl (ztake through cursor ++ image_marker i ++ key,
                                        set_marker i from upto :: done)
              end
          end
      end
  end.

Definition qwen_image_cache_text_build (text : list Z) (images : list chat_image)
    : (list Z * list chat_image) + key_error :=
  if (blen images <=? 0) || (CHAT_IMAGE_MAX_COUNT <? blen images) then inr NoImages
  else build_key images text 0.

(** The loop of qwen_image_cache_text_strip; [skip] bytes belong to a marker. *)
Fixpoint strip_loop (key : list Z) (skip : Z) : list Z :=
  match key with
  | [] => []
  | c :: t => if 0 <? skip then strip_loop t (skip - 1)
              else if qwen_image_cache_marker_at key then strip_loop t (QWEN_IMAGE_CACHE_MARKER_LEN - 1)
              else c :: strip_loop t 0
  end.

Definition qwen_image_cache_text_strip (key : list Z) : list Z := strip_loop key 0.

(** qwen_image_cache_token_cap *)
Fixpoint qwen_image_cache_token_cap (images : list chat_image) (cache_lcp : Z) : Z :=
  match images with
  | [] => INT_MAX
  | i :: images =>
      if (cache_marker_start i <=? cache_lcp) && (cache_lcp <? cache_marker_end i) then token_offset i
      else qwen_image_cache_token_cap images cache_lcp
  end.

(** ** Tokens *)

Definition set_info (i : chat_image) (info : image_info) : chat_image :=
  Image (img_mime i) (img_data i) info (token_offset i) (pixel_hash i) (cache_marker_start i) (cache_marker_end i).

Definition set_offset (i : chat_image) (off : Z) : chat_image :=
  Image (img_mime i) (img_data i) (img_info i) off (pixel_hash i) (cache_marker_start i) (cache_marker_end i).

(** The pictures with their sizes. *)
Fixpoint probe_all (images : list chat_image) : option (list chat_image) :=
  match images with
  | [] => Some []
  | i :: images => info ← qwen_image_probe (img_data i); rest ← probe_all images; Some (set_info i info :: rest)
  end.

(** The length counted in 64 bits; each picture adds a 32-bit difference. *)
Definition expanded_len (prompt : list Z) (images : list chat_image) : Z :=
  fold_left (fun n i => u64 (n + u32 (token_count (img_info i) - 1))) images (u32 (blen prompt)).

(** The copying loop, from position [out] of the new prompt, whose buffer has room
    for [cap] tokens; the pictures left over. *)
Fixpoint expand_loop (prompt : list Z) (images : list chat_image) (out cap : Z)
    : (list Z * list chat_image) + key_error :=
  match prompt with
  | [] => match images with [] => inl ([], []) | _ => inr PlaceholderCount end
  | t :: prompt =>
      if negb (t =? DS4_QWEN_IMAGE_PAD_TOKEN_ID) then
        if cap <=? out then inr OutsideBuffer
        else match expand_loop prompt images (u32 (out + 1)) cap with
        | inl (ts, done) => inl (t :: ts, done)
        | inr e => inr e
        end
      else match images with
      | [] => inr LiteralPad
      | i :: images =>
          let n := token_count (img_info i) in
          if cap <? out + n then inr OutsideBuffer
          else match expand_loop prompt images (u32 (out + n)) cap with
          | inl (ts, done) => inl (replicate (Z.to_nat n) DS4_QWEN_IMAGE_PAD_TOKEN_ID ++ ts,
                                   set_offset i out :: done)
          | inr e => inr e
          end
      end
  end.

(** request_expand_qwen_image_tokens: the prompt, the pictures and the cache text
    afterwards *)
Definition request_expand_qwen_image_tokens (prompt : list Z) (images : list chat_image) (prompt_text : list Z)
    : (list Z * list chat_image * option (list Z)) + key_error :=
  match images with
  | [] => inl (prompt, [], None)
  | _ =>
      match probe_all images with
      | None => inr ProbeFailed
      | Some images =>
          let len := expanded_len prompt images in
          if INT_MAX <? len then inr PromptTooLarge
          else match expand_loop prompt images 0 len with
          | inr e => inr e
          | inl (tokens, images) =>
              if negb (blen tokens =? len) then inr PlaceholderCount
              else match qwen_image_cache_text_build prompt_text images with
              | inr e => inr e
              | inl (key, images) => inl (tokens, images, Some key)
              end
          end
      end
  end.
End key.

(** ** Markers *)

Lemma hex_fixed_ok w v :
  length (hex_fixed w v) = w ∧ Forall (λ c, Name.isxdigit c = true) (hex_fixed w v).
Proof.
  revert v. induction w as [|w IH]; intros v; [done|]. cbn [hex_fixed]. destruct (IH (v / 16)) as [Hl Hd].
  split; [rewrite length_app, Hl; simpl; lia|]. apply Forall_app. split; [done|]. repeat constructor.
  apply Name.nibble_digit, Z.mod_pos_bound. lia.
Qed.

Lemma digit_inj m n : 0 <= m < 16 → 0 <= n < 16 →
  znth 0 Name.hex_digits m = znth 0 Name.hex_digits n → m = n.
Proof.
  intros Hm Hn E.
  set (f m := forallb (λ n, negb (znth 0 Name.hex_digits m =? znth 0 Name.hex_digits n) || (m =? n)) (seqZ 0 16)).
  assert (f m = true) as Hf by (apply (forallb_range f 16); [vm_compute; reflexivity|done]).
  apply (forallb_range _ 16 n Hf) in Hn. rewrite E, Z.eqb_refl in Hn. cbn in Hn. lia.
Qed.

Lemma hex_fixed_inj w v u : 0 <= v < 16 ^ Z.of_nat w → 0 <= u < 16 ^ Z.of_nat w →
  hex_fixed w v = hex_fixed w u → v = u.
Proof.
  revert v u. induction w as [|w IH]; intros v u Hv Hu; [simpl in *; lia|].
  cbn [hex_fixed]. intros [E1 E2]%app_inj_tail. rewrite Nat2Z.inj_succ, Z.pow_succ_r in Hv, Hu by lia.
  apply IH in E1; [|Z.div_mod_to_equations; lia..].
  apply digit_inj in E2; [|apply Z.mod_pos_bound; lia..].
  rewrite (Z.div_mod v 16), (Z.div_mod u 16) by lia. lia.
Qed.

(** The fields of a picture are C integers. *)
Record image_fits (i : chat_image) : Prop := {
  if_hash : fits 64 (pixel_hash i);
  if_h : fits 32 (grid_h (img_info i));
  if_w : fits 32 (grid_w (img_info i));
  if_tokens : fits 32 (token_count (img_info i)) }.

Lemma marker_blen i : blen (image_marker i) = 53.
Proof.
  unfold image_marker, blen. rewrite !length_app. rewrite !(proj1 (hex_fixed_ok _ _)). done.
Qed.

Lemma marker_parts_recognised (a b c d k : list Z) :
  length a = 16%nat → length b = 8%nat → length c = 8%nat → length d = 8%nat →
  Forall (λ c, Name.isxdigit c = true) (a ++ b ++ c ++ d) →
  qwen_image_cache_marker_at
    ((QWEN_IMAGE_CACHE_PREFIX ++ a ++ bs ":" ++ b ++ bs ":" ++ c ++ bs ":" ++ d ++ [0xfe]) ++ k) = true.
Proof.
  intros Ha Hb Hc Hd Hx.
  do 16 (destruct a as [|? a]; [done|]). destruct a; [|done].
  do 8 (destruct b as [|? b]; [done|]). destruct b; [|done].
  do 8 (destruct c as [|? c]; [done|]). destruct c; [|done].
  do 8 (destruct d as [|? d]; [done|]). destruct d; [|done].
  cbn [app] in Hx. unfold qwen_image_cache_marker_at. rewrite !andb_true_iff.
  split_and!; try reflexivity.
  - rewrite blen_app. pose proof (blen_nonneg k). apply Z.leb_le.
    match goal with |- _ <= blen ?l + _ => change (blen l) with 53 end.
    unfold QWEN_IMAGE_CACHE_MARKER_LEN. lia.
  - revert Hx. generalize Name.isxdigit. intros digit Hx. vm_compute.
    repeat (apply Forall_cons in Hx as [-> Hx]). reflexivity.
Qed.

Lemma marker_recognised i k : qwen_image_cache_marker_at (image_marker i ++ k) = true.
Proof.
  unfold image_marker. apply marker_parts_recognised; try apply hex_fixed_ok.
  do 3 (apply Forall_app; split; [apply hex_fixed_ok|]). apply hex_fixed_ok.
Qed.

(** What a marker tells of a picture. *)
Definition identity (i : chat_image) : Z * Z * Z * Z :=
  (pixel_hash i, grid_h (img_info i), grid_w (img_info i), token_count (img_info i)).

Lemma marker_inj i j : image_fits i → image_fits j → image_marker i = image_marker j → identity i = identity j.
Proof.
  intros [H1 H2 H3 H4] [K1 K2 K3 K4] E. unfold image_marker in E. apply app_inv_head in E.
  repeat match goal with
  | H : hex_fixed ?w ?x ++ ?a = hex_fixed ?w ?y ++ ?b |- _ =>
      apply app_inj_1 in H as [? H]; [|by rewrite !(proj1 (hex_fixed_ok _ _))]
  | H : bs ":" ++ _ = bs ":" ++ _ |- _ => apply app_inv_head in H
  end.
  unfold identity, fits in *. f_equal; [f_equal; [f_equal|]|];
    match goal with H : hex_fixed _ ?x = hex_fixed _ ?y |- ?x = ?y => apply hex_fixed_inj in H; done end.
Qed.

(** ** Keys *)

Lemma strip_skip l k n : n = blen l → strip_loop (l ++ k) n = strip_loop k 0.
Proof.
  revert n. induction l as [|c l IH]; intros n; [rewrite blen_nil; by intros ->|].
  rewrite blen_cons. intros ->. pose proof (blen_nonneg l). cbn [app strip_loop].
  rewrite (proj2 (Z.ltb_lt _ _)) by lia. apply IH. lia.
Qed.

Lemma strip_marker i k : strip_loop (image_marker i ++ k) 0 = strip_loop k 0.
Proof.
  pose proof (marker_recognised i k) as Hm. pose proof (marker_blen i) as Hl.
  destruct (image_marker i) as [|c m]; [done|]. cbn [app] in *. cbn [strip_loop]. rewrite Hm.
  cbn [Z.ltb Z.compare]. apply strip_skip. rewrite blen_cons in Hl. unfold QWEN_IMAGE_CACHE_MARKER_LEN. lia.
Qed.

Lemma strip_text a k : 0xff ∉ a → strip_loop (a ++ k) 0 = a ++ strip_loop k 0.
Proof.
  induction a as [|c a IH]; intros Hn; [done|]. cbn [app strip_loop Z.ltb Z.compare].
  rewrite not_elem_of_cons in Hn. destruct Hn as [Hc Hn].
  replace (qwen_image_cache_marker_at (c :: a ++ k)) with false; [by rewrite IH|].
  unfold qwen_image_cache_marker_at, QWEN_IMAGE_CACHE_PREFIX. cbn [starts_with].
  rewrite (proj2 (Z.eqb_neq 0xff c)) by done. by rewrite andb_false_l, andb_false_r.
Qed.

Section keys.
Context `{ImageCodec}.

(** The hash of the pixels is a 64-bit integer. *)
Hypothesis Hhash : ∀ d h, qwen_image_pixel_hash d = Some h → fits 64 h.

Lemma hashed_fits i j : hashed_image i = Some j → image_fits i → image_fits j.
Proof using Hhash.
  unfold hashed_image. destruct (pixel_hash i =? 0); [|by intros [= <-]].
  destruct (qwen_image_pixel_hash (img_data i)) as [h|] eqn:Hh; [|done]. intros [= <-] [? ? ? ?].
  split; simpl; [by eapply Hhash|done..].
Qed.

(** One step of the loop. *)
Lemma build_key_cons i images cursor at_ key done :
  build_key (i :: images) cursor at_ = inl (key, done) →
  ∃ a b j key1 done1 at1, cursor = a ++ b ∧ strstr cursor DS4_QWEN_IMAGE_PAD = Some (blen a - blen DS4_QWEN_IMAGE_PAD) ∧
    hashed_image i = Some j ∧ build_key images b at1 = inl (key1, done1) ∧
    key = a ++ image_marker j ++ key1 ∧ at1 = at_ + blen a + 53 ∧
    done = set_marker j (at_ + blen a) at1 :: done1.
Proof using.
  cbn [build_key]. destruct (strstr cursor _) as [pad|] eqn:Hs; [|done].
  destruct (hashed_image i) as [j|]; [|done]. cbv zeta.
  set (through := pad + blen DS4_QWEN_IMAGE_PAD).
  destruct (build_key images _ _) as [[key1 done1]|e] eqn:Hb; [|done]. intros [= <- <-].
  apply strstr_Some in Hs as Hocc. destruct Hocc as [Hocc _]. apply occurs_bounds in Hocc as [? ?].
  assert (blen (ztake through cursor) = through) as Ht by (apply blen_ztake; unfold through, blen in *; lia).
  exists (ztake through cursor), (zdrop through cursor), j, key1, done1, (at_ + through + 53).
  rewrite Ht. split; [by rewrite ztake_zdrop|]. split; [unfold through; f_equal; lia|]. split; [done|].
  rewrite marker_blen in Hb |- *. split; [done|]. split; [done|]. split; done.
Qed.

Lemma build_key_strips images cursor at_ key done :
  0xff ∉ cursor → build_key images cursor at_ = inl (key, done) → strip_loop key 0 = cursor.
Proof using.
  revert cursor at_ key done. induction images as [|i images IH]; intros cursor at_ key done Hn.
  - cbn [build_key]. intros [= <- <-]. rewrite <- (app_nil_r cursor) at 1. rewrite strip_text by done.
    cbn [strip_loop]. apply app_nil_r.
  - intros (a & b & j & key1 & done1 & at1 & -> & _ & _ & Hb & -> & _)%build_key_cons.
    rewrite elem_of_app in Hn. rewrite strip_text by tauto. rewrite strip_marker. f_equal.
    eapply IH; [|done]. tauto.
Qed.

Lemma marker_not_text i a b k : 0xff ∉ a → a ≠ b ++ image_marker i ++ k.
Proof using.
  intros Hn ->. apply Hn. rewrite !elem_of_app. right. left. unfold image_marker, QWEN_IMAGE_CACHE_PREFIX.
  apply elem_of_app. left. apply list_elem_of_here.
Qed.

Lemma build_key_identifies images images' cursor at_ at' key done done' :
  0xff ∉ cursor → Forall image_fits images → Forall image_fits images' →
  build_key images cursor at_ = inl (key, done) → build_key images' cursor at' = inl (key, done') →
  map identity done = map identity done'.
Proof using Hhash.
  revert images' cursor at_ at' key done done'.
  induction images as [|i images IH]; intros images' cursor at_ at' key done done' Hn Hi Hi'.
  - cbn [build_key]. intros [= <- <-]. destruct images' as [|i' images']; [by intros [= <-]|].
    intros (a & b & j & key1 & done1 & at1 & _ & _ & _ & _ & E & _)%build_key_cons.
    by apply (marker_not_text j cursor a key1) in Hn.
  - intros (a & b & j & key1 & done1 & at1 & Ea & Hs & Hj & Hb & Ek & _ & ->)%build_key_cons.
    destruct images' as [|i' images'].
    { cbn [build_key]. intros [= -> <-]. by apply (marker_not_text j key a key1) in Hn. }
    intros (a' & b' & j' & key1' & done1' & at1' & Ea' & Hs' & Hj' & Hb' & Ek' & _ & ->)%build_key_cons.
    apply Forall_cons in Hi as [Hfi Hi]. apply Forall_cons in Hi' as [Hfi' Hi'].
    rewrite Hs in Hs'. injection Hs' as Hlen. rewrite Ea in Ea'.
    apply app_inj_1 in Ea' as [<- <-]; [|unfold blen in Hlen; lia].
    rewrite Ek in Ek'. apply app_inv_head in Ek'.
    apply app_inj_1 in Ek' as [Em <-].
    2: { pose proof (marker_blen j). pose proof (marker_blen j'). unfold blen in *. lia. }
    apply marker_inj in Em; [|by eapply hashed_fits..]. cbn [map]. f_equal; [exact Em|].
    eapply IH; [|done|done|exact Hb|exact Hb']. rewrite Ea, elem_of_app in Hn. tauto.
Qed.
End keys.

(** C24: the cache text of a prompt with pictures tells exactly what was prompted: taking
    the markers out gives the prompt's text back, and prompts with the same cache text
    have the same text and, picture by picture, the same pixel hash, grid and number of
    tokens; for texts without the byte 0xff, which valid UTF-8 never has. *)
Theorem image_key_identifies `{ImageCodec} text images key done :
  (∀ d h, qwen_image_pixel_hash d = Some h → fits 64 h) →
  0xff ∉ text → Forall image_fits images →
  qwen_image_cache_text_build text images = inl (key, done) →
  qwen_image_cache_text_strip key = text ∧
  ∀ text' images' done', 0xff ∉ text' → Forall image_fits images' →
    qwen_image_cache_text_build text' images' = inl (key, done') →
    text = text' ∧ map identity done = map identity done'.
Proof.
  intros Hhash Hn Hi. unfold qwen_image_cache_text_build. destruct (_ || _); [done|]. intros Hb.
  pose proof (build_key_strips _ _ _ _ _ Hn Hb) as Hs. split; [exact Hs|].
  intros text' images' done' Hn' Hi'. destruct (_ || _); [done|]. intros Hb'.
  pose proof (build_key_strips _ _ _ _ _ Hn' Hb') as Hs'. assert (text = text') as <- by congruence.
  split; [done|]. exact (build_key_identifies Hhash _ _ _ _ _ _ _ _ Hn Hi Hi' Hb Hb').
Qed.

(** A codec for the examples: every picture is one cell, its hash the first byte. *)
#[local] Instance toy_codec : ImageCodec := {
  qwen_image_probe d := Some (Info 32 32 32 32 2 2 1);
  qwen_image_pixel_hash d := Some (u64 (znth 0 d 0)) }.

Lemma toy_hash d h : qwen_image_pixel_hash d = Some h → fits 64 h.
Proof. intros [= <-]. by apply wrap_fits. Qed.

Lemma no_ff l : forallb (λ c, negb (c =? 0xff)) l = true → 0xff ∉ l.
Proof. rewrite forallb_forall. intros H Hc%list_elem_of_In. apply H in Hc. lia. Qed.

Definition toy_image : chat_image := set_info (new_image CHAT_IMAGE_JPEG [0xff; 0xd8; 0xff]) (Info 32 32 32 32 2 2 1).

Example image_key_identifies_witness :
  ∃ key done, qwen_image_cache_text_build (bs "see <|image_pad|>!") [toy_image] = inl (key, done) ∧
    qwen_image_cache_text_strip key = bs "see <|image_pad|>!".
Proof.
  do 2 eexists. assert (qwen_image_cache_text_build (bs "see <|image_pad|>!") [toy_image] =
    inl (bs "see <|image_pad|>" ++ image_marker (set_hash toy_image 255) ++ bs "!",
         [set_marker (set_hash toy_image 255) 17 70])) as E by (vm_compute; reflexivity).
  split; [exact E|].
  refine (proj1 (image_key_identifies (bs "see <|image_pad|>!") [toy_image] _
    [set_marker (set_hash toy_image 255) 17 70] toy_hash _ _ _)).
  - apply no_ff. vm_compute. reflexivity.
  - repeat constructor; vm_compute; discriminate.
  - exact E.
Defined.

(** ** Tokens *)

(** The loop's promise: text is copied, the placeholder of each picture is repeated
    and the picture knows where. *)
Inductive expands : list Z → Z → list Z → list chat_image → Prop :=
| ex_end out : expands [] out [] []
| ex_text t p out ts is_ :
    t ≠ DS4_QWEN_IMAGE_PAD_TOKEN_ID → expands p (out + 1) ts is_ → expands (t :: p) out (t :: ts) is_
| ex_image i p out ts is_ :
    token_offset i = out → expands p (out + token_count (img_info i)) ts is_ →
    expands (DS4_QWEN_IMAGE_PAD_TOKEN_ID :: p) out
      (replicate (Z.to_nat (token_count (img_info i))) DS4_QWEN_IMAGE_PAD_TOKEN_ID ++ ts) (i :: is_).

Definition extra (images : list chat_image) : Z :=
  fold_right (λ i s, token_count (img_info i) - 1 + s) 0 images.

Definition is_pad (t : Z) : bool := t =? DS4_QWEN_IMAGE_PAD_TOKEN_ID.
Definition pads (prompt : list Z) : nat := length (List.filter is_pad prompt).

Definition sized (i : chat_image) : Prop := 1 <= token_count (img_info i) < 2 ^ 32.

Lemma extra_nonneg images : Forall sized images → 0 <= extra images.
Proof. induction 1 as [|i l Hi _ IH]; simpl; [lia|]. unfold sized in Hi. lia. Qed.

Lemma expand_loop_ok prompt images out cap :
  Forall sized images → 0 <= out → out + blen prompt + extra images <= cap → cap <= INT_MAX →
  match expand_loop prompt images out cap with
  | inl (ts, done) => pads prompt = length images ∧ blen ts = blen prompt + extra images ∧
      expands prompt out ts done ∧ map img_data done = map img_data images ∧
      map img_info done = map img_info images
  | inr e => pads prompt ≠ length images ∧ (e = PlaceholderCount ∨ e = LiteralPad)
  end.
Proof.
  intros Hs H0 Hm Hc. revert images out Hs H0 Hm. induction prompt as [|t p IH]; intros images out Hs H0 Hm; cbn [expand_loop].
  - destruct images; [|by split; [|left]]. do 2 (split; [done|]). split; [constructor|done].
  - rewrite blen_cons in Hm. pose proof (extra_nonneg images Hs). pose proof (blen_nonneg p).
    unfold pads. cbn [List.filter]. fold (is_pad t).
    destruct (is_pad t) eqn:Ht; cbn [negb]; fold (pads p).
    + apply Z.eqb_eq in Ht as ->. destruct images as [|i images]; [by split; [|right]|].
      apply Forall_cons in Hs as [Hi Hs]. pose proof (extra_nonneg images Hs). cbn [extra fold_right] in Hm.
      fold (extra images) in Hm. unfold sized in Hi. cbv zeta. rewrite (proj2 (Z.ltb_ge _ _)) by lia.
      rewrite wrap_id by (unfold fits; lia).
      specialize (IH images (out + token_count (img_info i)) Hs ltac:(lia) ltac:(lia)).
      unfold pads in IH.
      destruct (expand_loop p images _ _) as [[ts dn]|e]; [|destruct IH as [IH1 IH2]; split; [simpl; lia|done]].
      destruct IH as (Hp & Hl & He & Hd & Hf). split; [simpl; lia|].
      split; [rewrite blen_app, blen_cons, Hl; cbn [extra fold_right]; fold (extra images);
        unfold blen; rewrite length_replicate; lia|].
      split; [by apply (ex_image (set_offset i out))|]. cbn [map]. rewrite Hd, Hf. done.
    + rewrite (proj2 (Z.leb_gt _ _)), wrap_id by (unfold fits; lia).
      specialize (IH images (out + 1) Hs ltac:(lia) ltac:(lia)).
      destruct (expand_loop p images _ _) as [[ts dn]|e]; [|done].
      destruct IH as (Hp & Hl & He & Hd & Hf). split; [done|]. rewrite !blen_cons, Hl. split; [lia|].
      split; [|done]. apply ex_text; [|done]. unfold is_pad in Ht. by apply Z.eqb_neq in Ht.
Qed.

Lemma expands_text prompt out ts done : expands prompt out ts done →
  List.filter (λ t, negb (is_pad t)) ts = List.filter (λ t, negb (is_pad t)) prompt.
Proof.
  induction 1 as [|t p out ts is_ Ht _ IH|i p out ts is_ _ _ IH]; [done| |].
  - cbn [List.filter]. by rewrite IH.
  - rewrite List.filter_app, IH. cbn [List.filter]. change (is_pad DS4_QWEN_IMAGE_PAD_TOKEN_ID) with true. cbn [negb].
    induction (Z.to_nat (token_count (img_info i))) as [|n IHn]; [done|exact IHn].
Qed.

Lemma zdrop_cons {A} (x : A) l n : 0 < n → zdrop n (x :: l) = zdrop (n - 1) l.
Proof. intros Hn. unfold zdrop. by replace (Z.to_nat n) with (S (Z.to_nat (n - 1))) by lia. Qed.

Lemma expands_places prompt out ts done : expands prompt out ts done → Forall sized done →
  Forall (λ i, out <= token_offset i ∧
    ztake (token_count (img_info i)) (zdrop (token_offset i - out) ts) =
    replicate (Z.to_nat (token_count (img_info i))) DS4_QWEN_IMAGE_PAD_TOKEN_ID) done.
Proof.
  induction 1 as [|t p out ts is_ Ht _ IH|i p out ts is_ Ho _ IH]; [constructor| |].
  - intros Hs. eapply Forall_impl; [by apply IH|]. intros i [Hi E]. split; [lia|].
    rewrite zdrop_cons by lia. by replace (token_offset i - out - 1) with (token_offset i - (out + 1)) by lia.
  - intros [Hi Hs]%Forall_cons. unfold sized in Hi.
    set (r := replicate _ _). assert (blen r = token_count (img_info i)) as Hr
      by (unfold r, blen; rewrite length_replicate; lia).
    constructor.
    + split; [lia|]. rewrite Ho, Z.sub_diag, zdrop_0. fold r. rewrite <- Hr. apply ztake_app.
    + eapply Forall_impl; [by apply IH|]. intros j [Hj E]. split; [lia|]. rewrite <- E. f_equal.
      unfold zdrop. rewrite drop_app_ge by (unfold blen in Hr; lia). f_equal. unfold blen in Hr. lia.
Qed.

Lemma expanded_len_sum prompt images :
  blen prompt < 2 ^ 32 → Forall sized images → blen images <= CHAT_IMAGE_MAX_COUNT →
  expanded_len prompt images = blen prompt + extra images.
Proof.
  intros Hp Hs Hn. unfold expanded_len. rewrite wrap_id by (unfold fits; pose proof (blen_nonneg prompt); lia).
  assert (∀ n, 0 <= n → n + blen images * 2 ^ 32 < 2 ^ 60 →
    fold_left (λ n i, u64 (n + u32 (token_count (img_info i) - 1))) images n = n + extra images) as Hgen.
  { clear Hn. induction Hs as [|i l Hi Hl IH]; intros n H0 Hb; [simpl; lia|].
    rewrite blen_cons in Hb. pose proof (blen_nonneg l). unfold sized in Hi. cbn [fold_left extra fold_right].
    rewrite (wrap_id 32) by (unfold fits; lia). rewrite wrap_id by (unfold fits; lia).
    rewrite IH by lia. fold (extra l). lia. }
  apply Hgen; [apply blen_nonneg|]. unfold CHAT_IMAGE_MAX_COUNT in Hn. lia.
Qed.

Section expand.
Context `{ImageCodec}.
(** A picture the engine can read has at least one token. *)
Hypothesis Hprobe : ∀ d info, qwen_image_probe d = Some info → 1 <= token_count info < 2 ^ 32.

Lemma probe_all_ok images images' : probe_all images = Some images' →
  Forall sized images' ∧ map img_data images' = map img_data images ∧ length images' = length images ∧
  map (λ i, qwen_image_probe (img_data i)) images = map (λ i, Some (img_info i)) images'.
Proof using Hprobe.
  revert images'. induction images as [|i images IH]; intros images'; cbn [probe_all]; [by intros [= <-]|].
  destruct (qwen_image_probe (img_data i)) as [info|] eqn:Hi; [|done]. cbn [mbind option_bind].
  destruct (probe_all images) as [rest|]; [|done]. cbn [mbind option_bind]. intros [= <-].
  destruct (IH rest eq_refl) as (Hs & Hd & Hl & Hi'). split; [constructor; [by eapply Hprobe|done]|].
  cbn [map length]. rewrite Hd, Hl, Hi', Hi. done.
Qed.
End expand.

(** What the cache text adds leaves the pictures' data, sizes and places alone. *)
Lemma build_key_keeps `{ImageCodec} images cursor at_ key done :
  build_key images cursor at_ = inl (key, done) →
  map (λ i, (img_data i, img_info i, token_offset i)) done =
  map (λ i, (img_data i, img_info i, token_offset i)) images.
Proof.
  revert cursor at_ key done. induction images as [|i images IH]; intros cursor at_ key done.
  - cbn [build_key]. by intros [= <- <-].
  - intros (a & b & j & key1 & done1 & at1 & _ & _ & Hj & Hb & _ & _ & ->)%build_key_cons.
    cbn [map]. f_equal; [|by eapply IH]. unfold hashed_image in Hj.
    destruct (pixel_hash i =? 0); [|by injection Hj as <-].
    destruct (qwen_image_pixel_hash (img_data i)); [|done]. by injection Hj as <-.
Qed.

Lemma build_no_overrun `{ImageCodec} text images : qwen_image_cache_text_build text images ≠ inr OutsideBuffer.
Proof.
  unfold qwen_image_cache_text_build. destruct (_ || _); [done|]. generalize 0 as at_. revert text.
  induction images as [|i images IH]; intros text at_; cbn [build_key]; [done|].
  destruct (strstr _ _); [|done]. destruct (hashed_image i); [|done]. cbv zeta.
  destruct (build_key images _ _) as [[? ?]|e] eqn:E; [done|]. intros [= ->]. by apply IH in E.
Qed.

(** Facts about a list of pictures that depend on data, sizes and places only. *)
Lemma same_places (P : list Z * image_info * Z → Prop) l k :
  map (λ i, (img_data i, img_info i, token_offset i)) l = map (λ i, (img_data i, img_info i, token_offset i)) k →
  Forall (λ i, P (img_data i, img_info i, token_offset i)) k →
  Forall (λ i, P (img_data i, img_info i, token_offset i)) l.
Proof.
  revert k. induction l as [|i l IH]; intros [|j k] E Hk; try done. cbn [map] in E. injection E as E1 E2 E3 E4.
  apply Forall_cons in Hk as [Hj Hk]. constructor; [congruence|]. by eapply IH.
Qed.

(** Expansion looks at data, sizes and places only. *)
Lemma expands_same prompt out ts is_ is' : expands prompt out ts is_ →
  map (λ i, (img_data i, img_info i, token_offset i)) is' = map (λ i, (img_data i, img_info i, token_offset i)) is_ →
  expands prompt out ts is'.
Proof.
  intros He. revert is'. induction He as [out|t p out ts is_ Ht _ IH|i p out ts is_ Ho _ IH]; intros is' E.
  - apply map_eq_nil in E as ->. constructor.
  - constructor; [done|]. by apply IH.
  - destruct is' as [|j is']; [done|]. cbn [map] in E. injection E as _ E1 E2 E. rewrite <- E1.
    constructor; [congruence|]. rewrite E1. by apply IH.
Qed.

(** C25: Expanding a prompt with pictures succeeds only when it has one
    placeholder token for each picture; then the first placeholder is replaced by
    the run of the first picture, the second by that of the second and so on
    ([expands]): each run is the placeholder token repeated as often as the engine's
    probe says the picture has tokens, each picture knows where its run starts, all
    other tokens are copied in their order and the pictures and their data keep
    their order.  The length, counted in 64 bits from 32-bit differences, is exact and
    at most INT_MAX, and the loop never writes outside the buffer of that length,
    also when it gives up on a prompt with too few or too many placeholders.  (For an
    engine whose probe never reports a picture without tokens, a prompt below 2^32
    tokens and pictures within the request's limits.) *)
Theorem image_tokens_expand `{ImageCodec} prompt images text :
  (∀ d info, qwen_image_probe d = Some info → 1 <= token_count info < 2 ^ 32) →
  blen prompt < 2 ^ 32 → images_ok images → img_v images ≠ [] →
  match request_expand_qwen_image_tokens prompt (img_v images) text with
  | inl (tokens, images', key) =>
      pads prompt = length (img_v images) ∧ expands prompt 0 tokens images' ∧
      List.filter (λ t, negb (is_pad t)) tokens = List.filter (λ t, negb (is_pad t)) prompt ∧
      map img_data images' = map img_data (img_v images) ∧
      map (λ i, qwen_image_probe (img_data i)) (img_v images) = map (λ i, Some (img_info i)) images' ∧
      blen tokens = blen prompt + extra images' ∧ blen tokens <= INT_MAX ∧
      Forall (λ i, 0 <= token_offset i ∧
        ztake (token_count (img_info i)) (zdrop (token_offset i) tokens) =
        replicate (Z.to_nat (token_count (img_info i))) DS4_QWEN_IMAGE_PAD_TOKEN_ID) images'
  | inr e => e ≠ OutsideBuffer
  end.
Proof.
  intros Hprobe Hp Hok Hne. pose proof (im_count _ Hok) as Hc.
  unfold request_expand_qwen_image_tokens. destruct (img_v images) as [|i0 is0] eqn:Eis; [done|].
  rewrite <- Eis in *. destruct (probe_all (img_v images)) as [probed|] eqn:Hpb; [|done].
  destruct (probe_all_ok Hprobe _ _ Hpb) as (Hs & Hd & Hl & Hinf).
  rewrite expanded_len_sum by (done || unfold blen in *; lia). cbv zeta.
  destruct (Z.ltb_spec INT_MAX (blen prompt + extra probed)); [done|].
  pose proof (expand_loop_ok prompt probed 0 (blen prompt + extra probed) Hs ltac:(lia) ltac:(lia) ltac:(lia)) as He.
  destruct (expand_loop prompt probed 0 _) as [[ts dn]|e]; [|destruct He as [_ [-> | ->]]; done].
  destruct He as (Hpads & Hlen & Hex & Hdd & Hdi). destruct (negb _); [done|].
  destruct (qwen_image_cache_text_build text dn) as [[k im]|e] eqn:Hb.
  2: { intros ->. by apply build_no_overrun in Hb. }
  unfold qwen_image_cache_text_build in Hb. destruct (_ || _); [done|].
  pose proof (build_key_keeps _ _ _ _ _ Hb) as Hkeep.
  assert (map img_data im = map img_data dn ∧ map img_info im = map img_info dn) as [Hid Hii].
  { split; [apply (f_equal (map (λ x, fst (fst x)))) in Hkeep|apply (f_equal (map (λ x, snd (fst x)))) in Hkeep];
      by rewrite !map_map in Hkeep. }
  assert (∀ l k, map img_info l = map img_info k → extra l = extra k) as Hext.
  { clear. intros l. induction l as [|i l IH]; intros [|j k] E; try done. cbn [map] in E. injection E as E1 E2.
    cbn [extra fold_right]. rewrite E1. fold (extra l) (extra k). by rewrite (IH k E2). }
  assert (Forall sized dn) as Hsd.
  { rewrite List.Forall_forall in Hs |- *. intros i Hi. apply (List.in_map img_info) in Hi. rewrite Hdi in Hi.
    apply List.in_map_iff in Hi as (j & E & Hj). unfold sized. rewrite <- E. by apply Hs. }
  split; [lia|]. split; [by apply (expands_same _ _ _ dn)|]. split; [by eapply expands_text|]. split; [congruence|]. split.
  { rewrite Hinf, <- !(map_map img_info Some). congruence. }
  split; [by rewrite (Hext im probed) by congruence|]. split; [lia|].
  pose proof (expands_places _ _ _ _ Hex Hsd) as Hpl.
  apply (same_places (λ x, 0 <= snd x ∧ ztake (token_count (snd (fst x))) (zdrop (snd x) ts) =
    replicate (Z.to_nat (token_count (snd (fst x)))) DS4_QWEN_IMAGE_PAD_TOKEN_ID) im dn Hkeep).
  eapply Forall_impl; [exact Hpl|]. intros i. simpl. by rewrite Z.sub_0_r.
Qed.

Definition two_cells : ImageCodec := {|
  qwen_image_probe d := Some (Info 64 32 64 32 4 2 2);
  qwen_image_pixel_hash d := Some 7 |}.

Example image_tokens_expand_witness :
  ∃ tokens images' key, @request_expand_qwen_image_tokens two_cells [5; 248056; 6]
      [new_image CHAT_IMAGE_JPEG [0xff; 0xd8; 0xff]] (bs "a<|image_pad|>b") = inl (tokens, images', key) ∧
    expands [5; 248056; 6] 0 tokens images' ∧ blen tokens = 3 + extra images'.
Proof.
  assert (Hd : ∀ d info, @qwen_image_probe two_cells d = Some info → 1 <= token_count info < 2 ^ 32)
    by (intros d info [= <-]; split; [discriminate|reflexivity]).
  assert (Hi : images_ok (added no_images CHAT_IMAGE_JPEG [0xff; 0xd8; 0xff]))
    by (apply added_ok; [exact no_images_ok|]; repeat split; try discriminate; repeat constructor; done).
  pose proof (@image_tokens_expand two_cells [5; 248056; 6] (added no_images CHAT_IMAGE_JPEG [0xff; 0xd8; 0xff])
    (bs "a<|image_pad|>b") Hd eq_refl Hi ltac:(discriminate)) as H.
  change (img_v (added no_images CHAT_IMAGE_JPEG [0xff; 0xd8; 0xff])) with [new_image CHAT_IMAGE_JPEG [0xff; 0xd8; 0xff]] in H.
  destruct (@request_expand_qwen_image_tokens two_cells [5; 248056; 6]
      [new_image CHAT_IMAGE_JPEG [0xff; 0xd8; 0xff]] (bs "a<|image_pad|>b")) as [[[tokens images'] key]|e] eqn:E;
    [|exfalso; vm_compute in E; discriminate].
  exists tokens, images', key. destruct H as (_ & H1 & _ & _ & _ & H2 & _). split; [reflexivity|]. split; [exact H1|exact H2].
Defined.
