(* ===== verification/Http.v ===== *)
(** * The HTTP reader (ds4_server.c)

    A request is read from a socket that hands out bytes in pieces of any size: the
    header up to its blank line, then a body whose length the header gives, or one in
    chunks. *)

From S2P Require Import Prelude Bytes Text Json.

(** ** The socket

    The pieces in which the bytes arrive; an empty one is the end of the connection,
    and so is the end of the list. *)
Definition net := list (list Z).

(** recv with room for [size] bytes; [None] is the end or an error.  A call that a
    signal interrupts is repeated and has no effect. *)
Definition recv (size : Z) (fd : net) : option (list Z * net) :=
  match fd with
  | [] | [] :: _ => None
  | p :: fd => if blen p <=? size then Some (p, fd) else Some (ztake size p, zdrop size p :: fd)
  end.

(** Enough for as many calls as there can be. *)
Definition calls (fd : net) : nat := S (length (concat fd)).

Record http_request := Request { method : list Z; path : list Z; body : list Z; accept_json : bool }.

(** ** The end of the header *)

(** The position behind the first occurrence. *)
Definition behind (p w : list Z) : option Z := (fun i => i + blen w) <$> strstr p w.

Definition header_end (p : list Z) : option Z :=
  match behind p [13; 10; 13; 10] with Some e => Some e | None => behind p [10; 10] end.

(** ** Header lines *)

(** strncasecmp(p, w, strlen(w)) == 0 *)
Fixpoint ci_prefix (p w : list Z) {struct w} : bool :=
  match w, p with
  | [], _ => true
  | a :: w, b :: p => (Name.tolower a =? Name.tolower b) && ci_prefix p w
  | _ :: _, [] => false
  end.

(** The bytes before the newline, among the first [n]. *)
Fixpoint line_len (b : list Z) (n : nat) : Z :=
  match n, b with
  | S n, c :: b => if c =? 10 then 0 else 1 + line_len b n
  | _, _ => 0
  end.

(** The lines of the first [n] bytes: each as what the buffer holds from its start on
    and its length without a carriage return. *)
Fixpoint header_lines (fuel : nat) (b : list Z) (n : Z) : list (list Z * Z) :=
  match fuel with
  | O => []
  | S fuel =>
      if n <=? 0 then []
      else
        let raw := line_len b (Z.to_nat n) in
        let len := if negb (raw =? 0) && (znth 0 b (raw - 1) =? 13) then raw - 1 else raw in
        (b, len) :: header_lines fuel (zdrop (raw + 1) b) (n - raw - 1)
  end.

Definition lines_of (b : list Z) (n : Z) : list (list Z * Z) := header_lines (Z.to_nat n) b n.

(** A line that begins with a header's name and colon. *)
Definition names (w : list Z) (l : list Z * Z) : bool := (blen w <=? snd l) && ci_prefix (fst l) w.

(** A word anywhere behind the name; [k] positions are left to try. *)
Fixpoint word_within (k : nat) (p w : list Z) : bool :=
  match k with
  | O => false
  | S k => ci_prefix p w || word_within k (zdrop 1 p) w
  end.

Definition value_has (w word : list Z) (l : list Z * Z) : bool :=
  names w l && word_within (Z.to_nat (snd l - blen w - blen word + 1)) (zdrop (blen w) (fst l)) word.

Definition header_accepts_json (b : list Z) (n : Z) : bool :=
  existsb (value_has (bs "Accept:") (bs "application/json")) (lines_of b n).

Definition header_chunked (b : list Z) (n : Z) : bool :=
  existsb (value_has (bs "Transfer-Encoding:") (bs "chunked")) (lines_of b n).

(** strtol with base 10: white space, a sign, digits, saturating at the limits of
    long *)
Definition LONG_MAX : Z := 2 ^ 63 - 1.
Definition strtol10 (p : list Z) : Z :=
  let p := snd (span isspace p) in
  let '(neg, p) := match p with
                   | 45 :: p => (true, p) | 43 :: p => (false, p) | _ => (false, p) end in
  let v := digits_value 10 (fst (span isdigit p)) in
  if neg then Z.max (- v) (- LONG_MAX - 1) else Z.min v LONG_MAX.

(** The loop that skips spaces within the line. *)
Fixpoint skip_spaces (k : nat) (p : list Z) : list Z :=
  match k, p with
  | S k, c :: t => if isspace c then skip_spaces k t else p
  | _, _ => p
  end.

Definition content_length (b : list Z) (n : Z) : Z :=
  match List.find (names (bs "Content-Length:")) (lines_of b n) with
  | None => 0
  | Some (p, len) => strtol10 (skip_spaces (Z.to_nat (len - 15)) (zdrop 15 p))
  end.

(** ** Chunked bodies *)

(** chunk_line_end: the buffer, the connection and the position behind the newline *)
Fixpoint chunk_line_end (fuel : nat) (fd : net) (b : list Z) (pos max_line : Z) : option (list Z * net * Z) :=
  match strchr (zdrop pos b) 10 with
  | Some i => Some (b, fd, pos + i + 1)
  | None =>
      if max_line <? blen b - pos then None
      else match fuel with
      | O => None
      | S fuel => match recv 8192 fd with
                  | None => None
                  | Some (p, fd) => chunk_line_end fuel fd (b ++ p) pos max_line
                  end
      end
  end.

(** The loop that waits for [need] bytes. *)
Fixpoint recv_until (fuel : nat) (size : Z) (fd : net) (b : list Z) (need : Z) : option (list Z * net) :=
  if need <=? blen b then Some (b, fd)
  else match fuel with
  | O => None
  | S fuel => match recv size fd with
              | None => None
              | Some (p, fd) => recv_until fuel size fd (b ++ p) need
              end
  end.

(** strtoul with base 16 on a text that begins with a digit: the value, saturating, and
    what follows; a prefix 0x counts when a digit follows it. *)
Definition strtoul16 (p : list Z) : Z * list Z :=
  let p := match p with
           | 48 :: x :: d :: r => if (Name.tolower x =? 120) && isxdigit d then d :: r else p
           | _ => p
           end in
  let '(ds, r) := span isxdigit p in
  (Z.min (digits_value 16 ds) (2 ^ 64 - 1), r).

(** The size line of a chunk. *)
Definition chunk_size (line : list Z) : option Z :=
  match line with
  | c :: _ =>
      if negb (isxdigit c) then None
      else
        let '(sz, r) := strtoul16 line in
        match snd (span (fun c => (c =? 32) || (c =? 9)) r) with
        | e :: _ => if (e =? 59) || (e =? 13) || (e =? 10) then Some sz else None
        | [] => None
        end
  | [] => None
  end.

(** An empty line from [pos] to [le]. *)
Definition blank_line (b : list Z) (pos le : Z) : bool :=
  (le - pos =? 1) || ((le - pos =? 2) && (znth 0 b pos =? 13)).

(** The trailer lines. *)
Fixpoint skip_trailers (fuel : nat) (fd : net) (b : list Z) (pos : Z) : option net :=
  match fuel with
  | O => None
  | S fuel =>
      match chunk_line_end (calls fd) fd b pos 8192 with
      | None => None
      | Some (b, fd, le) => if blank_line b pos le then Some fd else skip_trailers fuel fd b le
      end
  end.

(** read_chunked_body: the decoded body; [b] is the buffer, compacted at [pos] *)
Fixpoint read_chunked_body (fuel : nat) (fd : net) (b : list Z) (pos : Z) (done : list Z) (max_body : Z)
    : option (list Z) :=
  match fuel with
  | O => None
  | S fuel =>
      let b := zdrop pos b in
      match chunk_line_end (calls fd) fd b 0 8192 with
      | None => None
      | Some (b, fd, le) =>
          match chunk_size b with
          | None => None
          | Some sz =>
              if sz =? 0 then
                _ ← skip_trailers (S (length (b ++ concat fd))) fd b le; Some done
              else if (max_body <? sz) || (max_body <? blen done + sz) then None
              else match recv_until (calls fd) 8192 fd b (le + sz) with
              | None => None
              | Some (b, fd) =>
                  let done := done ++ ztake sz (zdrop le b) in
                  let pos := le + sz in
                  match chunk_line_end (calls fd) fd b pos 2 with
                  | None => None
                  | Some (b, fd, crlf) =>
                      if negb (blank_line b pos crlf) then None
                      else read_chunked_body fuel fd b crlf done max_body
                  end
              end
          end
      end
  end.

(** ** A whole request *)

Definition max_header : Z := 64 * 1024.
Definition max_body : Z := 64 * 1024 * 1024.

(** The loop that reads the header; it looks for the end after every piece. *)
Fixpoint read_header (fuel : nat) (fd : net) (b : list Z) : option (list Z * net * Z) :=
  if max_header <=? blen b then None
  else match fuel with
  | O => None
  | S fuel =>
      match recv 4096 fd with
      | None => None
      | Some (p, fd) =>
          match header_end (b ++ p) with
          | Some hend => Some (b ++ p, fd, hend)
          | None => read_header fuel fd (b ++ p)
          end
      end
  end.

(** sscanf(line, "%7s %255s"): two words, each cut at its width *)
Definition scan_word (width : Z) (p : list Z) : option (list Z * list Z) :=
  let p := snd (span isspace p) in
  let w := ztake width (fst (span (fun c => negb (isspace c)) p)) in
  if blen w =? 0 then None else Some (w, zdrop (blen w) p).

Definition request_line (b : list Z) : option (list Z * list Z) :=
  let line := c_str (ztake 511 (fst (span (fun c => negb (c =? 10)) b))) in
  '(method, r) ← scan_word 7 line;
  '(path, _) ← scan_word 255 r;
  Some (method, fst (span (fun c => negb (c =? 63)) path)).

(** read_http_request; [chunked] is http_chunked_enabled *)
Definition read_http_request (chunked : bool) (fd : net) : option http_request :=
  match read_header (calls fd) fd [] with
  | None => None
  | Some (b, fd, hend) =>
      match request_line b with
      | None => None
      | Some (method, path) =>
          let clen := content_length b hend in
          if (clen <? 0) || (max_body <? clen) then None
          else
            let accept := header_accepts_json b hend in
            if header_chunked b hend && chunked then
              body ← read_chunked_body (S (length (b ++ concat fd))) fd b hend [] max_body;
              Some (Request method path body accept)
            else
              match recv_until (calls fd) 8192 fd b (hend + clen) with
              | None => None
              | Some (b, fd) => Some (Request method path (ztake clen (zdrop hend b)) accept)
              end
      end
  end.

Example reads_a_request :
  read_http_request true [bs "POST /v1/messages?x HTTP/1.1" ++ [13; 10] ++ bs "content-le";
                          bs "ngth: 5" ++ [13; 10; 13; 10] ++ bs "he"; bs "llo!"] =
  Some (Request (bs "POST") (bs "/v1/messages") (bs "hello") false).
Proof. vm_compute. reflexivity. Qed.

Example reads_chunks :
  read_http_request true [bs "POST / HTTP/1.1" ++ [13; 10] ++ bs "Transfer-Encoding: chunked" ++ [13; 10; 13; 10] ++
                          bs "5;x" ++ [13; 10] ++ bs "he"; bs "llo" ++ [13]; [10] ++ bs "A" ++ [13; 10] ++ bs "0123456789" ++
                          [13; 10] ++ bs "0" ++ [13; 10; 13; 10]] =
  Some (Request (bs "POST") (bs "/") (bs "hello0123456789") false).
Proof. vm_compute. reflexivity. Qed.
