(* ===== verification/HttpSpec.v ===== *)
(** * Reading from a connection (ds4_server.c)

    Every loop of the reader depends on the bytes that arrive and not on the pieces in
    which they arrive. *)

From S2P Require Import Prelude Bytes Json Text Http.

(** No piece is empty: the connection stays open until its bytes are read. *)
Definition live (fd : net) : Prop := Forall (λ p, p ≠ []) fd.

(** Everything that is read or still to come. *)
Definition stream (b : list Z) (fd : net) : list Z := b ++ concat fd.

Lemma recv_live size fd : 0 < size → live fd → concat fd ≠ [] →
  ∃ p fd', recv size fd = Some (p, fd') ∧ p ≠ [] ∧ live fd' ∧ concat fd = p ++ concat fd'.
Proof.
  intros Hs Hl Hc. destruct Hl as [|p fd Hp Hl]; [done|]. unfold recv. destruct p as [|c p]; [done|].
  destruct (Z.leb_spec (blen (c :: p)) size); [by exists (c :: p), fd|].
  exists (ztake size (c :: p)), (zdrop size (c :: p) :: fd).
  split; [done|]. split.
  { intros E0. apply (f_equal blen) in E0. rewrite blen_ztake in E0 by lia. unfold blen in E0. simpl in E0. lia. }
  split.
  { constructor; [|done]. intros E0. apply (f_equal blen) in E0. rewrite blen_zdrop in E0 by lia.
    unfold blen in *. simpl in *. lia. }
  cbn [concat]. by rewrite app_assoc, ztake_zdrop.
Qed.

Lemma calls_pos fd : (length (concat fd) < calls fd)%nat.
Proof. unfold calls. lia. Qed.

Lemma recv_fewer size fd p fd' (Hs : 0 < size) (Hl : live fd) :
  p ≠ [] → concat fd = p ++ concat fd' → (length (concat fd') < length (concat fd))%nat.
Proof. intros Hp ->. rewrite length_app. destruct p; [done|]. simpl. lia. Qed.

(** The state after a read: the same stream, at least [n] bytes of it read. *)
Definition reads (b : list Z) (fd : net) (n : Z) (b' : list Z) (fd' : net) : Prop :=
  stream b' fd' = stream b fd ∧ live fd' ∧ n <= blen b' ∧ ∃ x, b' = b ++ x.

Lemma reads_step b fd p fd' n b2 fd2 :
  concat fd = p ++ concat fd' → reads (b ++ p) fd' n b2 fd2 → reads b fd n b2 fd2.
Proof.
  intros Hc (Hst & Hl & Hn & x & Hx). unfold reads, stream in *.
  split; [by rewrite Hst, Hc, app_assoc|]. do 2 (split; [done|]). exists (p ++ x). by rewrite app_assoc.
Qed.

Lemma stream_prefix b fd s : stream b fd = s → blen b < blen s → concat fd ≠ [].
Proof. intros <- Hb E. unfold stream in Hb. rewrite E, app_nil_r in Hb. lia. Qed.

Lemma recv_until_reads fuel size fd b need :
  0 < size → live fd → (length (concat fd) < fuel)%nat → need <= blen (stream b fd) →
  ∃ b' fd', recv_until fuel size fd b need = Some (b', fd') ∧ reads b fd need b' fd'.
Proof.
  intros Hs. revert fd b. induction fuel as [|fuel IH]; intros fd b Hl Hf Hn; [lia|]. cbn [recv_until].
  destruct (Z.leb_spec need (blen b)) as [Hle|Hlt].
  - exists b, fd. split; [done|]. split; [done|]. split; [done|]. split; [lia|]. exists []. by rewrite app_nil_r.
  - destruct (recv_live size fd Hs Hl) as (p & fd' & -> & Hp & Hl' & Hc); [apply (stream_prefix b fd (stream b fd)); [done|lia]|].
    destruct (IH fd' (b ++ p) Hl') as (b2 & fd2 & -> & Hr).
    + pose proof (recv_fewer size fd p fd' Hs Hl Hp Hc). lia.
    + unfold stream in *. rewrite <- app_assoc, <- Hc. done.
    + exists b2, fd2. split; [done|]. by eapply reads_step.
Qed.

(** *** Lines *)

Lemma strchr_newline pre line more :
  10 ∉ line → strchr (zdrop (blen pre) (pre ++ line ++ 10 :: more)) 10 = Some (blen line).
Proof.
  intros Hn. rewrite zdrop_app. by apply strchr_app.
Qed.

Lemma no_newline_yet pre line x :
  10 ∉ line → (∃ y, line = x ++ y) → strchr (zdrop (blen pre) (pre ++ x)) 10 = None.
Proof.
  intros Hn [y ->]. rewrite zdrop_app. apply strstr_none_iff. intros i (a & b & -> & _). apply Hn. set_solver.
Qed.

(** A list that is a prefix of two lists one of which is longer. *)
Lemma prefix_cases (b s1 s2 k : list Z) :
  b ++ k = s1 ++ s2 → (∃ x, b = s1 ++ x ∧ s2 = x ++ k) ∨ (∃ y, s1 = b ++ y ∧ k = y ++ s2 ∧ y ≠ []).
Proof.
  revert s1. induction b as [|c b IH]; intros s1 E.
  - destruct s1 as [|d s1]; [left; exists []; by split|right]. exists (d :: s1). done.
  - destruct s1 as [|d s1]; [left; exists (c :: b); by split|]. cbn [app] in E. injection E as -> E.
    destruct (IH s1 E) as [(x & -> & ->)|(y & -> & -> & Hy)]; [left; by exists x|right; by exists y].
Qed.

Lemma line_end_reads fuel fd b pre line more max_line :
  live fd → (length (concat fd) < fuel)%nat → (∃ x, b = pre ++ x) →
  stream b fd = pre ++ line ++ 10 :: more → 10 ∉ line → blen line <= max_line →
  ∃ b' fd', chunk_line_end fuel fd b (blen pre) max_line = Some (b', fd', blen pre + blen line + 1) ∧
    reads b fd (blen pre + blen line + 1) b' fd'.
Proof.
  intros Hl Hf Hpre Hst Hn Hm. revert fd b Hl Hf Hpre Hst.
  induction fuel as [|fuel IH]; intros fd b Hl Hf Hpre Hst; [lia|]. cbn [chunk_line_end].
  assert (stream b fd = (pre ++ line ++ [10]) ++ more) as Hst2 by (rewrite Hst, <- !app_assoc; done).
  destruct (prefix_cases b (pre ++ line ++ [10]) more (concat fd)) as [(x & Hb & Hmore)|(y & Hb & Hc & Hy)]; [done| |].
  - assert (b = pre ++ line ++ 10 :: x) as -> by (rewrite Hb, <- !app_assoc; done).
    rewrite strchr_newline by done. eexists _, fd. split; [done|]. split; [done|]. split; [done|].
    split; [rewrite !blen_app, blen_cons; pose proof (blen_nonneg x); lia|].
    exists []. by rewrite app_nil_r.
  - destruct Hpre as [x ->]. rewrite <- !app_assoc in Hb. apply app_inv_head in Hb.
    destruct y as [|c y _] using rev_ind; [done|]. rewrite app_assoc in Hb. apply app_inj_tail in Hb as [Hb <-].
    rewrite (no_newline_yet pre line x) by (done || by exists y).
    rewrite (proj2 (Z.ltb_ge _ _)).
    2: { rewrite blen_app. apply (f_equal blen) in Hb. rewrite blen_app in Hb. pose proof (blen_nonneg y). lia. }
    destruct (recv_live 8192 fd ltac:(lia) Hl) as (p & fd' & -> & Hp & Hl' & Hcat).
    { rewrite Hc. by destruct y. }
    destruct (IH fd' ((pre ++ x) ++ p) Hl') as (b2 & fd2 & -> & Hr).
    + pose proof (recv_fewer 8192 fd p fd' ltac:(lia) Hl Hp Hcat). lia.
    + exists (x ++ p). by rewrite app_assoc.
    + rewrite <- Hst. unfold stream. by rewrite <- (app_assoc _ p), <- Hcat.
    + exists b2, fd2. split; [done|]. by eapply reads_step.
Qed.

(** ** The header *)

(** A header ends in an empty line with carriage returns, and has no empty line
    before. *)
Record header_ok (head : list Z) : Prop := {
  hd_ends : ∃ h, head = h ++ [13; 10; 13; 10];
  hd_first : ∀ i, occurs head [13; 10; 13; 10] i → i + 4 = blen head;
  hd_plain : ∀ i, ¬ occurs head [10; 10] i;
  hd_size : blen head <= max_header }.

Section header.
Context (head : list Z) (Hok : header_ok head).

Lemma header_found x : header_end (head ++ x) = Some (blen head).
Proof using Hok.
  destruct (hd_ends _ Hok) as [h Hh]. unfold header_end, behind.
  assert (strstr head [13; 10; 13; 10] = Some (blen h)) as Hf.
  { apply strstr_first. split; [exists h, []; rewrite app_nil_r; by split|].
    intros k Hk. apply (hd_first _ Hok) in Hk. rewrite Hh, blen_app in Hk. change (blen [13; 10; 13; 10]) with 4 in Hk. lia. }
  rewrite (strstr_app_l _ x _ _ Hf). cbn. f_equal. rewrite Hh, blen_app. done.
Qed.

Lemma header_not_yet p y : head = p ++ y → y ≠ [] → header_end p = None.
Proof using Hok.
  intros E Hy. assert (0 < blen y) by (destruct y; [done|rewrite blen_cons; pose proof (blen_nonneg y); lia]).
  unfold header_end, behind.
  assert (strstr p [13; 10; 13; 10] = None) as ->.
  { apply strstr_none_iff. intros i Hi. pose proof (occurs_bounds _ _ _ Hi) as [_ Hb].
    apply (occurs_app_l _ y) in Hi. rewrite <- E in Hi. apply (hd_first _ Hok) in Hi.
    change (blen [13; 10; 13; 10]) with 4 in Hb. apply (f_equal blen) in E. rewrite blen_app in E. lia. }
  assert (strstr p [10; 10] = None) as ->; [|done].
  apply strstr_none_iff. intros i Hi. apply (occurs_app_l _ y) in Hi. rewrite <- E in Hi.
  by apply (hd_plain _ Hok) in Hi.
Qed.

Lemma read_header_reads fuel fd b tail :
  live fd → (length (concat fd) < fuel)%nat → stream b fd = head ++ tail → (∃ y, head = b ++ y ∧ y ≠ []) →
  ∃ b' fd', read_header fuel fd b = Some (b', fd', blen head) ∧ reads b fd (blen head) b' fd'.
Proof using Hok.
  revert fd b. induction fuel as [|fuel IH]; intros fd b Hl Hf Hst (y & Hy & Hne); [lia|]. cbn [read_header].
  pose proof (hd_size _ Hok) as Hsize.
  assert (0 < blen y) by (destruct y; [done|rewrite blen_cons; pose proof (blen_nonneg y); lia]).
  assert (blen head = blen b + blen y) as Hbl by (rewrite Hy, blen_app; done).
  rewrite (proj2 (Z.leb_gt _ _)) by lia.
  destruct (recv_live 4096 fd ltac:(lia) Hl) as (p & fd' & -> & Hp & Hl' & Hc).
  { apply (stream_prefix b fd (head ++ tail)); [done|]. rewrite blen_app. pose proof (blen_nonneg tail). lia. }
  assert (stream (b ++ p) fd' = head ++ tail) as Hst2.
  { rewrite <- Hst. unfold stream. by rewrite <- app_assoc, <- Hc. }
  destruct (prefix_cases (b ++ p) head tail (concat fd')) as [(x & Hb & Hx)|(z & Hb & Hz & Hzn)]; [done| |].
  - rewrite Hb, header_found. exists (head ++ x), fd'. split; [done|]. rewrite <- Hb.
    eapply reads_step; [done|]. split; [done|]. split; [done|].
    split; [rewrite Hb, blen_app; pose proof (blen_nonneg x); lia|]. exists []. by rewrite app_nil_r.
  - rewrite (header_not_yet (b ++ p) z) by done.
    destruct (IH fd' (b ++ p) Hl') as (b2 & fd2 & -> & Hr).
    + pose proof (recv_fewer 4096 fd p fd' ltac:(lia) Hl Hp Hc). lia.
    + done.
    + by exists z.
    + exists b2, fd2. split; [done|]. by eapply reads_step.
Qed.
End header.

(** ** Lines *)

Lemma ci_prefix_app l k w : blen w <= blen l → ci_prefix (l ++ k) w = ci_prefix l w.
Proof.
  revert l. induction w as [|a w IH]; intros [|c l]; try done.
  rewrite !blen_cons. intros Hl. cbn [app ci_prefix]. by rewrite IH by lia.
Qed.

Lemma ci_prefix_length l w : ci_prefix l w = true → blen w <= blen l.
Proof.
  revert l. induction w as [|a w IH]; intros [|c l]; try (unfold blen; cbn [length]; lia); [done|].
  cbn [ci_prefix]. intros [_ Hp]%andb_true_iff. rewrite !blen_cons. apply IH in Hp. lia.
Qed.

Definition lower : list Z → list Z := map Name.tolower.

Lemma ci_prefix_spec l w : ci_prefix l w = true ↔ lower w = ztake (blen w) (lower l).
Proof.
  revert l. induction w as [|a w IH]; intros l; [done|].
  assert (blen (a :: w) = 1 + blen w) as Hb by apply blen_cons. pose proof (blen_nonneg w).
  assert (∀ x (m : list Z), ztake (blen (a :: w)) (x :: m) = x :: ztake (blen w) m) as Ht.
  { intros x m. rewrite Hb. unfold ztake. by replace (Z.to_nat (1 + blen w)) with (S (Z.to_nat (blen w))) by lia. }
  destruct l as [|c l].
  { split; [done|]. change (lower []) with (@nil Z). unfold ztake. by rewrite take_nil. }
  cbn [ci_prefix lower map]. rewrite Ht, andb_true_iff, IH, Z.eqb_eq. split; [by intros [-> ->]|by intros [= -> ->]].
Qed.

(** The lines as they are in the buffer, with [tail] behind the header. *)
Fixpoint annotate (ls : list (list Z)) (tail : list Z) : list (list Z * Z) :=
  match ls with
  | [] => []
  | l :: ls => (l ++ [13; 10] ++ concat (map (λ l, l ++ [13; 10]) ls) ++ tail, blen l) :: annotate ls tail
  end.

Definition crlf_lines (ls : list (list Z)) : list Z := concat (map (λ l, l ++ [13; 10]) ls).

Lemma line_len_spec l r n : 10 ∉ l → (length l < n)%nat → line_len (l ++ 10 :: r) n = blen l.
Proof.
  revert n. induction l as [|c l IH]; intros n Hl Hn; (destruct n as [|n]; [simpl in Hn; lia|]); cbn [app line_len].
  - done.
  - rewrite not_elem_of_cons in Hl. destruct Hl as [Hc Hl]. rewrite (proj2 (Z.eqb_neq _ _)) by done.
    rewrite IH by (done || (simpl in Hn; lia)). by rewrite blen_cons.
Qed.

Lemma header_lines_spec fuel ls tail :
  Forall (λ l, 10 ∉ l) ls → (length (crlf_lines ls) <= fuel)%nat →
  header_lines fuel (crlf_lines ls ++ tail) (blen (crlf_lines ls)) = annotate ls tail.
Proof.
  revert fuel. induction ls as [|l ls IH]; intros fuel Hl Hf.
  - destruct fuel; [done|]. cbn [header_lines annotate crlf_lines map concat]. done.
  - apply Forall_cons in Hl as [Hc Hl]. unfold crlf_lines in *. cbn [map concat] in *.
    rewrite !length_app in Hf. simpl in Hf. destruct fuel as [|fuel]; [lia|]. cbn [header_lines annotate].
    pose proof (blen_nonneg l). set (rest := concat (map (λ l, l ++ [13; 10]) ls)) in *. pose proof (blen_nonneg rest).
    assert (blen ((l ++ [13; 10]) ++ rest) = blen l + 2 + blen rest) as Hb by (rewrite !blen_app; done).
    rewrite Hb, (proj2 (Z.leb_gt _ _)) by lia.
    assert (((l ++ [13; 10]) ++ rest) ++ tail = (l ++ [13]) ++ 10 :: rest ++ tail) as Eb by (rewrite <- !app_assoc; done).
    rewrite Eb, line_len_spec.
    2: { intros [?|?%list_elem_of_singleton]%elem_of_app; done. }
    2: { rewrite length_app. unfold blen in *. simpl. lia. }
    rewrite blen_app. change (blen [13]) with 1. rewrite (proj2 (Z.eqb_neq _ 0)) by lia. cbn [negb andb].
    replace (blen l + 1 - 1) with (blen l) by lia.
    assert (znth 0 ((l ++ [13]) ++ 10 :: rest ++ tail) (blen l) = 13) as ->.
    { unfold znth, blen. rewrite Nat2Z.id, <- app_assoc, app_nth2, Nat.sub_diag by lia. done. }
    cbn [Z.eqb Pos.eqb]. f_equal; [by rewrite <- !app_assoc|].
    replace (zdrop (blen l + 1 + 1) ((l ++ [13]) ++ 10 :: rest ++ tail)) with (rest ++ tail).
    + replace (blen l + 2 + blen rest - (blen l + 1) - 1) with (blen rest) by lia.
      apply IH; [done|]. unfold rest in *. lia.
    + assert ((l ++ [13]) ++ 10 :: rest ++ tail = (l ++ [13; 10]) ++ rest ++ tail) as -> by (rewrite <- !app_assoc; done).
      replace (blen l + 1 + 1) with (blen (l ++ [13; 10])) by (rewrite blen_app; change (blen [13; 10]) with 2; lia).
      by rewrite zdrop_app.
Qed.

(** *** Tests on a line *)

Definition has_word (v word : list Z) : bool := word_within (Z.to_nat (blen v - blen word + 1)) v word.

Lemma names_line w l k : names w (l ++ k, blen l) = ci_prefix l w.
Proof.
  unfold names. cbn [fst snd]. destruct (Z.leb_spec (blen w) (blen l)).
  - by rewrite ci_prefix_app.
  - destruct (ci_prefix l w) eqn:E; [|done]. apply ci_prefix_length in E. lia.
Qed.

Lemma word_within_app n v r word :
  word ≠ [] → Z.of_nat n + blen word - 1 <= blen v → word_within n (v ++ r) word = word_within n v word.
Proof.
  intros Hw. assert (1 <= blen word) by (destruct word; [done|rewrite blen_cons; pose proof (blen_nonneg word); lia]).
  revert v. induction n as [|n IH]; intros v Hv; cbn [word_within]; [done|].
  rewrite ci_prefix_app by lia. f_equal.
  destruct v as [|c v]; [unfold blen in *; cbn [length] in *; lia|]. rewrite blen_cons in Hv.
  change (zdrop 1 ((c :: v) ++ r)) with (v ++ r). change (zdrop 1 (c :: v)) with v. apply IH. lia.
Qed.

Lemma value_has_line w word l k :
  word ≠ [] → value_has w word (l ++ k, blen l) = ci_prefix l w && has_word (zdrop (blen w) l) word.
Proof.
  intros Hw. unfold value_has. rewrite names_line. cbn [fst snd].
  destruct (ci_prefix l w) eqn:Hp; [|done]. cbn [andb]. apply ci_prefix_length in Hp. pose proof (blen_nonneg w).
  assert (zdrop (blen w) (l ++ k) = zdrop (blen w) l ++ k) as ->.
  { unfold zdrop. rewrite drop_app_le; [done|]. unfold blen in *. lia. }
  unfold has_word. rewrite (blen_zdrop (blen w) l) by lia.
  destruct (Z.le_gt_cases (blen l - blen w - blen word + 1) 0).
  - replace (Z.to_nat (blen l - blen w - blen word + 1)) with 0%nat by lia. done.
  - apply word_within_app; [done|]. rewrite blen_zdrop by lia. lia.
Qed.

Lemma existsb_annotate (f : list Z * Z → bool) (g : list Z → bool) ls tail :
  (∀ l k, f (l ++ k, blen l) = g l) → existsb f (annotate ls tail) = existsb g ls.
Proof. intros Hf. induction ls as [|l ls IH]; [done|]. cbn [annotate existsb]. by rewrite Hf, IH. Qed.

Lemma find_annotate (f : list Z * Z → bool) (g : list Z → bool) ls tail :
  (∀ l k, f (l ++ k, blen l) = g l) →
  match List.find g ls with
  | None => List.find f (annotate ls tail) = None
  | Some l => ∃ k, List.find f (annotate ls tail) = Some (l ++ 13 :: 10 :: k, blen l)
  end.
Proof.
  intros Hf. induction ls as [|l ls IH]; [done|]. cbn [annotate List.find]. rewrite Hf.
  destruct (g l); [|exact IH]. by eexists.
Qed.

(** ** Rendered headers *)

Definition line_of (h : list Z * list Z) : list Z := fst h ++ [58; 32] ++ snd h.

Definition named (target : list Z) (h : list Z * list Z) : bool := bool_decide (lower (fst h) = lower target).

Lemma lower_app l k : lower (l ++ k) = lower l ++ lower k.
Proof. apply map_app. Qed.

Lemma lower_colon l : 58 ∉ l → 58 ∉ lower l.
Proof.
  intros Hl Hc. apply Hl. unfold lower in Hc. apply list_elem_of_fmap in Hc as (c & Hc & Hin).
  unfold Name.tolower in Hc. change (ch "A") with 65 in Hc. change (ch "Z") with 90 in Hc.
  destruct ((65 <=? c) && (c <=? 90)) eqn:E; [lia|by subst].
Qed.

(** Two texts cut at their first colon. *)
Lemma colon_cut (a b x y : list Z) : 58 ∉ a → 58 ∉ b → a ++ 58 :: x = b ++ 58 :: y → a = b ∧ x = y.
Proof.
  revert b. induction a as [|c a IH]; intros [|d b] Ha Hb E; cbn in E.
  - by injection E.
  - injection E as <- _. exfalso. apply Hb. left.
  - injection E as -> _. exfalso. apply Ha. left.
  - injection E as -> E. rewrite not_elem_of_cons in Ha, Hb.
    destruct (IH b) as [-> ->]; [tauto|tauto|done|done].
Qed.

Lemma line_named h target : 58 ∉ fst h → 58 ∉ target → ci_prefix (line_of h) (target ++ [58]) = named target h.
Proof.
  intros Hn Ht. unfold named. apply eq_bool_prop_intro. rewrite bool_decide_spec. rewrite Is_true_true, ci_prefix_spec.
  unfold line_of. rewrite !lower_app. change (lower [58]) with [58]. change (lower [58; 32]) with [58; 32].
  split.
  - intros E. pose proof (ztake_zdrop (blen (target ++ [58])) (lower (fst h) ++ [58; 32] ++ lower (snd h))) as Hz.
    rewrite <- E, <- app_assoc in Hz. cbn [app] in Hz. apply colon_cut in Hz as [Hz _]; [done|by apply lower_colon..].
  - intros E. rewrite E. cbn [app].
    replace (lower target ++ 58 :: 32 :: lower (snd h)) with ((lower target ++ [58]) ++ 32 :: lower (snd h))
      by (rewrite <- app_assoc; done).
    replace (blen (target ++ [58])) with (blen (lower target ++ [58])); [by rewrite ztake_app|].
    rewrite !blen_app. unfold blen, lower. by rewrite length_map.
Qed.

(** * Rendered request headers (ds4_server.c)

    What the header functions return on a header made of a request line, header lines
    and an empty line, all with CRLF. *)

Definition header : Type := list Z * list Z.

Definition request_text (m t : list Z) : list Z := m ++ 32 :: t ++ bs " HTTP/1.1".

Definition head_lines (m t : list Z) (hs : list header) : list (list Z) :=
  request_text m t :: map line_of hs ++ [[]].

Definition render_head (m t : list Z) (hs : list header) : list Z := crlf_lines (head_lines m t hs).

(** A visible word of at most [n] bytes. *)
Definition word_ok (n : Z) (w : list Z) : Prop :=
  1 <= blen w <= n ∧ Forall (λ c, (isspace c = false) ∧ 0 < c < 256) w.

(** A header's name has no colon, and neither part has a newline. *)
Definition header_wf (h : header) : Prop := (58 ∉ fst h) ∧ (10 ∉ fst h) ∧ (10 ∉ snd h).

(** The length that the headers declare. *)
Definition declares (hs : list header) (n : Z) : Prop :=
  match List.find (named (bs "Content-Length")) hs with
  | None => n = 0
  | Some h => snd h ≠ [] ∧ (forallb isdigit (snd h) = true) ∧ (digits_value 10 (snd h) = n)
  end.

Definition announces (name word : list Z) (hs : list header) : bool :=
  existsb (λ h, named name h && has_word (32 :: snd h) word) hs.

(** ** The end of the header *)

Lemma first_ten (a : list Z) : 10 ∉ a ∨ ∃ a1 a2, a = a1 ++ 10 :: a2 ∧ 10 ∉ a1.
Proof.
  induction a as [|c a IH]; [left; set_solver|]. destruct (decide (c = 10)) as [->|Hc]; [right; exists [], a; set_solver|].
  destruct IH as [Ha|(a1 & a2 & -> & Ha)]; [left; set_solver|right; exists (c :: a1), a2; set_solver].
Qed.

(** Two texts cut at their first newline. *)
Lemma newline_cut (a b x y : list Z) : 10 ∉ a → 10 ∉ b → a ++ 10 :: x = b ++ 10 :: y → a = b ∧ x = y.
Proof.
  revert b. induction a as [|c a IH]; intros [|d b] Ha Hb E; cbn in E.
  - by injection E.
  - injection E as <- _. set_solver.
  - injection E as -> _. set_solver.
  - injection E as -> E. destruct (IH b) as [-> ->]; set_solver.
Qed.

Lemma line_cut l r a b : 10 ∉ l → (l ++ [13; 10]) ++ r = a ++ 10 :: b →
  (a = l ++ [13] ∧ r = b) ∨ ∃ a2, a = (l ++ [13; 10]) ++ a2 ∧ r = a2 ++ 10 :: b.
Proof.
  intros Hl E. assert ((l ++ [13]) ++ 10 :: r = a ++ 10 :: b) as E2 by (rewrite <- E, <- !app_assoc; done). clear E.
  assert (10 ∉ l ++ [13]) as Hl' by set_solver.
  destruct (first_ten a) as [Ha|(a1 & a2 & -> & Ha)].
  - left. apply newline_cut in E2 as [-> ->]; done.
  - right. rewrite <- (app_assoc a1) in E2. cbn [app] in E2. apply newline_cut in E2 as [<- ->]; [|done..].
    exists a2. by rewrite <- !app_assoc.
Qed.

Lemma crlf_not_ten ls x : Forall (λ l, 10 ∉ l) ls → crlf_lines ls ≠ 10 :: x.
Proof.
  destruct ls as [|[|c l] ls]; [done|done|]. intros Hl E. apply Forall_cons in Hl as [Hl _]. injection E as -> _. set_solver.
Qed.

Lemma crlf_plain ls i : Forall (λ l, 10 ∉ l) ls → ¬ occurs (crlf_lines ls) [10; 10] i.
Proof.
  intros Hl (a & b & E & _). revert a E. induction Hl as [|l ls Hl Hls IH]; intros a E; [by destruct a|].
  unfold crlf_lines in E. cbn [map concat app] in E. apply (line_cut l _ a (10 :: b)) in E as [[_ E]|(a2 & _ & E)]; [| |done].
  - by apply (crlf_not_ten ls b Hls).
  - by apply (IH a2).
Qed.

Lemma crlf_first_empty ls b : crlf_lines ls = 13 :: 10 :: b → Forall (λ l, l ≠ [] ∧ 10 ∉ l) ls → False.
Proof.
  destruct ls as [|[|c l] ls]; [done| |].
  - intros _ Hl. apply Forall_cons in Hl as [[]]. done.
  - unfold crlf_lines. cbn [map concat app]. intros [= -> E] Hl. apply Forall_cons in Hl as [[_ Hl] _].
    destruct l as [|d l]; [done|]. injection E as -> _. set_solver.
Qed.

Lemma crlf_lines_app ls ks : crlf_lines (ls ++ ks) = crlf_lines ls ++ crlf_lines ks.
Proof. unfold crlf_lines. by rewrite map_app, concat_app. Qed.

Lemma crlf_first ls i : Forall (λ l, l ≠ [] ∧ 10 ∉ l) ls → occurs (crlf_lines (ls ++ [[]])) [13; 10; 13; 10] i →
  i + 4 = blen (crlf_lines (ls ++ [[]])).
Proof.
  intros Hl (a & b & E & <-). enough (b = []) as -> by (rewrite E, !blen_app; change (blen [13; 10; 13; 10]) with 4; unfold blen; simpl; lia).
  revert a E. induction Hl as [|l ls [Hne Hl] Hls IH]; intros a E.
  - apply (f_equal length) in E. rewrite !length_app in E. simpl in E. lia.
  - unfold crlf_lines in E. cbn [map concat app] in E. fold (crlf_lines (ls ++ [[]])) in E.
    replace (a ++ 13 :: 10 :: 13 :: 10 :: b) with ((a ++ [13]) ++ 10 :: 13 :: 10 :: b) in E by (by rewrite <- app_assoc).
    apply line_cut in E as [[_ E]|(a2 & Ha & E)]; [| |done].
    + destruct ls as [|l2 ls]; [by injection E|].
      rewrite crlf_lines_app in E. exfalso. apply Forall_cons in Hls as [[Hn2 Hl2] _]. destruct l2 as [|c l2]; [done|].
      unfold crlf_lines in E. cbn [map concat app] in E. injection E as -> E. destruct l2 as [|d l2]; [done|]. injection E as -> _. set_solver.
    + destruct a2 as [|c a2 _] using rev_ind.
      { exfalso. cbn [app] in E. eapply crlf_not_ten; [|exact E]. apply Forall_app. split; [|by repeat constructor; set_solver].
        eapply Forall_impl; [exact Hls|]. cbn. tauto. }
      rewrite app_assoc in Ha. apply app_inj_tail in Ha as [_ <-]. apply (IH a2). by rewrite E, <- app_assoc.
Qed.

Section head.
Context (m t : list Z) (hs : list header).
Context (Hm : word_ok 7 m) (Hcolon : 58 ∉ m) (Ht : word_ok 255 t) (Hhs : Forall header_wf hs).

Lemma word_no_newline n w : word_ok n w → 10 ∉ w.
Proof. intros [_ Hw] Hin. rewrite Forall_forall in Hw. by destruct (Hw _ Hin). Qed.

Lemma text_no_newline : 10 ∉ request_text m t.
Proof using Hm Ht.
  clear Hcolon Hhs hs. unfold request_text. pose proof (word_no_newline 7 m Hm). pose proof (word_no_newline 255 t Ht).
  assert (10 ∉ bs " HTTP/1.1") by (vm_compute; set_solver). set_solver.
Qed.

Lemma lines_plain : Forall (λ l, l ≠ [] ∧ 10 ∉ l) (request_text m t :: map line_of hs).
Proof using Hm Ht Hhs.
  clear Hcolon. constructor; [split; [|apply text_no_newline]|].
  - unfold request_text. by destruct m.
  - apply Forall_map. eapply Forall_impl; [exact Hhs|]. intros [n v] (_ & Hn & Hv). unfold line_of. cbn [fst snd] in *.
    split; [by destruct n|]. set_solver.
Qed.

Lemma head_no_newline : Forall (λ l, 10 ∉ l) (head_lines m t hs).
Proof using Hm Ht Hhs.
  clear Hcolon. unfold head_lines. change (request_text m t :: map line_of hs ++ [[]]) with ((request_text m t :: map line_of hs) ++ [[]]).
  apply Forall_app. split; [|by repeat constructor; set_solver]. eapply Forall_impl; [apply lines_plain|]. cbn. tauto.
Qed.

Lemma render_ok : blen (render_head m t hs) <= max_header → header_ok (render_head m t hs).
Proof using Hm Ht Hhs.
  clear Hcolon. intros Hsize. constructor; [| | |done].
  - exists (crlf_lines (removelast (request_text m t :: map line_of hs)) ++ List.last (request_text m t :: map line_of hs) []).
    unfold render_head, head_lines. change (request_text m t :: map line_of hs ++ [[]]) with ((request_text m t :: map line_of hs) ++ [[]]).
    rewrite (app_removelast_last [] (l := request_text m t :: map line_of hs)) at 1 by done.
    rewrite !crlf_lines_app, <- !app_assoc. f_equal. unfold crlf_lines. cbn [map concat app]. by rewrite app_nil_r, <- app_assoc.
  - intros i. apply (crlf_first (request_text m t :: map line_of hs)), lines_plain.
  - intros i. apply crlf_plain, head_no_newline.
Qed.

(** ** The request line *)

Lemma scan_word_app n w r : word_ok n w → (∀ c r', r = c :: r' → isspace c = true) → scan_word n (w ++ r) = Some (w, r).
Proof.
  clear Hm Ht Hhs Hcolon. intros [Hn Hw] Hr. unfold scan_word. destruct w as [|c w]; [unfold blen in Hn; simpl in Hn; lia|].
  apply Forall_cons in Hw as Hc. destruct Hc as [[Hc _] _].
  cbn [app span]. rewrite Hc. cbn [snd span]. rewrite Hc. cbn [negb].
  assert (forallb (fun c => negb (isspace c)) (c :: w) = true) as Hall.
  { apply forallb_forall. intros x Hx. rewrite Forall_forall in Hw. destruct (Hw x) as [-> _]; [by apply list_elem_of_In|done]. }
  pose proof (span_app (fun c => negb (isspace c)) (c :: w) r Hall) as Hs. cbn [app span] in Hs. rewrite Hc in Hs. cbn [negb] in Hs.
  rewrite Hs by (intros d r' Hd; rewrite (Hr d r' Hd); done). cbn [fst].
  rewrite ztake_ge by lia. rewrite (proj2 (Z.eqb_neq _ _)) by lia. f_equal. f_equal. change (c :: w ++ r) with ((c :: w) ++ r).
  by rewrite zdrop_app.
Qed.

Lemma scan_word_space n c p : isspace c = true → scan_word n (c :: p) = scan_word n p.
Proof. clear Hm Ht Hhs Hcolon. intros Hc. unfold scan_word. cbn [span]. rewrite Hc. by destruct (span isspace p). Qed.

Lemma request_line_head x : request_line (render_head m t hs ++ x) = Some (m, fst (span (fun c => negb (c =? 63)) t)).
Proof using Hm Ht.
  unfold request_line.
  assert (render_head m t hs ++ x = (request_text m t ++ [13]) ++ 10 :: crlf_lines (map line_of hs ++ [[]]) ++ x) as ->.
  { unfold render_head, head_lines, crlf_lines. cbn [map concat]. by rewrite <- !app_assoc. }
  rewrite span_app.
  2: { apply forallb_forall. intros c Hc. apply negb_true_iff, Z.eqb_neq. intros ->. apply list_elem_of_In in Hc.
       pose proof text_no_newline. clear Hm Ht Hhs Hcolon. set_solver. }
  2: { by intros c r [= <- _]. }
  cbn [fst].
  assert (blen (request_text m t ++ [13]) <= 511) as Hb.
  { unfold request_text. rewrite blen_app, blen_app, blen_cons, blen_app. change (blen (bs " HTTP/1.1")) with 9. change (blen [13]) with 1.
    destruct Hm as [? _], Ht as [? _]. lia. }
  rewrite ztake_ge by done.
  rewrite c_str_id.
  2: { clear Hcolon Hhs. unfold request_text. destruct Hm as [_ Hmw], Ht as [_ Htw]. unfold cstring in *.
       assert (Forall (λ c, 0 < c < 256) (bs " HTTP/1.1")) by (vm_compute; repeat constructor).
       repeat first [apply Forall_app; split | constructor]; try lia; try done.
       - eapply Forall_impl; [exact Hmw|]. cbn. lia.
       - eapply Forall_impl; [exact Htw|]. cbn. lia. }
  unfold request_text. rewrite <- !app_assoc. cbn [app].
  rewrite (scan_word_app 7) by (done || by intros c r' [= <- _]). cbn [mbind option_bind].
  assert (scan_word 255 (32 :: (t ++ bs " HTTP/1.1") ++ [13]) = Some (t, bs " HTTP/1.1" ++ [13])) as ->; [|done].
  rewrite <- app_assoc, scan_word_space by done.
  apply scan_word_app; [done|]. by intros c r' [= <- _].
Qed.

(** ** The header lines *)

Lemma head_lines_of x : lines_of (render_head m t hs ++ x) (blen (render_head m t hs)) = annotate (head_lines m t hs) x.
Proof using Hm Ht Hhs.
  clear Hcolon. unfold lines_of. apply header_lines_spec; [apply head_no_newline|]. unfold render_head, blen. lia.
Qed.

Lemma request_no_header name : 58 ∉ name → 32 ∉ name → ci_prefix (request_text m t) (name ++ [58]) = false.
Proof using Hcolon.
  clear Hm Ht Hhs. intros Hn Hs. apply not_true_iff_false. rewrite ci_prefix_spec. unfold request_text. rewrite !lower_app.
  change (lower [58]) with [58]. intros E.
  pose proof (ztake_zdrop (blen (name ++ [58])) (lower m ++ lower (32 :: t ++ bs " HTTP/1.1"))) as Hz.
  rewrite <- E in Hz. set (k := zdrop _ _) in Hz. cbn [lower map] in Hz. change (Name.tolower 32) with 32 in Hz.
  assert (32 ∉ lower name) as Hs'.
  { intros (c & Hc & Hin)%list_elem_of_fmap. unfold Name.tolower in Hc. change (ch "A") with 65 in Hc. change (ch "Z") with 90 in Hc.
    destruct ((65 <=? c) && (c <=? 90)) eqn:Er; [lia|]. by subst c. }
  symmetry in Hz. apply prefix_cases in Hz as [(y & Hy & _)|(y & Hy & Hk & Hne)].
  - apply lower_colon in Hcolon. apply Hcolon. fold (lower m). rewrite Hy. set_solver.
  - destruct y as [|c y]; [done|]. cbn [app] in Hk. injection Hk as <- _.
    assert (32 ∈ lower name ++ [58]) as Hin by (rewrite Hy; set_solver). clear Hcolon. set_solver.
Qed.

Lemma line_value h name : named name h = true → zdrop (blen (name ++ [58])) (line_of h) = 32 :: snd h.
Proof.
  clear Hm Ht Hhs Hcolon. unfold named. intros Hn%bool_decide_eq_true.
  assert (blen (name ++ [58]) = blen (fst h ++ [58])) as ->.
  { apply (f_equal blen) in Hn. unfold lower, blen in *. rewrite !length_map in Hn. rewrite !length_app. lia. }
  unfold line_of. change ([58; 32] ++ snd h) with ([58] ++ 32 :: snd h). by rewrite app_assoc, zdrop_app.
Qed.

Lemma announced name word x :
  58 ∉ name → 32 ∉ name → word ≠ [] →
  existsb (value_has (name ++ [58]) word) (lines_of (render_head m t hs ++ x) (blen (render_head m t hs))) =
  announces name word hs.
Proof using Hm Ht Hhs Hcolon.
  intros Hn Hs Hw. rewrite head_lines_of.
  rewrite (existsb_annotate _ (λ l, ci_prefix l (name ++ [58]) && has_word (zdrop (blen (name ++ [58])) l) word)).
  2: { intros l k. by apply value_has_line. }
  unfold head_lines. cbn [existsb]. rewrite request_no_header by done. cbn [andb orb].
  rewrite existsb_app. cbn [existsb]. assert (ci_prefix [] (name ++ [58]) = false) as -> by (by destruct name).
  cbn [andb orb]. rewrite orb_false_r. unfold announces. clear Hm Ht Hcolon.
  induction Hhs as [|h l (Hc & _) Hl IH]; [done|]. cbn [map existsb]. rewrite (IH Hl), line_named by done.
  destruct (named name h) eqn:E; [|done]. by rewrite line_value.
Qed.

Lemma find_map {A B} (f : B → bool) (g : A → B) l : List.find f (map g l) = g <$> List.find (λ a, f (g a)) l.
Proof. induction l as [|a l IH]; [done|]. cbn. by destruct (f (g a)). Qed.

Lemma find_app {A} (f : A → bool) l k :
  List.find f (l ++ k) = match List.find f l with Some a => Some a | None => List.find f k end.
Proof. induction l as [|a l IH]; [done|]. cbn. by destruct (f a). Qed.

Lemma find_named name : 58 ∉ name →
  List.find (λ l, ci_prefix (line_of l) (name ++ [58])) hs = List.find (named name) hs.
Proof using Hhs.
  clear Hm Ht Hcolon. intros Hn. induction Hhs as [|h l (Hc & _) Hl IH]; [done|]. cbn [List.find].
  rewrite line_named by done. by rewrite (IH Hl).
Qed.

Lemma strtol_digits ds r : ds ≠ [] → forallb isdigit ds = true → (∀ c r', r = c :: r' → isdigit c = false) →
  digits_value 10 ds <= LONG_MAX → strtol10 (ds ++ r) = digits_value 10 ds.
Proof.
  clear Hm Ht Hhs Hcolon. intros Hne Hd Hr Hmax. destruct ds as [|c ds]; [done|].
  assert (48 <= c <= 57) as Hc.
  { cbn [forallb] in Hd. unfold isdigit in Hd at 1. lia. }
  assert (snd (span isspace ((c :: ds) ++ r)) = (c :: ds) ++ r) as Hsp.
  { cbn [app span]. assert (isspace c = false) as -> by (unfold isspace; lia). done. }
  unfold strtol10. rewrite Hsp. cbn [app].
  assert (∀ (X : Type) (a : list Z → X) b d, match c :: ds ++ r with 45 :: p => a p | 43 :: p => b p | _ => d end = d) as Hsel.
  { intros. destruct c as [|c|c]; try lia. do 6 (destruct c as [c|c|]; try done; try lia). }
  rewrite Hsel. change (c :: ds ++ r) with ((c :: ds) ++ r). rewrite span_app by done. cbn [fst]. lia.
Qed.

Lemma head_length n x : declares hs n → n <= LONG_MAX →
  content_length (render_head m t hs ++ x) (blen (render_head m t hs)) = n.
Proof using Hm Ht Hhs Hcolon.
  intros Hdec Hmax. unfold content_length. rewrite head_lines_of.
  change (bs "Content-Length:") with (bs "Content-Length" ++ [58]).
  pose proof (find_annotate (names (bs "Content-Length" ++ [58])) (λ l, ci_prefix l (bs "Content-Length" ++ [58])) (head_lines m t hs) x
    (names_line _)) as Hf.
  assert (List.find (λ l, ci_prefix l (bs "Content-Length" ++ [58])) (head_lines m t hs) =
          line_of <$> List.find (named (bs "Content-Length")) hs) as Efind.
  { unfold head_lines. cbn [List.find]. rewrite request_no_header by (vm_compute; set_solver).
    rewrite find_app, find_map, find_named by (vm_compute; set_solver).
    by destruct (List.find (named (bs "Content-Length")) hs). }
  rewrite Efind in Hf. clear Efind. unfold declares in Hdec.
  destruct (List.find (named (bs "Content-Length")) hs) as [h|] eqn:Eh; cbn [fmap option_fmap option_map] in Hf; [|by rewrite Hf].
  destruct Hf as [k ->]. apply find_some in Eh as [_ Eh]. destruct Hdec as (Hne & Hd & <-).
  pose proof (line_value h _ Eh) as Hv. change (blen (bs "Content-Length" ++ [58])) with 15 in Hv.
  assert (15 <= blen (line_of h)) as Hlen.
  { destruct (Z.le_gt_cases 15 (blen (line_of h))); [done|]. exfalso. unfold zdrop in Hv. rewrite drop_ge in Hv; [done|]. unfold blen in *. lia. }
  assert (zdrop 15 (line_of h ++ 13 :: 10 :: k) = 32 :: snd h ++ 13 :: 10 :: k) as ->.
  { unfold zdrop in *. rewrite drop_app_le by (unfold blen in *; lia). by rewrite Hv. }
  destruct (snd h) as [|c ds] eqn:Es; [done|].
  assert (blen (line_of h) = 15 + 1 + blen (c :: ds)) as ->.
  { pose proof (blen_zdrop 15 (line_of h) ltac:(lia)) as Hb. rewrite Hv, blen_cons in Hb. lia. }
  assert (isspace c = false) as Hc.
  { cbn [forallb] in Hd. unfold isdigit in Hd at 1. unfold isspace. lia. }
  rewrite blen_cons. pose proof (blen_nonneg ds). replace (Z.to_nat (15 + 1 + (1 + blen ds) - 15)) with (S (S (Z.to_nat (blen ds)))) by lia.
  assert (∀ k2, skip_spaces (S (S k2)) (32 :: (c :: ds) ++ 13 :: 10 :: k) = (c :: ds) ++ 13 :: 10 :: k) as ->.
  { intros k2. cbn [app skip_spaces]. change (isspace 32) with true. cbv iota. by rewrite Hc. }
  apply strtol_digits; [done|done| |done]. by intros d r' [= <- _].
Qed.
End head.
