(* ===== verification/HttpTheorems.v ===== *)
(** * What the HTTP reader returns (ds4_server.c)

    A request is read in full however the network cuts it, with its body by length or
    in chunks, and one that ends early is refused. *)

From S2P Require Import Prelude Bytes Text Json Http HttpSpec.

(** ** Chunks *)

Record chunk := Chunk { size_text : list Z; extension : list Z; data : list Z }.

Definition render_chunk (c : chunk) : list Z := size_text c ++ extension c ++ [13; 10] ++ data c ++ [13; 10].

(** The chunks, the last one with its extension, the trailer lines and an empty line. *)
Definition render_chunked (cs : list chunk) (zero ext : list Z) (trailers : list (list Z)) : list Z :=
  concat (map render_chunk cs) ++ zero ++ ext ++ [13; 10] ++ crlf_lines (trailers ++ [[]]).

(** Hexadecimal digits of a value. *)
Definition size_ok (s : list Z) (n : Z) : Prop := s ≠ [] ∧ (forallb isxdigit s = true) ∧ (digits_value 16 s = n).

Definition blank (c : Z) : bool := (c =? 32) || (c =? 9).

(** Blanks, then nothing or a text that a semicolon begins. *)
Definition ext_ok (e : list Z) : Prop := (10 ∉ e) ∧ ∀ c r, snd (span blank e) = c :: r → c = 59.

Definition chunk_wf (c : chunk) : Prop :=
  size_ok (size_text c) (blen (data c)) ∧ ext_ok (extension c) ∧ data c ≠ [] ∧ blen (size_text c ++ extension c) < 8192.

Definition trailer_wf (l : list Z) : Prop := l ≠ [] ∧ (10 ∉ l) ∧ blen l < 8192.

Lemma xdigit_not_x c : isxdigit c = true → Name.tolower c ≠ 120 ∧ isspace c = false ∧ c ≠ 10.
Proof.
  unfold isxdigit. intros [v Hv]%bool_decide_eq_true. unfold hex in Hv.
  change (ch "0") with 48 in Hv. change (ch "9") with 57 in Hv. change (ch "a") with 97 in Hv. change (ch "f") with 102 in Hv.
  change (ch "A") with 65 in Hv. change (ch "F") with 70 in Hv.
  unfold Name.tolower, isspace. change (ch "A") with 65. change (ch "Z") with 90.
  destruct ((48 <=? c) && (c <=? 57)) eqn:E1; [|destruct ((97 <=? c) && (c <=? 102)) eqn:E2; [|destruct ((65 <=? c) && (c <=? 70)) eqn:E3; [|done]]];
    clear Hv; (destruct ((65 <=? c) && (c <=? 90)) eqn:E); lia.
Qed.

Lemma strtoul_digits s c r : forallb isxdigit s = true → isxdigit c = false → Name.tolower c ≠ 120 →
  strtoul16 (s ++ c :: r) = (Z.min (digits_value 16 s) (2 ^ 64 - 1), c :: r).
Proof.
  intros Hs Hc Hx. unfold strtoul16.
  assert (∀ x d k, s ++ c :: r = 48 :: x :: d :: k → (Name.tolower x =? 120) && isxdigit d = false) as Hno.
  { intros x d k E. destruct s as [|a [|b s]]; cbn [app] in E.
    - injection E as -> _. done.
    - injection E as _ -> _. by rewrite (proj2 (Z.eqb_neq _ _)).
    - injection E as _ -> _. cbn [forallb] in Hs. apply andb_true_iff in Hs as [_ [Hb _]%andb_true_iff].
      apply xdigit_not_x in Hb as [Hb _]. by rewrite (proj2 (Z.eqb_neq _ _)). }
  set (p := s ++ c :: r) in *.
  assert (match p with 48 :: x :: d :: r => if (Name.tolower x =? 120) && isxdigit d then d :: r else p | _ => p end = p) as ->.
  { destruct p as [|a [|x [|d k]]]; try (repeat case_match; done).
    destruct (decide (a = 48)) as [->|Ha]; [by rewrite (Hno x d k)|]. repeat case_match; done. }
  unfold p. rewrite span_app; [done|done|]. by intros ? ? [= <- _].
Qed.

Lemma chunk_size_line s e n r : size_ok s n → ext_ok e → n < 2 ^ 64 → chunk_size (s ++ e ++ 13 :: r) = Some n.
Proof.
  intros (Hne & Hs & Hn) (_ & He) Hmax. destruct s as [|a s]; [done|].
  assert (isxdigit a = true) as Ha by (cbn [forallb] in Hs; by apply andb_true_iff in Hs as [? _]).
  unfold chunk_size. cbn [app]. rewrite Ha. cbn [negb]. change (a :: s ++ e ++ 13 :: r) with ((a :: s) ++ e ++ 13 :: r).
  assert (snd (span blank (e ++ 13 :: r)) = snd (span blank e) ++ 13 :: r) as Hsp.
  { clear. induction e as [|c e IH]; [done|]. cbn [app span]. destruct (blank c); [|done].
    destruct (span blank (e ++ 13 :: r)), (span blank e). done. }
  assert (∃ c k, e ++ 13 :: r = c :: k ∧ isxdigit c = false ∧ Name.tolower c ≠ 120) as (c & k & Ek & Hc & Hx).
  { destruct e as [|c e]; [by exists 13, r|]. exists c, (e ++ 13 :: r). split; [done|].
    cbn [span] in He. destruct (blank c) eqn:Hb.
    - unfold blank in Hb. assert (c = 32 ∨ c = 9) as [-> | ->] by lia; done.
    - rewrite (He c e) by done. done. }
  rewrite Ek, strtoul_digits by done. rewrite <- Ek. fold blank. rewrite Hsp, Hn.
  replace (Z.min n (2 ^ 64 - 1)) with n by lia.
  destruct (snd (span blank e)) as [|d q] eqn:Eq; [done|]. by rewrite (He d q).
Qed.

(** The buffer holds a line that a read found. *)
Lemma reads_line b fd b' fd' pre line more :
  reads b fd (blen pre + blen line + 1) b' fd' → stream b fd = pre ++ line ++ 10 :: more →
  ∃ y, b' = pre ++ line ++ 10 :: y ∧ more = y ++ concat fd'.
Proof.
  intros (Hst & _ & Hn & _) E. rewrite E in Hst. unfold stream in Hst.
  assert (pre ++ line ++ 10 :: more = (pre ++ line ++ [10]) ++ more) as E2 by (rewrite <- !app_assoc; done).
  rewrite E2 in Hst. apply prefix_cases in Hst as [(y & -> & ->)|(y & Hy & _ & Hne)].
  - exists y. split; [by rewrite <- !app_assoc|done].
  - exfalso. apply (f_equal blen) in Hy. rewrite !blen_app in Hy. change (blen [10]) with 1 in Hy.
    destruct y; [done|]. rewrite blen_cons in Hy. pose proof (blen_nonneg y). lia.
Qed.

Lemma blank_line_spec pre l y : 10 ∉ l → blank_line (pre ++ (l ++ [13]) ++ 10 :: y) (blen pre) (blen pre + blen (l ++ [13]) + 1) =
  bool_decide (l = []).
Proof.
  intros Hl. unfold blank_line. rewrite blen_app. change (blen [13]) with 1. destruct l as [|c l].
  - change (blen (@nil Z)) with 0. rewrite (proj2 (Z.eqb_neq _ 1)) by lia. rewrite (proj2 (Z.eqb_eq _ 2)) by lia.
    assert (znth 0 (pre ++ ([] ++ [13]) ++ 10 :: y) (blen pre) = 13) as ->; [|done].
    unfold znth, blen. by rewrite Nat2Z.id, app_nth2, Nat.sub_diag by lia.
  - rewrite blen_cons. pose proof (blen_nonneg l). rewrite (proj2 (Z.eqb_neq _ 1)), (proj2 (Z.eqb_neq _ 2)) by lia. by rewrite bool_decide_false by done.
Qed.

Lemma crlf_count ls : (length ls <= length (crlf_lines (ls ++ [[]])))%nat.
Proof. unfold crlf_lines. induction ls as [|l ls IH]; [simpl; lia|]. cbn [map concat app length]. rewrite !length_app. cbn [length]. lia. Qed.

Lemma trailers_read fuel ls fd b pre after :
  (length ls < fuel)%nat → live fd → (∃ x, b = pre ++ x) → Forall trailer_wf ls →
  stream b fd = pre ++ crlf_lines (ls ++ [[]]) ++ after →
  ∃ fd', skip_trailers fuel fd b (blen pre) = Some fd'.
Proof.
  intros Hf Hl Hb Hw. revert fuel fd b pre Hf Hl Hb. induction Hw as [|l ls (Hne & Hn & Hlen) Hw IH];
    intros fuel fd b pre Hf Hl Hb Hst; (destruct fuel as [|fuel]; [lia|]); cbn [skip_trailers].
  - destruct (line_end_reads (calls fd) fd b pre [13] after 8192 Hl (calls_pos fd) Hb) as (b' & fd' & -> & Hr);
      [done|set_solver|done|].
    destruct (reads_line _ _ _ _ _ _ _ Hr Hst) as (y & -> & _).
    pose proof (blank_line_spec pre [] y ltac:(set_solver)) as Hbl. cbn [app] in *. rewrite Hbl. by eexists.
  - assert (stream b fd = pre ++ (l ++ [13]) ++ 10 :: crlf_lines (ls ++ [[]]) ++ after) as Hst2.
    { rewrite Hst. unfold crlf_lines. cbn [map concat app]. by rewrite <- !app_assoc. }
    destruct (line_end_reads (calls fd) fd b pre (l ++ [13]) _ 8192 Hl (calls_pos fd) Hb Hst2) as (b' & fd' & -> & Hr);
      [set_solver|rewrite blen_app; change (blen [13]) with 1; lia|].
    destruct (reads_line _ _ _ _ _ _ _ Hr Hst2) as (y & Eb & _).
    assert (blank_line b' (blen pre) (blen pre + blen (l ++ [13]) + 1) = false) as ->
      by (rewrite Eb, blank_line_spec by done; by apply bool_decide_false).
    replace (blen pre + blen (l ++ [13]) + 1) with (blen (pre ++ (l ++ [13]) ++ [10]))
      by (rewrite !blen_app; change (blen [10]) with 1; lia).
    destruct Hr as (Hst3 & Hl' & _). apply IH; [cbn [length] in Hf; lia|done| |].
    + exists y. rewrite Eb. by rewrite <- !app_assoc.
    + by rewrite Hst3, Hst2, <- !app_assoc.
Qed.

Lemma render_chunk_cut c rest :
  render_chunk c ++ rest = (size_text c ++ extension c ++ [13]) ++ 10 :: data c ++ [13] ++ 10 :: rest.
Proof. unfold render_chunk. by rewrite <- !app_assoc. Qed.

Lemma render_chunked_cons c cs zero ext ls :
  render_chunked (c :: cs) zero ext ls = render_chunk c ++ render_chunked cs zero ext ls.
Proof. unfold render_chunked. cbn [map concat]. by rewrite <- app_assoc. Qed.

Lemma size_line_plain s e n : size_ok s n → ext_ok e → 10 ∉ s ++ e ++ [13].
Proof.
  intros (_ & Hs & _) (He & _). intros [Hin|[Hin|Hin]%elem_of_app]%elem_of_app; [|done|set_solver].
  rewrite forallb_forall in Hs. by destruct (xdigit_not_x 10) as (_ & _ & ?); [apply Hs; apply list_elem_of_In|].
Qed.

Section body.
Context (zero ext : list Z) (trailers : list (list Z)) (after : list Z) (max : Z).
Context (Hzero : size_ok zero 0) (Hext : ext_ok ext) (Hzlen : blen (zero ++ ext) < 8192) (Htr : Forall trailer_wf trailers).
Context (Hmax : max < 2 ^ 64).

Lemma last_chunk_read fuel fd b pos done :
  (length trailers < fuel)%nat → live fd → stream (zdrop pos b) fd = render_chunked [] zero ext trailers ++ after →
  read_chunked_body fuel fd b pos done max = Some done.
Proof using Hzero Hext Hzlen Htr.
  clear Hmax. intros Hf Hl Hst. destruct fuel as [|fuel]; [lia|]. cbn [read_chunked_body].
  assert (stream (zdrop pos b) fd = [] ++ (zero ++ ext ++ [13]) ++ 10 :: crlf_lines (trailers ++ [[]]) ++ after) as Hst2.
  { rewrite Hst. unfold render_chunked. cbn [map concat app]. by rewrite <- !app_assoc. }
  destruct (line_end_reads (calls fd) fd (zdrop pos b) [] (zero ++ ext ++ [13]) _ 8192 Hl (calls_pos fd)
    ltac:(by eexists) Hst2) as (b' & fd' & Ele & Hr).
  { by eapply size_line_plain. }
  { rewrite app_assoc, blen_app. change (blen [13]) with 1. lia. }
  change (blen (@nil Z)) with 0 in *. rewrite Ele. destruct (reads_line _ _ _ _ [] _ _ Hr Hst2) as (y & -> & _).
  assert (chunk_size ([] ++ (zero ++ ext ++ [13]) ++ 10 :: y) = Some 0) as ->.
  { rewrite <- !app_assoc. cbn [app]. by apply chunk_size_line. }
  cbn [Z.eqb].
  replace (0 + blen (zero ++ ext ++ [13]) + 1) with (blen ((zero ++ ext ++ [13]) ++ [10])) by (rewrite (blen_app _ [10]); change (blen [10]) with 1; lia).
  destruct Hr as (Hst3 & Hl' & _). unfold stream in Hst3.
  destruct (trailers_read (S (length (([] ++ (zero ++ ext ++ [13]) ++ 10 :: y) ++ concat fd'))) trailers fd'
    ([] ++ (zero ++ ext ++ [13]) ++ 10 :: y) ((zero ++ ext ++ [13]) ++ [10]) after) as [fd2 ->]; [|done| |done| |done].
  - rewrite Hst3. fold (stream (zdrop pos b) fd). rewrite Hst2. rewrite !length_app. cbn [length]. rewrite length_app.
    pose proof (crlf_count trailers). lia.
  - exists y. by rewrite <- !app_assoc.
  - unfold stream in *. by rewrite Hst3, Hst2, <- !app_assoc.
Qed.

Lemma chunks_read fuel cs fd b pos done :
  (length cs + length trailers < fuel)%nat → live fd → Forall chunk_wf cs → blen done + blen (concat (map data cs)) <= max →
  stream (zdrop pos b) fd = render_chunked cs zero ext trailers ++ after →
  read_chunked_body fuel fd b pos done max = Some (done ++ concat (map data cs)).
Proof using Hzero Hext Hzlen Htr Hmax.
  intros Hf Hl Hcs. revert fuel fd b pos done Hf Hl.
  induction Hcs as [|c cs (Hsz & Hce & Hne & Hlen) Hcs IH]; intros fuel fd b pos done Hf Hl Hm Hst.
  { rewrite app_nil_r. apply last_chunk_read; [cbn [length] in Hf; lia|done..]. }
  destruct fuel as [|fuel]; [lia|]. cbn [read_chunked_body].
  set (rest := render_chunked cs zero ext trailers ++ after) in *.
  set (line := size_text c ++ extension c ++ [13]).
  assert (stream (zdrop pos b) fd = [] ++ line ++ 10 :: data c ++ [13] ++ 10 :: rest) as Hst2.
  { rewrite Hst, render_chunked_cons, <- app_assoc. apply render_chunk_cut. }
  destruct (line_end_reads (calls fd) fd (zdrop pos b) [] line _ 8192 Hl (calls_pos fd)
    ltac:(by eexists) Hst2) as (b1 & fd1 & Ele & Hr).
  { by eapply size_line_plain. }
  { unfold line. rewrite app_assoc, blen_app. change (blen [13]) with 1. lia. }
  change (blen (@nil Z)) with 0 in *. rewrite Ele. destruct (reads_line _ _ _ _ [] _ _ Hr Hst2) as (y & Eb1 & _).
  cbn [map concat] in Hm. rewrite blen_app in Hm. pose proof (blen_nonneg (concat (map data cs))).
  pose proof (blen_nonneg done). pose proof (blen_nonneg line).
  assert (0 < blen (data c)) as Hpos by (destruct (data c); [done|rewrite blen_cons; pose proof (blen_nonneg l); lia]).
  assert (chunk_size b1 = Some (blen (data c))) as ->.
  { rewrite Eb1. unfold line. rewrite <- !app_assoc. cbn [app]. apply chunk_size_line; [done|done|lia]. }
  rewrite (proj2 (Z.eqb_neq _ 0)) by lia.
  rewrite !(proj2 (Z.ltb_ge _ _)) by lia. cbn [orb].
  destruct Hr as (Hst3 & Hl1 & _).
  destruct (recv_until_reads (calls fd1) 8192 fd1 b1 (0 + blen line + 1 + blen (data c)) ltac:(lia) Hl1 (calls_pos fd1))
    as (b2 & fd2 & -> & Hst4 & Hl2 & Hn2 & _).
  { rewrite Hst3, Hst2. cbn [app]. rewrite blen_app, blen_cons, blen_app. pose proof (blen_nonneg (13 :: 10 :: rest)). lia. }
  assert (∃ z, b2 = (line ++ 10 :: data c) ++ z) as [z Eb2].
  { rewrite Hst3, Hst2 in Hst4. unfold stream in Hst4.
    assert ([] ++ line ++ 10 :: data c ++ [13] ++ 10 :: rest = (line ++ 10 :: data c) ++ [13] ++ 10 :: rest) as E by (cbn [app]; rewrite <- app_assoc; done).
    rewrite E in Hst4. apply prefix_cases in Hst4 as [(z & -> & _)|(z & Hz & _ & Hzne)]; [by exists z|].
    exfalso. apply (f_equal blen) in Hz. rewrite !blen_app, blen_cons in Hz. destruct z as [|d z]; [done|]. rewrite blen_cons in Hz.
    pose proof (blen_nonneg z). lia. }
  assert (ztake (blen (data c)) (zdrop (0 + blen line + 1) b2) = data c) as ->.
  { rewrite Eb2. replace (0 + blen line + 1) with (blen (line ++ [10])) by (rewrite blen_app; change (blen [10]) with 1; lia).
    replace ((line ++ 10 :: data c) ++ z) with ((line ++ [10]) ++ data c ++ z) by (rewrite <- !app_assoc; done).
    by rewrite zdrop_app, ztake_app. }
  assert (stream b2 fd2 = (line ++ 10 :: data c) ++ [13] ++ 10 :: rest) as Hst5.
  { rewrite Hst4, Hst3, Hst2. cbn [app]. by rewrite <- app_assoc. }
  replace (0 + blen line + 1 + blen (data c)) with (blen (line ++ 10 :: data c)) by (rewrite blen_app, blen_cons; lia).
  destruct (line_end_reads (calls fd2) fd2 b2 (line ++ 10 :: data c) [13] rest 2 Hl2 (calls_pos fd2)
    ltac:(by exists z) Hst5) as (b3 & fd3 & -> & Hr3); [set_solver|done|].
  destruct (reads_line _ _ _ _ _ _ _ Hr3 Hst5) as (y3 & Eb3 & _).
  pose proof (blank_line_spec (line ++ 10 :: data c) [] y3 ltac:(set_solver)) as Hbl. cbn [app] in Hbl.
  rewrite Eb3. cbn [app]. rewrite Hbl. cbn [negb bool_decide].
  destruct Hr3 as (Hst6 & Hl3 & _).
  rewrite (IH fuel fd3 _ _ (done ++ data c)).
  - cbn [map concat]. by rewrite app_assoc.
  - cbn [length] in Hf. lia.
  - done.
  - rewrite blen_app. lia.
  - unfold stream in *. rewrite Hst5, Eb3 in Hst6.
    set (pre := line ++ 10 :: data c) in *. cbn [app] in *.
    assert (∀ q, pre ++ 13 :: 10 :: q = (pre ++ [13; 10]) ++ q) as Eq by (intros; by rewrite <- (app_assoc pre)).
    rewrite <- app_assoc in Hst6. apply app_inv_head in Hst6. cbn [app] in Hst6. injection Hst6 as <-. f_equal. rewrite Eq.
    change (blen [13]) with 1. replace (blen pre + 1 + 1) with (blen (pre ++ [13; 10])) by (rewrite blen_app; change (blen [13; 10]) with 2; lia).
    apply zdrop_app.
Qed.
End body.

(** ** Whole requests *)

Section request.
Context (m t : list Z) (hs : list header) (n : Z).
Context (Hm : word_ok 7 m) (Hcolon : 58 ∉ m) (Ht : word_ok 255 t) (Hhs : Forall header_wf hs).
Context (Hsize : blen (render_head m t hs) <= max_header) (Hlen : declares hs n) (Hn : 0 <= n <= max_body).

Definition chunked_body : bool := announces (bs "Transfer-Encoding") (bs "chunked") hs.
Definition wants_json : bool := announces (bs "Accept") (bs "application/json") hs.
Definition bare_path : list Z := fst (span (λ c, negb (c =? 63)) t).

(** What is known once the header is read. *)
Lemma head_read chunked fd tail : live fd → concat fd = render_head m t hs ++ tail →
  ∃ b x fd', b = render_head m t hs ++ x ∧ live fd' ∧ x ++ concat fd' = tail ∧
    read_http_request chunked fd =
      if chunked_body && chunked then
        body ← read_chunked_body (S (length (stream b fd'))) fd' b (blen (render_head m t hs)) [] max_body;
        Some (Request m bare_path body wants_json)
      else match recv_until (calls fd') 8192 fd' b (blen (render_head m t hs) + n) with
           | None => None
           | Some (b, _) => Some (Request m bare_path (ztake n (zdrop (blen (render_head m t hs)) b)) wants_json)
           end.
Proof using Hm Hcolon Ht Hhs Hsize Hlen Hn.
  intros Hl Hc. pose proof (render_ok m t hs Hm Ht Hhs Hsize) as Hok.
  destruct (read_header_reads _ Hok (calls fd) fd [] tail Hl (calls_pos fd) Hc) as (b & fd' & Eh & Hst & Hl' & Hb & _).
  { exists (render_head m t hs). split; [done|]. destruct Hok as [[h Hh] _ _ _]. rewrite Hh. by destruct h. }
  change (stream [] fd) with (concat fd) in Hst. rewrite Hc in Hst.
  assert (∃ x, b = render_head m t hs ++ x) as [x ->].
  { unfold stream in Hst. apply prefix_cases in Hst as [(x & -> & _)|(y & Hy & _ & Hne)]; [by exists x|].
    exfalso. rewrite Hy, blen_app in Hb. destruct y; [done|]. rewrite blen_cons in Hb. pose proof (blen_nonneg y). lia. }
  exists (render_head m t hs ++ x), x, fd'. split; [done|]. split; [done|].
  split; [unfold stream in Hst; rewrite <- app_assoc in Hst; by apply app_inv_head in Hst|].
  unfold read_http_request. rewrite Eh.
  rewrite request_line_head by done. cbv beta iota.
  rewrite (head_length m t hs Hm Hcolon Ht Hhs n) by (done || (unfold LONG_MAX, max_body in *; lia)).
  rewrite (proj2 (Z.ltb_ge n 0)), (proj2 (Z.ltb_ge max_body n)) by lia. cbn [orb].
  unfold header_chunked, header_accepts_json.
  change (bs "Accept:") with (bs "Accept" ++ [58]). change (bs "Transfer-Encoding:") with (bs "Transfer-Encoding" ++ [58]).
  rewrite !(announced m t hs) by (done || (vm_compute; set_solver)). done.
Qed.
End request.

Lemma recv_until_enough fuel size fd b need b' fd' :
  recv_until fuel size fd b need = Some (b', fd') → need <= blen (stream b fd).
Proof.
  revert fd b. induction fuel as [|fuel IH]; intros fd b; cbn [recv_until]; destruct (Z.leb_spec need (blen b)) as [Hle|_].
  1, 3: intros _; unfold stream; rewrite blen_app; pose proof (blen_nonneg (concat fd)); lia.
  - done.
  - destruct (recv size fd) as [[p fd1]|] eqn:E; [|done]. intros H%IH. unfold stream in *.
    assert (concat fd = p ++ concat fd1) as ->; [|by rewrite app_assoc].
    unfold recv in E. destruct fd as [|[|c q] fd]; [done..|]. destruct (_ <=? _); injection E as <- <-; [done|].
    cbn [concat]. by rewrite app_assoc, ztake_zdrop.
Qed.

Lemma read_header_short head (Hok : header_ok head) fuel fd b y :
  stream b fd ++ y = head → y ≠ [] → read_header fuel fd b = None.
Proof.
  intros E Hy. revert fd b E. induction fuel as [|fuel IH]; intros fd b E; cbn [read_header]; destruct (_ <=? _); try done.
  destruct (recv 4096 fd) as [[p fd1]|] eqn:Er; [|done].
  assert (concat fd = p ++ concat fd1) as Hc.
  { unfold recv in Er. destruct fd as [|[|c q] fd]; [done..|]. destruct (_ <=? _); injection Er as <- <-; [done|].
    cbn [concat]. by rewrite app_assoc, ztake_zdrop. }
  unfold stream in *. rewrite Hc, <- !app_assoc in E.
  rewrite (header_not_yet head Hok (b ++ p) (concat fd1 ++ y)).
  - apply IH. by rewrite <- !app_assoc.
  - by rewrite <- !app_assoc.
  - by destruct (concat fd1).
Qed.

(** A body by length. *)
Lemma plain_request_read chunked m t hs body after fd :
  word_ok 7 m → 58 ∉ m → word_ok 255 t → Forall header_wf hs → blen (render_head m t hs) <= max_header →
  declares hs (blen body) → blen body <= max_body → chunked_body hs && chunked = false →
  live fd → concat fd = render_head m t hs ++ body ++ after →
  read_http_request chunked fd = Some (Request m (bare_path t) body (wants_json hs)).
Proof.
  intros Hm Hcolon Ht Hhs Hsize Hlen Hmax Hch Hl Hc. pose proof (blen_nonneg body).
  destruct (head_read m t hs (blen body) Hm Hcolon Ht Hhs Hsize Hlen ltac:(lia) chunked fd _ Hl Hc)
    as (b & x & fd' & Hb & Hl' & Hst & ->). rewrite Hch.
  assert (stream b fd' = render_head m t hs ++ body ++ after) as Hst1 by (unfold stream; rewrite Hb, <- app_assoc, Hst; done).
  destruct (recv_until_reads (calls fd') 8192 fd' b (blen (render_head m t hs) + blen body) ltac:(lia) Hl' (calls_pos fd'))
    as (b2 & fd2 & -> & Hst2 & _ & Hb2 & _).
  { rewrite Hst1, !blen_app. pose proof (blen_nonneg after). lia. }
  do 2 f_equal. rewrite Hst1, app_assoc in Hst2. unfold stream in Hst2.
  apply prefix_cases in Hst2 as [(z & -> & _)|(z & Hz & _ & Hne)].
  - by rewrite <- app_assoc, zdrop_app, ztake_app.
  - exfalso. apply (f_equal blen) in Hz. rewrite !blen_app in Hz. destruct z; [done|]. rewrite blen_cons in Hz.
    pose proof (blen_nonneg z0). lia.
Qed.

(** A request whose body comes in chunks is read in whatever pieces the connection
    delivers it: the body is the chunks' data joined, up to the size limit; chunk
    extensions, trailer lines and any declared length are ignored, and a chunk whose
    data looks like framing is still data. *)
Lemma chunked_request_read m t hs n cs zero ext trailers after fd :
  word_ok 7 m → 58 ∉ m → word_ok 255 t → Forall header_wf hs → blen (render_head m t hs) <= max_header →
  declares hs n → 0 <= n <= max_body → chunked_body hs = true →
  Forall chunk_wf cs → blen (concat (map data cs)) <= max_body →
  size_ok zero 0 → ext_ok ext → blen (zero ++ ext) < 8192 → Forall trailer_wf trailers →
  live fd → concat fd = render_head m t hs ++ render_chunked cs zero ext trailers ++ after →
  read_http_request true fd = Some (Request m (bare_path t) (concat (map data cs)) (wants_json hs)).
Proof.
  intros Hm Hcolon Ht Hhs Hsize Hlen Hn Hch Hcs Hbody Hz He Hzl Htr Hl Hc.
  destruct (head_read m t hs n Hm Hcolon Ht Hhs Hsize Hlen Hn true fd _ Hl Hc)
    as (b & x & fd' & Hb & Hl' & Hst & ->). rewrite Hch. cbn [andb].
  rewrite (chunks_read zero ext trailers after max_body Hz He Hzl Htr ltac:(unfold max_body; lia) _ cs fd' b _ []); [done| |done..|].
  - unfold stream. rewrite Hb, <- app_assoc, Hst, !length_app. unfold render_chunked. rewrite !length_app. cbn [length].
    enough (length cs <= length (concat (map render_chunk cs)))%nat by (pose proof (crlf_count trailers); lia).
    clear. induction cs as [|c cs IH]; [simpl; lia|]. cbn [map concat length]. rewrite length_app.
    unfold render_chunk at 1. rewrite !length_app. cbn [length]. lia.
  - unfold stream. rewrite Hb, zdrop_app. exact Hst.
Qed.

(** ** Requests that end early *)

(** A list that ends in the middle of another, up to the first newline. *)
Lemma line_unique l1 l2 k1 k2 : 10 ∉ l1 → 10 ∉ l2 → l1 ++ 10 :: k1 = l2 ++ 10 :: k2 → l1 = l2 ∧ k1 = k2.
Proof.
  revert l2. induction l1 as [|c l1 IH]; intros [|d l2] H1 H2 E; cbn [app] in E.
  - injection E as E. by subst.
  - injection E as E1 _. subst d. set_solver.
  - injection E as E1 _. subst c. set_solver.
  - injection E as E1 E2. subst d. destruct (IH l2) as [-> ->]; [set_solver|set_solver|done|done].
Qed.

Lemma recv_concat size fd p fd' : recv size fd = Some (p, fd') → concat fd = p ++ concat fd'.
Proof.
  unfold recv. destruct fd as [|[|c q] fd]; [done..|]. destruct (_ <=? _); intros [= <- <-]; [done|].
  cbn [concat]. by rewrite app_assoc, ztake_zdrop.
Qed.

Lemma strchr_found b c i : strchr b c = Some i → ∃ l k, b = l ++ c :: k ∧ blen l = i ∧ c ∉ l.
Proof.
  intros [(l & k & -> & Hl) Hmin]%strstr_Some. exists l, k. split; [done|]. split; [done|].
  intros [l1 [l2 ->]]%list_elem_of_split. rewrite blen_app, blen_cons in Hl. pose proof (blen_nonneg l2).
  assert (occurs ((l1 ++ c :: l2) ++ [c] ++ k) [c] (blen l1)) as Ho by (exists l1, (l2 ++ [c] ++ k); by rewrite <- app_assoc).
  specialize (Hmin _ Ho). lia.
Qed.

(** The bytes from [pos] on have a line that ends at [le], in the buffer too. *)
Definition line_at (b : list Z) (fd : net) (pos le : Z) (line more : list Z) : Prop :=
  zdrop pos (stream b fd) = line ++ 10 :: more ∧ (10 ∉ line) ∧ (le = pos + blen line + 1) ∧ (le <= blen b).

Lemma line_end_sound fuel fd b pos max_line b' fd' le : 0 <= pos <= blen b →
  chunk_line_end fuel fd b pos max_line = Some (b', fd', le) →
  stream b' fd' = stream b fd ∧ ∃ line more, line_at b' fd' pos le line more.
Proof.
  revert fd b. induction fuel as [|fuel IH]; intros fd b Hp; cbn [chunk_line_end];
    destruct (strchr (zdrop pos b) 10) as [i|] eqn:E.
  2: by destruct (_ <? _).
  3: { destruct (_ <? _); [done|]. destruct (recv 8192 fd) as [[p fd1]|] eqn:Er; [|done].
       intros (Hst & line & more & H)%IH; [|rewrite blen_app; pose proof (blen_nonneg p); lia].
       split; [|by exists line, more]. rewrite Hst. unfold stream. by rewrite <- app_assoc, <- (recv_concat _ _ _ _ Er). }
  all: intros [= <- <- <-]; split; [done|]; apply strchr_found in E as (l & k & E & <- & Hln).
  all: assert (blen b - pos = blen l + 1 + blen k) as Hlen by (rewrite <- (blen_zdrop pos b), E, blen_app, blen_cons by lia; lia).
  all: exists l, (k ++ concat fd); pose proof (blen_nonneg k); split; [|split; [done|split; lia]].
  all: unfold stream; rewrite <- (ztake_zdrop pos b) at 1; replace pos with (blen (ztake pos b)) at 1 by (rewrite blen_ztake; lia).
  all: by rewrite <- app_assoc, zdrop_app, E, <- app_assoc.
Qed.

Lemma recv_until_sound fuel size fd b need b' fd' :
  recv_until fuel size fd b need = Some (b', fd') → stream b' fd' = stream b fd ∧ need <= blen b'.
Proof.
  revert fd b. induction fuel as [|fuel IH]; intros fd b; cbn [recv_until]; destruct (Z.leb_spec need (blen b)) as [Hle|_].
  1, 3: by intros [= <- <-].
  - done.
  - destruct (recv size fd) as [[p fd1]|] eqn:Er; [|done]. intros [Hst Hn]%IH. split; [|done].
    unfold stream in *. by rewrite Hst, <- app_assoc, <- (recv_concat _ _ _ _ Er).
Qed.

Lemma zdrop_stream b fd pos : 0 <= pos <= blen b → zdrop pos (stream b fd) = stream (zdrop pos b) fd.
Proof.
  intros Hp. unfold stream. rewrite <- (ztake_zdrop pos b) at 1. rewrite <- app_assoc.
  replace pos with (blen (ztake pos b)) at 1 by (rewrite blen_ztake; lia). apply zdrop_app.
Qed.

(** What is behind the line, and the line in the buffer. *)
Lemma line_at_more b fd pos le line more : 0 <= pos → line_at b fd pos le line more →
  zdrop le (stream b fd) = more ∧ ∃ y, zdrop pos b = line ++ 10 :: y.
Proof.
  intros Hp (E & _ & -> & Hle). pose proof (blen_nonneg line).
  assert (line ++ 10 :: more = (line ++ [10]) ++ more) as Ea by by rewrite <- app_assoc. split.
  - rewrite <- (ztake_zdrop pos (stream b fd)), E.
    replace (pos + blen line + 1) with (blen (ztake pos (stream b fd) ++ line ++ [10])).
    + rewrite Ea, !app_assoc. apply zdrop_app.
    + rewrite !blen_app, blen_ztake; [change (blen [10]) with 1; lia|]. unfold stream. rewrite blen_app.
      pose proof (blen_nonneg (concat fd)). lia.
  - rewrite zdrop_stream in E by lia. unfold stream in E.
    rewrite Ea in E. apply prefix_cases in E as [(y & -> & _)|(y & Hy & _ & Hne)]; [exists y; by rewrite <- app_assoc|].
    exfalso. apply (f_equal blen) in Hy. rewrite !blen_app, blen_zdrop in Hy by lia. change (blen [10]) with 1 in Hy.
    destruct y as [|c y]; [done|]. rewrite blen_cons in Hy. pose proof (blen_nonneg y). lia.
Qed.

Lemma trailers_short fuel ls fd b pos rest : Forall trailer_wf ls → 0 <= pos <= blen b →
  zdrop pos (stream b fd) ++ rest = crlf_lines (ls ++ [[]]) → rest ≠ [] → skip_trailers fuel fd b pos = None.
Proof.
  revert ls fd b pos. induction fuel as [|fuel IH]; intros ls fd b pos Hw Hp E Hr; cbn [skip_trailers]; [done|].
  destruct (chunk_line_end _ _ _ _ _) as [[[b1 fd1] le]|] eqn:El; [|done].
  apply line_end_sound in El as (Hst & line & more & Hat); [|done].
  pose proof (line_at_more _ _ _ _ _ _ (proj1 Hp) Hat) as [Hmore _]. destruct Hat as (Eb & Hln & Hle & Hb).
  rewrite <- Hst, Eb, <- app_assoc in E. cbn [app] in E. pose proof (blen_nonneg line).
  destruct Hw as [|l ls (Hne & Hl & _) Hw].
  - change (crlf_lines ([] ++ [[]])) with ([13] ++ 10 :: []) in E.
    apply line_unique in E as [-> E]; [|done|set_solver]. apply app_eq_nil in E as [_ ->]. done.
  - assert (crlf_lines ((l :: ls) ++ [[]]) = (l ++ [13]) ++ 10 :: crlf_lines (ls ++ [[]])) as E2
      by (unfold crlf_lines; cbn [map concat app]; by rewrite <- !app_assoc).
    rewrite E2 in E. apply line_unique in E as [-> E]; [|done|set_solver].
    assert (blank_line b1 pos le = false) as ->.
    { unfold blank_line. rewrite blen_app in Hle. change (blen [13]) with 1 in Hle.
      destruct l as [|c l]; [done|]. rewrite blen_cons in Hle. pose proof (blen_nonneg l).
      rewrite (proj2 (Z.eqb_neq _ 1)), (proj2 (Z.eqb_neq _ 2)) by lia. done. }
    apply (IH ls); [done|lia|by rewrite Hmore|done].
Qed.

Section short_body.
Context (zero ext : list Z) (trailers : list (list Z)) (max : Z) (rest : list Z).
Context (Hzero : size_ok zero 0) (Hext : ext_ok ext) (Htr : Forall trailer_wf trailers) (Hrest : rest ≠ []).

Lemma body_short fuel cs fd b pos done : Forall chunk_wf cs → 0 <= pos <= blen b →
  blen (concat (map data cs)) < 2 ^ 64 →
  zdrop pos (stream b fd) ++ rest = render_chunked cs zero ext trailers → read_chunked_body fuel fd b pos done max = None.
Proof using Hzero Hext Htr Hrest.
  revert cs fd b pos done. induction fuel as [|fuel IH]; intros cs fd b pos done Hcs Hp Hd E; cbn [read_chunked_body]; [reflexivity|].
  rewrite zdrop_stream in E by lia. set (b0 := zdrop pos b) in *.
  destruct (chunk_line_end _ _ _ _ _) as [[[b1 fd1] le]|] eqn:El; [|reflexivity]. pose proof (blen_nonneg b0).
  apply line_end_sound in El as (Hst & line & more & Hat); [|lia].
  pose proof (line_at_more _ _ _ _ _ _ (Z.le_refl 0) Hat) as [Hmore [y Hy]]. destruct Hat as (Eb & Hln & Hle & Hb).
  change (zdrop 0 b1) with b1 in Hy. change (zdrop 0 (stream b1 fd1)) with (stream b1 fd1) in Eb.
  rewrite <- Hst, Eb, <- app_assoc in E. cbn [app] in E. pose proof (blen_nonneg line).
  destruct Hcs as [|c cs (Hsz & Hce & Hne & _) Hcs].
  - assert (render_chunked [] zero ext trailers = (zero ++ ext ++ [13]) ++ 10 :: crlf_lines (trailers ++ [[]])) as E2
      by (unfold render_chunked; cbn [map concat app]; by rewrite <- !app_assoc).
    rewrite E2 in E. apply line_unique in E as [-> E]; [|assumption|by eapply size_line_plain].
    assert (chunk_size b1 = Some 0) as -> by (rewrite Hy, <- !app_assoc; cbn [app]; by apply chunk_size_line).
    cbn [Z.eqb]. rewrite (trailers_short _ trailers _ _ _ rest); [reflexivity|assumption|lia|by rewrite Hmore|assumption].
  - rewrite render_chunked_cons, render_chunk_cut in E.
    apply line_unique in E as [-> E]; [|assumption|by eapply size_line_plain].
    cbn [map concat] in Hd. rewrite blen_app in Hd. pose proof (blen_nonneg (concat (map data cs))).
    assert (0 < blen (data c)) as Hpos by (destruct (data c); [done|rewrite blen_cons; pose proof (blen_nonneg l); lia]).
    assert (chunk_size b1 = Some (blen (data c))) as ->
      by (rewrite Hy, <- !app_assoc; cbn [app]; apply chunk_size_line; [assumption|assumption|lia]).
    rewrite (proj2 (Z.eqb_neq _ 0)) by lia. destruct (_ || _); [reflexivity|].
    destruct (recv_until _ _ _ _ _) as [[b2 fd2]|] eqn:Er; [|reflexivity]. apply recv_until_sound in Er as [Hst2 Hn].
    destruct (chunk_line_end _ _ _ _ _) as [[[b3 fd3] le3]|] eqn:El3; [|reflexivity].
    apply line_end_sound in El3 as (Hst3 & line3 & more3 & Hat3); [|lia].
    pose proof (line_at_more _ _ _ _ _ _ (ltac:(lia) : 0 <= le + blen (data c)) Hat3) as [Hmore3 _].
    destruct Hat3 as (Eb3 & Hln3 & Hle3 & Hb3). destruct (negb _); [reflexivity|].
    assert (stream b1 fd1 = ztake le (stream b1 fd1) ++ more) as Hcut by (by rewrite <- Hmore, ztake_zdrop).
    assert (blen (ztake le (stream b1 fd1)) = le) as Hcl.
    { apply blen_ztake. unfold stream. rewrite blen_app. pose proof (blen_nonneg (concat fd1)). lia. }
    assert (∃ m2, more = data c ++ m2) as [m2 ->].
    { apply prefix_cases in E as [(m2 & -> & _)|(y2 & Hy2 & _ & Hne2)]; [by exists m2|]. exfalso.
      pose proof (blen_nonneg (concat fd2)) as H2. apply (f_equal blen) in Hy2, Hcut. rewrite <- Hst2 in Hcut at 1.
      unfold stream in Hcut at 1. rewrite !blen_app, Hcl in Hcut. rewrite blen_app in Hy2. destruct y2 as [|d y2]; [done|].
      rewrite blen_cons in Hy2. pose proof (blen_nonneg y2). lia. }
    rewrite <- app_assoc in E. apply app_inv_head in E.
    assert (m2 = line3 ++ 10 :: more3) as ->.
    { rewrite <- Eb3, Hst3, Hst2, Hcut, app_assoc, <- Hcl at 1. rewrite <- blen_app. by rewrite zdrop_app. }
    rewrite <- app_assoc in E. cbn [app] in E. change (13 :: 10 :: ?k) with ([13] ++ 10 :: k) in E.
    apply line_unique in E as [-> E]; [|assumption|set_solver].
    apply (IH cs); [assumption|change (blen [13]) with 1 in Hle3; lia|lia|by rewrite Hmore3].
Qed.
End short_body.

(** ** What is sent *)

(** The bytes behind the header that carry [body]: as many as the headers
    declare, or, when chunks are enabled and announced, chunks with their
    extensions and trailer lines; at most 64 MiB either way, and the lines of
    the framing shorter than 8192 bytes. *)
Inductive framed (chunked : bool) (hs : list header) (body : list Z) : list Z → Prop :=
| framed_plain : chunked_body hs && chunked = false → declares hs (blen body) → blen body <= max_body →
    framed chunked hs body body
| framed_chunks n cs zero ext trailers : chunked_body hs && chunked = true → declares hs n → 0 <= n <= max_body →
    Forall chunk_wf cs → blen (concat (map data cs)) <= max_body → body = concat (map data cs) →
    size_ok zero 0 → ext_ok ext → blen (zero ++ ext) < 8192 → Forall trailer_wf trailers →
    framed chunked hs body (render_chunked cs zero ext trailers).

(** The request line and the headers: a method of 1 to 7 and a target of 1 to
    255 visible bytes, no colon in the method, no colon in a header's name and
    no newline in either of its parts; the whole, with its line ends, at most
    64 KiB. *)
Definition head_wf (m t : list Z) (hs : list header) : Prop :=
  word_ok 7 m ∧ (58 ∉ m) ∧ word_ok 255 t ∧ Forall header_wf hs ∧ (blen (render_head m t hs) <= max_header).


(** C23: A connection that ends before such a request is complete gives no
    request: a cut header, a body shorter than the declared length and a
    chunked body that ends anywhere before the line end behind its trailers,
    in the middle of a chunk or after one, are all refused. *)
Theorem short_request_refused chunked m t hs body wire fd rest :
  head_wf m t hs → framed chunked hs body wire → live fd →
  concat fd ++ rest = render_head m t hs ++ wire → rest ≠ [] → read_http_request chunked fd = None.
Proof.
  intros (Hm & Hcolon & Ht & Hhs & Hsize) Hf Hl Hc Hr.
  apply prefix_cases in Hc as [(x & Hc & Hx)|(y & Hy & Hrest & Hne)].
  2: { unfold read_http_request. by rewrite (read_header_short (render_head m t hs) (render_ok m t hs Hm Ht Hhs Hsize) _ _ [] y). }
  destruct Hf as [Hch Hlen Hmax|n cs zero ext trailers Hch Hlen Hn Hcs Hbody -> Hz He Hzl Htr].
  - pose proof (blen_nonneg body).
    destruct (head_read m t hs (blen body) Hm Hcolon Ht Hhs Hsize Hlen ltac:(lia) chunked fd x Hl Hc)
      as (b & z & fd' & Hb & Hl' & Hst & ->). rewrite Hch.
    destruct (recv_until _ _ _ _ _) as [[b' fd2]|] eqn:E; [|done]. apply recv_until_enough in E. exfalso.
    unfold stream in E. rewrite Hb, <- app_assoc, Hst, blen_app in E. apply (f_equal blen) in Hx. rewrite blen_app in Hx.
    destruct rest; [done|]. rewrite blen_cons in Hx. pose proof (blen_nonneg rest). lia.
  - destruct (head_read m t hs n Hm Hcolon Ht Hhs Hsize Hlen Hn chunked fd x Hl Hc)
      as (b & z & fd' & Hb & Hl' & Hst & ->). rewrite Hch.
    rewrite (body_short zero ext trailers max_body rest Hz He Htr Hr _ cs); [done|done| |unfold max_body in *; lia|].
    + rewrite Hb, blen_app. pose proof (blen_nonneg z). pose proof (blen_nonneg (render_head m t hs)). lia.
    + unfold stream. by rewrite Hb, <- app_assoc, zdrop_app, Hst.
Qed.

(** ** Witnesses *)

Definition example_headers : list header := [(bs "Host", bs "localhost"); (bs "content-length", bs "11"); (bs "ACCEPT", bs "text/plain, application/json")].
Definition chunked_headers : list header := [(bs "Transfer-Encoding", bs "gzip, Chunked")].

Lemma forall_compute {A} (P : A → Prop) (f : A → bool) l : (∀ a, f a = true → P a) → forallb f l = true → Forall P l.
Proof. intros Hf Hl. rewrite forallb_forall in Hl. apply List.Forall_forall. intros a Ha. by apply Hf, Hl. Qed.

Definition word_okb (n : Z) (w : list Z) : bool :=
  (1 <=? blen w) && (blen w <=? n) && forallb (λ c, negb (isspace c) && (0 <? c) && (c <? 256)) w.

Lemma word_okb_ok n w : word_okb n w = true → word_ok n w.
Proof.
  unfold word_okb. rewrite !andb_true_iff. intros [[H1 H2] H3]. split; [lia|].
  eapply forall_compute; [|exact H3]. cbn. intros c Hc. destruct (isspace c); cbn in Hc; lia.
Qed.

Definition header_wfb (h : header) : bool := bool_decide (58 ∉ fst h) && bool_decide (10 ∉ fst h) && bool_decide (10 ∉ snd h).

Lemma header_wfb_ok h : header_wfb h = true → header_wf h.
Proof. unfold header_wfb. rewrite !andb_true_iff, !bool_decide_eq_true. unfold header_wf. tauto. Qed.

Definition example_net : net :=
  [ztake 30 (render_head (bs "POST") (bs "/v1/messages?beta") example_headers); zdrop 30 (render_head (bs "POST") (bs "/v1/messages?beta") example_headers) ++ [13; 10];
   bs "a" ++ [13; 10]; bs "b" ++ [13; 10; 13; 10] ++ bs "cGET / HTTP"].

Lemma example_head : head_wf (bs "POST") (bs "/v1/messages?beta") example_headers.
Proof.
  split; [by apply word_okb_ok|]. split; [by apply (bool_decide_eq_true _)|]. split; [by apply word_okb_ok|].
  split; [apply (forall_compute _ header_wfb); [exact header_wfb_ok|reflexivity]|]. vm_compute. discriminate.
Qed.


Definition example_chunks : list chunk := [Chunk (bs "00A") (bs " ;x=1") (bs "0" ++ [13; 10; 13; 10] ++ bs "abcde"); Chunk (bs "1") [] (bs "!")].
Definition chunk_net : net :=
  map (λ c, [c]) (render_head (bs "PUT") (bs "/") chunked_headers ++ render_chunked example_chunks (bs "00") [] [bs "Trailer: 1"]).

Lemma chunks_wf : Forall chunk_wf example_chunks.
Proof.
  unfold example_chunks. constructor; [|constructor; [|constructor]].
  - split; [split; [discriminate|split; vm_compute; reflexivity]|]. split; [split; [apply (bool_decide_eq_true _); vm_compute; reflexivity|]|].
    + intros c r H. vm_compute in H. injection H as <- _. reflexivity.
    + split; [vm_compute; discriminate|vm_compute; reflexivity].
  - split; [split; [discriminate|split; vm_compute; reflexivity]|]. split; [split; [apply (bool_decide_eq_true _); vm_compute; reflexivity|]|].
    + intros c r H. vm_compute in H. discriminate.
    + split; [vm_compute; discriminate|vm_compute; reflexivity].
Qed.

Lemma chunked_head : head_wf (bs "PUT") (bs "/") chunked_headers.
Proof.
  split; [by apply word_okb_ok|]. split; [by apply (bool_decide_eq_true _)|]. split; [by apply word_okb_ok|].
  split; [apply (forall_compute _ header_wfb); [exact header_wfb_ok|reflexivity]|]. vm_compute. discriminate.
Qed.

Lemma example_framed : framed true chunked_headers (bs "0" ++ [13; 10; 13; 10] ++ bs "abcde!")
  (render_chunked example_chunks (bs "00") [] [bs "Trailer: 1"]).
Proof.
  apply (framed_chunks _ _ _ 0); [reflexivity|reflexivity|vm_compute; split; discriminate|exact chunks_wf|vm_compute; discriminate|reflexivity|..].
  - split; [discriminate|split; reflexivity].
  - split; [apply (bool_decide_eq_true _); reflexivity|]. intros c r H. vm_compute in H. discriminate.
  - reflexivity.
  - repeat constructor; try discriminate. apply (bool_decide_eq_true _). reflexivity.
Qed.

(** The pieces of single bytes. *)
Example chunked_request_read_example :
  read_http_request true chunk_net = Some (Request (bs "PUT") (bs "/") (bs "0" ++ [13; 10; 13; 10] ++ bs "abcde!") false).
Proof. vm_compute. reflexivity. Qed.

(** The connection ends inside the first chunk. *)
Example short_request_refused_witness : read_http_request true (take 65 chunk_net) = None.
Proof.
  apply (short_request_refused true (bs "PUT") (bs "/") chunked_headers _ _ _ (concat (drop 65 chunk_net)) chunked_head example_framed).
  - apply (forall_compute _ (λ p, negb (bool_decide (p = [])))); [|vm_compute; reflexivity].
    intros p Hp%negb_true_iff. by apply bool_decide_eq_false in Hp.
  - vm_compute. reflexivity.
  - vm_compute. discriminate.
Defined.

(** A method of more than seven bytes is cut. *)
Example long_method_cut :
  read_http_request true [bs "PROPFIND / HTTP/1.1" ++ [13; 10; 13; 10]] = Some (Request (bs "PROPFIN") (bs "D") [] false).
Proof. vm_compute. reflexivity. Qed.

(** A header that ends lines with bare newlines is cut wrongly when the bytes read with
    it hold an empty line with carriage returns: the same bytes give two requests. *)
Example bare_newline_header_depends_on_pieces :
  let head := bs "POST / HTTP/1.1" ++ [10] ++ bs "Content-Length: 6" ++ [10; 10] in
  let body := [13; 10; 13; 10] ++ bs "ab" in
  read_http_request true [head; body] = Some (Request (bs "POST") (bs "/") body false) ∧
  read_http_request true [head ++ body] = None.
Proof. split; vm_compute; reflexivity. Qed.

(** An empty length takes its digits from the next line. *)
Example empty_length_reads_next_line :
  read_http_request true [bs "POST / HTTP/1.1" ++ [13; 10] ++ bs "Content-Length:" ++ [13; 10] ++ bs "2: x" ++ [13; 10; 13; 10] ++ bs "ab"] =
  Some (Request (bs "POST") (bs "/") (bs "ab") false).
Proof. vm_compute. reflexivity. Qed.
