(* ===== verification/DistWire.v ===== *)
(** * The wire format of distributed workers (ds4_distributed.c)

    Records of 32-bit fields in network byte order behind a frame header, token hashes,
    and reading exactly so many bytes from a connection that delivers pieces. *)

From S2P Require Import Prelude Bytes Text Json Http HttpSpec.

(** ** Fields *)

(** htonl, as the bytes it leaves in memory *)
Definition be32 (v : Z) : list Z := [u8 (Z.shiftr v 24); u8 (Z.shiftr v 16); u8 (Z.shiftr v 8); u8 v].

Definition be32s (l : list Z) : list Z := concat (map be32 l).

(** ntohl of the [i]th field of a record. *)
Definition word (b : list Z) (i : Z) : Z :=
  let at_ k := znth 0 b (4 * i + k) in
  Z.lor (Z.shiftl (at_ 0) 24) (Z.lor (Z.shiftl (at_ 1) 16) (Z.lor (Z.shiftl (at_ 2) 8) (at_ 3))).

Definition dist_u64_from_halves (hi lo : Z) : Z := Z.lor (Z.shiftl hi 32) lo.
Definition dist_u64_to_halves (v : Z) : Z * Z := (u32 (Z.shiftr v 32), u32 v).

Definition dist_bytes_have_nul (p : list Z) : bool := existsb (fun c => c =? 0) p.

(** dist_u64_add, dist_u64_mul *)
Definition dist_u64_add (acc add : Z) : option Z := if UINT64_MAX - add <? acc then None else Some (acc + add).
Definition dist_u64_mul (a b : Z) : option Z :=
  if negb (a =? 0) && (UINT64_MAX / a <? b) then None else Some (u64 (a * b)).

(** A number as printf writes it with %u. *)
Fixpoint digits_of (fuel : nat) (n : Z) : list Z :=
  match fuel with
  | O => []
  | S fuel => (if n <? 10 then [] else digits_of fuel (n / 10)) ++ [48 + n mod 10]
  end.
Definition dec (n : Z) : list Z := digits_of 20 n.

(** ** Records *)

Record ds4_dist_frame_header := FrameHeader { magic : Z; type : Z; bytes : Z }.
Record ds4_dist_hello_fixed := HelloFixed {
  hello_model_id : Z; hello_quant_bits : Z; hello_layer_start : Z; hello_layer_end : Z;
  hello_has_output : Z; hello_has_hidden : Z; hello_ctx_size : Z; hello_n_layers : Z;
  hello_listen_port : Z; hello_model_name_len : Z }.
Record ds4_dist_work_fixed := WorkFixed {
  work_model_id : Z; work_session_hi : Z; work_session_lo : Z; work_request_hi : Z; work_request_lo : Z;
  work_prefix_hash_hi : Z; work_prefix_hash_lo : Z; work_result_hash_hi : Z; work_result_hash_lo : Z;
  work_pos0 : Z; work_n_tokens : Z; work_layer_start : Z; work_layer_end : Z; work_flags : Z;
  work_token_bytes : Z; work_input_hc_bytes : Z; work_input_hc_bits : Z;
  work_route_count : Z; work_route_index : Z; work_route_bytes : Z }.
Record ds4_dist_route_fixed := RouteFixed {
  rf_host_len : Z; rf_port : Z; rf_layer_start : Z; rf_layer_end : Z; rf_flags : Z }.
Record ds4_dist_route_return_fixed := RouteReturnFixed { rr_kind : Z; rr_host_len : Z; rr_port : Z }.
Record ds4_dist_result_fixed := ResultFixed {
  res_request_hi : Z; res_request_lo : Z; res_result_hash_hi : Z; res_result_hash_lo : Z; res_status : Z;
  res_result_kind : Z; res_telemetry_count : Z; res_telemetry_bytes : Z; res_payload_bytes : Z; res_payload_bits : Z }.
Record ds4_dist_telemetry_fixed := TelemetryFixed {
  tel_layer_start : Z; tel_layer_end : Z; tel_route_index : Z; tel_pos0 : Z; tel_n_tokens : Z;
  tel_eval_usec : Z; tel_downstream_wait_usec : Z; tel_forward_send_usec : Z; tel_input_bytes : Z; tel_output_bytes : Z }.

Definition dist_hello_to_wire (h : ds4_dist_hello_fixed) : list Z :=
  be32s [hello_model_id h; hello_quant_bits h; hello_layer_start h; hello_layer_end h; hello_has_output h;
         hello_has_hidden h; hello_ctx_size h; hello_n_layers h; hello_listen_port h; hello_model_name_len h].
Definition dist_hello_from_wire (b : list Z) : ds4_dist_hello_fixed :=
  HelloFixed (word b 0) (word b 1) (word b 2) (word b 3) (word b 4) (word b 5) (word b 6) (word b 7) (word b 8) (word b 9).

Definition dist_work_to_wire (w : ds4_dist_work_fixed) : list Z :=
  be32s [work_model_id w; work_session_hi w; work_session_lo w; work_request_hi w; work_request_lo w;
         work_prefix_hash_hi w; work_prefix_hash_lo w; work_result_hash_hi w; work_result_hash_lo w;
         work_pos0 w; work_n_tokens w; work_layer_start w; work_layer_end w; work_flags w;
         work_token_bytes w; work_input_hc_bytes w; work_input_hc_bits w;
         work_route_count w; work_route_index w; work_route_bytes w].
Definition dist_work_from_wire (b : list Z) : ds4_dist_work_fixed :=
  WorkFixed (word b 0) (word b 1) (word b 2) (word b 3) (word b 4) (word b 5) (word b 6) (word b 7) (word b 8) (word b 9)
    (word b 10) (word b 11) (word b 12) (word b 13) (word b 14) (word b 15) (word b 16) (word b 17) (word b 18) (word b 19).

Definition dist_route_to_wire (r : ds4_dist_route_fixed) : list Z :=
  be32s [rf_host_len r; rf_port r; rf_layer_start r; rf_layer_end r; rf_flags r].
Definition dist_route_from_wire (b : list Z) : ds4_dist_route_fixed :=
  RouteFixed (word b 0) (word b 1) (word b 2) (word b 3) (word b 4).

Definition dist_route_return_to_wire (r : ds4_dist_route_return_fixed) : list Z :=
  be32s [rr_kind r; rr_host_len r; rr_port r].
Definition dist_route_return_from_wire (b : list Z) : ds4_dist_route_return_fixed :=
  RouteReturnFixed (word b 0) (word b 1) (word b 2).

Definition dist_result_to_wire (r : ds4_dist_result_fixed) : list Z :=
  be32s [res_request_hi r; res_request_lo r; res_result_hash_hi r; res_result_hash_lo r; res_status r;
         res_result_kind r; res_telemetry_count r; res_telemetry_bytes r; res_payload_bytes r; res_payload_bits r].
Definition dist_result_from_wire (b : list Z) : ds4_dist_result_fixed :=
  ResultFixed (word b 0) (word b 1) (word b 2) (word b 3) (word b 4) (word b 5) (word b 6) (word b 7) (word b 8) (word b 9).

Definition dist_telemetry_to_wire (t : ds4_dist_telemetry_fixed) : list Z :=
  be32s [tel_layer_start t; tel_layer_end t; tel_route_index t; tel_pos0 t; tel_n_tokens t;
         tel_eval_usec t; tel_downstream_wait_usec t; tel_forward_send_usec t; tel_input_bytes t; tel_output_bytes t].
Definition dist_telemetry_from_wire (b : list Z) : ds4_dist_telemetry_fixed :=
  TelemetryFixed (word b 0) (word b 1) (word b 2) (word b 3) (word b 4) (word b 5) (word b 6) (word b 7) (word b 8) (word b 9).

(** ** Token hashes *)

Definition DS4_DIST_TOKEN_HASH_INIT : Z := 1469598103934665603.
Definition DS4_DIST_TOKEN_HASH_PRIME : Z := 1099511628211.

Fixpoint hash_token_bytes (i : nat) (t h : Z) : Z :=
  match i with
  | O => h
  | S i => hash_token_bytes i (Z.shiftr t 8) (u64 (Z.lxor h (Z.land t 255) * DS4_DIST_TOKEN_HASH_PRIME))
  end.

Definition dist_token_hash_update (h token : Z) : Z := hash_token_bytes 4 (u32 token) h.
Definition dist_token_hash_update_span (h : Z) (tokens : list Z) : Z := fold_left dist_token_hash_update tokens h.
Definition dist_token_hash_prefix (tokens : list Z) : Z := dist_token_hash_update_span DS4_DIST_TOKEN_HASH_INIT tokens.

(** ** Frames *)

Definition DS4_DIST_MAGIC : Z := 1146303556.
Definition DS4_DIST_MSG_HELLO : Z := 1.
Definition DS4_DIST_MSG_ERROR : Z := 2.
Definition DS4_DIST_MSG_WORK : Z := 3.
Definition DS4_DIST_MSG_RESULT : Z := 4.
Definition DS4_DIST_MSG_SNAPSHOT_SAVE_REQ : Z := 5.
Definition DS4_DIST_MSG_SNAPSHOT_LOAD_BEGIN : Z := 9.
Definition DS4_DIST_MAX_MODEL_NAME : Z := 127.

(** dist_read_full: exactly [len] bytes; [None] when the connection ends before *)
Fixpoint read_full_loop (fuel : nat) (fd : net) (len : Z) : option (list Z * net) :=
  if len <=? 0 then Some ([], fd)
  else match fuel with
  | O => None
  | S fuel =>
      '(p, fd) ← recv len fd;
      '(rest, fd) ← read_full_loop fuel fd (len - blen p);
      Some (p ++ rest, fd)
  end.
Definition dist_read_full (fd : net) (len : Z) : option (list Z * net) := read_full_loop (calls fd) fd len.

(** dist_write_frame_header, as the bytes it sends *)
Definition dist_write_frame_header (type bytes : Z) : list Z := be32s [DS4_DIST_MAGIC; type; bytes].

(** The type and length of a frame. *)
Definition dist_read_frame_header (fd : net) : option (Z * Z * net) :=
  '(h, fd) ← dist_read_full fd 12;
  if negb (word h 0 =? DS4_DIST_MAGIC) then None else Some (word h 1, word h 2, fd).

Fixpoint discard_loop (fuel : nat) (fd : net) (bytes : Z) : option net :=
  if bytes <=? 0 then Some fd
  else match fuel with
  | O => None
  | S fuel => let n := Z.min bytes 4096 in '(_, fd) ← dist_read_full fd n; discard_loop fuel fd (bytes - n)
  end.
Definition dist_discard_bytes (fd : net) (bytes : Z) : option net := discard_loop (Z.to_nat bytes) fd bytes.

(** ** Registration *)

(** dist_send_error, as the frame it sends *)
Definition dist_send_error (msg : list Z) : list Z := dist_write_frame_header DS4_DIST_MSG_ERROR (blen msg) ++ msg.

(** What a worker says of itself; the engine's facts and the options are arguments. *)
Definition dist_send_hello (model_id quant_bits layer_start layer_end : Z) (has_output : bool) (ctx_size n_layers listen_port : Z)
    (model_name : option (list Z)) : list Z :=
  let model_name := default (bs "unknown") model_name in
  let len := if DS4_DIST_MAX_MODEL_NAME <? blen model_name then DS4_DIST_MAX_MODEL_NAME else blen model_name in
  let h := HelloFixed model_id quant_bits layer_start layer_end (if has_output then 1 else 0) 1
             (if 0 <? ctx_size then ctx_size else 0) n_layers listen_port len in
  dist_write_frame_header DS4_DIST_MSG_HELLO (40 + len) ++ dist_hello_to_wire h ++ ztake len model_name.

Definition dist_recv_hello (fd : net) : option (ds4_dist_hello_fixed * list Z * net) :=
  '(type, bytes, fd) ← dist_read_frame_header fd;
  if negb (type =? DS4_DIST_MSG_HELLO) then None
  else if (bytes <? 40) || (40 + DS4_DIST_MAX_MODEL_NAME <? bytes) then None
  else
    '(wire, fd) ← dist_read_full fd 40;
    let wire := dist_hello_from_wire wire in
    let remaining := bytes - 40 in
    if negb (hello_model_name_len wire =? remaining) || (DS4_DIST_MAX_MODEL_NAME <? hello_model_name_len wire) then None
    else if hello_model_name_len wire =? 0 then Some (wire, [], fd)
    else
      '(name, fd) ← dist_read_full fd (hello_model_name_len wire);
      if dist_bytes_have_nul name then None else Some (wire, name, fd).
