(* ===== verification/DistFloat.v ===== *)
(** * Activations on the wire (ds4_distributed.c)

    Hidden states travel as 32-bit floats or packed to 16 or 8 bits.  A float is its bit
    pattern, read and computed with as in Module F32. *)

From S2P Require Import Prelude Bytes Float64 DistWire.

(** ** Widths *)

Definition DS4_DIST_ACTIVATION_BITS_DEFAULT : Z := 32.

Definition dist_activation_bits_or_default (bits : Z) : Z := if bits =? 0 then DS4_DIST_ACTIVATION_BITS_DEFAULT else bits.

Definition dist_activation_bits_valid (bits : Z) : bool :=
  let bits := dist_activation_bits_or_default bits in (bits =? 32) || (bits =? 16) || (bits =? 8).

Definition dist_activation_wire_bytes (bits values : Z) : option Z :=
  let bits := dist_activation_bits_or_default bits in
  if negb (dist_activation_bits_valid bits) || negb (bits mod 8 =? 0) then None
  else
    let bytes := u64 (values * (bits / 8)) in
    if UINT32_MAX <? bytes then None else Some bytes.

Definition dist_activation_values_from_wire_bytes (bits bytes : Z) : option Z :=
  let bits := dist_activation_bits_or_default bits in
  if negb (dist_activation_bits_valid bits) || negb (bits mod 8 =? 0) then None
  else
    let per := bits / 8 in
    if (per =? 0) || negb (bytes mod per =? 0) then None else Some (bytes / per).

Definition dist_activation_wire_bytes_from_f32_bytes (bits f32_bytes : Z) : option Z :=
  if negb (f32_bytes mod 4 =? 0) then None else dist_activation_wire_bytes bits (f32_bytes / 4).

(** ** 16 bits *)

Definition dist_f32_to_f16 (bits : Z) : Z :=
  let sign := Z.land (Z.shiftr bits 16) 32768 in
  let exp := Z.land (Z.shiftr bits 23) 255 - 127 + 15 in
  let mant := Z.land bits 8388607 in
  if exp <=? 0 then
    if exp <? -10 then u16 sign
    else
      let mant := Z.lor mant 8388608 in
      let shift := 14 - exp in
      let half_mant := Z.shiftr mant shift in
      let round_bit := Z.land (Z.shiftr mant (shift - 1)) 1 in
      let sticky := Z.land mant (Z.shiftl 1 (shift - 1) - 1) in
      let half_mant := if negb (round_bit =? 0) && (negb (sticky =? 0) || negb (Z.land half_mant 1 =? 0))
                       then half_mant + 1 else half_mant in
      u16 (Z.lor sign half_mant)
  else if 31 <=? exp then
    if (Z.land (Z.shiftr bits 23) 255 =? 255) && negb (mant =? 0) then u16 (Z.lor sign 32256)
    else u16 (Z.lor sign 31744)
  else
    let half := Z.lor (Z.lor sign (Z.shiftl exp 10)) (Z.shiftr mant 13) in
    let round := Z.land mant 8191 in
    let half := if (4096 <? round) || ((round =? 4096) && negb (Z.land half 1 =? 0)) then half + 1 else half in
    u16 half.

(** The loop that normalises a subnormal mantissa. *)
Fixpoint normalise (fuel : nat) (mant exp : Z) : Z * Z :=
  match fuel with
  | O => (mant, exp)
  | S fuel => if Z.land mant 1024 =? 0 then normalise fuel (Z.shiftl mant 1) (exp - 1) else (mant, exp)
  end.

Definition dist_f16_to_f32 (h : Z) : Z :=
  let sign := Z.shiftl (Z.land h 32768) 16 in
  let exp := Z.land (Z.shiftr h 10) 31 in
  let mant := Z.land h 1023 in
  if exp =? 0 then
    if mant =? 0 then sign
    else
      let '(mant, exp) := normalise 10 mant 1 in
      Z.lor (Z.lor sign (Z.shiftl (exp + 127 - 15) 23)) (Z.shiftl (Z.land mant 1023) 13)
  else if exp =? 31 then Z.lor (Z.lor sign 2139095040) (Z.shiftl mant 13)
  else Z.lor (Z.lor sign (Z.shiftl (exp + 127 - 15) 23)) (Z.shiftl mant 13).

(** ** 8 bits *)

Definition small_mant (a : spec_float) : Z := F32.floor_int (F32.add (F32.mul a (F32.of_Z 512)) (F32.lit 1 2)).

Definition dist_f32_to_f8_e4m3 (bits : Z) : Z :=
  let sign := if Z.testbit bits 31 then 128 else 0 in
  let a := SFabs (F32.of_bits bits) in
  let small := let mant := small_mant a in if mant <=? 0 then sign else Z.lor sign (if 7 <? mant then 7 else mant) in
  match a with
  | S754_zero _ => sign
  | S754_infinity _ | S754_nan => Z.lor sign 119
  | S754_finite _ _ _ =>
      if SFleb (F32.of_Z 240) a then Z.lor sign 119
      else if SFltb a (F32.lit 1 512) then small
      else
        let exp2 := snd (SFfrexp 24 128 a) in
        let exp := exp2 - 1 + 7 in
        if exp <=? 0 then small
        else
          let base := F32.ldexp (F32.of_Z 1) (exp2 - 1) in
          let mant := F32.floor_int (F32.add (F32.mul (F32.sub (F32.div a base) (F32.of_Z 1)) (F32.of_Z 8)) (F32.lit 1 2)) in
          let '(mant, exp) := if 8 <=? mant then (0, exp + 1) else (mant, exp) in
          if 15 <=? exp then Z.lor sign 119
          else Z.lor (Z.lor sign (u8 (Z.shiftl exp 3))) (u8 mant)
  end.

Definition dist_f8_e4m3_to_f32 (h : Z) : Z :=
  let sign := F32.of_Z (if negb (Z.land h 128 =? 0) then -1 else 1) in
  let exp := Z.land (Z.shiftr h 3) 15 in
  let mant := Z.land h 7 in
  F32.to_bits (
    if exp =? 0 then F32.mul (F32.mul sign (F32.of_Z mant)) (F32.lit 1 512)
    else if 15 <=? exp then F32.mul sign (F32.of_Z 240)
    else F32.mul sign (F32.ldexp (F32.add (F32.of_Z 1) (F32.div (F32.of_Z mant) (F32.of_Z 8))) (exp - 7))).

(** ** Payloads *)

(** A 16-bit word in the byte order of the machine, little-endian. *)
Definition put16 (v : Z) : list Z := [u8 v; u8 (Z.shiftr v 8)].

Definition pack (bits v : Z) : list Z :=
  if bits =? 16 then put16 (dist_f32_to_f16 v) else [dist_f32_to_f8_e4m3 v].

(** The loop that packs at most [cap] values at a time. *)
Fixpoint pack_loop (fuel : nat) (src : list Z) (cap bits : Z) : list Z :=
  match fuel, src with
  | S fuel, _ :: _ => concat (map (pack bits) (ztake cap src)) ++ pack_loop fuel (zdrop cap src) cap bits
  | _, _ => []
  end.

(** dist_write_activation_payload, as the bytes it sends for the values [src]; [None]
    when it refuses *)
Definition dist_write_activation_payload (src : list Z) (bits : Z) : option (list Z) :=
  let bits := dist_activation_bits_or_default bits in
  if negb (dist_activation_bits_valid bits) then None
  else if blen src =? 0 then Some []
  else if bits =? 32 then
    bytes ← dist_activation_wire_bytes bits (blen src);
    Some (ztake bytes (concat (map Le.put32 src)))
  else
    let cap := Z.min (blen src) (1024 * 1024) in
    Some (pack_loop (length src) src cap bits).

(** The words of a payload. *)
Fixpoint words32 (b : list Z) : list Z :=
  match b with
  | b0 :: b1 :: b2 :: b3 :: b => Le.get32 [b0; b1; b2; b3] 0 :: words32 b
  | _ => []
  end.
Fixpoint words16 (b : list Z) : list Z :=
  match b with
  | b0 :: b1 :: b => Z.lor b0 (Z.shiftl b1 8) :: words16 b
  | _ => []
  end.

(** dist_decode_activation_payload: the values, their bytes and whether they are the
    payload itself, or the message of the error *)
Definition dist_decode_activation_payload (wire : list Z) (bits : Z) : (list Z * Z * bool) + list Z :=
  let bits := dist_activation_bits_or_default bits in
  if negb (dist_activation_bits_valid bits)
  then inr (bs "invalid distributed activation width: " ++ dec bits ++ bs " bits")
  else match dist_activation_values_from_wire_bytes bits (blen wire) with
  | None => inr (bs "invalid distributed activation payload size")
  | Some values =>
      let f32_bytes := u64 (values * 4) in
      if UINT32_MAX <? f32_bytes then inr (bs "distributed activation payload is too large")
      else if bits =? 32 then inl (words32 wire, f32_bytes, true)
      else if bits =? 16 then inl (map dist_f16_to_f32 (words16 wire), f32_bytes, false)
      else inl (map dist_f8_e4m3_to_f32 wire, f32_bytes, false)
  end.
