(* ===== verification/DistWireSpec.v ===== *)
(** * Records on the wire (ds4_distributed.c)

    What a receiver finds in the bytes a sender wrote, however the connection cuts
    them. *)

From S2P Require Import Prelude Float64 Bytes Json Text Http HttpSpec DistWire DistFloat.

(** ** Words *)

Lemma be32_length v : blen (be32 v) = 4.
Proof. done. Qed.

Lemma blen_be32s l : blen (be32s l) = 4 * blen l.
Proof. unfold be32s. induction l as [|v l IH]; [done|]. cbn [map concat]. rewrite blen_app, blen_cons, IH, be32_length. lia. Qed.

Lemma znth_at (a b : list Z) k : 0 <= k → znth 0 (a ++ b) (blen a + k) = znth 0 b k.
Proof. intros Hk. unfold znth, blen. rewrite app_nth2 by lia. f_equal. lia. Qed.

Lemma word_cons v l i : 0 <= i → word (be32 v ++ l) (1 + i) = word l i.
Proof.
  intros Hi. unfold word.
  assert (∀ k, 0 <= k → znth 0 (be32 v ++ l) (4 * (1 + i) + k) = znth 0 l (4 * i + k)) as Hz.
  { intros k Hk. replace (4 * (1 + i) + k) with (blen (be32 v) + (4 * i + k)) by (rewrite be32_length; lia). apply znth_at. lia. }
  by rewrite !Hz by lia.
Qed.

Lemma word_head v l : fits 32 v → word (be32 v ++ l) 0 = v.
Proof.
  intros Hv. unfold fits in Hv. unfold word, be32, znth.
  change (Z.to_nat (4 * 0 + 0)) with 0%nat. change (Z.to_nat (4 * 0 + 1)) with 1%nat. change (Z.to_nat (4 * 0 + 2)) with 2%nat.
  change (Z.to_nat (4 * 0 + 3)) with 3%nat. cbn [app nth]. unfold wrap. rewrite !Z.shiftr_div_pow2, !Z.shiftl_mul_pow2 by done.
  assert (∀ a b k, 0 <= k → 0 <= b < 2 ^ k → Z.lor (a * 2 ^ k) b = a * 2 ^ k + b) as Hlor.
  { intros a b k Hk Hb. rewrite Z.lor_comm, Le.lor_shiftl_add by lia. lia. }
  pose proof (Z.mod_pos_bound v 256). pose proof (Z.mod_pos_bound (v / 256) 256). pose proof (Z.mod_pos_bound (v / 65536) 256).
  change (2 ^ 8) with 256 in *. change (2 ^ 16) with 65536 in *. change (2 ^ 24) with 16777216 in *. change (2 ^ 32) with 4294967296 in *.
  pose proof (Hlor ((v / 256) mod 256) (v mod 256) 8) as L1. change (2 ^ 8) with 256 in L1. rewrite L1 by lia.
  pose proof (Hlor ((v / 65536) mod 256) ((v / 256) mod 256 * 256 + v mod 256) 16) as L2. change (2 ^ 16) with 65536 in L2. rewrite L2 by lia.
  pose proof (Hlor ((v / 16777216) mod 256) ((v / 65536) mod 256 * 65536 + ((v / 256) mod 256 * 256 + v mod 256)) 24) as L3.
  change (2 ^ 24) with 16777216 in L3. rewrite L3 by lia.
  rewrite (Z.mod_small (v / 16777216)) by (split; [apply Z.div_pos; lia|apply Z.div_lt_upper_bound; lia]).
  replace (v / 16777216) with (v / 65536 / 256) by (rewrite Z.div_div by lia; done).
  pose proof (Z.div_mod (v / 65536) 256) as D1. revert D1.
  replace (v / 65536) with (v / 256 / 256) by (rewrite Z.div_div by lia; done). intros D1.
  pose proof (Z.div_mod v 256). pose proof (Z.div_mod (v / 256) 256). lia.
Qed.

Lemma word_nth l r i : Forall (fits 32) l → (i < length l)%nat → word (be32s l ++ r) (Z.of_nat i) = nth i l 0.
Proof.
  intros Hl. revert i. induction Hl as [|v l Hv Hl IH]; intros i Hi; [simpl in Hi; lia|].
  unfold be32s. cbn [map concat]. rewrite <- app_assoc. destruct i as [|i]; [by apply word_head|].
  replace (Z.of_nat (S i)) with (1 + Z.of_nat i) by lia. rewrite word_cons by lia. apply IH. cbn [length] in Hi. lia.
Qed.

Lemma be32_bytes v : bytes_ok (be32 v).
Proof. unfold be32. repeat constructor; apply Z.mod_pos_bound; lia. Qed.

(** ** Records *)

(** A record travels: its bytes have a fixed length and give it back. *)
Class Wire (A : Type) := {
  wire_size : Z;
  to_wire : A → list Z;
  from_wire : list Z → A;
  wire_ok : A → Prop }.
Class WireLaws (A : Type) `{Wire A} := {
  wire_length (x : A) : blen (to_wire x) = wire_size;
  wire_back (x : A) r : wire_ok x → from_wire (to_wire x ++ r) = x }.

Definition all32 (l : list Z) : Prop := Forall (fits 32) l.

Lemma word_field l r i : all32 l → 0 <= i < blen l → word (be32s l ++ r) i = nth (Z.to_nat i) l 0.
Proof. intros Hl Hi. rewrite <- (Z2Nat.id i) at 1 by lia. apply word_nth; [done|]. unfold blen in Hi. lia. Qed.

(** Both laws of a record whose fields are read in the order in which they are written. *)
Ltac solve_wire to from :=
  constructor; [done|]; intros x r Hok; change (from (to x ++ r) = x); destruct x; cbn in Hok;
  unfold from; f_equal; (etransitivity; [apply (word_field _ r); [exact Hok|unfold blen; simpl; lia]|reflexivity]).

#[export] Instance hello_wire : Wire ds4_dist_hello_fixed := {|
  wire_size := 40; to_wire := dist_hello_to_wire; from_wire := dist_hello_from_wire;
  wire_ok h := all32 [hello_model_id h; hello_quant_bits h; hello_layer_start h; hello_layer_end h; hello_has_output h;
         hello_has_hidden h; hello_ctx_size h; hello_n_layers h; hello_listen_port h; hello_model_name_len h] |}.
#[export] Instance hello_laws : WireLaws ds4_dist_hello_fixed.
Proof. solve_wire dist_hello_to_wire dist_hello_from_wire. Qed.

#[export] Instance work_wire : Wire ds4_dist_work_fixed := {|
  wire_size := 80; to_wire := dist_work_to_wire; from_wire := dist_work_from_wire;
  wire_ok w := all32 [work_model_id w; work_session_hi w; work_session_lo w; work_request_hi w; work_request_lo w;
         work_prefix_hash_hi w; work_prefix_hash_lo w; work_result_hash_hi w; work_result_hash_lo w;
         work_pos0 w; work_n_tokens w; work_layer_start w; work_layer_end w; work_flags w;
         work_token_bytes w; work_input_hc_bytes w; work_input_hc_bits w;
         work_route_count w; work_route_index w; work_route_bytes w] |}.
#[export] Instance work_laws : WireLaws ds4_dist_work_fixed.
Proof. solve_wire dist_work_to_wire dist_work_from_wire. Qed.

#[export] Instance route_wire : Wire ds4_dist_route_fixed := {|
  wire_size := 20; to_wire := dist_route_to_wire; from_wire := dist_route_from_wire;
  wire_ok r := all32 [rf_host_len r; rf_port r; rf_layer_start r; rf_layer_end r; rf_flags r] |}.
#[export] Instance route_laws : WireLaws ds4_dist_route_fixed.
Proof. solve_wire dist_route_to_wire dist_route_from_wire. Qed.

#[export] Instance route_return_wire : Wire ds4_dist_route_return_fixed := {|
  wire_size := 12; to_wire := dist_route_return_to_wire; from_wire := dist_route_return_from_wire;
  wire_ok r := all32 [rr_kind r; rr_host_len r; rr_port r] |}.
#[export] Instance route_return_laws : WireLaws ds4_dist_route_return_fixed.
Proof. solve_wire dist_route_return_to_wire dist_route_return_from_wire. Qed.

#[export] Instance result_wire : Wire ds4_dist_result_fixed := {|
  wire_size := 40; to_wire := dist_result_to_wire; from_wire := dist_result_from_wire;
  wire_ok r := all32 [res_request_hi r; res_request_lo r; res_result_hash_hi r; res_result_hash_lo r; res_status r;
         res_result_kind r; res_telemetry_count r; res_telemetry_bytes r; res_payload_bytes r; res_payload_bits r] |}.
#[export] Instance result_laws : WireLaws ds4_dist_result_fixed.
Proof. solve_wire dist_result_to_wire dist_result_from_wire. Qed.

#[export] Instance telemetry_wire : Wire ds4_dist_telemetry_fixed := {|
  wire_size := 40; to_wire := dist_telemetry_to_wire; from_wire := dist_telemetry_from_wire;
  wire_ok t := all32 [tel_layer_start t; tel_layer_end t; tel_route_index t; tel_pos0 t; tel_n_tokens t;
         tel_eval_usec t; tel_downstream_wait_usec t; tel_forward_send_usec t; tel_input_bytes t; tel_output_bytes t] |}.
#[export] Instance telemetry_laws : WireLaws ds4_dist_telemetry_fixed.
Proof. solve_wire dist_telemetry_to_wire dist_telemetry_from_wire. Qed.

(** ** Halves *)

Lemma halves_back v hi lo : fits 64 v → dist_u64_to_halves v = (hi, lo) → fits 32 hi ∧ fits 32 lo ∧ dist_u64_from_halves hi lo = v.
Proof.
  unfold fits, dist_u64_to_halves, dist_u64_from_halves, wrap. intros Hv [= <- <-].
  change (2 ^ 64) with 18446744073709551616 in *. change (2 ^ 32) with 4294967296 in *.
  rewrite !Z.shiftr_div_pow2, Z.shiftl_mul_pow2 by done. change (2 ^ 32) with 4294967296.
  pose proof (Z.mod_pos_bound v 4294967296).
  rewrite (Z.mod_small (v / 4294967296)) by (split; [apply Z.div_pos; lia|apply Z.div_lt_upper_bound; lia]).
  assert (0 <= v / 4294967296 < 4294967296) by (split; [apply Z.div_pos; lia|apply Z.div_lt_upper_bound; lia]).
  split; [done|]. split; [lia|]. rewrite Z.lor_comm.
  pose proof (Le.lor_shiftl_add (v mod 4294967296) (v / 4294967296) 32) as L. change (2 ^ 32) with 4294967296 in L.
  rewrite L by lia. pose proof (Z.div_mod v 4294967296). lia.
Qed.

(** ** Reading *)

Lemma read_full_loop_reads fuel fd a r : live fd → (length (concat fd) < fuel)%nat → concat fd = a ++ r →
  ∃ fd', read_full_loop fuel fd (blen a) = Some (a, fd') ∧ live fd' ∧ concat fd' = r.
Proof.
  revert fd a. induction fuel as [|fuel IH]; intros fd a Hl Hf Hc; [lia|]. cbn [read_full_loop].
  destruct (Z.leb_spec (blen a) 0) as [Hz|Hz].
  - assert (a = []) as -> by (destruct a; [done|rewrite blen_cons in Hz; pose proof (blen_nonneg a); lia]). by exists fd.
  - destruct (recv_live (blen a) fd Hz Hl) as (p & fd' & Hr & Hp & Hl' & Hc'); [rewrite Hc; by destruct a|]. rewrite Hr. cbn [mbind option_bind].
    assert (∃ a2, a = p ++ a2 ∧ concat fd' = a2 ++ r) as (a2 & -> & Hc2).
    { rewrite Hc' in Hc. assert (blen p <= blen a) as Hle.
      { unfold recv in Hr. destruct fd as [|[|c q] fd]; [done..|]. destruct (Z.leb_spec (blen (c :: q)) (blen a)); injection Hr as <- <-; [done|].
        rewrite blen_ztake by lia. lia. }
      destruct (prefix_cases p a r (concat fd')) as [(x & -> & ->)|(y & -> & -> & _)]; [done| |by exists y].
      rewrite blen_app in Hle. assert (x = []) as -> by (destruct x; [done|rewrite blen_cons in Hle; pose proof (blen_nonneg x); lia]).
      exists []. rewrite !app_nil_r. by split. }
    rewrite blen_app. replace (blen p + blen a2 - blen p) with (blen a2) by lia.
    destruct (IH fd' a2 Hl') as (fd2 & -> & Hl2 & Hc3); [pose proof (recv_fewer (blen (p ++ a2)) fd p fd' Hz Hl Hp Hc'); lia|done|].
    exists fd2. by split.
Qed.

Lemma read_full_reads fd a r n : live fd → concat fd = a ++ r → blen a = n →
  ∃ fd', dist_read_full fd n = Some (a, fd') ∧ live fd' ∧ concat fd' = r.
Proof. intros Hl Hc <-. apply read_full_loop_reads; [done|apply calls_pos|done]. Qed.

Lemma frame_header_reads fd type bytes r : live fd → fits 32 type → fits 32 bytes →
  concat fd = dist_write_frame_header type bytes ++ r →
  ∃ fd', dist_read_frame_header fd = Some (type, bytes, fd') ∧ live fd' ∧ concat fd' = r.
Proof.
  intros Hl Ht Hb Hc. unfold dist_read_frame_header.
  destruct (read_full_reads fd (dist_write_frame_header type bytes) r 12 Hl Hc) as (fd' & -> & Hl' & Hc'); [done|].
  cbn [mbind option_bind]. unfold dist_write_frame_header.
  assert (all32 [DS4_DIST_MAGIC; type; bytes]) as Ha by (repeat constructor; [by vm_compute|..]; apply Ht || apply Hb).
  pose proof (word_field _ [] 0 Ha ltac:(unfold blen; simpl; lia)) as W0.
  pose proof (word_field _ [] 1 Ha ltac:(unfold blen; simpl; lia)) as W1.
  pose proof (word_field _ [] 2 Ha ltac:(unfold blen; simpl; lia)) as W2.
  rewrite app_nil_r in W0, W1, W2. rewrite W0, W1, W2. by exists fd'.
Qed.

Lemma record_reads {A} `{WireLaws A} fd (x : A) r : live fd → wire_ok x → concat fd = to_wire x ++ r →
  ∃ b fd', dist_read_full fd wire_size = Some (b, fd') ∧ from_wire b = x ∧ live fd' ∧ concat fd' = r.
Proof.
  intros Hl Hx Hc. destruct (read_full_reads fd (to_wire x) r wire_size Hl Hc (wire_length x)) as (fd' & Hr & Hl' & Hc').
  exists (to_wire x), fd'. split; [done|]. split; [|done]. rewrite <- (app_nil_r (to_wire x)). by apply wire_back.
Qed.

(** ** Registration *)

Lemma blen_ztake_min (l : list Z) n : 0 <= n → blen (ztake n l) = Z.min n (blen l).
Proof. intros Hn. unfold ztake, blen. rewrite length_take. lia. Qed.

(** a worker's registration is read back as it was sent, in whatever pieces it
    arrives: every field of the record and the model name, cut at 127 bytes, and
    nothing of what follows. *)
Theorem hello_travels model_id quant_bits layer_start layer_end has_output ctx_size n_layers listen_port name fd r :
  all32 [model_id; quant_bits; layer_start; layer_end; n_layers; listen_port] → ctx_size <= INT_MAX →
  Forall (λ c, 0 < c < 256) name → live fd →
  concat fd = dist_send_hello model_id quant_bits layer_start layer_end has_output ctx_size n_layers listen_port (Some name) ++ r →
  ∃ fd', dist_recv_hello fd =
    Some (HelloFixed model_id quant_bits layer_start layer_end (if has_output then 1 else 0) 1 (Z.max ctx_size 0) n_layers listen_port
            (Z.min 127 (blen name)), ztake 127 name, fd') ∧ live fd' ∧ concat fd' = r.
Proof.
  intros Ha Hctx Hname Hl Hc. unfold dist_send_hello in Hc. cbv zeta in Hc. change (default (bs "unknown") (Some name)) with name in Hc. unfold DS4_DIST_MAX_MODEL_NAME in Hc.
  assert ((if 127 <? blen name then 127 else blen name) = Z.min 127 (blen name)) as El by (destruct (Z.ltb_spec 127 (blen name)); lia).
  assert ((if 0 <? ctx_size then ctx_size else 0) = Z.max ctx_size 0) as Ec by (destruct (Z.ltb_spec 0 ctx_size); lia).
  rewrite El, Ec in Hc. set (len := Z.min 127 (blen name)) in *. pose proof (blen_nonneg name).
  assert (0 <= len <= 127) as Hlen by lia.
  assert (ztake len name = ztake 127 name) as Et.
  { unfold len. destruct (Z.le_gt_cases 127 (blen name)); [by rewrite Z.min_l by lia|].
    rewrite Z.min_r, !ztake_ge by lia. done. }
  rewrite Et in Hc. set (h := HelloFixed _ _ _ _ _ _ _ _ _ _) in Hc. rewrite <- !app_assoc in Hc.
  unfold dist_recv_hello.
  assert (fits 32 (40 + len)) as Hf by (unfold fits; lia).
  destruct (frame_header_reads fd DS4_DIST_MSG_HELLO (40 + len) _ Hl ltac:(by vm_compute) Hf Hc) as (fd1 & -> & Hl1 & Hc1).
  cbn [mbind option_bind]. change (negb (DS4_DIST_MSG_HELLO =? DS4_DIST_MSG_HELLO)) with false. cbv iota. unfold DS4_DIST_MAX_MODEL_NAME.
  rewrite (proj2 (Z.ltb_ge (40 + len) 40)), (proj2 (Z.ltb_ge (40 + 127) (40 + len))) by lia. cbn [orb].
  assert (wire_ok h) as Hok.
  { unfold all32 in Ha. repeat match goal with H : Forall _ (_ :: _) |- _ => apply Forall_cons in H as [? H] end.
    cbn. repeat constructor; try (assumption || (unfold fits in *; destruct has_output; lia)).
    all: unfold fits in *; try tauto; try lia. }
  destruct (record_reads fd1 h _ Hl1 Hok Hc1) as (b & fd2 & Hr & Hb & Hl2 & Hc2).
  change (@wire_size ds4_dist_hello_fixed _) with 40 in Hr. rewrite Hr. cbn [mbind option_bind].
  change (@from_wire ds4_dist_hello_fixed _) with dist_hello_from_wire in Hb. rewrite Hb. cbv zeta.
  change (hello_model_name_len h) with len. replace (40 + len - 40) with len by lia. rewrite Z.eqb_refl.
  rewrite (proj2 (Z.ltb_ge 127 len)) by lia. cbn [negb orb].
  assert (blen (ztake 127 name) = len) as Hn by (by rewrite blen_ztake_min).
  destruct (Z.eqb_spec len 0) as [Hz|Hz].
  - assert (ztake 127 name = []) as En by (destruct (ztake 127 name) as [|c k]; [done|rewrite blen_cons in Hn; pose proof (blen_nonneg k); lia]).
    rewrite En in *. exists fd2. done.
  - destruct (read_full_reads fd2 _ _ len Hl2 Hc2 Hn) as (fd3 & -> & Hl3 & Hc3). cbn [mbind option_bind].
    assert (dist_bytes_have_nul (ztake 127 name) = false) as ->.
    { unfold dist_bytes_have_nul. apply not_true_iff_false. rewrite existsb_exists. intros (c & Hin & Hz0%Z.eqb_eq).
      assert (c ∈ name) as Hin2 by (apply list_elem_of_In in Hin; unfold ztake in Hin; apply (subseteq_take (Z.to_nat 127) name) in Hin; done).
      rewrite Forall_forall in Hname. apply Hname in Hin2. lia. }
    by exists fd3.
Qed.

Example hello_travels_witness :
  ∃ fd', dist_recv_hello (map (λ c, [c]) (dist_send_hello 1 4 2 5 false 4096 8 7000 (Some (bs "deepseek")))) =
    Some (HelloFixed 1 4 2 5 0 1 4096 8 7000 8, bs "deepseek", fd') ∧ live fd' ∧ concat fd' = [].
Proof.
  apply (hello_travels 1 4 2 5 false 4096 8 7000 (bs "deepseek") _ []).
  - repeat constructor; vm_compute; congruence.
  - lia.
  - vm_compute. repeat constructor.
  - vm_compute. repeat constructor; discriminate.
  - vm_compute. reflexivity.
Defined.

(** * Half precision is rounding to nearest even (ds4_distributed.c)

    Values are counted in the smallest float, 2^-149: [value32] of a float's magnitude
    and [value16] of a half's. *)

(** The magnitude of a finite float: exponent field and mantissa. *)
Definition value32 (e m : Z) : Z := if e =? 0 then m else (2 ^ 23 + m) * 2 ^ (e - 1).

(** The magnitude of a half's low 15 bits; 31744, infinity, counts as 2^16. *)
Definition value16 (h : Z) : Z :=
  if h <? 1024 then h * 2 ^ 125 else (1024 + h mod 1024) * 2 ^ (h / 1024 - 1 + 125).

Definition inf16 : Z := 31744.

(** The distance to the next half. *)
Definition gap16 (h : Z) : Z := if h <? 1024 then 2 ^ 125 else 2 ^ (h / 1024 - 1 + 125).

Lemma gap16_pos h : 0 <= h → 0 < gap16 h.
Proof. intros Hh. unfold gap16. destruct (h <? 1024); [done|]. apply Z.pow_pos_nonneg; [lia|]. pose proof (Z.div_pos h 1024). lia. Qed.

Lemma value16_step h : 0 <= h → value16 (h + 1) = value16 h + gap16 h.
Proof.
  intros Hh. unfold value16, gap16. destruct (Z.ltb_spec h 1024) as [H1|H1], (Z.ltb_spec (h + 1) 1024) as [H2|H2]; try lia.
  - assert (h = 1023) as -> by lia. vm_compute. done.
  - pose proof (Z.div_mod h 1024). pose proof (Z.mod_pos_bound h 1024).
    destruct (Z.eq_dec (h mod 1024) 1023) as [Hm|Hm].
    + assert ((h + 1) / 1024 = h / 1024 + 1) as ->.
      { symmetry. apply Z.div_unique with 0; lia. }
      assert ((h + 1) mod 1024 = 0) as ->.
      { symmetry. apply Z.mod_unique with (h / 1024 + 1); lia. }
      rewrite Hm. replace (h / 1024 + 1 - 1 + 125) with (Z.succ (h / 1024 - 1 + 125)) by lia.
      rewrite Z.pow_succ_r by lia. lia.
    + assert ((h + 1) / 1024 = h / 1024) as -> by (symmetry; apply Z.div_unique with (h mod 1024 + 1); lia).
      assert ((h + 1) mod 1024 = h mod 1024 + 1) as -> by (symmetry; apply Z.mod_unique with (h / 1024); lia).
      lia.
Qed.

Lemma value16_lt h k : 0 <= h < k → value16 h < value16 k.
Proof.
  intros [Hh Hk]. replace k with (h + 1 + Z.of_nat (Z.to_nat (k - h - 1))) by lia. generalize (Z.to_nat (k - h - 1)). intros n.
  induction n as [|n IH].
  - rewrite Z.add_0_r, value16_step by done. pose proof (gap16_pos h Hh). lia.
  - replace (h + 1 + Z.of_nat (S n)) with (h + 1 + Z.of_nat n + 1) by lia. rewrite value16_step by lia.
    pose proof (gap16_pos (h + 1 + Z.of_nat n)). lia.
Qed.

Lemma value16_le h k : 0 <= h <= k → value16 h <= value16 k.
Proof. intros [Hh Hk]. destruct (Z.eq_dec h k) as [->|]; [lia|]. pose proof (value16_lt h k). lia. Qed.

(** [r] is the half nearest to [v], and even when two are as near. *)
Definition nearest16 (v r : Z) : Prop :=
  0 <= r <= inf16 ∧ ∀ k, 0 <= k <= inf16 →
    Z.abs (v - value16 r) <= Z.abs (v - value16 k) ∧
    (Z.abs (v - value16 r) = Z.abs (v - value16 k) → k = r ∨ Z.even r = true).

(** Rounding between two neighbours. *)
Lemma nearest16_between v t : 0 <= t < inf16 → value16 t <= v < value16 t + gap16 t →
  nearest16 v (if (gap16 t <? 2 * (v - value16 t)) || ((2 * (v - value16 t) =? gap16 t) && Z.odd t) then t + 1 else t).
Proof.
  intros Ht Hv. pose proof (value16_step t ltac:(lia)) as Hs. unfold inf16 in *.
  assert (∀ k, 0 <= k <= 31744 → k <= t ∧ value16 k <= value16 t ∧ (k = t ∨ value16 k < value16 t) ∨
    t + 1 <= k ∧ value16 (t + 1) <= value16 k ∧ (k = t + 1 ∨ value16 (t + 1) < value16 k)) as Hk.
  { intros k Hk. destruct (Z.le_gt_cases k t).
    - left. split; [done|]. split; [apply value16_le; lia|]. destruct (Z.eq_dec k t); [by left|right]. apply value16_lt. lia.
    - right. split; [lia|]. split; [apply value16_le; lia|]. destruct (Z.eq_dec k (t + 1)); [by left|right]. apply value16_lt. lia. }
  destruct (Z.ltb_spec (gap16 t) (2 * (v - value16 t))) as [Hu|Hu]; cbn [orb].
  - split; [unfold inf16; lia|]. intros k Hkr. destruct (Hk k Hkr) as [(? & ? & ?)|(? & ? & ?)]; lia.
  - destruct (Z.eqb_spec (2 * (v - value16 t)) (gap16 t)) as [He|He]; cbn [andb].
    + pose proof (Z.negb_odd t) as Hev. destruct (Z.odd t) eqn:Ho.
      * split; [unfold inf16; lia|]. intros k Hkr.
        assert (Z.even (t + 1) = true) as Hev1 by (rewrite Z.even_add, <- Hev; done).
        destruct (Hk k Hkr) as [(? & ? & ?)|(? & ? & ?)]; (split; [lia|tauto]).
      * split; [unfold inf16; lia|]. intros k Hkr. destruct (Hk k Hkr) as [(? & ? & ?)|(? & ? & ?)]; (split; [lia|by right]).
    + split; [unfold inf16; lia|]. intros k Hkr. destruct (Hk k Hkr) as [(? & ? & ?)|(? & ? & ?)]; lia.
Qed.

(** ** Fields of a float *)

Definition float32 (s e m : Z) : Z := s * 2 ^ 31 + e * 2 ^ 23 + m.

Definition fields32 (s e m : Z) : Prop := 0 <= s <= 1 ∧ 0 <= e < 256 ∧ 0 <= m < 2 ^ 23.

Lemma float32_sign s e m : fields32 s e m → Z.land (Z.shiftr (float32 s e m) 16) 32768 = s * 32768.
Proof.
  intros (Hs & He & Hm). unfold float32.
  change 32768 with (Z.shiftl 1 15) at 1. apply Z.bits_inj'. intros i Hi. rewrite Z.land_spec, Z.shiftr_spec by done.
  rewrite Z.shiftl_spec by done. replace (s * 32768) with (Z.shiftl s 15) by (rewrite Z.shiftl_mul_pow2; lia).
  rewrite Z.shiftl_spec by done. destruct (Z.eq_dec i 15) as [->|Hn].
  - change (15 - 15) with 0. change (15 + 16) with 31. rewrite (Z.testbit_odd 1), andb_true_r.
    rewrite Z.testbit_odd, Z.shiftr_div_pow2 by done.
    replace ((s * 2 ^ 31 + e * 2 ^ 23 + m) / 2 ^ 31) with s; [by rewrite Z.testbit_odd, Z.shiftr_0_r|].
    apply Z.div_unique with (e * 2 ^ 23 + m); lia.
  - destruct (Z.le_gt_cases 15 i).
    + rewrite (Z.bits_above_log2 1), (Z.bits_above_log2 s), andb_false_r; [done|lia| |lia|simpl; lia].
      assert (s = 0 ∨ s = 1) as [-> | ->] by lia; simpl; lia.
    + rewrite !(Z.testbit_neg_r _ (i - 15)), andb_false_r by lia. done.
Qed.

Lemma float32_exp s e m : fields32 s e m → Z.land (Z.shiftr (float32 s e m) 23) 255 = e.
Proof.
  intros (Hs & He & Hm). unfold float32. change 255 with (Z.ones 8). rewrite Z.land_ones, Z.shiftr_div_pow2 by done.
  replace ((s * 2 ^ 31 + e * 2 ^ 23 + m) / 2 ^ 23) with (s * 2 ^ 8 + e) by (apply Z.div_unique with m; lia).
  symmetry. apply Z.mod_unique with s; lia.
Qed.

Lemma float32_mant s e m : fields32 s e m → Z.land (float32 s e m) 8388607 = m.
Proof.
  intros (Hs & He & Hm). unfold float32. change 8388607 with (Z.ones 23). rewrite Z.land_ones by done.
  symmetry. apply Z.mod_unique with (s * 2 ^ 8 + e); lia.
Qed.

Lemma float32_of b : fits 32 b → ∃ s e m, fields32 s e m ∧ b = float32 s e m.
Proof.
  intros Hb. unfold fits in Hb. exists (b / 2 ^ 31), (b / 2 ^ 23 mod 256), (b mod 2 ^ 23).
  pose proof (Z.div_mod b (2 ^ 23)). pose proof (Z.mod_pos_bound b (2 ^ 23)).
  pose proof (Z.div_mod (b / 2 ^ 23) 256). pose proof (Z.mod_pos_bound (b / 2 ^ 23) 256).
  assert (b / 2 ^ 31 = b / 2 ^ 23 / 256) as -> by (rewrite Z.div_div by lia; done).
  unfold fields32, float32. assert (0 <= b / 2 ^ 23 / 256 <= 1).
  { rewrite Z.div_div by lia. split; [apply Z.div_pos; lia|]. apply Z.lt_succ_r, Z.div_lt_upper_bound; lia. }
  lia.
Qed.

(** ** The conversion *)

Lemma lor_sign s x : 0 <= x < 32768 → Z.lor (s * 32768) x = s * 32768 + x.
Proof. intros Hx. rewrite Z.lor_comm. change 32768 with (2 ^ 15). rewrite Le.lor_shiftl_add by lia. lia. Qed.

Lemma land_even s h : 0 <= h < 32768 → negb (Z.land (s * 32768 + h) 1 =? 0) = Z.odd h.
Proof.
  intros Hh. change 1 with (Z.ones 1). rewrite Z.land_ones by done. change (2 ^ 1) with 2.
  replace (s * 32768 + h) with (h + (s * 16384) * 2) by lia. rewrite Z.mod_add by done.
  rewrite Zmod_odd. by destruct (Z.odd h).
Qed.

Lemma fits16 s h : 0 <= s <= 1 → 0 <= h < 32768 → u16 (s * 32768 + h) = s * 32768 + h.
Proof. intros. unfold u16. apply Z.mod_small. lia. Qed.

(** Between the normal halves. *)
Lemma round_normal s e m : fields32 s e m → 113 <= e <= 142 →
  ∃ r, dist_f32_to_f16 (float32 s e m) = s * 32768 + r ∧ nearest16 (value32 e m) r.
Proof.
  intros Hf He. pose proof Hf as (Hs & _ & Hm). unfold dist_f32_to_f16.
  rewrite float32_sign, float32_exp, float32_mant by done.
  rewrite (proj2 (Z.leb_gt (e - 127 + 15) 0)), (proj2 (Z.leb_gt 31 (e - 127 + 15))) by lia.
  pose proof (Z.div_mod m 8192). pose proof (Z.mod_pos_bound m 8192).
  assert (0 <= m / 8192 < 1024) by (split; [apply Z.div_pos; lia|apply Z.div_lt_upper_bound; lia]).
  set (x := e - 127 + 15) in *. set (t := x * 1024 + m / 8192).
  assert (Z.lor (Z.lor (s * 32768) (Z.shiftl x 10)) (Z.shiftr m 13) = s * 32768 + t) as ->.
  { rewrite Z.shiftl_mul_pow2, Z.shiftr_div_pow2 by done. change (2 ^ 10) with 1024. change (2 ^ 13) with 8192.
    rewrite <- Z.lor_assoc. rewrite (Z.lor_comm (x * 1024)).
    change 1024 with (2 ^ 10). rewrite Le.lor_shiftl_add by lia. rewrite lor_sign by lia. unfold t. lia. }
  change 8191 with (Z.ones 13). rewrite Z.land_ones by done. change (2 ^ 13) with 8192. rewrite land_even by (unfold t; lia).
  assert (t / 1024 = x) as Hdiv by (symmetry; apply Z.div_unique with (m / 8192); unfold t; lia).
  assert (t mod 1024 = m / 8192) as Hmod by (symmetry; apply Z.mod_unique with x; unfold t; lia).
  assert (gap16 t = 8192 * 2 ^ (e - 1)) as Hgap.
  { unfold gap16. rewrite (proj2 (Z.ltb_ge t 1024)) by (unfold t; lia). rewrite Hdiv.
    change 8192 with (2 ^ 13). rewrite <- Z.pow_add_r by lia. f_equal. unfold x. lia. }
  assert (value16 t = (1024 + m / 8192) * (8192 * 2 ^ (e - 1))) as Hval.
  { rewrite <- Hgap. unfold value16, gap16. rewrite (proj2 (Z.ltb_ge t 1024)) by (unfold t; lia). by rewrite Hmod. }
  assert (value32 e m - value16 t = (m mod 8192) * 2 ^ (e - 1)) as Hdiff.
  { unfold value32. rewrite (proj2 (Z.eqb_neq e 0)), Hval by lia. change (2 ^ 23) with (1024 * 8192). lia. }
  assert (0 < 2 ^ (e - 1)) as Hp by (apply Z.pow_pos_nonneg; lia).
  pose proof (nearest16_between (value32 e m) t ltac:(unfold t, inf16; lia)) as Hn. rewrite Hgap, Hdiff in Hn.
  set (p := 2 ^ (e - 1)) in *.
  assert ((8192 * p <? 2 * (m mod 8192 * p)) = (4096 <? m mod 8192)) as Eu.
  { destruct (Z.ltb_spec (8192 * p) (2 * (m mod 8192 * p))), (Z.ltb_spec 4096 (m mod 8192)); try done; nia. }
  assert ((2 * (m mod 8192 * p) =? 8192 * p) = (m mod 8192 =? 4096)) as Ee.
  { destruct (Z.eqb_spec (2 * (m mod 8192 * p)) (8192 * p)), (Z.eqb_spec (m mod 8192) 4096); try done; nia. }
  rewrite Eu, Ee in Hn.
  destruct ((4096 <? m mod 8192) || ((m mod 8192 =? 4096) && Z.odd t)).
  - exists (t + 1). split; [rewrite <- Z.add_assoc; apply fits16; unfold t; lia|apply Hn; nia].
  - exists t. split; [apply fits16; unfold t; lia|apply Hn; nia].
Qed.

Lemma land_one x : Z.land x 1 = x mod 2.
Proof. exact (Z.land_ones x 1 ltac:(lia)). Qed.

(** The round and sticky bits say on which side of the middle the rest lies. *)
Lemma round_bits M k odd : 0 <= M → 0 < k →
  negb (Z.land (Z.shiftr M (k - 1)) 1 =? 0) && (negb (Z.land M (Z.shiftl 1 (k - 1) - 1) =? 0) || odd) =
  (2 ^ k <? 2 * (M mod 2 ^ k)) || ((2 * (M mod 2 ^ k) =? 2 ^ k) && odd).
Proof.
  intros HM Hk. replace (Z.shiftl 1 (k - 1) - 1) with (Z.ones (k - 1)) by (rewrite Z.ones_equiv, Z.shiftl_1_l; lia).
  rewrite (Z.land_ones M), land_one, Z.shiftr_div_pow2 by lia.
  assert (0 < 2 ^ (k - 1)) as HP by (apply Z.pow_pos_nonneg; lia).
  assert (2 ^ k = 2 ^ (k - 1) * 2) as ->.
  { rewrite Z.mul_comm, <- Z.pow_succ_r by lia. f_equal. lia. }
  rewrite Z.rem_mul_r by lia. set (P := 2 ^ (k - 1)) in *. pose proof (Z.mod_pos_bound M P HP). pose proof (Z.mod_pos_bound (M / P) 2).
  set (st := M mod P) in *. assert ((M / P) mod 2 = 0 ∨ (M / P) mod 2 = 1) as [-> | ->] by lia.
  - cbn [negb andb Z.eqb]. rewrite (proj2 (Z.ltb_ge _ _)), (proj2 (Z.eqb_neq _ (P * 2))) by lia. done.
  - cbn [negb andb Z.eqb Pos.eqb]. destruct (Z.eqb_spec st 0) as [->|Hst]; cbn [negb orb].
    + rewrite (proj2 (Z.ltb_ge _ _)), (proj2 (Z.eqb_eq _ (P * 2))) by lia. done.
    + rewrite (proj2 (Z.ltb_lt _ _)) by lia. done.
Qed.

(** Between the subnormal halves. *)
Lemma round_subnormal s e m : fields32 s e m → 102 <= e <= 112 →
  ∃ r, dist_f32_to_f16 (float32 s e m) = s * 32768 + r ∧ nearest16 (value32 e m) r.
Proof.
  intros Hf He. pose proof Hf as (Hs & _ & Hm). unfold dist_f32_to_f16.
  rewrite float32_sign, float32_exp, float32_mant by done.
  rewrite (proj2 (Z.leb_le (e - 127 + 15) 0)), (proj2 (Z.ltb_ge (e - 127 + 15) (-10))) by lia.
  assert (Z.lor m 8388608 = m + 2 ^ 23) as ->.
  { change 8388608 with (1 * 2 ^ 23). rewrite Le.lor_shiftl_add by lia. lia. }
  set (M := m + 2 ^ 23). set (k := 14 - (e - 127 + 15)). assert (14 <= k <= 24) as Hk by (unfold k; lia).
  assert (0 < 2 ^ k) as Hp by (apply Z.pow_pos_nonneg; lia).
  assert (2 ^ 14 <= 2 ^ k) as Hp14 by (apply Z.pow_le_mono_r; lia).
  rewrite (Z.shiftr_div_pow2 M k) by lia. set (t := M / 2 ^ k).
  pose proof (Z.div_mod M (2 ^ k) ltac:(lia)) as Hdm. fold t in Hdm. pose proof (Z.mod_pos_bound M (2 ^ k) Hp).
  assert (0 <= t < 1024) as Ht.
  { unfold t. split; [apply Z.div_pos; unfold M; lia|]. apply Z.div_lt_upper_bound; [lia|]. unfold M. lia. }
  assert (negb (Z.land t 1 =? 0) = Z.odd t) as -> by (apply (land_even 0 t); lia).
  rewrite round_bits by (unfold M; lia).
  assert (2 ^ 125 = 2 ^ k * 2 ^ (e - 1)) as Hgap by (rewrite <- Z.pow_add_r by lia; f_equal; unfold k; lia).
  assert (gap16 t = 2 ^ k * 2 ^ (e - 1)) as Hg by (unfold gap16; rewrite (proj2 (Z.ltb_lt t 1024)) by lia; done).
  assert (value16 t = t * (2 ^ k * 2 ^ (e - 1))) as Hv by (unfold value16; rewrite (proj2 (Z.ltb_lt t 1024)) by lia; rewrite <- Hgap; done).
  assert (value32 e m - value16 t = (M mod 2 ^ k) * 2 ^ (e - 1)) as Hdiff.
  { unfold value32. rewrite (proj2 (Z.eqb_neq e 0)), Hv by lia. unfold M in *. nia. }
  pose proof (nearest16_between (value32 e m) t ltac:(unfold inf16; lia)) as Hn. rewrite Hg, Hdiff in Hn.
  assert (0 < 2 ^ (e - 1)) as Hq by (apply Z.pow_pos_nonneg; lia).
  set (q := 2 ^ (e - 1)) in *. set (P := 2 ^ k) in *. set (rem := M mod P) in *.
  assert ((P * q <? 2 * (rem * q)) = (P <? 2 * rem)) as Eu.
  { destruct (Z.ltb_spec (P * q) (2 * (rem * q))), (Z.ltb_spec P (2 * rem)); try done; nia. }
  assert ((2 * (rem * q) =? P * q) = (2 * rem =? P)) as Ee.
  { destruct (Z.eqb_spec (2 * (rem * q)) (P * q)), (Z.eqb_spec (2 * rem) P); try done; nia. }
  rewrite Eu, Ee in Hn.
  destruct ((P <? 2 * rem) || ((2 * rem =? P) && Z.odd t)).
  - exists (t + 1). rewrite lor_sign by lia. split; [apply fits16; lia|apply Hn; nia].
  - exists t. rewrite lor_sign by lia. split; [apply fits16; lia|apply Hn; nia].
Qed.

(** Below half the smallest subnormal, and at or above 2^16. *)
Lemma round_tiny s e m : fields32 s e m → e < 102 →
  ∃ r, dist_f32_to_f16 (float32 s e m) = s * 32768 + r ∧ nearest16 (value32 e m) r.
Proof.
  intros Hf He. pose proof Hf as (Hs & He0 & Hm). unfold dist_f32_to_f16. rewrite float32_sign, float32_exp by done.
  rewrite (proj2 (Z.leb_le (e - 127 + 15) 0)), (proj2 (Z.ltb_lt (e - 127 + 15) (-10))) by lia.
  exists 0. split; [replace (s * 32768) with (s * 32768 + 0) by lia; rewrite fits16; lia|].
  assert (0 <= value32 e m < 2 ^ 124) as Hv.
  { unfold value32. destruct (Z.eqb_spec e 0); [lia|]. assert (0 < 2 ^ (e - 1)) by (apply Z.pow_pos_nonneg; lia).
    assert (2 ^ (e - 1) <= 2 ^ 100) by (apply Z.pow_le_mono_r; lia). change (2 ^ 124) with (2 ^ 24 * 2 ^ 100). nia. }
  pose proof (nearest16_between (value32 e m) 0 ltac:(unfold inf16; lia)) as Hn.
  change (value16 0) with 0 in Hn. change (gap16 0) with (2 ^ 125) in Hn. rewrite andb_false_r in Hn.
  rewrite (proj2 (Z.ltb_ge _ _)) in Hn by lia. apply Hn. lia.
Qed.

Lemma round_large s e m : fields32 s e m → 143 <= e < 255 →
  ∃ r, dist_f32_to_f16 (float32 s e m) = s * 32768 + r ∧ nearest16 (value32 e m) r.
Proof.
  intros Hf He. pose proof Hf as (Hs & He0 & Hm). unfold dist_f32_to_f16. rewrite float32_sign, float32_exp, float32_mant by done.
  rewrite (proj2 (Z.leb_gt (e - 127 + 15) 0)), (proj2 (Z.leb_le 31 (e - 127 + 15))), (proj2 (Z.eqb_neq e 255)) by lia. cbn [andb].
  exists inf16. unfold inf16. split; [rewrite lor_sign by lia; apply fits16; lia|].
  assert (2 ^ 165 <= value32 e m) as Hv.
  { unfold value32. rewrite (proj2 (Z.eqb_neq e 0)) by lia. assert (2 ^ 142 <= 2 ^ (e - 1)) by (apply Z.pow_le_mono_r; lia).
    change (2 ^ 165) with (2 ^ 23 * 2 ^ 142). nia. }
  change (2 ^ 165) with (value16 31744) in Hv. split; [unfold inf16; lia|]. unfold inf16. intros k Hk.
  pose proof (value16_le k 31744 ltac:(lia)). destruct (Z.eq_dec k 31744) as [->|Hne]; [lia|].
  pose proof (value16_lt k 31744 ltac:(lia)). lia.
Qed.

Lemma f16_nearest s e m : fields32 s e m → e < 255 →
  ∃ r, dist_f32_to_f16 (float32 s e m) = s * 32768 + r ∧ nearest16 (value32 e m) r.
Proof.
  intros Hf He. destruct (Z.lt_ge_cases e 102); [by apply round_tiny|]. destruct (Z.le_gt_cases e 112); [by apply round_subnormal|].
  destruct (Z.le_gt_cases e 142); [apply round_normal|apply round_large]; (done || lia).
Qed.

(** ** Decoding *)

Lemma half_fields s h : 0 <= s <= 1 → 0 <= h < 32768 →
  Z.land (s * 32768 + h) 32768 = s * 32768 ∧ Z.land (Z.shiftr (s * 32768 + h) 10) 31 = h / 1024 ∧
  Z.land (s * 32768 + h) 1023 = h mod 1024.
Proof.
  intros Hs Hh. split; [|split].
  - change 32768 with (1 * 2 ^ 15) at 2. assert (s = 0 ∨ s = 1) as [-> | ->] by lia.
    + rewrite <- Z.shiftl_mul_pow2 by done. apply Z.bits_inj'. intros i Hi. rewrite Z.land_spec, Z.bits_0.
      rewrite Z.shiftl_spec by done. destruct (Z.eq_dec i 15) as [->|Hn].
      * rewrite Z.testbit_odd, Z.shiftr_div_pow2 by done. rewrite Z.div_small by lia. done.
      * destruct (Z.le_gt_cases 15 i); [rewrite (Z.bits_above_log2 1) by (simpl; lia)|rewrite (Z.testbit_neg_r 1) by lia]; apply andb_false_r.
    + rewrite Z.mul_1_l. change 32768 with (2 ^ 15). rewrite Z.add_comm, <- (Z.mul_1_l (2 ^ 15)) at 1.
      rewrite <- Le.lor_shiftl_add by lia. rewrite Z.land_lor_distr_l. rewrite Z.mul_1_l, Z.land_diag.
      assert (Z.land h (2 ^ 15) = 0) as ->; [|done].
      apply Z.bits_inj'. intros i Hi. rewrite Z.land_spec, Z.bits_0, Z.pow2_bits_eqb by lia.
      destruct (Z.eqb_spec 15 i) as [<-|]; [|apply andb_false_r]. rewrite Z.testbit_odd, Z.shiftr_div_pow2 by done.
      by rewrite Z.div_small by lia.
  - change 31 with (Z.ones 5). rewrite Z.land_ones, Z.shiftr_div_pow2 by done. change (2 ^ 10) with 1024. change (2 ^ 5) with 32.
    replace (s * 32768 + h) with (h + (s * 32) * 1024) by lia. rewrite Z.div_add by done.
    rewrite Z.mod_add by done. apply Z.mod_small. split; [apply Z.div_pos; lia|apply Z.div_lt_upper_bound; lia].
  - change 1023 with (Z.ones 10). rewrite Z.land_ones by done. change (2 ^ 10) with 1024.
    replace (s * 32768 + h) with (h + (s * 32) * 1024) by lia. by rewrite Z.mod_add.
Qed.

Lemma lor_fields s e m : 0 <= e < 256 → 0 <= m < 2 ^ 23 →
  Z.lor (Z.lor (s * 2 ^ 31) (Z.shiftl e 23)) m = float32 s e m.
Proof.
  intros He Hm. rewrite Z.shiftl_mul_pow2 by done. unfold float32. rewrite <- Z.lor_assoc, (Z.lor_comm (e * 2 ^ 23)).
  rewrite Le.lor_shiftl_add by lia. rewrite Z.lor_comm, Le.lor_shiftl_add by lia. lia.
Qed.

Definition subnormal_ok (h : Z) : bool :=
  let '(mant, exp) := normalise 10 h 1 in
  let m := Z.land mant 1023 in
  (0 <=? m) && (m <? 1024) && (1 <=? exp + 112) && (exp + 112 <? 256) && ((1024 + m) * 2 ^ 13 * 2 ^ (exp + 111) =? h * 2 ^ 125).

Lemma subnormals h : 0 < h < 1024 → subnormal_ok h = true.
Proof.
  intros Hh. assert (forallb (fun n => subnormal_ok (Z.of_nat n)) (seq 1 1023) = true) as Ha by (vm_compute; reflexivity).
  rewrite forallb_forall in Ha. specialize (Ha (Z.to_nat h)). rewrite Z2Nat.id in Ha by lia. apply Ha, in_seq. lia.
Qed.

Lemma f16_exact s h : 0 <= s <= 1 → 0 <= h < inf16 →
  ∃ e m, fields32 s e m ∧ e < 255 ∧ dist_f16_to_f32 (s * 32768 + h) = float32 s e m ∧ value32 e m = value16 h.
Proof.
  intros Hs Hh. unfold inf16 in Hh. unfold dist_f16_to_f32. destruct (half_fields s h Hs ltac:(lia)) as (-> & -> & ->).
  assert (Z.shiftl (s * 32768) 16 = s * 2 ^ 31) as -> by (rewrite Z.shiftl_mul_pow2 by done; lia).
  destruct (Z.lt_ge_cases h 1024) as [Hsub|Hnorm].
  - rewrite Z.div_small, Z.mod_small by lia. cbn [Z.eqb]. destruct (Z.eqb_spec h 0) as [->|Hnz].
    + exists 0, 0. unfold fields32, float32. split; [lia|]. split; [lia|]. split; [lia|done].
    + pose proof (subnormals h ltac:(lia)) as Hok. unfold subnormal_ok in Hok. destruct (normalise 10 h 1) as [mant exp].
      rewrite !andb_true_iff, Z.eqb_eq in Hok. destruct Hok as [[[[H1 H2] H3] H4] H5].
      exists (exp + 112), (Z.land mant 1023 * 2 ^ 13). rewrite (Z.shiftl_mul_pow2 _ 13) by done.
      replace (exp + 127 - 15) with (exp + 112) by lia.
      assert (exp <= 100).
      { destruct (Z.le_gt_cases exp 100); [done|]. exfalso. assert (2 ^ 212 <= 2 ^ (exp + 111)) by (apply Z.pow_le_mono_r; lia).
        change (2 ^ 212) with (2 ^ 87 * 2 ^ 125) in *. nia. }
      split; [unfold fields32; lia|]. split; [lia|]. split; [by rewrite lor_fields by lia|].
      unfold value32, value16. rewrite (proj2 (Z.eqb_neq _ 0)), (proj2 (Z.ltb_lt h 1024)) by lia.
      rewrite <- H5. replace (exp + 112 - 1) with (exp + 111) by lia. lia.
  - pose proof (Z.div_mod h 1024). pose proof (Z.mod_pos_bound h 1024).
    assert (1 <= h / 1024 < 31) by (split; [apply Z.div_le_lower_bound; lia|apply Z.div_lt_upper_bound; lia]).
    rewrite (proj2 (Z.eqb_neq _ 0)), (proj2 (Z.eqb_neq _ 31)) by lia.
    exists (h / 1024 + 112), (h mod 1024 * 2 ^ 13). replace (h / 1024 + 127 - 15) with (h / 1024 + 112) by lia.
    rewrite (Z.shiftl_mul_pow2 _ 13) by done. split; [unfold fields32; lia|]. split; [lia|].
    split; [by rewrite lor_fields by lia|]. unfold value32, value16. rewrite (proj2 (Z.eqb_neq _ 0)), (proj2 (Z.ltb_ge h 1024)) by lia.
    replace (h / 1024 - 1 + 125) with (13 + (h / 1024 + 112 - 1)) by lia. rewrite Z.pow_add_r by lia. lia.
Qed.

Lemma value16_inj h k : 0 <= h → 0 <= k → value16 h = value16 k → h = k.
Proof.
  intros Hh Hk E. destruct (Z.lt_total h k) as [H|[H|H]]; [|done|].
  - pose proof (value16_lt h k). lia.
  - pose proof (value16_lt k h). lia.
Qed.

(** A half that is not a NaN survives the way to a float and back. *)
Lemma f16_roundtrip s h : 0 <= s <= 1 → 0 <= h <= inf16 → dist_f32_to_f16 (dist_f16_to_f32 (s * 32768 + h)) = s * 32768 + h.
Proof.
  intros Hs Hh. destruct (Z.eq_dec h inf16) as [->|Hne].
  { assert (s = 0 ∨ s = 1) as [-> | ->] by lia; reflexivity. }
  destruct (f16_exact s h Hs ltac:(lia)) as (e & m & Hf & He & -> & Hv).
  destruct (f16_nearest s e m Hf He) as (r & -> & Hr & Hn). f_equal.
  destruct (Hn h ltac:(lia)) as [Hd _]. rewrite Hv in Hd. apply value16_inj; lia.
Qed.

(** ** Payloads *)

Lemma words32_put l : Forall (fits 32) l → words32 (concat (map Le.put32 l)) = l.
Proof.
  induction 1 as [|v l Hv _ IH]; [done|]. cbn [map concat]. unfold Le.put32 at 1. cbn [app words32]. rewrite IH. f_equal.
  apply (Le.get32_put32 v [] []); [done|constructor..].
Qed.

Lemma words16_put l : Forall (fits 16) l → words16 (concat (map put16 l)) = l.
Proof.
  induction 1 as [|v l Hv _ IH]; [done|]. cbn [map concat]. unfold put16 at 1. cbn [app words16]. rewrite IH. f_equal.
  unfold u8. rewrite Z.shiftl_mul_pow2, Z.shiftr_div_pow2 by done. change (2 ^ 8) with 256.
  pose proof (Z.mod_pos_bound v 256). pose proof (Le.lor_shiftl_add (v mod 256) ((v / 256) mod 256) 8) as Hl.
  change (2 ^ 8) with 256 in *. rewrite Hl by lia.
  unfold fits in Hv. rewrite (Z.mod_small (v / 256)).
  - pose proof (Z.div_mod v 256). lia.
  - change (2 ^ 16) with 65536 in Hv. split; [apply Z.div_pos; lia|apply Z.div_lt_upper_bound; lia].
Qed.

Lemma pack_loop_all fuel src cap bits : 0 < cap → (length src <= fuel)%nat →
  pack_loop fuel src cap bits = concat (map (pack bits) src).
Proof.
  intros Hc. revert src. induction fuel as [|fuel IH]; intros [|v src] Hf; try done; [simpl in Hf; lia|].
  cbn [pack_loop]. rewrite IH.
  - rewrite <- concat_app, <- map_app. by rewrite ztake_zdrop.
  - unfold zdrop. rewrite length_drop. cbn [length] in *. lia.
Qed.

Lemma f16_fits b : fits 32 b → fits 16 (dist_f32_to_f16 b).
Proof.
  intros Hb. destruct (float32_of b Hb) as (s & e & m & Hf & ->). pose proof Hf as (Hs & He & Hm).
  destruct (Z.eq_dec e 255) as [->|Hne].
  - unfold dist_f32_to_f16, fits. cbv zeta. repeat case_match; unfold u16; apply Z.mod_pos_bound; lia.
  - destruct (f16_nearest s e m Hf ltac:(lia)) as (r & -> & Hr & _). unfold inf16, fits in *. lia.
Qed.

(** What a value becomes on the wire. *)
Definition narrowed (bits v : Z) : Z :=
  let bits := dist_activation_bits_or_default bits in
  if bits =? 32 then v else if bits =? 16 then dist_f16_to_f32 (dist_f32_to_f16 v) else dist_f8_e4m3_to_f32 (dist_f32_to_f8_e4m3 v).

Lemma blen_concat_map (f : Z → list Z) k l : (∀ v, blen (f v) = k) → blen (concat (map f l)) = k * blen l.
Proof. intros Hf. induction l as [|v l IH]; [unfold blen; simpl; lia|]. cbn [map concat]. rewrite blen_app, blen_cons, Hf, IH. lia. Qed.

Lemma payload_travels bits src :
  dist_activation_bits_valid bits = true → Forall (fits 32) src → 4 * blen src <= UINT32_MAX →
  ∃ wire, dist_write_activation_payload src bits = Some wire ∧
    dist_activation_wire_bytes bits (blen src) = Some (blen wire) ∧
    dist_decode_activation_payload wire bits =
      inl (map (narrowed bits) src, 4 * blen src, dist_activation_bits_or_default bits =? 32).
Proof.
  intros Hv Hs Hl. pose proof (blen_nonneg src) as Hn.
  unfold dist_write_activation_payload, dist_decode_activation_payload, dist_activation_wire_bytes,
    dist_activation_values_from_wire_bytes, narrowed.
  set (b := dist_activation_bits_or_default bits) in *.
  assert (b = 32 ∨ b = 16 ∨ b = 8) as Hb.
  { unfold dist_activation_bits_valid in Hv. cbv zeta in Hv. fold b in Hv. lia. }
  assert (dist_activation_bits_or_default b = b) as Eb by (unfold dist_activation_bits_or_default; destruct Hb as [-> |[-> | ->]]; done).
  assert (dist_activation_bits_valid b = true) as Hvb by (destruct Hb as [-> |[-> | ->]]; done).
  rewrite !Eb, Hvb. clearbody b. cbn [negb].
  assert (∀ k, 1 <= k <= 4 → u64 (blen src * k) = blen src * k) as Hu64 by (intros; unfold wrap; apply Z.mod_small; nia).
  assert (∀ k, 1 <= k <= 4 → (UINT32_MAX <? blen src * k) = false) as Hmax by (intros; apply Z.ltb_ge; nia).
  destruct (Z.eqb_spec (blen src) 0) as [Hz|Hz].
  { assert (src = []) as -> by (destruct src; [done|rewrite blen_cons in Hz; pose proof (blen_nonneg src); lia]).
    exists []. split; [done|]. destruct Hb as [-> |[-> | ->]]; done. }
  destruct Hb as [-> |[-> | ->]]; cbn [Z.eqb Pos.eqb orb negb].
  - change (32 mod 8) with 0. change (32 / 8) with 4. cbn [Z.eqb negb orb]. rewrite Hu64, Hmax by lia. cbn [mbind option_bind].
    assert (blen (concat (map Le.put32 src)) = blen src * 4) as Hlen by (rewrite (blen_concat_map _ 4) by done; lia).
    rewrite ztake_ge by lia. eexists. split; [done|]. rewrite Hlen. split; [done|].
    rewrite Z.mod_mul, Z.div_mul by done. cbn [Z.eqb negb orb mbind option_bind]. rewrite Hu64, Hmax by lia.
    rewrite words32_put, map_id by done. by rewrite Z.mul_comm.
  - change (16 mod 8) with 0. change (16 / 8) with 2. cbn [Z.eqb negb orb]. rewrite Hu64, Hmax by lia. cbn [mbind option_bind].
    rewrite pack_loop_all by lia. eexists. split; [done|]. rewrite (blen_concat_map _ 2) by done. rewrite (Z.mul_comm 2). split; [done|].
    rewrite Z.mod_mul, Z.div_mul by done. cbn [Z.eqb negb orb mbind option_bind]. rewrite Hu64, Hmax by lia.
    assert (concat (map (pack 16) src) = concat (map put16 (map dist_f32_to_f16 src))) as -> by (rewrite map_map; done).
    rewrite words16_put by (apply Forall_map; eapply Forall_impl; [exact Hs|]; intros; by apply f16_fits).
    rewrite map_map. by rewrite Z.mul_comm.
  - change (8 mod 8) with 0. change (8 / 8) with 1. cbn [Z.eqb negb orb]. rewrite Hu64, Hmax by lia. cbn [mbind option_bind].
    rewrite pack_loop_all by lia. eexists. split; [done|].
    assert (concat (map (pack 8) src) = map dist_f32_to_f8_e4m3 src) as ->.
    { clear. induction src as [|v l IH]; [done|]. cbn [map concat]. by rewrite IH. }
    assert (blen (map dist_f32_to_f8_e4m3 src) = blen src) as -> by (unfold blen; by rewrite length_map).
    rewrite Z.mul_1_r. split; [done|].
    rewrite Z.mod_1_r, Z.div_1_r. cbn [Z.eqb negb orb mbind option_bind]. rewrite Hu64, Hmax by lia.
    rewrite map_map. by rewrite Z.mul_comm.
Qed.

Lemma f8_code h : dist_f8_e4m3_to_f32 h = dist_f8_e4m3_to_f32 (h mod 256).
Proof.
  unfold dist_f8_e4m3_to_f32. change 256 with (2 ^ 8). rewrite <- Z.land_ones by done.
  rewrite Z.shiftr_land, <- !Z.land_assoc. done.
Qed.

Lemma f8_codes c : 0 <= c < 256 → dist_f8_e4m3_to_f32 (dist_f32_to_f8_e4m3 (dist_f8_e4m3_to_f32 c)) = dist_f8_e4m3_to_f32 c.
Proof.
  intros Hc. apply Z.eqb_eq.
  assert (forallb (fun n => let c := Z.of_nat n in
    dist_f8_e4m3_to_f32 (dist_f32_to_f8_e4m3 (dist_f8_e4m3_to_f32 c)) =? dist_f8_e4m3_to_f32 c) (seq 0 256) = true) as Ha
    by (vm_compute; reflexivity).
  rewrite forallb_forall in Ha. specialize (Ha (Z.to_nat c)). cbv zeta in Ha. rewrite Z2Nat.id in Ha by lia. apply Ha, in_seq. lia.
Qed.

Lemma f16_code b : fits 32 b → ∃ s h, 0 <= s <= 1 ∧ (0 <= h <= inf16 ∨ h = 32256) ∧ dist_f32_to_f16 b = s * 32768 + h.
Proof.
  intros Hb. destruct (float32_of b Hb) as (s & e & m & Hf & ->). pose proof Hf as (Hs & He & Hm).
  destruct (Z.eq_dec e 255) as [->|Hne].
  - unfold dist_f32_to_f16. rewrite float32_sign, float32_exp, float32_mant by done. change (255 - 127 + 15) with 143.
    cbn [Z.leb Z.compare Pos.compare Pos.compare_cont Z.eqb Pos.eqb andb]. exists s. destruct (negb (m =? 0)).
    + exists 32256. split; [done|]. split; [by right|]. rewrite lor_sign by lia. apply fits16; lia.
    + exists inf16. unfold inf16. split; [done|]. split; [left; lia|]. rewrite lor_sign by lia. apply fits16; lia.
  - destruct (f16_nearest s e m Hf ltac:(lia)) as (r & -> & Hr & _). exists s, r. split; [done|]. split; [by left|done].
Qed.

(** Narrowing twice is narrowing once. *)
Lemma narrowed_stable bits v : fits 32 v → narrowed bits (narrowed bits v) = narrowed bits v.
Proof.
  intros Hv. unfold narrowed. cbv zeta. destruct (dist_activation_bits_or_default bits =? 32); [done|].
  destruct (dist_activation_bits_or_default bits =? 16).
  - f_equal. destruct (f16_code v Hv) as (s & h & Hs & [Hh|Hh] & ->); [by apply f16_roundtrip|]. subst h.
    assert (s = 0 ∨ s = 1) as [-> | ->] by lia; reflexivity.
  - rewrite (f8_code (dist_f32_to_f8_e4m3 v)). apply f8_codes. by apply Z.mod_pos_bound.
Qed.

Lemma narrowed_fits bits v : fits 32 v → fits 32 (narrowed bits v).
Proof.
  intros Hv. unfold narrowed. cbv zeta. destruct (dist_activation_bits_or_default bits =? 32); [done|].
  destruct (dist_activation_bits_or_default bits =? 16).
  - assert (∀ s h, 0 <= s <= 1 → h = inf16 ∨ h = 32256 → fits 32 (dist_f16_to_f32 (s * 32768 + h))) as Hspecial.
    { intros s h Hs Hh. assert (s = 0 ∨ s = 1) as [-> | ->] by lia; destruct Hh as [-> | ->]; split; vm_compute; congruence. }
    destruct (f16_code v Hv) as (s & h & Hs & Hh & ->). destruct (Z.eq_dec h inf16) as [E|Hne]; [apply Hspecial; [done|by left]|].
    destruct Hh as [Hh|Hh]; [|apply Hspecial; [done|by right]].
    destruct (f16_exact s h Hs ltac:(lia)) as (e & m & (? & ? & ?) & _ & -> & _). unfold fits, float32. lia.
  - rewrite f8_code. set (c := dist_f32_to_f8_e4m3 v mod 256). assert (0 <= c < 256) as Hc by (by apply Z.mod_pos_bound).
    assert (forallb (fun n => let x := dist_f8_e4m3_to_f32 (Z.of_nat n) in (0 <=? x) && (x <? 2 ^ 32)) (seq 0 256) = true) as Ha
      by (vm_compute; reflexivity).
    rewrite forallb_forall in Ha. specialize (Ha (Z.to_nat c)). cbv zeta in Ha. rewrite Z2Nat.id in Ha by lia.
    unfold fits. assert (In (Z.to_nat c) (seq 0 256)) as Hin by (apply in_seq; lia). specialize (Ha Hin). lia.
Qed.

(** C30: activations travel as they should: whatever the width, the sender's bytes have
    the announced length and the receiver decodes one float per float sent, unchanged
    at 32 bits (and the width 0 means 32); a value that was narrowed once is not changed
    by being sent on again. *)
Theorem activations_travel bits src :
  dist_activation_bits_valid bits = true → Forall (fits 32) src → 4 * blen src <= UINT32_MAX →
  (∃ wire, dist_write_activation_payload src bits = Some wire ∧
    dist_activation_wire_bytes bits (blen src) = Some (blen wire) ∧
    dist_decode_activation_payload wire bits =
      inl (map (narrowed bits) src, 4 * blen src, dist_activation_bits_or_default bits =? 32)) ∧
  map (narrowed bits) (map (narrowed bits) src) = map (narrowed bits) src ∧
  (dist_activation_bits_or_default bits = 32 → map (narrowed bits) src = src).
Proof.
  intros Hv Hs Hl. split; [by apply payload_travels|]. split.
  - rewrite map_map. apply map_ext_in. intros v Hin. rewrite Forall_forall in Hs. apply narrowed_stable, Hs. by apply list_elem_of_In.
  - intros Hb. unfold narrowed. rewrite Hb. apply map_id.
Qed.

(** packing to 16 bits is IEEE rounding: the sign is kept, and the half that is
    written is the nearest one to the value, the even one when two are as near and
    infinity from 65520 on; unpacking a half that is neither infinite nor a NaN gives
    exactly its value, and packing that again gives the half back. *)
Theorem f16_rounds_to_nearest_even s e m h :
  fields32 s e m → e < 255 → 0 <= h < inf16 →
  (∃ r, dist_f32_to_f16 (float32 s e m) = s * 32768 + r ∧ nearest16 (value32 e m) r) ∧
  (∃ e' m', fields32 s e' m' ∧ e' < 255 ∧ dist_f16_to_f32 (s * 32768 + h) = float32 s e' m' ∧ value32 e' m' = value16 h) ∧
  dist_f32_to_f16 (dist_f16_to_f32 (s * 32768 + h)) = s * 32768 + h.
Proof.
  intros Hf He Hh. pose proof Hf as (Hs & _). split; [by apply f16_nearest|]. split; [by apply f16_exact|]. apply f16_roundtrip; lia.
Qed.

Example activations_travel_witness :
  map (narrowed 16) (map (narrowed 16) [1065353217; 2139095040]) = map (narrowed 16) [1065353217; 2139095040].
Proof.
  refine (proj1 (proj2 (activations_travel 16 [1065353217; 2139095040] _ _ _))); [reflexivity| |vm_compute; discriminate].
  repeat constructor; vm_compute; congruence.
Defined.

Example f16_rounds_to_nearest_even_witness :
  nearest16 (value32 127 4096) 15360 ∧ dist_f32_to_f16 (dist_f16_to_f32 32769) = 32769.
Proof.
  destruct (f16_rounds_to_nearest_even 0 127 4096 1 ltac:(unfold fields32; lia) ltac:(lia) ltac:(unfold inf16; lia)) as ((r & Hr & Hn) & _ & _).
  split; [|exact (proj2 (proj2 (f16_rounds_to_nearest_even 1 127 4096 1 ltac:(unfold fields32; lia) ltac:(lia) ltac:(unfold inf16; lia))))].
  assert (r = 15360) as -> by (vm_compute in Hr; destruct r; congruence). exact Hn.
Defined.

(** A value just below the smallest normal 8-bit number is cut to the largest subnormal
    one, although the normal one is nearer. *)
Example f8_cuts_below_normal :
  dist_f32_to_f8_e4m3 1015021567 = 7 ∧ dist_f8_e4m3_to_f32 8 = 1015021568.
Proof. split; vm_compute; reflexivity. Qed.
