(* ===== verification/DistRoute.v ===== *)
(** * Worker registry and routes (ds4_distributed.c)

    The coordinator keeps the workers that registered, searches a chain of them that
    covers the layers behind its own, and writes it as the route that travels with every
    piece of work; a worker checks that route and finds its place in it. *)

From S2P Require Import Prelude Bytes Text DistWire.

(** ** Workers *)

Record ds4_dist_worker_entry := Worker {
  w_fd : Z; peer_host : list Z; peer_port : list Z; model_name : list Z; w_model_id : Z; quant_bits : Z;
  layer_start : Z; layer_end : Z; has_output : Z; has_hidden : Z; w_ctx_size : Z; w_n_layers : Z; listen_port : Z }.

Record ds4_dist_coordinator_state := Coordinator {
  model_id : Z; engine_model_name : list Z; n_layers : Z; local_start : Z; local_end : Z; ctx_size : Z;
  local_has_output : bool; local_can_output_head : bool; use_control_for_work : bool; activation_bits : Z;
  generation : Z; workers : list ds4_dist_worker_entry; shutting_down : bool }.

Definition with_workers (s : ds4_dist_coordinator_state) (g : Z) (ws : list ds4_dist_worker_entry) :=
  Coordinator (model_id s) (engine_model_name s) (n_layers s) (local_start s) (local_end s) (ctx_size s)
    (local_has_output s) (local_can_output_head s) (use_control_for_work s) (activation_bits s) g ws (shutting_down s).

(** The same place in the model, from the same host. *)
Definition replaces (host : list Z) (h : ds4_dist_hello_fixed) (old : ds4_dist_worker_entry) : bool :=
  bool_decide (peer_host old = host) && (w_model_id old =? hello_model_id h) && (layer_start old =? hello_layer_start h) &&
  (layer_end old =? hello_layer_end h) && (has_output old =? hello_has_output h).

Definition dist_coordinator_add_worker (s : ds4_dist_coordinator_state) (fd : Z) (host port : list Z)
    (h : ds4_dist_hello_fixed) (name : list Z) : ds4_dist_coordinator_state :=
  if shutting_down s then s
  else
    let entry := Worker fd host port name (hello_model_id h) (hello_quant_bits h) (hello_layer_start h) (hello_layer_end h)
                   (hello_has_output h) (hello_has_hidden h) (hello_ctx_size h) (hello_n_layers h) (hello_listen_port h) in
    with_workers s (u64 (generation s + 1)) (entry :: List.filter (fun old => negb (replaces host h old)) (workers s)).

(** The first worker on this connection. *)
Fixpoint drop_fd (fd : Z) (ws : list ds4_dist_worker_entry) : option (list ds4_dist_worker_entry) :=
  match ws with
  | [] => None
  | w :: ws => if w_fd w =? fd then Some ws else cons w <$> drop_fd fd ws
  end.
Definition dist_coordinator_remove_worker (s : ds4_dist_coordinator_state) (fd : Z) : ds4_dist_coordinator_state :=
  match drop_fd fd (workers s) with
  | None => s
  | Some ws => with_workers s (u64 (generation s + 1)) ws
  end.

(** Why the coordinator turns a worker away. *)
Inductive refusal :=
  ModelId | ModelFamily | LayerCount | QuantProfile | OutputFlag | HiddenFlag | LayerRange | OutputNeedsLastLayer | ContextTooSmall | ListenPort.

Definition check_hello (s : ds4_dist_coordinator_state) (h : ds4_dist_hello_fixed) (name : list Z) : option refusal :=
  if negb (hello_model_id h =? model_id s) then Some ModelId
  else if negb (bool_decide (name = engine_model_name s)) then Some ModelFamily
  else if negb (hello_n_layers h =? n_layers s) then Some LayerCount
  else if negb (hello_quant_bits h =? 2) && negb (hello_quant_bits h =? 4) then Some QuantProfile
  else if 1 <? hello_has_output h then Some OutputFlag
  else if 1 <? hello_has_hidden h then Some HiddenFlag
  else if (hello_n_layers h <=? hello_layer_start h) || (hello_n_layers h <=? hello_layer_end h) || (hello_layer_end h <? hello_layer_start h)
  then Some LayerRange
  else if negb (hello_has_output h =? 0) && negb (u32 (hello_layer_end h + 1) =? hello_n_layers h) then Some OutputNeedsLastLayer
  else if negb (ctx_size s =? 0) && (hello_ctx_size h <? ctx_size s) then Some ContextTooSmall
  else if (hello_listen_port h =? 0) || (65535 <? hello_listen_port h) then Some ListenPort
  else None.

(** The registration part of dist_coordinator_client_main. *)
Definition register_worker (s : ds4_dist_coordinator_state) (fd : Z) (host port : list Z) (h : ds4_dist_hello_fixed) (name : list Z)
    : ds4_dist_coordinator_state * option refusal :=
  match check_hello s h name with
  | Some r => (s, Some r)
  | None => (dist_coordinator_add_worker s fd host port h name, None)
  end.

(** ** Search *)

Definition dist_worker_route_cmp (a b : ds4_dist_worker_entry) : Z :=
  if layer_start a <? layer_start b then -1
  else if layer_start b <? layer_start a then 1
  else if negb (has_output a =? has_output b) then (if negb (has_output a =? 0) then -1 else 1)
  else if layer_end b <? layer_end a then -1
  else if layer_end a <? layer_end b then 1
  else 0.

Definition dist_worker_route_candidate_ok (s : ds4_dist_coordinator_state) (w : ds4_dist_worker_entry) (last : Z) : bool :=
  let needs_hidden := (layer_end w <? last) || (has_output w =? 0) in
  if needs_hidden && (has_hidden w =? 0) then false
  else if (last <=? layer_end w) && (has_output w =? 0) && negb (local_can_output_head s) then false
  else true.

(** The loop over the sorted workers; [search] is the search from a layer on. *)
Fixpoint scan_workers (search : Z -> option (list ds4_dist_worker_entry) * Z) (s : ds4_dist_coordinator_state) (next last : Z)
    (l : list ds4_dist_worker_entry) (saw_start : bool) (missing : Z) : option (list ds4_dist_worker_entry) * Z :=
  let stop := (None, if negb saw_start && (missing <? next) then next else missing) in
  match l with
  | [] => stop
  | w :: l =>
      if layer_start w <? next then scan_workers search s next last l saw_start missing
      else if next <? layer_start w then stop
      else if negb (dist_worker_route_candidate_ok s w last) then scan_workers search s next last l true missing
      else if last <=? layer_end w then (Some [w], missing)
      else
        let '(r, child_missing) := search (u32 (layer_end w + 1)) in
        match r with
        | Some path => (Some (w :: path), missing)
        | None => scan_workers search s next last l true (if missing <? child_missing then child_missing else missing)
        end
  end.

(** dist_route_search_workers: the path, and the furthest layer that is missing *)
Fixpoint dist_route_search_workers (fuel : nat) (s : ds4_dist_coordinator_state) (ws : list ds4_dist_worker_entry)
    (next last missing : Z) : option (list ds4_dist_worker_entry) * Z :=
  match fuel with
  | O => (None, missing)
  | S fuel => scan_workers (fun child => dist_route_search_workers fuel s ws child last child) s next last ws false missing
  end.

(** ** Plans *)

Definition DS4_DIST_ROUTE_F_OUTPUT_LOGITS : Z := 1.
Definition DS4_DIST_ROUTE_RETURN_UPSTREAM : Z := 1.
Definition NI_MAXHOST : Z := 1025.

Record ds4_dist_route_entry := RouteEntry {
  re_host : list Z; re_port : Z; re_layer_start : Z; re_layer_end : Z; re_flags : Z; re_fd : Z }.
Record ds4_dist_route_plan := RoutePlan { entries : list ds4_dist_route_entry; blob : list Z }.
Definition empty_plan : ds4_dist_route_plan := RoutePlan [] [].

Inductive plan_error := NotFromLayerZero | MissingLayer (l : Z) | DupFailed | BadHost | TooLarge.

Definition dist_route_plan_append_blob (blob : list Z) (e : ds4_dist_route_entry) : list Z + plan_error :=
  let host_len := blen (re_host e) in
  if (host_len =? 0) || (NI_MAXHOST <=? host_len) then inr BadHost
  else
    let add := 20 + host_len in
    if (UINT32_MAX <? add) || (UINT32_MAX - add <? blen blob) then inr TooLarge
    else inl (blob ++ dist_route_to_wire (RouteFixed host_len (re_port e) (re_layer_start e) (re_layer_end e) (re_flags e)) ++ re_host e).

Definition dist_route_plan_append_return_upstream (blob : list Z) : list Z + plan_error :=
  if UINT32_MAX - 12 <? blen blob then inr TooLarge
  else inl (blob ++ dist_route_return_to_wire (RouteReturnFixed DS4_DIST_ROUTE_RETURN_UPSTREAM 0 0)).

Section plan.
(** The C library's qsort, and dup of a connection. *)
Context (qsort : (ds4_dist_worker_entry -> ds4_dist_worker_entry -> Z) -> list ds4_dist_worker_entry -> list ds4_dist_worker_entry).
Context (dup : Z -> option Z).

(** The loop over the path; [entries] and [blob] are built so far. *)
Fixpoint plan_path (s : ds4_dist_coordinator_state) (path : list ds4_dist_worker_entry) (plan : ds4_dist_route_plan)
    : ds4_dist_route_plan + plan_error :=
  match path with
  | [] => inl plan
  | w :: path =>
      let flags := if negb (has_output w =? 0) then DS4_DIST_ROUTE_F_OUTPUT_LOGITS else 0 in
      match (if use_control_for_work s && match entries plan with [] => true | _ => false end then dup (w_fd w) else Some (-1)) with
      | None => inr DupFailed
      | Some fd =>
          let e := RouteEntry (peer_host w) (listen_port w) (layer_start w) (layer_end w) flags fd in
          match dist_route_plan_append_blob (blob plan) e with
          | inr err => inr err
          | inl b => plan_path s path (RoutePlan (entries plan ++ [e]) b)
          end
      end
  end.

Definition dist_coordinator_build_route_plan (s : ds4_dist_coordinator_state) : (ds4_dist_route_plan * Z) + plan_error :=
  let ws := qsort dist_worker_route_cmp (workers s) in
  let last := u32 (n_layers s - 1) in
  if negb (local_start s =? 0) then inr NotFromLayerZero
  else if (local_end s =? last) && (local_has_output s || local_can_output_head s) then inl (empty_plan, generation s)
  else
    let next := u32 (local_end s + 1) in
    match dist_route_search_workers (S (Z.to_nat (n_layers s))) s ws next last next with
    | (None, missing) => inr (MissingLayer missing)
    | (Some path, _) =>
        match plan_path s path empty_plan with
        | inr err => inr err
        | inl plan =>
            match entries plan with
            | [] => inl (plan, generation s)
            | _ => match dist_route_plan_append_return_upstream (blob plan) with
                   | inr err => inr err
                   | inl b => inl (RoutePlan (entries plan) b, generation s)
                   end
            end
        end
    end.
End plan.

Definition dist_route_entry_matches_worker (r : ds4_dist_route_entry) (w : ds4_dist_worker_entry) : bool :=
  (re_port r =? listen_port w) && bool_decide (re_host r = peer_host w) && (re_layer_start r =? layer_start w) &&
  (re_layer_end r =? layer_end w) && Bool.eqb (negb (Z.land (re_flags r) DS4_DIST_ROUTE_F_OUTPUT_LOGITS =? 0)) (negb (has_output w =? 0)).

(** The first worker that an entry names. *)
Fixpoint drop_match (r : ds4_dist_route_entry) (ws : list ds4_dist_worker_entry) : option (list ds4_dist_worker_entry) :=
  match ws with
  | [] => None
  | w :: ws => if dist_route_entry_matches_worker r w then Some ws else cons w <$> drop_match r ws
  end.
Fixpoint forget_entries (rs : list ds4_dist_route_entry) (ws : list ds4_dist_worker_entry) (removed : bool) : list ds4_dist_worker_entry * bool :=
  match rs with
  | [] => (ws, removed)
  | r :: rs => match drop_match r ws with
               | None => forget_entries rs ws removed
               | Some ws => forget_entries rs ws true
               end
  end.
Definition dist_coordinator_forget_route_workers (s : ds4_dist_coordinator_state) (plan : ds4_dist_route_plan) : ds4_dist_coordinator_state :=
  let '(ws, removed) := forget_entries (entries plan) (workers s) false in
  with_workers s (if removed then u64 (generation s + 1) else generation s) ws.

(** ** Reading a route

    A route without bytes is a null pointer. *)

(** The head of an entry, its host and what follows, or the message of the error. *)
Definition read_entry (strict : bool) (p : list Z) : (ds4_dist_route_fixed * list Z * list Z) + list Z :=
  if blen p <? 20 then inr (bs "truncated route entry")
  else
    let fixed := dist_route_from_wire p in
    let p := zdrop 20 p in
    if (strict && ((rf_host_len fixed =? 0) || (NI_MAXHOST <=? rf_host_len fixed))) || (blen p <? rf_host_len fixed)
    then inr (bs "invalid route host length")
    else
      let host := ztake (rf_host_len fixed) p in
      if dist_bytes_have_nul host then inr (bs "route host contains NUL bytes")
      else inl (fixed, host, zdrop (rf_host_len fixed) p).

Fixpoint get_entry_loop (fuel : nat) (p : list Z) (i route_count target_index : Z) : ds4_dist_route_entry + list Z :=
  if i =? route_count then
    if negb (blen p =? 0) then inr (bs "route payload has trailing bytes") else inr (bs "route entry not found")
  else match fuel with
  | O => inr []
  | S fuel =>
      match read_entry true p with
      | inr e => inr e
      | inl (fixed, host, p) =>
          if i =? target_index then inl (RouteEntry host (rf_port fixed) (rf_layer_start fixed) (rf_layer_end fixed) (rf_flags fixed) (-1))
          else get_entry_loop fuel p (i + 1) route_count target_index
      end
  end.
Definition dist_route_get_entry (route_blob : list Z) (route_count target_index : Z) : ds4_dist_route_entry + list Z :=
  if (blen route_blob =? 0) || (route_count <=? target_index) then inr (bs "invalid route entry index")
  else get_entry_loop (S (length route_blob)) route_blob 0 route_count target_index.

Record ds4_dist_route_return := RouteReturn { ret_host : list Z; ret_port : Z; ret_kind : Z }.

(** The final destination, with its host. *)
Definition read_return (p : list Z) : (ds4_dist_route_return * list Z) + list Z :=
  if blen p <? 12 then inr (bs "route payload missing final destination")
  else
    let fixed := dist_route_return_from_wire p in
    let p := zdrop 12 p in
    if (NI_MAXHOST <=? rr_host_len fixed) || (blen p <? rr_host_len fixed) then inr (bs "invalid route final destination host length")
    else
      let host := ztake (rr_host_len fixed) p in
      if dist_bytes_have_nul host then inr (bs "route final destination host contains NUL bytes")
      else inl (RouteReturn host (rr_port fixed) (rr_kind fixed), zdrop (rr_host_len fixed) p).

Fixpoint skip_entries (fuel : nat) (p : list Z) (count : Z) : list Z + list Z :=
  if count =? 0 then inl p
  else match fuel with
  | O => inr []
  | S fuel => match read_entry false p with
              | inr e => inr e
              | inl (_, _, p) => skip_entries fuel p (count - 1)
              end
  end.
Definition dist_route_get_return_target (route_blob : list Z) (route_count : Z) : ds4_dist_route_return + list Z :=
  if (blen route_blob =? 0) || (route_count =? 0) then inr (bs "invalid route final destination")
  else match skip_entries (S (length route_blob)) route_blob route_count with
  | inr e => inr e
  | inl p =>
      match read_return p with
      | inr e => inr e
      | inl (ret, p) => if negb (blen p =? 0) then inr (bs "route payload has trailing bytes") else inl ret
      end
  end.

(** The loop of the validation: the bytes behind the entries. *)
Fixpoint validate_entries (fuel : nat) (p : list Z) (i route_count layers prev_end : Z) : list Z + list Z :=
  if i =? route_count then inl p
  else match fuel with
  | O => inr []
  | S fuel =>
      match read_entry true p with
      | inr e => inr e
      | inl (fixed, _, p) =>
          if (rf_port fixed =? 0) || (65535 <? rf_port fixed) then inr (bs "invalid route port")
          else if (layers <=? rf_layer_start fixed) || (layers <=? rf_layer_end fixed) || (rf_layer_end fixed <? rf_layer_start fixed)
          then inr (bs "invalid route layer range")
          else if negb (Z.land (rf_flags fixed) (UINT32_MAX - DS4_DIST_ROUTE_F_OUTPUT_LOGITS) =? 0) then inr (bs "invalid route flags")
          else if negb (Z.land (rf_flags fixed) DS4_DIST_ROUTE_F_OUTPUT_LOGITS =? 0) && negb (u32 (rf_layer_end fixed + 1) =? layers)
          then inr (bs "route logits require final layer")
          else if negb (i =? 0) && negb (rf_layer_start fixed =? u32 (prev_end + 1)) then inr (bs "route layer ranges are not contiguous")
          else validate_entries fuel p (i + 1) route_count layers (rf_layer_end fixed)
      end
  end.

(** dist_route_validate_blob: [None] when the route is good *)
Definition dist_route_validate_blob (route_blob : list Z) (route_count layers : Z) : option (list Z) :=
  if route_count =? 0 then
    if blen route_blob =? 0 then None else Some (bs "route payload has entries without a route count")
  else if blen route_blob =? 0 then Some (bs "route payload is missing")
  else match validate_entries (S (length route_blob)) route_blob 0 route_count layers UINT32_MAX with
  | inr e => Some e
  | inl p =>
      match read_return p with
      | inr e => Some e
      | inl (ret, p) =>
          if negb (ret_kind ret =? DS4_DIST_ROUTE_RETURN_UPSTREAM) then Some (bs "unsupported route final destination")
          else if negb (blen (ret_host ret) =? 0) || negb (ret_port ret =? 0) then Some (bs "invalid upstream route final destination")
          else if negb (blen p =? 0) then Some (bs "route payload has trailing bytes")
          else None
      end
  end.
