(* ===== verification/DistRouteSpec.v ===== *)
(** * Routes (ds4_distributed.c)

    The search finds a chain of workers exactly when there is one, and the route that is
    built from it passes the checks of every worker on it. *)

From Stdlib Require Import Sorted.
From S2P Require Import Prelude Bytes Text Json Http HttpSpec DistWire DistWireSpec DistRoute.

(** ** Registered workers *)

Definition host_ok (host : list Z) : Prop := 1 <= blen host < NI_MAXHOST ∧ Forall (λ c, 0 < c < 256) host.

Record worker_ok (layers : Z) (w : ds4_dist_worker_entry) : Prop := {
  wk_range : 0 <= layer_start w <= layer_end w ∧ layer_end w < layers;
  wk_output : has_output w = 0 ∨ has_output w = 1 ∧ layer_end w + 1 = layers;
  wk_hidden : has_hidden w = 0 ∨ has_hidden w = 1;
  wk_port : 1 <= listen_port w <= 65535;
  wk_host : host_ok (peer_host w) }.

Definition layers_ok (s : ds4_dist_coordinator_state) : Prop := 1 <= n_layers s < 2 ^ 32.

Definition registry_ok (s : ds4_dist_coordinator_state) : Prop := Forall (worker_ok (n_layers s)) (workers s).

Lemma register_keeps s fd host port h name :
  layers_ok s → wire_ok h → host_ok host → registry_ok s →
  registry_ok (fst (register_worker s fd host port h name)) ∧ n_layers (fst (register_worker s fd host port h name)) = n_layers s.
Proof.
  intros Hn Hh Hhost Hs. unfold register_worker. destruct (check_hello s h name) as [r|] eqn:E; [by split|]. cbn [fst].
  unfold dist_coordinator_add_worker. destruct (shutting_down s); [by split|]. split; [|done].
  unfold registry_ok, with_workers. cbn [workers n_layers]. constructor.
  - unfold check_hello in E. repeat (case_match; [discriminate E|]). clear E.
    cbn in Hh. unfold all32 in Hh.
    repeat match goal with H : Forall _ (_ :: _) |- _ => apply Forall_cons in H as [? H] end. unfold fits in *.
    repeat match goal with H : (_ || _)%bool = false |- _ => apply orb_false_iff in H as [? H] end.
    repeat match goal with
           | H : (_ <? _) = false |- _ => apply Z.ltb_ge in H
           | H : (_ <=? _) = false |- _ => apply Z.leb_gt in H
           | H : (_ =? _) = false |- _ => apply Z.eqb_neq in H
           | H : negb (_ =? _) = false |- _ => apply negb_false_iff, Z.eqb_eq in H
           end.
    constructor; cbn; try lia; [|done].
    destruct (Z.eq_dec (hello_has_output h) 0) as [Hz|Hz]; [by left|right]. split; [lia|].
    match goal with H : (negb (hello_has_output h =? 0) && _)%bool = false |- _ => rewrite (proj2 (Z.eqb_neq _ 0) Hz) in H; cbn in H;
      apply negb_false_iff, Z.eqb_eq in H; unfold wrap in H; rewrite Z.mod_small in H by lia end. lia.
  - apply List.Forall_forall. intros w Hw. apply filter_In in Hw as [Hw _]. unfold registry_ok in Hs.
    rewrite List.Forall_forall in Hs. by apply Hs.
Qed.

Lemma drop_fd_incl fd ws ws' : drop_fd fd ws = Some ws' → ∀ w, w ∈ ws' → w ∈ ws.
Proof.
  revert ws'. induction ws as [|w ws IH]; intros ws' E; [done|]. cbn [drop_fd] in E.
  destruct (w_fd w =? fd); [injection E as <-; by right|]. destruct (drop_fd fd ws) as [k|]; [|done]. injection E as <-.
  intros x [->|Hx]%elem_of_cons; [left|right]. by eapply IH.
Qed.

Lemma remove_keeps s fd : registry_ok s → registry_ok (dist_coordinator_remove_worker s fd).
Proof.
  unfold registry_ok, dist_coordinator_remove_worker. destruct (drop_fd fd (workers s)) as [ws|] eqn:E; [|done]. cbn.
  rewrite !Forall_forall. intros Hs w Hw. apply Hs. by eapply drop_fd_incl.
Qed.

(** ** Search *)

Section search.
Context (s : ds4_dist_coordinator_state) (ws : list ds4_dist_worker_entry) (last : Z).

(** A chain of workers that takes over at [next] and reaches the last layer. *)
Inductive chain : Z → list ds4_dist_worker_entry → Prop :=
  | chain_last w : w ∈ ws → dist_worker_route_candidate_ok s w last = true → last <= layer_end w → chain (layer_start w) [w]
  | chain_step w path : w ∈ ws → dist_worker_route_candidate_ok s w last = true → layer_end w < last →
      chain (layer_end w + 1) path → chain (layer_start w) (w :: path).

(** The layers at which some chain that starts at [next] can stand. *)
Inductive reached : Z → Z → Prop :=
  | reached_here next : reached next next
  | reached_step w r : w ∈ ws → dist_worker_route_candidate_ok s w last = true → layer_end w < last →
      reached (layer_end w + 1) r → reached (layer_start w) r.

Context (layers : Z) (Hws : Forall (worker_ok layers) ws) (Hlast : last < 2 ^ 32 - 1).
Context (Hsorted : StronglySorted (λ a b, layer_start a <= layer_start b) ws).

(** What a search from [next] promises. *)
Definition search_ok (next : Z) (r : option (list ds4_dist_worker_entry) * Z) : Prop :=
  match r with
  | (Some path, _) => chain next path
  | (None, m) => (∀ path, ¬ chain next path) ∧ reached next m ∧ ∀ x, reached next x → x <= m
  end.

(** The workers of [l] that start at [next] lead nowhere, and nowhere behind [m]. *)
Definition exhausted (next : Z) (l : list ds4_dist_worker_entry) (m : Z) : Prop :=
  ∀ w, w ∈ l → layer_start w = next → dist_worker_route_candidate_ok s w last = true →
    layer_end w < last ∧ (∀ path, ¬ chain (layer_end w + 1) path) ∧ ∀ x, reached (layer_end w + 1) x → x <= m.

Lemma scan_ok search next l saw missing :
  (∀ child, next < child <= last → search_ok child (search child)) →
  (∀ w, w ∈ l → w ∈ ws) → StronglySorted (λ a b, layer_start a <= layer_start b) l →
  next <= missing → reached next missing →
  match scan_workers search s next last l saw missing with
  | (Some path, _) => chain next path
  | (None, m) => missing <= m ∧ reached next m ∧ exhausted next l m
  end.
Proof.
  intros Hsearch. revert saw missing. induction l as [|w l IH]; intros saw missing Hin Hs Hm Hr; cbn [scan_workers].
  { rewrite (proj2 (Z.ltb_ge missing next)), andb_false_r by done. split; [lia|]. split; [done|]. intros w Hw. set_solver. }
  apply StronglySorted_inv in Hs as [Hs Hall]. rewrite Forall_forall in Hall.
  assert (∀ w, w ∈ l → w ∈ ws) as Hin' by (intros; apply Hin; by right).
  assert (w ∈ ws) as Hw by (apply Hin; left).
  assert (∀ m, (layer_start w ≠ next ∨ dist_worker_route_candidate_ok s w last = false) → exhausted next l m → exhausted next (w :: l) m) as Hskip.
  { intros m Hno He x [->|Hx]%elem_of_cons Hxn Hxo; [destruct Hno as [?|Hc]; [done|by rewrite Hc in Hxo]|by apply He]. }
  destruct (Z.ltb_spec (layer_start w) next) as [Hlt|Hge].
  { specialize (IH saw missing Hin' Hs Hm Hr). destruct (scan_workers _ _ _ _ l _ _) as [[path|] m]; [done|].
    destruct IH as (? & ? & He). split; [done|]. split; [done|]. apply Hskip; [left; lia|done]. }
  destruct (Z.ltb_spec next (layer_start w)) as [Hgt|Hle].
  { rewrite (proj2 (Z.ltb_ge missing next)), andb_false_r by done. split; [lia|]. split; [done|].
    intros x [->|Hx]%elem_of_cons Hxn; [lia|]. apply Hall in Hx. lia. }
  assert (layer_start w = next) as Hstart by lia.
  destruct (dist_worker_route_candidate_ok s w last) eqn:Hok; cbn [negb].
  2: { specialize (IH true missing Hin' Hs Hm Hr). destruct (scan_workers _ _ _ _ l _ _) as [[path|] m]; [done|].
       destruct IH as (? & ? & He). split; [done|]. split; [done|]. apply Hskip; [by right|done]. }
  destruct (Z.leb_spec last (layer_end w)) as [Hend|Hend]; [rewrite <- Hstart; by apply chain_last|].
  assert (0 <= layer_start w <= layer_end w) as Hrange by (rewrite Forall_forall in Hws; pose proof (wk_range _ _ (Hws w Hw)); lia).
  assert (u32 (layer_end w + 1) = layer_end w + 1) as -> by (unfold wrap; apply Z.mod_small; lia).
  pose proof (Hsearch (layer_end w + 1) ltac:(lia)) as Hsub. destruct (search (layer_end w + 1)) as [[path|] cm].
  { rewrite <- Hstart. by apply chain_step. }
  destruct Hsub as (Hno & Hrc & Hmax).
  assert (reached next cm) as Hrc' by (rewrite <- Hstart; by apply (reached_step w)).
  assert ((if missing <? cm then cm else missing) = Z.max missing cm) as -> by (destruct (Z.ltb_spec missing cm); lia).
  specialize (IH true (Z.max missing cm) Hin' Hs ltac:(lia)).
  destruct (scan_workers _ _ _ _ l _ _) as [[p2|] m].
  - apply IH. destruct (Z.max_spec missing cm) as [[_ ->]|[_ ->]]; done.
  - destruct IH as (Hm2 & Hr2 & He2); [destruct (Z.max_spec missing cm) as [[_ ->]|[_ ->]]; done|].
    split; [lia|]. split; [done|]. intros x [->|Hx]%elem_of_cons Hxn Hxo; [|by apply He2].
    split; [done|]. split; [done|]. intros y Hy. apply Hmax in Hy. lia.
Qed.

Lemma search_workers_ok fuel next : 0 <= next <= last → last + 1 - next <= Z.of_nat fuel →
  search_ok next (dist_route_search_workers fuel s ws next last next).
Proof.
  revert next. induction fuel as [|fuel IH]; intros next Hn Hf; [lia|]. cbn [dist_route_search_workers].
  pose proof (scan_ok (λ child, dist_route_search_workers fuel s ws child last child) next ws false next) as Hscan.
  destruct (scan_workers _ _ _ _ ws _ _) as [[path|] m].
  - apply Hscan; [|done|done|lia|constructor]. intros child Hc. apply IH; lia.
  - destruct Hscan as (Hm & Hr & He); [intros child Hc; apply IH; lia|done|done|lia|constructor|].
    split; [|split; [done|]].
    + intros path Hp. inversion Hp as [w Hw Hok Hend Hs Hpath|w p Hw Hok Hend Hchain Hs Hpath]; subst.
      * destruct (He w Hw eq_refl Hok) as [Hlt _]. lia.
      * destruct (He w Hw eq_refl Hok) as (_ & Hno & _). by apply (Hno p).
    + intros x Hx. inversion Hx as [n0|w r Hw Hok Hend Hrr]; subst; [done|].
      destruct (He w Hw eq_refl Hok) as (_ & _ & Hmax). by apply Hmax.
Qed.
End search.

Lemma chain_incl s ws ws' last next path : (∀ w, w ∈ ws → w ∈ ws') → chain s ws last next path → chain s ws' last next path.
Proof. intros Hi Hc. induction Hc; [apply chain_last|apply chain_step]; auto. Qed.

Lemma reached_incl s ws ws' last next x : (∀ w, w ∈ ws → w ∈ ws') → reached s ws last next x → reached s ws' last next x.
Proof. intros Hi Hr. induction Hr; [constructor|by apply (reached_step _ _ _ w); auto]. Qed.

(** ** The route as bytes *)

Definition entry_ok (layers : Z) (e : ds4_dist_route_entry) : Prop :=
  host_ok (re_host e) ∧ 1 <= re_port e <= 65535 ∧ 0 <= re_layer_start e <= re_layer_end e ∧ re_layer_end e < layers ∧
  (re_flags e = 0 ∨ re_flags e = 1 ∧ re_layer_end e + 1 = layers).

Definition fixed_of (e : ds4_dist_route_entry) : ds4_dist_route_fixed :=
  RouteFixed (blen (re_host e)) (re_port e) (re_layer_start e) (re_layer_end e) (re_flags e).

Definition render_entry (e : ds4_dist_route_entry) : list Z := dist_route_to_wire (fixed_of e) ++ re_host e.
Definition render_route (es : list ds4_dist_route_entry) : list Z := concat (map render_entry es).
Definition render_return : list Z := dist_route_return_to_wire (RouteReturnFixed DS4_DIST_ROUTE_RETURN_UPSTREAM 0 0).

Lemma route_fixed_length f : blen (dist_route_to_wire f) = 20.
Proof. exact (wire_length f). Qed.

Lemma blen_render_entry e : blen (render_entry e) = 20 + blen (re_host e).
Proof. unfold render_entry. by rewrite blen_app, route_fixed_length. Qed.

Lemma no_nul l : Forall (λ c, 0 < c < 256) l → dist_bytes_have_nul l = false.
Proof.
  intros Hl. unfold dist_bytes_have_nul. apply not_true_iff_false. rewrite existsb_exists. intros (c & Hin & Hc%Z.eqb_eq).
  rewrite List.Forall_forall in Hl. apply Hl in Hin. lia.
Qed.

Lemma read_rendered strict layers e r : layers < 2 ^ 32 → entry_ok layers e →
  read_entry strict (render_entry e ++ r) = inl (fixed_of e, re_host e, r).
Proof.
  intros Hl ((Hlen & Hh) & Hp & Hr1 & Hr2 & Hfl). unfold read_entry, render_entry. unfold NI_MAXHOST in *. rewrite <- app_assoc.
  pose proof (route_fixed_length (fixed_of e)) as Hw. pose proof (blen_nonneg (re_host e ++ r)).
  rewrite (blen_app (dist_route_to_wire _)), Hw, (proj2 (Z.ltb_ge _ 20)) by lia.
  assert (wire_ok (fixed_of e)) as Hok.
  { cbn. repeat constructor; unfold fits; lia. }
  assert (dist_route_from_wire (dist_route_to_wire (fixed_of e) ++ re_host e ++ r) = fixed_of e) as -> by exact (wire_back (fixed_of e) _ Hok).
  assert (zdrop 20 (dist_route_to_wire (fixed_of e) ++ re_host e ++ r) = re_host e ++ r) as -> by (rewrite <- Hw; apply zdrop_app).
  cbv zeta. change (rf_host_len (fixed_of e)) with (blen (re_host e)).
  rewrite (proj2 (Z.eqb_neq _ 0)), (proj2 (Z.leb_gt 1025 _)) by lia. rewrite andb_false_r.
  pose proof (blen_nonneg r). rewrite blen_app, (proj2 (Z.ltb_ge _ _)) by lia. cbn [orb].
  rewrite ztake_app, zdrop_app, no_nul by done. done.
Qed.

(** The entries follow each other, the first one behind [prev] unless it is the first. *)
Fixpoint linked (layers : Z) (first : bool) (prev : Z) (es : list ds4_dist_route_entry) : Prop :=
  match es with
  | [] => True
  | e :: es => entry_ok layers e ∧ (first = true ∨ re_layer_start e = prev + 1) ∧ linked layers false (re_layer_end e) es
  end.

Lemma validate_rendered fuel layers es i count prev r :
  layers < 2 ^ 32 → linked layers (i =? 0) prev es → 0 <= i → i + Z.of_nat (length es) = count → (length es < fuel)%nat →
  (i = 0 ∨ 0 <= prev < layers) →
  validate_entries fuel (render_route es ++ r) i count layers prev = inl r.
Proof.
  intros Hl. revert fuel i prev. induction es as [|e es IH]; intros fuel i prev Hlk Hi Hc Hf Hprev;
    (destruct fuel as [|fuel]; [lia|]); cbn [validate_entries].
  - rewrite (proj2 (Z.eqb_eq i count)) by (simpl in Hc; lia). done.
  - cbn [length] in Hc, Hf. rewrite (proj2 (Z.eqb_neq i count)) by lia. destruct Hlk as (He & Hfirst & Hlk).
    unfold render_route. cbn [map concat]. rewrite <- app_assoc, (read_rendered true layers) by done. fold (render_route es).
    destruct He as (Hh & Hp & Hr1 & Hr2 & Hfl). cbn [fixed_of rf_port rf_layer_start rf_layer_end rf_flags].
    rewrite (proj2 (Z.eqb_neq (re_port e) 0)), (proj2 (Z.ltb_ge 65535 _)) by lia. cbn [orb].
    rewrite (proj2 (Z.leb_gt layers (re_layer_start e))), (proj2 (Z.leb_gt layers (re_layer_end e))), (proj2 (Z.ltb_ge _ _)) by lia. cbn [orb].
    assert (Z.land (re_flags e) (UINT32_MAX - DS4_DIST_ROUTE_F_OUTPUT_LOGITS) = 0) as ->.
    { destruct Hfl as [-> |[-> _]]; reflexivity. }
    cbn [Z.eqb negb].
    assert (negb (Z.land (re_flags e) DS4_DIST_ROUTE_F_OUTPUT_LOGITS =? 0) && negb (u32 (re_layer_end e + 1) =? layers) = false) as ->.
    { destruct Hfl as [-> |[-> He1]]; [done|]. unfold wrap. rewrite Z.mod_small by lia. rewrite (proj2 (Z.eqb_eq _ layers)) by lia. done. }
    assert (negb (i =? 0) && negb (re_layer_start e =? u32 (prev + 1)) = false) as ->.
    { destruct (Z.eqb_spec i 0) as [->|Hnz]; [done|]. cbn [negb andb]. destruct Hfirst as [|Hs]; [done|].
      destruct Hprev as [|Hprev]; [done|]. unfold wrap. rewrite Z.mod_small by lia. by rewrite (proj2 (Z.eqb_eq _ _) Hs). }
    apply IH; [|lia|lia|lia|lia]. rewrite (proj2 (Z.eqb_neq (i + 1) 0)) by lia. done.
Qed.

Lemma get_rendered fuel layers es i count target r :
  layers < 2 ^ 32 → Forall (entry_ok layers) es → i + Z.of_nat (length es) = count → (length es < fuel)%nat →
  i <= target < count →
  get_entry_loop fuel (render_route es ++ r) i count target =
    match nth_error es (Z.to_nat (target - i)) with
    | Some e => inl (RouteEntry (re_host e) (re_port e) (re_layer_start e) (re_layer_end e) (re_flags e) (-1))
    | None => inr []
    end.
Proof.
  intros Hl Hes. revert fuel i. induction Hes as [|e es He Hes IH]; intros fuel i Hc Hf Ht; [simpl in Hc; lia|].
  destruct fuel as [|fuel]; [lia|]. cbn [get_entry_loop length] in *. rewrite (proj2 (Z.eqb_neq i count)) by lia.
  unfold render_route. cbn [map concat]. rewrite <- app_assoc, (read_rendered true layers) by done. fold (render_route es).
  destruct (Z.eqb_spec i target) as [->|Hne]; [by rewrite Z.sub_diag|].
  rewrite IH by lia. replace (Z.to_nat (target - i)) with (S (Z.to_nat (target - (i + 1)))) by lia. done.
Qed.

Lemma skip_rendered fuel layers es r : layers < 2 ^ 32 → Forall (entry_ok layers) es → (length es < fuel)%nat →
  skip_entries fuel (render_route es ++ r) (Z.of_nat (length es)) = inl r.
Proof.
  intros Hl Hes. revert fuel. induction Hes as [|e es He Hes IH]; intros fuel Hf; (destruct fuel as [|fuel]; [lia|]); cbn [skip_entries]; [done|].
  cbn [length] in *. rewrite (proj2 (Z.eqb_neq _ 0)) by lia. unfold render_route. cbn [map concat].
  rewrite <- app_assoc, (read_rendered false layers) by done. fold (render_route es).
  replace (Z.of_nat (S (length es)) - 1) with (Z.of_nat (length es)) by lia. apply IH. lia.
Qed.

Lemma read_return_rendered : read_return render_return = inl (RouteReturn [] 0 1, []).
Proof. reflexivity. Qed.

Lemma render_route_length es : (length es <= length (render_route es))%nat.
Proof.
  unfold render_route. induction es as [|e es IH]; [simpl; lia|]. cbn [map concat length]. rewrite length_app.
  pose proof (blen_render_entry e) as Hb. pose proof (blen_nonneg (re_host e)). unfold blen in *. lia.
Qed.

(** ** Plans *)

Definition entry_for (w : ds4_dist_worker_entry) (fd : Z) : ds4_dist_route_entry :=
  RouteEntry (peer_host w) (listen_port w) (layer_start w) (layer_end w)
    (if negb (has_output w =? 0) then DS4_DIST_ROUTE_F_OUTPUT_LOGITS else 0) fd.

(** The entries of a path; only the connection of the first one is kept. *)
Definition entries_for (path : list ds4_dist_worker_entry) (es : list ds4_dist_route_entry) : Prop :=
  Forall2 (λ w e, e = entry_for w (re_fd e)) path es.

Lemma entry_for_ok layers w fd : worker_ok layers w → entry_ok layers (entry_for w fd).
Proof.
  intros [Hr Ho Hh Hp Hhost]. unfold entry_ok, entry_for. cbn. do 2 (split; [done|]). split; [lia|]. split; [lia|].
  destruct Ho as [-> |[-> He]]; [by left|by right].
Qed.

Lemma blen_render_bound layers es : Forall (entry_ok layers) es → blen (render_route es) <= 1044 * blen es.
Proof.
  unfold render_route. induction 1 as [|e es [[[_ Hh] _] _] _ IH]; [done|]. cbn [map concat]. rewrite blen_app, blen_cons, blen_render_entry.
  unfold NI_MAXHOST in Hh. lia.
Qed.

Lemma append_entry layers bl e : entry_ok layers e → blen bl + 1044 <= UINT32_MAX →
  dist_route_plan_append_blob bl e = inl (bl ++ render_entry e).
Proof.
  intros [[[Hl Hh] _] _] Hb. unfold dist_route_plan_append_blob. unfold NI_MAXHOST in *.
  rewrite (proj2 (Z.eqb_neq _ 0)), (proj2 (Z.leb_gt 1025 _)) by lia. cbn [orb].
  rewrite !(proj2 (Z.ltb_ge _ _)) by lia. done.
Qed.

Section plan.
Context (dup : Z → option Z) (Hdup : ∀ fd, is_Some (dup fd)).

Lemma plan_path_ok s layers path es :
  Forall (worker_ok layers) path → Forall (entry_ok layers) es →
  1044 * (blen es + blen path) <= UINT32_MAX - 1044 →
  ∃ es', plan_path dup s path (RoutePlan es (render_route es)) = inl (RoutePlan (es ++ es') (render_route (es ++ es'))) ∧
    entries_for path es'.
Proof using Hdup.
  intros Hp. revert es. induction Hp as [|w path Hw Hp IH]; intros es Hes Hsz; cbn [plan_path].
  - exists []. rewrite app_nil_r. split; [done|constructor].
  - rewrite blen_cons in Hsz. pose proof (blen_nonneg path). pose proof (blen_render_bound layers es Hes).
    assert (∃ fd, (if use_control_for_work s && match entries (RoutePlan es (render_route es)) with [] => true | _ => false end
                   then dup (w_fd w) else Some (-1)) = Some fd) as [fd ->].
    { destruct (_ && _); [|by eexists]. destruct (Hdup (w_fd w)) as [x ->]. by eexists. }
    cbv iota. change (RouteEntry (peer_host w) _ _ _ _ fd) with (entry_for w fd). cbn [blob entries].
    rewrite (append_entry layers) by (by apply entry_for_ok || lia).
    assert (render_route es ++ render_entry (entry_for w fd) = render_route (es ++ [entry_for w fd])) as ->.
    { unfold render_route. rewrite map_app, concat_app. cbn. by rewrite app_nil_r. }
    destruct (IH (es ++ [entry_for w fd])) as (es' & -> & He').
    + apply Forall_app. split; [done|]. constructor; [by apply entry_for_ok|done].
    + rewrite blen_app. change (blen [entry_for w fd]) with 1. lia.
    + exists (entry_for w fd :: es'). rewrite <- app_assoc. split; [done|]. by constructor.
Qed.
End plan.

Lemma chain_workers s ws last next path : chain s ws last next path → ∀ w, w ∈ path → w ∈ ws.
Proof. induction 1 as [w Hw Hok He|w path Hw Hok He Hc IH]; intros x; [intros ->%list_elem_of_singleton|intros [->|Hx]%elem_of_cons]; auto. Qed.

Lemma chain_length s ws layers last next path : Forall (worker_ok layers) ws → chain s ws last next path →
  path ≠ [] ∧ blen path <= layers - next.
Proof.
  intros Hws Hc. rewrite Forall_forall in Hws. induction Hc as [w Hw Hok He|w path Hw Hok He Hc [_ IH]].
  - split; [done|]. destruct (Hws w Hw) as [Hr _ _ _ _]. change (blen [w]) with 1. lia.
  - split; [done|]. destruct (Hws w Hw) as [Hr _ _ _ _]. rewrite blen_cons. lia.
Qed.

Lemma chain_linked s ws layers last next path es first prev :
  Forall (worker_ok layers) ws → chain s ws last next path → entries_for path es → (first = true ∨ next = prev + 1) →
  linked layers first prev es.
Proof.
  intros Hws Hc. rewrite Forall_forall in Hws. revert es first prev.
  induction Hc as [w Hw Hok He|w path Hw Hok He Hc IH]; intros es first prev Hes Hf; inversion Hes as [|? e ? es' -> Hes']; subst; cbn [linked].
  - inversion Hes'; subst. split; [by apply entry_for_ok, Hws|]. split; [done|constructor].
  - split; [by apply entry_for_ok, Hws|]. split; [done|]. apply IH; [done|]. by right.
Qed.

Lemma chain_start s ws last next path : chain s ws last next path → ∃ w path', path = w :: path' ∧ layer_start w = next.
Proof. by destruct 1; eexists _, _. Qed.

(** ** Theorems *)

Section build.
Context (qsort : (ds4_dist_worker_entry → ds4_dist_worker_entry → Z) → list ds4_dist_worker_entry → list ds4_dist_worker_entry).
Context (dup : Z → option Z) (s : ds4_dist_coordinator_state).

(** What the coordinator relies on: the sort sorts, connections can be duplicated, the
    workers were registered, and the local slice begins the model without ending it. *)
Record plan_context : Prop := {
  pc_sorts : Permutation (qsort dist_worker_route_cmp (workers s)) (workers s) ∧
    StronglySorted (λ a b, dist_worker_route_cmp a b <= 0) (qsort dist_worker_route_cmp (workers s));
  pc_dup : ∀ fd, is_Some (dup fd);
  pc_workers : registry_ok s;
  pc_layers : 1 <= n_layers s <= 2 ^ 20;
  pc_start : local_start s = 0;
  pc_end : 0 <= local_end s < n_layers s - 1 }.

Lemma sorted_starts l : StronglySorted (λ a b, dist_worker_route_cmp a b <= 0) l → StronglySorted (λ a b, layer_start a <= layer_start b) l.
Proof.
  induction 1 as [|a l _ IH Hall]; constructor; [done|]. eapply Forall_impl; [exact Hall|]. cbn. intros b.
  unfold dist_worker_route_cmp. destruct (Z.ltb_spec (layer_start a) (layer_start b)); [lia|].
  destruct (Z.ltb_spec (layer_start b) (layer_start a)); lia.
Qed.

Lemma build_cases (Hc : plan_context) :
  match dist_coordinator_build_route_plan qsort dup s with
  | inl (plan, g) => g = generation s ∧ ∃ path, chain s (workers s) (n_layers s - 1) (local_end s + 1) path ∧
      entries_for path (entries plan) ∧ blob plan = render_route (entries plan) ++ render_return
  | inr (MissingLayer m) => (∀ path, ¬ chain s (workers s) (n_layers s - 1) (local_end s + 1) path) ∧
      reached s (workers s) (n_layers s - 1) (local_end s + 1) m ∧
      ∀ x, reached s (workers s) (n_layers s - 1) (local_end s + 1) x → x <= m
  | inr _ => False
  end.
Proof.
  destruct Hc as [[Hperm Hsort] Hdup Hws Hn Hls Hle]. unfold dist_coordinator_build_route_plan.
  assert (u32 (n_layers s - 1) = n_layers s - 1) as -> by (unfold wrap; apply Z.mod_small; lia).
  assert (u32 (local_end s + 1) = local_end s + 1) as -> by (unfold wrap; apply Z.mod_small; lia).
  rewrite Hls. cbn [Z.eqb negb]. rewrite (proj2 (Z.eqb_neq (local_end s) _)) by lia. cbn [andb].
  set (ws := qsort dist_worker_route_cmp (workers s)) in *.
  assert (Forall (worker_ok (n_layers s)) ws) as Hok by (by rewrite Hperm).
  assert (∀ w, w ∈ ws ↔ w ∈ workers s) as Hin by (intros w; by rewrite Hperm).
  pose proof (search_workers_ok s ws (n_layers s - 1) (n_layers s) Hok ltac:(lia) (sorted_starts _ Hsort)
    (S (Z.to_nat (n_layers s))) (local_end s + 1) ltac:(lia) ltac:(lia)) as Hsearch.
  destruct (dist_route_search_workers _ _ _ _ _ _) as [[path|] m]; cbn [search_ok] in Hsearch.
  - assert (Forall (worker_ok (n_layers s)) path) as Hpath.
    { apply Forall_forall. intros w Hw. rewrite Forall_forall in Hok. apply Hok. by eapply chain_workers. }
    destruct (chain_length _ _ _ _ _ _ Hok Hsearch) as [Hne Hlen].
    destruct (plan_path_ok dup Hdup s (n_layers s) path [] Hpath ltac:(constructor)) as (es & Hplan & Hes).
    { change (blen (@nil ds4_dist_route_entry)) with 0. lia. }
    change (plan_path dup s path empty_plan = inl (RoutePlan es (render_route es))) in Hplan. rewrite Hplan. cbn [entries blob].
    destruct es as [|e es]; [by inversion Hes|].
    assert (blen (render_route (e :: es)) <= 1044 * 2 ^ 20) as Hb.
    { etransitivity; [apply (blen_render_bound (n_layers s))|].
      - apply Forall_forall. intros x Hx. apply list_elem_of_lookup in Hx as [i Hi].
        eapply Forall2_lookup_r in Hes as (w & Hwi & ->); [|exact Hi]. apply entry_for_ok. eapply Forall_lookup_1; done.
      - apply Forall2_length in Hes. assert (blen (e :: es) = blen path) as -> by (unfold blen; by rewrite Hes). lia. }
    unfold dist_route_plan_append_return_upstream. rewrite (proj2 (Z.ltb_ge _ _)) by lia. split; [done|].
    exists path. split; [|by split]. eapply chain_incl; [|exact Hsearch]. intros w. by rewrite Hin.
  - destruct Hsearch as (Hno & Hr & Hmax). split; [|split].
    + intros path Hp. apply (Hno path). eapply chain_incl; [|exact Hp]. intros w. by rewrite Hin.
    + eapply reached_incl; [|exact Hr]. intros w. by rewrite Hin.
    + intros x Hx. apply Hmax. eapply reached_incl; [|exact Hx]. intros w. by rewrite Hin.
Qed.

(** C28: the coordinator finds a route exactly when the registered workers have one: the
    plan is a chain of usable workers from the first layer that is not local to the
    last, in order, and carries the registry's generation; without one the error names
    the furthest layer that some chain of workers reaches and none takes over. *)
Theorem route_found_exactly : plan_context →
  match dist_coordinator_build_route_plan qsort dup s with
  | inl (plan, g) => g = generation s ∧ ∃ path, chain s (workers s) (n_layers s - 1) (local_end s + 1) path ∧ entries_for path (entries plan)
  | inr (MissingLayer m) => (∀ path, ¬ chain s (workers s) (n_layers s - 1) (local_end s + 1) path) ∧
      reached s (workers s) (n_layers s - 1) (local_end s + 1) m ∧
      ∀ x, reached s (workers s) (n_layers s - 1) (local_end s + 1) x → x <= m
  | inr _ => False
  end.
Proof.
  intros Hc. pose proof (build_cases Hc) as H. destruct (dist_coordinator_build_route_plan qsort dup s) as [[plan g]|e]; [|exact H].
  destruct H as (Hg & path & Hp & He & _). by eauto.
Qed.

Lemma route_accepted_by_workers_holds plan g : plan_context →
  dist_coordinator_build_route_plan qsort dup s = inl (plan, g) →
  dist_route_validate_blob (blob plan) (blen (entries plan)) (n_layers s) = None ∧
  (∀ i e, nth_error (entries plan) i = Some e →
    dist_route_get_entry (blob plan) (blen (entries plan)) (Z.of_nat i) =
      inl (RouteEntry (re_host e) (re_port e) (re_layer_start e) (re_layer_end e) (re_flags e) (-1))) ∧
  dist_route_get_return_target (blob plan) (blen (entries plan)) = inl (RouteReturn [] 0 DS4_DIST_ROUTE_RETURN_UPSTREAM).
Proof.
  intros Hc Hb. pose proof (build_cases Hc) as H. rewrite Hb in H. destruct H as (_ & path & Hp & Hes & Hbl).
  destruct Hc as [_ _ Hws Hn _ Hle]. rewrite Hbl. set (es := entries plan) in *.
  assert (linked (n_layers s) true UINT32_MAX es) as Hlk by (by eapply chain_linked; eauto).
  assert (Forall (entry_ok (n_layers s)) es) as Hok.
  { clear -Hlk. revert Hlk. generalize true UINT32_MAX. induction es as [|e es IH]; intros b p; [constructor|]. intros (He & _ & Hlk). constructor; [done|by eapply IH]. }
  pose proof (render_route_length es) as Hlen.
  assert (es ≠ []) as Hne.
  { destruct (chain_start _ _ _ _ _ Hp) as (w & p & -> & _). inversion Hes. congruence. }
  assert (blen es ≠ 0) as Hcount by (destruct es; [done|rewrite blen_cons; pose proof (blen_nonneg es); lia]).
  assert (blen (render_route es ++ render_return) ≠ 0) as Hbn.
  { rewrite blen_app. change (blen render_return) with 12. pose proof (blen_nonneg (render_route es)). lia. }
  split; [|split].
  - unfold dist_route_validate_blob. rewrite (proj2 (Z.eqb_neq _ 0)) by done. rewrite (proj2 (Z.eqb_neq _ 0)) by done.
    rewrite (validate_rendered _ _ es) by (exact Hlk || lia || (unfold blen; lia) || (rewrite length_app; lia)).
    by rewrite read_return_rendered.
  - intros i e Hi. unfold dist_route_get_entry. rewrite (proj2 (Z.eqb_neq _ 0)) by done.
    assert (Z.of_nat i < blen es) as Hib .
    { assert (i < length es)%nat by (apply nth_error_Some; by rewrite Hi). unfold blen. lia. }
    rewrite (proj2 (Z.leb_gt _ _)) by done. cbn [orb].
    rewrite (get_rendered _ (n_layers s)) by (done || lia || (unfold blen; lia) || (rewrite length_app; lia)).
    rewrite Z.sub_0_r, Nat2Z.id, Hi. done.
  - unfold dist_route_get_return_target. rewrite !(proj2 (Z.eqb_neq _ 0)) by done. cbn [orb].
    unfold blen at 1. rewrite (skip_rendered _ (n_layers s)) by (done || lia || (rewrite length_app; lia)).
    by rewrite read_return_rendered.
Qed.

(** C29: every worker accepts the route that the coordinator writes: the bytes pass the
    validation, entry [i] of the bytes is entry [i] of the plan, and the result goes
    back upstream. *)
Theorem route_accepted_by_workers plan g : plan_context →
  dist_coordinator_build_route_plan qsort dup s = inl (plan, g) →
  dist_route_validate_blob (blob plan) (blen (entries plan)) (n_layers s) = None ∧
  (∀ i e, nth_error (entries plan) i = Some e →
    dist_route_get_entry (blob plan) (blen (entries plan)) (Z.of_nat i) =
      inl (RouteEntry (re_host e) (re_port e) (re_layer_start e) (re_layer_end e) (re_flags e) (-1))) ∧
  dist_route_get_return_target (blob plan) (blen (entries plan)) = inl (RouteReturn [] 0 DS4_DIST_ROUTE_RETURN_UPSTREAM).
Proof. apply route_accepted_by_workers_holds. Qed.
End build.

(** ** Witnesses *)

Fixpoint insert_by {A} (cmp : A → A → Z) (x : A) (l : list A) : list A :=
  match l with
  | [] => [x]
  | y :: l => if cmp x y <=? 0 then x :: y :: l else y :: insert_by cmp x l
  end.
Definition insertion_sort {A} (cmp : A → A → Z) (l : list A) : list A := foldr (insert_by cmp) [] l.

Lemma insert_permutes {A} (cmp : A → A → Z) x k : Permutation (insert_by cmp x k) (x :: k).
Proof.
  induction k as [|y k IH]; [reflexivity|]. cbn. destruct (cmp x y <=? 0); [reflexivity|]. rewrite IH. apply Permutation_swap.
Qed.

Lemma insertion_sort_permutes {A} (cmp : A → A → Z) l : Permutation (insertion_sort cmp l) l.
Proof.
  induction l as [|x l IH]; [reflexivity|]. change (Permutation (insert_by cmp x (insertion_sort cmp l)) (x :: l)).
  by rewrite insert_permutes, IH.
Qed.

Definition example_worker (fd : Z) (host : string) (first last_ out : Z) : ds4_dist_worker_entry :=
  Worker fd (bs host) (bs "9") (bs "m") 1 4 first last_ out 1 4096 8 (7000 + fd).
Definition example_coordinator : ds4_dist_coordinator_state :=
  Coordinator 1 (bs "m") 8 0 1 0 false false true 16 5
    [example_worker 5 "10.0.0.5" 5 7 1; example_worker 4 "10.0.0.4" 2 3 0; example_worker 3 "10.0.0.3" 2 4 0] false.

Lemma example_context : plan_context insertion_sort Some example_coordinator.
Proof.
  assert (∀ fd h a b o, 0 <= fd <= 9 → host_ok (bs h) → 0 <= a <= b → b < 8 → (o = 0 ∨ o = 1 ∧ b + 1 = 8) →
    worker_ok 8 (example_worker fd h a b o)) as Hw.
  { intros. constructor; cbn; try done; lia. }
  assert (∀ h, bool_decide (1 <= blen (bs h)) && bool_decide (blen (bs h) < 1025) && forallb (λ c, (0 <? c) && (c <? 256)) (bs h) = true → host_ok (bs h)) as Hh.
  { intros h. rewrite !andb_true_iff, !bool_decide_eq_true, forallb_forall. intros [[? ?] Hall].
    split; [unfold NI_MAXHOST; lia|]. apply List.Forall_forall. intros c Hc. apply Hall in Hc. lia. }
  constructor; [|by eexists| |cbn; lia|done|cbn; lia].
  - split; [apply insertion_sort_permutes|]. set (l := insertion_sort _ _). vm_compute in l. subst l.
    repeat constructor; vm_compute; discriminate.
  - unfold registry_ok. repeat constructor; apply Hw; try lia; apply Hh; reflexivity.
Qed.

Example route_found_exactly_witness :
  match dist_coordinator_build_route_plan insertion_sort Some example_coordinator with
  | inl (plan, g) => g = 5 ∧ ∃ path, chain example_coordinator (workers example_coordinator) 7 2 path ∧ entries_for path (entries plan)
  | inr (MissingLayer m) => (∀ path, ¬ chain example_coordinator (workers example_coordinator) 7 2 path) ∧
      reached example_coordinator (workers example_coordinator) 7 2 m ∧
      ∀ x, reached example_coordinator (workers example_coordinator) 7 2 x → x <= m
  | inr _ => False
  end.
Proof. exact (route_found_exactly insertion_sort Some example_coordinator example_context). Defined.

Definition example_plan : ds4_dist_route_plan :=
  match dist_coordinator_build_route_plan insertion_sort Some example_coordinator with inl (p, _) => p | inr _ => empty_plan end.

Example route_accepted_by_workers_witness :
  dist_route_validate_blob (blob example_plan) 2 8 = None ∧
  dist_route_get_entry (blob example_plan) 2 1 = inl (RouteEntry (bs "10.0.0.5") 7005 5 7 1 (-1)).
Proof.
  destruct (route_accepted_by_workers insertion_sort Some example_coordinator example_plan 5 example_context) as (Hv & Hg & _);
    [vm_compute; reflexivity|].
  split; [exact Hv|]. exact (Hg 1%nat (entry_for (example_worker 5 "10.0.0.5" 5 7 1) (-1)) ltac:(vm_compute; reflexivity)).
Defined.
