(* ===== verification/DistWork.v ===== *)
(** * Work and results of distributed evaluation (ds4_distributed.c)

    The coordinator sends a span of tokens with the hidden state of its own layers; each
    worker checks the work against its own state, evaluates its layers and sends the
    hidden state on or the result back.  The engine is an interface. *)

From S2P Require Import Prelude Bytes Text Json Http DistWire DistFloat DistRoute.

(** ** The engine *)

(** A session's operations, as the distributed runtime calls them; floats are bit
    patterns and messages are texts. *)
Record engine (session : Type) := Engine {
  session_create : option session;
  layer_slice_reset : session -> session * option (list Z);
  session_tokens : session -> option (list Z);
  eval_layer_slice : session -> list Z -> Z -> Z -> Z -> option (list Z) -> bool -> bool -> session * (list Z + list Z);
  eval_output_head : session -> list Z -> Z -> list Z + list Z;
  engine_model_id : Z; layer_count : Z; vocab_size : Z; hidden_f32_values : Z;
  prefill_cap : Z; context_size : Z }.
Arguments Engine {session}.
Arguments session_create {session} _.
Arguments layer_slice_reset {session} _ _.
Arguments session_tokens {session} _ _.
Arguments eval_layer_slice {session} _ _ _ _ _ _ _ _ _.
Arguments eval_output_head {session} _ _ _ _.
Arguments engine_model_id {session} _.
Arguments layer_count {session} _.
Arguments vocab_size {session} _.
Arguments hidden_f32_values {session} _.
Arguments prefill_cap {session} _.
Arguments context_size {session} _.

Definition DS4_DIST_WORK_F_INPUT_HC : Z := 1.
Definition DS4_DIST_WORK_F_OUTPUT_LOGITS : Z := 2.
Definition DS4_DIST_WORK_F_RESET_SESSION : Z := 4.
Definition DS4_DIST_WORK_F_ACK_ONLY : Z := 8.
Definition DS4_DIST_WORK_F_VALID_MASK : Z :=
  Z.lor (Z.lor DS4_DIST_WORK_F_INPUT_HC DS4_DIST_WORK_F_OUTPUT_LOGITS) (Z.lor DS4_DIST_WORK_F_RESET_SESSION DS4_DIST_WORK_F_ACK_ONLY).
Definition DS4_DIST_RESULT_ACK : Z := 0.
Definition DS4_DIST_RESULT_HIDDEN_STATE : Z := 1.
Definition DS4_DIST_RESULT_LOGITS : Z := 2.

Definition flag (flags f : Z) : bool := negb (Z.land flags f =? 0).

(** Floats in memory. *)
Definition f32_bytes (l : list Z) : list Z := concat (map Le.put32 l).

(** ** Frames *)

(** dist_send_work_frame, as the frame it sends; [None] when it refuses *)
Definition dist_send_work_frame (work : ds4_dist_work_fixed) (tokens : list Z) (input_hc : list Z) (route_blob : list Z) : option (list Z) :=
  if work_n_tokens work =? 0 then None
  else
    let token_bytes := work_n_tokens work * 4 in
    if (UINT32_MAX <? token_bytes) || negb (work_token_bytes work =? token_bytes) then None
    else
      values ← (if work_input_hc_bytes work =? 0 then Some 0
                else dist_activation_values_from_wire_bytes (work_input_hc_bits work) (work_input_hc_bytes work));
      let frame_bytes := 80 + work_token_bytes work + work_input_hc_bytes work + work_route_bytes work in
      if UINT32_MAX <? frame_bytes then None
      else
        hc ← (if work_input_hc_bytes work =? 0 then Some []
              else dist_write_activation_payload (ztake values input_hc) (work_input_hc_bits work));
        Some (dist_write_frame_header DS4_DIST_MSG_WORK frame_bytes ++ dist_work_to_wire work ++
              be32s (map (fun t => u32 t) (ztake (work_n_tokens work) tokens)) ++ hc ++ ztake (work_route_bytes work) route_blob).

(** dist_send_work_result, as the frame it sends *)
Definition dist_send_work_result (request_id result_hash status result_kind payload_bits : Z)
    (telemetry : list ds4_dist_telemetry_fixed) (payload : list Z) : option (list Z) :=
  let hidden := (status =? 0) && (result_kind =? DS4_DIST_RESULT_HIDDEN_STATE) in
  bits_bytes ←
    (if hidden then
       let bits := dist_activation_bits_or_default payload_bits in
       if negb (dist_activation_bits_valid bits) || negb (blen payload mod 4 =? 0) then None
       else wire_bytes ← dist_activation_wire_bytes bits (blen payload / 4); Some (bits, wire_bytes)
     else if (status =? 0) && (result_kind =? DS4_DIST_RESULT_LOGITS) then Some (32, blen payload)
     else Some (0, blen payload));
  let '(bits, wire_bytes) := bits_bytes in
  let telemetry_bytes := blen telemetry * 40 in
  if UINT32_MAX <? telemetry_bytes then None
  else
    let frame_bytes := 40 + telemetry_bytes + wire_bytes in
    if UINT32_MAX <? frame_bytes then None
    else
      let '(rh, rl) := dist_u64_to_halves request_id in
      let '(hh, hl) := dist_u64_to_halves (if status =? 0 then result_hash else 0) in
      let r := ResultFixed rh rl hh hl status result_kind (blen telemetry) telemetry_bytes wire_bytes bits in
      body ← (if hidden && negb (wire_bytes =? 0) then dist_write_activation_payload (words32 payload) bits else Some payload);
      Some (dist_write_frame_header DS4_DIST_MSG_RESULT frame_bytes ++ dist_result_to_wire r ++
            concat (map dist_telemetry_to_wire telemetry) ++ body).

Definition dist_send_work_error (request_id : Z) (msg : list Z) : option (list Z) :=
  dist_send_work_result request_id 0 1 0 0 [] (ztake UINT32_MAX msg).

(** ** Workers *)

Section worker.
Context {session : Type} (E : engine session).

Record ds4_dist_worker_session := WorkerSession { session_id : Z; token_hash : Z; token_hash_valid : bool; the_session : session }.
Record ds4_dist_worker_state := WorkerState {
  ws_model_id : Z; ws_layer_start : Z; ws_layer_end : Z; ws_has_output : bool; ws_ctx_size : Z;
  sessions : list ds4_dist_worker_session }.

Definition with_sessions (st : ds4_dist_worker_state) (l : list ds4_dist_worker_session) : ds4_dist_worker_state :=
  WorkerState (ws_model_id st) (ws_layer_start st) (ws_layer_end st) (ws_has_output st) (ws_ctx_size st) l.

Definition dist_worker_find_session_locked (st : ds4_dist_worker_state) (id : Z) : option ds4_dist_worker_session :=
  List.find (fun s => session_id s =? id) (sessions st).

(** dist_worker_get_session_locked: found, or created in front *)
Definition dist_worker_get_session_locked (st : ds4_dist_worker_state) (id : Z)
    : (ds4_dist_worker_state * ds4_dist_worker_session) + list Z :=
  match dist_worker_find_session_locked st id with
  | Some s => inl (st, s)
  | None =>
      match session_create E with
      | None => inr (bs "failed to create distributed worker session")
      | Some x => let s := WorkerSession id 0 false x in inl (with_sessions st (s :: sessions st), s)
      end
  end.

(** The entry is changed in place. *)
Definition put_session (st : ds4_dist_worker_state) (s : ds4_dist_worker_session) : ds4_dist_worker_state :=
  with_sessions st (map (fun o => if session_id o =? session_id s then s else o) (sessions st)).

Definition dist_worker_clear_sessions (st : ds4_dist_worker_state) : ds4_dist_worker_state * Z :=
  (with_sessions st [], blen (sessions st)).

(** What a worker does with a piece of work. *)
Inductive reaction :=
  | Hangup
  | Reply (frame : option (list Z))
  | Forward (host : list Z) (port : Z) (request_id : Z) (telemetry : ds4_dist_telemetry_fixed) (frame : list Z).

Definition reply_error (request_id : Z) (msg : list Z) : reaction := Reply (dist_send_work_error request_id msg).

(** The tokens of the payload. *)
Fixpoint read_tokens (n : nat) (p : list Z) : option (list Z * list Z) + list Z :=
  match n with
  | O => inl (Some ([], p))
  | S n =>
      if blen p <? 4 then inl None
      else
        let token := word p 0 in
        if (INT_MAX <? token) || (u32 (vocab_size E) <=? token) then inr (bs "WORK token id is outside the model vocabulary")
        else match read_tokens n (zdrop 4 p) with
        | inl (Some (ts, p)) => inl (Some (token :: ts, p))
        | r => r
        end
  end.

(** dist_forward_work_to_next, once the connection to the next worker is there *)
Definition dist_forward_work_to_next (next : ds4_dist_route_entry) (work : ds4_dist_work_fixed) (tokens hidden : list Z)
    (telemetry : ds4_dist_telemetry_fixed) (route_blob : list Z) : reaction :=
  let request_id := dist_u64_from_halves (work_request_hi work) (work_request_lo work) in
  let bits := dist_activation_bits_or_default (work_input_hc_bits work) in
  match dist_activation_wire_bytes_from_f32_bytes bits (4 * blen hidden) with
  | None => reply_error request_id (bs "invalid forwarded hidden-state size")
  | Some hc_bytes =>
      let flags := Z.lor (work_flags work) DS4_DIST_WORK_F_INPUT_HC in
      let flags := if flag (re_flags next) DS4_DIST_ROUTE_F_OUTPUT_LOGITS then Z.lor flags DS4_DIST_WORK_F_OUTPUT_LOGITS
                   else Z.land flags (UINT32_MAX - DS4_DIST_WORK_F_OUTPUT_LOGITS) in
      let forwarded := WorkFixed (work_model_id work) (work_session_hi work) (work_session_lo work) (work_request_hi work) (work_request_lo work)
        (work_prefix_hash_hi work) (work_prefix_hash_lo work) (work_result_hash_hi work) (work_result_hash_lo work)
        (work_pos0 work) (work_n_tokens work) (re_layer_start next) (re_layer_end next) flags
        (work_token_bytes work) hc_bytes bits (work_route_count work) (u32 (work_route_index work + 1)) (work_route_bytes work) in
      match dist_send_work_frame forwarded tokens hidden route_blob with
      | None => reply_error request_id (bs "failed to forward distributed work")
      | Some frame => Forward (re_host next) (re_port next) request_id telemetry frame
      end
  end.

(** The checks of the fixed part, in order. *)
Definition check_work (st : ds4_dist_worker_state) (work : ds4_dist_work_fixed) (remaining : Z) : option (list Z) :=
  if negb (work_token_bytes work =? work_n_tokens work * 4) ||
     negb (work_token_bytes work + work_input_hc_bytes work + work_route_bytes work =? remaining)
  then Some (bs "invalid distributed WORK payload sizes")
  else if work_route_count work =? 0 then Some (bs "WORK frame is missing distributed route")
  else if work_route_count work <=? work_route_index work then Some (bs "invalid distributed WORK route metadata")
  else if negb (work_model_id work =? ws_model_id st) then Some (bs "model id mismatch: work=" ++ dec (work_model_id work) ++ bs " worker=" ++ dec (ws_model_id st))
  else if negb (work_layer_start work =? ws_layer_start st) || negb (work_layer_end work =? ws_layer_end st)
  then Some (bs "worker is assigned layers " ++ dec (ws_layer_start st) ++ bs ":" ++ dec (ws_layer_end st) ++
             bs " but request asked for " ++ dec (work_layer_start work) ++ bs ":" ++ dec (work_layer_end work))
  else if negb (Z.land (work_flags work) (UINT32_MAX - DS4_DIST_WORK_F_VALID_MASK) =? 0) then Some (bs "invalid distributed WORK flags")
  else if work_n_tokens work =? 0 then Some (bs "WORK frame has no tokens")
  else if (u32 (ws_ctx_size st) <? work_pos0 work) || (u32 (ws_ctx_size st) - work_pos0 work <? work_n_tokens work)
  then Some (bs "WORK token span exceeds worker context")
  else if flag (work_flags work) DS4_DIST_WORK_F_INPUT_HC && (work_layer_start work =? 0)
  then Some (bs "layer 0 WORK must not provide input hidden-state")
  else if negb (flag (work_flags work) DS4_DIST_WORK_F_INPUT_HC) && negb (work_layer_start work =? 0)
  then Some (bs "nonzero layer WORK requires input hidden-state")
  else if flag (work_flags work) DS4_DIST_WORK_F_OUTPUT_LOGITS && negb (ws_has_output st) then Some (bs "worker was not assigned the output head")
  else if flag (work_flags work) DS4_DIST_WORK_F_OUTPUT_LOGITS && negb (u32 (work_layer_end work + 1) =? u32 (layer_count E))
  then Some (bs "WORK logits require final transformer layer")
  else None.

(** The checks of the route: the next entry, if there is one, or the message. *)
Definition check_route (work : ds4_dist_work_fixed) (route_blob : list Z) : option ds4_dist_route_entry + list Z :=
  let output_logits := flag (work_flags work) DS4_DIST_WORK_F_OUTPUT_LOGITS in
  let has_next := u32 (work_route_index work + 1) <? work_route_count work in
  match dist_route_validate_blob route_blob (work_route_count work) (u32 (layer_count E)) with
  | Some e => inr e
  | None =>
      match dist_route_get_entry route_blob (work_route_count work) (work_route_index work) with
      | inr e => inr e
      | inl current =>
          if negb (re_layer_start current =? work_layer_start work) || negb (re_layer_end current =? work_layer_end work)
          then inr (bs "WORK layer range does not match route entry")
          else if negb (Bool.eqb (flag (re_flags current) DS4_DIST_ROUTE_F_OUTPUT_LOGITS) output_logits)
          then inr (bs "WORK logits flag does not match route entry")
          else if has_next then
            match dist_route_get_entry route_blob (work_route_count work) (u32 (work_route_index work + 1)) with
            | inr e => inr e
            | inl next => if output_logits then inr (bs "non-final route entry requested logits") else inl (Some next)
            end
          else
            match dist_route_get_return_target route_blob (work_route_count work) with
            | inr e => inr e
            | inl ret => if negb (ret_kind ret =? DS4_DIST_ROUTE_RETURN_UPSTREAM) then inr (bs "unsupported final result destination")
                         else inl None
            end
      end
  end.

(** The hidden state of the work as floats, and what follows it. *)
Definition read_hidden (work : ds4_dist_work_fixed) (p : list Z) : option (option (list Z) * list Z) + list Z :=
  let expected_values := work_n_tokens work * hidden_f32_values E in
  let expected_bytes := u64 (expected_values * 4) in
  if UINT32_MAX <? expected_bytes then inr (bs "distributed hidden-state payload is too large")
  else if flag (work_flags work) DS4_DIST_WORK_F_INPUT_HC then
    let bits := dist_activation_bits_or_default (work_input_hc_bits work) in
    match (if dist_activation_bits_valid bits then dist_activation_wire_bytes bits expected_values else None) with
    | None => inr (bs "invalid distributed activation width")
    | Some wire =>
        if negb (work_input_hc_bytes work =? wire) then inr (bs "input hidden-state size does not match token span")
        else if blen p <? work_input_hc_bytes work then inl None
        else inl (Some (Some (ztake (work_input_hc_bytes work) p), zdrop (work_input_hc_bytes work) p))
    end
  else if negb (work_input_hc_bytes work =? 0) then inr (bs "WORK frame has hidden bytes without input flag")
  else inl (Some (None, p)).

(** The session the work runs in, its prefix hash checked against the worker's own. *)
Definition enter_session (st : ds4_dist_worker_state) (work : ds4_dist_work_fixed)
    : ds4_dist_worker_state * (ds4_dist_worker_session + list Z) :=
  let prefix_hash := dist_u64_from_halves (work_prefix_hash_hi work) (work_prefix_hash_lo work) in
  let reset := flag (work_flags work) DS4_DIST_WORK_F_RESET_SESSION in
  match dist_worker_get_session_locked st (dist_u64_from_halves (work_session_hi work) (work_session_lo work)) with
  | inr e => (st, inr e)
  | inl (st, s) =>
      let '(x, failed) := if reset then layer_slice_reset E (the_session s) else (the_session s, None) in
      let s := WorkerSession (session_id s) (token_hash s) (token_hash_valid s) x in
      match failed with
      | Some e => (put_session st s, inr e)
      | None =>
          match (if reset then Some (WorkerSession (session_id s) DS4_DIST_TOKEN_HASH_INIT true x)
                 else if token_hash_valid s then Some s
                 else match session_tokens E x with
                      | None => None
                      | Some timeline => Some (WorkerSession (session_id s) (dist_token_hash_prefix timeline) true x)
                      end) with
          | None => (put_session st s, inr (bs "worker session has no token timeline"))
          | Some s => (put_session st s,
                       if negb (token_hash s =? prefix_hash) then inr (bs "worker KV prefix hash mismatch") else inl s)
          end
      end
  end.

(** dist_worker_process_work_payload; [usec] is what the clock gives for the evaluation *)
Definition dist_worker_process_work_payload (usec : Z) (st : ds4_dist_worker_state) (payload : list Z)
    : ds4_dist_worker_state * reaction :=
  if blen payload <? 80 then (st, reply_error 0 (bs "truncated distributed WORK frame"))
  else
    let work := dist_work_from_wire payload in
    let request_id := dist_u64_from_halves (work_request_hi work) (work_request_lo work) in
    let prefix_hash := dist_u64_from_halves (work_prefix_hash_hi work) (work_prefix_hash_lo work) in
    let result_hash := dist_u64_from_halves (work_result_hash_hi work) (work_result_hash_lo work) in
    let fail msg := (st, reply_error request_id msg) in
    match check_work st work (blen payload - 80) with
    | Some e => fail e
    | None =>
    match read_tokens (Z.to_nat (work_n_tokens work)) (zdrop 80 payload) with
    | inr e => fail e
    | inl None => (st, Hangup)
    | inl (Some (tokens, p)) =>
    if negb (dist_token_hash_update_span prefix_hash tokens =? result_hash)
    then fail (bs "WORK token prefix hash metadata mismatch")
    else match read_hidden work p with
    | inr e => fail e
    | inl None => (st, Hangup)
    | inl (Some (hc_wire, p)) =>
    if blen p <? work_route_bytes work then (st, Hangup)
    else
    let route_blob := ztake (work_route_bytes work) p in
    match check_route work route_blob with
    | inr e => fail e
    | inl next =>
    let has_next := match next with Some _ => true | None => false end in
    let output_logits := flag (work_flags work) DS4_DIST_WORK_F_OUTPUT_LOGITS in
    let final_ack_only := flag (work_flags work) DS4_DIST_WORK_F_ACK_ONLY && negb has_next in
    let local_output_logits := output_logits && negb has_next && negb final_ack_only in
    let produce_hidden := negb local_output_logits && negb final_ack_only in
    let result_kind := if final_ack_only then DS4_DIST_RESULT_ACK
                       else if local_output_logits then DS4_DIST_RESULT_LOGITS else DS4_DIST_RESULT_HIDDEN_STATE in
    let bits := dist_activation_bits_or_default (work_input_hc_bits work) in
    match (match hc_wire with
           | None => inl None
           | Some w => match dist_decode_activation_payload w bits with
                       | inl (values, bytes, _) =>
                           if bytes =? u64 (work_n_tokens work * hidden_f32_values E * 4) then inl (Some values)
                           else inr (bs "decoded input hidden-state size does not match token span")
                       | inr e => inr e
                       end
           end) with
    | inr e => fail e
    | inl input_hc =>
    match enter_session st work with
    | (st, inr e) => (st, reply_error request_id e)
    | (st, inl s) =>
    let '(x, out) := eval_layer_slice E (the_session s) tokens (work_pos0 work) (work_layer_start work) (work_layer_end work)
                       input_hc produce_hidden local_output_logits in
    match out with
    | inr e => (put_session st (WorkerSession (session_id s) (token_hash s) false x), reply_error request_id e)
    | inl result =>
    let st := put_session st (WorkerSession (session_id s) result_hash true x) in
    let result := if final_ack_only then [] else result in
    match (if result_kind =? DS4_DIST_RESULT_HIDDEN_STATE
           then dist_activation_wire_bytes_from_f32_bytes bits (4 * blen result) else Some (4 * blen result)) with
    | None => (st, reply_error request_id (bs "invalid output hidden-state size"))
    | Some wire_bytes =>
    let telemetry := TelemetryFixed (work_layer_start work) (work_layer_end work) (work_route_index work) (work_pos0 work)
                       (work_n_tokens work) usec 0 0 (u32 (work_token_bytes work + work_input_hc_bytes work)) wire_bytes in
    (st, match next with
         | Some next => dist_forward_work_to_next next work tokens result telemetry route_blob
         | None => Reply (dist_send_work_result request_id result_hash 0 result_kind
                            (if result_kind =? DS4_DIST_RESULT_HIDDEN_STATE then bits else 32) [telemetry] (f32_bytes result))
         end)
    end end end end end end end end.

(** dist_worker_handle_work, behind the frame's header *)
Definition dist_worker_handle_work (usec : Z) (st : ds4_dist_worker_state) (fd : net) (bytes : Z)
    : ds4_dist_worker_state * reaction * net :=
  match dist_read_full fd bytes with
  | None => (st, Hangup, [])
  | Some (payload, fd) => let '(st, r) := dist_worker_process_work_payload usec st payload in (st, r, fd)
  end.
End worker.
