(* ===== verification/DistEval.v ===== *)
(** * Results on their way back, and the coordinator's side (ds4_distributed.c)

    A worker relays the results of the workers behind it and adds its own telemetry;
    the coordinator evaluates its layers, sends the rest along the route and reads the
    result. *)

From S2P Require Import Prelude Bytes Text Json Http DistWire DistFloat DistRoute DistWork.

(** The lengths of a result frame do not contradict each other. *)
Definition result_sizes_ok (r : ds4_dist_result_fixed) (body_bytes : Z) : bool :=
  (res_telemetry_bytes r mod 40 =? 0) && (res_telemetry_count r =? res_telemetry_bytes r / 40) &&
  (res_telemetry_bytes r <=? body_bytes) && (res_payload_bytes r =? u32 (body_bytes - res_telemetry_bytes r)).

(** ** Relay *)

Record ds4_dist_pending_request := Pending { pend_request_id : Z; pend_telemetry : ds4_dist_telemetry_fixed }.

(** One turn of dist_worker_forwarder_relay_main: the frame that goes upstream, or the
    end of the relay with the error it reports. *)
Inductive relay_step :=
  | Relayed (frame : list Z) (pending : list ds4_dist_pending_request) (fd : net)
  | Stopped (error : option (list Z)) (pending : list ds4_dist_pending_request).

Definition stop_with (pending : list ds4_dist_pending_request) (msg : list Z) : relay_step :=
  match pending with
  | [] => Stopped None []
  | p :: pending => Stopped (dist_send_work_error (pend_request_id p) msg) pending
  end.

Definition with_wait (t : ds4_dist_telemetry_fixed) (usec : Z) : ds4_dist_telemetry_fixed :=
  TelemetryFixed (tel_layer_start t) (tel_layer_end t) (tel_route_index t) (tel_pos0 t) (tel_n_tokens t)
    (tel_eval_usec t) usec (tel_forward_send_usec t) (tel_input_bytes t) (tel_output_bytes t).

(** The requests whose results have not come back, oldest first. *)
Record ds4_dist_worker_forwarder := Forwarder { fwd_pending : list ds4_dist_pending_request; pending_depth : Z; fwd_closing : bool }.

Definition with_pending (f : ds4_dist_worker_forwarder) (l : list ds4_dist_pending_request) : ds4_dist_worker_forwarder :=
  Forwarder l (pending_depth f) (fwd_closing f).

(** dist_worker_forwarder_enqueue_request: [None] while it waits for a place *)
Definition dist_worker_forwarder_enqueue_request (f : ds4_dist_worker_forwarder) (p : ds4_dist_pending_request)
    : option (ds4_dist_worker_forwarder * bool) :=
  if negb (fwd_closing f) && negb (pending_depth f =? 0) && (pending_depth f <=? blen (fwd_pending f)) then None
  else if fwd_closing f then Some (f, false)
  else Some (with_pending f (fwd_pending f ++ [p]), true).

Definition dist_worker_forwarder_pop_request (f : ds4_dist_worker_forwarder) : option (ds4_dist_pending_request * ds4_dist_worker_forwarder) :=
  match fwd_pending f with [] => None | p :: l => Some (p, with_pending f l) end.

Fixpoint remove_request (request_id : Z) (l : list ds4_dist_pending_request) : list ds4_dist_pending_request :=
  match l with [] => [] | p :: l => if pend_request_id p =? request_id then l else p :: remove_request request_id l end.

Definition dist_worker_forwarder_remove_request (f : ds4_dist_worker_forwarder) (request_id : Z) : ds4_dist_worker_forwarder * bool :=
  (with_pending f (remove_request request_id (fwd_pending f)), existsb (fun p => pend_request_id p =? request_id) (fwd_pending f)).

Definition with_send (t : ds4_dist_telemetry_fixed) (usec : Z) : ds4_dist_telemetry_fixed :=
  TelemetryFixed (tel_layer_start t) (tel_layer_end t) (tel_route_index t) (tel_pos0 t) (tel_n_tokens t)
    (tel_eval_usec t) (tel_downstream_wait_usec t) usec (tel_input_bytes t) (tel_output_bytes t).

Fixpoint note_send (request_id usec : Z) (l : list ds4_dist_pending_request) : list ds4_dist_pending_request :=
  match l with
  | [] => []
  | p :: l => if pend_request_id p =? request_id then Pending (pend_request_id p) (with_send (pend_telemetry p) usec) :: l
              else p :: note_send request_id usec l
  end.

Definition dist_worker_forwarder_note_send_done (f : ds4_dist_worker_forwarder) (request_id usec : Z) : ds4_dist_worker_forwarder :=
  with_pending f (note_send request_id usec (fwd_pending f)).

Definition dist_worker_forwarder_close_queue (f : ds4_dist_worker_forwarder) : ds4_dist_worker_forwarder :=
  Forwarder (fwd_pending f) (pending_depth f) true.

(** [usec] is the time since the work was sent on. *)
Definition dist_worker_forwarder_relay (usec : Z) (pending : list ds4_dist_pending_request) (fd : net) : relay_step :=
  match dist_read_frame_header fd with
  | None => stop_with pending (bs "next worker closed connection")
  | Some (type, bytes, fd) =>
      if negb (type =? DS4_DIST_MSG_RESULT) || (bytes <? 40) then stop_with pending (bs "next worker did not return valid RESULT")
      else match dist_read_full fd 40 with
      | None => stop_with pending (bs "next worker closed while returning RESULT")
      | Some (wire, fd) =>
          let r := dist_result_from_wire wire in
          let body_bytes := bytes - 40 in
          if negb (result_sizes_ok r body_bytes) then stop_with pending (bs "next worker RESULT metadata mismatch")
          else match pending with
          | [] => Stopped None []
          | p :: pending =>
              let error msg := Stopped (dist_send_work_error (pend_request_id p) msg) pending in
              if negb (dist_u64_from_halves (res_request_hi r) (res_request_lo r) =? pend_request_id p)
              then error (bs "next worker RESULT metadata mismatch")
              else
                let telemetry_bytes := res_telemetry_bytes r + 40 in
                let telemetry_count := u32 (res_telemetry_count r + 1) in
                if (UINT32_MAX <? telemetry_bytes) || (telemetry_count =? 0) then error (bs "distributed telemetry chain is too large")
                else
                  let frame_bytes := 40 + telemetry_bytes + res_payload_bytes r in
                  if UINT32_MAX <? frame_bytes then error (bs "distributed RESULT frame is too large")
                  else
                    let out := ResultFixed (res_request_hi r) (res_request_lo r) (res_result_hash_hi r) (res_result_hash_lo r)
                      (res_status r) (res_result_kind r) telemetry_count telemetry_bytes (res_payload_bytes r) (res_payload_bits r) in
                    match dist_read_full fd (res_telemetry_bytes r) with
                    | None => Stopped None pending
                    | Some (telemetry, fd) =>
                        match dist_read_full fd (res_payload_bytes r) with
                        | None => Stopped None pending
                        | Some (payload, fd) =>
                            Relayed (dist_write_frame_header DS4_DIST_MSG_RESULT frame_bytes ++ dist_result_to_wire out ++
                                     telemetry ++ dist_telemetry_to_wire (with_wait (pend_telemetry p) usec) ++ payload) pending fd
                        end
                    end
          end
      end
  end.

(** ** The coordinator *)

Inductive recv_outcome :=
  | TransportError (msg : list Z)
  | RemoteError (msg : list Z) (fd : net)
  | Received (kind result_hash : Z) (payload : list Z) (fd : net).

(** dist_recv_result_alloc; [errlen] is the size of the caller's message buffer *)
Definition dist_recv_result_alloc (errlen : Z) (fd : net) (request_id : Z) : recv_outcome :=
  match dist_read_frame_header fd with
  | None => TransportError (bs "distributed worker closed connection")
  | Some (type, bytes, fd) =>
      if negb (type =? DS4_DIST_MSG_RESULT) || (bytes <? 40) then TransportError (bs "distributed worker returned invalid frame")
      else match dist_read_full fd 40 with
      | None => TransportError (bs "failed to read distributed result")
      | Some (wire, fd) =>
          let r := dist_result_from_wire wire in
          if negb (result_sizes_ok r (bytes - 40)) then TransportError (bs "distributed result telemetry metadata mismatch")
          else if negb (dist_u64_from_halves (res_request_hi r) (res_request_lo r) =? request_id)
          then TransportError (bs "distributed result metadata mismatch")
          else match dist_discard_bytes fd (res_telemetry_bytes r) with
          | None => TransportError (bs "failed to read distributed result telemetry")
          | Some fd =>
              match dist_read_full fd (res_payload_bytes r) with
              | None => TransportError (bs "failed to read distributed result payload")
              | Some (payload, fd) =>
                  if negb (res_status r =? 0) then
                    RemoteError (if res_payload_bytes r =? 0 then bs "distributed worker returned an error"
                                 else c_str (ztake (errlen - 1) payload)) fd
                  else
                    let hash := dist_u64_from_halves (res_result_hash_hi r) (res_result_hash_lo r) in
                    if (res_result_kind r =? DS4_DIST_RESULT_HIDDEN_STATE) && negb (res_payload_bytes r =? 0) then
                      match dist_decode_activation_payload payload (res_payload_bits r) with
                      | inr e => TransportError e
                      | inl (values, _, _) => Received (res_result_kind r) hash (f32_bytes values) fd
                      end
                    else Received (res_result_kind r) hash payload fd
              end
          end
      end
  end.

(** dist_coordinator_send_remote_work_on_fd, as the frame it sends *)
Definition dist_coordinator_send_remote_work (s : ds4_dist_coordinator_state) (plan : ds4_dist_route_plan) (tokens : list Z)
    (pos0 session_id request_id prefix_hash result_hash : Z) (reset_session ack_only : bool) (hidden : list Z) : list Z + list Z :=
  match entries plan with
  | [] => inr (bs "distributed route has no remote worker")
  | first :: _ =>
      let n_tokens := blen tokens in
      let '(sh, sl) := dist_u64_to_halves session_id in
      let '(rh, rl) := dist_u64_to_halves request_id in
      let '(ph, pl) := dist_u64_to_halves prefix_hash in
      let '(hh, hl) := dist_u64_to_halves result_hash in
      let flags := DS4_DIST_WORK_F_INPUT_HC in
      let flags := if reset_session then Z.lor flags DS4_DIST_WORK_F_RESET_SESSION else flags in
      let flags := if ack_only then Z.lor flags DS4_DIST_WORK_F_ACK_ONLY else flags in
      let flags := if flag (re_flags first) DS4_DIST_ROUTE_F_OUTPUT_LOGITS then Z.lor flags DS4_DIST_WORK_F_OUTPUT_LOGITS else flags in
      match dist_activation_wire_bytes_from_f32_bytes (activation_bits s) (4 * blen hidden) with
      | None => inr (bs "invalid distributed hidden-state size")
      | Some hc_bytes =>
          let work := WorkFixed (model_id s) sh sl rh rl ph pl hh hl pos0 n_tokens (re_layer_start first) (re_layer_end first) flags
            (u32 (n_tokens * 4)) hc_bytes (activation_bits s) (blen (entries plan)) 0 (blen (blob plan)) in
          match dist_send_work_frame work tokens hidden (blob plan) with
          | None => inr (bs "failed to send distributed work")
          | Some frame => inl frame
          end
      end
  end.

Section coordinator.
Context {session : Type} (E : engine session).

(** What dist_coordinator_eval_remote_on_fd makes of the result: the logits, or the
    message of the error. *)
Definition dist_coordinator_take_result (x : session) (n_tokens expected_result_hash hidden_hc_bytes : Z) (r : recv_outcome) : list Z + list Z :=
  match r with
  | TransportError e => inr e
  | RemoteError e _ => inr e
  | Received kind hash payload _ =>
      if negb (hash =? expected_result_hash) then inr (bs "distributed result prefix hash mismatch")
      else
        let logits_bytes := u32 (vocab_size E * 4) in
        if (kind =? DS4_DIST_RESULT_LOGITS) && (blen payload =? logits_bytes) then inl (words32 payload)
        else if (kind =? DS4_DIST_RESULT_HIDDEN_STATE) && (blen payload =? hidden_hc_bytes)
        then eval_output_head E x (words32 payload) n_tokens
        else if kind =? DS4_DIST_RESULT_HIDDEN_STATE then inr (bs "distributed route returned invalid hidden-state size")
        else inr (bs "distributed route did not return logits or hidden-state")
  end.

(** dist_coordinator_eval_span; [exchange] sends a frame to the first worker and gives
    what the connection then delivers *)
Definition dist_coordinator_eval_span (errlen : Z) (exchange : list Z -> net) (s : ds4_dist_coordinator_state) (x : session)
    (plan : ds4_dist_route_plan) (tokens : list Z) (pos0 session_id request_id : Z) (reset_session : bool) : session * (list Z + list Z) :=
  let n_tokens := blen tokens in
  let hidden_bytes := n_tokens * hidden_f32_values E * 4 in
  if UINT32_MAX <? hidden_bytes then (x, inr (bs "distributed coordinator hidden-state chunk is too large"))
  else
    match (if reset_session then
             if negb (pos0 =? 0) then inr (bs "distributed reset span must start at position 0") else inl DS4_DIST_TOKEN_HASH_INIT
           else match session_tokens E x with
                | Some timeline => if blen timeline <? pos0 then inr (bs "distributed session has no " ++ dec pos0 ++ bs "-token prefix")
                                   else inl (dist_token_hash_prefix (ztake pos0 timeline))
                | None => inr (bs "distributed session has no " ++ dec pos0 ++ bs "-token prefix")
                end) with
    | inr e => (x, inr e)
    | inl prefix_hash =>
        let result_hash := dist_token_hash_update_span prefix_hash tokens in
        match (if reset_session then layer_slice_reset E x else (x, None)) with
        | (x, Some e) => (x, inr e)
        | (x, None) =>
            let local := match entries plan with [] => true | _ => false end in
            if match entries plan with [] => false | first :: _ => re_fd first <? 0 end
            then (x, inr (bs "distributed route has no live first-hop connection"))
            else
              let '(x, out) := eval_layer_slice E x tokens pos0 (local_start s) (local_end s) None (negb local) local in
              match out with
              | inr e => (x, inr e)
              | inl out =>
                  if local then (x, inl out)
                  else match dist_coordinator_send_remote_work s plan tokens pos0 session_id request_id prefix_hash result_hash reset_session false out with
                  | inr e => (x, inr e)
                  | inl frame => (x, dist_coordinator_take_result x n_tokens result_hash hidden_bytes
                                       (dist_recv_result_alloc errlen (exchange frame) request_id))
                  end
              end
        end
    end.
End coordinator.

(** ** A chain of workers *)

Section chain.
Context {session : Type} (E : engine session).

(** One frame of dist_worker_read_loop: the loop ends (with the error frame it sends),
    work is done, or a snapshot frame is left to its handler. *)
Inductive turn :=
  | LoopEnds (error : option (list Z))
  | Worked (st : ds4_dist_worker_state (session := session)) (r : reaction) (fd : net)
  | SnapshotFrame (type bytes : Z) (fd : net).

Definition dist_worker_read_turn (usec : Z) (st : ds4_dist_worker_state) (fd : net) : turn :=
  match dist_read_frame_header fd with
  | None => LoopEnds None
  | Some (type, bytes, fd) =>
      if type =? DS4_DIST_MSG_ERROR then LoopEnds None
      else if type =? DS4_DIST_MSG_WORK then let '(st, r, fd) := dist_worker_handle_work E usec st fd bytes in Worked st r fd
      else if (type =? DS4_DIST_MSG_SNAPSHOT_SAVE_REQ) || (type =? DS4_DIST_MSG_SNAPSHOT_LOAD_BEGIN) then SnapshotFrame type bytes fd
      else match dist_discard_bytes fd bytes with
           | None => LoopEnds None
           | Some _ => LoopEnds (Some (dist_send_error (bs "unsupported distributed worker frame")))
           end
  end.

(** A worker of a route: where it listens, its state, what its clock gives for the
    evaluation, the sending and the waiting, and how the network cuts what it sends. *)
Record hop := Hop { hop_host : list Z; hop_port : Z; hop_state : ds4_dist_worker_state (session := session);
  hop_eval_usec : Z; hop_send_usec : Z; hop_wait_usec : Z; hop_cut : list Z -> net }.

Definition with_state (h : hop) (st : ds4_dist_worker_state) : hop :=
  Hop (hop_host h) (hop_port h) st (hop_eval_usec h) (hop_send_usec h) (hop_wait_usec h) (hop_cut h).

(** What a chain of workers sends back for the frame on the first one's connection: each
    worker reads a frame, and relays what the next one sends. *)
Fixpoint answer (hops : list hop) (fd : net) : list hop * list Z :=
  match hops with
  | [] => ([], [])
  | h :: rest =>
      match dist_worker_read_turn (hop_eval_usec h) (hop_state h) fd with
      | LoopEnds error => (hops, default [] error)
      | SnapshotFrame _ _ _ => (hops, [])
      | Worked st Hangup _ => (with_state h st :: rest, [])
      | Worked st (Reply frame) _ => (with_state h st :: rest, default [] frame)
      | Worked st (Forward host port request_id telemetry frame) _ =>
          let reached := match rest with [] => false | n :: _ => (port =? hop_port n) && bool_decide (host = hop_host n) end in
          if negb reached then (with_state h st :: rest, [])
          else
            let '(rest, sent) := answer rest (hop_cut h frame) in
            let pending := note_send request_id (hop_send_usec h) [Pending request_id telemetry] in
            (with_state h st :: rest,
             match dist_worker_forwarder_relay (hop_wait_usec h) pending (hop_cut h sent) with
             | Relayed frame _ _ => frame
             | Stopped error _ => default [] error
             end)
      end
  end.
End chain.
