(* ===== verification/DistEvalSpec.v ===== *)
(** * Distributed evaluation (ds4_distributed.c)

    Frames are read back as they were sent, and a span of tokens that goes along a
    route gives what evaluating the layers one after the other gives. *)

From S2P Require Import Prelude Bytes Text Json Http HttpSpec DistWire DistWireSpec DistFloat.
From S2P Require Import DistRoute DistRouteSpec DistWork DistEval.

(** ** Results *)

Definition halves (v : Z) : Z * Z := dist_u64_to_halves v.

Definition result_fixed (rid hash status kind bits : Z) (ts : list ds4_dist_telemetry_fixed) (body : list Z) : ds4_dist_result_fixed :=
  ResultFixed (fst (halves rid)) (snd (halves rid)) (fst (halves hash)) (snd (halves hash)) status kind
    (blen ts) (blen ts * 40) (blen body) bits.

(** A result frame: the record, the telemetry of the hops and the payload. *)
Definition result_frame (rid hash status kind bits : Z) (ts : list ds4_dist_telemetry_fixed) (body : list Z) : list Z :=
  dist_write_frame_header DS4_DIST_MSG_RESULT (40 + blen ts * 40 + blen body) ++
  dist_result_to_wire (result_fixed rid hash status kind bits ts body) ++
  concat (map dist_telemetry_to_wire ts) ++ body.

Record result_ok (rid hash status kind bits : Z) (ts : list ds4_dist_telemetry_fixed) (body : list Z) : Prop := {
  ro_rid : fits 64 rid; ro_hash : fits 64 hash; ro_fields : all32 [status; kind; bits];
  ro_size : 40 + blen ts * 40 + blen body <= UINT32_MAX }.

Lemma halves_ok v : fits 64 v → fits 32 (fst (halves v)) ∧ fits 32 (snd (halves v)) ∧
  dist_u64_from_halves (fst (halves v)) (snd (halves v)) = v.
Proof. intros Hv. destruct (halves v) as [hi lo] eqn:E. by apply halves_back. Qed.

Lemma blen_telemetry ts : blen (concat (map dist_telemetry_to_wire ts)) = blen ts * 40.
Proof.
  induction ts as [|t ts IH]; [done|]. cbn [map concat]. rewrite blen_app, blen_cons, IH.
  assert (blen (dist_telemetry_to_wire t) = 40) as -> by exact (wire_length t). lia.
Qed.

Lemma result_reads fd (x : ds4_dist_result_fixed) r : live fd → wire_ok x → concat fd = dist_result_to_wire x ++ r →
  ∃ b fd', dist_read_full fd 40 = Some (b, fd') ∧ dist_result_from_wire b = x ∧ live fd' ∧ concat fd' = r.
Proof. exact (record_reads fd x r). Qed.

Section result.
Context (rid hash status kind bits : Z) (ts : list ds4_dist_telemetry_fixed) (body : list Z).
Context (Hok : result_ok rid hash status kind bits ts body).

Lemma result_fields : wire_ok (result_fixed rid hash status kind bits ts body).
Proof using Hok.
  destruct Hok as [Hr Hh Hf Hs]. destruct (halves_ok rid Hr) as (? & ? & _). destruct (halves_ok hash Hh) as (? & ? & _).
  unfold all32 in Hf. repeat match goal with H : Forall _ (_ :: _) |- _ => apply Forall_cons in H as [? H] end.
  pose proof (blen_nonneg ts). pose proof (blen_nonneg body).
  cbn. unfold all32. repeat (constructor; [try assumption; unfold fits; lia|]). constructor.
Qed.

Lemma result_sizes : result_sizes_ok (result_fixed rid hash status kind bits ts body) (blen ts * 40 + blen body) = true.
Proof using Hok.
  destruct Hok as [_ _ _ Hs]. pose proof (blen_nonneg ts). pose proof (blen_nonneg body).
  unfold result_sizes_ok, result_fixed. cbn [res_telemetry_bytes res_telemetry_count res_payload_bytes].
  rewrite Z.mod_mul, Z.div_mul by done. rewrite !Z.eqb_refl, (proj2 (Z.leb_le _ _)) by lia. cbn [andb].
  replace (blen ts * 40 + blen body - blen ts * 40) with (blen body) by lia. unfold wrap. rewrite Z.mod_small by lia. apply Z.eqb_refl.
Qed.

(** The head of a result frame on a connection. *)
Lemma result_head fd r : live fd → concat fd = result_frame rid hash status kind bits ts body ++ r →
  ∃ fd1 b fd2, dist_read_frame_header fd = Some (DS4_DIST_MSG_RESULT, 40 + blen ts * 40 + blen body, fd1) ∧
    dist_read_full fd1 40 = Some (b, fd2) ∧ dist_result_from_wire b = result_fixed rid hash status kind bits ts body ∧
    live fd2 ∧ concat fd2 = concat (map dist_telemetry_to_wire ts) ++ body ++ r.
Proof using Hok.
  intros Hl Hc. destruct Hok as [_ _ _ Hs]. unfold result_frame in Hc. rewrite <- !app_assoc in Hc.
  pose proof (blen_nonneg ts). pose proof (blen_nonneg body).
  destruct (frame_header_reads fd DS4_DIST_MSG_RESULT (40 + blen ts * 40 + blen body) _ Hl ltac:(by vm_compute) ltac:(unfold fits; lia) Hc) as (fd1 & -> & Hl1 & Hc1).
  destruct (result_reads fd1 (result_fixed rid hash status kind bits ts body) _ Hl1 result_fields Hc1) as (b & fd2 & Hr & Hb & Hl2 & Hc2).
  exists fd1, b, fd2. split; [done|]. by split.
Qed.
End result.

Lemma discard_reads fuel fd a r : live fd → concat fd = a ++ r → (length a <= fuel)%nat →
  ∃ fd', discard_loop fuel fd (blen a) = Some fd' ∧ live fd' ∧ concat fd' = r.
Proof.
  revert fd a. induction fuel as [|fuel IH]; intros fd a Hl Hc Hf; cbn [discard_loop].
  - assert (a = []) as -> by (destruct a; [done|simpl in Hf; lia]). by exists fd.
  - destruct (Z.leb_spec (blen a) 0) as [Hz|Hz].
    { assert (a = []) as -> by (destruct a; [done|rewrite blen_cons in Hz; pose proof (blen_nonneg a); lia]). by exists fd. }
    pose proof (ztake_zdrop (Z.min (blen a) 4096) a) as Hs. rewrite <- Hs in Hc. rewrite <- app_assoc in Hc.
    destruct (read_full_reads fd _ _ (Z.min (blen a) 4096) Hl Hc) as (fd1 & -> & Hl1 & Hc1); [apply blen_ztake; lia|].
    cbn [mbind option_bind].
    assert (blen a - Z.min (blen a) 4096 = blen (zdrop (Z.min (blen a) 4096) a)) as -> by (rewrite blen_zdrop; lia).
    apply IH; [done|done|]. unfold zdrop. rewrite length_drop. lia.
Qed.

Lemma result_received errlen fd rid hash kind bits ts body r :
  result_ok rid hash 0 kind bits ts body → live fd → concat fd = result_frame rid hash 0 kind bits ts body ++ r →
  ∃ fd', live fd' ∧ concat fd' = r ∧
    dist_recv_result_alloc errlen fd rid =
      if (kind =? DS4_DIST_RESULT_HIDDEN_STATE) && negb (blen body =? 0) then
        match dist_decode_activation_payload body bits with
        | inr e => TransportError e
        | inl (values, _, _) => Received kind hash (f32_bytes values) fd'
        end
      else Received kind hash body fd'.
Proof.
  intros Hok Hl Hc. destruct (result_head _ _ _ _ _ _ _ Hok fd r Hl Hc) as (fd1 & b & fd2 & Eh & Er & Eb & Hl2 & Hc2).
  destruct (read_full_reads fd2 _ _ (blen ts * 40) Hl2 Hc2 (blen_telemetry ts)) as (fd3x & _ & _ & _).
  destruct (discard_reads (Z.to_nat (blen ts * 40)) fd2 _ _ Hl2 Hc2) as (fd3 & Hd & Hl3 & Hc3).
  { pose proof (blen_telemetry ts) as Hb. unfold blen in *. lia. }
  rewrite blen_telemetry in Hd.
  destruct (read_full_reads fd3 body r (blen body) Hl3 Hc3 eq_refl) as (fd4 & Hr4 & Hl4 & Hc4).
  exists fd4. split; [done|]. split; [done|]. unfold dist_recv_result_alloc. rewrite Eh.
  pose proof (blen_nonneg ts). pose proof (blen_nonneg body).
  change (negb (DS4_DIST_MSG_RESULT =? DS4_DIST_MSG_RESULT)) with false. rewrite (proj2 (Z.ltb_ge _ 40)) by lia. cbn [orb].
  rewrite Er, Eb. replace (40 + blen ts * 40 + blen body - 40) with (blen ts * 40 + blen body) by lia.
  rewrite (result_sizes _ _ _ _ _ _ _ Hok). cbn [negb result_fixed res_request_hi res_request_lo res_result_hash_hi res_result_hash_lo res_status
    res_result_kind res_telemetry_bytes res_payload_bytes res_payload_bits].
  destruct Hok as [Hrid Hhash _ _]. destruct (halves_ok rid Hrid) as (_ & _ & ->). destruct (halves_ok hash Hhash) as (_ & _ & ->).
  rewrite Z.eqb_refl. cbn [negb]. unfold dist_discard_bytes. rewrite Hd, Hr4. change (negb (0 =? 0)) with false. cbv iota zeta.
  destruct ((kind =? DS4_DIST_RESULT_HIDDEN_STATE) && negb (blen body =? 0)); [|done].
  by destruct (dist_decode_activation_payload body bits) as [[[values n] w]|e].
Qed.

(** The bytes of a payload. *)
Lemma wire_bytes_exact bits n k : dist_activation_bits_valid bits = true → 0 <= n → 4 * n <= UINT32_MAX →
  dist_activation_wire_bytes bits n = Some k → (0 < n → 0 < k) ∧ 0 <= k <= 4 * n.
Proof.
  intros Hv Hn Hmax. unfold dist_activation_wire_bytes. cbv zeta. unfold dist_activation_bits_valid in *. cbv zeta in *.
  set (b := dist_activation_bits_or_default bits) in *.
  assert (b = 32 ∨ b = 16 ∨ b = 8) as Hb by lia. clearbody b.
  assert (dist_activation_bits_or_default b = b) as -> by (unfold dist_activation_bits_or_default; destruct Hb as [-> |[-> | ->]]; done).
  rewrite Hv. cbn [negb orb]. assert ((b mod 8 =? 0) = true) as -> by (destruct Hb as [-> |[-> | ->]]; done). cbn [negb].
  assert (1 <= b / 8 <= 4) as Hq by (destruct Hb as [-> |[-> | ->]]; vm_compute; split; discriminate).
  unfold wrap. rewrite Z.mod_small by nia. destruct (_ <? _); [done|]. intros [= <-]. nia.
Qed.

Lemma width_values bits n k : dist_activation_bits_valid bits = true → dist_activation_bits_or_default bits = bits →
  0 <= n → 4 * n <= UINT32_MAX → dist_activation_wire_bytes bits n = Some k → dist_activation_values_from_wire_bytes bits k = Some n.
Proof.
  intros Hv Hd Hn Hmax. unfold dist_activation_wire_bytes, dist_activation_values_from_wire_bytes. cbv zeta. rewrite Hd, Hv.
  assert (bits = 32 ∨ bits = 16 ∨ bits = 8) as Hb by (unfold dist_activation_bits_valid in Hv; rewrite Hd in Hv; cbv zeta in Hv; lia).
  assert ((bits mod 8 =? 0) = true) as -> by (destruct Hb as [-> |[-> | ->]]; done).
  assert (1 <= bits / 8 <= 4) as Hq by (destruct Hb as [-> |[-> | ->]]; vm_compute; split; discriminate).
  clear Hb Hv Hd. generalize dependent (bits / 8). intros q Hq. cbn [negb orb]. unfold wrap. rewrite Z.mod_small by nia.
  destruct (_ <? _); [done|]. intros [= <-]. rewrite (proj2 (Z.eqb_neq q 0)), Z.mod_mul, Z.div_mul by lia. done.
Qed.

(** What a worker sends back is a result frame. *)
Lemma sent_logits rid hash ts payload : result_ok rid hash 0 DS4_DIST_RESULT_LOGITS 32 ts payload →
  dist_send_work_result rid hash 0 DS4_DIST_RESULT_LOGITS 32 ts payload = Some (result_frame rid hash 0 DS4_DIST_RESULT_LOGITS 32 ts payload).
Proof.
  intros [_ _ _ Hs]. pose proof (blen_nonneg ts). pose proof (blen_nonneg payload). unfold dist_send_work_result.
  change ((0 =? 0) && (DS4_DIST_RESULT_LOGITS =? DS4_DIST_RESULT_HIDDEN_STATE)) with false.
  change ((0 =? 0) && (DS4_DIST_RESULT_LOGITS =? DS4_DIST_RESULT_LOGITS)) with true. cbv iota. cbn [mbind option_bind].
  rewrite !(proj2 (Z.ltb_ge _ _)) by lia. change (0 =? 0) with true. cbv iota. unfold result_frame, result_fixed, halves.
  destruct (dist_u64_to_halves rid), (dist_u64_to_halves hash). cbn [andb mbind option_bind]. done.
Qed.

Lemma sent_hidden rid hash ts values wire bits :
  result_ok rid hash 0 DS4_DIST_RESULT_HIDDEN_STATE bits ts wire → dist_activation_bits_or_default bits = bits →
  dist_activation_bits_valid bits = true → Forall (fits 32) values → values ≠ [] → 4 * blen values <= UINT32_MAX →
  dist_write_activation_payload values bits = Some wire → dist_activation_wire_bytes bits (blen values) = Some (blen wire) →
  dist_send_work_result rid hash 0 DS4_DIST_RESULT_HIDDEN_STATE bits ts (f32_bytes values) =
    Some (result_frame rid hash 0 DS4_DIST_RESULT_HIDDEN_STATE bits ts wire).
Proof.
  intros [_ _ _ Hs] Hbits Hv Hf Hne Hvs Hw Hwb. pose proof (blen_nonneg ts). pose proof (blen_nonneg wire). unfold dist_send_work_result.
  change ((0 =? 0) && (DS4_DIST_RESULT_HIDDEN_STATE =? DS4_DIST_RESULT_HIDDEN_STATE)) with true. cbv iota zeta. rewrite Hbits, Hv.
  assert (blen (f32_bytes values) = blen values * 4) as Hb by (unfold f32_bytes; rewrite (blen_concat_map _ 4) by done; lia).
  rewrite Hb, Z.mod_mul, Z.div_mul by done. cbn [Z.eqb negb orb]. rewrite Hwb. cbn [mbind option_bind].
  rewrite !(proj2 (Z.ltb_ge _ _)) by lia. change (0 =? 0) with true. cbv iota.
  unfold f32_bytes. rewrite words32_put by done. cbn [andb].
  assert (0 < blen values) by (destruct values; [done|rewrite blen_cons; pose proof (blen_nonneg values); lia]).
  apply wire_bytes_exact in Hwb as [Hwn _]; [|done|lia|lia].
  rewrite (proj2 (Z.eqb_neq _ 0)) by lia. cbn [negb]. rewrite Hw. unfold result_frame, result_fixed, halves.
  destruct (dist_u64_to_halves rid), (dist_u64_to_halves hash). done.
Qed.

(** A relay passes a result on and appends its own telemetry. *)
Lemma result_relayed usec rid hash status kind bits ts body t rest fd r :
  result_ok rid hash status kind bits (ts ++ [with_wait t usec]) body → live fd →
  concat fd = result_frame rid hash status kind bits ts body ++ r →
  ∃ fd', dist_worker_forwarder_relay usec (Pending rid t :: rest) fd =
    Relayed (result_frame rid hash status kind bits (ts ++ [with_wait t usec]) body) rest fd' ∧ live fd' ∧ concat fd' = r.
Proof.
  intros Hok2 Hl Hc. assert (blen (ts ++ [with_wait t usec]) = blen ts + 1) as Hbl by (rewrite blen_app; done).
  assert (result_ok rid hash status kind bits ts body) as Hok.
  { destruct Hok2 as [? ? ? Hs]. rewrite Hbl in Hs. constructor; try done. lia. }
  destruct (result_head _ _ _ _ _ _ _ Hok fd r Hl Hc) as (fd1 & b & fd2 & Eh & Er & Eb & Hl2 & Hc2).
  destruct (read_full_reads fd2 _ _ (blen ts * 40) Hl2 Hc2 (blen_telemetry ts)) as (fd3 & Hr3 & Hl3 & Hc3).
  destruct (read_full_reads fd3 body r (blen body) Hl3 Hc3 eq_refl) as (fd4 & Hr4 & Hl4 & Hc4).
  exists fd4. split; [|done]. unfold dist_worker_forwarder_relay. rewrite Eh.
  pose proof (blen_nonneg ts). pose proof (blen_nonneg body). destruct Hok2 as [Hrid Hhash _ Hs]. rewrite Hbl in Hs.
  change (negb (DS4_DIST_MSG_RESULT =? DS4_DIST_MSG_RESULT)) with false. rewrite (proj2 (Z.ltb_ge _ 40)) by lia. cbn [orb].
  rewrite Er, Eb. replace (40 + blen ts * 40 + blen body - 40) with (blen ts * 40 + blen body) by lia.
  cbv zeta. rewrite (result_sizes _ _ _ _ _ _ _ Hok). unfold result_fixed. cbn [negb pend_request_id pend_telemetry res_request_hi res_request_lo
    res_result_hash_hi res_result_hash_lo res_status res_result_kind res_telemetry_count res_telemetry_bytes res_payload_bytes res_payload_bits].
  destruct (halves_ok rid Hrid) as (_ & _ & ->). rewrite Z.eqb_refl. cbn [negb].
  assert (u32 (blen ts + 1) = blen ts + 1) as -> by (unfold wrap; apply Z.mod_small; lia).
  rewrite (proj2 (Z.ltb_ge UINT32_MAX (blen ts * 40 + 40))), (proj2 (Z.eqb_neq (blen ts + 1) 0)) by lia. cbn [orb].
  rewrite (proj2 (Z.ltb_ge UINT32_MAX _)) by lia. rewrite Hr3, Hr4.
  unfold result_frame, result_fixed. rewrite Hbl, map_app, concat_app. cbn [map concat]. rewrite app_nil_r, <- !app_assoc.
  by replace ((blen ts + 1) * 40) with (blen ts * 40 + 40) by lia.
Qed.

(** ** Work *)

(** A span of tokens on its way along a route. *)
Record call := Call {
  c_model : Z; c_sid : Z; c_rid : Z; c_prefix : list Z; c_tokens : list Z; c_reset : bool; c_bits : Z;
  c_entries : list ds4_dist_route_entry; c_blob : list Z }.

Definition c_prefix_hash (c : call) : Z := dist_token_hash_prefix (c_prefix c).
Definition c_result_hash (c : call) : Z := dist_token_hash_prefix (c_prefix c ++ c_tokens c).

Definition wants_logits (e : ds4_dist_route_entry) : bool := flag (re_flags e) DS4_DIST_ROUTE_F_OUTPUT_LOGITS.

Definition work_flags_for (c : call) (e : ds4_dist_route_entry) : Z :=
  1 + (if c_reset c then 4 else 0) + (if wants_logits e then 2 else 0).

(** The record that the [i]th worker of the route gets. *)
Definition work_for (c : call) (i : Z) (e : ds4_dist_route_entry) (hc_bytes : Z) : ds4_dist_work_fixed :=
  WorkFixed (c_model c) (fst (halves (c_sid c))) (snd (halves (c_sid c))) (fst (halves (c_rid c))) (snd (halves (c_rid c)))
    (fst (halves (c_prefix_hash c))) (snd (halves (c_prefix_hash c))) (fst (halves (c_result_hash c))) (snd (halves (c_result_hash c)))
    (blen (c_prefix c)) (blen (c_tokens c)) (re_layer_start e) (re_layer_end e) (work_flags_for c e)
    (blen (c_tokens c) * 4) hc_bytes (c_bits c) (blen (c_entries c)) i (blen (c_blob c)).

Definition work_payload (c : call) (i : Z) (e : ds4_dist_route_entry) (wire : list Z) : list Z :=
  dist_work_to_wire (work_for c i e (blen wire)) ++ be32s (c_tokens c) ++ wire ++ c_blob c.

Definition work_frame (c : call) (i : Z) (e : ds4_dist_route_entry) (wire : list Z) : list Z :=
  dist_write_frame_header DS4_DIST_MSG_WORK (blen (work_payload c i e wire)) ++ work_payload c i e wire.

Lemma token_hash_fits h t : fits 64 h → fits 64 (dist_token_hash_update h t).
Proof. intros Hh. unfold dist_token_hash_update. cbn [hash_token_bytes]. apply Z.mod_pos_bound. lia. Qed.

Lemma span_hash_fits h ts : fits 64 h → fits 64 (dist_token_hash_update_span h ts).
Proof.
  unfold dist_token_hash_update_span. revert h. induction ts as [|t ts IH]; intros h Hh; [done|]. cbn. by apply IH, token_hash_fits.
Qed.

Lemma prefix_hash_fits ts : fits 64 (dist_token_hash_prefix ts).
Proof. by apply span_hash_fits; vm_compute. Qed.

Lemma hash_span_app P ts : dist_token_hash_update_span (dist_token_hash_prefix P) ts = dist_token_hash_prefix (P ++ ts).
Proof. unfold dist_token_hash_prefix, dist_token_hash_update_span. by rewrite fold_left_app. Qed.

Section eval.
Context {session : Type} (E : engine session) (layers_n : Z).

(** A call that fits the engine, the route and the frames. *)
Record call_ok (c : call) : Prop := {
  co_model : fits 32 (c_model c); co_sid : fits 64 (c_sid c); co_rid : fits 64 (c_rid c);
  co_vocab : 0 < vocab_size E <= INT_MAX; co_layers : layer_count E = layers_n ∧ layers_n < 2 ^ 32; co_hidden : 0 < hidden_f32_values E;
  co_tokens : c_tokens c ≠ [] ∧ Forall (λ t, 0 <= t < vocab_size E) (c_tokens c);
  co_bits : dist_activation_bits_valid (c_bits c) = true ∧ dist_activation_bits_or_default (c_bits c) = c_bits c;
  co_linked : linked layers_n true UINT32_MAX (c_entries c) ∧ Forall (λ e, 1 <= re_layer_start e) (c_entries c);
  co_blob : dist_route_validate_blob (c_blob c) (blen (c_entries c)) layers_n = None;
  co_entry : ∀ i e, nth_error (c_entries c) i = Some e →
    dist_route_get_entry (c_blob c) (blen (c_entries c)) (Z.of_nat i) =
      inl (RouteEntry (re_host e) (re_port e) (re_layer_start e) (re_layer_end e) (re_flags e) (-1));
  co_return : dist_route_get_return_target (c_blob c) (blen (c_entries c)) = inl (RouteReturn [] 0 DS4_DIST_ROUTE_RETURN_UPSTREAM);
  co_span : blen (c_prefix c) + blen (c_tokens c) <= INT_MAX;
  co_room : blen (c_tokens c) <= prefill_cap E ∧ blen (c_prefix c) + blen (c_tokens c) <= context_size E;
  co_work_size : 80 + 4 * blen (c_tokens c) + 4 * (blen (c_tokens c) * hidden_f32_values E) + blen (c_blob c) <= UINT32_MAX;
  co_result_size : 80 + 40 * blen (c_entries c) + 4 * (blen (c_tokens c) * hidden_f32_values E) + 4 * vocab_size E <= UINT32_MAX }.

Context (c : call) (Hc : call_ok c).

Lemma entry_at i e : nth_error (c_entries c) i = Some e → entry_ok layers_n e ∧ 1 <= re_layer_start e ∧ Z.of_nat i < blen (c_entries c).
Proof using Hc.
  intros Hi. destruct (co_linked c Hc) as [Hl Hs]. split; [|split].
  - assert (∀ es b p i, linked layers_n b p es → nth_error es i = Some e → entry_ok layers_n e) as Hgen.
    { clear. induction es as [|x es IH]; intros b p [|i] Hlk E0; try done; destruct Hlk as (? & _ & ?); [by injection E0 as <-|by eapply IH]. }
    by eapply Hgen.
  - rewrite List.Forall_forall in Hs. apply Hs. by eapply nth_error_In.
  - assert (i < length (c_entries c))%nat by (apply nth_error_Some; by rewrite Hi). unfold blen. lia.
Qed.

(** A worker that asks for logits is the last one. *)
Lemma logits_last i e e' : nth_error (c_entries c) i = Some e → nth_error (c_entries c) (S i) = Some e' → wants_logits e = false.
Proof using Hc.
  intros Hi Hi'. destruct (co_linked c Hc) as [Hl _].
  assert (re_layer_start e' = re_layer_end e + 1) as Hnext.
  { assert (∀ es b p i, linked layers_n b p es → nth_error es i = Some e → nth_error es (S i) = Some e' → re_layer_start e' = re_layer_end e + 1) as Hgen.
    { clear. induction es as [|x es IH]; intros b p [|i] Hlk E0 E1; try done; destruct Hlk as (_ & _ & Hlk).
      - injection E0 as ->. destruct es as [|y es]; [done|]. injection E1 as ->. by destruct Hlk as (_ & [?|?] & _).
      - eapply IH; [exact Hlk|exact E0|exact E1]. }
    by eapply Hgen. }
  destruct (entry_at _ _ Hi) as [(_ & _ & _ & _ & Hf) _]. destruct (entry_at _ _ Hi') as [(_ & _ & ? & ? & _) _].
  unfold wants_logits. destruct Hf as [-> |[_ Hf]]; [done|]. lia.
Qed.

Lemma work_sizes (hc wire : list Z) : blen hc = blen (c_tokens c) * hidden_f32_values E →
  dist_activation_wire_bytes (c_bits c) (blen hc) = Some (blen wire) → 1 <= blen (c_tokens c) ∧ blen wire <= 4 * blen hc ∧ 0 < blen wire.
Proof using Hc.
  intros Hh Hw. destruct (co_tokens c Hc) as [Ht _]. pose proof (co_work_size c Hc). pose proof (co_hidden c Hc).
  pose proof (blen_nonneg (c_blob c)).
  assert (1 <= blen (c_tokens c)) as Hn by (destruct (c_tokens c) as [|x l]; [done|rewrite blen_cons; pose proof (blen_nonneg l); lia]).
  destruct (wire_bytes_exact (c_bits c) (blen hc) (blen wire)) as [Hp Hle]; [by apply (co_bits c Hc)|nia|nia|done|].
  split; [done|]. split; [lia|]. apply Hp. nia.
Qed.

Lemma work_ok i e (wire : list Z) : entry_ok layers_n e → 0 <= i < blen (c_entries c) → blen wire <= UINT32_MAX → wire_ok (work_for c i e (blen wire)).
Proof using Hc.
  intros (_ & Hp & Hr1 & Hr2 & Hf) Hi Hw. destruct Hc as [Hm Hs Hr Hv [_ Hl] Hh [_ Ht] [Hb Hb2] _ _ _ _ Hspan _ Hws Hrs].
  destruct (halves_ok _ Hs) as (? & ? & _). destruct (halves_ok _ Hr) as (? & ? & _).
  destruct (halves_ok _ (prefix_hash_fits (c_prefix c))) as (? & ? & _).
  destruct (halves_ok _ (prefix_hash_fits (c_prefix c ++ c_tokens c))) as (? & ? & _).
  pose proof (blen_nonneg (c_prefix c)). pose proof (blen_nonneg (c_tokens c)). pose proof (blen_nonneg wire). pose proof (blen_nonneg (c_blob c)).
  pose proof (blen_nonneg (c_entries c)).
  assert (0 <= c_bits c <= 32) as Hb3.
  { unfold dist_activation_bits_valid in Hb. rewrite Hb2 in Hb. cbv zeta in Hb. lia. }
  assert (0 <= work_flags_for c e < 16) as Hfl by (unfold work_flags_for; destruct (c_reset c), (wants_logits e); lia).
  cbn. unfold all32, c_prefix_hash, c_result_hash. repeat (constructor; [try assumption; unfold fits; nia|]). constructor.
Qed.

Lemma wire_values n k : 0 <= n → 4 * n <= UINT32_MAX → dist_activation_wire_bytes (c_bits c) n = Some k →
  dist_activation_values_from_wire_bytes (c_bits c) k = Some n.
Proof using Hc.
  intros Hn Hmax. destruct (co_bits c Hc) as [Hv Hd]. by apply width_values.
Qed.

Lemma send_work i e hc wire : entry_ok layers_n e → blen hc = blen (c_tokens c) * hidden_f32_values E →
  dist_write_activation_payload hc (c_bits c) = Some wire → dist_activation_wire_bytes (c_bits c) (blen hc) = Some (blen wire) →
  dist_send_work_frame (work_for c i e (blen wire)) (c_tokens c) hc (c_blob c) = Some (work_frame c i e wire).
Proof using Hc.
  intros He Hh Hw Hwb. destruct (work_sizes hc wire Hh Hwb) as (Hn & Hle & Hpos). pose proof (co_work_size c Hc). pose proof (blen_nonneg (c_blob c)).
  pose proof (wire_values (blen hc) (blen wire) ltac:(lia) ltac:(lia) Hwb) as Hval.
  unfold dist_send_work_frame. cbn [work_for work_n_tokens work_token_bytes work_input_hc_bytes work_input_hc_bits work_route_bytes].
  rewrite (proj2 (Z.eqb_neq (blen (c_tokens c)) 0)) by lia. rewrite (proj2 (Z.ltb_ge UINT32_MAX _)) by lia. rewrite Z.eqb_refl. cbn [negb orb].
  rewrite (proj2 (Z.eqb_neq (blen wire) 0)) by lia. rewrite Hval. cbn [mbind option_bind].
  rewrite (proj2 (Z.ltb_ge UINT32_MAX _)) by lia. rewrite (ztake_ge (blen hc)), Hw by lia. cbn [mbind option_bind].
  rewrite !ztake_ge by lia.
  assert (map (fun t => u32 t) (c_tokens c) = c_tokens c) as ->.
  { destruct (co_tokens c Hc) as [_ Ht]. pose proof (co_vocab c Hc). rewrite <- (map_id (c_tokens c)) at 2. apply map_ext_in. intros t Hin.
    rewrite List.Forall_forall in Ht. apply Ht in Hin. unfold wrap. apply Z.mod_small. lia. }
  unfold work_frame, work_payload. do 3 f_equal. rewrite !blen_app, blen_be32s.
  assert (blen (dist_work_to_wire (work_for c i e (blen wire))) = 80) as -> by exact (wire_length (work_for c i e (blen wire))). lia.
Qed.

(** ** The worker's checks *)

Record place_ok (st : ds4_dist_worker_state (session := session)) (e : ds4_dist_route_entry) : Prop := {
  po_model : ws_model_id st = c_model c; po_start : ws_layer_start st = re_layer_start e; po_end : ws_layer_end st = re_layer_end e;
  po_output : wants_logits e = true → ws_has_output st = true;
  po_ctx : blen (c_prefix c) + blen (c_tokens c) <= ws_ctx_size st <= INT_MAX }.

Lemma flags_for e : let w := work_flags_for c e in
  flag w DS4_DIST_WORK_F_INPUT_HC = true ∧ flag w DS4_DIST_WORK_F_OUTPUT_LOGITS = wants_logits e ∧
  flag w DS4_DIST_WORK_F_RESET_SESSION = c_reset c ∧ flag w DS4_DIST_WORK_F_ACK_ONLY = false ∧
  Z.land w (UINT32_MAX - DS4_DIST_WORK_F_VALID_MASK) = 0.
Proof. unfold work_flags_for. cbv zeta. by destruct (c_reset c), (wants_logits e). Qed.

Lemma checks_pass st i e wire : place_ok st e → entry_ok layers_n e → 1 <= re_layer_start e → 0 <= i < blen (c_entries c) →
  1 <= blen (c_tokens c) →
  check_work E st (work_for c i e (blen wire)) (blen (work_payload c i e wire) - 80) = None.
Proof using Hc.
  intros [Hm Hs He Ho Hctx] (_ & _ & Hr1 & Hr2 & Hf) Hstart Hi Hn. destruct (flags_for e) as (F1 & F2 & F3 & F4 & F5).
  destruct (co_layers c Hc) as [Hl Hl2]. pose proof (blen_nonneg (c_prefix c)).
  unfold check_work. cbn [work_for work_n_tokens work_token_bytes work_input_hc_bytes work_route_bytes work_route_count work_route_index
    work_model_id work_layer_start work_layer_end work_flags work_pos0].
  assert (blen (work_payload c i e wire) - 80 = blen (c_tokens c) * 4 + blen wire + blen (c_blob c)) as ->.
  { unfold work_payload. rewrite !blen_app, blen_be32s.
    assert (blen (dist_work_to_wire (work_for c i e (blen wire))) = 80) as -> by exact (wire_length (work_for c i e (blen wire))). lia. }
  rewrite !Z.eqb_refl. cbn [negb orb]. rewrite (proj2 (Z.eqb_neq (blen (c_entries c)) 0)), (proj2 (Z.leb_gt _ _)) by lia.
  rewrite Hm, Hs, He, !Z.eqb_refl. cbn [negb orb]. fold (work_flags_for c e). rewrite F5. cbn [Z.eqb negb].
  rewrite (proj2 (Z.eqb_neq (blen (c_tokens c)) 0)) by lia.
  assert (u32 (ws_ctx_size st) = ws_ctx_size st) as -> by (unfold wrap; apply Z.mod_small; lia).
  rewrite !(proj2 (Z.ltb_ge _ _)) by lia. cbn [orb]. rewrite F1, F2, (proj2 (Z.eqb_neq (re_layer_start e) 0)) by lia. cbn [negb andb].
  destruct (wants_logits e) eqn:Hw; [|done]. rewrite (Ho eq_refl). cbn [negb andb].
  assert (u32 (re_layer_end e + 1) = u32 (layer_count E)) as ->; [|by rewrite Z.eqb_refl].
  rewrite Hl. f_equal. destruct Hf as [Hf|[_ Hf]]; [|done]. unfold wants_logits in Hw. by rewrite Hf in Hw.
Qed.

Definition next_entry (i : nat) : option ds4_dist_route_entry :=
  (λ e, RouteEntry (re_host e) (re_port e) (re_layer_start e) (re_layer_end e) (re_flags e) (-1)) <$> nth_error (c_entries c) (S i).

Lemma route_checks_pass i e hcb : nth_error (c_entries c) i = Some e →
  check_route E (work_for c (Z.of_nat i) e hcb) (c_blob c) = inl (next_entry i).
Proof using Hc.
  intros Hi. destruct (flags_for e) as (_ & F2 & _). destruct (entry_at i e Hi) as (_ & _ & Hib). destruct (co_layers c Hc) as [Hl Hl2].
  pose proof (co_result_size c Hc) as Hsz. pose proof (co_hidden c Hc). pose proof (co_vocab c Hc). pose proof (blen_nonneg (c_tokens c)).
  assert (0 <= layers_n) as Hl0 by (destruct (entry_at i e Hi) as [(_ & _ & ? & ? & _) _]; lia).
  unfold check_route. cbn [work_for work_route_count work_route_index work_layer_start work_layer_end work_flags].
  fold (work_flags_for c e). rewrite F2.
  assert (u32 (layer_count E) = layers_n) as -> by (rewrite Hl; unfold wrap; apply Z.mod_small; lia).
  rewrite (co_blob c Hc), (co_entry c Hc i e Hi). cbn [re_layer_start re_layer_end re_flags]. rewrite !Z.eqb_refl. cbn [negb orb].
  fold (wants_logits e). rewrite Bool.eqb_reflx. cbn [negb].
  assert (u32 (Z.of_nat i + 1) = Z.of_nat (S i)) as -> by (unfold wrap; rewrite Z.mod_small; nia).
  unfold next_entry. destruct (nth_error (c_entries c) (S i)) as [e'|] eqn:Hi'.
  - destruct (entry_at _ _ Hi') as (_ & _ & Hib'). rewrite (proj2 (Z.ltb_lt _ _)) by done. rewrite (co_entry c Hc _ _ Hi').
    by rewrite (logits_last i e e' Hi Hi').
  - apply nth_error_None in Hi'.
    rewrite (proj2 (Z.ltb_ge _ _)) by (unfold blen; lia). rewrite (co_return c Hc). done.
Qed.

Lemma tokens_read ts r : Forall (λ t, 0 <= t < vocab_size E) ts → vocab_size E <= INT_MAX →
  read_tokens E (length ts) (be32s ts ++ r) = inl (Some (ts, r)).
Proof.
  clear Hc c. intros Ht Hv. induction Ht as [|t ts Ht _ IH]; [done|]. cbn [length read_tokens].
  assert (be32s (t :: ts) ++ r = be32 t ++ be32s ts ++ r) as -> by (unfold be32s; cbn [map concat]; by rewrite <- app_assoc).
  rewrite (blen_app (be32 t)), be32_length. pose proof (blen_nonneg (be32s ts ++ r)).
  rewrite (proj2 (Z.ltb_ge _ 4)) by lia. rewrite word_head by (unfold fits; lia).
  rewrite (proj2 (Z.ltb_ge INT_MAX t)) by lia.
  assert (u32 (vocab_size E) = vocab_size E) as -> by (unfold wrap; apply Z.mod_small; lia).
  rewrite (proj2 (Z.leb_gt _ _)) by lia. cbn [orb].
  assert (zdrop 4 (be32 t ++ be32s ts ++ r) = be32s ts ++ r) as -> by exact (zdrop_app (be32 t) _).
  by rewrite IH.
Qed.

(** ** Sessions *)

Context (holds : session → list Z → Prop).

(** The worker's session holds the evaluation of [P], and its hash says so. *)
Definition in_step (st : ds4_dist_worker_state) (sid : Z) (P : list Z) : Prop :=
  ∃ s, dist_worker_find_session_locked st sid = Some s ∧ token_hash_valid s = true ∧ token_hash s = dist_token_hash_prefix P ∧
    holds (the_session s) P.

Lemma find_put (st : ds4_dist_worker_state (session := session)) (s : ds4_dist_worker_session (session := session)) : is_Some (dist_worker_find_session_locked st (session_id s)) →
  dist_worker_find_session_locked (put_session st s) (session_id s) = Some s.
Proof.
  clear Hc c. unfold dist_worker_find_session_locked, put_session. cbn [sessions with_sessions].
  induction (sessions st) as [|o l IH]; [by intros []|]. cbn [List.find map].
  destruct (Z.eqb_spec (session_id o) (session_id s)) as [Ho|Ho]; [intros _; by rewrite Z.eqb_refl|].
  rewrite (proj2 (Z.eqb_neq _ _) Ho). exact IH.
Qed.

Lemma find_id (st : ds4_dist_worker_state (session := session)) sid s : dist_worker_find_session_locked st sid = Some s → session_id s = sid.
Proof. clear Hc c. unfold dist_worker_find_session_locked. intros H%find_some. lia. Qed.

(** Sessions may change, the worker's place may not. *)
Definition same_place (st st' : ds4_dist_worker_state (session := session)) : Prop :=
  ws_model_id st' = ws_model_id st ∧ ws_layer_start st' = ws_layer_start st ∧ ws_layer_end st' = ws_layer_end st ∧
  ws_has_output st' = ws_has_output st ∧ ws_ctx_size st' = ws_ctx_size st.

Record sessions_ok : Prop := {
  so_create : is_Some (session_create E);
  so_reset : ∀ x, ∃ x', layer_slice_reset E x = (x', None) ∧ holds x' [] }.

Lemma enters st i e hcb : (if c_reset c then c_prefix c = [] ∧ sessions_ok else in_step st (c_sid c) (c_prefix c)) →
  ∃ st1 s, enter_session E st (work_for c i e hcb) = (st1, inl s) ∧ holds (the_session s) (c_prefix c) ∧
    session_id s = c_sid c ∧ is_Some (dist_worker_find_session_locked st1 (c_sid c)) ∧ same_place st st1.
Proof using Hc.
  intros Hst. destruct (flags_for e) as (_ & _ & F3 & _). unfold enter_session.
  cbn [work_for work_prefix_hash_hi work_prefix_hash_lo work_session_hi work_session_lo work_flags]. fold (work_flags_for c e). rewrite F3.
  destruct (halves_ok _ (co_sid c Hc)) as (_ & _ & ->). destruct (halves_ok _ (prefix_hash_fits (c_prefix c))) as (_ & _ & Eh).
  change (dist_token_hash_prefix (c_prefix c)) with (c_prefix_hash c) in Eh. rewrite Eh. unfold dist_worker_get_session_locked.
  destruct (c_reset c).
  - destruct Hst as [HP [[x0 Hcr] Hres]].
    assert (∀ st2 s, dist_worker_find_session_locked st2 (c_sid c) = Some s → same_place st st2 →
      ∃ st1 s', (let '(x, failed) := layer_slice_reset E (the_session s) in
       let s := WorkerSession (session_id s) (token_hash s) (token_hash_valid s) x in
       match failed with
       | Some e => (put_session st2 s, inr e)
       | None => (put_session st2 (WorkerSession (session_id s) DS4_DIST_TOKEN_HASH_INIT true x),
          if negb (token_hash (WorkerSession (session_id s) DS4_DIST_TOKEN_HASH_INIT true x) =? c_prefix_hash c)
          then inr (bs "worker KV prefix hash mismatch") else inl (WorkerSession (session_id s) DS4_DIST_TOKEN_HASH_INIT true x))
       end) = (st1, inl s') ∧ holds (the_session s') (c_prefix c) ∧ session_id s' = c_sid c ∧
       is_Some (dist_worker_find_session_locked st1 (c_sid c)) ∧ same_place st st1) as Hgo.
    { intros st2 s Hf Hsp. destruct (Hres (the_session s)) as (x & -> & Hx). cbn [token_hash session_id].
      assert ((DS4_DIST_TOKEN_HASH_INIT =? c_prefix_hash c) = true) as -> by (unfold c_prefix_hash; rewrite HP; done). cbn [negb].
      eexists _, _. split; [done|]. cbn [the_session session_id]. rewrite HP. split; [done|]. pose proof (find_id _ _ _ Hf) as Hid.
      split; [done|]. split; [|done]. rewrite <- Hid. eexists. apply (find_put st2 (WorkerSession (session_id s) _ _ _)).
      cbn [session_id]. rewrite Hid. by eexists. }
    destruct (dist_worker_find_session_locked st (c_sid c)) as [s|] eqn:Ef.
    + apply (Hgo st s Ef). unfold same_place. done.
    + rewrite Hcr. apply (Hgo _ (WorkerSession (c_sid c) 0 false x0)); [|by unfold same_place].
      unfold dist_worker_find_session_locked. cbn. by rewrite Z.eqb_refl.
  - destruct Hst as (s & Ef & Hv & Hh & Hx). rewrite Ef. destruct s as [sid th tv x]. cbn in Hv, Hh, Hx. subst tv. cbn [the_session session_id token_hash token_hash_valid].
    rewrite Hh. change (dist_token_hash_prefix (c_prefix c)) with (c_prefix_hash c). rewrite Z.eqb_refl. cbn [negb].
    pose proof (find_id _ _ _ Ef) as Hid. cbn in Hid. subst sid. eexists _, _. split; [done|]. split; [done|]. split; [done|].
    split; [|done]. eexists. apply (find_put st (WorkerSession (c_sid c) _ _ _)). by eexists.
Qed.

(** ** One hop *)

Context (layers : list Z → list Z → Z → Z → option (list Z) → list Z) (head : list Z → list Z).

(** The slices that ds4_session_eval_layer_slice takes in a session that holds [P]
    (ds4.c): layers of the model in order, a hidden state of the tokens' size, which only
    a slice that begins at the first layer can do without, logits only from the last
    layer, and tokens of the vocabulary that fit the prefill and the context. *)
Record slice_valid (P tokens : list Z) (l0 l1 : Z) (inp : option (list Z)) (wl : bool) : Prop := {
  sv_layers : 0 <= l0 <= l1 ∧ l1 < layers_n;
  sv_input : match inp with None => l0 = 0 | Some hc => blen hc = blen tokens * hidden_f32_values E end;
  sv_logits : wl = true → l1 + 1 = layers_n;
  sv_tokens : Forall (λ t, 0 <= t < vocab_size E) tokens;
  sv_span : 1 <= blen tokens <= prefill_cap E ∧ blen P + blen tokens <= context_size E }.

(** What the runtime relies on, of an engine that does not fail on such slices: in a
    session that holds [P], a slice of layers is a function of [P], the new tokens and the
    hidden state, of the right size, and the output head is one of the hidden state; the
    session then holds the tokens too. *)
Record layered : Prop := {
  la_eval : ∀ x P tokens l0 l1 inp wh wl, holds x P → slice_valid P tokens l0 l1 inp wl → ∃ x', eval_layer_slice E x tokens (blen P) l0 l1 inp wh wl =
      (x', inl (if wl then head (layers P tokens l0 l1 inp) else if wh then layers P tokens l0 l1 inp else [])) ∧ holds x' (P ++ tokens);
  la_size : ∀ P tokens l0 l1 inp, blen (layers P tokens l0 l1 inp) = blen tokens * hidden_f32_values E;
  la_fits : ∀ P tokens l0 l1 inp, Forall (fits 32) (layers P tokens l0 l1 inp);
  la_logits : ∀ hc, blen (head hc) = vocab_size E ∧ Forall (fits 32) (head hc);
  la_head : ∀ x P hc n, holds x P → 1 <= n → blen hc = n * hidden_f32_values E → eval_output_head E x hc n = inl (head hc) }.
Context (Hla : layered).

Definition received (hc : list Z) : list Z := map (narrowed (c_bits c)) hc.
Definition hop_value (e : ds4_dist_route_entry) (hc : list Z) : list Z :=
  layers (c_prefix c) (c_tokens c) (re_layer_start e) (re_layer_end e) (Some (received hc)).

(** A hidden state and its bytes. *)
Definition on_wire (hc wire : list Z) : Prop :=
  blen hc = blen (c_tokens c) * hidden_f32_values E ∧ Forall (fits 32) hc ∧
  dist_write_activation_payload hc (c_bits c) = Some wire ∧ dist_activation_wire_bytes (c_bits c) (blen hc) = Some (blen wire) ∧
  dist_decode_activation_payload wire (c_bits c) = inl (received hc, 4 * blen hc, c_bits c =? 32).

Lemma wire_exists hc : blen hc = blen (c_tokens c) * hidden_f32_values E → Forall (fits 32) hc → ∃ wire, on_wire hc wire.
Proof using Hc.
  intros Hh Hf. destruct (co_bits c Hc) as [Hv Hd]. pose proof (co_work_size c Hc). pose proof (blen_nonneg (c_blob c)). pose proof (blen_nonneg (c_tokens c)).
  destruct (payload_travels (c_bits c) hc Hv Hf ltac:(lia)) as (wire & Hw & Hb & Hdec). exists wire. rewrite Hd in Hdec. done.
Qed.

Lemma hidden_read i e hc wire hcb r : on_wire hc wire → hcb = blen wire →
  read_hidden E (work_for c i e hcb) (wire ++ r) = inl (Some (Some wire, r)).
Proof using Hc.
  intros (Hh & Hf & Hw & Hwb & Hdec) ->. destruct (flags_for e) as (F1 & _). destruct (co_bits c Hc) as [Hv Hd].
  pose proof (co_work_size c Hc). pose proof (blen_nonneg (c_blob c)). pose proof (blen_nonneg (c_tokens c)). pose proof (co_hidden c Hc).
  unfold read_hidden. cbn [work_for work_n_tokens work_flags work_input_hc_bits work_input_hc_bytes]. fold (work_flags_for c e). rewrite F1, Hd, Hv.
  rewrite <- Hh. unfold wrap. rewrite Z.mod_small by lia. rewrite (proj2 (Z.ltb_ge _ _)) by lia. rewrite Hwb, Z.eqb_refl. cbn [negb].
  pose proof (blen_nonneg r). rewrite blen_app, (proj2 (Z.ltb_ge _ _)) by lia. by rewrite ztake_app, zdrop_app.
Qed.

Lemma hop_size e hc : blen (hop_value e hc) = blen (c_tokens c) * hidden_f32_values E.
Proof using Hla. apply (la_size Hla). Qed.

(** The work that the next worker gets. *)
Lemma hop_forwards i e nx hc out wire' tel : entry_ok layers_n nx → on_wire out wire' → Z.of_nat (S i) < blen (c_entries c) →
  wants_logits e = false →
  dist_forward_work_to_next (RouteEntry (re_host nx) (re_port nx) (re_layer_start nx) (re_layer_end nx) (re_flags nx) (-1))
    (work_for c (Z.of_nat i) e hc) (c_tokens c) out tel (c_blob c) =
    Forward (re_host nx) (re_port nx) (c_rid c) tel (work_frame c (Z.of_nat (S i)) nx wire').
Proof using Hc.
  intros He (Hh & Hf & Hw & Hwb & _) Hi Hno. destruct (co_bits c Hc) as [Hv Hd]. unfold dist_forward_work_to_next.
  cbn [work_for work_request_hi work_request_lo work_input_hc_bits re_flags re_layer_start re_layer_end re_host re_port].
  destruct (halves_ok _ (co_rid c Hc)) as (_ & _ & ->). rewrite Hd. unfold dist_activation_wire_bytes_from_f32_bytes.
  rewrite (Z.mul_comm 4), Z.mod_mul, Z.div_mul by done. cbn [Z.eqb negb]. rewrite Hwb. fold (wants_logits nx).
  cbn [work_for work_model_id work_session_hi work_session_lo work_request_hi work_request_lo work_prefix_hash_hi work_prefix_hash_lo
    work_result_hash_hi work_result_hash_lo work_pos0 work_n_tokens work_flags work_token_bytes work_route_count work_route_index work_route_bytes].
  pose proof (co_result_size c Hc) as Hsz. pose proof (co_vocab c Hc). pose proof (blen_nonneg (c_tokens c)). pose proof (co_hidden c Hc).
  assert (u32 (Z.of_nat i + 1) = Z.of_nat (S i)) as -> by (unfold wrap; rewrite Z.mod_small; nia).
  assert ((if wants_logits nx then Z.lor (Z.lor (work_flags_for c e) DS4_DIST_WORK_F_INPUT_HC) DS4_DIST_WORK_F_OUTPUT_LOGITS
    else Z.land (Z.lor (work_flags_for c e) DS4_DIST_WORK_F_INPUT_HC) (UINT32_MAX - DS4_DIST_WORK_F_OUTPUT_LOGITS)) = work_flags_for c nx) as Efl.
  { unfold work_flags_for. rewrite Hno. by destruct (c_reset c), (wants_logits nx). }
  rewrite Efl. fold (work_for c (Z.of_nat (S i)) nx (blen wire')). by rewrite (send_work _ nx out wire').
Qed.

Lemma floats_width bits n : dist_activation_wire_bytes_from_f32_bytes bits (4 * n) = dist_activation_wire_bytes bits n.
Proof. unfold dist_activation_wire_bytes_from_f32_bytes. by rewrite (Z.mul_comm 4), Z.mod_mul, Z.div_mul. Qed.

Definition last_kind (e : ds4_dist_route_entry) : Z := if wants_logits e then DS4_DIST_RESULT_LOGITS else DS4_DIST_RESULT_HIDDEN_STATE.
Definition last_bits (e : ds4_dist_route_entry) : Z := if wants_logits e then 32 else c_bits c.
(** The payload of the last worker's result. *)
Definition last_body (e : ds4_dist_route_entry) (hc body : list Z) : Prop :=
  if wants_logits e then body = f32_bytes (head (hop_value e hc)) else on_wire (hop_value e hc) body.

Lemma payload_fields i e wire : entry_ok layers_n e → 0 <= i < blen (c_entries c) → blen wire <= UINT32_MAX →
  dist_work_from_wire (work_payload c i e wire) = work_for c i e (blen wire) ∧
  zdrop 80 (work_payload c i e wire) = be32s (c_tokens c) ++ wire ++ c_blob c ∧ 80 <= blen (work_payload c i e wire).
Proof using Hc.
  intros He Hi Hw. unfold work_payload. pose proof (work_ok i e wire He Hi Hw) as Hok.
  assert (blen (dist_work_to_wire (work_for c i e (blen wire))) = 80) as Hlen by exact (wire_length (work_for c i e (blen wire))).
  split; [exact (wire_back (work_for c i e (blen wire)) _ Hok)|]. split; [rewrite <- Hlen; apply zdrop_app|].
  rewrite blen_app, Hlen. pose proof (blen_nonneg (be32s (c_tokens c) ++ wire ++ c_blob c)). lia.
Qed.

Definition session_before (st : ds4_dist_worker_state (session := session)) : Prop :=
  if c_reset c then c_prefix c = [] ∧ sessions_ok else in_step st (c_sid c) (c_prefix c).

Lemma work_evaluated usec st i e hc wire :
  nth_error (c_entries c) i = Some e → place_ok st e → session_before st → on_wire hc wire →
  ∃ st' tel, same_place st st' ∧ in_step st' (c_sid c) (c_prefix c ++ c_tokens c) ∧
    dist_worker_process_work_payload E usec st (work_payload c (Z.of_nat i) e wire) =
      (st', match next_entry i with
            | Some nx => dist_forward_work_to_next nx (work_for c (Z.of_nat i) e (blen wire)) (c_tokens c) (hop_value e hc) tel (c_blob c)
            | None => Reply (dist_send_work_result (c_rid c) (c_result_hash c) 0 (last_kind e) (last_bits e) [tel]
                (f32_bytes (if wants_logits e then head (hop_value e hc) else hop_value e hc)))
            end).
Proof using Hc Hla.
  intros Hi Hpl Hses Hwire. pose proof Hwire as (Hh & Hf & Hw & Hwb & Hdec). destruct (entry_at i e Hi) as (He & Hstart & Hib).
  destruct (work_sizes hc wire Hh Hwb) as (Hn & Hle & Hpos). pose proof (co_work_size c Hc) as Hws. pose proof (blen_nonneg (c_blob c)).
  pose proof (co_hidden c Hc) as Hhv. destruct (co_bits c Hc) as [Hbv Hbd]. destruct (flags_for e) as (F1 & F2 & F3 & F4 & F5).
  destruct (payload_fields (Z.of_nat i) e wire He ltac:(lia) ltac:(lia)) as (Pf & Pd & Pl).
  destruct (enters st (Z.of_nat i) e (blen wire) Hses) as (st1 & s & Hent & Hholds & Hsid & Hfind & Hplace).
  set (w := work_for c (Z.of_nat i) e (blen wire)) in *.
  set (logits := wants_logits e && match nth_error (c_entries c) (S i) with Some _ => false | None => true end).
  destruct (la_eval Hla (the_session s) (c_prefix c) (c_tokens c) (re_layer_start e) (re_layer_end e) (Some (received hc)) (negb logits) logits Hholds)
    as (x' & Hev & Hx').
  { destruct (co_room c Hc). destruct He as (_ & _ & Hr1 & Hr2 & Hfl). constructor; [lia| | |apply (co_tokens c Hc)|lia].
    - unfold received. unfold blen at 1. rewrite length_map. exact Hh.
    - subst logits. unfold wants_logits. intros [Hw2 _]%andb_true_iff. destruct Hfl as [Hz|[_ ?]]; [by rewrite Hz in Hw2|done]. }
  assert ((if logits then head (layers (c_prefix c) (c_tokens c) (re_layer_start e) (re_layer_end e) (Some (received hc)))
           else if negb logits then layers (c_prefix c) (c_tokens c) (re_layer_start e) (re_layer_end e) (Some (received hc)) else []) =
          (if logits then head (hop_value e hc) else hop_value e hc)) as Eout by (destruct logits; done).
  rewrite Eout in Hev. set (s' := WorkerSession (session_id s) (c_result_hash c) true x').
  assert (in_step (put_session st1 s') (c_sid c) (c_prefix c ++ c_tokens c)) as Hstep.
  { exists s'. split; [|done]. rewrite <- Hsid. apply (find_put st1 s'). cbn. by rewrite Hsid. }
  assert (same_place st (put_session st1 s')) as Hsp by exact Hplace.
  unfold dist_worker_process_work_payload. rewrite (proj2 (Z.ltb_ge _ 80)), Pf, Pd by lia. cbv zeta. fold w.
  rewrite (checks_pass st (Z.of_nat i) e wire Hpl He Hstart ltac:(lia) Hn : check_work E st w _ = _).
  change (work_n_tokens w) with (blen (c_tokens c)). assert (Z.to_nat (blen (c_tokens c)) = length (c_tokens c)) as -> by (unfold blen; lia).
  destruct (co_tokens c Hc) as [_ Htok]. destruct (co_vocab c Hc) as [_ Hvoc]. rewrite (tokens_read (c_tokens c) _ Htok Hvoc).
  change (dist_u64_from_halves (work_prefix_hash_hi w) (work_prefix_hash_lo w))
    with (dist_u64_from_halves (fst (halves (dist_token_hash_prefix (c_prefix c)))) (snd (halves (dist_token_hash_prefix (c_prefix c))))).
  change (dist_u64_from_halves (work_result_hash_hi w) (work_result_hash_lo w))
    with (dist_u64_from_halves (fst (halves (dist_token_hash_prefix (c_prefix c ++ c_tokens c)))) (snd (halves (dist_token_hash_prefix (c_prefix c ++ c_tokens c))))).
  destruct (halves_ok _ (prefix_hash_fits (c_prefix c))) as (_ & _ & ->). destruct (halves_ok _ (prefix_hash_fits (c_prefix c ++ c_tokens c))) as (_ & _ & ->).
  rewrite hash_span_app, Z.eqb_refl. cbn [negb].
  rewrite (hidden_read (Z.of_nat i) e hc wire (blen wire) (c_blob c) Hwire eq_refl : read_hidden E w (wire ++ c_blob c) = _).
  change (work_route_bytes w) with (blen (c_blob c)). rewrite (proj2 (Z.ltb_ge (blen (c_blob c)) _)), ztake_ge by lia.
  rewrite (route_checks_pass i e (blen wire) Hi : check_route E w (c_blob c) = _).
  change (work_flags w) with (work_flags_for c e). rewrite F2, F4. cbn [andb negb].
  change (work_input_hc_bits w) with (c_bits c). rewrite Hbd, Hdec.
  assert (u64 (blen (c_tokens c) * hidden_f32_values E * 4) = 4 * blen hc) as -> by (rewrite Hh; unfold wrap; rewrite Z.mod_small; lia).
  rewrite Z.eqb_refl. rewrite Hent. cbv iota.
  change (work_pos0 w) with (blen (c_prefix c)). change (work_layer_start w) with (re_layer_start e). change (work_layer_end w) with (re_layer_end e).
  change (dist_u64_from_halves (work_request_hi w) (work_request_lo w)) with (dist_u64_from_halves (fst (halves (c_rid c))) (snd (halves (c_rid c)))).
  destruct (halves_ok _ (co_rid c Hc)) as (_ & _ & ->). unfold last_kind, last_bits.
  unfold next_entry. destruct (nth_error (c_entries c) (S i)) as [nx|] eqn:Hnx; cbn [fmap option_fmap option_map].
  - pose proof (logits_last i e nx Hi Hnx) as Hno. subst logits. rewrite Hno in Hev |- *. cbn [andb negb] in Hev |- *. rewrite Hev. cbv iota.
    destruct (wire_exists (hop_value e hc) (hop_size e hc) (la_fits Hla _ _ _ _ _)) as (wire' & _ & _ & _ & Hwb' & _).
    change (DS4_DIST_RESULT_HIDDEN_STATE =? DS4_DIST_RESULT_HIDDEN_STATE) with true. cbv iota. rewrite floats_width, Hwb'.
    eexists _, _. split; [exact Hsp|]. split; [exact Hstep|]. done.
  - subst logits. destruct (wire_exists (hop_value e hc) (hop_size e hc) (la_fits Hla _ _ _ _ _)) as (wire' & _ & _ & _ & Hwb' & _).
    destruct (wants_logits e) eqn:Hlog; cbn [negb andb] in Hev |- *; rewrite Hev; cbv iota;
      [change (DS4_DIST_RESULT_LOGITS =? DS4_DIST_RESULT_HIDDEN_STATE) with false; cbv iota
      |change (DS4_DIST_RESULT_HIDDEN_STATE =? DS4_DIST_RESULT_HIDDEN_STATE) with true; cbv iota; rewrite floats_width, Hwb'];
      (eexists _, _; split; [exact Hsp|]; split; [exact Hstep|]; done).
Qed.

(** What the last worker sends back. *)
Lemma last_sends e hc tel : ∃ body, last_body e hc body ∧ blen body <= 4 * (blen (c_tokens c) * hidden_f32_values E) + 4 * vocab_size E ∧
  (0 < blen (c_entries c) → dist_send_work_result (c_rid c) (c_result_hash c) 0 (last_kind e) (last_bits e) [tel]
    (f32_bytes (if wants_logits e then head (hop_value e hc) else hop_value e hc)) =
    Some (result_frame (c_rid c) (c_result_hash c) 0 (last_kind e) (last_bits e) [tel] body)).
Proof using Hc Hla.
  pose proof (co_result_size c Hc) as Hsz. pose proof (co_vocab c Hc) as [Hv _]. pose proof (co_hidden c Hc).
  pose proof (blen_nonneg (c_tokens c)). pose proof (co_work_size c Hc) as Hws. pose proof (blen_nonneg (c_blob c)).
  destruct (co_bits c Hc) as [Hbv Hbd]. unfold last_body, last_kind, last_bits. pose proof (hop_size e hc) as Hsize.
  assert (∀ kind bits body, kind = 1 ∨ kind = 2 → 0 <= bits <= 32 → blen body <= 4 * (blen (c_tokens c) * hidden_f32_values E) + 4 * vocab_size E →
    0 < blen (c_entries c) → result_ok (c_rid c) (c_result_hash c) 0 kind bits [tel] body) as Hrok.
  { intros kind bits body Hk Hb Hbd' He. constructor; [apply Hc|apply prefix_hash_fits| |change (blen [tel]) with 1; lia].
    unfold all32. repeat (constructor; [unfold fits; lia|]). constructor. }
  destruct (wants_logits e).
  - destruct (la_logits Hla (hop_value e hc)) as [Hl _]. exists (f32_bytes (head (hop_value e hc))).
    assert (blen (f32_bytes (head (hop_value e hc))) = 4 * vocab_size E) as Hb by (unfold f32_bytes; rewrite (blen_concat_map _ 4) by done; lia).
    split; [done|]. split; [nia|]. intros He. apply sent_logits, Hrok; [by right|lia|nia|done].
  - destruct (wire_exists (hop_value e hc) Hsize (la_fits Hla _ _ _ _ _)) as (wire & Hwire). pose proof Hwire as (Hh & Hf & Hw & Hwb & _).
    destruct (work_sizes _ wire Hh Hwb) as (Hn & Hle & Hpos). exists wire. split; [done|]. split; [nia|]. intros He.
    apply sent_hidden; try done; [|by intros Hnil; rewrite Hnil in Hsize; change (blen (@nil Z)) with 0 in Hsize; nia|lia].
    apply Hrok; [by left| |nia|done]. unfold dist_activation_bits_valid in Hbv. rewrite Hbd in Hbv. cbv zeta in Hbv. lia.
Qed.

(** ** A chain of workers *)

(** The hidden state behind the workers of a route. *)
Definition hidden_after (es : list ds4_dist_route_entry) (hc : list Z) : list Z := fold_left (λ hc e, hop_value e hc) es hc.

(** The worker is the one the entry names, and it is ready. *)
Record ready (h : hop (session := session)) (e : ds4_dist_route_entry) : Prop := {
  rd_host : hop_host h = re_host e; rd_port : hop_port h = re_port e;
  rd_place : place_ok (hop_state h) e; rd_session : session_before (hop_state h);
  rd_cut : ∀ l, live (hop_cut h l) ∧ concat (hop_cut h l) = l }.

(** The worker has evaluated the span. *)
Definition served (h h' : hop (session := session)) : Prop :=
  h' = with_state h (hop_state h') ∧ same_place (hop_state h) (hop_state h') ∧ in_step (hop_state h') (c_sid c) (c_prefix c ++ c_tokens c).

Lemma turn_works usec st i e wire fd : entry_ok layers_n e → 0 <= i < blen (c_entries c) → 0 <= blen wire <= 4 * (blen (c_tokens c) * hidden_f32_values E) →
  live fd → concat fd = work_frame c i e wire →
  ∃ fd', dist_worker_read_turn E usec st fd =
    Worked (fst (dist_worker_process_work_payload E usec st (work_payload c i e wire)))
      (snd (dist_worker_process_work_payload E usec st (work_payload c i e wire))) fd'.
Proof using Hc.
  intros He Hi Hw Hl Hcat. unfold dist_worker_read_turn. pose proof (co_work_size c Hc) as Hws.
  pose proof (blen_nonneg (work_payload c i e wire)) as Hnn.
  assert (blen (work_payload c i e wire) <= UINT32_MAX) as Hfit.
  { unfold work_payload. rewrite !blen_app, blen_be32s.
    assert (blen (dist_work_to_wire (work_for c i e (blen wire))) = 80) as -> by exact (wire_length (work_for c i e (blen wire))). lia. }
  destruct (frame_header_reads fd DS4_DIST_MSG_WORK (blen (work_payload c i e wire)) _ Hl ltac:(by vm_compute) ltac:(unfold fits; lia) Hcat)
    as (fd1 & -> & Hl1 & Hc1).
  rewrite <- (app_nil_r (work_payload c i e wire)) in Hc1.
  destruct (read_full_reads fd1 _ _ (blen (work_payload c i e wire)) Hl1 Hc1 eq_refl) as (fd2 & Hr & _ & _).
  change (DS4_DIST_MSG_WORK =? DS4_DIST_MSG_ERROR) with false. change (DS4_DIST_MSG_WORK =? DS4_DIST_MSG_WORK) with true. cbv iota.
  unfold dist_worker_handle_work. rewrite Hr. destruct (dist_worker_process_work_payload E usec st (work_payload c i e wire)) as [st' r]. by exists fd2.
Qed.

Lemma wire_fits hc wire : on_wire hc wire → 0 <= blen wire <= 4 * (blen (c_tokens c) * hidden_f32_values E).
Proof using Hc. intros (Hh & _ & _ & Hwb & _). destruct (work_sizes hc wire Hh Hwb) as (_ & Hle & Hpos). lia. Qed.

(** The payload of the chain's result. *)
Definition chain_body (e : ds4_dist_route_entry) (value body : list Z) : Prop :=
  if wants_logits e then body = f32_bytes (head value) else on_wire value body.

Lemma body_fits e value body : chain_body e value body → blen body <= 4 * (blen (c_tokens c) * hidden_f32_values E) + 4 * vocab_size E.
Proof using Hc Hla.
  pose proof (co_vocab c Hc). pose proof (co_hidden c Hc). pose proof (blen_nonneg (c_tokens c)).
  unfold chain_body. destruct (wants_logits e).
  - intros ->. destruct (la_logits Hla value) as [Hl _]. unfold f32_bytes. rewrite (blen_concat_map _ 4) by done. nia.
  - intros Hw. apply wire_fits in Hw. lia.
Qed.

Lemma result_fits ts t l value body : chain_body l value body → blen ts + 1 <= blen (c_entries c) →
  result_ok (c_rid c) (c_result_hash c) 0 (last_kind l) (last_bits l) (ts ++ [t]) body.
Proof using Hc Hla.
  intros Hb Hts. pose proof (body_fits _ _ _ Hb). pose proof (co_result_size c Hc). destruct (co_bits c Hc) as [Hbv Hbd].
  unfold dist_activation_bits_valid in Hbv. rewrite Hbd in Hbv. cbv zeta in Hbv.
  constructor; [apply Hc|apply prefix_hash_fits| |rewrite blen_app; change (blen [t]) with 1; lia].
  unfold last_kind, last_bits, all32, DS4_DIST_RESULT_LOGITS, DS4_DIST_RESULT_HIDDEN_STATE.
  destruct (wants_logits l); repeat (constructor; [unfold fits; lia|]); constructor.
Qed.

Lemma hop_turns h i e fd hc wire : ready h e → nth_error (c_entries c) i = Some e → on_wire hc wire → live fd →
  concat fd = work_frame c (Z.of_nat i) e wire →
  ∃ fd' st' tel, served h (with_state h st') ∧ dist_worker_read_turn E (hop_eval_usec h) (hop_state h) fd = Worked st'
    match next_entry i with
    | Some nx => dist_forward_work_to_next nx (work_for c (Z.of_nat i) e (blen wire)) (c_tokens c) (hop_value e hc) tel (c_blob c)
    | None => Reply (dist_send_work_result (c_rid c) (c_result_hash c) 0 (last_kind e) (last_bits e) [tel]
                (f32_bytes (if wants_logits e then head (hop_value e hc) else hop_value e hc)))
    end fd'.
Proof using Hc Hla.
  intros [_ _ Hpl Hses _] Hi Hw Hl Hcat. destruct (entry_at i e Hi) as (He & _ & Hib).
  destruct (turn_works (hop_eval_usec h) (hop_state h) (Z.of_nat i) e wire fd He ltac:(lia) (wire_fits _ _ Hw) Hl Hcat) as (fd' & ->).
  destruct (work_evaluated (hop_eval_usec h) (hop_state h) i e hc wire Hi Hpl Hses Hw) as (st' & tel & Hsp & Hst & ->).
  exists fd', st', tel. split; [|done]. unfold served. cbn. by destruct h.
Qed.

Definition head_of {A} (l : list A) : option A := match l with [] => None | x :: _ => Some x end.

Lemma tail_at {A} (l : list A) i x r : drop i l = x :: r → nth_error l i = Some x ∧ nth_error l (S i) = head_of r ∧ drop (S i) l = r.
Proof.
  revert l. induction i as [|i IH]; intros [|y l]; simpl; try done; [|exact (IH l)].
  intros [= -> ->]. by destruct r.
Qed.

Lemma chain_answers es : ∀ hops i e fd hc wire, Forall2 ready hops (e :: es) → drop i (c_entries c) = e :: es → on_wire hc wire →
  live fd → concat fd = work_frame c (Z.of_nat i) e wire →
  ∃ hops' ts body l, answer E hops fd = (hops', result_frame (c_rid c) (c_result_hash c) 0 (last_kind l) (last_bits l) ts body) ∧
    Forall2 served hops hops' ∧ last (e :: es) = Some l ∧ chain_body l (hidden_after (e :: es) hc) body ∧
    blen ts + Z.of_nat i = blen (c_entries c).
Proof using Hc Hla.
  induction es as [|e' es IH]; intros hops i e fd hc wire Hr Hd Hwire Hl Hcat;
    destruct (Forall2_cons_inv_r _ _ _ _ Hr) as (h & rest & Hh & Hrest & ->);
    destruct (tail_at _ _ _ _ Hd) as (Hi & Hnx & Hd'); pose proof (entry_at i e Hi) as (He & _ & Hib);
    destruct (hop_turns h i e fd hc wire Hh Hi Hwire Hl Hcat) as (fd' & st' & tel & Hsv & Hturn);
    cbn [answer]; rewrite Hturn; unfold next_entry; rewrite Hnx; cbn [head_of fmap option_fmap option_map].
  - apply Forall2_nil_inv_r in Hrest as ->. destruct (last_sends e hc tel) as (body & Hb & _ & Hsend). rewrite Hsend by lia.
    exists [with_state h st'], [tel], body, e. split; [done|]. split; [constructor; [exact Hsv|constructor]|]. split; [done|]. split; [done|].
    pose proof (length_drop (c_entries c) i) as Hlen. rewrite Hd in Hlen. cbn [length] in Hlen.
    change (blen [tel]) with 1. clear - Hlen Hib. unfold blen in *. lia.
  - destruct (Forall2_cons_inv_r _ _ _ _ Hrest) as (n & rest' & Hn & Hrest' & ->).
    assert (Hno : wants_logits e = false) by (by apply (logits_last i e e')).
    pose proof (entry_at (S i) e' Hnx) as (He' & _ & Hib').
    destruct (wire_exists (hop_value e hc) (hop_size e hc) (la_fits Hla _ _ _ _ _)) as (wire' & Hwire').
    rewrite (hop_forwards i e e' (blen wire) (hop_value e hc) wire' tel He' Hwire' Hib' Hno).
    rewrite (rd_host _ _ Hn), (rd_port _ _ Hn), Z.eqb_refl, bool_decide_true by done. cbn [andb negb].
    destruct (rd_cut _ _ Hh (work_frame c (Z.of_nat (S i)) e' wire')) as [Hl' Hcat'].
    destruct (IH (n :: rest') (S i) e' _ (hop_value e hc) wire' Hrest Hd' Hwire' Hl' Hcat') as (hops' & ts & body & l & -> & Hs & Hlast & Hbody & Hts).
    destruct (rd_cut _ _ Hh (result_frame (c_rid c) (c_result_hash c) 0 (last_kind l) (last_bits l) ts body)) as [Hl2 Hcat2].
    rewrite <- (app_nil_r (result_frame _ _ _ _ _ ts body)) in Hcat2 at 2.
    cbn [note_send pend_request_id pend_telemetry]. rewrite Z.eqb_refl.
    destruct (result_relayed (hop_wait_usec h) _ _ _ _ _ ts body (with_send tel (hop_send_usec h)) [] _ [] (result_fits ts _ l _ body Hbody ltac:(lia)) Hl2 Hcat2) as (fd2 & -> & _).
    eexists (with_state h st' :: hops'), _, body, l. split; [done|]. split; [constructor; [exact Hsv|exact Hs]|].
    split; [exact Hlast|]. split; [exact Hbody|].
    rewrite blen_app. change (blen [_]) with 1. lia.
Qed.

(** ** The coordinator *)

Context (s : ds4_dist_coordinator_state) (plan : ds4_dist_route_plan) (first : ds4_dist_route_entry) (others : list ds4_dist_route_entry).

(** The call is the one the coordinator makes for the plan. *)
Record call_of : Prop := {
  cl_model : c_model c = model_id s; cl_bits : c_bits c = activation_bits s;
  cl_entries : c_entries c = first :: others; cl_plan : entries plan = first :: others; cl_blob : c_blob c = blob plan; cl_fd : 0 <= re_fd first;
  cl_local : local_start s = 0 ∧ 0 <= local_end s < layers_n }.
Context (Hcl : call_of).

Lemma work_sent hc wire : on_wire hc wire →
  dist_coordinator_send_remote_work s plan (c_tokens c) (blen (c_prefix c)) (c_sid c) (c_rid c) (c_prefix_hash c) (c_result_hash c) (c_reset c) false hc =
    inl (work_frame c 0 first wire).
Proof using Hc Hcl.
  intros (Hh & Hf & Hw & Hwb & _). pose proof (blen_nonneg (c_tokens c)). pose proof (co_work_size c Hc). pose proof (co_hidden c Hc).
  pose proof (blen_nonneg (c_blob c)). destruct Hcl as [Hm Hb He Hp Hbl _ _]. unfold dist_coordinator_send_remote_work. rewrite Hp.
  destruct (entry_at 0 first) as (Hfirst & _ & _); [by rewrite He|].
  destruct (work_sizes hc wire Hh Hwb) as (Hn & _).
  pose proof (send_work 0 first hc wire Hfirst Hh Hw Hwb) as Hsend. unfold work_for, halves in Hsend.
  destruct (dist_u64_to_halves (c_sid c)), (dist_u64_to_halves (c_rid c)), (dist_u64_to_halves (c_prefix_hash c)), (dist_u64_to_halves (c_result_hash c)).
  cbn [fst snd] in Hsend. rewrite <- Hb, floats_width, Hwb, <- Hm, <- Hbl, <- He.
  assert (u32 (blen (c_tokens c) * 4) = blen (c_tokens c) * 4) as -> by (unfold wrap; apply Z.mod_small; nia).
  assert (work_flags_for c first = (if flag (re_flags first) DS4_DIST_ROUTE_F_OUTPUT_LOGITS
    then Z.lor (if c_reset c then Z.lor DS4_DIST_WORK_F_INPUT_HC DS4_DIST_WORK_F_RESET_SESSION else DS4_DIST_WORK_F_INPUT_HC) DS4_DIST_WORK_F_OUTPUT_LOGITS
    else if c_reset c then Z.lor DS4_DIST_WORK_F_INPUT_HC DS4_DIST_WORK_F_RESET_SESSION else DS4_DIST_WORK_F_INPUT_HC)) as <-.
  { unfold work_flags_for, wants_logits. by destruct (c_reset c), (flag (re_flags first) DS4_DIST_ROUTE_F_OUTPUT_LOGITS). }
  by rewrite Hsend.
Qed.

(** The logits a route ends with: of its last worker, or of the coordinator's own head. *)
Definition route_logits (hc : list Z) : list Z :=
  let value := hidden_after (c_entries c) hc in
  head (if match last (c_entries c) with Some l => wants_logits l | None => false end then value else received value).

Lemma result_taken errlen x fd ts l value body r : holds x (c_prefix c ++ c_tokens c) → last (c_entries c) = Some l → value = hidden_after (c_entries c) r → chain_body l value body →
  blen ts <= blen (c_entries c) → live fd → concat fd = result_frame (c_rid c) (c_result_hash c) 0 (last_kind l) (last_bits l) ts body →
  dist_coordinator_take_result E x (blen (c_tokens c)) (c_result_hash c) (blen (c_tokens c) * hidden_f32_values E * 4)
    (dist_recv_result_alloc errlen fd (c_rid c)) = inl (route_logits r).
Proof using Hc Hla Hcl.
  intros Hholds Hlast -> Hb Hts Hl Hcat. pose proof (co_vocab c Hc) as [Hv _]. pose proof (co_hidden c Hc).
  pose proof (blen_nonneg (c_tokens c)). pose proof (blen_nonneg (c_entries c)). pose proof (co_result_size c Hc) as Hrs.
  assert (result_ok (c_rid c) (c_result_hash c) 0 (last_kind l) (last_bits l) ts body) as Hok.
  { destruct (result_fits [] (TelemetryFixed 0 0 0 0 0 0 0 0 0 0) l _ body Hb) as [Ho1 Ho2 Ho3 _].
    - change (blen (@nil ds4_dist_telemetry_fixed)) with 0. destruct Hcl as [_ _ -> _ _ _ _]. rewrite blen_cons. pose proof (blen_nonneg others). lia.
    - constructor; try done. pose proof (body_fits _ _ _ Hb). lia. }
  rewrite <- (app_nil_r (result_frame _ _ _ _ _ ts body)) in Hcat.
  destruct (result_received errlen fd _ _ _ _ ts body [] Hok Hl Hcat) as (fd' & _ & _ & ->). unfold route_logits. rewrite Hlast. cbv zeta.
  unfold chain_body in Hb. unfold last_kind, last_bits. destruct (wants_logits l).
  - change (DS4_DIST_RESULT_LOGITS =? DS4_DIST_RESULT_HIDDEN_STATE) with false. cbn [andb]. unfold dist_coordinator_take_result.
    rewrite Z.eqb_refl. cbn [negb]. rewrite Z.eqb_refl. destruct (la_logits Hla (hidden_after (c_entries c) r)) as [Hlen Hfits].
    assert (blen body = vocab_size E * 4) as -> by (rewrite Hb; unfold f32_bytes; rewrite (blen_concat_map _ 4) by done; lia).
    assert (u32 (vocab_size E * 4) = vocab_size E * 4) as -> by (unfold wrap; apply Z.mod_small; nia).
    rewrite Z.eqb_refl. cbn [andb]. rewrite Hb. unfold f32_bytes. by rewrite words32_put.
  - destruct Hb as (Hh & Hf & Hw & Hwb & Hdec). destruct (work_sizes _ body Hh Hwb) as (Hn & Hle & Hpos).
    change (DS4_DIST_RESULT_HIDDEN_STATE =? DS4_DIST_RESULT_HIDDEN_STATE) with true. rewrite (proj2 (Z.eqb_neq (blen body) 0)) by lia. cbn [negb andb].
    rewrite Hdec. unfold dist_coordinator_take_result. rewrite Z.eqb_refl. cbn [negb].
    change (DS4_DIST_RESULT_HIDDEN_STATE =? DS4_DIST_RESULT_LOGITS) with false. cbn [andb].
    assert (blen (f32_bytes (received (hidden_after (c_entries c) r))) = blen (c_tokens c) * hidden_f32_values E * 4) as ->.
    { unfold f32_bytes. rewrite (blen_concat_map _ 4) by done. rewrite <- Hh. unfold received, blen. rewrite length_map. lia. }
    rewrite !Z.eqb_refl. cbn [andb]. unfold f32_bytes. rewrite words32_put; [apply (la_head Hla x _ _ _ Hholds); [lia|unfold received; unfold blen at 1; rewrite length_map; exact Hh]|].
    unfold received.
    apply Forall_fmap. eapply Forall_impl; [exact Hf|]. intros v Hv'. by apply narrowed_fits.
Qed.

(** The coordinator's session before the span. *)
Definition coordinator_before (x : session) : Prop :=
  if c_reset c then c_prefix c = [] ∧ ∃ x', layer_slice_reset E x = (x', None) ∧ holds x' []
  else holds x (c_prefix c) ∧ ∃ timeline, session_tokens E x = Some timeline ∧ blen (c_prefix c) <= blen timeline ∧ ztake (blen (c_prefix c)) timeline = c_prefix c.

(** The hidden state of the coordinator's own layers. *)
Definition local_hidden : list Z := layers (c_prefix c) (c_tokens c) (local_start s) (local_end s) None.

Lemma span_sent x : coordinator_before x →
  ∃ x', holds x' (c_prefix c ++ c_tokens c) ∧ ∀ errlen exchange wire, on_wire local_hidden wire →
    dist_coordinator_eval_span E errlen exchange s x plan (c_tokens c) (blen (c_prefix c)) (c_sid c) (c_rid c) (c_reset c) =
      (x', dist_coordinator_take_result E x' (blen (c_tokens c)) (c_result_hash c) (blen (c_tokens c) * hidden_f32_values E * 4)
             (dist_recv_result_alloc errlen (exchange (work_frame c 0 first wire)) (c_rid c))).
Proof using Hc Hla Hcl.
  intros Hx. pose proof (co_work_size c Hc) as Hws. pose proof (blen_nonneg (c_blob c)). pose proof (blen_nonneg (c_tokens c)).
  assert (∃ x0, holds x0 (c_prefix c) ∧ (if c_reset c then layer_slice_reset E x else (x, None)) = (x0, None) ∧
    (if c_reset c then if negb (blen (c_prefix c) =? 0) then inr (bs "distributed reset span must start at position 0") else inl DS4_DIST_TOKEN_HASH_INIT
     else match session_tokens E x with
          | Some timeline => if blen timeline <? blen (c_prefix c) then inr (bs "distributed session has no " ++ dec (blen (c_prefix c)) ++ bs "-token prefix")
                             else inl (dist_token_hash_prefix (ztake (blen (c_prefix c)) timeline))
          | None => inr (bs "distributed session has no " ++ dec (blen (c_prefix c)) ++ bs "-token prefix")
          end) = inl (c_prefix_hash c)) as (x0 & Hx0 & Hreset & Hhash).
  { unfold coordinator_before in Hx. destruct (c_reset c).
    - destruct Hx as (HP & x' & Hr & Hh). exists x'. unfold c_prefix_hash. rewrite HP. done.
    - destruct Hx as (Hh & tl & Ht & Hle & Htk). exists x. split; [done|]. split; [done|]. rewrite Ht, (proj2 (Z.ltb_ge _ _)), Htk by lia. done. }
  destruct (la_eval Hla x0 (c_prefix c) (c_tokens c) (local_start s) (local_end s) None true false Hx0) as (x' & Hev & Hx').
  { destruct (co_room c Hc), (cl_local Hcl) as [Hl0 Hl1], (co_tokens c Hc) as [Hne Hvoc]. constructor; [lia|exact Hl0|done|exact Hvoc|].
    split; [|done]. split; [|done]. destruct (c_tokens c) as [|t0 l0]; [done|]. rewrite blen_cons. pose proof (blen_nonneg l0). lia. }
  exists x'. split; [done|]. intros errlen exchange wire Hw. unfold dist_coordinator_eval_span.
  rewrite (proj2 (Z.ltb_ge _ _)) by lia. rewrite Hhash, Hreset. destruct Hcl as [_ _ _ Hp _ Hfd _]. rewrite Hp. cbv zeta. rewrite (proj2 (Z.ltb_ge (re_fd first) 0)) by lia.
  cbn [negb]. rewrite Hev. unfold c_prefix_hash. rewrite hash_span_app. fold (c_prefix_hash c) (c_result_hash c).
  fold local_hidden. by rewrite (work_sent local_hidden wire Hw).
Qed.

(** The span as a whole: the coordinator, the chain of workers and the way back. *)
Lemma span_evaluated errlen cut x hops :
  Forall2 ready hops (c_entries c) → coordinator_before x → (∀ l, live (cut l) ∧ concat (cut l) = l) →
  let exchange frame := cut (snd (answer E hops (cut frame))) in
  ∃ x' frame, holds x' (c_prefix c ++ c_tokens c) ∧ Forall2 served hops (fst (answer E hops (cut frame))) ∧
    (∀ f, dist_coordinator_eval_span E errlen f s x plan (c_tokens c) (blen (c_prefix c)) (c_sid c) (c_rid c) (c_reset c) =
          dist_coordinator_eval_span E errlen (λ _, f frame) s x plan (c_tokens c) (blen (c_prefix c)) (c_sid c) (c_rid c) (c_reset c)) ∧
    dist_coordinator_eval_span E errlen exchange s x plan (c_tokens c) (blen (c_prefix c)) (c_sid c) (c_rid c) (c_reset c) =
      (x', inl (route_logits local_hidden)).
Proof using Hc Hla Hcl.
  intros Hr Hx Hcut exchange. destruct (span_sent x Hx) as (x' & Hx' & Hspan).
  destruct (wire_exists local_hidden (la_size Hla _ _ _ _ _) (la_fits Hla _ _ _ _ _)) as (wire & Hw).
  destruct (Hcut (work_frame c 0 first wire)) as [Hl1 Hc1]. pose proof (cl_entries Hcl) as Hen. rewrite Hen in Hr.
  destruct (chain_answers others hops 0 first _ local_hidden wire Hr ltac:(by rewrite drop_0) Hw Hl1 Hc1) as (hops' & ts & body & l & Ha & Hs & Hlast & Hb & Hts).
  exists x', (work_frame c 0 first wire). rewrite Ha. split; [done|]. split; [exact Hs|].
  split; [intros f; by rewrite !(Hspan errlen _ wire Hw)|]. rewrite (Hspan errlen _ wire Hw). unfold exchange. rewrite Ha. f_equal.
  destruct (Hcut (result_frame (c_rid c) (c_result_hash c) 0 (last_kind l) (last_bits l) ts body)) as [Hl2 Hc2].
  rewrite <- Hen in Hlast, Hb. apply (result_taken errlen x' _ ts l _ body local_hidden Hx' Hlast eq_refl Hb ltac:(lia) Hl2 Hc2).
Qed.
End eval.
