(* ===== verification/DistTheorems.v ===== *)
(** * What distributed evaluation gives (ds4_distributed.c)

    A span that goes through the coordinator's layers and along a route of workers gives
    the logits of the composed slices, and at 32 bits those of one machine. *)

From S2P Require Import Prelude Bytes Text Json Http HttpSpec DistWire DistWireSpec DistFloat.
From S2P Require Import DistRoute DistRouteSpec DistWork DistEval DistEvalSpec.

(** The same coordinator with all the layers. *)
Definition whole (s : ds4_dist_coordinator_state) (layers_n : Z) : ds4_dist_coordinator_state :=
  Coordinator (model_id s) (engine_model_name s) (n_layers s) (local_start s) (layers_n - 1) (ctx_size s)
    (local_has_output s) (local_can_output_head s) (use_control_for_work s) (activation_bits s) (generation s) (workers s) (shutting_down s).

Section compose.
Context {session : Type} (E : engine session) (layers_n : Z) (c : call) (Hc : call_ok E layers_n c).
Context (holds : session → list Z → Prop) (layers : list Z → list Z → Z → Z → option (list Z) → list Z) (head : list Z → list Z).
Context (Hla : layered E layers_n holds layers head) (s : ds4_dist_coordinator_state).

(** The layers behind the first ones, on what these give, are the first layers and those
    behind them. *)
Definition slices_compose : Prop :=
  ∀ P ts b d, 0 <= b < d → d < layers_n → layers P ts (b + 1) d (Some (layers P ts 0 b None)) = layers P ts 0 d None.

Lemma exact_bits hc : c_bits c = 32 → received c hc = hc.
Proof. intros Hb. unfold received. rewrite Hb. apply map_id. Qed.

Lemma hidden_composes es : slices_compose → c_bits c = 32 → ∀ b prev,
  linked layers_n b prev es → (b = true → match es with [] => True | e :: _ => re_layer_start e = prev + 1 end) → 0 <= prev →
  hidden_after c layers es (layers (c_prefix c) (c_tokens c) 0 prev None) =
    layers (c_prefix c) (c_tokens c) 0 (match last es with Some l => re_layer_end l | None => prev end) None.
Proof using Type.
  intros Hcomp Hb. induction es as [|e es IH]; intros b prev Hl Hfirst Hp; [done|]. destruct Hl as (He & Hs & Hl).
  change (hidden_after c layers (e :: es) ?x) with (hidden_after c layers es (hop_value c layers e x)).
  unfold hop_value. rewrite exact_bits by done. destruct He as (_ & _ & He1 & He2 & _).
  assert (re_layer_start e = prev + 1) as Hst by (destruct Hs as [Hs|Hs]; [exact (Hfirst Hs)|exact Hs]). rewrite Hst in *.
  rewrite Hcomp, (IH false (re_layer_end e) Hl) by (done || lia). destruct es as [|e' es]; [done|].
  change (last (e :: e' :: es)) with (last (e' :: es)). destruct (last (e' :: es)) eqn:Elast; [done|]. by apply last_None in Elast.
Qed.

(** One machine with all the layers. *)
Lemma local_evaluated errlen f y : local_start s = 0 → 0 < layers_n → coordinator_before E c holds y → ∃ y',
  dist_coordinator_eval_span E errlen f (whole s layers_n) y empty_plan (c_tokens c) (blen (c_prefix c)) (c_sid c) (c_rid c) (c_reset c) =
    (y', inl (head (layers (c_prefix c) (c_tokens c) (local_start s) (layers_n - 1) None))) ∧ holds y' (c_prefix c ++ c_tokens c).
Proof using Hc Hla.
  intros Hl0 Hln Hy. pose proof (co_work_size E layers_n c Hc). pose proof (blen_nonneg (c_tokens c)). pose proof (blen_nonneg (c_blob c)).
  unfold dist_coordinator_eval_span. rewrite (proj2 (Z.ltb_ge _ _)) by lia. unfold coordinator_before in Hy.
  assert (∀ y0, holds y0 (c_prefix c) → ∃ y', eval_layer_slice E y0 (c_tokens c) (blen (c_prefix c)) (local_start s) (layers_n - 1) None false true =
    (y', inl (head (layers (c_prefix c) (c_tokens c) (local_start s) (layers_n - 1) None))) ∧ holds y' (c_prefix c ++ c_tokens c)) as Hev.
  { intros y0 Hy0. apply (la_eval _ _ _ _ _ Hla y0 (c_prefix c) (c_tokens c) (local_start s) (layers_n - 1) None false true Hy0).
    destruct (co_room E layers_n c Hc), (co_tokens E layers_n c Hc) as [Hne Hvoc]. constructor; [lia|exact Hl0|lia|exact Hvoc|].
    split; [|done]. split; [|done]. destruct (c_tokens c) as [|t0 l0]; [done|]. rewrite blen_cons. pose proof (blen_nonneg l0). lia. }
  destruct (c_reset c).
  - destruct Hy as (HP & y0 & Hr & Hh). rewrite HP in *. change (negb (blen (@nil Z) =? 0)) with false. cbv iota. rewrite Hr.
    destruct (Hev y0 Hh) as (y' & He & Hh'). exists y'. cbn [entries empty_plan]. cbv zeta. cbn [local_start local_end whole negb]. by rewrite He.
  - destruct Hy as (Hh & tl & Ht & Hle & _). rewrite Ht, (proj2 (Z.ltb_ge (blen tl) _)) by lia.
    destruct (Hev y Hh) as (y' & He & Hh'). exists y'. cbn [entries empty_plan]. cbv zeta. cbn [local_start local_end whole negb]. by rewrite He.
Qed.
End compose.

(** a span that the coordinator sends along a route is evaluated by every worker of the
    route, in order, however the network cuts the frames: each worker accepts its work,
    runs its slice on the hidden state it decodes and sends the next work to the worker the
    route names; the results come back through the relays, and the coordinator ends with
    the logits of the composed slices (of the last worker's head, or of its own head on the
    hidden state that came back).  Every worker's session then holds the span, with the
    hash that the next span must name. *)
Theorem distributed_span_evaluated {session : Type} (E : engine session) (layers_n : Z) (c : call)
    (holds : session → list Z → Prop) (layers : list Z → list Z → Z → Z → option (list Z) → list Z) (head : list Z → list Z)
    (s : ds4_dist_coordinator_state) (plan : ds4_dist_route_plan) (first : ds4_dist_route_entry) (others : list ds4_dist_route_entry)
    (errlen : Z) (cut : list Z → net) (x : session) (hops : list hop) :
  call_ok E layers_n c → layered E layers_n holds layers head → call_of layers_n c s plan first others →
  Forall2 (ready E c holds) hops (c_entries c) → coordinator_before E c holds x → (∀ l, live (cut l) ∧ concat (cut l) = l) →
  let exchange frame := cut (snd (answer E hops (cut frame))) in
  ∃ x' frame, holds x' (c_prefix c ++ c_tokens c) ∧ Forall2 (served c holds) hops (fst (answer E hops (cut frame))) ∧
    (∀ f, dist_coordinator_eval_span E errlen f s x plan (c_tokens c) (blen (c_prefix c)) (c_sid c) (c_rid c) (c_reset c) =
          dist_coordinator_eval_span E errlen (λ _, f frame) s x plan (c_tokens c) (blen (c_prefix c)) (c_sid c) (c_rid c) (c_reset c)) ∧
    dist_coordinator_eval_span E errlen exchange s x plan (c_tokens c) (blen (c_prefix c)) (c_sid c) (c_rid c) (c_reset c) =
      (x', inl (route_logits c layers head (local_hidden c layers s))).
Proof. intros Hc Hla Hcl Hr Hx Hcut. by apply (span_evaluated E layers_n c Hc holds layers head Hla s plan first others Hcl). Qed.

(** C27: with activations of 32 bits, a span evaluated over workers that hold the layers
    behind the coordinator's, which begin at layer 0, gives the logits that one machine
    with all the layers gives for the same tokens behind the same prefix, however the
    connections cut the frames.  This holds of an engine that does not fail on a valid
    slice: layers in order and inside the model, a hidden state of the tokens' size (none
    at layer 0), logits only from the last layer, and tokens of the vocabulary that fit the
    prefill cap and the context.  Its slices are functions of the prefix, the tokens and
    the hidden state, and a slice on the hidden state of the layers before it gives what
    evaluating all these layers at once gives.  The plan is a route the workers accept, its
    frames fit 32-bit sizes, each worker is registered with its layers and enough context,
    and sessions hold the prefix (or are created and reset where the span resets them). *)
Theorem distributed_equals_local {session : Type} (E : engine session) (layers_n : Z) (c : call)
    (holds : session → list Z → Prop) (layers : list Z → list Z → Z → Z → option (list Z) → list Z) (head : list Z → list Z)
    (s : ds4_dist_coordinator_state) (plan : ds4_dist_route_plan) (first : ds4_dist_route_entry) (others : list ds4_dist_route_entry)
    (errlen : Z) (cut : list Z → net) (x y : session) (hops : list hop) :
  call_ok E layers_n c → layered E layers_n holds layers head → slices_compose layers_n layers → call_of layers_n c s plan first others → c_bits c = 32 →
  re_layer_start first = local_end s + 1 → re_layer_end <$> last (c_entries c) = Some (layers_n - 1) →
  Forall2 (ready E c holds) hops (c_entries c) → coordinator_before E c holds x → coordinator_before E c holds y →
  (∀ l, live (cut l) ∧ concat (cut l) = l) →
  snd (dist_coordinator_eval_span E errlen (λ frame, cut (snd (answer E hops (cut frame)))) s x plan
         (c_tokens c) (blen (c_prefix c)) (c_sid c) (c_rid c) (c_reset c)) =
  snd (dist_coordinator_eval_span E errlen (λ _, []) (whole s layers_n) y empty_plan
         (c_tokens c) (blen (c_prefix c)) (c_sid c) (c_rid c) (c_reset c)).
Proof.
  intros Hc Hla Hcomp Hcl Hb Hfirst Hend Hr Hx Hy Hcut.
  destruct (span_evaluated E layers_n c Hc holds layers head Hla s plan first others Hcl errlen cut x hops Hr Hx Hcut) as (x' & frame & _ & _ & _ & ->).
  pose proof (cl_local _ _ _ _ _ _ Hcl) as [Hl0 Hl1].
  destruct (local_evaluated E layers_n c Hc holds layers head Hla s errlen (λ _, []) y Hl0 ltac:(lia) Hy) as (y' & -> & _). cbn [snd]. f_equal.
  unfold route_logits, local_hidden. rewrite exact_bits, Hl0 by done. destruct (co_linked E layers_n c Hc) as [Hl _].
  rewrite (hidden_composes layers_n c layers (c_entries c) Hcomp Hb true (local_end s)).
  - destruct (last (c_entries c)) as [l|]; [|done]. injection Hend as ->. by destruct (wants_logits l).
  - destruct (c_entries c) as [|e es] eqn:He; [done|]. destruct Hl as (? & ? & ?). split; [done|]. split; [by left|done].
  - intros _. by rewrite (cl_entries _ _ _ _ _ _ Hcl).
  - lia.
Qed.

(** ** An engine to evaluate with *)

(** A token's value grows with the tokens before it and with the layers. *)
Fixpoint toy_hidden (ts : list Z) (inp : option (list Z)) (base k : Z) : list Z :=
  match ts with
  | [] => []
  | t :: ts => wrap 32 (match inp with None => t + base | Some l => List.hd 0 l end + k) :: toy_hidden ts (tl <$> inp) base k
  end.

Definition toy_layers (P ts : list Z) (l0 l1 : Z) (inp : option (list Z)) : list Z := toy_hidden ts inp (foldr Z.add 0 P) (l1 + 1 - l0).
Definition toy_head (hc : list Z) : list Z := [wrap 32 (foldr Z.add 0 hc); 1; 2].

Definition toy_engine : engine (list Z) :=
  Engine (Some []) (λ _, ([], None)) Some
    (λ x ts _ l0 l1 inp wh wl, (x ++ ts, inl (if wl then toy_head (toy_layers x ts l0 l1 inp) else if wh then toy_layers x ts l0 l1 inp else [])))
    (λ _ hc _, inl (toy_head hc)) 1 8 3 1 4096 4096.

Lemma toy_layered : layered toy_engine 8 eq toy_layers toy_head.
Proof.
  assert (∀ ts inp b k, blen (toy_hidden ts inp b k) = blen ts ∧ Forall (fits 32) (toy_hidden ts inp b k)) as Hh.
  { induction ts as [|t ts IH]; intros inp b k; cbn [toy_hidden]; [by split|]. destruct (IH (tl <$> inp) b k) as [Hl Hf].
    rewrite !blen_cons, Hl. split; [done|]. constructor; [by apply Z.mod_pos_bound|done]. }
  constructor.
  - intros x P ts l0 l1 inp wh wl <- _. by exists (x ++ ts).
  - intros P ts l0 l1 inp. unfold toy_layers. rewrite (proj1 (Hh ts inp _ _)). cbn. lia.
  - intros P ts l0 l1 inp. apply Hh.
  - intros hc. split; [done|]. constructor; [by apply Z.mod_pos_bound|]. by repeat constructor.
  - by intros.
Qed.

Lemma toy_hidden_after ts base k k' inp :
  toy_hidden ts (Some (toy_hidden ts inp base k)) base k' = toy_hidden ts inp base (k + k').
Proof.
  revert inp. induction ts as [|t ts IH]; intros inp; cbn [toy_hidden]; [done|]. cbn [List.hd fmap option_fmap option_map List.tl]. f_equal.
  - unfold wrap. rewrite Zplus_mod_idemp_l. f_equal. lia.
  - apply IH.
Qed.

Lemma toy_composes : slices_compose 8 toy_layers.
Proof. intros P ts b d _ _. unfold toy_layers. rewrite toy_hidden_after. f_equal. lia. Qed.

(** Two workers behind the coordinator of the example, in a session that holds [1; 2]. *)
Definition toy_call (bits : Z) : call := Call 1 77 5 [1; 2] [0; 2] false bits (entries example_plan) (blob example_plan).
Definition toy_coordinator (bits : Z) : ds4_dist_coordinator_state :=
  Coordinator 1 (bs "m") 8 0 1 0 false false true bits 5 (workers example_coordinator) false.
Definition toy_state (first last_ : Z) (out : bool) : ds4_dist_worker_state :=
  WorkerState 1 first last_ out 4096 [WorkerSession 77 (dist_token_hash_prefix [1; 2]) true [1; 2]].
Definition byte_by_byte (l : list Z) : net := map (λ b, [b]) l.
Definition toy_hops : list hop :=
  [Hop (bs "10.0.0.3") 7003 (toy_state 2 4 false) 10 20 30 byte_by_byte; Hop (bs "10.0.0.5") 7005 (toy_state 5 7 true) 11 21 31 byte_by_byte].
Definition toy_first : ds4_dist_route_entry := List.hd (RouteEntry [] 0 0 0 0 0) (entries example_plan).
Definition toy_others : list ds4_dist_route_entry := List.tl (entries example_plan).

Lemma byte_by_byte_live l : live (byte_by_byte l) ∧ concat (byte_by_byte l) = l.
Proof.
  unfold live, byte_by_byte. induction l as [|b l [IH1 IH2]]; [by split; [constructor|]|]. cbn [map concat]. rewrite IH2. split; [|done]. by constructor.
Qed.

Lemma toy_entry_ok h p a b f fd :
  bool_decide (1 <= blen h) && bool_decide (blen h < 1025) && forallb (λ c, (0 <? c) && (c <? 256)) h &&
  (1 <=? p) && (p <=? 65535) && (0 <=? a) && (a <=? b) && (b <? 8) && ((f =? 0) || (f =? 1) && (b + 1 =? 8)) = true →
  entry_ok 8 (RouteEntry h p a b f fd).
Proof.
  rewrite !andb_true_iff, !bool_decide_eq_true, forallb_forall. intros [[[[[[[[Ha Hb] Hall] H1] H2] H3] H4] H5] H6].
  unfold entry_ok. cbn [re_host re_port re_layer_start re_layer_end re_flags]. split; [split; [unfold NI_MAXHOST; lia|]|lia]. apply List.Forall_forall. intros x Hx. apply Hall in Hx. lia.
Qed.

Lemma toy_call_ok bits : bits = 16 ∨ bits = 32 → call_ok toy_engine 8 (toy_call bits).
Proof.
  intros Hb. destruct (route_accepted_by_workers_holds insertion_sort Some example_coordinator example_plan 5 example_context ltac:(vm_compute; reflexivity)) as (Hv & He & Hr).
  set (es := entries example_plan) in *. vm_compute in es.
  constructor; cbn [toy_call c_model c_sid c_rid c_prefix c_tokens c_reset c_bits c_entries c_blob].
  - unfold fits. lia.
  - unfold fits. lia.
  - unfold fits. lia.
  - cbn. lia.
  - cbn. lia.
  - cbn. lia.
  - split; [done|]. cbn. repeat constructor; lia.
  - destruct Hb as [-> | ->]; by split.
  - fold es. split; [|repeat constructor; cbn; lia]. 
    cbn [linked]. split; [by apply toy_entry_ok|]. split; [by left|]. split; [by apply toy_entry_ok|]. split; [by right|done].
  - exact Hv.
  - exact He.
  - exact Hr.
  - vm_compute. congruence.
  - split; vm_compute; congruence.
  - vm_compute. congruence.
  - vm_compute. congruence.
Qed.

Lemma toy_ready bits : Forall2 (ready toy_engine (toy_call bits) eq) toy_hops (c_entries (toy_call bits)).
Proof.
  assert (∀ h e, hop_host h = re_host e → hop_port h = re_port e → hop_cut h = byte_by_byte →
    hop_state h = toy_state (re_layer_start e) (re_layer_end e) (flag (re_flags e) DS4_DIST_ROUTE_F_OUTPUT_LOGITS) →
    ready toy_engine (toy_call bits) eq h e) as Hr.
  { intros h e H1 H2 H3 H4. constructor; [done|done| | |].
    - rewrite H4. constructor; [done|done|done|done|]. split; vm_compute; congruence.
    - rewrite H4. unfold session_before. cbn [toy_call c_reset]. eexists. split; [reflexivity|]. by split.
    - rewrite H3. exact byte_by_byte_live. }
  constructor; [by apply Hr|]. constructor; [by apply Hr|constructor].
Qed.

Lemma toy_before bits : coordinator_before toy_engine (toy_call bits) eq [1; 2].
Proof. unfold coordinator_before. cbn [toy_call c_reset]. split; [done|]. exists [1; 2]. split; [done|]. split; [done|done]. Qed.

Lemma toy_call_of bits : call_of 8 (toy_call bits) (toy_coordinator bits) example_plan toy_first toy_others.
Proof. constructor; try reflexivity; [vm_compute; congruence|]. cbn. lia. Qed.

Example distributed_span_evaluated_witness :
  snd (dist_coordinator_eval_span toy_engine 256 (λ frame, byte_by_byte (snd (answer toy_engine toy_hops (byte_by_byte frame))))
    (toy_coordinator 16) [1; 2] example_plan [0; 2] 2 77 5 false) =
  inl (route_logits (toy_call 16) toy_layers toy_head (local_hidden (toy_call 16) toy_layers (toy_coordinator 16))).
Proof.
  destruct (distributed_span_evaluated toy_engine 8 (toy_call 16) eq toy_layers toy_head (toy_coordinator 16) example_plan toy_first toy_others
    256 byte_by_byte [1; 2] toy_hops (toy_call_ok 16 ltac:(by left)) toy_layered (toy_call_of 16) (toy_ready 16) (toy_before 16) byte_by_byte_live)
    as (x' & frame & _ & _ & _ & H).
  exact (f_equal snd H).
Defined.

Example distributed_equals_local_witness :
  snd (dist_coordinator_eval_span toy_engine 256 (λ frame, byte_by_byte (snd (answer toy_engine toy_hops (byte_by_byte frame))))
    (toy_coordinator 32) [1; 2] example_plan [0; 2] 2 77 5 false) =
  snd (dist_coordinator_eval_span toy_engine 256 (λ _, []) (whole (toy_coordinator 32) 8) [1; 2] empty_plan [0; 2] 2 77 5 false).
Proof.
  exact (distributed_equals_local toy_engine 8 (toy_call 32) eq toy_layers toy_head (toy_coordinator 32) example_plan toy_first toy_others
    256 byte_by_byte [1; 2] [1; 2] toy_hops (toy_call_ok 32 ltac:(by right)) toy_layered toy_composes (toy_call_of 32) eq_refl eq_refl eq_refl
    (toy_ready 32) (toy_before 32) (toy_before 32) byte_by_byte_live).
Defined.
