(* ===== verification/Gguf.v ===== *)
(** * Reading a GGUF model file (ds4.c)

    The file is mapped once; metadata and tensor descriptors are offsets into it.  A
    read outside the mapping is an outcome of its own, so that a theorem can say that
    there is none. *)

From S2P Require Import Prelude Bytes.

(** ** Outcomes *)

(** A result; the message of a cursor with its position; ds4_die; a read outside the
    mapping; a loop whose fuel ran out. *)
Inductive outcome (A : Type) :=
  | Ok (a : A)
  | CursorError (msg : list Z) (pos : Z)
  | Die (msg : list Z)
  | Wild
  | Hang.
Arguments Ok {A} _.
Arguments CursorError {A} _ _.
Arguments Die {A} _.
Arguments Wild {A}.
Arguments Hang {A}.

#[export] Instance outcome_ret : MRet outcome := @Ok.
#[export] Instance outcome_bind : MBind outcome := fun A B f o =>
  match o with
  | Ok a => f a
  | CursorError msg pos => CursorError msg pos
  | Die msg => Die msg
  | Wild => Wild
  | Hang => Hang
  end.

(** ** Data *)

Definition GGUF_VALUE_UINT8 : Z := 0.
Definition GGUF_VALUE_INT8 : Z := 1.
Definition GGUF_VALUE_UINT16 : Z := 2.
Definition GGUF_VALUE_INT16 : Z := 3.
Definition GGUF_VALUE_UINT32 : Z := 4.
Definition GGUF_VALUE_INT32 : Z := 5.
Definition GGUF_VALUE_FLOAT32 : Z := 6.
Definition GGUF_VALUE_BOOL : Z := 7.
Definition GGUF_VALUE_STRING : Z := 8.
Definition GGUF_VALUE_ARRAY : Z := 9.
Definition GGUF_VALUE_UINT64 : Z := 10.
Definition GGUF_VALUE_INT64 : Z := 11.
Definition GGUF_VALUE_FLOAT64 : Z := 12.
Definition DS4_GGUF_MAGIC : Z := 0x46554747.
Definition DS4_MAX_DIMS : Z := 8.

(** A string of the file is its bytes. *)
Record ds4_kv := Kv { key : list Z; type : Z; value_pos : Z }.
Record ds4_tensor := Tensor {
  t_name : list Z; ndim : Z; dim : list Z; t_type : Z; rel_offset : Z; abs_offset : Z; elements : Z; t_bytes : Z }.

Record ds4_model := Model {
  map_ : list Z; size : Z; version : Z; n_kv : Z; n_tensors : Z; alignment : Z; tensor_data_pos : Z; max_tensor_bytes : Z;
  kv : list ds4_kv; tensors : list ds4_tensor }.

Section cursor.
Context (base : list Z) (limit : Z).

(** The bytes at a place of the mapping. *)
Definition peek (pos n : Z) : outcome (list Z) :=
  if (0 <=? pos) && (pos + n <=? blen base) then Ok (ztake n (zdrop pos base)) else Wild.

(** A cursor is its position. *)
Definition cursor_has (pos n : Z) : outcome unit :=
  if (limit <? n) || (limit - n <? pos) then CursorError (bs "truncated GGUF file") pos else Ok tt.

Definition cursor_read (pos n : Z) : outcome (list Z * Z) :=
  cursor_has pos n ;; b ← peek pos n; mret (b, pos + n).

Definition cursor_skip (pos n : Z) : outcome Z := cursor_has pos n ;; mret (pos + n).

Definition cursor_uint (w pos : Z) : outcome (Z * Z) := '(b, pos) ← cursor_read pos w; mret (Le.combine b, pos).
Definition cursor_u32 (pos : Z) : outcome (Z * Z) := cursor_uint 4 pos.
Definition cursor_u64 (pos : Z) : outcome (Z * Z) := cursor_uint 8 pos.

Definition cursor_string (pos : Z) : outcome (list Z * Z) :=
  '(len, pos) ← cursor_u64 pos;
  cursor_has pos len ;;
  s ← peek pos len;
  mret (s, pos + len).

(** ** Values *)

Definition scalar_value_size (type : Z) : Z :=
  if (type =? GGUF_VALUE_UINT8) || (type =? GGUF_VALUE_INT8) || (type =? GGUF_VALUE_BOOL) then 1
  else if (type =? GGUF_VALUE_UINT16) || (type =? GGUF_VALUE_INT16) then 2
  else if (type =? GGUF_VALUE_UINT32) || (type =? GGUF_VALUE_INT32) || (type =? GGUF_VALUE_FLOAT32) then 4
  else if (type =? GGUF_VALUE_UINT64) || (type =? GGUF_VALUE_INT64) || (type =? GGUF_VALUE_FLOAT64) then 8
  else 0.

(** The loop over [n] items. *)
Fixpoint skip_items (fuel : nat) (skip : Z -> outcome Z) (pos n : Z) : outcome Z :=
  if n <=? 0 then Ok pos
  else match fuel with
  | O => Hang
  | S fuel => pos ← skip pos; skip_items fuel skip pos (n - 1)
  end.

(** skip_value; [levels] is what is left of the nesting, 9 at depth 0 *)
Fixpoint skip_value (levels : nat) (type pos : Z) : outcome Z :=
  match levels with
  | O => CursorError (bs "metadata array nesting is too deep") pos
  | S levels =>
      let scalar := scalar_value_size type in
      if negb (scalar =? 0) then cursor_skip pos scalar
      else if type =? GGUF_VALUE_STRING then '(_, pos) ← cursor_string pos; mret pos
      else if type =? GGUF_VALUE_ARRAY then
        '(item_type, pos) ← cursor_u32 pos;
        '(len, pos) ← cursor_u64 pos;
        let item_size := scalar_value_size item_type in
        if negb (item_size =? 0) then
          if UINT64_MAX / item_size <? len then CursorError (bs "metadata array is too large") pos
          else cursor_skip pos (len * item_size)
        else skip_items (S (length base)) (skip_value levels item_type) pos len
      else CursorError (bs "unknown GGUF metadata type") pos
  end.
Definition max_depth : nat := 9.

(** ** Tensor types *)

(** gguf_types: elements and bytes of a block *)
Definition gguf_types : list (Z * (Z * Z)) :=
  [(0, (1, 4)); (1, (1, 2)); (2, (32, 18)); (3, (32, 20)); (6, (32, 22)); (7, (32, 24)); (8, (32, 34)); (9, (32, 40));
   (10, (256, 84)); (11, (256, 110)); (12, (256, 144)); (13, (256, 176)); (14, (256, 210)); (15, (256, 292));
   (16, (256, 66)); (17, (256, 74)); (18, (256, 98)); (19, (256, 50)); (20, (256, 50)); (21, (256, 110)); (22, (256, 82)); (23, (256, 136));
   (24, (1, 1)); (25, (1, 2)); (26, (1, 4)); (27, (1, 8)); (28, (1, 8)); (29, (256, 56)); (30, (1, 2));
   (40, (256, 34)); (41, (256, 68)); (42, (1, 1)); (43, (32, 17)); (44, (1024, 1025)); (142, (128, 34))].

Definition tensor_type (type : Z) : option (Z * Z) := snd <$> List.find (fun p => fst p =? type) gguf_types.

Definition tensor_nbytes (type elements : Z) : option Z :=
  '(block_elems, block_bytes) ← tensor_type type;
  let blocks := elements / block_elems + (if negb (elements mod block_elems =? 0) then 1 else 0) in
  if UINT64_MAX / block_bytes <? blocks then None else Some (blocks * block_bytes).

Definition align_up (value alignment : Z) : Z :=
  let rem := value mod alignment in if rem =? 0 then value else u64 (value + alignment - rem).

(** ** The two tables *)

(** calloc of so many objects of a size; the tables' entries are 32 and 136 bytes *)
Context (calloc : Z -> Z -> bool).

(** The loop of parse_metadata; [align] is the alignment so far. *)
Fixpoint metadata_loop (fuel : nat) (pos n align : Z) : outcome (list ds4_kv * Z * Z) :=
  if n <=? 0 then Ok ([], align, pos)
  else match fuel with
  | O => Hang
  | S fuel =>
      '(k, pos) ← cursor_string pos;
      '(ty, pos) ← cursor_u32 pos;
      let align :=
        if bool_decide (k = bs "general.alignment") && (ty =? GGUF_VALUE_UINT32) then
          match cursor_u32 pos with
          | Ok (a, _) => if negb (a =? 0) then a else align
          | _ => align
          end
        else align in
      next ← skip_value max_depth ty pos;
      '(l, align, last) ← metadata_loop fuel next (n - 1) align;
      mret (Kv k ty pos :: l, align, last)
  end.

Definition parse_metadata (m : ds4_model) (pos : Z) : outcome (ds4_model * Z) :=
  if negb (calloc (n_kv m) 32) then Die (bs "out of memory while allocating metadata table")
  else
    '(l, align, pos) ← metadata_loop (S (length base)) pos (n_kv m) 32;
    mret (Model (map_ m) (size m) (version m) (n_kv m) (n_tensors m) align (tensor_data_pos m) (max_tensor_bytes m) l (tensors m), pos).

(** The dimensions and their product. *)
Fixpoint read_dims (n : nat) (pos elements : Z) : outcome (list Z * Z * Z) :=
  match n with
  | O => Ok ([], elements, pos)
  | S n =>
      '(d, pos) ← cursor_u64 pos;
      if negb (d =? 0) && (UINT64_MAX / d <? elements) then Die (bs "tensor element count overflow")
      else
        '(ds, total, pos) ← read_dims n pos (u64 (elements * d));
        mret (d :: ds, total, pos)
  end.

Definition read_tensor (pos : Z) : outcome (ds4_tensor * Z) :=
  '(name, pos) ← cursor_string pos;
  '(nd, pos) ← cursor_u32 pos;
  if (nd =? 0) || (DS4_MAX_DIMS <? nd) then Die (bs "tensor has an unsupported number of dimensions")
  else
    '(ds, total, pos) ← read_dims (Z.to_nat nd) pos 1;
    '(ty, pos) ← cursor_u32 pos;
    '(rel, pos) ← cursor_u64 pos;
    mret (Tensor name nd ds ty rel 0 total (default 0 (tensor_nbytes ty total)), pos).

Fixpoint tensor_loop (fuel : nat) (pos n : Z) : outcome (list ds4_tensor * Z) :=
  if n <=? 0 then Ok ([], pos)
  else match fuel with
  | O => Hang
  | S fuel =>
      '(t, pos) ← read_tensor pos;
      '(l, pos) ← tensor_loop fuel pos (n - 1);
      mret (t :: l, pos)
  end.

(** The second loop: relative offsets become absolute ones. *)
Definition place_tensor (data_pos : Z) (t : ds4_tensor) : outcome ds4_tensor :=
  if UINT64_MAX - data_pos <? rel_offset t then Die (bs "tensor offset overflow")
  else
    let abs := data_pos + rel_offset t in
    if negb (t_bytes t =? 0) && ((limit <? abs) || (limit - abs <? t_bytes t)) then Die (bs "tensor points outside GGUF file")
    else Ok (Tensor (t_name t) (ndim t) (dim t) (t_type t) (rel_offset t) abs (elements t) (t_bytes t)).

Fixpoint place_loop (data_pos : Z) (l : list ds4_tensor) (max : Z) : outcome (list ds4_tensor * Z) :=
  match l with
  | [] => Ok ([], max)
  | t :: l =>
      t ← place_tensor data_pos t;
      '(l, max) ← place_loop data_pos l (if max <? t_bytes t then t_bytes t else max);
      mret (t :: l, max)
  end.

Definition parse_tensors (m : ds4_model) (pos : Z) : outcome ds4_model :=
  if negb (calloc (n_tensors m) 136) then Die (bs "out of memory while allocating tensor table")
  else
    '(l, pos) ← tensor_loop (S (length base)) pos (n_tensors m);
    let data_pos := align_up pos (alignment m) in
    '(l, max) ← place_loop data_pos l (max_tensor_bytes m);
    mret (Model (map_ m) (size m) (version m) (n_kv m) (n_tensors m) (alignment m) data_pos max (kv m) l).

(** The header and the metadata, as model_open and model_parse_shard read them. *)
Definition parse_header : outcome (ds4_model * Z) :=
  '(magic, pos) ← cursor_u32 0;
  if negb (magic =? DS4_GGUF_MAGIC) then Die (bs "model is not a GGUF file")
  else
    '(v, pos) ← cursor_u32 pos;
    '(nt, pos) ← cursor_u64 pos;
    '(nk, pos) ← cursor_u64 pos;
    if negb (v =? 3) then Die (bs "only GGUF v3 is supported")
    else parse_metadata (Model base limit v nk nt 0 0 0 [] []) pos.

Definition model_parse_shard : outcome ds4_model :=
  '(m, pos) ← parse_header; parse_tensors m pos.
End cursor.
