(* ===== verification/GgufSpec.v ===== *)
(** * What the GGUF reader promises (ds4.c)

    Whatever the bytes, no read leaves the mapping, every loop ends, and the tables hold
    only places inside the file. *)

From S2P Require Import Prelude Bytes Gguf.

(** The outcome is good: [P] of the result, or an error the program reports. *)
Definition good {A} (P : A → Prop) (o : outcome A) : Prop :=
  match o with Ok a => P a | CursorError _ _ | Die _ => True | Wild | Hang => False end.

Lemma good_bind {A B} (P : A → Prop) (Q : B → Prop) (o : outcome A) (f : A → outcome B) :
  good P o → (∀ a, P a → good Q (f a)) → good Q (o ≫= f).
Proof. destruct o; cbn; auto. Qed.

Lemma good_weaken {A} (P Q : A → Prop) (o : outcome A) : good P o → (∀ a, P a → Q a) → good Q o.
Proof. destruct o; cbn; auto. Qed.

Section reader.
Context (base : list Z) (limit : Z).
Context (Hbytes : bytes_ok base) (Hlimit : 0 <= limit <= blen base).

Lemma bytes_ok_slice pos n : bytes_ok (ztake n (zdrop pos base)).
Proof using Hbytes. by apply Forall_take, Forall_drop. Qed.

Lemma has_good pos n : 0 <= pos → good (λ _, n <= limit ∧ pos + n <= limit) (cursor_has limit pos n).
Proof using Hlimit. intros Hp. unfold cursor_has. destruct (Z.ltb_spec limit n); [done|]. destruct (Z.ltb_spec (limit - n) pos); cbn; [done|lia]. Qed.

Lemma peek_inside pos n : 0 <= pos → 0 <= n → pos + n <= limit → peek base pos n = Ok (ztake n (zdrop pos base)).
Proof using Hlimit. intros. unfold peek. rewrite (proj2 (Z.leb_le 0 pos)), (proj2 (Z.leb_le _ (blen base))) by lia. done. Qed.

Lemma blen_slice pos n : 0 <= pos → 0 <= n → pos + n <= limit → blen (ztake n (zdrop pos base)) = n.
Proof using Hlimit. intros. apply blen_ztake. rewrite blen_zdrop; lia. Qed.

Lemma read_good pos n : 0 <= pos → 0 <= n →
  good (λ r, r = (ztake n (zdrop pos base), pos + n) ∧ pos + n <= limit) (cursor_read base limit pos n).
Proof using Hlimit.
  intros Hp Hn. unfold cursor_read. eapply good_bind; [by apply has_good|]. intros [] [_ Hl]. rewrite peek_inside by done. done.
Qed.

Lemma skip_good pos n : 0 <= pos → 0 <= n → good (λ p, p = pos + n ∧ p <= limit) (cursor_skip limit pos n).
Proof using Hlimit. intros Hp Hn. unfold cursor_skip. eapply good_bind; [by apply has_good|]. intros [] [_ Hl]. done. Qed.

Lemma uint_good w pos : 0 <= pos → 0 <= w →
  good (λ r, snd r = pos + w ∧ snd r <= limit ∧ 0 <= fst r < 2 ^ (8 * w)) (cursor_uint base limit w pos).
Proof using Hlimit Hbytes.
  intros Hp Hw. unfold cursor_uint. eapply good_bind; [by apply read_good|]. intros r (-> & Hl). cbn. split; [done|]. split; [done|].
  pose proof (Le.combine_bounds _ (bytes_ok_slice pos w)) as Hc. rewrite blen_slice in Hc by done. exact Hc.
Qed.

Lemma string_good pos : 0 <= pos →
  good (λ r, pos + 8 <= snd r <= limit ∧ fst r = ztake (snd r - (pos + 8)) (zdrop (pos + 8) base)) (cursor_string base limit pos).
Proof using Hlimit Hbytes.
  intros Hp. unfold cursor_string, cursor_u64. eapply good_bind; [apply uint_good; [done|lia]|]. intros [len p] (Hp' & Hl & Hlen). cbn [fst snd] in *. subst p.
  eapply good_bind; [apply has_good; lia|]. intros [] [_ Hl2]. rewrite peek_inside by lia. cbn. split; [lia|]. by replace (pos + 8 + len - (pos + 8)) with len by lia.
Qed.

Lemma scalar_pos t : 0 <= scalar_value_size t.
Proof. unfold scalar_value_size. repeat case_match; lia. Qed.

(** Everything that is skipped takes bytes. *)
Definition advances (pos p : Z) : Prop := pos < p <= limit.

Lemma items_good fuel skip pos n : (∀ q, 0 <= q <= limit → good (advances q) (skip q)) → 0 <= pos <= limit → limit - pos < Z.of_nat fuel →
  good (λ p, pos <= p <= limit) (skip_items fuel skip pos n).
Proof.
  intros Hs. revert pos n. induction fuel as [|fuel IH]; intros pos n Hp Hf; [lia|]. cbn [skip_items]. destruct (n <=? 0); [cbn; lia|].
  eapply good_bind; [apply Hs; lia|]. intros q [Hq1 Hq2]. eapply good_weaken; [apply IH; lia|]. cbn. lia.
Qed.

Lemma value_good levels t pos : 0 <= pos <= limit → good (advances pos) (skip_value base limit levels t pos).
Proof using Hlimit Hbytes.
  revert t pos. induction levels as [|levels IH]; intros t pos Hp; [done|]. cbn [skip_value]. cbv zeta. pose proof (scalar_pos t) as Hsc.
  destruct (Z.eqb_spec (scalar_value_size t) 0) as [Hz|Hz]; cbn [negb].
  - destruct (t =? GGUF_VALUE_STRING).
    { eapply good_bind; [apply string_good; lia|]. intros [s p] [Hb _]. cbn in *. unfold advances. lia. }
    destruct (t =? GGUF_VALUE_ARRAY); [|done].
    eapply good_bind; [apply (uint_good 4); lia|]. intros [it p] (Hp1 & Hl1 & _). cbn [fst snd] in *. subst p.
    eapply good_bind; [apply (uint_good 8); lia|]. intros [len p] (Hp2 & Hl2 & Hlen). cbn [fst snd] in *. subst p.
    pose proof (scalar_pos it) as Hit. destruct (Z.eqb_spec (scalar_value_size it) 0) as [Hi|Hi]; cbn [negb].
    + eapply good_weaken; [apply items_good; [intros q Hq; by apply IH|lia|unfold blen in *; lia]|]. unfold advances. cbn. lia.
    + destruct (_ <? len); [done|]. eapply good_weaken; [apply skip_good; nia|]. unfold advances. cbn. nia.
  - eapply good_weaken; [apply skip_good; lia|]. unfold advances. cbn. lia.
Qed.

(** ** The tables *)

(** A metadata entry: its value lies inside the file. *)
Definition kv_inside (k : ds4_kv) : Prop :=
  0 <= value_pos k ∧ ∃ p, skip_value base limit max_depth (type k) (value_pos k) = Ok p ∧ advances (value_pos k) p.

Lemma metadata_good fuel pos n align : 0 <= pos <= limit → limit - pos < Z.of_nat fuel → 0 < align < 2 ^ 32 →
  good (λ r, let '(l, a, p) := r in Forall kv_inside l ∧ blen l = Z.max 0 n ∧ 0 < a < 2 ^ 32 ∧ pos <= p <= limit) (metadata_loop base limit fuel pos n align).
Proof using Hlimit Hbytes.
  revert pos n align. induction fuel as [|fuel IH]; intros pos n align Hp Hf Ha; [lia|]. cbn [metadata_loop].
  destruct (Z.leb_spec n 0) as [Hn|Hn]; [cbn; split; [constructor|]; split; [by rewrite Z.max_l|lia]|].
  eapply good_bind; [apply string_good; lia|]. intros [k p] [Hb _]. cbn [snd] in Hb.
  eapply good_bind; [apply (uint_good 4); lia|]. intros [ty p2] (Hp2 & Hl2 & _). cbn [fst snd] in *. subst p2. cbv zeta.
  set (align' := if _ && _ then _ else align).
  assert (0 < align' < 2 ^ 32) as Ha'.
  { unfold align'. destruct (_ && _); [|done]. pose proof (uint_good 4 (p + 4) ltac:(lia) ltac:(lia)) as Hu. unfold cursor_u32.
    destruct (cursor_uint base limit 4 (p + 4)) as [[a q]| | | |]; try done. destruct (Z.eqb_spec a 0); cbn [negb]; [done|].
    destruct Hu as (_ & _ & Hu). cbn in Hu. change (2 ^ (8 * 4)) with (2 ^ 32) in Hu. lia. }
  pose proof (value_good max_depth ty (p + 4) ltac:(lia)) as Hv.
  destruct (skip_value base limit max_depth ty (p + 4)) as [q| | | |] eqn:Eq; try done. destruct Hv as [Hv1 Hv2].
  change (Ok q ≫= ?f) with (f q). cbv beta. eapply good_bind; [apply (IH q (n - 1) align'); lia|]. intros [[l a] last] (Hl & Hlen & Hal & Hlast).
  cbn. split; [constructor; [|done]|].
  - split; [cbn; lia|]. exists q. split; [exact Eq|]. unfold advances. cbn. lia.
  - rewrite blen_cons, Hlen. lia.
Qed.

Lemma dims_good n pos total : 0 <= pos <= limit → 0 <= total <= UINT64_MAX →
  good (λ r, let '(ds, t, p) := r in t = total * foldr Z.mul 1 ds ∧ 0 <= t <= UINT64_MAX ∧ blen ds = Z.of_nat n ∧ Forall (fits 64) ds ∧ pos <= p <= limit)
    (read_dims base limit n pos total).
Proof using Hlimit Hbytes.
  revert pos total. induction n as [|n IH]; intros pos total Hp Ht; cbn [read_dims].
  { cbn. split; [lia|]. split; [done|]. split; [done|]. split; [constructor|lia]. }
  eapply good_bind; [apply (uint_good 8); lia|]. intros [d p] (Hp1 & Hl1 & Hd). cbn [fst snd] in *. subst p. change (2 ^ (8 * 8)) with (2 ^ 64) in Hd.
  destruct (negb (d =? 0) && (UINT64_MAX / d <? total)) eqn:Eo; [done|].
  assert (0 <= total * d <= UINT64_MAX) as Hprod.
  { destruct (Z.eqb_spec d 0) as [->|Hd0]; [lia|]. cbn [negb andb] in Eo. apply Z.ltb_ge in Eo.
    assert (total * d <= UINT64_MAX / d * d) by nia. pose proof (Z.mul_div_le UINT64_MAX d ltac:(lia)). nia. }
  assert (u64 (total * d) = total * d) as -> by (unfold wrap; apply Z.mod_small; lia).
  eapply good_bind; [apply (IH (pos + 8) (total * d)); lia|]. intros [[ds t] p] (-> & Ht' & Hlen & Hds & Hp'). cbn.
  split; [lia|]. split; [done|]. rewrite blen_cons, Hlen. split; [lia|]. split; [constructor; [exact Hd|done]|lia].
Qed.

(** What every tensor's entry has, before it is placed. *)
Record tensor_read (t : ds4_tensor) : Prop := {
  tr_ndim : 1 <= ndim t <= DS4_MAX_DIMS ∧ blen (dim t) = ndim t;
  tr_dims : Forall (fits 64) (dim t);
  tr_elements : elements t = foldr Z.mul 1 (dim t) ∧ elements t <= UINT64_MAX;
  tr_bytes : t_bytes t = default 0 (tensor_nbytes (t_type t) (elements t));
  tr_offset : fits 64 (rel_offset t) }.

Lemma tensor_good pos : 0 <= pos <= limit → good (λ r, tensor_read (fst r) ∧ pos < snd r <= limit) (read_tensor base limit pos).
Proof using Hlimit Hbytes.
  intros Hp. unfold read_tensor. eapply good_bind; [apply string_good; lia|]. intros [name p] [Hb _]. cbn [snd] in Hb.
  eapply good_bind; [apply (uint_good 4); lia|]. intros [nd p2] (Hp2 & Hl2 & Hnd). cbn [fst snd] in *. subst p2.
  destruct (Z.eqb_spec nd 0) as [|Hz]; [done|]. destruct (Z.ltb_spec DS4_MAX_DIMS nd); [done|]. cbn [orb].
  eapply good_bind; [apply (dims_good (Z.to_nat nd) (p + 4) 1); lia|]. intros [[ds total] p3] (-> & Ht & Hlen & Hds & Hp3).
  eapply good_bind; [apply (uint_good 4); lia|]. intros [ty p4] (Hp4 & Hl4 & _). cbn [fst snd] in *. subst p4.
  eapply good_bind; [apply (uint_good 8); lia|]. intros [rel p5] (Hp5 & Hl5 & Hrel). cbn [fst snd] in *. subst p5. cbn.
  rewrite Z.mul_1_l in *. split; [|lia]. constructor; cbn; [|done|split; [done|apply Ht]|done|exact Hrel].
  rewrite Hlen, Z2Nat.id by lia. unfold DS4_MAX_DIMS in *. lia.
Qed.

Lemma tensors_good fuel pos n : 0 <= pos <= limit → limit - pos < Z.of_nat fuel →
  good (λ r, Forall tensor_read (fst r) ∧ blen (fst r) = Z.max 0 n ∧ pos <= snd r <= limit) (tensor_loop base limit fuel pos n).
Proof using Hlimit Hbytes.
  revert pos n. induction fuel as [|fuel IH]; intros pos n Hp Hf; [lia|]. cbn [tensor_loop].
  destruct (Z.leb_spec n 0) as [Hn|Hn]; [cbn; split; [constructor|]; split; [by rewrite Z.max_l|lia]|].
  eapply good_bind; [by apply tensor_good|]. intros [t p] [Ht Hp2]. cbn [fst snd] in *.
  eapply good_bind; [apply (IH p (n - 1)); lia|]. intros [l q] (Hl & Hlen & Hq). cbn [fst snd] in *. cbn.
  split; [by constructor|]. rewrite blen_cons, Hlen. lia.
Qed.

(** A tensor without a size: it has no elements, its type is not in the table, or its
    blocks take more than 2^64 - 1 bytes. *)
Definition unsized (t : ds4_tensor) : Prop :=
  elements t = 0 ∨ tensor_type (t_type t) = None ∨
  ∃ n b, tensor_type (t_type t) = Some (n, b) ∧ UINT64_MAX < (elements t + n - 1) / n * b.

Lemma zero_bytes t : tensor_read t → t_bytes t = 0 → unsized t.
Proof.
  intros [_ Hd [He _] Hb _]. rewrite Hb. clear Hb. unfold unsized, tensor_nbytes.
  destruct (tensor_type (t_type t)) as [[n b]|] eqn:E; [|by right; left]. cbn [mbind option_bind].
  assert (0 < n ∧ 0 < b) as [Hn Hpb].
  { unfold tensor_type in E. destruct (List.find _ gguf_types) as [[k p]|] eqn:Ef; [|done]. cbn in E. injection E as ->.
    apply List.find_some in Ef as [Hin _].
    assert (forallb (λ p, (0 <? fst (snd p)) && (0 <? snd (snd p))) gguf_types = true) as Hall by done.
    rewrite List.forallb_forall in Hall. specialize (Hall _ Hin). cbn in Hall. lia. }
  assert (0 <= elements t) as H0.
  { rewrite He. clear He. induction Hd as [|d l [H0 _] _ IH]; cbn; [done|nia]. }
  pose proof (Z.div_mod (elements t) n ltac:(lia)) as Em. pose proof (Z.mod_pos_bound (elements t) n Hn).
  assert (elements t / n + (if negb (elements t mod n =? 0) then 1 else 0) = (elements t + n - 1) / n) as ->.
  { destruct (Z.eqb_spec (elements t mod n) 0); cbn [negb]; [apply Z.div_unique with (n - 1)|apply Z.div_unique with (elements t mod n - 1)]; lia. }
  set (q := (elements t + n - 1) / n). destruct (Z.ltb_spec (UINT64_MAX / b) q) as [Hq|Hq]; cbn [default].
  - intros _. right. right. exists n, b. split; [done|].
    destruct (Z.le_gt_cases (q * b) UINT64_MAX) as [Hle|]; [|lia]. exfalso.
    assert (q <= UINT64_MAX / b) by (apply Z.div_le_lower_bound; lia). lia.
  - intros [Hq0|?]%Z.eq_mul_0; [left|lia]. unfold q in Hq0. apply Z.div_small_iff in Hq0 as [?|?]; lia.
Qed.

(** A tensor of the model: its bytes lie inside the mapping, unless it has no size; then
    its place is not looked at. *)
Definition tensor_inside (data_pos : Z) (t : ds4_tensor) : Prop :=
  tensor_read t ∧ abs_offset t = data_pos + rel_offset t ∧ abs_offset t <= UINT64_MAX ∧
  (t_bytes t ≠ 0 → abs_offset t + t_bytes t <= limit) ∧ (t_bytes t = 0 → unsized t).

Lemma place_good data_pos t : tensor_read t → good (λ t', tensor_inside data_pos t' ∧ t_bytes t' = t_bytes t) (place_tensor limit data_pos t).
Proof.
  intros Ht. unfold place_tensor. destruct (Z.ltb_spec (UINT64_MAX - data_pos) (rel_offset t)) as [|Hr]; [done|]. cbv zeta.
  destruct (negb _ && _) eqn:Eb; [done|]. cbn. split; [|done]. split; [destruct Ht; by constructor|]. cbn. split; [done|]. split; [lia|].
  split; [|by apply (zero_bytes t)]. intros Hnz. rewrite (proj2 (Z.eqb_neq _ 0) Hnz) in Eb. cbn [negb andb] in Eb. lia.
Qed.

Lemma places_good data_pos l max : Forall tensor_read l →
  good (λ r, Forall (tensor_inside data_pos) (fst r) ∧ blen (fst r) = blen l ∧ max <= snd r ∧ Forall (λ t, t_bytes t <= snd r) (fst r))
    (place_loop limit data_pos l max).
Proof.
  intros Hl. revert max. induction Hl as [|t l Ht _ IH]; intros max; cbn [place_loop].
  { cbn. split; [constructor|]. split; [done|]. split; [lia|constructor]. }
  eapply good_bind; [by apply (place_good data_pos)|]. intros t' [Ht' Hb].
  eapply good_bind; [apply IH|]. intros [l' m] (Hl' & Hlen & Hm & Hall). cbn [fst snd] in *. cbn.
  split; [by constructor|]. rewrite !blen_cons, Hlen. split; [done|].
  split; [destruct (Z.ltb_spec max (t_bytes t')); lia|]. constructor; [|done]. destruct (Z.ltb_spec max (t_bytes t')); lia.
Qed.

(** ** The file *)

Context (calloc : Z → Z → bool).

Definition metadata_inside (m : ds4_model) : Prop :=
  size m = limit ∧ map_ m = base ∧ Forall kv_inside (kv m) ∧ blen (kv m) = n_kv m ∧ 0 < alignment m < 2 ^ 32.

Lemma header_good : good (λ r, metadata_inside (fst r) ∧ 0 <= snd r <= limit ∧ 0 <= n_tensors (fst r) ∧ max_tensor_bytes (fst r) = 0) (parse_header base limit calloc).
Proof using Hlimit Hbytes.
  unfold parse_header. eapply good_bind; [apply (uint_good 4); lia|]. intros [magic p1] (Hp1 & Hl1 & _). cbn [fst snd] in *. subst p1.
  destruct (negb _); [done|]. eapply good_bind; [apply (uint_good 4); lia|]. intros [v p2] (Hp2 & Hl2 & _). cbn [fst snd] in *. subst p2.
  eapply good_bind; [apply (uint_good 8); lia|]. intros [nt p3] (Hp3 & Hl3 & Hnt). cbn [fst snd] in *. subst p3.
  eapply good_bind; [apply (uint_good 8); lia|]. intros [nk p4] (Hp4 & Hl4 & Hnk). cbn [fst snd] in *. subst p4.
  destruct (negb (v =? 3)); [done|]. unfold parse_metadata. destruct (negb (calloc _ _)); [done|]. cbn [n_kv].
  eapply good_bind; [apply metadata_good; unfold blen in *; lia|]. intros [[l a] p] (Hl & Hlen & Ha & Hp). cbn.
  split; [|lia]. split; [done|]. split; [done|]. split; [done|]. cbn. rewrite Hlen. lia.
Qed.

Definition model_inside (m : ds4_model) : Prop :=
  metadata_inside m ∧ Forall (tensor_inside (tensor_data_pos m)) (tensors m) ∧ blen (tensors m) = n_tensors m ∧
  Forall (λ t, t_bytes t <= max_tensor_bytes m) (tensors m).

Lemma parse_tensors_good m pos : metadata_inside m → 0 <= pos <= limit → 0 <= n_tensors m →
  good (λ m', model_inside m' ∧ kv m' = kv m ∧ max_tensor_bytes m <= max_tensor_bytes m') (parse_tensors base limit calloc m pos).
Proof using Hlimit Hbytes.
  intros Hm Hp Hnt. unfold parse_tensors. destruct (negb (calloc _ _)); [done|].
  eapply good_bind; [apply tensors_good; unfold blen in *; lia|]. intros [l p] (Hl & Hlen & Hp2). cbn [fst snd] in *. cbv zeta.
  eapply good_bind; [by apply places_good|]. intros [l' mx] (Hl' & Hlen' & Hmx & Hall). cbn [fst snd] in *. cbn.
  split; [|done]. split; [exact Hm|]. cbn. split; [done|]. split; [lia|done].
Qed.

Lemma shard_good : good model_inside (model_parse_shard base limit calloc).
Proof using Hlimit Hbytes.
  unfold model_parse_shard. eapply good_bind; [apply header_good|]. intros [m pos] (Hm & Hp & Hnt & _). cbn [fst snd] in *.
  eapply good_weaken; [by apply parse_tensors_good|]. by intros m' [? _].
Qed.
End reader.
