(* ===== verification/GgufModel.v ===== *)
(** * Typed reads of the metadata, and split model files (ds4.c) *)

From S2P Require Import Prelude Bytes Float64 Gguf.

(** ** Reading a value

    A getter returns [None] where the C function returns false. *)

(** A failed cursor makes the getter fail. *)
Definition quiet {A} (o : outcome A) : outcome (option A) :=
  match o with
  | Ok a => Ok (Some a)
  | CursorError _ _ => Ok None
  | Die msg => Die msg
  | Wild => Wild
  | Hang => Hang
  end.

Definition model_find_kv (m : ds4_model) (k : list Z) : option ds4_kv := List.find (fun e => bool_decide (key e = k)) (kv m).

(** A value of one of the given types, read by [read]. *)
Definition typed_read {A} (m : ds4_model) (k : list Z) (ok : Z -> bool) (read : Z -> Z -> outcome (option A)) : outcome (option A) :=
  match model_find_kv m k with
  | None => Ok None
  | Some e => if ok (type e) then read (type e) (value_pos e) else Ok None
  end.

(** cursor_read of an integer of [w] bytes at a place. *)
Definition uint_at (m : ds4_model) (w pos : Z) : outcome (option Z) :=
  quiet ('(v, _) ← cursor_uint (map_ m) (size m) w pos; mret v).

(** What a getter makes of the integer it read. *)
Definition with_value {A} (f : Z -> option A) (o : outcome (option Z)) : outcome (option A) :=
  match o with
  | Ok (Some v) => Ok (f v)
  | Ok None => Ok None
  | CursorError msg pos => CursorError msg pos
  | Die msg => Die msg
  | Wild => Wild
  | Hang => Hang
  end.

Definition model_get_string (m : ds4_model) (k : list Z) : outcome (option (list Z)) :=
  typed_read m k (fun t => t =? GGUF_VALUE_STRING) (fun _ pos => quiet ('(s, _) ← cursor_string (map_ m) (size m) pos; mret s)).

Definition model_get_u16 (m : ds4_model) (k : list Z) : outcome (option Z) :=
  typed_read m k (fun t => t =? GGUF_VALUE_UINT16) (fun _ => uint_at m 2).

Definition model_get_u32 (m : ds4_model) (k : list Z) : outcome (option Z) :=
  typed_read m k (fun t => t =? GGUF_VALUE_UINT32) (fun _ => uint_at m 4).

Definition model_get_u64 (m : ds4_model) (k : list Z) : outcome (option Z) :=
  typed_read m k (fun t => t =? GGUF_VALUE_UINT64) (fun _ => uint_at m 8).

Definition model_get_u64_compat (m : ds4_model) (k : list Z) : outcome (option Z) :=
  typed_read m k (fun t => (t =? GGUF_VALUE_UINT64) || (t =? GGUF_VALUE_UINT32))
    (fun t => uint_at m (if t =? GGUF_VALUE_UINT64 then 8 else 4)).

Definition model_get_bool (m : ds4_model) (k : list Z) : outcome (option bool) :=
  typed_read m k (fun t => t =? GGUF_VALUE_BOOL) (fun _ pos => with_value (fun v => Some (negb (v =? 0))) (uint_at m 1 pos)).

Definition i64 (z : Z) : Z := (z + 2 ^ 63) mod 2 ^ 64 - 2 ^ 63.

(** An id of type [t]: widths and signs vary, only what fits a non-negative int counts. *)
Definition token_id_of (t v : Z) : option Z :=
  let x := if t =? GGUF_VALUE_INT32 then i32 v else if t =? GGUF_VALUE_INT64 then i64 v else v in
  if (x <? 0) || (INT_MAX <? x) then None else Some x.

Definition model_get_token_id (m : ds4_model) (k : list Z) : outcome (option Z) :=
  typed_read m k
    (fun t => (t =? GGUF_VALUE_UINT32) || (t =? GGUF_VALUE_INT32) || (t =? GGUF_VALUE_UINT64) || (t =? GGUF_VALUE_INT64))
    (fun t pos => with_value (token_id_of t) (uint_at m (if (t =? GGUF_VALUE_UINT32) || (t =? GGUF_VALUE_INT32) then 4 else 8) pos)).

(** The double of a bit pattern, converted to float. *)
Definition float_of_double_bits (b : Z) : spec_float :=
  let s := Z.testbit b 63 in
  let e := Z.land (Z.shiftr b 52) 2047 in
  let m := Z.land b (2 ^ 52 - 1) in
  let signed v := if s then - v else v in
  if e =? 2047 then (if m =? 0 then S754_infinity s else S754_nan)
  else if e =? 0 then binary_normalize 24 128 (signed m) (-1074) s
  else binary_normalize 24 128 (signed (m + 2 ^ 52)) (e - 1075) s.

(** The bit pattern of the float that a number of type [t] becomes. *)
Definition f32_of (t v : Z) : Z :=
  if t =? GGUF_VALUE_FLOAT32 then v
  else if t =? GGUF_VALUE_FLOAT64 then F32.to_bits (float_of_double_bits v)
  else F32.to_bits (F32.of_Z (if t =? GGUF_VALUE_INT32 then i32 v else v)).

Definition model_get_f32_compat (m : ds4_model) (k : list Z) : outcome (option Z) :=
  typed_read m k
    (fun t => (t =? GGUF_VALUE_FLOAT32) || (t =? GGUF_VALUE_FLOAT64) || (t =? GGUF_VALUE_UINT32) || (t =? GGUF_VALUE_INT32))
    (fun t pos => with_value (fun v => Some (f32_of t v)) (uint_at m (if t =? GGUF_VALUE_FLOAT64 then 8 else 4) pos)).

Record ds4_array_ref := ArrayRef { a_type : Z; a_len : Z; data_pos : Z }.

Definition model_get_array (m : ds4_model) (k : list Z) : outcome (option ds4_array_ref) :=
  typed_read m k (fun t => t =? GGUF_VALUE_ARRAY) (fun _ pos =>
    quiet ('(t, pos) ← cursor_u32 (map_ m) (size m) pos;
           '(n, pos) ← cursor_u64 (map_ m) (size m) pos;
           mret (ArrayRef t n pos))).

(** Keys of the dots3note architecture, under its name or the older one; the buffer
    holds 96 bytes. *)
Definition dots3_kv_key (m : ds4_model) (suffix : list Z) : outcome (list Z) :=
  let name := bs "dots3note." ++ suffix in
  if 96 <=? blen name then Die (bs "dots3note metadata key overflow")
  else match model_find_kv m name with
  | Some _ => Ok name
  | None =>
      let name := bs "dots3-note." ++ suffix in
      if 96 <=? blen name then Die (bs "dots3note metadata key overflow") else Ok name
  end.

Definition model_get_dots3_u32 (m : ds4_model) (suffix : list Z) : outcome (option Z) := dots3_kv_key m suffix ≫= model_get_u32 m.
Definition model_get_dots3_u64 (m : ds4_model) (suffix : list Z) : outcome (option Z) := dots3_kv_key m suffix ≫= model_get_u64_compat m.
Definition model_get_dots3_string (m : ds4_model) (suffix : list Z) : outcome (option (list Z)) := dots3_kv_key m suffix ≫= model_get_string m.

(** ** Names of split files *)

Definition digit (c : Z) : bool := (48 <=? c) && (c <=? 57).
Definition blank (c : Z) : bool := (c =? 32) || ((9 <=? c) && (c <=? 13)).

(** strrchr of the dash: the place of the last one *)
Fixpoint last_dash (l : list Z) (i : Z) (found : option Z) : option Z :=
  match l with
  | [] => found
  | c :: l => last_dash l (i + 1) (if c =? 45 then Some i else found)
  end.

Fixpoint skip_blanks (l : list Z) : list Z :=
  match l with c :: l' => if blank c then skip_blanks l' else l | [] => [] end.
(** At most [n] digits. *)
Fixpoint digits_value (n : nat) (l : list Z) (v : Z) : Z * bool :=
  match n, l with
  | S n, c :: l => if digit c then (fst (digits_value n l (10 * v + (c - 48))), true) else (v, false)
  | _, _ => (v, false)
  end.
(** sscanf of the text after the dash with %05u: blanks, then a sign and digits, five
    characters at most *)
Definition scan_u5 (l : list Z) : option Z :=
  match skip_blanks l with
  | c :: r =>
      if (c =? 43) || (c =? 45) then
        let '(v, any) := digits_value 4 r 0 in if any then Some (if c =? 45 then u32 (- v) else v) else None
      else let '(v, any) := digits_value 5 (c :: r) 0 in if any then Some v else None
  | [] => None
  end.

(** %05u of a number of at most five digits *)
Definition five_digits (n : Z) : list Z := map (fun k => 48 + (n / k) mod 10) [10000; 1000; 100; 10; 1].
Definition PATH_MAX : Z := 4096.

Definition model_split_sibling_path (path : list Z) (index count : Z) : option (list Z) :=
  dash ← last_dash path 0 None;
  parsed ← scan_u5 (zdrop (dash + 1) path);
  if negb (parsed =? count) || (dash <? 9) then None
  else if negb (bool_decide (ztake 3 (zdrop (dash - 3) path) = bs "-of")) then None
  else
    let num := dash - 8 in
    if (num <? 1) || negb (znth 0 path (num - 1) =? 45) || negb (forallb digit (ztake 5 (zdrop num path))) then None
    else
      let out := ztake num path ++ five_digits (index + 1) ++ bs "-of-" ++ five_digits count ++ bs ".gguf" in
      if blen out <? PATH_MAX then Some out else None.

(** ** Opening *)

Section open_.
(** The files by name, the page size and calloc. *)
Context (file : list Z -> option (list Z)) (page : Z) (calloc : Z -> Z -> bool).

(** A shard as it is mapped: the rest of its last page reads as zeros. *)
Definition padded (b : list Z) : list Z := b ++ replicate (Z.to_nat (align_up (blen b) page - blen b)) 0.

(** The files of the shards, from number [k] on. *)
Fixpoint shard_files (path : list Z) (k : Z) (n : nat) (count : Z) : outcome (list (list Z)) :=
  match n with
  | O => Ok []
  | S n =>
      match (if k =? 0 then Some path else model_split_sibling_path path k count) with
      | None => Die (bs "does not use the -%05u-of-%05u.gguf naming convention")
      | Some p =>
          match file p with
          | None => Die (bs "cannot open model shard")
          | Some b => if blen b <? 32 then Die (bs "model shard is too small to be GGUF")
                      else l ← shard_files path (k + 1) n count; mret (b :: l)
          end
      end
  end.

Definition biased (bias : Z) (t : ds4_tensor) : ds4_tensor :=
  Tensor (t_name t) (ndim t) (dim t) (t_type t) (rel_offset t) (u64 (abs_offset t + bias)) (elements t) (t_bytes t).

Definition larger (x : Z) (t : ds4_tensor) : Z := if x <? t_bytes t then t_bytes t else x.

(** The tensors of the shards behind the first, and the largest. *)
Fixpoint shard_tensors (region : list Z) (start : Z) (shards : list (list Z)) (max : Z) : outcome (list ds4_tensor * Z) :=
  match shards with
  | [] => Ok ([], max)
  | b :: shards =>
      m ← model_parse_shard (zdrop start region) (blen b) calloc;
      '(l, max) ← shard_tensors region (start + blen (padded b)) shards (foldl larger max (tensors m));
      mret (map (biased start) (tensors m) ++ l, max)
  end.

Definition model_open_split (path : list Z) (count : Z) : outcome ds4_model :=
  if 99999 <? count then Die (bs "split GGUF shard count exceeds filename format")
  else if negb (bool_decide (model_split_sibling_path path 0 count = Some path))
  then Die (bs "open split GGUFs through their first shard")
  else
    shards ← shard_files path 0 (Z.to_nat count) count;
    let region := concat (map padded shards) in
    let total := blen region in
    if SIZE_MAX <? total then Die (bs "split GGUF size overflow")
    else
      '(m, pos) ← parse_header region total calloc;
      m ← parse_tensors region total calloc m pos;
      '(more, max) ← shard_tensors region (blen (padded (List.hd [] shards))) (List.tl shards) (max_tensor_bytes m);
      let all := tensors m ++ more in
      expected ← typed_read m (bs "split.tensors.count") (fun t => (t =? GGUF_VALUE_INT32) || (t =? GGUF_VALUE_UINT32)) (fun _ => uint_at m 4);
      if negb (default 0 expected =? 0) && negb (default 0 expected =? blen all) then Die (bs "split GGUF declares another number of tensors")
      else Ok (Model region total (version m) (n_kv m) (blen all) (alignment m) (tensor_data_pos m) max (kv m) all).

(** model_open, without a directory that the host installed *)
Definition model_open (path : list Z) : outcome ds4_model :=
  match file path with
  | None => Die (bs "cannot open model")
  | Some b =>
      if blen b <? 32 then Die (bs "model file is too small to be GGUF")
      else
        '(m, pos) ← parse_header b (blen b) calloc;
        short ← model_get_u16 m (bs "split.count");
        count ← match short with Some c => Ok (Some c) | None => model_get_u32 m (bs "split.count") end;
        if 1 <? default 0 count then parse_tensors b (blen b) calloc m pos ;; model_open_split path (default 0 count)
        else parse_tensors b (blen b) calloc m pos
  end.
End open_.
