(* ===== verification/GgufText.v ===== *)
(** * Model files as they are written, and what is read back (ds4.c)

    A file with given metadata and tensors, by the format's rules; the reader's tables
    and the typed reads give that metadata and those tensors. *)

From S2P Require Import Prelude Bytes Float64 Gguf GgufModel GgufSpec.

(** ** The format *)

Inductive gvalue :=
  | GScalar (t : Z) (b : list Z)
  | GString (s : list Z)
  | GArray (t : Z) (items : list gvalue).

Definition type_of (v : gvalue) : Z :=
  match v with GScalar t _ => t | GString _ => GGUF_VALUE_STRING | GArray _ _ => GGUF_VALUE_ARRAY end.

Definition str (s : list Z) : list Z := Le.put64 (blen s) ++ s.

Fixpoint encode (v : gvalue) : list Z :=
  match v with
  | GScalar _ b => b
  | GString s => str s
  | GArray t items => Le.put32 t ++ Le.put64 (blen items) ++ concat (map encode items)
  end.

(** A value that the format has, with so many levels of arrays. *)
Fixpoint value_ok (levels : nat) (v : gvalue) : Prop :=
  match levels with
  | O => False
  | S levels =>
      match v with
      | GScalar t b => scalar_value_size t ≠ 0 ∧ blen b = scalar_value_size t
      | GString s => fits 64 (blen s)
      | GArray t items => fits 32 t ∧ fits 64 (blen items) ∧ Forall (λ i, type_of i = t ∧ value_ok levels i) items
      end
  end.

Definition encode_kv (e : list Z * gvalue) : list Z := str (fst e) ++ Le.put32 (type_of (snd e)) ++ encode (snd e).
Definition kv_ok (e : list Z * gvalue) : Prop := fits 64 (blen (fst e)) ∧ fits 32 (type_of (snd e)) ∧ value_ok max_depth (snd e).

Lemma combine_put32 v : fits 32 v → Le.combine (Le.put32 v) = v.
Proof. intros Hv. rewrite Le.put32_split, Le.combine_split. by apply Z.mod_small. Qed.
Lemma combine_put64 v : fits 64 v → Le.combine (Le.put64 v) = v.
Proof. intros Hv. rewrite Le.put64_split, Le.combine_split. by apply Z.mod_small. Qed.

Section text.
Context (base : list Z) (limit : Z).
Context (Hlimit : 0 <= limit <= blen base) (Hmax : limit <= UINT64_MAX).

(** The file has these bytes at this place. *)
Definition has_at (pos : Z) (s : list Z) : Prop := ∃ pre post, base = pre ++ s ++ post ∧ blen pre = pos ∧ pos + blen s <= limit.

Lemma at_app pos a b : has_at pos (a ++ b) → has_at pos a ∧ has_at (pos + blen a) b.
Proof.
  intros (pre & post & E & Hp & Hl). rewrite blen_app in Hl. pose proof (blen_nonneg b). split.
  - exists pre, (b ++ post). rewrite E, <- !app_assoc. split; [done|]. split; [done|lia].
  - exists (pre ++ a), post. rewrite E, <- !app_assoc, blen_app. split; [done|]. split; [lia|lia].
Qed.

Lemma at_pos pos s : has_at pos s → 0 <= pos ∧ pos + blen s <= limit.
Proof. intros (pre & post & _ & <- & Hl). pose proof (blen_nonneg pre). lia. Qed.

Lemma at_slice pos s : has_at pos s → ztake (blen s) (zdrop pos base) = s.
Proof. intros (pre & post & -> & <- & _). by rewrite zdrop_app, ztake_app. Qed.

Lemma at_has pos s n : has_at pos s → n = blen s → cursor_has limit pos n = Ok tt.
Proof.
  intros Hat ->. destruct (at_pos _ _ Hat). pose proof (blen_nonneg s). unfold cursor_has.
  rewrite (proj2 (Z.ltb_ge limit _)), (proj2 (Z.ltb_ge _ pos)) by lia. done.
Qed.

Lemma at_peek pos s n : has_at pos s → n = blen s → peek base pos n = Ok s.
Proof using Hlimit.
  intros Hat ->. destruct (at_pos _ _ Hat). pose proof (blen_nonneg s).
  rewrite (peek_inside base limit Hlimit) by lia. by rewrite at_slice.
Qed.

Lemma at_uint w pos s : has_at pos s → w = blen s → cursor_uint base limit w pos = Ok (Le.combine s, pos + w).
Proof using Hlimit.
  intros Hat Hw. unfold cursor_uint, cursor_read. rewrite (at_has pos s) by done. cbn [mbind outcome_bind]. by rewrite (at_peek pos s).
Qed.
Lemma at_u32 pos v r : fits 32 v → has_at pos (Le.put32 v ++ r) → cursor_u32 base limit pos = Ok (v, pos + 4) ∧ has_at (pos + 4) r.
Proof using Hlimit.
  intros Hv Hat. destruct (at_app _ _ _ Hat) as [Ha Hb]. split; [|exact Hb]. unfold cursor_u32. rewrite (at_uint 4 _ _ Ha) by done. by rewrite combine_put32.
Qed.
Lemma at_u64 pos v r : fits 64 v → has_at pos (Le.put64 v ++ r) → cursor_u64 base limit pos = Ok (v, pos + 8) ∧ has_at (pos + 8) r.
Proof using Hlimit.
  intros Hv Hat. destruct (at_app _ _ _ Hat) as [Ha Hb]. split; [|exact Hb]. unfold cursor_u64. rewrite (at_uint 8 _ _ Ha) by done. by rewrite combine_put64.
Qed.

Lemma at_string pos s r : fits 64 (blen s) → has_at pos (str s ++ r) →
  cursor_string base limit pos = Ok (s, pos + blen (str s)) ∧ has_at (pos + blen (str s)) r.
Proof using Hlimit.
  intros Hs Hat. destruct (at_app _ _ _ Hat) as [Ha Hb]. split; [|exact Hb]. unfold str in *.
  destruct (at_u64 pos (blen s) s Hs Ha) as [E Hat2]. unfold cursor_string. rewrite E. cbn [mbind outcome_bind].
  rewrite (at_has _ s) by done. cbn [mbind outcome_bind]. rewrite (at_peek _ s) by done. cbn [mbind outcome_bind]. rewrite blen_app.
  change (blen (Le.put64 (blen s))) with 8. unfold mret, outcome_ret. do 2 f_equal. lia.
Qed.

(** ** Values are skipped whole *)

Lemma encode_pos levels v : value_ok levels v → 0 < blen (encode v).
Proof.
  destruct levels; [done|]. destruct v as [t b|s|t items]; cbn [value_ok encode].
  - intros [Hz ->]. pose proof (scalar_pos t). lia.
  - intros _. unfold str. rewrite blen_app. change (blen (Le.put64 _)) with 8. pose proof (blen_nonneg s). lia.
  - intros _. rewrite !blen_app. change (blen (Le.put32 t)) with 4. pose proof (blen_nonneg (Le.put64 (blen items))).
    pose proof (blen_nonneg (concat (map encode items))). lia.
Qed.

Lemma items_skipped levels skip items : ∀ fuel pos r,
  (∀ i p, In i items → has_at p (encode i) → skip p = Ok (p + blen (encode i))) → Forall (value_ok levels) items →
  has_at pos (concat (map encode items) ++ r) → (length items <= fuel)%nat →
  skip_items fuel skip pos (blen items) = Ok (pos + blen (concat (map encode items))).
Proof.
  induction items as [|i items IH]; intros fuel pos r Hs Hok Hat Hf.
  { destruct fuel; cbn; by rewrite Z.add_0_r. }
  destruct fuel as [|fuel]; [simpl in Hf; lia|]. cbn [skip_items map concat]. rewrite blen_cons. pose proof (blen_nonneg items).
  rewrite (proj2 (Z.leb_gt _ 0)) by lia. cbn [map concat] in Hat. rewrite <- app_assoc in Hat. destruct (at_app _ _ _ Hat) as [Ha Hb].
  rewrite (Hs i pos) by (by left || done). cbn [mbind outcome_bind]. replace (1 + blen items - 1) with (blen items) by lia.
  apply Forall_cons in Hok as [_ Hok]. rewrite (IH fuel _ r); [f_equal; rewrite blen_app; lia| |done|done|simpl in Hf; lia].
  intros j p Hj. apply Hs. by right.
Qed.

Lemma scalar_items t items : scalar_value_size t ≠ 0 → ∀ levels, Forall (λ i, type_of i = t ∧ value_ok levels i) items →
  blen (concat (map encode items)) = blen items * scalar_value_size t.
Proof.
  intros Ht levels. induction 1 as [|i items [Hi Hok] _ IH]; [done|]. cbn [map concat]. rewrite blen_app, blen_cons, IH.
  destruct levels; [done|]. destruct i as [t' b|s|t' l]; cbn in Hi; subst t.
  - destruct Hok as [_ Hb]. cbn [encode]. lia.
  - by destruct Ht.
  - by destruct Ht.
Qed.

Lemma value_skipped levels : ∀ v pos r, value_ok levels v → has_at pos (encode v ++ r) →
  skip_value base limit levels (type_of v) pos = Ok (pos + blen (encode v)).
Proof using Hlimit Hmax.
  induction levels as [|levels IH]; intros v pos r Hok Hat; [done|]. cbn [skip_value]. cbv zeta.
  destruct v as [t b|s|t items]; cbn [type_of encode] in *.
  - destruct Hok as [Hz Hb]. rewrite (proj2 (Z.eqb_neq _ 0) Hz). cbn [negb]. unfold cursor_skip.
    destruct (at_app _ _ _ Hat) as [Ha _]. rewrite (at_has pos b) by done. cbn. by rewrite Hb.
  - change (scalar_value_size GGUF_VALUE_STRING) with 0. cbn [Z.eqb negb]. change (GGUF_VALUE_STRING =? GGUF_VALUE_STRING) with true.
    destruct (at_string pos s r Hok Hat) as [-> _]. done.
  - change (scalar_value_size GGUF_VALUE_ARRAY) with 0. cbn [Z.eqb negb].
    change (GGUF_VALUE_ARRAY =? GGUF_VALUE_STRING) with false. change (GGUF_VALUE_ARRAY =? GGUF_VALUE_ARRAY) with true. cbv iota.
    destruct Hok as (Ht & Hn & Hitems). rewrite <- !app_assoc in Hat.
    destruct (at_u32 pos t _ Ht Hat) as [-> Hat2]. cbn [mbind outcome_bind].
    destruct (at_u64 _ (blen items) _ Hn Hat2) as [-> Hat3]. cbn [mbind outcome_bind]. rewrite !blen_app.
    change (blen (Le.put32 t)) with 4. change (blen (Le.put64 (blen items))) with 8.
    destruct (at_app _ _ _ Hat3) as [Ha3 _]. destruct (at_pos _ _ Ha3) as [Hp3 Hl3]. pose proof (blen_nonneg items).
    destruct (Z.eqb_spec (scalar_value_size t) 0) as [Hz|Hz]; cbn [negb].
    + rewrite (items_skipped levels (skip_value base limit levels t) items _ _ r); [f_equal; lia| | |done|].
      * intros i p Hi Hp. rewrite List.Forall_forall in Hitems. destruct (Hitems i Hi) as [<- Hok]. apply (IH i p []); [done|]. by rewrite app_nil_r.
      * eapply Forall_impl; [exact Hitems|]. by intros i [_ ?].
      * assert (blen items <= blen (concat (map encode items))) as Hle.
        { clear - Hitems. induction Hitems as [|i l [_ Hok] _ IHl]; [done|]. cbn [map concat]. rewrite blen_cons, blen_app.
          pose proof (encode_pos _ _ Hok). lia. }
        unfold blen in *. lia.
    + pose proof (scalar_items t items Hz levels Hitems) as Hlen. pose proof (scalar_pos t).
      assert ((UINT64_MAX / scalar_value_size t <? blen items) = false) as ->.
      { apply Z.ltb_ge, Z.div_le_lower_bound; [lia|]. lia. }
      unfold cursor_skip. rewrite (at_has _ _ _ Ha3) by lia. cbn. f_equal. lia.
Qed.

(** ** Metadata *)

Fixpoint place_kvs (pos : Z) (kvs : list (list Z * gvalue)) : list ds4_kv :=
  match kvs with
  | [] => []
  | (k, v) :: kvs => Kv k (type_of v) (pos + blen (str k) + 4) :: place_kvs (pos + blen (encode_kv (k, v))) kvs
  end.

(** The last alignment that is not zero. *)
Definition alignment_after (align : Z) (e : list Z * gvalue) : Z :=
  match e with
  | (k, GScalar t b) => if bool_decide (k = bs "general.alignment") && (t =? GGUF_VALUE_UINT32) && negb (Le.combine b =? 0) then Le.combine b else align
  | _ => align
  end.

Definition encode_kvs (kvs : list (list Z * gvalue)) : list Z := concat (map encode_kv kvs).

Lemma encode_kv_pos e : 12 <= blen (encode_kv e).
Proof.
  unfold encode_kv, str. rewrite !blen_app. change (blen (Le.put64 _)) with 8. change (blen (Le.put32 _)) with 4.
  pose proof (blen_nonneg (fst e)). pose proof (blen_nonneg (encode (snd e))). lia.
Qed.

Lemma encode_kvs_len kvs : Z.of_nat (length kvs) <= blen (encode_kvs kvs).
Proof.
  unfold encode_kvs. induction kvs as [|e kvs IH]; [done|]. cbn [map concat length]. rewrite blen_app. pose proof (encode_kv_pos e). lia.
Qed.

Lemma metadata_read kvs : ∀ fuel pos align r, Forall kv_ok kvs → has_at pos (encode_kvs kvs ++ r) → (length kvs <= fuel)%nat →
  metadata_loop base limit fuel pos (blen kvs) align = Ok (place_kvs pos kvs, foldl alignment_after align kvs, pos + blen (encode_kvs kvs)).
Proof using Hlimit Hmax.
  induction kvs as [|[k v] kvs IH]; intros fuel pos align r Hok Hat Hf.
  { destruct fuel; cbn; by rewrite Z.add_0_r. }
  destruct fuel as [|fuel]; [simpl in Hf; lia|]. cbn [metadata_loop]. rewrite blen_cons. pose proof (blen_nonneg kvs).
  rewrite (proj2 (Z.leb_gt _ 0)) by lia. replace (1 + blen kvs - 1) with (blen kvs) by lia.
  apply Forall_cons in Hok as [(Hk & Ht & Hv) Hok]. cbn [fst snd] in *.
  unfold encode_kvs in Hat. cbn [map concat] in Hat. rewrite <- app_assoc in Hat. destruct (at_app _ _ _ Hat) as [Hkv Hrest].
  unfold encode_kv in Hat. cbn [fst snd] in Hat. rewrite <- !app_assoc in Hat.
  destruct (at_string pos k _ Hk Hat) as [-> Hat2]. cbn [mbind outcome_bind].
  destruct (at_u32 _ _ _ Ht Hat2) as [-> Hat3]. cbn [mbind outcome_bind]. cbv zeta.
  rewrite (value_skipped max_depth v _ _ Hv Hat3). cbn [mbind outcome_bind].
  assert (pos + blen (str k) + 4 + blen (encode v) = pos + blen (encode_kv (k, v))) as ->.
  { unfold encode_kv. cbn [fst snd]. rewrite !blen_app. change (blen (Le.put32 _)) with 4. lia. }
  match goal with |- context [metadata_loop _ _ fuel _ _ ?a] => set (align' := a) end.
  assert (align' = alignment_after align (k, v)) as ->.
  { unfold align', alignment_after. destruct (bool_decide (k = bs "general.alignment")); [|by destruct v]. cbn [andb].
    destruct (Z.eqb_spec (type_of v) GGUF_VALUE_UINT32) as [Et|Et]; [|destruct v as [t b| |]; try done; cbn in Et; by rewrite (proj2 (Z.eqb_neq _ _) Et)].
    destruct v as [t b|s|t items]; cbn in Et; [|done|done]. subst t. destruct Hv as [_ Hb]. cbn [encode] in Hat3.
    destruct (at_app _ _ _ Hat3) as [Hb3 _]. unfold cursor_u32. rewrite (at_uint 4 _ b Hb3) by (by rewrite Hb).
    change (GGUF_VALUE_UINT32 =? GGUF_VALUE_UINT32) with true. cbn [andb]. done. }
  rewrite (IH fuel _ _ r Hok); [|exact Hrest|simpl in Hf; lia]. cbn [mbind outcome_bind]. unfold mret, outcome_ret. cbn [place_kvs foldl].
  unfold encode_kvs. cbn [map concat]. rewrite blen_app. by rewrite Z.add_assoc.
Qed.

(** The value under a key: the first one. *)
Fixpoint first_value (k : list Z) (kvs : list (list Z * gvalue)) : option gvalue :=
  match kvs with
  | [] => None
  | (k', v) :: kvs => if bool_decide (k' = k) then Some v else first_value k kvs
  end.

Lemma found_kv k kvs : ∀ pos r, Forall kv_ok kvs → has_at pos (encode_kvs kvs ++ r) →
  match first_value k kvs with
  | None => List.find (fun e => bool_decide (key e = k)) (place_kvs pos kvs) = None
  | Some v => ∃ e r', List.find (fun e => bool_decide (key e = k)) (place_kvs pos kvs) = Some e ∧ type e = type_of v ∧
      has_at (value_pos e) (encode v ++ r') ∧ value_ok max_depth v
  end.
Proof.
  induction kvs as [|[k' v] kvs IH]; intros pos r Hok Hat; [done|]. cbn [first_value place_kvs List.find key].
  unfold encode_kvs in Hat. cbn [map concat] in Hat. rewrite <- app_assoc in Hat. apply Forall_cons in Hok as [(_ & _ & Hv) Hok].
  destruct (bool_decide (k' = k)).
  - eexists _, _. split; [done|]. split; [done|]. cbn [value_pos]. unfold encode_kv in Hat. cbn [fst snd] in Hat. rewrite <- !app_assoc in Hat.
    destruct (at_app _ _ _ Hat) as [_ Hat2]. destruct (at_app _ _ _ Hat2) as [_ Hat3]. split; [exact Hat3|done].
  - destruct (at_app _ _ _ Hat) as [_ Hat2]. by apply (IH _ r).
Qed.
End text.
