(* ===== verification/GgufTheorems.v ===== *)
(** * Model files: the theorems (ds4.c)

    A file that is written by the format's rules gives its metadata, its tensors and
    their bytes back. *)

From S2P Require Import Prelude Bytes Float64 Gguf GgufModel GgufSpec GgufText.

(** ** Typed reads *)

Definition as_string (v : gvalue) : option (list Z) := match v with GString s => Some s | _ => None end.
(** A scalar of one of the types, as [f] makes it. *)
Definition as_scalar {A} (ok : Z → bool) (f : Z → Z → option A) (v : gvalue) : option A :=
  match v with GScalar t b => if ok t then f t (Le.combine b) else None | _ => None end.
Definition as_uint (t : Z) : gvalue → option Z := as_scalar (λ t', t' =? t) (λ _ v, Some v).

(** What the getters give for a model with this metadata. *)
Record reads_metadata (m : ds4_model) (kvs : list (list Z * gvalue)) : Prop := {
  rm_string k : model_get_string m k = Ok (first_value k kvs ≫= as_string);
  rm_u16 k : model_get_u16 m k = Ok (first_value k kvs ≫= as_uint GGUF_VALUE_UINT16);
  rm_u32 k : model_get_u32 m k = Ok (first_value k kvs ≫= as_uint GGUF_VALUE_UINT32);
  rm_u64 k : model_get_u64 m k = Ok (first_value k kvs ≫= as_uint GGUF_VALUE_UINT64);
  rm_u64_compat k : model_get_u64_compat m k = Ok (first_value k kvs ≫=
    as_scalar (λ t, (t =? GGUF_VALUE_UINT64) || (t =? GGUF_VALUE_UINT32)) (λ _ v, Some v));
  rm_bool k : model_get_bool m k = Ok (first_value k kvs ≫= as_scalar (λ t, t =? GGUF_VALUE_BOOL) (λ _ v, Some (negb (v =? 0))));
  rm_token_id k : model_get_token_id m k = Ok (first_value k kvs ≫= as_scalar
    (λ t, (t =? GGUF_VALUE_UINT32) || (t =? GGUF_VALUE_INT32) || (t =? GGUF_VALUE_UINT64) || (t =? GGUF_VALUE_INT64)) token_id_of);
  rm_f32 k : model_get_f32_compat m k = Ok (first_value k kvs ≫= as_scalar
    (λ t, (t =? GGUF_VALUE_FLOAT32) || (t =? GGUF_VALUE_FLOAT64) || (t =? GGUF_VALUE_UINT32) || (t =? GGUF_VALUE_INT32)) (λ t v, Some (f32_of t v)));
  rm_array k : match first_value k kvs with
    | Some (GArray t items) => ∃ p r, model_get_array m k = Ok (Some (ArrayRef t (blen items) p)) ∧
        has_at (map_ m) (size m) p (concat (map encode items) ++ r) ∧ Forall (λ i, type_of i = t ∧ value_ok 8 i) items
    | _ => model_get_array m k = Ok None
    end }.

Section reads.
Context (m : ds4_model) (kvs : list (list Z * gvalue)) (pos : Z) (rest : list Z).
Context (Hlimit : 0 <= size m <= blen (map_ m)).
Context (Hok : Forall kv_ok kvs) (Hat : has_at (map_ m) (size m) pos (encode_kvs kvs ++ rest)).
Context (Hkv : kv m = place_kvs pos kvs).

(** A getter that looks at the value of the type it wants. *)
Lemma typed_read_value {A} k (ok : Z → bool) (read : Z → Z → outcome (option A)) (f : gvalue → option A) :
  (∀ v p r, value_ok max_depth v → has_at (map_ m) (size m) p (encode v ++ r) →
     (if ok (type_of v) then read (type_of v) p else Ok None) = Ok (f v)) →
  typed_read m k ok read = Ok (first_value k kvs ≫= f).
Proof using Hok Hat Hkv.
  intros Hf. unfold typed_read, model_find_kv. rewrite Hkv. pose proof (found_kv (map_ m) (size m) k kvs pos rest Hok Hat) as Hk.
  destruct (first_value k kvs) as [v|]; [|by rewrite Hk]. destruct Hk as (e & r & -> & -> & Hp & Hv). by apply (Hf v _ r).
Qed.

Lemma scalar_read_value {A} k (ok : Z → bool) (w : Z → Z) (f : Z → Z → option A) :
  (∀ t, ok t = true → scalar_value_size t = w t ∧ w t ≠ 0) →
  typed_read m k ok (λ t p, with_value (f t) (uint_at m (w t) p)) = Ok (first_value k kvs ≫= as_scalar ok f).
Proof using Hlimit Hok Hat Hkv.
  intros Hw. apply typed_read_value. intros v p r Hv Hp. destruct (ok (type_of v)) eqn:E.
  - destruct (Hw _ E) as [Hsz Hnz]. destruct v as [t b|s|t l]; cbn [type_of] in *.
    + destruct Hv as [_ Hb]. destruct (at_app _ _ _ _ _ Hp) as [Hp' _]. cbn [encode] in Hp'. unfold uint_at.
      rewrite (at_uint _ _ Hlimit _ _ b Hp') by congruence. cbn. by rewrite E.
    + by rewrite <- Hsz in Hnz.
    + by rewrite <- Hsz in Hnz.
  - destruct v as [t b|s|t l]; cbn [type_of as_scalar] in *; [by rewrite E|done|done].
Qed.

Lemma uint_read_value k (ok : Z → bool) (w : Z → Z) :
  (∀ t, ok t = true → scalar_value_size t = w t ∧ w t ≠ 0) →
  typed_read m k ok (λ t p, uint_at m (w t) p) = Ok (first_value k kvs ≫= as_scalar ok (λ _ v, Some v)).
Proof using Hlimit Hok Hat Hkv.
  intros Hw. rewrite <- (scalar_read_value k ok w (λ _ v, Some v) Hw). unfold typed_read.
  destruct (model_find_kv m k) as [e|]; [|done]. destruct (ok (type e)); [|done]. unfold uint_at, quiet. by case_match.
Qed.

Ltac types := intros t Ht; repeat (apply orb_true_iff in Ht as [Ht|Ht]); apply Z.eqb_eq in Ht as ->; by split.

Lemma metadata_reads : reads_metadata m kvs.
Proof using Hlimit Hok Hat Hkv.
  split; intros k.
  - apply typed_read_value. intros v p r Hv Hp. destruct v as [t b|s|t l]; cbn [type_of as_string].
    + destruct (Z.eqb_spec t GGUF_VALUE_STRING) as [->|]; [|done]. by destruct Hv.
    + destruct (at_string _ _ Hlimit p s r Hv Hp) as [E _]. rewrite E. done.
    + done.
  - apply (uint_read_value k _ (λ _, 2)). types.
  - apply (uint_read_value k _ (λ _, 4)). types.
  - apply (uint_read_value k _ (λ _, 8)). types.
  - apply (uint_read_value k _ (λ t, if t =? GGUF_VALUE_UINT64 then 8 else 4)). types.
  - apply (scalar_read_value k _ (λ _, 1) (λ _ v, Some (negb (v =? 0)))). types.
  - apply (scalar_read_value k _ (λ t, if (t =? GGUF_VALUE_UINT32) || (t =? GGUF_VALUE_INT32) then 4 else 8) token_id_of). types.
  - apply (scalar_read_value k _ (λ t, if t =? GGUF_VALUE_FLOAT64 then 8 else 4) (λ t v, Some (f32_of t v))). types.
  - unfold model_get_array, typed_read, model_find_kv. rewrite Hkv. pose proof (found_kv (map_ m) (size m) k kvs pos rest Hok Hat) as Hk.
    destruct (first_value k kvs) as [v|]; [|by rewrite Hk]. destruct Hk as (e & r & -> & -> & Hp & Hv).
    destruct v as [t b|s|t l]; cbn [type_of].
    + destruct (Z.eqb_spec t GGUF_VALUE_ARRAY) as [->|]; [|done]. by destruct Hv.
    + done.
    + destruct Hv as (Ht & Hn & Hl). cbn [encode] in Hp. rewrite <- !app_assoc in Hp.
      destruct (at_u32 _ _ Hlimit _ t _ Ht Hp) as [E1 Hp1]. destruct (at_u64 _ _ Hlimit _ (blen l) _ Hn Hp1) as [E2 Hp2].
      exists (value_pos e + 4 + 8), r. rewrite Z.eqb_refl, E1. cbn [mbind outcome_bind]. rewrite E2. split; [done|]. split; [exact Hp2|exact Hl].
Qed.
End reads.

(** ** Tensors *)

Record gtensor := GTensor { g_name : list Z; g_dims : list Z; g_type : Z; g_offset : Z }.

Definition g_elements (t : gtensor) : Z := foldr Z.mul 1 (g_dims t).

(** The blocks of the format: the elements of one and its bytes, as the parts of the
    block structures add up (the static assertions of src/cuda/mmq/ggml-common.h, and
    src/gguf-tools/quants.c for the plain types; 40 to 44 and 142 are this engine's own,
    src/cuda/mmq/ds4_repack.cu). *)
Definition half : Z := 2.
Definition block_layout : list (Z * (Z * Z)) :=
  [(0, (1, 4)); (1, (1, half)); (24, (1, 1)); (25, (1, 2)); (26, (1, 4)); (27, (1, 8)); (28, (1, 8)); (30, (1, 2));
   (2, (32, half + 32 / 2)); (3, (32, 2 * half + 32 / 2)); (6, (32, half + 4 + 32 / 2)); (7, (32, 2 * half + 4 + 32 / 2));
   (8, (32, half + 32)); (9, (32, 2 * half + 32));
   (10, (256, 2 * half + 256 / 16 + 256 / 4)); (11, (256, half + 256 / 4 + 256 / 8 + 12));
   (12, (256, 2 * half + 12 + 256 / 2)); (13, (256, 2 * half + 12 + 256 / 2 + 256 / 8));
   (14, (256, half + 256 / 16 + 3 * 256 / 4)); (15, (256, 4 + 256 + 256 / 16 * 2));
   (16, (256, half + 256 / 8 * 2)); (17, (256, half + 256 / 8 * 2 + 256 / 32)); (22, (256, half + 256 / 4 + 256 / 16));
   (18, (256, half + 3 * (256 / 8))); (21, (256, half + 13 * (256 / 32) + 256 / 64));
   (19, (256, half + 256 / 8 + 256 / 16)); (29, (256, 256 / 8 + 256 / 16 + 256 / 32));
   (20, (32, half + 32 / 2)); (23, (256, half + 2 + 256 / 64 + 256 / 2));
   (40, (256, half + 256 / 8)); (41, (256, 2 * half + 256 / 4)); (42, (1, 1)); (43, (32, 1 + 32 / 2)); (44, (1024, 1 + 1024));
   (142, (128, half + 128 / 4))].
Definition layout (ty : Z) : option (Z * Z) := snd <$> List.find (λ e, fst e =? ty) block_layout.

(** The types whose size the reader has wrong: q8_1 and iq4_nl. *)
Definition misread (ty : Z) : bool := (ty =? 9) || (ty =? 20).

Lemma misread_sizes : tensor_type 9 = Some (32, 40) ∧ layout 9 = Some (32, 36) ∧ tensor_type 20 = Some (256, 50) ∧ layout 20 = Some (32, 18).
Proof. done. Qed.

(** The bytes of a tensor: whole blocks, the last one perhaps in part unused. *)
Definition g_bytes (t : gtensor) : Z :=
  match layout (g_type t) with Some (n, b) => (g_elements t + n - 1) / n * b | None => 0 end.

Definition encode_tensor (t : gtensor) : list Z :=
  str (g_name t) ++ Le.put32 (blen (g_dims t)) ++ concat (map Le.put64 (g_dims t)) ++ Le.put32 (g_type t) ++ Le.put64 (g_offset t).
Definition encode_tensors (ts : list gtensor) : list Z := concat (map encode_tensor ts).

(** A tensor of a type of the format other than q8_1 and iq4_nl, whose bytes lie in
    [data] bytes; every product of leading dimensions fits 64 bits. *)
Record gtensor_ok (data : Z) (t : gtensor) : Prop := {
  gt_name : fits 64 (blen (g_name t));
  gt_ndim : 1 <= blen (g_dims t) <= DS4_MAX_DIMS;
  gt_dims : Forall (fits 64) (g_dims t);
  gt_products n : foldr Z.mul 1 (take n (g_dims t)) <= UINT64_MAX;
  gt_type : layout (g_type t) ≠ None ∧ misread (g_type t) = false;
  gt_offset : 0 <= g_offset t;
  gt_data : g_offset t + g_bytes t <= data }.

(** The entry of the table before the tensor is placed. *)
Definition entry_of (t : gtensor) (abs : Z) : ds4_tensor :=
  Tensor (g_name t) (blen (g_dims t)) (g_dims t) (g_type t) (g_offset t) abs (g_elements t) (g_bytes t).

Lemma layout_in ty n b : layout ty = Some (n, b) → (ty, (n, b)) ∈ block_layout.
Proof.
  unfold layout. destruct (List.find _ block_layout) as [[k e]|] eqn:E; [|done]. cbn. intros [= ->].
  apply List.find_some in E as [Hin Hk]. cbn in Hk. apply Z.eqb_eq in Hk as <-. by apply list_elem_of_In.
Qed.

(** The reader's table agrees with the format, and what the entries are. *)
Lemma layout_read ty n b : layout ty = Some (n, b) → fits 32 ty ∧ 0 < n ∧ 0 < b ∧ (misread ty = false → tensor_type ty = Some (n, b)).
Proof.
  intros H%layout_in.
  assert (Forall (λ e, (0 <=? fst e) && (fst e <? 2 ^ 32) && (0 <? fst (snd e)) && (0 <? snd (snd e)) &&
    (misread (fst e) || bool_decide (tensor_type (fst e) = Some (snd e))) = true) block_layout) as Hall.
  { apply forallb_Forall. vm_compute. reflexivity. }
  rewrite Forall_forall in Hall. specialize (Hall _ H). cbn [fst snd] in Hall. rewrite !andb_true_iff in Hall.
  destruct Hall as [[[[H1 H2] H3] H4] H5]. split; [unfold fits; lia|]. split; [lia|]. split; [lia|].
  intros Hm. rewrite Hm in H5. by apply bool_decide_eq_true in H5.
Qed.

Lemma product_nonneg l : Forall (fits 64) l → 0 <= foldr Z.mul 1 l.
Proof. induction 1 as [|d l [Hd _] _ IH]; cbn; [done|nia]. Qed.

Lemma blocks_counted e n : 0 < n → e / n + (if negb (e mod n =? 0) then 1 else 0) = (e + n - 1) / n.
Proof.
  intros Hn. pose proof (Z.div_mod e n ltac:(lia)) as E. pose proof (Z.mod_pos_bound e n Hn).
  destruct (Z.eqb_spec (e mod n) 0) as [H0|H0]; cbn [negb].
  - apply Z.div_unique with (n - 1); lia.
  - apply Z.div_unique with (e mod n - 1); lia.
Qed.

(** The size the reader finds is the format's. *)
Lemma size_read data t : gtensor_ok data t → data <= UINT64_MAX →
  0 <= g_bytes t ∧ tensor_nbytes (g_type t) (g_elements t) = Some (g_bytes t) ∧ fits 32 (g_type t).
Proof.
  intros [_ _ Hds _ [Hl Hm] Ho Hd] Hmax. pose proof (product_nonneg _ Hds) as He. fold (g_elements t) in He.
  unfold g_bytes in *. destruct (layout (g_type t)) as [[n b]|] eqn:E; [|done].
  destruct (layout_read _ _ _ E) as (Hty & Hn & Hb & Ht). unfold tensor_nbytes. rewrite (Ht Hm). cbn [mbind option_bind].
  rewrite (blocks_counted _ _ Hn). assert (0 <= (g_elements t + n - 1) / n) as Hq by (apply Z.div_pos; lia).
  split; [nia|]. split; [|done]. rewrite (proj2 (Z.ltb_ge _ _)); [done|]. apply Z.div_le_lower_bound; lia.
Qed.

Section tensors.
Context (base : list Z) (limit : Z).
Context (Hlimit : 0 <= limit <= blen base).

Lemma dims_read ds : ∀ pos total r, Forall (fits 64) ds → 0 <= total → (∀ n, total * foldr Z.mul 1 (take n ds) <= UINT64_MAX) →
  has_at base limit pos (concat (map Le.put64 ds) ++ r) →
  read_dims base limit (length ds) pos total = Ok (ds, total * foldr Z.mul 1 ds, pos + 8 * blen ds) ∧
  has_at base limit (pos + 8 * blen ds) r.
Proof using Hlimit.
  induction ds as [|d ds IH]; intros pos total r Hds Ht Hp Hat.
  { cbn. rewrite Z.mul_1_r, Z.add_0_r. split; [done|exact Hat]. }
  apply Forall_cons in Hds as [Hd Hds]. cbn [read_dims length]. cbn [map concat] in Hat. rewrite <- app_assoc in Hat.
  destruct (at_u64 _ _ Hlimit _ d _ Hd Hat) as [-> Hat2]. cbn [mbind outcome_bind].
  pose proof (Hp 1%nat) as Hp1. cbn [take foldr] in Hp1. rewrite Z.mul_1_r in Hp1. destruct Hd as [Hd0 Hd1].
  assert (negb (d =? 0) && (UINT64_MAX / d <? total) = false) as ->.
  { destruct (Z.eqb_spec d 0); cbn [negb andb]; [done|]. apply Z.ltb_ge, Z.div_le_lower_bound; lia. }
  rewrite wrap_id by (unfold fits; nia).
  destruct (IH (pos + 8) (total * d) r Hds) as [-> Hr]; [nia| |exact Hat2|].
  { intros n. specialize (Hp (S n)). cbn [take foldr] in Hp. by rewrite <- Z.mul_assoc. }
  rewrite blen_cons. replace (pos + 8 * (1 + blen ds)) with (pos + 8 + 8 * blen ds) by lia. split; [|exact Hr].
  cbn. by rewrite Z.mul_assoc.
Qed.

Lemma tensor_read_back data t pos r : gtensor_ok data t → data <= UINT64_MAX → has_at base limit pos (encode_tensor t ++ r) →
  read_tensor base limit pos = Ok (entry_of t 0, pos + blen (encode_tensor t)) ∧ has_at base limit (pos + blen (encode_tensor t)) r.
Proof using Hlimit.
  intros Hok Hm Hat. destruct (size_read _ _ Hok Hm) as (Hb0 & Hsize & Ht). destruct Hok as [Hn Hnd Hds Hp _ Ho Hd]. destruct (at_app _ _ _ _ _ Hat) as [_ Hr]. split; [|exact Hr]. unfold read_tensor.
  unfold encode_tensor in *. rewrite <- !app_assoc in Hat.
  destruct (at_string _ _ Hlimit _ _ _ Hn Hat) as [-> Hat2]. cbn [mbind outcome_bind].
  assert (fits 32 (blen (g_dims t))) as Hf by (unfold DS4_MAX_DIMS in *; unfold fits; lia).
  destruct (at_u32 _ _ Hlimit _ _ _ Hf Hat2) as [-> Hat3]. cbn [mbind outcome_bind].
  rewrite (proj2 (Z.eqb_neq _ 0)), (proj2 (Z.ltb_ge DS4_MAX_DIMS _)) by lia. cbn [orb].
  destruct (dims_read (g_dims t) _ 1 _ Hds ltac:(lia) ltac:(intros n; specialize (Hp n); lia) Hat3) as [E Hat4].
  replace (Z.to_nat (blen (g_dims t))) with (length (g_dims t)) by (unfold blen; lia). rewrite E. cbn [mbind outcome_bind]. rewrite Z.mul_1_l.
  destruct (at_u32 _ _ Hlimit _ _ _ Ht Hat4) as [-> Hat5]. cbn [mbind outcome_bind].
  assert (fits 64 (g_offset t)) as Hfo.
  { unfold fits. lia. }
  rewrite <- (app_nil_r (Le.put64 _)), <- app_assoc in Hat5.
  destruct (at_u64 _ _ Hlimit _ _ _ Hfo Hat5) as [-> _]. cbn [mbind outcome_bind]. unfold mret, outcome_ret. unfold entry_of. fold (g_elements t). rewrite Hsize. cbn [default].
  do 2 f_equal. rewrite !blen_app. change (blen (Le.put32 (blen (g_dims t)))) with 4.
  change (blen (Le.put32 (g_type t))) with 4. change (blen (Le.put64 (g_offset t))) with 8.
  assert (blen (concat (map Le.put64 (g_dims t))) = 8 * blen (g_dims t)) as ->.
  { generalize (g_dims t) as l. induction l as [|d l IH]; [done|]. cbn [map concat]. rewrite blen_app, blen_cons, IH. change (blen (Le.put64 d)) with 8. lia. }
  lia.
Qed.

Lemma tensors_read_back data ts : ∀ fuel pos r, Forall (gtensor_ok data) ts → data <= UINT64_MAX → has_at base limit pos (encode_tensors ts ++ r) →
  (length ts <= fuel)%nat →
  tensor_loop base limit fuel pos (blen ts) = Ok (map (λ t, entry_of t 0) ts, pos + blen (encode_tensors ts)) ∧
  has_at base limit (pos + blen (encode_tensors ts)) r.
Proof using Hlimit.
  induction ts as [|t ts IH]; intros fuel pos r Hok Hm Hat Hf.
  { unfold encode_tensors in *. cbn [map concat] in *. change (blen (@nil Z)) with 0. rewrite Z.add_0_r. split; [by destruct fuel|exact Hat]. }
  destruct fuel as [|fuel]; [simpl in Hf; lia|]. cbn [tensor_loop]. rewrite blen_cons. pose proof (blen_nonneg ts).
  rewrite (proj2 (Z.leb_gt _ 0)) by lia. replace (1 + blen ts - 1) with (blen ts) by lia. apply Forall_cons in Hok as [Ht Hok].
  unfold encode_tensors in *. cbn [map concat] in *. rewrite <- app_assoc in Hat.
  destruct (tensor_read_back data t pos _ Ht Hm Hat) as [-> Hat2]. cbn [mbind outcome_bind].
  destruct (IH fuel _ r Hok Hm Hat2 ltac:(simpl in Hf; lia)) as [-> Hr]. cbn [mbind outcome_bind map]. unfold mret, outcome_ret. rewrite blen_app, Z.add_assoc. split; [done|exact Hr].
Qed.

Lemma tensors_placed data data_pos ts : ∀ max, Forall (gtensor_ok data) ts → 0 <= data_pos → data_pos + data <= limit → limit <= UINT64_MAX →
  ∃ max', place_loop limit data_pos (map (λ t, entry_of t 0) ts) max = Ok (map (λ t, entry_of t (data_pos + g_offset t)) ts, max').
Proof.
  induction ts as [|t ts IH]; intros max Hok Hp Hl Hm; [by eexists|]. apply Forall_cons in Hok as [Ht Hok]. cbn [map place_loop].
  assert (place_tensor limit data_pos (entry_of t 0) = Ok (entry_of t (data_pos + g_offset t))) as ->.
  { destruct (size_read _ _ Ht ltac:(lia)) as (Hb & _ & _). destruct Ht as [_ _ Hds _ _ Ho Hd]. unfold place_tensor, entry_of. cbn [rel_offset t_bytes].
    rewrite (proj2 (Z.ltb_ge _ (g_offset t))) by lia. cbv zeta.
    rewrite (proj2 (Z.ltb_ge limit _)), (proj2 (Z.ltb_ge _ (g_bytes t))) by lia. by rewrite andb_false_r. }
  cbn [mbind outcome_bind]. edestruct IH as [mx ->]; [done..|]. by eexists.
Qed.
End tensors.

(** ** Files *)

Definition header (kvs : list (list Z * gvalue)) (ts : list gtensor) : list Z :=
  Le.put32 DS4_GGUF_MAGIC ++ Le.put32 3 ++ Le.put64 (blen ts) ++ Le.put64 (blen kvs).
Definition directory (kvs : list (list Z * gvalue)) (ts : list gtensor) : list Z := header kvs ts ++ encode_kvs kvs ++ encode_tensors ts.
Definition data_start (kvs : list (list Z * gvalue)) (ts : list gtensor) : Z :=
  align_up (blen (directory kvs ts)) (foldl alignment_after 32 kvs).

(** The directory, zeros up to the alignment, and the tensors' bytes. *)
Definition written (kvs : list (list Z * gvalue)) (ts : list gtensor) (data : list Z) : list Z :=
  directory kvs ts ++ replicate (Z.to_nat (data_start kvs ts - blen (directory kvs ts))) 0 ++ data.

Lemma align_up_spec v a : 0 <= v < 2 ^ 63 → 0 < a < 2 ^ 32 → v <= align_up v a ∧ align_up v a mod a = 0.
Proof.
  intros Hv Ha. unfold align_up. cbv zeta. pose proof (Z.mod_pos_bound v a ltac:(lia)). destruct (Z.eqb_spec (v mod a) 0) as [E|E]; [lia|].
  rewrite wrap_id by (unfold fits; lia). split; [lia|]. pose proof (Z.div_mod v a ltac:(lia)).
  replace (v + a - v mod a) with ((v / a + 1) * a) by lia. apply Z.mod_mul. lia.
Qed.

Lemma has_at_all b s : b = s → has_at b (blen b) 0 s.
Proof. intros <-. exists [], []. rewrite app_nil_r. split; [done|]. split; [done|lia]. Qed.

Lemma zdrop_sum (l : list Z) m n : 0 <= m → 0 <= n → zdrop (m + n) l = zdrop n (zdrop m l).
Proof. intros. unfold zdrop. rewrite skipn_skipn. f_equal. lia. Qed.

(** A file the format has, and memory for its two tables. *)
Record file_ok (kvs : list (list Z * gvalue)) (ts : list gtensor) (data : list Z) (calloc : Z → Z → bool) : Prop := {
  fo_kvs : Forall kv_ok kvs;
  fo_ts : Forall (gtensor_ok (blen data)) ts;
  fo_bytes : bytes_ok (written kvs ts data);
  fo_size : blen (written kvs ts data) < 2 ^ 63;
  fo_metadata : calloc (blen kvs) 32 = true;
  fo_tensors : calloc (blen ts) 136 = true }.

Section file_.
Context (kvs : list (list Z * gvalue)) (ts : list gtensor) (data : list Z) (calloc : Z → Z → bool).
Context (Hfile : file_ok kvs ts data calloc).
Let Hkvs := fo_kvs _ _ _ _ Hfile.
Let Hts := fo_ts _ _ _ _ Hfile.
Let Hbytes := fo_bytes _ _ _ _ Hfile.
Let Hsize := fo_size _ _ _ _ Hfile.
Let Hmem := fo_metadata _ _ _ _ Hfile.
Let Hmem2 := fo_tensors _ _ _ _ Hfile.
Let file := written kvs ts data.

Lemma lengths : blen (directory kvs ts) = 24 + blen (encode_kvs kvs) + blen (encode_tensors ts) ∧ blen kvs <= blen (encode_kvs kvs) ∧
  blen ts <= blen (encode_tensors ts) ∧ blen (directory kvs ts) + blen data <= blen file.
Proof.
  split; [unfold directory, header; rewrite !blen_app; change (blen (Le.put32 DS4_GGUF_MAGIC)) with 4; change (blen (Le.put32 3)) with 4;
    change (blen (Le.put64 (blen ts))) with 8; change (blen (Le.put64 (blen kvs))) with 8; lia|].
  split; [apply encode_kvs_len|]. split.
  - unfold encode_tensors. clear. induction ts as [|t l IH]; [done|]. cbn [map concat]. rewrite blen_app, blen_cons.
    assert (1 <= blen (encode_tensor t)); [|lia]. unfold encode_tensor. rewrite !blen_app. change (blen (Le.put32 (g_type t))) with 4.
    pose proof (blen_nonneg (str (g_name t))). pose proof (blen_nonneg (Le.put32 (blen (g_dims t)))).
    pose proof (blen_nonneg (concat (map Le.put64 (g_dims t)))). pose proof (blen_nonneg (Le.put64 (g_offset t))). lia.
  - unfold file, written. rewrite !blen_app. pose proof (blen_nonneg (replicate (Z.to_nat (data_start kvs ts - blen (directory kvs ts))) 0)). lia.
Qed.

(** What is read of the header and the metadata. *)
Definition opened : ds4_model :=
  Model file (blen file) 3 (blen kvs) (blen ts) (foldl alignment_after 32 kvs) 0 0 (place_kvs 24 kvs) [].

Lemma header_read_back : parse_header file (blen file) calloc = Ok (opened, 24 + blen (encode_kvs kvs)) ∧
  has_at file (blen file) 24 (encode_kvs kvs ++ encode_tensors ts ++ replicate (Z.to_nat (data_start kvs ts - blen (directory kvs ts))) 0 ++ data).
Proof using Hfile.
  destruct lengths as (Hdir & Hk & Ht & Hall). pose proof (blen_nonneg data). pose proof (blen_nonneg kvs). pose proof (blen_nonneg ts).
  pose proof (blen_nonneg (encode_kvs kvs)). pose proof (blen_nonneg (encode_tensors ts)). unfold file in *.
  assert (0 <= blen (written kvs ts data) <= blen (written kvs ts data)) as Hl by lia.
  assert (has_at (written kvs ts data) (blen (written kvs ts data)) 0
    (Le.put32 DS4_GGUF_MAGIC ++ Le.put32 3 ++ Le.put64 (blen ts) ++ Le.put64 (blen kvs) ++ encode_kvs kvs ++ encode_tensors ts ++
     replicate (Z.to_nat (data_start kvs ts - blen (directory kvs ts))) 0 ++ data)) as Hat.
  { apply has_at_all. unfold written. unfold directory at 1. unfold header. by rewrite <- !app_assoc. }
  unfold parse_header.
  destruct (at_u32 _ _ Hl _ DS4_GGUF_MAGIC _ ltac:(by split) Hat) as [-> Hat2]. cbn [mbind outcome_bind].
  rewrite Z.eqb_refl. cbn [negb]. destruct (at_u32 _ _ Hl _ 3 _ ltac:(by split) Hat2) as [-> Hat3]. cbn [mbind outcome_bind].
  destruct (at_u64 _ _ Hl _ (blen ts) _ ltac:(unfold fits; lia) Hat3) as [-> Hat4]. cbn [mbind outcome_bind].
  destruct (at_u64 _ _ Hl _ (blen kvs) _ ltac:(unfold fits; lia) Hat4) as [-> Hat5]. cbn [mbind outcome_bind].
  change (negb (3 =? 3)) with false. cbv iota. unfold parse_metadata. cbn [n_kv]. rewrite Hmem. cbn [negb].
  change (0 + 4 + 4 + 8 + 8) with 24 in *. rewrite (metadata_read _ _ Hl ltac:(lia) kvs _ 24 32 _ Hkvs Hat5) by (unfold blen in *; lia).
  split; [done|exact Hat5].
Qed.

Lemma start_ok : 24 <= blen (directory kvs ts) <= data_start kvs ts ∧ data_start kvs ts + blen data = blen file ∧
  data_start kvs ts mod foldl alignment_after 32 kvs = 0.
Proof using Hfile.
  destruct lengths as (Hdir & Hk & Ht & Hall). pose proof (blen_nonneg data). pose proof (blen_nonneg (encode_kvs kvs)).
  pose proof (blen_nonneg (encode_tensors ts)). pose proof (blen_nonneg kvs). destruct header_read_back as [E _]. unfold file in *.
  assert (0 <= blen (written kvs ts data) <= blen (written kvs ts data)) as Hl by lia.
  pose proof (header_good _ _ Hbytes Hl calloc) as Hg. rewrite E in Hg. destruct Hg as [(_ & _ & _ & _ & Ha) _].
  cbn in Ha. destruct (align_up_spec (blen (directory kvs ts)) _ ltac:(lia) Ha) as [Hup Hmod]. fold (data_start kvs ts) in Hup, Hmod.
  split; [lia|]. split; [|done]. unfold written. rewrite !blen_app. unfold blen at 3. rewrite length_replicate. lia.
Qed.

Lemma data_at t : 0 <= g_offset t → 0 <= g_bytes t → g_offset t + g_bytes t <= blen data →
  ztake (g_bytes t) (zdrop (data_start kvs ts + g_offset t) file) = ztake (g_bytes t) (zdrop (g_offset t) data).
Proof using Hfile.
  intros Ho Hb Hd. destruct start_ok as ([Hs0 Hs] & _ & _). rewrite zdrop_sum by lia. f_equal. f_equal.
  unfold file, written. rewrite app_assoc. set (head := directory kvs ts ++ _).
  assert (data_start kvs ts = blen head) as ->; [|by rewrite zdrop_app].
  unfold head. rewrite blen_app. unfold blen at 2. rewrite length_replicate. lia.
Qed.

Lemma file_read_back : ∃ m, model_parse_shard file (blen file) calloc = Ok m ∧ kv m = place_kvs 24 kvs ∧ map_ m = file ∧ size m = blen file ∧
  tensor_data_pos m = data_start kvs ts ∧ alignment m = foldl alignment_after 32 kvs ∧
  tensors m = map (λ t, entry_of t (data_start kvs ts + g_offset t)) ts.
Proof using Hfile.
  destruct start_ok as (Hs & Hend & _). destruct header_read_back as [E Hat]. destruct lengths as (Hdir & Hk & Ht & _).
  pose proof (blen_nonneg (encode_kvs kvs)). pose proof (blen_nonneg data). pose proof (blen_nonneg ts). unfold file in *.
  assert (0 <= blen (written kvs ts data) <= blen (written kvs ts data)) as Hl by lia.
  unfold model_parse_shard. rewrite E. cbn [mbind outcome_bind]. unfold parse_tensors. cbn [n_tensors opened]. rewrite Hmem2. cbn [negb].
  destruct (at_app _ _ _ _ _ Hat) as [_ Hat2].
  destruct (tensors_read_back _ _ Hl (blen data) ts (S (length (written kvs ts data))) _ _ Hts ltac:(lia) Hat2) as [-> _]; [unfold blen in *; lia|].
  cbn [mbind outcome_bind alignment opened max_tensor_bytes]. cbv zeta.
  replace (24 + blen (encode_kvs kvs) + blen (encode_tensors ts)) with (blen (directory kvs ts)) by lia. fold (data_start kvs ts).
  destruct (tensors_placed (blen (written kvs ts data)) (blen data) (data_start kvs ts) ts 0 Hts) as [mx ->]; [lia..|].
  cbn [mbind outcome_bind]. eexists. split; [done|]. do 5 (split; [done|]). done.
Qed.

Lemma file_metadata m : kv m = place_kvs 24 kvs → map_ m = file → size m = blen file → reads_metadata m kvs.
Proof using Hfile.
  intros Hkv Hmap Hsz. destruct header_read_back as [_ Hat].
  eapply (metadata_reads m kvs 24); [rewrite Hmap, Hsz; pose proof (blen_nonneg file); lia|exact Hkvs|rewrite Hmap, Hsz; exact Hat|exact Hkv].
Qed.
End file_.


(** A small file: an alignment, a name, an array of arrays, and two tensors. *)
Definition small_kvs : list (list Z * gvalue) :=
  [(bs "general.alignment", GScalar GGUF_VALUE_UINT32 (Le.put32 64)); (bs "general.name", GString (bs "tiny"));
   (bs "nested", GArray GGUF_VALUE_ARRAY [GArray GGUF_VALUE_UINT8 [GScalar GGUF_VALUE_UINT8 [7]]; GArray GGUF_VALUE_STRING []])].
Definition small_ts : list gtensor := [GTensor (bs "w") [32; 2] 8 0; GTensor (bs "b") [2] 0 128].
Definition small_data : list Z := map (λ i, i mod 256) (seqZ 0 136).

Lemma small_kvs_ok : Forall kv_ok small_kvs.
Proof.
  constructor; [|constructor; [|constructor; [|constructor]]]; (split; [by split|]; split; [by split|]).
  - by split.
  - by split.
  - split; [by split|]. split; [by split|]. constructor; [|constructor; [|constructor]]; (split; [done|]; split; [by split|]; split; [by split|]); constructor; [|done].
    split; [done|]. by split.
Qed.

Lemma small_ts_ok : Forall (gtensor_ok (blen small_data)) small_ts.
Proof.
  constructor; [|constructor; [|constructor]].
  - constructor; [by split|by split|constructor; [by split|constructor; [by split|constructor]]| |done|done|by apply Z.leb_le].
    intros [|[|[|n]]]; by apply Z.leb_le.
  - constructor; [by split|by split|constructor; [by split|constructor]| |done|done|by apply Z.leb_le].
    intros [|[|n]]; by apply Z.leb_le.
Qed.

