(* ===== verification/Vocab.v ===== *)
(** * Loading the vocabulary from a model file (ds4.c)

    vocab_load: the token table, the literal tokens and the merge ranks, read from the
    metadata into hash tables, and the markers each model family looks up. *)

From S2P Require Import Prelude Text StrTable Bpe PreTok ChatTok Bytes Gguf GgufModel.

(** ** Lookups *)

(** A probe that does not end is a hang. *)
Definition ended {A} (o : option A) : outcome A := match o with Some a => Ok a | None => Hang end.

Section tables.
Context (base : list Z) (limit : Z).

(** The loop over an array of strings: read one, put it under its index. *)
Fixpoint load_strings (fuel : nat) (pos i n : Z) (t : str_i32_table) : outcome (list (list Z) * str_i32_table) :=
  if n <=? i then Ok ([], t)
  else match fuel with
  | O => Hang
  | S fuel =>
      '(s, pos) ← cursor_string base limit pos;
      t ← ended (table_put t s (i32 i));
      '(l, t) ← load_strings fuel pos (i + 1) n t;
      mret (s :: l, t)
  end.

Definition GGML_TOKEN_TYPE_USER_DEFINED : Z := 4.

(** The literal tokens: their table, the longest one and their first bytes. *)
Record literals := Literals { l_table : str_i32_table; l_max : Z; l_first : list bool }.

Definition add_literal (u : literals) (t : str_i32_table) (s : list Z) : literals :=
  Literals t (if l_max u <? blen s then u32 (blen s) else l_max u) (<[Z.to_nat (znth 0 s 0) := true]> (l_first u)).

(** The loop over the tokens' types; a failed read ends it. *)
Fixpoint load_literals (tokens : list (list Z)) (pos i : Z) (u : literals) : outcome literals :=
  match tokens with
  | [] => Ok u
  | s :: tokens =>
      match cursor_u32 base limit pos with
      | Ok (ty, pos) =>
          if negb (ty =? GGML_TOKEN_TYPE_USER_DEFINED) then load_literals tokens pos (i + 1) u
          else if blen s =? 0 then load_literals tokens pos (i + 1) u
          else t ← ended (table_put (l_table u) s i); load_literals tokens pos (i + 1) (add_literal u t s)
      | CursorError _ _ => Ok u
      | Die msg => Die msg
      | Wild => Wild
      | Hang => Hang
      end
  end.
End tables.

(** The first bytes of Motif's added tokens. *)
Definition motif_first (f : family) (tokens : list (list Z)) : list bool :=
  match f with
  | MOTIF3 => map (fun b => existsb (fun s => negb (blen s =? 0) && (znth 0 s 0 =? b)) (ztake 160 tokens)) (seqZ 0 256)
  | _ => replicate 256 false
  end.

(** ** Markers *)

Section markers.
(** model_get_token_id on the model, and table_get on the token table. *)
Context (token_id get : list Z -> outcome (option Z)).

Definition vocab_lookup (text : list Z) : outcome Z :=
  t ← get text;
  match t with Some t => Ok t | None => Die (bs "required tokenizer token is missing: " ++ text) end.

Definition vocab_lookup_optional (text : list Z) : outcome Z :=
  t ← get text;
  match t with Some t => Ok t | None => Ok (-1) end.

(** The id the metadata declares, or else the one [look] finds. *)
Definition declared (k : list Z) (look : outcome Z) : outcome Z :=
  t ← token_id k;
  match t with Some t => Ok t | None => look end.

Definition bos_key : list Z := bs "tokenizer.ggml.bos_token_id".
Definition eos_key : list Z := bs "tokenizer.ggml.eos_token_id".
Definition eot_key : list Z := bs "tokenizer.ggml.eot_token_id".

(** Fields that vocab_load does not write keep the zero of its memset or the -1 set
    behind it. *)
Definition glm53_ids : outcome chat_ids :=
  bos ← declared bos_key (vocab_lookup_optional (bs "<sop>"));
  eos ← declared eos_key (vocab_lookup_optional (bs "<|endoftext|>"));
  system ← vocab_lookup_optional (bs "<|system|>");
  user ← vocab_lookup_optional (bs "<|user|>");
  assistant ← vocab_lookup_optional (bs "<|assistant|>");
  observation ← vocab_lookup_optional (bs "<|observation|>");
  sop ← vocab_lookup_optional (bs "<sop>");
  think ← vocab_lookup_optional (bs "<think>");
  think_end ← vocab_lookup_optional (bs "</think>");
  call ← vocab_lookup_optional (bs "<tool_call>");
  call_end ← vocab_lookup_optional (bs "</tool_call>");
  response ← vocab_lookup_optional (bs "<tool_response>");
  response_end ← vocab_lookup_optional (bs "</tool_response>");
  arg_key ← vocab_lookup_optional (bs "<arg_key>");
  arg_key_end ← vocab_lookup_optional (bs "</arg_key>");
  arg_value ← vocab_lookup_optional (bs "<arg_value>");
  arg_value_end ← vocab_lookup_optional (bs "</arg_value>");
  mret (ChatIds
    bos eos system (-1) (-1) (-1)
    (-1) user assistant 0 0
    0 0 0 0 observation
    sop think think_end call
    call_end response response_end
    arg_key arg_key_end arg_value arg_value_end
    0 0 0 (-1)
    (-1) (-1) (-1) (-1)
    (-1) (-1)
    []).

Definition gemma4_ids : outcome chat_ids :=
  mret (ChatIds
    0 0 0 (-1) (-1) (-1)
    (-1) 0 0 0 0
    0 0 0 0 0
    0 0 0 (-1)
    (-1) (-1) (-1)
    (-1) (-1) (-1) (-1)
    0 0 0 (-1)
    (-1) 0 (-1) (-1)
    (-1) (-1)
    []).

Definition motif3_ids : outcome chat_ids :=
  bos ← declared bos_key (vocab_lookup (bs "<|beginoftext|>"));
  eos ← declared eos_key (vocab_lookup (bs "<|endoftext|>"));
  system ← vocab_lookup (bs "<|system|>");
  user ← vocab_lookup (bs "<|user|>");
  assistant ← vocab_lookup (bs "<|assistant|>");
  start_of_turn ← vocab_lookup (bs "<|startofturn|>");
  end_of_turn ← vocab_lookup (bs "<|endofturn|>");
  tool ← vocab_lookup (bs "<|tool|>");
  reference ← vocab_lookup (bs "<|reference|>");
  plan ← vocab_lookup (bs "<|plan|>");
  plan_end ← vocab_lookup (bs "<|endofplan|>");
  think ← vocab_lookup (bs "<think>");
  think_end ← vocab_lookup (bs "</think>");
  call ← vocab_lookup (bs "<tool_call>");
  call_end ← vocab_lookup (bs "</tool_call>");
  response ← vocab_lookup (bs "<tool_response>");
  response_end ← vocab_lookup (bs "</tool_response>");
  latent ← vocab_lookup (bs "<latent>");
  latent_pad ← vocab_lookup (bs "<latent_pad>");
  latent_end ← vocab_lookup (bs "</latent>");
  mret (ChatIds
    bos eos system (-1) (-1) (-1)
    (-1) user assistant start_of_turn end_of_turn
    tool reference plan plan_end (-1)
    (-1) think think_end call
    call_end response response_end
    (-1) (-1) (-1) (-1)
    latent latent_pad latent_end (-1)
    (-1) (-1) (-1) (-1)
    (-1) (-1)
    []).

Definition dots3_ids : outcome chat_ids :=
  bos ← declared bos_key (vocab_lookup (bs "<|endoftext|>"));
  eos ← declared eos_key (vocab_lookup (bs "<|endofassistant|>"));
  system ← vocab_lookup (bs "<|system|>");
  user ← vocab_lookup (bs "<|user|>");
  assistant ← vocab_lookup (bs "<|assistant|>");
  endofsystem ← vocab_lookup (bs "<|endofsystem|>");
  endofuser ← vocab_lookup (bs "<|endofuser|>");
  endoftext ← vocab_lookup (bs "<|endoftext|>");
  think ← vocab_lookup (bs "<think>");
  think_end ← vocab_lookup (bs "</think>");
  call ← vocab_lookup (bs "<dots_function_call>");
  call_end ← vocab_lookup (bs "</dots_function_call>");
  response ← vocab_lookup (bs "<dots_function_response>");
  response_end ← vocab_lookup (bs "</dots_function_response>");
  mret (ChatIds
    bos eos system (-1) (-1) (-1)
    (-1) user assistant (-1) (-1)
    (-1) (-1) (-1) (-1) (-1)
    (-1) think think_end call
    call_end response response_end
    (-1) (-1) (-1) (-1)
    (-1) (-1) (-1) (-1)
    (-1) (-1) (-1) endofsystem
    endofuser endoftext
    []).

Definition qwen35_ids : outcome chat_ids :=
  eos ← declared eos_key (vocab_lookup (bs "<|im_end|>"));
  eot ← vocab_lookup (bs "<|endoftext|>");
  im_start ← vocab_lookup (bs "<|im_start|>");
  im_end ← vocab_lookup (bs "<|im_end|>");
  think ← vocab_lookup (bs "<think>");
  think_end ← vocab_lookup (bs "</think>");
  call ← vocab_lookup_optional (bs "<tool_call>");
  call_end ← vocab_lookup_optional (bs "</tool_call>");
  response ← vocab_lookup_optional (bs "<tool_response>");
  response_end ← vocab_lookup_optional (bs "</tool_response>");
  mret (ChatIds
    (-1) eos (-1) eot im_start (-1)
    im_end (-1) (-1) 0 0
    0 0 0 0 0
    0 think think_end call
    call_end response response_end
    (-1) (-1) (-1) (-1)
    0 0 0 (-1)
    (-1) (-1) (-1) (-1)
    (-1) (-1)
    []).

Definition qwen4exp_ids : outcome chat_ids :=
  bos ← declared bos_key (vocab_lookup (bs "<|endoftext|>"));
  eos ← declared eos_key (vocab_lookup (bs "<|im_end|>"));
  eot ← vocab_lookup (bs "<|endoftext|>");
  im_start ← vocab_lookup (bs "<|im_start|>");
  im_end ← vocab_lookup (bs "<|im_end|>");
  think ← vocab_lookup (bs "<think>");
  think_end ← vocab_lookup (bs "</think>");
  call ← vocab_lookup (bs "<tool_call>");
  call_end ← vocab_lookup (bs "</tool_call>");
  response ← vocab_lookup (bs "<tool_response>");
  response_end ← vocab_lookup (bs "</tool_response>");
  mret (ChatIds
    bos eos (-1) eot im_start (-1)
    im_end (-1) (-1) 0 0
    0 0 0 0 0
    0 think think_end call
    call_end response response_end
    (-1) (-1) (-1) (-1)
    0 0 0 (-1)
    (-1) (-1) (-1) (-1)
    (-1) (-1)
    []).

Definition solar_ids : outcome chat_ids :=
  bos ← declared bos_key (vocab_lookup_optional (bs "<|startoftext|>"));
  eos ← declared eos_key (vocab_lookup_optional (bs "<|endoftext|>"));
  eot ← declared eot_key (vocab_lookup_optional (bs "<|im:end|>"));
  im_start ← vocab_lookup_optional (bs "<|im:start|>");
  im_content ← vocab_lookup_optional (bs "<|im:content|>");
  im_end ← vocab_lookup_optional (bs "<|im:end|>");
  think ← vocab_lookup_optional (bs "<|think:start|>");
  think_end ← vocab_lookup_optional (bs "<|think:end|>");
  call ← vocab_lookup_optional (bs "<|tool_call:start|>");
  call_end ← vocab_lookup_optional (bs "<|tool_call:end|>");
  response ← vocab_lookup_optional (bs "<|tool_response:start|>");
  response_end ← vocab_lookup_optional (bs "<|tool_response:end|>");
  arg_key ← vocab_lookup_optional (bs "<|tool_arg:start|>");
  arg_key_end ← vocab_lookup_optional (bs "<|tool_arg:end|>");
  arg_value ← vocab_lookup_optional (bs "<|tool_arg:value|>");
  schema ← vocab_lookup_optional (bs "<|tool:start|>");
  schema_end ← vocab_lookup_optional (bs "<|tool:end|>");
  if (bos <? 0) || (eos <? 0) || (eot <? 0) || (im_start <? 0) || (im_content <? 0) || (im_end <? 0) ||
     (think <? 0) || (think_end <? 0) || (schema <? 0) || (schema_end <? 0)
  then Die (bs "Solar tokenizer is missing required chat control tokens")
  else mret (ChatIds
    bos eos 0 eot im_start im_content
    im_end (-1) (-1) 0 0
    0 0 0 0 0
    0 think think_end call
    call_end response response_end
    arg_key arg_key_end arg_value arg_key_end
    0 0 0 schema
    schema_end (-1) (-1) (-1)
    (-1) (-1)
    []).

Definition exaone_ids : outcome chat_ids :=
  bos ← declared bos_key (vocab_lookup_optional (bs "[BOS]"));
  eos ← declared eos_key (vocab_lookup_optional (bs "<|endofturn|>"));
  system ← vocab_lookup_optional (bs "<|system|>");
  user ← vocab_lookup_optional (bs "<|user|>");
  assistant ← vocab_lookup_optional (bs "<|assistant|>");
  observation ← vocab_lookup_optional (bs "<|tool|>");
  think ← vocab_lookup_optional (bs "<think>");
  think_end ← vocab_lookup_optional (bs "</think>");
  call ← vocab_lookup_optional (bs "<tool_call>");
  call_end ← vocab_lookup_optional (bs "</tool_call>");
  response ← vocab_lookup_optional (bs "<tool_result>");
  response_end ← vocab_lookup_optional (bs "</tool_result>");
  mret (ChatIds
    bos eos system (-1) (-1) (-1)
    (-1) user assistant 0 0
    0 0 0 0 observation
    (-1) think think_end call
    call_end response response_end
    (-1) (-1) (-1) (-1)
    0 0 0 (-1)
    (-1) (-1) (-1) (-1)
    (-1) (-1)
    []).

Definition deepseek4_ids : outcome chat_ids :=
  bos ← vocab_lookup (bs "<｜begin▁of▁sentence｜>");
  eos ← vocab_lookup (bs "<｜end▁of▁sentence｜>");
  user ← vocab_lookup (bs "<｜User｜>");
  assistant ← vocab_lookup (bs "<｜Assistant｜>");
  think ← vocab_lookup (bs "<think>");
  think_end ← vocab_lookup (bs "</think>");
  dsml ← vocab_lookup (bs "｜DSML｜");
  image ← vocab_lookup_optional (bs "<｜deepseek_image｜>");
  mret (ChatIds
    bos eos (-1) (-1) (-1) (-1)
    (-1) user assistant (-1) (-1)
    (-1) (-1) (-1) (-1) (-1)
    (-1) think think_end (-1)
    (-1) (-1) (-1)
    (-1) (-1) (-1) (-1)
    (-1) (-1) (-1) (-1)
    (-1) dsml image (-1)
    (-1) (-1)
    []).

Definition family_ids (f : family) : outcome chat_ids :=
  match f with
  | GLM53 => glm53_ids
  | GEMMA4 => gemma4_ids
  | MOTIF3 => motif3_ids
  | DOTS3_NOTE => dots3_ids
  | QWEN35 => qwen35_ids
  | QWEN4EXP | NAIVE => qwen4exp_ids
  | SOLAR_OPEN2 => solar_ids
  | EXAONE_MOE => exaone_ids
  | _ => deepseek4_ids
  end.
End markers.

(** ** vocab_load *)

Definition table_lookup (t : str_i32_table) (text : list Z) : outcome (option Z) := ended (table_get t text).

(** A table's array of strings; any other number of them than an int holds, or another
    type, is not one. *)
Definition string_array (a : option ds4_array_ref) (max : Z) : option ds4_array_ref :=
  match a with
  | Some a => if (a_type a =? GGUF_VALUE_STRING) && (a_len a <=? max) then Some a else None
  | None => None
  end.

Definition vocab_load (f : family) (m : ds4_model) : outcome (ds4_vocab str_i32_table * chat_ids) :=
  pre ← model_get_string m (bs "tokenizer.ggml.pre");
  if bool_decide (pre = Some (bs "qwen4exp")) then Die (bs "Qwen4Exp NFC/Unicode tokenization requires a Rust host")
  else
    ts ← model_get_array m (bs "tokenizer.ggml.tokens");
    match string_array ts INT_MAX with
    | None => Die (bs "GGUF tokenizer token table is missing or invalid")
    | Some ts =>
        ms ← model_get_array m (bs "tokenizer.ggml.merges");
        match string_array ms UINT64_MAX with
        | None => Die (bs "GGUF tokenizer merge table is missing or invalid")
        | Some ms =>
            let fuel := S (length (map_ m)) in
            t ← ended (table_init (a_len ts));
            '(tokens, token_to_id) ← load_strings (map_ m) (size m) fuel (data_pos ts) 0 (a_len ts) t;
            t ← ended (table_init 64);
            types ← model_get_array m (bs "tokenizer.ggml.token_type");
            let none := Literals t 0 (replicate 256 false) in
            u ← match types with
                | Some types => if a_len types =? a_len ts then load_literals (map_ m) (size m) tokens (data_pos types) 0 none else Ok none
                | None => Ok none
                end;
            t ← ended (table_init (a_len ms));
            '(_, merge_rank) ← load_strings (map_ m) (size m) fuel (data_pos ms) 0 (a_len ms) t;
            ids ← family_ids (model_get_token_id m) (table_lookup token_to_id) f;
            mret (Vocab tokens token_to_id merge_rank (l_table u) (l_max u) (l_first u) (motif_first f tokens), ids)
        end
    end.
