(* ===== verification/VocabTheorems.v ===== *)
(** * Loading the vocabulary stays inside the file (ds4.c)

    Typed reads and vocab_load on the tables of any file that opened. *)

From S2P Require Import Prelude Bytes Text StrTable Bpe BpeSpec PreTok PreTokSpec ChatTok TokSpec TokTheorems Gguf GgufSpec GgufModel.
From S2P Require Import GgufText GgufTheorems Vocab.

(** No read outside the mapping; a hash table may be full, so that a probe does not
    end. *)
Definition safe {A} (P : A → Prop) (o : outcome A) : Prop :=
  match o with Ok a => P a | CursorError _ _ | Die _ | Hang => True | Wild => False end.

Lemma good_safe {A} (P : A → Prop) (o : outcome A) : good P o → safe P o.
Proof. by destruct o. Qed.

Lemma safe_bind {A B} (P : A → Prop) (Q : B → Prop) (o : outcome A) (f : A → outcome B) :
  safe P o → (∀ a, P a → safe Q (f a)) → safe Q (o ≫= f).
Proof. destruct o; cbn; auto. Qed.

Lemma safe_ended {A} (o : option A) : safe (λ _, True) (ended o).
Proof. by destruct o. Qed.

Lemma safe_quiet {A} (P : A → Prop) (o : outcome A) : safe P o → safe (λ r, ∀ a, r = Some a → P a) (quiet o).
Proof. destruct o; cbn; try done. by intros Ha b [= <-]. Qed.

Section vocab.
Context (m : ds4_model).
Context (Hbytes : bytes_ok (map_ m)) (Hlimit : 0 <= size m <= blen (map_ m)) (Hkv : Forall (kv_inside (map_ m) (size m)) (kv m)).

Lemma typed_read_safe {A} (P : option A → Prop) k ok (read : Z → Z → outcome (option A)) :
  P None → (∀ t pos, 0 <= pos → safe P (read t pos)) → safe P (typed_read m k ok read).
Proof using Hkv.
  intros Hn Hr. unfold typed_read, model_find_kv. destruct (List.find _ (kv m)) as [e|] eqn:E; [|done].
  apply List.find_some in E as [Hin _]. rewrite List.Forall_forall in Hkv. destruct (Hkv e Hin) as [Hpos _].
  destruct (ok (type e)); [by apply Hr|done].
Qed.

Lemma uint_at_safe w pos : 0 <= pos → 0 <= w → safe (λ _, True) (uint_at m w pos).
Proof using Hbytes Hlimit.
  intros Hp Hw. unfold uint_at. pose proof (uint_good _ _ Hbytes Hlimit w pos Hp Hw) as Hg.
  by destruct (cursor_uint (map_ m) (size m) w pos) as [[v p]| | | |].
Qed.

Lemma token_id_safe k : safe (λ _, True) (model_get_token_id m k).
Proof using Hbytes Hlimit Hkv.
  apply typed_read_safe; [done|]. intros t pos Hp. pose proof (uint_at_safe (if (t =? GGUF_VALUE_UINT32) || (t =? GGUF_VALUE_INT32) then 4 else 8) pos Hp) as Hs.
  assert (0 <= (if (t =? GGUF_VALUE_UINT32) || (t =? GGUF_VALUE_INT32) then 4 else 8)) as Hw by (case_match; lia). specialize (Hs Hw).
  by destruct (uint_at m _ pos) as [[v|]| | | |].
Qed.

Lemma string_safe k : safe (λ _, True) (model_get_string m k).
Proof using Hbytes Hlimit Hkv.
  apply typed_read_safe; [done|]. intros t pos Hp. pose proof (string_good _ _ Hbytes Hlimit pos Hp) as Hg.
  by destruct (cursor_string (map_ m) (size m) pos) as [[s p]| | | |].
Qed.

Lemma array_safe k : safe (λ r, ∀ a, r = Some a → 0 <= data_pos a) (model_get_array m k).
Proof using Hbytes Hlimit Hkv.
  apply typed_read_safe; [done|]. intros t pos Hp. apply safe_quiet.
  eapply safe_bind; [apply good_safe, (uint_good _ _ Hbytes Hlimit 4); lia|]. intros [ty p] (Hp1 & Hl1 & _). cbn [fst snd] in *. subst p.
  eapply safe_bind; [apply good_safe, (uint_good _ _ Hbytes Hlimit 8); lia|]. intros [n p] (Hp2 & Hl2 & _). cbn [fst snd] in *. subst p. cbn. lia.
Qed.

Lemma load_strings_safe fuel : ∀ pos i n t, 0 <= pos → safe (λ _, True) (load_strings (map_ m) (size m) fuel pos i n t).
Proof using Hbytes Hlimit.
  induction fuel as [|fuel IH]; intros pos i n t Hp; cbn [load_strings]; destruct (n <=? i); try done.
  eapply safe_bind; [by apply good_safe, (string_good _ _ Hbytes Hlimit)|]. intros [s p] [Hb _]. cbn [snd] in Hb.
  eapply safe_bind; [apply safe_ended|]. intros t' _. eapply safe_bind; [apply IH; lia|]. by intros [l t2] _.
Qed.

Lemma load_literals_safe tokens : ∀ pos i u, 0 <= pos → safe (λ _, True) (load_literals (map_ m) (size m) tokens pos i u).
Proof using Hbytes Hlimit.
  induction tokens as [|s tokens IH]; intros pos i u Hp; [done|]. cbn [load_literals].
  pose proof (uint_good _ _ Hbytes Hlimit 4 pos Hp ltac:(lia)) as Hg. unfold cursor_u32.
  destruct (cursor_uint (map_ m) (size m) 4 pos) as [[ty p]| | | |]; try done. destruct Hg as (Hp' & _). cbn [snd] in Hp'.
  destruct (negb _); [apply IH; lia|]. destruct (blen s =? 0); [apply IH; lia|].
  eapply safe_bind; [apply safe_ended|]. intros t' _. apply IH. lia.
Qed.

Lemma family_ids_safe f get : (∀ s, safe (λ _, True) (get s)) → safe (λ _, True) (family_ids (model_get_token_id m) get f).
Proof using Hbytes Hlimit Hkv.
  intros Hg.
  assert (∀ s, safe (λ _, True) (vocab_lookup get s)) as Hl by (intros s; unfold vocab_lookup; eapply safe_bind; [apply Hg|]; by intros [t|] _).
  assert (∀ s, safe (λ _, True) (vocab_lookup_optional get s)) as Ho by (intros s; unfold vocab_lookup_optional; eapply safe_bind; [apply Hg|]; by intros [t|] _).
  assert (∀ k look, safe (λ _, True) look → safe (λ _, True) (declared (model_get_token_id m) k look)) as Hd.
  { intros k look Hk. unfold declared. eapply safe_bind; [apply token_id_safe|]. by intros [t|] _. }
  destruct f; cbn [family_ids]; unfold glm53_ids, gemma4_ids, motif3_ids, dots3_ids, qwen35_ids, qwen4exp_ids, solar_ids, exaone_ids, deepseek4_ids;
    repeat (eapply safe_bind; [(apply Hd; first [apply Hl|apply Ho]) || apply Hl || apply Ho|intros ? _]); try done.
  by destruct (_ || _).
Qed.

Lemma vocab_load_safe f : safe (λ _, True) (vocab_load f m).
Proof using Hbytes Hlimit Hkv.
  unfold vocab_load. eapply safe_bind; [apply string_safe|]. intros pre _. destruct (bool_decide _); [done|].
  assert (∀ a n b, (∀ a', a = Some a' → 0 <= data_pos a') → string_array a n = Some b → 0 <= data_pos b) as Harr.
  { intros [a|] n b Ha; [|done]. cbn. destruct (_ && _); [|done]. intros [= <-]. by apply Ha. }
  eapply safe_bind; [apply array_safe|]. intros ts Hts. destruct (string_array ts _) as [ts'|] eqn:E1; [|done].
  eapply safe_bind; [apply array_safe|]. intros ms Hms. destruct (string_array ms _) as [ms'|] eqn:E2; [|done]. cbv zeta.
  eapply safe_bind; [apply safe_ended|]. intros t _. eapply safe_bind; [apply load_strings_safe; by apply (Harr ts _ ts' Hts E1)|]. intros [tokens t1] _.
  eapply safe_bind; [apply safe_ended|]. intros t2 _. eapply safe_bind; [apply array_safe|]. intros types Hty.
  eapply safe_bind; [instantiate (1 := λ _, True)|intros u _].
  { destruct types as [ty|]; [|done]. destruct (_ =? _); [|done]. apply load_literals_safe. by apply Hty. }
  eapply safe_bind; [apply safe_ended|]. intros t3 _. eapply safe_bind; [apply load_strings_safe; by apply (Harr ms _ ms' Hms E2)|]. intros [mer t4] _.
  eapply safe_bind; [apply family_ids_safe; intros s; apply safe_ended|]. by intros ids _.
Qed.
End vocab.

(** * The vocabulary of a model file: the theorems (ds4.c)

    No read of a model file leaves its mapping; what vocab_load reads of the metadata is
    the vocabulary that a host would have installed; and the markers that some families never set. *)

(** ** Any bytes *)

(** C17: Whatever the bytes of a model file (or of a shard of one) and whatever memory
    there is, opening it ends without a read outside the file: with an error message,
    or with tables in which every metadata value lies whole inside the file and every
    tensor has between one and eight dimensions whose product, kept in 64 bits, is its
    number of elements, an absolute offset of at most 2^64 - 1 and, unless it is
    without a size, bytes that end inside the file; the largest byte count is at least
    every tensor's.  A tensor is without a size, its byte count 0 and its offset not
    compared with the end of the file, only if it has no elements, its type is not in
    the engine's table or its blocks take more than 2^64 - 1 bytes.  Loading the
    vocabulary of any family from such a file reads nothing outside it either. *)
Theorem gguf_tables_inside base limit calloc :
  bytes_ok base → 0 <= limit <= blen base →
  good (λ m, model_inside base limit m ∧ ∀ f, safe (λ _, True) (vocab_load f m)) (model_parse_shard base limit calloc).
Proof.
  intros Hb Hl. eapply good_weaken; [by apply shard_good|]. intros m Hm. split; [exact Hm|]. intros f.
  destruct Hm as [(Hs & Hmap & Hkv & _) _]. rewrite <- Hs, <- Hmap in *. by apply vocab_load_safe.
Qed.

(** A header that promises a million entries. *)
Example gguf_tables_inside_witness :
  let file := Le.put32 DS4_GGUF_MAGIC ++ Le.put32 3 ++ Le.put64 0 ++ Le.put64 1000000 ++ bs "short" in
  bytes_ok file ∧ good (λ m, model_inside file (blen file) m ∧ ∀ f, safe (λ _, True) (vocab_load f m)) (model_parse_shard file (blen file) (λ _ _, true)).
Proof.
  intros file. assert (bytes_ok file) as Hb by (by apply bytes_okb_ok). split; [exact Hb|].
  apply gguf_tables_inside; [exact Hb|]. split; [by apply Z.leb_le|lia].
Defined.

(** ** The same vocabulary from a host *)

(** The literal tokens among tokens with the given types: spelling and id. *)
Fixpoint literals_of (toks : list (list Z)) (tys : list Z) (i : Z) : list (list Z * Z) :=
  match toks, tys with
  | s :: toks, ty :: tys =>
      (if (ty =? GGML_TOKEN_TYPE_USER_DEFINED) && negb (blen s =? 0) then [(s, i)] else []) ++ literals_of toks tys (i + 1)
  | _, _ => []
  end.

Definition longer (n : Z) (e : list Z * Z) : Z := if n <? blen (fst e) then u32 (blen (fst e)) else n.
Definition first_byte (l : list bool) (e : list Z * Z) : list bool := <[Z.to_nat (znth 0 (fst e) 0) := true]> l.

Definition host_of (f : family) (toks mer : list (list Z)) (tys : list Z) (ids : chat_ids) : ds4_host_vocab :=
  let lits := literals_of toks tys 0 in
  HostVocab toks mer (map snd lits) (foldl longer 0 lits) (foldl first_byte (replicate 256 false) lits) (motif_first f toks) ids.

(** The pre-tokenizer the metadata declares. *)
Definition declared_pre (kvs : list (list Z * gvalue)) : option (list Z) := first_value (bs "tokenizer.ggml.pre") kvs ≫= as_string.

(** Metadata with this vocabulary; without types every token is an ordinary one. *)
Record vocabulary_of (kvs : list (list Z * gvalue)) (toks mer : list (list Z)) (tys : list Z) : Prop := {
  vo_tokens : first_value (bs "tokenizer.ggml.tokens") kvs = Some (GArray GGUF_VALUE_STRING (map GString toks));
  vo_merges : first_value (bs "tokenizer.ggml.merges") kvs = Some (GArray GGUF_VALUE_STRING (map GString mer));
  vo_types : (first_value (bs "tokenizer.ggml.token_type") kvs =
                Some (GArray GGUF_VALUE_INT32 (map (λ ty, GScalar GGUF_VALUE_INT32 (Le.put32 ty)) tys)) ∧ Forall (fits 32) tys) ∨
             (first_value (bs "tokenizer.ggml.token_type") kvs = None ∧ tys = replicate (length toks) 1);
  vo_length : length tys = length toks;
  vo_bounds : blen toks <= INT_MAX ∧ blen mer <= 2 ^ 31;
  vo_literals : blen (literals_of toks tys 0) < 256 }.

(** ** The loops *)

Section loops.
Context (base : list Z) (limit : Z).
Context (Hlimit : 0 <= limit <= blen base).

Lemma strings_loaded l : ∀ fuel pos i n r t t', Forall (λ s, fits 64 (blen s)) l → 0 <= i → n = i + blen l → n <= 2 ^ 31 →
  has_at base limit pos (concat (map encode (map GString l)) ++ r) → (length l <= fuel)%nat →
  put_all t (zip l (seqZ i (blen l))) = Some t' →
  load_strings base limit fuel pos i n t = Ok (l, t').
Proof using Hlimit.
  induction l as [|s l IH]; intros fuel pos i n r t t' Hs Hi Hn Hb Hat Hf Hput.
  { change (blen (@nil (list Z))) with 0 in Hn. cbn in Hput. injection Hput as ->. destruct fuel; cbn [load_strings]; by rewrite (proj2 (Z.leb_le n i)) by lia. }
  destruct fuel as [|fuel]; [simpl in Hf; lia|]. cbn [load_strings]. rewrite blen_cons in Hn. pose proof (blen_nonneg l).
  rewrite (proj2 (Z.leb_gt n i)) by lia. apply Forall_cons in Hs as [Hs Hl].
  cbn [map concat encode] in Hat. rewrite <- app_assoc in Hat.
  destruct (at_string _ _ Hlimit pos s _ Hs Hat) as [-> Hat2]. cbn [mbind outcome_bind].
  rewrite blen_cons, seqZ_cons in Hput by lia. cbn [zip zip_with put_all] in Hput.
  assert (i32 i = i) as -> by (apply i32_id; lia).
  destruct (table_put t s i) as [t1|]; [|done]. cbn [mbind option_bind] in Hput. cbn [ended mbind outcome_bind].
  replace (Z.pred (1 + blen l)) with (blen l) in Hput by lia.
  rewrite (IH fuel _ (i + 1) n r t1 t'); [done|done|lia|lia|done|exact Hat2|simpl in Hf; lia|exact Hput].
Qed.

Lemma literals_loaded toks : ∀ tys pos i r u t', length tys = length toks → Forall (fits 32) tys →
  has_at base limit pos (concat (map Le.put32 tys) ++ r) →
  put_all (l_table u) (literals_of toks tys i) = Some t' →
  load_literals base limit toks pos i u =
    Ok (Literals t' (foldl longer (l_max u) (literals_of toks tys i)) (foldl first_byte (l_first u) (literals_of toks tys i))).
Proof using Hlimit.
  induction toks as [|s toks IH]; intros [|ty tys] pos i r u t' Hlen Hf Hat Hput; try done.
  { cbn in Hput. injection Hput as <-. by destruct u. }
  apply Forall_cons in Hf as [Hty Hf]. cbn [map concat] in Hat. rewrite <- app_assoc in Hat. cbn [load_literals literals_of] in *.
  destruct (at_u32 _ _ Hlimit pos ty _ Hty Hat) as [-> Hat2].
  destruct (ty =? GGML_TOKEN_TYPE_USER_DEFINED); cbn [negb andb app] in *; [|apply (IH tys _ (i + 1) r); [by injection Hlen|done..]].
  destruct (blen s =? 0); cbn [negb andb app] in *; [apply (IH tys _ (i + 1) r); [by injection Hlen|done..]|]. cbn [put_all] in Hput.
  destruct (table_put (l_table u) s i) as [t1|]; [|done]. cbn [mbind option_bind] in Hput. cbn [ended mbind outcome_bind].
  rewrite (IH tys _ (i + 1) r (add_literal u t1 s) t'); [done|by injection Hlen|done|exact Hat2|exact Hput].
Qed.
End loops.

(** The table of literals takes 255 of them. *)
Lemma literal_table l : blen l < 256 → ∃ t0 t, table_init 64 = Some t0 ∧ put_all t0 l = Some t ∧ ∀ k, table_get t k = Some (map_of l !! k).
Proof.
  intros Hl. destruct (table_reads_as_map 64) as (t0 & H0 & Hcap & (k & Hk & Hc) & Hall); [lia|]. exists t0.
  destruct (Hall l) as (t & Ht & Hget); [|by exists t]. rewrite Hc in *. assert (7 < k) by (apply (Z.pow_lt_mono_r_iff 2); lia).
  assert (2 ^ 8 <= 2 ^ k) by (apply Z.pow_le_mono_r; lia). lia.
Qed.

Lemma literals_elem toks : ∀ tys i e, e ∈ literals_of toks tys i →
  i <= snd e < i + blen toks ∧ toks !! Z.to_nat (snd e - i) = Some (fst e) ∧ blen (fst e) ≠ 0.
Proof.
  induction toks as [|s toks IH]; intros [|ty tys] i e He; try by apply elem_of_nil in He. cbn [literals_of] in He. rewrite blen_cons.
  pose proof (blen_nonneg toks). apply elem_of_app in He as [He|He].
  - destruct (_ && _) eqn:E; [|by apply elem_of_nil in He]. apply list_elem_of_singleton in He as ->. cbn [fst snd]. rewrite Z.sub_diag.
    split; [lia|]. split; [done|]. apply andb_true_iff in E as [_ E]. lia.
  - destruct (IH tys (i + 1) e He) as (H1 & H2 & H3). split; [lia|]. split; [|done].
    by replace (Z.to_nat (snd e - i)) with (S (Z.to_nat (snd e - (i + 1)))) by lia.
Qed.

Lemma literal_ids toks tys : map (λ id, (znth [] toks id, id)) (map snd (literals_of toks tys 0)) = literals_of toks tys 0.
Proof.
  rewrite map_map. rewrite <- (map_id (literals_of toks tys 0)) at 2. apply map_ext_in. intros [s i] Hin%list_elem_of_In.
  destruct (literals_elem _ _ _ _ Hin) as (_ & Hs & _). cbn in *. rewrite Z.sub_0_r in Hs. by rewrite (znth_lookup _ _ _ _ Hs).
Qed.

Lemma strings_len l : blen l <= blen (concat (map encode (map GString l))).
Proof.
  induction l as [|s l IH]; [done|]. cbn [map concat encode]. unfold str. rewrite blen_app, blen_app, blen_cons.
  change (blen (Le.put64 (blen s))) with 8. pose proof (blen_nonneg s). lia.
Qed.

(** The id the metadata declares under a key. *)
Definition declared_id (kvs : list (list Z * gvalue)) (k : list Z) : outcome (option Z) :=
  Ok (first_value k kvs ≫= as_scalar
    (λ t, (t =? GGUF_VALUE_UINT32) || (t =? GGUF_VALUE_INT32) || (t =? GGUF_VALUE_UINT64) || (t =? GGUF_VALUE_INT64)) token_id_of).
(** The last token of a spelling. *)
Definition id_of (toks : list (list Z)) (s : list Z) : outcome (option Z) := Ok (map_of (indexed toks) !! s).

(** Which ids a family gets depends on what the lookups answer only. *)
Lemma family_ids_agree f tid tid' get get' : (∀ k, tid k = tid' k) → (∀ s, get s = get' s) → family_ids tid get f = family_ids tid' get' f.
Proof.
  intros Ht He. destruct f; cbn [family_ids]; unfold glm53_ids, gemma4_ids, motif3_ids, dots3_ids, qwen35_ids, qwen4exp_ids, solar_ids,
    exaone_ids, deepseek4_ids, declared, vocab_lookup, vocab_lookup_optional; rewrite ?Ht, ?He; done.
Qed.

Section load.
Context (f : family) (m : ds4_model) (kvs : list (list Z * gvalue)) (toks mer : list (list Z)) (tys : list Z).
Context (Hr : reads_metadata m kvs) (Hlimit : 0 <= size m <= blen (map_ m)).
Context (Hv : vocabulary_of kvs toks mer tys).

(** An array of strings fills a table. *)
Lemma string_table k l : first_value k kvs = Some (GArray GGUF_VALUE_STRING (map GString l)) → blen l <= 2 ^ 31 →
  ∃ p t0 t, model_get_array m k = Ok (Some (ArrayRef GGUF_VALUE_STRING (blen l) p)) ∧ table_init (blen l) = Some t0 ∧
    load_strings (map_ m) (size m) (S (length (map_ m))) p 0 (blen l) t0 = Ok (l, t) ∧ ∀ s, table_get t s = Some (map_of (indexed l) !! s).
Proof using Hr Hlimit.
  intros Hk Hl. pose proof (rm_array _ _ Hr k) as Ha. rewrite Hk in Ha. destruct Ha as (p & r & Hget & Hat & Hitems).
  unfold blen in Hget at 1. rewrite length_map in Hget. fold (blen l) in Hget. pose proof (blen_nonneg l).
  destruct (filled_table_reads (blen l) (indexed l)) as (t0 & t & H0 & Hput & Hm); [lia|rewrite blen_indexed; lia|].
  exists p, t0, t. split; [exact Hget|]. split; [exact H0|]. split; [|exact Hm].
  eapply (strings_loaded _ _ Hlimit l _ _ 0 _ r); [|lia|lia|lia|exact Hat| |exact Hput].
  - rewrite Forall_map in Hitems. eapply Forall_impl; [exact Hitems|]. by intros s [_ Hs].
  - destruct (at_app _ _ _ _ _ Hat) as [Ha _]. destruct (at_pos _ _ _ _ Ha). pose proof (strings_len l). unfold blen in *. lia.
Qed.

(** The literal tokens, as the host has them. *)
Lemma literals_read :
  let lits := literals_of toks tys 0 in
  ∃ t0 t types, table_init 64 = Some t0 ∧ (∀ s, table_get t s = Some (map_of lits !! s)) ∧
    model_get_array m (bs "tokenizer.ggml.token_type") = Ok types ∧
    (match types with
    | Some types => if a_len types =? blen toks then load_literals (map_ m) (size m) toks (data_pos types) 0 (Literals t0 0 (replicate 256 false))
                    else Ok (Literals t0 0 (replicate 256 false))
    | None => Ok (Literals t0 0 (replicate 256 false))
    end) = Ok (Literals t (foldl longer 0 lits) (foldl first_byte (replicate 256 false) lits)).
Proof using Hr Hlimit Hv.
  intros lits. destruct (literal_table lits (vo_literals _ _ _ _ Hv)) as (t0 & t & H0 & Hput & Hm). exists t0, t.
  pose proof (rm_array _ _ Hr (bs "tokenizer.ggml.token_type")) as Ha. destruct (vo_types _ _ _ _ Hv) as [[E Hf]|[E Hty]]; rewrite E in Ha.
  - destruct Ha as (p & r & -> & Hat & _). eexists. do 3 (split; [done|]). cbn [a_len data_pos].
    assert ((blen (map (λ ty, GScalar GGUF_VALUE_INT32 (Le.put32 ty)) tys) =? blen toks) = true) as ->.
    { unfold blen. rewrite length_map, (vo_length _ _ _ _ Hv). apply Z.eqb_refl. }
    rewrite map_map in Hat. apply (literals_loaded _ _ Hlimit toks tys p 0 r (Literals t0 0 (replicate 256 false)) t); [by apply (vo_length _ _ _ _ Hv)|done|exact Hat|exact Hput].
  - rewrite Ha. eexists. do 3 (split; [done|]). assert (lits = []) as El.
    { unfold lits. rewrite Hty. generalize 0. clear. induction toks as [|s l IH]; intros i; [done|]. cbn. apply IH. }
    rewrite El in *. cbn in Hput. by injection Hput as ->.
Qed.

Lemma vocab_refused : declared_pre kvs = Some (bs "qwen4exp") →
  vocab_load f m = Die (bs "Qwen4Exp NFC/Unicode tokenization requires a Rust host").
Proof using Hr. intros Hpre. unfold vocab_load. rewrite (rm_string _ _ Hr). cbn [mbind outcome_bind]. fold (declared_pre kvs). by rewrite Hpre. Qed.

Lemma vocab_loaded : declared_pre kvs ≠ Some (bs "qwen4exp") → ∃ v, (∀ ids, vocab_agree v (map_vocab (host_of f toks mer tys ids))) ∧
  vocab_load f m = (family_ids (declared_id kvs) (id_of toks) f ≫= λ ids, mret (v, ids)).
Proof using All.
  intros Hpre. destruct Hv as [Htok Hmer _ _ [Hb1 Hb2] _]. unfold vocab_load. rewrite (rm_string _ _ Hr). cbn [mbind outcome_bind].
  rewrite bool_decide_false by done.
  destruct (string_table _ toks Htok) as (p & t0 & t & -> & H0 & Hload & Hget); [lia|]. cbn [mbind outcome_bind].
  unfold string_array at 1. cbn [a_type a_len data_pos]. rewrite Z.eqb_refl, (proj2 (Z.leb_le (blen toks) _)) by lia. cbn [andb].
  destruct (string_table _ mer Hmer) as (q & u0 & u & -> & H1 & Hload2 & Hget2); [lia|]. cbn [mbind outcome_bind].
  unfold string_array. cbn [a_type a_len data_pos]. rewrite Z.eqb_refl, (proj2 (Z.leb_le (blen mer) _)) by lia. cbn [andb].
  cbv zeta. rewrite H0. cbn [ended mbind outcome_bind]. rewrite Hload. cbn [mbind outcome_bind].
  destruct literals_read as (w0 & w & types & H2 & Hget3 & Hty & Hlits). rewrite H2. cbn [ended mbind outcome_bind].
  rewrite Hty. cbn [mbind outcome_bind]. rewrite Hlits. cbn [mbind outcome_bind a_len data_pos]. rewrite H1. cbn [ended mbind outcome_bind].
  rewrite Hload2. cbn [mbind outcome_bind l_table l_max l_first].
  rewrite (family_ids_agree f _ (declared_id kvs) (table_lookup t) (id_of toks));
    [|intros k; apply (rm_token_id _ _ Hr)|intros s; unfold table_lookup; by rewrite Hget].
  eexists. split; [|done]. intros ids. split; try done; intros k; unfold dget, hashed, mapped, map_vocab, host_of;
    cbn [token_to_id merge_rank user_defined h_tokens h_merges h_user_defined default]; [by rewrite Hget|by rewrite Hget2|].
  by rewrite Hget3, literal_ids.
Qed.
End load.

Lemma host_of_ok f kvs toks mer tys ids : vocabulary_of kvs toks mer tys → blen (stop ids) <= 8 → host_ok (host_of f toks mer tys ids).
Proof.
  intros Hv Hs. destruct (vo_bounds _ _ _ _ Hv) as [Hb1 Hb2]. pose proof (vo_literals _ _ _ _ Hv) as Hl. split; cbn [h_tokens h_merges h_user_defined h_ids host_of].
  - unfold ds4_host_vocab_apply. cbn [h_tokens h_user_defined host_of]. apply List.forallb_forall. intros id Hid.
    apply in_map_iff in Hid as ([s i] & <- & Hin%list_elem_of_In). destruct (literals_elem _ _ _ _ Hin) as (H1 & H2 & H3). cbn [fst snd] in *.
    rewrite Z.sub_0_r in H2. rewrite (znth_lookup _ _ _ _ H2). lia.
  - lia.
  - lia.
  - unfold blen in *. rewrite length_map. lia.
  - done.
Qed.


(** *** A small file *)

Definition tiny_toks : list (list Z) := [bs "h"; bs "e"; bs "he"; bs "<think>"; bs "</think>"].
Definition tiny_kvs : list (list Z * gvalue) :=
  [(bs "tokenizer.ggml.tokens", GArray GGUF_VALUE_STRING (map GString tiny_toks));
   (bs "tokenizer.ggml.token_type", GArray GGUF_VALUE_INT32 (map (λ ty, GScalar GGUF_VALUE_INT32 (Le.put32 ty)) [1; 1; 1; 4; 4]));
   (bs "tokenizer.ggml.merges", GArray GGUF_VALUE_STRING (map GString [bs "h e"]));
   (bs "tokenizer.ggml.eos_token_id", GScalar GGUF_VALUE_UINT32 (Le.put32 1))].

Lemma tiny_file_ok : file_ok tiny_kvs [] [] (λ _ _, true).
Proof.
  split; [|constructor|apply bytes_okb_ok; vm_compute; reflexivity|apply Z.ltb_lt; vm_compute; reflexivity|reflexivity|reflexivity].
  assert (∀ l, fits 64 (blen l) → Forall (λ s, fits 64 (blen s)) l → value_ok max_depth (GArray GGUF_VALUE_STRING (map GString l))) as Hstr.
  { intros l Hl Hf. split; [by split|]. split; [unfold blen; by rewrite length_map|]. apply Forall_map. eapply Forall_impl; [exact Hf|]. by intros s Hs. }
  unfold tiny_kvs. repeat apply Forall_cons_2; [..|by apply Forall_nil_2]; (split; [by split|]; split; [by split|]); cbn [snd].
  - apply Hstr; [by split|]. repeat apply Forall_cons_2; [by split..|]. by apply Forall_nil_2.
  - split; [by split|]. split; [by split|]. repeat apply Forall_cons_2; [by split..|]. by apply Forall_nil_2.
  - apply Hstr; [by split|]. repeat apply Forall_cons_2; [by split..|]. by apply Forall_nil_2.
  - by split.
Qed.

Lemma tiny_vocabulary : vocabulary_of tiny_kvs tiny_toks [bs "h e"] [1; 1; 1; 4; 4].
Proof.
  split; [reflexivity|reflexivity| |reflexivity|by split|by apply Z.ltb_lt]. left. split; [reflexivity|].
  repeat apply Forall_cons_2; [by split..|]. by apply Forall_nil_2.
Qed.

Definition tiny_ids : chat_ids := match family_ids (declared_id tiny_kvs) (id_of tiny_toks) GLM53 with Ok ids => ids | _ => no_ids end.


(** ** Markers that stay zero

    vocab_load clears the vocabulary and then sets some of the ids to -1; the GLM branch
    leaves those of Motif's markers at zero, which is a token. *)
Lemma glm53_keeps_zeros token_id get ids : glm53_ids token_id get = Ok ids →
  start_of_turn_id ids = 0 ∧ end_of_turn_id ids = 0 ∧ tool_id ids = 0 ∧ reference_id ids = 0 ∧ plan_start_id ids = 0 ∧
  plan_end_id ids = 0 ∧ latent_start_id ids = 0 ∧ latent_pad_id ids = 0 ∧ latent_end_id ids = 0.
Proof.
  unfold glm53_ids. repeat match goal with |- context [?o ≫= _] => destruct o; cbn [mbind outcome_bind]; [|done..] end.
  intros [= <-]. done.
Qed.

Example unset_markers_become_token_0 :
  map (special_token_at GLM53 tiny_ids) [bs "<latent>"; bs "<|tool|>"; bs "<|plan|>"; bs "<|startofturn|>"; bs "<tool_call>"] =
  [Some (0, 8); Some (0, 8); Some (0, 8); Some (0, 15); None].
Proof. vm_compute. reflexivity. Qed.
