(* ===== verification/MsgJson.v ===== *)
(** * The messages of a request (ds4_server.c)

    The pull parsers of the messages that the OpenAI and Anthropic dialects send, with
    the strings they own: which are freed, and what an error path frees again. *)

From S2P Require Import Prelude Json Text ToolText Images ImageUse.

(** ** Owned strings and errors *)

(** A [char *] that the parser owns: NULL, allocated, or freed but not overwritten. *)
Inductive ptr := Null | Str (s : list Z) | Freed.

Definition release (o : ptr) : ptr := match o with Str _ => Freed | _ => o end.
Definition old_text (o : ptr) : list Z := match o with Str s => s | _ => [] end.
Definition given (o : ptr) : option (list Z) := match o with Str s => Some s | _ => None end.
(** free of all of them; false if one was freed before *)
Definition free_all (l : list ptr) : bool := forallb (fun o => match o with Freed => false | _ => true end) l.

(** What [err] says; [Invalid] when nothing was written to it. *)
Inductive refusal := Invalid | InvalidContent | UnsupportedBlock | NotBase64 | BadImage (e : image_error).

(** A step of a parser: the state and the place behind; the state at a failure; a string
    freed twice. *)
Inductive step (P S : Type) := Next (s : S) (p : P) | Fail (s : S) (e : refusal) | Twice.
Arguments Next {P S} _ _.
Arguments Fail {P S} _ _.
Arguments Twice {P S}.

(** The state of the caller. *)
Definition within {P S T} (g : S -> T) (r : step P S) : step P T :=
  match r with Next s p => Next (g s) p | Fail s e => Fail (g s) e | Twice => Twice end.

(** ** The loops over members and items *)

Section loops.
Context {S : Type}.
Abbreviation parser := (S -> list Z -> step (list Z) S).

(** while ( **p && **p != '}' ), and the test for the brace behind it *)
Fixpoint members (field : S -> list Z -> list Z -> step (list Z) S) (fuel : nat) (s : S) (p : list Z) : step (list Z) S :=
  match fuel with
  | O => Fail s Invalid
  | Datatypes.S fuel =>
      match p with
      | [] => Fail s Invalid
      | c :: r =>
          if c =? ch "}" then Next s r
          else match string_ p with
          | None => Fail s Invalid
          | Some (key, p) =>
              match ws p with
              | [] => Fail s Invalid
              | c :: p =>
                  if negb (c =? ch ":") then Fail s Invalid
                  else match field s key p with
                  | Next s p => members field fuel s (ws (comma (ws p)))
                  | o => o
                  end
              end
          end
      end
  end.

Definition object (field : S -> list Z -> list Z -> step (list Z) S) : parser := fun s p =>
  match ws p with
  | c :: r => if c =? ch "{" then members field (Datatypes.S (length r)) s (ws r) else Fail s Invalid
  | [] => Fail s Invalid
  end.

(** while ( **p && **p != ']' ), and the test for the bracket behind it *)
Fixpoint elements (item : parser) (fuel : nat) (s : S) (p : list Z) : step (list Z) S :=
  match fuel with
  | O => Fail s Invalid
  | Datatypes.S fuel =>
      match p with
      | [] => Fail s Invalid
      | c :: r =>
          if c =? ch "]" then Next s r
          else match item s p with
          | Next s p => elements item fuel s (ws (comma (ws p)))
          | o => o
          end
      end
  end.

Definition array (item : parser) : parser := fun s p =>
  match ws p with
  | c :: r => if c =? ch "[" then elements item (Datatypes.S (length r)) s (ws r) else Fail s Invalid
  | [] => Fail s Invalid
  end.

(** free of the old string, then the new one into the same place, which keeps the old
    address when there is no new one. *)
Definition assign (old : ptr) (put : ptr -> S) (r : option (list Z * list Z)) : step (list Z) S :=
  match r with
  | Some (v, p) => Next (put (Str v)) p
  | None => Fail (put (release old)) Invalid
  end.

(** The same with the place cleared in between. *)
Definition replace (put : option (list Z) -> S) (r : option (list Z * list Z)) : step (list Z) S :=
  match r with
  | Some (v, p) => Next (put (Some v)) p
  | None => Fail (put None) Invalid
  end.

Definition skipped (s : S) (p : list Z) : step (list Z) S :=
  match skip p with Some p => Next s p | None => Fail s Invalid end.
End loops.

(** ** Tool calls *)

(** A tool_call while it is read. *)
Record call_ptrs := CallPtrs { c_id : ptr; c_name : ptr; c_arguments : ptr }.

Definition function_field (tc : call_ptrs) (key p : list Z) : step (list Z) call_ptrs :=
  if streq key (bs "name") then assign (c_name tc) (fun v => CallPtrs (c_id tc) v (c_arguments tc)) (string_ p)
  else if streq key (bs "arguments") then
    assign (c_arguments tc) (fun v => CallPtrs (c_id tc) (c_name tc) v)
      (match ws p with
       | c :: _ => if c =? 34 then string_ (ws p) else raw_value (ws p)
       | [] => raw_value (ws p)
       end)
  else skipped tc p.

Definition parse_function_call : call_ptrs -> list Z -> step (list Z) call_ptrs := object function_field.

Definition call_field (tc : call_ptrs) (key p : list Z) : step (list Z) call_ptrs :=
  if streq key (bs "id") then assign (c_id tc) (fun v => CallPtrs v (c_name tc) (c_arguments tc)) (string_ p)
  else if streq key (bs "function") then parse_function_call tc p
  else skipped tc p.

(** One call of the array; a call without a name or arguments is dropped. *)
Definition push_call (calls : tool_calls) (tc : call_ptrs) : tool_calls :=
  match given (c_name tc), given (c_arguments tc) with
  | Some name, Some args => tool_calls_push calls (Call (given (c_id tc)) (Some name) (Some args))
  | _, _ => calls
  end.

Definition call_item (calls : tool_calls) (p : list Z) : step (list Z) tool_calls :=
  match object call_field (CallPtrs Null Null Null) p with
  | Next tc p => Next (push_call calls tc) p
  | Fail tc e => if free_all [c_id tc; c_name tc; c_arguments tc] then Fail calls e else Twice
  | Twice => Twice
  end.

Definition parse_tool_calls_value (calls : tool_calls) (p : list Z) : step (list Z) tool_calls :=
  match lit (ws p) (bs "null") with
  | Some p => Next calls p
  | None => array call_item calls (ws p)
  end.

(** ** Messages *)

Record chat_msg := ChatMsg {
  m_role : ptr; m_content : ptr; m_reasoning : ptr;
  m_tool_call_id : option (list Z); m_tool_call_ids : list (list Z);
  m_calls : tool_calls; m_parts : list chat_part }.

Definition no_msg : chat_msg := ChatMsg Null Null Null None [] no_calls [].

Definition with_role (m : chat_msg) (v : ptr) : chat_msg :=
  ChatMsg v (m_content m) (m_reasoning m) (m_tool_call_id m) (m_tool_call_ids m) (m_calls m) (m_parts m).
Definition with_content (m : chat_msg) (v : ptr) : chat_msg :=
  ChatMsg (m_role m) v (m_reasoning m) (m_tool_call_id m) (m_tool_call_ids m) (m_calls m) (m_parts m).
Definition with_reasoning (m : chat_msg) (v : ptr) : chat_msg :=
  ChatMsg (m_role m) (m_content m) v (m_tool_call_id m) (m_tool_call_ids m) (m_calls m) (m_parts m).
Definition with_calls (m : chat_msg) (v : tool_calls) : chat_msg :=
  ChatMsg (m_role m) (m_content m) (m_reasoning m) (m_tool_call_id m) (m_tool_call_ids m) v (m_parts m).
Definition with_parts (m : chat_msg) (v : list chat_part) : chat_msg :=
  ChatMsg (m_role m) (m_content m) (m_reasoning m) (m_tool_call_id m) (m_tool_call_ids m) (m_calls m) v.

Definition chat_msg_append_text_part (m : chat_msg) (text : list Z) : chat_msg :=
  with_content (with_parts m (m_parts m ++ [TextPart text])) (Str (old_text (m_content m) ++ text)).
Definition chat_msg_append_image_part (m : chat_msg) (index : Z) : chat_msg :=
  with_parts m (m_parts m ++ [ImagePart index]).

Definition chat_msg_add_tool_call_id (m : chat_msg) (id : option (list Z)) : chat_msg :=
  match id with
  | None | Some [] => m
  | Some id =>
      ChatMsg (m_role m) (m_content m) (m_reasoning m) (Some (default id (m_tool_call_id m)))
        (if bool_decide (id ∈ m_tool_call_ids m) then m_tool_call_ids m else m_tool_call_ids m ++ [id])
        (m_calls m) (m_parts m)
  end.

(** chat_msg_free, as far as strings may be freed twice *)
Definition chat_msg_free (m : chat_msg) : bool := free_all [m_role m; m_content m; m_reasoning m].

(** The defaults of a message that ends. *)
Definition or_else (o : ptr) (d : list Z) : ptr := match o with Null => Str d | _ => o end.
Definition finished (m : chat_msg) : chat_msg :=
  with_content (with_role m (or_else (m_role m) (bs "user"))) (or_else (m_content m) []).

(** A message under construction and the pictures of the request. *)
Record building := Building { b_msg : chat_msg; b_images : chat_images }.
Definition with_msg (b : building) (m : chat_msg) : building := Building m (b_images b).

(** ** The OpenAI dialect *)

Definition url_field (url : option (list Z)) (key p : list Z) : step (list Z) (option (list Z)) :=
  if streq key (bs "url") then replace id (string_ p) else skipped url p.

Definition parse_chat_image_url_value (p : list Z) : option (list Z * list Z) :=
  match ws p with
  | c :: r =>
      if c =? 34 then string_ (c :: r)
      else match object url_field None (c :: r) with
      | Next (Some url) p => Some (url, p)
      | _ => None
      end
  | [] => None
  end.

(** A content block. *)
Record block := Block { k_type : option (list Z); k_text : option (list Z); k_image_url : option (list Z) }.

Definition block_field (b : block) (key p : list Z) : step (list Z) block :=
  if streq key (bs "type") then replace (fun v => Block v (k_text b) (k_image_url b)) (string_ p)
  else if streq key (bs "text") then replace (fun v => Block (k_type b) v (k_image_url b)) (string_ p)
  else if streq key (bs "image_url") then
    replace (fun v => Block (k_type b) (k_text b) v) (parse_chat_image_url_value p)
  else skipped b p.

(** What a block adds to the message. *)
Definition add_block (s : building) (b : block) : building + refusal :=
  let of_type t (o : option (list Z)) := if bool_decide (k_type b = Some t) then o else None in
  match of_type (bs "text") (k_text b), of_type (bs "image_url") (k_image_url b) with
  | Some text, _ => inl (with_msg s (chat_msg_append_text_part (b_msg s) text))
  | None, Some url =>
      match chat_images_add_data_uri (b_images s) url with
      | inl (images, i) => inl (Building (chat_msg_append_image_part (b_msg s) i) images)
      | inr e => inr (BadImage e)
      end
  | None, None => inr UnsupportedBlock
  end.

Definition content_item (s : building) (p : list Z) : step (list Z) building :=
  match p with
  | c :: _ =>
      if c =? 34 then
        match string_ p with
        | Some (text, p) => Next (with_msg s (chat_msg_append_text_part (b_msg s) text)) p
        | None => Fail s Invalid
        end
      else match object block_field (Block None None None) p with
      | Next b p => match add_block s b with inl s => Next s p | inr e => Fail s e end
      | Fail _ e => Fail s e
      | Twice => Twice
      end
  | [] => Fail s Invalid
  end.

(** The label bad of parse_openai_message_content_mm. *)
Definition said (r : refusal) : refusal := match r with Invalid => InvalidContent | _ => r end.

Definition parse_openai_message_content_mm (s : building) (p : list Z) : step (list Z) building :=
  match ws p with
  | [] => Fail s InvalidContent
  | c :: _ =>
      if c =? 34 then
        match string_ (ws p) with
        | Some (v, p) => Next (with_msg s (with_content (b_msg s) (Str v))) p
        | None => Fail s Invalid
        end
      else match lit (ws p) (bs "null") with
      | Some p => Next (with_msg s (with_content (b_msg s) (Str []))) p
      | None =>
          match array content_item s (ws p) with
          | Next s p => Next (with_msg s (with_content (b_msg s) (or_else (m_content (b_msg s)) []))) p
          | Fail s e => Fail s (said e)
          | Twice => Twice
          end
      end
  end.

(** The loop variables of a message: got_content and the rest. *)
Record reading := Reading { r_got_content : bool; r_built : building }.
Definition r_msg (r : reading) : chat_msg := b_msg (r_built r).
Definition r_with (r : reading) (m : chat_msg) : reading := Reading (r_got_content r) (with_msg (r_built r) m).

Definition message_field (r : reading) (key p : list Z) : step (list Z) reading :=
  let m := r_msg r in
  if streq key (bs "role") then assign (m_role m) (fun v => r_with r (with_role m v)) (string_ p)
  else if streq key (bs "content") then
    if r_got_content r then Fail r Invalid
    else within (Reading true) (parse_openai_message_content_mm (with_msg (r_built r) (with_content m Null)) p)
  else if streq key (bs "reasoning_content") then
    assign (m_reasoning m) (fun v => r_with r (with_reasoning m v)) (content p)
  else if streq key (bs "tool_call_id") then
    match string_ p with
    | Some (id, p) => Next (r_with r (chat_msg_add_tool_call_id m (Some id))) p
    | None => Fail r Invalid
    end
  else if streq key (bs "tool_calls") then
    within (fun calls => r_with r (with_calls m calls)) (parse_tool_calls_value no_calls p)
  else skipped r p.

(** The messages read so far and the pictures. *)
Record chat := Chat { c_msgs : list chat_msg; c_images : chat_images }.

(** What becomes of a message, and what an error frees. *)
Definition end_message {S} (built : S -> building) (c : chat) (r : step (list Z) S) : step (list Z) chat :=
  match r with
  | Next r p => Next (Chat (c_msgs c ++ [finished (b_msg (built r))]) (b_images (built r))) p
  | Fail r e => if chat_msg_free (b_msg (built r)) then Fail (Chat (c_msgs c) (b_images (built r))) e else Twice
  | Twice => Twice
  end.

Definition message_item (c : chat) (p : list Z) : step (list Z) chat :=
  end_message r_built c (object message_field (Reading false (Building no_msg (c_images c))) p).

Definition parse_messages_mm (images : chat_images) : list Z -> step (list Z) chat := array message_item (Chat [] images).

(** ** The Anthropic dialect *)

Record source := Source { s_type : option (list Z); s_media_type : option (list Z); s_data : option (list Z) }.

Definition source_field (s : source) (key p : list Z) : step (list Z) source :=
  if streq key (bs "type") then replace (fun v => Source v (s_media_type s) (s_data s)) (string_ p)
  else if streq key (bs "media_type") then replace (fun v => Source (s_type s) v (s_data s)) (string_ p)
  else if streq key (bs "data") then replace (fun v => Source (s_type s) (s_media_type s) v) (string_ p)
  else skipped s p.

Definition parse_anthropic_image_source : source -> list Z -> step (list Z) source := object source_field.

(** The local strings of a content block. *)
Record ablock := ABlock {
  a_type : ptr; a_text : ptr; a_thinking : ptr; a_id : ptr; a_name : ptr; a_input : ptr; a_tool_result : ptr;
  a_source : source }.
Definition no_ablock : ablock := ABlock Null Null Null Null Null Null Null (Source None None None).
Definition ablock_ptrs (b : ablock) : list ptr :=
  [a_type b; a_text b; a_thinking b; a_id b; a_name b; a_input b; a_tool_result b].

Definition ablock_field (b : ablock) (key p : list Z) : step (list Z) ablock :=
  let 'ABlock ty tx th i n inp res src := b in
  if streq key (bs "type") then assign ty (fun v => ABlock v tx th i n inp res src) (string_ p)
  else if streq key (bs "text") then assign tx (fun v => ABlock ty v th i n inp res src) (content p)
  else if streq key (bs "thinking") then assign th (fun v => ABlock ty tx v i n inp res src) (content p)
  else if streq key (bs "id") || streq key (bs "tool_use_id") then assign i (fun v => ABlock ty tx th v n inp res src) (string_ p)
  else if streq key (bs "name") then assign n (fun v => ABlock ty tx th i v inp res src) (string_ p)
  else if streq key (bs "input") then assign inp (fun v => ABlock ty tx th i n v res src) (raw_value p)
  else if streq key (bs "content") then assign res (fun v => ABlock ty tx th i n inp v src) (content p)
  else if streq key (bs "source") then within (ABlock ty tx th i n inp res) (parse_anthropic_image_source src p)
  else skipped b p.

(** What a block adds to the message, by its own type. *)
Definition add_ablock (s : building) (b : ablock) : building + refusal :=
  let m := b_msg s in
  let typed t := bool_decide (given (a_type b) = Some t) in
  if typed (bs "image") then
    match s_media_type (a_source b), s_data (a_source b) with
    | Some mime, Some data =>
        if bool_decide (s_type (a_source b) = Some (bs "base64")) then
          match chat_images_add_base64 (b_images s) mime data with
          | inl (images, i) => inl (Building (chat_msg_append_image_part m i) images)
          | inr e => inr (BadImage e)
          end
        else inr NotBase64
    | _, _ => inr NotBase64
    end
  else if typed (bs "tool_use") then
    inl (with_msg s (with_calls m (tool_calls_push (m_calls m)
      (Call (given (a_id b)) (Some (default [] (given (a_name b)))) (Some (default (bs "{}") (given (a_input b))))))))
  else if typed (bs "tool_result") then
    let m := chat_msg_add_tool_call_id m (given (a_id b)) in
    inl (with_msg s (with_content m (Str (old_text (m_content m) ++ bs "<tool_result>" ++
      append_tool_result_text (given (a_tool_result b)) ++ bs "</tool_result>"))))
  else
    let m := match given (a_text b) with Some text => chat_msg_append_text_part m text | None => m end in
    inl (with_msg s (match given (a_thinking b) with
      | Some thinking => with_reasoning m (Str (old_text (m_reasoning m) ++ thinking))
      | None => m
      end)).

Definition parse_anthropic_content_block_mm (s : building) (p : list Z) : step (list Z) building :=
  match object ablock_field no_ablock p with
  | Next b p => match add_ablock s b with inl s => Next s p | inr e => Fail s e end
  | Fail b e => if free_all (ablock_ptrs b) then Fail s e else Twice
  | Twice => Twice
  end.

Definition acontent_item (s : building) (p : list Z) : step (list Z) building :=
  match p with
  | c :: _ =>
      if c =? 34 then
        match string_ p with
        | Some (text, p) => Next (with_msg s (chat_msg_append_text_part (b_msg s) text)) p
        | None => Fail s Invalid
        end
      else if c =? ch "{" then parse_anthropic_content_block_mm s p
      else skipped s p
  | [] => Fail s Invalid
  end.

Definition parse_anthropic_content_mm (s : building) (p : list Z) : step (list Z) building :=
  match ws p with
  | [] => skipped s []
  | c :: _ =>
      if c =? 34 then
        match string_ (ws p) with
        | Some (v, p) => Next (with_msg s (with_content (b_msg s) (Str v))) p
        | None => Fail s Invalid
        end
      else match lit (ws p) (bs "null") with
      | Some p => Next (with_msg s (with_content (b_msg s) (Str []))) p
      | None =>
          if negb (c =? ch "[") then skipped s (ws p)
          else match array acontent_item s (ws p) with
          | Next s p => Next (with_msg s (with_content (b_msg s) (or_else (m_content (b_msg s)) []))) p
          | o => o
          end
      end
  end.

Definition amessage_field (s : building) (key p : list Z) : step (list Z) building :=
  let m := b_msg s in
  if streq key (bs "role") then assign (m_role m) (fun v => with_msg s (with_role m v)) (string_ p)
  else if streq key (bs "content") then parse_anthropic_content_mm (with_msg s (with_content m Null)) p
  else skipped s p.

Definition amessage_item (c : chat) (p : list Z) : step (list Z) chat :=
  end_message id c (object amessage_field (Building no_msg (c_images c)) p).

Definition parse_anthropic_messages_mm (images : chat_images) : list Z -> step (list Z) chat :=
  array amessage_item (Chat [] images).

(** *** The system prompt *)

Definition anthropic_system_part_is_private (s : list Z) : bool := starts_with s (bs "x-anthropic-").

(** The parts, a line each. *)
Definition append_anthropic_system_part (b s : list Z) : list Z :=
  if (blen s =? 0) || anthropic_system_part_is_private s then b
  else (if negb (blen b =? 0) && negb (znth 0 b (blen b - 1) =? 10) then b ++ [10] else b) ++ s.

Definition system_field (b : list Z) (key p : list Z) : step (list Z) (list Z) :=
  if streq key (bs "text") then
    match string_ p with
    | Some (text, p) => Next (append_anthropic_system_part b text) p
    | None => Fail b Invalid
    end
  else skipped b p.

Definition parse_anthropic_system_object : list Z -> list Z -> step (list Z) (list Z) := object system_field.

Definition system_item (b p : list Z) : step (list Z) (list Z) :=
  match p with
  | c :: _ =>
      if c =? 34 then
        match string_ p with
        | Some (text, p) => Next (append_anthropic_system_part b text) p
        | None => Fail b Invalid
        end
      else if c =? ch "{" then parse_anthropic_system_object b p
      else skipped b p
  | [] => Fail b Invalid
  end.

Definition parse_anthropic_system (p : list Z) : step (list Z) (list Z) :=
  match ws p with
  | [] => skipped [] []
  | c :: _ =>
      if c =? 34 then
        match string_ (ws p) with
        | Some (text, p) => Next (append_anthropic_system_part [] text) p
        | None => Fail [] Invalid
        end
      else match lit (ws p) (bs "null") with
      | Some p => Next [] p
      | None => if negb (c =? ch "[") then skipped [] (ws p) else array system_item [] (ws p)
      end
  end.

(** ** Tool choice *)

Inductive tool_choice_mode := TOOL_CHOICE_AUTO | TOOL_CHOICE_NONE | TOOL_CHOICE_REQUIRED.

(** The mode and the place behind, or the message. *)
Definition parse_openai_tool_choice_value (p : list Z) : tool_choice_mode * list Z + list Z :=
  match ws p with
  | c :: r =>
      if negb (c =? 34) then inr (if c =? ch "{" then bs "forced tool_choice not supported" else bs "invalid tool_choice")
      else match string_ (c :: r) with
      | None => inr []
      | Some (choice, p) =>
          if streq choice (bs "auto") then inl (TOOL_CHOICE_AUTO, p)
          else if streq choice (bs "none") then inl (TOOL_CHOICE_NONE, p)
          else if streq choice (bs "required") then inl (TOOL_CHOICE_REQUIRED, p)
          else inr (bs "tool_choice=" ++ choice ++ bs " not supported")
      end
  | [] => inr (bs "invalid tool_choice")
  end.

Definition choice_field (ty : option (list Z)) (key p : list Z) : step (list Z) (option (list Z)) :=
  if streq key (bs "type") then replace id (string_ p) else skipped ty p.

Definition parse_anthropic_tool_choice_value (p : list Z) : tool_choice_mode * list Z + list Z :=
  match object choice_field None p with
  | Next (Some ty) p =>
      if streq ty (bs "auto") then inl (TOOL_CHOICE_AUTO, p)
      else if streq ty (bs "none") then inl (TOOL_CHOICE_NONE, p)
      else if streq ty (bs "any") then inl (TOOL_CHOICE_REQUIRED, p)
      else if streq ty (bs "tool") then inr (bs "forced tool_choice not supported")
      else inr (bs "tool_choice type=" ++ ty ++ bs " not supported")
  | _ => inr (bs "invalid tool_choice")
  end.
