(* ===== verification/MsgRef.v ===== *)
(** * What the messages of a request mean (ds4_server.c)

    The same parsers on JSON values instead of bytes, and that they agree on every text
    of a value. *)

From S2P Require Import Prelude Json JsonText Text ToolText Images ImageUse MsgJson.

(** ** Steps without a position *)

Definition at_ {S} (rest : list Z) (r : step unit S) : step (list Z) S :=
  match r with Next s _ => Next s rest | Fail s e => Fail s e | Twice => Twice end.

Lemma at_within {S T} (g : S → T) rest r : within g (at_ rest r) = at_ rest (within g r).
Proof. by destruct r. Qed.

Fixpoint all_members {S} (f : S → list Z → json → step unit S) (s : S) (m : list (list Z * json)) : step unit S :=
  match m with
  | [] => Next s tt
  | (k, j) :: m => match f s k j with Next s _ => all_members f s m | o => o end
  end.
Definition object_of {S} (f : S → list Z → json → step unit S) (s : S) (j : json) : step unit S :=
  match j with JObj m => all_members f s m | _ => Fail s Invalid end.

Fixpoint all_elements {S} (f : S → json → step unit S) (s : S) (l : list json) : step unit S :=
  match l with
  | [] => Next s tt
  | j :: l => match f s j with Next s _ => all_elements f s l | o => o end
  end.
Definition array_of {S} (f : S → json → step unit S) (s : S) (j : json) : step unit S :=
  match j with JArr l => all_elements f s l | _ => Fail s Invalid end.

Definition str_of (j : json) : option (list Z) := match j with JStr s => Some s | _ => None end.
Definition is_null (j : json) : bool := match j with JLit LNull => true | _ => false end.

Definition assign_of {S} (old : ptr) (put : ptr → S) (v : option (list Z)) : step unit S :=
  match v with Some v => Next (put (Str v)) tt | None => Fail (put (release old)) Invalid end.
Definition replace_of {S} (put : option (list Z) → S) (v : option (list Z)) : step unit S :=
  match v with Some v => Next (put (Some v)) tt | None => Fail (put None) Invalid end.

Lemma assign_at {S} old (put : ptr → S) v rest : assign old put ((λ t, (t, rest)) <$> v) = at_ rest (assign_of old put v).
Proof. by destruct v. Qed.
Lemma replace_at {S} (put : option (list Z) → S) v rest : replace put ((λ t, (t, rest)) <$> v) = at_ rest (replace_of put v).
Proof. by destruct v. Qed.

(** ** Texts *)

Section texts.
Context (w : list Z) (Hw : forallb isspace w = true).

(** The values the parsers are compared on. *)
Definition fine (j : json) : Prop := json_okb j = true ∧ depth j <= MAX_NESTING.

Lemma fine_elements l : fine (JArr l) → Forall fine l.
Proof.
  intros [Hok Hd]. cbn in Hok. apply forallb_Forall in Hok. apply List.Forall_forall. intros j Hin.
  rewrite List.Forall_forall in Hok. split; [by apply Hok|]. cbn [depth] in Hd.
  clear -Hd Hin. induction l as [|j' l IH]; [done|]. cbn [map foldr] in Hd. destruct Hin as [->|Hin]; [lia|apply IH; [lia|done]].
Qed.

Lemma fine_members m : fine (JObj m) → Forall (λ kv, cstring kv.1 ∧ fine kv.2) m.
Proof.
  intros [Hok Hd]. cbn in Hok. apply forallb_Forall in Hok. apply List.Forall_forall. intros kv Hin.
  rewrite List.Forall_forall in Hok. specialize (Hok kv Hin). apply andb_true_iff in Hok as [Hk%cstringb_ok Hok]. split; [done|].
  split; [done|]. cbn [depth] in Hd. clear -Hd Hin. induction m as [|kv' m IH]; [done|]. cbn [map foldr] in Hd.
  destruct Hin as [->|Hin]; [lia|apply IH; [lia|done]].
Qed.

(** A parser and its meaning: on the text of a value behind white space; on the text
    itself; as the handler of a member. *)
Definition reads {S} (f : S → list Z → step (list Z) S) (g : S → json → step unit S) : Prop :=
  ∀ pad s j q, forallb isspace pad = true → fine j → delimited q = true → f s (pad ++ text w j ++ q) = at_ q (g s j).
Definition reads_item {S} (f : S → list Z → step (list Z) S) (g : S → json → step unit S) : Prop :=
  ∀ s j q, fine j → delimited q = true → f s (text w j ++ q) = at_ q (g s j).
Definition reads_field {S} (f : S → list Z → list Z → step (list Z) S) (g : S → list Z → json → step unit S) : Prop :=
  ∀ k, reads (λ s, f s k) (λ s, g s k).

Lemma reads_is_item {S} (f : S → list Z → step (list Z) S) g : reads f g → reads_item f g.
Proof. intros H s j q. apply (H [] s j q). done. Qed.

(** The first byte tells what a value is. *)
Lemma text_first j q : fine j → delimited q = true → ∃ c r, text w j ++ q = c :: r ∧
  (c =? 34) = match j with JStr _ => true | _ => false end ∧ (c =? ch "{") = match j with JObj _ => true | _ => false end ∧
  (c =? ch "[") = match j with JArr _ => true | _ => false end ∧ (c =? ch "]") = false ∧ isspace c = false ∧
  lit (c :: r) (bs "null") = if is_null j then Some q else None.
Proof.
  intros [Hok _] Hq. destruct j as [[]|n|s|l|m]; cbn [text].
  - eexists _, _. split; [reflexivity|]. done.
  - eexists _, _. split; [reflexivity|]. done.
  - eexists _, _. split; [reflexivity|]. done.
  - cbn in Hok. unfold numeral_okb in Hok. apply andb_true_iff in Hok as [[Hi _]%andb_true_iff _].
    destruct (digitsb_eq _ Hi) as (_ & c & r & Hcr & Hc). unfold numeral_text. rewrite Hcr. change (bs "null") with (ch "n" :: bs "ull").
    destruct (n_neg n); cbn [app]; eexists _, _; (split; [reflexivity|]); [done|].
    rewrite lit_head by clia. cbn [is_null]. clear - Hc. repeat split; clia.
  - eexists _, _. split; [reflexivity|]. done.
  - eexists _, _. split; [reflexivity|]. done.
  - eexists _, _. split; [reflexivity|]. done.
Qed.

Lemma string_text pad j q : forallb isspace pad = true → fine j → string_ (pad ++ text w j ++ q) = (λ t, (t, q)) <$> str_of j.
Proof using Hw.
  intros Hp [Hok _]. rewrite <- string_ws, ws_app, string_ws by done.
  destruct j as [l|n|s|l|m]; try (rewrite (string_not_json w Hw) by done; done).
  cbn [text str_of]. by rewrite string_escape by (by apply cstringb_ok).
Qed.

Lemma skip_text_item pad j q : forallb isspace pad = true → fine j → delimited q = true → skip (pad ++ text w j ++ q) = Some q.
Proof using Hw. intros Hp [Hok Hd] Hq. rewrite skip_at, <- value_at_ws, ws_app, value_at_ws, <- skip_at by done. by apply skip_item. Qed.

Lemma reads_skip {S} (s : S) pad j q : forallb isspace pad = true → fine j → delimited q = true →
  skipped s (pad ++ text w j ++ q) = at_ q (Next s tt).
Proof using Hw. intros. unfold skipped. by rewrite skip_text_item. Qed.

Lemma members_read {S} (f : S → list Z → list Z → step (list Z) S) g m q : reads_field f g → Forall (λ kv, cstring kv.1 ∧ fine kv.2) m →
  ∀ fuel s, (length (join w (map (member_item w) m) ++ ch "}" :: q) < fuel)%nat →
  members f fuel s (join w (map (member_item w) m) ++ ch "}" :: q) = at_ q (all_members g s m).
Proof using Hw.
  intros Hf. induction 1 as [|[k j] m [Hk Hj] Hm IH]; intros fuel s Hfu; (destruct fuel as [|fuel]; [lia|]); [done|].
  cbn [fst snd map] in *.
  destruct (join_split w Hw (member_item w (k, j)) (map (member_item w) m) (ch "}") q) as (t & Ht & Hdt & Hnext); [done..|].
  rewrite Ht in *. set (tail := join w (map (member_item w) m) ++ ch "}" :: q) in *.
  assert (ws tail = tail) as Hws by (unfold tail; by destruct m as [|kv [|kv' m]]). rewrite Hws in Hnext.
  pose proof (shorter w (member_item w (k, j)) t ltac:(done)) as Hlen. rewrite Hnext in Hlen.
  unfold member_item in Hlen, Hfu |- *. cbn [fst snd] in *. cbn [members all_members].
  assert (∃ r, (escape k ++ w ++ ch ":" :: w ++ text w j) ++ w ++ t = 34 :: r) as [r Hr] by (eexists; reflexivity).
  rewrite Hr. change (34 =? ch "}") with false. cbv iota. rewrite <- Hr.
  rewrite <- (app_assoc (escape k)), string_escape by done. rewrite <- app_assoc. cbn [app]. rewrite (ws_item w Hw) by done.
  change (negb (ch ":" =? ch ":")) with false. cbv iota. rewrite <- app_assoc, (Hf k w s j (w ++ t)) by done.
  destruct (g s k j) as [s' []|s' e|]; cbn [at_]; [|done..]. rewrite Hnext. apply IH. lia.
Qed.

Lemma object_reads {S} (f : S → list Z → list Z → step (list Z) S) g : reads_field f g → reads (object f) (object_of g).
Proof using Hw.
  intros Hf pad s j q Hp Hj Hq. unfold object. rewrite ws_app, ws_text by (done || apply Hj).
  destruct (text_first j q Hj Hq) as (c & r & E & _ & Hb & _). rewrite E, Hb. destruct j as [l|n|s'|l|m]; try done.
  cbn [text] in E. cbn [app] in E. injection E as <- <-. rewrite <- !app_assoc, ws_app by done.
  change (map _ m) with (map (member_item w) m). cbn [app].
  set (tail := join w (map (member_item w) m) ++ ch "}" :: q). assert (ws tail = tail) as -> by (unfold tail; by destruct m as [|kv [|kv' m]]).
  cbn [object_of]. apply members_read; [done|by apply fine_members|]. unfold tail. rewrite !length_app. cbn [length]. lia.
Qed.

Lemma elements_read {S} (f : S → list Z → step (list Z) S) g l q : reads_item f g → Forall fine l →
  ∀ fuel s, (length (join w (map (text w) l) ++ ch "]" :: q) < fuel)%nat →
  elements f fuel s (join w (map (text w) l) ++ ch "]" :: q) = at_ q (all_elements g s l).
Proof using Hw.
  intros Hf. induction 1 as [|j l Hj Hl IH]; intros fuel s Hfu; (destruct fuel as [|fuel]; [lia|]); [done|]. cbn [map] in *.
  destruct (join_split w Hw (text w j) (map (text w) l) (ch "]") q) as (t & Ht & Hdt & Hnext); [done..|]. rewrite Ht in *.
  assert (ws (join w (map (text w) l) ++ ch "]" :: q) = join w (map (text w) l) ++ ch "]" :: q) as Hws.
  { destruct Hl as [|j' l [Hok' _] Hl]; [done|]. cbn [map].
    destruct (join_split w Hw (text w j') (map (text w) l) (ch "]") q) as (t' & -> & _); [done..|]. by apply ws_text. }
  rewrite Hws in Hnext. pose proof (shorter w (text w j) t (text_ne w j (proj1 Hj))) as Hlen. rewrite Hnext in Hlen.
  cbn [elements all_elements]. destruct (text_first j (w ++ t) Hj Hdt) as (c & r & E & _ & _ & _ & Hc & _). rewrite E, Hc, <- E.
  rewrite (Hf s j (w ++ t)) by done. destruct (g s j) as [s' []|s' e|]; cbn [at_]; [|done..]. rewrite Hnext. apply IH. lia.
Qed.

Lemma array_reads {S} (f : S → list Z → step (list Z) S) g : reads_item f g → reads (array f) (array_of g).
Proof using Hw.
  intros Hf pad s j q Hp Hj Hq. unfold array. rewrite ws_app, ws_text by (done || apply Hj).
  destruct (text_first j q Hj Hq) as (c & r & E & _ & _ & Hb & _). rewrite E, Hb. destruct j as [l|n|s'|l|m]; try done.
  cbn [text] in E. cbn [app] in E. injection E as <- <-. rewrite <- !app_assoc, ws_app by done. cbn [app].
  assert (Forall fine l) as Hl by (by apply fine_elements).
  assert (ws (join w (map (text w) l) ++ ch "]" :: q) = join w (map (text w) l) ++ ch "]" :: q) as ->.
  { destruct Hl as [|j' l [Hok' _] Hl]; [done|]. cbn [map].
    destruct (join_split w Hw (text w j') (map (text w) l) (ch "]") q) as (t' & -> & _); [done..|]. by apply ws_text. }
  cbn [array_of]. apply elements_read; [done|done|]. rewrite !length_app. cbn [length]. lia.
Qed.
End texts.

(** * The messages of a request as JSON values (ds4_server.c)

    What each parser of MsgJson makes of a value, and that it makes the same of every
    text of that value. *)

(** ** The meaning of values

    [w] is the white space between the tokens, which the raw text of an argument
    keeps. *)

Section meaning.
Context (w : list Z).

Definition function_of (tc : call_ptrs) (k : list Z) (j : json) : step unit call_ptrs :=
  if streq k (bs "name") then assign_of (c_name tc) (λ v, CallPtrs (c_id tc) v (c_arguments tc)) (str_of j)
  else if streq k (bs "arguments") then
    assign_of (c_arguments tc) (λ v, CallPtrs (c_id tc) (c_name tc) v) (Some (match j with JStr s => s | _ => text w j end))
  else Next tc tt.

Definition call_of (tc : call_ptrs) (k : list Z) (j : json) : step unit call_ptrs :=
  if streq k (bs "id") then assign_of (c_id tc) (λ v, CallPtrs v (c_name tc) (c_arguments tc)) (str_of j)
  else if streq k (bs "function") then object_of function_of tc j
  else Next tc tt.

Definition end_call (calls : tool_calls) (r : step unit call_ptrs) : step unit tool_calls :=
  match r with
  | Next tc _ => Next (push_call calls tc) tt
  | Fail tc e => if free_all [c_id tc; c_name tc; c_arguments tc] then Fail calls e else Twice
  | Twice => Twice
  end.
Definition one_call (calls : tool_calls) (j : json) : step unit tool_calls :=
  end_call calls (object_of call_of (CallPtrs Null Null Null) j).

Definition tool_calls_of (calls : tool_calls) (j : json) : step unit tool_calls :=
  if is_null j then Next calls tt else array_of one_call calls j.

Definition url_of (u : option (list Z)) (k : list Z) (j : json) : step unit (option (list Z)) :=
  if streq k (bs "url") then replace_of id (str_of j) else Next u tt.
Definition image_url_of (j : json) : option (list Z) :=
  match j with
  | JStr s => Some s
  | _ => match object_of url_of None j with Next u _ => u | _ => None end
  end.

Definition block_of (b : block) (k : list Z) (j : json) : step unit block :=
  if streq k (bs "type") then replace_of (λ v, Block v (k_text b) (k_image_url b)) (str_of j)
  else if streq k (bs "text") then replace_of (λ v, Block (k_type b) v (k_image_url b)) (str_of j)
  else if streq k (bs "image_url") then replace_of (λ v, Block (k_type b) (k_text b) v) (image_url_of j)
  else Next b tt.

Definition added {S} (s : S) (r : S + refusal) : step unit S := match r with inl s => Next s tt | inr e => Fail s e end.

Definition part_of (s : building) (j : json) : step unit building :=
  match j with
  | JStr t => Next (with_msg s (chat_msg_append_text_part (b_msg s) t)) tt
  | _ => match object_of block_of (Block None None None) j with
         | Next b _ => added s (add_block s b)
         | Fail _ e => Fail s e
         | Twice => Twice
         end
  end.

Definition openai_content_of (s : building) (j : json) : step unit building :=
  match j with
  | JStr t => Next (with_msg s (with_content (b_msg s) (Str t))) tt
  | _ =>
      if is_null j then Next (with_msg s (with_content (b_msg s) (Str []))) tt
      else match array_of part_of s j with
      | Next s _ => Next (with_msg s (with_content (b_msg s) (or_else (m_content (b_msg s)) []))) tt
      | Fail s e => Fail s (said e)
      | Twice => Twice
      end
  end.

Definition message_of (r : reading) (k : list Z) (j : json) : step unit reading :=
  let m := r_msg r in
  if streq k (bs "role") then assign_of (m_role m) (λ v, r_with r (with_role m v)) (str_of j)
  else if streq k (bs "content") then
    if r_got_content r then Fail r Invalid
    else within (Reading true) (openai_content_of (with_msg (r_built r) (with_content m Null)) j)
  else if streq k (bs "reasoning_content") then
    assign_of (m_reasoning m) (λ v, r_with r (with_reasoning m v)) (content_text j)
  else if streq k (bs "tool_call_id") then
    match str_of j with Some id => Next (r_with r (chat_msg_add_tool_call_id m (Some id))) tt | None => Fail r Invalid end
  else if streq k (bs "tool_calls") then within (λ calls, r_with r (with_calls m calls)) (tool_calls_of no_calls j)
  else Next r tt.

Definition ended {S} (built : S → building) (c : chat) (r : step unit S) : step unit chat :=
  match r with
  | Next r _ => Next (Chat (c_msgs c ++ [finished (b_msg (built r))]) (b_images (built r))) tt
  | Fail r e => if chat_msg_free (b_msg (built r)) then Fail (Chat (c_msgs c) (b_images (built r))) e else Twice
  | Twice => Twice
  end.

Definition one_message (c : chat) (j : json) : step unit chat :=
  ended r_built c (object_of message_of (Reading false (Building no_msg (c_images c))) j).
Definition messages_of (images : chat_images) (j : json) : step unit chat := array_of one_message (Chat [] images) j.

(** *** Anthropic *)

Definition source_of (s : source) (k : list Z) (j : json) : step unit source :=
  if streq k (bs "type") then replace_of (λ v, Source v (s_media_type s) (s_data s)) (str_of j)
  else if streq k (bs "media_type") then replace_of (λ v, Source (s_type s) v (s_data s)) (str_of j)
  else if streq k (bs "data") then replace_of (λ v, Source (s_type s) (s_media_type s) v) (str_of j)
  else Next s tt.

Definition ablock_of (b : ablock) (k : list Z) (j : json) : step unit ablock :=
  let 'ABlock ty tx th i n inp res src := b in
  if streq k (bs "type") then assign_of ty (λ v, ABlock v tx th i n inp res src) (str_of j)
  else if streq k (bs "text") then assign_of tx (λ v, ABlock ty v th i n inp res src) (content_text j)
  else if streq k (bs "thinking") then assign_of th (λ v, ABlock ty tx v i n inp res src) (content_text j)
  else if streq k (bs "id") || streq k (bs "tool_use_id") then assign_of i (λ v, ABlock ty tx th v n inp res src) (str_of j)
  else if streq k (bs "name") then assign_of n (λ v, ABlock ty tx th i v inp res src) (str_of j)
  else if streq k (bs "input") then assign_of inp (λ v, ABlock ty tx th i n v res src) (Some (text w j))
  else if streq k (bs "content") then assign_of res (λ v, ABlock ty tx th i n inp v src) (content_text j)
  else if streq k (bs "source") then within (ABlock ty tx th i n inp res) (object_of source_of src j)
  else Next b tt.

Definition ended_block (s : building) (r : step unit ablock) : step unit building :=
  match r with
  | Next b _ => added s (add_ablock s b)
  | Fail b e => if free_all (ablock_ptrs b) then Fail s e else Twice
  | Twice => Twice
  end.

Definition apart_of (s : building) (j : json) : step unit building :=
  match j with
  | JStr t => Next (with_msg s (chat_msg_append_text_part (b_msg s) t)) tt
  | JObj _ => ended_block s (object_of ablock_of no_ablock j)
  | _ => Next s tt
  end.

Definition anthropic_content_of (s : building) (j : json) : step unit building :=
  match j with
  | JStr t => Next (with_msg s (with_content (b_msg s) (Str t))) tt
  | JArr l =>
      match all_elements apart_of s l with
      | Next s _ => Next (with_msg s (with_content (b_msg s) (or_else (m_content (b_msg s)) []))) tt
      | o => o
      end
  | _ => if is_null j then Next (with_msg s (with_content (b_msg s) (Str []))) tt else Next s tt
  end.

Definition amessage_of (s : building) (k : list Z) (j : json) : step unit building :=
  let m := b_msg s in
  if streq k (bs "role") then assign_of (m_role m) (λ v, with_msg s (with_role m v)) (str_of j)
  else if streq k (bs "content") then anthropic_content_of (with_msg s (with_content m Null)) j
  else Next s tt.

Definition one_amessage (c : chat) (j : json) : step unit chat :=
  ended id c (object_of amessage_of (Building no_msg (c_images c)) j).
Definition amessages_of (images : chat_images) (j : json) : step unit chat := array_of one_amessage (Chat [] images) j.

(** *** The system prompt *)

Definition system_member (b k : list Z) (j : json) : step unit (list Z) :=
  if streq k (bs "text") then
    match str_of j with Some t => Next (append_anthropic_system_part b t) tt | None => Fail b Invalid end
  else Next b tt.
Definition system_part (b : list Z) (j : json) : step unit (list Z) :=
  match j with
  | JStr t => Next (append_anthropic_system_part b t) tt
  | JObj _ => object_of system_member b j
  | _ => Next b tt
  end.
Definition system_of (j : json) : step unit (list Z) :=
  match j with
  | JStr t => Next (append_anthropic_system_part [] t) tt
  | JArr l => all_elements system_part [] l
  | _ => Next [] tt
  end.
End meaning.

(** ** Texts *)

Section texts.
Context (w : list Z) (Hw : forallb isspace w = true).
Abbreviation reads := (reads w).
Abbreviation reads_field := (reads_field w).
Abbreviation reads_item := (reads_item w).

Lemma string_assign {S} old (put : ptr → S) pad j q : forallb isspace pad = true → fine j →
  assign old put (string_ (pad ++ text w j ++ q)) = at_ q (assign_of old put (str_of j)).
Proof using Hw. intros. rewrite (string_text w Hw) by done. apply assign_at. Qed.

Lemma string_replace {S} (put : option (list Z) → S) pad j q : forallb isspace pad = true → fine j →
  replace put (string_ (pad ++ text w j ++ q)) = at_ q (replace_of put (str_of j)).
Proof using Hw. intros. rewrite (string_text w Hw) by done. apply replace_at. Qed.

Lemma content_assign {S} old (put : ptr → S) pad j q : forallb isspace pad = true → fine j → delimited q = true →
  assign old put (content (pad ++ text w j ++ q)) = at_ q (assign_of old put (content_text j)).
Proof using Hw. intros Hp [Hok Hd] Hq. rewrite (content_collects_text pad w j q) by done. apply assign_at. Qed.

Lemma raw_assign {S} old (put : ptr → S) pad j q : forallb isspace pad = true → fine j → delimited q = true →
  assign old put (raw_value (pad ++ text w j ++ q)) = at_ q (assign_of old put (Some (text w j))).
Proof using Hw. intros Hp [Hok Hd] Hq. by rewrite raw_value_text. Qed.

(** The value under white space. *)
Lemma at_text pad j q : forallb isspace pad = true → fine j → ws (pad ++ text w j ++ q) = text w j ++ q.
Proof. intros Hp [Hok _]. by rewrite ws_app, ws_text. Qed.

(** One member: the cases by its name. *)
Ltac by_name :=
  repeat match goal with |- context [streq ?a ?b] => destruct (streq a b); cbn [orb] end;
  first [by apply string_assign | by apply string_replace | by apply content_assign | by apply raw_assign | by apply (reads_skip w Hw) | idtac].

Lemma function_reads : reads_field function_field (function_of w).
Proof using Hw.
  intros k pad s j q Hp Hj Hq. unfold function_field, function_of. rewrite at_text by done.
  destruct (text_first w j q Hj Hq) as (c & r & E & Hc & _). rewrite E, Hc, <- E. by_name.
  destruct j as [l|n|t|l|m]; first [by apply (string_assign _ _ [])|by apply (raw_assign _ _ [])].
Qed.

Lemma call_reads : reads_field call_field (call_of w).
Proof using Hw.
  intros k pad s j q Hp Hj Hq. unfold call_field, call_of. by_name. by apply (object_reads w Hw _ _ function_reads).
Qed.

Lemma one_call_reads : reads_item call_item (one_call w).
Proof using Hw.
  intros s j q Hj Hq. unfold call_item, one_call. rewrite (object_reads w Hw _ _ call_reads [] _ j q) by done.
  destruct (object_of _ _ j) as [tc []|tc e|]; cbn; [done| |done]. by case_match.
Qed.

Lemma tool_calls_read : reads parse_tool_calls_value (tool_calls_of w).
Proof using Hw.
  intros pad s j q Hp Hj Hq. unfold parse_tool_calls_value, tool_calls_of. rewrite at_text by done.
  destruct (text_first w j q Hj Hq) as (c & r & E & _ & _ & _ & _ & _ & Hl). rewrite E, Hl, <- E. destruct (is_null j); [done|].
  by apply (array_reads w Hw _ _ one_call_reads []).
Qed.

(** *** OpenAI *)

Lemma url_reads : reads_field url_field url_of.
Proof using Hw. intros k pad s j q Hp Hj Hq. unfold url_field, url_of. by_name. Qed.

Lemma image_url_reads pad j q : forallb isspace pad = true → fine j → delimited q = true →
  parse_chat_image_url_value (pad ++ text w j ++ q) = (λ u, (u, q)) <$> image_url_of j.
Proof using Hw.
  intros Hp Hj Hq. unfold parse_chat_image_url_value. rewrite at_text by done.
  destruct (text_first w j q Hj Hq) as (c & r & E & Hc & _). rewrite E, Hc, <- E.
  pose proof (object_reads w Hw _ _ url_reads [] None j q eq_refl Hj Hq) as Ho. pose proof (string_text w Hw [] j q eq_refl Hj) as Hs.
  cbn [app] in Ho, Hs.
  destruct j as [l|n|t|l|m]; unfold image_url_of; rewrite ?Ho, ?Hs; try done.
  destruct (object_of url_of None (JObj m)) as [[u|] []|u e|]; done.
Qed.

Lemma block_reads : reads_field block_field block_of.
Proof using Hw.
  intros k pad s j q Hp Hj Hq. unfold block_field, block_of. by_name. rewrite image_url_reads by done. apply replace_at.
Qed.

Lemma part_reads : reads_item content_item part_of.
Proof using Hw.
  intros s j q Hj Hq. unfold content_item, part_of. destruct (text_first w j q Hj Hq) as (c & r & E & Hc & _). rewrite E, Hc, <- E.
  pose proof (object_reads w Hw _ _ block_reads [] (Block None None None) j q eq_refl Hj Hq) as Ho.
  pose proof (string_text w Hw [] j q eq_refl Hj) as Hs. cbn [app] in Ho, Hs.
  destruct j as [l|n|t|l|m]; rewrite ?Ho, ?Hs; try done.
  destruct (object_of block_of _ (JObj m)) as [b []|b e|]; cbn; [|done..]. by destruct (add_block s b).
Qed.

Lemma openai_content_reads : reads parse_openai_message_content_mm openai_content_of.
Proof using Hw.
  intros pad s j q Hp Hj Hq. unfold parse_openai_message_content_mm, openai_content_of. rewrite at_text by done.
  destruct (text_first w j q Hj Hq) as (c & r & E & Hc & _ & _ & _ & _ & Hl). rewrite E, Hc, Hl, <- E.
  pose proof (array_reads w Hw _ _ part_reads [] s j q eq_refl Hj Hq) as Ha.
  pose proof (string_text w Hw [] j q eq_refl Hj) as Hs. cbn [app] in Ha, Hs.
  destruct j as [[]|n|t|l|m]; cbn [is_null]; rewrite ?Ha, ?Hs; try done.
  by destruct (array_of part_of s (JArr l)) as [b []|b e|].
Qed.

Lemma message_reads : reads_field message_field (message_of w).
Proof using Hw.
  intros k pad s j q Hp Hj Hq. unfold message_field, message_of. cbv zeta. by_name.
  - destruct (r_got_content s); [done|]. by rewrite openai_content_reads, at_within.
  - rewrite (string_text w Hw) by done. by destruct (str_of j).
  - by rewrite tool_calls_read, at_within.
Qed.

Lemma ended_at {S} (built : S → building) c r q : end_message built c (at_ q r) = at_ q (ended built c r).
Proof. unfold end_message, ended, at_. destruct r as [s []|s e|]; [done| |done]. by destruct (chat_msg_free (b_msg (built s))). Qed.

(** The OpenAI messages. *)
Lemma messages_read images pad j q : forallb isspace pad = true → fine j → delimited q = true →
  parse_messages_mm images (pad ++ text w j ++ q) = at_ q (messages_of w images j).
Proof using Hw.
  apply (array_reads w Hw). intros c i q' Hi Hq'. unfold message_item, one_message.
  rewrite (object_reads w Hw _ _ message_reads [] _ i q') by done. apply ended_at.
Qed.

(** *** Anthropic *)

Lemma source_reads : reads_field source_field source_of.
Proof using Hw. intros k pad s j q Hp Hj Hq. unfold source_field, source_of. by_name. Qed.

Lemma ablock_reads : reads_field ablock_field (ablock_of w).
Proof using Hw.
  intros k pad s j q Hp Hj Hq. unfold ablock_field, ablock_of. destruct s as [ty tx th i n inp res src]. by_name.
  unfold parse_anthropic_image_source. by rewrite (object_reads w Hw _ _ source_reads), at_within.
Qed.

Lemma apart_reads : reads_item acontent_item (apart_of w).
Proof using Hw.
  intros s j q Hj Hq. unfold acontent_item, apart_of. destruct (text_first w j q Hj Hq) as (c & r & E & Hc & Hb & _). rewrite E, Hc, Hb, <- E.
  pose proof (object_reads w Hw _ _ ablock_reads [] no_ablock j q eq_refl Hj Hq) as Ho.
  pose proof (string_text w Hw [] j q eq_refl Hj) as Hs. pose proof (reads_skip w Hw s [] j q eq_refl Hj Hq) as Hk. cbn [app] in Ho, Hs, Hk.
  destruct j as [l|n|t|l|m]; unfold parse_anthropic_content_block_mm; rewrite ?Ho, ?Hs, ?Hk; try done.
  destruct (object_of _ _ (JObj m)) as [b []|b e|]; unfold ended_block; cbn [at_]; [|by destruct (free_all (ablock_ptrs b))|done]. by destruct (add_ablock s b).
Qed.

Lemma anthropic_content_reads : reads parse_anthropic_content_mm (anthropic_content_of w).
Proof using Hw.
  intros pad s j q Hp Hj Hq. unfold parse_anthropic_content_mm, anthropic_content_of. rewrite at_text by done.
  destruct (text_first w j q Hj Hq) as (c & r & E & Hc & _ & Hb & _ & _ & Hl). rewrite E, Hc, Hb, Hl, <- E.
  pose proof (array_reads w Hw _ _ apart_reads [] s j q eq_refl Hj Hq) as Ha.
  pose proof (string_text w Hw [] j q eq_refl Hj) as Hs. pose proof (reads_skip w Hw s [] j q eq_refl Hj Hq) as Hk. cbn [app] in Ha, Hs, Hk.
  destruct j as [[]|n|t|l|m]; cbn [is_null negb]; rewrite ?Ha, ?Hs, ?Hk; try done.
  cbn [array_of]. by destruct (all_elements _ s l) as [b []|b e|].
Qed.

Lemma amessage_reads : reads_field amessage_field (amessage_of w).
Proof using Hw.
  intros k pad s j q Hp Hj Hq. unfold amessage_field, amessage_of. cbv zeta. by_name. by apply anthropic_content_reads.
Qed.

(** The Anthropic messages and system prompt. *)
Lemma amessages_read images pad j q : forallb isspace pad = true → fine j → delimited q = true →
  parse_anthropic_messages_mm images (pad ++ text w j ++ q) = at_ q (amessages_of w images j).
Proof using Hw.
  apply (array_reads w Hw). intros c i q' Hi Hq'. unfold amessage_item, one_amessage.
  rewrite (object_reads w Hw _ _ amessage_reads [] _ i q') by done. apply ended_at.
Qed.

Lemma system_member_reads : reads_field system_field system_member.
Proof using Hw.
  intros k pad s j q Hp Hj Hq. unfold system_field, system_member. by_name. rewrite (string_text w Hw) by done. by destruct (str_of j).
Qed.

Lemma system_part_reads : reads_item system_item system_part.
Proof using Hw.
  intros s j q Hj Hq. unfold system_item, system_part. destruct (text_first w j q Hj Hq) as (c & r & E & Hc & Hb & _). rewrite E, Hc, Hb, <- E.
  pose proof (object_reads w Hw _ _ system_member_reads [] s j q eq_refl Hj Hq) as Ho.
  pose proof (string_text w Hw [] j q eq_refl Hj) as Hs. pose proof (reads_skip w Hw s [] j q eq_refl Hj Hq) as Hk. cbn [app] in Ho, Hs, Hk.
  destruct j as [l|n|t|l|m]; unfold parse_anthropic_system_object; rewrite ?Ho, ?Hs, ?Hk; done.
Qed.

Lemma system_reads pad j q : forallb isspace pad = true → fine j → delimited q = true →
  parse_anthropic_system (pad ++ text w j ++ q) = at_ q (system_of j).
Proof using Hw.
  intros Hp Hj Hq. unfold parse_anthropic_system, system_of. rewrite at_text by done.
  destruct (text_first w j q Hj Hq) as (c & r & E & Hc & _ & Hb & _ & _ & Hl). rewrite E, Hc, Hb, Hl, <- E.
  pose proof (array_reads w Hw _ _ system_part_reads [] [] j q eq_refl Hj Hq) as Ha.
  pose proof (string_text w Hw [] j q eq_refl Hj) as Hs. pose proof (reads_skip w Hw (@nil Z) [] j q eq_refl Hj Hq) as Hk. cbn [app] in Ha, Hs, Hk.
  destruct j as [[]|n|t|l|m]; cbn [is_null negb]; rewrite ?Ha, ?Hs, ?Hk; done.
Qed.
End texts.
