(* ===== verification/MsgTheorems.v ===== *)
(** * Strings of a request's messages are freed once (ds4_server.c)

    An error path frees every string of the message it gives up.  A string whose
    replacement failed is freed again there, so an object that names a member twice may
    free it twice; no other does. *)

From S2P Require Import Prelude Json JsonText Text ToolText Images ImageUse MsgJson MsgRef.

(** The members "id" and "tool_use_id" of an Anthropic block are one. *)
Definition alias (k : list Z) : list Z := if streq k (bs "tool_use_id") then bs "id" else k.

(** No object, at any depth, names a member twice. *)
Fixpoint distinct (j : json) : bool :=
  match j with
  | JArr l => forallb distinct l
  | JObj m => bool_decide (NoDup (map (λ kv, alias kv.1) m)) && forallb (λ kv, distinct kv.2) m
  | _ => true
  end.

(** With the members of [K] seen: the string of member [n]. *)
Definition tidy (K : list (list Z)) (n : list Z) (p : ptr) : Prop := p ≠ Freed ∧ (n ∉ K → p = Null).

Lemma tidy_more K k n p : tidy K n p → tidy (k :: K) n p.
Proof. intros [Hf Hn]. split; [done|]. intros Hk. apply Hn. set_solver. Qed.
Lemma tidy_str K n v : n ∈ K → tidy K n (Str v).
Proof. by split. Qed.
Lemma tidy_null K n : tidy K n Null.
Proof. by split. Qed.
Lemma tidy_fresh K n p : tidy K n p → n ∉ K → p = Null.
Proof. intros [_ H]. exact H. Qed.

(** A step that frees nothing twice and keeps [T]; behind it [k] has been seen. *)
Definition once {S} (T : list (list Z) → S → Prop) (K : list (list Z)) (r : step unit S) : Prop :=
  match r with Next s _ | Fail s _ => T K s | Twice => False end.

Lemma members_once {S} (T : list (list Z) → S → Prop) f m :
  (∀ K s k j, T K s → alias k ∉ K → distinct j = true → once T (alias k :: K) (f s k j)) → ∀ K s, T K s →
  distinct (JObj m) = true → (∀ kv, kv ∈ m → alias kv.1 ∉ K) → ∃ K', once T K' (all_members f s m).
Proof.
  intros Hf. induction m as [|[k j] m IH]; intros K s Hs Hd Hk; [by exists K|]. cbn [all_members].
  cbn [distinct map forallb fst snd] in Hd. apply andb_true_iff in Hd as [[Hk1 Hnd]%bool_decide_eq_true%NoDup_cons [Hj Hm]%andb_true_iff].
  pose proof (Hf K s k j Hs (Hk (k, j) ltac:(left)) Hj) as Ho. destruct (f s k j) as [s' []|s' e|]; [|by exists (alias k :: K)|done].
  apply (IH (alias k :: K)); [exact Ho| |].
  - cbn [distinct]. by rewrite bool_decide_eq_true_2, Hm.
  - intros kv Hin [E|Hin']%elem_of_cons; [|by apply (Hk kv); [right|]]. apply Hk1. rewrite <- E. apply list_elem_of_fmap. by exists kv.
Qed.

Lemma object_once {S} (T : list (list Z) → S → Prop) f s j :
  (∀ K s k j, T K s → alias k ∉ K → distinct j = true → once T (alias k :: K) (f s k j)) → T [] s → distinct j = true →
  ∃ K, once T K (object_of f s j).
Proof.
  intros Hf Hs Hd. destruct j as [l|n|t|l|m]; try by exists []. cbn [object_of]. apply (members_once T f m Hf []); [done|done|].
  intros kv _. apply not_elem_of_nil.
Qed.

Lemma elements_once {S} (U : S → Prop) f l : (∀ s j, U s → distinct j = true → once (λ _, U) [] (f s j)) → ∀ s, U s →
  forallb distinct l = true → once (λ _, U) [] (all_elements f s l).
Proof.
  intros Hf. induction l as [|j l IH]; intros s Hs Hd; [done|]. cbn [all_elements forallb] in *. apply andb_true_iff in Hd as [Hj Hl].
  pose proof (Hf s j Hs Hj) as Ho. destruct (f s j) as [s' []|s' e|]; [by apply IH|done|done].
Qed.

Lemma array_once {S} (U : S → Prop) f s j : (∀ s j, U s → distinct j = true → once (λ _, U) [] (f s j)) → U s → distinct j = true →
  once (λ _, U) [] (array_of f s j).
Proof. intros Hf Hs Hd. destruct j; try done. by apply elements_once. Qed.

(** Freeing the old string leaves nothing behind when there is none. *)
Lemma assign_once {S} (T : list (list Z) → S → Prop) K n old (put : ptr → S) v :
  tidy K n old → n ∉ K → (∀ p, tidy (n :: K) n p → T (n :: K) (put p)) → once T (n :: K) (assign_of old put v).
Proof.
  intros Hp Hn Hput. rewrite (tidy_fresh _ _ _ Hp Hn). destruct v; cbn; apply Hput; [apply tidy_str; left|apply tidy_null].
Qed.

Lemma within_once {S T} (P : list (list Z) → S → Prop) (Q : list (list Z) → T → Prop) K K' (g : S → T) r :
  once P K r → (∀ s, P K s → Q K' (g s)) → once Q K' (within g r).
Proof. destruct r; cbn; auto. Qed.

(** The cases by the name of the member; what it does not touch stays. *)
Ltac named :=
  match goal with
  | |- context [if streq ?k ?n then _ else _] =>
      let E := fresh "E" in destruct (streq k n) eqn:E;
      [apply bool_decide_eq_true in E; subst k;
       try match goal with |- context [alias (bs ?x)] => change (alias (bs x)) with (bs x) in * end|]
  end.
Ltac stays := autounfold with tidy in *; cbn in *; repeat match goal with H : _ ∧ _ |- _ => destruct H end; repeat split_and; auto using tidy_more, tidy_str, tidy_null.

Definition tidy_call (K : list (list Z)) (tc : call_ptrs) : Prop :=
  tidy K (bs "id") (c_id tc) ∧ tidy K (bs "function") (c_name tc) ∧ tidy K (bs "function") (c_arguments tc).
Definition tidy_function (i : ptr) (K : list (list Z)) (tc : call_ptrs) : Prop :=
  c_id tc = i ∧ tidy K (bs "name") (c_name tc) ∧ tidy K (bs "arguments") (c_arguments tc).

Create HintDb tidy.
#[local] Hint Unfold tidy_call tidy_function : tidy.

Section once.
Context (w : list Z).

Lemma function_once i K tc k j : tidy_function i K tc → alias k ∉ K → distinct j = true → once (tidy_function i) (alias k :: K) (function_of w tc k j).
Proof.
  intros Ht Hk _. unfold function_of. named; [|named; [|by stays]].
  - apply assign_once; [apply Ht|done|]. intros p Hp. by stays.
  - apply assign_once; [apply Ht|done|]. intros p Hp. by stays.
Qed.

Lemma call_once K tc k j : tidy_call K tc → alias k ∉ K → distinct j = true → once tidy_call (alias k :: K) (call_of w tc k j).
Proof.
  intros (Hi & Hn & Ha) Hk Hj. unfold call_of. named; [|named; [|by stays]].
  - apply assign_once; [done|done|]. intros p Hp. by stays.
  - destruct (object_once (tidy_function (c_id tc)) (function_of w) tc j (function_once _)) as [K' Ho]; [|done|].
    + split; [done|]. rewrite (tidy_fresh _ _ _ Hn Hk), (tidy_fresh _ _ _ Ha Hk). split; apply tidy_null.
    + destruct (object_of _ tc j) as [tc' []|tc' e|]; [| |done]; destruct Ho as (Ei & [Hn' _] & [Ha' _]);
        (split; [rewrite Ei; by apply tidy_more|]); split; (split; [done|set_solver]).
Qed.

Lemma one_call_once calls j : distinct j = true → once (λ _ _, True) [] (one_call w calls j).
Proof.
  intros Hj. unfold one_call. destruct (object_once tidy_call (call_of w) (CallPtrs Null Null Null) j call_once) as [K Ho]; [|done|].
  - split; [|split]; apply tidy_null.
  - destruct (object_of _ _ j) as [tc []|tc e|]; [done| |done]. destruct Ho as ([Hi _] & [Hn _] & [Ha _]). cbn.
    by destruct (c_id tc), (c_name tc), (c_arguments tc).
Qed.

Lemma tool_calls_once calls j : distinct j = true → once (λ _ _, True) [] (tool_calls_of w calls j).
Proof.
  intros Hj. unfold tool_calls_of. destruct (is_null j); [done|].
  apply (array_once (λ _, True)); [|done|done]. intros s i _ Hi. by apply one_call_once.
Qed.
End once.

(** *** OpenAI *)

(** A message under construction, with the members of [K] seen: the strings that the
    content does not touch, and a content that is not freed. *)
Definition tidy_built (K : list (list Z)) (b : building) : Prop :=
  tidy K (bs "role") (m_role (b_msg b)) ∧ tidy K (bs "reasoning_content") (m_reasoning (b_msg b)) ∧ m_content (b_msg b) ≠ Freed.
Definition tidy_reading (K : list (list Z)) (r : reading) : Prop := tidy_built K (r_built r).
#[local] Hint Unfold tidy_built tidy_reading : tidy.

Lemma added_once K s b : tidy_built K s → once (λ _, tidy_built K) [] (added s (add_block s b)).
Proof.
  intros Hs. unfold add_block. cbv zeta. destruct (if bool_decide (k_type b = Some (bs "text")) then _ else _) as [t|]; [by stays|].
  destruct (if bool_decide _ then _ else _) as [u|]; [|done]. destruct (chat_images_add_data_uri _ u) as [[im i]|e]; [by stays|done].
Qed.

Lemma tidy_free K (b : building) : tidy_built K b → chat_msg_free (b_msg b) = true.
Proof.
  intros ([Hr _] & [Hs _] & Hc). unfold chat_msg_free, free_all. cbn. by destruct (m_role (b_msg b)), (m_content (b_msg b)), (m_reasoning (b_msg b)).
Qed.

(** A block owns nothing that is freed before it is replaced. *)
Lemma block_never_twice b k j : once (λ _ _, True) [] (block_of b k j).
Proof. unfold block_of. repeat named; by try destruct (str_of j); try destruct (image_url_of j). Qed.

Lemma any_members {S} (f : S → list Z → json → step unit S) : (∀ s k j, once (λ _ _, True) [] (f s k j)) → ∀ j s, once (λ _ _, True) [] (object_of f s j).
Proof.
  intros Hf [l|n|t|l|m] s; try done. cbn [object_of]. revert s. induction m as [|[k j] m IH]; intros s; [done|]. cbn [all_members].
  pose proof (Hf s k j). destruct (f s k j) as [s' []|s' e|]; [apply IH|done|done].
Qed.

Lemma part_once K s j : tidy_built K s → once (λ _, tidy_built K) [] (part_of s j).
Proof.
  intros Hs. pose proof (any_members block_of block_never_twice j (Block None None None)) as Hb. unfold part_of.
  destruct j as [l|n|t|l|m]; [done|done|by stays|done|].
  destruct (object_of block_of _ (JObj m)) as [b []|b e|]; [by apply added_once|done|done].
Qed.

Lemma openai_content_once K s j : tidy_built K s → distinct j = true → once (λ _, tidy_built K) [] (openai_content_of s j).
Proof.
  intros Hs Hj. unfold openai_content_of. pose proof (array_once (tidy_built K) part_of s j (λ s i H _, part_once K s i H) Hs Hj) as Ha.
  destruct j as [l|n|t|l|m]; [destruct l; by stays|done|by stays| |done]. cbn [is_null].
  destruct (array_of part_of s (JArr l)) as [b []|b e|]; cbn in *; [|done|done].
  destruct Ha as (? & ? & Hc). split; [done|]. split; [done|]. cbn. by destruct (m_content (b_msg b)).
Qed.

Section messages.
Context (w : list Z).

Lemma message_once K r k j : tidy_reading K r → alias k ∉ K → distinct j = true → once tidy_reading (alias k :: K) (message_of w r k j).
Proof.
  intros (Hr & Hs & Hc) Hk Hj. unfold message_of. cbv zeta. repeat named; [..|by stays].
  - apply assign_once; [exact Hr|done|]. intros p Hp. by stays.
  - destruct (r_got_content r); [by stays|].
    assert (tidy_built (bs "content" :: K) (with_msg (r_built r) (with_content (r_msg r) Null))) as Hb by (by stays).
    eapply within_once; [by apply openai_content_once|]. by intros s Hs'.
  - apply assign_once; [exact Hs|done|]. intros p Hp. by stays.
  - destruct (str_of j) as [id|]; [|by stays]. cbn. unfold chat_msg_add_tool_call_id. destruct id; by stays.
  - eapply within_once; [by apply tool_calls_once|]. intros calls _. by stays.
Qed.

Lemma one_message_once c j : distinct j = true → once (λ _ _, True) [] (one_message w c j).
Proof.
  intros Hj. unfold one_message.
  destruct (object_once tidy_reading (message_of w) (Reading false (Building no_msg (c_images c))) j message_once) as [K Ho]; [|done|].
  - split; [apply tidy_null|]. split; [apply tidy_null|done].
  - destruct (object_of _ _ j) as [r []|r e|]; [done| |done]. unfold ended. by rewrite (tidy_free K) by done.
Qed.

Lemma messages_once images j : distinct j = true → messages_of w images j ≠ Twice.
Proof.
  intros Hj. pose proof (array_once (λ _, True) (one_message w) (Chat [] images) j) as H. unfold messages_of.
  destruct (array_of _ _ j); try done. exfalso. apply H; [|done|done]. intros s i _ Hi. by apply one_message_once.
Qed.
End messages.

(** *** Anthropic *)

Definition tidy_ablock (K : list (list Z)) (b : ablock) : Prop :=
  tidy K (bs "type") (a_type b) ∧ tidy K (bs "text") (a_text b) ∧ tidy K (bs "thinking") (a_thinking b) ∧ tidy K (bs "id") (a_id b) ∧
  tidy K (bs "name") (a_name b) ∧ tidy K (bs "input") (a_input b) ∧ tidy K (bs "content") (a_tool_result b).
Definition tidy_abuilt (K : list (list Z)) (b : building) : Prop :=
  tidy K (bs "role") (m_role (b_msg b)) ∧ m_reasoning (b_msg b) ≠ Freed ∧ m_content (b_msg b) ≠ Freed.
#[local] Hint Unfold tidy_ablock tidy_abuilt : tidy.

Lemma source_never_twice s k j : once (λ _ _, True) [] (source_of s k j).
Proof. unfold source_of. repeat named; by try destruct (str_of j). Qed.

Section anthropic.
Context (w : list Z).

Lemma ablock_once K b k j : tidy_ablock K b → alias k ∉ K → distinct j = true → once tidy_ablock (alias k :: K) (ablock_of w b k j).
Proof.
  intros Hb Hk _. destruct b as [ty tx th i n inp res src]. destruct Hb as (H1 & H2 & H3 & H4 & H5 & H6 & H7). cbn in *. unfold ablock_of.
  named; [apply assign_once; [done|done|]; intros p Hp; by stays|]. named; [apply assign_once; [done|done|]; intros p Hp; by stays|].
  named; [apply assign_once; [done|done|]; intros p Hp; by stays|].
  destruct (streq k (bs "id") || streq k (bs "tool_use_id")) eqn:Eid.
  { assert (alias k = bs "id") as Ek.
    { apply orb_true_iff in Eid as [Eid|Eid]; apply bool_decide_eq_true in Eid as ->; reflexivity. }
    rewrite Ek in *. apply assign_once; [done|done|]. intros p Hp. by stays. }
  named; [apply assign_once; [done|done|]; intros p Hp; by stays|].
  named; [assert (tidy (bs "input" :: K) (bs "input") (Str (text w j))) by (apply tidy_str; left); by stays|].
  named; [apply assign_once; [done|done|]; intros p Hp; by stays|].
  named; [|by stays]. eapply within_once; [by apply (any_members source_of source_never_twice)|]. intros s _. by stays.
Qed.

Lemma aadded_once K s b : tidy_abuilt K s → once (λ _, tidy_abuilt K) [] (added s (add_ablock s b)).
Proof.
  intros Hs. unfold add_ablock. cbv zeta. destruct (bool_decide (_ = Some (bs "image"))).
  { destruct (s_media_type _) as [mime|]; [|done]. destruct (s_data _) as [d|]; [|done]. destruct (bool_decide _); [|done].
    destruct (chat_images_add_base64 _ mime d) as [[im i]|e]; [by stays|done]. }
  destruct (bool_decide _); [by stays|]. destruct (bool_decide _).
  - destruct (given (a_id b)) as [[|c id]|]; by stays.
  - destruct (given (a_text b)), (given (a_thinking b)); by stays.
Qed.

Lemma apart_once K s j : tidy_abuilt K s → distinct j = true → once (λ _, tidy_abuilt K) [] (apart_of w s j).
Proof.
  intros Hs Hj. destruct j as [l|n|t|l|m]; try done; [by stays|]. unfold apart_of.
  destruct (object_once tidy_ablock (ablock_of w) no_ablock (JObj m) ablock_once) as [K' Ho]; [|done|].
  - do 6 (split; [apply tidy_null|]). apply tidy_null.
  - destruct (object_of _ _ (JObj m)) as [b []|b e|]; [by apply aadded_once| |done].
    destruct Ho as ([H1 _] & [H2 _] & [H3 _] & [H4 _] & [H5 _] & [H6 _] & [H7 _]). unfold ended_block, free_all, ablock_ptrs. cbn.
    by destruct (a_type b), (a_text b), (a_thinking b), (a_id b), (a_name b), (a_input b), (a_tool_result b).
Qed.

Lemma anthropic_content_once K s j : tidy_abuilt K s → distinct j = true → once (λ _, tidy_abuilt K) [] (anthropic_content_of w s j).
Proof.
  intros Hs Hj. destruct j as [l|n|t|l|m]; unfold anthropic_content_of; [destruct l; by stays|done|by stays| |done].
  pose proof (elements_once (tidy_abuilt K) (apart_of w) l (λ s i, apart_once K s i) s Hs Hj) as Ha.
  destruct (all_elements _ s l) as [b []|b e|]; cbn in *; [|done|done].
  destruct Ha as (? & ? & Hc). split; [done|]. split; [done|]. cbn. by destruct (m_content (b_msg b)).
Qed.

Lemma amessage_once K s k j : tidy_abuilt K s → alias k ∉ K → distinct j = true → once tidy_abuilt (alias k :: K) (amessage_of w s k j).
Proof.
  intros (Hr & Hs & Hc) Hk Hj. unfold amessage_of. cbv zeta. repeat named; [..|by stays].
  - apply assign_once; [exact Hr|done|]. intros p Hp. by stays.
  - assert (tidy_abuilt (bs "content" :: K) (with_msg s (with_content (b_msg s) Null))) as Hb by (by stays).
    by apply (anthropic_content_once (bs "content" :: K)).
Qed.

Lemma amessages_once images j : distinct j = true → amessages_of w images j ≠ Twice.
Proof.
  intros Hj. pose proof (array_once (λ _, True) (one_amessage w) (Chat [] images) j) as H. unfold amessages_of.
  destruct (array_of _ _ j); try done. exfalso. apply H; [|done|done]. clear H j Hj. intros c j _ Hj. unfold one_amessage.
  destruct (object_once tidy_abuilt (amessage_of w) (Building no_msg (c_images c)) j amessage_once) as [K Ho]; [|done|].
  - split; [apply tidy_null|done].
  - destruct (object_of _ _ j) as [b []|b e|]; [done| |done]. destruct Ho as ([Hr _] & Hs & Hc). unfold ended, chat_msg_free, free_all. cbn in *.
    by destruct (m_role (b_msg b)), (m_content (b_msg b)), (m_reasoning (b_msg b)).
Qed.
End anthropic.

(** C21: Reading the messages of a request frees no string twice, in either
    dialect and whether they are accepted or refused, when the request is the
    text of a JSON value, with any white space around its tokens and followed
    by an end of value, in which no object names a member twice (where the
    members id and tool_use_id of a block count as one).  The names are those
    the parser compares, C strings: a name or string with an escaped NUL is not
    such a value (the parser cuts the name there, so that it can repeat
    another), numbers are well formed, and the nesting is at most the
    parser's. *)
Theorem messages_freed_once images pad w j q :
  forallb isspace pad = true → forallb isspace w = true → json_okb j = true → depth j <= MAX_NESTING → delimited q = true →
  distinct j = true →
  parse_messages_mm images (pad ++ text w j ++ q) ≠ Twice ∧ parse_anthropic_messages_mm images (pad ++ text w j ++ q) ≠ Twice.
Proof.
  intros Hp Hw Hok Hd Hq Hj. rewrite (messages_read w Hw), (amessages_read w Hw) by done.
  pose proof (messages_once w images j Hj). pose proof (amessages_once w images j Hj).
  by destruct (messages_of w images j), (amessages_of w images j).
Qed.

(** A refused message: its content is a number. *)
Definition refused : json := JArr [JObj [(bs "role", JStr (bs "user")); (bs "content", JNum (Numeral false [ch "5"] None None))]].

Example messages_freed_once_witness : distinct refused = true ∧ parse_messages_mm no_images (text [] refused) = Fail (Chat [] no_images) InvalidContent.
Proof.
  split; [vm_compute; reflexivity|].
  destruct (messages_freed_once no_images [] [] refused [] eq_refl eq_refl eq_refl ltac:(by apply Z.leb_le) eq_refl eq_refl) as [H _].
  cbn [app] in H. rewrite app_nil_r in H. destruct (parse_messages_mm no_images (text [] refused)) eqn:E; [|vm_compute in E; injection E as <- <-; reflexivity|done].
  vm_compute in E. discriminate E.
Defined.

(** A role that is given again as a number is freed twice, and so is the id of a block
    that is given as tool_use_id again. *)
Example repeated_role_freed_twice :
  parse_messages_mm no_images (text [] (JArr [JObj [(bs "role", JStr (bs "user")); (bs "role", JLit LTrue)]])) = Twice.
Proof. vm_compute. reflexivity. Qed.

(** A name with an escaped NUL repeats the name it is cut to. *)
Example cut_name_freed_twice :
  parse_messages_mm no_images (bs "[{" ++ [34] ++ bs "role" ++ [34] ++ bs ":" ++ [34] ++ bs "user" ++ [34] ++ bs "," ++
    [34] ++ bs "role\u0000x" ++ [34] ++ bs ":true}]") = Twice.
Proof. vm_compute. reflexivity. Qed.

Example two_ids_freed_twice :
  parse_anthropic_messages_mm no_images (text [] (JArr [JObj [(bs "content",
    JArr [JObj [(bs "id", JStr (bs "a")); (bs "tool_use_id", JLit LNull)]])]])) = Twice.
Proof. vm_compute. reflexivity. Qed.

(** * Messages by their members (ds4_server.c)

    What the OpenAI messages of a request are, member by member: the order in which an
    object lists its members does not matter. *)

(** ** Members *)

Definition member (m : list (list Z * json)) (k : list Z) : option json := snd <$> List.find (λ kv, streq kv.1 k) m.

(** A member that may be absent and otherwise has to make sense. *)
Definition opt {A} (f : json → option A) (j : option json) : option (option A) :=
  match j with None => Some None | Some j => Some <$> f j end.

Definition keys_of (m : list (list Z * json)) : list (list Z) := map fst m.

Lemma member_snoc m k j n : k ∉ keys_of m → member (m ++ [(k, j)]) n = if streq k n then Some j else member m n.
Proof.
  intros Hk. unfold member. induction m as [|[k' j'] m IH]; cbn; [by destruct (streq k n)|].
  cbn in Hk. apply not_elem_of_cons in Hk as [Hne Hk]. destruct (streq k' n) eqn:E; [|by apply IH].
  apply bool_decide_eq_true in E as <-. unfold streq. by rewrite bool_decide_eq_false_2.
Qed.

Lemma member_none m k : k ∉ keys_of m → member m k = None.
Proof.
  intros Hk. unfold member. induction m as [|[k' j'] m IH]; [done|]. cbn in *. apply not_elem_of_cons in Hk as [Hne Hk].
  unfold streq. rewrite bool_decide_eq_false_2 by done. by apply IH.
Qed.

(** The state of a step that succeeds. *)
Definition result {S} (r : step unit S) : option S := match r with Next s _ => Some s | _ => None end.

Lemma result_within {S T} (g : S → T) (r : step unit S) : result (within g r) = g <$> result r.
Proof. by destruct r. Qed.

Lemma result_members {S} (f : S → list Z → json → step unit S) s m k j :
  result (all_members f s (m ++ [(k, j)])) = (s' ← result (all_members f s m); result (f s' k j)).
Proof.
  revert s. induction m as [|[k' j'] m IH]; intros s; cbn [all_members app result]; [cbn; by destruct (f s k j) as [s' []|s' e|]|].
  destruct (f s k' j') as [s' []|s' e|]; [apply IH|done|done].
Qed.

Lemma distinct_members m : distinct (JObj m) = true → NoDup (keys_of m) ∧ Forall (λ kv, distinct kv.2 = true) m.
Proof.
  cbn. intros [Hn%bool_decide_eq_true Hd]%andb_true_iff. split; [|by apply forallb_Forall].
  unfold keys_of. rewrite <- (map_map fst alias) in Hn. by eapply NoDup_fmap_1.
Qed.

(** Reading distinct members one after the other is reading each by its name. *)
Lemma by_members {S} (f : S → list Z → json → step unit S) (decl : list (list Z * json) → option S) s :
  decl [] = Some s → (∀ m k j, k ∉ keys_of m → distinct j = true → decl (m ++ [(k, j)]) = (s ← decl m; result (f s k j))) →
  ∀ m, distinct (JObj m) = true → result (object_of f s (JObj m)) = decl m.
Proof.
  intros H0 Hs m Hd. destruct (distinct_members m Hd) as [Hm Hv]. clear Hd. cbn [object_of].
  induction m as [|[k j] m IH] using rev_ind; [by rewrite H0|].
  unfold keys_of in Hm. rewrite map_app in Hm. apply NoDup_app in Hm as (Hm & Hn & _). apply Forall_app in Hv as [Hv [Hj _]%Forall_cons].
  rewrite result_members, IH by done. assert (k ∉ keys_of m) as Hk by (intros Hin; apply (Hn k Hin); left). by rewrite (Hs m k j Hk Hj).
Qed.

(** The last member is the one named [n], or another. *)
Ltac last_is n :=
  match goal with
  | Hk : ?k ∉ keys_of ?m |- _ =>
      let E := fresh "E" in destruct (streq k n) eqn:E;
      [apply bool_decide_eq_true in E; subst k; rewrite ?(member_none m _ Hk);
       repeat match goal with |- context [streq (bs ?a) (bs ?b)] =>
         let v := eval vm_compute in (streq (bs a) (bs b)) in change (streq (bs a) (bs b)) with v end; cbv iota; cbn [opt]|]
  end.

(** ** Tool calls *)

Section messages.
Context (w : list Z).

Definition arguments_text (j : json) : option (list Z) := Some (match j with JStr s => s | _ => text w j end).
Definition as_ptr (o : option (list Z)) : ptr := match o with Some s => Str s | None => Null end.

(** A call: its id, and the name and arguments of its function. *)
Definition function_decl (i : ptr) (m : list (list Z * json)) : option call_ptrs :=
  name ← opt str_of (member m (bs "name"));
  args ← opt arguments_text (member m (bs "arguments"));
  Some (CallPtrs i (as_ptr name) (as_ptr args)).

Lemma function_by_members i m : distinct (JObj m) = true → result (object_of (function_of w) (CallPtrs i Null Null) (JObj m)) = function_decl i m.
Proof.
  apply by_members; [done|]. clear m. intros m k j Hk _. unfold function_decl, function_of. rewrite !member_snoc by done.
  last_is (bs "name"); [|last_is (bs "arguments")].
  - by destruct (opt arguments_text (member m (bs "arguments"))), (str_of j).
  - by destruct (opt str_of (member m (bs "name"))).
  - by destruct (opt str_of (member m (bs "name"))), (opt arguments_text (member m (bs "arguments"))).
Qed.

Definition call_decl (m : list (list Z * json)) : option call_ptrs :=
  i ← opt str_of (member m (bs "id"));
  match member m (bs "function") with
  | None => Some (CallPtrs (as_ptr i) Null Null)
  | Some (JObj f) => function_decl (as_ptr i) f
  | Some _ => None
  end.

Lemma call_by_members m : distinct (JObj m) = true → result (object_of (call_of w) (CallPtrs Null Null Null) (JObj m)) = call_decl m.
Proof.
  apply by_members; [done|]. clear m. intros m k j Hk Hj. unfold call_decl, call_of. rewrite !member_snoc by done.
  last_is (bs "id"); [|last_is (bs "function")].
  - destruct (str_of j) as [v|].
    + destruct (member m (bs "function")) as [[l|n|t|l|f]|]; try done. unfold function_decl.
      by destruct (opt str_of (member f (bs "name"))), (opt arguments_text (member f (bs "arguments"))).
    + destruct (member m (bs "function")) as [[l|n|t|l|f]|]; try done. cbn. by destruct (function_decl Null f).
  - destruct (opt str_of (member m (bs "id"))) as [i|]; [|done]. cbn. destruct j as [l|n|t|l|f]; try done. symmetry. by apply function_by_members.
  - destruct (opt str_of (member m (bs "id"))) as [i|]; [|done]. cbn. destruct (member m (bs "function")) as [[l|n|t|l|f]|]; try done. by destruct (function_decl (as_ptr i) f).
Qed.

(** One after the other. *)
Fixpoint in_turn {S} (f : S → json → option S) (s : S) (l : list json) : option S :=
  match l with [] => Some s | j :: l => s ← f s j; in_turn f s l end.

Lemma elements_in_turn {S} (f : S → json → step unit S) g l : (∀ s j, distinct j = true → result (f s j) = g s j) → forallb distinct l = true →
  ∀ s, result (all_elements f s l) = in_turn g s l.
Proof.
  intros Hf. induction l as [|j l IH]; intros Hd s; [done|]. cbn [forallb all_elements in_turn] in *. apply andb_true_iff in Hd as [Hj Hl].
  rewrite <- (Hf s j Hj). destruct (f s j) as [s' []|s' e|]; [by apply IH|done|done].
Qed.

Definition calls_decl (calls : tool_calls) (j : json) : option tool_calls :=
  match j with
  | JLit LNull => Some calls
  | JArr l => in_turn (λ calls j, match j with JObj m => push_call calls <$> call_decl m | _ => None end) calls l
  | _ => None
  end.

Lemma calls_by_members calls j : distinct j = true → result (tool_calls_of w calls j) = calls_decl calls j.
Proof.
  intros Hj. unfold tool_calls_of. destruct j as [[]|n|t|l|m]; try done. cbn [is_null array_of calls_decl]. apply elements_in_turn; [|done].
  intros s j Hd. unfold one_call. destruct j as [[]|n|t|l'|m]; try done. rewrite <- call_by_members by done.
  destruct (object_of _ _ (JObj m)) as [tc []|tc e|]; [done| |done]. cbn. by case_match.
Qed.

(** *** Content *)

Definition image_url_decl (j : json) : option (list Z) :=
  match j with JStr s => Some s | JObj m => mjoin (opt str_of (member m (bs "url"))) | _ => None end.

Lemma image_url_by_members j : distinct j = true → image_url_of j = image_url_decl j.
Proof.
  intros Hj. destruct j as [l|n|t|l|m]; try done. unfold image_url_of, image_url_decl.
  assert (result (object_of url_of None (JObj m)) = opt str_of (member m (bs "url"))) as <-; [|by destruct (object_of _ _ _) as [u []|u e|]].
  apply (by_members url_of (λ m, opt str_of (member m (bs "url")))); [done| |done]. clear. intros m k j Hk _. unfold url_of. rewrite member_snoc by done.
  last_is (bs "url"); [by destruct (str_of j)|]. by destruct (opt _ _).
Qed.

(** A part: its type, its text, its picture. *)
Definition block_decl (m : list (list Z * json)) : option block :=
  ty ← opt str_of (member m (bs "type"));
  tx ← opt str_of (member m (bs "text"));
  u ← opt image_url_decl (member m (bs "image_url"));
  Some (Block ty tx u).

Lemma block_by_members m : distinct (JObj m) = true → result (object_of block_of (Block None None None) (JObj m)) = block_decl m.
Proof.
  apply by_members; [done|]. clear m. intros m k j Hk Hj. unfold block_decl, block_of. rewrite !member_snoc by done.
  last_is (bs "type"); [|last_is (bs "text"); [|last_is (bs "image_url")]].
  - by destruct (opt str_of (member m (bs "text"))), (opt image_url_decl (member m (bs "image_url"))), (str_of j).
  - by destruct (opt str_of (member m (bs "type"))), (opt image_url_decl (member m (bs "image_url"))), (str_of j).
  - rewrite (image_url_by_members j Hj). by destruct (opt str_of (member m (bs "type"))), (opt str_of (member m (bs "text"))), (image_url_decl j).
  - by destruct (opt str_of (member m (bs "type"))), (opt str_of (member m (bs "text"))), (opt image_url_decl (member m (bs "image_url"))).
Qed.

Definition part_decl (s : building) (j : json) : option building :=
  match j with
  | JStr t => Some (with_msg s (chat_msg_append_text_part (b_msg s) t))
  | JObj m => b ← block_decl m; match add_block s b with inl s => Some s | inr _ => None end
  | _ => None
  end.

Definition with_default (s : building) : building := with_msg s (with_content (b_msg s) (or_else (m_content (b_msg s)) [])).

Definition content_decl (s : building) (j : json) : option building :=
  match j with
  | JStr t => Some (with_msg s (with_content (b_msg s) (Str t)))
  | JLit LNull => Some (with_msg s (with_content (b_msg s) (Str [])))
  | JArr l => with_default <$> in_turn part_decl s l
  | _ => None
  end.

Lemma content_by_members s j : distinct j = true → result (openai_content_of s j) = content_decl s j.
Proof.
  intros Hj. unfold openai_content_of. destruct j as [[]|n|t|l|m]; try done. cbn [is_null array_of content_decl].
  rewrite <- (elements_in_turn part_of part_decl l); [by destruct (all_elements _ s l) as [b []|b e|]| |done].
  intros b j Hd. unfold part_of, part_decl. destruct j as [[]|n|t|l'|m]; try done. rewrite <- block_by_members by done.
  destruct (object_of _ _ (JObj m)) as [k []|k e|]; [|done..]. cbn. by destruct (add_block b k).
Qed.

(** The content leaves the other fields of a message alone. *)
Definition graft (m : chat_msg) (b : building) : building :=
  Building (ChatMsg (m_role m) (m_content (b_msg b)) (m_reasoning m) (m_tool_call_id m) (m_tool_call_ids m) (m_calls m) (m_parts (b_msg b))) (b_images b).

Lemma part_graft m s j : part_decl (graft m s) j = graft m <$> part_decl s j.
Proof.
  destruct j as [l|n|t|l|o]; try done. cbn. destruct (block_decl o) as [k|]; [|done]. cbn. unfold add_block. cbv zeta.
  destruct (if bool_decide _ then k_text k else None) as [t|]; [done|]. destruct (if bool_decide _ then k_image_url k else None) as [u|]; [|done].
  cbn. by destruct (chat_images_add_data_uri (b_images s) u) as [[im i]|e].
Qed.

Lemma content_graft m s j : content_decl (graft m s) j = graft m <$> content_decl s j.
Proof.
  destruct j as [[]|n|t|l|o]; try done. cbn. revert s. induction l as [|j l IH]; intros s; [done|]. cbn. rewrite part_graft.
  destruct (part_decl s j); [apply IH|done].
Qed.

(** *** Messages *)

Definition or_start (images : chat_images) (j : option json) : option building :=
  match j with None => Some (Building no_msg images) | Some j => content_decl (Building no_msg images) j end.
Definition or_none (j : option json) : option tool_calls := match j with None => Some no_calls | Some j => calls_decl no_calls j end.

Definition reading_decl (images : chat_images) (m : list (list Z * json)) : option reading :=
  role ← opt str_of (member m (bs "role"));
  b ← or_start images (member m (bs "content"));
  reasoning ← opt content_text (member m (bs "reasoning_content"));
  id ← opt str_of (member m (bs "tool_call_id"));
  calls ← or_none (member m (bs "tool_calls"));
  Some (Reading (match member m (bs "content") with Some _ => true | None => false end)
    (Building (chat_msg_add_tool_call_id
       (ChatMsg (as_ptr role) (m_content (b_msg b)) (as_ptr reasoning) None [] calls (m_parts (b_msg b))) id) (b_images b))).

Lemma reading_by_members images m : distinct (JObj m) = true →
  result (object_of (message_of w) (Reading false (Building no_msg images)) (JObj m)) = reading_decl images m.
Proof.
  apply by_members; [done|]. clear m. intros m k j Hk Hj. unfold reading_decl, message_of. cbv zeta. rewrite !member_snoc by done.
  last_is (bs "role"); [|last_is (bs "content"); [|last_is (bs "reasoning_content"); [|last_is (bs "tool_call_id"); [|last_is (bs "tool_calls")]]]].
  - destruct (or_start images (member m (bs "content"))), (opt content_text (member m (bs "reasoning_content"))),
      (opt str_of (member m (bs "tool_call_id"))) as [[[|c id]|]|], (or_none (member m (bs "tool_calls"))), (str_of j); done.
  - destruct (opt str_of (member m (bs "role"))) as [role|]; [|done]. cbn [mbind option_bind].
    destruct (opt content_text (member m (bs "reasoning_content"))) as [rs|]; [|by destruct (or_start images (Some j))].
    destruct (opt str_of (member m (bs "tool_call_id"))) as [id|]; [|by destruct (or_start images (Some j))].
    destruct (or_none (member m (bs "tool_calls"))) as [calls|]; [|by destruct (or_start images (Some j))]. cbn [mbind option_bind].
    cbn [or_start]. set (M := chat_msg_add_tool_call_id (ChatMsg (as_ptr role) Null (as_ptr rs) None [] calls []) id).
    assert (∀ b, graft M b = Building (chat_msg_add_tool_call_id (ChatMsg (as_ptr role) (m_content (b_msg b)) (as_ptr rs) None [] calls (m_parts (b_msg b))) id) (b_images b)) as HM
      by (intros b; unfold M; by destruct id as [[|c id]|]).
    transitivity (result (within (Reading true) (openai_content_of (graft M (Building no_msg images)) j))); [|unfold M; by destruct id as [[|c id]|]].
    rewrite result_within.
    rewrite content_by_members, content_graft by done. destruct (content_decl _ j) as [b|]; [|done]. cbn. by rewrite HM.
  - destruct (opt str_of (member m (bs "role"))), (or_start images (member m (bs "content"))),
      (opt str_of (member m (bs "tool_call_id"))) as [[[|c id]|]|], (or_none (member m (bs "tool_calls"))), (content_text j); done.
  - destruct (opt str_of (member m (bs "role"))), (or_start images (member m (bs "content"))),
      (opt content_text (member m (bs "reasoning_content"))), (or_none (member m (bs "tool_calls"))), (str_of j) as [[|c id]|]; done.
  - destruct (opt str_of (member m (bs "role"))), (or_start images (member m (bs "content"))),
      (opt content_text (member m (bs "reasoning_content"))), (opt str_of (member m (bs "tool_call_id"))) as [[[|c id]|]|]; try done;
      cbn; rewrite result_within, calls_by_members by done; by destruct (calls_decl no_calls j).
  - destruct (opt str_of (member m (bs "role"))), (or_start images (member m (bs "content"))),
      (opt content_text (member m (bs "reasoning_content"))), (opt str_of (member m (bs "tool_call_id"))) as [id|], (or_none (member m (bs "tool_calls"))); done.
Qed.

(** The messages of a request. *)
Definition chat_by_members (images : chat_images) (j : json) : option chat :=
  match j with
  | JArr l =>
      in_turn (λ c j, match j with
        | JObj m => r ← reading_decl (c_images c) m; Some (Chat (c_msgs c ++ [finished (r_msg r)]) (b_images (r_built r)))
        | _ => None
        end) (Chat [] images) l
  | _ => None
  end.

Lemma messages_by_members images j : distinct j = true → result (messages_of w images j) = chat_by_members images j.
Proof.
  intros Hj. destruct j as [l|n|t|l|m]; try done. cbn [chat_by_members]. apply elements_in_turn; [|done]. intros c j Hd.
  unfold one_message. destruct j as [l'|n|t|l'|m]; try done. rewrite <- reading_by_members by done.
  destruct (object_of _ _ (JObj m)) as [r []|r e|]; cbn [result ended]; [|by destruct (chat_msg_free _)|done].
  done.
Qed.
End messages.

(** ** Reference

    What a request's messages are, written from the names of their members alone. *)

(** A part of a content: a text, or the address of a picture. *)
Inductive piece := TextPiece (t : list Z) | PicturePiece (uri : list Z).

Definition piece_decl (j : json) : option piece :=
  match j with
  | JStr t => Some (TextPiece t)
  | JObj m =>
      ty ← opt str_of (member m (bs "type"));
      tx ← opt str_of (member m (bs "text"));
      u ← opt image_url_decl (member m (bs "image_url"));
      match ty with
      | Some n =>
          if bool_decide (n = bs "text") then TextPiece <$> tx
          else if bool_decide (n = bs "image_url") then PicturePiece <$> u
          else None
      | None => None
      end
  | _ => None
  end.

(** The pictures are added to the request one after the other. *)
Fixpoint placed (images : chat_images) (ps : list piece) : option (list chat_part * chat_images) :=
  match ps with
  | [] => Some ([], images)
  | TextPiece t :: ps => '(l, images) ← placed images ps; Some (TextPart t :: l, images)
  | PicturePiece u :: ps =>
      match chat_images_add_data_uri images u with
      | inl (images, i) => '(l, images) ← placed images ps; Some (ImagePart i :: l, images)
      | inr _ => None
      end
  end.

Definition piece_text (p : piece) : list Z := match p with TextPiece t => t | PicturePiece _ => [] end.

(** The text, the parts and the pictures of a content. *)
Definition message_content (images : chat_images) (j : option json) : option (list Z * list chat_part * chat_images) :=
  match j with
  | None | Some (JLit LNull) => Some ([], [], images)
  | Some (JStr t) => Some (t, [], images)
  | Some (JArr l) =>
      ps ← mapM piece_decl l;
      '(parts, images) ← placed images ps;
      Some (concat (map piece_text ps), parts, images)
  | Some _ => None
  end.

(** A call counts when it has a name and arguments; arguments that are no string are
    taken as they are written. *)
Definition one_call_decl (w : list Z) (j : json) : option (list tool_call) :=
  match j with
  | JObj m =>
      i ← opt str_of (member m (bs "id"));
      f ← match member m (bs "function") with None => Some [] | Some (JObj f) => Some f | Some _ => None end;
      name ← opt str_of (member f (bs "name"));
      args ← opt (λ j, Some (match j with JStr s => s | _ => text w j end)) (member f (bs "arguments"));
      Some (match name, args with Some n, Some a => [Call i (Some n) (Some a)] | _, _ => [] end)
  | _ => None
  end.

Definition message_calls (w : list Z) (j : option json) : option tool_calls :=
  match j with
  | None | Some (JLit LNull) => Some (Calls [] None None)
  | Some (JArr l) => ls ← mapM (one_call_decl w) l; Some (Calls (concat ls) None None)
  | Some _ => None
  end.

(** A message: the role is "user" and the content empty when they are not given; an
    empty id is none. *)
Definition message_decl (w : list Z) (images : chat_images) (j : json) : option (chat_msg * chat_images) :=
  match j with
  | JObj m =>
      role ← opt str_of (member m (bs "role"));
      '(content, parts, images) ← message_content images (member m (bs "content"));
      reasoning ← opt content_text (member m (bs "reasoning_content"));
      i ← opt str_of (member m (bs "tool_call_id"));
      calls ← message_calls w (member m (bs "tool_calls"));
      let ids := match i with Some (c :: r) => [c :: r] | _ => [] end in
      Some (ChatMsg (Str (default (bs "user") role)) (Str content)
        (match reasoning with Some r => Str r | None => Null end) (hd_error ids) ids calls parts, images)
  | _ => None
  end.

Fixpoint message_list (w : list Z) (images : chat_images) (l : list json) : option (list chat_msg * chat_images) :=
  match l with
  | [] => Some ([], images)
  | j :: l =>
      '(m, images) ← message_decl w images j;
      '(ms, images) ← message_list w images l;
      Some (m :: ms, images)
  end.

Definition chat_decl (w : list Z) (images : chat_images) (j : json) : option chat :=
  match j with
  | JArr l => '(ms, images) ← message_list w images l; Some (Chat ms images)
  | _ => None
  end.

(** What a content leaves in a message. *)
Definition seen (b : building) : ptr * list chat_part * chat_images := (or_else (m_content (b_msg b)) [], m_parts (b_msg b), b_images b).

Lemma part_piece s j : part_decl s j = (p ← piece_decl j;
  match p with
  | TextPiece t => Some (with_msg s (chat_msg_append_text_part (b_msg s) t))
  | PicturePiece u =>
      match chat_images_add_data_uri (b_images s) u with
      | inl (images, i) => Some (Building (chat_msg_append_image_part (b_msg s) i) images)
      | inr _ => None
      end
  end).
Proof.
  destruct j as [l|n|t|l|m]; try done. unfold part_decl, piece_decl, block_decl.
  destruct (opt str_of (member m (bs "type"))) as [ty|]; [|done]. destruct (opt str_of (member m (bs "text"))) as [tx|]; [|done].
  destruct (opt image_url_decl (member m (bs "image_url"))) as [u|]; [|done]. cbn [mbind option_bind]. unfold add_block. cbn [k_type k_text k_image_url].
  destruct ty as [n|]; [|done].
  destruct (decide (n = bs "text")) as [->|H1]; [by destruct tx|].
  rewrite !(bool_decide_eq_false_2 (Some n = Some (bs "text"))), (bool_decide_eq_false_2 (n = bs "text")) by congruence.
  destruct (decide (n = bs "image_url")) as [->|H2].
  - rewrite !bool_decide_eq_true_2 by done. destruct u as [u|]; [|done]. cbn [fmap option_fmap option_map mbind option_bind].
    by destruct (chat_images_add_data_uri (b_images s) u) as [[im i]|e].
  - by rewrite !bool_decide_eq_false_2 by congruence.
Qed.

Lemma parts_seen l s : m_content (b_msg s) ≠ Freed →
  seen <$> in_turn part_decl s l = (ps ← mapM piece_decl l; '(parts, images) ← placed (b_images s) ps;
    Some (match m_content (b_msg s), ps with Null, [] => Str [] | o, _ => Str (old_text o ++ concat (map piece_text ps)) end,
      m_parts (b_msg s) ++ parts, images)).
Proof.
  revert s. induction l as [|j l IH]; intros s Hs.
  - cbn. unfold seen. rewrite app_nil_r. destruct (m_content (b_msg s)); [done|by rewrite app_nil_r|done].
  - cbn [in_turn mapM]. rewrite part_piece. destruct (piece_decl j) as [[t|u]|]; [| |done]; cbn [mbind option_bind].
    + rewrite IH by done. cbn [with_msg b_msg b_images]. destruct (mapM piece_decl l) as [ps|]; [|done]. cbn [mbind option_bind mret option_ret placed].
      destruct (placed (b_images s) ps) as [[parts im]|]; [|done]. cbn [mbind option_bind chat_msg_append_text_part with_content with_parts m_content m_parts old_text map concat piece_text].
      rewrite <- !app_assoc. by destruct (m_content (b_msg s)).
    + cbn [mret option_ret]. destruct (chat_images_add_data_uri (b_images s) u) as [[im i]|e] eqn:Eu.
      2: { destruct (mapM piece_decl l); [|done]. cbn [mbind option_bind mret option_ret placed]. by rewrite Eu. }
      cbn [mbind option_bind]. rewrite IH by done. cbn [b_msg b_images]. destruct (mapM piece_decl l) as [ps|]; [|done].
      cbn [mbind option_bind mret option_ret placed]. rewrite Eu. destruct (placed im ps) as [[parts im']|]; [|done].
      cbn [mbind option_bind chat_msg_append_image_part with_parts m_content m_parts map concat piece_text app]. rewrite <- app_assoc.
      destruct (m_content (b_msg s)), ps; done.
Qed.

Lemma content_seen images j : seen <$> or_start images j =
  ('(t, parts, images) ← message_content images j; Some (Str t, parts, images)).
Proof.
  destruct j as [[[]|n|t|l|m]|]; try done. cbn [or_start content_decl message_content].
  pose proof (parts_seen l (Building no_msg images) ltac:(done)) as H.
  transitivity (seen <$> in_turn part_decl (Building no_msg images) l).
  - destruct (in_turn _ _ l) as [b|]; [|done]. cbn. unfold seen, with_default. cbn. by destruct (m_content (b_msg b)).
  - rewrite H. destruct (mapM piece_decl l) as [ps|]; [|done]. cbn [mbind option_bind b_images]. destruct (placed images ps) as [[parts im]|]; [|done].
    cbn [mbind option_bind b_msg no_msg m_content m_parts app old_text]. by destruct ps.
Qed.

Lemma calls_seen w calls l :
  in_turn (λ calls j, match j with JObj m => push_call calls <$> call_decl w m | _ => None end) calls l =
  (ls ← mapM (one_call_decl w) l; Some (Calls (tcs calls ++ concat ls) (raw_dsml calls) (raw_tool_text calls))).
Proof.
  revert calls. induction l as [|j l IH]; intros calls; [cbn; rewrite app_nil_r; by destruct calls|]. cbn [in_turn mapM].
  assert ((match j with JObj m => push_call calls <$> call_decl w m | _ => None end) =
    (c ← one_call_decl w j; Some (Calls (tcs calls ++ c) (raw_dsml calls) (raw_tool_text calls)))) as ->.
  { destruct j as [l'|n|t|l'|m]; try done. unfold call_decl, one_call_decl. destruct (opt str_of (member m (bs "id"))) as [i|]; [|done].
    cbn [mbind option_bind]. destruct (member m (bs "function")) as [[l'|n|t|l'|f]|]; try done.
    - cbn [mbind option_bind]. unfold function_decl. destruct (opt str_of (member f (bs "name"))) as [n|]; [|done]. cbn [mbind option_bind].
      change (opt (arguments_text w)) with (opt (λ j, Some (match j with JStr s => s | _ => text w j end))).
      destruct (opt _ (member f (bs "arguments"))) as [a|]; [|done]. cbn. destruct calls as [cs d r].
      destruct n, a, i; cbn; rewrite ?app_nil_r; done.
    - cbn. rewrite app_nil_r. by destruct calls, i. }
  destruct (one_call_decl w j) as [c|]; [|done]. cbn [mbind option_bind]. rewrite IH. destruct (mapM _ l) as [ls|]; [|done].
  cbn. by rewrite <- app_assoc.
Qed.

Lemma calls_decl_seen w j : or_none w j = message_calls w j.
Proof.
  destruct j as [[[]|n|t|l|m]|]; try done. cbn [or_none calls_decl message_calls]. rewrite calls_seen. by destruct (mapM _ l).
Qed.

Lemma message_seen w images m :
  (λ r, (finished (r_msg r), b_images (r_built r))) <$> reading_decl w images m = message_decl w images (JObj m).
Proof.
  unfold reading_decl, message_decl. destruct (opt str_of (member m (bs "role"))) as [role|]; [|done]. cbn [mbind option_bind].
  pose proof (content_seen images (member m (bs "content"))) as Hc. rewrite calls_decl_seen.
  destruct (or_start images (member m (bs "content"))) as [b|]; destruct (message_content images (member m (bs "content"))) as [[[t parts] im]|]; try done.
  cbn [fmap option_fmap option_map mbind option_bind] in Hc |- *. unfold seen in Hc. injection Hc as Hc1 <- <-.
  destruct (opt content_text (member m (bs "reasoning_content"))) as [rs|]; [|done]. cbn [mbind option_bind].
  destruct (opt str_of (member m (bs "tool_call_id"))) as [i|]; [|done]. cbn [mbind option_bind].
  destruct (message_calls w (member m (bs "tool_calls"))) as [calls|]; [|done]. cbn [fmap option_fmap option_map r_msg r_built b_msg b_images].
  unfold finished. do 2 f_equal. destruct i as [[|c i]|]; cbn; rewrite Hc1; by destruct role.
Qed.

Lemma chat_seen w images j : chat_by_members w images j = chat_decl w images j.
Proof.
  destruct j as [l'|n|t|l|m]; try done. cbn [chat_by_members chat_decl].
  enough (∀ c, in_turn (λ c j, match j with
      | JObj m => r ← reading_decl w (c_images c) m; Some (Chat (c_msgs c ++ [finished (r_msg r)]) (b_images (r_built r)))
      | _ => None end) c l = ('(ms, im) ← message_list w (c_images c) l; Some (Chat (c_msgs c ++ ms) im))) as ->.
  { cbn [c_images]. by destruct (message_list w images l) as [[ms im]|]. }
  induction l as [|j l IH]; intros c; [cbn; rewrite app_nil_r; by destruct c|]. cbn [in_turn message_list].
  destruct j as [l'|n|t|l'|m]; try done. pose proof (message_seen w (c_images c) m) as Hm. rewrite <- Hm.
  destruct (reading_decl w (c_images c) m) as [r|]; [|done]. cbn [fmap option_fmap option_map mbind option_bind]. rewrite IH. cbn [c_images c_msgs].
  destruct (message_list w _ l) as [[ms im]|]; [|done]. cbn. by rewrite <- app_assoc.
Qed.

(** C20: The messages of an OpenAI request are accepted exactly if every one is an
    object whose members make sense, and what is read is written by the names of the
    members alone ([chat_decl]), so the order in which an object lists them does not
    matter: the role, "user" without one; the content, a text, nothing, or parts that
    are texts or pictures, the texts joined and the parts kept in order with the
    pictures that the request then holds (a part of any other kind is refused); the
    reasoning; the id of the call that a tool answers, unless it is empty; and the
    calls in order, those without a name or arguments left out.  This for the text of a
    JSON value with any white space around its tokens, followed by an end of value,
    whose objects name no member twice, whose numbers are well formed, whose names and
    strings hold no NUL character and that is nested at most as deep as the parser
    allows. *)
Theorem messages_by_name images pad w j q c :
  forallb isspace pad = true → forallb isspace w = true → json_okb j = true → depth j <= MAX_NESTING → delimited q = true →
  distinct j = true →
  parse_messages_mm images (pad ++ text w j ++ q) = Next c q ↔ chat_decl w images j = Some c.
Proof.
  intros Hp Hw Hok Hd Hq Hj. rewrite (messages_read w Hw), <- chat_seen, <- messages_by_members by done.
  destruct (messages_of w images j) as [s []|s e|]; cbn [at_ result]; split; congruence.
Qed.

(** A call and its answer, each with its role last; and the answer with its id first. *)
Definition call_message : json := JObj [(bs "tool_calls", JArr [JObj [(bs "function",
  JObj [(bs "arguments", JObj [(bs "n", JLit LNull)]); (bs "name", JStr (bs "f"))]); (bs "id", JStr (bs "a"))]]);
  (bs "content", JLit LNull); (bs "role", JStr (bs "assistant"))].
Definition answer_message : json := JObj [(bs "tool_call_id", JStr (bs "a"));
  (bs "content", JArr [JObj [(bs "text", JStr (bs "ok")); (bs "type", JStr (bs "text"))]]); (bs "role", JStr (bs "tool"))].

Example messages_by_name_witness : ∃ c,
  parse_messages_mm no_images (bs " " ++ text (bs " ") (JArr [call_message; answer_message]) ++ []) = Next c [] ∧ map m_role (c_msgs c) = [Str (bs "assistant"); Str (bs "tool")].
Proof.
  eexists. split.
  - apply (messages_by_name no_images (bs " ") (bs " ") (JArr [call_message; answer_message]) [] _ eq_refl eq_refl eq_refl
      ltac:(by apply Z.leb_le) eq_refl eq_refl). vm_compute. reflexivity.
  - vm_compute. reflexivity.
Defined.
