(* ===== verification/Ple.v ===== *)
(** * The embedding sidecar: rows and files (ds4_ple.c)

    The rows that the n-grams of a prompt select ([ds4_ple_hash_*]), the layout of the
    sidecar files with its two validations, and the place of a row in its file. *)

From S2P Require Import Prelude Float64.

Definition DS4_PLE_NGRAM_SIZE : Z := 3.
Definition DS4_PLE_HEADS_PER_NGRAM : Z := 8.
Definition DS4_PLE_N_HEADS : Z := 16.
Definition DS4_PLE_N_LOGICAL_PARTS : Z := 128.
Definition DS4_PLE_N_PHYSICAL_FILES : Z := 4.
Definition DS4_PLE_ROW_BYTES : Z := 320.
Definition DS4_PLE_FP8_ROW_BYTES : Z := 160.
Definition DS4_PLE_PAGE_BYTES : Z := 4096.
Definition DS4_PLE_PATH_CAP : Z := 256.
Definition DS4_PLE_CACHE_WAYS : Z := 16.
Definition DS4_PLE_FP8_SCALE_BITS : Z := 14673.
Definition DS4_PLE_ROWS_PER_PART : Z := 2500012.
Definition DS4_PLE_PARTS_PER_FILE : Z := 32.

(** The messages of [ple_error]. *)
Inductive ple_error :=
| VocabularyZero | EosOutside | MultiplierNotOdd (i : Z) | MultiplierOverflow (i : Z)
| HeadEmpty (i : Z) | HeadGap (i : Z) | HeadSumOverflow | TokenOutside (i : Z)
| AggregateSizes | PartMapping (i : Z) | PartAlignment (i : Z) | PartPayload (i : Z) | PartOverflow | PartAggregates
| FileDescriptor (i : Z) | FileOverflow | FileAggregates | PartExceeds (i : Z) | HeadsMismatch | Fp8Controls | Fp8Part (i : Z) | Fp8File (i : Z)
| HostNoRoot | HostFormat | HostFile (i : Z) | HostPart (i : Z) | HostRows | WorkerCount | CachePages
| RowOutside (row : Z) | RowGap | OutsideSidecar | QueueFull | Stopping | ReadFailed (errno : Z) | NoProgress.

(** ** N-gram hashing *)

Record ds4_ple_hash_config := HashConfig {
  unigram_vocab_size : Z; eos_token_id : Z;
  layer_multipliers : list Z; head_vocab_sizes : list Z; head_offsets : list Z }.

Definition INT64_MAX : Z := 2 ^ 63 - 1.

(** The loop over the multipliers, from index [i] on. *)
Fixpoint check_multipliers (max_token i : Z) (l : list Z) : option ple_error :=
  match l with
  | [] => None
  | multiplier :: l =>
      if (multiplier =? 0) || (Z.land multiplier 1 =? 0) then Some (MultiplierNotOdd i)
      else if negb (max_token =? 0) && (INT64_MAX / max_token <? multiplier) then Some (MultiplierOverflow i)
      else check_multipliers max_token (i + 1) l
  end.

(** The loop over the heads: their sizes and offsets. *)
Fixpoint check_heads (next_offset i : Z) (sizes offsets : list Z) : option ple_error :=
  match sizes, offsets with
  | size :: sizes, offset :: offsets =>
      if size =? 0 then Some (HeadEmpty i)
      else if negb (offset =? next_offset) then Some (HeadGap i)
      else if UINT64_MAX - next_offset <? size then Some HeadSumOverflow
      else check_heads (next_offset + size) (i + 1) sizes offsets
  | _, _ => None
  end.

Definition ds4_ple_hash_config_validate (c : ds4_ple_hash_config) : option ple_error :=
  if unigram_vocab_size c =? 0 then Some VocabularyZero
  else if unigram_vocab_size c <=? eos_token_id c then Some EosOutside
  else match check_multipliers (unigram_vocab_size c - 1) 0 (layer_multipliers c) with
  | Some e => Some e
  | None => check_heads 0 0 (head_vocab_sizes c) (head_offsets c)
  end.

(** previous[0] and previous[1] *)
Record ds4_ple_hash_state := HashState { older : Z; newer : Z }.

Definition ds4_ple_hash_state_reset (c : ds4_ple_hash_config) : ds4_ple_hash_state := HashState (eos_token_id c) (eos_token_id c).

(** One head's row of a hash value. *)
Definition head_row (c : ds4_ple_hash_config) (hash head : Z) : Z :=
  u64 (hash mod znth 0 (head_vocab_sizes c) head + znth 0 (head_offsets c) head).

(** The rows of one token, and the state behind it. *)
Definition token_rows (c : ds4_ple_hash_config) (s : ds4_ple_hash_state) (id : Z) : list Z * ds4_ple_hash_state :=
  let current := u64 id in
  let previous_1 := u64 (newer s) in
  let previous_2 := u64 (if newer s =? eos_token_id c then eos_token_id c else older s) in
  let bigram := Z.lxor (u64 (current * znth 0 (layer_multipliers c) 0)) (u64 (previous_1 * znth 0 (layer_multipliers c) 1)) in
  let trigram := Z.lxor bigram (u64 (previous_2 * znth 0 (layer_multipliers c) 2)) in
  (map (head_row c bigram) (seqZ 0 DS4_PLE_HEADS_PER_NGRAM) ++
   map (head_row c trigram) (seqZ DS4_PLE_HEADS_PER_NGRAM DS4_PLE_HEADS_PER_NGRAM),
   HashState (newer s) current).

Fixpoint hash_loop (c : ds4_ple_hash_config) (s : ds4_ple_hash_state) (ids : list Z) : list Z * ds4_ple_hash_state :=
  match ids with
  | [] => ([], s)
  | id :: ids =>
      let '(rows, s) := token_rows c s id in
      let '(rest, s) := hash_loop c s ids in
      (rows ++ rest, s)
  end.

Definition token_outside (c : ds4_ple_hash_config) (id : Z) : bool := (id <? 0) || (unigram_vocab_size c <=? id).

Fixpoint first_outside (c : ds4_ple_hash_config) (i : Z) (ids : list Z) : option Z :=
  match ids with
  | [] => None
  | id :: ids => if token_outside c id then Some i else first_outside c (i + 1) ids
  end.

(** The rows and the new state; an error leaves the state as it is. *)
Definition ds4_ple_hash_rows (c : ds4_ple_hash_config) (s : ds4_ple_hash_state) (ids : list Z) :
    (list Z + ple_error) * ds4_ple_hash_state :=
  match ds4_ple_hash_config_validate c with
  | Some e => (inr e, s)
  | None =>
      match first_outside c 0 ids with
      | Some i => (inr (TokenOutside i), s)
      | None => let '(rows, s) := hash_loop c s ids in (inl rows, s)
      end
  end.

(** ** The layout *)

Record ds4_ple_logical_part := LogicalPart {
  logical_part : Z; row_stride_bytes : Z; physical_file_index : Z; global_row_start : Z;
  rows : Z; file_offset : Z; payload_bytes : Z; physical_file : list Z }.
Record ds4_ple_physical_file := PhysicalFile { index : Z; file_bytes : Z; file_payload : Z; path : list Z }.

(** The fields of [ds4_ple_layout] that are checked or used. *)
Record ds4_ple_layout := Layout {
  format_version : Z; row_stride : Z; usable_vocabulary_rows : Z; padded_vocabulary_rows : Z;
  total_payload_bytes : Z; total_file_bytes : Z }.

(** What [struct ds4_ple_store] knows of the files. *)
Record sidecar := Sidecar {
  layout : ds4_ple_layout; hash_config : ds4_ple_hash_config;
  logical : list ds4_ple_logical_part; physical : list ds4_ple_physical_file }.

Definition no_part : ds4_ple_logical_part := LogicalPart 0 0 0 0 0 0 0 [].
Definition no_file : ds4_ple_physical_file := PhysicalFile 0 0 0 [].

(** The segments of a path, checked as the loop reaches each end. *)
Fixpoint segments_ok (segment : list Z) (p : list Z) : bool :=
  let bad := bool_decide (segment = []) || bool_decide (segment = bs ".") || bool_decide (segment = bs "..") in
  match p with
  | [] => negb bad
  | c :: p => if c =? ch "/" then negb bad && segments_ok [] p else segments_ok (segment ++ [c]) p
  end.
Definition path_is_safe_relative (p : list Z) : bool :=
  match p with
  | [] => false
  | c :: _ => if c =? ch "/" then false else segments_ok [] p
  end.

(** *** manifest_validate_layout *)

Definition align_page (n : Z) : Z := Z.land (u64 (n + DS4_PLE_PAGE_BYTES - 1)) (UINT64_MAX - (DS4_PLE_PAGE_BYTES - 1)).

Definition aggregates_ok (l : ds4_ple_layout) (fp8 : bool) : bool :=
  (usable_vocabulary_rows l =? 320001446) && (padded_vocabulary_rows l =? 320001536) &&
  (total_payload_bytes l =? u64 (320001536 * row_stride l)) &&
  (total_file_bytes l =? if fp8 then 51200393216 else 102400786432).

(** The rows and the bytes of the parts, or the message. *)
Fixpoint check_parts (stride i row_cursor payload_sum : Z) (l : list ds4_ple_logical_part) : Z * Z + ple_error :=
  match l with
  | [] => inl (row_cursor, payload_sum)
  | part :: l =>
      if negb (logical_part part =? i) || negb (global_row_start part =? row_cursor) || (rows part =? 0) ||
         (DS4_PLE_N_PHYSICAL_FILES <=? physical_file_index part) then inr (PartMapping i)
      else if negb (file_offset part mod DS4_PLE_PAGE_BYTES =? 0) then inr (PartAlignment i)
      else if negb (row_stride_bytes part =? stride) || (UINT64_MAX / stride <? rows part) ||
              negb (payload_bytes part =? u64 (rows part * stride)) then inr (PartPayload i)
      else if (UINT64_MAX - row_cursor <? rows part) || (UINT64_MAX - payload_sum <? payload_bytes part) then inr PartOverflow
      else check_parts stride (i + 1) (row_cursor + rows part) (payload_sum + payload_bytes part) l
  end.

Fixpoint check_files (i file_sum payload_sum : Z) (l : list ds4_ple_physical_file) : Z * Z + ple_error :=
  match l with
  | [] => inl (file_sum, payload_sum)
  | file :: l =>
      if negb (index file =? i) || negb (path_is_safe_relative (path file)) || (file_bytes file =? 0) ||
         negb (file_bytes file mod DS4_PLE_PAGE_BYTES =? 0) then inr (FileDescriptor i)
      else if (UINT64_MAX - file_sum <? file_bytes file) || (UINT64_MAX - payload_sum <? file_payload file) then inr FileOverflow
      else check_files (i + 1) (file_sum + file_bytes file) (payload_sum + file_payload file) l
  end.

(** Each part inside the file that it names. *)
Fixpoint check_inside (files : list ds4_ple_physical_file) (i : Z) (l : list ds4_ple_logical_part) : option ple_error :=
  match l with
  | [] => None
  | part :: l =>
      let file := znth no_file files (physical_file_index part) in
      if negb (streq (physical_file part) (path file)) || (file_bytes file <? file_offset part) ||
         (file_bytes file - file_offset part <? payload_bytes part) then Some (PartExceeds i)
      else check_inside files (i + 1) l
  end.

Definition fp8_multipliers : list Z := [23703573157769; 20109073645365; 8052911324071].
Definition fp8_vocabs : list Z :=
  [20000003; 20000023; 20000033; 20000047; 20000059; 20000063; 20000069; 20000077;
   20000081; 20000093; 20000107; 20000147; 20000153; 20000159; 20000161; 20000171].
Definition fp8_payload : Z := DS4_PLE_ROWS_PER_PART * DS4_PLE_FP8_ROW_BYTES.
Definition fp8_aligned : Z := align_page fp8_payload.

Fixpoint check_fp8_parts (i : Z) (l : list ds4_ple_logical_part) : option ple_error :=
  match l with
  | [] => None
  | part :: l =>
      if negb (rows part =? DS4_PLE_ROWS_PER_PART) || negb (physical_file_index part =? i / DS4_PLE_PARTS_PER_FILE) ||
         negb (file_offset part =? i mod DS4_PLE_PARTS_PER_FILE * fp8_aligned) then Some (Fp8Part i)
      else check_fp8_parts (i + 1) l
  end.
Fixpoint check_fp8_files (i : Z) (l : list ds4_ple_physical_file) : option ple_error :=
  match l with
  | [] => None
  | file :: l =>
      if negb (file_bytes file =? DS4_PLE_PARTS_PER_FILE * fp8_aligned) || negb (file_payload file =? DS4_PLE_PARTS_PER_FILE * fp8_payload)
      then Some (Fp8File i) else check_fp8_files (i + 1) l
  end.
Definition check_fp8 (s : sidecar) : option ple_error :=
  if negb (bool_decide (layer_multipliers (hash_config s) = fp8_multipliers)) ||
     negb (bool_decide (head_vocab_sizes (hash_config s) = fp8_vocabs)) then Some Fp8Controls
  else match check_fp8_parts 0 (logical s) with Some e => Some e | None => check_fp8_files 0 (physical s) end.

(** [None] if the layout is valid. *)
Definition manifest_validate_layout (s : sidecar) : option ple_error :=
  let l := layout s in
  let fp8 := format_version l =? 2 in
  if negb (aggregates_ok l fp8) then Some AggregateSizes
  else match check_parts (row_stride l) 0 0 0 (logical s) with
  | inr e => Some e
  | inl (row_cursor, payload_sum) =>
      if negb (row_cursor =? padded_vocabulary_rows l) || negb (payload_sum =? total_payload_bytes l) then Some PartAggregates
      else match check_files 0 0 0 (physical s) with
      | inr e => Some e
      | inl (file_sum, file_payload_sum) =>
          if negb (file_sum =? total_file_bytes l) || negb (file_payload_sum =? total_payload_bytes l) then Some FileAggregates
          else match check_inside (physical s) 0 (logical s) with
          | Some e => Some e
          | None =>
              let last := DS4_PLE_N_HEADS - 1 in
              if negb (u64 (znth 0 (head_offsets (hash_config s)) last + znth 0 (head_vocab_sizes (hash_config s)) last)
                       =? usable_vocabulary_rows l) then Some HeadsMismatch
              else if fp8 then check_fp8 s else None
          end
      end
  end.

(** *** ds4_ple_store_open_host *)

Record ds4_host_ple_part := HostPartRec { row_start : Z; hp_rows : Z; hp_offset : Z; hp_file : Z }.
Record ds4_host_ple_file := HostFileRec { hf_name : list Z; hf_bytes : Z }.
Record ds4_host_ple := HostPle {
  root : list Z; version : Z; hp_row_stride : Z; usable_rows : Z; padded_rows : Z; vocab : Z; eos : Z;
  multipliers : list Z; head_vocab : list Z; head_offset : list Z; workers : Z; hp_cache_bytes : Z;
  parts : list ds4_host_ple_part; files : list ds4_host_ple_file }.

(** store_begin: the policy of workers and pages; the number of cache slots. *)
Definition store_begin (cache_bytes worker_count : Z) : Z + ple_error :=
  if (worker_count =? 0) || (64 <? worker_count) then inr WorkerCount
  else
    let requested_slots := cache_bytes / DS4_PLE_PAGE_BYTES in
    let slots := requested_slots - requested_slots mod DS4_PLE_CACHE_WAYS in
    if (slots <? DS4_PLE_CACHE_WAYS) || (UINT32_MAX <? slots) then inr CachePages
    else inl slots.

Fixpoint host_files (i : Z) (l : list ds4_host_ple_file) : list ds4_ple_physical_file + ple_error :=
  match l with
  | [] => inl []
  | f :: l =>
      if negb (path_is_safe_relative (hf_name f)) || (DS4_PLE_PATH_CAP <=? blen (hf_name f)) || (hf_bytes f =? 0) ||
         negb (hf_bytes f mod DS4_PLE_PAGE_BYTES =? 0) then inr (HostFile i)
      else match host_files (i + 1) l with
      | inl r => inl (PhysicalFile i (hf_bytes f) 0 (hf_name f) :: r)
      | inr e => inr e
      end
  end.

Definition no_host_file : ds4_host_ple_file := HostFileRec [] 0.

Definition part_inside (h : ds4_host_ple) (cursor : Z) (p : ds4_host_ple_part) : bool :=
  (hp_file p <? DS4_PLE_N_PHYSICAL_FILES) && (0 <? hp_rows p) && (hp_rows p <=? UINT64_MAX - cursor) &&
  (hp_rows p <=? UINT64_MAX / hp_row_stride h) && (hp_offset p mod DS4_PLE_PAGE_BYTES =? 0) &&
  (hp_offset p <=? hf_bytes (znth no_host_file (files h) (hp_file p))) &&
  (u64 (hp_rows p * hp_row_stride h) <=? hf_bytes (znth no_host_file (files h) (hp_file p)) - hp_offset p).

(** The parts and where their rows end. *)
Fixpoint host_parts (h : ds4_host_ple) (i cursor : Z) (l : list ds4_host_ple_part) : list ds4_ple_logical_part * Z + ple_error :=
  match l with
  | [] => inl ([], cursor)
  | p :: l =>
      if negb (row_start p =? cursor) || negb (part_inside h cursor p) then inr (HostPart i)
      else match host_parts h (i + 1) (cursor + hp_rows p) l with
      | inl (r, cursor) =>
          inl (LogicalPart i (hp_row_stride h) (hp_file p) (row_start p) (hp_rows p) (hp_offset p)
                 (u64 (hp_rows p * hp_row_stride h)) (hf_name (znth no_host_file (files h) (hp_file p))) :: r, cursor)
      | inr e => inr e
      end
  end.

(** The checks of the host's description: the files and their rows, and the number of
    cache slots. *)
Definition host_sidecar (h : ds4_host_ple) : sidecar * Z + ple_error :=
  match root h with
  | [] => inr HostNoRoot
  | _ =>
      let fp8 := version h =? 2 in
      if (negb fp8 && negb (version h =? 1)) ||
         negb (hp_row_stride h =? if fp8 then DS4_PLE_FP8_ROW_BYTES else DS4_PLE_ROW_BYTES) then inr HostFormat
      else match store_begin (hp_cache_bytes h) (workers h) with
      | inr e => inr e
      | inl slots =>
          let c := HashConfig (vocab h) (eos h) (multipliers h) (head_vocab h) (head_offset h) in
          match ds4_ple_hash_config_validate c with
          | Some e => inr e
          | None =>
              match host_files 0 (files h) with
              | inr e => inr e
              | inl fs =>
                  match host_parts h 0 0 (parts h) with
                  | inr e => inr e
                  | inl (ps, cursor) =>
                      if negb (cursor =? padded_rows h) || (cursor <? usable_rows h) || (UINT64_MAX / hp_row_stride h <? cursor)
                      then inr HostRows
                      else inl (Sidecar (Layout (version h) (hp_row_stride h) (usable_rows h) (padded_rows h)
                                  (u64 (cursor * hp_row_stride h)) (u64 (foldr Z.add 0 (map hf_bytes (files h))))) c ps fs, slots)
                  end
              end
          end
      end
  end.

(** ** The place of a row *)

(** The binary search: the last part that starts at or before the row. *)
Fixpoint find_part (l : list ds4_ple_logical_part) (row : Z) (fuel : nat) (low high : Z) : Z :=
  match fuel with
  | O => low
  | S fuel =>
      if low + 1 <? high then
        let mid := low + (high - low) / 2 in
        if global_row_start (znth no_part l mid) <=? row then find_part l row fuel mid high else find_part l row fuel low mid
      else low
  end.

Definition resolve_row (s : sidecar) (global_row : Z) : Z * Z + ple_error :=
  if usable_vocabulary_rows (layout s) <=? global_row then inr (RowOutside global_row)
  else
    let part := znth no_part (logical s) (find_part (logical s) global_row 128 0 DS4_PLE_N_LOGICAL_PARTS) in
    let local := u64 (global_row - global_row_start part) in
    if rows part <=? local then inr RowGap
    else inl (physical_file_index part, u64 (file_offset part + local * row_stride (layout s))).

(** ** FP8 rows *)

(** The float behind one E4M3FN code and its product with the scale, rounded to the
    upper half of a word. *)
Definition decode_code (scale : spec_float) (code : Z) : Z :=
  let exponent := Z.land (Z.shiftr code 3) 15 in
  let mantissa := Z.land code 7 in
  let sign := Z.shiftl (Z.land code 128) 8 in
  if (exponent =? 15) && (mantissa =? 7) then Z.lor sign 32704
  else
    let value := if negb (exponent =? 0) then F32.ldexp (F32.of_Z (8 + mantissa)) (exponent - 10)
                 else F32.ldexp (F32.of_Z mantissa) (-9) in
    let value := if negb (sign =? 0) then SFopp value else value in
    let word := F32.to_bits (F32.mul value scale) in
    let word := u32 (word + u32 (32767 + Z.land (Z.shiftr word 16) 1)) in
    u16 (Z.shiftr word 16).

Definition store_build_decode_table (scale_bits : Z) : list Z :=
  map (decode_code (F32.of_bits (Z.shiftl scale_bits 16))) (seqZ 0 256).
