(* ===== verification/PleSpec.v ===== *)
(** * Rows of the embedding sidecar (ds4_ple.c)

    The rows of a text by the definition of its n-grams, however the text is cut into
    batches; and that a validated layout puts each usable row inside a file. *)

From S2P Require Import Prelude Float64 Ple.

(** ** N-grams *)

Section ngrams.
Context (c : ds4_ple_hash_config).

Definition token_ok (id : Z) : bool := (0 <=? id) && (id <? unigram_vocab_size c).

(** The numbers of a configuration that was read from 32-bit and 64-bit fields. *)
Record config_ok : Prop := {
  ok_valid : ds4_ple_hash_config_validate c = None;
  ok_heads : blen (head_vocab_sizes c) = 16;
  ok_offsets : blen (head_offsets c) = 16;
  ok_multipliers : Forall (λ m, 0 <= m) (layer_multipliers c);
  ok_sizes : Forall (λ n, 0 <= n) (head_vocab_sizes c);
  ok_eos : 0 <= eos_token_id c;
  ok_vocab : unigram_vocab_size c < 2 ^ 32 }.

(** The token [k] places before place [i]; before the text there is only EOS. *)
Definition token_at (ids : list Z) (i : Z) : Z := if i <? 0 then eos_token_id c else znth 0 ids i.

(** The same, but a window does not reach past an EOS between the two places. *)
Definition shifted (ids : list Z) (i k : Z) : Z :=
  if existsb (λ j, token_at ids (i - j) =? eos_token_id c) (seqZ 1 (k - 1)) then eos_token_id c else token_at ids (i - k).

Definition ngram_hash (ids : list Z) (i n : Z) : Z :=
  foldl Z.lxor 0 (map (λ k, shifted ids i k * znth 0 (layer_multipliers c) k) (seqZ 0 n)).

(** The row that head [h] selects for the token at place [i]: heads 0 to 7 hash two
    tokens, heads 8 to 15 three. *)
Definition reference_row (ids : list Z) (i h : Z) : Z :=
  ngram_hash ids i (if h <? 8 then 2 else 3) mod znth 0 (head_vocab_sizes c) h + znth 0 (head_offsets c) h.

Definition reference_rows (ids : list Z) : list Z :=
  concat (map (λ i, map (reference_row ids i) (seqZ 0 16)) (seqZ 0 (blen ids))).

(** The batches of a text, one after the other. *)
Fixpoint hash_batches (s : ds4_ple_hash_state) (batches : list (list Z)) : option (list Z * ds4_ple_hash_state) :=
  match batches with
  | [] => Some ([], s)
  | b :: batches =>
      match ds4_ple_hash_rows c s b with
      | (inl rows, s) => '(rest, s) ← hash_batches s batches; Some (rows ++ rest, s)
      | (inr _, _) => None
      end
  end.

(** *** What validation says *)

Lemma multipliers_bounded max_token i l : check_multipliers max_token i l = None → 0 <= max_token → Forall (λ m, 0 <= m) l →
  Forall (λ m, m * max_token <= INT64_MAX) l.
Proof.
  intros H Hm Hl. revert i H. induction Hl as [|m l Hm0 Hl IH]; intros i H; [done|]. cbn [check_multipliers] in H.
  destruct (_ || _); [done|]. destruct (negb (max_token =? 0) && (INT64_MAX / max_token <? m)) eqn:E; [done|].
  constructor; [|by eapply IH]. apply andb_false_iff in E as [E|E].
  - apply negb_false_iff, Z.eqb_eq in E as ->. unfold INT64_MAX. lia.
  - apply Z.ltb_ge in E. destruct (Z.eq_dec max_token 0) as [->|Hne]; [unfold INT64_MAX; lia|].
    pose proof (Z.mul_div_le INT64_MAX max_token ltac:(lia)). nia.
Qed.

Lemma heads_bounded next i sizes offsets : check_heads next i sizes offsets = None → blen sizes = blen offsets → 0 <= next → Forall (λ n, 0 <= n) sizes →
  ∀ h, 0 <= h < blen sizes → 0 < znth 0 sizes h ∧ next <= znth 0 offsets h ∧ znth 0 offsets h + znth 0 sizes h <= UINT64_MAX.
Proof.
  revert next i offsets. induction sizes as [|size sizes IH]; intros next i offsets H Hl Hn Hs h Hh; [change (0 <= h < 0) in Hh; lia|].
  pose proof (blen_nonneg sizes). destruct offsets as [|offset offsets]; rewrite ?blen_cons in *; [change (blen []) with 0 in Hl; lia|].
  apply Forall_cons in Hs as [Hs0 Hs]. cbv beta in Hs0. cbn [check_heads] in H. destruct (Z.eqb_spec size 0); [done|].
  destruct (Z.eqb_spec offset next) as [->|]; [|done]. cbn [negb] in H. destruct (Z.ltb_spec (UINT64_MAX - next) size); [done|].
  destruct (Z.eq_dec h 0) as [->|]; [unfold znth; change (Z.to_nat 0) with O; cbn; lia|].
  assert (∀ d (x : Z) l, znth d (x :: l) h = znth d l (h - 1)) as Hz.
  { intros. unfold znth. replace (Z.to_nat h) with (S (Z.to_nat (h - 1))) by lia. done. }
  rewrite !Hz. destruct (IH (next + size) (i + 1) offsets H) with (h := h - 1) as (? & ? & ?); [lia|lia|done|lia|lia].
Qed.

Lemma lxor_bound a b n : 0 <= n → 0 <= a < 2 ^ n → 0 <= b < 2 ^ n → 0 <= Z.lxor a b < 2 ^ n.
Proof.
  intros Hn Ha Hb. split; [apply Z.lxor_nonneg; lia|]. destruct (Z.eq_dec (Z.lxor a b) 0) as [->|]; [lia|].
  assert (0 <= Z.lxor a b) by (apply Z.lxor_nonneg; lia). apply Z.log2_lt_pow2; [lia|].
  pose proof (Z.log2_lxor a b ltac:(lia) ltac:(lia)).
  assert (∀ x, 0 <= x < 2 ^ n → Z.log2 x < n ∨ x = 0) as Hx.
  { intros x Hx. destruct (Z.eq_dec x 0); [by right|]. left. apply Z.log2_lt_pow2; lia. }
  destruct (Hx a Ha) as [?| ->], (Hx b Hb) as [?| ->]; try (rewrite Z.lxor_0_l in *); try (rewrite Z.lxor_0_r in *); try lia; done.
Qed.

Context (Hok : config_ok).

Lemma vocab_bounds : 0 <= eos_token_id c < unigram_vocab_size c.
Proof using Hok.
  destruct Hok as [H _ _ _ _ He _]. unfold ds4_ple_hash_config_validate in H. destruct (_ =? 0); [done|].
  destruct (Z.leb_spec (unigram_vocab_size c) (eos_token_id c)); [done|lia].
Qed.

Lemma product_fits id k : 0 <= id < unigram_vocab_size c → 0 <= id * znth 0 (layer_multipliers c) k < 2 ^ 63.
Proof using Hok.
  intros Hid. pose proof vocab_bounds as Hv. destruct Hok as [H _ _ Hm _ _ _]. unfold ds4_ple_hash_config_validate in H.
  destruct (_ =? 0); [done|]. destruct (_ <=? _); [done|]. destruct (check_multipliers _ _ _) eqn:E; [done|].
  apply multipliers_bounded in E; [|clear - Hv; lia|done].
  pose proof (znth_Forall _ 0 _ k Hm ltac:(cbv beta; lia)) as H0. pose proof (znth_Forall _ 0 _ k E ltac:(cbv beta; unfold INT64_MAX; lia)) as H1. cbv beta in *.
  unfold INT64_MAX in H1. split; [nia|]. set (m := znth _ _ k) in *.
  assert (id * m <= m * (unigram_vocab_size c - 1)) by nia. lia.
Qed.

Lemma head_range hash h : 0 <= h < 16 → 0 < znth 0 (head_vocab_sizes c) h ∧
  0 <= znth 0 (head_offsets c) h <= hash mod znth 0 (head_vocab_sizes c) h + znth 0 (head_offsets c) h ∧
  hash mod znth 0 (head_vocab_sizes c) h + znth 0 (head_offsets c) h < znth 0 (head_offsets c) h + znth 0 (head_vocab_sizes c) h <= UINT64_MAX.
Proof using Hok.
  intros Hh. destruct Hok as [H H16 Ho _ Hs _ _]. unfold ds4_ple_hash_config_validate in H.
  destruct (_ =? 0); [done|]. destruct (_ <=? _); [done|]. destruct (check_multipliers _ _ _); [done|].
  destruct (heads_bounded 0 0 _ _ H ltac:(lia) ltac:(lia) Hs h ltac:(lia)) as (H1 & H2 & H3).
  pose proof (Z.mod_pos_bound hash (znth 0 (head_vocab_sizes c) h) H1). lia.
Qed.

(** *** The loop *)

(** The state behind a text. *)
Definition state_of (ids : list Z) : ds4_ple_hash_state :=
  HashState (token_at ids (blen ids - 2)) (token_at ids (blen ids - 1)).

Lemma token_at_app ids ids' i : i < blen ids → token_at (ids ++ ids') i = token_at ids i.
Proof. intros Hi. unfold token_at. destruct (Z.ltb_spec i 0); [done|]. unfold znth, blen in *. rewrite app_nth1; [done|lia]. Qed.

Lemma token_at_mid ids id ids' : token_at (ids ++ id :: ids') (blen ids) = id.
Proof.
  unfold token_at. pose proof (blen_nonneg ids). destruct (Z.ltb_spec (blen ids) 0); [lia|].
  unfold znth, blen. by rewrite Nat2Z.id, nth_middle.
Qed.

Definition in_vocab (id : Z) : Prop := 0 <= id < unigram_vocab_size c.

Lemma token_at_vocab ids i : Forall in_vocab ids → in_vocab (token_at ids i).
Proof using Hok.
  intros H. unfold token_at. pose proof vocab_bounds. destruct (i <? 0); [done|].
  destruct (decide (Z.to_nat i < length ids)%nat) as [Hi|Hi].
  - apply List.Forall_forall with (x := znth 0 ids i) in H; [done|]. by apply nth_In.
  - unfold znth. rewrite nth_overflow by lia. unfold in_vocab. lia.
Qed.

Lemma token_step pre id post : Forall in_vocab pre → in_vocab id →
  token_rows c (state_of pre) id = (map (reference_row (pre ++ id :: post) (blen pre)) (seqZ 0 16), state_of (pre ++ [id])).
Proof using Hok.
  intros Hpre Hid. pose proof (ok_vocab Hok) as Hv. pose proof vocab_bounds as Heos.
  pose proof (token_at_vocab pre (blen pre - 1) Hpre) as H1. pose proof (token_at_vocab pre (blen pre - 2) Hpre) as H2.
  unfold token_rows. cbv zeta. cbn [newer older state_of].
  set (t1 := token_at pre (blen pre - 1)) in *. set (t2 := token_at pre (blen pre - 2)) in *.
  set (m2 := if t1 =? eos_token_id c then eos_token_id c else t2). assert (in_vocab m2) as Hm2 by (unfold m2, in_vocab in *; case_match; lia).
  unfold in_vocab in *. assert (∀ x, 0 <= x < unigram_vocab_size c → u64 x = x) as Hu by (intros; apply wrap_id; flia).
  rewrite (Hu id), (Hu t1), (Hu m2) by done. assert (∀ x k, 0 <= x < unigram_vocab_size c → u64 (x * znth 0 (layer_multipliers c) k) = x * znth 0 (layer_multipliers c) k) as Hp.
  { intros x k Hx. pose proof (product_fits x k Hx). apply wrap_id. flia. }
  rewrite !Hp by done. f_equal.
  - set (ids := pre ++ id :: post).
    assert (shifted ids (blen pre) 0 = id) as S0.
    { unfold shifted. change (seqZ 1 (0 - 1)) with (@nil Z). cbn. rewrite Z.sub_0_r. apply token_at_mid. }
    assert (shifted ids (blen pre) 1 = t1) as S1.
    { unfold shifted. change (seqZ 1 (1 - 1)) with (@nil Z). cbn. apply token_at_app. lia. }
    assert (shifted ids (blen pre) 2 = m2) as S2.
    { unfold shifted. change (seqZ 1 (2 - 1)) with [1]. cbn [existsb]. rewrite orb_false_r. unfold ids. rewrite !token_at_app by lia. done. }
    assert (ngram_hash ids (blen pre) 2 = Z.lxor (id * znth 0 (layer_multipliers c) 0) (t1 * znth 0 (layer_multipliers c) 1)) as N2.
    { unfold ngram_hash. change (seqZ 0 2) with [0; 1]. cbn [map foldl]. rewrite Z.lxor_0_l, S0, S1. done. }
    assert (ngram_hash ids (blen pre) 3 = Z.lxor (Z.lxor (id * znth 0 (layer_multipliers c) 0) (t1 * znth 0 (layer_multipliers c) 1))
      (m2 * znth 0 (layer_multipliers c) 2)) as N3.
    { unfold ngram_hash. change (seqZ 0 3) with [0; 1; 2]. cbn [map foldl]. rewrite Z.lxor_0_l, S0, S1, S2. done. }
    change (seqZ 0 16) with (seqZ 0 DS4_PLE_HEADS_PER_NGRAM ++ seqZ DS4_PLE_HEADS_PER_NGRAM DS4_PLE_HEADS_PER_NGRAM). rewrite map_app.
    f_equal; apply map_ext_in; intros h Hin; apply list_elem_of_In, elem_of_seqZ in Hin; unfold DS4_PLE_HEADS_PER_NGRAM in Hin;
      unfold reference_row, head_row.
    + rewrite (proj2 (Z.ltb_lt h 8)) by lia. rewrite N2. apply wrap_id.
      pose proof (head_range (Z.lxor (id * znth 0 (layer_multipliers c) 0) (t1 * znth 0 (layer_multipliers c) 1)) h ltac:(lia)). flia.
    + rewrite (proj2 (Z.ltb_ge h 8)) by lia. rewrite <- N3. apply wrap_id. pose proof (head_range (ngram_hash ids (blen pre) 3) h ltac:(lia)). flia.
  - unfold state_of. rewrite blen_snoc. replace (blen pre + 1 - 2) with (blen pre - 1) by lia. replace (blen pre + 1 - 1) with (blen pre) by lia.
    rewrite token_at_app by lia. by rewrite token_at_mid.
Qed.

Lemma loop_rows pre l post : Forall in_vocab pre → Forall in_vocab l →
  hash_loop c (state_of pre) l =
    (concat (map (λ i, map (reference_row (pre ++ l ++ post) i) (seqZ 0 16)) (seqZ (blen pre) (blen l))), state_of (pre ++ l)).
Proof using Hok.
  intros Hpre Hl. revert pre Hpre. induction Hl as [|id l Hid Hl IH]; intros pre Hpre; cbn [hash_loop app]; [by rewrite app_nil_r|].
  rewrite (token_step pre id (l ++ post)) by done.
  rewrite IH by (apply Forall_app; split; [done|by constructor]). rewrite <- !app_assoc. cbn [app].
  rewrite blen_cons, (seqZ_cons (blen pre)) by (pose proof (blen_nonneg l); lia). cbn [map concat]. rewrite blen_snoc.
  replace (Z.pred (1 + blen l)) with (blen l) by lia. done.
Qed.

Lemma none_outside i l : Forall in_vocab l → first_outside c i l = None.
Proof.
  intros Hl. revert i. induction Hl as [|id l Hid Hl IH]; intros i; [done|]. cbn [first_outside].
  unfold token_outside, in_vocab in *. rewrite (proj2 (Z.ltb_ge _ _)), (proj2 (Z.leb_gt _ _)) by lia. cbn. apply IH.
Qed.

Lemma batches_rows pre batches : Forall in_vocab pre → Forall in_vocab (concat batches) →
  hash_batches (state_of pre) batches =
    Some (concat (map (λ i, map (reference_row (pre ++ concat batches) i) (seqZ 0 16)) (seqZ (blen pre) (blen (concat batches)))),
          state_of (pre ++ concat batches)).
Proof using Hok.
  revert pre. induction batches as [|b batches IH]; intros pre Hpre Hb; cbn [concat hash_batches] in *; [by rewrite !app_nil_r|].
  apply Forall_app in Hb as [Hb Hbs]. unfold ds4_ple_hash_rows. rewrite (ok_valid Hok), none_outside by done.
  rewrite (loop_rows pre b (concat batches)) by done. rewrite IH by (by try apply Forall_app). rewrite <- !app_assoc. cbn.
  rewrite (blen_app pre), (blen_app b), seqZ_app by (apply blen_nonneg). by rewrite map_app, concat_app.
Qed.
End ngrams.

(** C34: the rows that select the embeddings of a text are those of the definition of its
    n-grams in unbounded integers, whatever batches the text is hashed in: eight heads
    hash each token with the one before it and eight with the two before it, a window
    that crosses an end of text is padded, and every head selects inside its own range
    of rows.  A batch that is refused leaves the history as it is. *)
Theorem ngram_rows_exact c batches : config_ok c → Forall (in_vocab c) (concat batches) →
  hash_batches c (ds4_ple_hash_state_reset c) batches = Some (reference_rows c (concat batches), state_of c (concat batches)) ∧
  (∀ i h, 0 <= h < 16 → znth 0 (head_offsets c) h <= reference_row c (concat batches) i h < znth 0 (head_offsets c) h + znth 0 (head_vocab_sizes c) h) ∧
  (∀ s b e s', ds4_ple_hash_rows c s b = (inr e, s') → s' = s).
Proof.
  intros Hok Hb. split; [|split].
  - by apply (batches_rows c Hok []).
  - intros i h Hh. unfold reference_row. pose proof (head_range c Hok (ngram_hash c (concat batches) i (if h <? 8 then 2 else 3)) h Hh). lia.
  - intros s b e s'. unfold ds4_ple_hash_rows. destruct (ds4_ple_hash_config_validate c); [congruence|].
    destruct (first_outside c 0 b); [congruence|]. by destruct (hash_loop c s b).
Qed.

(** The official configuration, and a text with an EOS in two batches. *)
Definition official : ds4_ple_hash_config :=
  HashConfig 248320 248044 fp8_multipliers fp8_vocabs (map (λ h, foldr Z.add 0 (take h fp8_vocabs)) (seq 0 16)).

Example ngram_rows_exact_witness :
  hash_batches official (ds4_ple_hash_state_reset official) [[101]; [202; 248044; 303]; [404]] =
    Some (reference_rows official [101; 202; 248044; 303; 404], HashState 303 404).
Proof.
  apply (ngram_rows_exact official [[101]; [202; 248044; 303]; [404]]).
  - constructor; try done; [repeat constructor; by apply Z.leb_le|repeat constructor; by apply Z.leb_le].
  - repeat constructor; by (apply Z.leb_le || apply Z.ltb_lt).
Defined.

(** ** Rows in files *)

(** The rows of the parts follow each other. *)
Fixpoint chain (cursor : Z) (l : list ds4_ple_logical_part) (stop : Z) : Prop :=
  match l with
  | [] => cursor = stop
  | p :: l => global_row_start p = cursor ∧ 0 < rows p ∧ chain (cursor + rows p) l stop
  end.

Section mapped.
Context (s : sidecar).
Abbreviation part i := (znth no_part (logical s) i).
Abbreviation stride := (row_stride (layout s)).

(** Every byte of the part lies in its file. *)
Definition part_in_file (p : ds4_ple_logical_part) : Prop :=
  0 <= physical_file_index p < 4 ∧ 0 <= file_offset p ∧ file_offset p mod DS4_PLE_PAGE_BYTES = 0 ∧
  file_offset p + rows p * stride <= file_bytes (znth no_file (physical s) (physical_file_index p)) < 2 ^ 64.

Record mapped : Prop := {
  mp_parts : blen (logical s) = DS4_PLE_N_LOGICAL_PARTS;
  mp_chain : ∃ stop, chain 0 (logical s) stop ∧ usable_vocabulary_rows (layout s) <= stop < 2 ^ 64;
  mp_inside : Forall part_in_file (logical s);
  mp_stride : 0 < stride <= DS4_PLE_PAGE_BYTES;
  mp_files : Forall (λ f, file_bytes f mod DS4_PLE_PAGE_BYTES = 0) (physical s) }.

Lemma chain_places cursor l stop : chain cursor l stop → ∀ i, 0 <= i < blen l →
  0 < rows (znth no_part l i) ∧ cursor <= global_row_start (znth no_part l i) ∧ global_row_start (znth no_part l i) + rows (znth no_part l i) <= stop ∧
  (i = 0 → global_row_start (znth no_part l i) = cursor) ∧
  global_row_start (znth no_part l i) + rows (znth no_part l i) = (if i + 1 =? blen l then stop else global_row_start (znth no_part l (i + 1))).
Proof.
  revert cursor. induction l as [|p l IH]; intros cursor Hc i Hi; [change (0 <= i < 0) in Hi; lia|].
  cbn [chain] in Hc. destruct Hc as (Hs & Hr & Hc). rewrite blen_cons in *. pose proof (blen_nonneg l).
  assert (∀ (x : ds4_ple_logical_part) j, 0 <= j → znth no_part (x :: l) (j + 1) = znth no_part l j) as Hz.
  { intros x j Hj. unfold znth. by replace (Z.to_nat (j + 1)) with (S (Z.to_nat j)) by lia. }
  assert (cursor + rows p <= stop) as Hstop.
  { destruct (decide (0 < blen l)); [specialize (IH _ Hc 0 ltac:(lia)); lia|]. destruct l; [cbn in Hc; lia|rewrite blen_cons in *; pose proof (blen_nonneg l); lia]. }
  destruct (Z.eq_dec i 0) as [->|].
  - change (znth no_part (p :: l) 0) with p. rewrite Hs. split_and!; try lia.
    destruct (Z.eqb_spec (0 + 1) (1 + blen l)).
    + destruct l; [done|]. rewrite blen_cons in *. pose proof (blen_nonneg l). lia.
    + rewrite Hz by lia. symmetry. by apply (IH _ Hc 0); lia.
  - replace i with ((i - 1) + 1) by lia. rewrite !Hz by lia. destruct (IH _ Hc (i - 1) ltac:(lia)) as (H1 & H2 & H3 & H4 & H5).
    split_and!; try lia. rewrite H5. destruct (Z.eqb_spec (i - 1 + 1) (blen l)), (Z.eqb_spec (i - 1 + 1 + 1) (1 + blen l)); lia || done.
Qed.

Lemma find_part_place stop row : chain 0 (logical s) stop → 0 <= row < stop → blen (logical s) = 128 →
  ∀ fuel low high, 0 <= low < high ∧ high <= 128 → high - low <= Z.of_nat fuel →
  global_row_start (part low) <= row → (high = 128 ∨ row < global_row_start (part high)) →
  let i := find_part (logical s) row fuel low high in 0 <= i < 128 ∧ global_row_start (part i) <= row < global_row_start (part i) + rows (part i).
Proof.
  intros Hc Hrow Hlen. induction fuel as [|fuel IH]; intros low high Hlh Hf Hlo Hhi; [lia|]. cbn [find_part].
  destruct (Z.ltb_spec (low + 1) high) as [Hlt|Hge].
  - assert (low < low + (high - low) / 2 < high) as Hmid by (pose proof (Z.div_pos (high - low) 2); Z.to_euclidean_division_equations; lia).
    cbv zeta. destruct (Z.leb_spec (global_row_start (part (low + (high - low) / 2))) row); apply IH; by (lia || right).
  - cbv zeta. split; [lia|]. split; [done|]. destruct (chain_places 0 _ stop Hc low ltac:(lia)) as (_ & _ & _ & _ & H). rewrite H.
    destruct (Z.eqb_spec (low + 1) (blen (logical s))); [lia|]. destruct Hhi as [->|Hhi]; [lia|]. by replace (low + 1) with high by lia.
Qed.

Lemma row_place row : mapped → 0 <= row < usable_vocabulary_rows (layout s) →
  ∃ i, 0 <= i < 128 ∧ global_row_start (part i) <= row < global_row_start (part i) + rows (part i) ∧
    resolve_row s row = inl (physical_file_index (part i), file_offset (part i) + (row - global_row_start (part i)) * stride) ∧
    0 <= physical_file_index (part i) < 4 ∧ 0 <= file_offset (part i) + (row - global_row_start (part i)) * stride ∧
    file_offset (part i) + (row - global_row_start (part i)) * stride + stride
      <= file_bytes (znth no_file (physical s) (physical_file_index (part i))) < 2 ^ 64.
Proof.
  intros Hm Hrow. destruct (mp_chain Hm) as (stop & Hc & Hstop). pose proof (mp_parts Hm) as Hlen. unfold DS4_PLE_N_LOGICAL_PARTS in Hlen.
  destruct (chain_places 0 _ stop Hc 0 ltac:(lia)) as (_ & _ & _ & H0 & _).
  pose proof (find_part_place stop row Hc ltac:(lia) Hlen 128 0 128 ltac:(lia) ltac:(lia) ltac:(lia) ltac:(by left)) as Hfind. cbv zeta in Hfind.
  unfold resolve_row. rewrite (proj2 (Z.leb_gt _ _)) by lia. unfold DS4_PLE_N_LOGICAL_PARTS.
  set (i := find_part (logical s) row 128 0 128) in *. exists i. destruct Hfind as [Hi Hin].
  destruct (chain_places 0 _ stop Hc i ltac:(lia)) as (Hr & Hge & Hle & _ & _).
  assert (part_in_file (part i)) as (Hf & Ho & _ & Hend).
  { pose proof (mp_inside Hm) as Hall. rewrite List.Forall_forall in Hall. apply Hall. unfold znth. apply nth_In. unfold blen in Hlen. lia. }
  pose proof (mp_stride Hm) as Hst. cbv zeta.
  assert (u64 (row - global_row_start (part i)) = row - global_row_start (part i)) as -> by (apply wrap_id; flia).
  rewrite (proj2 (Z.leb_gt _ _)) by lia.
  assert (0 <= (row - global_row_start (part i)) * stride) by nia.
  assert ((row - global_row_start (part i)) * stride + stride <= rows (part i) * stride) by nia.
  assert (u64 (file_offset (part i) + (row - global_row_start (part i)) * stride) = file_offset (part i) + (row - global_row_start (part i)) * stride) as ->
    by (apply wrap_id; flia).
  split_and!; try done; lia.
Qed.
End mapped.

(** *** The two validations *)

(** What manifest_parse hands over. *)
Record parsed (s : sidecar) : Prop := {
  pa_parts : blen (logical s) = DS4_PLE_N_LOGICAL_PARTS;
  pa_stride : row_stride (layout s) = DS4_PLE_ROW_BYTES ∨ row_stride (layout s) = DS4_PLE_FP8_ROW_BYTES;
  pa_part : Forall (λ p, fits 64 (rows p) ∧ fits 64 (file_offset p) ∧ fits 32 (physical_file_index p)) (logical s);
  pa_file : Forall (λ f, fits 64 (file_bytes f)) (physical s) }.

Lemma parts_checked s i cursor sum l stop total : check_parts (row_stride (layout s)) i cursor sum l = inl (stop, total) →
  0 < row_stride (layout s) → 0 <= cursor <= UINT64_MAX → Forall (λ p, fits 64 (rows p) ∧ fits 64 (file_offset p) ∧ fits 32 (physical_file_index p)) l →
  chain cursor l stop ∧ stop <= UINT64_MAX ∧
  Forall (λ p, physical_file_index p < 4 ∧ file_offset p mod DS4_PLE_PAGE_BYTES = 0 ∧ payload_bytes p = rows p * row_stride (layout s)) l.
Proof.
  intros H Hst Hcur Hl. revert i cursor sum H Hcur. induction Hl as [|p l (Hr & Ho & Hf) Hl IH]; intros i cursor sum H Hcur; cbn [check_parts chain] in *.
  { injection H as <- <-. by split_and!; [|lia|]. }
  destruct (Z.eqb_spec (logical_part p) i); [|done]. destruct (Z.eqb_spec (global_row_start p) cursor); [|done].
  destruct (Z.eqb_spec (rows p) 0); [done|]. destruct (Z.leb_spec DS4_PLE_N_PHYSICAL_FILES (physical_file_index p)); [done|]. cbn [negb orb] in H.
  destruct (Z.eqb_spec (file_offset p mod DS4_PLE_PAGE_BYTES) 0); [|done]. cbn [negb] in H.
  destruct (Z.eqb_spec (row_stride_bytes p) (row_stride (layout s))); [|done].
  destruct (Z.ltb_spec (UINT64_MAX / row_stride (layout s)) (rows p)) as [|Hdiv]; [done|]. cbn [negb orb] in H.
  destruct (Z.eqb_spec (payload_bytes p) (u64 (rows p * row_stride (layout s)))) as [Hpay|]; [|done]. cbn [negb] in H.
  destruct (Z.ltb_spec (UINT64_MAX - cursor) (rows p)); [done|]. destruct (_ <? payload_bytes p); [done|]. cbn [orb] in H.
  unfold fits in Hr. destruct (IH _ _ _ H ltac:(lia)) as (Hc & Hs & Hall).
  assert (rows p * row_stride (layout s) <= UINT64_MAX) as Hm by (pose proof (Z.mul_div_le UINT64_MAX (row_stride (layout s)) Hst); nia).
  rewrite wrap_id in Hpay by (unfold fits; nia). split_and!; try done; [lia|]. constructor; [|done]. unfold DS4_PLE_N_PHYSICAL_FILES in *. done.
Qed.

Lemma files_checked i a b l r : check_files i a b l = inl r → Forall (λ f, file_bytes f mod DS4_PLE_PAGE_BYTES = 0) l.
Proof.
  revert i a b. induction l as [|f l IH]; intros i a b H; [done|]. cbn [check_files] in H.
  destruct (_ || _) eqn:E; [done|]. destruct ((_ <? file_bytes f) || _); [done|]. constructor; [|by eapply IH].
  apply orb_false_iff in E as [_ E]. by apply negb_false_iff, Z.eqb_eq in E.
Qed.

Lemma inside_checked fs i l : check_inside fs i l = None →
  Forall (λ p, file_offset p + payload_bytes p <= file_bytes (znth no_file fs (physical_file_index p))) l.
Proof.
  revert i. induction l as [|p l IH]; intros i H; [done|]. cbn [check_inside] in H. destruct (_ || _) eqn:E; [done|].
  constructor; [|by eapply IH]. apply orb_false_iff in E as [_ E]. apply Z.ltb_ge in E. lia.
Qed.

Lemma manifest_mapped s : parsed s → manifest_validate_layout s = None → mapped s.
Proof.
  intros [Hlen Hst Hp Hfs] H. unfold manifest_validate_layout in H. cbv zeta in H. destruct (aggregates_ok _ _) eqn:Eagg; [|done]. cbn [negb] in H.
  assert (0 < row_stride (layout s) <= DS4_PLE_PAGE_BYTES) as Hs by (unfold DS4_PLE_PAGE_BYTES; destruct Hst as [->| ->]; done).
  destruct (check_parts _ 0 0 0 _) as [[stop total]|] eqn:Ep; [|done]. destruct (parts_checked s 0 0 0 _ stop total Ep ltac:(lia) ltac:(lia) Hp) as (Hc & Hstop & Hall).
  destruct (_ || _) eqn:E1; [done|]. apply orb_false_iff in E1 as [E1 _]. apply negb_false_iff, Z.eqb_eq in E1.
  destruct (check_files _ _ _ _) as [[fsum psum]|] eqn:Ef; [|done]. destruct (negb (fsum =? _) || _); [done|].
  destruct (check_inside _ _ _) eqn:Ei; [done|]. apply inside_checked in Ei. apply files_checked in Ef.
  constructor; [done| | |done|done].
  - exists stop. split; [done|]. unfold aggregates_ok in Eagg. repeat (apply andb_true_iff in Eagg as [Eagg ?]). split; [|lia]. lia.
  - apply List.Forall_forall. intros p Hin. rewrite List.Forall_forall in Hall, Ei, Hp. destruct (Hall p Hin) as (Hidx & Hal & Hpay).
    destruct (Hp p Hin) as (Hr & Ho & Hi). specialize (Ei p Hin). cbv beta in Ei. rewrite Hpay in Ei. unfold fits in *. unfold part_in_file.
    split_and!; try done; try lia. apply (znth_Forall (λ f, file_bytes f < 2 ^ 64) no_file); [|done].
    eapply Forall_impl; [exact Hfs|]. intros f Hf. by destruct Hf.
Qed.

Record host_ok (h : ds4_host_ple) : Prop := {
  ho_parts : blen (parts h) = DS4_PLE_N_LOGICAL_PARTS;
  ho_part : Forall (λ p, fits 64 (hp_rows p) ∧ fits 64 (hp_offset p) ∧ fits 32 (hp_file p)) (parts h);
  ho_files : Forall (λ f, fits 64 (hf_bytes f)) (files h) }.

Lemma host_files_checked i l fs : host_files i l = inl fs → map file_bytes fs = map hf_bytes l ∧ Forall (λ f, file_bytes f mod DS4_PLE_PAGE_BYTES = 0) fs.
Proof.
  revert i fs. induction l as [|f l IH]; intros i fs H; cbn [host_files] in H; [by injection H as <-|]. destruct (_ || _) eqn:E; [done|].
  destruct (host_files (i + 1) l) as [r|] eqn:Er; [|done]. injection H as <-. destruct (IH _ _ Er) as [Hm Hall]. split; [cbn; by rewrite Hm|].
  constructor; [|done]. apply orb_false_iff in E as [_ E]. by apply negb_false_iff, Z.eqb_eq in E.
Qed.

Lemma host_parts_checked h s i cursor l ps stop : host_parts h i cursor l = inl (ps, stop) →
  row_stride (layout s) = hp_row_stride h → 0 < hp_row_stride h → map file_bytes (physical s) = map hf_bytes (files h) → 0 <= cursor <= UINT64_MAX →
  Forall (λ p, fits 64 (hp_rows p) ∧ fits 64 (hp_offset p) ∧ fits 32 (hp_file p)) l → Forall (λ f, fits 64 (hf_bytes f)) (files h) →
  chain cursor ps stop ∧ stop <= UINT64_MAX ∧ blen ps = blen l ∧ Forall (part_in_file s) ps.
Proof.
  intros H Hst Hpos Hb Hcur Hl Hfs. revert i cursor ps H Hcur. induction Hl as [|p l (Hr & Ho & Hf) Hl IH]; intros i cursor ps H Hcur; cbn [host_parts] in H.
  { injection H as <- <-. by split_and!; [|lia| |]. }
  destruct (Z.eqb_spec (row_start p) cursor) as [<-|]; [|done]. cbn [negb orb] in H. destruct (part_inside h (row_start p) p) eqn:E; [|done]. cbn [negb] in H.
  destruct (host_parts h (i + 1) _ l) as [[r stop']|] eqn:Er; [|done]. injection H as <- <-. unfold part_inside in E.
  repeat (apply andb_true_iff in E as [E ?H]). unfold fits in *. destruct (IH _ _ _ Er ltac:(lia)) as (Hc & Hs & Hlen & Hall).
  rewrite !blen_cons, Hlen. cbn [chain global_row_start rows]. split_and!; try done; try lia. constructor; [|done]. unfold part_in_file. cbn.
  assert (hp_rows p * hp_row_stride h <= UINT64_MAX) as Hm by (pose proof (Z.mul_div_le UINT64_MAX (hp_row_stride h) Hpos); nia).
  rewrite wrap_id in * by (unfold fits; nia). rewrite Hst.
  assert (file_bytes (znth no_file (physical s) (hp_file p)) = hf_bytes (znth no_host_file (files h) (hp_file p))) as ->.
  { unfold znth. etransitivity; [exact (eq_sym (map_nth file_bytes (physical s) no_file _))|]. rewrite Hb. exact (map_nth hf_bytes (files h) no_host_file _). }
  unfold DS4_PLE_N_PHYSICAL_FILES in *. split_and!; try done; try lia. apply (znth_Forall (λ f, hf_bytes f < 2 ^ 64) no_host_file); [|done].
  eapply Forall_impl; [exact Hfs|]. intros f Hfb. by destruct Hfb.
Qed.

Lemma host_mapped h s slots : host_ok h → host_sidecar h = inl (s, slots) → mapped s ∧ DS4_PLE_CACHE_WAYS <= slots ∧ slots mod DS4_PLE_CACHE_WAYS = 0.
Proof.
  intros [Hlen Hp Hfs] H. unfold host_sidecar in H. destruct (root h); [done|]. cbv zeta in H.
  destruct ((_ && _) || negb (hp_row_stride h =? _)) eqn:E; [done|]. apply orb_false_iff in E as [_ E]. apply negb_false_iff, Z.eqb_eq in E.
  assert (0 < hp_row_stride h <= DS4_PLE_PAGE_BYTES) as Hs by (rewrite E; by destruct (version h =? 2)).
  destruct (store_begin _ _) as [n|] eqn:Eb; [|done]. destruct (ds4_ple_hash_config_validate _); [done|].
  destruct (host_files 0 _) as [fs|] eqn:Ef; [|done]. destruct (host_parts h 0 0 _) as [[ps stop]|] eqn:Ep; [|done].
  destruct (_ || (_ <? stop)) eqn:E1; [done|]. injection H as <- <-. apply orb_false_iff in E1 as [E1 _]. apply orb_false_iff in E1 as [_ E1].
  apply Z.ltb_ge in E1. destruct (host_files_checked _ _ _ Ef) as [Hb Hal].
  match goal with |- mapped ?s ∧ _ => destruct (host_parts_checked h s 0 0 (parts h) ps stop Ep) as (Hc & Hstop & Hl & Hall); try done; try lia end.
  split.
  - constructor; cbn; [by rewrite Hl| |done|done|done]. exists stop. split; [done|lia].
  - unfold store_begin in Eb. destruct (_ || _); [done|]. cbv zeta in Eb. destruct (_ || _) eqn:E2; [done|]. injection Eb as <-.
    apply orb_false_iff in E2 as [E2 _]. apply Z.ltb_ge in E2. split; [done|]. set (q := hp_cache_bytes h / DS4_PLE_PAGE_BYTES) in *.
    unfold DS4_PLE_CACHE_WAYS. rewrite Zminus_mod, Z.mod_mod by done. by rewrite Z.sub_diag.
Qed.

(** C35: whichever way a sidecar is opened, from its manifest or from the description of
    the host, a row below the usable vocabulary is found by the search: in the one part
    whose rows include it, at its offset there, with all its bytes inside that part's
    file; and any other row is refused. *)
Theorem rows_lie_in_files s row :
  (parsed s ∧ manifest_validate_layout s = None) ∨ (∃ h slots, host_ok h ∧ host_sidecar h = inl (s, slots)) → 0 <= row →
  match resolve_row s row with
  | inl (file, offset) =>
      row < usable_vocabulary_rows (layout s) ∧
      (∃ i p, logical s !! i = Some p ∧ global_row_start p <= row < global_row_start p + rows p ∧ file = physical_file_index p ∧
         offset = file_offset p + (row - global_row_start p) * row_stride (layout s)) ∧
      0 <= file < 4 ∧ 0 <= offset ∧ offset + row_stride (layout s) <= file_bytes (znth no_file (physical s) file)
  | inr e => e = RowOutside row ∧ usable_vocabulary_rows (layout s) <= row
  end.
Proof.
  intros Hv Hrow. assert (mapped s) as Hm by (destruct Hv as [[? ?]|(h & n & ? & ?)]; [by apply manifest_mapped|by eapply host_mapped]).
  destruct (Z.ltb_spec row (usable_vocabulary_rows (layout s))) as [Hlt|Hge].
  - destruct (row_place s row Hm ltac:(lia)) as (i & Hi & Hin & -> & Hf & Ho & Hend). split; [done|]. split; [|lia].
    exists (Z.to_nat i), (znth no_part (logical s) i). split; [|done]. pose proof (mp_parts _ Hm) as Hl. unfold DS4_PLE_N_LOGICAL_PARTS, blen in Hl.
    destruct (logical s !! Z.to_nat i) as [p|] eqn:E; [by rewrite (znth_lookup _ _ _ _ E)|]. apply lookup_ge_None in E. lia.
  - unfold resolve_row. by rewrite (proj2 (Z.leb_le _ _)).
Qed.

(** A sidecar of 128 parts with a hundred rows each. *)
Definition small_host : ds4_host_ple :=
  HostPle (bs "ple") 2 160 12800 12800 248320 248044 fp8_multipliers fp8_vocabs (head_offsets official) 2 65536
    (map (λ i, HostPartRec (100 * i) 100 (i mod 32 * 16384) (i / 32)) (seqZ 0 128)) (replicate 4 (HostFileRec (bs "rows.bin") 524288)).

Definition small_sidecar : sidecar :=
  match host_sidecar small_host with inl (s, _) => s | inr _ => Sidecar (Layout 0 0 0 0 0 0) official [] [] end.

Lemma small_host_ok : host_ok small_host.
Proof.
  split; [done| |].
  - apply Forall_map, Forall_seqZ. intros i Hi. cbn. unfold fits. Z.to_euclidean_division_equations. lia.
  - repeat constructor; done.
Qed.

Example rows_lie_in_files_witness : resolve_row small_sidecar 3205 = inl (1, 800) ∧ resolve_row small_sidecar 12800 = inr (RowOutside 12800).
Proof.
  assert (host_sidecar small_host = inl (small_sidecar, 16)) as Hs by (vm_compute; reflexivity).
  pose proof (rows_lie_in_files small_sidecar 3205 (or_intror (ex_intro _ small_host (ex_intro _ 16 (conj small_host_ok Hs)))) ltac:(lia)) as H1.
  pose proof (rows_lie_in_files small_sidecar 12800 (or_intror (ex_intro _ small_host (ex_intro _ 16 (conj small_host_ok Hs)))) ltac:(lia)) as H2.
  split.
  - destruct (resolve_row small_sidecar 3205) as [[f o]|e] eqn:E; [|vm_compute in E; discriminate E]. vm_compute in E. injection E as <- <-. reflexivity.
  - destruct (resolve_row small_sidecar 12800) as [[f o]|e]; [|by destruct H2 as [-> _]].
    destruct H2 as [H2 _]. vm_compute in H2. discriminate H2.
Defined.

(** The codes of negative numbers decode to the negated rows, and the code of one to the
    scale. *)
Lemma decode_signs code : 0 <= code < 128 →
  decode_code (F32.of_bits (Z.shiftl DS4_PLE_FP8_SCALE_BITS 16)) (code + 128) = decode_code (F32.of_bits (Z.shiftl DS4_PLE_FP8_SCALE_BITS 16)) code + 32768.
Proof. intros H. apply Z.eqb_eq, (forallb_range (λ k, decode_code _ (k + 128) =? decode_code _ k + 32768) 128); [|done]. vm_compute. reflexivity. Qed.

Example one_decodes_to_scale : znth 0 (store_build_decode_table DS4_PLE_FP8_SCALE_BITS) 56 = DS4_PLE_FP8_SCALE_BITS.
Proof. vm_compute. reflexivity. Qed.
