(* ===== verification/PleCache.v ===== *)
(** * The embedding sidecar: the page cache (ds4_ple.c)

    The cache slots, the ring of pages to be read and the critical sections of
    [cache_*] and [ds4_ple_store_*], each a function of the store: what a thread does
    between taking the mutex and giving it back or sleeping. *)

From S2P Require Import Prelude Float64 Ple.

Inductive ds4_ple_page_state := PAGE_EMPTY | PAGE_LOADING | PAGE_READY | PAGE_ERROR.
#[export] Instance page_state_eq : EqDecision ds4_ple_page_state.
Proof. solve_decision. Defined.

Record ds4_ple_cache_slot := Slot {
  file_index : Z; page_offset : Z; generation : Z; last_access : Z; refcount : Z; error_number : Z;
  state : ds4_ple_page_state; awaited : bool; data : list Z }.

Record ds4_ple_work_item := WorkItem { item_slot : Z; item_generation : Z }.

(** The counters that do not measure time. *)
Record ds4_ple_stats := Stats {
  row_lookups : Z; logical_bytes : Z; page_requests : Z; cache_hits : Z; cache_inflight_hits : Z; cache_misses : Z;
  cache_evictions : Z; prefetch_dropped : Z; read_operations : Z; physical_bytes : Z; read_errors : Z; wait_samples : Z; wait_blocked : Z }.

(** The fields of [struct ds4_ple_store] that the mutex protects. *)
Record ds4_ple_store := Store {
  slots : list ds4_ple_cache_slot; set_count : Z; access_clock : Z;
  queue : list ds4_ple_work_item; queue_head : Z; queue_tail : Z; queue_count : Z;
  set_waiters : Z; stopping : bool; stats : ds4_ple_stats }.

(** ** Fields *)

Definition with_slots (st : ds4_ple_store) (l : list ds4_ple_cache_slot) : ds4_ple_store :=
  Store l (set_count st) (access_clock st) (queue st) (queue_head st) (queue_tail st) (queue_count st) (set_waiters st) (stopping st) (stats st).
Definition with_clock (st : ds4_ple_store) (n : Z) : ds4_ple_store :=
  Store (slots st) (set_count st) n (queue st) (queue_head st) (queue_tail st) (queue_count st) (set_waiters st) (stopping st) (stats st).
Definition with_queue (st : ds4_ple_store) (q : list ds4_ple_work_item) (head tail count : Z) : ds4_ple_store :=
  Store (slots st) (set_count st) (access_clock st) q head tail count (set_waiters st) (stopping st) (stats st).
Definition with_waiters (st : ds4_ple_store) (n : Z) : ds4_ple_store :=
  Store (slots st) (set_count st) (access_clock st) (queue st) (queue_head st) (queue_tail st) (queue_count st) n (stopping st) (stats st).
Definition with_stats (st : ds4_ple_store) (f : ds4_ple_stats -> ds4_ple_stats) : ds4_ple_store :=
  Store (slots st) (set_count st) (access_clock st) (queue st) (queue_head st) (queue_tail st) (queue_count st) (set_waiters st) (stopping st) (f (stats st)).
Definition set_stopping (st : ds4_ple_store) : ds4_ple_store :=
  Store (slots st) (set_count st) (access_clock st) (queue st) (queue_head st) (queue_tail st) (queue_count st) (set_waiters st) true (stats st).

Definition with_state (s : ds4_ple_cache_slot) (v : ds4_ple_page_state) : ds4_ple_cache_slot :=
  Slot (file_index s) (page_offset s) (generation s) (last_access s) (refcount s) (error_number s) v (awaited s) (data s).
Definition with_access (s : ds4_ple_cache_slot) (v : Z) : ds4_ple_cache_slot :=
  Slot (file_index s) (page_offset s) (generation s) v (refcount s) (error_number s) (state s) (awaited s) (data s).
Definition with_refcount (s : ds4_ple_cache_slot) (v : Z) : ds4_ple_cache_slot :=
  Slot (file_index s) (page_offset s) (generation s) (last_access s) v (error_number s) (state s) (awaited s) (data s).
Definition with_error (s : ds4_ple_cache_slot) (v : Z) : ds4_ple_cache_slot :=
  Slot (file_index s) (page_offset s) (generation s) (last_access s) (refcount s) v (state s) (awaited s) (data s).
Definition with_awaited (s : ds4_ple_cache_slot) (v : bool) : ds4_ple_cache_slot :=
  Slot (file_index s) (page_offset s) (generation s) (last_access s) (refcount s) (error_number s) (state s) v (data s).
Definition with_data (s : ds4_ple_cache_slot) (v : list Z) : ds4_ple_cache_slot :=
  Slot (file_index s) (page_offset s) (generation s) (last_access s) (refcount s) (error_number s) (state s) (awaited s) v.

Definition no_slot : ds4_ple_cache_slot := Slot 0 0 0 0 0 0 PAGE_EMPTY false [].
Definition no_item : ds4_ple_work_item := WorkItem 0 0.
Definition slot_at (st : ds4_ple_store) (i : Z) : ds4_ple_cache_slot := znth no_slot (slots st) i.
Definition on_slot (i : Z) (f : ds4_ple_cache_slot -> ds4_ple_cache_slot) (st : ds4_ple_store) : ds4_ple_store :=
  with_slots st (alter f (Z.to_nat i) (slots st)).
(** layout.cache_slots *)
Definition cache_slots (st : ds4_ple_store) : Z := blen (slots st).

Definition is_state (s : ds4_ple_cache_slot) (v : ds4_ple_page_state) : bool := bool_decide (state s = v).

(** *** Counters *)

Definition count_request (x : ds4_ple_stats) : ds4_ple_stats :=
  let 'Stats a b c d e f g h i j k l m := x in Stats a b (u64 (c + 1)) d e f g h i j k l m.
Definition count_hit (x : ds4_ple_stats) : ds4_ple_stats :=
  let 'Stats a b c d e f g h i j k l m := x in Stats a b c (u64 (d + 1)) e f g h i j k l m.
Definition count_inflight (x : ds4_ple_stats) : ds4_ple_stats :=
  let 'Stats a b c d e f g h i j k l m := x in Stats a b c d (u64 (e + 1)) f g h i j k l m.
Definition count_miss (x : ds4_ple_stats) : ds4_ple_stats :=
  let 'Stats a b c d e f g h i j k l m := x in Stats a b c d e (u64 (f + 1)) g h i j k l m.
Definition count_eviction (x : ds4_ple_stats) : ds4_ple_stats :=
  let 'Stats a b c d e f g h i j k l m := x in Stats a b c d e f (u64 (g + 1)) h i j k l m.
Definition count_dropped (x : ds4_ple_stats) : ds4_ple_stats :=
  let 'Stats a b c d e f g h i j k l m := x in Stats a b c d e f g (u64 (h + 1)) i j k l m.
Definition count_read (saved : Z) (x : ds4_ple_stats) : ds4_ple_stats :=
  let 'Stats a b c d e f g h i j k l m := x in
  if saved =? 0 then Stats a b c d e f g h (u64 (i + 1)) (u64 (j + DS4_PLE_PAGE_BYTES)) k l m
  else Stats a b c d e f g h (u64 (i + 1)) j (u64 (k + 1)) l m.
Definition count_rows (n stride : Z) (x : ds4_ple_stats) : ds4_ple_stats :=
  let 'Stats a b c d e f g h i j k l m := x in Stats (u64 (a + n)) (u64 (b + u64 (n * stride))) c d e f g h i j k (u64 (l + n)) m.
Definition count_blocked (x : ds4_ple_stats) : ds4_ple_stats :=
  let 'Stats a b c d e f g h i j k l m := x in Stats a b c d e f g h i j k l (u64 (m + 1)).

(** ** The ring of pages to be read *)

Definition cache_queue_locked (st : ds4_ple_store) (slot : Z) : option ds4_ple_store :=
  if cache_slots st <=? queue_count st then None
  else Some (with_queue st
    (<[Z.to_nat (queue_tail st) := WorkItem slot (generation (slot_at st slot))]> (queue st))
    (queue_head st) ((queue_tail st + 1) mod cache_slots st) (queue_count st + 1)).

(** The head of the ring, taken by a worker. *)
Definition take_item (st : ds4_ple_store) : ds4_ple_work_item * ds4_ple_store :=
  (znth no_item (queue st) (queue_head st),
   with_queue st (queue st) ((queue_head st + 1) mod cache_slots st) (queue_tail st) (queue_count st - 1)).

(** ** Looking a page up *)

Definition cache_hash (file_index page_offset : Z) : Z :=
  let value := page_offset / DS4_PLE_PAGE_BYTES in
  let value := Z.lxor value (u64 (file_index * 11400714819323198485)) in
  let value := Z.lxor value (Z.shiftr value 30) in
  let value := u64 (value * 13787848793156543929) in
  let value := Z.lxor value (Z.shiftr value 27) in
  let value := u64 (value * 10723151780598845931) in
  Z.lxor value (Z.shiftr value 31).

(** The first slot of a page's set. *)
Definition first_way (st : ds4_ple_store) (file_index page_offset : Z) : Z :=
  cache_hash file_index page_offset mod set_count st * DS4_PLE_CACHE_WAYS.
Definition ways_of (st : ds4_ple_store) (file_index page_offset : Z) : list ds4_ple_cache_slot :=
  ztake DS4_PLE_CACHE_WAYS (zdrop (first_way st file_index page_offset) (slots st)).

Definition holds_page (s : ds4_ple_cache_slot) (f o : Z) : bool := (file_index s =? f) && (page_offset s =? o).

(** The slot of the page, or the slot to evict. *)
Inductive lookup := Found (i : Z) | Victim (i : option Z).

Fixpoint scan_ways (f o i : Z) (victim : option Z) (oldest : Z) (l : list ds4_ple_cache_slot) : lookup :=
  match l with
  | [] => Victim victim
  | s :: l =>
      if negb (is_state s PAGE_EMPTY) && holds_page s f o then
        if is_state s PAGE_ERROR && (refcount s =? 0) then scan_ways f o (i + 1) (Some i) 0 l
        else Found i
      else if is_state s PAGE_EMPTY then scan_ways f o (i + 1) (Some i) 0 l
      else if negb (is_state s PAGE_LOADING) && (refcount s =? 0) && (last_access s <? oldest)
      then scan_ways f o (i + 1) (Some i) (last_access s) l
      else scan_ways f o (i + 1) victim oldest l
  end.

Definition scan (st : ds4_ple_store) (f o : Z) : lookup :=
  scan_ways f o (first_way st f o) None UINT64_MAX (ways_of st f o).

(** ++store->access_clock, written to the slot *)
Definition touch (i : Z) (st : ds4_ple_store) : ds4_ple_store :=
  let clock := u64 (access_clock st + 1) in
  on_slot i (fun s => with_access s clock) (with_clock st clock).

Inductive page_result := Got (slot : Z) | PageQueueFull | NoSlot.

(** One turn of the loop of cache_request_page. *)
Definition request_once (st : ds4_ple_store) (f o : Z) (hold : bool) : ds4_ple_store * page_result :=
  let st := with_stats st count_request in
  match scan st f o with
  | Found i =>
      let st := touch i st in
      let st := with_stats st (if is_state (slot_at st i) PAGE_READY then count_hit
                               else if is_state (slot_at st i) PAGE_LOADING then count_inflight else count_miss) in
      (if hold then on_slot i (fun s => with_refcount s (refcount s + 1)) st else st, Got i)
  | Victim (Some i) =>
      let st := if negb (is_state (slot_at st i) PAGE_EMPTY) then with_stats st count_eviction else st in
      let clock := u64 (access_clock st + 1) in
      let st := on_slot i (fun s => Slot f o (u64 (generation s + 1)) clock (if hold then 1 else 0) 0 PAGE_LOADING (awaited s) (data s))
                  (with_clock st clock) in
      let st := with_stats st count_miss in
      match cache_queue_locked st i with
      | None => (on_slot i (fun s => with_refcount (with_state s PAGE_EMPTY) 0) st, PageQueueFull)
      | Some st => (st, Got i)
      end
  | Victim None => (st, NoSlot)
  end.

(** The check in front of the loop. *)
Definition page_in_sidecar (s : sidecar) (f o : Z) : bool :=
  (f <? DS4_PLE_N_PHYSICAL_FILES) && (o mod DS4_PLE_PAGE_BYTES =? 0) &&
  (o <=? file_bytes (znth no_file (physical s) f) - DS4_PLE_PAGE_BYTES).

(** Without waiting: a page that finds no slot is dropped. *)
Definition request_or_drop (st : ds4_ple_store) (f o : Z) (hold : bool) : ds4_ple_store * page_result :=
  match request_once st f o hold with
  | (st, NoSlot) => (with_stats st count_dropped, NoSlot)
  | r => r
  end.

(** ** Waiting for a page *)

(** The head of cache_wait_ready on a page that loads. *)
Definition await (st : ds4_ple_store) (i : Z) : ds4_ple_store :=
  on_slot i (fun s => with_awaited s true) (with_stats st count_blocked).
(** Whether its loop sleeps. *)
Definition must_sleep (st : ds4_ple_store) (i : Z) : bool := is_state (slot_at st i) PAGE_LOADING && negb (stopping st).

Definition drop_ref (i : Z) (st : ds4_ple_store) : ds4_ple_store :=
  on_slot i (fun s => if refcount s =? 0 then s else with_refcount s (refcount s - 1)) st.

(** Its end: the page is there, or the reference is given back with the error. *)
Definition end_wait (st : ds4_ple_store) (i : Z) : ds4_ple_store * option ple_error :=
  if is_state (slot_at st i) PAGE_READY then (st, None)
  else (drop_ref i st, Some (if error_number (slot_at st i) =? 0 then Stopping else ReadFailed (error_number (slot_at st i)))).

Definition cache_release (st : ds4_ple_store) (i : Z) : ds4_ple_store := drop_ref i st.

(** ** Workers *)

(** What a worker finds when the read of [item] is over; [saved] is its errno, 0 for a
    whole page. *)
Definition worker_done (st : ds4_ple_store) (item : ds4_ple_work_item) (saved : Z) : ds4_ple_store :=
  let s := slot_at st (item_slot item) in
  if (generation s =? item_generation item) && is_state s PAGE_LOADING then
    on_slot (item_slot item) (fun s => if saved =? 0 then with_state s PAGE_READY else with_error (with_state s PAGE_ERROR) saved)
      (with_stats st (count_read saved))
  else st.

(** ** Rows *)

Definition page_of (offset : Z) : Z := Z.land offset (UINT64_MAX - (DS4_PLE_PAGE_BYTES - 1)).
Definition within_page (offset : Z) : Z := u32 (offset - page_of offset).
Definition first_bytes (stride offset : Z) : Z :=
  if within_page offset + stride <=? DS4_PLE_PAGE_BYTES then stride else DS4_PLE_PAGE_BYTES - within_page offset.

(** A pointer into the data of a slot, and how many bytes of it. *)
Record segment := Segment { g_slot : Z; g_from : Z; g_bytes : Z }.
(** [row] is the row that was asked for; the program does not store it. *)
Record ds4_ple_row_view := View { row : Z; segments : list segment }.

Definition first_segment (stride offset slot : Z) : segment := Segment slot (within_page offset) (first_bytes stride offset).
Definition second_segment (stride offset slot : Z) : segment := Segment slot 0 (stride - first_bytes stride offset).

Definition segment_bytes (st : ds4_ple_store) (g : segment) : list Z := ztake (g_bytes g) (zdrop (g_from g) (data (slot_at st (g_slot g)))).
Definition view_bytes (st : ds4_ple_store) (v : ds4_ple_row_view) : list Z := concat (map (segment_bytes st) (segments v)).

(** A resident page that is ready gets a reference; nothing is queued. *)
Fixpoint find_ready (f o i : Z) (l : list ds4_ple_cache_slot) : option Z :=
  match l with
  | [] => None
  | s :: l => if is_state s PAGE_READY && holds_page s f o then Some i else find_ready f o (i + 1) l
  end.
Definition cache_lookup_ready_locked (st : ds4_ple_store) (f o : Z) : option (ds4_ple_store * Z) :=
  i ← find_ready f o (first_way st f o) (ways_of st f o);
  Some (with_stats (on_slot i (fun s => with_refcount s (refcount s + 1)) (touch i st)) (count_hit ∘ count_request), i).

(** One row of the walk: its view, or nothing if it would have to wait. *)
Definition ready_row (s : sidecar) (st : ds4_ple_store) (global_row : Z) : (ds4_ple_store * option ds4_ple_row_view) + ple_error :=
  match resolve_row s global_row with
  | inr e => inr e
  | inl (f, offset) =>
      let stride := row_stride (layout s) in
      match cache_lookup_ready_locked st f (page_of offset) with
      | None => inl (st, None)
      | Some (st, slot0) =>
          if first_bytes stride offset <? stride then
            match cache_lookup_ready_locked st f (page_of offset + DS4_PLE_PAGE_BYTES) with
            | None => inl (on_slot slot0 (fun s => with_refcount s (refcount s - 1)) st, None)
            | Some (st, slot1) => inl (st, Some (View global_row [first_segment stride offset slot0; second_segment stride offset slot1]))
            end
          else inl (st, Some (View global_row [first_segment stride offset slot0]))
      end
  end.

(** The walk over the rows: the views taken, and the error that ended it. *)
Fixpoint ready_rows (s : sidecar) (st : ds4_ple_store) (rows : list Z) : ds4_ple_store * list ds4_ple_row_view * option ple_error :=
  match rows with
  | [] => (st, [], None)
  | r :: rows =>
      match ready_row s st r with
      | inr e => (st, [], Some e)
      | inl (st, None) => (st, [], None)
      | inl (st, Some v) => let '(st, views, e) := ready_rows s st rows in (st, v :: views, e)
      end
  end.

Definition release_view (st : ds4_ple_store) (v : ds4_ple_row_view) : ds4_ple_store :=
  fold_left (fun st g => drop_ref (g_slot g) st) (segments v) st.
Definition ds4_ple_store_release_rows (st : ds4_ple_store) (views : list ds4_ple_row_view) : ds4_ple_store :=
  fold_left release_view views st.

(** The rows taken, or the error, which gives the rows back. *)
Definition ds4_ple_store_acquire_ready_rows (s : sidecar) (st : ds4_ple_store) (rows : list Z) :
    ds4_ple_store * (list ds4_ple_row_view + ple_error) :=
  match rows with
  | [] => (st, inl [])
  | _ =>
      match ready_rows s st rows with
      | (st, views, Some e) => (ds4_ple_store_release_rows st views, inr e)
      | (st, views, None) => (with_stats st (count_rows (blen views) (row_stride (layout s))), inl views)
      end
  end.

(** The bytes that ds4_ple_store_read_row copies from a view: as they are, or each code
    as the two bytes of its table entry. *)
Definition copy_row (s : sidecar) (table : list Z) (st : ds4_ple_store) (v : ds4_ple_row_view) : list Z :=
  if format_version (layout s) =? 2 then
    concat (map (fun code => let e := znth 0 table code in [u8 e; Z.shiftr e 8]) (view_bytes st v))
  else view_bytes st v.

(** *** The store as it is started *)

Definition store_start (cache_slots : Z) (fill : list Z) : ds4_ple_store :=
  Store (replicate (Z.to_nat cache_slots) (Slot 0 0 0 0 0 0 PAGE_EMPTY false fill)) (cache_slots / DS4_PLE_CACHE_WAYS) 0
    (replicate (Z.to_nat cache_slots) no_item) 0 0 0 0 false (Stats 0 0 0 0 0 0 0 0 0 0 0 0 0).

(** ** Threads

    A reader calls the functions of ds4_ple.h; its program counter is the place between
    two critical sections where it is, with the slots it holds there. *)

(** store_acquire_row: the row, its place, whether to wait for a slot, and the slot of
    the first page once the second one is asked for. *)
Record acquisition := Acquisition { q_row : Z; q_file : Z; q_offset : Z; q_wait : bool; q_slot0 : option Z }.

Definition q_page (a : acquisition) : Z :=
  match q_slot0 a with None => page_of (q_offset a) | Some _ => page_of (q_offset a) + DS4_PLE_PAGE_BYTES end.

Inductive reader_pc :=
| Idle
| AtRequest (a : acquisition)                     (** about to enter cache_request_page *)
| SetAsleep (a : acquisition) | SetWoken (a : acquisition)   (** waiting there for a slot *)
| AtWait (a : acquisition) (slot : Z)             (** about to enter cache_wait_ready *)
| PageAsleep (a : acquisition) (slot : Z) | PageWoken (a : acquisition) (slot : Z)
| AtCount (v : ds4_ple_row_view)                  (** about to count the row *)
| AtRelease (l : list Z)                          (** cache_release, one slot after the other *)
| AtReleaseRows (l : list ds4_ple_row_view)       (** ds4_ple_store_release_rows *)
| Prefetching (l : list (Z * Z)).                 (** pages still to be requested *)

Record reader := Reader { pc : reader_pc; views : list ds4_ple_row_view }.

(** Whom a critical section wakes. *)
Inductive wake := WakeNobody | WakeWorker | WakeReaders.

Definition released (l : list Z) : reader_pc := match l with [] => Idle | _ => AtRelease l end.
Definition abandon (a : acquisition) : reader_pc := released (match q_slot0 a with Some i => [i] | None => [] end).
(** if (store->set_waiters) pthread_cond_broadcast(&store->state_cond) *)
Definition wake_waiters (st : ds4_ple_store) : wake := if set_waiters st =? 0 then WakeNobody else WakeReaders.
(** cache_queue_locked signals a worker. *)
Definition wake_queued (st st' : ds4_ple_store) : wake := if queue_count st' =? queue_count st then WakeNobody else WakeWorker.

Section readers.
Context (s : sidecar).
Abbreviation stride := (row_stride (layout s)).

(** The loop of cache_request_page for an acquisition. *)
Definition try_slot (st : ds4_ple_store) (a : acquisition) : ds4_ple_store * reader_pc * wake :=
  if q_wait a then
    match request_once st (q_file a) (q_page a) true with
    | (st', Got i) => (st', AtWait a i, wake_queued st st')
    | (st', PageQueueFull) => (st', abandon a, WakeNobody)
    | (st', NoSlot) => (with_waiters st' (set_waiters st' + 1), SetAsleep a, WakeNobody)
    end
  else
    match request_or_drop st (q_file a) (q_page a) true with
    | (st', Got i) => (st', AtWait a i, wake_queued st st')
    | (st', _) => (st', abandon a, WakeNobody)
    end.

(** Behind the loop of cache_wait_ready. *)
Definition page_waited (st : ds4_ple_store) (a : acquisition) (i : Z) : ds4_ple_store * reader_pc * wake :=
  match end_wait st i with
  | (st', Some _) => (st', abandon a, wake_waiters st')
  | (st', None) =>
      (st', match q_slot0 a with
            | None =>
                if first_bytes stride (q_offset a) <? stride
                then AtRequest (Acquisition (q_row a) (q_file a) (q_offset a) (q_wait a) (Some i))
                else AtCount (View (q_row a) [first_segment stride (q_offset a) i])
            | Some slot0 => AtCount (View (q_row a) [first_segment stride (q_offset a) slot0; second_segment stride (q_offset a) i])
            end, WakeNobody)
  end.

(** The next critical section of a reader that is inside a call and not asleep. *)
Definition reader_step (st : ds4_ple_store) (r : reader) : option (ds4_ple_store * reader * wake) :=
  let go (x : ds4_ple_store * reader_pc * wake) := Some (x.1.1, Reader x.1.2 (views r), x.2) in
  match pc r with
  | Idle | SetAsleep _ | PageAsleep _ _ => None
  | AtRequest a =>
      go (if page_in_sidecar s (q_file a) (q_page a) then try_slot st a else (st, abandon a, WakeNobody))
  | SetWoken a =>
      let st := with_waiters st (set_waiters st - 1) in
      go (if stopping st then (st, abandon a, WakeNobody) else try_slot st a)
  | AtWait a i =>
      go (if is_state (slot_at st i) PAGE_LOADING then
            let st := await st i in
            if must_sleep st i then (st, PageAsleep a i, WakeNobody)
            else page_waited (on_slot i (fun s => with_awaited s false) st) a i
          else page_waited st a i)
  | PageWoken a i =>
      go (if must_sleep st i then (st, PageAsleep a i, WakeNobody)
          else page_waited (on_slot i (fun s => with_awaited s false) st) a i)
  | AtCount v => Some (with_stats st (count_rows 1 stride), Reader Idle (v :: views r), WakeNobody)
  | AtRelease [] => go (st, Idle, WakeNobody)
  | AtRelease (i :: l) => let st := cache_release st i in go (st, released l, wake_waiters st)
  | AtReleaseRows l => let st := ds4_ple_store_release_rows st l in go (st, Idle, wake_waiters st)
  | Prefetching [] => go (st, Idle, WakeNobody)
  | Prefetching ((f, o) :: l) =>
      go (if page_in_sidecar s f o then
            match request_or_drop st f o false with
            | (st', PageQueueFull) => (st', Idle, WakeNobody)
            | (st', _) => (st', Prefetching l, wake_queued st st')
            end
          else (st, Idle, WakeNobody))
  end.

(** prefetch_one_row for each row, up to the first that does not resolve. *)
Fixpoint prefetch_pages (rows : list Z) : list (Z * Z) :=
  match rows with
  | [] => []
  | r :: rows =>
      match resolve_row s r with
      | inr _ => []
      | inl (f, o) =>
          (f, page_of o) :: (if DS4_PLE_PAGE_BYTES <? within_page o + stride then [(f, page_of o + DS4_PLE_PAGE_BYTES)] else []) ++ prefetch_pages rows
      end
  end.

(** A call by an idle reader, up to its first critical section; a walk over resident rows
    is one section. *)
Inductive call (st : ds4_ple_store) (r : reader) : ds4_ple_store → reader → Prop :=
| call_acquire g wait f o : fits 64 g → resolve_row s g = inl (f, o) →
    call st r st (Reader (AtRequest (Acquisition g f o wait None)) (views r))
| call_ready rows st' vs e : Forall (fits 64) rows → ready_rows s st rows = (st', vs, e) →
    call st r (match e with None => with_stats st' (count_rows (blen vs) stride) | Some _ => st' end)
      (match e with None => Reader Idle (vs ++ views r) | Some _ => Reader (AtReleaseRows vs) (views r) end)
| call_release v rest : views r ≡ₚ v :: rest → call st r st (Reader (released (map g_slot (segments v))) rest)
| call_release_rows vs rest : views r ≡ₚ vs ++ rest → call st r st (Reader (AtReleaseRows vs) rest)
| call_prefetch rows : Forall (fits 64) rows → call st r st (Reader (Prefetching (prefetch_pages rows)) (views r)).
End readers.

(** A worker of cache_worker: at the head of its loop, asleep there, in pread, behind it,
    or gone. *)
Inductive worker :=
| Starting | Sleeping | Reading (item : ds4_ple_work_item) (f o : Z) | HasRead (item : ds4_ple_work_item) (saved : Z) | Exited.

(** The critical sections of a worker. *)
Definition worker_step (st : ds4_ple_store) (w : worker) : option (ds4_ple_store * worker * wake) :=
  match w with
  | Starting =>
      if stopping st then Some (st, Exited, WakeNobody)
      else if queue_count st =? 0 then Some (st, Sleeping, WakeNobody)
      else
        let (item, st) := take_item st in
        let slot := slot_at st (item_slot item) in
        Some (st, Reading item (file_index slot) (page_offset slot), WakeNobody)
  | HasRead item saved =>
      let st := worker_done st item saved in
      Some (st, Starting, if awaited (slot_at st (item_slot item)) || negb (set_waiters st =? 0) then WakeReaders else WakeNobody)
  | Sleeping | Reading _ _ _ | Exited => None
  end.

Record config := Config { store : ds4_ple_store; workers : list worker; readers : list reader }.

Definition awake (p : reader_pc) : reader_pc :=
  match p with SetAsleep a => SetWoken a | PageAsleep a i => PageWoken a i | _ => p end.
Definition awaken (r : reader) : reader := Reader (awake (pc r)) (views r).

(** pthread_cond_signal wakes a sleeping worker if there is one. *)
Inductive woken : wake → list worker → list reader → list worker → list reader → Prop :=
| woken_nobody ws rs : woken WakeNobody ws rs ws rs
| woken_none ws rs : Sleeping ∉ ws → woken WakeWorker ws rs ws rs
| woken_worker ws rs k : ws !! k = Some Sleeping → woken WakeWorker ws rs (<[k := Starting]> ws) rs
| woken_readers ws rs : woken WakeReaders ws rs ws (map awaken rs).

(** The bytes of page [o] of file [f]. *)
Definition page_bytes (files : Z → list Z) (f o : Z) : list Z := ztake DS4_PLE_PAGE_BYTES (zdrop o (files f)).

(** A step of a worker: a critical section, or the end of its pread, which has written
    the whole page or else left some bytes and an errno. *)
Inductive work (files : Z → list Z) : config → config → Prop :=
| work_section c k w st w' a ws rs : workers c !! k = Some w → worker_step (store c) w = Some (st, w', a) →
    woken a (<[k := w']> (workers c)) (readers c) ws rs → work files c (Config st ws rs)
| work_read c k item f o saved bytes : workers c !! k = Some (Reading item f o) → (saved = 0 → bytes = page_bytes files f o) →
    work files c (Config (on_slot (item_slot item) (fun s => with_data s bytes) (store c)) (<[k := HasRead item saved]> (workers c)) (readers c)).

Inductive step (s : sidecar) (files : Z → list Z) : config → config → Prop :=
| step_work c c' : work files c c' → step s files c c'
| step_reader c k r st r' a ws rs : readers c !! k = Some r → reader_step s (store c) r = Some (st, r', a) →
    woken a (workers c) (<[k := r']> (readers c)) ws rs → step s files c (Config st ws rs)
| step_call c k r st r' : readers c !! k = Some r → pc r = Idle → call s (store c) r st r' →
    step s files c (Config st (workers c) (<[k := r']> (readers c)))
(** pread under way: a part of the page is written *)
| step_partial c k item f o bytes : workers c !! k = Some (Reading item f o) →
    step s files c (Config (on_slot (item_slot item) (fun s => with_data s bytes) (store c)) (workers c) (readers c))
(** a spurious wake-up *)
| step_spurious c k r : readers c !! k = Some r → step s files c (Config (store c) (workers c) (<[k := awaken r]> (readers c)))
| step_spurious_worker c k : workers c !! k = Some Sleeping → step s files c (Config (store c) (<[k := Starting]> (workers c)) (readers c))
(** store_destroy asks the threads to stop *)
| step_stop c : step s files c (Config (set_stopping (store c)) (map (fun w => match w with Sleeping => Starting | _ => w end) (workers c)) (map awaken (readers c))).

(** What can be reached from a started store before the access clock, which counts
    requests in 64 bits, shows its last value: no page is ever older than that. *)
Inductive reachable (s : sidecar) (files : Z → list Z) : config → Prop :=
| reachable_start n fill nw nr : DS4_PLE_CACHE_WAYS <= n → n mod DS4_PLE_CACHE_WAYS = 0 →
    reachable s files (Config (store_start n fill) (replicate nw Starting) (replicate nr (Reader Idle [])))
| reachable_step c c' : reachable s files c → step s files c c' → Forall (λ x, last_access x < UINT64_MAX) (slots (store c')) → reachable s files c'.
