(* ===== verification/PleTheorems.v ===== *)
(** * The page cache of the embedding sidecar is coherent (ds4_ple.c)

    Whatever the readers, the workers and the disk do: a page that is ready holds the
    bytes of its file, a slot that is referred to is not evicted, every page that loads
    is queued or being read exactly once, and nobody sleeps for a page that is there. *)

From S2P Require Import Prelude Float64 Ple PleSpec PleCache.

(** ** Slots *)

Definition valid (st : ds4_ple_store) (i : Z) : Prop := 0 <= i < cache_slots st.

Lemma cache_slots_on st i f : cache_slots (on_slot i f st) = cache_slots st.
Proof. unfold cache_slots, blen. cbn. by rewrite length_alter. Qed.

Lemma slot_at_lookup st i : valid st i → slots st !! Z.to_nat i = Some (slot_at st i).
Proof.
  unfold valid, cache_slots, blen, slot_at. intros Hi. destruct (slots st !! Z.to_nat i) as [x|] eqn:E; [by rewrite (znth_lookup _ _ _ _ E)|].
  apply lookup_ge_None in E. lia.
Qed.

Lemma slot_at_on st i f j : valid st i → 0 <= j → slot_at (on_slot i f st) j = if bool_decide (j = i) then f (slot_at st i) else slot_at st j.
Proof.
  intros Hi Hj. case_bool_decide as E.
  - subst j. unfold slot_at at 1. apply znth_lookup. cbn. by rewrite list_lookup_alter_eq, slot_at_lookup.
  - unfold slot_at, znth. cbn. rewrite !nth_lookup, list_lookup_alter_ne; [done|]. unfold valid in Hi. lia.
Qed.

(** ** References *)

(** How often a slot occurs in a list. *)
Definition count (l : list Z) (i : Z) : Z := blen (filter (λ j, j = i) l).

Lemma count_app l l' i : count (l ++ l') i = count l i + count l' i.
Proof. unfold count. by rewrite filter_app, blen_app. Qed.
Lemma count_cons j l i : count (j :: l) i = (if bool_decide (j = i) then 1 else 0) + count l i.
Proof. unfold count. rewrite filter_cons. case_decide; case_bool_decide; try done. by rewrite blen_cons. Qed.
Lemma count_nonneg l i : 0 <= count l i.
Proof. apply blen_nonneg. Qed.
Lemma count_in l i : i ∈ l → 0 < count l i.
Proof.
  induction l as [|j l IH]; [by intros ?%elem_of_nil|]. rewrite count_cons. pose proof (count_nonneg l i).
  intros [->|Hin]%elem_of_cons; [rewrite bool_decide_eq_true_2 by done; lia|]. specialize (IH Hin). case_bool_decide; lia.
Qed.
Lemma count_perm l l' i : l ≡ₚ l' → count l i = count l' i.
Proof. intros H. unfold count, blen. by rewrite H. Qed.

(** The slots that a reader refers to. *)
Definition view_slots (v : ds4_ple_row_view) : list Z := map g_slot (segments v).
Definition views_slots (l : list ds4_ple_row_view) : list Z := concat (map view_slots l).
Definition first_slot (a : acquisition) : list Z := match q_slot0 a with Some i => [i] | None => [] end.

Definition pc_slots (p : reader_pc) : list Z :=
  match p with
  | Idle | Prefetching _ => []
  | AtRequest a | SetAsleep a | SetWoken a => first_slot a
  | AtWait a i | PageAsleep a i | PageWoken a i => i :: first_slot a
  | AtCount v => view_slots v
  | AtRelease l => l
  | AtReleaseRows l => views_slots l
  end.
Definition reader_slots (r : reader) : list Z := pc_slots (pc r) ++ views_slots (views r).
Definition all_slots (rs : list reader) : list Z := concat (map reader_slots rs).

Lemma all_slots_insert rs k r r' i : rs !! k = Some r →
  count (all_slots (<[k := r']> rs)) i = count (all_slots rs) i - count (reader_slots r) i + count (reader_slots r') i.
Proof.
  revert k. unfold all_slots. induction rs as [|x rs IH]; intros [|k] H; try done; cbn in *; rewrite !count_app.
  - injection H as <-. lia.
  - etransitivity; [exact (f_equal (Z.add _) (IH k H))|lia].
Qed.

Lemma all_slots_has rs k r i : rs !! k = Some r → count (reader_slots r) i <= count (all_slots rs) i.
Proof.
  revert k. unfold all_slots. induction rs as [|x rs IH]; intros [|k] H; try done; cbn in *; rewrite !count_app.
  - injection H as <-. pose proof (count_nonneg (concat (map reader_slots rs)) i). lia.
  - specialize (IH k H). pose proof (count_nonneg (reader_slots x) i). lia.
Qed.

Lemma all_slots_awaken rs : all_slots (map awaken rs) = all_slots rs.
Proof. unfold all_slots. rewrite map_map. f_equal. apply map_ext. intros [[]]; done. Qed.

(** ** The ring *)

Definition ring (st : ds4_ple_store) : list ds4_ple_work_item :=
  map (λ k, znth no_item (queue st) ((queue_head st + k) mod cache_slots st)) (seqZ 0 (queue_count st)).

Record shape (st : ds4_ple_store) : Prop := {
  sh_sets : cache_slots st = DS4_PLE_CACHE_WAYS * set_count st;
  sh_some : 0 < set_count st;
  sh_queue : blen (queue st) = cache_slots st;
  sh_head : 0 <= queue_head st < cache_slots st;
  sh_count : 0 <= queue_count st <= cache_slots st;
  sh_tail : queue_tail st = (queue_head st + queue_count st) mod cache_slots st }.

Lemma ring_length st : shape st → blen (ring st) = queue_count st.
Proof. intros H. destruct (sh_count _ H). unfold ring, blen. rewrite length_map, length_seqZ. lia. Qed.

Lemma ring_push st i st' : shape st → cache_queue_locked st i = Some st' →
  ring st' = ring st ++ [WorkItem i (generation (slot_at st i))] ∧ shape st' ∧ queue_count st < cache_slots st.
Proof.
  intros [Hn Hp Hq Hh Hc Ht]. unfold cache_queue_locked. destruct (Z.leb_spec (cache_slots st) (queue_count st)); [done|]. intros [= <-].
  set (n := cache_slots st) in *. assert (0 <= queue_tail st < n) as Htl by (rewrite Ht; apply Z.mod_pos_bound; lia).
  split_and!; [|constructor; cbn; try done|lia].
  - unfold ring. change (cache_slots (with_queue _ _ _ _ _)) with n. cbn [queue queue_head queue_count with_queue].
    rewrite seqZ_app by lia. rewrite map_app. cbn [map]. f_equal.
    + apply map_ext_in. intros k Hk. apply list_elem_of_In, elem_of_seqZ in Hk. unfold znth. rewrite !nth_lookup, list_lookup_insert_ne; [done|].
      rewrite Ht. intros Heq. apply Z2Nat.inj in Heq; [|apply Z.mod_pos_bound; lia..].
      assert ((queue_head st + queue_count st - (queue_head st + k)) mod n = 0) as Hz by (rewrite Zminus_mod, Heq, Z.sub_diag; done).
      rewrite Z.mod_small in Hz; lia.
    + change (seqZ (0 + queue_count st) 1) with [0 + queue_count st]. cbn [map]. rewrite Z.add_0_l, <- Ht. f_equal. apply znth_lookup.
      apply list_lookup_insert_eq. unfold blen in Hq. lia.
  - unfold blen in *. cbn. by rewrite length_insert.
  - unfold cache_slots in *. cbn. fold n. lia.
  - change (cache_slots (with_queue _ _ _ _ _)) with n. rewrite Ht. rewrite Zplus_mod_idemp_l. f_equal. lia.
Qed.

Lemma ring_take st : shape st → queue_count st ≠ 0 → ∃ l, ring st = (take_item st).1 :: l ∧ ring (take_item st).2 = l ∧ shape (take_item st).2.
Proof.
  intros [Hn Hp Hq Hh Hc Ht] Hne. set (n := cache_slots st) in *. eexists. split_and!; [| |constructor; cbn; try done].
  - unfold ring. rewrite seqZ_cons by lia. cbn [map]. rewrite Z.add_0_r. fold n. rewrite (Z.mod_small (queue_head st)) by lia. reflexivity.
  - unfold ring. cbn [take_item snd]. change (cache_slots (with_queue _ _ _ _ _)) with n. cbn [queue queue_head queue_count with_queue].
    change (Z.pred (queue_count st)) with (queue_count st - 1). change (Z.succ 0) with 1.
    rewrite <- (Z.add_0_r 1) at 2. rewrite <- fmap_add_seqZ. rewrite <- list_fmap_compose || rewrite map_map. 
    apply map_ext. intros k. cbn. rewrite Zplus_mod_idemp_l. do 2 f_equal. lia.
  - change (cache_slots (with_queue _ _ _ _ _)) with n. apply Z.mod_pos_bound. lia.
  - change (cache_slots (with_queue _ _ _ _ _)) with n. lia.
  - change (cache_slots (with_queue _ _ _ _ _)) with n. rewrite Ht, Zplus_mod_idemp_l. f_equal. lia.
Qed.

(** ** Coherence *)

Section coherence.
Context (s : sidecar) (files : Z → list Z).

(** A page that a reader may ask for. *)
Definition page_ok (f o : Z) : Prop := 0 <= f ∧ page_in_sidecar s f o = true.

(** Not a failed read that nobody refers to any more. *)
Definition live (x : ds4_ple_cache_slot) : Prop := state x ≠ PAGE_EMPTY ∧ ¬ (state x = PAGE_ERROR ∧ refcount x = 0).
(** Not to be evicted now. *)
Definition busy (x : ds4_ple_cache_slot) : Prop := state x = PAGE_LOADING ∨ (state x ≠ PAGE_EMPTY ∧ refcount x ≠ 0).

Definition item_ok (st : ds4_ple_store) (it : ds4_ple_work_item) : Prop :=
  valid st (item_slot it) ∧ state (slot_at st (item_slot it)) = PAGE_LOADING ∧ generation (slot_at st (item_slot it)) = item_generation it.

(** The store, the items that workers have taken from the ring and the number of
    references to each slot. *)
Record coherent (st : ds4_ple_store) (taken : list ds4_ple_work_item) (refs : Z → Z) : Prop := {
  co_shape : shape st;
  co_distinct : NoDup (map item_slot (ring st ++ taken));
  co_items : Forall (item_ok st) (ring st ++ taken);
  co_loading : ∀ i, valid st i → state (slot_at st i) = PAGE_LOADING → i ∈ map item_slot (ring st ++ taken);
  co_ready : ∀ i, valid st i → state (slot_at st i) = PAGE_READY → data (slot_at st i) = page_bytes files (file_index (slot_at st i)) (page_offset (slot_at st i));
  co_refs : ∀ i, valid st i → refcount (slot_at st i) = refs i;
  co_nonneg : ∀ i, 0 <= refs i;
  co_empty : ∀ i, valid st i → state (slot_at st i) = PAGE_EMPTY → refs i = 0;
  co_home : ∀ i, valid st i → state (slot_at st i) ≠ PAGE_EMPTY →
    let x := slot_at st i in page_ok (file_index x) (page_offset x) ∧ first_way st (file_index x) (page_offset x) <= i < first_way st (file_index x) (page_offset x) + DS4_PLE_CACHE_WAYS;
  co_live : ∀ i j, valid st i → valid st j → live (slot_at st i) → live (slot_at st j) →
    file_index (slot_at st i) = file_index (slot_at st j) → page_offset (slot_at st i) = page_offset (slot_at st j) → i = j }.

(** What a slot that is referred to keeps. *)
Definition kept (a b : ds4_ple_cache_slot) : Prop :=
  state a ≠ PAGE_EMPTY → file_index b = file_index a ∧ page_offset b = page_offset a ∧ state b ≠ PAGE_EMPTY ∧
    (state a = PAGE_READY → state b = PAGE_READY ∧ data b = data a) ∧ (state b = PAGE_LOADING → state a = PAGE_LOADING).

Lemma kept_refl a : kept a a.
Proof. done. Qed.
Lemma slot_kept_trans a b c : kept a b → kept b c → kept a c.
Proof.
  unfold kept. intros H1 H2 Ha. destruct (H1 Ha) as (E1 & E2 & Hb & Hr & Hl). destruct (H2 Hb) as (E3 & E4 & Hc & Hr' & Hl').
  split_and!; [congruence|congruence|done| |by intros ?%Hl'%Hl]. intros Hra. destruct (Hr Hra) as [Hrb E5]. destruct (Hr' Hrb). split; congruence.
Qed.

(** *** The scan of a set *)

Definition matches (f o : Z) (x : ds4_ple_cache_slot) : Prop := state x ≠ PAGE_EMPTY ∧ file_index x = f ∧ page_offset x = o.
Definition evictable (x : ds4_ple_cache_slot) : Prop := state x = PAGE_EMPTY ∨ (state x ≠ PAGE_LOADING ∧ refcount x = 0).

Lemma matches_spec f o x : negb (is_state x PAGE_EMPTY) && holds_page x f o = bool_decide (matches f o x).
Proof.
  unfold is_state, holds_page, matches. symmetry.
  destruct (bool_decide (state x = PAGE_EMPTY)) eqn:E; [apply bool_decide_eq_true in E|apply bool_decide_eq_false in E]; cbn.
  - rewrite bool_decide_eq_false_2; [done|]. by intros [? _].
  - destruct (Z.eqb_spec (file_index x) f), (Z.eqb_spec (page_offset x) o); cbn; (rewrite bool_decide_eq_true_2 by done; done) || (rewrite bool_decide_eq_false_2; [done|]; naive_solver).
Qed.

Lemma scan_ways_spec f o l : ∀ i victim oldest, match scan_ways f o i victim oldest l with
  | Found j => ∃ k x, l !! k = Some x ∧ j = i + Z.of_nat k ∧ matches f o x ∧ live x
  | Victim v =>
      (∀ k x, l !! k = Some x → matches f o x → ¬ live x) ∧
      match v with
      | Some j => (victim = Some j ∨ ∃ k x, l !! k = Some x ∧ j = i + Z.of_nat k ∧ evictable x)
      | None => victim = None ∧ (oldest = UINT64_MAX → ∀ k x, l !! k = Some x → last_access x < UINT64_MAX → busy x ∧ ¬ matches f o x)
      end
  end.
Proof.
  induction l as [|x l IH]; intros i victim oldest; cbn [scan_ways].
  { split; [done|]. destruct victim as [j|]; [by left|done]. }
  assert (∀ v old, match scan_ways f o (i + 1) v old l with
    | Found j => ∃ k x', (x :: l) !! k = Some x' ∧ j = i + Z.of_nat k ∧ matches f o x' ∧ live x'
    | Victim v' => (matches f o x → ¬ live x) → (∀ k x', (x :: l) !! k = Some x' → matches f o x' → ¬ live x') ∧
        match v' with
        | Some j => v = Some j ∨ ∃ k x', l !! k = Some x' ∧ j = i + Z.of_nat (S k) ∧ evictable x'
        | None => v = None ∧ (old = UINT64_MAX → ∀ k x', l !! k = Some x' → last_access x' < UINT64_MAX → busy x' ∧ ¬ matches f o x')
        end end) as Hnext.
  { intros v old. specialize (IH (i + 1) v old). destruct (scan_ways f o (i + 1) v old l) as [j|v'].
    - destruct IH as (k & x' & Hk & -> & H). exists (S k), x'. split; [done|]. split; [lia|done].
    - intros Hx. destruct IH as [Hl Hv]. split; [intros [|k] x' Hk; [by injection Hk as <-|by apply (Hl k)]|].
      destruct v' as [j|]; [|done]. destruct Hv as [?|(k & x' & Hk & -> & He)]; [by left|right]. exists k, x'. split; [done|]. split; [lia|done]. }
  rewrite matches_spec. unfold is_state in *.
  assert (∀ v old, (matches f o x → ¬ live x) → (v = Some i ∧ evictable x ∨ v = victim ∧ old = oldest ∧ (oldest = UINT64_MAX → last_access x < UINT64_MAX → busy x ∧ ¬ matches f o x)) →
    match scan_ways f o (i + 1) v old l with
    | Found j => ∃ k x', (x :: l) !! k = Some x' ∧ j = i + Z.of_nat k ∧ matches f o x' ∧ live x'
    | Victim v' => (∀ k x', (x :: l) !! k = Some x' → matches f o x' → ¬ live x') ∧
        match v' with
        | Some j => victim = Some j ∨ ∃ k x', (x :: l) !! k = Some x' ∧ j = i + Z.of_nat k ∧ evictable x'
        | None => victim = None ∧ (oldest = UINT64_MAX → ∀ k x', (x :: l) !! k = Some x' → last_access x' < UINT64_MAX → busy x' ∧ ¬ matches f o x')
        end end) as Hgo.
  { intros v old Hx Hv. specialize (Hnext v old). destruct (scan_ways f o (i + 1) v old l) as [j|v']; [done|]. destruct (Hnext Hx) as [Hall Hr]. split; [done|].
    destruct v' as [j|].
    - destruct Hr as [Hr|(k & x' & Hk & -> & He)]; [|right; by exists (S k), x'].
      destruct Hv as [[-> He]|[-> _]]; [|by left]. injection Hr as <-. right. exists O, x. split; [done|]. split; [lia|done].
    - destruct Hr as [Hr Hb]. destruct Hv as [[-> _]|(-> & -> & Hbx)]; [done|]. split; [done|]. intros Ho [|k] x' Hk Hla; [injection Hk as <-; by apply Hbx|by apply (Hb Ho k)]. }
  case_bool_decide as Em.
  - destruct (bool_decide (state x = PAGE_ERROR) && (refcount x =? 0)) eqn:E.
    + apply andb_true_iff in E as [E1%bool_decide_eq_true E2%Z.eqb_eq]. apply Hgo; [intros _ [_ Hl]; by apply Hl|left].
      split; [done|]. right. by rewrite E1.
    + exists O, x. split; [done|]. split; [lia|]. split; [done|]. split; [by destruct Em|]. intros [E1 E2].
      rewrite bool_decide_eq_true_2, E2 in E by done. done.
  - case_bool_decide as Ee; [apply Hgo; [done|left]; split; [done|by left]|].
    destruct (negb (bool_decide (state x = PAGE_LOADING)) && (refcount x =? 0) && (last_access x <? oldest)) eqn:E.
    + apply andb_true_iff in E as [[E1%negb_true_iff%bool_decide_eq_false E2%Z.eqb_eq]%andb_true_iff _].
      specialize (Hnext (Some i) (last_access x)). destruct (scan_ways _ _ _ _ _ _) as [j|v']; [done|]. destruct (Hnext ltac:(done)) as [Hall Hr]. split; [done|].
      destruct v' as [j|]; [|by destruct Hr]. destruct Hr as [Hr|(k & x' & Hk & -> & He)]; [injection Hr as <-; right; exists O, x; split; [done|]; split; [lia|by right]|right; by exists (S k), x'].
    + apply Hgo; [done|right]. split; [done|]. split; [done|]. intros -> Hla. split; [|done].
      destruct (bool_decide (state x = PAGE_LOADING)) eqn:El; [left; by apply bool_decide_eq_true in El|right]. split; [done|]. intros E2. rewrite E2 in E. cbn in E. lia.
Qed.

Lemma first_way_bounds st f o : shape st → 0 <= first_way st f o ∧ first_way st f o + DS4_PLE_CACHE_WAYS <= cache_slots st.
Proof.
  intros H. unfold first_way. rewrite (sh_sets _ H). pose proof (sh_some _ H). unfold DS4_PLE_CACHE_WAYS.
  pose proof (Z.mod_pos_bound (cache_hash f o) (set_count st) ltac:(lia)). lia.
Qed.

Lemma ways_lookup st f o k : shape st → (Z.of_nat k < DS4_PLE_CACHE_WAYS) →
  ways_of st f o !! k = Some (slot_at st (first_way st f o + Z.of_nat k)).
Proof.
  intros H Hk. pose proof (first_way_bounds st f o H) as [H0 H1]. unfold ways_of, ztake, zdrop. rewrite lookup_take. rewrite lookup_drop.
  rewrite <- slot_at_lookup by (unfold valid; lia). rewrite decide_True by (unfold DS4_PLE_CACHE_WAYS in *; lia). f_equal. lia.
Qed.

Lemma ways_length st f o k x : shape st → ways_of st f o !! k = Some x → Z.of_nat k < DS4_PLE_CACHE_WAYS.
Proof. intros H Hk%lookup_lt_Some. unfold ways_of, ztake in Hk. rewrite length_take in Hk. unfold DS4_PLE_CACHE_WAYS in *. lia. Qed.

Definition in_set (st : ds4_ple_store) (f o i : Z) : Prop := first_way st f o <= i < first_way st f o + DS4_PLE_CACHE_WAYS.

Lemma scan_spec st f o : shape st → match scan st f o with
  | Found i => valid st i ∧ in_set st f o i ∧ matches f o (slot_at st i) ∧ live (slot_at st i)
  | Victim v => (∀ j, in_set st f o j → matches f o (slot_at st j) → ¬ live (slot_at st j)) ∧
      match v with
      | Some i => valid st i ∧ in_set st f o i ∧ evictable (slot_at st i)
      | None => ∀ j, in_set st f o j → last_access (slot_at st j) < UINT64_MAX → busy (slot_at st j)
      end
  end.
Proof.
  intros H. pose proof (scan_ways_spec f o (ways_of st f o) (first_way st f o) None UINT64_MAX) as Hs. fold (scan st f o) in Hs.
  pose proof (first_way_bounds st f o H) as [H0 H1]. unfold valid, in_set.
  assert (∀ j, first_way st f o <= j < first_way st f o + DS4_PLE_CACHE_WAYS → ways_of st f o !! Z.to_nat (j - first_way st f o) = Some (slot_at st j)) as Hj.
  { intros j Hj. rewrite ways_lookup by (done || lia). do 2 f_equal. lia. }
  destruct (scan st f o) as [i|v].
  - destruct Hs as (k & x & Hk & -> & Hm & Hl). pose proof (ways_length _ _ _ _ _ H Hk). rewrite ways_lookup in Hk by done. injection Hk as <-. split_and!; try done; lia.
  - destruct Hs as [Hall Hv]. split; [intros j Hin; by apply (Hall _ _ (Hj j Hin))|]. destruct v as [i|].
    + destruct Hv as [?|(k & x & Hk & -> & He)]; [done|]. pose proof (ways_length _ _ _ _ _ H Hk). rewrite ways_lookup in Hk by done. injection Hk as <-. split_and!; try done; lia.
    + intros j Hin Hla. by apply (proj2 Hv eq_refl _ _ (Hj j Hin)).
Qed.

(** *** Steps that do not claim a slot *)

(** The same store but for the slots. *)
Record same_rest (a b : ds4_ple_store) : Prop := {
  sr_slots : cache_slots b = cache_slots a; sr_sets : set_count b = set_count a; sr_queue : queue b = queue a; sr_head : queue_head b = queue_head a;
  sr_tail : queue_tail b = queue_tail a; sr_count : queue_count b = queue_count a }.

Lemma same_ring a b : same_rest a b → ring b = ring a.
Proof. intros [H1 H2 H3 H4 H5 H6]. unfold ring. by rewrite H1, H3, H4, H6. Qed.
Lemma same_shape a b : same_rest a b → shape a → shape b.
Proof. intros [H1 H2 H3 H4 H5 H6] [G1 G2 G3 G4 G5 G6]. by constructor; rewrite ?H1, ?H2, ?H3, ?H4, ?H5, ?H6. Qed.
Lemma same_valid a b i : same_rest a b → valid b i ↔ valid a i.
Proof. intros H. unfold valid. by rewrite (sr_slots _ _ H). Qed.

(** A slot keeps its page, its state and its bytes; references and the time of its last
    use may change. *)
Record like (x y : ds4_ple_cache_slot) : Prop := {
  lk_file : file_index y = file_index x; lk_page : page_offset y = page_offset x; lk_gen : generation y = generation x;
  lk_state : state y = state x; lk_data : state x = PAGE_READY → data y = data x }.

Lemma like_refl x : like x x.
Proof. by constructor. Qed.
Lemma like_trans x y z : like x y → like y z → like x z.
Proof. intros [A1 A2 A3 A4 A5] [B1 B2 B3 B4 B5]. constructor; try congruence. intros H. rewrite B5 by congruence. by apply A5. Qed.
Lemma like_kept x y : like x y → kept x y.
Proof. intros [A1 A2 A3 A4 A5] Hx. rewrite A1, A2, A4. split_and!; try done. intros H. split; [done|by apply A5]. Qed.

(** References may change as long as no failed read is revived. *)
Lemma coherent_like st st' taken refs refs' : coherent st taken refs → same_rest st st' →
  (∀ i, valid st i → like (slot_at st i) (slot_at st' i) ∧ refcount (slot_at st' i) = refs' i) →
  (∀ i, 0 <= refs' i) → (∀ i, valid st i → state (slot_at st i) = PAGE_EMPTY → refs' i = 0) →
  (∀ i, valid st i → live (slot_at st' i) → live (slot_at st i)) → coherent st' taken refs'.
Proof.
  intros C R Hl H0 He Hlive. pose proof (same_ring _ _ R) as Hr.
  assert (∀ i, first_way st' i = first_way st i) as Hfw by (intros f; unfold first_way; by rewrite (sr_sets _ _ R)).
  constructor; rewrite ?Hr.
  - by eapply same_shape; [|apply C].
  - apply C.
  - eapply Forall_impl; [apply C|]. intros it (Hv & Hs & Hg). destruct (Hl _ Hv) as [[A1 A2 A3 A4 A5] _]. split_and!; [by apply (same_valid _ _ _ R)|congruence|congruence].
  - intros i Hv%(same_valid _ _ _ R). destruct (Hl _ Hv) as [[A1 A2 A3 A4 A5] _]. rewrite A4. by apply C.
  - intros i Hv%(same_valid _ _ _ R). destruct (Hl _ Hv) as [[A1 A2 A3 A4 A5] _]. rewrite A1, A2, A4. intros Hs. rewrite A5 by done. by apply C.
  - intros i Hv%(same_valid _ _ _ R). by apply Hl.
  - done.
  - intros i Hv%(same_valid _ _ _ R). destruct (Hl _ Hv) as [[A1 A2 A3 A4 A5] _]. rewrite A4. by apply He.
  - intros i Hv%(same_valid _ _ _ R). destruct (Hl _ Hv) as [[A1 A2 A3 A4 A5] _]. cbv zeta. rewrite A1, A2, A4, Hfw. by apply (co_home _ _ _ C).
  - intros i j Hi%(same_valid _ _ _ R) Hj%(same_valid _ _ _ R) Li Lj. destruct (Hl _ Hi) as [[A1 A2 A3 A4 A5] _], (Hl _ Hj) as [[B1 B2 B3 B4 B5] _].
    rewrite A1, A2, B1, B2. apply (co_live _ _ _ C); try done; by apply Hlive.
Qed.

Lemma same_refl st : same_rest st st.
Proof. by constructor. Qed.
Lemma same_trans a b c : same_rest a b → same_rest b c → same_rest a c.
Proof. intros [A1 A2 A3 A4 A5 A6] [B1 B2 B3 B4 B5 B6]. constructor; congruence. Qed.
Lemma same_on st i f : same_rest st (on_slot i f st).
Proof. constructor; try done. apply cache_slots_on. Qed.
Lemma same_stats st f : same_rest st (with_stats st f).
Proof. by constructor. Qed.
Lemma same_clock st n : same_rest st (with_clock st n).
Proof. by constructor. Qed.
Lemma same_waiters st n : same_rest st (with_waiters st n).
Proof. by constructor. Qed.
Lemma same_touch i st : same_rest st (touch i st).
Proof. unfold touch. eapply same_trans; [apply same_clock|apply same_on]. Qed.
Create HintDb same.
#[local] Hint Resolve same_refl same_on same_stats same_clock same_waiters same_touch : same.

(** What every critical section of a reader leaves to the threads that sleep. *)
Record calm (st st' : ds4_ple_store) : Prop := {
  cm_slots : cache_slots st' = cache_slots st; cm_sets : set_count st' = set_count st; cm_stop : stopping st' = stopping st;
  cm_loading : ∀ i, valid st i → state (slot_at st i) = PAGE_LOADING →
    state (slot_at st' i) = PAGE_LOADING ∧ (stopping st = false → awaited (slot_at st i) = true → awaited (slot_at st' i) = true) ∧
    file_index (slot_at st' i) = file_index (slot_at st i) ∧ page_offset (slot_at st' i) = page_offset (slot_at st i) ∧ data (slot_at st' i) = data (slot_at st i) }.
Definition stay_busy (st st' : ds4_ple_store) : Prop := ∀ i, valid st i → busy (slot_at st i) → busy (slot_at st' i).

Lemma calm_refl st : calm st st.
Proof. by constructor. Qed.
Lemma calm_trans a b c : calm a b → calm b c → calm a c.
Proof.
  intros [A1 A2 A3 A4] [B1 B2 B3 B4]. constructor; try congruence. intros i Hv Hs. destruct (A4 i Hv Hs) as (Hs1 & Ha1 & F1 & F2 & F3).
  destruct (B4 i) as (Hs2 & Ha2 & F4 & F5 & F6); [unfold valid in *; by rewrite A1|done|]. split; [done|]. split; [|split_and!; congruence].
  intros H0 H1. apply Ha2; [congruence|]. by apply Ha1.
Qed.
Lemma stay_trans a b c : cache_slots b = cache_slots a → stay_busy a b → stay_busy b c → stay_busy a c.
Proof. intros Hn H1 H2 i Hv Hb. apply H2; [unfold valid in *; by rewrite Hn|]. by apply H1. Qed.

(** Where the references went. *)
Definition plus (refs : Z → Z) (i n : Z) : Z → Z := λ j, refs j + (if bool_decide (j = i) then n else 0).

Lemma coherent_ext st taken refs refs' : (∀ i, refs i = refs' i) → coherent st taken refs → coherent st taken refs'.
Proof.
  intros He [C1 C2 C3 C4 C5 C6 C7 C8 C9 C10]. constructor; try done; intros i; rewrite <- He; [apply C6|apply C7|apply C8].
Qed.

Lemma coherent_same st st' taken refs : coherent st taken refs → same_rest st st' → slots st' = slots st → coherent st' taken refs.
Proof.
  intros C R Hs. apply (coherent_like st st' taken refs refs C R); unfold slot_at; rewrite ?Hs.
  - intros i Hi. split; [apply like_refl|by apply C].
  - apply C.
  - intros i Hi. by apply (co_empty _ _ _ C).
  - done.
Qed.

(** One slot of a coherent store with another number of references. *)
Lemma coherent_on st taken refs i n f : coherent st taken refs → valid st i → state (slot_at st i) ≠ PAGE_EMPTY →
  (let x := slot_at st i in like x (f x) ∧ refcount (f x) = refs i + n ∧ (live (f x) → live x)) → 0 <= refs i + n →
  coherent (on_slot i f st) taken (plus refs i n).
Proof.
  intros C Hv He (Hl & Hr & Hli) Hn. assert (∀ j, valid st j → slot_at (on_slot i f st) j = if bool_decide (j = i) then f (slot_at st i) else slot_at st j) as Hat
    by (intros j [Hj _]; by apply slot_at_on).
  apply (coherent_like st _ taken refs); [done|auto with same| | | |]; unfold plus.
  - intros j Hj. rewrite (Hat j Hj). case_bool_decide; [by subst|]. split; [apply like_refl|]. rewrite Z.add_0_r. by apply C.
  - intros j. case_bool_decide; [by subst|]. rewrite Z.add_0_r. apply C.
  - intros j Hj Hs. case_bool_decide; [by subst|]. rewrite Z.add_0_r. by apply (co_empty _ _ _ C).
  - intros j Hj. rewrite (Hat j Hj). case_bool_decide; [by subst|done].
Qed.

(** *** cache_request_page *)

Lemma pending_bound st taken refs i : coherent st taken refs → valid st i → state (slot_at st i) ≠ PAGE_LOADING →
  (i ∉ map item_slot (ring st ++ taken)) ∧ queue_count st < cache_slots st.
Proof.
  intros C Hv Hs. assert (i ∉ map item_slot (ring st ++ taken)) as Hi.
  { intros (it & -> & Hin)%list_elem_of_fmap. pose proof (co_items _ _ _ C) as Hall. rewrite Forall_forall in Hall. by destruct (Hall it Hin) as (_ & ? & _). }
  split; [done|]. assert (NoDup (i :: map item_slot (ring st ++ taken))) as Hnd by (constructor; [done|apply C]).
  assert ((i :: map item_slot (ring st ++ taken)) ⊆+ seqZ 0 (cache_slots st)) as Hsub.
  { apply NoDup_submseteq; [done|]. intros j [->|(it & -> & Hin)%list_elem_of_fmap]%elem_of_cons; apply elem_of_seqZ; [unfold valid in Hv; lia|].
    pose proof (co_items _ _ _ C) as Hall. rewrite Forall_forall in Hall. destruct (Hall it Hin) as (Hw & _). unfold valid in Hw. lia. }
  apply submseteq_length in Hsub. cbn in Hsub. rewrite length_map, length_app, length_seqZ in Hsub.
  pose proof (ring_length st (co_shape _ _ _ C)) as Hr. unfold blen in Hr. destruct (sh_count _ (co_shape _ _ _ C)). lia.
Qed.

Definition claimed (f o clock h : Z) (x : ds4_ple_cache_slot) : ds4_ple_cache_slot :=
  Slot f o (u64 (generation x + 1)) clock h 0 PAGE_LOADING (awaited x) (data x).

Lemma claim_coherent st taken refs f o clock h i : coherent st taken refs → page_ok f o → valid st i → in_set st f o i → evictable (slot_at st i) →
  (∀ j, in_set st f o j → matches f o (slot_at st j) → ¬ live (slot_at st j)) → 0 <= h →
  ∃ st', cache_queue_locked (on_slot i (claimed f o clock h) st) i = Some st' ∧ coherent st' taken (plus refs i h) ∧
    (∀ j, valid st j → slot_at st' j = if bool_decide (j = i) then claimed f o clock h (slot_at st i) else slot_at st j) ∧
    cache_slots st' = cache_slots st ∧ set_count st' = set_count st ∧ stopping st' = stopping st ∧ set_waiters st' = set_waiters st ∧
    queue_count st' = queue_count st + 1.
Proof.
  intros C Hp Hv Hin Hev Hno Hh. set (st1 := on_slot i (claimed f o clock h) st). pose proof (same_on st i (claimed f o clock h)) as R. fold st1 in R.
  assert (∀ j, 0 <= j → slot_at st1 j = if bool_decide (j = i) then claimed f o clock h (slot_at st i) else slot_at st j) as Hat by (intros; by apply slot_at_on).
  assert (state (slot_at st i) ≠ PAGE_LOADING) as Hnl by (destruct Hev as [->|[? _]]; done).
  assert (refs i = 0) as Hr0. { destruct Hev as [He|[_ He]]; [by apply (co_empty _ _ _ C)|]. by rewrite <- (co_refs _ _ _ C). }
  destruct (pending_bound st taken refs i C Hv Hnl) as [Hni Hq].
  destruct (cache_queue_locked st1 i) as [st'|] eqn:E; [|unfold cache_queue_locked in E; rewrite (sr_slots _ _ R), (sr_count _ _ R), (proj2 (Z.leb_gt _ _)) in E by lia; done].
  destruct (ring_push st1 i st' (same_shape _ _ R (co_shape _ _ _ C)) E) as (Hring & Hsh & _). rewrite (same_ring _ _ R) in Hring.
  assert (slots st' = slots st1 ∧ set_count st' = set_count st ∧ stopping st' = stopping st ∧ set_waiters st' = set_waiters st ∧ queue_count st' = queue_count st + 1) as (Hsl & Hsc & Hst & Hsw & Hqc).
  { unfold cache_queue_locked in E. destruct (_ <=? _); [done|]. by injection E as <-. }
  assert (cache_slots st' = cache_slots st) as Hn by (unfold cache_slots in *; rewrite Hsl; apply (sr_slots _ _ R)).
  assert (∀ j, valid st j → slot_at st' j = if bool_decide (j = i) then claimed f o clock h (slot_at st i) else slot_at st j) as Hat'.
  { intros j [Hj _]. rewrite <- Hat by done. unfold slot_at. by rewrite Hsl. }
  assert (∀ j, valid st' j ↔ valid st j) as Hvv by (intros j; unfold valid; by rewrite Hn).
  assert (∀ j, first_way st' j = first_way st j) as Hfw by (intros j; unfold first_way; by rewrite Hsc).
  assert (map item_slot (ring st' ++ taken) ≡ₚ i :: map item_slot (ring st ++ taken)) as Hperm.
  { rewrite Hring, <- app_assoc, !map_app. cbn. by rewrite Permutation_middle. }
  exists st'. split; [done|]. split; [|done]. constructor.
  - done.
  - rewrite Hperm. constructor; [done|apply C].
  - rewrite Hring, <- app_assoc. apply Forall_app. pose proof (co_items _ _ _ C) as Hall. apply Forall_app in Hall as [Ha Hb].
    assert (∀ l, (∀ it, it ∈ l → it ∈ ring st ++ taken) → Forall (item_ok st) l → Forall (item_ok st') l) as Hitems.
    { intros l Hl Hf. rewrite Forall_forall in *. intros it Hit. destruct (Hf it Hit) as (Hw & Hs & Hg). split; [by apply Hvv|]. rewrite Hat' by done.
      rewrite bool_decide_eq_false_2; [done|]. intros Heq. apply Hni. rewrite <- Heq. apply list_elem_of_fmap. exists it. split; [done|]. by apply Hl. }
    split; [apply Hitems; [intros; by apply elem_of_app; left|done]|]. constructor; [|apply Hitems; [intros; by apply elem_of_app; right|done]].
    split; [by apply Hvv|]. rewrite Hat' by done. cbn [item_slot item_generation]. rewrite bool_decide_eq_true_2 by done. split; [done|].
    rewrite (Hat i) by (unfold valid in Hv; lia). by rewrite bool_decide_eq_true_2.
  - intros j Hj%Hvv. rewrite Hat' by done. rewrite Hperm. case_bool_decide; [intros _; subst; by left|]. intros Hs. right. by apply C.
  - intros j Hj%Hvv. rewrite Hat' by done. case_bool_decide; [done|]. by apply C.
  - intros j Hj%Hvv. rewrite Hat' by done. unfold plus. case_bool_decide; [subst; cbn; lia|]. rewrite Z.add_0_r. by apply C.
  - intros j. unfold plus. pose proof (co_nonneg _ _ _ C j). case_bool_decide; lia.
  - intros j Hj%Hvv. rewrite Hat' by done. unfold plus. case_bool_decide; [done|]. rewrite Z.add_0_r. by apply C.
  - intros j Hj%Hvv. rewrite Hat' by done. cbv zeta. rewrite !Hfw. case_bool_decide; [subst j; cbn; done|]. by apply C.
  - intros j k Hj%Hvv Hk%Hvv. rewrite !Hat' by done.
    assert (∀ m, valid st m → m ≠ i → live (slot_at st m) → file_index (slot_at st m) = f → page_offset (slot_at st m) = o → False) as Hex.
    { intros m Hm Hne Hl Hf Ho. assert (state (slot_at st m) ≠ PAGE_EMPTY) as He by apply Hl. pose proof (co_home _ _ _ C m Hm He) as [_ Hhome]. cbv zeta in Hhome.
      rewrite Hf, Ho in Hhome. by apply (Hno m Hhome). }
    do 2 case_bool_decide; subst; cbn [claimed file_index page_offset]; intros Lj Lk Hf Ho; [done| | |by apply (co_live _ _ _ C)]; exfalso.
    + by apply (Hex k).
    + by apply (Hex j).
Qed.

Lemma request_spec st taken refs f o hold st' r : coherent st taken refs → page_ok f o → request_once st f o hold = (st', r) →
  let h := if hold then 1 else 0 in
  calm st st' ∧ stay_busy st st' ∧ set_waiters st' = set_waiters st ∧ queue_count st <= queue_count st' ∧
  (∀ j, valid st j → 0 < refs j → kept (slot_at st j) (slot_at st' j)) ∧
  match r with
  | Got i => valid st i ∧ coherent st' taken (plus refs i h) ∧ matches f o (slot_at st' i)
  | PageQueueFull => False
  | NoSlot => coherent st' taken refs ∧ slots st' = slots st ∧ queue_count st' = queue_count st ∧
      ∀ j, in_set st f o j → last_access (slot_at st j) < UINT64_MAX → busy (slot_at st j)
  end.
Proof.
  intros C Hp Hr. unfold request_once in Hr. cbv zeta in *. set (sa := with_stats st count_request) in *.
  assert (coherent sa taken refs) as Ca by (apply (coherent_same st); [done|apply same_stats|done]).
  assert (∀ j, slot_at sa j = slot_at st j) as Hsa by done.
  pose proof (scan_spec sa f o (co_shape _ _ _ Ca)) as Hs. destruct (scan sa f o) as [i|[i|]].
  - destruct Hs as (Hv & Hin & Hm & Hli). set (clock := u64 (access_clock sa + 1)) in *.
    set (h := if hold then 1 else 0). set (g := λ x, with_refcount (with_access x clock) (refcount x + h)).
    assert (∀ j, valid st j → slot_at st' j = if bool_decide (j = i) then g (slot_at st i) else slot_at st j) as Hat.
    { intros j Hj. unfold touch in Hr. fold clock in Hr. injection Hr as <- _. destruct hold.
      - rewrite slot_at_on; [|unfold valid, cache_slots, blen in *; cbn; by rewrite length_alter|apply Hj].
        change (slot_at (with_stats ?a _) ?k) with (slot_at a k). rewrite !slot_at_on by (done || apply Hj || apply Hv).
        destruct (decide (j = i)) as [->|Hne]; [by rewrite !bool_decide_eq_true_2|by rewrite !(bool_decide_eq_false_2 (j = i))].
      - change (slot_at (with_stats ?a _) ?k) with (slot_at a k). rewrite slot_at_on by (done || apply Hj).
        case_bool_decide; [|done]. unfold g, h. rewrite Z.add_0_r. change (slot_at (with_clock sa clock) i) with (slot_at st i). by destruct (slot_at st i). }
    assert (same_rest st st') as R.
    { assert (∀ x, same_rest st (with_stats (touch i sa) x)) as Ht.
      { intros x. eapply same_trans; [apply (same_stats st count_request)|]. eapply same_trans; [apply same_touch|apply same_stats]. }
      injection Hr as <- _. destruct hold; [eapply same_trans; [apply Ht|apply same_on]|apply Ht]. }
    assert (set_waiters st' = set_waiters st ∧ stopping st' = stopping st) as [Hw Hst] by (injection Hr as <- _; by destruct hold).
    assert (r = Got i) as -> by (by injection Hr as _ <-).
    split; [constructor; [apply R|apply R|done|]|split; [|split; [done|split; [rewrite (sr_count _ _ R); lia|split]]]].
    + intros j Hj Hs. rewrite Hat by done. case_bool_decide; [subst; done|done].
    + intros j Hj. rewrite Hat by done. case_bool_decide; [subst j|done]. unfold busy, g, h. cbn. pose proof (co_nonneg _ _ _ C i) as H0. rewrite <- (co_refs _ _ _ C i Hj) in H0.
      intros [?|[? ?]]; [by left|right]. split; [done|]. case_match; lia.
    + intros j Hj _. rewrite Hat by done. case_bool_decide; [subst j; done|apply kept_refl].
    + split; [done|]. split.
      * assert (0 <= h) as Hh0 by (unfold h; case_match; lia). assert (coherent (on_slot i g st) taken (plus refs i h)) as Cg.
        { apply coherent_on; [done|done|apply Hm| |pose proof (co_nonneg _ _ _ C i); lia]. cbv zeta. split; [by constructor|]. split; [unfold g; cbn; rewrite (co_refs _ _ _ C i Hv); done|done]. }
        assert (same_rest (on_slot i g st) st') as R' by (eapply same_trans; [|exact R]; constructor; try done; symmetry; apply cache_slots_on).
        apply (coherent_like (on_slot i g st) st' taken (plus refs i h)); [done|done| | | |].
        -- intros j Hj. assert (valid st j) as Hj' by (unfold valid in *; by rewrite cache_slots_on in Hj). rewrite Hat, slot_at_on by (done || apply Hj').
           split; [apply like_refl|]. apply (co_refs _ _ _ Cg) in Hj. by rewrite slot_at_on in Hj by (done || apply Hj').
        -- apply Cg.
        -- intros j Hj. by apply (co_empty _ _ _ Cg).
        -- intros j Hj. assert (valid st j) as Hj' by (unfold valid in *; by rewrite cache_slots_on in Hj). by rewrite Hat, slot_at_on by (done || apply Hj').
      * rewrite Hat, bool_decide_eq_true_2 by done. exact Hm.
  - destruct Hs as (Hno & Hv & Hin & Hev). set (sb := if negb (is_state (slot_at sa i) PAGE_EMPTY) then with_stats sa count_eviction else sa) in *.
    set (clock := u64 (access_clock sb + 1)) in *. set (h := if hold then 1 else 0) in *. set (sc := with_stats (with_clock sb clock) count_miss).
    assert (slots sc = slots st) as Hsc by (by unfold sc, clock, sb; destruct (negb (is_state (slot_at sa i) PAGE_EMPTY))).
    assert (same_rest st sc) as Rc by (unfold sc, clock, sb; destruct (negb (is_state (slot_at sa i) PAGE_EMPTY)); by constructor).
    assert (coherent sc taken refs) as Cc by (by apply (coherent_same st)). assert (∀ j, slot_at sc j = slot_at st j) as Hsl by (intros; unfold slot_at; by rewrite Hsc).
    assert (set_waiters sc = set_waiters st ∧ stopping sc = stopping st) as [Hw Hst] by (by unfold sc, clock, sb; destruct (negb (is_state (slot_at sa i) PAGE_EMPTY))).
    change (with_stats (on_slot i ?g (with_clock sb clock)) count_miss) with (on_slot i g sc) in Hr.
    assert (∀ j, in_set sc f o j ↔ in_set st f o j) as Hset by (intros j; unfold in_set, first_way; by rewrite (sr_sets _ _ Rc)).
    destruct (claim_coherent sc taken refs f o clock h i Cc Hp) as (sd & Hq & Cd & Hat & E1 & E2 & E3 & E4 & E5).
    { by apply (same_valid _ _ _ Rc). } { by apply Hset. } { by rewrite Hsl. } { intros j Hj%Hset. rewrite Hsl. by apply Hno. } { unfold h. clear. destruct hold; lia. }
    change (λ s0 : ds4_ple_cache_slot, Slot f o _ _ _ 0 PAGE_LOADING (awaited s0) (data s0)) with (claimed f o clock h) in Hr. rewrite Hq in Hr. injection Hr as <- <-.
    assert (∀ j, valid st j → slot_at sd j = if bool_decide (j = i) then claimed f o clock h (slot_at st i) else slot_at st j) as Hat'.
    { intros j Hj. rewrite Hat, !Hsl by (by apply (same_valid _ _ _ Rc)). done. }
    assert (refs i = 0) as Hr0. { destruct Hev as [He|[_ He]]; [by apply (co_empty _ _ _ C)|]. by rewrite <- (co_refs _ _ _ C). }
    split; [constructor; [by rewrite E1; apply Rc|by rewrite E2; apply Rc|congruence|]|split; [|split; [congruence|split; [rewrite E5, (sr_count _ _ Rc); lia|split]]]].
    + intros j Hj Hs. rewrite Hat' by done. case_bool_decide; [subst j; exfalso; unfold evictable in Hev; rewrite Hsa, Hs in Hev; naive_solver|done].
    + intros j Hj. rewrite Hat' by done. case_bool_decide; [intros _; by left|done].
    + intros j Hj Hjr. rewrite Hat' by done. case_bool_decide; [subst j; lia|apply kept_refl].
    + split; [done|]. split; [done|]. rewrite Hat', bool_decide_eq_true_2 by done. done.
  - injection Hr as <- <-. split; [by constructor|]. split; [by intros j ? ?|]. split; [done|]. split; [cbn; lia|]. split; [intros; apply kept_refl|].
    split; [done|]. split; [done|]. split; [done|]. apply Hs.
Qed.

(** *** Giving references back *)

Lemma coherent_drop st taken refs i : coherent st taken refs → valid st i → 0 < refs i →
  coherent (drop_ref i st) taken (plus refs i (-1)) ∧ calm st (drop_ref i st) ∧
  (∀ j, valid st j → slot_at (drop_ref i st) j = if bool_decide (j = i) then with_refcount (slot_at st i) (refs i - 1) else slot_at st j).
Proof.
  intros C Hv Hr. pose proof (co_refs _ _ _ C i Hv) as Hrc.
  assert (∀ j, valid st j → slot_at (drop_ref i st) j = if bool_decide (j = i) then with_refcount (slot_at st i) (refs i - 1) else slot_at st j) as Hat.
  { intros j Hj. unfold drop_ref. rewrite slot_at_on by (done || apply Hj). case_bool_decide; [|done]. rewrite Hrc, (proj2 (Z.eqb_neq _ _)) by lia. done. }
  assert (state (slot_at st i) ≠ PAGE_EMPTY) as He by (intros He; apply (co_empty _ _ _ C) in He; [lia|done]).
  split_and!; [| |done].
  - apply coherent_on; [done|done|done| |lia]. cbv zeta. rewrite Hrc, (proj2 (Z.eqb_neq _ _)) by lia. split; [by constructor|]. split; [cbn; lia|].
    intros _. split; [done|]. rewrite Hrc. lia.
  - constructor; [apply cache_slots_on|done|done|]. intros j Hj Hs. rewrite Hat by done. case_bool_decide; [by subst|done].
Qed.

Lemma drop_kept st taken refs i j : coherent st taken refs → valid st i → 0 < refs i → valid st j → kept (slot_at st j) (slot_at (drop_ref i st) j).
Proof. intros C Hv Hr Hj. destruct (coherent_drop st taken refs i C Hv Hr) as (_ & _ & Hat). rewrite Hat by done. case_bool_decide; [by subst|apply kept_refl]. Qed.

Definition minus (refs : Z → Z) (l : list Z) : Z → Z := λ i, refs i - count l i.

Lemma coherent_drops l : ∀ st taken refs, coherent st taken refs → Forall (valid st) l → (∀ i, count l i <= refs i) →
  let st' := fold_left (λ st i, drop_ref i st) l st in
  coherent st' taken (minus refs l) ∧ calm st st' ∧ set_waiters st' = set_waiters st ∧ queue_count st' = queue_count st ∧
  (∀ j, valid st j → kept (slot_at st j) (slot_at st' j)).
Proof.
  induction l as [|i l IH]; intros st taken refs C Hv Hc; cbn [fold_left].
  { split; [eapply coherent_ext; [|exact C]; intros i; unfold minus, count; cbn; change (blen []) with 0; lia|]. split; [apply calm_refl|]. by split_and!. }
  apply Forall_cons in Hv as [Hi Hv]. assert (0 < refs i) as Hr.
  { specialize (Hc i). rewrite count_cons, bool_decide_eq_true_2 in Hc by done. pose proof (count_nonneg l i). lia. }
  destruct (coherent_drop st taken refs i C Hi Hr) as (C1 & M1 & Hat). pose proof (λ j, drop_kept st taken refs i j C Hi Hr) as K1.
  assert (∀ j, valid (drop_ref i st) j ↔ valid st j) as Hvv by (intros j; unfold valid; by rewrite (cm_slots _ _ M1)).
  destruct (IH (drop_ref i st) taken _ C1) as (C2 & M2 & Hw & Hq & K2).
  { eapply Forall_impl; [exact Hv|]. intros j. apply Hvv. }
  { intros j. specialize (Hc j). rewrite count_cons in Hc. unfold plus. case_bool_decide as E1; case_bool_decide as E2; subst; try done; lia. }
  split; [eapply coherent_ext; [|exact C2]|split; [by eapply calm_trans|split; [done|split; [done|]]]].
  - intros j. unfold minus, plus. rewrite count_cons. case_bool_decide as E1; case_bool_decide as E2; subst; try done; lia.
  - intros j Hj. eapply slot_kept_trans; [by apply K1|]. apply K2. by apply Hvv.
Qed.

(** *** Resident pages *)

Lemma find_ready_spec f o l : ∀ i j, find_ready f o i l = Some j → ∃ k x, l !! k = Some x ∧ j = i + Z.of_nat k ∧ matches f o x ∧ state x = PAGE_READY.
Proof.
  induction l as [|x l IH]; intros i j H; [done|]. cbn [find_ready] in H. destruct (is_state x PAGE_READY && holds_page x f o) eqn:E.
  - injection H as <-. apply andb_true_iff in E as [E1%bool_decide_eq_true [E2%Z.eqb_eq E3%Z.eqb_eq]%andb_true_iff]. exists O, x.
    split; [done|]. split; [lia|]. split; [|done]. unfold matches. by rewrite E1.
  - destruct (IH _ _ H) as (k & x' & Hk & -> & Hx). exists (S k), x'. split; [done|]. split; [lia|done].
Qed.

Lemma lookup_ready_spec st taken refs f o st' i : coherent st taken refs → cache_lookup_ready_locked st f o = Some (st', i) →
  valid st i ∧ matches f o (slot_at st' i) ∧ state (slot_at st' i) = PAGE_READY ∧ coherent st' taken (plus refs i 1) ∧ calm st st' ∧ stay_busy st st' ∧
  set_waiters st' = set_waiters st ∧ queue_count st' = queue_count st ∧ (∀ j, valid st j → kept (slot_at st j) (slot_at st' j)).
Proof.
  intros C H. unfold cache_lookup_ready_locked in H. destruct (find_ready f o _ _) as [i'|] eqn:E; [|done]. cbn in H. injection H as <- <-.
  destruct (find_ready_spec _ _ _ _ _ E) as (k & x & Hk & -> & Hm & Hs). pose proof (co_shape _ _ _ C) as Hsh. pose proof (ways_length _ _ _ _ _ Hsh Hk) as Hlt.
  rewrite ways_lookup in Hk by done. injection Hk as <-. set (i := first_way st f o + Z.of_nat k) in *.
  assert (valid st i) as Hv by (pose proof (first_way_bounds st f o Hsh); unfold valid, i; lia).
  set (clock := u64 (access_clock st + 1)). set (g := λ x, with_refcount (with_access x clock) (refcount x + 1)).
  set (st' := with_stats _ _). assert (∀ j, valid st j → slot_at st' j = if bool_decide (j = i) then g (slot_at st i) else slot_at st j) as Hat.
  { intros j Hj. unfold st', touch. fold clock. change (slot_at (with_stats ?a _) ?k) with (slot_at a k).
    rewrite slot_at_on; [|unfold valid; rewrite cache_slots_on; apply Hv|apply Hj]. rewrite !slot_at_on by (done || apply Hj || apply Hv).
    destruct (decide (j = i)) as [->|Hne]; [by rewrite !bool_decide_eq_true_2|by rewrite !(bool_decide_eq_false_2 (j = i))]. }
  assert (same_rest st st') as R by (unfold st'; eapply same_trans; [eapply same_trans; [apply same_touch|apply same_on]|apply same_stats]).
  assert (coherent (on_slot i g st) taken (plus refs i 1)) as Cg.
  { apply coherent_on; [done|done|by apply Hm| |pose proof (co_nonneg _ _ _ C i); lia]. cbv zeta. split; [by constructor|]. split; [unfold g; cbn; rewrite (co_refs _ _ _ C i Hv); done|].
    intros _. unfold live. rewrite Hs. split; [done|]. by intros [? _]. }
  split; [done|]. rewrite (Hat i Hv), bool_decide_eq_true_2 by done. split; [done|]. split; [done|]. split; [|split; [|split; [|split; [done|split; [done|]]]]].
  - assert (same_rest (on_slot i g st) st') as R' by (eapply same_trans; [|exact R]; constructor; try done; symmetry; apply cache_slots_on).
    apply (coherent_like (on_slot i g st) st' taken (plus refs i 1)); [done|done| | | |].
    + intros j Hj. assert (valid st j) as Hj' by (unfold valid in *; by rewrite cache_slots_on in Hj). rewrite Hat, slot_at_on by (done || apply Hj').
      split; [apply like_refl|]. apply (co_refs _ _ _ Cg) in Hj. by rewrite slot_at_on in Hj by (done || apply Hj').
    + apply Cg.
    + intros j Hj. by apply (co_empty _ _ _ Cg).
    + intros j Hj. assert (valid st j) as Hj' by (unfold valid in *; by rewrite cache_slots_on in Hj). by rewrite Hat, slot_at_on by (done || apply Hj').
  - constructor; [apply R|apply R|done|]. intros j Hj Hl. rewrite Hat by done. case_bool_decide; [by subst|done].
  - intros j Hj. rewrite Hat by done. case_bool_decide; [subst j|done]. intros [Hb|[? ?]]; [by left|right]. split; [done|]. unfold g. cbn. rewrite (co_refs _ _ _ C i Hv).
    pose proof (co_nonneg _ _ _ C i). lia.
  - intros j Hj. rewrite Hat by done. case_bool_decide; [by subst|apply kept_refl].
Qed.

(** *** What readers know of their slots *)

Context (Hm : mapped s).
Abbreviation stride := (row_stride (layout s)).

Definition has_page (st : ds4_ple_store) (f o i : Z) : Prop := valid st i ∧ matches f o (slot_at st i).
Definition has_ready (st : ds4_ple_store) (f o i : Z) : Prop := has_page st f o i ∧ state (slot_at st i) = PAGE_READY.

Definition view_ok (st : ds4_ple_store) (v : ds4_ple_row_view) : Prop :=
  ∃ f o, fits 64 (row v) ∧ resolve_row s (row v) = inl (f, o) ∧
    ((∃ i, segments v = [first_segment stride o i] ∧ stride <= first_bytes stride o ∧ has_ready st f (page_of o) i) ∨
     (∃ i j, segments v = [first_segment stride o i; second_segment stride o j] ∧ first_bytes stride o < stride ∧
        has_ready st f (page_of o) i ∧ has_ready st f (page_of o + DS4_PLE_PAGE_BYTES) j)).

Definition acq_ok (st : ds4_ple_store) (a : acquisition) : Prop :=
  fits 64 (q_row a) ∧ resolve_row s (q_row a) = inl (q_file a, q_offset a) ∧
  match q_slot0 a with Some i => first_bytes stride (q_offset a) < stride ∧ has_ready st (q_file a) (page_of (q_offset a)) i | None => True end.

Definition pc_ok (st : ds4_ple_store) (p : reader_pc) : Prop :=
  match p with
  | Idle => True
  | AtRequest a => acq_ok st a
  | SetAsleep a | SetWoken a => acq_ok st a ∧ page_ok (q_file a) (q_page a)
  | AtWait a i | PageAsleep a i | PageWoken a i => acq_ok st a ∧ has_page st (q_file a) (q_page a) i
  | AtCount v => view_ok st v
  | AtRelease l => Forall (λ i, valid st i ∧ state (slot_at st i) ≠ PAGE_EMPTY) l
  | AtReleaseRows l => Forall (view_ok st) l
  | Prefetching l => Forall (λ p, 0 <= p.1) l
  end.
Definition reader_ok (st : ds4_ple_store) (r : reader) : Prop := pc_ok st (pc r) ∧ Forall (view_ok st) (views r).

(** The slots stay what they were. *)
Definition keeps (st st' : ds4_ple_store) (l : list Z) : Prop :=
  cache_slots st' = cache_slots st ∧ ∀ i, i ∈ l → valid st i → kept (slot_at st i) (slot_at st' i).

Lemma has_page_kept st st' f o i l : keeps st st' l → i ∈ l → has_page st f o i → has_page st' f o i.
Proof.
  intros [Hn Hk] Hin [Hv (He & Hf & Ho)]. destruct (Hk i Hin Hv He) as (E1 & E2 & E3 & _). split; [unfold valid in *; by rewrite Hn|].
  unfold matches. by rewrite E1, E2.
Qed.
Lemma has_ready_kept st st' f o i l : keeps st st' l → i ∈ l → has_ready st f o i → has_ready st' f o i.
Proof.
  intros K Hin [Hp Hs]. split; [by eapply has_page_kept|]. destruct K as [Hn Hk]. destruct Hp as [Hv (He & _)]. by apply (Hk i Hin Hv He).
Qed.

Lemma view_ok_kept st st' v : keeps st st' (view_slots v) → view_ok st v → view_ok st' v.
Proof.
  intros K (f & o & Hfit & Hr & Hv). exists f, o. split; [done|]. split; [done|]. unfold view_slots in K.
  destruct Hv as [(i & E & Hs & H)|(i & j & E & Hs & Hi & Hj)]; rewrite E in K; cbn in K; [left; exists i|right; exists i, j]; split_and!; try done.
  - eapply has_ready_kept; [exact K|left|done].
  - eapply has_ready_kept; [exact K|left|done].
  - eapply has_ready_kept; [exact K|right; left|done].
Qed.

Lemma keeps_app st st' l l' : keeps st st' (l ++ l') ↔ keeps st st' l ∧ keeps st st' l'.
Proof.
  unfold keeps. split.
  - intros [Hn Hk]. split; (split; [done|]); intros i Hi; apply Hk, elem_of_app; (by left) || (by right).
  - intros [[Hn Hk] [_ Hk']]. split; [done|]. intros i [Hi|Hi]%elem_of_app; [by apply Hk|by apply Hk'].
Qed.

Lemma views_ok_kept st st' vs : keeps st st' (views_slots vs) → Forall (view_ok st) vs → Forall (view_ok st') vs.
Proof.
  unfold views_slots. induction 2 as [|v vs Hv Hvs IH]; [done|]. cbn in *. apply keeps_app in H as [H1 H2]. constructor; [by eapply view_ok_kept|by apply IH].
Qed.

Lemma acq_ok_kept st st' a : keeps st st' (first_slot a) → acq_ok st a → acq_ok st' a.
Proof.
  intros K (Hf & Hr & H). split; [done|]. split; [done|]. unfold first_slot in K. destruct (q_slot0 a) as [i|]; [|done].
  destruct H as [? H]. split; [done|]. eapply has_ready_kept; [exact K|left|done].
Qed.

Lemma pc_ok_kept st st' p : keeps st st' (pc_slots p) → pc_ok st p → pc_ok st' p.
Proof.
  destruct p as [|a|a|a|a i|a i|a i|v|l|l|l]; cbn [pc_ok pc_slots]; intros K; try done; try (by apply acq_ok_kept); try (by intros [? ?]; split; [by eapply acq_ok_kept|]).
  1-3: change (i :: first_slot a) with ([i] ++ first_slot a) in K; apply keeps_app in K as [K1 K2]; intros [Ha Hp]; split;
    [by eapply acq_ok_kept|eapply has_page_kept; [exact K1|left|done]].
  - by apply view_ok_kept.
  - intros Hl. rewrite Forall_forall in *. intros i Hi. destruct (Hl i Hi) as [Hv He]. destruct K as [Hn Hk].
    split; [unfold valid in *; by rewrite Hn|]. by apply (Hk i Hi Hv He).
  - by apply views_ok_kept.
Qed.

Lemma reader_ok_kept st st' r : keeps st st' (reader_slots r) → reader_ok st r → reader_ok st' r.
Proof. intros [K1 K2]%keeps_app [Hp Hv]. split; [by eapply pc_ok_kept|by eapply views_ok_kept]. Qed.

(** What a reader refers to exists. *)
Definition there (st : ds4_ple_store) (l : list Z) : Prop := Forall (valid st) l.

Lemma view_there st v : view_ok st v → there st (view_slots v).
Proof.
  intros (f & o & _ & _ & [(i & E & _ & [[Hv _] _])|(i & j & E & _ & [[Hv _] _] & [[Hw _] _])]); unfold view_slots, there; rewrite E; cbn;
    apply Forall_cons; (split; [done|]); [by apply Forall_nil|]. apply Forall_cons. split; [done|by apply Forall_nil].
Qed.
Lemma views_there st vs : Forall (view_ok st) vs → there st (views_slots vs).
Proof. unfold views_slots. induction 1 as [|v vs Hv Hvs IH]; [constructor|]. cbn. apply Forall_app. split; [by apply view_there|done]. Qed.
Lemma first_there st a : acq_ok st a → there st (first_slot a).
Proof. intros (_ & _ & H). unfold first_slot. destruct (q_slot0 a); [|constructor]. destruct H as [_ [[Hv _] _]]. apply Forall_cons. split; [done|by apply Forall_nil]. Qed.

(** A place that resolves has pages that may be asked for, and its row lies in them. *)
Lemma resolved_nonneg g f o : fits 64 g → resolve_row s g = inl (f, o) → 0 <= f.
Proof using Hm.
  intros Hg H. destruct (Z.ltb_spec g (usable_vocabulary_rows (layout s))) as [Hlt|Hge].
  - destruct (row_place s g Hm ltac:(unfold fits in Hg; lia)) as (i & _ & _ & E & Hf & _). rewrite H in E. injection E as -> ->. lia.
  - unfold resolve_row in H. by rewrite (proj2 (Z.leb_le _ _)) in H.
Qed.

(** *** Critical sections of readers *)

Definition waits (p : reader_pc) : Z := match p with SetAsleep _ | SetWoken _ => 1 | _ => 0 end.

(** What a section does that turns references [before] into [after]. *)
Record section_ok (st : ds4_ple_store) (taken : list ds4_ple_work_item) (refs : Z → Z) (before after : list Z) (n : Z) (st' : ds4_ple_store) (w : wake) : Prop := {
  se_calm : calm st st';
  se_coherent : coherent st' taken (λ i, refs i - count before i + count after i);
  se_kept : ∀ i, valid st i → 0 < refs i - count before i → kept (slot_at st i) (slot_at st' i);
  se_wake : w = WakeReaders ∨ set_waiters st' = 0 ∨ stay_busy st st';
  se_waiters : set_waiters st' = set_waiters st + n;
  se_queue : queue_count st <= queue_count st' ∧ (queue_count st < queue_count st' → w = WakeWorker) }.

(** Why a reader sleeps. *)
Definition sleep_ok (st : ds4_ple_store) (p : reader_pc) : Prop :=
  match p with
  | PageAsleep a i => state (slot_at st i) = PAGE_LOADING ∧ awaited (slot_at st i) = true ∧ stopping st = false
  | PageWoken a i => state (slot_at st i) = PAGE_LOADING → stopping st = false → awaited (slot_at st i) = true
  | SetAsleep a => ∀ j, in_set st (q_file a) (q_page a) j → last_access (slot_at st j) < UINT64_MAX → busy (slot_at st j)
  | _ => True
  end.

Lemma section_id st taken refs l n st' w : coherent st taken refs → slots st' = slots st → same_rest st st' → stopping st' = stopping st →
  set_waiters st' = set_waiters st + n → section_ok st taken refs l l n st' w.
Proof.
  intros C Hs R Hst Hw. assert (∀ j, slot_at st' j = slot_at st j) as Hat by (intros; unfold slot_at; by rewrite Hs).
  constructor.
  - constructor; [apply R|apply R|done|]. intros j. rewrite Hat. done.
  - eapply coherent_ext; [|by eapply coherent_same]. intros i. cbn. lia.
  - intros i _ _. rewrite Hat. apply kept_refl.
  - right. right. intros j. by rewrite Hat.
  - done.
  - rewrite (sr_count _ _ R). split; [lia|]. lia.
Qed.

(** Sections compose; the last one says whom to wake. *)
Lemma section_trans st taken refs a b c n m st1 w1 st2 w2 :
  section_ok st taken refs a b n st1 w1 → queue_count st1 = queue_count st → (w1 = WakeReaders ∨ stay_busy st st1) → w1 ≠ WakeReaders →
  (∀ i, count a i <= refs i) →
  section_ok st1 taken (λ i, refs i - count a i + count b i) b c m st2 w2 → section_ok st taken refs a c (n + m) st2 w2.
Proof.
  intros [A1 A2 A3 A4 A5 A6] Hq Hb Hne Hc [B1 B2 B3 B4 B5 B6]. destruct Hb as [?|Hb]; [done|].
  assert (∀ j, valid st1 j ↔ valid st j) as Hvv by (intros j; unfold valid; by rewrite (cm_slots _ _ A1)). constructor.
  - by eapply calm_trans.
  - eapply coherent_ext; [|exact B2]. intros i. cbn. lia.
  - intros i Hv Hr. eapply slot_kept_trans; [by apply A3|]. apply B3; [by apply Hvv|lia].
  - destruct B4 as [?|[?|?]]; [by left|by right; left|]. right. right. eapply stay_trans; [apply A1|done|done].
  - lia.
  - rewrite Hq in B6. done.
Qed.

Lemma pc_slots_released l : pc_slots (released l) = l.
Proof. by destruct l. Qed.
Lemma pc_slots_abandon a : pc_slots (abandon a) = first_slot a.
Proof. apply pc_slots_released. Qed.
Lemma waits_released l : waits (released l) = 0.
Proof. by destruct l. Qed.
Lemma waits_abandon a : waits (abandon a) = 0.
Proof. apply waits_released. Qed.
Lemma sleep_released st l : sleep_ok st (released l).
Proof. by destruct l. Qed.
Lemma pc_ok_released st l : Forall (λ i, valid st i ∧ state (slot_at st i) ≠ PAGE_EMPTY) l → pc_ok st (released l).
Proof. by destruct l. Qed.
Lemma pc_ok_abandon st a : acq_ok st a → pc_ok st (abandon a).
Proof.
  intros (_ & _ & H). apply pc_ok_released. destruct (q_slot0 a); [|by apply Forall_nil]. destruct H as [_ [[Hv (He & _)] _]].
  apply Forall_cons. split; [done|by apply Forall_nil].
Qed.

(** The kept slots of the reader itself. *)
Lemma own_keeps st st' refs l : calm st st' → (∀ i, count l i <= refs i) → (∀ j, valid st j → 0 < refs j → kept (slot_at st j) (slot_at st' j)) →
  keeps st st' l.
Proof.
  intros M Hc Hk. split; [apply M|]. intros i Hi Hv. apply Hk; [done|]. specialize (Hc i). pose proof (count_in l i Hi). lia.
Qed.

Lemma request_section st taken refs f o hold st' r l : coherent st taken refs → page_ok f o → (∀ i, count l i <= refs i) →
  request_once st f o hold = (st', r) →
  match r with
  | Got i => valid st i ∧ has_page st' f o i ∧ section_ok st taken refs l (if hold then i :: l else l) 0 st' (wake_queued st st') ∧ keeps st st' l
  | PageQueueFull => False
  | NoSlot => slots st' = slots st ∧ same_rest st st' ∧ stopping st' = stopping st ∧ set_waiters st' = set_waiters st ∧
      (∀ j, in_set st f o j → last_access (slot_at st j) < UINT64_MAX → busy (slot_at st j))
  end.
Proof.
  intros C Hp Hc Hr. assert (r = NoSlot → same_rest st st' ∧ stopping st' = stopping st) as Hsame.
  { intros ->. unfold request_once in Hr. cbv zeta in Hr. destruct (scan _ _ _) as [i|[i|]]; [done| |injection Hr as <-; split; [by constructor|done]].
    destruct (cache_queue_locked _ _); done. }
  pose proof (request_spec st taken refs f o hold st' r C Hp Hr) as (M & B & Hw & Hq & K & Hres). destruct r as [i| |].
  - destruct Hres as (Hv & C' & Hma). split; [done|]. split; [split; [unfold valid in *; by rewrite (cm_slots _ _ M)|done]|].
    split; [|by eapply own_keeps]. constructor; [done| | |by right; right|lia|].
    + eapply coherent_ext; [|exact C']. intros j. unfold plus. destruct hold; [rewrite count_cons|]; case_bool_decide as E1; try (case_bool_decide as E2); subst; try done; lia.
    + intros j Hj Hrj. apply K; [done|]. pose proof (count_nonneg l j). lia.
    + split; [done|]. intros Hlt. unfold wake_queued. by rewrite (proj2 (Z.eqb_neq _ _)) by lia.
  - done.
  - destruct Hres as (_ & Hs & _ & Hb). destruct (Hsame eq_refl). by split_and!.
Qed.

Lemma in_set_same st st' f o j : set_count st' = set_count st → in_set st' f o j ↔ in_set st f o j.
Proof. intros H. unfold in_set, first_way. by rewrite H. Qed.

Lemma try_slot_ok st taken refs a st' p w : coherent st taken refs → acq_ok st a → page_ok (q_file a) (q_page a) → (∀ i, count (first_slot a) i <= refs i) →
  try_slot st a = (st', p, w) →
  section_ok st taken refs (first_slot a) (pc_slots p) (waits p) st' w ∧ pc_ok st' p ∧ sleep_ok st' p.
Proof.
  intros C Ha Hp Hc H. unfold try_slot, request_or_drop in H.
  destruct (request_once st (q_file a) (q_page a) true) as [s1 r] eqn:E. pose proof (request_section st taken refs _ _ true s1 r (first_slot a) C Hp Hc E) as Hres.
  destruct r as [i| |]; [|done|].
  - destruct Hres as (Hv & Hpg & Hs & Hk). assert ((st', p, w) = (s1, AtWait a i, wake_queued st s1)) as [= -> -> ->] by (by destruct (q_wait a)).
    split; [done|]. split; [|done]. split; [by eapply acq_ok_kept|done].
  - destruct Hres as (Hsl & R & Hst & Hw & Hb). destruct (q_wait a); injection H as <- <- <-.
    + split; [apply section_id; try done; [eapply same_trans; [done|apply same_waiters]|cbn; lia]|]. split; [split; [eapply acq_ok_kept; [|done]|done]|].
      * split; [apply R|]. intros i _ _. unfold slot_at. cbn. rewrite Hsl. apply kept_refl.
      * intros j Hj. unfold slot_at. cbn. rewrite Hsl. apply Hb. eapply in_set_same; [|done]. symmetry. apply R.
    + rewrite pc_slots_abandon, waits_abandon. split; [apply section_id; try done; [eapply same_trans; [done|apply same_stats]|cbn; lia]|].
      split; [|apply sleep_released]. apply pc_ok_abandon. eapply acq_ok_kept; [|done]. split; [apply R|]. intros i _ _. unfold slot_at. cbn. rewrite Hsl. apply kept_refl.
Qed.

Lemma first_bytes_le o : 0 < stride → first_bytes stride o <= stride.
Proof. intros H. unfold first_bytes. destruct (Z.leb_spec (within_page o + stride) DS4_PLE_PAGE_BYTES); lia. Qed.

Lemma acq_view st a i : acq_ok st a → has_ready st (q_file a) (q_page a) i →
  match q_slot0 a with
  | None => if first_bytes stride (q_offset a) <? stride
            then acq_ok st (Acquisition (q_row a) (q_file a) (q_offset a) (q_wait a) (Some i))
            else view_ok st (View (q_row a) [first_segment stride (q_offset a) i])
  | Some j => view_ok st (View (q_row a) [first_segment stride (q_offset a) j; second_segment stride (q_offset a) i])
  end.
Proof.
  intros (Hf & Hr & H) Hi. unfold q_page in Hi. destruct (q_slot0 a) as [j|].
  - destruct H as [Hlt Hj]. exists (q_file a), (q_offset a). split; [done|]. split; [done|]. right. by exists j, i.
  - destruct (Z.ltb_spec (first_bytes stride (q_offset a)) stride) as [Hlt|Hge]; [split; [done|]; split; [done|]; by split|].
    exists (q_file a), (q_offset a). split; [done|]. split; [done|]. left. by exists i.
Qed.

Lemma page_waited_ok st taken refs a i st' p w : coherent st taken refs → acq_ok st a → has_page st (q_file a) (q_page a) i →
  (∀ j, count (i :: first_slot a) j <= refs j) → page_waited s st a i = (st', p, w) →
  section_ok st taken refs (i :: first_slot a) (pc_slots p) 0 st' w ∧ pc_ok st' p ∧ sleep_ok st' p ∧ waits p = 0.
Proof.
  intros C Ha Hpg Hc H. unfold page_waited, end_wait in H. destruct (is_state (slot_at st i) PAGE_READY) eqn:E.
  - apply bool_decide_eq_true in E. injection H as <- <- <-. pose proof (acq_view st a i Ha (conj Hpg E)) as Hview.
    assert (∀ l, (∀ j, count l j = count (i :: first_slot a) j) → section_ok st taken refs (i :: first_slot a) l 0 st WakeNobody) as Hsec.
    { intros l Hl. constructor; [apply calm_refl| | |right; right; by intros j|lia|split; lia].
      - eapply coherent_ext; [|exact C]. intros j. cbn. rewrite Hl. lia.
      - intros; apply kept_refl. }
    unfold first_slot in *. destruct (q_slot0 a) as [k|].
    + split; [apply Hsec; intros j; cbn; rewrite !count_cons; lia|done].
    + destruct (_ <? _); (split; [by apply Hsec|done]).
  - injection H as <- <- <-. destruct Hpg as [Hv Hma]. assert (0 < refs i) as Hr.
    { specialize (Hc i). rewrite count_cons, bool_decide_eq_true_2 in Hc by done. pose proof (count_nonneg (first_slot a) i). lia. }
    destruct (coherent_drop st taken refs i C Hv Hr) as (C' & M & Hat). pose proof (λ j, drop_kept st taken refs i j C Hv Hr) as K.
    rewrite pc_slots_abandon, waits_abandon. split; [|split; [apply pc_ok_abandon|split; [apply sleep_released|done]]].
    + constructor; [done| | | |cbn; lia|cbn; split; lia].
      * eapply coherent_ext; [|exact C']. intros j. unfold plus. cbn. rewrite count_cons. case_bool_decide as E1; case_bool_decide as E2; subst; try done; lia.
      * intros j Hj _. by apply K.
      * unfold wake_waiters. cbn. destruct (Z.eqb_spec (set_waiters st) 0); [by right; left|by left].
    + eapply acq_ok_kept; [|done]. split; [apply M|]. intros j _ Hj. by apply K.
Qed.

Lemma section_frame st taken refs a b l n st' w : section_ok st taken refs a b n st' w → section_ok st taken refs (a ++ l) (b ++ l) n st' w.
Proof.
  intros [A1 A2 A3 A4 A5 A6]. constructor; try done.
  - eapply coherent_ext; [|exact A2]. intros i. cbn. rewrite !count_app. lia.
  - intros i Hv. rewrite count_app. pose proof (count_nonneg l i). intros Hr. apply A3; [done|lia].
Qed.

(** Only the place of the reader changes, and what it refers to. *)
Lemma release_drops st vs : ds4_ple_store_release_rows st vs = fold_left (λ st i, drop_ref i st) (views_slots vs) st.
Proof.
  unfold ds4_ple_store_release_rows, views_slots. revert st. induction vs as [|v vs IH]; intros st; [done|]. cbn. rewrite fold_left_app, IH. f_equal.
  unfold release_view, view_slots. clear. revert st. induction (segments v) as [|g l IH]; intros st; [done|]. cbn. by rewrite IH.
Qed.

Lemma drops_section st taken refs l : coherent st taken refs → there st l → (∀ i, count l i <= refs i) →
  section_ok st taken refs l [] 0 (fold_left (λ st i, drop_ref i st) l st) (wake_waiters (fold_left (λ st i, drop_ref i st) l st)).
Proof.
  intros C Ht Hc. destruct (coherent_drops l st taken refs C Ht Hc) as (C' & M & Hw & Hq & K). constructor; [done| | | |lia|split; lia].
  - eapply coherent_ext; [|exact C']. intros i. unfold minus. change (count [] i) with 0. lia.
  - intros i Hv _. by apply K.
  - unfold wake_waiters. rewrite Hw. destruct (Z.eqb_spec (set_waiters st) 0); [right; left; lia|by left].
Qed.

(** Whether a page is awaited does not matter to the rest. *)
Lemma awaited_section st taken refs l i b : coherent st taken refs → valid st i → state (slot_at st i) ≠ PAGE_EMPTY →
  (b = false → state (slot_at st i) = PAGE_LOADING → stopping st = true) →
  section_ok st taken refs l l 0 (on_slot i (λ x, with_awaited x b) st) WakeNobody.
Proof.
  intros C Hv He Hb. assert (∀ j, valid st j → slot_at (on_slot i (λ x, with_awaited x b) st) j = if bool_decide (j = i) then with_awaited (slot_at st i) b else slot_at st j) as Hat
    by (intros j [Hj _]; by apply slot_at_on).
  constructor.
  - constructor; [apply cache_slots_on|done|done|]. intros j Hj Hs. rewrite Hat by done. case_bool_decide; [subst j|done]. split; [done|]. cbn. split; [|done]. intros Hst _.
    destruct b; [done|]. rewrite (Hb eq_refl Hs) in Hst. done.
  - eapply coherent_ext; [|apply (coherent_on st taken refs i 0); [done|done|done| |pose proof (co_nonneg _ _ _ C i); lia]].
    + intros j. unfold plus. cbn. case_bool_decide; lia.
    + cbv zeta. split; [by constructor|]. split; [cbn; rewrite (co_refs _ _ _ C i Hv); lia|done].
  - intros j Hj _. rewrite Hat by done. case_bool_decide; [by subst|apply kept_refl].
  - right. right. intros j Hj. rewrite Hat by done. case_bool_decide; [by subst|done].
  - cbn. lia.
  - cbn. split; lia.
Qed.

Lemma wakes_all st : wake_waiters st = WakeReaders ∨ set_waiters st = 0.
Proof. unfold wake_waiters. destruct (Z.eqb_spec (set_waiters st) 0); [by right|by left]. Qed.

Lemma lift_section st taken refs p p' vs n st' w : section_ok st taken refs (pc_slots p) (pc_slots p') n st' w → pc_ok st' p' → Forall (view_ok st) vs →
  (∀ i, count (pc_slots p ++ views_slots vs) i <= refs i) →
  section_ok st taken refs (reader_slots (Reader p vs)) (reader_slots (Reader p' vs)) n st' w ∧ reader_ok st' (Reader p' vs).
Proof.
  intros Hs Hp Hv Hc. split; [by apply section_frame|]. split; [done|]. cbn [views]. eapply views_ok_kept; [|done]. split; [apply Hs|].
  intros i Hi Hva. apply (se_kept _ _ _ _ _ _ _ _ Hs); [done|]. specialize (Hc i). rewrite count_app in Hc. pose proof (count_in _ _ Hi). lia.
Qed.

Lemma section_stop st taken refs a b n st' w : section_ok st taken refs a b n st' w → stopping st' = stopping st.
Proof. intros H. apply (cm_stop _ _ (se_calm _ _ _ _ _ _ _ _ H)). Qed.

(** A section that keeps the references, and another one behind it. *)
Lemma section_then st taken refs a b n m st1 st2 w : section_ok st taken refs a a n st1 WakeNobody → queue_count st1 = queue_count st → stay_busy st st1 →
  (∀ i, count a i <= refs i) → section_ok st1 taken refs a b m st2 w → section_ok st taken refs a b (n + m) st2 w.
Proof.
  intros H1 Hq Hb Hc H2. eapply section_trans; [exact H1|done|by right|done|done|].
  destruct H2 as [A1 A2 A3 A4 A5 A6]. constructor; try done; [eapply coherent_ext; [|exact A2]|]; intros i; cbn; [lia|].
  intros Hv Hr. apply A3; [done|lia].
Qed.

Lemma coherent_back st taken refs a n st1 w : section_ok st taken refs a a n st1 w → coherent st1 taken refs.
Proof. intros H. eapply coherent_ext; [|apply H]. intros i. cbn. lia. Qed.

Lemma clear_and_finish st taken refs a i st' p w : coherent st taken refs → acq_ok st a → has_page st (q_file a) (q_page a) i →
  (∀ j, count (i :: first_slot a) j <= refs j) → must_sleep st i = false →
  page_waited s (on_slot i (λ x, with_awaited x false) st) a i = (st', p, w) →
  section_ok st taken refs (i :: first_slot a) (pc_slots p) 0 st' w ∧ pc_ok st' p ∧ sleep_ok st' p ∧ waits p = 0.
Proof.
  intros C Ha [Hv Hma] Hc Hms H. set (st1 := on_slot i _ st) in *.
  assert (section_ok st taken refs (i :: first_slot a) (i :: first_slot a) 0 st1 WakeNobody) as Hsec.
  { apply awaited_section; [done|done|apply Hma|]. intros _ Hs. unfold must_sleep, is_state in Hms. rewrite Hs in Hms. cbn in Hms. by destruct (stopping st). }
  assert (∀ l, keeps st st1 l) as Hk.
  { intros l. split; [apply cache_slots_on|]. intros j _ Hj. unfold st1. rewrite slot_at_on by (done || apply Hj). case_bool_decide; [by subst|apply kept_refl]. }
  destruct (page_waited_ok st1 taken refs a i st' p w) as (H1 & H2 & H3 & H4); [by eapply coherent_back|by eapply acq_ok_kept| |done|done|].
  - eapply (has_page_kept _ _ _ _ _ [i]); [apply Hk|left|by split].
  - split_and!; try done. change 0 with (0 + 0). eapply section_then; [exact Hsec|done| |done|done]. intros j Hj. unfold st1. rewrite slot_at_on by (done || apply Hj).
    case_bool_decide; [by subst|done].
Qed.

Lemma acq_page_ok st a : acq_ok st a → page_in_sidecar s (q_file a) (q_page a) = true → page_ok (q_file a) (q_page a).
Proof using Hm. intros (Hf & Hr & _) Hp. split; [by eapply resolved_nonneg|done]. Qed.

Lemma pc_step_ok st taken refs r st' r' w : coherent st taken refs → reader_ok st r → sleep_ok st (pc r) → (∀ i, count (reader_slots r) i <= refs i) →
  reader_step s st r = Some (st', r', w) → (∀ v, pc r ≠ AtCount v) →
  views r' = views r ∧ section_ok st taken refs (pc_slots (pc r)) (pc_slots (pc r')) (waits (pc r') - waits (pc r)) st' w ∧ pc_ok st' (pc r') ∧ sleep_ok st' (pc r').
Proof using Hm.
  destruct r as [p vs]. intros C [Hp Hv] Hsl Hc H Hnc. cbn [pc views] in *. assert (∀ i, count (pc_slots p) i <= refs i) as Hcp.
  { intros i. specialize (Hc i). unfold reader_slots in Hc. cbn [pc views] in Hc. rewrite count_app in Hc. pose proof (count_nonneg (views_slots vs) i). lia. }
  unfold reader_step in H. cbv zeta in H. cbn [pc views] in H. destruct p as [|a|a|a|a i|a i|a i|v|l|l|l]; try done; cbn [pc_ok pc_slots waits] in *.
  - destruct (page_in_sidecar s (q_file a) (q_page a)) eqn:E.
    + destruct (try_slot st a) as [[s1 p1] w1] eqn:Et. injection H as <- <- <-. cbn [pc views]. split; [done|]. rewrite Z.sub_0_r.
      apply (try_slot_ok st taken refs a); try done. by eapply acq_page_ok.
    + injection H as <- <- <-. cbn [pc views]. split; [done|]. rewrite pc_slots_abandon, waits_abandon.
      split; [apply section_id; try done; cbn; lia|]. split; [by apply pc_ok_abandon|apply sleep_released].
  - set (s0 := with_waiters st (set_waiters st - 1)) in *.
    assert (section_ok st taken refs (first_slot a) (first_slot a) (-1) s0 WakeNobody) as Hs0 by (by apply section_id).
    assert (coherent s0 taken refs) as C0 by (by eapply coherent_back). assert (acq_ok s0 a) as Ha by apply Hp.
    destruct (stopping s0) eqn:Est.
    + injection H as <- <- <-. cbn [pc views]. split; [done|]. rewrite pc_slots_abandon, waits_abandon.
      split; [done|]. split; [by apply pc_ok_abandon|apply sleep_released].
    + destruct (try_slot s0 a) as [[s1 p1] w1] eqn:Et. injection H as <- <- <-. cbn [pc views]. split; [done|].
      destruct (try_slot_ok s0 taken refs a s1 p1 w1) as (H1 & H2 & H3); try done; [by apply Hp|]. split; [|done].
      replace (waits p1 - 1) with (-1 + waits p1) by lia. eapply section_then; [exact Hs0|done|by intros j|done|done].
  - destruct Hp as [Ha Hpg]. destruct Hpg as [Hvi Hma] eqn:Epg. clear Epg. destruct (is_state (slot_at st i) PAGE_LOADING) eqn:El.
    + apply bool_decide_eq_true in El. set (s0 := with_stats st count_blocked) in *.
      assert (coherent s0 taken refs) as C0 by (apply (coherent_same st); [done|apply same_stats|done]).
      assert (section_ok st taken refs (i :: first_slot a) (i :: first_slot a) 0 (await st i) WakeNobody) as Haw.
      { change 0 with (0 + 0). apply (section_then _ _ _ _ _ 0 0 s0); [apply section_id; try done; cbn; lia|done|by intros j|done|].
        apply awaited_section; [done|done|apply Hma|done]. }
      assert (∀ l, keeps st (await st i) l) as Hk.
      { intros l. split; [exact (cache_slots_on (with_stats st count_blocked) i _)|]. intros j _ Hj. unfold await. rewrite slot_at_on by (done || apply Hj). case_bool_decide; [by subst|apply kept_refl]. }
      assert (coherent (await st i) taken refs) as C1 by (by eapply coherent_back). assert (acq_ok (await st i) a) as Ha1 by (by eapply acq_ok_kept).
      assert (has_page (await st i) (q_file a) (q_page a) i) as Hp1 by (eapply (has_page_kept _ _ _ _ _ [i]); [apply Hk|left|by split]).
      destruct (must_sleep (await st i) i) eqn:Ems.
      * injection H as <- <- <-. cbn [pc views]. split; [done|]. split; [done|]. split; [done|]. cbn [sleep_ok]. unfold must_sleep in Ems.
        apply andb_true_iff in Ems as [E1%bool_decide_eq_true E2%negb_true_iff]. split_and!; [done| |done].
        unfold await. rewrite slot_at_on by (done || apply Hvi). by rewrite bool_decide_eq_true_2.
      * destruct (page_waited _ _ _ _) as [[s1 p1] w1] eqn:Et. injection H as <- <- <-. cbn [pc views]. split; [done|].
        destruct (clear_and_finish (await st i) taken refs a i s1 p1 w1) as (H1 & H2 & H3 & H4); try done. rewrite H4. split; [|done].
        change (0 - 0) with (0 + 0). eapply section_then; [exact Haw|done| |done|done]. intros j Hj. unfold await. rewrite slot_at_on by (done || apply Hj).
        case_bool_decide; [by subst|done].
    + destruct (page_waited _ _ _ _) as [[s1 p1] w1] eqn:Et. injection H as <- <- <-. cbn [pc views]. split; [done|].
      destruct (page_waited_ok st taken refs a i s1 p1 w1) as (H1 & H2 & H3 & H4); try done. by rewrite H4.
  - destruct Hp as [Ha Hpg]. destruct (must_sleep st i) eqn:Ems.
    + injection H as <- <- <-. cbn [pc views]. split; [done|]. split; [apply section_id; try done; cbn; lia|]. split; [done|]. cbn in *. unfold must_sleep in Ems.
      apply andb_true_iff in Ems as [E1%bool_decide_eq_true E2%negb_true_iff]. split_and!; [done|by apply Hsl|done].
    + destruct (page_waited _ _ _ _) as [[s1 p1] w1] eqn:Et. injection H as <- <- <-. cbn [pc views]. split; [done|].
      destruct (clear_and_finish st taken refs a i s1 p1 w1) as (H1 & H2 & H3 & H4); try done. by rewrite H4.
  - by destruct (Hnc v).
  - destruct l as [|i l]; injection H as <- <- <-; cbn [pc views]; (split; [done|]).
    + split; [apply section_id; try done; cbn; lia|done].
    + rewrite pc_slots_released, waits_released. apply Forall_cons in Hp as [[Hi He] Hp]. pose proof (Hcp i) as Hri. rewrite count_cons, bool_decide_eq_true_2 in Hri by done.
      pose proof (count_nonneg l i) as Hnn. split.
      * change (i :: l) with ([i] ++ l). change l with ([] ++ l) at 2. apply section_frame. apply (drops_section st taken refs [i]); [done|by apply Forall_cons|].
        intros j. specialize (Hcp j). rewrite count_cons in *. change (count [] j) with 0. pose proof (count_nonneg l j). lia.
      * split; [|apply sleep_released]. apply pc_ok_released. eapply Forall_impl; [exact Hp|]. cbn. intros j [Hj Hej].
        split; [unfold valid, cache_release, drop_ref in *; by rewrite cache_slots_on|]. by apply (drop_kept st taken refs i j C Hi ltac:(lia) Hj).
  - injection H as <- <- <-. cbn [pc views]. split; [done|]. rewrite release_drops. split; [|done]. apply drops_section; [done|by apply views_there|done].
  - destruct l as [|[f o] l]; [injection H as <- <- <-; cbn [pc views]; split; [done|]; split; [apply section_id; try done; cbn; lia|done]|].
    apply Forall_cons in Hp as [Hf Hp]. cbn in Hf. destruct (page_in_sidecar s f o) eqn:E.
    + unfold request_or_drop in H. destruct (request_once st f o false) as [s1 x] eqn:Er.
      pose proof (request_section st taken refs f o false s1 x [] C (conj Hf E) ltac:(intros j; apply (co_nonneg _ _ _ C)) Er) as Hres. destruct x as [i| |]; [|done|]; injection H as <- <- <-; cbn [pc views].
      * destruct Hres as (_ & _ & Hs & _). by split.
      * destruct Hres as (Hsl' & R & Hst & Hw & _). split; [done|]. split; [|done]. assert (wake_queued st (with_stats s1 count_dropped) = WakeNobody) as ->.
        { unfold wake_queued. cbn. by rewrite (sr_count _ _ R), Z.eqb_refl. }
        apply section_id; try done; [eapply same_trans; [done|apply same_stats]|cbn; lia].
    + injection H as <- <- <-. cbn [pc views]. split; [done|]. split; [apply section_id; try done; cbn; lia|done].
Qed.

Lemma reader_step_ok st taken refs r st' r' w : coherent st taken refs → reader_ok st r → sleep_ok st (pc r) → (∀ i, count (reader_slots r) i <= refs i) →
  reader_step s st r = Some (st', r', w) →
  section_ok st taken refs (reader_slots r) (reader_slots r') (waits (pc r') - waits (pc r)) st' w ∧ reader_ok st' r' ∧ sleep_ok st' (pc r').
Proof using Hm.
  intros C Hok Hsl Hc H. destruct (pc r) as [|a|a|a|a i|a i|a i|v|l|l|l] eqn:Ep;
    try (destruct (pc_step_ok st taken refs r st' r' w C Hok ltac:(by rewrite Ep) Hc H ltac:(by rewrite Ep)) as (Hv & H1 & H2 & H3); rewrite <- Ep;
      destruct r as [p vs], r' as [p' vs']; cbn [pc views] in *; subst vs'; destruct Hok as [_ Hvs]; cbn [views] in Hvs;
      destruct (lift_section _ _ _ _ _ vs _ _ _ H1 H2 Hvs Hc) as [H4 H5]; by split_and!).
  destruct r as [p vs]. cbn in Ep. subst p. unfold reader_step in H. cbv zeta in H. cbn [pc views] in H. injection H as <- <- <-. cbn [pc waits].
  destruct Hok as [Hp Hvs]. cbn [pc pc_ok views] in *. split; [|split; [split; [done|apply Forall_cons; split; [exact Hp|exact Hvs]]|done]].
  assert (reader_slots (Reader Idle (v :: vs)) = reader_slots (Reader (AtCount v) vs)) as -> by done. apply section_id; try done. cbn. lia.
Qed.

(** *** Calls *)

Lemma refcount_drop st i : refcount (slot_at st i) ≠ 0 → valid st i → on_slot i (λ x, with_refcount x (refcount x - 1)) st = drop_ref i st.
Proof.
  intros Hr Hv. unfold on_slot, drop_ref, on_slot. f_equal. apply list_alter_ext; [|done]. intros x Hx. rewrite slot_at_lookup in Hx by done. injection Hx as <-.
  by rewrite (proj2 (Z.eqb_neq _ _)).
Qed.

Lemma stay_same st st' taken taken' refs : coherent st taken refs → coherent st' taken' refs → cache_slots st' = cache_slots st →
  (∀ i, valid st i → kept (slot_at st i) (slot_at st' i)) → calm st st' → stay_busy st st'.
Proof.
  intros C C' Hn K M i Hv Hb. assert (valid st' i) as Hv' by (unfold valid in *; by rewrite Hn). destruct Hb as [Hs|[He Hr]].
  - left. by apply (cm_loading _ _ M).
  - right. destruct (K i Hv He) as (_ & _ & He' & _). split; [done|]. by rewrite (co_refs _ _ _ C' i Hv'), <- (co_refs _ _ _ C i Hv).
Qed.

Lemma ready_row_ok st taken refs g st' ov : coherent st taken refs → fits 64 g → ready_row s st g = inl (st', ov) →
  section_ok st taken refs [] (match ov with Some v => view_slots v | None => [] end) 0 st' WakeNobody ∧ stay_busy st st' ∧ queue_count st' = queue_count st ∧
  (∀ j, valid st j → kept (slot_at st j) (slot_at st' j)) ∧ match ov with Some v => view_ok st' v | None => True end.
Proof using Hm.
  intros C Hg H. unfold ready_row in H. destruct (resolve_row s g) as [[f o]|] eqn:Er; [|done]. cbv zeta in H.
  assert (∀ x n, count [] x = 0) as Hnil by done.
  destruct (cache_lookup_ready_locked st f (page_of o)) as [[s1 i]|] eqn:E1.
  2: { injection H as <- <-. split; [apply section_id; try done; lia|]. split_and!; try done; by intros j. }
  destruct (lookup_ready_spec st taken refs f (page_of o) s1 i C E1) as (Hi & Hmi & Hri & C1 & M1 & B1 & W1 & Q1 & K1).
  assert (valid s1 i) as Hi1 by (unfold valid in *; by rewrite (cm_slots _ _ M1)). pose proof (co_nonneg _ _ _ C i) as H0.
  assert (∀ refs2 l st2 wk, coherent st2 taken refs2 → calm st st2 → stay_busy st st2 → set_waiters st2 = set_waiters st → queue_count st2 = queue_count st →
    (∀ j, valid st j → kept (slot_at st j) (slot_at st2 j)) → (∀ j, refs2 j = refs j + count l j) → section_ok st taken refs [] l 0 st2 wk) as Hsec.
  { intros refs2 l st2 wk C2 M2 B2 W2 Q2 K2 He. constructor; [done| |by intros; apply K2|by right; right|lia|split; lia].
    eapply coherent_ext; [|exact C2]. intros j. rewrite He. change (count [] j) with 0. lia. }
  destruct (Z.ltb_spec (first_bytes stride o) stride) as [Hlt|Hge].
  - destruct (cache_lookup_ready_locked s1 f (page_of o + DS4_PLE_PAGE_BYTES)) as [[s2 k]|] eqn:E2; injection H as <- <-.
    + destruct (lookup_ready_spec s1 taken _ f _ s2 k C1 E2) as (Hk & Hmk & Hrk & C2 & M2 & B2 & W2 & Q2 & K2).
      assert (∀ j, valid st j → kept (slot_at st j) (slot_at s2 j)) as K12.
      { intros j Hj. eapply slot_kept_trans; [by apply K1|]. apply K2. unfold valid in *. by rewrite (cm_slots _ _ M1). }
      assert (stay_busy st s2) as B12 by (eapply stay_trans; [apply M1|done|done]).
      split; [|split; [done|split; [congruence|split; [done|]]]].
      * eapply Hsec; [exact C2|by eapply calm_trans|done|congruence|congruence|done|]. intros j. unfold plus. cbn. rewrite !count_cons. change (count [] j) with 0.
        repeat case_bool_decide; subst; try done; lia.
      * exists f, o. split; [done|]. split; [done|]. right. exists i, k. split; [done|]. split; [done|].
        assert (has_ready s1 f (page_of o) i) as Hi2 by (by split; [split|]). split.
        -- eapply (has_ready_kept s1 s2 _ _ _ [i]); [|left|done]. split; [apply M2|]. intros j _ Hj. by apply K2.
        -- split; [split; [|done]|done]. unfold valid in *. by rewrite (cm_slots _ _ M2).
    + assert (0 < plus refs i 1 i) as Hp by (unfold plus; rewrite bool_decide_eq_true_2 by done; lia).
      rewrite refcount_drop; [|rewrite (co_refs _ _ _ C1) by done; lia|done].
      destruct (coherent_drop s1 taken _ i C1 Hi1 Hp) as (C2 & M2 & Hat). pose proof (λ j, drop_kept s1 taken _ i j C1 Hi1 Hp) as K2.
      assert (∀ j, valid st j → kept (slot_at st j) (slot_at (drop_ref i s1) j)) as K12.
      { intros j Hj. eapply slot_kept_trans; [by apply K1|]. apply K2. unfold valid in *. by rewrite (cm_slots _ _ M1). }
      assert (coherent (drop_ref i s1) taken refs) as C3 by (eapply coherent_ext; [|exact C2]; intros j; unfold plus; case_bool_decide; lia).
      assert (calm st (drop_ref i s1)) as M12 by (by eapply calm_trans).
      assert (stay_busy st (drop_ref i s1)) as B12 by (eapply stay_same; [exact C|exact C3|apply M12|done|done]).
      split; [eapply Hsec; [exact C3|done|done|done|done|done|]|by split_and!]. intros j. change (count [] j) with 0. lia.
  - injection H as <- <-. split; [|split; [done|split; [done|split; [done|]]]].
    + eapply Hsec; [exact C1|done|done|done|done|done|]. intros j. unfold plus. cbn. rewrite count_cons. change (count [] j) with 0. repeat case_bool_decide; subst; try done; lia.
    + exists f, o. split; [done|]. split; [done|]. left. exists i. split; [done|]. split; [done|]. by split; [split|].
Qed.

Lemma section_nil st taken refs st' a : section_ok st taken refs [] a 0 st' WakeNobody → coherent st' taken (λ i, refs i + count a i).
Proof. intros H. eapply coherent_ext; [|apply H]. intros i. cbn. change (count [] i) with 0. lia. Qed.

Lemma ready_rows_ok rows : ∀ st taken refs st' vs e, coherent st taken refs → Forall (fits 64) rows → ready_rows s st rows = (st', vs, e) →
  section_ok st taken refs [] (views_slots vs) 0 st' WakeNobody ∧ stay_busy st st' ∧ queue_count st' = queue_count st ∧
  (∀ j, valid st j → kept (slot_at st j) (slot_at st' j)) ∧ Forall (view_ok st') vs.
Proof using Hm.
  assert (∀ st taken refs, coherent st taken refs → section_ok st taken refs [] (views_slots []) 0 st WakeNobody ∧ stay_busy st st ∧ queue_count st = queue_count st ∧
    (∀ j, valid st j → kept (slot_at st j) (slot_at st j)) ∧ Forall (view_ok st) []) as Hend.
  { intros st taken refs C. split; [apply section_id; try done; lia|]. split; [by intros j|]. split; [done|]. split; [done|by apply Forall_nil]. }
  induction rows as [|g rows IH]; intros st taken refs st' vs e C Hf H; cbn [ready_rows] in H; [injection H as <- <- <-; by apply Hend|].
  apply Forall_cons in Hf as [Hg Hf]. destruct (ready_row s st g) as [[s1 [v|]]|e1] eqn:E1; [..|injection H as <- <- <-; by apply Hend].
  - destruct (ready_rows s s1 rows) as [[s2 vs2] e2] eqn:E2. injection H as <- <- <-.
    destruct (ready_row_ok st taken refs g s1 (Some v) C Hg E1) as (S1 & B1 & Q1 & K1 & V1).
    pose proof (section_nil _ _ _ _ _ S1) as C1. destruct (IH s1 taken _ s2 vs2 e2 C1 Hf E2) as (S2 & B2 & Q2 & K2 & V2).
    assert (∀ j, valid st j → kept (slot_at st j) (slot_at s2 j)) as K12.
    { intros j Hj. eapply slot_kept_trans; [by apply K1|]. apply K2. unfold valid in *. by rewrite (cm_slots _ _ (se_calm _ _ _ _ _ _ _ _ S1)). }
    split; [|split; [eapply stay_trans; [apply S1|done|done]|split; [congruence|split; [done|]]]].
    + constructor; [eapply calm_trans; [apply S1|apply S2]| |by intros; apply K12| |rewrite (se_waiters _ _ _ _ _ _ _ _ S2), (se_waiters _ _ _ _ _ _ _ _ S1); lia|split; lia].
      * eapply coherent_ext; [|apply S2]. intros j. cbn. change (count [] j) with 0. unfold views_slots. cbn. rewrite count_app. lia.
      * right. right. eapply stay_trans; [apply S1|done|done].
    + apply Forall_cons. split; [|done]. eapply view_ok_kept; [|done]. split; [apply S2|]. intros j _ Hj. by apply K2.
  - injection H as <- <- <-. destruct (ready_row_ok st taken refs g s1 None C Hg E1) as (S1 & B1 & Q1 & K1 & _). by split_and!.
Qed.

Lemma prefetch_nonneg rows : Forall (fits 64) rows → Forall (λ p, 0 <= p.1) (prefetch_pages s rows).
Proof using Hm.
  induction 1 as [|g rows Hg Hf IH]; [by apply Forall_nil|]. cbn [prefetch_pages]. destruct (resolve_row s g) as [[f o]|] eqn:E; [|by apply Forall_nil].
  pose proof (resolved_nonneg g f o Hg E). apply Forall_cons. split; [done|]. apply Forall_app. split; [|done]. case_match; [by apply Forall_cons|by apply Forall_nil].
Qed.

Lemma views_slots_app l l' : views_slots (l ++ l') = views_slots l ++ views_slots l'.
Proof. unfold views_slots. by rewrite map_app, concat_app. Qed.
Lemma views_slots_perm l l' : l ≡ₚ l' → views_slots l ≡ₚ views_slots l'.
Proof. intros H. unfold views_slots. induction H; cbn; [done|by f_equiv|rewrite !app_assoc; f_equiv; apply Permutation_app_comm|by etransitivity]. Qed.

Lemma moved_section st taken refs a b : coherent st taken refs → (∀ i, count b i = count a i) → section_ok st taken refs a b 0 st WakeNobody.
Proof.
  intros C Hab. pose proof (section_id st taken refs a 0 st WakeNobody C eq_refl (same_refl st) eq_refl ltac:(lia)) as [A1 A2 A3 A4 A5 A6].
  constructor; try done. eapply coherent_ext; [|exact A2]. intros i. cbn. by rewrite Hab.
Qed.

Lemma call_ok st taken refs r st' r' : coherent st taken refs → reader_ok st r → pc r = Idle → (∀ i, count (reader_slots r) i <= refs i) → call s st r st' r' →
  section_ok st taken refs (reader_slots r) (reader_slots r') 0 st' WakeNobody ∧ reader_ok st' r' ∧ sleep_ok st' (pc r') ∧ waits (pc r') = 0 ∧ stay_busy st st'.
Proof using Hm.
  destruct r as [p vs]. cbn [pc]. intros C [Hp Hv] -> Hc H. cbn [views] in *. assert (stay_busy st st) as Hsb by (by intros j).
  inversion H as [g wait f o Hg Hr|rows s1 vs1 e Hf Hr|v rest Hperm|vs1 rest Hperm|rows Hf]; subst; clear H; cbn [views] in *.
  - split; [by apply moved_section|]. split; [|done]. by split.
  - destruct (ready_rows_ok rows st taken refs s1 vs1 e C Hf Hr) as (S1 & B1 & Q1 & K1 & V1).
    assert (Forall (view_ok s1) vs) as Hv1 by (eapply views_ok_kept; [|done]; split; [apply S1|]; intros i _ Hi; by apply K1).
    assert (coherent s1 taken (λ i, refs i + count (views_slots vs1) i)) as C1 by (by eapply section_nil).
    assert (∀ st2 l, slots st2 = slots s1 → same_rest s1 st2 → stopping st2 = stopping s1 → set_waiters st2 = set_waiters s1 → (∀ i, count l i = count (views_slots vs1) i + count (views_slots vs) i) →
      section_ok st taken refs (views_slots vs) l 0 st2 WakeNobody ∧ stay_busy st st2) as Hsec.
    { intros st2 l Hs2 R2 Ht2 Hw2 Hl. assert (∀ j, slot_at st2 j = slot_at s1 j) as Hat by (intros; unfold slot_at; by rewrite Hs2).
      split; [|intros j Hj Hb; rewrite Hat; by apply B1]. constructor.
      - eapply calm_trans; [apply S1|]. constructor; [apply R2|apply R2|done|]. intros j _ Hs. by rewrite Hat.
      - eapply coherent_ext; [|eapply coherent_same; [exact C1|done|done]]. intros i. cbn. rewrite Hl. lia.
      - intros j Hj _. rewrite Hat. by apply K1.
      - right. right. intros j Hj Hb. rewrite Hat. by apply B1.
      - rewrite Hw2, (se_waiters _ _ _ _ _ _ _ _ S1). lia.
      - rewrite (sr_count _ _ R2), Q1. split; lia. }
    destruct e as [e|].
    + destruct (Hsec s1 (reader_slots (Reader (AtReleaseRows vs1) vs)) eq_refl (same_refl _) eq_refl eq_refl) as [H1 H2]; [intros i; unfold reader_slots; cbn; by rewrite count_app|].
      by split_and!.
    + destruct (Hsec (with_stats s1 (count_rows (blen vs1) stride)) (reader_slots (Reader Idle (vs1 ++ vs))) eq_refl (same_stats _ _) eq_refl eq_refl) as [H1 H2].
      { intros i. unfold reader_slots. cbn [pc views pc_slots app]. by rewrite views_slots_app, count_app. }
      split; [done|]. split; [|done]. split; [done|]. apply Forall_app. split; [exact V1|exact Hv1].
  - pose proof (views_slots_perm _ _ Hperm) as Hps. rewrite Hperm in Hv. apply Forall_cons in Hv as [Hvv Hv].
    split; [apply moved_section; [done|]|split; [split; [|done]|split; [apply sleep_released|split; [apply waits_released|done]]]].
    + intros i. unfold reader_slots. cbn [pc views pc_slots app]. rewrite pc_slots_released, (count_perm _ _ i Hps). done.
    + apply pc_ok_released. destruct Hvv as (f & o & _ & _ & [(i & E & _ & [[Hva (He & _)] _])|(i & j & E & _ & [[Hva (He & _)] _] & [[Hvb (He' & _)] _])]); rewrite E; cbn;
        apply Forall_cons; (split; [done|]); [by apply Forall_nil|]. apply Forall_cons. split; [done|by apply Forall_nil].
  - pose proof (views_slots_perm _ _ Hperm) as Hps. rewrite Hperm in Hv. apply Forall_app in Hv as [Hv1 Hv].
    split; [apply moved_section; [done|]|by split_and!]. intros i. unfold reader_slots. cbn [pc views pc_slots app]. by rewrite (count_perm _ _ i Hps), views_slots_app.
  - split; [by apply moved_section|]. split; [split; [by apply prefetch_nonneg|done]|done].
Qed.

(** *** Workers *)

Lemma coherent_perm st taken taken' refs : taken ≡ₚ taken' → coherent st taken refs → coherent st taken' refs.
Proof.
  intros Hp [C1 C2 C3 C4 C5 C6 C7 C8 C9 C10]. assert (ring st ++ taken ≡ₚ ring st ++ taken') as Hq by (by f_equiv).
  constructor; try done; [by rewrite <- Hq|by rewrite <- Hq|]. intros i Hv Hs. rewrite <- Hq. by apply C4.
Qed.

Lemma take_coherent st taken refs : coherent st taken refs → queue_count st ≠ 0 →
  coherent (take_item st).2 ((take_item st).1 :: taken) refs ∧ item_ok st (take_item st).1.
Proof.
  intros C Hne. destruct (ring_take st (co_shape _ _ _ C) Hne) as (l & Hr & Hr2 & Hsh). set (it := (take_item st).1) in *. set (st2 := (take_item st).2) in *.
  assert (slots st2 = slots st ∧ set_count st2 = set_count st) as [Hs Hsc] by done. destruct C as [C1 C2 C3 C4 C5 C6 C7 C8 C9 C10]. rewrite Hr in *.
  assert (ring st2 ++ it :: taken ≡ₚ (it :: l) ++ taken) as Hp by (rewrite Hr2; cbn; by rewrite Permutation_middle).
  split; [constructor; try done|by apply Forall_inv in C3]; [by rewrite Hp|by rewrite Hp|]. intros i Hv H. rewrite Hp. by apply C4.
Qed.

Lemma data_coherent st taken refs i bytes : coherent st taken refs → valid st i → state (slot_at st i) = PAGE_LOADING →
  coherent (on_slot i (λ x, with_data x bytes) st) taken refs.
Proof.
  intros C Hv Hs. eapply coherent_ext; [|apply (coherent_on st taken refs i 0); [done|done|by rewrite Hs| |pose proof (co_nonneg _ _ _ C i); lia]].
  - intros j. unfold plus. case_bool_decide; lia.
  - cbv zeta. split; [constructor; try done; cbn; by rewrite Hs|]. split; [cbn; rewrite (co_refs _ _ _ C i Hv); lia|done].
Qed.

Definition settled (saved : Z) (x : ds4_ple_cache_slot) : ds4_ple_cache_slot :=
  if saved =? 0 then with_state x PAGE_READY else with_error (with_state x PAGE_ERROR) saved.

(** The guard of a worker that comes back always holds. *)
Lemma worker_done_slot st taken refs it saved : coherent st (it :: taken) refs →
  worker_done st it saved = on_slot (item_slot it) (settled saved) (with_stats st (count_read saved)).
Proof.
  intros C. pose proof (co_items _ _ _ C) as Hall. apply Forall_app in Hall as [_ Hit]. apply Forall_inv in Hit as (Hv & Hs & Hg).
  unfold worker_done. by rewrite Hg, Z.eqb_refl, (bool_decide_eq_true_2 _ Hs : is_state _ _ = true).
Qed.

Lemma done_coherent st taken refs it saved : coherent st (it :: taken) refs →
  (saved = 0 → data (slot_at st (item_slot it)) = page_bytes files (file_index (slot_at st (item_slot it))) (page_offset (slot_at st (item_slot it)))) →
  let st' := worker_done st it saved in coherent st' taken refs ∧
    (∀ j, valid st j → slot_at st' j = if bool_decide (j = item_slot it) then settled saved (slot_at st (item_slot it)) else slot_at st j).
Proof.
  intros C Hd. cbv zeta. rewrite (worker_done_slot st taken refs it saved C). set (i := item_slot it) in *. set (s0 := with_stats st (count_read saved)).
  pose proof (co_items _ _ _ C) as Hall. apply Forall_app in Hall as [Hring Hit]. apply Forall_cons in Hit as [(Hv & Hs & _) Hit]. fold i in Hv, Hs.
  assert (∀ j, valid st j → slot_at (on_slot i (settled saved) s0) j = if bool_decide (j = i) then settled saved (slot_at st i) else slot_at st j) as Hat
    by (intros j [Hj _]; by apply (slot_at_on s0)).
  split; [|done]. set (st' := on_slot i (settled saved) s0) in *. assert (same_rest st st') as R by (eapply same_trans; [apply (same_stats st (count_read saved))|apply same_on]).
  assert (∀ j, valid st' j ↔ valid st j) as Hvv by (intros j; by apply same_valid). pose proof (same_ring _ _ R) as Hr.
  assert (∀ j, first_way st' j = first_way st j) as Hfw by (intros j; unfold first_way; by rewrite (sr_sets _ _ R)).
  assert (settled saved (slot_at st i) = settled saved (slot_at st i) ∧ file_index (settled saved (slot_at st i)) = file_index (slot_at st i) ∧ page_offset (settled saved (slot_at st i)) = page_offset (slot_at st i) ∧
    refcount (settled saved (slot_at st i)) = refcount (slot_at st i) ∧ state (settled saved (slot_at st i)) ≠ PAGE_EMPTY ∧ state (settled saved (slot_at st i)) ≠ PAGE_LOADING) as (_ & F1 & F2 & F3 & F4 & F5).
  { unfold settled. by case_match. }
  pose proof (co_distinct _ _ _ C) as Hnd. assert (ring st ++ it :: taken ≡ₚ it :: (ring st ++ taken)) as Hp by (by rewrite Permutation_middle).
  rewrite Hp in Hnd. cbn [map] in Hnd. apply NoDup_cons in Hnd as [Hni Hnd].
  assert (∀ it', it' ∈ ring st ++ taken → item_slot it' ≠ i) as Hne.
  { intros it' Hin Heq. apply Hni. fold i. rewrite <- Heq. apply list_elem_of_fmap. by exists it'. }
  constructor; rewrite ?Hr.
  - eapply same_shape; [done|apply C].
  - done.
  - assert (Forall (item_ok st) (ring st ++ taken)) as Hf by (by apply Forall_app). rewrite Forall_forall in *. intros it' Hin. destruct (Hf it' Hin) as (Hv' & Hs' & Hg').
    split; [by apply Hvv|]. rewrite Hat by done. by rewrite bool_decide_eq_false_2 by (by apply Hne).
  - intros j Hj%Hvv. rewrite Hat by done. case_bool_decide; [done|]. intros Hl. pose proof (co_loading _ _ _ C j Hj Hl) as Hin. rewrite Hp in Hin. cbn in Hin.
    apply elem_of_cons in Hin as [?|Hin]; [done|exact Hin].
  - intros j Hj%Hvv. rewrite Hat by done. case_bool_decide; [|by apply C]. rewrite F1, F2. unfold settled. destruct (Z.eqb_spec saved 0); [intros _; by apply Hd|done].
  - intros j Hj%Hvv. rewrite Hat by done. case_bool_decide; [subst j; rewrite F3|]; by apply C.
  - apply C.
  - intros j Hj%Hvv. rewrite Hat by done. case_bool_decide; [done|]. by apply C.
  - intros j Hj%Hvv. rewrite Hat by done. cbv zeta. rewrite !Hfw. case_bool_decide; [subst j; rewrite F1, F2; intros _; apply (co_home _ _ _ C i Hv); by rewrite Hs|by apply (co_home _ _ _ C)].
  - assert (∀ j, valid st j → live (slot_at st' j) → live (slot_at st j)) as Hlv.
    { intros j Hj. rewrite Hat by done. case_bool_decide; [subst j; intros _; unfold live; rewrite Hs; split; [done|by intros [? _]]|done]. }
    intros j k Hj%Hvv Hk%Hvv Lj Lk. rewrite !Hat by done. intros Hf Ho. apply (co_live _ _ _ C j k Hj Hk); [by apply Hlv|by apply Hlv| |].
    + do 2 case_bool_decide; subst; rewrite ?F1 in Hf; done.
    + do 2 case_bool_decide; subst; rewrite ?F2 in Ho; done.
Qed.

(** ** Every reachable configuration *)

Definition worker_items (w : worker) : list ds4_ple_work_item := match w with Reading it _ _ | HasRead it _ => [it] | _ => [] end.
Definition inflight (ws : list worker) : list ds4_ple_work_item := concat (map worker_items ws).

Lemma inflight_insert ws k w w' : ws !! k = Some w → worker_items w ++ inflight (<[k := w']> ws) ≡ₚ worker_items w' ++ inflight ws.
Proof.
  revert k. unfold inflight. induction ws as [|x ws IH]; intros [|k] H; try done; cbn in *.
  - injection H as <-. rewrite !app_assoc. f_equiv. apply Permutation_app_comm.
  - rewrite (Permutation_app_swap_app _ (worker_items x)), (IH k H : _ ++ concat (map worker_items (<[k:=w']> ws)) ≡ₚ _). by rewrite (Permutation_app_swap_app _ (worker_items x)).
Qed.

Definition working (w : worker) : Prop := match w with Starting | Reading _ _ _ | HasRead _ _ => True | _ => False end.

Definition worker_ok (st : ds4_ple_store) (w : worker) : Prop :=
  match w with
  | Reading it f o => file_index (slot_at st (item_slot it)) = f ∧ page_offset (slot_at st (item_slot it)) = o
  | HasRead it saved => saved = 0 → data (slot_at st (item_slot it)) = page_bytes files (file_index (slot_at st (item_slot it))) (page_offset (slot_at st (item_slot it)))
  | _ => True
  end.

Definition sum_waits (rs : list reader) : Z := foldr Z.add 0 (map (λ r, waits (pc r)) rs).
Definition content (st : ds4_ple_store) (r : reader) : Prop := reader_ok st r ∧ sleep_ok st (pc r).
Definition refs_of (rs : list reader) : Z → Z := count (all_slots rs).

Record good (c : config) : Prop := {
  gd_coherent : coherent (store c) (inflight (workers c)) (refs_of (readers c));
  gd_workers : Forall (worker_ok (store c)) (workers c);
  gd_readers : Forall (content (store c)) (readers c);
  gd_waiters : set_waiters (store c) = sum_waits (readers c);
  gd_exited : Exited ∈ workers c → stopping (store c) = true;
  gd_awake : stopping (store c) = false → queue_count (store c) ≠ 0 → workers c ≠ [] → ∃ w, w ∈ workers c ∧ working w;
  gd_clock : Forall (λ x, last_access x < UINT64_MAX) (slots (store c)) }.

Lemma sum_waits_insert rs k r r' : rs !! k = Some r → sum_waits (<[k := r']> rs) = sum_waits rs - waits (pc r) + waits (pc r').
Proof.
  unfold sum_waits. revert k. induction rs as [|x rs IH]; intros [|k] H; try done; cbn in *; [injection H as <-; lia|].
  etransitivity; [exact (f_equal (Z.add _) (IH k H))|lia].
Qed.
Lemma sum_waits_awaken rs : sum_waits (map awaken rs) = sum_waits rs.
Proof. unfold sum_waits. rewrite map_map. f_equal. apply map_ext. intros [[]]; done. Qed.
Lemma sum_waits_has rs r : r ∈ rs → waits (pc r) <= sum_waits rs.
Proof.
  unfold sum_waits. assert (∀ l, 0 <= foldr Z.add 0 (map (λ r, waits (pc r)) l)) as H0 by (induction l as [|[[]] l IH]; cbn; lia).
  induction rs as [|x rs IH]; [by intros ?%elem_of_nil|]. intros [->|Hin]%elem_of_cons; cbn; [pose proof (H0 rs); lia|]. specialize (IH Hin). destruct x as [[]]; cbn; lia.
Qed.

Lemma clock_at st i : Forall (λ x, last_access x < UINT64_MAX) (slots st) → valid st i → last_access (slot_at st i) < UINT64_MAX.
Proof. intros H Hv. rewrite Forall_lookup in H. by apply (H _ _ (slot_at_lookup st i Hv)). Qed.

(** A reader that another thread's section passes by, woken or not. *)
Lemma content_awake st st' r : content st r → keeps st st' (reader_slots r) →
  (∀ i, valid st i → i ∈ reader_slots r → state (slot_at st' i) = PAGE_LOADING → stopping st' = false →
     stopping st = false ∧ (awaited (slot_at st i) = true → awaited (slot_at st' i) = true)) → content st' (awaken r).
Proof.
  intros [Hok Hsl] Hk Ha. pose proof (reader_ok_kept _ _ _ Hk Hok) as [Hp Hv]. assert (reader_ok st' (awaken r)) as Hok' by (split; [by destruct r as [[]]|done]).
  split; [done|]. destruct r as [p vs]. unfold reader_slots in *. cbn [pc awaken awake views] in *.
  assert (∀ a i, pc_slots p = i :: first_slot a → has_page st (q_file a) (q_page a) i → (state (slot_at st i) = PAGE_LOADING → stopping st = false → awaited (slot_at st i) = true) →
    state (slot_at st' i) = PAGE_LOADING → stopping st' = false → awaited (slot_at st' i) = true) as Hw.
  { intros a i Ep [Hva (He & _)] Hst Hl Hs. assert (i ∈ pc_slots p ++ views_slots vs) as Hin by (rewrite Ep; left). destruct (Ha i Hva Hin Hl Hs) as [Hs0 Haw].
    apply Haw, Hst; [|done]. by apply (proj2 Hk i Hin Hva He). }
  destruct Hok as [Hpo _]. destruct p; cbn [awake sleep_ok pc_ok pc_slots] in *; try done; (eapply Hw; [done|by apply Hpo|]).
  - by intros _ _; apply Hsl.
  - done.
Qed.

(** One that sleeps on, because nothing changed for it. *)
Lemma content_asleep st st' r : content st r → keeps st st' (reader_slots r) → set_count st' = set_count st → Forall (λ x, last_access x < UINT64_MAX) (slots st) → shape st →
  (∀ i, valid st i → i ∈ reader_slots r → state (slot_at st' i) = PAGE_LOADING → stopping st' = false →
     stopping st = false ∧ (awaited (slot_at st i) = true → awaited (slot_at st' i) = true)) →
  (∀ i, valid st i → i ∈ reader_slots r → state (slot_at st i) = PAGE_LOADING → awaited (slot_at st i) = true → stopping st = false → state (slot_at st' i) = PAGE_LOADING ∧ stopping st' = false) →
  (waits (pc r) ≠ 0 → stay_busy st st') → content st' r.
Proof.
  intros Hc Hk Hset Hclk Hsh Ha Hl Hb. pose proof (content_awake st st' r Hc Hk Ha) as [Hok' Hsl']. destruct Hc as [Hok Hsl].
  pose proof (reader_ok_kept _ _ _ Hk Hok) as Hr. split; [done|].
  destruct r as [p vs]. cbn [pc awaken awake waits] in *. destruct p as [|a|a|a|a i|a i|a i|v|l|l|l]; try done; cbn [sleep_ok] in *.
  - intros j Hj _. assert (in_set st (q_file a) (q_page a) j) as Hj' by (by apply (in_set_same st st')). assert (valid st j) as Hv.
    { pose proof (first_way_bounds st (q_file a) (q_page a) Hsh). unfold in_set, valid in *. lia. }
    apply Hb; [done|done|]. apply Hsl; [done|]. by apply clock_at.
  - destruct Hsl as (H1 & H2 & H3). destruct Hok as [[_ [Hv _]] _]. destruct (Hl i Hv) as [H4 H5]; try done; [left|]. split_and!; try done.
    by apply Hsl'.
Qed.

Lemma all_slots_two rs k j r x i : rs !! k = Some r → rs !! j = Some x → k ≠ j → count (reader_slots r) i + count (reader_slots x) i <= count (all_slots rs) i.
Proof.
  intros Hk Hj Hne. pose proof (all_slots_insert rs k r (Reader Idle []) i Hk) as H. change (count (reader_slots (Reader Idle [])) i) with 0 in H.
  pose proof (all_slots_has (<[k := Reader Idle []]> rs) j x i ltac:(by rewrite list_lookup_insert_ne)). lia.
Qed.

Definition wake_all (w : wake) (rs : list reader) : list reader := match w with WakeReaders => map awaken rs | _ => rs end.

Lemma woken_spec w ws rs ws' rs' : woken w ws rs ws' rs' →
  inflight ws' ≡ₚ inflight ws ∧ (∀ x, x ∈ ws' → x ∈ ws ∨ x = Starting) ∧ (∀ x, x ∈ ws → working x → x ∈ ws') ∧
  (w = WakeWorker → (Exited ∉ ws) → ws' ≠ [] → ∃ x, x ∈ ws' ∧ working x) ∧ rs' = wake_all w rs.
Proof.
  destruct 1 as [ws rs|ws rs Hs|ws rs k Hk|ws rs]; (split; [|split; [|split; [|split]]]); try done; try (by left).
  - intros _ He Hne. destruct ws as [|x ws]; [done|]. exists x. split; [by left|]. destruct x; try done; [destruct Hs|destruct He]; by left.
  - rewrite <- (app_nil_l (inflight ws)). rewrite <- (app_nil_l (inflight (<[_ := _]> ws))). exact (inflight_insert ws k Sleeping Starting Hk).
  - intros x (j & Hj)%list_elem_of_lookup. destruct (decide (j = k)) as [->|Hne].
    + rewrite list_lookup_insert_eq in Hj by (by eapply lookup_lt_Some). injection Hj as <-. by right.
    + rewrite list_lookup_insert_ne in Hj by done. left. by eapply list_elem_of_lookup_2.
  - intros x (j & Hj)%list_elem_of_lookup Hw. eapply (list_elem_of_lookup_2 _ j). rewrite list_lookup_insert_ne; [done|]. intros ->. rewrite Hk in Hj. by injection Hj as <-.
  - intros _ _ _. exists Starting. split; [|done]. eapply (list_elem_of_lookup_2 _ k). by rewrite list_lookup_insert_eq by (by eapply lookup_lt_Some).
Qed.

(** A worker whose page is still there. *)
Lemma worker_ok_same st st' w : (∀ it, it ∈ worker_items w → let i := item_slot it in
    file_index (slot_at st' i) = file_index (slot_at st i) ∧ page_offset (slot_at st' i) = page_offset (slot_at st i) ∧ data (slot_at st' i) = data (slot_at st i)) →
  worker_ok st w → worker_ok st' w.
Proof. intros H Hw. destruct w as [| |it f o|it saved|]; try done; destruct (H it ltac:(by left)) as (E1 & E2 & E3); cbn in *; by rewrite E1, E2, ?E3. Qed.

Lemma worker_item st ws refs w it : coherent st (inflight ws) refs → w ∈ ws → it ∈ worker_items w → item_ok st it.
Proof.
  intros C Hw Hit. pose proof (co_items _ _ _ C) as Hall. rewrite Forall_forall in Hall. apply Hall, elem_of_app. right.
  unfold inflight. apply list_elem_of_In, in_concat. exists (worker_items w). split; [by apply in_map, list_elem_of_In|by apply list_elem_of_In].
Qed.

Lemma workers_calm st st' ws refs : coherent st (inflight ws) refs → calm st st' → Forall (worker_ok st) ws → Forall (worker_ok st') ws.
Proof.
  intros C M Hw. rewrite Forall_forall in *. intros w Hin. apply (worker_ok_same st); [|by apply Hw]. intros it Hit.
  destruct (worker_item st ws refs w it C Hin Hit) as (Hv & Hs & _). by destruct (cm_loading _ _ M _ Hv Hs) as (_ & _ & F).
Qed.

Lemma waits_nonneg p : 0 <= waits p.
Proof. by destruct p. Qed.

(** A reader that refers to slots nobody takes away. *)
Lemma passed_by c x st' w k r n after : good c → section_ok (store c) (inflight (workers c)) (refs_of (readers c)) (reader_slots r) after n st' w →
  readers c !! k = Some r → (∃ j, j ≠ k ∧ readers c !! j = Some x) → (set_waiters st' = 0 → waits (pc x) = 0) →
  content st' (match w with WakeReaders => awaken x | _ => x end).
Proof.
  intros G S Hk (j & Hj & Hx) H0. set (st := store c) in *. pose proof (gd_coherent _ G) as C. fold st in C.
  assert (content st x) as Hc by (pose proof (gd_readers _ G) as Hf; rewrite Forall_lookup in Hf; by apply (Hf j)).
  assert (∀ i, i ∈ reader_slots x → 0 < refs_of (readers c) i - count (reader_slots r) i) as Hpos.
  { intros i Hi. pose proof (all_slots_two _ k j r x i Hk Hx ltac:(done)). pose proof (count_in _ _ Hi). unfold refs_of. lia. }
  assert (keeps st st' (reader_slots x)) as K.
  { split; [apply S|]. intros i Hi Hv. apply (se_kept _ _ _ _ _ _ _ _ S); [done|by apply Hpos]. }
  assert (∀ i, valid st i → i ∈ reader_slots x → state (slot_at st' i) = PAGE_LOADING → stopping st' = false →
     stopping st = false ∧ (awaited (slot_at st i) = true → awaited (slot_at st' i) = true)) as Ha.
  { intros i Hv Hi Hl Hs. rewrite (section_stop _ _ _ _ _ _ _ _ S) in Hs. split; [done|]. apply (cm_loading _ _ (se_calm _ _ _ _ _ _ _ _ S)); [done| |done].
    assert (state (slot_at st i) ≠ PAGE_EMPTY) as He.
    { intros He. pose proof (co_empty _ _ _ C i Hv He). pose proof (Hpos i Hi). pose proof (count_nonneg (reader_slots r) i). lia. }
    by apply (proj2 K i Hi Hv He). }
  assert (w ≠ WakeReaders → content st' x) as Hasl.
  { intros Hw. eapply content_asleep; [exact Hc|done|apply S|apply G|apply C|done| |].
    - intros i Hv _ Hs _ Hst. split; [by apply (cm_loading _ _ (se_calm _ _ _ _ _ _ _ _ S))|]. by rewrite (section_stop _ _ _ _ _ _ _ _ S).
    - intros Hx0. destruct (se_wake _ _ _ _ _ _ _ _ S) as [?|[?|?]]; [done| |done]. by destruct Hx0, H0. }
  destruct w; [by apply Hasl..|]. by eapply content_awake.
Qed.

Lemma content_woken st r : content st r → content st (awaken r).
Proof. intros [Hok Hsl]. split; [by destruct r as [[]]|]. destruct r as [[]]; cbn in *; try done. by intros _ _; apply Hsl. Qed.

Definition clock_ok (st : ds4_ple_store) : Prop := Forall (λ x, last_access x < UINT64_MAX) (slots st).

Lemma reader_section c k r st' r' w ws rs : good c → readers c !! k = Some r →
  section_ok (store c) (inflight (workers c)) (refs_of (readers c)) (reader_slots r) (reader_slots r') (waits (pc r') - waits (pc r)) st' w →
  reader_ok st' r' → sleep_ok st' (pc r') → woken w (workers c) (<[k := r']> (readers c)) ws rs → clock_ok st' → good (Config st' ws rs).
Proof.
  intros G Hk S Hok Hsl Hw Hclk. destruct (woken_spec _ _ _ _ _ Hw) as (Hi & Hfrom & Hto & Hwk & ->). pose proof (gd_coherent _ G) as C.
  assert (sum_waits (<[k := r']> (readers c)) = set_waiters st') as Hsum.
  { rewrite (sum_waits_insert _ _ _ _ Hk), (se_waiters _ _ _ _ _ _ _ _ S), (gd_waiters _ G). lia. }
  pose proof (section_stop _ _ _ _ _ _ _ _ S) as Hst. constructor; cbn [store workers readers].
  - eapply coherent_perm; [symmetry; exact Hi|]. eapply coherent_ext; [|apply S]. intros i. cbn. unfold refs_of.
    assert (all_slots (wake_all w (<[k := r']> (readers c))) = all_slots (<[k := r']> (readers c))) as -> by (destruct w; [done..|apply all_slots_awaken]).
    by rewrite (all_slots_insert _ _ _ _ i Hk).
  - pose proof (workers_calm _ st' _ _ C (se_calm _ _ _ _ _ _ _ _ S) (gd_workers _ G)) as Hf. rewrite Forall_forall in *.
    intros x [Hx| ->]%Hfrom; [by apply Hf|done].
  - assert (∀ x, x ∈ <[k := r']> (readers c) → content st' (match w with WakeReaders => awaken x | _ => x end)) as Hall.
    { intros x (j & Hj)%list_elem_of_lookup. destruct (decide (j = k)) as [->|Hne].
      - rewrite list_lookup_insert_eq in Hj by (by eapply lookup_lt_Some). injection Hj as <-. destruct w; try done. by apply content_woken.
      - assert (x ∈ <[k := r']> (readers c)) as Hin by (by eapply list_elem_of_lookup_2). rewrite list_lookup_insert_ne in Hj by done. eapply passed_by; [done|exact S|done|by exists j|].
        intros H0. pose proof (sum_waits_has _ _ Hin). pose proof (waits_nonneg (pc x)). lia. }
    rewrite Forall_forall. destruct w; cbn [wake_all]; [by apply Hall..|]. intros x (y & -> & Hy)%list_elem_of_fmap. by apply Hall.
  - rewrite <- Hsum. destruct w; cbn [wake_all]; by rewrite ?sum_waits_awaken.
  - intros [He|?]%Hfrom; [|done]. rewrite Hst. by apply G.
  - intros Hs Hq Hne. rewrite Hst in Hs. destruct (Z.eqb_spec (queue_count st') (queue_count (store c))) as [E|E].
    + destruct (gd_awake _ G) as (x & Hx & Hxw); [done|lia| |exists x; by auto]. intros Hnil. destruct ws as [|y ws]; [done|].
      inversion Hw; subst; rewrite Hnil in *; done.
    + destruct (se_queue _ _ _ _ _ _ _ _ S) as [H1 H2]. apply Hwk; [apply H2; lia| |done]. intros He. apply (gd_exited _ G) in He. by rewrite He in Hs.
  - done.
Qed.

Lemma step_reader_good c k r st r' a ws rs : good c → readers c !! k = Some r → reader_step s (store c) r = Some (st, r', a) →
  woken a (workers c) (<[k := r']> (readers c)) ws rs → clock_ok st → good (Config st ws rs).
Proof using Hm.
  intros G Hk H Hw Hclk. pose proof (gd_readers _ G) as Hf. rewrite Forall_lookup in Hf. destruct (Hf k r Hk) as [Hok Hsl].
  destruct (reader_step_ok (store c) (inflight (workers c)) (refs_of (readers c)) r st r' a) as (S & Hok' & Hsl'); try done; [apply G|intros i; by apply (all_slots_has _ k)|].
  by eapply reader_section.
Qed.

Lemma step_call_good c k r st r' : good c → readers c !! k = Some r → pc r = Idle → call s (store c) r st r' → clock_ok st →
  good (Config st (workers c) (<[k := r']> (readers c))).
Proof using Hm.
  intros G Hk Hp H Hclk. pose proof (gd_readers _ G) as Hf. rewrite Forall_lookup in Hf. destruct (Hf k r Hk) as [Hok Hsl].
  destruct (call_ok (store c) (inflight (workers c)) (refs_of (readers c)) r st r') as (S & Hok' & Hsl' & Hwt & _); try done; [apply G|intros i; by apply (all_slots_has _ k)|].
  eapply (reader_section c k r st r' WakeNobody); [done|done| |done|done|constructor|done]. by rewrite Hwt, Hp.
Qed.

(** *** Workers among the others *)

Lemma readers_woken c st' : good c → set_count st' = set_count (store c) → cache_slots st' = cache_slots (store c) →
  (stopping st' = false → stopping (store c) = false) →
  (∀ i, valid (store c) i → kept (slot_at (store c) i) (slot_at st' i)) →
  (∀ i, valid (store c) i → state (slot_at st' i) = PAGE_LOADING → awaited (slot_at (store c) i) = true → awaited (slot_at st' i) = true) →
  Forall (content st') (map awaken (readers c)).
Proof.
  intros G _ Hn Hst K Ha. pose proof (gd_readers _ G) as Hf. rewrite Forall_forall in *. intros x (y & -> & Hy)%list_elem_of_fmap.
  eapply content_awake; [by apply Hf|split; [done|by intros; apply K]|]. intros i Hv _ Hl Hs. split; [by apply Hst|by apply Ha].
Qed.

Lemma readers_quiet c st' : good c → set_count st' = set_count (store c) → cache_slots st' = cache_slots (store c) → stopping st' = stopping (store c) →
  (∀ i, valid (store c) i → kept (slot_at (store c) i) (slot_at st' i)) →
  (∀ i, valid (store c) i → state (slot_at st' i) = PAGE_LOADING → awaited (slot_at (store c) i) = true → awaited (slot_at st' i) = true) →
  (∀ i, valid (store c) i → state (slot_at (store c) i) = PAGE_LOADING → awaited (slot_at (store c) i) = true → state (slot_at st' i) = PAGE_LOADING) →
  (set_waiters (store c) ≠ 0 → stay_busy (store c) st') → Forall (content st') (readers c).
Proof.
  intros G Hset Hn Hst K Ha Hl Hb. pose proof (gd_readers _ G) as Hf. rewrite Forall_forall in *. intros x Hx.
  eapply content_asleep; [by apply Hf|split; [done|by intros; apply K]|done|apply G|apply G| | |].
  - intros i Hv _ Hl' Hs. split; [by rewrite <- Hst|by apply Ha].
  - intros i Hv _ Hs Haw Hs0. split; [by apply Hl|by rewrite Hst].
  - intros Hx0. apply Hb. rewrite (gd_waiters _ G). pose proof (sum_waits_has _ _ Hx). pose proof (waits_nonneg (pc x)). lia.
Qed.

Lemma inflight_split ws k w : ws !! k = Some w → inflight ws ≡ₚ worker_items w ++ inflight (<[k := Starting]> ws).
Proof. intros H. symmetry. exact (inflight_insert ws k w Starting H). Qed.

Lemma inflight_other ws k j w x it : ws !! k = Some w → ws !! j = Some x → j ≠ k → it ∈ worker_items x → it ∈ inflight (<[k := Starting]> ws).
Proof.
  intros Hk Hj Hne Hit. unfold inflight. apply list_elem_of_In, in_concat. exists (worker_items x). split; [|by apply list_elem_of_In].
  apply in_map, list_elem_of_In. apply (list_elem_of_lookup_2 _ j). by rewrite list_lookup_insert_ne.
Qed.

(** What the other workers read is in other slots. *)
Lemma other_slots st ws refs k j w x it it' : coherent st (inflight ws) refs → ws !! k = Some w → worker_items w = [it] →
  ws !! j = Some x → j ≠ k → it' ∈ worker_items x → valid st (item_slot it') ∧ item_slot it' ≠ item_slot it.
Proof.
  intros C Hk Ew Hj Hne Hit. pose proof (worker_item st ws refs x it' C ltac:(by eapply list_elem_of_lookup_2) Hit) as (Hv & _). split; [done|].
  pose proof (inflight_other _ _ _ _ _ _ Hk Hj Hne Hit) as Hin. pose proof (co_distinct _ _ _ C) as Hnd.
  rewrite (inflight_split ws k w Hk), Ew in Hnd. cbn [app] in Hnd. rewrite map_app in Hnd. apply NoDup_app in Hnd as (_ & _ & Hnd). cbn in Hnd.
  apply NoDup_cons in Hnd as [Hni _]. intros E. apply Hni. rewrite <- E. apply list_elem_of_fmap. by exists it'.
Qed.

Lemma others_after st st' ws refs k w w' it : coherent st (inflight ws) refs → ws !! k = Some w → worker_items w = [it] → Forall (worker_ok st) ws →
  (∀ i, valid st i → i ≠ item_slot it → slot_at st' i = slot_at st i) → worker_ok st' w' → Forall (worker_ok st') (<[k := w']> ws).
Proof.
  intros C Hk Ew Hf Hat Hw'. rewrite Forall_lookup in *. intros j x Hj. destruct (decide (j = k)) as [->|Hne].
  - rewrite list_lookup_insert_eq in Hj by (by eapply lookup_lt_Some). by injection Hj as <-.
  - rewrite list_lookup_insert_ne in Hj by done. apply (worker_ok_same st); [|by apply (Hf j)]. intros it' Hit'.
    destruct (other_slots st ws refs k j w x it it' C Hk Ew Hj Hne Hit') as [Hv Hd]. cbv zeta. by rewrite Hat.
Qed.

Lemma item_of_worker st ws refs k w it : coherent st (inflight ws) refs → ws !! k = Some w → worker_items w = [it] → item_ok st it.
Proof. intros C Hk Ew. eapply worker_item; [exact C|by eapply list_elem_of_lookup_2|]. rewrite Ew. by left. Qed.

(** Writing bytes to a page that loads. *)
Lemma data_good c k w w' it bytes : good c → workers c !! k = Some w → worker_items w = [it] → worker_items w' = [it] → working w' →
  worker_ok (on_slot (item_slot it) (λ x, with_data x bytes) (store c)) w' →
  good (Config (on_slot (item_slot it) (λ x, with_data x bytes) (store c)) (<[k := w']> (workers c)) (readers c)).
Proof.
  intros G Hk Ew Ew' Hww Hw'. pose proof (gd_coherent _ G) as C. pose proof (item_of_worker _ _ _ k w it C Hk Ew) as (Hv & Hs & _).
  set (st' := on_slot _ _ _) in *. assert (∀ j, valid (store c) j → slot_at st' j = if bool_decide (j = item_slot it) then with_data (slot_at (store c) (item_slot it)) bytes else slot_at (store c) j) as Hat
    by (intros j [Hj _]; by apply slot_at_on).
  assert (∀ i, valid (store c) i → kept (slot_at (store c) i) (slot_at st' i)) as K.
  { intros i Hi. rewrite Hat by done. case_bool_decide; [subst i|apply kept_refl]. unfold kept. cbn. by rewrite Hs. }
  constructor; cbn [store workers readers].
  - eapply coherent_perm; [|by apply data_coherent]. pose proof (inflight_insert _ k _ w' Hk) as Hp. rewrite Ew, Ew' in Hp. symmetry. by apply (Permutation_app_inv_l [it]).
  - eapply others_after; [exact C|exact Hk|done|apply G| |done]. intros i Hi Hne. by rewrite Hat, bool_decide_eq_false_2.
  - apply readers_quiet; try done; [apply cache_slots_on|intros i Hi; rewrite Hat by done; by case_bool_decide; subst..|].
    intros _ i Hi. rewrite Hat by done. by case_bool_decide; subst.
  - exact (gd_waiters _ G).
  - intros He. apply (gd_exited _ G). apply list_elem_of_lookup in He as (j & Hj). destruct (decide (j = k)) as [->|Hne].
    + rewrite list_lookup_insert_eq in Hj by (by eapply lookup_lt_Some). injection Hj as ->. done.
    + rewrite list_lookup_insert_ne in Hj by done. by eapply list_elem_of_lookup_2.
  - intros _ _ _. exists w'. split; [|done]. apply (list_elem_of_lookup_2 _ k). by rewrite list_lookup_insert_eq by (by eapply lookup_lt_Some).
  - pose proof (gd_clock _ G) as Hc. unfold st', on_slot. cbn [slots with_slots]. rewrite Forall_lookup in *. intros j x Hj.
    destruct (decide (j = Z.to_nat (item_slot it))) as [->|Hne]; [|rewrite list_lookup_alter_ne in Hj by done; by eapply Hc].
    rewrite list_lookup_alter_eq in Hj. destruct (slots (store c) !! _) as [y|] eqn:Ey; [|done]. injection Hj as <-. by apply (Hc _ y Ey).
Qed.

Lemma in_insert {A} (l : list A) k x y : y ∈ <[k := x]> l → y = x ∨ y ∈ l.
Proof.
  intros (j & Hj)%list_elem_of_lookup. destruct (decide (j = k)) as [->|Hne].
  - rewrite list_lookup_insert_eq in Hj; [injection Hj as <-; by left|]. rewrite <- (length_insert l k x). by eapply lookup_lt_Some.
  - rewrite list_lookup_insert_ne in Hj by done. right. by eapply list_elem_of_lookup_2.
Qed.
Lemma in_inserted {A} (l : list A) k x y : l !! k = Some y → x ∈ <[k := x]> l.
Proof. intros H. apply (list_elem_of_lookup_2 _ k). by rewrite list_lookup_insert_eq by (by eapply lookup_lt_Some). Qed.
Lemma insert_not_nil {A} (l : list A) k x : <[k := x]> l ≠ [] → l ≠ [].
Proof. by intros H ->. Qed.

(** A worker that moves and touches nothing. *)
Lemma worker_moves c k w w' : good c → workers c !! k = Some w → worker_items w = [] → worker_items w' = [] →
  (w' = Exited → stopping (store c) = true) → (stopping (store c) = false → queue_count (store c) ≠ 0 → working w') →
  good (Config (store c) (<[k := w']> (workers c)) (readers c)).
Proof.
  intros G Hk E E' Hex Hwk. pose proof (inflight_insert _ k _ w' Hk) as Hp. rewrite E, E' in Hp. cbn in Hp. constructor; cbn [store workers readers].
  - eapply coherent_perm; [symmetry; exact Hp|apply G].
  - pose proof (gd_workers _ G) as Hf. rewrite Forall_forall in *. intros x [->|Hx]%in_insert; [by destruct w'|by apply Hf].
  - apply (gd_readers _ G).
  - apply (gd_waiters _ G).
  - intros [<-|Hx]%in_insert; [by apply Hex|by apply (gd_exited _ G)].
  - intros Hs Hq _. exists w'. split; [by eapply in_inserted|by apply Hwk].
  - apply (gd_clock _ G).
Qed.

Lemma take_good c k : good c → workers c !! k = Some Starting → stopping (store c) = false → queue_count (store c) ≠ 0 →
  let (it, st) := take_item (store c) in let x := slot_at st (item_slot it) in
  good (Config st (<[k := Reading it (file_index x) (page_offset x)]> (workers c)) (readers c)).
Proof.
  intros G Hk Hs Hq. destruct (take_coherent _ _ _ (gd_coherent _ G) Hq) as [C _]. set (it := (take_item (store c)).1) in *. set (st := (take_item (store c)).2) in *.
  change (take_item (store c)) with (it, st). cbv beta iota zeta. set (x := slot_at st (item_slot it)).
  pose proof (inflight_insert _ k _ (Reading it (file_index x) (page_offset x)) Hk) as Hp. cbn [worker_items app] in Hp.
  assert (∀ j, slot_at st j = slot_at (store c) j) as Hat by done. constructor; cbn [store workers readers].
  - eapply coherent_perm; [|exact C]. symmetry. exact Hp.
  - pose proof (gd_workers _ G) as Hf. rewrite Forall_forall in *. intros y [->|Hy]%in_insert; [done|]. by apply (worker_ok_same (store c)), Hf.
  - apply readers_quiet; try done; intros; first [intros j Hj; by rewrite Hat|rewrite Hat; apply kept_refl || done].
  - exact (gd_waiters _ G).
  - intros [?|Hx]%in_insert; [done|]. by apply (gd_exited _ G) in Hx; rewrite Hs in Hx.
  - intros _ _ _. eexists. split; [by eapply in_inserted|done].
  - apply (gd_clock _ G).
Qed.

Lemma settled_kept saved x : state x = PAGE_LOADING → kept x (settled saved x).
Proof. intros Hs. unfold kept, settled. rewrite Hs. by destruct (saved =? 0). Qed.

Lemma done_good c k it saved ws rs : good c → workers c !! k = Some (HasRead it saved) →
  let st := worker_done (store c) it saved in
  woken (if awaited (slot_at st (item_slot it)) || negb (set_waiters st =? 0) then WakeReaders else WakeNobody) (<[k := Starting]> (workers c)) (readers c) ws rs →
  good (Config st ws rs).
Proof.
  intros G Hk. cbv zeta. pose proof (gd_coherent _ G) as C. pose proof (item_of_worker _ _ _ k _ it C Hk eq_refl) as (Hv & Hs & _).
  assert (coherent (store c) (it :: inflight (<[k := Starting]> (workers c))) (refs_of (readers c))) as C1.
  { eapply coherent_perm; [|exact C]. exact (inflight_split _ k _ Hk). }
  destruct (done_coherent (store c) (inflight (<[k := Starting]> (workers c))) (refs_of (readers c)) it saved C1) as [C2 Hat].
  { pose proof (gd_workers _ G) as Hf. rewrite Forall_lookup in Hf. exact (Hf k _ Hk). }
  set (st := worker_done (store c) it saved) in *. set (i := item_slot it) in *.
  assert (st = on_slot i (settled saved) (with_stats (store c) (count_read saved))) as Est by exact (worker_done_slot _ _ _ it saved C1).
  assert (set_count st = set_count (store c) ∧ cache_slots st = cache_slots (store c) ∧ stopping st = stopping (store c) ∧ set_waiters st = set_waiters (store c) ∧ clock_ok st) as (E1 & E2 & E3 & E4 & Hcl).
  { rewrite Est. split; [done|]. split; [exact (cache_slots_on (with_stats (store c) (count_read saved)) i _)|]. split; [done|]. split; [done|].
    pose proof (gd_clock _ G) as Hc. unfold clock_ok, on_slot. cbn [slots with_slots with_stats]. rewrite Forall_lookup in *. intros j x Hj.
    destruct (decide (j = Z.to_nat i)) as [->|Hne]; [|rewrite list_lookup_alter_ne in Hj by done; by eapply Hc].
    rewrite list_lookup_alter_eq in Hj. destruct (slots (store c) !! _) as [y|] eqn:Ey; [|done]. injection Hj as <-. pose proof (Hc _ y Ey). unfold settled. by case_match. }
  assert (∀ j, valid (store c) j → kept (slot_at (store c) j) (slot_at st j)) as K.
  { intros j Hj. rewrite Hat by done. case_bool_decide; [subst j; by apply settled_kept|apply kept_refl]. }
  assert (∀ j, valid (store c) j → state (slot_at st j) = PAGE_LOADING → awaited (slot_at (store c) j) = true → awaited (slot_at st j) = true) as Ha.
  { intros j Hj. rewrite Hat by done. case_bool_decide; [|done]. unfold settled. by case_match. }
  assert (awaited (slot_at st i) = awaited (slot_at (store c) i)) as Haw by (rewrite Hat, bool_decide_eq_true_2 by done; unfold settled; by case_match).
  intros Hw. set (a := if _ : bool then WakeReaders else WakeNobody) in Hw. assert (ws = <[k := Starting]> (workers c) ∧ rs = wake_all a (readers c)) as [-> ->].
  { unfold a in *. by destruct (_ || _); inversion Hw. }
  constructor; cbn [store workers readers].
  - eapply coherent_ext; [|exact C2]. intros j. unfold refs_of. destruct a; cbn [wake_all]; by rewrite ?all_slots_awaken.
  - eapply (others_after (store c)); [exact C|exact Hk|done|apply G| |done]. intros j Hj Hne. by rewrite Hat, bool_decide_eq_false_2.
  - unfold a. rewrite Haw, E4. destruct (awaited (slot_at (store c) i) || negb (set_waiters (store c) =? 0)) eqn:Ea; cbn [wake_all].
    + apply readers_woken; try done. by rewrite E3.
    + apply orb_false_iff in Ea as [Ea Eb%negb_false_iff%Z.eqb_eq]. apply readers_quiet; try done. intros j Hj Hl Hawt. rewrite Hat by done.
      case_bool_decide; [subst j; by rewrite Ea in Hawt|done].
  - rewrite E4, (gd_waiters _ G). destruct a; cbn [wake_all]; by rewrite ?sum_waits_awaken.
  - intros [?|Hx]%in_insert; [done|]. rewrite E3. by apply (gd_exited _ G).
  - intros _ _ _. exists Starting. split; [by eapply in_inserted|done].
  - done.
Qed.

Lemma work_good c c' : good c → work files c c' → good c'.
Proof.
  intros G H. destruct H as [c k w st w' a ws rs Hk Hs Hw|c k it f o saved bytes Hk Hb].
  - destruct w as [| |it f o|it saved|]; try done; cbn [worker_step] in Hs.
    + destruct (stopping (store c)) eqn:Est; [|destruct (Z.eqb_spec (queue_count (store c)) 0) as [Eq|Eq]].
      * injection Hs as <- <- <-. inversion Hw; subst. eapply worker_moves; [done|exact Hk|done|done|done|]. by rewrite Est.
      * injection Hs as <- <- <-. inversion Hw; subst. by eapply worker_moves; [done|exact Hk|..].
      * pose proof (take_good c k G Hk Est Eq) as Hg. destruct (take_item (store c)) as [it s0]. injection Hs as <- <- <-. by inversion Hw; subst.
    + injection Hs as <- <- <-. by eapply done_good.
  - apply (data_good c k (Reading it f o)); try done. intros Hz. pose proof (gd_workers _ G) as Hf. rewrite Forall_lookup in Hf. destruct (Hf k _ Hk) as [E1 E2].
    pose proof (item_of_worker _ _ _ k _ it (gd_coherent _ G) Hk eq_refl) as (Hv & _ & _). rewrite slot_at_on by (done || apply Hv). rewrite bool_decide_eq_true_2 by done. cbn.
    rewrite E1, E2. by apply Hb.
Qed.

(** *** Every step *)

Lemma step_good c c' : good c → step s files c c' → clock_ok (store c') → good c'.
Proof using Hm.
  intros G H Hclk. destruct H as [c c' H|c k r st r' a ws rs Hk H Hw|c k r st r' Hk Hp H|c k it f o bytes Hk|c k r Hk|c k Hk|c]; cbn [store] in Hclk.
  - by eapply work_good.
  - by eapply step_reader_good.
  - by eapply step_call_good.
  - pose proof (data_good c k (Reading it f o) (Reading it f o) it bytes G Hk eq_refl eq_refl I) as Hg.
    rewrite (list_insert_id _ _ _ Hk) in Hg. apply Hg. pose proof (gd_workers _ G) as Hf. rewrite Forall_lookup in Hf. destruct (Hf k _ Hk) as [E1 E2].
    pose proof (item_of_worker _ _ _ k _ it (gd_coherent _ G) Hk eq_refl) as (Hv & _ & _). unfold worker_ok. rewrite slot_at_on by (done || apply Hv).
    by rewrite bool_decide_eq_true_2.
  - pose proof (gd_readers _ G) as Hf. rewrite Forall_lookup in Hf. pose proof (Hf k r Hk) as Hc. eapply (reader_section c k r (store c) (awaken r) WakeNobody); try done.
    + assert (waits (pc (awaken r)) - waits (pc r) = 0) as -> by (destruct r as [[]]; done).
      apply moved_section; [apply G|]. intros i. by destruct r as [[]].
    + apply (content_woken _ _ Hc).
    + apply (content_woken _ _ Hc).
    + constructor.
  - by eapply (worker_moves c k Sleeping Starting).
  - pose proof (gd_coherent _ G) as C. set (ws := map _ (workers c)). assert (inflight ws = inflight (workers c)) as Ei.
    { unfold inflight, ws. rewrite map_map. f_equal. apply map_ext. by intros []. }
    constructor; cbn [store workers readers].
    + rewrite Ei. eapply coherent_ext; [|apply (coherent_same (store c)); [exact C|by constructor|done]]. intros i. unfold refs_of. by rewrite all_slots_awaken.
    + pose proof (gd_workers _ G) as Hf. rewrite Forall_forall in *. intros w (x & -> & Hx)%list_elem_of_fmap. pose proof (Hf x Hx) as Ho. by destruct x.
    + by apply readers_woken.
    + rewrite sum_waits_awaken. apply (gd_waiters _ G).
    + done.
    + done.
    + done.
Qed.

Lemma start_slot n fill i : 0 <= i < n → slot_at (store_start n fill) i = Slot 0 0 0 0 0 0 PAGE_EMPTY false fill.
Proof. intros Hi. unfold slot_at. apply znth_lookup. cbn. apply lookup_replicate. split; [done|lia]. Qed.

Lemma start_good n fill nw nr : DS4_PLE_CACHE_WAYS <= n → n mod DS4_PLE_CACHE_WAYS = 0 →
  good (Config (store_start n fill) (replicate nw Starting) (replicate nr (Reader Idle []))).
Proof.
  unfold DS4_PLE_CACHE_WAYS. intros Hn Hmod. assert (cache_slots (store_start n fill) = n) as En by (unfold cache_slots, blen; cbn; rewrite length_replicate; lia).
  assert (ring (store_start n fill) = []) as Er by done. assert (inflight (replicate nw Starting) = []) as Ei by (unfold inflight; induction nw; [done|]; cbn; done).
  assert (all_slots (replicate nr (Reader Idle [])) = []) as Ea by (unfold all_slots; induction nr; [done|]; cbn; done).
  assert (∀ i, valid (store_start n fill) i → state (slot_at (store_start n fill) i) = PAGE_EMPTY) as He by (intros i Hi; unfold valid in Hi; by rewrite start_slot by lia).
  constructor; cbn [store workers readers].
  - rewrite Ei. unfold refs_of. rewrite Ea. constructor; rewrite ?Er; try done.
    + pose proof (Z.div_mod n 16 ltac:(lia)) as Hd. rewrite Hmod, Z.add_0_r in Hd. constructor; rewrite ?En; try done; [|unfold blen; cbn; rewrite length_replicate|..]; cbn; unfold DS4_PLE_CACHE_WAYS; lia.
    + apply NoDup_nil_2.
    + intros i Hi. by rewrite He.
    + intros i Hi. by rewrite He.
    + intros i Hi. unfold valid in Hi. by rewrite start_slot by lia.
    + intros i Hi. by rewrite He.
    + intros i j Hi _ [Hl _]. by rewrite He in Hl.
  - apply Forall_replicate. done.
  - apply Forall_replicate. split; [|done]. split; [done|by apply Forall_nil].
  - cbn. unfold sum_waits. induction nr; [done|]. cbn. cbn in Ea. auto.
  - intros Hx%elem_of_replicate. by destruct Hx.
  - done.
  - by apply Forall_replicate.
Qed.

Lemma reachable_good c : reachable s files c → good c.
Proof using Hm. induction 1 as [|c c' H IH Hs Hc]; [by apply start_good|by eapply step_good]. Qed.

End coherence.

(** ** What a view shows *)

Lemma page_of_spec o : fits 64 o → page_of o = o - o mod DS4_PLE_PAGE_BYTES.
Proof.
  unfold fits. intros Ho. unfold page_of, DS4_PLE_PAGE_BYTES. replace (UINT64_MAX - (4096 - 1)) with (Z.shiftl (Z.ones 52) 12) by done.
  apply Z.bits_inj_iff'. intros n Hn. replace (o - o mod 4096) with (Z.shiftl (Z.shiftr o 12) 12) by (rewrite Z.shiftr_div_pow2, Z.shiftl_mul_pow2 by lia; change (2 ^ 12) with 4096; pose proof (Z.div_mod o 4096 ltac:(lia)); lia).
  rewrite Z.land_spec, !Z.shiftl_spec by lia. destruct (Z.ltb_spec n 12); [rewrite !(Z.testbit_neg_r _ (n - 12)) by lia; apply andb_false_r|].
  rewrite Z.shiftr_spec by lia. replace (n - 12 + 12) with n by lia. destruct (Z.ltb_spec (n - 12) 52).
  - rewrite Z.ones_spec_low by lia. apply andb_true_r.
  - rewrite Z.ones_spec_high by lia. rewrite andb_false_r. symmetry. destruct (Z.eq_dec o 0) as [->|]; [apply Z.bits_0|]. apply Z.bits_above_log2; [lia|].
    apply Z.log2_lt_pow2; [lia|]. eapply Z.lt_le_trans; [apply Ho|]. apply Z.pow_le_mono_r; lia.
Qed.

Lemma within_page_spec o : fits 64 o → within_page o = o mod DS4_PLE_PAGE_BYTES.
Proof.
  intros Ho. unfold within_page. rewrite page_of_spec by done. replace (o - (o - o mod DS4_PLE_PAGE_BYTES)) with (o mod DS4_PLE_PAGE_BYTES) by lia.
  unfold DS4_PLE_PAGE_BYTES. unfold u32. apply Z.mod_small. pose proof (Z.mod_pos_bound o 4096 ltac:(lia)). lia.
Qed.

(** The two parts of a row put together. *)
Lemma piece_in_page {A} (l : list A) o a n : 0 <= o → 0 <= a → 0 <= n → a + n <= DS4_PLE_PAGE_BYTES → ztake n (zdrop a (ztake DS4_PLE_PAGE_BYTES (zdrop o l))) = ztake n (zdrop (o + a) l).
Proof.
  intros Ho Ha Hn Hle. unfold ztake, zdrop, DS4_PLE_PAGE_BYTES in *. rewrite skipn_firstn_comm, take_take, drop_drop. f_equal; [lia|]. f_equal. lia.
Qed.
Lemma pieces {A} (l : list A) o a b : 0 <= o → 0 <= a → 0 <= b → ztake a (zdrop o l) ++ ztake b (zdrop (o + a) l) = ztake (a + b) (zdrop o l).
Proof.
  intros Ho Ha Hb. unfold ztake, zdrop. rewrite (Z2Nat.inj_add a b) by lia. rewrite <- (take_take_drop (drop (Z.to_nat o) l)). rewrite drop_drop. do 3 f_equal. lia.
Qed.

Lemma resolved_fits s g f o : mapped s → fits 64 g → resolve_row s g = inl (f, o) → fits 64 o ∧ o + row_stride (layout s) < 2 ^ 64.
Proof.
  intros Hm Hg H. destruct (Z.ltb_spec g (usable_vocabulary_rows (layout s))) as [Hlt|Hge].
  - destruct (row_place s g Hm ltac:(unfold fits in Hg; lia)) as (i & _ & _ & E & _ & Ho & Hend). rewrite H in E. injection E as -> ->.
    pose proof (mp_stride _ Hm). unfold fits. split; lia.
  - unfold resolve_row in H. by rewrite (proj2 (Z.leb_le _ _)) in H.
Qed.

Lemma view_shows s files st taken refs v : mapped s → coherent s files st taken refs → view_ok s st v →
  ∃ f o, resolve_row s (row v) = inl (f, o) ∧ view_bytes st v = ztake (row_stride (layout s)) (zdrop o (files f)).
Proof.
  intros Hm C (f & o & Hg & Hr & Hv). exists f, o. split; [done|]. destruct (resolved_fits s _ f o Hm Hg Hr) as [Ho Hend]. pose proof (mp_stride _ Hm) as Hst.
  set (stride := row_stride (layout s)) in *. pose proof (Z.mod_pos_bound o DS4_PLE_PAGE_BYTES ltac:(done)) as Hmod. pose proof (proj1 Ho) as Ho0.
  pose proof (page_of_spec o Ho) as Hpo. pose proof (within_page_spec o Ho) as Hwo. assert (0 <= page_of o) as Hp0.
  { rewrite Hpo. pose proof (Z.mod_le o DS4_PLE_PAGE_BYTES Ho0 ltac:(done)). lia. }
  assert (0 <= first_bytes stride o ∧ within_page o + first_bytes stride o <= DS4_PLE_PAGE_BYTES) as [Hf0 Hf1].
  { unfold first_bytes. rewrite Hwo in *. destruct (Z.leb_spec (o mod DS4_PLE_PAGE_BYTES + stride) DS4_PLE_PAGE_BYTES); lia. }
  assert (∀ p i, has_ready st f p i → data (slot_at st i) = page_bytes files f p) as Hd.
  { intros p i [[Hva (_ & <- & <-)] Hs]. by apply (co_ready _ _ _ _ _ C). }
  unfold view_bytes. destruct Hv as [(i & -> & Hle & Hi)|(i & j & -> & Hlt & Hi & Hj)]; cbn [map concat]; unfold segment_bytes; cbn [first_segment second_segment g_slot g_from g_bytes].
  - rewrite app_nil_r, (Hd _ _ Hi). unfold page_bytes. rewrite piece_in_page by lia. rewrite Hpo, Hwo.
    replace (first_bytes stride o) with stride by (pose proof (first_bytes_le s o ltac:(exact (proj1 Hst))) as Hfb; unfold stride in *; lia). do 2 f_equal. lia.
  - rewrite app_nil_r, (Hd _ _ Hi), (Hd _ _ Hj). unfold page_bytes. assert (first_bytes stride o = DS4_PLE_PAGE_BYTES - o mod DS4_PLE_PAGE_BYTES) as Efb.
    { unfold first_bytes in *. rewrite Hwo in *. destruct (Z.leb_spec (o mod DS4_PLE_PAGE_BYTES + stride) DS4_PLE_PAGE_BYTES); lia. }
    rewrite !piece_in_page by (unfold DS4_PLE_PAGE_BYTES in *; lia). rewrite Hpo, Hwo, Efb, Z.add_0_r.
    replace (o - o mod DS4_PLE_PAGE_BYTES + o mod DS4_PLE_PAGE_BYTES) with o by lia.
    replace (o - o mod DS4_PLE_PAGE_BYTES + DS4_PLE_PAGE_BYTES) with (o + (DS4_PLE_PAGE_BYTES - o mod DS4_PLE_PAGE_BYTES)) by lia.
    rewrite pieces by lia. f_equal. lia.
Qed.

(** ** A schedule that can be run *)

(** A section of a reader or a worker, the end of a whole read, or a call for a row. *)
Inductive move := ReaderMoves (k : nat) | WorkerMoves (k : nat) | PageRead (k : nat) | AsksRow (k : nat) (g : Z).

Fixpoint wake_one (ws : list worker) : list worker :=
  match ws with [] => [] | Sleeping :: ws => Starting :: ws | w :: ws => w :: wake_one ws end.
Definition wake_workers (w : wake) (ws : list worker) : list worker := match w with WakeWorker => wake_one ws | _ => ws end.

Definition play1 (s : sidecar) (files : Z → list Z) (m : move) (c : config) : option config :=
  match m with
  | ReaderMoves k => r ← readers c !! k; x ← reader_step s (store c) r;
      Some (Config x.1.1 (wake_workers x.2 (workers c)) (wake_all x.2 (<[k := x.1.2]> (readers c))))
  | WorkerMoves k => w ← workers c !! k; x ← worker_step (store c) w;
      Some (Config x.1.1 (wake_workers x.2 (<[k := x.1.2]> (workers c))) (wake_all x.2 (readers c)))
  | PageRead k => w ← workers c !! k; match w with
      | Reading it f o => Some (Config (on_slot (item_slot it) (fun x => with_data x (page_bytes files f o)) (store c)) (<[k := HasRead it 0]> (workers c)) (readers c))
      | _ => None end
  | AsksRow k g => r ← readers c !! k; match pc r, resolve_row s g with
      | Idle, inl (f, o) => if (0 <=? g) && (g <? 2 ^ 64) then Some (Config (store c) (workers c) (<[k := Reader (AtRequest (Acquisition g f o true None)) (views r)]> (readers c))) else None
      | _, _ => None end
  end.

Definition in_time (c : config) : bool := forallb (fun x => last_access x <? UINT64_MAX) (slots (store c)).

Fixpoint play (s : sidecar) (files : Z → list Z) (l : list move) (c : config) : option config :=
  match l with
  | [] => Some c
  | m :: l => c ← play1 s files m c; if in_time c then play s files l c else None
  end.

#[export] Instance work_item_eq : EqDecision ds4_ple_work_item.
Proof. solve_decision. Defined.
#[export] Instance worker_eq : EqDecision worker.
Proof. solve_decision. Defined.

Lemma wake_one_spec ws rs : woken WakeWorker ws rs (wake_one ws) rs.
Proof.
  destruct (decide (Sleeping ∈ ws)) as [H|H].
  - assert (∃ k, ws !! k = Some Sleeping ∧ wake_one ws = <[k := Starting]> ws) as (k & Hk & ->); [|by constructor].
    induction ws as [|w ws IH]; [by apply elem_of_nil in H|]. destruct (decide (w = Sleeping)) as [->|Hne]; [by exists O|].
    apply elem_of_cons in H as [?|H]; [done|]. destruct (IH H) as (k & Hk & E). exists (S k). split; [done|]. destruct w; try done; cbn; by rewrite E.
  - assert (wake_one ws = ws) as ->; [|by constructor]. induction ws as [|w ws IH]; [done|]. apply not_elem_of_cons in H as [H1 H2]. cbn. rewrite (IH H2). by destruct w.
Qed.

Lemma wake_workers_spec w ws rs : woken w ws rs (wake_workers w ws) (wake_all w rs).
Proof. destruct w; cbn; [constructor|apply wake_one_spec|constructor]. Qed.

Lemma play1_step s files m c c' : play1 s files m c = Some c' → step s files c c'.
Proof.
  intros H. destruct m as [k|k|k|k g]; cbn [play1] in H.
  - destruct (readers c !! k) as [r|] eqn:Er; [|done]. cbn in H. destruct (reader_step s (store c) r) as [[[st r'] a]|] eqn:Es; [|done]. injection H as <-.
    eapply step_reader; [exact Er|exact Es|apply wake_workers_spec].
  - destruct (workers c !! k) as [w|] eqn:Ew; [|done]. cbn in H. destruct (worker_step (store c) w) as [[[st w'] a]|] eqn:Es; [|done]. injection H as <-.
    apply step_work. eapply work_section; [exact Ew|exact Es|apply wake_workers_spec].
  - destruct (workers c !! k) as [w|] eqn:Ew; [|done]. cbn in H. destruct w as [| |it f o| |]; try done. injection H as <-. apply step_work. by eapply work_read.
  - destruct (readers c !! k) as [r|] eqn:Er; [|done]. cbn in H. destruct (pc r) eqn:Ep; try done. destruct (resolve_row s g) as [[f o]|] eqn:Eg; [|done].
    destruct ((0 <=? g) && (g <? 2 ^ 64)) eqn:Eb; [|done]. injection H as <-. eapply step_call; [exact Er|exact Ep|]. constructor; [unfold fits; lia|done].
Qed.

Lemma play_reachable s files l : ∀ c c', reachable s files c → play s files l c = Some c' → reachable s files c'.
Proof.
  induction l as [|m l IH]; intros c c' Hr H; cbn [play] in H; [by injection H as <-|].
  destruct (play1 s files m c) as [c1|] eqn:E; [|done]. cbn in H. destruct (in_time c1) eqn:Et; [|done]. apply (IH c1); [|done].
  eapply reachable_step; [exact Hr|by apply play1_step in E|]. unfold in_time in Et. rewrite forallb_forall in Et. apply Forall_forall. intros x Hx%list_elem_of_In%Et. lia.
Qed.

Lemma small_mapped : mapped small_sidecar.
Proof. apply (host_mapped small_host small_sidecar 16 small_host_ok). vm_compute. reflexivity. Qed.

(** Files that can be told apart, and the store of one worker and one reader. *)
Definition small_files (f : Z) : list Z := map (λ i, (i + f) mod 251) (seqZ 0 8192).
Definition small_start : config := Config (store_start 16 []) (replicate 1 Starting) (replicate 1 (Reader Idle [])).
Lemma small_reachable : reachable small_sidecar small_files small_start.
Proof. by apply reachable_start. Qed.

(** The reader asks for a row that crosses from the first page into the second one, and
    has it. *)
Definition read_a_row : list move :=
  [AsksRow 0 25; ReaderMoves 0; ReaderMoves 0; WorkerMoves 0; PageRead 0; WorkerMoves 0; ReaderMoves 0; ReaderMoves 0;
   WorkerMoves 0; PageRead 0; WorkerMoves 0; ReaderMoves 0; ReaderMoves 0].

Definition after (l : list move) : config := default small_start (play small_sidecar small_files l small_start).

Lemma after_reachable l : play small_sidecar small_files l small_start ≠ None → reachable small_sidecar small_files (after l).
Proof.
  intros H. unfold after. destruct (play small_sidecar small_files l small_start) as [c|] eqn:E; [|done]. eapply play_reachable; [apply small_reachable|exact E].
Qed.

(** ** The properties *)

(** C31: Rows read through the cache are the rows of the files. Whatever readers, workers
    and the disk do - readers that acquire, prefetch and release, pages evicted and read
    again, reads that fail or write their page bit by bit, spurious wake-ups, a store that
    stops - every view that a reader holds shows, at that moment, the bytes of its row as
    they are in the file: all of them, whether the row lies in one page or crosses into
    the next. *)
Theorem views_show_their_rows s files c k r v : mapped s → reachable s files c → readers c !! k = Some r → v ∈ views r →
  ∃ f o, resolve_row s (row v) = inl (f, o) ∧ view_bytes (store c) v = ztake (row_stride (layout s)) (zdrop o (files f)).
Proof.
  intros Hm Hr Hk Hv. pose proof (reachable_good s files Hm c Hr) as G. pose proof (gd_readers _ _ _ G) as Hf. rewrite Forall_lookup in Hf.
  destruct (Hf k r Hk) as [[_ Hvs] _]. rewrite Forall_forall in Hvs. eapply view_shows; [done|apply G|by apply Hvs].
Qed.

Lemma row_is_read : let c := after read_a_row in reachable small_sidecar small_files c ∧
  ∃ v, readers c !! 0%nat = Some (Reader Idle [v]) ∧ resolve_row small_sidecar (row v) = inl (0, 4000) ∧ row_stride (layout small_sidecar) = 160.
Proof.
  split; [apply after_reachable; vm_compute; discriminate|]. exists (View 25 [Segment 15 4000 96; Segment 14 0 64]). split; [|split]; vm_compute; reflexivity.
Qed.

Example views_show_their_rows_witness : ∃ v r, readers (after read_a_row) !! 0%nat = Some r ∧ v ∈ views r ∧
  view_bytes (store (after read_a_row)) v = ztake 160 (zdrop 4000 (small_files 0)).
Proof.
  destruct row_is_read as (Hr & v & Hk & Hrow & Hs).
  destruct (views_show_their_rows small_sidecar small_files _ 0 _ v small_mapped Hr Hk ltac:(by left)) as (f & o & E & Hv).
  rewrite Hrow in E. rewrite Hs in Hv. injection E as <- <-. exists v, (Reader Idle [v]). split; [exact Hk|]. split; [by left|]. exact Hv.
Defined.

(** C32: The page cache stays coherent. In every configuration that can be reached the
    reference count of a slot is the number of references that readers hold to it; the
    slots that load are exactly those that are queued or being read, each of them once;
    a slot that is ready holds the bytes of its page; no two slots hold the same page,
    a failed read that nobody refers to apart; a worker that comes back from its read
    finds its slot still waiting for it; and the ring of pages to be read has room for
    every request. *)
Theorem page_cache_coherent s files c : mapped s → reachable s files c → let st := store c in
  (∀ i, valid st i → refcount (slot_at st i) = count (all_slots (readers c)) i) ∧
  NoDup (map item_slot (ring st ++ inflight (workers c))) ∧
  (∀ i, valid st i → state (slot_at st i) = PAGE_LOADING ↔ i ∈ map item_slot (ring st ++ inflight (workers c))) ∧
  (∀ i, valid st i → state (slot_at st i) = PAGE_READY → data (slot_at st i) = page_bytes files (file_index (slot_at st i)) (page_offset (slot_at st i))) ∧
  (∀ i j, valid st i → valid st j → live (slot_at st i) → live (slot_at st j) →
     file_index (slot_at st i) = file_index (slot_at st j) → page_offset (slot_at st i) = page_offset (slot_at st j) → i = j) ∧
  (∀ it saved, HasRead it saved ∈ workers c → worker_done st it saved = on_slot (item_slot it) (settled saved) (with_stats st (count_read saved))) ∧
  (∀ f o hold, page_ok s f o → (request_once st f o hold).2 ≠ PageQueueFull).
Proof.
  intros Hm Hr. cbv zeta. pose proof (reachable_good s files Hm c Hr) as G. pose proof (gd_coherent _ _ _ G) as C.
  split; [apply C|]. split; [apply C|]. split; [|split; [apply C|split; [apply C|split]]].
  - intros i Hv. split; [by apply (co_loading _ _ _ _ _ C)|]. intros (it & -> & Hit)%list_elem_of_fmap. pose proof (co_items _ _ _ _ _ C) as Hall. rewrite Forall_forall in Hall.
    by destruct (Hall it Hit) as (_ & ? & _).
  - intros it saved (k & Hk)%list_elem_of_lookup. apply (worker_done_slot s files (store c) (inflight (<[k := Starting]> (workers c))) (refs_of (readers c))).
    eapply coherent_perm; [|exact C]. exact (inflight_split _ k _ Hk).
  - intros f o hold Hp E. destruct (request_once (store c) f o hold) as [st' x] eqn:Er. cbn in E. subst x.
    by destruct (request_spec s files _ _ _ f o hold st' PageQueueFull C Hp Er) as (_ & _ & _ & _ & _ & []).
Qed.

Lemma row_is_asked : let c := after (take 3 read_a_row) in reachable small_sidecar small_files c ∧ valid (store c) 15 ∧ count (all_slots (readers c)) 15 = 1.
Proof. split; [apply after_reachable; vm_compute; discriminate|]. split; [split; vm_compute; [discriminate|reflexivity]|vm_compute; reflexivity]. Qed.

(** After the first page is requested. *)
Example page_cache_coherent_witness : refcount (slot_at (store (after (take 3 read_a_row))) 15) = 1.
Proof.
  destruct row_is_asked as (Hr & Hv & Hc). destruct (page_cache_coherent small_sidecar small_files _ small_mapped Hr) as [H _]. rewrite (H 15 Hv). exact Hc.
Defined.

(** *** What the workers bring about *)

Definition weight (w : worker) : Z := match w with Sleeping | Exited => 0 | Starting => 1 | HasRead _ _ => 2 | Reading _ _ _ => 3 end.
Definition weights (ws : list worker) : Z := foldr Z.add 0 (map weight ws).
(** The steps that workers can still take. *)
Definition work_left (c : config) : Z := 3 * queue_count (store c) + weights (workers c).

Lemma weights_insert ws k w w' : ws !! k = Some w → weights (<[k := w']> ws) = weights ws - weight w + weight w'.
Proof.
  unfold weights. revert k. induction ws as [|x ws IH]; intros [|k] H; try done; cbn in *; [injection H as <-; lia|].
  etransitivity; [exact (f_equal (Z.add _) (IH k H))|lia].
Qed.
Lemma weights_nonneg ws : 0 <= weights ws.
Proof. unfold weights. induction ws as [|[] ws IH]; cbn in *; lia. Qed.

Lemma work_decreases files c c' : work files c c' → work_left c' < work_left c ∧ stopping (store c') = stopping (store c).
Proof.
  unfold work_left. destruct 1 as [c k w st w' a ws rs Hk Hs Hw|c k it f o saved bytes Hk Hb]; cbn [store workers readers].
  - destruct w as [| |it f o|it saved|]; try done; cbn [worker_step] in Hs.
    + destruct (stopping (store c)) eqn:Est; [|destruct (queue_count (store c) =? 0)]; injection Hs as <- <- <-; inversion Hw; subst; rewrite (weights_insert _ _ _ _ Hk); cbn; split; done || lia.
    + injection Hs as <- <- <-. assert (ws = <[k := Starting]> (workers c)) as -> by (destruct (_ || _); by inversion Hw). rewrite (weights_insert _ _ _ _ Hk).
      unfold worker_done. destruct (_ && _); cbn; (split; [lia|done]).
  - rewrite (weights_insert _ _ _ _ Hk). cbn. split; [lia|done].
Qed.

(** Where no worker has anything to do, all of them sleep. *)
Lemma all_asleep files c : (∀ c', ¬ work files c c') → (Exited ∉ workers c) → ∀ w, w ∈ workers c → w = Sleeping.
Proof.
  intros Hno Hex w (k & Hk)%list_elem_of_lookup. destruct w as [| |it f o|it saved|]; try done.
  - exfalso. destruct (worker_step (store c) Starting) as [[[st w'] a]|] eqn:E.
    + eapply Hno. eapply work_section; [exact Hk|exact E|apply wake_workers_spec].
    + cbn in E. destruct (stopping (store c)); [done|]. by destruct (queue_count (store c) =? 0).
  - exfalso. eapply (Hno _). eapply (work_read files c k it f o 1 []); done.
  - exfalso. eapply Hno. eapply work_section; [exact Hk|reflexivity|apply wake_workers_spec].
  - destruct Hex. by eapply list_elem_of_lookup_2.
Qed.

Lemma work_length files c c' : work files c c' → length (workers c') = length (workers c).
Proof.
  destruct 1 as [c k w st w' a ws rs Hk Hs Hw|c k it f o saved bytes Hk Hb]; cbn [workers]; [|apply length_insert].
  assert (length ws = length (<[k := w']> (workers c))) as ->; [|apply length_insert]. destruct Hw; by rewrite ?length_insert.
Qed.

Lemma steps_good s files c c' n : good s files c → stopping (store c) = false → nsteps (work files) n c c' →
  good s files c' ∧ stopping (store c') = false ∧ Z.of_nat n <= work_left c - work_left c' ∧ (workers c ≠ [] → workers c' ≠ []).
Proof.
  intros G Hs H. induction H as [c|n c c1 c2 H1 H2 IH]; [split; [done|]; split; [done|]; split; [lia|done]|].
  destruct (work_decreases files c c1 H1) as [Hlt Hst]. destruct IH as (G2 & S2 & L2 & N2); [by eapply work_good|by rewrite Hst|].
  split; [done|]. split; [done|]. split; [lia|]. intros Hne. apply N2. intros E. apply Hne, nil_length_inv. by rewrite <- (work_length files c c1 H1), E.
Qed.

(** C33: Nobody waits for ever. As long as the store is not being stopped and has a
    worker, the workers settle every page that loads: from any reachable configuration
    they take no more steps than [work_left] says, and where they have none left - all of
    them asleep - no page loads any more, no reader sleeps on a page, and a reader that
    sleeps because it found no slot faces a set all of whose slots are referred to by
    readers, whose releases will wake it. *)
Theorem pages_settle s files c n c' : mapped s → reachable s files c → stopping (store c) = false → workers c ≠ [] → nsteps (work files) n c c' →
  Z.of_nat n <= work_left c ∧
  ((∀ c'', ¬ work files c' c'') →
    (∀ w, w ∈ workers c' → w = Sleeping) ∧
    (∀ i, valid (store c') i → state (slot_at (store c') i) ≠ PAGE_LOADING) ∧
    (∀ r a, r ∈ readers c' → (∀ i, pc r ≠ PageAsleep a i) ∧
       (pc r = SetAsleep a → ∀ i, in_set (store c') (q_file a) (q_page a) i → refcount (slot_at (store c') i) ≠ 0))).
Proof.
  intros Hm Hr Hs Hne Hn. pose proof (reachable_good s files Hm c Hr) as G. destruct (steps_good s files c c' n G Hs Hn) as (G' & Hs' & Hle & Hne').
  pose proof (gd_coherent _ _ _ G') as C. pose proof (sh_count _ (co_shape _ _ _ _ _ C)) as Hq. pose proof (weights_nonneg (workers c')) as Hw0.
  split; [unfold work_left in *; lia|]. intros Hno. assert (∀ w, w ∈ workers c' → w = Sleeping) as Hall.
  { apply (all_asleep files); [done|]. intros He%(gd_exited _ _ _ G'). by rewrite He in Hs'. }
  assert (∀ i, valid (store c') i → state (slot_at (store c') i) ≠ PAGE_LOADING) as Hnl.
  { intros i Hv Hl. pose proof (co_loading _ _ _ _ _ C i Hv Hl) as Hin. assert (inflight (workers c') = []) as Ei.
    { clear - Hall. induction (workers c') as [|w ws IH]; [done|]. unfold inflight in *. cbn. rewrite (Hall w) by (by left). apply IH. intros; apply Hall; by right. }
    rewrite Ei, app_nil_r in Hin. destruct (Z.eqb_spec (queue_count (store c')) 0) as [E|E].
    - apply list_elem_of_fmap in Hin as (it & _ & Hin). unfold ring in Hin. rewrite E in Hin. by apply elem_of_nil in Hin.
    - destruct (gd_awake _ _ _ G' Hs' E (Hne' Hne)) as (w & Hw & Hww). by rewrite (Hall w Hw) in Hww. }
  split; [done|]. split; [done|]. intros r a Hin. pose proof (gd_readers _ _ _ G') as Hf. rewrite Forall_forall in Hf. destruct (Hf r Hin) as [[Hp _] Hsl]. split.
  - intros i E. rewrite E in Hp, Hsl. cbn in Hp, Hsl. destruct Hp as [_ [Hv _]], Hsl as [Hl _]. by apply (Hnl i).
  - intros E i Hi. rewrite E in Hsl. cbn in Hsl. pose proof (first_way_bounds _ (q_file a) (q_page a) (co_shape _ _ _ _ _ C)) as Hb.
    assert (valid (store c') i) as Hv by (unfold in_set, valid in *; lia). destruct (Hsl i Hi) as [Hl|[_ ?]]; [|by destruct (Hnl i)|done].
    apply clock_at; [apply (gd_clock _ _ _ G')|done].
Qed.

(** Moves of workers alone. *)
Lemma play_work s files l : ∀ c c', forallb (λ m, match m with WorkerMoves _ | PageRead _ => true | _ => false end) l = true →
  play s files l c = Some c' → nsteps (work files) (length l) c c'.
Proof.
  induction l as [|m l IH]; intros c c' Hl H; cbn [play] in H; [injection H as <-; constructor|]. cbn in Hl. apply andb_true_iff in Hl as [Hm Hl].
  destruct (play1 s files m c) as [c1|] eqn:E; [|done]. cbn in H. destruct (in_time c1); [|done]. cbn [length]. econstructor; [|by apply IH].
  clear - E Hm. destruct m as [k|k|k|k g]; try done; cbn [play1] in E; destruct (workers c !! k) as [w|] eqn:Ew; try done; cbn in E.
  - destruct (worker_step (store c) w) as [[[st w'] a]|] eqn:Es; [|done]. injection E as <-. eapply work_section; [exact Ew|exact Es|apply wake_workers_spec].
  - destruct w as [| |it f o| |]; try done. injection E as <-. by eapply work_read.
Qed.

Lemma none_left files c : Forall (λ w, w = Sleeping) (workers c) → ∀ c', ¬ work files c c'.
Proof.
  intros Hf c' H. rewrite Forall_lookup in Hf. destruct H as [c k w st w' a ws rs Hk Hs Hw|c k it f o saved bytes Hk Hb]; pose proof (Hf k _ Hk); [|done]. by subst w.
Qed.

(** The reader sleeps on its first page; four steps of the worker later the page is
    there. *)
Definition one_page : list move := [WorkerMoves 0; PageRead 0; WorkerMoves 0; WorkerMoves 0].

Lemma asks_then_settles : let c := after (take 3 read_a_row) in reachable small_sidecar small_files c ∧ workers c ≠ [] ∧ stopping (store c) = false ∧
  state (slot_at (store c) 15) = PAGE_LOADING ∧ ∃ c', nsteps (work small_files) 4 c c' ∧ workers c' = [Sleeping].
Proof.
  cbv zeta. split; [apply after_reachable; vm_compute; discriminate|]. split; [vm_compute; discriminate|]. split; [vm_compute; reflexivity|]. split; [vm_compute; reflexivity|].
  assert (match play small_sidecar small_files one_page (after (take 3 read_a_row)) with Some c' => workers c' = [Sleeping] | None => False end) as Hp by (vm_compute; reflexivity).
  revert Hp. generalize (play_work small_sidecar small_files one_page (after (take 3 read_a_row))). generalize (after (take 3 read_a_row)). intros c Hw.
  destruct (play small_sidecar small_files one_page c) as [c'|]; [|done]. intros Hc. exists c'. split; [by apply (Hw c')|done].
Qed.

Example pages_settle_witness : ∃ c c', nsteps (work small_files) 4 c c' ∧ Z.of_nat 4 <= work_left c ∧
  state (slot_at (store c) 15) = PAGE_LOADING ∧ (∀ i, valid (store c') i → state (slot_at (store c') i) ≠ PAGE_LOADING).
Proof.
  destruct asks_then_settles as (Hr & Hne & Hst & Hl & c' & Hn & Hw).
  destruct (pages_settle small_sidecar small_files _ 4 c' small_mapped Hr Hst Hne Hn) as [Hle Hend]. eexists _, c'. split; [exact Hn|]. split; [exact Hle|].
  split; [exact Hl|]. apply Hend, none_left. rewrite Hw. by apply Forall_singleton.
Defined.
